(* ===== verification/_CoqProject ===== *)
-Q . S2P
Prelude.v
Effects.v
Window.v
RlcConfig.v
RlcAmPdu.v
RlcAmPduFacts.v
Timers.v
Segments.v
RlcRxAm.v
RlcRxAmWindow.v
RlcRxAmStatus.v
RlcRxAmProps.v
RlcRxAmTheorems.v
RlcUmPdu.v
RlcRxUm.v
RlcRxUmInv.v
RlcRxUmRefine.v
RlcRxUmSafety.v
RlcRxUmProps.v
BatchedQueue.v
BitEncoding.v
BitFields.v
NruPacking.v
GtpuPdu.v
GtpuPduFacts.v
TokenBucket.v
GtpuNgu.v
GtpuNguRefine.v
GtpuNguTheorems.v
GtpuNru.v
GtpuPath.v
F1u.v
F1uEndToEnd.v
F1uStatus.v
PdcpSn.v
Snow3gTables.v
Snow3g.v
Zuc.v
Ciphering.v
Security.v
PdcpBase.v
PdcpRx.v
PdcpRxFacts.v
PdcpRxSystem.v
PdcpRxTheorems.v
PdcpTx.v
PdcpTxFacts.v
PdcpTxInv.v
PdcpTxDiscard.v
PdcpTxReorder.v
PdcpTxSystem.v
PdcpTxSend.v
PdcpTxControl.v
PdcpTxRuns.v
PdcpTxTheorems.v
PdcpEndToEnd.v
SduQueue.v
SduQueueThreads.v
RetxQueue.v
RlcTxUm.v
RlcTxUmInv.v
RlcTxUmSteps.v
RlcTm.v
RlcUmEndToEnd.v
RlcUmTheorems.v
RlcTxAm.v
RlcTxAmInv.v
RlcTxAmSend.v
RlcTxAmStatus.v
RlcTxAmSteps.v
RlcTxAmTheorems.v
MacUlSch.v
MacUlSchFacts.v
MacUlRx.v
MacUlTheorems.v
MacDlSch.v
MacDlTheorems.v
MacDlRlc.v
SchedHarq.v
SchedHarqTheorems.v
