(* ===== verification/Prelude.v ===== *)
(** * The user plane of srsRAN in Rocq: HARQ processes, MAC PDUs, RLC, PDCP, F1-U, GTP-U and access stratum security

    A verification library for the user plane entities of srsRAN_Project (all paths are below
    [src/srsRAN_Project/]).  This header is the guide to it.

    ** The program and its parts

    An SDU enters PDCP ([lib/pdcp/pdcp_entity_tx.cpp]), which numbers it with a COUNT, protects it in
    crypto workers ([lib/security]) and hands the PDUs in order to RLC ([lib/rlc]).  RLC queues the
    SDU ([rlc_sdu_queue_lockfree.h]), cuts it into the grants of MAC and retransmits what a status PDU
    of the peer reports missing.  The receiving RLC entity reassembles the SDUs and compiles those
    status PDUs; PDCP of the receiving side deciphers, reorders and delivers.  MAC ([lib/mac]) fills transport
    blocks with what the RLC bearers hand out, and gives them the SDUs of the PDUs it receives; the scheduler keeps the HARQ processes
    ([lib/scheduler/cell]) in which the blocks are sent, acknowledged and retransmitted.  With a split gNB the two
    layers sit in different nodes, joined by the F1-U bearers ([lib/f1u]), which carry the SDUs and
    the delivery status as NR-U messages ([lib/nru]) over GTP-U ([lib/gtpu]); the CU-UP receives the
    SDUs of the core network from the NG-U tunnel, which orders them and limits their rate.  The entities
    interact through calls (modelled as emitted events), timers and tasks of executors.

    ** Files, components and source

    - Foundations: [Prelude] (machine integers [u8], [u16], [u32], lists of octets, tactics);
      [Effects] (the monad of state, events and aborts, with its [wp] calculus and loop rules).
    - Shared data: [Window] ([include/srsran/adt/circular_map.h], [include/srsran/support/sdu_window.h]);
      [Timers] (the front end of [unique_timer]); [BitEncoding], [BitFields]
      ([lib/support/bit_encoding.cpp]; [BitFields] adds a monad for decoders and the lemmas that a
      message packed field by field is read back); [TokenBucket] ([lib/support/rate_limiting]);
      [BatchedQueue] ([include/srsran/adt/batched_dispatch_queue.h], every
      access to shared memory a step);
      [RlcConfig] (configurations of [include/srsran/rlc]; the types of the transmitting side are in [RlcTxUm]).
    - RLC AM PDUs: [RlcAmPdu] (header and status PDU of [lib/rlc/rlc_am_pdu.{h,cpp}]), [RlcAmPduFacts].
    - RLC AM receiver: [Segments] (segment store), [RlcRxAm] ([lib/rlc/rlc_rx_am_entity.{h,cpp}]),
      [RlcRxAmWindow], [RlcRxAmStatus], [RlcRxAmProps] (invariant and operations), [RlcRxAmTheorems].
    - RLC AM transmitter: [SduQueue] ([lib/rlc/rlc_sdu_queue_lockfree.h], whole operations),
      [SduQueueThreads] (the same, every access of its two threads to shared memory a step), [RetxQueue]
      ([lib/rlc/rlc_retx_queue.h]), [PdcpSn] ([include/srsran/pdcp/pdcp_sn_util.h]), [RlcTxAm]
      ([lib/rlc/rlc_tx_am_entity.{h,cpp}]), [RlcTxAmInv], [RlcTxAmSend],
      [RlcTxAmStatus], [RlcTxAmSteps], [RlcTxAmTheorems].
    - RLC UM: [RlcUmPdu] ([lib/rlc/rlc_um_pdu.h]); receiver [RlcRxUm] ([lib/rlc/rlc_rx_um_entity.{h,cpp}]),
      [RlcRxUmInv] (an abstract receiver with unbounded numbers, and the invariant), [RlcRxUmRefine],
      [RlcRxUmSafety], [RlcRxUmProps]; transmitter [RlcTxUm] ([lib/rlc/rlc_tx_um_entity.{h,cpp}]), [RlcTxUmInv],
      [RlcTxUmSteps]; both together [RlcUmEndToEnd], [RlcUmTheorems].
    - RLC TM: [RlcTm] ([lib/rlc/rlc_tx_tm_entity.{h,cpp}], [lib/rlc/rlc_rx_tm_entity.{h,cpp}]).
    - MAC: [MacUlSch] (subPDUs, buffer status and power headroom reports: [lib/mac/mac_ul/mac_ul_sch_pdu.{h,cpp}],
      [lcid_ul_sch.h], [ul_bsr.{h,cpp}], [ul_phr.h]), [MacUlSchFacts]; [MacUlRx] ([pdu_rx_handler.{h,cpp}],
      [mac_ul_ue_manager.{h,cpp}], [lib/mac/rnti_value_table.h]), [MacUlTheorems]; [MacDlSch]
      ([lib/mac/mac_dl/dl_sch_pdu_assembler.{h,cpp}], [mac_dl_ue_repository.{h,cpp}]), over bearers of the class
      [MacSduTxBuilder]; [MacDlTheorems]; [MacDlRlc] (the adapter between MAC and RLC, an instance
      of the class for the UM, AM and TM entities).
    - Scheduler: [SchedHarq] (slots, [include/srsran/ran/slot_point.h], and the HARQ processes of a cell in one direction,
      [lib/scheduler/cell/cell_harq_manager.{h,cpp}]), [SchedHarqTheorems].
    - Security: [Snow3gTables], [Snow3g] ([lib/security/s3g.{h,cpp}]), [Zuc] ([lib/security/zuc.cpp]),
      [Ciphering] (NEA1, NEA3, NIA1, NIA3), [Security] (the engines of [lib/security]; AES of mbedTLS
      is the class [SecurityAlgorithms] with the laws [SecurityLaws]).
    - PDCP: [PdcpBase] (COUNTs, headers, crypto tokens), [PdcpRx] ([lib/pdcp/pdcp_entity_rx.{h,cpp}]),
      [PdcpRxFacts], [PdcpRxSystem], [PdcpRxTheorems]; [PdcpTx] ([lib/pdcp/pdcp_entity_tx.{h,cpp}],
      [lib/pdcp/pdcp_tx_window.{h,cpp}]), [PdcpTxFacts], [PdcpTxInv], [PdcpTxDiscard], [PdcpTxReorder],
      [PdcpTxSystem], [PdcpTxSend], [PdcpTxControl], [PdcpTxRuns], [PdcpTxTheorems]; [PdcpEndToEnd].

    - GTP-U: [GtpuPdu], [GtpuPduFacts] ([lib/gtpu/gtpu_pdu.{h,cpp}]);
      NG-U tunnel [GtpuNgu] ([gtpu_tunnel_ngu_{rx,tx}_impl.h]), [GtpuNguRefine] (an abstract receiver with
      unbounded numbers, and the refinement), [GtpuNguTheorems]; NR-U tunnel [GtpuNru]; [GtpuPath]
      (demultiplexer, TEID pool and path management: [gtpu_demux_impl.{h,cpp}], [gtpu_teid_pool_impl.h],
      [gtpu_echo_{rx,tx}_impl.h]).
    - F1-U: [NruPacking] ([lib/nru], [lib/psup]); [F1u] (the bearers of [lib/f1u/{cu_up,du}/f1u_bearer_impl.cpp]);
      [F1uEndToEnd], [F1uStatus] (both bearers over the class [F1uLink], whose instances are the local
      connector and the NR-U tunnels).

    An entity is a Record with the members of its class; an operation is a function in the monad
    [M S E A], named as the member function it models; a call of a neighbour is an event.  A failing
    [srsran_assert], a missing window entry or an exception is [Fault FaultAssert].

    ** What the theorems show

    - RLC AM receiver: never aborts on octets whose segments end within 65535 octets, its window invariant, exact status
      reports, delivery of the sent SDUs whatever is lost, repeated or resegmented; longer segments do abort it.
    - RLC AM transmitter: never aborts while accepted status PDUs acknowledge nothing that was not sent, window invariant,
      content of each PDU, progress, what a status PDU acknowledges and retransmits, polling, exact buffer state; a status
      PDU that does abort it; the SDU queue refines a FIFO, and still does when the accesses of its two threads interleave.
    - RLC UM: the receiver never aborts on any octets and refines the abstract receiver; the transmitter
      sends the accepted SDUs, whole or cut without gap, and always makes progress; together they
      deliver each SDU once; two cases in which the code misbehaves.  RLC TM delivers in order.
    - PDCP, in any interleaving of its calls with crypto tasks and timers within [op_ok]: no abort; in-order delivery and hand-over, window invariants, timers, status reports,
      re-establishment, data recovery, flushing; transmitter and receiver together; three runs outside
      [op_ok] that abort the process.
    - F1-U and GTP-U: what an NR-U message, an extension header or a container packs to is read back; no
      octets make a tunnel abort; the NG-U receiver refines the abstract one and delivers in order;
      over any link the DU discards and delivers what the CU-UP was given, and the CU-UP is told what
      the DU was told; the limiter grants what the bucket holds;
      the demultiplexer hands every PDU to the tunnel of its TEID, in order; no TEID is handed out
      twice; two cases in which the code misbehaves.
    - MAC: unpacking any octets ends within them with exactly the subPDUs they consist of by TS 38.321 (three kinds of control
      elements aside, whose sizes the code does not know); the SDUs of a PDU go to the
      bearers of its UE and the reports to the scheduler, in order, whatever octets arrive, except for one report that
      is read out of bounds; a Msg3 goes on as a task of the UE it names, which ends as well.  A transport block holds exactly what the scheduler
      and the bearers give, fits, and is read back (timing advance commands of the primary group); the SDUs in it are the next PDUs of the RLC entity.
    - HARQ: every process is in the lists its state asks for, so that no call faults; it is released in the slots of its bucket
      of the wheel, so after at most one round, and exactly in the slot of its timeout where the timeouts configured fit the
      wheel; of several reports the one of the best signal counts; two configurations in which a timeout is beyond the
      wheel and the process is lost too early.
    - Batched queue: in every interleaving one thread dequeues at a time, the count of jobs is exact, nothing is reordered or
      left behind, and nothing is dropped unless the executor refuses a task; a run in which two producers get each other's answers.
    - Security: what an engine protects its counterpart opens; the tables of SNOW 3G are the
      specification's operations.

    ** Reachability, assumptions and bounds

    Each entity has an inductive relation [reachable] over its operations, in any order.  The predicate
    [operation_ok] or [op_ok] says what the callers respect: octets are octets, PDUs fit the sizes of
    the interfaces, the clock does not go back, and, for PDCP TX, the conditions whose violation the
    error theorems show to abort ([no_gap], [notification_ok], [crypto_succeeds]).  Witnesses run
    concrete bearers through these relations.  The RLC UM and TM entities have [rx_run], [tx_run] and
    [tm_run] instead, the NG-U tunnel [ngu_run], the F1-U bearers [cu_run] and [du_run], which also
    record what went in and came out; the batched queue has [reach] over its atomic steps, the HARQ processes
    [cell_reachable], whose [op_ok] keeps transmissions within the scheduler's delay and the slots consecutive.

    Loops carry fuel: the size of the window or of the SN space ([sn_fuel], [mod_]), the length of the
    queue ([retx_fuel]), the distance of two COUNTs ([ack_fuel], [deliv_fuel]), or the length of the
    buffer flushed.  Exhausted fuel is [Fault FaultFuel], which satisfies no [wp]: every theorem that
    an operation does not fault proves that its fuel is enough.

    ** Not modelled

    Logging, latencies, pcap, metrics beyond the events; the contents of [byte_buffer] segments
    (buffers are lists of octets and allocation succeeds); thread interleavings inside one operation
    (except for the batched queue and the SDU queue);
    executors (a task is an event, a refusal an argument); the timer wheel; ROHC; AES and its modes
    (mbedTLS).  The control plane works on ASN.1 types generated from specifications, the physical
    layer on floating point vectors, the policies of the scheduler and the rest of the MAC (random access, system information, paging,
    cell and UE control) on large cell configurations: these parts are left out.  Of the HARQ manager the allocation history of NTN HARQ mode B is left out. *)

From Stdlib Require Export ZArith Lia List.
From stdpp Require Export base tactics numbers option gmap list.
Import ListNotations.
Open Scope Z_scope.

(** ** Machine integers *)

(** Truncation to the unsigned widths the code stores values in. *)
Definition u8  (x : Z) : Z := x mod 2 ^ 8.
Definition u16 (x : Z) : Z := x mod 2 ^ 16.
Definition u32 (x : Z) : Z := x mod 2 ^ 32.

Definition is_byte (b : Z) : Prop := 0 <= b < 256.

(** Length of a list as an integer. *)
Definition zlen {A} (l : list A) : Z := Z.of_nat (length l).

(** [vector::back()], when there is one. *)
Notation back := list.last.

Ltac zmod := Z.to_euclidean_division_equations; lia.

Lemma u8_small x : 0 <= x < 256 -> u8 x = x.
Proof. intros. apply Z.mod_small. lia. Qed.
Lemma u16_small x : 0 <= x < 65536 -> u16 x = x.
Proof. intros. apply Z.mod_small. lia. Qed.
Lemma u32_small x : 0 <= x < 4294967296 -> u32 x = x.
Proof. intros. apply Z.mod_small. lia. Qed.
Lemma u8_range x : 0 <= u8 x < 256.
Proof. apply Z.mod_pos_bound. lia. Qed.
Lemma u16_range x : 0 <= u16 x < 65536.
Proof. apply Z.mod_pos_bound. lia. Qed.
Lemma u32_range x : 0 <= u32 x < 4294967296.
Proof. apply Z.mod_pos_bound. lia. Qed.

Lemma zlen_nonneg {A} (l : list A) : 0 <= zlen l.
Proof. unfold zlen. lia. Qed.
Lemma zlen_nil {A} : zlen (@nil A) = 0.
Proof. done. Qed.
Lemma zlen_cons {A} (x : A) l : zlen (x :: l) = zlen l + 1.
Proof. unfold zlen. simpl. lia. Qed.
Lemma zlen_app {A} (l k : list A) : zlen (l ++ k) = zlen l + zlen k.
Proof. unfold zlen. rewrite length_app. lia. Qed.
Lemma zlen_take {A} n (l : list A) : 0 <= n -> zlen (take (Z.to_nat n) l) = n `min` zlen l.
Proof. intros. unfold zlen. rewrite length_take. lia. Qed.
Lemma zlen_drop {A} n (l : list A) : 0 <= n -> zlen (drop (Z.to_nat n) l) = 0 `max` (zlen l - n).
Proof. intros. unfold zlen. rewrite length_drop. lia. Qed.
Lemma zlen_zero_nil {A} (l : list A) : zlen l = 0 -> l = [].
Proof. destruct l; [done|]. rewrite zlen_cons. pose proof (zlen_nonneg l). lia. Qed.

Create HintDb zl.
#[export] Hint Rewrite @zlen_nil @zlen_cons @zlen_app : zl.
#[export] Hint Resolve zlen_nonneg u8_range u16_range u32_range : zl.

(** Substring of a buffer: [n] bytes from offset [o]. *)
Definition sub {A} (o n : Z) (l : list A) : list A :=
  take (Z.to_nat n) (drop (Z.to_nat o) l).

Lemma zlen_sub {A} o n (l : list A) :
  0 <= o -> 0 <= n -> o + n <= zlen l -> zlen (sub o n l) = n.
Proof.
  intros. unfold sub. rewrite zlen_take by lia. rewrite zlen_drop by lia. lia.
Qed.

Lemma sub_app {A} o n k (l : list A) :
  0 <= o -> 0 <= n -> 0 <= k -> sub o n l ++ sub (o + n) k l = sub o (n + k) l.
Proof.
  intros. unfold sub.
  rewrite (Z2Nat.inj_add n k), (Z2Nat.inj_add o n) by lia.
  rewrite <- drop_drop.
  generalize (drop (Z.to_nat o) l) as r. generalize (Z.to_nat n) as i.
  induction i as [|i IH]; intros [|x r]; simpl; rewrite ?take_nil, ?app_nil_r; auto.
  f_equal. apply IH.
Qed.

Lemma sub_all {A} (l : list A) : sub 0 (zlen l) l = l.
Proof. unfold sub, zlen. rewrite Nat2Z.id. simpl. apply firstn_all. Qed.

Lemma sub_drop {A} o n k (l : list A) :
  0 <= o -> 0 <= k <= n -> drop (Z.to_nat k) (sub o n l) = sub (o + k) (n - k) l.
Proof.
  intros. unfold sub.
  rewrite skipn_firstn_comm, drop_drop. f_equal; [lia|]. f_equal. lia.
Qed.

(** ** Bit operations of the codecs, as arithmetic *)

Lemma lor_shiftl_add a b n : 0 <= n -> 0 <= b < 2 ^ n -> Z.lor (Z.shiftl a n) b = a * 2 ^ n + b.
Proof.
  intros Hn Hb. pose proof (Z.add_lor_land (Z.shiftl a n) b) as E.
  enough (Z.land (Z.shiftl a n) b = 0) as E0 by (rewrite <- (Z.shiftl_mul_pow2 a n) by done; lia).
  apply Z.bits_inj'. intros i Hi. rewrite Z.land_spec, Z.bits_0.
  destruct (decide (i < n)).
  - by rewrite Z.shiftl_spec_low by lia.
  - destruct (decide (b = 0)) as [->|]; [by rewrite Z.bits_0, andb_false_r|].
    rewrite (Z.bits_above_log2 b i), andb_false_r; [done|lia|].
    apply Z.log2_lt_pow2; [lia|].
    pose proof (Z.pow_le_mono_r 2 n i). lia.
Qed.

Lemma land_mask x n : 0 <= n -> Z.land x (2 ^ n - 1) = x mod 2 ^ n.
Proof. intros. rewrite <- Z.land_ones by lia. f_equal. rewrite Z.ones_equiv. lia. Qed.

Lemma land_255 x : Z.land x 255 = x mod 256.
Proof. apply (land_mask x 8). lia. Qed.
Lemma shiftr_8 x : Z.shiftr x 8 = x / 256.
Proof. apply (Z.shiftr_div_pow2 x 8). lia. Qed.

Lemma land_127 x : Z.land x 127 = x mod 128.
Proof. apply (land_mask x 7). lia. Qed.
Lemma land_63 x : Z.land x 63 = x mod 64.
Proof. apply (land_mask x 6). lia. Qed.
Lemma land_15 x : Z.land x 15 = x mod 16.
Proof. apply (land_mask x 4). lia. Qed.
Lemma land_7 x : Z.land x 7 = x mod 8.
Proof. apply (land_mask x 3). lia. Qed.
Lemma land_3 x : Z.land x 3 = x mod 4.
Proof. apply (land_mask x 2). lia. Qed.
Lemma land_1 x : Z.land x 1 = x mod 2.
Proof. apply (land_mask x 1). lia. Qed.

(** Low masks and right shifts as remainders and quotients. *)
Ltac bits_to_arith :=
  unfold u8, u16 in *;
  rewrite ?land_255, ?land_127, ?land_63, ?land_15, ?land_7, ?land_3, ?land_1 in *;
  repeat match goal with
  | |- context [Z.shiftr ?x ?n] =>
      lazymatch n with Zpos _ => rewrite (Z.shiftr_div_pow2 x n) by lia end
  end;
  repeat match goal with
  | |- context [2 ^ ?n] => let v := eval vm_compute in (2 ^ n) in change (2 ^ n) with v
  end.

(** Big-endian 16 bits through two octets. *)
Lemma be16_roundtrip x :
  0 <= x < 65536 ->
  Z.lor (Z.shiftl (u8 (Z.shiftr x 8)) 8) (u8 x) = x.
Proof. intros. rewrite lor_shiftl_add by (try apply u8_range; lia). bits_to_arith. zmod. Qed.

(** A statement about one byte is decided by the 256 values. *)
Lemma byte_forall (P : Z -> bool) :
  forallb P (seqZ 0 256) = true -> forall b, is_byte b -> P b = true.
Proof.
  intros H b Hb. rewrite forallb_forall in H. apply H.
  apply list_elem_of_In, elem_of_seqZ. unfold is_byte in Hb. lia.
Qed.

Lemma range_forall n (P : Z -> bool) :
  forallb P (seqZ 0 n) = true -> forall b, 0 <= b < n -> P b = true.
Proof.
  intros H b Hb. rewrite forallb_forall in H. apply H.
  apply list_elem_of_In, elem_of_seqZ. lia.
Qed.

(** ** Sequence number arithmetic

    [sn_diff m a x] is the distance from the base [a] up to [x] on the ring of [m] numbers. *)
Definition sn_diff (m a x : Z) : Z := (x - a) mod m.

Section sn_arith.
Context (m : Z) (Hm : 0 < m).

Lemma sn_diff_range a x : 0 <= sn_diff m a x < m.
Proof. apply Z.mod_pos_bound. lia. Qed.

Lemma sn_diff_self a : sn_diff m a a = 0.
Proof. unfold sn_diff. rewrite Z.sub_diag. by apply Z.mod_0_l; lia. Qed.

Lemma sn_diff_inj a x y :
  0 <= x < m -> 0 <= y < m -> sn_diff m a x = sn_diff m a y -> x = y.
Proof.
  unfold sn_diff. intros Hx Hy H.
  assert ((x - y) mod m = 0) as E.
  { replace (x - y) with ((x - a) - (y - a)) by lia.
    rewrite Zminus_mod, H, Z.sub_diag. apply Z.mod_0_l. lia. }
  apply Z.mod_divide in E as [q E]; [|lia]. assert (-1 < q < 1) by (split; nia). assert (q = 0) as -> by lia. lia.
Qed.

Lemma sn_diff_zero a x : 0 <= a < m -> 0 <= x < m -> sn_diff m a x = 0 -> x = a.
Proof. intros Ha Hx H. apply (sn_diff_inj a); [done..|]. by rewrite sn_diff_self. Qed.

Lemma sn_diff_add a k : 0 <= k < m -> sn_diff m a ((a + k) mod m) = k.
Proof.
  intros. unfold sn_diff. rewrite Zminus_mod_idemp_l.
  replace (a + k - a) with k by lia. by apply Z.mod_small.
Qed.

Lemma sn_diff_mod_r a x : sn_diff m a (x mod m) = sn_diff m a x.
Proof. unfold sn_diff. apply Zminus_mod_idemp_l. Qed.

Lemma sn_diff_succ a x :
  sn_diff m a x + 1 < m -> sn_diff m a ((x + 1) mod m) = sn_diff m a x + 1.
Proof.
  unfold sn_diff. intros H. rewrite Zminus_mod_idemp_l.
  replace (x + 1 - a) with ((x - a) + 1) by lia.
  rewrite <- Zplus_mod_idemp_l. apply Z.mod_small.
  pose proof (Z.mod_pos_bound (x - a) m). lia.
Qed.

Lemma sn_diff_succ' a x :
  sn_diff m a x + 1 < m -> sn_diff m a (x + 1) = sn_diff m a x + 1.
Proof. intros. rewrite <- sn_diff_mod_r. by apply sn_diff_succ. Qed.

Lemma sn_diff_pred a x :
  0 < sn_diff m a x -> sn_diff m a ((x - 1) mod m) = sn_diff m a x - 1.
Proof.
  unfold sn_diff. intros H. rewrite Zminus_mod_idemp_l.
  replace (x - 1 - a) with ((x - a) - 1) by lia.
  rewrite <- Zminus_mod_idemp_l. apply Z.mod_small.
  pose proof (Z.mod_pos_bound (x - a) m). lia.
Qed.

(** Changing the base: numbers at or after the new base move down, the ones it passed wrap. *)
Lemma sn_diff_rebase a b x :
  sn_diff m a b <= sn_diff m a x -> sn_diff m b x = sn_diff m a x - sn_diff m a b.
Proof.
  unfold sn_diff. intros H. replace (x - b) with ((x - a) - (b - a)) by lia.
  rewrite Zminus_mod. apply Z.mod_small.
  pose proof (Z.mod_pos_bound (x - a) m). pose proof (Z.mod_pos_bound (b - a) m). lia.
Qed.

Lemma sn_diff_rebase_wrap a b x :
  sn_diff m a x < sn_diff m a b -> sn_diff m b x = sn_diff m a x - sn_diff m a b + m.
Proof.
  unfold sn_diff. intros H. replace (x - b) with ((x - a) - (b - a)) by lia.
  rewrite Zminus_mod.
  pose proof (Z.mod_pos_bound (x - a) m). pose proof (Z.mod_pos_bound (b - a) m).
  rewrite <- (Z_mod_plus_full _ 1), Z.mul_1_l. apply Z.mod_small. lia.
Qed.

(** 32-bit wrap-around is invisible when the modulus divides [2^32]. *)
Lemma u32_mod x : (m | 2 ^ 32) -> u32 x mod m = x mod m.
Proof.
  intros [q Hq]. unfold u32. rewrite Hq.
  rewrite (Z.mul_comm q m), Z.rem_mul_r by nia.
  rewrite Z.mul_comm, Z_mod_plus_full. apply Z.mod_mod. lia.
Qed.
End sn_arith.
