(* ===== verification/Effects.v ===== *)
(** * Effects of the handlers: state, emitted events and aborts

    Every handler of the modelled entities reads and writes the entity's members, calls its
    neighbours and may abort the process through [srsran_assert].  [M S E A] is that effect:
    a run on a state either yields a value, the new state and the calls made to the
    neighbours in order, or aborts.  [wp] is its total-correctness reading: an aborting run, and
    a loop whose fuel is exhausted, satisfy no postcondition. *)

From S2P Require Import Prelude.
Import ListNotations.
Open Scope Z_scope.

(** [FaultAssert]: a failing [srsran_assert] or an access the language leaves undefined.
    [FaultFuel]: a loop of the model was cut off by its fuel. *)
Inductive fault := FaultAssert | FaultFuel.

Inductive res (A : Type) := Ok (a : A) | Fault (f : fault).
Arguments Ok {A} a.
Arguments Fault {A} f.

Definition M (S E A : Type) : Type := S -> res (A * S * list E).

Section ops.
Context {S E : Type}.

Definition ret {A} (a : A) : M S E A := fun s => Ok (a, s, []).

Definition bind {A B} (m : M S E A) (k : A -> M S E B) : M S E B := fun s =>
  match m s with
  | Ok (a, s', es) =>
      match k a s' with
      | Ok (b, s'', es') => Ok (b, s'', es ++ es')
      | Fault f => Fault f
      end
  | Fault f => Fault f
  end.

Definition get : M S E S := fun s => Ok (s, s, []).
Definition gets {A} (f : S -> A) : M S E A := fun s => Ok (f s, s, []).
Definition modify (f : S -> S) : M S E unit := fun s => Ok (tt, f s, []).
Definition emit (e : E) : M S E unit := fun s => Ok (tt, s, [e]).
Definition abort {A} : M S E A := fun _ => Fault FaultAssert.
(** [srsran_assert]. *)
Definition assert_ (b : bool) : M S E unit := if b then ret tt else abort.
(** Dereference of something that must be there. *)
Definition need {A} (o : option A) : M S E A :=
  match o with Some a => ret a | None => abort end.
Definition when (b : bool) (m : M S E unit) : M S E unit := if b then m else ret tt.

(** [for (i = i0; cond(i); i = next(i)) body(i)]; [body] answers whether it breaks.
    The final value of [i] is returned. *)
Fixpoint for_loop {I} (fuel : nat) (cond : I -> S -> bool) (next : I -> I)
    (body : I -> M S E bool) (i : I) : M S E I := fun s =>
  if cond i s then
    match fuel with
    | O => Fault FaultFuel
    | Datatypes.S fuel' =>
        bind (body i) (fun brk =>
          if brk : bool then ret i else for_loop fuel' cond next body (next i)) s
    end
  else Ok (i, s, []).

(** [while] loop whose body either goes on with a new loop variable or leaves with a result. *)
Fixpoint while_loop {I A} (fuel : nat) (body : I -> M S E (I + A)) (i : I) : M S E A :=
  match fuel with
  | O => fun _ => Fault FaultFuel
  | Datatypes.S fuel' =>
      bind (body i) (fun r =>
        match r with inl i' => while_loop fuel' body i' | inr a => ret a end)
  end.

(** [for (x : l) body(x)]. *)
Fixpoint for_each {A} (l : list A) (body : A -> M S E unit) : M S E unit :=
  match l with
  | [] => ret tt
  | x :: l' => bind (body x) (fun _ => for_each l' body)
  end.

Definition wp {A} (m : M S E A) (Q : A -> S -> list E -> Prop) (s : S) : Prop :=
  match m s with
  | Ok (a, s', es) => Q a s' es
  | Fault _ => False
  end.

Lemma wp_ret {A} (a : A) (Q : A -> S -> list E -> Prop) s : Q a s [] -> wp (ret a) Q s.
Proof. done. Qed.

Lemma wp_bind {A B} (m : M S E A) (k : A -> M S E B) (Q : B -> S -> list E -> Prop) s :
  wp m (fun a s' es => wp (k a) (fun b s'' es' => Q b s'' (es ++ es')) s') s ->
  wp (bind m k) Q s.
Proof.
  unfold wp, bind. destruct (m s) as [[[a s'] es]|]; [|done].
  by destruct (k a s') as [[[b s''] es']|].
Qed.

Lemma wp_get (Q : S -> S -> list E -> Prop) s : Q s s [] -> wp get Q s.
Proof. done. Qed.
Lemma wp_gets {A} (f : S -> A) (Q : A -> S -> list E -> Prop) s : Q (f s) s [] -> wp (gets f) Q s.
Proof. done. Qed.
Lemma wp_modify f (Q : unit -> S -> list E -> Prop) s : Q tt (f s) [] -> wp (modify f) Q s.
Proof. done. Qed.
Lemma wp_emit e (Q : unit -> S -> list E -> Prop) s : Q tt s [e] -> wp (emit e) Q s.
Proof. done. Qed.
Lemma wp_assert b (Q : unit -> S -> list E -> Prop) s : b = true -> Q tt s [] -> wp (assert_ b) Q s.
Proof. by intros ->. Qed.
Lemma wp_need {A} (o : option A) a (Q : A -> S -> list E -> Prop) s :
  o = Some a -> Q a s [] -> wp (need o) Q s.
Proof. by intros ->. Qed.

Lemma wp_if {A} (b : bool) (m1 m2 : M S E A) Q s :
  (b = true -> wp m1 Q s) -> (b = false -> wp m2 Q s) -> wp (if b then m1 else m2) Q s.
Proof. destruct b; auto. Qed.

Lemma wp_when b (m : M S E unit) (Q : unit -> S -> list E -> Prop) s :
  (b = true -> wp m Q s) -> (b = false -> Q tt s []) -> wp (when b m) Q s.
Proof. destruct b; cbn; auto. Qed.

Lemma wp_mono {A} (m : M S E A) (Q Q' : A -> S -> list E -> Prop) s :
  wp m Q s -> (forall a s' es, Q a s' es -> Q' a s' es) -> wp m Q' s.
Proof. unfold wp. destruct (m s) as [[[a s'] es]|]; auto. Qed.

Lemma wp_and {A} (m : M S E A) (Q Q' : A -> S -> list E -> Prop) s :
  wp m Q s -> wp m Q' s -> wp m (fun a s' es => Q a s' es /\ Q' a s' es) s.
Proof. unfold wp. destruct (m s) as [[[a s'] es]|]; auto. Qed.

(** A run that satisfies some postcondition succeeds, with a result that satisfies it. *)
Lemma wp_run {A} (m : M S E A) (Q : A -> S -> list E -> Prop) s :
  wp m Q s <-> exists a s' es, m s = Ok (a, s', es) /\ Q a s' es.
Proof.
  unfold wp. split.
  - destruct (m s) as [[[a s'] es]|]; [eauto 6|done].
  - by intros (a & s' & es & -> & H).
Qed.

(** Invariant rule: [Inv n i s es] with [n] the fuel left; it must rule out running dry. *)
Lemma wp_for_loop {I} (Inv : nat -> I -> S -> list E -> Prop) cond next (body : I -> M S E bool)
    (Q : I -> S -> list E -> Prop) fuel i s :
  Inv fuel i s [] ->
  (forall n i s es, Inv n i s es -> cond i s = false -> Q i s es) ->
  (forall i s es, Inv 0%nat i s es -> cond i s = false) ->
  (forall n i s es, Inv (Datatypes.S n) i s es -> cond i s = true ->
     wp (body i) (fun brk s' es' =>
       if brk : bool then Q i s' (es ++ es') else Inv n (next i) s' (es ++ es')) s) ->
  wp (for_loop fuel cond next body i) Q s.
Proof.
  intros HI Hexit Hfuel Hstep.
  enough (forall fuel i s es, Inv fuel i s es ->
    wp (for_loop fuel cond next body i) (fun j s' es' => Q j s' (es ++ es')) s) as G
    by exact (G _ _ _ _ HI).
  clear HI fuel i s. induction fuel as [|n IH]; intros i s es HI; unfold wp; simpl.
  - rewrite (Hfuel _ _ _ HI). rewrite app_nil_r. eauto.
  - destruct (cond i s) eqn:Hc; [|rewrite app_nil_r; eauto].
    fold (wp (bind (body i) (fun brk : bool =>
      if brk then ret i else for_loop n cond next body (next i)))
      (fun j s' es' => Q j s' (es ++ es')) s).
    apply wp_bind. eapply wp_mono; [apply (Hstep _ _ _ _ HI Hc)|].
    intros [] s' es'; cbv beta; simpl.
    + intros. apply wp_ret. by rewrite app_nil_r.
    + intros HI'. eapply wp_mono; [by apply IH|]. simpl. intros. by rewrite app_assoc.
Qed.

Lemma wp_while_loop {I A} (Inv : nat -> I -> S -> list E -> Prop) (body : I -> M S E (I + A))
    (Q : A -> S -> list E -> Prop) fuel i s :
  Inv fuel i s [] ->
  (forall i s es, ~ Inv 0%nat i s es) ->
  (forall n i s es, Inv (Datatypes.S n) i s es ->
     wp (body i) (fun r s' es' =>
       match r with inl i' => Inv n i' s' (es ++ es') | inr a => Q a s' (es ++ es') end) s) ->
  wp (while_loop fuel body i) Q s.
Proof.
  intros HI Hfuel Hstep.
  enough (forall fuel i s es, Inv fuel i s es ->
    wp (while_loop fuel body i) (fun a s' es' => Q a s' (es ++ es')) s) as G
    by exact (G _ _ _ _ HI).
  clear HI fuel i s. induction fuel as [|n IH]; intros i s es HI.
  - by apply Hfuel in HI.
  - simpl. apply wp_bind. eapply wp_mono; [by apply Hstep|].
    intros [i'|a] s' es'; cbv beta iota; intros H.
    + eapply wp_mono; [by apply IH|]. cbv beta. intros. by rewrite app_assoc.
    + apply wp_ret. by rewrite app_nil_r.
Qed.

Lemma wp_for_each {A} (Inv : list A -> S -> list E -> Prop) (body : A -> M S E unit)
    (Q : unit -> S -> list E -> Prop) l s :
  Inv l s [] ->
  (forall s es, Inv [] s es -> Q tt s es) ->
  (forall x l' s es, Inv (x :: l') s es ->
     wp (body x) (fun _ s' es' => Inv l' s' (es ++ es')) s) ->
  wp (for_each l body) Q s.
Proof.
  intros HI Hexit Hstep.
  enough (forall l s es, Inv l s es ->
    wp (for_each l body) (fun u s' es' => Q u s' (es ++ es')) s) as G by exact (G _ _ _ HI).
  clear HI l s. induction l as [|x l IH]; intros s es HI; simpl.
  - apply wp_ret. rewrite app_nil_r. eauto.
  - apply wp_bind. eapply wp_mono; [by apply Hstep|]. intros [] s' es' HI'; cbv beta.
    eapply wp_mono; [by apply IH|]. intros [] ??; cbv beta. by rewrite app_assoc.
Qed.
End ops.

(** Running a computation on a component of a larger state, with its events renamed. *)
Definition lift {S T E F A} (g : T -> S) (p : S -> T -> T) (r : E -> F) (m : M S E A) : M T F A :=
  fun t => match m (g t) with
           | Ok (a, s, es) => Ok (a, p s t, map r es)
           | Fault f => Fault f
           end.

Declare Scope entity_scope.
Delimit Scope entity_scope with entity.
Notation "'let!' x ':=' m 'in' k" := (bind m (fun x => k))
  (at level 200, x binder, m at level 100, k at level 200, right associativity,
   format "'[v' 'let!'  x  ':='  m  'in' '/' k ']'") : entity_scope.
Notation "m ;;; k" := (bind m (fun _ => k))
  (at level 199, right associativity, format "'[v' m  ;;; '/' k ']'") : entity_scope.

(** One symbolic execution step of a [wp] goal. *)
Ltac wp_step :=
  lazymatch goal with
  | |- wp (bind _ _) _ _ => apply wp_bind
  | |- wp (ret _) _ _ => apply wp_ret
  | |- wp get _ _ => apply wp_get
  | |- wp (gets _) _ _ => apply wp_gets
  | |- wp (modify _) _ _ => apply wp_modify
  | |- wp (emit _) _ _ => apply wp_emit
  | |- wp (when _ _) _ _ => apply wp_when; intros
  | |- wp (if _ then _ else _) _ _ => apply wp_if; intros
  | |- wp (let x := ?e in _) _ _ => cbv zeta
  end; cbv beta; cbn [app].
Ltac wp_steps := repeat wp_step.

(** Boolean tests of the code as propositions. *)
Ltac bool_prop :=
  repeat match goal with
  | H : (_ && _)%bool = true |- _ => apply andb_true_iff in H as [? ?]
  | H : (_ || _)%bool = false |- _ => apply orb_false_iff in H as [? ?]
  | H : negb _ = true |- _ => apply negb_true_iff in H
  | H : negb _ = false |- _ => apply negb_false_iff in H
  | H : (_ =? _) = true |- _ => apply Z.eqb_eq in H
  | H : (_ =? _) = false |- _ => apply Z.eqb_neq in H
  | H : (_ <? _) = true |- _ => apply Z.ltb_lt in H
  | H : (_ <? _) = false |- _ => apply Z.ltb_ge in H
  | H : (_ <=? _) = true |- _ => apply Z.leb_le in H
  | H : (_ <=? _) = false |- _ => apply Z.leb_gt in H
  end.
