(* ===== verification/Window.v ===== *)
(** * Tx/Rx windows: [circular_map] and [sdu_window]

    Models [include/srsran/adt/circular_map.h] (the vector-backed variant with a power-of-two
    capacity, which is the one the RLC uses) and [include/srsran/support/sdu_window.h].
    A map slot holds an optional (key, object) pair; a key lives in slot [key & (capacity-1)], and
    two keys that share a slot evict each other.  [cm_lookup] is the map seen through its keys. *)

From S2P Require Import Prelude Effects.
Open Scope Z_scope.

Module CircularMap.
Section circular_map.
Context {V : Type}.

(** [circular_map_storage]: the slots that hold an object, the capacity and the count. *)
Record t := mk { capacity : Z; data : gmap Z (Z * V); count : Z }.

Definition get_circular_idx (m : t) (key : Z) : Z := Z.land key (capacity m - 1).

Definition empty_map (size : Z) : t := mk size ∅ 0.

Definition contains (m : t) (key : Z) : bool :=
  match data m !! get_circular_idx m key with
  | Some (k, _) => k =? key
  | None => false
  end.

(** Returns the new map and whether the object was inserted. *)
Definition insert (m : t) (key : Z) (obj : V) : t * bool :=
  let idx := get_circular_idx m key in
  match data m !! idx with
  | Some _ => (m, false)
  | None => (mk (capacity m) (<[idx := (key, obj)]> (data m)) (count m + 1), true)
  end.

Definition erase (m : t) (key : Z) : t * bool :=
  if negb (contains m key) then (m, false)
  else (mk (capacity m) (delete (get_circular_idx m key) (data m)) (count m - 1), true).

Definition overwrite (m : t) (key : Z) (obj : V) : t :=
  let idx := get_circular_idx m key in
  let m' := match data m !! idx with
            | Some (k, _) => fst (erase m k)
            | None => m
            end in
  fst (insert m' key obj).

(** [operator[]]: the object, which must be there. *)
Definition at_ {S E} (m : t) (key : Z) : M S E V :=
  if contains m key then need (snd <$> data m !! get_circular_idx m key) else abort.

(** Writing through the reference that [operator[]] returns. *)
Definition set_at (m : t) (key : Z) (obj : V) : t :=
  if contains m key
  then mk (capacity m) (<[get_circular_idx m key := (key, obj)]> (data m)) (count m)
  else m.

Definition size (m : t) : Z := count m.
Definition empty (m : t) : bool := size m =? 0.
Definition full (m : t) : bool := size m =? capacity m.
Definition clear (m : t) : t := mk (capacity m) ∅ 0.
Definition has_space (m : t) (key : Z) : bool :=
  match data m !! get_circular_idx m key with Some _ => false | None => true end.

(** ** The map seen through its keys *)

Definition lookup (m : t) (key : Z) : option V :=
  match data m !! get_circular_idx m key with
  | Some (k, v) => if k =? key then Some v else None
  | None => None
  end.

(** Representation invariant: every stored key sits in its slot, and [count] counts slots. *)
Definition wf (m : t) : Prop :=
  (forall i k v, data m !! i = Some (k, v) -> i = get_circular_idx m k) /\
  count m = Z.of_nat (base.size (data m)).

Lemma contains_lookup m k : contains m k = match lookup m k with Some _ => true | None => false end.
Proof. unfold contains, lookup. destruct (data m !! _) as [[k' v]|]; [|done]. by destruct (k' =? k). Qed.

Lemma contains_true m k : contains m k = true <-> exists v, lookup m k = Some v.
Proof.
  rewrite contains_lookup. destruct (lookup m k); split; eauto; try done. by intros [? ?].
Qed.

Lemma contains_false m k : contains m k = false <-> lookup m k = None.
Proof. rewrite contains_lookup. by destruct (lookup m k). Qed.

Lemma lookup_empty_map n k : lookup (empty_map n) k = None.
Proof. done. Qed.

Lemma wf_empty n : wf (empty_map n).
Proof. split; [done|]. unfold empty_map. simpl. by rewrite map_size_empty. Qed.

Lemma wp_at {S E} m k v (Q : V -> S -> list E -> Prop) s :
  lookup m k = Some v -> Q v s [] -> wp (at_ m k) Q s.
Proof.
  unfold at_, contains, lookup. intros H HQ.
  destruct (data m !! _) as [[k' v']|]; [|done]. destruct (k' =? k); simplify_eq/=. done.
Qed.

Lemma at_missing {S E} m k : lookup m k = None -> forall s, @at_ S E m k s = Fault FaultAssert.
Proof. intros H s. unfold at_. apply contains_false in H. by rewrite H. Qed.

Lemma lookup_insert_free m k v :
  data m !! get_circular_idx m k = None -> forall k',
  lookup (fst (insert m k v)) k' =
    if k' =? k then Some v else lookup m k'.
Proof.
  intros Hf k'. unfold insert. rewrite Hf. unfold lookup, get_circular_idx in *. simpl.
  destruct (Z.eqb_spec k' k) as [->|Hne].
  - by rewrite lookup_insert_eq, Z.eqb_refl.
  - destruct (decide (Z.land k (capacity m - 1) = Z.land k' (capacity m - 1))) as [E|E].
    + rewrite <- E, lookup_insert_eq, Hf. by destruct (Z.eqb_spec k k').
    + by rewrite lookup_insert_ne.
Qed.

Lemma wf_insert m k v : wf m -> wf (fst (insert m k v)).
Proof.
  intros [H1 H2]. unfold insert. destruct (data m !! _) eqn:E; [done|]. split; simpl.
  - intros i k' v'. destruct (decide (get_circular_idx m k = i)) as [<-|Hne].
    + rewrite lookup_insert_eq. intros [= <- <-]. done.
    + rewrite lookup_insert_ne by done. apply H1.
  - rewrite map_size_insert_None by done. lia.
Qed.

Lemma lookup_erase m k k' : wf m ->
  lookup (fst (erase m k)) k' = if k' =? k then None else lookup m k'.
Proof.
  intros [Hwf _]. unfold erase. destruct (contains m k) eqn:Hc; simpl.
  - unfold lookup, get_circular_idx in *. simpl.
    destruct (decide (Z.land k (capacity m - 1) = Z.land k' (capacity m - 1))) as [E|E].
    + rewrite E, lookup_delete_eq. destruct (Z.eqb_spec k' k) as [->|Hne]; [done|].
      rewrite <- E. unfold contains, get_circular_idx in Hc.
      destruct (data m !! _) as [[k0 v0]|]; [|done].
      apply Z.eqb_eq in Hc as ->. by destruct (Z.eqb_spec k k').
    + rewrite lookup_delete_ne by done. by destruct (Z.eqb_spec k' k) as [->|].
  - destruct (Z.eqb_spec k' k) as [->|]; [|done]. by apply contains_false.
Qed.

Lemma wf_erase m k : wf m -> wf (fst (erase m k)).
Proof.
  intros [H1 H2]. unfold erase. destruct (contains m k) eqn:Hc; simpl; [|done]. split; simpl.
  - intros i k' v' [_ Hl]%lookup_delete_Some. by apply H1 in Hl.
  - unfold contains in Hc. destruct (data m !! get_circular_idx m k) as [x|] eqn:E; [|done].
    rewrite map_size_delete, E. simpl.
    assert (base.size (data m) <> 0)%nat; [|lia].
    intros Z0%map_size_empty_inv. by rewrite Z0, lookup_empty in E.
Qed.

Lemma capacity_erase m k : capacity (fst (erase m k)) = capacity m.
Proof. unfold erase. by destruct (contains m k). Qed.

Lemma overwrite_slot_free m k :
  wf m ->
  let m' := match data m !! get_circular_idx m k with
            | Some (k0, _) => fst (erase m k0)
            | None => m
            end in
  wf m' /\ capacity m' = capacity m /\ data m' !! get_circular_idx m' k = None.
Proof.
  intros Hwf m'. subst m'. destruct (data m !! get_circular_idx m k) as [[k0 v0]|] eqn:E; [|done].
  pose proof (proj1 Hwf _ _ _ E) as Hi.
  split; [by apply wf_erase|]. split; [apply capacity_erase|].
  unfold erase. assert (contains m k0 = true) as ->.
  { unfold contains. rewrite <- Hi, E. apply Z.eqb_refl. }
  simpl. unfold get_circular_idx at 1. simpl. rewrite <- Hi. apply lookup_delete_eq.
Qed.

Lemma wf_overwrite m k v : wf m -> wf (overwrite m k v).
Proof. intros Hwf. apply wf_insert. by apply (overwrite_slot_free m k). Qed.

Lemma capacity_overwrite m k v : wf m -> capacity (overwrite m k v) = capacity m.
Proof.
  intros Hwf. destruct (overwrite_slot_free m k Hwf) as (_ & Hc & Hf).
  unfold overwrite, insert. rewrite Hf. apply Hc.
Qed.

(** [overwrite] stores the object and drops only the key that occupied its slot. *)
Lemma lookup_overwrite m k v k' : wf m ->
  lookup (overwrite m k v) k' =
    if k' =? k then Some v
    else if get_circular_idx m k' =? get_circular_idx m k then None else lookup m k'.
Proof.
  intros Hwf. destruct (overwrite_slot_free m k Hwf) as (_ & _ & Hf).
  unfold overwrite. rewrite (lookup_insert_free _ _ _ Hf).
  destruct (Z.eqb_spec k' k) as [->|Hne]; [done|].
  destruct (data m !! get_circular_idx m k) as [[k0 v0]|] eqn:E.
  - rewrite lookup_erase by done. pose proof (proj1 Hwf _ _ _ E) as Hi.
    destruct (Z.eqb_spec (get_circular_idx m k') (get_circular_idx m k)) as [Hs|Hs].
    + destruct (Z.eqb_spec k' k0) as [|Hn0]; [done|].
      unfold lookup. rewrite Hs, E. by destruct (Z.eqb_spec k0 k').
    + destruct (Z.eqb_spec k' k0) as [->|]; [congruence|done].
  - destruct (Z.eqb_spec (get_circular_idx m k') (get_circular_idx m k)) as [Hs|Hs]; [|done].
    unfold lookup. by rewrite Hs, E.
Qed.

Lemma lookup_set_at m k v k' :
  lookup (set_at m k v) k' =
    if k' =? k then (if contains m k then Some v else None) else lookup m k'.
Proof.
  unfold set_at. destruct (contains m k) eqn:Hc.
  - unfold lookup, get_circular_idx in *. simpl.
    destruct (decide (Z.land k (capacity m - 1) = Z.land k' (capacity m - 1))) as [E|E].
    + rewrite <- E, lookup_insert_eq. unfold contains, get_circular_idx in Hc.
      destruct (data m !! _) as [[k0 v0]|]; [|done]. apply Z.eqb_eq in Hc as ->.
      destruct (Z.eqb_spec k' k) as [->|]; [by rewrite Z.eqb_refl|].
      by destruct (Z.eqb_spec k k').
    + rewrite lookup_insert_ne by done. by destruct (Z.eqb_spec k' k) as [->|].
  - destruct (Z.eqb_spec k' k) as [->|]; [|done]. by apply contains_false.
Qed.

Lemma wf_set_at m k v : wf m -> wf (set_at m k v).
Proof.
  intros [H1 H2]. unfold set_at. destruct (contains m k) eqn:Hc; [|done]. split; simpl.
  - intros i k' v'. destruct (decide (get_circular_idx m k = i)) as [<-|Hne].
    + rewrite lookup_insert_eq. by intros [= <- <-].
    + rewrite lookup_insert_ne by done. apply H1.
  - unfold contains in Hc. destruct (data m !! get_circular_idx m k) as [x|] eqn:E; [|done].
    rewrite map_size_insert_Some; eauto.
Qed.

Lemma capacity_set_at m k v : capacity (set_at m k v) = capacity m.
Proof. unfold set_at. by destruct (contains m k). Qed.
(** A slot that no key of the map uses is free. *)
Lemma slot_empty m k : wf m ->
  (forall k', get_circular_idx m k' = get_circular_idx m k -> lookup m k' = None) ->
  data m !! get_circular_idx m k = None.
Proof.
  intros Hwf Hno. destruct (data m !! get_circular_idx m k) as [[k0 v0]|] eqn:E; [|done].
  pose proof (proj1 Hwf _ _ _ E) as Hi. specialize (Hno k0 (eq_sym Hi)).
  unfold lookup in Hno. by rewrite <- Hi, E, Z.eqb_refl in Hno.
Qed.

Lemma count_overwrite_free m k v : data m !! get_circular_idx m k = None -> count (overwrite m k v) = count m + 1.
Proof. intros Hf. unfold overwrite. rewrite Hf. unfold insert. by rewrite Hf. Qed.

Lemma count_set_at m k v : count (set_at m k v) = count m.
Proof. unfold set_at. by destruct (contains m k). Qed.

Lemma count_erase m k : contains m k = true -> count (fst (erase m k)) = count m - 1.
Proof. intros Hc. unfold erase. by rewrite Hc. Qed.

End circular_map.
Arguments t V : clear implicits.
End CircularMap.

(** ** [sdu_window]: the circular map with asserting add and remove

    [T()] is the object the window default-constructs when a sequence number is added. *)
Module SduWindow.
Import CircularMap.
Section sdu_window.
Context {T : Type} (T0 : T).

Definition has_sn (w : t T) (sn : Z) : bool := contains w (u32 sn).

(** Adding a number that is already present is an assertion failure. *)
Definition add_sn {S E} (w : t T) (sn : Z) : M S E (t T) :=
  if has_sn w sn then abort else ret (overwrite w sn T0).

(** Removing a number that is not present is an assertion failure. *)
Definition remove_sn {S E} (w : t T) (sn : Z) : M S E (t T) :=
  if negb (has_sn w sn) then abort else ret (fst (erase w sn)).

Definition index {S E} (w : t T) (sn : Z) : M S E T := at_ w (u32 sn).
End sdu_window.
End SduWindow.

(** Within one window of [w] numbers on a ring of [m = k * w], no two numbers share a slot. *)
Lemma slot_inj m w a x y :
  0 < w -> (w | m) -> 0 < m ->
  sn_diff m a x < w -> sn_diff m a y < w ->
  x mod w = y mod w -> sn_diff m a x = sn_diff m a y.
Proof.
  intros Hw [q Hq] Hm Hx Hy E.
  assert (forall z, sn_diff m a z < w -> sn_diff m a z = (z - a) mod w) as R.
  { intros z Hz. pose proof (sn_diff_range m Hm a z) as Hr.
    unfold sn_diff in *. rewrite <- (Z.mod_small ((z - a) mod m) w) by lia.
    rewrite Hq, (Z.mul_comm q w), Z.rem_mul_r by nia.
    rewrite (Z.mul_comm w (_ mod q)), Z_mod_plus_full. apply Z.mod_mod. lia. }
  rewrite !R by done. rewrite (Zminus_mod x), (Zminus_mod y). by rewrite E.
Qed.

(** A power-of-two capacity turns the masking of [get_circular_idx] into a remainder. *)
Lemma circular_idx_mod {V} (m : CircularMap.t V) j k :
  0 <= j -> CircularMap.capacity m = 2 ^ j ->
  CircularMap.get_circular_idx m k = k mod CircularMap.capacity m.
Proof. intros Hj Hc. unfold CircularMap.get_circular_idx. rewrite Hc. by apply land_mask. Qed.
