(* ===== verification/RlcConfig.v ===== *)
(** * RLC configuration and field types

    Models the parts of [include/srsran/rlc/rlc_config.h] the entities use: the sequence number
    sizes with their ring and window sizes, the header fields and the configuration structs. *)

From S2P Require Import Prelude Effects.
Open Scope Z_scope.

Inductive rlc_um_sn_size := um_size6bits | um_size12bits.
Inductive rlc_am_sn_size := am_size12bits | am_size18bits.

Definition to_number_um_sn (s : rlc_um_sn_size) : Z :=
  match s with um_size6bits => 6 | um_size12bits => 12 end.

Definition to_number_am_sn (s : rlc_am_sn_size) : Z :=
  match s with am_size12bits => 12 | am_size18bits => 18 end.

Definition from_number_um_sn (num : Z) : option rlc_um_sn_size :=
  if num =? 6 then Some um_size6bits else if num =? 12 then Some um_size12bits else None.

Definition from_number_am_sn (num : Z) : option rlc_am_sn_size :=
  if num =? 12 then Some am_size12bits else if num =? 18 then Some am_size18bits else None.

Definition cardinality (sn_size : Z) : Z := Z.shiftl 1 sn_size.
Definition rlc_window_size (sn_size : Z) : Z := cardinality (sn_size - 1).

Inductive rlc_dc_field := dc_control | dc_data.
Definition to_number_dc (d : rlc_dc_field) : Z := match d with dc_control => 0 | dc_data => 1 end.

Inductive rlc_si_field := full_sdu | first_segment | last_segment | middle_segment.
Definition to_number_si (s : rlc_si_field) : Z :=
  match s with full_sdu => 0 | first_segment => 1 | last_segment => 2 | middle_segment => 3 end.

#[export] Instance rlc_um_sn_size_eq_dec : EqDecision rlc_um_sn_size.
Proof. solve_decision. Defined.
#[export] Instance rlc_am_sn_size_eq_dec : EqDecision rlc_am_sn_size.
Proof. solve_decision. Defined.
#[export] Instance rlc_dc_field_eq_dec : EqDecision rlc_dc_field.
Proof. solve_decision. Defined.
#[export] Instance rlc_si_field_eq_dec : EqDecision rlc_si_field.
Proof. solve_decision. Defined.

(** The casts [(rlc_dc_field)(x & 1)] and [(rlc_si_field)(x & 3)]. *)
Definition dc_of_Z (x : Z) : rlc_dc_field := if x =? 0 then dc_control else dc_data.
Definition si_of_Z (x : Z) : rlc_si_field :=
  if x =? 0 then full_sdu else if x =? 1 then first_segment
  else if x =? 2 then last_segment else middle_segment.

Definition si_eqb (a b : rlc_si_field) : bool := to_number_si a =? to_number_si b.

(** Segments other than the first carry a segment offset. *)
Definition si_has_so (si : rlc_si_field) : bool :=
  si_eqb si last_segment || si_eqb si middle_segment.

Record rlc_rx_am_config := {
  rxam_sn_field_length : rlc_am_sn_size;
  rxam_t_reassembly : Z;
  rxam_t_status_prohibit : Z;
  rxam_max_sn_per_status : option Z
}.

Record rlc_rx_um_config := {
  rxum_sn_field_length : rlc_um_sn_size;
  rxum_t_reassembly : Z
}.

Lemma si_eqb_eq a b : si_eqb a b = true <-> a = b.
Proof. destruct a, b; unfold si_eqb; simpl; split; congruence || done. Qed.
Lemma si_eqb_refl a : si_eqb a a = true.
Proof. by apply si_eqb_eq. Qed.
Lemma si_of_to a : si_of_Z (to_number_si a) = a.
Proof. by destruct a. Qed.
Lemma dc_of_to a : dc_of_Z (to_number_dc a) = a.
Proof. by destruct a. Qed.

(** The ring of sequence numbers of an AM bearer: [m] numbers, windows of [w = m / 2]. *)
Section am_ring.
Context (s : rlc_am_sn_size).
Let m := cardinality (to_number_am_sn s).
Let w := rlc_window_size (to_number_am_sn s).

Lemma am_ring_sizes :
  0 < w /\ m = 2 * w /\ (m | 2 ^ 32) /\ w = 2 ^ (to_number_am_sn s - 1) /\ m <= 262144 /\ 2048 <= w.
Proof.
  subst m w. assert (forall c, c * (2 ^ 32 / c) =? 2 ^ 32 = true -> (c | 2 ^ 32)) as D.
  { intros c Hc%Z.eqb_eq. exists (2 ^ 32 / c). lia. }
  destruct s; (split; [done|]; split; [done|]; split; [by apply D|]; by vm_compute).
Qed.
End am_ring.

Section um_ring.
Context (s : rlc_um_sn_size).
Let m := cardinality (to_number_um_sn s).
Let w := rlc_window_size (to_number_um_sn s).

Lemma um_ring_sizes :
  0 < w /\ m = 2 * w /\ (m | 2 ^ 32) /\ w = 2 ^ (to_number_um_sn s - 1) /\ m <= 4096 /\ 32 <= w.
Proof.
  subst m w. assert (forall c, c * (2 ^ 32 / c) =? 2 ^ 32 = true -> (c | 2 ^ 32)) as D.
  { intros c Hc%Z.eqb_eq. exists (2 ^ 32 / c). lia. }
  destruct s; (split; [done|]; split; [done|]; split; [by apply D|]; by vm_compute).
Qed.
End um_ring.
