(* ===== verification/RlcAmPdu.v ===== *)
(** * RLC AM PDU formats

    Models [lib/rlc/rlc_am_pdu.h] and [lib/rlc/rlc_am_pdu.cpp]: the AMD PDU header, and the status
    PDU with its NACK merging, trimming, packing and unpacking.  A [byte_buffer_reader] is the list
    of the bytes still unread; dereferencing it at the end aborts.  A writer returns the bytes it
    stores from the start of its span. *)

From S2P Require Import Prelude Effects RlcConfig.
Open Scope Z_scope.
Open Scope entity_scope.

Definition INVALID_RLC_SN : Z := 0xffffffff.
Definition RETX_COUNT_NOT_STARTED : Z := 0xffffffff.

(** ** Reader *)
Module Reader.
Definition R (A : Type) : Type := M (list Z) Empty_set A.

(** [*pdu_reader] *)
Definition peek : R Z := fun bs => match bs with b :: _ => Ok (b, bs, []) | [] => Fault FaultAssert end.
(** [++pdu_reader] *)
Definition next : R unit := fun bs => match bs with _ :: bs' => Ok (tt, bs', []) | [] => Fault FaultAssert end.
Definition length_ : R Z := gets zlen.
Definition empty : R bool := gets (fun bs => match bs with [] => true | _ => false end).

(** The value read, [None] for a fault. *)
Definition run {A} (m : R A) (bs : list Z) : res A :=
  match m bs with Ok (a, _, _) => Ok a | Fault f => Fault f end.

Lemma wp_peek b bs (Q : Z -> list Z -> list Empty_set -> Prop) :
  Q b (b :: bs) [] -> wp peek Q (b :: bs).
Proof. done. Qed.
Lemma wp_next b bs (Q : unit -> list Z -> list Empty_set -> Prop) :
  Q tt bs [] -> wp next Q (b :: bs).
Proof. done. Qed.
Lemma wp_length bs (Q : Z -> list Z -> list Empty_set -> Prop) : Q (zlen bs) bs [] -> wp length_ Q bs.
Proof. done. Qed.
Lemma wp_empty b bs (Q : bool -> list Z -> list Empty_set -> Prop) : Q false (b :: bs) [] -> wp empty Q (b :: bs).
Proof. done. Qed.

Lemma run_wp {A} (m : R A) bs P : wp m (fun a _ _ => P a) bs -> exists a, run m bs = Ok a /\ P a.
Proof. unfold wp, run. destruct (m bs) as [[[a ?] ?]|]; [eauto|done]. Qed.

Lemma run_ok {A} (m : R A) bs a : wp m (fun a' _ _ => a' = a) bs -> run m bs = Ok a.
Proof. intros (a' & -> & ->)%run_wp. done. Qed.
End Reader.
Import Reader.

Ltac rd_step :=
  first [ lazymatch goal with
          | |- wp peek _ (_ :: _) => apply wp_peek
          | |- wp next _ (_ :: _) => apply wp_next
          | |- wp length_ _ _ => apply wp_length
          | |- wp empty _ (_ :: _) => apply wp_empty
          end; cbv beta; cbn [app]
        | wp_step ].

(** ** AMD PDU header *)
Module AmHeader.

Definition rlc_am_pdu_header_so_size : Z := 2.
Definition rlc_am_pdu_header_min_size_12bit : Z := 2.
Definition rlc_am_pdu_header_min_size_18bit : Z := 3.

Definition rlc_am_pdu_header_min_size (sn_size : rlc_am_sn_size) : Z :=
  match sn_size with
  | am_size12bits => rlc_am_pdu_header_min_size_12bit
  | am_size18bits => rlc_am_pdu_header_min_size_18bit
  end.

Definition rlc_am_pdu_header_max_size (sn_size : rlc_am_sn_size) : Z :=
  rlc_am_pdu_header_min_size sn_size + rlc_am_pdu_header_so_size.

Record rlc_am_pdu_header := mk_header {
  dc : rlc_dc_field;
  p : Z;
  si : rlc_si_field;
  sn_size : rlc_am_sn_size;
  sn : Z;
  so : Z
}.

Definition get_packed_size (h : rlc_am_pdu_header) : Z :=
  if si_eqb (si h) last_segment || si_eqb (si h) middle_segment
  then rlc_am_pdu_header_max_size (sn_size h)
  else rlc_am_pdu_header_min_size (sn_size h).

(** The SO field of a segment that is not the first one. *)
Definition read_so : R (option Z) :=
  let! e := empty in
  if e then ret None else
  let! b := peek in
  let so := Z.shiftl (Z.land b 0xff) 8 in
  next ;;;
  let! e := empty in
  if e then ret None else
  let! b := peek in
  next ;;;
  ret (Some (Z.lor so (Z.land b 0xff))).

(** The SN field; the reader is left after it. *)
Definition read_sn (size : rlc_am_sn_size) : R (option Z) :=
  match size with
  | am_size12bits =>
      let! b := peek in
      let sn := Z.shiftl (Z.land b 0x0f) 8 in
      next ;;;
      let! e := empty in
      if e then ret None else
      let! b := peek in
      next ;;;
      ret (Some (Z.lor sn (Z.land b 0xff)))
  | am_size18bits =>
      let! b := peek in
      if negb (Z.land b 0x0c =? 0) then ret None else
      let sn := Z.shiftl (Z.land b 0x03) 16 in
      next ;;;
      let! e := empty in
      if e then ret None else
      let! b := peek in
      let sn := Z.lor sn (Z.shiftl (Z.land b 0xff) 8) in
      next ;;;
      let! e := empty in
      if e then ret None else
      let! b := peek in
      next ;;;
      ret (Some (Z.lor sn (Z.land b 0xff)))
  end.

(** [None] stands for the result [false]. *)
Definition rlc_am_read_data_pdu_header_m (size : rlc_am_sn_size) : R (option rlc_am_pdu_header) :=
  let! len := length_ in
  if len <=? rlc_am_pdu_header_min_size size then ret None else
  let! b := peek in
  let dc := dc_of_Z (Z.land (Z.shiftr b 7) 0x01) in
  let p := Z.land (Z.shiftr b 6) 0x01 in
  let si := si_of_Z (Z.land (Z.shiftr b 4) 0x03) in
  let! osn := read_sn size in
  match osn with
  | None => ret None
  | Some sn =>
      if si_eqb si last_segment || si_eqb si middle_segment then
        let! oso := read_so in
        match oso with
        | None => ret None
        | Some so => ret (Some (mk_header dc p si size sn so))
        end
      else ret (Some (mk_header dc p si size sn 0))
  end.

Definition rlc_am_read_data_pdu_header (pdu : list Z) (size : rlc_am_sn_size) :
    res (option rlc_am_pdu_header) :=
  run (rlc_am_read_data_pdu_header_m size) pdu.

Definition rlc_am_write_data_pdu_header (h : rlc_am_pdu_header) : list Z :=
  let b0 := u8 (Z.shiftl (Z.land (to_number_dc (dc h)) 0x01) 7) in
  let b0 := u8 (Z.lor b0 (Z.shiftl (Z.land (p h) 0x01) 6)) in
  let b0 := u8 (Z.lor b0 (Z.shiftl (Z.land (to_number_si (si h)) 0x03) 4)) in
  let sn_bytes :=
    match sn_size h with
    | am_size12bits =>
        [u8 (Z.lor b0 (Z.land (Z.shiftr (sn h) 8) 0x0f)); u8 (Z.land (sn h) 0xff)]
    | am_size18bits =>
        [u8 (Z.lor b0 (Z.land (Z.shiftr (sn h) 16) 0x3)); u8 (Z.shiftr (sn h) 8);
         u8 (Z.land (sn h) 0xff)]
    end in
  if negb (so h =? 0)
  then sn_bytes ++ [u8 (Z.shiftr (so h) 8); u8 (Z.land (so h) 0xff)]
  else sn_bytes.

(** Header values a sender may build: fields in range, and an SO exactly when the segmentation
    info announces one (the writer tests the SO, the reader the segmentation info). *)
Definition header_wf (h : rlc_am_pdu_header) : Prop :=
  0 <= p h < 2 /\
  0 <= sn h < cardinality (to_number_am_sn (sn_size h)) /\
  0 <= so h < 65536 /\
  (si_has_so (si h) = true <-> so h <> 0).

Lemma write_length h :
  header_wf h -> zlen (rlc_am_write_data_pdu_header h) = get_packed_size h.
Proof.
  intros (_ & _ & _ & Hso). unfold rlc_am_write_data_pdu_header, get_packed_size.
  fold (si_has_so (si h)).
  destruct (Z.eqb_spec (so h) 0), (si_has_so (si h)), (sn_size h); simpl; try done; naive_solver.
Qed.

(** The first octet carries D/C, P, SI and the top [sn] bits; each field reads back. *)
Lemma first_octet_fields d p0 s hi :
  0 <= p0 < 2 -> 0 <= hi < 16 ->
  let b0 := u8 (Z.shiftl (Z.land (to_number_dc d) 0x01) 7) in
  let b0 := u8 (Z.lor b0 (Z.shiftl (Z.land p0 0x01) 6)) in
  let b0 := u8 (Z.lor b0 (Z.shiftl (Z.land (to_number_si s) 0x03) 4)) in
  let b := u8 (Z.lor b0 hi) in
  dc_of_Z (Z.land (Z.shiftr b 7) 0x01) = d /\
  Z.land (Z.shiftr b 6) 0x01 = p0 /\
  si_of_Z (Z.land (Z.shiftr b 4) 0x03) = s /\
  Z.land b 0x0f = hi.
Proof.
  intros Hp Hhi. simpl.
  assert (p0 = 0 \/ p0 = 1) as [-> | ->] by lia;
  (assert (hi = 0 \/ hi = 1 \/ hi = 2 \/ hi = 3 \/ hi = 4 \/ hi = 5 \/ hi = 6 \/ hi = 7 \/
          hi = 8 \/ hi = 9 \/ hi = 10 \/ hi = 11 \/ hi = 12 \/ hi = 13 \/ hi = 14 \/ hi = 15)
    as Hc by lia);
  destruct_or! Hc; subst hi; destruct d, s; vm_compute; done.
Qed.

Lemma wp_read_so so0 rest (Q : option Z -> list Z -> list Empty_set -> Prop) :
  0 <= so0 < 65536 -> Q (Some so0) rest [] ->
  wp read_so Q (u8 (Z.shiftr so0 8) :: u8 (Z.land so0 0xff) :: rest).
Proof.
  intros Hso HQ. unfold read_so. repeat rd_step; try done.
  rewrite !land_255, lor_shiftl_add by (try lia; apply Z.mod_pos_bound; lia).
  replace (_ + _) with so0; [done|]. bits_to_arith. zmod.
Qed.

(** The SN bits that share the first octet, and the octets after it. *)
Definition sn_hi (size : rlc_am_sn_size) (sn0 : Z) : Z :=
  match size with am_size12bits => Z.shiftr sn0 8 | am_size18bits => Z.shiftr sn0 16 end.
Definition sn_tail (size : rlc_am_sn_size) (sn0 : Z) : list Z :=
  match size with
  | am_size12bits => [u8 (Z.land sn0 0xff)]
  | am_size18bits => [u8 (Z.shiftr sn0 8); u8 (Z.land sn0 0xff)]
  end.

Lemma sn_hi_range size sn0 :
  0 <= sn0 < cardinality (to_number_am_sn size) -> 0 <= sn_hi size sn0 < 16.
Proof.
  destruct size; simpl; [change (cardinality 12) with 4096|change (cardinality 18) with 262144];
    intros; bits_to_arith; zmod.
Qed.

Lemma wp_read_sn b0 size sn0 rest (Q : option Z -> list Z -> list Empty_set -> Prop) :
  0 <= sn0 < cardinality (to_number_am_sn size) ->
  Z.land b0 0x0f = sn_hi size sn0 ->
  Q (Some sn0) rest [] ->
  wp (read_sn size) Q (b0 :: sn_tail size sn0 ++ rest).
Proof.
  destruct size; simpl; intros Hsn Hb HQ; repeat rd_step; try done.
  - rewrite Hb. change (cardinality 12) with 4096 in Hsn.
    rewrite land_255, lor_shiftl_add by (try lia; apply Z.mod_pos_bound; lia).
    replace (_ + _) with sn0; [done|]. bits_to_arith. zmod.
  - exfalso. change (cardinality 18) with 262144 in Hsn.
    assert (Z.land b0 12 = 0) as E.
    { change 12 with (Z.land 15 12). rewrite Z.land_assoc, Hb.
      assert (0 <= Z.shiftr sn0 16 < 4) as Hr by (bits_to_arith; zmod).
      assert (Z.shiftr sn0 16 = 0 \/ Z.shiftr sn0 16 = 1 \/ Z.shiftr sn0 16 = 2 \/
              Z.shiftr sn0 16 = 3) as Hc by lia.
      by destruct_or! Hc; rewrite Hc. }
    rewrite E in *. done.
  - change (cardinality 18) with 262144 in Hsn.
    replace (Z.land b0 3) with (Z.shiftr sn0 16).
    2: { change 3 with (Z.land 15 3). rewrite Z.land_assoc, Hb, land_3. bits_to_arith. zmod. }
    rewrite <- Z.lor_assoc, !land_255.
    rewrite (lor_shiftl_add _ _ 8) by (try lia; apply Z.mod_pos_bound; lia).
    rewrite lor_shiftl_add by (try lia; bits_to_arith; zmod).
    replace (_ + _) with sn0; [done|]. bits_to_arith. zmod.
Qed.

Lemma write_shape h :
  exists b0, 0 <= b0 < 256 /\
    b0 = u8 (Z.lor (u8 (Z.lor (u8 (Z.lor (u8 (Z.shiftl (Z.land (to_number_dc (dc h)) 0x01) 7))
           (Z.shiftl (Z.land (p h) 0x01) 6))) (Z.shiftl (Z.land (to_number_si (si h)) 0x03) 4)))
           (sn_hi (sn_size h) (sn h))) /\
    (0 <= sn h < cardinality (to_number_am_sn (sn_size h)) ->
     rlc_am_write_data_pdu_header h =
       b0 :: sn_tail (sn_size h) (sn h) ++
       if so h =? 0 then [] else [u8 (Z.shiftr (so h) 8); u8 (Z.land (so h) 0xff)]).
Proof.
  eexists. split; [apply u8_range|]. split; [done|]. intros Hsn.
  unfold rlc_am_write_data_pdu_header, sn_hi, sn_tail.
  assert (forall x, 0 <= x < 16 -> Z.land x 15 = x) as L15.
  { intros. rewrite land_15. apply Z.mod_small. lia. }
  pose proof (sn_hi_range _ _ Hsn) as Hr. unfold sn_hi in Hr.
  destruct (sn_size h); simpl in *.
  - rewrite L15 by done. by destruct (so h =? 0).
  - replace (Z.land (Z.shiftr (sn h) 16) 3) with (Z.shiftr (sn h) 16).
    + by destruct (so h =? 0).
    + rewrite land_3. symmetry. apply Z.mod_small.
      change (cardinality 18) with 262144 in Hsn. bits_to_arith. zmod.
Qed.

(** C-level round trip used by the property below and by the entities. *)
Lemma read_write_header h payload :
  header_wf h -> payload <> [] ->
  rlc_am_read_data_pdu_header (rlc_am_write_data_pdu_header h ++ payload) (sn_size h) = Ok (Some h).
Proof.
  intros Hwf Hpl. pose proof (write_length h Hwf) as Hlen.
  destruct (write_shape h) as (b0 & Hb & Eb & Hw).
  destruct Hwf as (Hp & Hsn & Hso & Hsi). specialize (Hw Hsn).
  assert (rlc_am_pdu_header_min_size (sn_size h) < zlen (rlc_am_write_data_pdu_header h ++ payload)) as Hmin.
  { rewrite zlen_app, Hlen. unfold get_packed_size, rlc_am_pdu_header_max_size.
    destruct payload; [done|]. rewrite zlen_cons. pose proof (zlen_nonneg payload).
    unfold rlc_am_pdu_header_so_size. destruct (_ || _); lia. }
  destruct (first_octet_fields (dc h) (p h) (si h) _ Hp (sn_hi_range _ _ Hsn)) as (F1 & F2 & F3 & F4).
  rewrite <- Eb in F1, F2, F3, F4.
  unfold rlc_am_read_data_pdu_header. apply run_ok. rewrite Hw in Hmin |- *.
  unfold rlc_am_read_data_pdu_header_m. rewrite <- app_comm_cons, <- app_assoc in *.
  repeat rd_step; [bool_prop; lia|].
  apply wp_read_sn; [done|by rewrite F4|].
  rewrite F1, F2, F3. fold (si_has_so (si h)).
  destruct (Z.eqb_spec (so h) 0) as [E|E].
  - assert (si_has_so (si h) = false) as -> by (destruct (si_has_so (si h)); naive_solver).
    rd_step. destruct h; simpl in *; by subst.
  - assert (si_has_so (si h) = true) as -> by naive_solver.
    apply wp_bind, wp_read_so; [done|]. rd_step. by destruct h.
Qed.

(** Reading never dereferences the end of the PDU, whatever bytes arrive. *)
Lemma wp_read_header_total size pdu :
  wp (rlc_am_read_data_pdu_header_m size) (fun _ _ _ => True) pdu.
Proof.
  unfold rlc_am_read_data_pdu_header_m.
  rd_step. rd_step. rd_step; [rd_step; done|]. bool_prop.
  destruct size; simpl in *.
  - destruct pdu as [|b0 [|b1 pdu]]; rewrite ?zlen_cons, ?zlen_nil in *; try done; try lia.
    unfold read_so. repeat rd_step; try done; destruct pdu as [|? [|? pdu]]; repeat rd_step; done.
  - destruct pdu as [|b0 [|b1 [|b2 pdu]]]; rewrite ?zlen_cons, ?zlen_nil in *; try done; try lia.
    unfold read_so. repeat rd_step; try done; destruct pdu as [|? [|? pdu]]; repeat rd_step; done.
Qed.

(** The fields a PDU of bytes can carry. *)
Record header_ranges (size : rlc_am_sn_size) (pdu : list Z) (h : rlc_am_pdu_header) : Prop := {
  hr_size : sn_size h = size;
  hr_p : 0 <= p h < 2;
  hr_sn : 0 <= sn h < cardinality (to_number_am_sn size);
  hr_so : 0 <= so h < 65536;
  hr_dc : forall b, hd_error pdu = Some b -> dc h = dc_of_Z (Z.land (Z.shiftr b 7) 0x01)
}.

Lemma wp_read_so_range bs (Q : option Z -> list Z -> list Empty_set -> Prop) :
  bs <> [] -> Forall is_byte bs -> (forall bs', Q None bs' []) ->
  (forall so bs', 0 <= so < 65536 -> Q (Some so) bs' []) -> wp read_so Q bs.
Proof.
  intros Hne Hb HN HS. unfold read_so. destruct bs as [|b [|b1 bs]]; [done| |].
  - repeat rd_step; try (exfalso; discriminate). unfold empty. repeat rd_step; try (exfalso; discriminate); apply HN.
  - repeat (apply Forall_cons in Hb as [? Hb]). unfold is_byte in *.
    repeat rd_step; try (exfalso; discriminate). apply HS.
    rewrite !land_255, lor_shiftl_add by zmod. change (2 ^ 8) with 256. zmod.
Qed.

Lemma wp_read_sn_range size bs (Q : option Z -> list Z -> list Empty_set -> Prop) :
  rlc_am_pdu_header_min_size size < zlen bs -> Forall is_byte bs -> (forall bs', Q None bs' []) ->
  (forall sn bs', 0 <= sn < cardinality (to_number_am_sn size) -> bs' <> [] -> Forall is_byte bs' ->
     Q (Some sn) bs' []) ->
  wp (read_sn size) Q bs.
Proof.
  intros Hlen Hb HN HS. destruct size; simpl in *.
  - do 3 (destruct bs as [|? bs]; [rewrite ?zlen_cons, zlen_nil in Hlen;
      unfold rlc_am_pdu_header_min_size_12bit in Hlen; lia|]).
    repeat (apply Forall_cons in Hb as [? Hb]). unfold is_byte in *. repeat rd_step; try done.
    apply HS; [|done|by constructor]. change (cardinality 12) with 4096.
    rewrite land_15, land_255, lor_shiftl_add by zmod. change (2 ^ 8) with 256. zmod.
  - do 4 (destruct bs as [|? bs]; [rewrite ?zlen_cons, zlen_nil in Hlen;
      unfold rlc_am_pdu_header_min_size_18bit in Hlen; lia|]).
    repeat (apply Forall_cons in Hb as [? Hb]). unfold is_byte in *.
    repeat rd_step; try (exfalso; discriminate); try (apply HN).
    apply HS; [|done|by constructor]. change (cardinality 18) with 262144.
    rewrite <- Z.lor_assoc, land_3, !land_255, (lor_shiftl_add _ _ 8) by zmod.
    rewrite lor_shiftl_add by zmod. change (2 ^ 8) with 256. change (2 ^ 16) with 65536. zmod.
Qed.

Lemma read_header_ranges size pdu :
  Forall is_byte pdu ->
  exists r, rlc_am_read_data_pdu_header pdu size = Ok r /\
    match r with Some h => header_ranges size pdu h | None => True end.
Proof.
  intros Hb. apply run_wp. unfold rlc_am_read_data_pdu_header_m.
  rd_step. rd_step. rd_step; [by rd_step|]. bool_prop.
  destruct pdu as [|b0 pdu]; [rewrite zlen_nil in *; destruct size;
    simpl in *; unfold rlc_am_pdu_header_min_size_12bit, rlc_am_pdu_header_min_size_18bit in *; lia|].
  rd_step. rd_step. cbv zeta. rd_step.
  assert (0 <= Z.land (Z.shiftr b0 6) 1 < 2) as Hp by (rewrite land_1; apply Z.mod_pos_bound; lia).
  apply wp_read_sn_range; [done|done|by intros; rd_step|]. intros sn0 bs' Hsn Hne Hb'.
  rd_step; [|rd_step; split; try done; by intros ? [= <-]].
  rd_step. apply wp_read_so_range; [done|done|by intros; rd_step|]. intros so0 bs'' Hso. rd_step.
  split; try done. by intros ? [= <-].
Qed.
End AmHeader.

(** ** Status PDU *)
Module StatusPdu.

Definition rlc_am_nr_status_pdu_sizeof_header_ack_sn : Z := 3.
Definition rlc_am_nr_status_pdu_sizeof_nack_sn_ext_12bit_sn : Z := 2.
Definition rlc_am_nr_status_pdu_sizeof_nack_sn_ext_18bit_sn : Z := 3.
Definition rlc_am_nr_status_pdu_sizeof_nack_so : Z := 4.
Definition rlc_am_nr_status_pdu_sizeof_nack_range : Z := 1.

Definition so_end_of_sdu : Z := 0xffff.

Record rlc_am_status_nack := mk_nack {
  nack_sn : Z;
  has_so : bool;
  so_start : Z;
  so_end : Z;
  has_nack_range : bool;
  nack_range : Z
}.

(** The default constructor. *)
Definition nack_default : rlc_am_status_nack := mk_nack 0 false 0 so_end_of_sdu false 0.

Definition nack_equals (a b : rlc_am_status_nack) : bool :=
  (nack_sn a =? nack_sn b) && eqb (has_so a) (has_so b) && (so_start a =? so_start b) &&
  (so_end a =? so_end b) && eqb (has_nack_range a) (has_nack_range b) &&
  (nack_range a =? nack_range b).

Definition rlc_control_pdu_type_status : Z := 0.

Record rlc_am_status_pdu := mk_status {
  st_sn_size : rlc_am_sn_size;
  mod_nr : Z;
  nacks : list rlc_am_status_nack;
  packed_size : Z;
  cpt : Z;
  ack_sn : Z
}.

Definition new_status_pdu (sn_size : rlc_am_sn_size) : rlc_am_status_pdu :=
  mk_status sn_size (cardinality (to_number_am_sn sn_size)) []
    rlc_am_nr_status_pdu_sizeof_header_ack_sn rlc_control_pdu_type_status INVALID_RLC_SN.

Definition reset (s : rlc_am_status_pdu) : rlc_am_status_pdu :=
  mk_status (st_sn_size s) (mod_nr s) [] rlc_am_nr_status_pdu_sizeof_header_ack_sn
    rlc_control_pdu_type_status INVALID_RLC_SN.

Definition set_nacks (s : rlc_am_status_pdu) (l : list rlc_am_status_nack) (size : Z) :=
  mk_status (st_sn_size s) (mod_nr s) l size (cpt s) (ack_sn s).
Definition set_ack_sn (s : rlc_am_status_pdu) (sn : Z) :=
  mk_status (st_sn_size s) (mod_nr s) (nacks s) (packed_size s) (cpt s) sn.
Definition set_cpt (s : rlc_am_status_pdu) (c : Z) :=
  mk_status (st_sn_size s) (mod_nr s) (nacks s) (packed_size s) c (ack_sn s).

Definition can_be_merged (s : rlc_am_status_pdu) (left right : rlc_am_status_nack) : bool :=
  if negb (nack_sn right =?
           (if has_nack_range left then u32 (nack_sn left + nack_range left)
            else u32 (nack_sn left + 1)) mod mod_nr s) then false else
  if has_so left && negb (so_end left =? so_end_of_sdu) then false else
  if has_so right && negb (so_start right =? 0) then false else
  let left_range := u16 (if has_nack_range left then nack_range left else 1) in
  let right_range := u16 (if has_nack_range right then nack_range right else 1) in
  left_range + right_range <=? 255.

Definition nack_size_of (sn_size : rlc_am_sn_size) (nack : rlc_am_status_nack) : Z :=
  (match sn_size with
   | am_size12bits => rlc_am_nr_status_pdu_sizeof_nack_sn_ext_12bit_sn
   | am_size18bits => rlc_am_nr_status_pdu_sizeof_nack_sn_ext_18bit_sn
   end)
  + (if has_so nack then rlc_am_nr_status_pdu_sizeof_nack_so else 0)
  + (if has_nack_range nack then rlc_am_nr_status_pdu_sizeof_nack_range else 0).

Definition nack_size (s : rlc_am_status_pdu) (nack : rlc_am_status_nack) : Z :=
  nack_size_of (st_sn_size s) nack.

Definition refresh_packed_size (s : rlc_am_status_pdu) : rlc_am_status_pdu :=
  set_nacks s (nacks s)
    (fold_left (fun acc nack => acc + nack_size s nack) (nacks s)
       rlc_am_nr_status_pdu_sizeof_header_ack_sn).

(** Expansion of the NACK at the back by a NACK that continues it. *)
Definition merge_nack (prev nack : rlc_am_status_nack) : rlc_am_status_nack :=
  let range :=
    if has_nack_range nack then
      if has_nack_range prev then u8 (nack_range prev + nack_range nack)
      else u8 (nack_range nack + 1)
    else
      if has_nack_range prev then u8 (nack_range prev + 1)
      else 2 in
  let '(hs, ss, se) :=
    if has_so nack then
      (true, (if has_so prev then so_start prev else 0), so_end nack)
    else
      (has_so prev, so_start prev, if has_so prev then so_end_of_sdu else so_end prev) in
  mk_nack (nack_sn prev) hs ss se true range.

Definition push_nack (s : rlc_am_status_pdu) (nack : rlc_am_status_nack) : rlc_am_status_pdu :=
  match back (nacks s) with
  | None => set_nacks s (nacks s ++ [nack]) (packed_size s + nack_size s nack)
  | Some prev =>
      if negb (can_be_merged s prev nack)
      then set_nacks s (nacks s ++ [nack]) (packed_size s + nack_size s nack)
      else
        let prev' := merge_nack prev nack in
        set_nacks s (removelast (nacks s) ++ [prev'])
          (packed_size s - nack_size s prev + nack_size s prev')
  end.

(** The loop of [trim], on the NACKs from the back: remaining NACKs, size and ACK_SN. *)
Fixpoint trim_loop (sn_size : rlc_am_sn_size) (max_packed_size : Z)
    (rnacks : list rlc_am_status_nack) (size ack : Z) : list rlc_am_status_nack * Z * Z :=
  match rnacks with
  | [] => ([], size, ack)
  | n :: rnacks' =>
      if (max_packed_size <? size) || (nack_sn n =? ack)
      then trim_loop sn_size max_packed_size rnacks' (size - nack_size_of sn_size n) (nack_sn n)
      else (rnacks, size, ack)
  end.

Definition trim (s : rlc_am_status_pdu) (max_packed_size : Z) : rlc_am_status_pdu * bool :=
  if packed_size s <=? max_packed_size then (s, true)
  else if max_packed_size <? rlc_am_nr_status_pdu_sizeof_header_ack_sn then (s, false)
  else
    let '(l, size, ack) :=
      trim_loop (st_sn_size s) max_packed_size (rev (nacks s)) (packed_size s) (ack_sn s) in
    (set_ack_sn (set_nacks s (rev l) size) ack, true).

(** *** Packing *)

Definition pack_so (n : rlc_am_status_nack) : list Z :=
  if has_so n then
    [u8 (Z.shiftr (so_start n) 8); u8 (so_start n); u8 (Z.shiftr (so_end n) 8); u8 (so_end n)]
  else [].
Definition pack_range (n : rlc_am_status_nack) : list Z :=
  if has_nack_range n then [u8 (nack_range n)] else [].

Definition or_if (b : bool) (mask x : Z) : Z := if b then u8 (Z.lor x mask) else x.

(** The NACKs, [E1] set on all but the last. *)
Fixpoint pack_nacks_12bit (l : list rlc_am_status_nack) : list Z :=
  match l with
  | [] => []
  | n :: l' =>
      u8 (Z.land (Z.shiftr (nack_sn n) 4) 0xff)
      :: or_if (has_nack_range n) 0x02 (or_if (has_so n) 0x04
           (or_if (match l' with [] => false | _ => true end) 0x08
              (u8 (Z.shiftl (Z.land (nack_sn n) 0x0f) 4))))
      :: pack_so n ++ pack_range n ++ pack_nacks_12bit l'
  end.

Definition pack_12bit (s : rlc_am_status_pdu) : list Z :=
  u8 (Z.lor 0 (Z.land (Z.shiftr (ack_sn s) 8) 0x0f))
  :: u8 (Z.land (ack_sn s) 0xff)
  :: (match nacks s with [] => 0x00 | _ => 0x80 end)
  :: pack_nacks_12bit (nacks s).

Fixpoint pack_nacks_18bit (l : list rlc_am_status_nack) : list Z :=
  match l with
  | [] => []
  | n :: l' =>
      u8 (Z.land (Z.shiftr (nack_sn n) 10) 0xff)
      :: u8 (Z.land (Z.shiftr (nack_sn n) 2) 0xff)
      :: or_if (has_nack_range n) 0x08 (or_if (has_so n) 0x10
           (or_if (match l' with [] => false | _ => true end) 0x20
              (u8 (Z.land (Z.shiftl (nack_sn n) 6) 0xc0))))
      :: pack_so n ++ pack_range n ++ pack_nacks_18bit l'
  end.

Definition pack_18bit (s : rlc_am_status_pdu) : list Z :=
  u8 (Z.lor 0 (Z.land (Z.shiftr (ack_sn s) 14) 0x0f))
  :: u8 (Z.land (Z.shiftr (ack_sn s) 6) 0xff)
  :: or_if (match nacks s with [] => false | _ => true end) 0x02
       (u8 (Z.land (Z.shiftl (ack_sn s) 2) 0xfc))
  :: pack_nacks_18bit (nacks s).

Definition pack (s : rlc_am_status_pdu) : list Z :=
  match st_sn_size s with
  | am_size12bits => pack_12bit s
  | am_size18bits => pack_18bit s
  end.

(** *** Unpacking *)

(** [is_control_pdu] dereferences the first octet. *)
Definition is_control_pdu {S E} (pdu : list Z) : M S E bool :=
  let! b := need (hd_error pdu) in
  ret (Z.land (Z.shiftr b 7) 0x01 =? to_number_dc dc_control).

(** A further NACK: the fields after the NACK_SN octets. [None] stands for [return false]. *)
Definition unpack_nack_tail (e2 e3 : Z) (nack : rlc_am_status_nack) : R (option rlc_am_status_nack) :=
  let! onack :=
    (if negb (e2 =? 0) then
       let! len := length_ in
       if len <? rlc_am_nr_status_pdu_sizeof_nack_so then ret None else
       let! b0 := peek in next ;;;
       let! b1 := peek in next ;;;
       let! b2 := peek in next ;;;
       let! b3 := peek in next ;;;
       ret (Some (mk_nack (nack_sn nack) true
                    (u16 (Z.lor (u16 (Z.shiftl b0 8)) b1)) (u16 (Z.lor (u16 (Z.shiftl b2 8)) b3))
                    (has_nack_range nack) (nack_range nack)))
     else ret (Some nack)) in
  match onack with
  | None => ret None
  | Some nack =>
      if negb (e3 =? 0) then
        let! len := length_ in
        if len <? rlc_am_nr_status_pdu_sizeof_nack_range then ret None else
        let! b := peek in next ;;;
        ret (Some (mk_nack (nack_sn nack) (has_so nack) (so_start nack) (so_end nack) true b))
      else ret (Some nack)
  end.

(** One turn of [while (e1 != 0)]: the loop variables are E1 and the status PDU being filled. *)
Definition unpack_step_12bit (v : Z * rlc_am_status_pdu) :
    R ((Z * rlc_am_status_pdu) + (rlc_am_status_pdu * bool)) :=
  let '(e1, s) := v in
  if e1 =? 0 then ret (inr (s, true)) else
  let! len := length_ in
  if len <? rlc_am_nr_status_pdu_sizeof_nack_sn_ext_12bit_sn then ret (inr (s, false)) else
  let! b := peek in
  let sn := Z.shiftl (Z.land b 0xff) 4 in
  next ;;;
  let! b := peek in
  let e1 := Z.land b 0x08 in
  let e2 := Z.land b 0x04 in
  let e3 := Z.land b 0x02 in
  if negb (Z.land b 0x01 =? 0) then ret (inr (s, false)) else
  let sn := Z.lor sn (Z.shiftr (Z.land b 0xf0) 4) in
  next ;;;
  let! onack := unpack_nack_tail e2 e3 (mk_nack sn false 0 so_end_of_sdu false 0) in
  match onack with
  | None => ret (inr (s, false))
  | Some nack => ret (inl (e1, push_nack s nack))
  end.

Definition unpack_12bit (s : rlc_am_status_pdu) (pdu : list Z) : R (rlc_am_status_pdu * bool) :=
  let! len := length_ in
  if len <? rlc_am_nr_status_pdu_sizeof_header_ack_sn then ret (s, false) else
  let! ctrl := is_control_pdu pdu in
  if negb ctrl then ret (s, false) else
  let s := reset s in
  let! b := peek in
  let s := set_cpt s (Z.land (Z.shiftr b 4) 0x07) in
  if negb (cpt s =? rlc_control_pdu_type_status) then ret (s, false) else
  let s := set_ack_sn s (Z.shiftl (Z.land b 0x0f) 8) in
  next ;;;
  let! b := peek in
  let s := set_ack_sn s (Z.lor (ack_sn s) (Z.land b 0xff)) in
  next ;;;
  let! b := peek in
  let e1 := Z.land b 0x80 in
  if negb (Z.land b 0x7f =? 0) then ret (s, false) else
  next ;;;
  while_loop (Datatypes.S (length pdu)) unpack_step_12bit (e1, s).

Definition unpack_step_18bit (v : Z * rlc_am_status_pdu) :
    R ((Z * rlc_am_status_pdu) + (rlc_am_status_pdu * bool)) :=
  let '(e1, s) := v in
  if e1 =? 0 then ret (inr (s, true)) else
  let! len := length_ in
  if len <? rlc_am_nr_status_pdu_sizeof_nack_sn_ext_18bit_sn then ret (inr (s, false)) else
  let! b := peek in
  let sn := Z.shiftl (Z.land b 0xff) 10 in
  next ;;;
  let! b := peek in
  let sn := Z.lor sn (Z.shiftl (Z.land b 0xff) 2) in
  next ;;;
  let! b := peek in
  let sn := Z.lor sn (Z.shiftr (Z.land b 0xc0) 6) in
  let e1 := Z.land b 0x20 in
  let e2 := Z.land b 0x10 in
  let e3 := Z.land b 0x08 in
  if negb (Z.land b 0x07 =? 0) then ret (inr (s, false)) else
  next ;;;
  let! onack := unpack_nack_tail e2 e3 (mk_nack sn false 0 so_end_of_sdu false 0) in
  match onack with
  | None => ret (inr (s, false))
  | Some nack => ret (inl (e1, push_nack s nack))
  end.

Definition unpack_18bit (s : rlc_am_status_pdu) (pdu : list Z) : R (rlc_am_status_pdu * bool) :=
  let! len := length_ in
  if len <? rlc_am_nr_status_pdu_sizeof_header_ack_sn then ret (s, false) else
  let! ctrl := is_control_pdu pdu in
  if negb ctrl then ret (s, false) else
  let s := reset s in
  let! b := peek in
  let s := set_cpt s (Z.land (Z.shiftr b 4) 0x07) in
  if negb (cpt s =? rlc_control_pdu_type_status) then ret (s, false) else
  let s := set_ack_sn s (Z.shiftl (Z.land b 0x0f) 14) in
  next ;;;
  let! b := peek in
  let s := set_ack_sn s (Z.lor (ack_sn s) (Z.shiftl (Z.land b 0xff) 6)) in
  next ;;;
  let! b := peek in
  let s := set_ack_sn s (Z.lor (ack_sn s) (Z.shiftr (Z.land b 0xfc) 2)) in
  let e1 := Z.land b 0x02 in
  if negb (Z.land b 0x01 =? 0) then ret (s, false) else
  next ;;;
  while_loop (Datatypes.S (length pdu)) unpack_step_18bit (e1, s).

Definition unpack_m (s : rlc_am_status_pdu) (pdu : list Z) : R (rlc_am_status_pdu * bool) :=
  match st_sn_size s with
  | am_size12bits => unpack_12bit s pdu
  | am_size18bits => unpack_18bit s pdu
  end.

(** The status PDU after the call and the result; [Fault] for a read past the PDU. *)
Definition unpack (s : rlc_am_status_pdu) (pdu : list Z) : res (rlc_am_status_pdu * bool) :=
  run (unpack_m s pdu) pdu.
End StatusPdu.
