(* ===== verification/RlcAmPduFacts.v ===== *)
(** * RLC AM status PDU: what it reports and how it survives the wire

    Theory of the status PDU defined in RlcAmPdu.v: the packed size, the missing data a NACK list
    stands for ([expand]), merging, trimming, and the pack/unpack round trip. *)

From S2P Require Import Prelude Effects RlcConfig RlcAmPdu.
Import Reader StatusPdu.
Open Scope Z_scope.
Open Scope entity_scope.

(** ** Well-formed NACKs *)

(** Field ranges, and default values in the fields that are not signalled. *)
Record nack_wf (m : Z) (n : rlc_am_status_nack) : Prop := {
  nw_sn : 0 <= nack_sn n < m;
  nw_ss : 0 <= so_start n < 65536;
  nw_se : 0 <= so_end n < 65536;
  nw_r : 0 <= nack_range n < 256;
  nw_so : has_so n = false -> so_start n = 0 /\ so_end n = so_end_of_sdu;
  nw_nr : has_nack_range n = false -> nack_range n = 0
}.

(** Number of sequence numbers a NACK covers. *)
Definition nack_count (n : rlc_am_status_nack) : Z := if has_nack_range n then nack_range n else 1.

(** The missing parts a NACK stands for, one per sequence number: (SN, first byte, last byte),
    65535 standing for the end of the SDU. *)
Definition nack_items (m : Z) (n : rlc_am_status_nack) : list (Z * Z * Z) :=
  (fun i => ((nack_sn n + i) mod m,
             (if (i =? 0) && has_so n then so_start n else 0),
             (if (i =? nack_count n - 1) && has_so n then so_end n else so_end_of_sdu)))
  <$> seqZ 0 (nack_count n).

Definition expand (m : Z) (l : list rlc_am_status_nack) : list (Z * Z * Z) := l ≫= nack_items m.

(** ** The packed size *)

Definition nacks_size (sz : rlc_am_sn_size) (l : list rlc_am_status_nack) : Z :=
  foldr (fun n acc => nack_size_of sz n + acc) 0 l.

Definition size_sync (s : rlc_am_status_pdu) : Prop :=
  packed_size s = rlc_am_nr_status_pdu_sizeof_header_ack_sn + nacks_size (st_sn_size s) (nacks s).

Lemma nacks_size_app sz l k : nacks_size sz (l ++ k) = nacks_size sz l + nacks_size sz k.
Proof. induction l; simpl; [done|lia]. Qed.

Lemma nack_size_pos sz n : 2 <= nack_size_of sz n <= 8.
Proof.
  unfold nack_size_of, rlc_am_nr_status_pdu_sizeof_nack_sn_ext_12bit_sn,
    rlc_am_nr_status_pdu_sizeof_nack_sn_ext_18bit_sn, rlc_am_nr_status_pdu_sizeof_nack_so,
    rlc_am_nr_status_pdu_sizeof_nack_range.
  destruct sz, (has_so n), (has_nack_range n); lia.
Qed.

Lemma back_app {A} (l : list A) x : back l = Some x -> l = removelast l ++ [x].
Proof.
  induction l as [|a [|b l] IH]; intros H; simplify_eq/=; [done|].
  f_equal. by apply IH.
Qed.

Lemma push_nack_cases s n :
  (exists l prev, nacks s = l ++ [prev] /\ can_be_merged s prev n = true /\
     push_nack s n = set_nacks s (l ++ [merge_nack prev n])
       (packed_size s - nack_size s prev + nack_size s (merge_nack prev n))) \/
  ((forall prev, back (nacks s) = Some prev -> can_be_merged s prev n = false) /\
   push_nack s n = set_nacks s (nacks s ++ [n]) (packed_size s + nack_size s n)).
Proof.
  unfold push_nack. destruct (back (nacks s)) as [prev|] eqn:E; [|by right].
  destruct (can_be_merged s prev n) eqn:Hm; simpl.
  - left. exists (removelast (nacks s)), prev. split; [by apply back_app|]. done.
  - right. split; [|done]. by intros ? [= <-].
Qed.

Lemma push_nack_same s n :
  st_sn_size (push_nack s n) = st_sn_size s /\ mod_nr (push_nack s n) = mod_nr s /\
  ack_sn (push_nack s n) = ack_sn s /\ cpt (push_nack s n) = cpt s.
Proof. destruct (push_nack_cases s n) as [(?&?&_&_&->)|[_ ->]]; done. Qed.

Lemma push_nack_sync s n : size_sync s -> size_sync (push_nack s n).
Proof.
  unfold size_sync. intros H.
  destruct (push_nack_cases s n) as [(l&prev&E&_&->)|[_ ->]]; simpl; unfold nack_size.
  - rewrite H, E, !nacks_size_app. simpl. lia.
  - rewrite H, nacks_size_app. simpl. lia.
Qed.

Lemma refresh_packed_size_sync s : size_sync (refresh_packed_size s).
Proof.
  unfold size_sync, refresh_packed_size. simpl. unfold nack_size.
  generalize rlc_am_nr_status_pdu_sizeof_header_ack_sn as a.
  induction (nacks s) as [|n l IH]; intros a; simpl; [lia|]. rewrite IH. lia.
Qed.

Lemma pack_nacks_12bit_length l : zlen (pack_nacks_12bit l) = nacks_size am_size12bits l.
Proof.
  induction l as [|n l IH]; [done|]. simpl. rewrite !zlen_cons, !zlen_app, IH.
  unfold nack_size_of, pack_so, pack_range. destruct (has_so n), (has_nack_range n);
  rewrite ?zlen_cons, ?zlen_nil; unfold rlc_am_nr_status_pdu_sizeof_nack_sn_ext_12bit_sn,
    rlc_am_nr_status_pdu_sizeof_nack_so, rlc_am_nr_status_pdu_sizeof_nack_range; lia.
Qed.

Lemma pack_nacks_18bit_length l : zlen (pack_nacks_18bit l) = nacks_size am_size18bits l.
Proof.
  induction l as [|n l IH]; [done|]. simpl. rewrite !zlen_cons, !zlen_app, IH.
  unfold nack_size_of, pack_so, pack_range. destruct (has_so n), (has_nack_range n);
  rewrite ?zlen_cons, ?zlen_nil; unfold rlc_am_nr_status_pdu_sizeof_nack_sn_ext_18bit_sn,
    rlc_am_nr_status_pdu_sizeof_nack_so, rlc_am_nr_status_pdu_sizeof_nack_range; lia.
Qed.

Lemma pack_length s : size_sync s -> zlen (pack s) = packed_size s.
Proof.
  unfold size_sync, pack. intros ->. destruct (st_sn_size s);
  [unfold pack_12bit; rewrite !zlen_cons, pack_nacks_12bit_length
  |unfold pack_18bit; rewrite !zlen_cons, pack_nacks_18bit_length];
  unfold rlc_am_nr_status_pdu_sizeof_header_ack_sn; lia.
Qed.

(** ** Merging *)

(** A status PDU under construction for a ring of the right size. *)
Record status_wf (s : rlc_am_status_pdu) : Prop := {
  sw_mod : mod_nr s = cardinality (to_number_am_sn (st_sn_size s));
  sw_nacks : Forall (nack_wf (mod_nr s)) (nacks s);
  sw_sync : size_sync s;
  sw_cpt : cpt s = rlc_control_pdu_type_status
}.

Lemma status_mod_pos s : status_wf s -> 0 < mod_nr s.
Proof. intros [-> _ _ _]. pose proof (am_ring_sizes (st_sn_size s)). lia. Qed.

Lemma can_be_merged_spec s l r :
  status_wf s -> nack_wf (mod_nr s) l -> nack_wf (mod_nr s) r ->
  can_be_merged s l r = true <->
    nack_sn r = (nack_sn l + nack_count l) mod mod_nr s /\
    (has_so l = true -> so_end l = so_end_of_sdu) /\
    (has_so r = true -> so_start r = 0) /\
    nack_count l + nack_count r <= 255.
Proof.
  intros Hs Hl Hr. pose proof (am_ring_sizes (st_sn_size s)) as (_ & _ & Hdiv & _ & Hm & _).
  rewrite <- (sw_mod s Hs) in *. pose proof (status_mod_pos s Hs) as Hpos.
  unfold can_be_merged, nack_count. destruct Hl, Hr.
  rewrite (u16_small (if has_nack_range l then _ else _)) by (destruct (has_nack_range l); lia).
  rewrite (u16_small (if has_nack_range r then _ else _)) by (destruct (has_nack_range r); lia).
  replace (if has_nack_range l then u32 (nack_sn l + nack_range l) else u32 (nack_sn l + 1))
    with (u32 (nack_sn l + if has_nack_range l then nack_range l else 1))
    by (by destruct (has_nack_range l)).
  rewrite u32_mod by done.
  destruct (Z.eqb_spec (nack_sn r)
    ((nack_sn l + (if has_nack_range l then nack_range l else 1)) mod mod_nr s)) as [E|E]; simpl.
  2: { split; [done|]. intros (? & _). done. }
  destruct (has_so l), (has_so r); simpl;
    repeat match goal with |- context [negb (?a =? ?b)] => destruct (Z.eqb_spec a b); simpl end;
    rewrite ?Z.leb_le; (split; [intros Hle|intros (_ & H1 & H2 & Hle)]);
    repeat split; try done; try (by specialize (H1 eq_refl)); try (by specialize (H2 eq_refl)).
Qed.

Lemma merge_nack_wf m l r :
  nack_wf m l -> nack_wf m r -> nack_count l + nack_count r <= 255 ->
  nack_wf m (merge_nack l r) /\ nack_count (merge_nack l r) = nack_count l + nack_count r.
Proof.
  intros [] [] Hc. unfold nack_count, merge_nack in *.
  assert ((if has_nack_range r
     then if has_nack_range l then u8 (nack_range l + nack_range r) else u8 (nack_range r + 1)
     else if has_nack_range l then u8 (nack_range l + 1) else 2) =
     (if has_nack_range l then nack_range l else 1) + (if has_nack_range r then nack_range r else 1)) as E.
  { destruct (has_nack_range l), (has_nack_range r); rewrite ?u8_small by lia; lia. }
  unfold so_end_of_sdu in *.
  destruct (has_so r) eqn:?, (has_so l) eqn:?; simpl; rewrite E; (split; [split|]); simpl; try done; try lia;
    destruct (has_nack_range l), (has_nack_range r); try lia; naive_solver lia.
Qed.

Lemma merge_nack_items s l r :
  status_wf s -> nack_wf (mod_nr s) l -> nack_wf (mod_nr s) r ->
  0 < nack_count l -> 0 < nack_count r ->
  can_be_merged s l r = true ->
  nack_items (mod_nr s) (merge_nack l r) = nack_items (mod_nr s) l ++ nack_items (mod_nr s) r.
Proof.
  intros Hs Hl Hr Pl Pr Hm. apply can_be_merged_spec in Hm as (Esn & Hle & Hrs & Hc); [|done..].
  destruct (merge_nack_wf _ _ _ Hl Hr Hc) as [_ Hcount].
  unfold nack_items. rewrite Hcount.
  rewrite seqZ_app, fmap_app by lia. f_equal.
  - apply list_fmap_ext. intros i x [-> Hi]%lookup_seqZ.
    replace (nack_sn (merge_nack l r)) with (nack_sn l)
      by (unfold merge_nack; by destruct (has_so r)).
    f_equal; [f_equal|].
    + unfold merge_nack. destruct (has_so r) eqn:?, (has_so l) eqn:?; simpl;
      destruct (Z.eqb_spec (0 + Z.of_nat i) 0); simpl; done.
    + replace (0 + Z.of_nat i =? nack_count l + nack_count r - 1) with false by lia. simpl.
      destruct (Z.eqb_spec (0 + Z.of_nat i) (nack_count l - 1)); [|done]. simpl.
      destruct (has_so l); [|done]. by rewrite Hle.
  - replace (0 + nack_count l) with (nack_count l + 0) by lia. rewrite <- fmap_add_seqZ.
    rewrite <- list_fmap_compose. apply list_fmap_ext. intros i x [-> Hi]%lookup_seqZ. simpl.
    replace (nack_sn (merge_nack l r)) with (nack_sn l)
      by (unfold merge_nack; by destruct (has_so r)).
    rewrite Esn, Zplus_mod_idemp_l, Z.add_assoc.
    replace (nack_count l + (0 + Z.of_nat i) =? 0) with false by lia. simpl.
    f_equal; [f_equal|].
    + destruct (Z.eqb_spec (0 + Z.of_nat i) 0); [|done]. simpl. destruct (has_so r); [|done].
      by rewrite Hrs.
    + replace (nack_count l + (0 + Z.of_nat i) =? nack_count l + nack_count r - 1)
        with (0 + Z.of_nat i =? nack_count r - 1) by lia.
      destruct (Z.eqb_spec (0 + Z.of_nat i) (nack_count r - 1)); [|done]. simpl.
      unfold merge_nack. destruct (has_so r) eqn:?, (has_so l) eqn:?; simpl; try done.
Qed.

Lemma push_nack_wf s n :
  status_wf s -> nack_wf (mod_nr s) n -> status_wf (push_nack s n).
Proof.
  intros Hs Hn. pose proof (push_nack_same s n) as (E1 & E2 & _ & E4).
  split; rewrite ?E1, ?E2, ?E4; try apply Hs.
  - pose proof (sw_nacks s Hs) as Hall.
    destruct (push_nack_cases s n) as [(l&prev&E&Hm&->)|[_ ->]]; simpl.
    + rewrite E in Hall. apply Forall_app in Hall as [Hl [Hp _]%Forall_cons].
      apply can_be_merged_spec in Hm as (_&_&_&Hc); [|done..].
      apply Forall_app. split; [done|]. apply Forall_singleton. by apply merge_nack_wf.
    + apply Forall_app. split; [done|]. by apply Forall_singleton.
  - apply push_nack_sync, Hs.
Qed.

Lemma nack_count_pos_merge s l r :
  status_wf s -> nack_wf (mod_nr s) l -> nack_wf (mod_nr s) r ->
  can_be_merged s l r = true -> 0 < nack_count l -> 0 < nack_count r ->
  0 < nack_count (merge_nack l r).
Proof.
  intros Hs Hl Hr Hm ??. apply can_be_merged_spec in Hm as (_&_&_&Hc); [|done..].
  destruct (merge_nack_wf _ _ _ Hl Hr Hc) as [_ E]. rewrite E. lia.
Qed.

(** Every NACK of the list covers at least one sequence number. *)
Definition counts_pos (l : list rlc_am_status_nack) : Prop := Forall (fun n => 0 < nack_count n) l.

Lemma push_nack_counts_pos s n :
  status_wf s -> nack_wf (mod_nr s) n -> counts_pos (nacks s) -> 0 < nack_count n ->
  counts_pos (nacks (push_nack s n)).
Proof.
  intros Hs Hn Hall Hc. unfold counts_pos in *. pose proof (sw_nacks s Hs) as Hw.
  destruct (push_nack_cases s n) as [(l&prev&E&Hm&->)|[_ ->]]; simpl.
  - rewrite E in Hall, Hw. apply Forall_app in Hall as [Hl [Hp _]%Forall_cons].
    apply Forall_app in Hw as [_ [Hpw _]%Forall_cons].
    apply Forall_app. split; [done|]. apply Forall_singleton.
    by eapply nack_count_pos_merge.
  - apply Forall_app. split; [done|]. by apply Forall_singleton.
Qed.

(** Pushing a NACK adds exactly the missing parts it stands for, merged or not. *)
Lemma push_nack_expand s n :
  status_wf s -> nack_wf (mod_nr s) n -> counts_pos (nacks s) -> 0 < nack_count n ->
  expand (mod_nr s) (nacks (push_nack s n)) =
  expand (mod_nr s) (nacks s) ++ nack_items (mod_nr s) n.
Proof.
  intros Hs Hn Hall Hc. unfold expand, counts_pos in *. pose proof (sw_nacks s Hs) as Hw.
  destruct (push_nack_cases s n) as [(l&prev&E&Hm&->)|[_ ->]]; simpl.
  - rewrite E in Hall, Hw |- *.
    apply Forall_app in Hall as [Hl [Hp _]%Forall_cons].
    apply Forall_app in Hw as [_ [Hpw _]%Forall_cons].
    rewrite !bind_app. simpl. rewrite !app_nil_r, <- app_assoc. f_equal.
    by apply merge_nack_items.
  - rewrite bind_app. simpl. by rewrite app_nil_r.
Qed.

(** ** Status PDUs as the wire carries them: no two neighbours could be merged *)

Fixpoint unmerged (s : rlc_am_status_pdu) (l : list rlc_am_status_nack) : Prop :=
  match l with
  | a :: ((b :: _) as l') => can_be_merged s a b = false /\ unmerged s l'
  | _ => True
  end.

Lemma unmerged_snoc s l n :
  unmerged s (l ++ [n]) <->
  unmerged s l /\ (forall prev, back l = Some prev -> can_be_merged s prev n = false).
Proof.
  induction l as [|a [|b l] IH]; simpl in *.
  - split; [|done]. by intros _.
  - split; [intros [? _]; split; [done|]; by intros ? [= <-]|]. intros [_ H]. auto.
  - rewrite IH. tauto.
Qed.

Lemma can_be_merged_cfg s s' l r :
  mod_nr s' = mod_nr s -> can_be_merged s' l r = can_be_merged s l r.
Proof. intros E. unfold can_be_merged. by rewrite E. Qed.

Lemma unmerged_cfg s s' l : mod_nr s' = mod_nr s -> unmerged s' l <-> unmerged s l.
Proof.
  intros E. induction l as [|a [|b l] IH]; simpl in *; [done..|].
  by rewrite (can_be_merged_cfg _ _ _ _ E), IH.
Qed.

(** Extending the NACK at the back cannot make it mergeable with the one before. *)
Lemma can_be_merged_extend s pp prev n :
  status_wf s -> nack_wf (mod_nr s) pp -> nack_wf (mod_nr s) prev -> nack_wf (mod_nr s) n ->
  can_be_merged s prev n = true -> can_be_merged s pp prev = false ->
  can_be_merged s pp (merge_nack prev n) = false.
Proof.
  intros Hs Hpp Hp Hn Hm Hf. apply not_true_iff_false. intros Ht.
  apply can_be_merged_spec in Hm as (_&_&_&Hc); [|done..].
  destruct (merge_nack_wf _ _ _ Hp Hn Hc) as [Hw Hcnt].
  apply can_be_merged_spec in Ht as (Esn & He & Hss & Hcc); [|done..].
  apply not_true_iff_false in Hf. apply Hf. apply can_be_merged_spec; [done..|].
  rewrite Hcnt in Hcc.
  assert (0 <= nack_count n) by (unfold nack_count; destruct Hn, (has_nack_range n); lia).
  split_and!; [|done| |lia].
  - rewrite <- Esn. unfold merge_nack. by destruct (has_so n).
  - intros Hso. revert Hss. unfold merge_nack. rewrite Hso. destruct (has_so n); simpl; auto.
Qed.

Lemma push_nack_unmerged s n :
  status_wf s -> nack_wf (mod_nr s) n -> unmerged s (nacks s) -> unmerged s (nacks (push_nack s n)).
Proof.
  intros Hs Hn Hu. pose proof (sw_nacks s Hs) as Hw.
  destruct (push_nack_cases s n) as [(l&prev&E&Hm&->)|[Hf ->]]; simpl.
  - rewrite E in Hu, Hw. apply unmerged_snoc in Hu as [Hu Hlast]. apply unmerged_snoc.
    split; [done|]. intros pp Hpp. apply Forall_app in Hw as [Hwl [Hpw _]%Forall_cons].
    apply can_be_merged_extend; auto.
    rewrite Forall_forall in Hwl. apply Hwl.
    rewrite (back_app _ _ Hpp). apply elem_of_app. right. by apply list_elem_of_singleton.
  - by apply unmerged_snoc.
Qed.

(** Pushing an already separate list onto a separate prefix just appends it. *)
Lemma push_all_append s l :
  unmerged s (nacks s ++ l) ->
  fold_left push_nack l s =
    set_nacks s (nacks s ++ l) (packed_size s + nacks_size (st_sn_size s) l).
Proof.
  revert s. induction l as [|n l IH]; intros s Hu; simpl.
  - rewrite app_nil_r, Z.add_0_r. by destruct s.
  - assert (push_nack s n = set_nacks s (nacks s ++ [n]) (packed_size s + nack_size s n)) as E.
    { destruct (push_nack_cases s n) as [(l0&prev&E&Hm&_)|[_ ->]]; [|done]. exfalso.
      rewrite E, <- app_assoc in Hu. simpl in Hu. clear -Hu Hm.
      induction l0 as [|a [|b l0] IH]; simpl in *.
      - destruct Hu as [Hu _]. congruence.
      - destruct Hu as (_ & Hu & _). congruence.
      - destruct Hu as [_ Hu]. auto. }
    rewrite E, IH.
    + unfold set_nacks, nack_size. simpl. rewrite <- app_assoc. f_equal. lia.
    + simpl. rewrite <- app_assoc. apply (unmerged_cfg s); [done|]. done.
Qed.

(** ** Trimming *)

Lemma trim_loop_spec sz max l size ack :
  let '(l', size', ack') := trim_loop sz max l size ack in
  exists dropped, l = dropped ++ l' /\ size' = size - nacks_size sz dropped /\
    (l' <> [] -> size' <= max) /\
    (match l' with [] => True | n :: _ => nack_sn n <> ack' end) /\
    ack' = match back dropped with Some n => nack_sn n | None => ack end.
Proof.
  revert size ack. induction l as [|n l IH]; intros size ack; simpl.
  - exists []. simpl. split_and!; [done|lia|done|done|done].
  - destruct ((max <? size) || (nack_sn n =? ack)) eqn:E.
    + specialize (IH (size - nack_size_of sz n) (nack_sn n)).
      destruct (trim_loop _ _ _ _ _) as [[l' size'] ack'].
      destruct IH as (d & -> & -> & H1 & H2 & H3). exists (n :: d). simpl.
      split; [done|]. split; [lia|]. split; [done|]. split; [exact H2|]. rewrite H3. destruct d as [|x d _] using rev_ind; [done|]. by rewrite app_comm_cons, !last_snoc.
    + bool_prop. exists []. simpl. split_and!; [done|lia|done|done|done].
Qed.

(** What [trim] promises: it fails only when not even the ACK fits; otherwise the result fits,
    keeps a prefix of the NACKs, and when it drops any, acknowledges only up to the first
    dropped one, whose SN no longer starts the last NACK that is kept. *)
Lemma trim_spec s max :
  size_sync s ->
  let '(s', ok) := trim s max in
  size_sync s' /\ mod_nr s' = mod_nr s /\ st_sn_size s' = st_sn_size s /\ cpt s' = cpt s /\
  (ok = true <-> 3 <= max \/ packed_size s <= max) /\
  (ok = true -> packed_size s' <= max) /\
  (ok = false -> s' = s) /\
  exists dropped, nacks s = nacks s' ++ dropped /\
    ack_sn s' = match hd_error dropped with Some n => nack_sn n | None => ack_sn s end /\
    (dropped <> [] -> match back (nacks s') with Some n => nack_sn n <> ack_sn s' | None => True end).
Proof.
  intros Hs. unfold trim.
  destruct (Z.leb_spec (packed_size s) max) as [Hle|Hgt].
  { split_and!; try done; try (by left); [tauto|]. exists []. by rewrite app_nil_r. }
  unfold rlc_am_nr_status_pdu_sizeof_header_ack_sn.
  destruct (Z.ltb_spec max 3) as [Hlt|Hge].
  { split_and!; try done; [|exists []; by rewrite app_nil_r]. split; [done|]. lia. }
  pose proof (trim_loop_spec (st_sn_size s) max (rev (nacks s)) (packed_size s) (ack_sn s)) as H.
  destruct (trim_loop _ _ _ _ _) as [[l size] ack].
  destruct H as (d & Hd & Hsize & Hmax & Hne & Hack).
  assert (nacks s = rev l ++ rev d) as En.
  { rewrite <- rev_app_distr, <- Hd. by rewrite rev_involutive. }
  assert (size = 3 + nacks_size (st_sn_size s) (rev l)) as Es.
  { assert (nacks_size (st_sn_size s) (rev d) = nacks_size (st_sn_size s) d) as Er.
    { clear. induction d as [|x d IH]; [done|]. simpl. rewrite nacks_size_app. simpl. lia. }
    unfold size_sync in Hs. rewrite En, nacks_size_app, Er in Hs.
    unfold rlc_am_nr_status_pdu_sizeof_header_ack_sn in Hs. lia. }
  simpl. split_and!; try done; try tauto.
  - intros _. destruct l as [|n l]; [simpl in Es; lia|by apply Hmax].
  - exists (rev d). split_and!; [done| |].
    + rewrite Hack. destruct d as [|x d _] using rev_ind; [done|].
      rewrite rev_app_distr. simpl. by rewrite last_snoc.
    + intros _. destruct l as [|n l]; [done|]. simpl. by rewrite last_snoc.
Qed.

(** ** The wire format *)

(** A length guard that contradicts the bytes at hand. *)
Ltac len_absurd :=
  exfalso; bool_prop; rewrite ?zlen_cons in *;
  repeat match goal with
  | H : context [zlen ?l] |- _ =>
      lazymatch goal with _ : 0 <= zlen l |- _ => fail | _ => pose proof (zlen_nonneg l) end
  end; lia.

(** The flags octet of a NACK: low SN bits, E1 (more follow), E2 (SO), E3 (range). *)
Lemma flags_12bit sn hs hr more :
  let F := or_if hr 0x02 (or_if hs 0x04 (or_if more 0x08 (u8 (Z.shiftl (Z.land sn 0x0f) 4)))) in
  (Z.land F 0x08 =? 0) = negb more /\ (Z.land F 0x04 =? 0) = negb hs /\
  (Z.land F 0x02 =? 0) = negb hr /\ Z.land F 0x01 = 0 /\
  Z.shiftr (Z.land F 0xf0) 4 = sn mod 16.
Proof.
  rewrite land_15.
  pose proof (range_forall 16 (fun x =>
    let F := or_if hr 0x02 (or_if hs 0x04 (or_if more 0x08 (u8 (Z.shiftl x 4)))) in
    eqb (Z.land F 0x08 =? 0) (negb more) && eqb (Z.land F 0x04 =? 0) (negb hs) &&
    eqb (Z.land F 0x02 =? 0) (negb hr) && (Z.land F 0x01 =? 0) &&
    (Z.shiftr (Z.land F 0xf0) 4 =? x))%bool) as H.
  assert (0 <= sn mod 16 < 16) as Hr by (apply Z.mod_pos_bound; lia).
  specialize (H ltac:(by destruct hs, hr, more; vm_compute) _ Hr). cbv zeta beta in H.
  repeat rewrite andb_true_iff in H. destruct H as ((((H1 & H2) & H3) & H4) & H5).
  apply eqb_prop in H1, H2, H3. apply Z.eqb_eq in H4, H5. done.
Qed.

Lemma flags_18bit sn hs hr more :
  let F := or_if hr 0x08 (or_if hs 0x10 (or_if more 0x20 (u8 (Z.land (Z.shiftl sn 6) 0xc0)))) in
  (Z.land F 0x20 =? 0) = negb more /\ (Z.land F 0x10 =? 0) = negb hs /\
  (Z.land F 0x08 =? 0) = negb hr /\ Z.land F 0x07 = 0 /\
  Z.shiftr (Z.land F 0xc0) 6 = sn mod 4.
Proof.
  change (Z.land (Z.shiftl sn 6) 0xc0) with (Z.land (Z.shiftl sn 6) (Z.shiftl 3 6)).
  rewrite <- Z.shiftl_land, land_3.
  pose proof (range_forall 4 (fun x =>
    let F := or_if hr 0x08 (or_if hs 0x10 (or_if more 0x20 (u8 (Z.shiftl x 6)))) in
    eqb (Z.land F 0x20 =? 0) (negb more) && eqb (Z.land F 0x10 =? 0) (negb hs) &&
    eqb (Z.land F 0x08 =? 0) (negb hr) && (Z.land F 0x07 =? 0) &&
    (Z.shiftr (Z.land F 0xc0) 6 =? x))%bool) as H.
  assert (0 <= sn mod 4 < 4) as Hr by (apply Z.mod_pos_bound; lia).
  specialize (H ltac:(by destruct hs, hr, more; vm_compute) _ Hr). cbv zeta beta in H.
  repeat rewrite andb_true_iff in H. destruct H as ((((H1 & H2) & H3) & H4) & H5).
  apply eqb_prop in H1, H2, H3. apply Z.eqb_eq in H4, H5. done.
Qed.

Lemma ack_octet_18bit ack more :
  let F := or_if more 0x02 (u8 (Z.land (Z.shiftl ack 2) 0xfc)) in
  (Z.land F 0x02 =? 0) = negb more /\ Z.land F 0x01 = 0 /\ Z.shiftr (Z.land F 0xfc) 2 = ack mod 64.
Proof.
  change (Z.land (Z.shiftl ack 2) 0xfc) with (Z.land (Z.shiftl ack 2) (Z.shiftl 63 2)).
  rewrite <- Z.shiftl_land, land_63.
  pose proof (range_forall 64 (fun x =>
    let F := or_if more 0x02 (u8 (Z.shiftl x 2)) in
    eqb (Z.land F 0x02 =? 0) (negb more) && (Z.land F 0x01 =? 0) &&
    (Z.shiftr (Z.land F 0xfc) 2 =? x))%bool) as H.
  assert (0 <= ack mod 64 < 64) as Hr by (apply Z.mod_pos_bound; lia).
  specialize (H ltac:(by destruct more; vm_compute) _ Hr). cbv zeta beta in H.
  repeat rewrite andb_true_iff in H. destruct H as ((H1 & H2) & H3).
  apply eqb_prop in H1. apply Z.eqb_eq in H2, H3. done.
Qed.

Lemma so_octets x : 0 <= x < 65536 ->
  u16 (Z.lor (u16 (Z.shiftl (u8 (Z.shiftr x 8)) 8)) (u8 x)) = x.
Proof.
  intros. assert (0 <= u8 (Z.shiftr x 8) < 256) by apply u8_range.
  rewrite (u16_small (Z.shiftl _ _)) by (rewrite Z.shiftl_mul_pow2; lia).
  rewrite be16_roundtrip by done. by apply u16_small.
Qed.

Lemma wp_unpack_nack_tail m e2 e3 n rest (Q : option rlc_am_status_nack -> list Z -> list Empty_set -> Prop) :
  nack_wf m n -> (e2 =? 0) = negb (has_so n) -> (e3 =? 0) = negb (has_nack_range n) ->
  Q (Some n) rest [] ->
  wp (unpack_nack_tail e2 e3 (mk_nack (nack_sn n) false 0 so_end_of_sdu false 0)) Q
     (pack_so n ++ pack_range n ++ rest).
Proof.
  intros Hn E2 E3 HQ. unfold unpack_nack_tail, pack_so, pack_range. rewrite E2, E3, !negb_involutive.
  destruct n as [sn hs ss se hr r]; destruct Hn; simpl in *.
  unfold rlc_am_nr_status_pdu_sizeof_nack_so, rlc_am_nr_status_pdu_sizeof_nack_range.
  destruct hs, hr; simpl; apply wp_bind; repeat rd_step; try len_absurd;
    repeat rd_step; try len_absurd; simpl; repeat rd_step; try len_absurd; try done;
    rewrite ?so_octets, ?u8_small by lia; simpl; try done.
  - by rewrite nw_nr0 in HQ.
  - by destruct nw_so0 as [-> ->].
  - destruct nw_so0 as [-> ->]; [done|]. by rewrite nw_nr0 in HQ.
Qed.

Lemma wp_unpack_nacks_12bit l : forall s fuel e1 (Q : rlc_am_status_pdu * bool -> list Z -> list Empty_set -> Prop),
  (length l < fuel)%nat -> (e1 =? 0) = (match l with [] => true | _ => false end) ->
  Forall (nack_wf (cardinality 12)) l ->
  Q (fold_left push_nack l s, true) [] [] ->
  wp (while_loop fuel unpack_step_12bit (e1, s)) Q (pack_nacks_12bit l).
Proof.
  induction l as [|n l IH]; intros s fuel e1 Q Hf He Hw HQ.
  - destruct fuel; [lia|]. simpl. rewrite He. repeat rd_step. done.
  - destruct fuel as [|fuel]; [simpl in Hf; lia|].
    apply Forall_cons in Hw as [Hn Hw]. simpl in Hf |- *. rewrite He.
    destruct (flags_12bit (nack_sn n) (has_so n) (has_nack_range n)
      (match l with [] => false | _ => true end)) as (F1 & F2 & F3 & F4 & F5).
    match goal with |- context [?b :: ?f :: pack_so n ++ _] =>
      set (F := f) in *; set (B := b) in * end.
    assert (zlen (B :: F :: pack_so n ++ pack_range n ++ pack_nacks_12bit l)
      <? rlc_am_nr_status_pdu_sizeof_nack_sn_ext_12bit_sn = false) as HL.
    { apply Z.ltb_ge. rewrite !zlen_cons. unfold rlc_am_nr_status_pdu_sizeof_nack_sn_ext_12bit_sn.
      pose proof (zlen_nonneg (pack_so n ++ pack_range n ++ pack_nacks_12bit l)). lia. }
    repeat rd_step; try congruence; [rewrite F4 in *; done|].
    assert (Z.lor (Z.shiftl (Z.land B 0xff) 4) (Z.shiftr (Z.land F 0xf0) 4) = nack_sn n) as ->.
    { rewrite F5. subst B. destruct Hn as [Hsn _ _ _ _ _]. change (cardinality 12) with 4096 in Hsn.
      rewrite !land_255, lor_shiftl_add by (try lia; apply Z.mod_pos_bound; lia).
      bits_to_arith. zmod. }
    eapply wp_unpack_nack_tail; [done..|]. rd_step.
    apply IH; [lia|by rewrite F1; destruct l|done|done].
Qed.

Lemma wp_unpack_nacks_18bit l : forall s fuel e1 (Q : rlc_am_status_pdu * bool -> list Z -> list Empty_set -> Prop),
  (length l < fuel)%nat -> (e1 =? 0) = (match l with [] => true | _ => false end) ->
  Forall (nack_wf (cardinality 18)) l ->
  Q (fold_left push_nack l s, true) [] [] ->
  wp (while_loop fuel unpack_step_18bit (e1, s)) Q (pack_nacks_18bit l).
Proof.
  induction l as [|n l IH]; intros s fuel e1 Q Hf He Hw HQ.
  - destruct fuel; [lia|]. simpl. rewrite He. repeat rd_step. done.
  - destruct fuel as [|fuel]; [simpl in Hf; lia|].
    apply Forall_cons in Hw as [Hn Hw]. simpl in Hf |- *. rewrite He.
    destruct (flags_18bit (nack_sn n) (has_so n) (has_nack_range n)
      (match l with [] => false | _ => true end)) as (F1 & F2 & F3 & F4 & F5).
    match goal with |- context [?b :: ?c :: ?f :: pack_so n ++ _] =>
      set (F := f) in *; set (C := c) in *; set (B := b) in * end.
    assert (zlen (B :: C :: F :: pack_so n ++ pack_range n ++ pack_nacks_18bit l)
      <? rlc_am_nr_status_pdu_sizeof_nack_sn_ext_18bit_sn = false) as HL.
    { apply Z.ltb_ge. rewrite !zlen_cons. unfold rlc_am_nr_status_pdu_sizeof_nack_sn_ext_18bit_sn.
      pose proof (zlen_nonneg (pack_so n ++ pack_range n ++ pack_nacks_18bit l)). lia. }
    repeat rd_step; try congruence; [rewrite F4 in *; done|].
    assert (Z.lor (Z.lor (Z.shiftl (Z.land B 0xff) 10) (Z.shiftl (Z.land C 0xff) 2))
      (Z.shiftr (Z.land F 0xc0) 6) = nack_sn n) as ->.
    { rewrite F5, <- Z.lor_assoc. subst B C. destruct Hn as [Hsn _ _ _ _ _].
      change (cardinality 18) with 262144 in Hsn.
      rewrite !land_255, (lor_shiftl_add _ _ 2) by (try lia; apply Z.mod_pos_bound; lia).
      rewrite lor_shiftl_add by (try lia; bits_to_arith; zmod).
      bits_to_arith. zmod. }
    eapply wp_unpack_nack_tail; [done..|]. rd_step.
    apply IH; [lia|by rewrite F1; destruct l|done|done].
Qed.

Lemma length_pack_nacks_12bit l : (length l <= length (pack_nacks_12bit l))%nat.
Proof. induction l as [|n l IH]; simpl; [lia|]. rewrite !length_app. lia. Qed.
Lemma length_pack_nacks_18bit l : (length l <= length (pack_nacks_18bit l))%nat.
Proof. induction l as [|n l IH]; simpl; [lia|]. rewrite !length_app. lia. Qed.

(** Reading back a packed status PDU replays its NACKs through [push_nack]. *)
Lemma unpack_pack s s0 :
  status_wf s -> 0 <= ack_sn s < mod_nr s -> st_sn_size s0 = st_sn_size s ->
  unpack s0 (pack s) =
    Ok (fold_left push_nack (nacks s)
          (set_ack_sn (set_cpt (reset s0) rlc_control_pdu_type_status) (ack_sn s)), true).
Proof.
  intros Hs Hack E0. unfold unpack. apply run_ok. unfold unpack_m, pack. rewrite E0.
  pose proof (sw_mod s Hs) as Em. pose proof (sw_nacks s Hs) as Hw. rewrite Em in Hack, Hw.
  destruct (st_sn_size s); simpl in Hack, Hw.
  - change (cardinality 12) with 4096 in Hack. unfold unpack_12bit, pack_12bit.
    set (b0 := u8 (Z.lor 0 (Z.land (Z.shiftr (ack_sn s) 8) 0x0f))).
    assert (Hb0 : b0 = ack_sn s / 256).
    { subst b0. rewrite Z.lor_0_l, land_15. bits_to_arith. zmod. }
    assert (forall P : Z -> bool, forallb P (seqZ 0 16) = true -> P b0 = true) as Hcase.
    { intros P HP. apply (range_forall 16 P HP). rewrite Hb0. zmod. }
    pose proof (Hcase (fun b => Z.land (Z.shiftr b 7) 0x01 =? 0) ltac:(by vm_compute)) as C1%Z.eqb_eq.
    pose proof (Hcase (fun b => Z.land (Z.shiftr b 4) 0x07 =? 0) ltac:(by vm_compute)) as C2%Z.eqb_eq.
    set (tail := pack_nacks_12bit (nacks s)).
    rd_step. rd_step. rd_step.
    { exfalso. bool_prop. rewrite !zlen_cons in *. pose proof (zlen_nonneg tail).
      unfold rlc_am_nr_status_pdu_sizeof_header_ack_sn in *. lia. }
    unfold is_control_pdu. rd_step. rd_step. apply (wp_need _ b0); [done|]. rewrite C1.
    match goal with |- context [while_loop ?f _ _] => remember f as fuel eqn:Hfuel end.
    clear Hcase. simpl. repeat rd_step; simpl in *; try (rewrite C2 in *; done);
      try (destruct (nacks s); done).
    apply wp_unpack_nacks_12bit.
    + subst fuel. pose proof (length_pack_nacks_12bit (nacks s)). subst tail. simpl. lia.
    + by destruct (nacks s).
    + done.
    + f_equal. f_equal. unfold set_ack_sn, set_cpt. simpl. rewrite C2. f_equal.
      rewrite Hb0. rewrite land_15, !land_255, lor_shiftl_add by (try lia; apply Z.mod_pos_bound; lia).
      bits_to_arith. zmod.
  - change (cardinality 18) with 262144 in Hack. unfold unpack_18bit, pack_18bit.
    set (b0 := u8 (Z.lor 0 (Z.land (Z.shiftr (ack_sn s) 14) 0x0f))).
    assert (Hb0 : b0 = ack_sn s / 16384).
    { subst b0. rewrite Z.lor_0_l, land_15. bits_to_arith. zmod. }
    assert (forall P : Z -> bool, forallb P (seqZ 0 16) = true -> P b0 = true) as Hcase.
    { intros P HP. apply (range_forall 16 P HP). rewrite Hb0. zmod. }
    pose proof (Hcase (fun b => Z.land (Z.shiftr b 7) 0x01 =? 0) ltac:(by vm_compute)) as C1%Z.eqb_eq.
    pose proof (Hcase (fun b => Z.land (Z.shiftr b 4) 0x07 =? 0) ltac:(by vm_compute)) as C2%Z.eqb_eq.
    set (tail := pack_nacks_18bit (nacks s)).
    destruct (ack_octet_18bit (ack_sn s) (match nacks s with [] => false | _ => true end))
      as (A1 & A2 & A3).
    match goal with |- context [?f :: tail] => set (F := f) in * end.
    clearbody F.
    rd_step. rd_step. rd_step.
    { exfalso. bool_prop. rewrite !zlen_cons in *. pose proof (zlen_nonneg tail).
      unfold rlc_am_nr_status_pdu_sizeof_header_ack_sn in *. lia. }
    unfold is_control_pdu. rd_step. rd_step. apply (wp_need _ b0); [done|]. rewrite C1.
    match goal with |- context [while_loop ?f _ _] => remember f as fuel eqn:Hfuel end.
    clear Hcase. clearbody b0. simpl. repeat rd_step; simpl in *; try done; try (rewrite C2 in *; done);
      try (rewrite A2 in *; done).
    apply wp_unpack_nacks_18bit.
    + subst fuel. pose proof (length_pack_nacks_18bit (nacks s)). subst tail. simpl. lia.
    + rewrite A1. by destruct (nacks s).
    + done.
    + f_equal. f_equal. unfold set_ack_sn, set_cpt. simpl. rewrite C2. f_equal.
      rewrite Hb0, A3, <- Z.lor_assoc. rewrite land_15, !land_255.
      rewrite (lor_shiftl_add _ _ 6) by (try lia; apply Z.mod_pos_bound; lia).
      rewrite lor_shiftl_add by (try lia; bits_to_arith; zmod).
      bits_to_arith. zmod.
Qed.

(** ** Canonical status PDUs

    What [push_nack] builds on a reset PDU, and what [unpack] accepts. *)
Record canonical (s : rlc_am_status_pdu) : Prop := {
  cn_wf : status_wf s;
  cn_unmerged : unmerged s (nacks s);
  cn_ack : 0 <= ack_sn s < mod_nr s
}.

Lemma status_wf_same s s' :
  status_wf s -> st_sn_size s' = st_sn_size s -> mod_nr s' = mod_nr s -> nacks s' = nacks s ->
  packed_size s' = packed_size s -> cpt s' = cpt s -> status_wf s'.
Proof.
  intros [H1 H2 H3 H4] E1 E2 E3 E4 E5. unfold size_sync in *.
  split; unfold size_sync; rewrite ?E1, ?E2, ?E3, ?E4, ?E5; done.
Qed.

Lemma new_status_pdu_wf sz : status_wf (new_status_pdu sz).
Proof. by split. Qed.

Lemma push_nack_canonical s n : canonical s -> nack_wf (mod_nr s) n -> canonical (push_nack s n).
Proof.
  intros [Hs Hu Ha] Hn. pose proof (push_nack_same s n) as (_ & E2 & E3 & _).
  split; [by apply push_nack_wf| |by rewrite E3, E2].
  apply (unmerged_cfg s); [done|]. by apply push_nack_unmerged.
Qed.

Lemma unpack_nack_tail_wf m e2 e3 sn bs (Q : option rlc_am_status_nack -> list Z -> list Empty_set -> Prop) :
  0 <= sn < m -> Forall is_byte bs ->
  (forall bs', Forall is_byte bs' -> (length bs' <= length bs)%nat -> Q None bs' []) ->
  (forall bs' n, Forall is_byte bs' -> (length bs' <= length bs)%nat -> nack_wf m n -> Q (Some n) bs' []) ->
  wp (unpack_nack_tail e2 e3 (mk_nack sn false 0 so_end_of_sdu false 0)) Q bs.
Proof.
  intros Hsn Hb HN HS. unfold unpack_nack_tail, rlc_am_nr_status_pdu_sizeof_nack_so,
    rlc_am_nr_status_pdu_sizeof_nack_range. simpl nack_sn.
  assert (forall bs' n, (e3 =? 0) = (e3 =? 0) -> Forall is_byte bs' -> (length bs' <= length bs)%nat ->
    nack_wf m n -> nack_range n = 0 -> has_nack_range n = false ->
    wp (if negb (e3 =? 0) then
        let! len := length_ in
        if len <? 1 then ret None else
        let! b := peek in next ;;;
        ret (Some (mk_nack (nack_sn n) (has_so n) (so_start n) (so_end n) true b))
      else ret (Some n)) Q bs') as Htail.
  { intros bs' n _ Hb' Hl Hn _ _. rd_step; [|rd_step; auto]. rd_step. rd_step. rd_step; [rd_step; auto|].
    bool_prop. destruct bs' as [|b bs']; [by rewrite zlen_nil in *|].
    apply Forall_cons in Hb' as [Hb0 Hb']. repeat rd_step. apply HS; [done|simpl in *; lia|].
    destruct Hn. unfold is_byte in *. split; simpl; auto; done. }
  rd_step. rd_step.
  - rd_step. rd_step. rd_step; [rd_step; simpl; rd_step; auto|]. bool_prop.
    do 4 (destruct bs as [|? bs]; [rewrite ?zlen_cons, zlen_nil in *; lia|]).
    repeat (apply Forall_cons in Hb as [? Hb]).
    do 17 rd_step. apply Htail; simpl; try done; [lia|].
    split; simpl; try done; apply u16_range.
  - rd_step. apply Htail; try done.
Qed.

(** One turn of the NACK loop: it leaves with a result, or consumes bytes and pushes a NACK. *)
Definition unpack_inv (sz : rlc_am_sn_size) (n : nat) (v : Z * rlc_am_status_pdu)
    (bs : list Z) (_ : list Empty_set) : Prop :=
  (length bs < n)%nat /\ Forall is_byte bs /\ canonical (snd v) /\ st_sn_size (snd v) = sz.
Definition unpack_post (sz : rlc_am_sn_size) (r : rlc_am_status_pdu * bool)
    (_ : list Z) (_ : list Empty_set) : Prop :=
  st_sn_size (fst r) = sz /\ (snd r = true -> canonical (fst r)).

Lemma unpack_loop_next sz n s nack bs :
  canonical s -> st_sn_size s = sz -> nack_wf (mod_nr s) nack -> Forall is_byte bs ->
  (length bs < n)%nat -> forall e1, unpack_inv sz n (e1, push_nack s nack) bs [].
Proof.
  intros Hc E Hn Hb Hl e1. pose proof (push_nack_same s nack) as (E1 & _ & _).
  unfold unpack_inv. simpl. rewrite E1.
  split; [done|]. split; [done|]. split; [by apply push_nack_canonical|done].
Qed.

Lemma byte_land_shiftr b mask k hi :
  is_byte b ->
  forallb (fun b => let x := Z.shiftr (Z.land b mask) k in (0 <=? x) && (x <? hi)) (seqZ 0 256) = true ->
  0 <= Z.shiftr (Z.land b mask) k < hi.
Proof.
  intros Hb H. pose proof (byte_forall _ H b Hb) as G. cbv zeta beta in G.
  apply andb_true_iff in G as [G1 G2]. lia.
Qed.

Lemma wp_unpack_loop_12bit fuel e1 s bs :
  unpack_inv am_size12bits fuel (e1, s) bs [] ->
  wp (while_loop fuel unpack_step_12bit (e1, s)) (unpack_post am_size12bits) bs.
Proof.
  intros HI. apply (wp_while_loop (unpack_inv am_size12bits)); [done|intros ? ? ? [? _]; lia|].
  clear. intros n [e1 s] bs es (Hl & Hb & Hc & Hsz). simpl in Hc, Hsz.
  assert (mod_nr s = 4096) as Em by (rewrite (sw_mod s (cn_wf s Hc)), Hsz; done).
  unfold unpack_step_12bit, rlc_am_nr_status_pdu_sizeof_nack_sn_ext_12bit_sn.
  rd_step; [rd_step; by split|]. rd_step. rd_step. rd_step; [rd_step; by split|]. bool_prop.
  do 2 (destruct bs as [|? bs]; [rewrite ?zlen_cons, zlen_nil in *; lia|]).
  repeat (apply Forall_cons in Hb as [? Hb]). do 6 rd_step. rd_step; [rd_step; by split|].
  do 3 rd_step. apply (unpack_nack_tail_wf (mod_nr s)); [|done|intros; rd_step; by split|].
  - pose proof (byte_land_shiftr z0 0xf0 4 16 ltac:(done) ltac:(by vm_compute)).
    rewrite Em, lor_shiftl_add, land_255 by lia. zmod.
  - intros. rd_step. apply unpack_loop_next; try done. simpl in *. lia.
Qed.

Lemma wp_unpack_loop_18bit fuel e1 s bs :
  unpack_inv am_size18bits fuel (e1, s) bs [] ->
  wp (while_loop fuel unpack_step_18bit (e1, s)) (unpack_post am_size18bits) bs.
Proof.
  intros HI. apply (wp_while_loop (unpack_inv am_size18bits)); [done|intros ? ? ? [? _]; lia|].
  clear. intros n [e1 s] bs es (Hl & Hb & Hc & Hsz). simpl in Hc, Hsz.
  assert (mod_nr s = 262144) as Em by (rewrite (sw_mod s (cn_wf s Hc)), Hsz; done).
  unfold unpack_step_18bit, rlc_am_nr_status_pdu_sizeof_nack_sn_ext_18bit_sn.
  rd_step; [rd_step; by split|]. rd_step. rd_step. rd_step; [rd_step; by split|]. bool_prop.
  do 3 (destruct bs as [|? bs]; [rewrite ?zlen_cons, zlen_nil in *; lia|]).
  repeat (apply Forall_cons in Hb as [? Hb]). do 10 rd_step. rd_step; [rd_step; by split|].
  do 3 rd_step. apply (unpack_nack_tail_wf (mod_nr s)); [|done|intros; rd_step; by split|].
  - pose proof (byte_land_shiftr z1 0xc0 6 4 ltac:(done) ltac:(by vm_compute)).
    rewrite Em, <- Z.lor_assoc, !land_255.
    assert (0 <= z0 mod 256 < 256) by (apply Z.mod_pos_bound; lia).
    rewrite (lor_shiftl_add _ _ 2) by lia. rewrite lor_shiftl_add by lia. zmod.
  - intros. rd_step. apply unpack_loop_next; try done. simpl in *. lia.
Qed.

(** Whatever bytes arrive, [unpack] terminates without reading past the PDU; a status PDU it
    accepts is well-formed: fields in range, size in sync, neighbours merged. *)
Lemma unpack_total s pdu :
  mod_nr s = cardinality (to_number_am_sn (st_sn_size s)) -> Forall is_byte pdu ->
  exists s' ok, unpack s pdu = Ok (s', ok) /\ st_sn_size s' = st_sn_size s /\ (ok = true -> canonical s').
Proof.
  intros Em Hb. unfold unpack.
  enough (wp (unpack_m s pdu) (fun r _ _ => st_sn_size (fst r) = st_sn_size s /\
            (snd r = true -> canonical (fst r))) pdu) as W.
  { apply run_wp in W as ([s' ok] & ? & ?). eauto. }
  assert (forall c ack, canonical (set_ack_sn (set_cpt (reset s) c) ack) <->
            c = 0 /\ 0 <= ack < mod_nr s) as Hcan.
  { intros c ack. split; [by intros [[_ _ _ H] _ ?]|]. intros [-> ?]. split; [|done|done]. by split. }
  unfold unpack_m. destruct (st_sn_size s) eqn:Esz;
  unfold unpack_12bit, unpack_18bit, rlc_am_nr_status_pdu_sizeof_header_ack_sn, is_control_pdu.
  - rd_step. rd_step. rd_step; [rd_step; by split|]. bool_prop.
    do 3 (destruct pdu as [|? pdu]; [rewrite ?zlen_cons, zlen_nil in *; lia|]).
    match goal with |- context [while_loop ?f _ _] => set (fuel := f) end.
    repeat (apply Forall_cons in Hb as [? Hb]). do 2 rd_step. apply (wp_need _ z); [done|]. rd_step.
    rd_step; [rd_step; by split|]. do 2 rd_step. rd_step; [rd_step; by split|].
    do 8 rd_step. rd_step; [rd_step; by split|]. do 2 rd_step. eapply wp_mono.
    + apply wp_unpack_loop_12bit. split; [subst fuel; simpl; lia|]. split; [done|].
      split; [|done]. apply Hcan. bool_prop. split; [done|]. simpl. rewrite Em.
      assert (0 <= z0 mod 256 < 256) by (apply Z.mod_pos_bound; lia).
      rewrite land_15, land_255, lor_shiftl_add by lia. change (cardinality _) with 4096. zmod.
    + intros a s' es H'. exact H'.
  - rd_step. rd_step. rd_step; [rd_step; by split|]. bool_prop.
    do 3 (destruct pdu as [|? pdu]; [rewrite ?zlen_cons, zlen_nil in *; lia|]).
    match goal with |- context [while_loop ?f _ _] => set (fuel := f) end.
    repeat (apply Forall_cons in Hb as [? Hb]). do 2 rd_step. apply (wp_need _ z); [done|]. rd_step.
    rd_step; [rd_step; by split|]. do 2 rd_step. rd_step; [rd_step; by split|].
    do 8 rd_step. rd_step; [rd_step; by split|]. do 2 rd_step. eapply wp_mono.
    + apply wp_unpack_loop_18bit. split; [subst fuel; simpl; lia|]. split; [done|].
      split; [|done]. apply Hcan. bool_prop. split; [done|]. simpl. rewrite Em.
      assert (0 <= z0 mod 256 < 256) by (apply Z.mod_pos_bound; lia).
      pose proof (byte_land_shiftr z1 0xfc 2 64 ltac:(done) ltac:(by vm_compute)).
      rewrite <- Z.lor_assoc, land_15, land_255, (lor_shiftl_add _ _ 6) by lia.
      rewrite lor_shiftl_add by lia. change (cardinality _) with 262144. zmod.
    + intros a s' es H'. exact H'.
Qed.

(** Packing and unpacking a canonical status PDU gives it back. *)
Lemma unpack_pack_canonical s :
  canonical s -> unpack (new_status_pdu (st_sn_size s)) (pack s) = Ok (s, true).
Proof.
  intros [Hs Hu Ha]. rewrite (unpack_pack s) by done. f_equal. f_equal.
  rewrite push_all_append.
  - simpl. pose proof (sw_mod s Hs) as E1. pose proof (sw_sync s Hs) as E2. pose proof (sw_cpt s Hs) as E3.
    unfold size_sync in E2. destruct s; simpl in *. unfold set_nacks. simpl. by subst.
  - simpl. apply (unmerged_cfg s); [|done]. simpl. by rewrite (sw_mod s Hs).
Qed.

(** ** Claims *)

(** C5: a status PDU that is well-formed and whose neighbouring NACKs are merged survives the wire:
    [pack] writes exactly [packed_size] octets and [unpack] reads back the very same status PDU,
    for both SN sizes. *)
Theorem status_pdu_roundtrip s :
  canonical s ->
  zlen (pack s) = packed_size s /\ unpack (new_status_pdu (st_sn_size s)) (pack s) = Ok (s, true).
Proof. intros Hs. split; [apply pack_length, Hs|by apply unpack_pack_canonical]. Qed.

Definition example_nacks : list rlc_am_status_nack :=
  [mk_nack 5 false 0 so_end_of_sdu false 0; mk_nack 6 true 0 99 false 0; mk_nack 9 true 10 so_end_of_sdu false 0].
Definition example_status : rlc_am_status_pdu :=
  set_ack_sn (fold_left push_nack example_nacks (new_status_pdu am_size12bits)) 12.

Lemma example_nacks_wf : Forall (nack_wf 4096) example_nacks.
Proof. repeat (apply Forall_cons; split; [split; simpl; unfold so_end_of_sdu; auto; try done; lia|]). by apply Forall_nil. Qed.

Lemma example_status_canonical : canonical example_status.
Proof.
  assert (canonical (set_ack_sn (new_status_pdu am_size12bits) 12)) as H0
    by (split; [by split|done|split; vm_compute; congruence]).
  pose proof example_nacks_wf as Hw. apply Forall_cons in Hw as [W1 Hw].
  apply Forall_cons in Hw as [W2 Hw]. apply Forall_cons in Hw as [W3 _].
  change example_status with (fold_left push_nack example_nacks (set_ack_sn (new_status_pdu am_size12bits) 12)).
  simpl fold_left. by repeat (apply push_nack_canonical; [|done]).
Qed.

Lemma status_pdu_roundtrip_witness :
  unpack (new_status_pdu am_size12bits) (pack example_status) = Ok (example_status, true) /\
  nacks example_status = [mk_nack 5 true 0 99 true 2; mk_nack 9 true 10 so_end_of_sdu false 0].
Proof.
  split; [|reflexivity]. apply (status_pdu_roundtrip example_status). apply example_status_canonical.
Defined.

(** whatever bytes arrive, [unpack] terminates and never reads past the PDU, and a status PDU it
    accepts is well-formed: fields in range, ACK_SN on the ring, packed size in sync and
    neighbouring NACKs merged. *)
Theorem status_pdu_unpack_safe sn_size pdu :
  Forall is_byte pdu ->
  exists s ok, unpack (new_status_pdu sn_size) pdu = Ok (s, ok) /\ st_sn_size s = sn_size /\
    (ok = true -> canonical s).
Proof. intros Hb. by apply (unpack_total (new_status_pdu sn_size)). Qed.

Lemma status_pdu_unpack_safe_witness :
  exists s ok, unpack (new_status_pdu am_size18bits) [0; 1; 2; 255; 3] = Ok (s, ok) /\
    st_sn_size s = am_size18bits.
Proof.
  destruct (status_pdu_unpack_safe am_size18bits [0; 1; 2; 255; 3]) as (s & ok & H1 & H2 & _).
  - repeat (apply Forall_cons; split; [split; [discriminate|reflexivity]|]). apply Forall_nil. exact I.
  - exists s, ok. split; [exact H1|exact H2].
Defined.

(** Pushing a NACK adds exactly the missing parts it stands for to what the status PDU reports,
    whether it becomes an entry of its own or extends the last one to a NACK range (at most 255
    numbers, byte offsets kept), and leaves the PDU well-formed with its size in sync. *)
Theorem status_pdu_push_nack_exact s n :
  canonical s -> counts_pos (nacks s) -> nack_wf (mod_nr s) n -> 0 < nack_count n ->
  canonical (push_nack s n) /\ ack_sn (push_nack s n) = ack_sn s /\
  expand (mod_nr s) (nacks (push_nack s n)) = expand (mod_nr s) (nacks s) ++ nack_items (mod_nr s) n.
Proof.
  intros Hs Hp Hn Hc. split; [by apply push_nack_canonical|]. split; [apply push_nack_same|].
  apply push_nack_expand; try done. apply Hs.
Qed.

Lemma status_pdu_push_nack_exact_witness :
  expand 4096 (nacks (push_nack example_status (mk_nack 10 true 0 7 false 0))) =
    [(5, 0, so_end_of_sdu); (6, 0, 99); (9, 10, so_end_of_sdu); (10, 0, 7)].
Proof.
  destruct (status_pdu_push_nack_exact example_status (mk_nack 10 true 0 7 false 0)) as (_ & _ & H).
  - apply example_status_canonical.
  - repeat (apply Forall_cons; split; [reflexivity|]). apply Forall_nil. exact I.
  - split; simpl; auto; lia || discriminate.
  - reflexivity.
  - etransitivity; [exact H|]. vm_compute. reflexivity.
Defined.

(** [trim] fails exactly when not even the ACK_SN fits; otherwise the PDU fits the grant, its size
    stays in sync, only NACKs at the end are dropped, and ACK_SN falls back to the first dropped
    one, so that nothing dropped is acknowledged. *)
Theorem status_pdu_trim_fits s max :
  size_sync s ->
  let '(s', ok) := trim s max in
  size_sync s' /\ (ok = true <-> 3 <= max \/ packed_size s <= max) /\ (ok = true -> zlen (pack s') <= max) /\
  (ok = false -> s' = s) /\
  exists dropped, nacks s = nacks s' ++ dropped /\
    ack_sn s' = match hd_error dropped with Some n => nack_sn n | None => ack_sn s end.
Proof.
  intros Hs. pose proof (trim_spec s max Hs) as H. destruct (trim s max) as [s' ok].
  destruct H as (H1 & _ & _ & _ & H2 & H3 & H4 & d & H5 & H6 & _). split; [done|]. split; [done|].
  split; [by rewrite pack_length|]. split; [done|]. by exists d.
Qed.

Lemma status_pdu_trim_fits_witness :
  size_sync example_status /\
  let '(s', ok) := trim example_status 11 in ok = true /\ zlen (pack s') <= 11 /\ ack_sn s' = 9.
Proof.
  assert (size_sync example_status) as Hs by (vm_compute; reflexivity). split; [exact Hs|].
  pose proof (status_pdu_trim_fits example_status 11 Hs) as H. vm_compute in H |- *.
  destruct H as (_ & _ & H & _). split; [reflexivity|]. split; [apply H; reflexivity|reflexivity].
Defined.

(** A NACK range that [trim] keeps can reach past the ACK_SN it falls back to: the loop compares only
    the first SN of the range with ACK_SN. *)
Lemma trim_keeps_range_past_ack :
  let s := set_ack_sn (fold_left push_nack
    [mk_nack 5 false 0 so_end_of_sdu false 0; mk_nack 6 false 0 so_end_of_sdu false 0;
     mk_nack 7 true 0 9 false 0; mk_nack 7 true 20 29 false 0] (new_status_pdu am_size12bits)) 20 in
  let s' := fst (trim s 10) in
  snd (trim s 10) = true /\ ack_sn s' = 7 /\ In (7, 0, 9) (expand 4096 (nacks s')).
Proof. vm_compute. split; [done|]. split; [done|]. tauto. Qed.

(** An AMD PDU header with fields in range (SO present exactly when the segmentation info says
    so) reads back from the octets written for it, followed by any payload, and the octets are as
    many as [get_packed_size] says. *)
Theorem am_header_roundtrip h payload :
  AmHeader.header_wf h -> payload <> [] ->
  zlen (AmHeader.rlc_am_write_data_pdu_header h) = AmHeader.get_packed_size h /\
  AmHeader.rlc_am_read_data_pdu_header (AmHeader.rlc_am_write_data_pdu_header h ++ payload) (AmHeader.sn_size h)
    = Ok (Some h).
Proof. intros Hh Hp. split; [by apply AmHeader.write_length|by apply AmHeader.read_write_header]. Qed.

Lemma am_header_roundtrip_witness :
  let h := AmHeader.mk_header dc_data 1 last_segment am_size18bits 200000 4660 in
  AmHeader.rlc_am_read_data_pdu_header (AmHeader.rlc_am_write_data_pdu_header h ++ [1; 2]) am_size18bits = Ok (Some h).
Proof.
  intros h. apply (am_header_roundtrip h [1; 2]); [|discriminate].
  split; [split; vm_compute; congruence|]. split; [split; vm_compute; congruence|].
  split; [split; vm_compute; congruence|]. vm_compute. split; congruence.
Defined.

(** Reading the header of any bytes terminates without reading past the PDU; a header that is
    accepted has its fields in range. *)
Theorem am_header_read_safe size pdu :
  Forall is_byte pdu ->
  exists r, AmHeader.rlc_am_read_data_pdu_header pdu size = Ok r /\
    match r with Some h => AmHeader.header_ranges size pdu h | None => True end.
Proof. apply AmHeader.read_header_ranges. Qed.

Lemma am_header_read_safe_witness :
  exists r, AmHeader.rlc_am_read_data_pdu_header [176; 1; 255] am_size12bits = Ok r /\ r = None.
Proof.
  destruct (am_header_read_safe am_size12bits [176; 1; 255]) as (r & H & _).
  - repeat (apply Forall_cons; split; [split; [discriminate|reflexivity]|]). apply Forall_nil. exact I.
  - exists r. split; [exact H|]. vm_compute in H. injection H as <-. reflexivity.
Defined.
