(* ===== verification/Timers.v ===== *)
(** * Timers, seen from the entity that owns them

    Models the front end of [unique_timer] ([include/srsran/support/timers.h],
    [lib/support/timers.cpp]): its state, its duration and the epoch of its last command.  The
    back end (tick counting) is not modelled; it dispatches the expiry task of a started timer
    with the epoch of that start, at any later moment. *)

From S2P Require Import Prelude Effects.
Open Scope Z_scope.

Inductive timer_state_t := timer_stopped | timer_running | timer_expired.

#[export] Instance timer_state_eq_dec : EqDecision timer_state_t.
Proof. solve_decision. Defined.

(** [tm_duration = None] is [INVALID_DURATION]. *)
Record unique_timer := mk_timer {
  tm_state : timer_state_t;
  tm_duration : option Z;
  tm_cmd_id : Z
}.

(** [UINT_MAX / 2]. *)
Definition MAX_TIMER_DURATION : Z := 2147483647.

Definition create_timer : unique_timer := mk_timer timer_stopped None 0.

Definition is_running (t : unique_timer) : bool :=
  match tm_state t with timer_running => true | _ => false end.
Definition has_expired (t : unique_timer) : bool :=
  match tm_state t with timer_expired => true | _ => false end.
Definition is_set (t : unique_timer) : bool :=
  match tm_duration t with Some _ => true | None => false end.

(** A command to the back end starts a new epoch. *)
Definition push_cmd (t : unique_timer) : unique_timer :=
  mk_timer (tm_state t) (tm_duration t) (u32 (tm_cmd_id t + 1)).

Definition timer_set {S E} (t : unique_timer) (dur : Z) : M S E unique_timer :=
  if MAX_TIMER_DURATION <? dur then abort else
  let t' := mk_timer (tm_state t) (Some dur) (tm_cmd_id t) in
  ret (if is_running t then push_cmd t' else t').

Definition timer_run {S E} (t : unique_timer) : M S E unique_timer :=
  if negb (is_set t) then abort
  else ret (push_cmd (mk_timer timer_running (tm_duration t) (tm_cmd_id t))).

Definition timer_stop (t : unique_timer) : unique_timer :=
  if is_running t then push_cmd (mk_timer timer_stopped (tm_duration t) (tm_cmd_id t)) else t.

(** The expiry task of epoch [epoch], run in the owner's executor: the timer after it, and whether
    the callback is called.  A task that was overtaken by a later command does nothing. *)
Definition timeout_task {S E} (t : unique_timer) (epoch : Z) : M S E (unique_timer * bool) :=
  if tm_cmd_id t =? epoch then
    if is_running t then ret (mk_timer timer_expired (tm_duration t) (tm_cmd_id t), true) else abort
  else ret (t, false).

Lemma is_running_run d c : is_running (push_cmd (mk_timer timer_running d c)) = true.
Proof. done. Qed.
Lemma is_running_stop t : is_running (timer_stop t) = false.
Proof. unfold timer_stop. destruct (is_running t) eqn:E; done. Qed.
Lemma is_set_stop t : is_set (timer_stop t) = is_set t.
Proof. unfold timer_stop. by destruct (is_running t). Qed.

(** The expiry task, when the back end only dispatches it for the epoch of a start. *)
Lemma wp_timeout_task {S E} (t : unique_timer) epoch (Q : unique_timer * bool -> S -> list E -> Prop) s :
  (tm_cmd_id t = epoch -> is_running t = true) ->
  (tm_cmd_id t = epoch -> Q (mk_timer timer_expired (tm_duration t) (tm_cmd_id t), true) s []) ->
  (tm_cmd_id t <> epoch -> Q (t, false) s []) ->
  wp (timeout_task t epoch) Q s.
Proof.
  intros Hrun H1 H2. unfold timeout_task. destruct (Z.eqb_spec (tm_cmd_id t) epoch); [|by apply wp_ret, H2].
  rewrite Hrun by done. by apply wp_ret, H1.
Qed.
