(* ===== verification/Segments.v ===== *)
(** * Received SDU segments

    Models the segment store of [lib/rlc/rlc_rx_am_entity.{h,cpp}]: the [std::set] of SDU segments
    ordered by segment offset, [store_segment] and [update_segment_inventory].  The set is the list
    of its elements in iteration order.  The theory describes a store by the bytes it covers. *)

From S2P Require Import Prelude Effects RlcConfig.
Open Scope Z_scope.

Record rlc_rx_am_sdu_segment := mk_segment {
  sg_si : rlc_si_field;
  sg_so : Z;
  sg_payload : list Z
}.

Definition seg_len (s : rlc_rx_am_sdu_segment) : Z := zlen (sg_payload s).

(** [std::set::insert] with the comparison on [so]: an element of equal key is kept. *)
Fixpoint set_insert (x : rlc_rx_am_sdu_segment) (l : list rlc_rx_am_sdu_segment) :
    list rlc_rx_am_sdu_segment :=
  match l with
  | [] => [x]
  | y :: l' =>
      if sg_so x <? sg_so y then x :: l
      else if sg_so y <? sg_so x then y :: set_insert x l'
      else l
  end.

(** [payload.advance(n)] together with the new segment offset, stored in 16 bits. *)
Definition advance_segment (s : rlc_rx_am_sdu_segment) (n so : Z) : rlc_rx_am_sdu_segment :=
  mk_segment (sg_si s) (u16 so) (drop (Z.to_nat n) (sg_payload s)).

(** The loop of [store_segment]: [before] the segments already passed, [rest] those from
    [cur_segment] on. *)
Fixpoint store_loop (before rest : list rlc_rx_am_sdu_segment) (new_segment : rlc_rx_am_sdu_segment) :
    list rlc_rx_am_sdu_segment * bool :=
  match rest with
  | [] => (set_insert new_segment before, true)
  | cur_segment :: rest' =>
      let cur_last_byte := u32 (sg_so cur_segment + seg_len cur_segment - 1) in
      let new_last_byte := u32 (sg_so new_segment + seg_len new_segment - 1) in
      if cur_last_byte <? sg_so new_segment then
        store_loop (before ++ [cur_segment]) rest' new_segment
      else if sg_so cur_segment <=? sg_so new_segment then
        if new_last_byte <=? cur_last_byte then (before ++ rest, false)
        else
          store_loop (before ++ [cur_segment]) rest'
            (advance_segment new_segment (u32 (cur_last_byte + 1 - sg_so new_segment)) (cur_last_byte + 1))
      else if new_last_byte <? sg_so cur_segment then
        (set_insert new_segment (before ++ rest), true)
      else if new_last_byte <? cur_last_byte then
        let cut_segment :=
          advance_segment cur_segment (u32 (new_last_byte + 1 - sg_so cur_segment)) (new_last_byte + 1) in
        (set_insert new_segment (set_insert cut_segment (before ++ rest')), true)
      else store_loop before rest' new_segment
  end.

(** The set after the call, and whether the segment was added. *)
Definition store_segment (segments : list rlc_rx_am_sdu_segment) (new_segment : rlc_rx_am_sdu_segment) :
    list rlc_rx_am_sdu_segment * bool :=
  store_loop [] segments new_segment.

(** The flags [(has_gap, fully_received)] that [update_segment_inventory] derives. *)
Fixpoint inventory_loop (next_byte : Z) (segments : list rlc_rx_am_sdu_segment) : bool * bool :=
  match segments with
  | [] => (false, false)
  | segm :: segments' =>
      if negb (sg_so segm =? next_byte) then (true, false)
      else if si_eqb (sg_si segm) last_segment then (false, true)
      else inventory_loop (u32 (next_byte + seg_len segm)) segments'
  end.

Definition segment_inventory (segments : list rlc_rx_am_sdu_segment) : bool * bool :=
  match segments with
  | [] => (false, false)
  | _ => inventory_loop 0 segments
  end.

(** ** Theory *)

(** Offset just past a segment. *)
Definition seg_end (s : rlc_rx_am_sdu_segment) : Z := sg_so s + seg_len s.

(** A segment the 16-bit offsets can describe: at least a byte, ending at 65535 at most (the offset 65535 stands for the end of an SDU). *)
Definition seg_fits (s : rlc_rx_am_sdu_segment) : Prop :=
  0 <= sg_so s /\ 0 < seg_len s /\ seg_end s <= 65535.

(** Sorted, disjoint segments from offset [lo] on. *)
Fixpoint chain (lo : Z) (l : list rlc_rx_am_sdu_segment) : Prop :=
  match l with
  | [] => True
  | s :: l' => lo <= sg_so s /\ 0 < seg_len s /\ seg_end s <= 65535 /\ chain (seg_end s) l'
  end.

Fixpoint last_end (lo : Z) (l : list rlc_rx_am_sdu_segment) : Z :=
  match l with [] => lo | s :: l' => last_end (seg_end s) l' end.

Definition seg_covers (s : rlc_rx_am_sdu_segment) (i : Z) : Prop := sg_so s <= i < seg_end s.
Definition covered (l : list rlc_rx_am_sdu_segment) (i : Z) : Prop := Exists (fun s => seg_covers s i) l.

Lemma chain_app lo l k : chain lo (l ++ k) <-> chain lo l /\ chain (last_end lo l) k.
Proof. revert lo. induction l as [|s l IH]; intros lo; simpl; [tauto|]. rewrite IH. tauto. Qed.

Lemma last_end_app lo l k : last_end lo (l ++ k) = last_end (last_end lo l) k.
Proof. revert lo. induction l as [|s l IH]; intros lo; simpl; auto. Qed.

Lemma chain_weaken lo lo' l : lo' <= lo -> chain lo l -> chain lo' l.
Proof. destruct l; simpl; [done|]. intuition lia. Qed.

Lemma last_end_ge lo l : chain lo l -> lo <= last_end lo l.
Proof.
  revert lo. induction l as [|s l IH]; intros lo; simpl; [lia|].
  intros (? & ? & ? & H). apply IH in H. unfold seg_end in *. lia.
Qed.

Lemma chain_last_end lo l : chain lo l -> lo <= last_end lo l /\ last_end lo l <= lo `max` 65535.
Proof.
  revert lo. induction l as [|s l IH]; intros lo; simpl; [lia|].
  intros (? & ? & ? & H). apply IH in H. unfold seg_end in *. lia.
Qed.

Lemma chain_covered lo l i : chain lo l -> covered l i -> lo <= i < last_end lo l.
Proof.
  revert lo. induction l as [|s l IH]; intros lo; simpl.
  - intros _ Hc. by apply Exists_nil in Hc.
  - intros (H1 & H2 & H3 & H4) [Hc|Hc]%Exists_cons.
    + pose proof (last_end_ge _ _ H4). unfold seg_covers in Hc. lia.
    + specialize (IH _ H4 Hc). unfold seg_end in *. lia.
Qed.

Lemma covered_app l k i : covered (l ++ k) i <-> covered l i \/ covered k i.
Proof. apply Exists_app. Qed.
Lemma covered_cons s l i : covered (s :: l) i <-> seg_covers s i \/ covered l i.
Proof. apply Exists_cons. Qed.
Lemma covered_nil i : covered [] i <-> False.
Proof. apply Exists_nil. Qed.

Lemma chain_fits lo l : 0 <= lo -> chain lo l -> Forall seg_fits l.
Proof.
  revert lo. induction l as [|s l IH]; intros lo Hlo; simpl; [done|].
  intros (? & ? & ? & H). constructor; [unfold seg_fits; lia|].
  apply (IH (seg_end s)); [unfold seg_end in *; lia|done].
Qed.

(** Inserting between the segments that end before and those that start after. *)
Lemma set_insert_between lo l k x :
  chain lo l -> last_end lo l <= sg_so x -> chain (sg_so x + 1) k ->
  set_insert x (l ++ k) = l ++ x :: k.
Proof.
  revert lo. induction l as [|s l IH]; intros lo; simpl.
  - intros _ _. destruct k as [|y k]; [done|]. simpl. intros (H & _).
    destruct (Z.ltb_spec (sg_so x) (sg_so y)); [done|lia].
  - intros (H1 & H2 & H3 & H4) Hx Hk. pose proof (last_end_ge _ _ H4). unfold seg_end in *.
    destruct (Z.ltb_spec (sg_so x) (sg_so s)); [lia|].
    destruct (Z.ltb_spec (sg_so s) (sg_so x)); [|lia]. f_equal. by eapply IH.
Qed.

(** The 32-bit and 16-bit arithmetic is exact on segments that fit. *)
Lemma seg_last_byte s : seg_fits s -> u32 (sg_so s + seg_len s - 1) = seg_end s - 1.
Proof. intros (? & ? & ?). unfold seg_end in *. rewrite u32_small; lia. Qed.

Lemma advance_segment_fits s n :
  seg_fits s -> sg_so s <= n < seg_end s ->
  let s' := advance_segment s (u32 (n - sg_so s)) n in
  seg_fits s' /\ sg_so s' = n /\ seg_end s' = seg_end s /\ sg_si s' = sg_si s /\
  sg_payload s' = drop (Z.to_nat (n - sg_so s)) (sg_payload s).
Proof.
  unfold seg_fits, advance_segment, seg_end, seg_len. simpl. intros (? & ? & ?) ?.
  rewrite (u32_small (n - sg_so s)) by lia. rewrite (u16_small n) by lia.
  rewrite zlen_drop by lia. split_and!; try lia; done.
Qed.

(** What storing [new] in the store [l] promises; [P] is any property that suffixes inherit. *)
Section store.
Context (P : rlc_rx_am_sdu_segment -> Prop)
  (P_advance : forall s n, seg_fits s -> sg_so s <= n < seg_end s -> P s ->
     P (advance_segment s (u32 (n - sg_so s)) n)).

Record store_result (l : list rlc_rx_am_sdu_segment) (new : rlc_rx_am_sdu_segment)
    (r : list rlc_rx_am_sdu_segment * bool) : Prop := {
  sr_chain : chain 0 (fst r);
  sr_P : Forall P (fst r);
  sr_covered : forall i, covered (fst r) i <-> covered l i \/ seg_covers new i;
  sr_dropped : snd r = false -> fst r = l;
  sr_added : snd r = true -> exists i, seg_covers new i /\ ~ covered l i
}.

Lemma fresh_offset before rest i :
  chain 0 before -> last_end 0 before <= i -> chain (i + 1) rest -> ~ covered (before ++ rest) i.
Proof.
  intros Hb Hi Hr [Hc|Hc]%covered_app.
  - apply (chain_covered 0) in Hc; [lia|done].
  - apply (chain_covered (i + 1)) in Hc; [lia|done].
Qed.

Lemma seg_covers_start s : seg_fits s -> seg_covers s (sg_so s).
Proof. unfold seg_fits, seg_covers, seg_end. lia. Qed.

Lemma insert_result before rest new :
  chain 0 before -> last_end 0 before <= sg_so new -> chain (seg_end new) rest -> seg_fits new ->
  Forall P (before ++ rest) -> P new ->
  store_result (before ++ rest) new (set_insert new (before ++ rest), true).
Proof.
  intros Hb Hle Hr Hn HP HPn. pose proof Hn as (N1 & N2 & N3).
  assert (chain (sg_so new + 1) rest) as Hr'
    by (apply (chain_weaken (seg_end new)); [unfold seg_end in *; lia|done]).
  rewrite (set_insert_between 0) by done. apply Forall_app in HP as [HPb HPr]. split; simpl.
  - apply chain_app. simpl. auto.
  - apply Forall_app. auto.
  - intros i. rewrite !covered_app, covered_cons. tauto.
  - done.
  - intros _. exists (sg_so new). split; [by apply seg_covers_start|by apply fresh_offset].
Qed.

(** The new segment lies within a stored one. *)
Lemma discard_result l new cur :
  chain 0 l -> Forall P l -> In cur l -> sg_so cur <= sg_so new -> seg_end new <= seg_end cur ->
  store_result l new (l, false).
Proof.
  intros Hc HP Hin H1 H2. split; simpl; try done.
  intros i. split; [tauto|]. intros [?|Hi]; [done|]. apply Exists_exists. exists cur.
  split; [by apply list_elem_of_In|]. unfold seg_covers in *. lia.
Qed.

(** Storing what is left of the new segment after a stored one is storing it all. *)
Lemma trim_new_result l new cur r :
  seg_fits new -> In cur l -> sg_so cur <= sg_so new < seg_end cur -> seg_end cur < seg_end new ->
  store_result l (advance_segment new (u32 (seg_end cur - sg_so new)) (seg_end cur)) r ->
  store_result l new r.
Proof.
  intros Hn Hin H1 H2 [R1 R2 R3 R4 R5].
  destruct (advance_segment_fits new (seg_end cur)) as (F1 & F2 & F3 & _ & _); [done|lia|].
  unfold seg_covers in R3, R5. rewrite F2, F3 in R3, R5. split; try done.
  - intros i. rewrite R3. unfold seg_covers. split; [intuition lia|]. intros [?|?]; [by left|].
    destruct (decide (i < seg_end cur)); [|right; lia]. left.
    apply Exists_exists. exists cur. split; [by apply list_elem_of_In|]. unfold seg_covers. lia.
  - intros Ht. destruct (R5 Ht) as (i & Hi & Hc). exists i. split; [unfold seg_covers; lia|done].
Qed.

(** Segments the new one covers entirely are removed first. *)
Lemma erase_result before rest new cur r :
  chain 0 before -> last_end 0 before <= sg_so new -> chain (seg_end cur) rest -> seg_fits new ->
  sg_so new < sg_so cur -> 0 < seg_len cur -> seg_end cur <= 65535 -> seg_end cur <= seg_end new ->
  store_result (before ++ rest) new r -> store_result (before ++ cur :: rest) new r.
Proof.
  intros Hb Hle Hr Hn Hso Hlen Hmax Hend [R1 R2 R3 R4 R5].
  assert (~ covered (before ++ cur :: rest) (sg_so new)) as Hfresh.
  { apply fresh_offset; [done|lia|]. simpl. repeat split; try lia; done. }
  split; [done|done| | |].
  - intros i. rewrite R3, !covered_app, covered_cons. unfold seg_covers. intuition lia.
  - intros Hf. exfalso. specialize (R4 Hf). apply Hfresh.
    assert (covered (fst r) (sg_so new)) as Hc by (apply R3; right; by apply seg_covers_start).
    rewrite R4 in Hc. rewrite covered_app, covered_cons in *. tauto.
  - intros _. exists (sg_so new). split; [by apply seg_covers_start|done].
Qed.

(** The new segment overlaps the start of a stored one, which is cut. *)
Lemma cut_result before rest new cur :
  chain 0 before -> last_end 0 before <= sg_so new -> chain (seg_end cur) rest ->
  seg_fits new -> seg_fits cur -> Forall P (before ++ cur :: rest) -> P new ->
  sg_so new < sg_so cur <= seg_end new - 1 -> seg_end new < seg_end cur ->
  let cut := advance_segment cur (u32 (seg_end new - sg_so cur)) (seg_end new) in
  store_result (before ++ cur :: rest) new (set_insert new (set_insert cut (before ++ rest)), true).
Proof.
  intros Hb Hle Hr Hn Hcur HP HPn Hso Hend cut.
  destruct (advance_segment_fits cur (seg_end new)) as (F1 & F2 & F3 & _ & _); [done|lia|].
  apply Forall_app in HP as [HPb [HPc HPr]%Forall_cons].
  assert (P cut) as HPcut by (apply P_advance; [done|lia|done]).
  fold cut in F1, F2, F3. pose proof F1 as (G1 & G2 & G3). clearbody cut.
  assert (chain (seg_end new) (cut :: rest)) as Hcut.
  { simpl. rewrite F2, F3 in *. repeat split; try lia; done. }
  rewrite (set_insert_between 0 before rest cut); [|done|lia|].
  2: { apply (chain_weaken (seg_end cut)); [unfold seg_end in *; lia|]. by rewrite F3. }
  assert (store_result (before ++ cut :: rest) new (set_insert new (before ++ cut :: rest), true)) as R.
  { apply insert_result; try done. apply Forall_app. split; [done|]. by constructor. }
  destruct R as [R1 R2 R3 R4 R5]. split; [done|done| |done|].
  - intros i. rewrite R3, !covered_app, !covered_cons. unfold seg_covers. rewrite F2, F3.
    destruct (decide (i < seg_end new)); intuition lia.
  - intros _. exists (sg_so new). split; [by apply seg_covers_start|].
    apply fresh_offset; [done|lia|]. destruct Hcur as (? & ? & ?). simpl. repeat split; try lia; done.
Qed.

Lemma store_loop_spec rest : forall before new,
  chain 0 before -> last_end 0 before <= sg_so new -> chain (last_end 0 before) rest ->
  seg_fits new -> Forall P (before ++ rest) -> P new ->
  store_result (before ++ rest) new (store_loop before rest new).
Proof.
  induction rest as [|cur rest IH]; intros before new Hb Hle Hr Hn HP HPn; cbn [store_loop].
  - pose proof (insert_result before [] new) as R. rewrite app_nil_r in *. by apply R.
  - destruct Hr as (C1 & C2 & C3 & Hr). pose proof (last_end_ge _ _ Hb) as Hge.
    assert (seg_fits cur) as Hcur by (unfold seg_fits; lia).
    assert (In cur (before ++ cur :: rest)) as Hin by (apply in_or_app; right; by left).
    rewrite !seg_last_byte, !Z.sub_add by done. pose proof Hn as (N1 & N2 & N3).
    assert (chain 0 (before ++ [cur])) as Hb' by (apply chain_app; simpl; auto).
    assert (last_end 0 (before ++ [cur]) = seg_end cur) as Le by (by rewrite last_end_app).
    assert (before ++ cur :: rest = (before ++ [cur]) ++ rest) as Eapp by (by rewrite <- app_assoc).
    destruct (Z.ltb_spec (seg_end cur - 1) (sg_so new)).
    { rewrite Eapp in *. apply IH; rewrite ?Le; try done. lia. }
    destruct (Z.leb_spec (sg_so cur) (sg_so new)).
    { destruct (Z.leb_spec (seg_end new - 1) (seg_end cur - 1)).
      - apply (discard_result _ _ cur); try done; [|lia]. apply chain_app. simpl. auto.
      - destruct (advance_segment_fits new (seg_end cur)) as (F1 & F2 & _); [done|lia|].
        apply (trim_new_result _ _ cur); try done; [lia..|]. rewrite Eapp in *.
        apply IH; rewrite ?Le, ?F2; try done. apply P_advance; [done|lia|done]. }
    destruct (Z.ltb_spec (seg_end new - 1) (sg_so cur)).
    { apply insert_result; try done. simpl. repeat split; try lia; done. }
    destruct (Z.ltb_spec (seg_end new - 1) (seg_end cur - 1)).
    { apply cut_result; try done; lia. }
    apply erase_result; try done; try lia. apply IH; try done.
    + apply (chain_weaken (seg_end cur)); [unfold seg_end in *; lia|done].
    + apply Forall_app in HP as [? [_ ?]%Forall_cons]. by apply Forall_app.
Qed.

Lemma store_segment_spec l new :
  chain 0 l -> seg_fits new -> Forall P l -> P new -> store_result l new (store_segment l new).
Proof. intros ? Hn ??. apply (store_loop_spec l []); try done. unfold seg_fits in *. simpl. lia. Qed.
End store.

(** ** Segments of one SDU

    [slice_of D s]: the segment carries the bytes of [D] at its offset, and is marked as the last
    one exactly when it reaches the end of [D]. *)
Record slice_of (D : list Z) (s : rlc_rx_am_sdu_segment) : Prop := {
  sl_bytes : sg_payload s = sub (sg_so s) (seg_len s) D;
  sl_so : 0 <= sg_so s;
  sl_len : 0 < seg_len s;
  sl_end : seg_end s <= zlen D;
  sl_last : sg_si s = last_segment <-> seg_end s = zlen D
}.

(** Segments back to back from offset [lo]. *)
Fixpoint contiguous (lo : Z) (l : list rlc_rx_am_sdu_segment) : Prop :=
  match l with [] => True | s :: l' => sg_so s = lo /\ contiguous (seg_end s) l' end.

Lemma contiguous_covered lo l i : contiguous lo l -> Forall seg_fits l -> lo <= i < last_end lo l -> covered l i.
Proof.
  revert lo. induction l as [|s l IH]; intros lo; simpl; [lia|].
  intros [<- Hc] [Hs Hl]%Forall_cons Hi. apply covered_cons. unfold seg_covers.
  destruct (decide (i < seg_end s)); [left; lia|right]. apply (IH (seg_end s)); auto; lia.
Qed.

Section sdu.
Context (D : list Z) (HD : zlen D <= 65535).

Lemma slice_of_fits s : slice_of D s -> seg_fits s.
Proof. intros []. unfold seg_fits. lia. Qed.

Lemma slice_of_advance s n :
  seg_fits s -> sg_so s <= n < seg_end s -> slice_of D s ->
  slice_of D (advance_segment s (u32 (n - sg_so s)) n).
Proof.
  intros Hf Hn [S1 S2 S3 S4 S5].
  destruct (advance_segment_fits s n Hf Hn) as ((F1 & F2 & F3) & E1 & E2 & E3 & E4).
  split; rewrite ?E2, ?E3; try done.
  rewrite E4, S1, sub_drop by (unfold seg_end in *; lia).
  rewrite E1. unfold seg_end in *. f_equal; lia.
Qed.

Lemma slices_past_end l : chain (zlen D) l -> Forall (slice_of D) l -> l = [].
Proof.
  destruct l as [|s l]; [done|]. simpl. intros (? & ? & _) [[]]%Forall_cons. unfold seg_end in *. lia.
Qed.

Lemma contiguous_bytes lo l :
  0 <= lo -> contiguous lo l -> Forall (slice_of D) l ->
  concat (map sg_payload l) = sub lo (last_end lo l - lo) D /\ lo <= last_end lo l.
Proof.
  revert lo. induction l as [|s l IH]; intros lo Hlo; simpl.
  - intros _ _. rewrite Z.sub_diag. split; [done|lia].
  - intros [<- Hc] [[] Hl]%Forall_cons. unfold seg_end in *.
    destruct (IH (sg_so s + seg_len s)) as [-> ?]; [lia|done|done|]. split; [|lia].
    rewrite sl_bytes0 at 1. rewrite sub_app by lia. f_equal. lia.
Qed.

(** [fully_received] means: back to back up to the end of the SDU. *)
Lemma inventory_full lo l g :
  0 <= lo -> chain lo l -> Forall (slice_of D) l -> inventory_loop lo l = (g, true) ->
  g = false /\ contiguous lo l /\ last_end lo l = zlen D.
Proof.
  revert lo. induction l as [|s l IH]; intros lo Hlo; [done|]. simpl.
  intros (H1 & H2 & H3 & H4) [Hs Hl]%Forall_cons. pose proof Hs as [].
  destruct (Z.eqb_spec (sg_so s) lo) as [<-|]; simpl; [|done].
  destruct (si_eqb (sg_si s) last_segment) eqn:E.
  - intros [= <-]. apply si_eqb_eq in E. apply sl_last0 in E. rewrite E in *.
    rewrite (slices_past_end l); simpl; done.
  - fold (seg_end s). rewrite u32_small by (unfold seg_end in *; lia). intros Hi.
    destruct (IH (seg_end s)) as (? & ? & ?); try done. unfold seg_end; lia.
Qed.

Lemma inventory_complete lo l :
  0 <= lo < zlen D -> chain lo l -> Forall (slice_of D) l ->
  (forall i, lo <= i < zlen D -> covered l i) -> inventory_loop lo l = (false, true).
Proof.
  revert lo. induction l as [|s l IH]; intros lo Hlo; simpl.
  - intros _ _ H. specialize (H lo ltac:(lia)). by apply covered_nil in H.
  - intros (H1 & H2 & H3 & H4) [Hs Hl]%Forall_cons H. pose proof Hs as [].
    assert (sg_so s = lo) as E.
    { destruct (decide (sg_so s = lo)); [done|]. specialize (H lo ltac:(lia)).
      apply covered_cons in H as [H|H]; [unfold seg_covers in H; lia|].
      apply (chain_covered (seg_end s)) in H; [unfold seg_end in *; lia|done]. }
    rewrite E, Z.eqb_refl. simpl. destruct (si_eqb (sg_si s) last_segment) eqn:Hl'; [done|].
    assert (seg_end s <> zlen D).
    { intros Hx%sl_last0. rewrite Hx in Hl'. done. }
    replace (u32 (lo + seg_len s)) with (seg_end s) by (unfold seg_end in *; rewrite u32_small; lia).
    apply IH; [unfold seg_end in *; lia|done|done|]. intros i Hi.
    specialize (H i ltac:(unfold seg_end in *; lia)).
    apply covered_cons in H as [H|H]; [unfold seg_covers in H; lia|done].
Qed.
End sdu.

(** [has_gap] means: a byte is missing before a received one. *)
Lemma inventory_gap lo l :
  0 <= lo -> chain lo l ->
  (fst (inventory_loop lo l) = true ->
     snd (inventory_loop lo l) = false /\ exists i j, lo <= i < j /\ ~ covered l i /\ covered l j) /\
  (inventory_loop lo l = (false, false) -> contiguous lo l).
Proof.
  revert lo. induction l as [|s l IH]; intros lo Hlo; simpl; [done|].
  intros (H1 & H2 & H3 & H4). destruct (Z.eqb_spec (sg_so s) lo) as [<-|Hne]; simpl.
  - destruct (si_eqb _ _); [done|]. fold (seg_end s).
    rewrite u32_small by (unfold seg_end in *; lia).
    destruct (IH (seg_end s)) as [IH1 IH2]; [unfold seg_end; lia|done|]. split; [|auto].
    intros Hg. destruct (IH1 Hg) as (E & i & j & Hij & Hi & Hj). split; [done|].
    exists i, j. rewrite !covered_cons. unfold seg_covers, seg_end in *.
    split; [lia|]. split; [|by right]. intros [?|?]; [lia|done].
  - split; [|done]. intros _. split; [done|]. exists lo, (sg_so s).
    rewrite !covered_cons. split; [lia|]. split; [|left; unfold seg_covers, seg_end; lia].
    intros [Hc|Hc]; [unfold seg_covers in Hc; lia|].
    apply (chain_covered (seg_end s)) in Hc; [unfold seg_end in *; lia|done].
Qed.

(** The store after a sequence of arrivals. *)
Definition store_all (arrivals : list rlc_rx_am_sdu_segment) : list rlc_rx_am_sdu_segment :=
  fold_left (fun l s => fst (store_segment l s)) arrivals [].

Lemma store_all_snoc l s : store_all (l ++ [s]) = fst (store_segment (store_all l) s).
Proof. unfold store_all. by rewrite fold_left_app. Qed.

Lemma store_all_spec (P : rlc_rx_am_sdu_segment -> Prop) arrivals :
  (forall s n, seg_fits s -> sg_so s <= n < seg_end s -> P s ->
     P (advance_segment s (u32 (n - sg_so s)) n)) ->
  Forall seg_fits arrivals -> Forall P arrivals ->
  chain 0 (store_all arrivals) /\ Forall P (store_all arrivals) /\
  forall i, covered (store_all arrivals) i <-> covered arrivals i.
Proof.
  intros HP. induction arrivals as [|s l IH] using rev_ind; intros Hf Ha; [done|].
  rewrite store_all_snoc. apply Forall_app in Hf as [Hf [Hs _]%Forall_cons].
  apply Forall_app in Ha as [Ha [HPs _]%Forall_cons]. destruct IH as (I1 & I2 & I3); [done..|].
  destruct (store_segment_spec P HP (store_all l) s) as [R1 R2 R3 _ _]; try done.
  split_and!; [done|done|]. intros i.
  rewrite R3, I3, covered_app, covered_cons, covered_nil. tauto.
Qed.

Lemma segment_inventory_loop l : segment_inventory l = inventory_loop 0 l.
Proof. by destruct l. Qed.

(** Segments of an SDU that arrive in any order, repeated and overlapping: the SDU is flagged
    complete exactly when every byte has arrived, and the stored payloads are then the SDU. *)
Lemma reassembly_from_segments D arrivals :
  0 < zlen D <= 65535 -> Forall (slice_of D) arrivals ->
  (snd (segment_inventory (store_all arrivals)) = true <->
     forall i, 0 <= i < zlen D -> covered arrivals i) /\
  (snd (segment_inventory (store_all arrivals)) = true ->
     concat (map sg_payload (store_all arrivals)) = D).
Proof.
  intros HD Ha. rewrite segment_inventory_loop.
  destruct (store_all_spec (slice_of D) arrivals) as (H1 & H2 & H3); [| |done|].
  { intros. by apply slice_of_advance. }
  { eapply Forall_impl; [done|]. intros ? Hs. apply (slice_of_fits D); [lia|done]. }
  assert (snd (inventory_loop 0 (store_all arrivals)) = true ->
    contiguous 0 (store_all arrivals) /\ last_end 0 (store_all arrivals) = zlen D) as Hfull.
  { destruct (inventory_loop 0 (store_all arrivals)) as [g f] eqn:E. simpl. intros ->.
    apply (inventory_full D) in E as (_ & ? & ?); done || lia. }
  split; [split|].
  - intros [Hc Hl]%Hfull i Hi. apply H3. apply (contiguous_covered 0); [done| |lia].
    by eapply chain_fits; [|done].
  - intros Hall. rewrite (inventory_complete D); try done; try lia. intros. by apply H3, Hall.
  - intros [Hc Hl]%Hfull. destruct (contiguous_bytes D 0 (store_all arrivals)) as [-> _]; try done.
    rewrite Hl, Z.sub_0_r. apply sub_all.
Qed.

(** ** Claims *)

(** Storing a segment keeps the store sorted and free of overlaps, and the bytes it covers become
    those it covered together with those of the new segment; the segment is refused, and the store
    left as it was, exactly when it brings no new byte. *)
Theorem store_segment_exact l new :
  chain 0 l -> seg_fits new ->
  let '(l', added) := store_segment l new in
  chain 0 l' /\ (forall i, covered l' i <-> covered l i \/ seg_covers new i) /\
  (added = false -> l' = l) /\
  (added = false <-> forall i, seg_covers new i -> covered l i).
Proof.
  intros Hc Hn. destruct (store_segment_spec (fun _ => True) ltac:(done) l new) as [R1 R2 R3 R4 R5]; try done.
  { by apply Forall_true. }
  destruct (store_segment l new) as [l' added]. simpl in *. do 3 (split; [done|]). split.
  - intros Hf i Hi. rewrite <- (R4 Hf). apply R3. by right.
  - intros Hall. destruct added; [|done]. destruct (R5 eq_refl) as (i & Hi & Hnc). by destruct Hnc; apply Hall.
Qed.

Lemma store_segment_exact_witness :
  let l := [mk_segment first_segment 0 [1; 2; 3]; mk_segment last_segment 6 [7; 8]] in
  let new := mk_segment middle_segment 2 [3; 4; 5; 6; 7] in
  store_segment l new =
    ([mk_segment first_segment 0 [1; 2; 3]; mk_segment middle_segment 3 [4; 5; 6; 7];
      mk_segment last_segment 7 [8]], true) /\
  (forall i, covered (fst (store_segment l new)) i <-> covered l i \/ seg_covers new i).
Proof.
  intros l new. split; [reflexivity|].
  pose proof (store_segment_exact l new) as H. destruct (store_segment l new) as [l' added].
  apply H; [repeat split; vm_compute; congruence|repeat split; vm_compute; congruence].
Defined.

(** Segments of an SDU that arrive in any order, repeated, overlapping and re-segmented: the SDU
    is flagged fully received exactly when every one of its bytes has arrived, and the stored
    payloads then are the SDU, byte for byte. *)
Theorem segments_reassemble D arrivals :
  0 < zlen D <= 65535 -> Forall (slice_of D) arrivals ->
  (snd (segment_inventory (store_all arrivals)) = true <->
     forall i, 0 <= i < zlen D -> covered arrivals i) /\
  (snd (segment_inventory (store_all arrivals)) = true ->
     concat (map sg_payload (store_all arrivals)) = D).
Proof. apply reassembly_from_segments. Qed.

Lemma segments_reassemble_witness :
  let D := [1; 2; 3; 4; 5] in
  let arrivals := [mk_segment last_segment 3 [4; 5]; mk_segment first_segment 0 [1; 2];
                   mk_segment middle_segment 1 [2; 3; 4]] in
  snd (segment_inventory (store_all arrivals)) = true /\ concat (map sg_payload (store_all arrivals)) = D.
Proof.
  intros D arrivals. split; [reflexivity|].
  apply (segments_reassemble D arrivals); [split; vm_compute; congruence| |reflexivity].
  repeat (apply Forall_cons; split; [split; vm_compute; try reflexivity; try congruence; split; congruence|]).
  apply Forall_nil. exact I.
Defined.
