(* ===== verification/RlcRxAm.v ===== *)
(** * RLC AM receiving entity

    Models [lib/rlc/rlc_rx_am_entity.{h,cpp}]: reception of AMD PDUs into the receive window,
    reassembly and delivery, the state variables of TS 38.322, t-Reassembly, t-StatusProhibit and the
    status report shared with the transmitting side through three buffers.

    Calls to neighbours (upper layer, transmitting side, metrics, pcap, executor) are events.  Not
    modelled: logging, and the time of arrival, which only feeds a latency metric. *)

From S2P Require Import Prelude Effects Window RlcConfig RlcAmPdu Timers Segments.
Import AmHeader StatusPdu.
Open Scope Z_scope.
Open Scope entity_scope.

Module RlcRxAm.

(** [std::variant<byte_buffer_slice, segment_set_t>] *)
Inductive sdu_data_t :=
| full_data (payload : list Z)
| segment_set (segments : list rlc_rx_am_sdu_segment).

Record rlc_rx_am_sdu_info := mk_info {
  fully_received : bool;
  has_gap : bool;
  sdu_data : sdu_data_t
}.

Definition sdu_info_default : rlc_rx_am_sdu_info := mk_info false false (full_data []).

Record rlc_rx_am_state := mk_state {
  rx_next : Z;
  rx_next_status_trigger : Z;
  rx_highest_status : Z;
  rx_next_highest : Z
}.

Record rlc_rx_am_entity := mk_entity {
  cfg : rlc_rx_am_config;
  st : rlc_rx_am_state;
  max_nof_sn_per_status_report : Z;
  do_status : bool;
  rx_window : CircularMap.t rlc_rx_am_sdu_info;
  status_buf : list rlc_am_status_pdu;
  status_owned_by_writer : nat;
  status_for_exchange : nat;
  status_owned_by_reader : nat;
  status_report_size : Z;
  status_prohibit_timer_is_running : bool;
  status_prohibit_timer : unique_timer;
  reassembly_timer : unique_timer;
  stopped : bool
}.

Definition set_st (v : rlc_rx_am_state) (e : rlc_rx_am_entity) : rlc_rx_am_entity :=
  mk_entity (cfg e) v (max_nof_sn_per_status_report e) (do_status e) (rx_window e)
    (status_buf e) (status_owned_by_writer e) (status_for_exchange e) (status_owned_by_reader e)
    (status_report_size e) (status_prohibit_timer_is_running e) (status_prohibit_timer e)
    (reassembly_timer e) (stopped e).
Definition set_max_nof_sn_per_status_report (v : Z) (e : rlc_rx_am_entity) : rlc_rx_am_entity :=
  mk_entity (cfg e) (st e) v (do_status e) (rx_window e) (status_buf e)
    (status_owned_by_writer e) (status_for_exchange e) (status_owned_by_reader e)
    (status_report_size e) (status_prohibit_timer_is_running e) (status_prohibit_timer e)
    (reassembly_timer e) (stopped e).
Definition set_do_status (v : bool) (e : rlc_rx_am_entity) : rlc_rx_am_entity :=
  mk_entity (cfg e) (st e) (max_nof_sn_per_status_report e) v (rx_window e) (status_buf e)
    (status_owned_by_writer e) (status_for_exchange e) (status_owned_by_reader e)
    (status_report_size e) (status_prohibit_timer_is_running e) (status_prohibit_timer e)
    (reassembly_timer e) (stopped e).
Definition set_rx_window (v : CircularMap.t rlc_rx_am_sdu_info) (e : rlc_rx_am_entity) : rlc_rx_am_entity :=
  mk_entity (cfg e) (st e) (max_nof_sn_per_status_report e) (do_status e) v (status_buf e)
    (status_owned_by_writer e) (status_for_exchange e) (status_owned_by_reader e)
    (status_report_size e) (status_prohibit_timer_is_running e) (status_prohibit_timer e)
    (reassembly_timer e) (stopped e).
Definition set_status_buf (v : list rlc_am_status_pdu) (e : rlc_rx_am_entity) : rlc_rx_am_entity :=
  mk_entity (cfg e) (st e) (max_nof_sn_per_status_report e) (do_status e) (rx_window e) v
    (status_owned_by_writer e) (status_for_exchange e) (status_owned_by_reader e)
    (status_report_size e) (status_prohibit_timer_is_running e) (status_prohibit_timer e)
    (reassembly_timer e) (stopped e).
Definition set_status_owned_by_writer (v : nat) (e : rlc_rx_am_entity) : rlc_rx_am_entity :=
  mk_entity (cfg e) (st e) (max_nof_sn_per_status_report e) (do_status e) (rx_window e)
    (status_buf e) v (status_for_exchange e) (status_owned_by_reader e) (status_report_size e)
    (status_prohibit_timer_is_running e) (status_prohibit_timer e) (reassembly_timer e)
    (stopped e).
Definition set_status_for_exchange (v : nat) (e : rlc_rx_am_entity) : rlc_rx_am_entity :=
  mk_entity (cfg e) (st e) (max_nof_sn_per_status_report e) (do_status e) (rx_window e)
    (status_buf e) (status_owned_by_writer e) v (status_owned_by_reader e)
    (status_report_size e) (status_prohibit_timer_is_running e) (status_prohibit_timer e)
    (reassembly_timer e) (stopped e).
Definition set_status_owned_by_reader (v : nat) (e : rlc_rx_am_entity) : rlc_rx_am_entity :=
  mk_entity (cfg e) (st e) (max_nof_sn_per_status_report e) (do_status e) (rx_window e)
    (status_buf e) (status_owned_by_writer e) (status_for_exchange e) v (status_report_size e)
    (status_prohibit_timer_is_running e) (status_prohibit_timer e) (reassembly_timer e)
    (stopped e).
Definition set_status_report_size (v : Z) (e : rlc_rx_am_entity) : rlc_rx_am_entity :=
  mk_entity (cfg e) (st e) (max_nof_sn_per_status_report e) (do_status e) (rx_window e)
    (status_buf e) (status_owned_by_writer e) (status_for_exchange e) (status_owned_by_reader e)
    v (status_prohibit_timer_is_running e) (status_prohibit_timer e) (reassembly_timer e)
    (stopped e).
Definition set_status_prohibit_timer_is_running (v : bool) (e : rlc_rx_am_entity) : rlc_rx_am_entity :=
  mk_entity (cfg e) (st e) (max_nof_sn_per_status_report e) (do_status e) (rx_window e)
    (status_buf e) (status_owned_by_writer e) (status_for_exchange e) (status_owned_by_reader e)
    (status_report_size e) v (status_prohibit_timer e) (reassembly_timer e) (stopped e).
Definition set_status_prohibit_timer (v : unique_timer) (e : rlc_rx_am_entity) : rlc_rx_am_entity :=
  mk_entity (cfg e) (st e) (max_nof_sn_per_status_report e) (do_status e) (rx_window e)
    (status_buf e) (status_owned_by_writer e) (status_for_exchange e) (status_owned_by_reader e)
    (status_report_size e) (status_prohibit_timer_is_running e) v (reassembly_timer e)
    (stopped e).
Definition set_reassembly_timer (v : unique_timer) (e : rlc_rx_am_entity) : rlc_rx_am_entity :=
  mk_entity (cfg e) (st e) (max_nof_sn_per_status_report e) (do_status e) (rx_window e)
    (status_buf e) (status_owned_by_writer e) (status_for_exchange e) (status_owned_by_reader e)
    (status_report_size e) (status_prohibit_timer_is_running e) (status_prohibit_timer e) v
    (stopped e).
Definition set_stopped (v : bool) (e : rlc_rx_am_entity) : rlc_rx_am_entity :=
  mk_entity (cfg e) (st e) (max_nof_sn_per_status_report e) (do_status e) (rx_window e)
    (status_buf e) (status_owned_by_writer e) (status_for_exchange e) (status_owned_by_reader e)
    (status_report_size e) (status_prohibit_timer_is_running e) (status_prohibit_timer e)
    (reassembly_timer e) v.

Definition set_rx_next (v : Z) (e : rlc_rx_am_entity) :=
  set_st (mk_state v (rx_next_status_trigger (st e)) (rx_highest_status (st e)) (rx_next_highest (st e))) e.
Definition set_rx_next_status_trigger (v : Z) (e : rlc_rx_am_entity) :=
  set_st (mk_state (rx_next (st e)) v (rx_highest_status (st e)) (rx_next_highest (st e))) e.
Definition set_rx_highest_status (v : Z) (e : rlc_rx_am_entity) :=
  set_st (mk_state (rx_next (st e)) (rx_next_status_trigger (st e)) v (rx_next_highest (st e))) e.
Definition set_rx_next_highest (v : Z) (e : rlc_rx_am_entity) :=
  set_st (mk_state (rx_next (st e)) (rx_next_status_trigger (st e)) (rx_highest_status (st e)) v) e.

(** Calls the entity makes to its neighbours. *)
Inductive rx_event :=
| metrics_add_pdus (num len : Z)
| metrics_add_ctrl_pdus (num len : Z)
| metrics_add_malformed_pdus (num : Z)
| metrics_add_lost_pdus (num : Z)
| metrics_add_sdus (num len : Z)
| pcap_push_pdu (buf : list Z)
| on_new_sdu (sdu : list Z)
| on_status_pdu (status : rlc_am_status_pdu)
| on_status_report_changed
| defer_run_status_prohibit_timer.

Definition H (A : Type) : Type := M rlc_rx_am_entity rx_event A.

Definition mod_ (e : rlc_rx_am_entity) : Z :=
  cardinality (to_number_am_sn (rxam_sn_field_length (cfg e))).
Definition am_window_size (e : rlc_rx_am_entity) : Z :=
  rlc_window_size (to_number_am_sn (rxam_sn_field_length (cfg e))).

(** ** Window helpers *)

Definition rx_mod_base (e : rlc_rx_am_entity) (sn : Z) : Z := u32 (sn - rx_next (st e)) mod mod_ e.

Definition inside_rx_window (e : rlc_rx_am_entity) (sn : Z) : bool :=
  rx_mod_base e sn <? am_window_size e.

Definition valid_ack_sn (e : rlc_rx_am_entity) (sn : Z) : bool :=
  (0 <? rx_mod_base e sn) && (rx_mod_base e sn <=? am_window_size e).

Definition has_sn (e : rlc_rx_am_entity) (sn : Z) : bool := SduWindow.has_sn (rx_window e) sn.

(** [rx_window[sn]] *)
Definition window_at (sn : Z) : H rlc_rx_am_sdu_info :=
  let! e := get in SduWindow.index (rx_window e) sn.

(** [rx_window.has_sn(sn) && rx_window[sn].fully_received] *)
Definition is_fully_received (sn : Z) : H bool :=
  let! e := get in
  if has_sn e sn then let! info := window_at sn in ret (fully_received info) else ret false.

(** Writing through the reference [rx_window[sn]]. *)
Definition window_set (sn : Z) (info : rlc_rx_am_sdu_info) : H unit :=
  modify (fun e => set_rx_window (CircularMap.set_at (rx_window e) (u32 sn) info) e).

(** The SN loops make at most one turn of the ring. *)
Definition sn_fuel (e : rlc_rx_am_entity) : nat := Z.to_nat (mod_ e).

(** ** Construction *)

(** A timer of the factory, configured when the duration is positive; [None] for a failing
    [srsran_assert]. *)
Definition configured_timer (duration : Z) : option unique_timer :=
  if 0 <? duration then
    match timer_set (S := unit) (E := unit) create_timer duration tt with
    | Ok (tm, _, _) => Some tm
    | Fault _ => None
    end
  else Some create_timer.

(** [max_nof_sn_per_status_report]. *)
Definition status_report_limit (config : rlc_rx_am_config) : option Z :=
  let w := rlc_window_size (to_number_am_sn (rxam_sn_field_length config)) in
  match rxam_max_sn_per_status config with
  | Some max_sn_per_status =>
      if (max_sn_per_status <=? w) && (0 <? max_sn_per_status) then Some max_sn_per_status else None
  | None => Some w
  end.

Definition create (config : rlc_rx_am_config) : option rlc_rx_am_entity :=
  let sz := rxam_sn_field_length config in
  prohibit ← configured_timer (rxam_t_status_prohibit config);
  reassembly ← configured_timer (rxam_t_reassembly config);
  max_sn ← status_report_limit config;
  let state := mk_state 0 0 0 0 in
  let init_status_for_exchange := set_ack_sn (new_status_pdu sz) (rx_next_highest state) in
  Some (mk_entity config state max_sn false (CircularMap.empty_map (rlc_window_size (to_number_am_sn sz)))
          [new_status_pdu sz; init_status_for_exchange; new_status_pdu sz] 0 1 2
          (packed_size init_status_for_exchange) false prohibit reassembly false).

(** ** Status report *)

(** [*status_owned_by_writer] *)
Definition writer_update (f : rlc_am_status_pdu -> rlc_am_status_pdu) : H unit :=
  modify (fun e => set_status_buf (alter f (status_owned_by_writer e) (status_buf e)) e).
Definition status_at (i : nat) : H rlc_am_status_pdu :=
  let! e := get in need (status_buf e !! i).

Definition store_status_report : H unit :=
  let! e := get in
  let! written := status_at (status_owned_by_writer e) in
  let latest_status_report_size := packed_size written in
  modify (fun e => set_status_owned_by_writer (status_for_exchange e)
                     (set_status_for_exchange (status_owned_by_writer e) e)) ;;;
  modify (set_status_report_size latest_status_report_size).

(** The NACKs of an SDU of which some segments were received: the loop over its segments. *)
Fixpoint nack_segments (sn last_so : Z) (have_last_segment : bool) (segments : list rlc_rx_am_sdu_segment) :
    H (Z * bool) :=
  match segments with
  | [] => ret (last_so, have_last_segment)
  | segm :: segments' =>
      when (negb (sg_so segm =? last_so))
        (let nack := mk_nack sn true (u16 last_so) (u16 (sg_so segm - 1)) false 0 in
         writer_update (fun s => push_nack s nack) ;;;
         assert_ (so_start nack <=? so_end nack)) ;;;
      nack_segments sn (u32 (sg_so segm + seg_len segm))
        (have_last_segment || si_eqb (sg_si segm) last_segment) segments'
  end.

Definition nack_incomplete_sdu (sn : Z) : H unit :=
  let! info := window_at sn in
  match sdu_data info with
  | full_data _ => abort
  | segment_set segments =>
      let! r := nack_segments sn 0 false segments in
      when (negb (snd r))
        (let nack := mk_nack sn true (u16 (fst r)) so_end_of_sdu false 0 in
         writer_update (fun s => push_nack s nack) ;;;
         assert_ (so_start nack <=? so_end nack))
  end.

(** One turn of the NACK loop. *)
Definition nack_sn_step (i : Z) : H bool :=
  let! complete := is_fully_received i in
  (if complete then ret tt else
   let! e := get in
   if negb (has_sn e i) then
     writer_update (fun s => push_nack s (mk_nack i false 0 so_end_of_sdu false 0))
   else nack_incomplete_sdu i) ;;;
  ret false.

Definition refresh_status_report : H unit :=
  writer_update reset ;;;
  let! e := get in
  let stop_sn :=
    if rx_mod_base e ((rx_next (st e) + max_nof_sn_per_status_report e) mod mod_ e) <?
       rx_mod_base e (rx_highest_status (st e))
    then (rx_next (st e) + max_nof_sn_per_status_report e) mod mod_ e
    else rx_highest_status (st e) in
  let! _ := for_loop (sn_fuel e) (fun i e => rx_mod_base e i <? rx_mod_base e stop_sn)
              (fun i => (i + 1) mod mod_ e) nack_sn_step (rx_next (st e)) in
  writer_update (fun s => set_ack_sn s stop_sn) ;;;
  store_status_report.

Definition status_report_required (e : rlc_rx_am_entity) : bool :=
  do_status e && negb (status_prohibit_timer_is_running e).

Definition notify_status_report_changed : H unit :=
  let! e := get in
  when (status_report_required e) (emit on_status_report_changed).

Definition get_status_pdu : H rlc_am_status_pdu :=
  modify (set_do_status false) ;;;
  let! e := get in
  when (0 <? rxam_t_status_prohibit (cfg e))
    (emit defer_run_status_prohibit_timer ;;; modify (set_status_prohibit_timer_is_running true)) ;;;
  modify (fun e => set_status_owned_by_reader (status_for_exchange e)
                     (set_status_for_exchange (status_owned_by_reader e) e)) ;;;
  let! e := get in
  status_at (status_owned_by_reader e).

Definition get_status_pdu_length (e : rlc_rx_am_entity) : Z := status_report_size e.

(** The task [get_status_pdu] defers to the UE executor. *)
Definition run_status_prohibit_timer : H unit :=
  let! e := get in
  let! tm := timer_run (status_prohibit_timer e) in
  modify (set_status_prohibit_timer tm).

(** ** Reception *)

(** [rx_window.has_sn(sn) ? rx_window[sn] : rx_window.add_sn(sn)] *)
Definition get_or_add_sn (sn : Z) : H rlc_rx_am_sdu_info :=
  let! e := get in
  (if has_sn e sn then ret tt else
   let! w := SduWindow.add_sn sdu_info_default (rx_window e) sn in
   modify (set_rx_window w)) ;;;
  window_at sn.

Definition handle_full_data_sdu (header : rlc_am_pdu_header) (payload : list Z) : H bool :=
  if negb (si_eqb (si header) full_sdu) then ret false else
  let! _ := get_or_add_sn (sn header) in
  window_set (sn header) (mk_info true false (full_data payload)) ;;;
  ret true.

Definition info_store_segment (sdu_info : rlc_rx_am_sdu_info) (new_segment : rlc_rx_am_sdu_segment) :
    rlc_rx_am_sdu_info * bool :=
  let segments := match sdu_data sdu_info with segment_set l => l | full_data _ => [] end in
  let '(segments, stored) := store_segment segments new_segment in
  (mk_info (fully_received sdu_info) (has_gap sdu_info) (segment_set segments), stored).

Definition update_segment_inventory (rx_sdu : rlc_rx_am_sdu_info) : H rlc_rx_am_sdu_info :=
  match sdu_data rx_sdu with
  | full_data _ => abort
  | segment_set segments =>
      let '(gap, full) := segment_inventory segments in
      ret (mk_info full gap (segment_set segments))
  end.

Definition handle_segment_data_sdu (header : rlc_am_pdu_header) (payload : list Z) : H bool :=
  if si_eqb (si header) full_sdu then ret false else
  let! rx_sdu := get_or_add_sn (sn header) in
  let segment := mk_segment (si header) (so header) payload in
  let '(rx_sdu, stored) := info_store_segment rx_sdu segment in
  window_set (sn header) rx_sdu ;;;
  let! rx_sdu := update_segment_inventory rx_sdu in
  window_set (sn header) rx_sdu ;;;
  ret stored.

(** [byte_buffer_chain]: the bytes and the number of slices; [alloc] is what [create] answers,
    the maximum number of slices unless the memory pool is depleted. *)
Definition chain_append (max_slices : Z) (chain : list Z * Z) (obj : list Z) : option (list Z * Z) :=
  match obj with
  | [] => Some chain
  | _ => if snd chain =? max_slices then None else Some (fst chain ++ obj, snd chain + 1)
  end.

Fixpoint chain_append_all (max_slices : Z) (chain : list Z * Z) (segments : list rlc_rx_am_sdu_segment) :
    option (list Z * Z) :=
  match segments with
  | [] => Some chain
  | segm :: segments' =>
      chain ← chain_append max_slices chain (sg_payload segm);
      chain_append_all max_slices chain segments'
  end.

Definition reassemble_sdu (alloc : option Z) (sdu_info : rlc_rx_am_sdu_info) : option (list Z) :=
  if negb (fully_received sdu_info) then None else
  max_slices ← alloc;
  fst <$> match sdu_data sdu_info with
          | full_data payload => chain_append max_slices ([], 0) payload
          | segment_set segments => chain_append_all max_slices ([], 0) segments
          end.

(** The PDU is placed in the reception buffer. *)
Definition place_in_window (header : rlc_am_pdu_header) (payload : list Z) : H bool :=
  let! status_changed :=
    (if si_eqb (si header) full_sdu then handle_full_data_sdu header payload
     else handle_segment_data_sdu header payload) in
  let! e := get in
  when (rx_mod_base e (rx_next_highest (st e)) <=? rx_mod_base e (sn header))
    (modify (set_rx_next_highest ((sn header + 1) mod mod_ e))) ;;;
  ret status_changed.

(** Reassembly and delivery of a complete SDU; its buffers are released, its flags kept. *)
Definition deliver_sdu (alloc : option Z) (sn : Z) : H unit :=
  let! sdu_info := window_at sn in
  match reassemble_sdu alloc sdu_info with
  | None => emit (metrics_add_lost_pdus 1)
  | Some sdu => emit (metrics_add_sdus 1 (zlen sdu)) ;;; emit (on_new_sdu sdu)
  end ;;;
  window_set sn (mk_info (fully_received sdu_info) (has_gap sdu_info) (full_data [])).

Definition update_rx_highest_status (sn : Z) : H unit :=
  let! e := get in
  when (rx_mod_base e sn =? rx_mod_base e (rx_highest_status (st e)))
    (let! sn_upd :=
       for_loop (sn_fuel e)
         (fun sn_upd e => rx_mod_base e sn_upd <? rx_mod_base e (rx_next_highest (st e)))
         (fun sn_upd => (sn_upd + 1) mod mod_ e)
         (fun sn_upd => let! full := is_fully_received sn_upd in ret (negb full))
         ((rx_highest_status (st e) + 1) mod mod_ e) in
     modify (set_rx_highest_status sn_upd)).

(** One turn of the loop that moves RX_Next: a fully received SDU leaves the window. *)
Definition rx_next_step (sn_upd : Z) : H bool :=
  let! full := is_fully_received sn_upd in
  if full then
    let! e := get in
    let! w := SduWindow.remove_sn (rx_window e) sn_upd in
    modify (set_rx_window w) ;;;
    ret false
  else ret true.

Definition update_rx_next (sn : Z) : H unit :=
  let! e := get in
  when (rx_mod_base e sn =? rx_mod_base e (rx_next (st e)))
    (let! sn_upd :=
       for_loop (sn_fuel e)
         (fun sn_upd e => rx_mod_base e sn_upd <? rx_mod_base e (rx_next_highest (st e)))
         (fun sn_upd => (sn_upd + 1) mod mod_ e)
         rx_next_step
         (rx_next (st e) mod mod_ e) in
     modify (set_rx_next sn_upd)).

(** Conditions to stop a running t-Reassembly. *)
Definition stop_reassembly_timer : H unit :=
  let! e := get in
  when (is_running (reassembly_timer e))
    (let! no_gap :=
       (if rx_mod_base e (rx_next_status_trigger (st e)) =? rx_mod_base e (u32 (rx_next (st e) + 1)) then
          let! info := window_at (rx_next (st e)) in ret (negb (has_gap info))
        else ret false) in
     when ((rx_next_status_trigger (st e) =? rx_next (st e)) || no_gap ||
           negb (inside_rx_window e (rx_next_status_trigger (st e))))
       (modify (set_reassembly_timer (timer_stop (reassembly_timer e))))).

Definition run_reassembly_timer : H unit :=
  let! e := get in
  let! tm := timer_run (reassembly_timer e) in
  modify (set_reassembly_timer tm) ;;;
  modify (set_rx_next_status_trigger (rx_next_highest (st e))).

(** [restart_reassembly_timer] relative to [base]: data is missing below RX_Next_Highest. *)
Definition restart_needed (base : Z) : H bool :=
  let! e := get in
  let nh := rx_mod_base e (rx_next_highest (st e)) in
  let next := rx_mod_base e (u32 (base + 1)) in
  let! gap := (if nh =? next then
                 if has_sn e base then let! info := window_at base in ret (has_gap info) else ret false
               else ret false) in
  ret ((next <? nh) || gap).

Definition start_reassembly_timer : H unit :=
  let! e := get in
  when (negb (is_running (reassembly_timer e)))
    (let! restart := restart_needed (rx_next (st e)) in
     when restart run_reassembly_timer).

(** A PDU inside the window that is no duplicate. *)
Definition handle_window_pdu (alloc : option Z) (header : rlc_am_pdu_header) (payload : list Z) : H bool :=
  let! status_changed := place_in_window header payload in
  let! complete := is_fully_received (sn header) in
  when complete
    (deliver_sdu alloc (sn header) ;;;
     update_rx_highest_status (sn header) ;;;
     update_rx_next (sn header)) ;;;
  stop_reassembly_timer ;;;
  start_reassembly_timer ;;;
  ret status_changed.

(** The body of [handle_data_pdu]: the values of [status_changed] and [status_requested] when it
    returns. *)
Definition handle_data_pdu_body (alloc : option Z) (buf : list Z) : H (bool * bool) :=
  let! e := get in
  match rlc_am_read_data_pdu_header buf (rxam_sn_field_length (cfg e)) with
  | Fault _ => abort
  | Ok None => emit (metrics_add_malformed_pdus 1) ;;; ret (false, false)
  | Ok (Some header) =>
      let header_len := get_packed_size header in
      if zlen buf <=? header_len then ret (false, false) else
      let payload := drop (Z.to_nat header_len) buf in
      let status_requested := negb (p header =? 0) in
      if negb (inside_rx_window e (sn header)) then ret (false, status_requested) else
      let! duplicate := is_fully_received (sn header) in
      if duplicate then ret (false, status_requested) else
      let! status_changed := handle_window_pdu alloc header payload in
      ret (status_changed, status_requested)
  end.

(** The scope exit of [handle_data_pdu]. *)
Definition on_function_exit (status_changed status_requested : bool) : H unit :=
  when (status_changed || status_requested) refresh_status_report ;;;
  when status_requested (modify (set_do_status true)) ;;;
  when (status_changed || status_requested) notify_status_report_changed.

Definition handle_data_pdu (alloc : option Z) (buf : list Z) : H unit :=
  let! r := handle_data_pdu_body alloc buf in
  on_function_exit (fst r) (snd r).

Definition handle_control_pdu (buf : list Z) : H unit :=
  let! e := get in
  match unpack (new_status_pdu (rxam_sn_field_length (cfg e))) buf with
  | Fault _ => abort
  | Ok (status_pdu, true) => emit (on_status_pdu status_pdu)
  | Ok (_, false) => ret tt
  end.

Definition handle_pdu (alloc : option Z) (buf : list Z) : H unit :=
  emit (metrics_add_pdus 1 (zlen buf)) ;;;
  match buf with
  | [] => ret tt
  | _ =>
      emit (pcap_push_pdu buf) ;;;
      let! control := is_control_pdu buf in
      if control then
        emit (metrics_add_ctrl_pdus 1 (zlen buf)) ;;; handle_control_pdu buf
      else handle_data_pdu alloc buf
  end.

(** ** Timers and shutdown *)

Definition on_expired_status_prohibit_timer : H unit :=
  modify (set_status_prohibit_timer_is_running false) ;;;
  notify_status_report_changed.

(** RX_Highest_Status moves to the first SDU at or after RX_Next_Status_Trigger that is not complete,
    and t-Reassembly is restarted when data is missing beyond. *)
Definition update_after_expiry : H unit :=
  let! e := get in
  let! sn_upd :=
    for_loop (sn_fuel e)
      (fun sn_upd e => rx_mod_base e sn_upd <? rx_mod_base e (rx_next_highest (st e)))
      (fun sn_upd => (sn_upd + 1) mod mod_ e)
      (fun sn_upd => let! full := is_fully_received sn_upd in ret (negb full))
      (rx_next_status_trigger (st e)) in
  assert_ (valid_ack_sn e sn_upd) ;;;
  modify (set_rx_highest_status sn_upd) ;;;
  let! restart := restart_needed sn_upd in
  when restart run_reassembly_timer.

Definition on_expired_reassembly_timer : H unit :=
  let! e := get in
  if is_running (reassembly_timer e) then ret tt else
  if negb (valid_ack_sn e (rx_next_status_trigger (st e))) then ret tt else
  update_after_expiry ;;;
  refresh_status_report ;;;
  modify (set_do_status true) ;;;
  notify_status_report_changed.

(** The expiry tasks of the two timers, in the UE executor. *)
Definition status_prohibit_timeout (epoch : Z) : H unit :=
  let! e := get in
  let! r := timeout_task (status_prohibit_timer e) epoch in
  modify (set_status_prohibit_timer (fst r)) ;;;
  when (snd r) on_expired_status_prohibit_timer.

Definition reassembly_timeout (epoch : Z) : H unit :=
  let! e := get in
  let! r := timeout_task (reassembly_timer e) epoch in
  modify (set_reassembly_timer (fst r)) ;;;
  when (snd r) on_expired_reassembly_timer.

Definition stop (e : rlc_rx_am_entity) : rlc_rx_am_entity :=
  if stopped e then e else
  set_stopped true
    (set_reassembly_timer (timer_stop (reassembly_timer e))
       (set_status_prohibit_timer (timer_stop (status_prohibit_timer e)) e)).

End RlcRxAm.
