(* ===== verification/RlcRxAmWindow.v ===== *)
(** * RLC AM receiving entity: the receive window

    The window invariant of the receiving entity and what each piece of [handle_data_pdu] does to it.
    The invariant is indexed by the absolute number [R] of RX_Next (sequence numbers counted without
    wrap-around), and by what a stored segment ([P]) and a complete SDU ([F]) of an absolute number
    satisfy: instantiated with [True] it is the safety invariant against an arbitrary peer, with the
    SDUs a sender numbered it gives the integrity of delivery. *)

From S2P Require Import Prelude Effects Window RlcConfig RlcAmPdu RlcAmPduFacts Timers Segments RlcRxAm.
Import AmHeader RlcAmPdu.StatusPdu RlcRxAm.
Open Scope Z_scope.
Open Scope entity_scope.

(** The SDU info stored under a sequence number, and whether its SDU is complete. *)
Definition win (e : rlc_rx_am_entity) (sn : Z) : option rlc_rx_am_sdu_info :=
  CircularMap.lookup (rx_window e) sn.
Definition complete (e : rlc_rx_am_entity) (sn : Z) : bool :=
  match win e sn with Some info => fully_received info | None => false end.

(** Distance of a sequence number from RX_Next. *)
Definition dist (e : rlc_rx_am_entity) (sn : Z) : Z := sn_diff (mod_ e) (rx_next (st e)) sn.

(** Absolute number of RX_Next after an operation, when it was [R] before. *)
Definition next_abs (R : Z) (e e' : rlc_rx_am_entity) : Z := R + dist e (rx_next (st e')).

(** A sequence number of the ring. *)
Definition is_sn (e : rlc_rx_am_entity) (sn : Z) : Prop := 0 <= sn < mod_ e.

(** Everything but the receive window, the state variables and t-Reassembly is as before. *)
Record frame (e e' : rlc_rx_am_entity) : Prop := {
  fr_cfg : cfg e' = cfg e;
  fr_max : max_nof_sn_per_status_report e' = max_nof_sn_per_status_report e;
  fr_do : do_status e' = do_status e;
  fr_buf : status_buf e' = status_buf e;
  fr_w : status_owned_by_writer e' = status_owned_by_writer e;
  fr_x : status_for_exchange e' = status_for_exchange e;
  fr_r : status_owned_by_reader e' = status_owned_by_reader e;
  fr_size : status_report_size e' = status_report_size e;
  fr_pr : status_prohibit_timer_is_running e' = status_prohibit_timer_is_running e;
  fr_pt : status_prohibit_timer e' = status_prohibit_timer e;
  fr_stop : stopped e' = stopped e
}.

#[export] Instance frame_preorder : PreOrder frame.
Proof.
  split; [done|]. intros a b c [] []. split; congruence.
Qed.

Lemma frame_mod e e' : frame e e' -> mod_ e' = mod_ e.
Proof. intros [E _ _ _ _ _ _ _ _ _ _]. unfold mod_. by rewrite E. Qed.

Section ring.
Context (e : rlc_rx_am_entity).

Lemma ring_sizes :
  0 < am_window_size e /\ mod_ e = 2 * am_window_size e /\ (mod_ e | 2 ^ 32) /\
  am_window_size e = 2 ^ (to_number_am_sn (rxam_sn_field_length (cfg e)) - 1) /\
  mod_ e <= 262144 /\ 2048 <= am_window_size e.
Proof. apply am_ring_sizes. Qed.

Lemma mod_pos : 0 < mod_ e.
Proof. pose proof ring_sizes. lia. Qed.

Lemma rx_mod_base_dist sn : rx_mod_base e sn = dist e sn.
Proof. unfold rx_mod_base, dist, sn_diff. apply u32_mod; [apply mod_pos|apply ring_sizes]. Qed.

Lemma dist_range sn : 0 <= dist e sn < mod_ e.
Proof. apply sn_diff_range, mod_pos. Qed.

Lemma dist_u32 sn : dist e (u32 sn) = dist e sn.
Proof.
  unfold dist, sn_diff. rewrite Zminus_mod, u32_mod, <- Zminus_mod; [done|apply mod_pos|apply ring_sizes].
Qed.

Lemma dist_next : dist e (rx_next (st e)) = 0.
Proof. apply sn_diff_self, mod_pos. Qed.

Lemma dist_inj x y : is_sn e x -> is_sn e y -> dist e x = dist e y -> x = y.
Proof. apply sn_diff_inj, mod_pos. Qed.

Lemma dist_succ x : dist e x + 1 < mod_ e -> dist e ((x + 1) mod mod_ e) = dist e x + 1.
Proof. apply sn_diff_succ, mod_pos. Qed.

Lemma dist_succ' x : dist e x + 1 < mod_ e -> dist e (x + 1) = dist e x + 1.
Proof. apply sn_diff_succ', mod_pos. Qed.

Lemma is_sn_mod x : is_sn e (x mod mod_ e).
Proof. apply Z.mod_pos_bound, mod_pos. Qed.

Lemma is_sn_u32 x : is_sn e x -> u32 x = x.
Proof. intros [??]. pose proof ring_sizes. apply u32_small. lia. Qed.

Lemma has_sn_win sn : is_sn e sn -> has_sn e sn = match win e sn with Some _ => true | None => false end.
Proof. intros Hsn. unfold has_sn, SduWindow.has_sn. rewrite is_sn_u32 by done. apply CircularMap.contains_lookup. Qed.

Lemma wp_window_at sn info (Q : rlc_rx_am_sdu_info -> rlc_rx_am_entity -> list rx_event -> Prop) :
  is_sn e sn -> win e sn = Some info -> Q info e [] -> wp (window_at sn) Q e.
Proof.
  intros Hsn Hw HQ. unfold window_at. wp_step. wp_step. unfold SduWindow.index.
  rewrite is_sn_u32 by done. by eapply CircularMap.wp_at.
Qed.

Lemma wp_is_fully_received sn (Q : bool -> rlc_rx_am_entity -> list rx_event -> Prop) :
  is_sn e sn -> Q (complete e sn) e [] -> wp (is_fully_received sn) Q e.
Proof.
  intros Hsn HQ. unfold is_fully_received, complete in *. wp_step. wp_step. rewrite has_sn_win by done.
  destruct (win e sn) as [info|] eqn:E; [|by wp_step].
  wp_step. eapply wp_window_at; [done..|]. by wp_step.
Qed.
End ring.

(** [rx_mod_base] as a distance, everywhere. *)
Ltac to_dist := rewrite ?rx_mod_base_dist, ?dist_u32 in *.

(** ** The invariant *)
Section window.
Context (P : Z -> rlc_rx_am_sdu_segment -> Prop) (F : Z -> list Z -> Prop).

(** What is stored under the sequence number of absolute number [k]: a delivered SDU, of which
    only the flags are kept, or the segments of an incomplete one. *)
Definition info_done (info : rlc_rx_am_sdu_info) : Prop :=
  fully_received info = true /\ has_gap info = false /\ sdu_data info = full_data [].
Definition info_open (k : Z) (info : rlc_rx_am_sdu_info) : Prop :=
  fully_received info = false /\ exists l, sdu_data info = segment_set l /\ chain 0 l /\
    Forall (P k) l /\ inventory_loop 0 l = (has_gap info, false).
Definition info_ok (k : Z) (info : rlc_rx_am_sdu_info) : Prop := info_done info \/ info_open k info.

(** A complete SDU that is about to be delivered. *)
Definition info_full (k : Z) (info : rlc_rx_am_sdu_info) : Prop :=
  fully_received info = true /\ has_gap info = false /\
  match sdu_data info with
  | full_data payload => F k payload
  | segment_set l => F k (concat (map sg_payload l))
  end.

(** [exc]: the sequence number whose SDU may await delivery. *)
Record win_inv (R : Z) (exc : option Z) (e : rlc_rx_am_entity) : Prop := {
  wi_R : R mod mod_ e = rx_next (st e);
  wi_next : is_sn e (rx_next (st e));
  wi_trig : is_sn e (rx_next_status_trigger (st e));
  wi_hs : is_sn e (rx_highest_status (st e));
  wi_nh : is_sn e (rx_next_highest (st e));
  wi_hs_nh : dist e (rx_highest_status (st e)) <= dist e (rx_next_highest (st e));
  wi_nh_w : dist e (rx_next_highest (st e)) <= am_window_size e;
  wi_wf : CircularMap.wf (rx_window e);
  wi_cap : CircularMap.capacity (rx_window e) = am_window_size e;
  wi_keys : forall sn info, win e sn = Some info ->
    is_sn e sn /\ dist e sn < dist e (rx_next_highest (st e)) /\
    (info_ok (R + dist e sn) info \/ (exc = Some sn /\ info_full (R + dist e sn) info));
  wi_last : 0 < dist e (rx_next_highest (st e)) ->
    win e ((rx_next_highest (st e) - 1) mod mod_ e) <> None
}.

Lemma complete_before_nh R exc e sn :
  win_inv R exc e -> complete e sn = true ->
  is_sn e sn /\ dist e sn < dist e (rx_next_highest (st e)).
Proof.
  intros Hi. unfold complete. destruct (win e sn) as [info|] eqn:E; [|done].
  intros _. destruct (wi_keys _ _ _ Hi _ _ E) as (? & ? & _). done.
Qed.

(** A sequence number one step further, below RX_Next_Highest. *)
Lemma dist_step R exc e x :
  win_inv R exc e -> dist e x < dist e (rx_next_highest (st e)) ->
  dist e ((x + 1) mod mod_ e) = dist e x + 1.
Proof.
  intros Hi Hx. apply dist_succ. pose proof (wi_nh_w _ _ _ Hi). pose proof (ring_sizes e). lia.
Qed.

(** The search for the first incomplete SDU from [x0] on. *)
Lemma wp_scan R exc e x0 (Q : Z -> rlc_rx_am_entity -> list rx_event -> Prop) :
  win_inv R exc e -> is_sn e x0 -> dist e x0 <= dist e (rx_next_highest (st e)) ->
  (forall x, is_sn e x -> dist e x0 <= dist e x <= dist e (rx_next_highest (st e)) ->
     (forall y, is_sn e y -> dist e x0 <= dist e y < dist e x -> complete e y = true) ->
     complete e x = false -> Q x e []) ->
  wp (for_loop (sn_fuel e)
        (fun sn_upd e => rx_mod_base e sn_upd <? rx_mod_base e (rx_next_highest (st e)))
        (fun sn_upd => (sn_upd + 1) mod mod_ e)
        (fun sn_upd => let! full := is_fully_received sn_upd in ret (negb full)) x0) Q e.
Proof.
  intros Hi Hx0 Hle HQ.
  apply (wp_for_loop (fun n x s es => s = e /\ es = [] /\ is_sn e x /\
    dist e x0 <= dist e x <= dist e (rx_next_highest (st e)) /\
    (forall y, is_sn e y -> dist e x0 <= dist e y < dist e x -> complete e y = true) /\
    dist e (rx_next_highest (st e)) - dist e x <= Z.of_nat n)).
  - split_and!; try done; try lia. pose proof (dist_range e x0). pose proof (mod_pos e).
    pose proof (dist_range e (rx_next_highest (st e))). unfold sn_fuel. lia.
  - intros n x s es (-> & -> & Hx & Hr & Hall & _) Hc. to_dist. bool_prop. apply HQ; try done.
    apply not_true_iff_false. intros [_ Hlt]%(complete_before_nh _ _ _ _ Hi). lia.
  - intros x s es (-> & _ & _ & _ & _ & Hn). to_dist. apply Z.ltb_ge. lia.
  - intros n x s es (-> & -> & Hx & Hr & Hall & Hn) Hc. to_dist. bool_prop.
    wp_step. apply wp_is_fully_received; [done|]. wp_step. destruct (complete e x) eqn:Ex; simpl.
    + pose proof (dist_step _ _ _ _ Hi Hc) as E. do 2 (split; [done|]). split; [apply is_sn_mod|].
      split; [lia|]. split; [|lia].
      * intros y Hy Hd. destruct (decide (dist e y = dist e x)) as [Eq|Ne].
        -- by rewrite (dist_inj e y x).
        -- apply Hall; [done|lia].
    + apply HQ; done.
Qed.

(** *** Writing one entry *)

(** [e'] is [e] with [info] stored under [sn]. *)
Record upd (sn : Z) (info : rlc_rx_am_sdu_info) (e e' : rlc_rx_am_entity) : Prop := {
  up_frame : frame e e';
  up_st : st e' = st e;
  up_tm : reassembly_timer e' = reassembly_timer e;
  up_wf : CircularMap.wf (rx_window e');
  up_cap : CircularMap.capacity (rx_window e') = am_window_size e;
  up_win : forall k, win e' k = if k =? sn then Some info else win e k
}.

Lemma upd_trans sn i j e1 e2 e3 : upd sn i e1 e2 -> upd sn j e2 e3 -> upd sn j e1 e3.
Proof.
  intros [A1 A2 A3 A4 A5 A6] [B1 B2 B3 B4 B5 B6].
  split; [by etrans|congruence|congruence|done| |].
  - rewrite B5. unfold am_window_size. by rewrite (fr_cfg _ _ A1).
  - intros k. rewrite B6, A6. by destruct (k =? sn).
Qed.

Lemma upd_dist sn info e e' x : upd sn info e e' -> dist e' x = dist e x /\ mod_ e' = mod_ e.
Proof.
  intros [A1 A2 _ _ _ _]. unfold dist. rewrite A2. by rewrite (frame_mod _ _ A1).
Qed.

Lemma wp_window_set e sn info0 info :
  is_sn e sn -> win e sn = Some info0 -> CircularMap.wf (rx_window e) ->
  CircularMap.capacity (rx_window e) = am_window_size e ->
  wp (window_set sn info) (fun _ e' es => es = [] /\ upd sn info e e') e.
Proof.
  intros Hsn Hw Hwf Hcap. unfold window_set. rewrite (is_sn_u32 e) by done.
  wp_step. split; [done|]. split; try done.
  - by apply CircularMap.wf_set_at.
  - simpl. by rewrite CircularMap.capacity_set_at.
  - intros k. unfold win. simpl. rewrite CircularMap.lookup_set_at.
    destruct (k =? sn); [|done].
    assert (CircularMap.contains (rx_window e) sn = true) as ->; [|done].
    apply CircularMap.contains_true. eauto.
Qed.

Lemma wp_window_set_upd e sn i j e1 :
  is_sn e sn -> upd sn i e e1 ->
  wp (window_set sn j) (fun _ e2 es => es = [] /\ upd sn j e e2) e1.
Proof.
  intros Hsn U. eapply wp_mono.
  - apply (wp_window_set e1 _ i); try apply U.
    + unfold is_sn. by rewrite (proj2 (upd_dist _ _ _ _ 0 U)).
    + rewrite (up_win _ _ _ _ U). by rewrite Z.eqb_refl.
    + rewrite (up_cap _ _ _ _ U). unfold am_window_size. by rewrite (fr_cfg _ _ (up_frame _ _ _ _ U)).
  - cbv beta. intros _ e2 es [-> U2]. split; [done|]. by eapply upd_trans.
Qed.

(** No stored SDU shares a slot with a number of the window. *)
Lemma window_slot_free R e sn k :
  win_inv R None e -> is_sn e sn -> dist e sn < am_window_size e -> k <> sn ->
  CircularMap.get_circular_idx (rx_window e) k = CircularMap.get_circular_idx (rx_window e) sn ->
  win e k = None.
Proof.
  intros Hi Hsn Hd Hne Hslot. destruct (win e k) as [info|] eqn:E; [|done]. exfalso.
  destruct (wi_keys _ _ _ Hi _ _ E) as (Hk & Hkd & _).
  pose proof (ring_sizes e) as (W1 & W2 & W3 & W4 & W5 & W6).
  pose proof (wi_nh_w _ _ _ Hi). apply Hne. apply (dist_inj e); [done..|].
  set (j := to_number_am_sn (rxam_sn_field_length (cfg e)) - 1) in *.
  assert (0 <= j) by (subst j; destruct (rxam_sn_field_length (cfg e)); simpl; lia).
  rewrite !(circular_idx_mod _ j), (wi_cap _ _ _ Hi) in Hslot
    by (rewrite ?(wi_cap _ _ _ Hi), ?W4; done).
  apply (slot_inj (mod_ e) (am_window_size e) (rx_next (st e))); try done; try lia.
  - exists 2. lia.
  - unfold dist in *. lia.
Qed.

Lemma wp_get_or_add_sn R e sn :
  win_inv R None e -> is_sn e sn -> dist e sn < am_window_size e ->
  wp (get_or_add_sn sn) (fun info e' es => es = [] /\ upd sn info e e' /\
    info = match win e sn with Some i => i | None => sdu_info_default end) e.
Proof.
  intros Hi Hsn Hd. unfold get_or_add_sn. wp_step. wp_step. wp_step. rewrite has_sn_win by done.
  destruct (win e sn) as [info|] eqn:E.
  - wp_step. eapply wp_window_at; [done..|]. split; [done|]. split; [|done].
    split; try done; try apply Hi. intros k. destruct (Z.eqb_spec k sn) as [->|]; [by rewrite E|done].
  - wp_step. unfold SduWindow.add_sn. pose proof (has_sn_win e sn Hsn) as Hh. rewrite E in Hh.
    unfold has_sn in Hh. rewrite Hh. wp_step. wp_step.
    set (e' := set_rx_window _ e).
    assert (upd sn sdu_info_default e e') as U.
    { split; try done.
      - subst e'. simpl. apply CircularMap.wf_overwrite, Hi.
      - subst e'. simpl. rewrite CircularMap.capacity_overwrite; apply Hi.
      - intros k. unfold win. subst e'. simpl. rewrite CircularMap.lookup_overwrite by apply Hi.
        destruct (Z.eqb_spec k sn) as [|Hne]; [done|].
        destruct (Z.eqb_spec (CircularMap.get_circular_idx (rx_window e) k)
          (CircularMap.get_circular_idx (rx_window e) sn)) as [Hs|Hs]; [|done].
        symmetry. by eapply window_slot_free. }
    apply (wp_window_at e' sn sdu_info_default).
    + unfold is_sn. by rewrite (proj2 (upd_dist _ _ _ _ 0 U)).
    + rewrite (up_win _ _ _ _ U), Z.eqb_refl. done.
    + done.
Qed.

(** *** Placing a PDU *)
Context (P_advance : forall k s n, seg_fits s -> sg_so s <= n < seg_end s -> P k s ->
           P k (advance_segment s (u32 (n - sg_so s)) n))
  (F_segments : forall k l, chain 0 l -> Forall (P k) l -> snd (inventory_loop 0 l) = true ->
     F k (concat (map sg_payload l))).

(** What the PDU of absolute number [k] carries. *)
Definition arrives (k : Z) (header : rlc_am_pdu_header) (payload : list Z) : Prop :=
  if si_eqb (si header) full_sdu then F k payload
  else let segment := mk_segment (si header) (so header) payload in P k segment /\ seg_fits segment.

(** The entry of a placed PDU, and that nothing else changed; a PDU that brought no new byte
    ([changed = false]) leaves its entry as it was. *)
Definition placed (R sn : Z) (changed : bool) (e : rlc_rx_am_entity) (e' : rlc_rx_am_entity) : Prop :=
  exists info, upd sn info e e' /\
    (info_open (R + dist e sn) info \/ info_full (R + dist e sn) info) /\
    (changed = false -> win e sn = Some info).

Lemma wp_handle_full_data_sdu R e header payload :
  win_inv R None e -> is_sn e (sn header) -> dist e (sn header) < am_window_size e ->
  si header = full_sdu -> F (R + dist e (sn header)) payload ->
  wp (handle_full_data_sdu header payload)
     (fun r e' es => es = [] /\ placed R (sn header) r e e') e.
Proof.
  intros Hi Hsn Hd Hsi HF. unfold handle_full_data_sdu. rewrite Hsi. simpl.
  wp_step. eapply wp_mono; [by eapply wp_get_or_add_sn|]. cbv beta.
  intros info e1 es (-> & U1 & _). wp_step. simpl.
  eapply wp_mono; [by eapply wp_window_set_upd|]. cbv beta. intros _ e2 es (-> & U2). wp_step.
  split; [done|].
  eexists. split; [done|]. split; [right; by split_and!|done].
Qed.

Lemma info_after_store k info segment :
  match info with Some i => info_ok k i /\ fully_received i = false | None => True end ->
  P k segment -> seg_fits segment ->
  let i := match info with Some i => i | None => sdu_info_default end in
  exists l stored gap full, info_store_segment i segment =
      (mk_info (fully_received i) (has_gap i) (segment_set l), stored) /\
    segment_inventory l = (gap, full) /\
    (info_open k (mk_info full gap (segment_set l)) \/ info_full k (mk_info full gap (segment_set l))) /\
    (stored = false -> info = Some (mk_info full gap (segment_set l))).
Proof.
  intros Hinfo HP Hfit i.
  set (l0 := match sdu_data i with segment_set l => l | full_data _ => [] end).
  assert (chain 0 l0 /\ Forall (P k) l0) as [Hc Hall].
  { subst i l0. destruct info as [i|]; simpl; [|done].
    destruct Hinfo as [[(Hf & _)|(_ & l & -> & ? & ? & _)] ?]; [congruence|done]. }
  destruct (store_segment_spec (P k) (P_advance k) l0 segment) as [S1 S2 _ S4 _]; try done.
  assert (l0 = [] -> snd (store_segment l0 segment) = true) as S6 by (by intros ->).
  unfold info_store_segment. fold l0. destruct (store_segment l0 segment) as [l stored].
  simpl in S1, S2, S4, S6.
  destruct (inventory_loop 0 l) as [gap full] eqn:E. exists l, stored, gap, full.
  split; [done|]. split; [by rewrite segment_inventory_loop|]. split.
  2: { intros Hst. specialize (S4 Hst). subst l. subst l0 i. destruct info as [i|]; simpl in *.
    - destruct Hinfo as [[(Hf & _)|(_ & l & El & ? & ? & Hinv)] Hfr]; [congruence|].
      rewrite El in *. rewrite Hinv in E. injection E as <- <-. f_equal. destruct i; simpl in *. by subst.
    - by rewrite S6 in Hst. }
  destruct full.
  - right. split; [done|]. simpl. destruct (inventory_gap 0 l) as [Hg _]; [lia|done|].
    rewrite E in Hg. simpl in Hg. split.
    + destruct gap; [|done]. by destruct Hg.
    + apply F_segments; [done..|]. by rewrite E.
  - left. split; [done|]. exists l. by split_and!.
Qed.

Lemma wp_handle_segment_data_sdu R e header payload :
  win_inv R None e -> is_sn e (sn header) -> dist e (sn header) < am_window_size e ->
  complete e (sn header) = false -> si_eqb (si header) full_sdu = false ->
  (let segment := mk_segment (si header) (so header) payload in
   P (R + dist e (sn header)) segment /\ seg_fits segment) ->
  wp (handle_segment_data_sdu header payload)
     (fun r e' es => es = [] /\ placed R (sn header) r e e') e.
Proof.
  intros Hi Hsn Hd Hnc Hsi [HP Hfit]. unfold handle_segment_data_sdu. rewrite Hsi.
  wp_step. eapply wp_mono; [by eapply wp_get_or_add_sn|]. cbv beta.
  intros info e1 es (-> & U1 & Einfo).
  destruct (info_after_store (R + dist e (sn header)) (win e (sn header))
    (mk_segment (si header) (so header) payload)) as (l & stored & gap & full & E1 & E2 & Hok & Hst); [|done..|].
  { unfold complete in Hnc. destruct (win e (sn header)) as [i|] eqn:Ei; [|done].
    destruct (wi_keys _ _ _ Hi _ _ Ei) as (_ & _ & [?|[? _]]); done. }
  rewrite <- Einfo in E1. rewrite E1. wp_step.
  eapply wp_mono; [by eapply wp_window_set_upd|]. cbv beta. intros _ e2 es (-> & U2).
  wp_step. unfold update_segment_inventory. simpl. rewrite E2. wp_step. wp_step.
  eapply wp_mono; [by eapply wp_window_set_upd|]. cbv beta. intros _ e3 es (-> & U3).
  wp_step. split; [done|]. eexists. split; [done|]. by split.
Qed.

(** State variables other than RX_Next_Highest are as before. *)
Record same_but_nh (e e' : rlc_rx_am_entity) : Prop := {
  sn_frame : frame e e';
  sn_tm : reassembly_timer e' = reassembly_timer e;
  sn_next : rx_next (st e') = rx_next (st e);
  sn_trig : rx_next_status_trigger (st e') = rx_next_status_trigger (st e);
  sn_hs : rx_highest_status (st e') = rx_highest_status (st e)
}.

Lemma same_dist e e' x : frame e e' -> rx_next (st e') = rx_next (st e) -> dist e' x = dist e x.
Proof. intros Hf E. unfold dist. by rewrite E, (frame_mod _ _ Hf). Qed.

Lemma mod_pred_succ e x : is_sn e x -> ((x + 1) mod mod_ e - 1) mod mod_ e = x.
Proof. intros Hx. rewrite Zminus_mod_idemp_l. replace (x + 1 - 1) with x by lia. by apply Z.mod_small. Qed.

Lemma placed_win_inv R e sn changed e1 :
  win_inv R None e -> is_sn e sn -> dist e sn < am_window_size e -> placed R sn changed e e1 ->
  let nh := if dist e (rx_next_highest (st e)) <=? dist e sn then (sn + 1) mod mod_ e
            else rx_next_highest (st e) in
  let e' := set_rx_next_highest nh e1 in
  same_but_nh e e' /\ win_inv R (Some sn) e' /\ (exists info, win e' sn = Some info /\ (info_open (R + dist e sn) info \/ info_full (R + dist e sn) info)) /\
  (forall k, k <> sn -> win e' k = win e k) /\
  dist e (rx_next_highest (st e)) <= dist e (rx_next_highest (st e')) /\
  dist e sn < dist e (rx_next_highest (st e')) /\
  (changed = false -> (forall k, win e' k = win e k) /\ st e' = st e).
Proof.
  intros Hi Hsn Hd (info & U & Hok & Hch) nh e'.
  pose proof (ring_sizes e) as (W1 & W2 & _ & _ & _ & W6). pose proof (wi_nh_w _ _ _ Hi) as Hnw.
  assert (Hsame : same_but_nh e e').
  { destruct U as [A1 A2 A3 _ _ _]. subst e'. split; simpl; rewrite ?A2; try done.
    destruct A1. split; done. }
  assert (dist e ((sn + 1) mod mod_ e) = dist e sn + 1) as Esucc by (apply dist_succ; lia).
  assert (Hdist : forall x, dist e' x = dist e x).
  { intros x. apply same_dist; apply Hsame. }
  assert (Hnh : rx_next_highest (st e') = nh) by done.
  assert (Hm : mod_ e' = mod_ e) by (apply frame_mod, Hsame).
  assert (Hw : am_window_size e' = am_window_size e).
  { unfold am_window_size. by rewrite (fr_cfg _ _ (sn_frame _ _ Hsame)). }
  assert (Hwin : forall k, win e' k = if k =? sn then Some info else win e k) by apply U.
  assert (Hnn : dist e (rx_next_highest (st e)) <= dist e nh /\ dist e sn < dist e nh /\
                dist e nh <= am_window_size e).
  { subst nh. destruct (Z.leb_spec (dist e (rx_next_highest (st e))) (dist e sn)); lia. }
  split; [done|]. split; [|split_and!; try tauto].
  - split; rewrite ?Hdist, ?Hnh, ?Hw, ?(sn_next _ _ Hsame), ?(sn_trig _ _ Hsame), ?(sn_hs _ _ Hsame);
      unfold is_sn; rewrite ?Hm; try apply Hi; try tauto.
    + subst nh. destruct (_ <=? _); [apply is_sn_mod|apply Hi].
    + pose proof (wi_hs_nh _ _ _ Hi). lia.
    + apply U.
    + rewrite <- (up_cap _ _ _ _ U). done.
    + intros k i. rewrite Hwin, Hdist. destruct (Z.eqb_spec k sn) as [->|Hne].
      * intros [= <-]. split; [done|]. split; [lia|]. unfold info_ok. tauto.
      * intros E. destruct (wi_keys _ _ _ Hi _ _ E) as (K1 & K2 & K3). split; [done|]. split; [lia|].
        left. by destruct K3 as [?|[? _]].
    + intros _. rewrite Hwin. subst nh. destruct (Z.leb_spec (dist e (rx_next_highest (st e))) (dist e sn)).
      * by rewrite mod_pred_succ, Z.eqb_refl.
      * destruct (_ =? sn); [done|]. apply (wi_last _ _ _ Hi). pose proof (dist_range e sn). lia.
  - exists info. by rewrite Hwin, Z.eqb_refl.
  - intros k Hk. rewrite Hwin. by destruct (Z.eqb_spec k sn).
  - intros Hf. specialize (Hch Hf). destruct (wi_keys _ _ _ Hi _ _ Hch) as (_ & Hlt & _). split.
    + intros k. rewrite Hwin. by destruct (Z.eqb_spec k sn) as [->|].
    + subst e' nh. simpl. destruct (Z.leb_spec (dist e (rx_next_highest (st e))) (dist e sn)); [lia|].
      rewrite (up_st _ _ _ _ U). by destruct (st e).
Qed.

Lemma wp_place_in_window R e header payload :
  let sn := sn header in
  win_inv R None e -> is_sn e sn -> dist e sn < am_window_size e ->
  complete e sn = false -> arrives (R + dist e sn) header payload ->
  wp (place_in_window header payload) (fun r e' es => es = [] /\
    same_but_nh e e' /\ win_inv R (Some sn) e' /\ (exists info, win e' sn = Some info /\ (info_open (R + dist e sn) info \/ info_full (R + dist e sn) info)) /\
    (forall k, k <> sn -> win e' k = win e k) /\
    dist e (rx_next_highest (st e)) <= dist e (rx_next_highest (st e')) /\
    dist e sn < dist e (rx_next_highest (st e')) /\
    (r = false -> (forall k, win e' k = win e k) /\ st e' = st e)) e.
Proof.
  intros sn0 Hi Hsn Hd Hnc Harr. subst sn0. unfold place_in_window. wp_step.
  assert (wp (if si_eqb (si header) full_sdu then handle_full_data_sdu header payload
              else handle_segment_data_sdu header payload)
            (fun r e' es => es = [] /\ placed R (sn header) r e e') e) as W.
  { unfold arrives in Harr. destruct (si_eqb (si header) full_sdu) eqn:E.
    - apply wp_handle_full_data_sdu; try done. by apply si_eqb_eq.
    - by apply wp_handle_segment_data_sdu. }
  eapply wp_mono; [exact W|]. cbv beta. intros r e1 es (-> & Hp).
  pose proof (placed_win_inv _ _ _ _ _ Hi Hsn Hd Hp) as G. cbv zeta in G.
  destruct Hp as (info & U & _). pose proof (up_st _ _ _ _ U) as Est.
  assert (forall x, rx_mod_base e1 x = dist e x) as Hb.
  { intros x. rewrite rx_mod_base_dist. by destruct (upd_dist _ _ _ _ x U). }
  assert (mod_ e1 = mod_ e) as Hm by apply (upd_dist _ _ _ _ 0 U).
  wp_step. wp_step. wp_step. rewrite !Hb, Est, Hm in *. wp_step.
  - wp_step. wp_step. split; [done|]. rewrite H0 in G. exact G.
  - wp_step. split; [done|]. rewrite H0 in G.
    replace (set_rx_next_highest (rx_next_highest (st e)) e1) with e1 in G; [exact G|].
    rewrite <- Est. by destruct e1 as [? [] ? ? ? ? ? ? ? ? ? ? ? ?].
Qed.

(** *** Delivery *)

(** The SDUs handed to the upper layer, in order. *)
Definition new_sdus (es : list rx_event) : list (list Z) :=
  omap (fun ev => match ev with on_new_sdu sdu => Some sdu | _ => None end) es.

Lemma new_sdus_app es es' : new_sdus (es ++ es') = new_sdus es ++ new_sdus es'.
Proof. apply omap_app. Qed.

Lemma chain_append_all_bytes max l : forall acc n r,
  chain_append_all max (acc, n) l = Some r -> fst r = acc ++ concat (map sg_payload l).
Proof.
  induction l as [|s l IH]; intros acc n r; simpl.
  - intros [= <-]. by rewrite app_nil_r.
  - unfold chain_append at 1. destruct (sg_payload s) as [|b bs] eqn:E; simpl.
    + apply IH.
    + destruct (n =? max); [done|]. simpl. intros Hr%IH. rewrite Hr. by rewrite <- app_assoc.
Qed.

Lemma reassemble_sdu_full k alloc info d :
  info_full k info -> reassemble_sdu alloc info = Some d -> F k d.
Proof.
  intros (Hf & _ & HF). unfold reassemble_sdu. rewrite Hf. simpl.
  destruct alloc as [max|]; [|done]. simpl. destruct (sdu_data info) as [pl|l].
  - unfold chain_append. destruct pl as [|b bs]; [by intros [= <-]|].
    cbn [fst snd app]. destruct (0 =? max); [done|]. by intros [= <-].
  - intros (r & Hr%chain_append_all_bytes & ->)%fmap_Some. by rewrite Hr.
Qed.

Lemma upd_win_inv R e sn info e' :
  win_inv R (Some sn) e -> win e sn <> None -> upd sn info e e' -> info_ok (R + dist e sn) info ->
  win_inv R None e'.
Proof.
  intros Hi Hw U Hok. pose proof (up_win _ _ _ _ U) as Hwin.
  assert (forall x, dist e' x = dist e x) as Hd by (intros x; by destruct (upd_dist _ _ _ _ x U)).
  assert (mod_ e' = mod_ e) as Hm by apply (upd_dist _ _ _ _ 0 U).
  assert (am_window_size e' = am_window_size e) as HW.
  { unfold am_window_size. by rewrite (fr_cfg _ _ (up_frame _ _ _ _ U)). }
  split; rewrite ?Hd, ?HW, ?(up_st _ _ _ _ U); unfold is_sn; rewrite ?Hm; try apply Hi.
  - apply U.
  - apply U.
  - intros k i. rewrite Hwin, Hd. destruct (Z.eqb_spec k sn) as [->|Hne].
    + intros [= <-]. destruct (win e sn) as [j|] eqn:Ej; [|done].
      destruct (wi_keys _ _ _ Hi _ _ Ej) as (K1 & K2 & _). auto.
    + intros E. destruct (wi_keys _ _ _ Hi _ _ E) as (K1 & K2 & K3). split; [done|]. split; [done|].
      left. destruct K3 as [?|[[= ->] _]]; done.
  - intros Hpos. rewrite Hwin. destruct (_ =? sn); [done|]. by apply (wi_last _ _ _ Hi).
Qed.

Lemma wp_deliver_sdu R alloc e sn info :
  win_inv R (Some sn) e -> is_sn e sn -> win e sn = Some info -> info_full (R + dist e sn) info ->
  wp (deliver_sdu alloc sn) (fun _ e' es =>
    (new_sdus es = [] \/ exists d, new_sdus es = [d] /\ F (R + dist e sn) d) /\
    upd sn (mk_info true false (full_data [])) e e' /\ win_inv R None e') e.
Proof.
  intros Hi Hsn Hw Hfull. pose proof Hfull as (Hf & Hg & _). unfold deliver_sdu.
  wp_step. eapply wp_window_at; [done..|]. wp_step. rewrite Hf, Hg.
  assert (forall es0, (new_sdus es0 = [] \/ exists d, new_sdus es0 = [d] /\ F (R + dist e sn) d) ->
    wp (window_set sn (mk_info true false (full_data []))) (fun _ e' es =>
      (new_sdus (es0 ++ es) = [] \/ exists d, new_sdus (es0 ++ es) = [d] /\ F (R + dist e sn) d) /\
      upd sn (mk_info true false (full_data [])) e e' /\ win_inv R None e') e) as Hset.
  { intros es0 Hes. eapply wp_mono; [by eapply wp_window_set; try apply Hi|].
    cbv beta. intros _ e' es (-> & U). rewrite app_nil_r. split; [done|]. split; [done|].
    eapply upd_win_inv; [done| |done|by left]. congruence. }
  destruct (reassemble_sdu alloc info) as [d|] eqn:Er.
  - wp_step. wp_step. wp_step. apply (Hset [_; _]). right. exists d. split; [done|].
    by eapply reassemble_sdu_full.
  - wp_step. apply (Hset [_]). by left.
Qed.

(** *** RX_Highest_Status *)
Lemma wp_update_rx_highest_status R e sn :
  win_inv R None e -> is_sn e sn ->
  complete e (rx_highest_status (st e)) = false \/ sn = rx_highest_status (st e) ->
  complete e sn = true ->
  wp (update_rx_highest_status sn) (fun _ e' es => es = [] /\
    exists hs, e' = set_rx_highest_status hs e /\ is_sn e hs /\ complete e hs = false /\
      dist e hs <= dist e (rx_next_highest (st e))) e.
Proof.
  intros Hi Hsn Hopen Hc. unfold update_rx_highest_status. wp_step. wp_step. wp_step; to_dist; bool_prop.
  - assert (sn = rx_highest_status (st e)) as Esn by (apply (dist_inj e); [done|apply Hi|done]).
    destruct (complete_before_nh _ _ _ _ Hi Hc) as [_ Hlt].
    pose proof (dist_step _ _ _ _ Hi Hlt) as Estep. rewrite Esn in Estep, Hlt.
    wp_step. eapply wp_scan; [done|apply is_sn_mod|lia|]. intros x Hx Hr _ Hcx.
    wp_step. split; [done|]. exists x. do 3 (split; [done|]). lia.
  - split; [done|]. exists (rx_highest_status (st e)). split; [by destruct e as [? []]|].
    split; [apply Hi|]. split; [|apply Hi]. destruct Hopen as [?|E]; [done|]. by rewrite E in *.
Qed.

Lemma set_hs_win_inv R e hs :
  win_inv R None e -> is_sn e hs -> dist e hs <= dist e (rx_next_highest (st e)) ->
  win_inv R None (set_rx_highest_status hs e).
Proof. intros [] Hhs Hd. by split. Qed.

(** *** RX_Next *)

(** [s] is [e] with RX_Next unchanged and the SDUs before [x] removed from the window. *)
Record cleared (x : Z) (e s : rlc_rx_am_entity) : Prop := {
  cl_frame : frame e s;
  cl_st : st s = st e;
  cl_tm : reassembly_timer s = reassembly_timer e;
  cl_wf : CircularMap.wf (rx_window s);
  cl_cap : CircularMap.capacity (rx_window s) = am_window_size e;
  cl_win : forall k, win s k = if dist e k <? dist e x then None else win e k
}.

Lemma cleared_dist x e s y : cleared x e s -> dist s y = dist e y /\ mod_ s = mod_ e.
Proof.
  intros [A1 A2 _ _ _ _]. unfold dist. rewrite A2. by rewrite (frame_mod _ _ A1).
Qed.

Lemma complete_cleared x e s y :
  cleared x e s -> dist e x <= dist e y -> complete s y = complete e y.
Proof.
  intros C Hy. unfold complete. rewrite (cl_win _ _ _ C). by destruct (Z.ltb_spec (dist e y) (dist e x)); [lia|].
Qed.

(** Removing the complete SDU [x], the first one left. *)
Lemma wp_rx_next_step R e s x (Q : bool -> rlc_rx_am_entity -> list rx_event -> Prop) :
  win_inv R None e -> cleared x e s -> is_sn e x -> dist e x < dist e (rx_next_highest (st e)) ->
  (complete e x = false -> Q true s []) ->
  (forall s', complete e x = true -> cleared ((x + 1) mod mod_ e) e s' -> Q false s' []) ->
  wp (rx_next_step x) Q s.
Proof.
  intros Hi C Hx Hlt Htrue Hfalse. destruct (cleared_dist x e s x C) as [_ Em].
  assert (is_sn s x) as Hxs by (unfold is_sn; by rewrite Em).
  unfold rx_next_step. wp_step. apply wp_is_fully_received; [done|].
  rewrite (complete_cleared x e s x C) by lia.
  destruct (complete e x) eqn:Ex; [|wp_step; by apply Htrue].
  wp_step. wp_step. wp_step. unfold SduWindow.remove_sn, SduWindow.has_sn. rewrite (is_sn_u32 s) by done.
  assert (CircularMap.contains (rx_window s) x = true) as Hcont.
  { apply CircularMap.contains_true. fold (win s x). rewrite (cl_win _ _ _ C), Z.ltb_irrefl.
    unfold complete in Ex. destruct (win e x); [eauto|done]. }
  rewrite Hcont. simpl. wp_step. wp_step. wp_step. wp_step. apply Hfalse; [done|].
  destruct C as [C1 C2 C3 C4 C5 C6]. split; simpl.
  - etrans; [done|]. by split.
  - done.
  - done.
  - by apply CircularMap.wf_erase.
  - by rewrite CircularMap.capacity_erase.
  - intros k. unfold win. simpl. rewrite CircularMap.lookup_erase by done. fold (win s k). rewrite C6.
    rewrite (dist_step _ _ _ _ Hi Hlt).
    destruct (Z.eqb_spec k x) as [->|Hne].
    + destruct (Z.ltb_spec (dist e x) (dist e x + 1)); [done|lia].
    + destruct (Z.ltb_spec (dist e k) (dist e x)), (Z.ltb_spec (dist e k) (dist e x + 1)); try done; try lia.
      destruct (win e k) as [i|] eqn:Ek; [|done].
      destruct (wi_keys _ _ _ Hi _ _ Ek) as (Hk & _ & _).
      exfalso. apply Hne, (dist_inj e); [done|done|lia].
Qed.

Lemma wp_rx_next_loop R e (Q : Z -> rlc_rx_am_entity -> list rx_event -> Prop) :
  win_inv R None e ->
  (forall x s, cleared x e s -> is_sn e x -> dist e x <= dist e (rx_next_highest (st e)) ->
     (forall y, is_sn e y -> dist e y < dist e x -> complete e y = true) ->
     complete e x = false -> Q x s []) ->
  wp (for_loop (sn_fuel e)
        (fun sn_upd e => rx_mod_base e sn_upd <? rx_mod_base e (rx_next_highest (st e)))
        (fun sn_upd => (sn_upd + 1) mod mod_ e) rx_next_step (rx_next (st e))) Q e.
Proof.
  intros Hi HQ. pose proof (dist_next e) as E0.
  assert (forall x s, cleared x e s -> (rx_mod_base s x <? rx_mod_base s (rx_next_highest (st s))) =
    (dist e x <? dist e (rx_next_highest (st e)))) as Hcond.
  { intros x s C. to_dist. rewrite (cl_st _ _ _ C). by rewrite !(proj1 (cleared_dist x e s _ C)). }
  apply (wp_for_loop (fun n x s es => cleared x e s /\ es = [] /\ is_sn e x /\
    dist e x <= dist e (rx_next_highest (st e)) /\
    (forall y, is_sn e y -> dist e y < dist e x -> complete e y = true) /\
    dist e (rx_next_highest (st e)) - dist e x <= Z.of_nat n)).
  - pose proof (dist_range e (rx_next_highest (st e))). unfold sn_fuel.
    split; [|split; [done|split; [apply Hi|split; [lia|split; [|lia]]]]].
    + split; try done; try apply Hi. intros k. rewrite E0. pose proof (dist_range e k).
      by destruct (Z.ltb_spec (dist e k) 0); [lia|].
    + intros y _ Hy. pose proof (dist_range e y). lia.
  - intros n x s es (C & -> & Hx & Hr & Hall & _) Hc. rewrite Hcond in Hc by done. bool_prop.
    apply HQ; try done. apply not_true_iff_false. intros [_ Hlt]%(complete_before_nh _ _ _ _ Hi). lia.
  - intros x s es (C & _ & _ & _ & _ & Hn). rewrite Hcond by done. apply Z.ltb_ge. lia.
  - intros n x s es (C & -> & Hx & Hr & Hall & Hn) Hc. rewrite Hcond in Hc by done. bool_prop.
    eapply wp_rx_next_step; [done..| |].
    + intros Hcx. apply HQ; done.
    + intros s' Hcx C'. pose proof (dist_step _ _ _ _ Hi Hc) as E.
      split; [done|]. split; [done|]. split; [apply is_sn_mod|]. split; [lia|]. split; [|lia].
      intros y Hy Hd. destruct (decide (dist e y = dist e x)) as [Eq|Ne].
      * by rewrite (dist_inj e y x).
      * apply Hall; [done|lia].
Qed.

(** Moving RX_Next to the first SDU left keeps the invariant, on the rebased window. *)
Lemma cleared_win_inv R e s x :
  win_inv R None e -> cleared x e s -> is_sn e x -> dist e x <= dist e (rx_next_highest (st e)) ->
  dist e x <= dist e (rx_highest_status (st e)) ->
  let e' := set_rx_next x s in
  win_inv (R + dist e x) None e' /\
  (forall y, dist e x <= dist e y -> dist e' y = dist e y - dist e x).
Proof.
  intros Hi C Hx Hle Hhs e'.
  assert (mod_ e' = mod_ e) as Hm by apply (cleared_dist x e s 0 C).
  assert (am_window_size e' = am_window_size e) as HW.
  { unfold am_window_size. by rewrite (fr_cfg _ _ (cl_frame _ _ _ C) : cfg e' = cfg e). }
  assert (forall y, dist e x <= dist e y -> dist e' y = dist e y - dist e x) as Hre.
  { intros y Hy. unfold dist at 1. rewrite Hm. apply sn_diff_rebase; [apply mod_pos|done]. }
  split; [|done]. pose proof (cl_st _ _ _ C) as Est.
  assert (st e' = mk_state x (rx_next_status_trigger (st e)) (rx_highest_status (st e))
                    (rx_next_highest (st e))) as Est' by (simpl; by rewrite Est).
  split; rewrite ?Est', ?HW; cbn [rx_next rx_next_status_trigger rx_highest_status rx_next_highest];
    unfold is_sn; rewrite ?Hm; try apply Hi; try done; rewrite ?Hre by done.
  - pose proof (wi_R _ _ _ Hi). unfold dist, sn_diff.
    replace (R + (x - rx_next (st e)) mod mod_ e) with ((x - rx_next (st e)) mod mod_ e + R) by lia.
    rewrite Zplus_mod_idemp_l, <- (wi_R _ _ _ Hi).
    replace (x - R mod mod_ e + R) with (x + (R - R mod mod_ e)) by lia.
    rewrite <- Zplus_mod_idemp_r, Zminus_mod_idemp_r, Z.sub_diag, Z.mod_0_l by (pose proof (mod_pos e); lia).
    rewrite Z.add_0_r. by apply Z.mod_small.
  - pose proof (wi_hs_nh _ _ _ Hi). lia.
  - pose proof (wi_nh_w _ _ _ Hi). pose proof (dist_range e x). lia.
  - apply C.
  - apply C.
  - intros k i Hk. assert (win s k = Some i) as Hk' by exact Hk. rewrite (cl_win _ _ _ C) in Hk'.
    destruct (Z.ltb_spec (dist e k) (dist e x)) as [|Hge]; [done|].
    destruct (wi_keys _ _ _ Hi _ _ Hk') as (K1 & K2 & [K3|[? _]]); [|done].
    rewrite Hre by done. split; [done|]. split; [lia|]. left.
    by replace (R + dist e x + (dist e k - dist e x)) with (R + dist e k) by lia.
  - intros Hpos. change (win e' ?k) with (win s k). rewrite (cl_win _ _ _ C).
    pose proof (dist_range e x). pose proof (mod_pos e).
    assert (dist e ((rx_next_highest (st e) - 1) mod mod_ e) = dist e (rx_next_highest (st e)) - 1) as ->.
    { apply sn_diff_pred; [done|]. fold (dist e (rx_next_highest (st e))). lia. }
    destruct (Z.ltb_spec (dist e (rx_next_highest (st e)) - 1) (dist e x)); [lia|].
    apply (wi_last _ _ _ Hi). lia.
Qed.

Lemma wp_update_rx_next R e sn :
  win_inv R None e -> is_sn e sn -> complete e sn = true ->
  complete e (rx_highest_status (st e)) = false ->
  complete e (rx_next (st e)) = false \/ sn = rx_next (st e) ->
  wp (update_rx_next sn) (fun _ e' es => es = [] /\ exists x s,
    e' = set_rx_next x s /\ cleared x e s /\ is_sn e x /\ dist e x <= dist e (rx_next_highest (st e)) /\
    dist e x <= dist e (rx_highest_status (st e)) /\
    (forall y, is_sn e y -> dist e y < dist e x -> complete e y = true) /\
    complete e x = false) e.
Proof.
  intros Hi Hsn Hc Hhs Hopen. unfold update_rx_next. wp_step. wp_step. wp_step; to_dist; bool_prop.
  - wp_step. rewrite (Z.mod_small (rx_next (st e))) by apply Hi.
    eapply wp_rx_next_loop; [done|]. intros x s C Hx Hle Hall Hcx. wp_step. split; [done|].
    exists x, s. split; [done|]. split; [done|]. split; [done|]. split; [done|]. split; [|done].
    destruct (Z.le_gt_cases (dist e x) (dist e (rx_highest_status (st e)))) as [?|Hgt]; [done|].
    rewrite (Hall (rx_highest_status (st e))) in Hhs; [done|apply Hi|lia].
  - split; [done|]. exists (rx_next (st e)), e. pose proof (dist_next e) as E0.
    split; [by destruct e as [? []]|]. split; [|split; [apply Hi|]].
    + split; try done; try apply Hi. intros k. rewrite E0. pose proof (dist_range e k).
      by destruct (Z.ltb_spec (dist e k) 0); [lia|].
    + rewrite E0. pose proof (dist_range e (rx_next_highest (st e))).
      pose proof (dist_range e (rx_highest_status (st e))).
      split; [lia|]. split; [lia|]. split; [intros y _ Hy; pose proof (dist_range e y); lia|].
      destruct Hopen as [?|E]; [done|]. rewrite E, E0 in *. done.
Qed.

(** *** t-Reassembly *)

Definition gap_at (e : rlc_rx_am_entity) (sn : Z) : bool :=
  match win e sn with Some info => has_gap info | None => false end.

(** The number before RX_Next_Status_Trigger has been received, at least in part. *)
Definition trigger_ok (e : rlc_rx_am_entity) : Prop :=
  let trig := rx_next_status_trigger (st e) in
  0 < dist e trig <= dist e (rx_next_highest (st e)) /\ win e ((trig - 1) mod mod_ e) <> None.

(** Data is missing between [base] and RX_Next_Highest. *)
Definition missing_after (e : rlc_rx_am_entity) (base : Z) : bool :=
  (dist e base + 1 <? dist e (rx_next_highest (st e))) ||
  ((dist e (rx_next_highest (st e)) =? dist e base + 1) && gap_at e base).

Lemma wp_restart_needed e base (Q : bool -> rlc_rx_am_entity -> list rx_event -> Prop) :
  is_sn e base -> dist e base + 1 < mod_ e -> Q (missing_after e base) e [] ->
  wp (restart_needed base) Q e.
Proof.
  intros Hb Hd HQ. unfold restart_needed. do 3 wp_step. to_dist.
  rewrite dist_succ' by done. unfold missing_after in HQ.
  wp_step.
  - rewrite has_sn_win by done. unfold gap_at in HQ. rewrite H0, andb_true_l in HQ.
    destruct (win e base) as [i|] eqn:E.
    + wp_step. eapply wp_window_at; [done..|]. wp_step. wp_step. exact HQ.
    + wp_step. wp_step. exact HQ.
  - wp_step. wp_step. rewrite H0, andb_false_l in HQ. exact HQ.
Qed.

Lemma pred_of_next e trig : is_sn e trig -> dist e trig = 1 -> (trig - 1) mod mod_ e = rx_next (st e) mod mod_ e.
Proof.
  intros Ht Hd. pose proof (mod_pos e). unfold dist, sn_diff in Hd.
  replace (trig - 1) with (rx_next (st e) + ((trig - rx_next (st e)) - 1)) by lia.
  rewrite <- Zplus_mod_idemp_r, <- (Zminus_mod_idemp_l (trig - _)), Hd. simpl.
  rewrite Z.mod_0_l by lia. by rewrite Z.add_0_r.
Qed.

Lemma wp_stop_reassembly_timer R e :
  win_inv R None e ->
  (is_running (reassembly_timer e) = true -> trigger_ok e \/
     dist e (rx_next_status_trigger (st e)) = 0 \/
     am_window_size e <= dist e (rx_next_status_trigger (st e))) ->
  wp stop_reassembly_timer (fun _ e' es => es = [] /\ exists tm, e' = set_reassembly_timer tm e /\
    is_set tm = is_set (reassembly_timer e) /\ (is_running tm = true -> trigger_ok e)) e.
Proof.
  intros Hi Ht. unfold stop_reassembly_timer. wp_step. wp_step. wp_step.
  2: { split; [done|]. exists (reassembly_timer e). split; [by destruct e|]. split; [done|]. by rewrite H0. }
  specialize (Ht H0). set (trig := rx_next_status_trigger (st e)) in *.
  pose proof (ring_sizes e) as (W1 & W2 & _ & _ & _ & W6). pose proof (dist_next e) as E0.
  assert (is_sn e trig) as Htr by apply Hi.
  assert (forall b, ((trig =? rx_next (st e)) || b || negb (inside_rx_window e trig)) = false -> trigger_ok e) as Hkeep.
  { intros b Hb. bool_prop. destruct Ht as [?|[Hz|Hbig]]; [done| |].
    - exfalso. apply H1. apply (dist_inj e); [done|apply Hi|lia].
    - unfold inside_rx_window in *. to_dist. bool_prop. lia. }
  wp_step. to_dist. rewrite dist_succ', E0 by lia.
  assert (forall b, wp (when ((trig =? rx_next (st e)) || b || negb (inside_rx_window e trig))
     (modify (set_reassembly_timer (timer_stop (reassembly_timer e)))))
     (fun _ e' (es : list rx_event) => es = [] /\ exists tm, e' = set_reassembly_timer tm e /\
        is_set tm = is_set (reassembly_timer e) /\ (is_running tm = true -> trigger_ok e)) e) as Hwhen.
  { intros b. wp_step.
    - wp_step. split; [done|]. exists (timer_stop (reassembly_timer e)).
      rewrite is_set_stop, is_running_stop. done.
    - split; [done|]. exists (reassembly_timer e). split; [by destruct e|]. split; [done|].
      intros _. by eapply Hkeep. }
  wp_step.
  - bool_prop. destruct Ht as [[Hr Hw]|[?|?]]; [|lia|lia].
    fold trig in Hw. rewrite (pred_of_next e trig Htr) in Hw by lia.
    rewrite (Z.mod_small (rx_next (st e))) in Hw by apply Hi.
    destruct (win e (rx_next (st e))) as [i|] eqn:Ei; [|done].
    wp_step. eapply wp_window_at; [apply Hi|done|]. wp_step. apply Hwhen.
  - wp_step. apply Hwhen.
Qed.

Lemma wp_run_reassembly_timer e :
  is_set (reassembly_timer e) = true ->
  wp run_reassembly_timer (fun _ e' es => es = [] /\ exists tm, is_running tm = true /\ is_set tm = true /\
    e' = set_rx_next_status_trigger (rx_next_highest (st e)) (set_reassembly_timer tm e)) e.
Proof.
  intros Hs. unfold run_reassembly_timer. wp_step. wp_step. wp_step. unfold timer_run. rewrite Hs. simpl.
  wp_step. wp_step. wp_step. wp_step. split; [done|]. eexists. split; [by apply is_running_run|].
  split; [|done]. exact Hs.
Qed.

(** *** A PDU inside the window *)

(** The invariant between two operations.  [ri_detect]: when t-Reassembly is not running, nothing
    is missing between RX_Highest_Status and RX_Next_Highest, so every loss below is either
    being timed or already covered by the status report. *)
Record rx_inv (R : Z) (e : rlc_rx_am_entity) : Prop := {
  ri_win : win_inv R None e;
  ri_next : complete e (rx_next (st e)) = false;
  ri_hs : complete e (rx_highest_status (st e)) = false;
  ri_set : is_set (reassembly_timer e) = true;
  ri_trig : is_running (reassembly_timer e) = true -> trigger_ok e;
  ri_detect : is_running (reassembly_timer e) = true \/
              missing_after e (rx_highest_status (st e)) = false
}.

(** The SDU of absolute number [k] has been received. *)
Definition received (R : Z) (e : rlc_rx_am_entity) (k : Z) : Prop :=
  k < R \/ exists sn, is_sn e sn /\ k = R + dist e sn /\ complete e sn = true.

(** What an operation delivers: nothing, or one SDU that had not been received before. *)
Definition delivery (R : Z) (e : rlc_rx_am_entity) (R' : Z) (e' : rlc_rx_am_entity) (es : list rx_event) : Prop :=
  (forall k, received R e k -> received R' e' k) /\
  (new_sdus es = [] \/ exists k d, new_sdus es = [d] /\ F k d /\ ~ received R e k /\ received R' e' k).

Lemma delivery_nothing R e R' e' es :
  new_sdus es = [] -> (forall k, received R e k -> received R' e' k) -> delivery R e R' e' es.
Proof. split; auto. Qed.

(** RX_Next, RX_Highest_Status and RX_Next_Highest are as before. *)
Definition same_vars (e e' : rlc_rx_am_entity) : Prop :=
  rx_next (st e') = rx_next (st e) /\ rx_highest_status (st e') = rx_highest_status (st e) /\
  rx_next_highest (st e') = rx_next_highest (st e).

Lemma start_rx_inv R e :
  win_inv R None e -> complete e (rx_next (st e)) = false ->
  complete e (rx_highest_status (st e)) = false -> is_set (reassembly_timer e) = true ->
  (is_running (reassembly_timer e) = true -> trigger_ok e) ->
  wp start_reassembly_timer (fun _ e' es => es = [] /\ rx_inv R e' /\ frame e e' /\
    same_vars e e' /\ rx_window e' = rx_window e) e.
Proof.
  intros Hi Hn Hh Hs Ht. unfold start_reassembly_timer. wp_step. wp_step. pose proof (dist_next e) as E0.
  pose proof (ring_sizes e) as (W1 & W2 & _ & _ & _ & W6).
  wp_step; bool_prop.
  - wp_step. apply wp_restart_needed; [apply Hi|lia|]. wp_step.
    + assert (0 < dist e (rx_next_highest (st e))) as Hpos.
      { unfold missing_after in H1. rewrite E0 in H1.
        apply orb_true_iff in H1 as [?|[? _]%andb_true_iff]; bool_prop; lia. }
      eapply wp_mono; [by apply wp_run_reassembly_timer|]. cbv beta.
      intros _ e' es (-> & tm & R1 & R2 & ->). split; [done|]. split; [|done].
      split; try done; [| |by left].
      * destruct Hi. by split.
      * intros _. split; [|by apply (wi_last _ _ _ Hi)]. change (dist (set_rx_next_status_trigger _ _) ?x) with (dist e x).
        cbn. lia.
    + split; [done|]. split; [|done]. split; try done. right. unfold missing_after in *. rewrite E0 in H1.
      apply orb_false_iff in H1 as [Hlt Hgap]. bool_prop.
      pose proof (wi_hs_nh _ _ _ Hi). pose proof (dist_range e (rx_highest_status (st e))).
      apply orb_false_iff. split; [apply Z.ltb_ge; lia|].
      destruct (Z.eqb_spec (dist e (rx_next_highest (st e))) (dist e (rx_highest_status (st e)) + 1)) as [E|];
        [|done].
      assert (rx_highest_status (st e) = rx_next (st e)) as ->.
      { apply (dist_inj e); [apply Hi|apply Hi|lia]. }
      apply andb_false_iff in Hgap as [Hx|Hx]; [bool_prop; lia|]. by rewrite Hx, andb_false_r.
  - split; [done|]. split; [|done]. split; try done. by left.
Qed.

Lemma win_inv_settled R e sn :
  win_inv R (Some sn) e -> (forall info, win e sn = Some info -> info_ok (R + dist e sn) info) ->
  win_inv R None e.
Proof.
  intros Hi Hok. destruct Hi as [A1 A2 A3 A4 A5 A6 A7 A8 A9 A10 A11]. split; try done.
  intros k i Hk. destruct (A10 k i Hk) as (? & ? & [?|[[= ->] _]]); auto.
Qed.

(** The timers, after the window was updated. *)
Lemma wp_reassembly_timers R e (r : bool) :
  win_inv R None e -> complete e (rx_next (st e)) = false ->
  complete e (rx_highest_status (st e)) = false -> is_set (reassembly_timer e) = true ->
  (is_running (reassembly_timer e) = true -> trigger_ok e \/
     dist e (rx_next_status_trigger (st e)) = 0 \/
     am_window_size e <= dist e (rx_next_status_trigger (st e))) ->
  wp (stop_reassembly_timer ;;; start_reassembly_timer ;;; ret r) (fun r' e' es => r' = r /\ es = [] /\ rx_inv R e' /\
    frame e e' /\ same_vars e e' /\ rx_window e' = rx_window e) e.
Proof.
  intros Hi Hn Hh Hs Ht. wp_step. eapply wp_mono; [by apply (wp_stop_reassembly_timer R)|]. cbv beta.
  intros _ e1 es (-> & tm & -> & Hset & Hrun).
  wp_step. eapply wp_mono; [apply (start_rx_inv R); try done; [by destruct Hi|]|].
  - simpl. congruence.
  - cbv beta. intros _ e2 es (-> & H1 & H2 & H3 & H4). wp_step. split; [done|]. split; [done|]. split; [done|].
    split; [by transitivity (set_reassembly_timer tm e)|done].
Qed.

(** A complete SDU is delivered, then the state variables move past it. *)
Lemma wp_deliver_and_advance R alloc e sn info :
  win_inv R (Some sn) e -> is_sn e sn -> win e sn = Some info -> info_full (R + dist e sn) info ->
  complete e (rx_highest_status (st e)) = false \/ sn = rx_highest_status (st e) ->
  complete e (rx_next (st e)) = false \/ sn = rx_next (st e) ->
  wp (deliver_sdu alloc sn ;;; update_rx_highest_status sn ;;; update_rx_next sn)
    (fun _ e' es =>
      (new_sdus es = [] \/ exists d, new_sdus es = [d] /\ F (R + dist e sn) d) /\
      frame e e' /\ reassembly_timer e' = reassembly_timer e /\
      rx_next_status_trigger (st e') = rx_next_status_trigger (st e) /\
      rx_next_highest (st e') = rx_next_highest (st e) /\
      complete e' (rx_next (st e')) = false /\ complete e' (rx_highest_status (st e')) = false /\
      exists x, rx_next (st e') = x /\ is_sn e x /\ dist e x <= dist e (rx_next_highest (st e)) /\
        win_inv (R + dist e x) None e' /\
        (forall y, dist e x <= dist e y -> dist e' y = dist e y - dist e x) /\
        (forall k, (win e' k <> None <-> win e k <> None /\ dist e x <= dist e k) /\
                   (dist e x <= dist e k -> complete e' k = complete e k)) /\
        (forall y, is_sn e y -> dist e y < dist e x -> complete e y = true)) e.
Proof.
  intros Hi Hsn Hw Hfull Hhs Hn. pose proof (proj1 Hfull) as Hf.
  wp_step. eapply wp_mono; [by eapply wp_deliver_sdu|]. cbv beta.
  intros _ e1 es1 (Hdel & U1 & Hi1).
  assert (forall k, complete e1 k = complete e k /\ (win e1 k <> None <-> win e k <> None)) as Hc1.
  { intros k. unfold complete. rewrite (up_win _ _ _ _ U1).
    destruct (Z.eqb_spec k sn) as [->|]; [rewrite Hw; simpl; by rewrite Hf|done]. }
  assert (forall y, dist e1 y = dist e y) as Hd1 by (intros y; by destruct (upd_dist _ _ _ _ y U1)).
  assert (forall y, is_sn e1 y <-> is_sn e y) as Hs1.
  { intros y. unfold is_sn. by rewrite (proj2 (upd_dist _ _ _ _ 0 U1)). }
  pose proof (up_st _ _ _ _ U1) as Est1.
  assert (complete e1 sn = true) as Hcsn.
  { rewrite (proj1 (Hc1 sn)). unfold complete. by rewrite Hw. }
  wp_step. eapply wp_mono.
  { apply (wp_update_rx_highest_status R); [done|by apply Hs1| |done].
    by rewrite Est1, (proj1 (Hc1 _)). }
  cbv beta. intros _ e2 es2 (-> & hs & -> & Hhs2 & Hchs & Hdhs).
  set (e2 := set_rx_highest_status hs e1) in *.
  assert (win_inv R None e2) as Hi2 by (by apply set_hs_win_inv).
  eapply wp_mono.
  { apply (wp_update_rx_next R e2 sn); [done|by apply Hs1|done|done|].
    change (complete e2 ?k) with (complete e1 k). simpl. by rewrite Est1, (proj1 (Hc1 _)). }
  cbv beta. intros _ e3 es3 (-> & x & s & -> & C & Hx & Hxn & Hxh & Hall & Hcx).
  destruct (cleared_win_inv R e2 s x) as [Hi3 Hre]; try done.
  assert (forall y, dist e2 y = dist e y) as Hd2 by exact Hd1.
  simpl app. rewrite app_nil_r. split; [done|]. pose proof (cl_st _ _ _ C) as Est.
  assert (forall k, win s k = if dist e k <? dist e x then None else win e1 k) as Hws.
  { intros k. rewrite (cl_win _ _ _ C), !Hd2. done. }
  assert (dist e x <= dist e hs) as Hxhs by (rewrite <- !Hd2; exact Hxh).
  assert (forall k, dist e x <= dist e k -> complete (set_rx_next x s) k = complete e1 k) as Hcs.
  { intros k Hk. unfold complete. change (win (set_rx_next x s) k) with (win s k). rewrite Hws.
    by destruct (Z.ltb_spec (dist e k) (dist e x)); [lia|]. }
  split; [etrans; [apply U1|]; transitivity e2; [by split|]; transitivity s; [apply C|by split]|].
  split; [simpl; rewrite (cl_tm _ _ _ C); apply U1|].
  simpl. rewrite Est. simpl. rewrite Est1. split; [done|]. split; [done|].
  split; [rewrite Hcs by lia; exact Hcx|]. split; [rewrite Hcs by done; exact Hchs|].
  exists x. split; [done|]. split; [by apply Hs1|]. split; [by rewrite <- Est1, <- !Hd1|].
  rewrite Hd2 in Hi3. split; [exact Hi3|]. split; [intros y Hy; rewrite Hre by (by rewrite !Hd2); by rewrite !Hd2|].
  split.
  - intros k. split.
    + change (win (set_rx_next x s) k) with (win s k). rewrite Hws. rewrite <- (proj2 (Hc1 k)).
      destruct (Z.ltb_spec (dist e k) (dist e x)); (split; [intros ?|intros [??]]); try done; lia.
    + intros Hk. by rewrite Hcs, (proj1 (Hc1 k)).
  - intros y Hy Hdy. rewrite <- (proj1 (Hc1 y)). apply Hall; [by apply Hs1|by rewrite !Hd2].
Qed.

(** t-Reassembly's trigger after RX_Next moved to [x]. *)
Lemma trigger_after_advance e e' x :
  trigger_ok e -> dist e (rx_next_highest (st e)) <= am_window_size e ->
  frame e e' -> rx_next (st e') = x ->
  dist e x <= dist e (rx_next_highest (st e)) ->
  rx_next_status_trigger (st e') = rx_next_status_trigger (st e) ->
  rx_next_highest (st e') = rx_next_highest (st e) ->
  (forall y, dist e x <= dist e y -> dist e' y = dist e y - dist e x) ->
  (forall k, win e k <> None -> dist e x <= dist e k -> win e' k <> None) ->
  trigger_ok e' \/ dist e' (rx_next_status_trigger (st e')) = 0 \/
    am_window_size e' <= dist e' (rx_next_status_trigger (st e')).
Proof.
  intros [Hr Hw] Hnw Hf Hx Hxn Et En Hre Hwin. rewrite Et. set (t := rx_next_status_trigger (st e)) in *.
  pose proof (ring_sizes e) as (W1 & W2 & _). pose proof (dist_range e x).
  destruct (Z.le_gt_cases (dist e x) (dist e t)) as [Hle|Hgt].
  - rewrite (Hre t) by done. destruct (decide (dist e t = dist e x)); [right; left; lia|left].
    unfold trigger_ok. rewrite Et, En. fold t. rewrite !Hre by lia. split; [lia|].
    rewrite (frame_mod _ _ Hf). apply Hwin; [done|].
    assert (dist e ((t - 1) mod mod_ e) = dist e t - 1) as ->; [|lia].
    apply sn_diff_pred; [apply mod_pos|]. fold (dist e t). lia.
  - right. right. assert (dist e' t = dist e t - dist e x + mod_ e) as ->.
    { unfold dist at 1. rewrite Hx, (frame_mod _ _ Hf). apply sn_diff_rebase_wrap; [apply mod_pos|done]. }
    unfold am_window_size in *. rewrite (fr_cfg _ _ Hf). lia.
Qed.

(** The whole treatment of a PDU inside the window that is no duplicate. *)
Lemma wp_handle_window_pdu R alloc e header payload :
  let sn := sn header in
  rx_inv R e -> is_sn e sn -> dist e sn < am_window_size e -> complete e sn = false ->
  arrives (R + dist e sn) header payload ->
  wp (handle_window_pdu alloc header payload) (fun changed e' es => frame e e' /\
    (changed = false -> same_vars e e' /\ forall k, win e' k = win e k) /\
    exists R', R' = next_abs R e e' /\ rx_inv R' e' /\ delivery R e R' e' es) e.
Proof.
  intros sn0 Hri Hsn Hd Hnc Harr. subst sn0. set (sn0 := sn header) in *. pose proof (ri_win _ _ Hri) as Hi.
  unfold handle_window_pdu. wp_step. eapply wp_mono; [by apply (wp_place_in_window R)|]. cbv beta.
  fold sn0. intros status_changed e1 es1 (-> & Hsame & Hi1 & (info & Hw1 & Hinfo) & Hoth & Hnn & Hlt & Hch).
  pose proof (sn_frame _ _ Hsame) as Hf1.
  assert (forall y, dist e1 y = dist e y) as Hd1 by (intros y; apply same_dist; apply Hsame).
  assert (mod_ e1 = mod_ e) as Hm1 by (by apply frame_mod).
  assert (forall y, is_sn e1 y <-> is_sn e y) as Hs1 by (intros y; unfold is_sn; by rewrite Hm1).
  assert (am_window_size e1 = am_window_size e) as HW1 by (unfold am_window_size; by rewrite (fr_cfg _ _ Hf1)).
  assert (forall k, k <> sn0 -> complete e1 k = complete e k) as Hco.
  { intros k Hk. unfold complete. by rewrite Hoth. }
  assert (is_running (reassembly_timer e1) = true -> trigger_ok e1) as Ht1.
  { rewrite (sn_tm _ _ Hsame). intros [Hr Hw]%(ri_trig _ _ Hri). unfold trigger_ok.
    rewrite (sn_trig _ _ Hsame), Hm1, !Hd1. split; [lia|].
    destruct (decide ((rx_next_status_trigger (st e) - 1) mod mod_ e = sn0)) as [->|Hne]; [congruence|].
    by rewrite Hoth. }
  wp_step. apply wp_is_fully_received; [by apply Hs1|].
  assert (complete e1 sn0 = fully_received info) as Hcsn by (unfold complete; by rewrite Hw1).
  rewrite Hcsn. wp_step. destruct Hinfo as [Hopen|Hfull].
  - destruct Hopen as [Hfr Hopen]. rewrite Hfr in *. simpl when. wp_step.
    assert (forall k, complete e1 k = complete e k) as Hco'.
    { intros k. destruct (decide (k = sn0)) as [->|]; [congruence|auto]. }
    assert (win_inv R None e1) as Hi1'.
    { apply (win_inv_settled R e1 sn0); [done|]. rewrite Hw1. intros ? [= <-]. right.
      rewrite Hd1. by split. }
    eapply wp_mono.
    { apply (wp_reassembly_timers R); [done| | | |by auto].
      - rewrite (sn_next _ _ Hsame), Hco'. apply Hri.
      - rewrite (sn_hs _ _ Hsame), Hco'. apply Hri.
      - rewrite (sn_tm _ _ Hsame). apply Hri. }
    cbv beta. intros r e2 es2 (-> & -> & H1 & H2 & (H3 & H3a & H3b) & H4). split; [by transitivity e1|].
    split.
    { intros Hf. destruct (Hch Hf) as [Hk Hst]. unfold same_vars. rewrite H3, H3a, H3b, Hst.
      split; [done|]. intros k. unfold win. rewrite H4. apply Hk. }
    exists R. split; [unfold next_abs; rewrite H3, (sn_next _ _ Hsame), dist_next; lia|].
    split; [done|]. apply delivery_nothing; [done|].
    intros k [?|(s & S1 & S2 & S3)]; [by left|right]. exists s.
    rewrite (same_dist e1 e2), Hd1 by done. split; [|split; [done|]].
    + unfold is_sn. rewrite (frame_mod _ _ H2), Hm1. done.
    + unfold complete, win in *. rewrite H4. unfold complete, win in Hco'. by rewrite Hco'.
  - pose proof (proj1 Hfull) as Hfr. rewrite Hfr in *. simpl when.
    eapply wp_mono.
    { apply (wp_deliver_and_advance R alloc e1 sn0 info); try done; [by apply Hs1|by rewrite Hd1| |].
      - rewrite (sn_hs _ _ Hsame). destruct (decide (sn0 = rx_highest_status (st e))); [by right|left].
        rewrite Hco by done. apply Hri.
      - rewrite (sn_next _ _ Hsame). destruct (decide (sn0 = rx_next (st e))); [by right|left].
        rewrite Hco by done. apply Hri. }
    cbv beta. intros _ e2 es2 (Hdel & Hf2 & Htm2 & Htr2 & Hnh2 & Hc2 & Hh2 & x & Hx & Hxs & Hxn & Hi2 & Hre & Hwin2 & Hbelow).
    eapply wp_mono.
    { apply (wp_reassembly_timers (R + dist e1 x)); try done.
      - rewrite Htm2, (sn_tm _ _ Hsame). apply Hri.
      - rewrite Htm2. intros Hrun%Ht1. apply (trigger_after_advance e1 e2 x); try done.
        + apply Hi1.
        + intros k Hk Hdk. by apply Hwin2. }
    cbv beta. intros r e3 es3 (-> & -> & H1 & H2 & (H3 & _) & H4). rewrite app_nil_r.
    split; [transitivity e1; [done|by transitivity e2]|].
    split.
    { intros Hf. destruct (Hch Hf) as [Hk _]. exfalso. unfold complete in Hnc.
      rewrite <- Hk, Hw1 in Hnc. congruence. }
    pose proof (dist_range e1 x). exists (R + dist e1 x).
    split; [unfold next_abs; rewrite H3, Hx, Hd1; lia|]. split; [done|].
    assert (forall k, complete e3 k = complete e2 k) as Hc3 by (intros k; unfold complete, win; by rewrite H4).
    assert (forall s, is_sn e1 s -> complete e1 s = true -> received (R + dist e1 x) e3 (R + dist e1 s)) as Hrec.
    { intros s S1 S3. destruct (Z.le_gt_cases (dist e1 x) (dist e1 s)) as [Hle|Hgt]; [right|left; lia].
      exists s. rewrite (same_dist e2 e3), Hre by done. split; [|split; [lia|]].
      - unfold is_sn. by rewrite (frame_mod _ _ H2), (frame_mod _ _ Hf2).
      - rewrite Hc3. by rewrite (proj2 (Hwin2 s)). }
    split.
    + intros k [?|(s & S1 & S2 & S3)]; [left; lia|]. rewrite S2, <- Hd1. apply Hrec; [by apply Hs1|].
      rewrite Hco; [done|]. intros ->. congruence.
    + destruct Hdel as [?|(d & D1 & D2)]; [by left|right]. exists (R + dist e1 sn0), d.
      split; [done|]. split; [done|]. split; [|by apply Hrec; [apply Hs1|]].
      intros [?|(s & S1 & S2 & S3)]; [pose proof (dist_range e1 sn0); lia|].
      rewrite Hd1 in S2. assert (sn0 = s) as <-; [|congruence].
      apply (dist_inj e); [done|done|lia].
Qed.
End window.
