(* ===== verification/RlcRxAmStatus.v ===== *)
(** * RLC AM receiving entity: the status report

    What [refresh_status_report] writes: exactly the missing data of the window up to ACK_SN, in a
    status PDU that is ready for transmission. *)

From S2P Require Import Prelude Effects Window RlcConfig RlcAmPdu RlcAmPduFacts Timers Segments RlcRxAm RlcRxAmWindow.
Import AmHeader RlcAmPdu.StatusPdu RlcRxAm.
Open Scope Z_scope.
Open Scope entity_scope.

(** ** The three buffers *)

(** [e] with [s] in the buffer the writer owns. *)
Definition with_writer (e : rlc_rx_am_entity) (s : rlc_am_status_pdu) : rlc_rx_am_entity :=
  set_status_buf (<[status_owned_by_writer e := s]> (status_buf e)) e.

Record buffers_ok (e : rlc_rx_am_entity) : Prop := {
  bo_len : length (status_buf e) = 3%nat;
  bo_own : NoDup [status_owned_by_writer e; status_for_exchange e; status_owned_by_reader e];
  bo_range : (status_owned_by_writer e < 3)%nat /\ (status_for_exchange e < 3)%nat /\
             (status_owned_by_reader e < 3)%nat;
  bo_cfg : Forall (fun s => st_sn_size s = rxam_sn_field_length (cfg e) /\ mod_nr s = mod_ e) (status_buf e);
  bo_max : 0 < max_nof_sn_per_status_report e <= am_window_size e
}.

Lemma wp_writer_update e s f (Q : unit -> rlc_rx_am_entity -> list rx_event -> Prop) :
  status_buf e !! status_owned_by_writer e = Some s -> Q tt (with_writer e (f s)) [] ->
  wp (writer_update f) Q e.
Proof.
  intros Hs HQ. unfold writer_update. wp_step.
  replace (alter f (status_owned_by_writer e) (status_buf e))
    with (<[status_owned_by_writer e := f s]> (status_buf e)); [exact HQ|].
  symmetry. by apply list_alter_insert_weak || (apply list_eq; intros i;
    destruct (decide (i = status_owned_by_writer e)) as [->|];
    [rewrite list_lookup_alter_eq, Hs; simpl; rewrite list_lookup_insert_eq; [done|by eapply lookup_lt_Some]
    |by rewrite list_lookup_alter_ne, list_lookup_insert_ne]).
Qed.

Lemma with_writer_lookup e s s0 :
  status_buf e !! status_owned_by_writer e = Some s0 ->
  status_buf (with_writer e s) !! status_owned_by_writer (with_writer e s) = Some s.
Proof. intros H. simpl. apply list_lookup_insert_eq. by eapply lookup_lt_Some. Qed.

Lemma with_writer_twice e s s' : with_writer (with_writer e s) s' = with_writer e s'.
Proof. unfold with_writer. destruct e. simpl. by rewrite list_insert_insert_eq. Qed.

Lemma with_writer_id e s :
  status_buf e !! status_owned_by_writer e = Some s -> with_writer e s = e.
Proof. intros H. unfold with_writer. destruct e. simpl in *. by rewrite list_insert_id. Qed.

(** ** The status PDU under construction *)

Record building (m : Z) (sz : rlc_am_sn_size) (s : rlc_am_status_pdu) : Prop := {
  bd_wf : status_wf s;
  bd_unmerged : unmerged s (nacks s);
  bd_pos : counts_pos (nacks s);
  bd_mod : mod_nr s = m;
  bd_sz : st_sn_size s = sz
}.

Lemma push_building m sz s n :
  building m sz s -> nack_wf m n -> 0 < nack_count n ->
  building m sz (push_nack s n) /\
  expand m (nacks (push_nack s n)) = expand m (nacks s) ++ nack_items m n.
Proof.
  intros [B1 B2 B3 B4 B5] Hn Hc. pose proof (push_nack_same s n) as (E1 & E2 & _ & _).
  rewrite <- B4 in Hn. split.
  - split; rewrite ?E1, ?E2; try done; [by apply push_nack_wf| |by apply push_nack_counts_pos].
    apply (unmerged_cfg s); [done|]. by apply push_nack_unmerged.
  - rewrite <- B4. by apply push_nack_expand.
Qed.

(** ** The missing data *)

(** Byte ranges between segments, from offset [last_so] on. *)
Fixpoint gaps (sn last_so : Z) (l : list rlc_rx_am_sdu_segment) : list (Z * Z * Z) :=
  match l with
  | [] => []
  | s :: l' =>
      (if sg_so s =? last_so then [] else [(sn, last_so, sg_so s - 1)]) ++ gaps sn (seg_end s) l'
  end.

Definition has_last (l : list rlc_rx_am_sdu_segment) : bool :=
  existsb (fun s => si_eqb (sg_si s) last_segment) l.

(** What is missing of one SDU, as (SN, first byte, last byte). *)
Definition sdu_missing (e : rlc_rx_am_entity) (sn : Z) : list (Z * Z * Z) :=
  match win e sn with
  | None => [(sn, 0, so_end_of_sdu)]
  | Some info =>
      if fully_received info then [] else
      match sdu_data info with
      | full_data _ => []
      | segment_set l => gaps sn 0 l ++ if has_last l then [] else [(sn, last_end 0 l, so_end_of_sdu)]
      end
  end.

(** What is missing of the [n] SDUs from RX_Next on. *)
Definition report (e : rlc_rx_am_entity) (n : Z) : list (Z * Z * Z) :=
  seqZ 0 n ≫= fun i => sdu_missing e ((rx_next (st e) + i) mod mod_ e).

Lemma report_succ e n : 0 <= n ->
  report e (n + 1) = report e n ++ sdu_missing e ((rx_next (st e) + n) mod mod_ e).
Proof.
  intros Hn. unfold report. rewrite seqZ_app by lia. rewrite bind_app. f_equal.
  rewrite Z.add_0_l. unfold seqZ. simpl. rewrite app_nil_r. do 3 f_equal; lia.
Qed.

(** Writing a NACK for a byte range. *)
Lemma wp_push_range m sz e s sn hs a b (Q : unit -> rlc_rx_am_entity -> list rx_event -> Prop) :
  status_buf e !! status_owned_by_writer e = Some s -> building m sz s -> 0 <= sn < m ->
  0 <= a < 65536 -> 0 <= b < 65536 -> (hs = false -> a = 0 /\ b = so_end_of_sdu) ->
  (forall s', building m sz s' -> expand m (nacks s') = expand m (nacks s) ++ [(sn, a, b)] ->
     Q tt (with_writer e s') []) ->
  wp (writer_update (fun s => push_nack s (mk_nack sn hs a b false 0))) Q e.
Proof.
  intros Hs Hb Hsn Ha Hbb Hdef HQ. eapply wp_writer_update; [done|].
  destruct (push_building m sz s (mk_nack sn hs a b false 0) Hb) as [H1 H2]; [by split|done|].
  apply HQ; [done|]. rewrite H2. f_equal. unfold nack_items. simpl.
  rewrite Z.add_0_r, Z.mod_small by done. destruct hs; [done|]. by destruct Hdef as [-> ->].
Qed.

Lemma wp_nack_segments m sz sn l : forall e s last_so have_last
    (Q : Z * bool -> rlc_rx_am_entity -> list rx_event -> Prop),
  status_buf e !! status_owned_by_writer e = Some s -> building m sz s -> 0 <= sn < m ->
  0 <= last_so <= 65535 -> chain last_so l ->
  (forall s', building m sz s' -> expand m (nacks s') = expand m (nacks s) ++ gaps sn last_so l ->
     Q (last_end last_so l, have_last || has_last l) (with_writer e s') []) ->
  wp (nack_segments sn last_so have_last l) Q e.
Proof.
  induction l as [|seg l IH]; intros e s last_so have_last Q Hs Hb Hsn Hso Hc HQ; simpl.
  - wp_step. rewrite <- (with_writer_id e s) by done. rewrite <- (orb_false_r have_last).
    apply HQ; [done|by rewrite app_nil_r].
  - destruct Hc as (C1 & C2 & C3 & C4). wp_step.
    assert (0 <= sg_so seg /\ sg_so seg + seg_len seg <= 65535) as [??] by (unfold seg_end in *; lia).
    wp_step.
    + bool_prop. rewrite !u16_small by lia. cbv zeta. wp_step.
      eapply wp_push_range; try done; try lia.
      intros s1 Hb1 E1. apply wp_assert; [lia|]. simpl app.
      rewrite u32_small by lia. fold (seg_end seg).
      apply (IH (with_writer e s1) s1); try done; [by eapply with_writer_lookup|unfold seg_end; lia|].
      intros s' Hb' E'. rewrite with_writer_twice, <- orb_assoc. apply HQ; [done|].
      rewrite E', E1. cbn [gaps]. destruct (Z.eqb_spec (sg_so seg) last_so); [done|].
      by rewrite <- app_assoc.
    + bool_prop. rewrite u32_small by lia. fold (seg_end seg).
      apply (IH e s); try done; [unfold seg_end; lia|].
      intros s' Hb' E'. rewrite <- orb_assoc. apply HQ; [done|]. rewrite E'. cbn [gaps]. by rewrite H2, Z.eqb_refl.
Qed.

Section report.
Context (P : Z -> rlc_rx_am_sdu_segment -> Prop) (F : Z -> list Z -> Prop).

(** One turn of the NACK loop reports what is missing of one SDU. *)
Lemma wp_nack_sn_step R e s sn (Q : bool -> rlc_rx_am_entity -> list rx_event -> Prop) :
  win_inv P F R None e -> status_buf e !! status_owned_by_writer e = Some s ->
  building (mod_ e) (rxam_sn_field_length (cfg e)) s -> is_sn e sn ->
  (forall s', building (mod_ e) (rxam_sn_field_length (cfg e)) s' ->
     expand (mod_ e) (nacks s') = expand (mod_ e) (nacks s) ++ sdu_missing e sn ->
     Q false (with_writer e s') []) ->
  wp (nack_sn_step sn) Q e.
Proof.
  intros Hi Hs Hb Hsn HQ. unfold nack_sn_step. wp_step. apply wp_is_fully_received; [done|].
  unfold complete, sdu_missing in *. wp_step.
  destruct (win e sn) as [info|] eqn:Ew.
  - destruct (fully_received info) eqn:Ef.
    + wp_step. wp_step. rewrite <- (with_writer_id e s) by done. apply HQ; [done|]. by rewrite app_nil_r.
    + wp_step. wp_step. rewrite has_sn_win, Ew by done. simpl negb. cbv iota.
      unfold nack_incomplete_sdu. wp_step. eapply wp_window_at; [done..|].
      destruct (wi_keys _ _ _ _ _ Hi _ _ Ew) as (_ & _ & [[(Hx & _)|(_ & l & El & Hc & _)]|[? _]]);
        [congruence| |done].
      rewrite El in *. wp_step. eapply wp_nack_segments; try done.
      intros s1 Hb1 E1. simpl orb. destruct (has_last l) eqn:El'.
      * simpl when. wp_step. wp_step. apply HQ; [done|]. rewrite E1. by rewrite app_nil_r.
      * simpl when. pose proof (chain_last_end 0 l Hc). simpl fst.
        rewrite u16_small by lia. wp_step.
        eapply wp_push_range; [by eapply with_writer_lookup|done|done|lia|done|done|].
        intros s2 Hb2 E2. simpl. apply wp_assert; [unfold so_end_of_sdu; lia|]. wp_step.
        rewrite with_writer_twice. apply HQ; [done|]. by rewrite E2, E1, <- app_assoc.
  - wp_step. wp_step. rewrite has_sn_win, Ew by done. simpl negb. cbv iota.
    eapply wp_push_range; try done; try (unfold so_end_of_sdu; lia).
Qed.

(** [e] after the writer published [s]: the exchanged buffers swap their owners. *)
Definition published (e : rlc_rx_am_entity) (s : rlc_am_status_pdu) : rlc_rx_am_entity :=
  set_status_report_size (packed_size s)
    (set_status_owned_by_writer (status_for_exchange e)
       (set_status_for_exchange (status_owned_by_writer e) (with_writer e s))).

(** [s] reports exactly what is missing from RX_Next up to its ACK_SN, which is RX_Highest_Status
    unless the limit of visited sequence numbers is hit before. *)
Record report_of (e : rlc_rx_am_entity) (s : rlc_am_status_pdu) : Prop := {
  ro_canonical : canonical s;
  ro_pos : counts_pos (nacks s);
  ro_mod : mod_nr s = mod_ e;
  ro_size : st_sn_size s = rxam_sn_field_length (cfg e);
  ro_ack : dist e (ack_sn s) =
           dist e (rx_highest_status (st e)) `min` max_nof_sn_per_status_report e;
  ro_nacks : expand (mod_ e) (nacks s) = report e (dist e (ack_sn s))
}.

Lemma building_set_ack m sz s ack :
  building m sz s -> 0 <= ack < m -> canonical (set_ack_sn s ack).
Proof.
  intros [B1 B2 B3 B4 B5] Ha. split; [| |simpl; by rewrite B4].
  - by eapply status_wf_same.
  - by apply (unmerged_cfg s).
Qed.

(** The NACK loop, from the emptied buffer. *)
Lemma wp_nack_loop R e s0 stop_sn (Q : Z -> rlc_rx_am_entity -> list rx_event -> Prop) :
  win_inv P F R None e -> status_buf e !! status_owned_by_writer e = Some s0 ->
  building (mod_ e) (rxam_sn_field_length (cfg e)) s0 -> nacks s0 = [] ->
  is_sn e stop_sn -> dist e stop_sn <= am_window_size e ->
  (forall x s, building (mod_ e) (rxam_sn_field_length (cfg e)) s ->
     expand (mod_ e) (nacks s) = report e (dist e stop_sn) -> Q x (with_writer e s) []) ->
  wp (for_loop (sn_fuel e) (fun i e => rx_mod_base e i <? rx_mod_base e stop_sn)
        (fun i => (i + 1) mod mod_ e) nack_sn_step (rx_next (st e))) Q e.
Proof.
  intros Hi Hs0 Hb0 Hn0 Hstop Hd HQ. pose proof (dist_next e) as E0.
  pose proof (ring_sizes e) as (W1 & W2 & _ & _ & _ & W6).
  apply (wp_for_loop (fun n x st0 es => exists s, st0 = with_writer e s /\ es = [] /\ is_sn e x /\
    dist e x <= dist e stop_sn /\ building (mod_ e) (rxam_sn_field_length (cfg e)) s /\
    expand (mod_ e) (nacks s) = report e (dist e x) /\ dist e stop_sn - dist e x <= Z.of_nat n)).
  - exists s0. rewrite with_writer_id by done. pose proof (dist_range e stop_sn). rewrite E0. unfold sn_fuel.
    do 2 (split; [done|]). split; [apply Hi|]. split; [lia|]. split; [done|].
    split; [by rewrite Hn0|lia].
  - intros n x st0 es (s & -> & -> & Hx & Hr & Hb & He & _) Hc. to_dist. bool_prop.
    change (dist (with_writer e s) ?y) with (dist e y) in Hc.
    apply HQ; [done|]. rewrite He. f_equal. lia.
  - intros x st0 es (s & -> & _ & _ & _ & _ & _ & Hn). to_dist.
    change (dist (with_writer e s) ?y) with (dist e y). apply Z.ltb_ge. lia.
  - intros n x st0 es (s & -> & -> & Hx & Hr & Hb & He & Hn) Hc. to_dist. bool_prop.
    change (dist (with_writer e s) ?y) with (dist e y) in Hc.
    apply (wp_nack_sn_step R (with_writer e s) s); try done.
    + by destruct Hi.
    + by eapply with_writer_lookup.
    + change (mod_ (with_writer e s)) with (mod_ e). change (cfg (with_writer e s)) with (cfg e).
      intros s' Hb' He'. exists s'. rewrite with_writer_twice. do 2 (split; [done|]).
      split; [apply is_sn_mod|].
      assert (dist e ((x + 1) mod mod_ e) = dist e x + 1) as E1 by (apply dist_succ; lia).
      rewrite E1. split; [lia|]. split; [done|]. split; [|lia].
      rewrite He', He, report_succ by apply dist_range. f_equal. f_equal.
      unfold dist, sn_diff. rewrite Zplus_mod_idemp_r.
      replace (rx_next (st e) + (x - rx_next (st e))) with x by lia. symmetry. by apply Z.mod_small.
Qed.

Lemma wp_refresh_status_report R e :
  win_inv P F R None e -> buffers_ok e ->
  wp refresh_status_report (fun _ e' es => es = [] /\ exists s, e' = published e s /\ report_of e s) e.
Proof.
  intros Hi Hb. pose proof (ring_sizes e) as (W1 & W2 & _ & _ & _ & W6).
  destruct (lookup_lt_is_Some_2 (status_buf e) (status_owned_by_writer e)) as [s0 Hs0].
  { rewrite (bo_len e Hb). apply (bo_range e Hb). }
  pose proof (bo_cfg e Hb) as Hcfg. rewrite Forall_lookup in Hcfg.
  destruct (Hcfg _ _ Hs0) as [Esz Emod].
  unfold refresh_status_report. wp_step. eapply wp_writer_update; [done|]. simpl app.
  wp_step. wp_step. cbv zeta. to_dist. simpl app.
  set (e0 := with_writer e (reset s0)).
  change (dist e0 ?y) with (dist e y). change (st e0) with (st e).
  change (max_nof_sn_per_status_report e0) with (max_nof_sn_per_status_report e).
  change (mod_ e0) with (mod_ e). change (sn_fuel e0) with (sn_fuel e).
  set (limit := (rx_next (st e) + max_nof_sn_per_status_report e) mod mod_ e).
  pose proof (bo_max e Hb) as Hmax.
  assert (dist e limit = max_nof_sn_per_status_report e) as El by (apply sn_diff_add; lia).
  set (stop_sn := if dist e limit <? dist e (rx_highest_status (st e)) then limit else rx_highest_status (st e)).
  assert (is_sn e stop_sn /\ dist e stop_sn <= am_window_size e /\
    dist e stop_sn = dist e (rx_highest_status (st e)) `min` max_nof_sn_per_status_report e) as (S1 & S2 & S3).
  { pose proof (wi_hs_nh _ _ _ _ _ Hi). pose proof (wi_nh_w _ _ _ _ _ Hi). subst stop_sn.
    rewrite El. destruct (Z.ltb_spec (max_nof_sn_per_status_report e) (dist e (rx_highest_status (st e)))).
    - split; [apply is_sn_mod|]. lia.
    - split; [apply Hi|]. lia. }
  wp_step. apply (wp_nack_loop R e0 (reset s0)); try done.
  { by destruct Hi. }
  { by eapply with_writer_lookup. }
  { split; try done; [|by apply Forall_nil]. split; try done. simpl. by rewrite Emod, Esz. }
  intros x s Hbd He. subst e0. rewrite with_writer_twice. simpl app.
  wp_step. eapply wp_writer_update; [by eapply with_writer_lookup|]. rewrite with_writer_twice. simpl app.
  unfold store_status_report, status_at. wp_steps.
  eapply wp_need; [by eapply with_writer_lookup|]. simpl app. wp_steps.
  split; [done|]. exists (set_ack_sn s stop_sn). split; [done|].
  split; try done; try apply Hbd. by eapply building_set_ack.
Qed.

Lemma published_buffers_ok e s :
  buffers_ok e -> st_sn_size s = rxam_sn_field_length (cfg e) -> mod_nr s = mod_ e -> buffers_ok (published e s).
Proof.
  intros [B1 B2 B3 B4 B5] H1 H2. split; simpl; try done.
  - by rewrite length_insert.
  - rewrite !NoDup_cons, !not_elem_of_cons in *. naive_solver.
  - tauto.
  - by apply Forall_insert.
Qed.
End report.

(** ** The report, byte by byte *)

(** Byte [j] of the SDU with sequence number [sn] has not been received, as far as the receiver can
    tell: it lies in a gap, or past everything received of an SDU whose end is unknown. *)
Definition byte_missing (e : rlc_rx_am_entity) (sn j : Z) : Prop :=
  match win e sn with
  | None => True
  | Some info =>
      fully_received info = false /\
      match sdu_data info with
      | full_data _ => False
      | segment_set l => ~ covered l j /\ (j < last_end 0 l \/ has_last l = false)
      end
  end.

(** Some entry of a report covers byte [j] of [sn]. *)
Definition reported (l : list (Z * Z * Z)) (sn j : Z) : Prop :=
  exists a b, In (sn, a, b) l /\ a <= j <= b.

Lemma reported_app l k sn j : reported (l ++ k) sn j <-> reported l sn j \/ reported k sn j.
Proof.
  unfold reported. setoid_rewrite in_app_iff. split.
  - intros (a & b & [?|?] & ?); [left|right]; eauto.
  - intros [(a & b & ? & ?)|(a & b & ? & ?)]; eauto 6.
Qed.

Lemma reported_nil sn j : reported [] sn j <-> False.
Proof. split; [|done]. by intros (a & b & ? & _). Qed.

Lemma reported_one sn' a b sn j : reported [(sn', a, b)] sn j <-> sn = sn' /\ a <= j <= b.
Proof.
  split.
  - intros (x & y & [[= -> -> ->]|[]] & ?). done.
  - intros [-> ?]. exists a, b. split; [by left|done].
Qed.

Lemma reported_gaps sn0 lo l sn j :
  chain lo l ->
  reported (gaps sn0 lo l) sn j <-> sn = sn0 /\ lo <= j < last_end lo l /\ ~ covered l j.
Proof.
  revert lo. induction l as [|s l IH]; intros lo; simpl.
  - intros _. rewrite reported_nil. split; [done|lia].
  - intros (C1 & C2 & C3 & C4). pose proof (last_end_ge _ _ C4) as Hge.
    rewrite reported_app, (IH _ C4), covered_cons. unfold seg_covers.
    assert (~ (covered l j /\ j < seg_end s)) as Hlow.
    { intros [Hc Hj]. apply (chain_covered (seg_end s)) in Hc; [lia|done]. }
    unfold seg_end in *. destruct (Z.eqb_spec (sg_so s) lo) as [E|E];
      [rewrite reported_nil|rewrite reported_one]; (split; [|intros (-> & ? & ?)]).
    + intros [[]|(-> & ? & ?)]. split; [done|]. split; [lia|]. intros [?|?]; [lia|done].
    + right. split; [done|]. split; [|tauto]. destruct (Z.le_gt_cases (sg_so s + seg_len s) j); [lia|].
      exfalso. apply H1. left. lia.
    + intros [(-> & ?)|(-> & ? & ?)]; (split; [done|]; split; [lia|]); intros [?|?]; try done; try lia.
      apply Hlow. split; [done|lia].
    + destruct (Z.le_gt_cases (sg_so s + seg_len s) j) as [?|?]; [right|left; split; [done|]].
      * split; [done|]. split; [lia|tauto].
      * destruct (Z.le_gt_cases (sg_so s) j); [|lia]. exfalso. apply H1. left. lia.
Qed.

Section report_bytes.
Context (P : Z -> rlc_rx_am_sdu_segment -> Prop) (F : Z -> list Z -> Prop).

Lemma reported_sdu R e sn0 sn j :
  win_inv P F R None e -> 0 <= j <= so_end_of_sdu ->
  reported (sdu_missing e sn0) sn j <-> sn = sn0 /\ byte_missing e sn0 j.
Proof.
  intros Hi Hj. unfold sdu_missing, byte_missing. destruct (win e sn0) as [info|] eqn:Ew.
  2: { rewrite reported_one. tauto. }
  destruct (fully_received info) eqn:Ef; [rewrite reported_nil; naive_solver|].
  destruct (wi_keys _ _ _ _ _ Hi _ _ Ew) as (_ & _ & [[(Hx & _)|(_ & l & El & Hc & _)]|[? _]]);
    [congruence| |done].
  rewrite El. pose proof (chain_last_end 0 l Hc) as [L1 L2].
  rewrite reported_app, reported_gaps by done.
  assert (covered l j -> j < last_end 0 l) as Hcl.
  { intros Hcv. apply (chain_covered 0) in Hcv; [lia|done]. }
  destruct (has_last l); [rewrite reported_nil|rewrite reported_one].
  - split; [intros [(-> & [_ ?] & ?)|[]]; by auto|]. intros (-> & _ & ? & [?|?]); [|done]. left. split; [done|]. split; [lia|done].
  - split.
    + intros [(-> & ? & ?)|(-> & ?)]; (split; [done|]; split; [done|]); (split; [|by right]); [done|].
      intros Hcv%Hcl. lia.
    + intros (-> & _ & ? & _). destruct (Z.le_gt_cases (last_end 0 l) j); [right|left]; (split; [done|]); [lia|].
      split; [lia|done].
Qed.

Lemma reported_bind (f : Z -> list (Z * Z * Z)) l sn j :
  reported (l ≫= f) sn j <-> exists i, In i l /\ reported (f i) sn j.
Proof.
  induction l as [|x l IH]; simpl.
  - rewrite reported_nil. split; [done|]. by intros (? & [] & _).
  - rewrite reported_app, IH. split.
    + intros [?|(i & ? & ?)]; [exists x; auto|exists i; auto].
    + intros (i & [<-|?] & ?); [by left|right; eauto].
Qed.

Lemma reported_report R e n sn j :
  win_inv P F R None e -> 0 <= j <= so_end_of_sdu -> 0 <= n <= mod_ e -> is_sn e sn ->
  reported (report e n) sn j <-> dist e sn < n /\ byte_missing e sn j.
Proof.
  intros Hi Hj Hn Hsn. unfold report. rewrite reported_bind.
  assert (forall i, 0 <= i < n -> dist e ((rx_next (st e) + i) mod mod_ e) = i) as Hd.
  { intros i Hin. apply sn_diff_add. lia. }
  split.
  - intros (i & Hin%list_elem_of_In%elem_of_seqZ & Hr).
    rewrite (reported_sdu R) in Hr by done. destruct Hr as [E Hb].
    rewrite <- E in Hb. split; [|done]. rewrite E, Hd; lia.
  - intros [Hlt Hb]. exists (dist e sn). pose proof (dist_range e sn). split.
    + apply list_elem_of_In, elem_of_seqZ. lia.
    + assert ((rx_next (st e) + dist e sn) mod mod_ e = sn) as ->.
      { apply (dist_inj e); [apply is_sn_mod|done|]. apply Hd. lia. }
      apply (reported_sdu R); [done|done|]. done.
Qed.
End report_bytes.
