(* ===== verification/RlcRxAmProps.v ===== *)
(** * RLC AM receiving entity: its operations keep their promises

    The entity invariant, its preservation by every operation, and the step relation of the entity.
    The theorems of this file are about the operations as the neighbours call them. *)

From S2P Require Import Prelude Effects Window RlcConfig RlcAmPdu RlcAmPduFacts Timers Segments RlcRxAm RlcRxAmWindow RlcRxAmStatus.
Import AmHeader RlcAmPdu.StatusPdu RlcRxAm.
Open Scope Z_scope.
Open Scope entity_scope.

(** ** What the status report and the receive window depend on *)

Record same_rx (e e' : rlc_rx_am_entity) : Prop := {
  sx_cfg : cfg e' = cfg e;
  sx_st : st e' = st e;
  sx_win : rx_window e' = rx_window e;
  sx_tm : reassembly_timer e' = reassembly_timer e
}.

#[export] Instance same_rx_equivalence : Equivalence same_rx.
Proof.
  split; [done|by intros ?? []|]. intros ??? [] []. split; congruence.
Qed.

(** The report the reader would get next is exact. *)
Definition fresh_report (e : rlc_rx_am_entity) : Prop :=
  exists s, status_buf e !! status_for_exchange e = Some s /\ report_of e s /\
    status_report_size e = packed_size s.

Lemma report_of_ext e e' s :
  cfg e' = cfg e -> max_nof_sn_per_status_report e' = max_nof_sn_per_status_report e ->
  rx_next (st e') = rx_next (st e) -> rx_highest_status (st e') = rx_highest_status (st e) ->
  (forall k, win e' k = win e k) -> report_of e s -> report_of e' s.
Proof.
  intros Ec Em En Eh Ew [H1 H2 H3 H4 H5 H6].
  assert (mod_ e' = mod_ e) as E1 by (unfold mod_; by rewrite Ec).
  assert (forall x, dist e' x = dist e x) as E2 by (intros; unfold dist; by rewrite E1, En).
  split; rewrite ?E1, ?E2, ?Ec, ?Em, ?Eh; try done. rewrite H6. unfold report. rewrite E1, En.
  apply list_bind_ext; [|done]. intros i. unfold sdu_missing. by rewrite Ew.
Qed.

Lemma fresh_set_do_status b e : fresh_report e -> fresh_report (set_do_status b e).
Proof. intros (s & H1 & H2 & H3). exists s. split; [done|]. split; [|done]. by apply (report_of_ext e). Qed.

Section entity.
Context (P : Z -> rlc_rx_am_sdu_segment -> Prop) (F : Z -> list Z -> Prop).

Record entity_inv (R : Z) (e : rlc_rx_am_entity) : Prop := {
  ei_rx : rx_inv P F R e;
  ei_buf : buffers_ok e;
  ei_prohibit : 0 < rxam_t_status_prohibit (cfg e) -> is_set (status_prohibit_timer e) = true;
  ei_pending : do_status e = true -> fresh_report e
}.

Lemma rx_inv_same R e e' : same_rx e e' -> rx_inv P F R e -> rx_inv P F R e'.
Proof.
  destruct e, e'. intros []. simpl in *. subst. intros [[] ? ? ? ? ?]. by split.
Qed.

Lemma received_same R e e' k : same_rx e e' -> received R e k <-> received R e' k.
Proof. destruct e, e'. intros []. simpl in *. by subst. Qed.

Lemma delivery_same R e R' e1 e2 es es' :
  same_rx e1 e2 -> new_sdus es' = [] -> delivery F R e R' e1 es -> delivery F R e R' e2 (es ++ es').
Proof.
  intros Hs He [D1 D2]. unfold delivery. rewrite new_sdus_app, He, app_nil_r.
  setoid_rewrite <- (received_same R' e1 e2 _ Hs). done.
Qed.

(** ** Establishing the invariant *)

Lemma configured_timer_set d tm :
  configured_timer d = Some tm -> is_running tm = false /\ (0 < d -> is_set tm = true).
Proof.
  unfold configured_timer, timer_set. destruct (Z.ltb_spec 0 d).
  - destruct (MAX_TIMER_DURATION <? d); [done|]. by intros [= <-].
  - intros [= <-]. split; [done|lia].
Qed.

Lemma status_report_limit_range config mx :
  status_report_limit config = Some mx ->
  0 < mx <= rlc_window_size (to_number_am_sn (rxam_sn_field_length config)).
Proof.
  pose proof (am_ring_sizes (rxam_sn_field_length config)). unfold status_report_limit.
  destruct (rxam_max_sn_per_status config) as [m|]; [|intros [= <-]; lia].
  destruct ((m <=? _) && (0 <? m)) eqn:Em; [|done]. bool_prop. intros [= <-]. lia.
Qed.

Lemma create_inv config e :
  create config = Some e -> 0 < rxam_t_reassembly config -> entity_inv 0 e.
Proof.
  unfold create. intros Hc Ht.
  apply bind_Some in Hc as (tp & [Hp1 Hp2]%configured_timer_set & Hc).
  apply bind_Some in Hc as (tr & [Hr1 Hr2]%configured_timer_set & Hc).
  apply bind_Some in Hc as (mx & Hmx%status_report_limit_range & [= <-]).
  pose proof (am_ring_sizes (rxam_sn_field_length config)) as (W1 & W2 & _ & _ & _ & W6).
  match goal with |- entity_inv 0 ?x => set (e := x) end.
  assert (forall k, win e k = None) as Hw by done.
  assert (is_sn e 0) as H0 by (split; [done|apply mod_pos]).
  assert (dist e 0 = 0) as Hd by apply dist_next.
  split; simpl; auto; [| |done].
  - split; simpl; auto; try done; [|by rewrite Hr1].
    assert (0 < mod_ e) by apply mod_pos.
    split; simpl; auto; try done; rewrite ?Hd; try done.
    unfold am_window_size. simpl. lia.
  - split; simpl; try done.
    + repeat (apply NoDup_cons; split; [set_solver|]). by apply NoDup_nil.
    + lia.
    + repeat constructor.
Qed.

(** ** Status report *)

Record same_ctl (e e' : rlc_rx_am_entity) : Prop := {
  sc_do : do_status e' = do_status e;
  sc_pt : status_prohibit_timer e' = status_prohibit_timer e;
  sc_pr : status_prohibit_timer_is_running e' = status_prohibit_timer_is_running e
}.

Lemma wp_refresh R e :
  rx_inv P F R e -> buffers_ok e ->
  wp refresh_status_report (fun _ e' es => es = [] /\ same_rx e e' /\ same_ctl e e' /\
    buffers_ok e' /\ fresh_report e') e.
Proof.
  intros Hi Hb. eapply wp_mono; [by apply (wp_refresh_status_report P F R); [apply Hi|]|].
  cbv beta. intros _ e' es (-> & s & -> & Hr). split; [done|]. split; [done|]. split; [done|].
  split; [by apply published_buffers_ok; [|apply Hr..]|].
  exists s. simpl. split; [|split; [|done]].
  - apply list_lookup_insert_eq. rewrite (bo_len e Hb). apply (bo_range e Hb).
  - by apply (report_of_ext e).
Qed.

Lemma wp_notify e (Q : unit -> rlc_rx_am_entity -> list rx_event -> Prop) :
  (forall es, new_sdus es = [] -> Q tt e es) -> wp notify_status_report_changed Q e.
Proof. intros HQ. unfold notify_status_report_changed. wp_steps; by apply HQ. Qed.

(** After the scope exit of [handle_data_pdu] the invariant holds again. *)
Lemma wp_on_function_exit R e changed requested :
  rx_inv P F R e -> buffers_ok e ->
  (0 < rxam_t_status_prohibit (cfg e) -> is_set (status_prohibit_timer e) = true) ->
  (changed = false -> do_status e = true -> fresh_report e) ->
  wp (on_function_exit changed requested) (fun _ e' es =>
    new_sdus es = [] /\ same_rx e e' /\ entity_inv R e' /\
    (requested = true -> fresh_report e' /\ do_status e' = true)) e.
Proof.
  intros Hi Hb Hp Hd. unfold on_function_exit. wp_step. wp_step.
  - eapply wp_mono; [by apply (wp_refresh R)|]. cbv beta.
    intros _ e1 es1 (-> & Hs & Hc & Hb1 & Hf). wp_step.
    assert (forall b, (requested = true -> b = true) -> (requested = false -> b = do_status e1) ->
      entity_inv R (set_do_status b e1) /\ same_rx e (set_do_status b e1) /\ fresh_report (set_do_status b e1)) as G.
    { intros b _ _. split; [|split; [|by apply fresh_set_do_status]].
      - split; [|by destruct Hb1| |intros _; by apply fresh_set_do_status].
        + apply (rx_inv_same R e); [|done]. by destruct Hs.
        + simpl. rewrite (sx_cfg _ _ Hs), (sc_pt _ _ Hc). exact Hp.
      - by destruct Hs. }
    wp_step.
    + wp_step. wp_step; [|congruence]. apply wp_notify. intros es Hes.
      destruct (G true) as (G1 & G2 & G3); [done|congruence|]. by do 3 (split; [done|]).
    + wp_step; [|congruence]. apply wp_notify. intros es Hes.
      destruct (G (do_status e1)) as (G1 & G2 & G3); [congruence|done|].
      replace (set_do_status (do_status e1) e1) with e1 in * by (by destruct e1).
      do 3 (split; [done|]). congruence.
  - apply orb_false_iff in H0 as [-> ->]. cbn [when orb]. wp_steps.
    split; [done|]. split; [done|]. split; [|done]. split; auto.
Qed.

(** ** Data PDUs *)
Context (P_advance : forall k s n, seg_fits s -> sg_so s <= n < seg_end s -> P k s ->
           P k (advance_segment s (u32 (n - sg_so s)) n))
  (F_segments : forall k l, chain 0 l -> Forall (P k) l -> snd (inventory_loop 0 l) = true ->
     F k (concat (map sg_payload l))).

(** What the peer may send: if the PDU falls into the window and is no duplicate, its payload is
    what its absolute number calls for. *)
Definition pdu_ok (R : Z) (e : rlc_rx_am_entity) (buf : list Z) : Prop :=
  Forall is_byte buf /\
  forall h, rlc_am_read_data_pdu_header buf (rxam_sn_field_length (cfg e)) = Ok (Some h) ->
    dc h = dc_data -> get_packed_size h < zlen buf -> dist e (sn h) < am_window_size e -> complete e (sn h) = false ->
    arrives P F (R + dist e (sn h)) h (drop (Z.to_nat (get_packed_size h)) buf).

(** The PDU carries a data header and asks for a status report. *)
Definition polls (e : rlc_rx_am_entity) (buf : list Z) : Prop :=
  exists h, rlc_am_read_data_pdu_header buf (rxam_sn_field_length (cfg e)) = Ok (Some h) /\
    dc h = dc_data /\ get_packed_size h < zlen buf /\ p h = 1.

Definition is_data (buf : list Z) : Prop :=
  forall b, hd_error buf = Some b -> dc_of_Z (Z.land (Z.shiftr b 7) 0x01) = dc_data.

Lemma data_header size buf h : is_data buf -> buf <> [] -> header_ranges size buf h -> dc h = dc_data.
Proof. intros Hd Hne Hr. destruct buf as [|b bs]; [done|]. rewrite (hr_dc _ _ _ Hr b); [by apply Hd|done]. Qed.

Lemma wp_handle_data_pdu_body R alloc e buf :
  rx_inv P F R e -> pdu_ok R e buf -> is_data buf -> buf <> [] ->
  wp (handle_data_pdu_body alloc buf) (fun r e' es => frame e e' /\
    (polls e buf -> snd r = true) /\
    (fst r = false -> same_vars e e' /\ forall k, win e' k = win e k) /\
    exists R', R' = next_abs R e e' /\ rx_inv P F R' e' /\ delivery F R e R' e' es) e.
Proof.
  intros Hi [Hb Hok] Hdata Hne. unfold handle_data_pdu_body. wp_step. wp_step.
  destruct (read_header_ranges (rxam_sn_field_length (cfg e)) buf Hb) as (r & Er & Hr).
  rewrite Er in *. simpl app.
  assert (forall (x : bool) es, new_sdus es = [] -> (polls e buf -> x = true) ->
    wp (ret (false, x)) (fun (r : bool * bool) e' es' => frame e e' /\ (polls e buf -> snd r = true) /\
    (fst r = false -> same_vars e e' /\ forall k, win e' k = win e k) /\
    exists R', R' = next_abs R e e' /\ rx_inv P F R' e' /\ delivery F R e R' e' (es ++ es')) e) as Hskip.
  { intros x es Hes Hx. wp_step. do 3 (split; [done|]). exists R. split; [unfold next_abs; rewrite dist_next; lia|]. split; [done|].
    apply delivery_nothing; [by rewrite app_nil_r|done]. }
  destruct r as [h|].
  2: { wp_step. wp_step. apply (Hskip false [_]); [done|]. intros (h & Hh & _). congruence. }
  pose proof (hr_sn _ _ _ Hr) as Hsn. pose proof (data_header _ _ _ Hdata Hne Hr) as Hdc. cbv zeta.
  assert (polls e buf -> get_packed_size h < zlen buf /\ negb (p h =? 0) = true) as Hpolls.
  { intros (h' & Hh' & _ & Hl & Hp). rewrite Er in Hh'. injection Hh' as <-. split; [done|]. by rewrite Hp. }
  wp_step; [apply (Hskip false []); [done|]; bool_prop; intros [? _]%Hpolls; lia|].
  wp_step; [apply (Hskip _ []); [done|]; by intros [_ ?]%Hpolls|].
  unfold inside_rx_window in *. to_dist. bool_prop.
  wp_step. apply wp_is_fully_received; [done|].
  wp_step; [apply (Hskip _ []); [done|]; by intros [_ ?]%Hpolls|].
  wp_step. eapply wp_mono; [by apply (wp_handle_window_pdu P F P_advance F_segments R); [..|by apply Hok]|].
  cbv beta. intros changed e' es (Hf & Hch & HR). wp_step. rewrite app_nil_r.
  split; [done|]. split; [by intros [_ ?]%Hpolls|]. by split.
Qed.

Lemma frame_buffers e e' : frame e e' -> buffers_ok e -> buffers_ok e'.
Proof.
  intros Hf [B1 B2 B3 B4 B5]. pose proof (frame_mod _ _ Hf) as Em. destruct Hf.
  split; unfold am_window_size in *; rewrite ?fr_buf, ?fr_w, ?fr_x, ?fr_r, ?fr_cfg, ?Em, ?fr_max; done.
Qed.

Lemma frame_fresh e e' :
  frame e e' -> same_vars e e' -> (forall k, win e' k = win e k) -> fresh_report e -> fresh_report e'.
Proof.
  intros Hf (V1 & V2 & V3) Hw (s & H1 & H2 & H3). destruct Hf. exists s.
  rewrite fr_buf, fr_x, fr_size. split; [done|]. split; [|done]. by apply (report_of_ext e).
Qed.

Lemma wp_handle_data_pdu R alloc e buf :
  entity_inv R e -> pdu_ok R e buf -> is_data buf -> buf <> [] ->
  wp (handle_data_pdu alloc buf) (fun _ e' es => cfg e' = cfg e /\ (polls e buf -> do_status e' = true) /\
    exists R', R' = next_abs R e e' /\ entity_inv R' e' /\ delivery F R e R' e' es) e.
Proof.
  intros [Hi Hb Hp Hd] Hok Hdata Hne. unfold handle_data_pdu. wp_step.
  eapply wp_mono; [by apply wp_handle_data_pdu_body|]. cbv beta.
  intros [changed requested] e1 es1 (Hf & Hpoll & Hch & R' & HR & Hi1 & Hdel). simpl fst. simpl snd.
  eapply wp_mono.
  { apply (wp_on_function_exit R' e1); [done|by eapply frame_buffers| |].
    - rewrite (fr_cfg _ _ Hf), (fr_pt _ _ Hf). exact Hp.
    - intros Hc. rewrite (fr_do _ _ Hf). intros Hx%Hd. destruct (Hch Hc). by eapply frame_fresh. }
  cbv beta. intros _ e2 es2 (Hn & Hs & He & Hreq). split; [rewrite (sx_cfg _ _ Hs); apply Hf|].
  split; [intros Hx; by apply Hreq, Hpoll|].
  exists R'. split; [unfold next_abs; by rewrite (sx_st _ _ Hs)|]. split; [done|]. by eapply delivery_same.
Qed.

Lemma wp_handle_control_pdu e buf (Q : unit -> rlc_rx_am_entity -> list rx_event -> Prop) :
  Forall is_byte buf -> (forall es, new_sdus es = [] -> Q tt e es) -> wp (handle_control_pdu buf) Q e.
Proof.
  intros Hb HQ. unfold handle_control_pdu. wp_step. wp_step.
  destruct (unpack_total (new_status_pdu (rxam_sn_field_length (cfg e))) buf) as (s & ok & -> & _ & _);
    [done|done|].
  destruct ok; wp_step; by apply HQ.
Qed.

(** Any PDU of bytes is handled without an abort; SDUs are delivered at most once and as the
    sender numbered them. *)
Lemma wp_handle_pdu R alloc e buf :
  entity_inv R e -> pdu_ok R e buf ->
  wp (handle_pdu alloc buf) (fun _ e' es => cfg e' = cfg e /\ (polls e buf -> do_status e' = true) /\
    exists R', R' = next_abs R e e' /\ entity_inv R' e' /\ delivery F R e R' e' es) e.
Proof.
  intros He Hok. unfold handle_pdu. wp_step. wp_step.
  assert (forall es, new_sdus es = [] -> ~ polls e buf -> cfg e = cfg e /\
    (polls e buf -> do_status e = true) /\
    exists R', R' = next_abs R e e /\ entity_inv R' e /\ delivery F R e R' e es) as Hskip.
  { intros es Hes Hp. split; [done|]. split; [done|].
    exists R. split; [unfold next_abs; rewrite dist_next; lia|]. split; [done|]. by apply delivery_nothing. }
  destruct buf as [|b0 bs] eqn:Ebuf.
  { wp_step. apply Hskip; [done|]. intros (h & _ & _ & Hl & _). rewrite zlen_nil in Hl.
    unfold get_packed_size, rlc_am_pdu_header_max_size, rlc_am_pdu_header_min_size in Hl.
    by destruct (_ || _), (sn_size h). }
  rewrite <- Ebuf in *.
  wp_step. wp_step. wp_step. unfold is_control_pdu. wp_step. apply (wp_need _ b0); [by rewrite Ebuf|].
  wp_step. wp_step.
  - wp_step. wp_step. apply wp_handle_control_pdu; [apply Hok|]. intros es Hes. apply Hskip.
    + simpl. exact Hes.
    + intros (h & Hh & Hdc & _). destruct (read_header_ranges (rxam_sn_field_length (cfg e)) buf (proj1 Hok))
        as (r & Hr & Hran). rewrite Hh in Hr. injection Hr as <-.
      rewrite (hr_dc _ _ _ Hran b0) in Hdc by (by rewrite Ebuf). simpl in *. bool_prop.
      unfold dc_of_Z in Hdc. rewrite H0 in Hdc. done.
  - eapply wp_mono; [apply (wp_handle_data_pdu R); try done|].
    + intros b Hb. rewrite Ebuf in Hb. injection Hb as <-. simpl in *. unfold dc_of_Z. by rewrite H0.
    + by rewrite Ebuf.
    + cbv beta. intros _ e' es H1. exact H1.
Qed.

(** ** Timers *)

Lemma set_tm_win_inv R e tm : win_inv P F R None e -> win_inv P F R None (set_reassembly_timer tm e).
Proof. intros []. by split. Qed.

(** The state after t-Reassembly expired: RX_Highest_Status moves to the first incomplete SDU. *)
Lemma wp_expired_update R e :
  win_inv P F R None e -> complete e (rx_next (st e)) = false -> is_set (reassembly_timer e) = true ->
  is_running (reassembly_timer e) = false -> trigger_ok e ->
  wp update_after_expiry
    (fun _ e' es => es = [] /\ frame e e' /\ rx_window e' = rx_window e /\
       rx_next (st e') = rx_next (st e) /\ rx_inv P F R e' /\
       dist e (rx_next_status_trigger (st e)) <= dist e (rx_highest_status (st e')) /\
       forall y, is_sn e y ->
         dist e (rx_next_status_trigger (st e)) <= dist e y < dist e (rx_highest_status (st e')) ->
         complete e y = true) e.
Proof.
  intros Hi Hn Hset Hrun [Htr _]. pose proof (ring_sizes e) as (W1 & W2 & _ & _ & _ & W6).
  pose proof (wi_nh_w _ _ _ _ _ Hi) as Hnw. unfold update_after_expiry.
  wp_step. wp_step. wp_step. eapply (wp_scan P F R None); [done|apply Hi|lia|].
  intros x Hx Hd Hall Hcx. wp_step. apply wp_assert.
  { unfold valid_ack_sn. to_dist. apply andb_true_iff. split; [apply Z.ltb_lt|apply Z.leb_le]; lia. }
  wp_step. wp_step. set (e1 := set_rx_highest_status x e).
  assert (win_inv P F R None e1) as Hi1 by (apply set_hs_win_inv; [done|done|lia]).
  wp_step. apply (wp_restart_needed e1); [done|change (dist e1 x + 1 < mod_ e); change (dist e1 x) with (dist e x); lia|].
  wp_step.
  - eapply wp_mono; [by apply wp_run_reassembly_timer|]. cbv beta.
    intros _ e' es (-> & tm & R1 & R2 & ->). do 4 (split; [done|]). split; [|split; [simpl; lia|done]].
    split; try done; [| |by left].
    + destruct Hi1. by split.
    + intros _. split; [|by apply (wi_last _ _ _ _ _ Hi1); simpl; change (0 < dist e (rx_next_highest (st e))); lia].
      change (0 < dist e (rx_next_highest (st e)) <= dist e (rx_next_highest (st e))). lia.
  - do 4 (split; [done|]). split; [|split; [simpl; lia|done]].
    split; try done; [|by right]. intros Hrun1. change (is_running (reassembly_timer e) = true) in Hrun1. congruence.
Qed.

Lemma trigger_valid R e :
  win_inv P F R None e -> trigger_ok e -> valid_ack_sn e (rx_next_status_trigger (st e)) = true.
Proof.
  intros Hi [Ht _]. pose proof (wi_nh_w _ _ _ _ _ Hi). unfold valid_ack_sn. to_dist.
  apply andb_true_iff. split; [apply Z.ltb_lt|apply Z.leb_le]; lia.
Qed.

(** The expiry task of t-Reassembly: a stale task changes nothing; otherwise RX_Highest_Status
    passes every complete SDU from RX_Next_Status_Trigger on, and a status report is triggered. *)
Lemma wp_reassembly_timeout R e epoch :
  entity_inv R e -> (tm_cmd_id (reassembly_timer e) = epoch -> is_running (reassembly_timer e) = true) ->
  wp (reassembly_timeout epoch) (fun _ e' es => cfg e' = cfg e /\ new_sdus es = [] /\ entity_inv R e' /\
    rx_window e' = rx_window e /\ rx_next (st e') = rx_next (st e) /\
    (tm_cmd_id (reassembly_timer e) = epoch ->
       do_status e' = true /\
       dist e (rx_next_status_trigger (st e)) <= dist e (rx_highest_status (st e')) /\
       forall y, is_sn e y ->
         dist e (rx_next_status_trigger (st e)) <= dist e y < dist e (rx_highest_status (st e')) ->
         complete e y = true)) e.
Proof.
  intros He Hep. pose proof (ei_rx _ _ He) as Hri. unfold reassembly_timeout. wp_step. wp_step. wp_step.
  apply wp_timeout_task; [done|intros Ee|intros Ne]; wp_step; wp_step; simpl fst; simpl snd; cbn [when].
  2: { replace (set_reassembly_timer (reassembly_timer e) e) with e by (by destruct e).
    wp_step. by do 5 (split; [done|]). }
  specialize (Hep Ee). set (e1 := set_reassembly_timer _ e).
  assert (win_inv P F R None e1) as Hi1 by (apply set_tm_win_inv, Hri).
  assert (trigger_ok e1) as Ht1 by exact (ri_trig _ _ _ _ Hri Hep).
  unfold on_expired_reassembly_timer. wp_step. wp_step. change (is_running (reassembly_timer e1)) with false.
  cbv iota. rewrite (trigger_valid R) by done. cbn [negb]. wp_step.
  eapply wp_mono; [apply (wp_expired_update R); try done; apply Hri|]. cbv beta.
  intros _ e2 es2 (-> & Hf2 & Hw2 & Hn2 & Hri2 & Hhs & Hall). wp_step.
  eapply wp_mono; [apply (wp_refresh R); [done|by eapply frame_buffers; [|destruct (ei_buf _ _ He)]]|].
  cbv beta. intros _ e3 es3 (-> & Hs3 & Hc3 & Hb3 & Hfresh). wp_step. wp_step. apply wp_notify.
  intros es Hes. simpl app. split; [simpl; rewrite (sx_cfg _ _ Hs3); apply Hf2|]. split; [done|]. split.
  - split.
    + apply (rx_inv_same R e2); [|done]. by destruct Hs3.
    + by destruct Hb3.
    + simpl. rewrite (sx_cfg _ _ Hs3), (sc_pt _ _ Hc3), (fr_cfg _ _ Hf2), (fr_pt _ _ Hf2). apply He.
    + intros _. by apply fresh_set_do_status.
  - simpl. rewrite (sx_win _ _ Hs3), (sx_st _ _ Hs3), Hw2, Hn2. by do 3 (split; [done|]).
Qed.

(** ** The transmitting side reads the report *)

Lemma buffers_read_swap e e' :
  buffers_ok e -> cfg e' = cfg e -> max_nof_sn_per_status_report e' = max_nof_sn_per_status_report e ->
  status_buf e' = status_buf e -> status_owned_by_writer e' = status_owned_by_writer e ->
  status_for_exchange e' = status_owned_by_reader e -> status_owned_by_reader e' = status_for_exchange e ->
  buffers_ok e'.
Proof.
  intros [B1 B2 B3 B4 B5] E1 E2 E3 E4 E5 E6.
  split; unfold am_window_size, mod_ in *; rewrite ?E1, ?E2, ?E3, ?E4, ?E5, ?E6; try done; [|tauto].
  rewrite !NoDup_cons, !not_elem_of_cons in *. naive_solver.
Qed.

Lemma wp_get_status_pdu R e :
  entity_inv R e ->
  wp get_status_pdu (fun s e' es => cfg e' = cfg e /\ new_sdus es = [] /\ entity_inv R e' /\
    same_rx e e' /\ do_status e' = false /\
    (do_status e = true -> report_of e s /\ packed_size s = get_status_pdu_length e)) e.
Proof.
  intros He. pose proof (ei_buf _ _ He) as Hb. unfold get_status_pdu, status_at.
  destruct (lookup_lt_is_Some_2 (status_buf e) (status_for_exchange e)) as [s Hs].
  { rewrite (bo_len e Hb). apply (bo_range e Hb). }
  assert (forall pr, let e' := set_status_owned_by_reader (status_for_exchange e)
     (set_status_for_exchange (status_owned_by_reader e)
       (set_status_prohibit_timer_is_running pr (set_do_status false e))) in
    entity_inv R e' /\ same_rx e e') as G.
  { intros pr e'. split; [|done]. split; try apply He; [|by apply (buffers_read_swap e)|done].
    apply (rx_inv_same R e); [done|apply He]. }
  assert (do_status e = true -> report_of e s /\ packed_size s = status_report_size e) as Hrep.
  { intros (s' & H1 & H2 & H3)%(ei_pending _ _ He). rewrite Hs in H1. injection H1 as <-. done. }
  wp_step. wp_step. wp_step. wp_step. wp_step. wp_step.
  - wp_step. wp_step. wp_step. wp_step. wp_step. wp_step. wp_step. wp_step. wp_step.
    simpl. eapply wp_need; [exact Hs|]. simpl. destruct (G true). by split_and!.
  - wp_step. wp_step. wp_step. wp_step. wp_step. wp_step.
    simpl. eapply wp_need; [exact Hs|]. simpl.
    destruct (G (status_prohibit_timer_is_running e)) as [G1 G2].
    replace (set_status_prohibit_timer_is_running (status_prohibit_timer_is_running e) (set_do_status false e))
      with (set_do_status false e) in * by done.
    by split_and!.
Qed.

Lemma entity_inv_ctl R e e' :
  entity_inv R e -> same_rx e e' -> frame (set_status_prohibit_timer_is_running false
    (set_status_prohibit_timer (status_prohibit_timer e') e))
    (set_status_prohibit_timer_is_running false e') ->
  (is_set (status_prohibit_timer e) = true -> is_set (status_prohibit_timer e') = true) ->
  entity_inv R e'.
Proof.
  intros [H1 H2 H3 H4] Hs [] Hset. simpl in *. split.
  - by apply (rx_inv_same R e).
  - destruct H2 as [B1 B2 B3 B4 B5]. split; unfold am_window_size, mod_ in *;
      rewrite ?fr_buf, ?fr_w, ?fr_x, ?fr_r, ?fr_cfg, ?fr_max; done.
  - rewrite fr_cfg. auto.
  - rewrite fr_do. intros (s & F1 & F2 & F3)%H4. exists s. split; [congruence|]. split; [|congruence].
    apply (report_of_ext e); try done; [by rewrite (sx_st _ _ Hs)..|].
    intros k. unfold win. by rewrite (sx_win _ _ Hs).
Qed.

Lemma wp_status_prohibit_timeout R e epoch :
  entity_inv R e -> (tm_cmd_id (status_prohibit_timer e) = epoch -> is_running (status_prohibit_timer e) = true) ->
  wp (status_prohibit_timeout epoch) (fun _ e' es => cfg e' = cfg e /\ new_sdus es = [] /\ entity_inv R e' /\
    same_rx e e' /\ do_status e' = do_status e) e.
Proof.
  intros He Hep. unfold status_prohibit_timeout. wp_step. wp_step. wp_step.
  apply wp_timeout_task; [done|intros Ee|intros Ne]; wp_step; wp_step; simpl fst; simpl snd; cbn [when].
  - unfold on_expired_status_prohibit_timer. wp_step. wp_step. apply wp_notify. intros es Hes.
    simpl app. do 2 (split; [done|]). split; [|done].
    eapply entity_inv_ctl; [done|done|done|]. done.
  - replace (set_status_prohibit_timer (status_prohibit_timer e) e) with e by (by destruct e).
    wp_step. done.
Qed.

Lemma wp_run_status_prohibit_timer R e :
  entity_inv R e -> 0 < rxam_t_status_prohibit (cfg e) ->
  wp run_status_prohibit_timer (fun _ e' es => cfg e' = cfg e /\ new_sdus es = [] /\ entity_inv R e' /\
    same_rx e e' /\ do_status e' = do_status e) e.
Proof.
  intros He Ht. unfold run_status_prohibit_timer, timer_run.
  wp_step. wp_step. wp_step. rewrite (ei_prohibit _ _ He Ht). cbn [negb]. wp_step. wp_step.
  do 2 (split; [done|]). split; [|done]. eapply entity_inv_ctl; [done..|].
  intros _. simpl. apply (ei_prohibit _ _ He Ht).
Qed.
End entity.
