(* ===== verification/RlcRxAmTheorems.v ===== *)
(** * RLC AM receiving entity: theorems

    The entity as a state machine whose steps are the calls of its neighbours, and what holds in
    every state it can reach. *)

From S2P Require Import Prelude Effects Window RlcConfig RlcAmPdu RlcAmPduFacts Timers Segments RlcRxAm RlcRxAmWindow RlcRxAmStatus RlcRxAmProps.
Import AmHeader RlcAmPdu.StatusPdu RlcRxAm.
Open Scope Z_scope.
Open Scope entity_scope.

(** ** The state machine *)

Inductive operation :=
| op_handle_pdu (alloc : option Z) (buf : list Z)
| op_get_status_pdu
| op_reassembly_timeout (epoch : Z)
| op_status_prohibit_timeout (epoch : Z)
| op_run_status_prohibit_timer.

Definition run_operation (o : operation) : H unit :=
  match o with
  | op_handle_pdu alloc buf => handle_pdu alloc buf
  | op_get_status_pdu => let! _ := get_status_pdu in ret tt
  | op_reassembly_timeout epoch => reassembly_timeout epoch
  | op_status_prohibit_timeout epoch => status_prohibit_timeout epoch
  | op_run_status_prohibit_timer => run_status_prohibit_timer
  end.

(** The executor and the timer back end: an expiry task of the current epoch means that the timer is
    running, and the prohibit timer is only started on behalf of [get_status_pdu]. *)
Definition env_ok (e : rlc_rx_am_entity) (o : operation) : Prop :=
  match o with
  | op_reassembly_timeout epoch =>
      tm_cmd_id (reassembly_timer e) = epoch -> is_running (reassembly_timer e) = true
  | op_status_prohibit_timeout epoch =>
      tm_cmd_id (status_prohibit_timer e) = epoch -> is_running (status_prohibit_timer e) = true
  | op_run_status_prohibit_timer => 0 < rxam_t_status_prohibit (cfg e)
  | _ => True
  end.

(** Segments end within the 16-bit offsets; nothing else is asked of the peer. *)
Definition pdu_fits (config : rlc_rx_am_config) (buf : list Z) : Prop :=
  Forall is_byte buf /\
  forall h, rlc_am_read_data_pdu_header buf (rxam_sn_field_length config) = Ok (Some h) ->
    dc h = dc_data -> so h + (zlen buf - get_packed_size h) <= 65535.

Definition operation_ok (e : rlc_rx_am_entity) (o : operation) : Prop :=
  env_ok e o /\ match o with op_handle_pdu _ buf => pdu_fits (cfg e) buf | _ => True end.

Inductive reachable (config : rlc_rx_am_config) : rlc_rx_am_entity -> Prop :=
| reachable_create e : create config = Some e -> reachable config e
| reachable_step e o e' es :
    reachable config e -> operation_ok e o -> run_operation o e = Ok (tt, e', es) -> reachable config e'.

(** ** One invariant for both readings *)
Section steps.
Context (P : Z -> rlc_rx_am_sdu_segment -> Prop) (F : Z -> list Z -> Prop)
  (P_advance : forall k s n, seg_fits s -> sg_so s <= n < seg_end s -> P k s ->
     P k (advance_segment s (u32 (n - sg_so s)) n))
  (F_segments : forall k l, chain 0 l -> Forall (P k) l -> snd (inventory_loop 0 l) = true ->
     F k (concat (map sg_payload l))).

Lemma wp_run_operation R e o :
  entity_inv P F R e -> env_ok e o ->
  match o with op_handle_pdu _ buf => pdu_ok P F R e buf | _ => True end ->
  wp (run_operation o) (fun _ e' es => cfg e' = cfg e /\ entity_inv P F (next_abs R e e') e' /\
    delivery F R e (next_abs R e e') e' es) e.
Proof.
  intros He Henv Hok.
  assert (forall e' es, entity_inv P F R e' -> rx_window e' = rx_window e -> cfg e' = cfg e ->
    rx_next (st e') = rx_next (st e) -> new_sdus es = [] -> cfg e' = cfg e /\
    entity_inv P F (next_abs R e e') e' /\ delivery F R e (next_abs R e e') e' es) as Hquiet.
  { intros e' es He' Hw Hc Hn Hes. assert (next_abs R e e' = R) as ->.
    { unfold next_abs. rewrite Hn, dist_next. lia. }
    split; [done|]. split; [done|]. apply delivery_nothing; [done|].
    intros k [?|(s & S1 & S2 & S3)]; [by left|right]. exists s.
    unfold is_sn, dist, mod_, complete, win in *. rewrite Hw, Hc, Hn. done. }
  destruct o; simpl in *.
  - eapply wp_mono; [by apply (wp_handle_pdu P F P_advance F_segments R)|]. cbv beta.
    intros _ e' es (Hc & _ & R' & -> & He' & Hdel). done.
  - wp_step. eapply wp_mono; [by apply (wp_get_status_pdu P F R)|]. cbv beta.
    intros s e' es (Hc & Hes & He' & Hs & _). wp_step. rewrite app_nil_r.
    apply Hquiet; try done; [apply Hs|by rewrite (sx_st _ _ Hs)].
  - eapply wp_mono; [by apply (wp_reassembly_timeout P F R)|]. cbv beta.
    intros _ e' es (Hc & Hes & He' & Hw & Hn & _). by apply Hquiet.
  - eapply wp_mono; [by apply (wp_status_prohibit_timeout P F R)|]. cbv beta.
    intros _ e' es (Hc & Hes & He' & Hs & _).
    apply Hquiet; try done; [apply Hs|by rewrite (sx_st _ _ Hs)].
  - eapply wp_mono; [by apply (wp_run_status_prohibit_timer P F R)|]. cbv beta.
    intros _ e' es (Hc & Hes & He' & Hs & _).
    apply Hquiet; try done; [apply Hs|by rewrite (sx_st _ _ Hs)].
Qed.
End steps.

(** Against an arbitrary peer. *)
Definition any_segment (_ : Z) (_ : rlc_rx_am_sdu_segment) : Prop := True.
Definition any_sdu (_ : Z) (_ : list Z) : Prop := True.
Definition safe (e : rlc_rx_am_entity) : Prop := exists R, entity_inv any_segment any_sdu R e.

Lemma pdu_fits_ok R e buf : pdu_fits (cfg e) buf -> pdu_ok any_segment any_sdu R e buf.
Proof.
  intros [Hb Hfit]. split; [done|]. intros h Hh Hdc Hl _ _.
  destruct (read_header_ranges (rxam_sn_field_length (cfg e)) _ Hb) as (r & Hr & Hran). rewrite Hh in Hr. injection Hr as <-.
  unfold arrives. destruct (si_eqb (si h) full_sdu); [done|]. split; [done|].
  pose proof (hr_so _ _ _ Hran). specialize (Hfit h Hh Hdc).
  assert (0 <= get_packed_size h).
  { unfold get_packed_size, rlc_am_pdu_header_max_size, rlc_am_pdu_header_min_size.
    by destruct (_ || _), (sn_size h). }
  unfold seg_fits, seg_end, seg_len. simpl. rewrite zlen_drop by done. lia.
Qed.

Lemma safe_step e o :
  safe e -> operation_ok e o ->
  exists e' es, run_operation o e = Ok (tt, e', es) /\ safe e' /\ cfg e' = cfg e.
Proof.
  intros [R He] [Henv Hok].
  assert (wp (run_operation o) (fun _ e' es => cfg e' = cfg e /\ safe e') e) as W.
  { eapply wp_mono.
    - apply (wp_run_operation any_segment any_sdu ltac:(done) ltac:(done) R e o); try done.
      destruct o; try done. by apply pdu_fits_ok.
    - cbv beta. intros _ e' es (Hc & He' & _). split; [done|]. by eexists. }
  apply wp_run in W as ([] & e' & es & Hrun & Hc & Hs). eauto.
Qed.

Lemma reachable_safe config e :
  0 < rxam_t_reassembly config -> reachable config e -> safe e /\ cfg e = config.
Proof.
  intros Ht. induction 1 as [e Hc|e o e' es Hr [IH IHc] Hok Hrun].
  - split; [exists 0; by apply (create_inv _ _ config)|]. unfold create in Hc.
    apply bind_Some in Hc as (tp & _ & Hc). apply bind_Some in Hc as (tr & _ & Hc).
    apply bind_Some in Hc as (mx & _ & [= <-]). done.
  - destruct (safe_step e o) as (e1 & es1 & Hrun1 & Hs & Hcfg); [done..|].
    rewrite Hrun in Hrun1. injection Hrun1 as <- _. split; [done|congruence].
Qed.

(** C1: no reachable state of the receiving entity aborts on a PDU, status request or timer expiry,
    and every operation terminates: whatever bytes arrive, no assertion fails, no window entry is
    missing and no loop runs on, as long as segments end at most at octet 65535 and t-Reassembly
    is configured; [rx_am_overlong_segments_abort] shows what longer segments do. *)
Theorem rx_am_never_aborts config e o :
  0 < rxam_t_reassembly config -> reachable config e -> operation_ok e o ->
  exists e' es, run_operation o e = Ok (tt, e', es) /\ reachable config e'.
Proof.
  intros Ht Hr Hok. destruct (reachable_safe config e Ht Hr) as [Hs _].
  destruct (safe_step e o Hs Hok) as (e' & es & Hrun & _). exists e', es.
  split; [done|]. by eapply reachable_step.
Qed.

(** C2: in every reachable state the receive window is RX_Next <= RX_Highest_Status <=
    RX_Next_Highest <= RX_Next + AM_Window_Size; it holds only numbers between RX_Next and
    RX_Next_Highest; the SDUs at RX_Next and RX_Highest_Status are incomplete; a running
    t-Reassembly watches a number inside the window; and when it does not run, no data is missing
    beyond RX_Highest_Status. *)
Theorem rx_am_window_invariant config e :
  0 < rxam_t_reassembly config -> reachable config e ->
  0 <= dist e (rx_highest_status (st e)) <= dist e (rx_next_highest (st e)) /\
  dist e (rx_next_highest (st e)) <= am_window_size e /\
  (forall sn info, win e sn = Some info -> is_sn e sn /\ dist e sn < dist e (rx_next_highest (st e))) /\
  complete e (rx_next (st e)) = false /\ complete e (rx_highest_status (st e)) = false /\
  (is_running (reassembly_timer e) = true ->
     0 < dist e (rx_next_status_trigger (st e)) <= dist e (rx_next_highest (st e))) /\
  (is_running (reassembly_timer e) = false -> missing_after e (rx_highest_status (st e)) = false).
Proof.
  intros Ht Hr. destruct (reachable_safe config e Ht Hr) as [[R [[Hi Hn Hh _ Htr Hd] _ _ _]] _].
  pose proof (dist_range e (rx_highest_status (st e))). pose proof (wi_hs_nh _ _ _ _ _ Hi).
  split; [lia|]. split; [apply Hi|]. split.
  { intros sn info Hw. by destruct (wi_keys _ _ _ _ _ Hi _ _ Hw) as (? & ? & _). }
  do 2 (split; [done|]). split; [by intros [? _]%Htr|]. intros Hx. by destruct Hd; [congruence|].
Qed.

(** C3: a status PDU handed to the transmitting side while a status report is pending is exact: it
    is well-formed and in sync with its packed size, ACK_SN is RX_Highest_Status or the limit of
    visited numbers, and a byte of an SDU is reported missing exactly when the SDU lies before
    ACK_SN and that byte has not been received. *)
Theorem rx_am_status_report_exact config e :
  0 < rxam_t_reassembly config -> reachable config e -> do_status e = true ->
  exists s e' es, get_status_pdu e = Ok (s, e', es) /\ canonical s /\
    st_sn_size s = rxam_sn_field_length (cfg e) /\ packed_size s = get_status_pdu_length e /\
    dist e (ack_sn s) = dist e (rx_highest_status (st e)) `min` max_nof_sn_per_status_report e /\
    forall sn j, is_sn e sn -> 0 <= j <= so_end_of_sdu ->
      (reported (expand (mod_ e) (nacks s)) sn j <-> dist e sn < dist e (ack_sn s) /\ byte_missing e sn j).
Proof.
  intros Ht Hr Hd. destruct (reachable_safe config e Ht Hr) as [[R He] _].
  pose proof (wp_get_status_pdu _ _ R e He) as W. apply wp_run in W as (s & e' & es & Hrun & _ & _ & _ & _ & _ & Hrep).
  destruct (Hrep Hd) as [[Hcan _ Hmod Hsz Hack Hn] Hsize]. exists s, e', es. do 5 (split; [done|]).
  intros sn j Hsn Hj. rewrite Hn. pose proof (dist_range e (ack_sn s)).
  apply (reported_report any_segment any_sdu R); [apply He|done|lia|done].
Qed.

(** ** Integrity of delivery

    A sender numbers its SDUs [D 0, D 1, ...] and sends full SDUs or segments of them, in any order
    and repeatedly; the SN field carries the number modulo the ring. *)
Section integrity.
Context (D : Z -> list Z).

(** [buf] is a PDU with (part of) SDU [k]. *)
Definition pdu_of (config : rlc_rx_am_config) (k : Z) (buf : list Z) : Prop :=
  Forall is_byte buf /\
  forall h, rlc_am_read_data_pdu_header buf (rxam_sn_field_length config) = Ok (Some h) ->
    dc h = dc_data ->
    sn h = k mod cardinality (to_number_am_sn (rxam_sn_field_length config)) /\
    let payload := drop (Z.to_nat (get_packed_size h)) buf in
    if si_eqb (si h) full_sdu then payload = D k
    else slice_of (D k) (mk_segment (si h) (so h) payload).

(** The transmitting window: the sender is at most a window ahead of, or behind, RX_Next. *)
Definition from_sender (R : Z) (e : rlc_rx_am_entity) (o : operation) : Prop :=
  env_ok e o /\
  match o with
  | op_handle_pdu _ buf =>
      exists k, R - am_window_size e <= k < R + am_window_size e /\ pdu_of (cfg e) k buf
  | _ => True
  end.

(** Runs of the entity, with the absolute number of RX_Next and everything emitted so far. *)
Inductive run_from (config : rlc_rx_am_config) : Z -> rlc_rx_am_entity -> list rx_event -> Prop :=
| run_create e : create config = Some e -> run_from config 0 e []
| run_step R e es o e' es' :
    run_from config R e es -> from_sender R e o -> run_operation o e = Ok (tt, e', es') ->
    run_from config (next_abs R e e') e' (es ++ es').

Definition sdu_slice (k : Z) (s : rlc_rx_am_sdu_segment) : Prop := slice_of (D k) s.
Definition is_sdu (k : Z) (d : list Z) : Prop := d = D k.

Lemma sdu_slice_concat k l :
  0 < zlen (D k) <= 65535 -> chain 0 l -> Forall (sdu_slice k) l -> snd (inventory_loop 0 l) = true ->
  is_sdu k (concat (map sg_payload l)).
Proof.
  intros HD Hc Hl Hf. destruct (inventory_loop 0 l) as [g f] eqn:E. simpl in Hf. subst f.
  destruct (inventory_full (D k) 0 l g) as (_ & Hcont & Hend); [lia|done..|].
  destruct (contiguous_bytes (D k) 0 l) as [Hb _]; [lia|done..|].
  unfold is_sdu. rewrite Hb, Hend, Z.sub_0_r. apply sub_all.
Qed.

Lemma pdu_of_ok R e k buf :
  (forall k, 0 < zlen (D k) <= 65535) -> R mod mod_ e = rx_next (st e) ->
  R - am_window_size e <= k < R + am_window_size e -> pdu_of (cfg e) k buf ->
  pdu_ok sdu_slice is_sdu R e buf.
Proof.
  intros HD HR Hk [Hb Hpdu]. split; [done|]. intros h Hh Hdc Hl Hd _.
  destruct (Hpdu h Hh Hdc) as [Hsn Hpl]. pose proof (ring_sizes e) as (W1 & W2 & _).
  assert (dist e (sn h) = (k - R) mod mod_ e) as Ed.
  { unfold dist, sn_diff. rewrite Hsn, <- HR. unfold mod_. by rewrite <- Zminus_mod. }
  assert (k = R + dist e (sn h)) as <-.
  { destruct (Z.le_gt_cases R k).
    - rewrite Ed, Z.mod_small; lia.
    - exfalso. rewrite <- (Z_mod_plus_full _ 1), Z.mul_1_l, Z.mod_small in Ed; lia. }
  unfold arrives. destruct (si_eqb (si h) full_sdu); [done|]. split; [done|].
  apply (slice_of_fits (D k)); [apply HD|done].
Qed.

Lemma run_from_inv config R e es :
  0 < rxam_t_reassembly config -> (forall k, 0 < zlen (D k) <= 65535) -> run_from config R e es ->
  entity_inv sdu_slice is_sdu R e /\ cfg e = config /\
  exists ks, NoDup ks /\ new_sdus es = map D ks /\ Forall (received R e) ks.
Proof.
  intros Ht HD. induction 1 as [e Hc|R e es o e' es' Hr (IHe & IHc & ks & K1 & K2 & K3) [Henv Hfrom] Hrun].
  - split; [by apply (create_inv _ _ config)|]. split.
    + unfold create in Hc. apply bind_Some in Hc as (? & _ & Hc). apply bind_Some in Hc as (? & _ & Hc).
      apply bind_Some in Hc as (? & _ & [= <-]). done.
    + exists []. split; [by apply NoDup_nil|]. by split.
  - assert (wp (run_operation o) (fun _ e' es => cfg e' = cfg e /\
      entity_inv sdu_slice is_sdu (next_abs R e e') e' /\ delivery is_sdu R e (next_abs R e e') e' es) e) as W.
    { apply (wp_run_operation sdu_slice is_sdu); try done.
      - intros k s n Hf Hn Hs. by apply slice_of_advance.
      - intros k l Hc Hl Hf. by apply sdu_slice_concat.
      - destruct o; try done. destruct Hfrom as (k & Hk & Hpdu). apply (pdu_of_ok _ _ k); try done.
        apply (wi_R _ _ _ _ _ (ri_win _ _ _ _ (ei_rx _ _ _ _ IHe))). }
    unfold wp in W. rewrite Hrun in W. destruct W as (Hc & He & Hmono & Hdel).
    split; [done|]. split; [congruence|].
    assert (Forall (received (next_abs R e e') e') ks) as K3' by (eapply Forall_impl; eauto).
    rewrite new_sdus_app. destruct Hdel as [->|(k & d & -> & -> & Hnew & Hgot)].
    + exists ks. rewrite app_nil_r. done.
    + exists (ks ++ [k]). split; [|split].
      * apply NoDup_app. split; [done|]. split; [|apply NoDup_singleton].
        intros x Hx ->%list_elem_of_singleton. rewrite Forall_forall in K3. by apply Hnew, K3.
      * by rewrite map_app, K2.
      * apply Forall_app. split; [done|]. by apply Forall_singleton.
Qed.
End integrity.

(** C4: every SDU handed to the upper layer is one the sender sent, byte for byte, and no SDU is
    handed over twice: whatever the order, duplication, overlap and re-segmentation of the PDUs,
    the delivered SDUs are [D k] for pairwise different numbers [k]. *)
Theorem rx_am_delivery_integrity D config R e es :
  0 < rxam_t_reassembly config -> (forall k, 0 < zlen (D k) <= 65535) -> run_from D config R e es ->
  exists ks, NoDup ks /\ new_sdus es = map D ks /\ Forall (received R e) ks.
Proof. intros Ht HD Hr. by destruct (run_from_inv D config R e es Ht HD Hr) as (_ & _ & ?). Qed.

(** A data PDU with the polling bit triggers a status report, also when the PDU is a duplicate or
    lies outside the receive window. *)
Theorem rx_am_poll_triggers_status config e alloc buf e' es :
  0 < rxam_t_reassembly config -> reachable config e -> pdu_fits config buf -> polls e buf ->
  run_operation (op_handle_pdu alloc buf) e = Ok (tt, e', es) ->
  do_status e' = true /\ fresh_report e'.
Proof.
  intros Ht Hr Hfit Hp Hrun. destruct (reachable_safe config e Ht Hr) as [[R He] Hcfg].
  assert (wp (handle_pdu alloc buf) (fun _ e' es => cfg e' = cfg e /\ (polls e buf -> do_status e' = true) /\
    exists R', R' = next_abs R e e' /\ entity_inv any_segment any_sdu R' e' /\ delivery any_sdu R e R' e' es) e) as W.
  { apply wp_handle_pdu; try done. apply pdu_fits_ok. by rewrite Hcfg. }
  unfold wp in W. simpl in Hrun. rewrite Hrun in W. destruct W as (_ & Hd & R' & _ & He' & _).
  split; [by apply Hd|]. apply He'. by apply Hd.
Qed.

(** When t-Reassembly expires, RX_Highest_Status moves past every complete SDU from
    RX_Next_Status_Trigger on, a status report is triggered that is exact, and t-Reassembly runs
    again if data is still missing beyond; an expiry task overtaken by a restart or stop is
    ignored. *)
Theorem rx_am_reassembly_expiry config e epoch :
  0 < rxam_t_reassembly config -> reachable config e -> env_ok e (op_reassembly_timeout epoch) ->
  exists e' es, reassembly_timeout epoch e = Ok (tt, e', es) /\ new_sdus es = [] /\
    rx_window e' = rx_window e /\ rx_next (st e') = rx_next (st e) /\
    (tm_cmd_id (reassembly_timer e) = epoch ->
       do_status e' = true /\ fresh_report e' /\
       dist e (rx_next_status_trigger (st e)) <= dist e (rx_highest_status (st e')) /\
       complete e' (rx_highest_status (st e')) = false /\
       (forall y, is_sn e y ->
          dist e (rx_next_status_trigger (st e)) <= dist e y < dist e (rx_highest_status (st e')) ->
          complete e y = true) /\
       (is_running (reassembly_timer e') = false -> missing_after e' (rx_highest_status (st e')) = false)) /\
    (tm_cmd_id (reassembly_timer e) <> epoch -> e' = e /\ es = []).
Proof.
  intros Ht Hr Henv. destruct (reachable_safe config e Ht Hr) as [[R He] _].
  pose proof (wp_reassembly_timeout any_segment any_sdu R e epoch He Henv) as W.
  apply wp_run in W as ([] & e' & es & Hrun & Hc & Hes & He' & Hw & Hn & Hexp). exists e', es.
  do 4 (split; [done|]). split.
  - intros Ee. destruct (Hexp Ee) as (Hd & Hle & Hall). split; [done|]. split; [by apply He'|].
    split; [done|]. split; [apply He'|]. split; [done|]. intros Hx.
    destruct (ri_detect _ _ _ _ (ei_rx _ _ _ _ He')); [congruence|done].
  - intros Ne. unfold reassembly_timeout, timeout_task, bind, get in Hrun.
    destruct (Z.eqb_spec (tm_cmd_id (reassembly_timer e)) epoch); [done|].
    cbn in Hrun. injection Hrun as <- <-. by destruct e.
Qed.

(** ** Concrete runs *)

Definition example_config : rlc_rx_am_config := Build_rlc_rx_am_config am_size12bits 35 10 None.

(** An AMD PDU of a 12-bit bearer. *)
Definition example_pdu (p : Z) (si : rlc_si_field) (sn so : Z) (payload : list Z) : list Z :=
  rlc_am_write_data_pdu_header (mk_header dc_data p si am_size12bits sn so) ++ payload.

Lemma pdu_fits_by config buf h :
  forallb (fun b => (0 <=? b) && (b <? 256)) buf = true ->
  rlc_am_read_data_pdu_header buf (rxam_sn_field_length config) = Ok (Some h) ->
  so h + (zlen buf - get_packed_size h) <=? 65535 = true -> pdu_fits config buf.
Proof.
  intros Hb Hh Hle. split.
  - apply Forall_forall. intros b Hin%list_elem_of_In. rewrite forallb_forall in Hb.
    specialize (Hb b Hin). unfold is_byte. bool_prop. lia.
  - intros h' Hh' _. rewrite Hh in Hh'. injection Hh' as <-. lia.
Qed.

Lemma rx_am_never_aborts_witness :
  exists e, create example_config = Some e /\
    exists e' es, run_operation (op_handle_pdu (Some 4) (example_pdu 1 first_segment 2 0 [7; 8])) e =
      Ok (tt, e', es) /\ reachable example_config e'.
Proof.
  eexists. split; [reflexivity|]. apply (rx_am_never_aborts example_config); [reflexivity| |].
  - apply reachable_create. reflexivity.
  - split; [exact I|]. eapply pdu_fits_by; [vm_compute; reflexivity..].
Defined.

Lemma rx_am_window_invariant_witness :
  exists e, create example_config = Some e /\ 0 <= dist e (rx_highest_status (st e)) /\
    missing_after e (rx_highest_status (st e)) = false.
Proof.
  eexists. split; [reflexivity|].
  match goal with |- context [dist ?e _] =>
    destruct (rx_am_window_invariant example_config e) as ([H1 _] & _ & _ & _ & _ & _ & H2)
  end; [reflexivity|apply reachable_create; reflexivity|]. split; [exact H1|]. apply H2. reflexivity.
Defined.

(** The state after a lost SDU 0, a first segment of SDU 1 and a polled SDU 2. *)
Definition example_losses : list (list Z) :=
  [example_pdu 0 first_segment 1 0 [5; 6]; example_pdu 1 full_sdu 2 0 [9]].

Lemma reachable_pdus config alloc pdus : forall e e' es,
  reachable config e -> Forall (pdu_fits config) pdus -> cfg e = config -> 0 < rxam_t_reassembly config ->
  for_each pdus (handle_pdu alloc) e = Ok (tt, e', es) -> reachable config e'.
Proof.
  induction pdus as [|buf pdus IH]; intros e e' es Hr Hf Hc Ht; simpl.
  - by intros [= <- _].
  - apply Forall_cons in Hf as [Hf1 Hf]. unfold bind.
    destruct (handle_pdu alloc buf e) as [[[[] e1] es1]|] eqn:E; [|done].
    destruct (for_each pdus (handle_pdu alloc) e1) as [[[[] e2] es2]|] eqn:E2; [|done].
    intros [= -> _].
    assert (reachable config e1) as Hr1.
    { apply (reachable_step config e (op_handle_pdu alloc buf) e1 es1); [done| |done].
      split; [done|]. by rewrite Hc. }
    apply (IH e1 e' es2); try done. by apply (reachable_safe config e1).
Qed.

Ltac fits_by_computation := repeat (apply Forall_cons; split; [eapply pdu_fits_by; vm_compute; reflexivity|]); apply Forall_nil; exact I.

Lemma rx_am_status_report_exact_witness :
  exists e0 e es0 s e' es, create example_config = Some e0 /\
    for_each example_losses (handle_pdu (Some 4)) e0 = Ok (tt, e, es0) /\
    get_status_pdu e = Ok (s, e', es) /\ canonical s /\
    (reported (expand (mod_ e) (nacks s)) 0 7 <-> dist e 0 < dist e (ack_sn s) /\ byte_missing e 0 7).
Proof.
  eexists _, _, _.
  edestruct (rx_am_status_report_exact example_config) as (s & e' & es & H1 & H2 & _ & _ & _ & H3).
  - reflexivity.
  - eapply (reachable_pdus _ (Some 4) example_losses).
    + apply reachable_create. reflexivity.
    + fits_by_computation.
    + reflexivity.
    + reflexivity.
    + vm_compute. reflexivity.
  - vm_compute. reflexivity.
  - exists s, e', es. split; [reflexivity|]. split; [vm_compute; reflexivity|]. split; [exact H1|].
    split; [exact H2|]. apply H3; [split; vm_compute; congruence|split; vm_compute; congruence].
Defined.

Lemma bytes_by buf : forallb (fun b => (0 <=? b) && (b <? 256)) buf = true -> Forall is_byte buf.
Proof.
  intros Hb. apply Forall_forall. intros b Hin%list_elem_of_In. rewrite forallb_forall in Hb.
  specialize (Hb b Hin). unfold is_byte. bool_prop. lia.
Qed.

(** Two-byte SDUs that carry their own number. *)
Definition example_sdus (k : Z) : list Z := [k mod 256; 1].

Lemma rx_am_delivery_integrity_witness :
  exists R e es ks, run_from example_sdus example_config R e es /\ new_sdus es = [[0; 1]] /\
    NoDup ks /\ new_sdus es = map example_sdus ks.
Proof.
  eexists _, _, _.
  edestruct (rx_am_delivery_integrity example_sdus example_config) as (ks & H1 & H2 & _).
  - reflexivity.
  - intros k. split; vm_compute; congruence.
  - eapply run_step.
    + apply run_create. reflexivity.
    + instantiate (1 := op_handle_pdu (Some 4) (example_pdu 0 full_sdu 0 0 [0; 1])). split; [exact I|].
      exists 0. split; [split; vm_compute; congruence|]. split; [apply bytes_by; reflexivity|].
      intros h Hh _. vm_compute in Hh. injection Hh as <-. vm_compute. split; reflexivity.
    + vm_compute. reflexivity.
  - exists ks. split; [|split; [|split; [exact H1|exact H2]]].
    + eapply run_step.
      * apply run_create. reflexivity.
      * instantiate (1 := op_handle_pdu (Some 4) (example_pdu 0 full_sdu 0 0 [0; 1])). split; [exact I|].
        exists 0. split; [split; vm_compute; congruence|]. split; [apply bytes_by; reflexivity|].
        intros h Hh _. vm_compute in Hh. injection Hh as <-. vm_compute. split; reflexivity.
      * vm_compute. reflexivity.
    + vm_compute. reflexivity.
Defined.

Lemma rx_am_poll_triggers_status_witness :
  exists e e' es, create example_config = Some e /\
    run_operation (op_handle_pdu (Some 4) (example_pdu 1 full_sdu 3000 0 [5])) e = Ok (tt, e', es) /\
    do_status e' = true.
Proof.
  eexists _, _, _. split; [reflexivity|]. split; [vm_compute; reflexivity|].
  eapply (rx_am_poll_triggers_status example_config _ (Some 4) (example_pdu 1 full_sdu 3000 0 [5])).
  - reflexivity.
  - apply reachable_create. reflexivity.
  - eapply pdu_fits_by; vm_compute; reflexivity.
  - eexists. split; [vm_compute; reflexivity|]. repeat split; vm_compute; reflexivity.
  - vm_compute. reflexivity.
Defined.

Lemma rx_am_reassembly_expiry_witness :
  exists e e' es, reassembly_timeout 1 e = Ok (tt, e', es) /\ rx_highest_status (st e) = 0 /\
    dist e (rx_highest_status (st e)) = 0 /\
    dist e (rx_next_status_trigger (st e)) <= dist e (rx_highest_status (st e')).
Proof.
  eexists.
  edestruct (rx_am_reassembly_expiry example_config) with (epoch := 1) as (e' & es & H1 & _ & _ & _ & H2 & _).
  - reflexivity.
  - eapply (reachable_pdus _ (Some 4) example_losses).
    + apply reachable_create. reflexivity.
    + fits_by_computation.
    + reflexivity.
    + reflexivity.
    + vm_compute. reflexivity.
  - intros _. reflexivity.
  - exists e', es. split; [exact H1|]. split; [vm_compute; reflexivity|]. split; [vm_compute; reflexivity|].
    apply H2. vm_compute. reflexivity.
Defined.

(** ** Limits *)

(** Segments that end past offset 65535 break the receiver: the trimmed offset wraps in its 16
    bits, the stored segments overlap, and the status report built when t-Reassembly expires fails
    the assertion [so_start <= so_end], so four PDUs of a peer abort the process. *)
Theorem rx_am_overlong_segments_abort :
  exists e pdus e' es,
    create example_config = Some e /\ Forall (Forall is_byte) pdus /\
    for_each pdus (handle_pdu (Some 12)) e = Ok (tt, e', es) /\
    is_running (reassembly_timer e') = true /\
    reassembly_timeout (tm_cmd_id (reassembly_timer e')) e' = Fault FaultAssert.
Proof.
  eexists _,
    [example_pdu 0 first_segment 0 0 (repeat 7 1001); example_pdu 0 middle_segment 0 65000 (repeat 7 1000);
     example_pdu 0 middle_segment 0 65500 (repeat 7 2000); example_pdu 0 full_sdu 1 0 [1]], _, _.
  split; [reflexivity|]. split.
  { repeat (apply Forall_cons; split; [apply bytes_by; vm_compute; reflexivity|]). by apply Forall_nil. }
  split; [vm_compute; reflexivity|]. split; [vm_compute; reflexivity|]. vm_compute. reflexivity.
Qed.

(** A running t-Reassembly whose trigger is RX_Next + AM_Window_Size is stopped by the next PDU, where
    the comment in the code excludes that value. *)
Lemma stop_at_window_end R e :
  entity_inv any_segment any_sdu R e -> is_running (reassembly_timer e) = true ->
  dist e (rx_next_status_trigger (st e)) = am_window_size e ->
  exists e' es, stop_reassembly_timer e = Ok (tt, e', es) /\ is_running (reassembly_timer e') = false.
Proof.
  intros He Hrun Hd. pose proof (ei_rx _ _ _ _ He) as Hri.
  enough (wp stop_reassembly_timer (fun _ e' _ => is_running (reassembly_timer e') = false) e) as W.
  { apply wp_run in W as ([] & e' & es & ? & ?). eauto. }
  unfold stop_reassembly_timer, inside_rx_window. wp_step. wp_step. wp_step; [|congruence]. to_dist.
  pose proof (ring_sizes e) as (W1 & W2 & _ & _ & _ & W6). rewrite dist_succ', dist_next, Hd by (rewrite dist_next; lia).
  wp_step. replace (am_window_size e =? 0 + 1) with false by lia. wp_step. rewrite Z.ltb_irrefl, orb_true_r.
  wp_step; [|done]. wp_step. simpl. apply is_running_stop.
Qed.
