(* ===== verification/RlcUmPdu.v ===== *)
(** * RLC UM PDU format

    Models [lib/rlc/rlc_um_pdu.h]: the UMD PDU header, which is one octet for a complete SDU, carries
    a sequence number for segments and a segment offset for all but the first.  Readers and writers
    are as in [RlcAmPdu]. *)

From S2P Require Import Prelude Effects RlcConfig RlcAmPdu.
Import Reader.
Open Scope Z_scope.
Open Scope entity_scope.

Module UmHeader.

Definition rlc_um_pdu_header_size_complete_sdu : Z := 1.
Definition rlc_um_pdu_header_size_no_so (sn_size : rlc_um_sn_size) : Z :=
  match sn_size with um_size6bits => 1 | um_size12bits => 2 end.
Definition rlc_um_pdu_header_size_with_so (sn_size : rlc_um_sn_size) : Z :=
  match sn_size with um_size6bits => 3 | um_size12bits => 4 end.

Record rlc_um_pdu_header := mk_um_header { um_si : rlc_si_field; um_sn_size : rlc_um_sn_size; um_sn : Z; um_so : Z }.

(** The fixed part: SI and SN; [None] stands for the result [false]. *)
Definition read_fixed (size : rlc_um_sn_size) : R (option (rlc_si_field * Z)) :=
  let! b := peek in
  let si := si_of_Z (Z.land (Z.shiftr b 6) 0x03) in
  match size with
  | um_size6bits =>
      let sn := Z.land b 0x3f in
      if si_eqb si full_sdu && negb (sn =? 0) then ret None else
      next ;;; ret (Some (si, sn))
  | um_size12bits =>
      let sn := Z.shiftl (Z.land b 0x0f) 8 in
      if si_eqb si full_sdu && negb (sn =? 0) then ret None else
      if si_eqb si first_segment && negb (Z.land (Z.shiftr b 4) 0x03 =? 0) then ret None else
      if negb (si_eqb si full_sdu) then
        next ;;;
        let! e := empty in
        if e then ret None else
        let! b := peek in
        next ;;;
        ret (Some (si, Z.lor sn (Z.land b 0xff)))
      else next ;;; ret (Some (si, sn))
  end.

Definition rlc_um_read_data_pdu_header_m (size : rlc_um_sn_size) : R (option rlc_um_pdu_header) :=
  let! e := empty in
  if e then ret None else
  let! r := read_fixed size in
  match r with
  | None => ret None
  | Some (si, sn) =>
      if si_eqb si last_segment || si_eqb si middle_segment then
        let! oso := AmHeader.read_so in
        match oso with
        | None => ret None
        | Some so => ret (Some (mk_um_header si size sn so))
        end
      else ret (Some (mk_um_header si size sn 0))
  end.

Definition rlc_um_read_data_pdu_header (pdu : list Z) (size : rlc_um_sn_size) : res (option rlc_um_pdu_header) :=
  run (rlc_um_read_data_pdu_header_m size) pdu.

Definition rlc_um_nr_packed_length (h : rlc_um_pdu_header) : Z :=
  if si_eqb (um_si h) full_sdu then 1 else
  (match um_sn_size h with um_size6bits => 1 | um_size12bits => 2 end) + (if negb (um_so h =? 0) then 2 else 0).

Definition rlc_um_write_data_pdu_header (h : rlc_um_pdu_header) : list Z :=
  let b0 := u8 (Z.shiftl (Z.land (to_number_si (um_si h)) 0x03) 6) in
  if si_eqb (um_si h) full_sdu then [b0] else
  let sn_bytes :=
    match um_sn_size h with
    | um_size6bits => [u8 (Z.lor b0 (Z.land (um_sn h) 0x3f))]
    | um_size12bits => [u8 (Z.lor b0 (Z.land (Z.shiftr (um_sn h) 8) 0xf)); u8 (Z.land (um_sn h) 0xff)]
    end in
  if negb (um_so h =? 0)
  then sn_bytes ++ [u8 (Z.shiftr (um_so h) 8); u8 (Z.land (um_so h) 0xff)]
  else sn_bytes.

(** ** Theory *)

(** Header values a sender may build: fields in range, and an SO exactly for a segment that is not the first one. *)
Definition um_header_wf (h : rlc_um_pdu_header) : Prop :=
  0 <= um_sn h < cardinality (to_number_um_sn (um_sn_size h)) /\ 0 <= um_so h < 65536 /\
  (si_has_so (um_si h) = true <-> um_so h <> 0).

(** What the wire keeps: the header of a complete SDU has no sequence number. *)
Definition on_wire (h : rlc_um_pdu_header) : rlc_um_pdu_header :=
  if si_eqb (um_si h) full_sdu then mk_um_header full_sdu (um_sn_size h) 0 0 else h.

Lemma um_write_length h : zlen (rlc_um_write_data_pdu_header h) = rlc_um_nr_packed_length h.
Proof.
  unfold rlc_um_write_data_pdu_header, rlc_um_nr_packed_length.
  by destruct (si_eqb _ _), (um_sn_size h), (um_so h =? 0).
Qed.

Lemma um_packed_length_range h : 1 <= rlc_um_nr_packed_length h <= rlc_um_pdu_header_size_with_so (um_sn_size h).
Proof. unfold rlc_um_nr_packed_length. destruct (si_eqb _ _), (um_sn_size h), (um_so h =? 0); simpl; lia. Qed.

(** The first octet carries SI and the top bits of SN. *)
Lemma um_first_octet s hi : 0 <= hi < 64 ->
  let b := u8 (Z.lor (u8 (Z.shiftl (Z.land (to_number_si s) 0x03) 6)) hi) in
  si_of_Z (Z.land (Z.shiftr b 6) 0x03) = s /\ Z.land b 0x3f = hi.
Proof.
  intros Hhi. apply (range_forall 64 (fun hi => let b := u8 (Z.lor (u8 (Z.shiftl (Z.land (to_number_si s) 0x03) 6)) hi) in
    bool_decide (si_of_Z (Z.land (Z.shiftr b 6) 0x03) = s /\ Z.land b 0x3f = hi))) in Hhi;
    [by apply bool_decide_eq_true in Hhi|]. destruct s; vm_compute; reflexivity.
Qed.

Lemma um_low_bits b hi : Z.land b 0x3f = hi -> hi < 16 -> Z.land b 0x0f = hi /\ Z.land (Z.shiftr b 4) 0x03 = 0.
Proof. rewrite land_63, land_15, land_3. intros. bits_to_arith. split; zmod. Qed.

Lemma wp_read_fixed h rest (Q : option (rlc_si_field * Z) -> list Z -> list Empty_set -> Prop) :
  um_header_wf h -> si_eqb (um_si h) full_sdu = false ->
  Q (Some (um_si h, um_sn h)) ((if negb (um_so h =? 0) then [u8 (Z.shiftr (um_so h) 8); u8 (Z.land (um_so h) 0xff)] else []) ++ rest) [] ->
  wp (read_fixed (um_sn_size h)) Q (rlc_um_write_data_pdu_header h ++ rest).
Proof.
  intros (Hsn & _) Hf HQ. unfold rlc_um_write_data_pdu_header. rewrite Hf. unfold read_fixed.
  destruct (um_sn_size h) eqn:Es; change (cardinality (to_number_um_sn _)) with 64 in Hsn || change (cardinality (to_number_um_sn _)) with 4096 in Hsn.
  - destruct (um_first_octet (um_si h) (Z.land (um_sn h) 0x3f)) as [E1 E2]; [rewrite land_63; zmod|].
    assert (Z.land (um_sn h) 63 = um_sn h) as E3 by (rewrite land_63; zmod).
    cbv zeta in E1, E2. set (b := u8 (Z.lor _ (Z.land (um_sn h) 0x3f))) in *.
    assert ((if negb (um_so h =? 0) then [b] ++ [u8 (Z.shiftr (um_so h) 8); u8 (Z.land (um_so h) 0xff)] else [b]) ++ rest =
      b :: (if negb (um_so h =? 0) then [u8 (Z.shiftr (um_so h) 8); u8 (Z.land (um_so h) 0xff)] else []) ++ rest) as ->
      by by destruct (negb _).
    do 2 rd_step. rewrite E1, E2, E3, Hf. cbn [andb]. by repeat rd_step.
  - assert (0 <= Z.shiftr (um_sn h) 8 < 16) as Hr by (bits_to_arith; zmod).
    assert (Z.land (Z.shiftr (um_sn h) 8) 0xf = Z.shiftr (um_sn h) 8) as E3 by (rewrite land_15; apply Z.mod_small; lia).
    rewrite E3. destruct (um_first_octet (um_si h) (Z.shiftr (um_sn h) 8)) as [E1 E2]; [lia|]. cbv zeta in E1, E2.
    set (b := u8 (Z.lor _ (Z.shiftr (um_sn h) 8))) in *. destruct (um_low_bits b _ E2) as [E4 E5]; [lia|].
    set (b1 := u8 (Z.land (um_sn h) 255)).
    assert ((if negb (um_so h =? 0) then [b; b1] ++ [u8 (Z.shiftr (um_so h) 8); u8 (Z.land (um_so h) 0xff)] else [b; b1]) ++ rest =
      b :: b1 :: (if negb (um_so h =? 0) then [u8 (Z.shiftr (um_so h) 8); u8 (Z.land (um_so h) 0xff)] else []) ++ rest) as ->
      by by destruct (negb _).
    do 2 rd_step. rewrite E1, E4, E5, Hf. cbn [andb negb]. rewrite andb_false_r. cbn [andb].
    do 8 rd_step. cbn [app]. replace (Z.lor _ (Z.land b1 255)) with (um_sn h); [done|].
    unfold b1. rewrite !land_255, lor_shiftl_add by (try lia; apply Z.mod_pos_bound; lia). bits_to_arith. zmod.
Qed.

Lemma um_read_write h payload : um_header_wf h ->
  rlc_um_read_data_pdu_header (rlc_um_write_data_pdu_header h ++ payload) (um_sn_size h) = Ok (Some (on_wire h)).
Proof.
  intros Hwf. apply run_ok. unfold rlc_um_read_data_pdu_header_m.
  assert (exists b r, rlc_um_write_data_pdu_header h ++ payload = b :: r) as (b & r & E).
  { pose proof (um_write_length h) as Hl. pose proof (um_packed_length_range h).
    destruct (rlc_um_write_data_pdu_header h); [rewrite zlen_nil in Hl; lia|]. simpl. eauto. }
  wp_step. rewrite E. rd_step. rewrite <- E. wp_step. unfold on_wire.
  destruct (si_eqb (um_si h) full_sdu) eqn:Ef.
  - apply si_eqb_eq in Ef. unfold rlc_um_write_data_pdu_header. rewrite Ef. cbn.
    unfold read_fixed. rd_step. rd_step. by destruct (um_sn_size h).
  - apply wp_read_fixed; [done..|]. destruct Hwf as (_ & Hso & Hhas). fold (si_has_so (um_si h)).
    destruct (si_has_so (um_si h)).
    + destruct (Z.eqb_spec (um_so h) 0) as [E0|]; [by destruct Hhas as [Hh _]; specialize (Hh eq_refl)|]. cbn [negb app].
      wp_step. apply AmHeader.wp_read_so; [done|]. wp_step. by destruct h.
    + assert (um_so h = 0) as E0.
      { destruct (Z.eq_dec (um_so h) 0) as [|Hn]; [done|]. by apply Hhas in Hn. }
      wp_step. rewrite <- E0. by destruct h.
Qed.

(** ** What a header that is read looks like *)

Record um_header_ranges (size : rlc_um_sn_size) (pdu : list Z) (h : rlc_um_pdu_header) : Prop := {
  ur_size : um_sn_size h = size;
  ur_sn : 0 <= um_sn h < cardinality (to_number_um_sn size);
  ur_so : 0 <= um_so h < 65536;
  ur_full : um_si h = full_sdu -> um_sn h = 0;
  ur_no_so : si_has_so (um_si h) = false -> um_so h = 0;
  ur_length : rlc_um_nr_packed_length h <= zlen pdu
}.

Lemma wp_read_so_any bs (Q : option Z -> list Z -> list Empty_set -> Prop) :
  (forall bs', Q None bs' []) -> (forall so bs', 0 <= so < 65536 -> zlen bs = zlen bs' + 2 -> Q (Some so) bs' []) ->
  Forall is_byte bs -> wp AmHeader.read_so Q bs.
Proof.
  intros HN HS Hb. destruct bs as [|b bs]; [apply HN|].
  destruct bs as [|b1 bs]; [apply HN|]. apply (HS _ bs); [|rewrite !zlen_cons; lia].
  repeat (apply Forall_cons in Hb as [? Hb]). unfold is_byte in *. rewrite !land_255, lor_shiftl_add by zmod. change (2 ^ 8) with 256. zmod.
Qed.

Definition fixed_length (size : rlc_um_sn_size) (si : rlc_si_field) : Z :=
  if si_eqb si full_sdu then 1 else rlc_um_pdu_header_size_no_so size.

Lemma wp_read_fixed_any size b bs (Q : option (rlc_si_field * Z) -> list Z -> list Empty_set -> Prop) :
  (forall bs', Q None bs' []) ->
  (forall si sn bs', 0 <= sn < cardinality (to_number_um_sn size) -> (si = full_sdu -> sn = 0) ->
     zlen (b :: bs) = zlen bs' + fixed_length size si -> Forall is_byte bs' -> Q (Some (si, sn)) bs' []) ->
  Forall is_byte (b :: bs) -> wp (read_fixed size) Q (b :: bs).
Proof.
  intros HN HS [Hb0 Hb]%Forall_cons. unfold is_byte in Hb0. unfold read_fixed. do 2 rd_step.
  set (si := si_of_Z _). assert (forall sn, si_eqb si full_sdu && negb (sn =? 0) = false -> si = full_sdu -> sn = 0) as Hz.
  { intros sn Hsn Hf. rewrite Hf in Hsn. cbn [andb] in Hsn. by apply negb_false_iff, Z.eqb_eq in Hsn. }
  destruct size; cbv zeta.
  - rd_step; [apply HN|]. do 3 rd_step.
    apply HS; [change (cardinality _) with 64; rewrite land_63; zmod|by apply Hz| |done].
    unfold fixed_length. rewrite zlen_cons. by destruct (si_eqb si full_sdu).
  - rd_step; [apply HN|]. rd_step; [apply HN|]. destruct (si_eqb si full_sdu) eqn:Ef; cbn [negb].
    + do 3 rd_step. assert (Z.shiftl (Z.land b 15) 8 = 0) as E0 by (apply Hz; [done|by apply si_eqb_eq]).
      rewrite E0. apply HS; [done|done|unfold fixed_length; by rewrite Ef, zlen_cons|done].
    + do 3 rd_step. destruct bs as [|b1 bs]; [apply HN|]. apply Forall_cons in Hb as [Hb1 Hb]. unfold is_byte in Hb1.
      do 6 rd_step. apply HS; [|intros E; by rewrite E in Ef|unfold fixed_length; rewrite Ef, !zlen_cons; simpl; lia|done].
      change (cardinality _) with 4096. rewrite land_15, land_255, lor_shiftl_add by zmod. change (2 ^ 8) with 256. zmod.
Qed.

Lemma um_read_any size pdu : Forall is_byte pdu ->
  exists r, rlc_um_read_data_pdu_header pdu size = Ok r /\ match r with Some h => um_header_ranges size pdu h | None => True end.
Proof.
  intros Hb. apply run_wp. unfold rlc_um_read_data_pdu_header_m. rd_step. destruct pdu as [|b bs]; [done|]. do 2 rd_step.
  apply wp_read_fixed_any; [intros; by rd_step| |done]. intros si sn bs' Hsn Hf Hl Hb'. fold (si_has_so si).
  assert (0 <= zlen bs') as Hl' by apply zlen_nonneg. destruct (si_has_so si) eqn:Es.
  - assert (si_eqb si full_sdu = false) as E by by destruct si. unfold fixed_length in Hl. rewrite E in Hl.
    rd_step. apply wp_read_so_any; [intros; by rd_step| |done]. intros so bs'' Hso Hl2. rd_step.
    split; simpl; try done; [by rewrite Es|]. unfold rlc_um_nr_packed_length. simpl. rewrite E. pose proof (zlen_nonneg bs'').
    destruct size, (so =? 0); simpl in *; lia.
  - rd_step. split; simpl; try done; try lia. unfold rlc_um_nr_packed_length, fixed_length in *. simpl. destruct (si_eqb si full_sdu); [lia|].
    destruct size; simpl in *; lia.
Qed.

End UmHeader.

(** ** The properties *)

Import UmHeader.

(** An UMD PDU header with fields in range, an SO exactly when the segmentation info announces one, reads back from the
    octets written for it, whatever follows; the header of a complete SDU loses its sequence number. *)
Theorem um_header_roundtrip h payload : um_header_wf h ->
  zlen (rlc_um_write_data_pdu_header h) = rlc_um_nr_packed_length h /\
  rlc_um_read_data_pdu_header (rlc_um_write_data_pdu_header h ++ payload) (um_sn_size h) = Ok (Some (on_wire h)).
Proof. intros Hh. split; [apply um_write_length|by apply um_read_write]. Qed.

Lemma um_header_roundtrip_witness :
  let h := mk_um_header last_segment um_size12bits 3000 700 in
  rlc_um_read_data_pdu_header (rlc_um_write_data_pdu_header h ++ [1; 2]) um_size12bits = Ok (Some h).
Proof.
  intros h. apply (um_header_roundtrip h [1; 2]). split; [split; vm_compute; congruence|].
  split; [split; vm_compute; congruence|]. vm_compute. split; congruence.
Defined.

(** Typing of what is read: on any octets, reading terminates without reading past the PDU, and an accepted header
    has every field in the range of its width, no SN on a complete SDU, no SO unless the segmentation info announces one, and
    lies inside the PDU. *)
Theorem um_header_read_typed size pdu : Forall is_byte pdu ->
  exists r, rlc_um_read_data_pdu_header pdu size = Ok r /\ match r with Some h => um_header_ranges size pdu h | None => True end.
Proof. apply um_read_any. Qed.

Lemma um_header_read_typed_witness :
  exists r, rlc_um_read_data_pdu_header [0x81; 0x02; 0x03] um_size6bits = Ok r /\ r = Some (mk_um_header last_segment um_size6bits 1 515).
Proof.
  destruct (um_header_read_typed um_size6bits [0x81; 0x02; 0x03]) as (r & H & _).
  - repeat (apply Forall_cons; split; [split; [discriminate|reflexivity]|]). apply Forall_nil. exact I.
  - exists r. split; [exact H|]. vm_compute in H. injection H as <-. reflexivity.
Defined.
