(* ===== verification/RlcRxUm.v ===== *)
(** * RLC UM receiving entity

    Models [lib/rlc/rlc_rx_um_entity.{h,cpp}]: complete SDUs are passed on, segments are stored in the
    window until all of an SDU are there, RX_Next_Reassembly, RX_Next_Highest and RX_Timer_Trigger move
    as the code moves them, and t-Reassembly gives up incomplete SDUs.  The segment store is the one of
    [Segments], whose code the UM entity repeats; [byte_buffer_chain] is that of [RlcRxAm].
    Left out: logging and the time of arrival, which only feeds a latency metric. *)

From S2P Require Import Prelude Effects Window RlcConfig RlcAmPdu Timers Segments RlcRxAm RlcUmPdu.
Import UmHeader.
Open Scope Z_scope.
Open Scope entity_scope.

Module RlcRxUm.

Record rlc_rx_um_sdu_info := mk_info { fully_received : bool; has_gap : bool; segments : list rlc_rx_am_sdu_segment }.
Definition sdu_info_default : rlc_rx_um_sdu_info := mk_info false false [].

Record rlc_rx_um_state := mk_state { rx_next_reassembly : Z; rx_timer_trigger : Z; rx_next_highest : Z }.

Record rlc_rx_um_entity := mk_entity {
  cfg : rlc_rx_um_config;
  st : rlc_rx_um_state;
  rx_window : CircularMap.t rlc_rx_um_sdu_info;
  reassembly_timer : unique_timer
}.

Definition set_st (v : rlc_rx_um_state) (e : rlc_rx_um_entity) : rlc_rx_um_entity := mk_entity (cfg e) v (rx_window e) (reassembly_timer e).
Definition set_rx_window (v : CircularMap.t rlc_rx_um_sdu_info) (e : rlc_rx_um_entity) : rlc_rx_um_entity :=
  mk_entity (cfg e) (st e) v (reassembly_timer e).
Definition set_reassembly_timer (v : unique_timer) (e : rlc_rx_um_entity) : rlc_rx_um_entity := mk_entity (cfg e) (st e) (rx_window e) v.
Definition set_rx_next_reassembly (v : Z) (e : rlc_rx_um_entity) : rlc_rx_um_entity :=
  set_st (mk_state v (rx_timer_trigger (st e)) (rx_next_highest (st e))) e.
Definition set_rx_timer_trigger (v : Z) (e : rlc_rx_um_entity) : rlc_rx_um_entity :=
  set_st (mk_state (rx_next_reassembly (st e)) v (rx_next_highest (st e))) e.
Definition set_rx_next_highest (v : Z) (e : rlc_rx_um_entity) : rlc_rx_um_entity :=
  set_st (mk_state (rx_next_reassembly (st e)) (rx_timer_trigger (st e)) v) e.

Inductive rx_event :=
| metrics_add_pdus (num len : Z)
| metrics_add_malformed_pdus (num : Z)
| metrics_add_lost_pdus (num : Z)
| metrics_add_sdus (num len : Z)
| pcap_push_pdu (buf : list Z)
| on_new_sdu (sdu : list Z).

Definition H (A : Type) : Type := M rlc_rx_um_entity rx_event A.

Definition mod_ (e : rlc_rx_um_entity) : Z := cardinality (to_number_um_sn (rxum_sn_field_length (cfg e))).
Definition um_window_size (e : rlc_rx_um_entity) : Z := rlc_window_size (to_number_um_sn (rxum_sn_field_length (cfg e))).

(** ** Window helpers *)

Definition rx_mod_base (e : rlc_rx_um_entity) (x : Z) : Z := u32 (x - rx_next_highest (st e) - um_window_size e) mod mod_ e.

Definition sn_in_reassembly_window (e : rlc_rx_um_entity) (sn : Z) : bool :=
  (rx_mod_base e (u32 (rx_next_highest (st e) - um_window_size e)) <=? rx_mod_base e sn) &&
  (rx_mod_base e sn <? rx_mod_base e (rx_next_highest (st e))).

Definition sn_invalid_for_rx_buffer (e : rlc_rx_um_entity) (sn : Z) : bool :=
  (rx_mod_base e (u32 (rx_next_highest (st e) - um_window_size e)) <=? rx_mod_base e sn) &&
  (rx_mod_base e sn <? rx_mod_base e (rx_next_reassembly (st e))).

Definition has_sn (e : rlc_rx_um_entity) (sn : Z) : bool := SduWindow.has_sn (rx_window e) sn.

(** [rx_window[sn]] and writing through it. *)
Definition window_at (sn : Z) : H rlc_rx_um_sdu_info := let! e := get in SduWindow.index (rx_window e) sn.
Definition window_set (sn : Z) (info : rlc_rx_um_sdu_info) : H unit :=
  modify (fun e => set_rx_window (CircularMap.set_at (rx_window e) (u32 sn) info) e).

(** [rx_window.has_sn(sn) && rx_window[sn].flag] *)
Definition window_flag (flag : rlc_rx_um_sdu_info -> bool) (sn : Z) : H bool :=
  let! e := get in
  if has_sn e sn then let! info := window_at sn in ret (flag info) else ret false.

Definition window_remove (sn : Z) : H unit :=
  let! e := get in
  let! w := SduWindow.remove_sn (rx_window e) sn in
  modify (set_rx_window w).

(** The SN loops make at most one turn of the ring. *)
Definition sn_fuel (e : rlc_rx_um_entity) : nat := Z.to_nat (mod_ e).

(** ** Construction *)

Definition create (config : rlc_rx_um_config) : option rlc_rx_um_entity :=
  tm ← RlcRxAm.configured_timer (rxum_t_reassembly config);
  Some (mk_entity config (mk_state 0 0 0) (CircularMap.empty_map (rlc_window_size (to_number_um_sn (rxum_sn_field_length config)))) tm).

Definition stop (e : rlc_rx_um_entity) : rlc_rx_um_entity := set_reassembly_timer (timer_stop (reassembly_timer e)) e.

(** ** Segments *)

Definition update_segment_inventory (rx_sdu : rlc_rx_um_sdu_info) : rlc_rx_um_sdu_info :=
  let '(gap, full) := segment_inventory (segments rx_sdu) in mk_info full gap (segments rx_sdu).

(** [rx_window.has_sn(sn) ? rx_window[sn] : rx_window.add_sn(sn)] *)
Definition get_or_add_sn (sn : Z) : H rlc_rx_um_sdu_info :=
  let! e := get in
  (if has_sn e sn then ret tt else
   let! w := SduWindow.add_sn sdu_info_default (rx_window e) sn in
   modify (set_rx_window w)) ;;;
  window_at sn.

Definition handle_segment_data_sdu (header : rlc_um_pdu_header) (payload : list Z) : H bool :=
  if si_eqb (um_si header) full_sdu then ret false else
  let! rx_sdu := get_or_add_sn (um_sn header) in
  let segment := mk_segment (um_si header) (um_so header) payload in
  let '(stored_segments, stored) := store_segment (segments rx_sdu) segment in
  window_set (um_sn header) (update_segment_inventory (mk_info (fully_received rx_sdu) (has_gap rx_sdu) stored_segments)) ;;;
  ret stored.

(** [alloc]: what [byte_buffer_chain::create] answers, as in [RlcRxAm]. *)
Definition reassemble_sdu (alloc : option Z) (sdu_info : rlc_rx_um_sdu_info) : option (list Z) :=
  if negb (fully_received sdu_info) then None else
  max_slices ← alloc;
  fst <$> RlcRxAm.chain_append_all max_slices ([], 0) (segments sdu_info).

Definition deliver (sdu : option (list Z)) : H unit :=
  match sdu with
  | None => emit (metrics_add_lost_pdus 1)
  | Some sdu => emit (metrics_add_sdus 1 (zlen sdu)) ;;; emit (on_new_sdu sdu)
  end.

(** ** Moving the window *)

(** An SDU that leaves the window incomplete, or never came, is lost. *)
Definition discard_sn (sn : Z) : H unit :=
  let! e := get in
  if has_sn e sn then
    let! info := window_at sn in
    when (negb (fully_received info)) (emit (metrics_add_lost_pdus 1)) ;;;
    window_remove sn
  else emit (metrics_add_lost_pdus 1).

(** One turn of the loops that move RX_Next_Reassembly: a complete SDU leaves the window; whether the loop ends. *)
Definition release_step (sn_upd : Z) : H bool :=
  let! full := window_flag fully_received sn_upd in
  if full then window_remove sn_upd ;;; ret false else ret true.

Definition next_sn (e : rlc_rx_um_entity) (sn : Z) : Z := (sn + 1) mod mod_ e.
Definition below_highest (sn : Z) (e : rlc_rx_um_entity) : bool := rx_mod_base e sn <? rx_mod_base e (rx_next_highest (st e)).

Definition release_from (sn : Z) : H Z :=
  let! e := get in for_loop (sn_fuel e) below_highest (next_sn e) release_step sn.

(** The SDU with all its segments is delivered and its segments are released. *)
Definition deliver_complete (alloc : option Z) (sn : Z) : H unit :=
  let! sdu_info := window_at sn in
  deliver (reassemble_sdu alloc sdu_info) ;;;
  window_set sn (mk_info (fully_received sdu_info) (has_gap sdu_info) []) ;;;
  let! e := get in
  when (sn =? rx_next_reassembly (st e))
    (let! sn_upd := release_from (rx_next_reassembly (st e) mod mod_ e) in
     modify (set_rx_next_reassembly sn_upd)).

(** The SN lies outside the reassembly window, which moves up to it. *)
Definition advance_window (sn : Z) : H unit :=
  modify (fun e => set_rx_next_highest ((sn + 1) mod mod_ e) e) ;;;
  let! e := get in
  let! sn_upd := for_loop (sn_fuel e) (fun x e => negb (sn_in_reassembly_window e x)) (next_sn e)
                   (fun x => discard_sn x ;;; ret false) (rx_next_reassembly (st e) mod mod_ e) in
  let! sn_upd := release_from sn_upd in
  modify (set_rx_next_reassembly sn_upd).

(** ** t-Reassembly *)

Definition stop_reassembly_timer : H unit :=
  let! e := get in
  when (is_running (reassembly_timer e))
    (let! no_gap :=
       (if rx_next_highest (st e) =? u32 (rx_next_reassembly (st e) + 1)
        then window_flag (fun info => negb (has_gap info)) (rx_next_highest (st e)) else ret false) in
     when ((rx_timer_trigger (st e) <=? rx_next_reassembly (st e)) ||
           (negb (sn_in_reassembly_window e (rx_timer_trigger (st e))) && negb (rx_timer_trigger (st e) =? rx_next_highest (st e))) ||
           no_gap)
       (modify (set_reassembly_timer (timer_stop (reassembly_timer e))))).

Definition run_reassembly_timer : H unit :=
  let! e := get in
  let! tm := timer_run (reassembly_timer e) in
  modify (set_reassembly_timer tm) ;;;
  modify (set_rx_timer_trigger (rx_next_highest (st e))).

(** [restart_reassembly_timer] *)
Definition restart_needed : H bool :=
  let! e := get in
  let nh := rx_mod_base e (rx_next_highest (st e)) in
  let next := rx_mod_base e (u32 (rx_next_reassembly (st e) + 1)) in
  let! gap := (if nh =? next then window_flag has_gap (rx_next_highest (st e)) else ret false) in
  ret ((next <? nh) || gap).

Definition restart_reassembly_timer : H unit :=
  let! restart := restart_needed in when restart run_reassembly_timer.

Definition start_reassembly_timer : H unit :=
  let! e := get in when (negb (is_running (reassembly_timer e))) restart_reassembly_timer.

(** ** Reception *)

(** A segment that is placed in the reception buffer. *)
Definition handle_segment (alloc : option Z) (header : rlc_um_pdu_header) (payload : list Z) : H unit :=
  let! _ := handle_segment_data_sdu header payload in
  let! complete := window_flag fully_received (um_sn header) in
  let! e := get in
  (if complete then deliver_complete alloc (um_sn header)
   else when (negb (sn_in_reassembly_window e (um_sn header))) (advance_window (um_sn header))) ;;;
  stop_reassembly_timer ;;;
  start_reassembly_timer.

Definition handle_pdu (alloc : option Z) (buf : list Z) : H unit :=
  emit (metrics_add_pdus 1 (zlen buf)) ;;;
  emit (pcap_push_pdu buf) ;;;
  let! e := get in
  match rlc_um_read_data_pdu_header buf (rxum_sn_field_length (cfg e)) with
  | Fault _ => abort
  | Ok None => emit (metrics_add_malformed_pdus 1)
  | Ok (Some header) =>
      let header_len := rlc_um_nr_packed_length header in
      if zlen buf <=? header_len then ret tt else
      let payload := drop (Z.to_nat header_len) buf in
      if si_eqb (um_si header) full_sdu
      then deliver (max_slices ← alloc; fst <$> RlcRxAm.chain_append max_slices ([], 0) payload)
      else if sn_invalid_for_rx_buffer e (um_sn header) then ret tt
      else handle_segment alloc header payload
  end.

(** ** Timer expiry *)

(** One turn: everything below RX_Timer_Trigger is given up, complete SDUs above leave the window. *)
Definition expire_step (sn_upd : Z) : H bool :=
  let! e := get in
  if rx_mod_base e sn_upd <? rx_mod_base e (rx_timer_trigger (st e))
  then discard_sn sn_upd ;;; ret false
  else release_step sn_upd.

Definition on_expired_reassembly_timer : H unit :=
  let! e := get in
  let! sn_upd := for_loop (sn_fuel e) below_highest (next_sn e) expire_step (rx_next_reassembly (st e)) in
  modify (set_rx_next_reassembly sn_upd) ;;;
  restart_reassembly_timer.

(** The expiry task in the UE executor. *)
Definition reassembly_timeout (epoch : Z) : H unit :=
  let! e := get in
  let! r := timeout_task (reassembly_timer e) epoch in
  modify (set_reassembly_timer (fst r)) ;;;
  when (snd r) on_expired_reassembly_timer.

End RlcRxUm.
