(* ===== verification/RlcRxUmInv.v ===== *)
(** * RLC UM receiving entity: specification and invariant

    An abstract receiver with unbounded sequence numbers and a store that never forgets: SDU [k] is the one a sender
    numbers [k], counting from zero without wrap-around.  [RlcRxUmRefine] shows that the entity,
    with its numbers modulo 64 or 4096 and its window of half that many slots, behaves as this receiver. *)

From S2P Require Import Prelude Effects Window RlcConfig RlcAmPdu Timers Segments RlcRxAm RlcUmPdu RlcRxUm.
Import UmHeader RlcRxUm.
Open Scope Z_scope.

(** What the code reads of an entry: a missing one has no flag set. *)
Definition flag_at (f : rlc_rx_um_sdu_info -> bool) (o : option rlc_rx_um_sdu_info) : bool :=
  match o with Some info => f info | None => false end.

Module UmReceiver.

(** [next_reassembly] is the first SDU not reassembled yet, [next_highest] one more than the highest one seen. *)
Record receiver := mk_receiver { next_reassembly : Z; next_highest : Z; store : gmap Z rlc_rx_um_sdu_info }.
Definition initial : receiver := mk_receiver 0 0 ∅.

Definition complete_at (w : gmap Z rlc_rx_um_sdu_info) (k : Z) : bool := flag_at fully_received (w !! k).

(** The first incomplete SDU from [k] on, among [n] of them. *)
Fixpoint first_open (n : nat) (w : gmap Z rlc_rx_um_sdu_info) (k : Z) : Z :=
  match n with
  | O => k
  | S n => if complete_at w k then first_open n w (k + 1) else k
  end.

Definition info_add (info : rlc_rx_um_sdu_info) (segment : rlc_rx_am_sdu_segment) : rlc_rx_um_sdu_info :=
  update_segment_inventory (mk_info (fully_received info) (has_gap info) (fst (store_segment (segments info) segment))).
Definition info_release (info : rlc_rx_um_sdu_info) : rlc_rx_um_sdu_info := mk_info (fully_received info) (has_gap info) [].

Section receiver.
Context (W : Z) (alloc : option Z).

(** A segment of SDU [k] arrives; the SDUs that are delivered. *)
Definition receive_segment (k : Z) (segment : rlc_rx_am_sdu_segment) (r : receiver) : receiver * list (list Z) :=
  let info := info_add (default sdu_info_default (store r !! k)) segment in
  if fully_received info then
    let w := <[k := info_release info]> (store r) in
    (mk_receiver (if k =? next_reassembly r then first_open (Z.to_nat (next_highest r - next_reassembly r)) w (next_reassembly r) else next_reassembly r)
       (next_highest r) w, option_list (reassemble_sdu alloc info))
  else
    let w := <[k := info]> (store r) in
    if k <? next_highest r then (mk_receiver (next_reassembly r) (next_highest r) w, [])
    else
      let low := Z.max (next_reassembly r) (k + 1 - W) in
      (mk_receiver (first_open (Z.to_nat (k + 1 - low)) w low) (k + 1) w, []).

(** The SDU a sequence number stands for: the one closest to [next_highest]. *)
Definition number_of (sn : Z) (r : receiver) : Z := next_highest r - W + (sn - next_highest r + W) mod (2 * W).

(** t-Reassembly expires: everything below [trigger] is given up. *)
Definition expire (trigger : Z) (r : receiver) : receiver :=
  let low := Z.max (next_reassembly r) (Z.min trigger (next_highest r)) in
  mk_receiver (first_open (Z.to_nat (next_highest r - low)) (store r) low) (next_highest r) (store r).

Definition receive_pdu (size : rlc_um_sn_size) (buf : list Z) (r : receiver) : receiver * list (list Z) :=
  match rlc_um_read_data_pdu_header buf size with
  | Ok (Some h) =>
      let payload := drop (Z.to_nat (rlc_um_nr_packed_length h)) buf in
      if zlen buf <=? rlc_um_nr_packed_length h then (r, [])
      else if si_eqb (um_si h) full_sdu
      then (r, option_list (max_slices ← alloc; fst <$> RlcRxAm.chain_append max_slices ([], 0) payload))
      else let k := number_of (um_sn h) r in
           if k <? next_reassembly r then (r, [])
           else receive_segment k (mk_segment (um_si h) (um_so h) payload) r
  | _ => (r, [])
  end.
End receiver.

(** ** Theory *)

Lemma first_open_spec w lo x hi : lo <= x <= hi -> (forall j, lo <= j < x -> complete_at w j = true) -> (x = hi \/ complete_at w x = false) ->
  first_open (Z.to_nat (hi - lo)) w lo = x.
Proof.
  intros Hx. remember (Z.to_nat (hi - lo)) as n eqn:En. revert lo Hx En. induction n as [|n IH]; intros lo Hx En Hall Hend; simpl; [lia|].
  destruct (Z.eq_dec lo x) as [->|Hne].
  - destruct Hend as [->|Hend]; [lia|by rewrite Hend].
  - rewrite Hall by lia. apply IH; [lia|lia| |done]. intros j Hj. apply Hall. lia.
Qed.

Lemma first_open_found n w lo : lo <= first_open n w lo <= lo + Z.of_nat n /\
  (forall j, lo <= j < first_open n w lo -> complete_at w j = true) /\
  (first_open n w lo = lo + Z.of_nat n \/ complete_at w (first_open n w lo) = false).
Proof.
  revert lo. induction n as [|n IH]; intros lo; simpl.
  - split; [lia|]. split; [lia|left; lia].
  - destruct (complete_at w lo) eqn:E.
    + destruct (IH (lo + 1)) as (H1 & H2 & H3). split; [lia|]. split; [|destruct H3; [left; lia|by right]].
      intros j Hj. destruct (Z.eq_dec j lo) as [->|]; [done|]. apply H2. lia.
    + split; [lia|]. split; [lia|by right].
Qed.
End UmReceiver.

(** * RLC UM receiving entity: the window

    Absolute numbers, counted without wrap-around, against the ring of sequence numbers; the loops over
    sequence numbers; and what each piece of the handlers does to the window, up to the
    representation of the receiver of [RlcRxUmInv]. *)

Import UmHeader RlcRxUm UmReceiver.
Open Scope Z_scope.
Open Scope entity_scope.

Definition win (e : rlc_rx_um_entity) (sn : Z) : option rlc_rx_um_sdu_info := CircularMap.lookup (rx_window e) sn.
Definition complete (e : rlc_rx_um_entity) (sn : Z) : bool := flag_at fully_received (win e sn).

(** The SDUs handed to the upper layer. *)
Definition new_sdus (es : list rx_event) : list (list Z) := omap (fun ev => match ev with on_new_sdu sdu => Some sdu | _ => None end) es.
Lemma um_new_sdus_app es es' : new_sdus (es ++ es') = new_sdus es ++ new_sdus es'.
Proof. apply omap_app. Qed.

Lemma mod_close m x y : 0 < m -> - m < x - y < m -> x mod m = y mod m -> x = y.
Proof. intros Hm Hd E. pose proof (Z.div_mod x m). pose proof (Z.div_mod y m). assert (x / m = y / m) by nia. lia. Qed.

Section ring.
Context (e : rlc_rx_um_entity).

Lemma rxum_ring_sizes :
  0 < um_window_size e /\ mod_ e = 2 * um_window_size e /\ (mod_ e | 2 ^ 32) /\
  um_window_size e = 2 ^ (to_number_um_sn (rxum_sn_field_length (cfg e)) - 1) /\ mod_ e <= 4096 /\ 32 <= um_window_size e.
Proof. apply um_ring_sizes. Qed.

Lemma mod_range k : 0 <= k mod mod_ e < 4096.
Proof. pose proof rxum_ring_sizes. pose proof (Z.mod_pos_bound k (mod_ e)). lia. Qed.

Lemma u32_mod_sn k : u32 (k mod mod_ e) = k mod mod_ e.
Proof. pose proof (mod_range k). apply u32_small. lia. Qed.

Lemma mod_inj a x y : a <= x < a + mod_ e -> a <= y < a + mod_ e -> x mod mod_ e = y mod mod_ e -> x = y.
Proof.
  pose proof rxum_ring_sizes. intros Hx Hy. apply mod_close; lia.
Qed.

(** Every number of the ring has one absolute number in each stretch of [mod_] numbers. *)
Lemma representative a x : 0 <= x < mod_ e -> exists k, a <= k < a + mod_ e /\ k mod mod_ e = x.
Proof.
  pose proof rxum_ring_sizes. intros Hx. exists (a + (x - a) mod mod_ e). pose proof (Z.mod_pos_bound (x - a) (mod_ e)). split; [lia|].
  rewrite Zplus_mod_idemp_r. replace (a + (x - a)) with x by lia. apply Z.mod_small. lia.
Qed.

Lemma next_sn_mod k : next_sn e (k mod mod_ e) = (k + 1) mod mod_ e.
Proof. unfold next_sn. apply Zplus_mod_idemp_l. Qed.

Lemma um_has_sn_win k : has_sn e (k mod mod_ e) = match win e (k mod mod_ e) with Some _ => true | None => false end.
Proof. unfold has_sn, SduWindow.has_sn. rewrite u32_mod_sn. apply CircularMap.contains_lookup. Qed.

Lemma rx_mod_base_mod x : rx_mod_base e x = (x - rx_next_highest (st e) - um_window_size e) mod mod_ e.
Proof. pose proof rxum_ring_sizes. apply u32_mod; [lia|apply rxum_ring_sizes]. Qed.

Lemma rx_mod_base_u32 x : rx_mod_base e (u32 x) = rx_mod_base e x.
Proof.
  pose proof rxum_ring_sizes as (W1 & W2 & W3 & _). rewrite !rx_mod_base_mod, <- !Z.sub_add_distr.
  rewrite Zminus_mod, u32_mod, <- Zminus_mod; [done|lia|done].
Qed.
End ring.

Section abs.
Context (e : rlc_rx_um_entity) (H : Z) (EH : H mod mod_ e = rx_next_highest (st e)).

Lemma rx_mod_base_congr k : rx_mod_base e (k mod mod_ e) = (k - H - um_window_size e) mod mod_ e.
Proof.
  rewrite rx_mod_base_mod, <- EH, <- !Z.sub_add_distr.
  rewrite Zminus_mod, Zplus_mod, !Z.mod_mod, <- Zplus_mod, <- Zminus_mod; [done| |]; pose proof (rxum_ring_sizes e); lia.
Qed.

Lemma rx_mod_base_near k : H - um_window_size e <= k < H + um_window_size e -> rx_mod_base e (k mod mod_ e) = k - H + um_window_size e.
Proof.
  intros Hk. pose proof (rxum_ring_sizes e). rewrite rx_mod_base_congr.
  replace (k - H - um_window_size e) with (k - H + um_window_size e + (-1) * mod_ e) by lia. rewrite Z_mod_plus_full. apply Z.mod_small. lia.
Qed.

Lemma rx_mod_base_below k : H - mod_ e <= k < H - um_window_size e -> rx_mod_base e (k mod mod_ e) = k - H + um_window_size e + mod_ e.
Proof.
  intros Hk. pose proof (rxum_ring_sizes e). rewrite rx_mod_base_congr.
  replace (k - H - um_window_size e) with (k - H + um_window_size e + mod_ e + (-2) * mod_ e) by lia. rewrite Z_mod_plus_full. apply Z.mod_small. lia.
Qed.

Lemma rx_mod_base_highest : rx_mod_base e (rx_next_highest (st e)) = um_window_size e.
Proof. rewrite <- EH, rx_mod_base_near; [lia|]. pose proof (rxum_ring_sizes e). lia. Qed.

Lemma below_highest_near k : H - um_window_size e <= k < H + um_window_size e -> below_highest (k mod mod_ e) e = (k <? H).
Proof.
  intros Hk. unfold below_highest. rewrite rx_mod_base_highest, rx_mod_base_near by done.
  destruct (Z.ltb_spec k H); [apply Z.ltb_lt; lia|apply Z.ltb_ge; lia].
Qed.

Lemma window_low_edge : rx_mod_base e (u32 (rx_next_highest (st e) - um_window_size e)) = 0.
Proof.
  rewrite rx_mod_base_u32, rx_mod_base_mod. pose proof (rxum_ring_sizes e).
  replace (_ - _ - _ - _) with (-1 * mod_ e) by lia. apply Z_mod_mult.
Qed.

Lemma um_in_window_spec k : H - mod_ e <= k < H + um_window_size e ->
  sn_in_reassembly_window e (k mod mod_ e) = (H - um_window_size e <=? k) && (k <? H).
Proof.
  intros Hk. unfold sn_in_reassembly_window. rewrite window_low_edge, rx_mod_base_highest. pose proof (rxum_ring_sizes e).
  destruct (Z.leb_spec (H - um_window_size e) k).
  - rewrite rx_mod_base_near by lia. destruct (Z.ltb_spec k H); [|by rewrite (proj2 (Z.ltb_ge _ _)), andb_false_r by lia].
    rewrite (proj2 (Z.ltb_lt _ _)) by lia. rewrite andb_true_r. apply Z.leb_le. lia.
  - rewrite rx_mod_base_below by lia. rewrite (proj2 (Z.ltb_ge _ _)), andb_false_r; [done|lia].
Qed.

Lemma invalid_spec R k : R mod mod_ e = rx_next_reassembly (st e) -> H - um_window_size e <= R < H + um_window_size e ->
  H - um_window_size e <= k < H + um_window_size e -> sn_invalid_for_rx_buffer e (k mod mod_ e) = (k <? R).
Proof.
  intros ER HR Hk. unfold sn_invalid_for_rx_buffer. rewrite window_low_edge, <- ER, !rx_mod_base_near by done.
  rewrite (proj2 (Z.leb_le _ _)) by lia. cbn [andb]. destruct (Z.ltb_spec k R); [apply Z.ltb_lt; lia|apply Z.ltb_ge; lia].
Qed.
End abs.

(** ** Loops over sequence numbers *)

(** The loop visits [a], [a + 1], ... and ends at [b] at the latest, before it has gone round the ring. *)
Lemma wp_sn_loop e0 (J : Z -> rlc_rx_um_entity -> list rx_event -> Prop) cond body a b (Q : Z -> rlc_rx_um_entity -> list rx_event -> Prop) e :
  a <= b <= a + mod_ e0 -> J a e [] ->
  (forall k e es, a <= k <= b -> J k e es -> cond (k mod mod_ e0) e = false -> Q (k mod mod_ e0) e es) ->
  (forall e es, J b e es -> cond (b mod mod_ e0) e = false) ->
  (forall k e es, a <= k < b -> J k e es -> cond (k mod mod_ e0) e = true ->
     wp (body (k mod mod_ e0)) (fun brk e' es' => if brk : bool then Q (k mod mod_ e0) e' (es ++ es') else J (k + 1) e' (es ++ es')) e) ->
  wp (for_loop (sn_fuel e0) cond (next_sn e0) body (a mod mod_ e0)) Q e.
Proof.
  intros Hab HJ HQ Hend Hbody.
  apply (wp_for_loop (fun n i e es => exists k, i = k mod mod_ e0 /\ a <= k <= b /\ b - k <= Z.of_nat n /\ J k e es)).
  - exists a. pose proof (rxum_ring_sizes e0). unfold sn_fuel. split; [done|]. split; [lia|]. split; [lia|done].
  - intros n i e1 es (k & -> & Hk & _ & HJk) Hc. by apply HQ.
  - intros i e1 es (k & -> & Hk & Hn & HJk). assert (k = b) as -> by lia. by eapply Hend.
  - intros n i e1 es (k & -> & Hk & Hn & HJk) Hc. assert (k < b).
    { destruct (Z.eq_dec k b) as [->|]; [|lia]. by rewrite (Hend _ _ HJk) in Hc. }
    eapply wp_mono; [apply (Hbody k); [lia|done|done]|]. cbv beta. intros [] e2 es2; [done|]. intros HJ'. exists (k + 1).
    rewrite next_sn_mod. split; [done|]. split; [lia|]. split; [lia|done].
Qed.

(** ** The pieces of the handlers *)

Lemma wp_um_window_at e sn info (Q : rlc_rx_um_sdu_info -> rlc_rx_um_entity -> list rx_event -> Prop) :
  u32 sn = sn -> win e sn = Some info -> Q info e [] -> wp (window_at sn) Q e.
Proof.
  intros Hsn Hw HQ. unfold window_at. wp_step. wp_step. unfold SduWindow.index. rewrite Hsn. by eapply CircularMap.wp_at.
Qed.

Lemma wp_window_flag f e sn (Q : bool -> rlc_rx_um_entity -> list rx_event -> Prop) :
  u32 sn = sn -> Q (flag_at f (win e sn)) e [] -> wp (window_flag f sn) Q e.
Proof.
  intros Hsn HQ. unfold window_flag. wp_step. wp_step. unfold has_sn, SduWindow.has_sn. rewrite Hsn, CircularMap.contains_lookup.
  fold (win e sn). destruct (win e sn) as [info|] eqn:E; [|by wp_step].
  wp_step. eapply wp_um_window_at; [done..|]. by wp_step.
Qed.

(** [e'] is [e] with the window replaced. *)
Record same_but_window (e e' : rlc_rx_um_entity) : Prop := {
  sw_cfg : cfg e' = cfg e;
  sw_st : st e' = st e;
  sw_tm : reassembly_timer e' = reassembly_timer e
}.

Lemma um_same_mod e e' : cfg e' = cfg e -> mod_ e' = mod_ e /\ um_window_size e' = um_window_size e.
Proof. intros E. unfold mod_, um_window_size. by rewrite E. Qed.

Record window_ok (e : rlc_rx_um_entity) : Prop := {
  wo_wf : CircularMap.wf (rx_window e);
  wo_cap : CircularMap.capacity (rx_window e) = um_window_size e
}.

Lemma wp_um_window_remove e sn info (Q : unit -> rlc_rx_um_entity -> list rx_event -> Prop) :
  u32 sn = sn -> win e sn = Some info -> window_ok e ->
  (forall e', same_but_window e e' -> window_ok e' -> (forall x, win e' x = if x =? sn then None else win e x) -> Q tt e' []) ->
  wp (window_remove sn) Q e.
Proof.
  intros Hsn Hw [Hwf Hcap] HQ. unfold window_remove. wp_step. wp_step. unfold SduWindow.remove_sn, SduWindow.has_sn.
  rewrite Hsn, CircularMap.contains_lookup. fold (win e sn). rewrite Hw. cbn [negb]. wp_step. wp_step. wp_step. apply HQ.
  - done.
  - split; simpl; [by apply CircularMap.wf_erase|by rewrite CircularMap.capacity_erase].
  - intros x. by apply CircularMap.lookup_erase.
Qed.

Lemma wp_um_window_set e sn info0 info (Q : unit -> rlc_rx_um_entity -> list rx_event -> Prop) :
  u32 sn = sn -> win e sn = Some info0 -> window_ok e ->
  (forall e', same_but_window e e' -> window_ok e' -> (forall x, win e' x = if x =? sn then Some info else win e x) -> Q tt e' []) ->
  wp (window_set sn info) Q e.
Proof.
  intros Hsn Hw [Hwf Hcap] HQ. unfold window_set. wp_step. rewrite Hsn. apply HQ.
  - done.
  - split; simpl; [by apply CircularMap.wf_set_at|by rewrite CircularMap.capacity_set_at].
  - intros x. unfold win. simpl. rewrite CircularMap.lookup_set_at. destruct (x =? sn); [|done].
    rewrite CircularMap.contains_lookup. fold (win e sn). by rewrite Hw.
Qed.

(** The entries of [a], ..., [k - 1] are gone, the others of the ring are there. *)
Record trimmed (a k : Z) (e e' : rlc_rx_um_entity) : Prop := {
  tr_same : same_but_window e e';
  tr_ok : window_ok e';
  tr_gone : forall j, a <= j < k -> win e' (j mod mod_ e) = None;
  tr_kept : forall j, k <= j < a + mod_ e -> win e' (j mod mod_ e) = win e (j mod mod_ e);
  tr_sub : forall sn info, win e' sn = Some info -> win e sn = Some info
}.

Lemma trimmed_refl a e : window_ok e -> trimmed a a e e.
Proof. intros Hok. split; try done. lia. Qed.

Lemma trimmed_trans a b c e e1 e2 : a <= b <= c -> c <= a + mod_ e -> trimmed a b e e1 -> trimmed b c e1 e2 -> trimmed a c e e2.
Proof.
  intros Hab Hc [[S1 S2 S3] O1 G1 K1 U1] [[T1 T2 T3] O2 G2 K2 U2]. destruct (um_same_mod e e1 S1) as [Em _]. rewrite Em in *. split.
  - split; congruence.
  - done.
  - intros j Hj. destruct (Z.lt_ge_cases j b); [|apply G2; lia]. destruct (win e2 (j mod mod_ e)) eqn:E; [|done].
    apply U2 in E. by rewrite G1 in E by lia.
  - intros j Hj. rewrite K2 by lia. apply K1. lia.
  - auto.
Qed.

(** One entry less. *)
Lemma trimmed_step a k e e1 e2 : a <= k < a + mod_ e -> trimmed a k e e1 -> same_but_window e1 e2 -> window_ok e2 ->
  (forall x, win e2 x = if x =? k mod mod_ e then None else win e1 x) -> trimmed a (k + 1) e e2.
Proof.
  intros Hk [[S1 S2 S3] O1 G1 K1 U1] [T1 T2 T3] O2 Hw. split.
  - split; congruence.
  - done.
  - intros j Hj. rewrite Hw. destruct (Z.eqb_spec (j mod mod_ e) (k mod mod_ e)); [done|]. apply G1.
    destruct (Z.eq_dec j k) as [->|]; [done|lia].
  - intros j Hj. rewrite Hw. destruct (Z.eqb_spec (j mod mod_ e) (k mod mod_ e)) as [E|]; [|apply K1; lia].
    apply (mod_inj e a) in E; lia.
  - intros sn info. rewrite Hw. destruct (sn =? _); [done|]. apply U1.
Qed.

Lemma wp_discard_step a k e e1 (Q : unit -> rlc_rx_um_entity -> list rx_event -> Prop) :
  a <= k < a + mod_ e -> trimmed a k e e1 ->
  (forall e2 es, trimmed a (k + 1) e e2 -> new_sdus es = [] -> Q tt e2 es) ->
  wp (discard_sn (k mod mod_ e)) Q e1.
Proof.
  intros Hk Ht HQ. unfold discard_sn. pose proof (u32_mod_sn e k) as Hu. wp_step. wp_step.
  unfold has_sn, SduWindow.has_sn. rewrite Hu, CircularMap.contains_lookup. fold (win e1 (k mod mod_ e)).
  destruct (win e1 (k mod mod_ e)) as [info|] eqn:E.
  - wp_step. eapply wp_um_window_at; [done..|]. wp_step. assert (forall es, new_sdus es = [] ->
      wp (window_remove (k mod mod_ e)) (fun b s es' => Q b s (es ++ es')) e1) as Hrem.
    { intros es Hes. eapply wp_um_window_remove; [done..|apply Ht|]. intros e2 S2 O2 W2. rewrite app_nil_r.
      apply HQ; [by eapply trimmed_step|done]. }
    wp_step; [wp_step; by apply (Hrem [_])|by apply (Hrem [])].
  - wp_step. apply HQ; [|done]. eapply (trimmed_step _ _ _ e1); [done|done|done|apply Ht|].
    intros x. destruct (Z.eqb_spec x (k mod mod_ e)) as [->|]; done.
Qed.

Lemma wp_release_step a k e e1 (Q : bool -> rlc_rx_um_entity -> list rx_event -> Prop) :
  a <= k < a + mod_ e -> trimmed a k e e1 ->
  (complete e1 (k mod mod_ e) = false -> Q true e1 []) ->
  (forall e2, complete e1 (k mod mod_ e) = true -> trimmed a (k + 1) e e2 -> Q false e2 []) ->
  wp (release_step (k mod mod_ e)) Q e1.
Proof.
  intros Hk Ht HQ1 HQ2. unfold release_step. pose proof (u32_mod_sn e k) as Hu. wp_step. apply wp_window_flag; [done|].
  cbn [app]. fold (complete e1 (k mod mod_ e)). destruct (complete e1 (k mod mod_ e)) eqn:Ec.
  - unfold complete in Ec. destruct (win e1 (k mod mod_ e)) as [info|] eqn:E; [|done].
    cbv iota. wp_step. eapply wp_um_window_remove; [done..|apply Ht|]. intros e2 S2 O2 W2. wp_step. apply HQ2; [done|]. by eapply trimmed_step.
  - cbv iota. wp_step. by apply HQ1.
Qed.

(** ** Windows that hold what the abstract store holds *)

(** The entries are numbered [lo], ..., [hi - 1]; from [mid] on they are those of [w]. *)
Record holds (lo mid hi : Z) (w : gmap Z rlc_rx_um_sdu_info) (e : rlc_rx_um_entity) : Prop := {
  ho_ok : window_ok e;
  ho_at : forall k, mid <= k < hi -> win e (k mod mod_ e) = w !! k;
  ho_keys : forall sn info, win e sn = Some info -> exists k, lo <= k < hi /\ sn = k mod mod_ e
}.

Lemma holds_trimmed lo mid hi w b e e' : holds lo mid hi w e -> trimmed lo b e e' -> mid <= b <= hi -> hi <= lo + mod_ e -> holds b b hi w e'.
Proof.
  intros [O A K] [[S1 S2 S3] O' G K' U] Hb Hh. destruct (um_same_mod e e' S1) as [Em _]. split; [done| |]; rewrite Em.
  - intros k Hk. destruct (Z.lt_ge_cases k lo) as [Hl|Hl]; [|rewrite K' by lia; apply A; lia].
    rewrite <- A by lia. destruct (win e (k mod mod_ e)) as [info|] eqn:E.
    + destruct (K _ _ E) as (k' & Hk' & E'). destruct (win e' (k mod mod_ e)) as [i|] eqn:E2; [by rewrite (U _ _ E2) in E|].
      destruct (Z.lt_ge_cases k' b) as [Hb'|Hb'].
      * exfalso. pose proof (K' (k' + mod_ e)) as K2. lia.
      * rewrite E', K' in E2 by lia. congruence.
    + destruct (win e' (k mod mod_ e)) as [i|] eqn:E2; [by rewrite (U _ _ E2) in E|done].
  - intros sn info Hw. pose proof (U _ _ Hw) as Hw'. destruct (K _ _ Hw') as (k & Hk & ->). exists k. split; [|done].
    destruct (Z.lt_ge_cases k b) as [Hb'|]; [|lia]. by rewrite G in Hw by lia.
Qed.

Lemma same_highest e e' h : same_but_window e e' -> h mod mod_ e = rx_next_highest (st e) -> h mod mod_ e' = rx_next_highest (st e').
Proof. intros [S1 S2 _] E. rewrite S2. by destruct (um_same_mod e e' S1) as [-> _]. Qed.

Lemma complete_trimmed lo hi w e e1 k : holds lo lo hi w e -> trimmed lo k e e1 -> lo <= k < hi -> hi <= lo + mod_ e ->
  complete e1 (k mod mod_ e) = complete_at w k.
Proof. intros Hh Ht Hk Hm. unfold complete, complete_at. rewrite (tr_kept _ _ _ _ Ht) by lia. by rewrite (ho_at _ _ _ _ _ Hh) by lia. Qed.

(** The release loop stops at the first incomplete SDU, and what it passes leaves the window. *)
Lemma wp_release_from lo hi w e (Q : Z -> rlc_rx_um_entity -> list rx_event -> Prop) :
  holds lo lo hi w e -> hi mod mod_ e = rx_next_highest (st e) -> hi - um_window_size e <= lo <= hi ->
  (forall x e', x = first_open (Z.to_nat (hi - lo)) w lo -> lo <= x <= hi -> trimmed lo x e e' -> Q (x mod mod_ e) e' []) ->
  wp (release_from (lo mod mod_ e)) Q e.
Proof.
  intros Hh EH Hr HQ. pose proof (rxum_ring_sizes e) as (W1 & W2 & _). unfold release_from. wp_step. wp_step.
  assert (forall k e1, lo <= k <= hi -> trimmed lo k e e1 -> below_highest (k mod mod_ e) e1 = (k <? hi)) as Hbelow.
  { intros k e1 Hk Ht. destruct (um_same_mod e e1) as [Em Ew]; [apply Ht|]. rewrite <- Em. apply below_highest_near; [|rewrite Ew; lia].
    eapply same_highest; [apply Ht|done]. }
  apply (wp_sn_loop e (fun k e1 es => trimmed lo k e e1 /\ es = [] /\ forall j, lo <= j < k -> complete_at w j = true) _ _ lo hi).
  - lia.
  - split; [apply trimmed_refl, Hh|]. split; [done|lia].
  - intros k e1 es Hk (Ht & -> & Hall) Hc. rewrite (Hbelow k) in Hc by done. bool_prop.
    apply HQ; [|lia|done]. symmetry. apply first_open_spec; [lia|done|left; lia].
  - intros e1 es (Ht & _). rewrite (Hbelow hi) by (done || lia). apply Z.ltb_ge. lia.
  - intros k e1 es Hk (Ht & -> & Hall) Hc. pose proof (complete_trimmed _ _ _ _ _ k Hh Ht) as Ec.
    eapply wp_release_step; [|done| |]; [lia| |].
    + intros Hf. rewrite Ec in Hf by lia. apply HQ; [|lia|done]. symmetry. apply first_open_spec; [lia|done|by right].
    + intros e2 Hf Ht2. rewrite Ec in Hf by lia. split; [done|]. split; [done|]. intros j Hj. destruct (Z.eq_dec j k) as [->|]; [done|apply Hall; lia].
Qed.

(** The loop of [advance_window] discards up to the lower edge of the reassembly window. *)
Lemma wp_discard_outside lo mid hi w e (Q : Z -> rlc_rx_um_entity -> list rx_event -> Prop) :
  holds lo mid hi w e -> hi mod mod_ e = rx_next_highest (st e) -> hi - mod_ e <= lo < hi -> mid = lo `max` (hi - um_window_size e) ->
  (forall e' es, new_sdus es = [] -> trimmed lo mid e e' -> Q (mid mod mod_ e) e' es) ->
  wp (for_loop (sn_fuel e) (fun x e => negb (sn_in_reassembly_window e x)) (next_sn e) (fun x => discard_sn x ;;; ret false) (lo mod mod_ e)) Q e.
Proof.
  intros Hh EH Hr Hmid HQ. pose proof (rxum_ring_sizes e) as (W1 & W2 & _).
  assert (forall k e1, lo <= k <= mid -> trimmed lo k e e1 -> negb (sn_in_reassembly_window e1 (k mod mod_ e)) = (k <? mid)) as Hcond.
  { intros k e1 Hk Ht. destruct (um_same_mod e e1) as [Em Ew]; [apply Ht|]. rewrite <- Em.
    rewrite (um_in_window_spec e1 hi); [|eapply same_highest; [apply Ht|done]|rewrite Em, Ew; lia]. rewrite Ew.
    destruct (Z.ltb_spec k mid).
    - rewrite (proj2 (Z.leb_gt _ _)) by lia. done.
    - rewrite (proj2 (Z.leb_le _ _)), (proj2 (Z.ltb_lt k hi)) by lia. done. }
  apply (wp_sn_loop e (fun k e1 es => trimmed lo k e e1 /\ new_sdus es = []) _ _ lo mid).
  - lia.
  - split; [apply trimmed_refl, Hh|done].
  - intros k e1 es Hk (Ht & Hes) Hc. rewrite (Hcond k) in Hc by done. bool_prop. assert (k = mid) as -> by lia. by apply HQ.
  - intros e1 es (Ht & _). rewrite (Hcond mid) by (done || lia). apply Z.ltb_ge. lia.
  - intros k e1 es Hk (Ht & Hes) Hc. wp_step. eapply wp_discard_step; [|done|]; [lia|].
    intros e2 es2 Ht2 Hes2. wp_step. rewrite app_nil_r. split; [done|]. by rewrite um_new_sdus_app, Hes, Hes2.
Qed.

(** The loop of the expiry handler discards below the trigger, then releases. *)
Lemma wp_um_expire_loop lo hi T w e (Q : Z -> rlc_rx_um_entity -> list rx_event -> Prop) :
  holds lo lo hi w e -> hi mod mod_ e = rx_next_highest (st e) -> hi - um_window_size e <= lo <= hi ->
  T mod mod_ e = rx_timer_trigger (st e) -> hi - um_window_size e <= T < hi + um_window_size e ->
  (forall x e' es, x = first_open (Z.to_nat (hi - lo `max` (T `min` hi))) w (lo `max` (T `min` hi)) -> lo `max` (T `min` hi) <= x <= hi -> new_sdus es = [] ->
     trimmed lo x e e' -> Q (x mod mod_ e) e' es) ->
  wp (for_loop (sn_fuel e) below_highest (next_sn e) expire_step (lo mod mod_ e)) Q e.
Proof.
  intros Hh EH Hr ET HT HQ. pose proof (rxum_ring_sizes e) as (W1 & W2 & _). set (low := lo `max` (T `min` hi)) in *.
  assert (forall k e1, lo <= k <= hi -> trimmed lo k e e1 -> below_highest (k mod mod_ e) e1 = (k <? hi) /\
    (rx_mod_base e1 (k mod mod_ e) <? rx_mod_base e1 (rx_timer_trigger (st e1))) = (k <? T)) as Hbelow.
  { intros k e1 Hk Ht. destruct (um_same_mod e e1) as [Em Ew]; [apply Ht|].
    pose proof (same_highest _ _ _ (tr_same _ _ _ _ Ht) EH) as EH1. rewrite <- Em. split.
    - apply below_highest_near; [done|rewrite Ew; lia].
    - rewrite (sw_st _ _ (tr_same _ _ _ _ Ht)), <- ET, <- Em, !(rx_mod_base_near e1 hi) by (done || rewrite Ew; lia).
      destruct (Z.ltb_spec k T); [apply Z.ltb_lt; lia|apply Z.ltb_ge; lia]. }
  apply (wp_sn_loop e (fun k e1 es => trimmed lo k e e1 /\ new_sdus es = [] /\ forall j, low <= j < k -> complete_at w j = true) _ _ lo hi).
  - lia.
  - split; [apply trimmed_refl, Hh|]. split; [done|lia].
  - intros k e1 es Hk (Ht & Hes & Hall) Hc. rewrite (proj1 (Hbelow k e1 Hk Ht)) in Hc. bool_prop.
    apply HQ; [|lia|done|done]. symmetry. apply first_open_spec; [lia|done|left; lia].
  - intros e1 es (Ht & _). rewrite (proj1 (Hbelow hi e1 ltac:(lia) Ht)). apply Z.ltb_ge. lia.
  - intros k e1 es Hk (Ht & Hes & Hall) Hc. pose proof (complete_trimmed _ _ _ _ _ k Hh Ht) as Ec.
    unfold expire_step. do 2 wp_step. rewrite (proj2 (Hbelow k e1 ltac:(lia) Ht)). wp_step; bool_prop.
    + wp_step. eapply wp_discard_step; [|done|]; [lia|]. intros e2 es2 Ht2 Hes2. wp_step. rewrite app_nil_r.
      split; [done|]. split; [by rewrite um_new_sdus_app, Hes, Hes2|lia].
    + eapply wp_release_step; [|done| |]; [lia| |].
      * intros Hf. rewrite Ec in Hf by lia. rewrite app_nil_r. apply HQ; [|lia|done|done].
        symmetry. apply first_open_spec; [lia|done|by right].
      * intros e2 Hf Ht2. rewrite Ec in Hf by lia. rewrite app_nil_r. split; [done|]. split; [done|].
        intros j Hj. destruct (Z.eq_dec j k) as [->|]; [done|apply Hall; lia].
Qed.

(** ** Placing a segment *)

(** The entry of [k] is written; a slot that another number of the window held is taken over. *)
Lemma wp_place R hi w k info0 e (Q : rlc_rx_um_sdu_info -> rlc_rx_um_entity -> list rx_event -> Prop) :
  holds R R hi w e -> R <= k < R + mod_ e -> hi <= R + um_window_size e -> (forall j, hi <= j -> w !! j = None) -> info0 = default sdu_info_default (w !! k) ->
  (forall e', same_but_window e e' -> holds R (R `max` (k + 1 - um_window_size e)) (hi `max` (k + 1)) (<[k := info0]> w) e' -> Q info0 e' []) ->
  wp (get_or_add_sn (k mod mod_ e)) Q e.
Proof.
  intros Hh Hk Hhi Hnew -> HQ. pose proof (rxum_ring_sizes e) as (W1 & W2 & _ & W4 & W5 & W6). unfold get_or_add_sn. do 3 wp_step. rewrite um_has_sn_win.
  destruct (win e (k mod mod_ e)) as [info|] eqn:E.
  - destruct (ho_keys _ _ _ _ _ Hh _ _ E) as (k' & Hk' & Ek). apply (mod_inj e R) in Ek; [subst k'|lia|lia].
    assert (w !! k = Some info) as Ew by (rewrite <- (ho_at _ _ _ _ _ Hh) by lia; done). rewrite Ew in *. cbn [default] in *.
    wp_step. eapply wp_um_window_at; [apply u32_mod_sn|done|]. cbn [app]. apply HQ; [done|]. rewrite insert_id by done.
    replace (R `max` (k + 1 - um_window_size e)) with R by lia. by replace (hi `max` (k + 1)) with hi by lia.
  - assert (default sdu_info_default (w !! k) = sdu_info_default) as Ed.
    { destruct (Z.lt_ge_cases k hi); [|by rewrite Hnew]. by rewrite <- (ho_at _ _ _ _ _ Hh) by lia; rewrite E. }
    rewrite Ed in HQ.
    wp_step. unfold SduWindow.add_sn. pose proof (um_has_sn_win e k) as Hs. rewrite E in Hs. unfold has_sn in Hs. rewrite Hs.
    do 2 wp_step. set (e' := set_rx_window _ e).
    assert (Hw : forall x, win e' x = if x =? k mod mod_ e then Some sdu_info_default else
      if CircularMap.get_circular_idx (rx_window e) x =? CircularMap.get_circular_idx (rx_window e) (k mod mod_ e) then None else win e x).
    { intros x. unfold e', win. simpl. apply CircularMap.lookup_overwrite, Hh. }
    assert (Hslot : forall x, CircularMap.get_circular_idx (rx_window e) (x mod mod_ e) = x mod um_window_size e).
    { intros x. rewrite (circular_idx_mod _ (to_number_um_sn (rxum_sn_field_length (cfg e)) - 1)); rewrite ?(wo_cap _ (ho_ok _ _ _ _ _ Hh)); [|destruct (rxum_sn_field_length (cfg e)); simpl; lia|done].
      rewrite W2, Z.mul_comm, Z.rem_mul_r, Z.mul_comm, Z_mod_plus_full, Z.mod_mod by lia. done. }
    eapply wp_um_window_at; [apply u32_mod_sn|by rewrite Hw, Z.eqb_refl|]. cbn [app]. apply HQ; [done|]. split.
    + split; [by apply CircularMap.wf_overwrite, Hh|]. unfold e'. simpl. rewrite CircularMap.capacity_overwrite; apply Hh.
    + change (mod_ e') with (mod_ e). intros j Hj. rewrite Hw. destruct (Z.eqb_spec (j mod mod_ e) (k mod mod_ e)) as [Ej|Ej].
      * apply (mod_inj e R) in Ej; [subst j|lia|lia]. by rewrite lookup_insert_eq.
      * rewrite lookup_insert_ne by (intros <-; lia). rewrite !Hslot. destruct (Z.eqb_spec (j mod um_window_size e) (k mod um_window_size e)) as [Es|Es].
        -- exfalso. apply Ej. f_equal. apply (mod_close (um_window_size e)); [lia|lia|done].
        -- destruct (Z.lt_ge_cases j hi); [apply Hh; lia|]. rewrite Hnew by done. destruct (win e (j mod mod_ e)) as [i|] eqn:Ei; [|done].
           destruct (ho_keys _ _ _ _ _ Hh _ _ Ei) as (j' & Hj' & Ej'). apply (mod_inj e R) in Ej'; lia.
    + change (mod_ e') with (mod_ e). intros sn info. rewrite Hw. destruct (Z.eqb_spec sn (k mod mod_ e)) as [->|]; [exists k; split; [lia|done]|].
      destruct (_ =? _); [done|]. intros Hsn. destruct (ho_keys _ _ _ _ _ Hh _ _ Hsn) as (j & Hj & ->). exists j. split; [lia|done].
Qed.
