(* ===== verification/RlcRxUmRefine.v ===== *)
(** * RLC UM receiving entity: refinement of the abstract receiver

    [represents r e]: the entity [e], with its numbers modulo 64 or 4096 and half as many slots, is the receiver
    [r].  Every handler preserves it, with the receiver's step on the abstract side, as long as no
    last segment with offset zero arrives; [supervised] says when t-Reassembly runs. *)

From S2P Require Import Prelude Effects Window RlcConfig RlcAmPdu Timers Segments RlcRxAm RlcUmPdu RlcRxUm RlcRxUmInv.
Import UmHeader RlcRxUm UmReceiver.
Open Scope Z_scope.
Open Scope entity_scope.

Record represents (r : receiver) (e : rlc_rx_um_entity) : Prop := {
  rp_R : next_reassembly r mod mod_ e = rx_next_reassembly (st e);
  rp_H : next_highest r mod mod_ e = rx_next_highest (st e);
  rp_range : next_highest r - um_window_size e <= next_reassembly r <= next_highest r;
  rp_holds : holds (next_reassembly r) (next_reassembly r) (next_highest r) (store r) e;
  rp_new : forall j, next_highest r <= j -> store r !! j = None;
  rp_open : complete_at (store r) (next_reassembly r) = false;
  rp_set : is_set (reassembly_timer e) = true;
  rp_trigger : 0 <= rx_timer_trigger (st e) < mod_ e
}.

(** More than one SDU is incomplete only while t-Reassembly runs. *)
Definition supervised (r : receiver) (e : rlc_rx_um_entity) : Prop :=
  is_running (reassembly_timer e) = false -> next_highest r <= next_reassembly r + 1.

(** A sender that splits an SDU never sends a last segment with offset zero. *)
Definition regular_segment (si : rlc_si_field) (so : Z) : Prop := si = last_segment -> so <> 0.

Lemma new_sdus_deliver (sdu : option (list Z)) e (Q : unit -> rlc_rx_um_entity -> list rx_event -> Prop) :
  (forall es, new_sdus es = option_list sdu -> Q tt e es) -> wp (deliver sdu) Q e.
Proof. intros HQ. unfold deliver. destruct sdu; wp_steps; by apply HQ. Qed.

Lemma info_add_fresh segment : regular_segment (sg_si segment) (sg_so segment) -> fully_received (info_add sdu_info_default segment) = false.
Proof.
  intros Hr. unfold info_add, update_segment_inventory. cbn. destruct (Z.eqb_spec (sg_so segment) 0); cbn; [|done].
  destruct (si_eqb (sg_si segment) last_segment) eqn:E; [|done]. by apply si_eqb_eq in E; apply Hr in E.
Qed.

Lemma mod_eqb e a x y : a <= x < a + mod_ e -> a <= y < a + mod_ e -> (x mod mod_ e =? y mod mod_ e) = (x =? y).
Proof.
  intros Hx Hy. destruct (Z.eqb_spec x y) as [->|Hne]; [apply Z.eqb_refl|]. apply Z.eqb_neq. intros E. by apply (mod_inj e a) in E.
Qed.

Lemma mod_mod_ e k : k mod mod_ e mod mod_ e = k mod mod_ e.
Proof. pose proof (rxum_ring_sizes e). apply Z.mod_mod. lia. Qed.

(** Transport along entities that differ in the window only. *)
Lemma same_transport e e' : same_but_window e e' -> mod_ e' = mod_ e /\ um_window_size e' = um_window_size e /\ st e' = st e /\ reassembly_timer e' = reassembly_timer e.
Proof. intros [S1 S2 S3]. by destruct (um_same_mod e e' S1). Qed.

Lemma wp_um_handle_segment_data_sdu r e header payload k (Q : bool -> rlc_rx_um_entity -> list rx_event -> Prop) :
  represents r e -> um_sn header = k mod mod_ e -> next_reassembly r <= k < next_highest r + um_window_size e -> si_eqb (um_si header) full_sdu = false ->
  (let info := info_add (default sdu_info_default (store r !! k)) (mk_segment (um_si header) (um_so header) payload) in
   forall b e', same_but_window e e' ->
     holds (next_reassembly r) (next_reassembly r `max` (k + 1 - um_window_size e)) (next_highest r `max` (k + 1)) (<[k := info]> (store r)) e' -> Q b e' []) ->
  wp (handle_segment_data_sdu header payload) Q e.
Proof.
  intros Hr Esn Hk Hsi HQ. pose proof (rxum_ring_sizes e) as (W1 & W2 & _). pose proof (rp_range _ _ Hr). unfold handle_segment_data_sdu. rewrite Hsi, Esn. cbv zeta in HQ.
  wp_step.
  eapply wp_place; [apply (rp_holds _ _ Hr)|lia|lia|apply (rp_new _ _ Hr)|done|]. intros e1 S1 [O1 A1 K1].
  destruct (store_segment _ _) as [l b] eqn:Es. destruct (same_transport _ _ S1) as (Em & Ew & _). rewrite Em in A1, K1.
  wp_step. eapply (wp_um_window_set e1); [apply u32_mod_sn|rewrite A1 by lia; apply lookup_insert_eq|done|]. intros e2 S2 O2 W2'. wp_step.
  destruct (same_transport _ _ S2) as (Em2 & _).
  apply HQ; [destruct S1, S2; split; congruence|]. split; [done| |]; rewrite Em2, Em.
  - intros j Hj. rewrite W2', (mod_eqb e (next_reassembly r)) by lia. destruct (Z.eqb_spec j k) as [->|].
    + rewrite lookup_insert_eq. unfold info_add. by rewrite Es.
    + rewrite lookup_insert_ne by done. rewrite A1 by lia. by rewrite lookup_insert_ne.
  - intros sn info. rewrite W2'. destruct (Z.eqb_spec sn (k mod mod_ e)) as [->|]; [exists k; split; [lia|done]|apply K1].
Qed.

(** [e'] is [e] with the window and the edges [R] and [hi] replaced. *)
Definition moved (R hi : Z) (e e' : rlc_rx_um_entity) : Prop :=
  cfg e' = cfg e /\ reassembly_timer e' = reassembly_timer e /\ st e' = mk_state (R mod mod_ e) (rx_timer_trigger (st e)) (hi mod mod_ e).

Lemma moved_same (R hi : Z) e e' : R mod mod_ e = rx_next_reassembly (st e) -> hi mod mod_ e = rx_next_highest (st e) -> same_but_window e e' -> moved R hi e e'.
Proof. intros ER EH [S1 S2 S3]. split; [done|]. split; [done|]. rewrite S2, ER, EH. by destruct (st e). Qed.

Lemma moved_from R hi e e1 e2 : same_but_window e e1 -> moved R hi e1 e2 -> moved R hi e e2.
Proof.
  intros S1 (M1 & M2 & M3). destruct (same_transport _ _ S1) as (Em & _ & Est & Etm). rewrite Em, Est in M3. destruct S1. split; [congruence|]. split; [congruence|done].
Qed.

Lemma moved_release (hi : Z) e e' x : hi mod mod_ e = rx_next_highest (st e) -> same_but_window e e' -> moved x hi e (set_rx_next_reassembly (x mod mod_ e) e').
Proof. intros EH [S1 S2 S3]. split; [done|]. split; [done|]. simpl. by rewrite S2, EH. Qed.

Lemma holds_same lo mid hi w e e' : rx_window e' = rx_window e -> cfg e' = cfg e -> holds lo mid hi w e -> holds lo mid hi w e'.
Proof.
  intros Hw S1 [[O1 O2] A K]. destruct (um_same_mod e e' S1) as [Em Ew]. unfold win in *. split; [split|..]; unfold win; rewrite ?Em, ?Ew, Hw; done.
Qed.

Lemma wp_deliver_complete alloc R hi w k info e (Q : unit -> rlc_rx_um_entity -> list rx_event -> Prop) :
  holds R R hi w e -> w !! k = Some info -> R <= k < hi -> hi - um_window_size e <= R ->
  R mod mod_ e = rx_next_reassembly (st e) -> hi mod mod_ e = rx_next_highest (st e) ->
  (let w' := <[k := info_release info]> w in let R' := if k =? R then first_open (Z.to_nat (hi - R)) w' R else R in
   forall e' es, moved R' hi e e' -> holds R' R' hi w' e' -> new_sdus es = option_list (reassemble_sdu alloc info) -> Q tt e' es) ->
  wp (deliver_complete alloc (k mod mod_ e)) Q e.
Proof.
  intros Hh Hw Hk Hhi ER EH HQ. pose proof (rxum_ring_sizes e) as (W1 & W2 & _). cbv zeta in HQ. unfold deliver_complete.
  assert (win e (k mod mod_ e) = Some info) as Ewin by (rewrite (ho_at _ _ _ _ _ Hh) by lia; done).
  wp_step. eapply wp_um_window_at; [apply u32_mod_sn|done|]. wp_step. apply new_sdus_deliver. intros es Hes. wp_step.
  eapply wp_um_window_set; [apply u32_mod_sn|done|apply Hh|]. intros e1 S1 O1 W1'. destruct (same_transport _ _ S1) as (Em & Ew & Est & Etm).
  assert (holds R R hi (<[k := info_release info]> w) e1) as Hh1.
  { split; [done| |]; rewrite Em.
    - intros j Hj. rewrite W1', (mod_eqb e R) by lia. destruct (Z.eqb_spec j k) as [->|]; [by rewrite lookup_insert_eq|].
      rewrite lookup_insert_ne by done. by apply Hh.
    - intros sn i. rewrite W1'. destruct (Z.eqb_spec sn (k mod mod_ e)) as [->|]; [exists k; split; [lia|done]|apply Hh]. }
  do 2 wp_step. rewrite Est, <- ER, (mod_eqb e R) by lia. destruct (k =? R); wp_step; try done.
  - wp_step. rewrite Em, mod_mod_, <- Em. eapply wp_release_from; [done|by rewrite Em, Est|rewrite Ew; lia|].
    intros x e2 -> Hx Ht. wp_step. rewrite !app_nil_r. rewrite Em in *.
    apply HQ; [|apply (holds_same _ _ _ _ e2); [done|done|]|done].
    + apply moved_release; [done|]. destruct (tr_same _ _ _ _ Ht), S1. split; congruence.
    + eapply holds_trimmed; [done|done|lia|lia].
  - rewrite !app_nil_r. apply HQ; [by apply moved_same|done|done].
Qed.

Lemma wp_advance_window R w k e (Q : unit -> rlc_rx_um_entity -> list rx_event -> Prop) :
  holds R (R `max` (k + 1 - um_window_size e)) (k + 1) w e -> R <= k < R + mod_ e ->
  R mod mod_ e = rx_next_reassembly (st e) ->
  (let low := R `max` (k + 1 - um_window_size e) in let R' := first_open (Z.to_nat (k + 1 - low)) w low in
   forall e' es, moved R' (k + 1) e e' -> holds R' R' (k + 1) w e' -> low <= R' <= k + 1 -> new_sdus es = [] -> Q tt e' es) ->
  wp (advance_window (k mod mod_ e)) Q e.
Proof.
  intros Hh Hk ER HQ. pose proof (rxum_ring_sizes e) as (W1 & W2 & _). cbv zeta in HQ. unfold advance_window. do 5 wp_step.
  fold (next_sn e (k mod mod_ e)). rewrite next_sn_mod. set (e1 := set_rx_next_highest _ e).
  assert (holds R (R `max` (k + 1 - um_window_size e)) (k + 1) w e1) as Hh1 by (by apply (holds_same _ _ _ _ e)).
  change (rx_next_reassembly (st e1)) with (rx_next_reassembly (st e)). change (mod_ e1) with (mod_ e). rewrite <- ER, mod_mod_.
  eapply (wp_discard_outside R _ (k + 1) w e1); [done|done|change (mod_ e1) with (mod_ e); lia|done|]. intros e2 es2 Hes2 Ht2. wp_step.
  destruct (same_transport _ _ (tr_same _ _ _ _ Ht2)) as (Em & Ew & Est & Etm). change (mod_ e1) with (mod_ e) in *. change (um_window_size e1) with (um_window_size e) in *.
  rewrite <- Em. eapply (wp_release_from _ (k + 1) w e2).
  - eapply holds_trimmed; [done|done|lia|change (mod_ e1) with (mod_ e); lia].
  - by rewrite Em, Est.
  - rewrite Ew. lia.
  - intros x e3 -> Hx Ht3. wp_step. rewrite !app_nil_r, Em. destruct (tr_same _ _ _ _ Ht2) as [A1 A2 A3], (tr_same _ _ _ _ Ht3).
    change (cfg e1) with (cfg e) in A1. change (reassembly_timer e1) with (reassembly_timer e) in A3.
    apply HQ; [|apply (holds_same _ _ _ _ e3); [done|done|]|lia|done].
    + split; [simpl; congruence|]. split; [simpl; congruence|]. simpl. replace (st e3) with (st e1) by congruence. done.
    + eapply holds_trimmed; [eapply holds_trimmed; [done|done|lia|change (mod_ e1) with (mod_ e); lia]|done|lia|rewrite Em; lia].
Qed.

(** ** t-Reassembly *)

Lemma represents_timer r e e' : cfg e' = cfg e -> rx_window e' = rx_window e ->
  rx_next_reassembly (st e') = rx_next_reassembly (st e) -> rx_next_highest (st e') = rx_next_highest (st e) ->
  is_set (reassembly_timer e') = true -> 0 <= rx_timer_trigger (st e') < mod_ e -> represents r e -> represents r e'.
Proof.
  intros S1 S2 S3 S4 S5 S6 []. destruct (um_same_mod e e' S1) as [Em Ew]. split; rewrite ?Em, ?Ew, ?S3, ?S4; try done. by eapply holds_same.
Qed.

Lemma wp_um_stop_reassembly_timer r e (Q : unit -> rlc_rx_um_entity -> list rx_event -> Prop) :
  represents r e -> (forall e', represents r e' -> cfg e' = cfg e -> Q tt e' []) -> wp stop_reassembly_timer Q e.
Proof.
  intros Hr HQ. unfold stop_reassembly_timer. wp_step. wp_step. wp_step; [|by apply HQ]. wp_step.
  assert (forall b, wp (when ((rx_timer_trigger (st e) <=? rx_next_reassembly (st e)) ||
    negb (sn_in_reassembly_window e (rx_timer_trigger (st e))) && negb (rx_timer_trigger (st e) =? rx_next_highest (st e)) || b)
    (modify (set_reassembly_timer (timer_stop (reassembly_timer e))))) Q e) as Hwhen.
  { intros b. wp_step; [|by apply HQ]. wp_step. apply HQ; [|done]. apply (represents_timer r e); try done; [|apply Hr]. simpl. rewrite is_set_stop. apply Hr. }
  assert (u32 (rx_next_highest (st e)) = rx_next_highest (st e)) as Hu by (rewrite <- (rp_H _ _ Hr); apply u32_mod_sn).
  wp_step; [apply wp_window_flag; [done|]|wp_step]; apply Hwhen.
Qed.

(** Where the numbers compared before a start of t-Reassembly lie. *)
Lemma rx_mod_base_next r e : represents r e ->
  rx_mod_base e (u32 (rx_next_reassembly (st e) + 1)) = next_reassembly r + 1 - next_highest r + um_window_size e /\
  rx_mod_base e (rx_next_highest (st e)) = um_window_size e.
Proof.
  intros Hr. pose proof (rxum_ring_sizes e) as (W1 & W2 & _ & _ & _ & W6). pose proof (rp_range _ _ Hr). split; [|apply (rx_mod_base_highest e (next_highest r)), Hr].
  rewrite rx_mod_base_u32, rx_mod_base_mod, <- (rp_R _ _ Hr), <- (rx_mod_base_near e (next_highest r)); [|apply Hr|lia].
  rewrite rx_mod_base_mod, <- !Z.sub_add_distr, (Zminus_mod (next_reassembly r mod _ + 1)), (Zminus_mod ((next_reassembly r + 1) mod _)).
  by rewrite Zplus_mod_idemp_l, mod_mod_.
Qed.

Lemma wp_um_restart_needed r e (Q : bool -> rlc_rx_um_entity -> list rx_event -> Prop) : represents r e ->
  (forall gap : bool, Q ((next_reassembly r + 1 <? next_highest r) || gap) e []) -> wp restart_needed Q e.
Proof.
  intros Hr HQ. pose proof (rxum_ring_sizes e) as (W1 & W2 & _). destruct (rx_mod_base_next r e Hr) as [E1 E2].
  assert (u32 (rx_next_highest (st e)) = rx_next_highest (st e)) as Hu by (rewrite <- (rp_H _ _ Hr); apply u32_mod_sn).
  unfold restart_needed. do 2 wp_step. rewrite E1, E2.
  assert ((next_reassembly r + 1 - next_highest r + um_window_size e <? um_window_size e) = (next_reassembly r + 1 <? next_highest r)) as ->.
  { destruct (Z.ltb_spec (next_reassembly r + 1) (next_highest r)); [apply Z.ltb_lt; lia|apply Z.ltb_ge; lia]. }
  wp_step. wp_step; [apply wp_window_flag; [done|]|wp_step]; wp_step; apply HQ.
Qed.

(** No entry lies under RX_Next_Highest. *)
Lemma nothing_under_highest r e : represents r e -> win e (rx_next_highest (st e)) = None.
Proof.
  intros Hr. pose proof (rxum_ring_sizes e) as (W1 & W2 & _). pose proof (rp_range _ _ Hr). destruct (win e (rx_next_highest (st e))) as [info|] eqn:E; [|done].
  destruct (ho_keys _ _ _ _ _ (rp_holds _ _ Hr) _ _ E) as (k & Hk & Ek). rewrite <- (rp_H _ _ Hr) in Ek. apply (mod_inj e (next_reassembly r)) in Ek; lia.
Qed.

Lemma restart_needed_alone r e : represents r e -> next_highest r = next_reassembly r + 1 ->
  wp restart_needed (fun b e' es => b = false /\ e' = e /\ es = []) e.
Proof.
  intros Hr Hone. destruct (rx_mod_base_next r e Hr) as [E1 E2]. unfold restart_needed. do 2 wp_step. rewrite E1, E2, (proj2 (Z.ltb_ge _ _)) by lia.
  assert (u32 (rx_next_highest (st e)) = rx_next_highest (st e)) as Hu by (rewrite <- (rp_H _ _ Hr); apply u32_mod_sn).
  wp_step. wp_step; [apply wp_window_flag; [done|]; rewrite (nothing_under_highest r e Hr)|wp_step]; by wp_step.
Qed.

Lemma wp_restart_reassembly_timer r e (Q : unit -> rlc_rx_um_entity -> list rx_event -> Prop) :
  represents r e -> (forall e', represents r e' -> supervised r e' -> cfg e' = cfg e -> Q tt e' []) ->
  wp restart_reassembly_timer Q e.
Proof.
  intros Hr HQ. pose proof (rxum_ring_sizes e) as (W1 & W2 & _). unfold restart_reassembly_timer. wp_step. eapply wp_um_restart_needed; [done|]. intros gap. wp_step.
  - unfold run_reassembly_timer. do 3 wp_step. unfold timer_run. rewrite (rp_set _ _ Hr). cbn [negb]. do 4 wp_step. apply HQ; [|done|done].
    apply (represents_timer r e); try done; [apply Hr|]. simpl. rewrite <- (rp_H _ _ Hr). apply Z.mod_pos_bound. lia.
  - apply HQ; [done| |done]. intros _. bool_prop. lia.
Qed.

Lemma wp_start_reassembly_timer r e (Q : unit -> rlc_rx_um_entity -> list rx_event -> Prop) :
  represents r e -> (forall e', represents r e' -> supervised r e' -> cfg e' = cfg e -> Q tt e' []) ->
  wp start_reassembly_timer Q e.
Proof.
  intros Hr HQ. unfold start_reassembly_timer. wp_step. wp_step. wp_step; bool_prop.
  - by eapply wp_restart_reassembly_timer.
  - apply HQ; [done| |done]. intros Hn. congruence.
Qed.

(** ** The handlers *)

Lemma represents_moved r e R hi w e' : represents r e -> moved R hi e e' -> holds R R hi w e' -> hi - um_window_size e <= R <= hi ->
  (forall j, hi <= j -> w !! j = None) -> complete_at w R = false -> represents (mk_receiver R hi w) e'.
Proof.
  intros Hr (S1 & S2 & S3) Hh Hran Hnew Hop. destruct (um_same_mod e e' S1) as [Em Ew].
  split; simpl; rewrite ?Em, ?Ew, ?S2, ?S3; try done; apply Hr.
Qed.

Lemma first_open_edge w lo hi : lo <= hi -> (forall j, hi <= j -> w !! j = None) ->
  let x := first_open (Z.to_nat (hi - lo)) w lo in lo <= x <= hi /\ complete_at w x = false.
Proof.
  intros Hl Hn x. destruct (first_open_found (Z.to_nat (hi - lo)) w lo) as (H1 & _ & H2). fold x in H1, H2. split; [lia|].
  destruct H2 as [H2|]; [|done]. unfold complete_at. by rewrite Hn by lia.
Qed.

Lemma number_of_spec r e sn : represents r e -> 0 <= sn < mod_ e ->
  let k := number_of (um_window_size e) sn r in
  sn = k mod mod_ e /\ next_highest r - um_window_size e <= k < next_highest r + um_window_size e.
Proof.
  intros Hr Hsn k. pose proof (rxum_ring_sizes e) as (W1 & W2 & _). subst k. unfold number_of. rewrite <- W2.
  pose proof (Z.mod_pos_bound (sn - next_highest r + um_window_size e) (mod_ e)). split; [|lia].
  rewrite Zplus_mod_idemp_r. replace (_ + _) with sn by lia. symmetry. apply Z.mod_small. lia.
Qed.

Lemma insert_new (w : gmap Z rlc_rx_um_sdu_info) k i hi : k < hi -> (forall j, hi <= j -> w !! j = None) -> forall j, hi <= j -> <[k := i]> w !! j = None.
Proof. intros Hk Hn j Hj. rewrite lookup_insert_ne by lia. by apply Hn. Qed.

Lemma complete_insert w k i x : complete_at (<[k := i]> w) x = if x =? k then fully_received i else complete_at w x.
Proof. unfold complete_at. destruct (Z.eqb_spec x k) as [->|]; [by rewrite lookup_insert_eq|by rewrite lookup_insert_ne]. Qed.

Lemma wp_handle_segment r e alloc header payload k (Q : unit -> rlc_rx_um_entity -> list rx_event -> Prop) :
  represents r e -> um_sn header = k mod mod_ e -> next_reassembly r <= k < next_highest r + um_window_size e ->
  si_eqb (um_si header) full_sdu = false -> regular_segment (um_si header) (um_so header) ->
  (let '(r', sdus) := receive_segment (um_window_size e) alloc k (mk_segment (um_si header) (um_so header) payload) r in
   forall e' es, represents r' e' -> supervised r' e' -> cfg e' = cfg e -> new_sdus es = sdus -> Q tt e' es) ->
  wp (handle_segment alloc header payload) Q e.
Proof.
  intros Hr Esn Hk Hsi Hreg HQ. pose proof (rxum_ring_sizes e) as (W1 & W2 & _). pose proof (rp_range _ _ Hr) as Hran. unfold handle_segment.
  wp_step. eapply wp_um_handle_segment_data_sdu; [done..|]. cbv zeta. set (segment := mk_segment _ _ _) in *. unfold receive_segment in HQ.
  set (info := info_add _ segment) in *. intros b e1 S1 Hh1. destruct (same_transport _ _ S1) as (Em & Ew & Est & Etm).
  assert (forall r' sdus e2 es, moved (next_reassembly r') (next_highest r') e e2 -> represents r' e2 -> new_sdus es = sdus ->
    (forall e' es, represents r' e' -> supervised r' e' -> cfg e' = cfg e -> new_sdus es = sdus -> Q tt e' es) ->
    wp (stop_reassembly_timer ;;; start_reassembly_timer) (fun a s es' => Q a s (es ++ es')) e2) as Htimers.
  { intros r' sdus e2 es Hm2 Hr2 Hes HQ'. wp_step. eapply wp_um_stop_reassembly_timer; [done|]. intros e3 Hr3 E3.
    eapply wp_start_reassembly_timer; [done|]. intros e4 Hr4 Hs4 E4. rewrite !app_nil_r. apply HQ'; [done|done| |done].
    rewrite E4, E3. apply Hm2. }
  wp_step. rewrite Esn, <- Em. apply wp_window_flag; [apply u32_mod_sn|]. fold (complete e1 (k mod mod_ e1)).
  assert (complete e1 (k mod mod_ e1) = fully_received info) as Ec.
  { unfold complete. rewrite (ho_at _ _ _ _ _ Hh1) by lia. by rewrite lookup_insert_eq. }
  rewrite Ec. do 2 wp_step. wp_step. destruct (fully_received info) eqn:Ef.
  - assert (k < next_highest r) as Hlt.
    { destruct (Z.lt_ge_cases k (next_highest r)) as [|Hge]; [done|]. subst info. rewrite (rp_new _ _ Hr) in Ef by done. by rewrite info_add_fresh in Ef. }
    cbv iota. replace (_ `max` (k + 1 - _)) with (next_reassembly r) in Hh1 by lia. replace (_ `max` (k + 1)) with (next_highest r) in Hh1 by lia.
    eapply (wp_deliver_complete _ (next_reassembly r) (next_highest r)); [done|apply lookup_insert_eq|lia|rewrite Ew; lia|rewrite Em, Est; apply Hr|rewrite Em, Est; apply Hr|].
    cbv zeta. rewrite insert_insert_eq. intros e2 es Hm Hh2 Hes. apply (moved_from _ _ _ _ _ S1) in Hm.
    pose proof (fun i => insert_new (store r) k i _ Hlt (rp_new _ _ Hr)) as Hnew.
    eapply Htimers; [|eapply represents_moved; [done|exact Hm|exact Hh2|..]|exact Hes|exact HQ]; [done|..].
    + destruct (k =? _); [|lia]. destruct (first_open_edge (<[k:=info_release info]> (store r)) (next_reassembly r) (next_highest r)); [lia|apply Hnew|lia].
    + apply Hnew.
    + destruct (Z.eqb_spec k (next_reassembly r)) as [Ek|Ek]; [apply first_open_edge; [lia|apply Hnew]|].
      rewrite complete_insert. destruct (Z.eqb_spec (next_reassembly r) k); [lia|apply Hr].
  - rewrite (um_in_window_spec e1 (next_highest r)); [|rewrite Em, Est; apply Hr|lia]. rewrite Ew, (proj2 (Z.leb_le _ _)) by lia. cbn [andb].
    destruct (Z.ltb_spec k (next_highest r)) as [Hlt|Hge]; cbn [negb].
    + replace (_ `max` (k + 1 - _)) with (next_reassembly r) in Hh1 by lia. replace (_ `max` (k + 1)) with (next_highest r) in Hh1 by lia.
      wp_step; [done|]. eapply (Htimers _ _ e1 []); [|eapply represents_moved; [done|apply moved_same; [apply Hr..|exact S1]|exact Hh1|..]|done|exact HQ].
      * apply moved_same; [apply Hr..|done].
      * lia.
      * apply insert_new; [done|apply Hr].
      * rewrite complete_insert. destruct (_ =? _); [done|apply Hr].
    + replace (_ `max` (k + 1)) with (k + 1) in Hh1 by lia. wp_step; [|done]. rewrite <- Ew in Hh1.
      eapply (wp_advance_window (next_reassembly r)); [exact Hh1|lia|rewrite Em, Est; apply Hr|].
      cbv zeta. rewrite Ew. intros e2 es Hm Hh2 Hx Hes. apply (moved_from _ _ _ _ _ S1) in Hm.
      assert (forall j, k + 1 <= j -> <[k := info]> (store r) !! j = None) as Hnew.
      { apply insert_new; [lia|]. intros j Hj. apply Hr. lia. }
      eapply Htimers; [|eapply represents_moved; [done|exact Hm|exact Hh2|..]|exact Hes|exact HQ]; [done|lia|done|].
      apply first_open_edge; [lia|done].
Qed.

(** What a PDU announces is what a sender that splits SDUs may announce. *)
Definition regular_pdu (size : rlc_um_sn_size) (buf : list Z) : Prop :=
  match rlc_um_read_data_pdu_header buf size with
  | Ok (Some h) => regular_segment (um_si h) (um_so h)
  | _ => True
  end.

Definition sn_size (e : rlc_rx_um_entity) : rlc_um_sn_size := rxum_sn_field_length (cfg e).

Lemma wp_um_handle_pdu r e alloc buf (Q : unit -> rlc_rx_um_entity -> list rx_event -> Prop) :
  represents r e -> supervised r e -> Forall is_byte buf -> regular_pdu (sn_size e) buf ->
  (let '(r', sdus) := receive_pdu (um_window_size e) alloc (sn_size e) buf r in
   forall e' es, represents r' e' -> supervised r' e' -> cfg e' = cfg e -> new_sdus es = sdus -> Q tt e' es) ->
  wp (handle_pdu alloc buf) Q e.
Proof.
  intros Hr Hs Hb Hreg HQ. pose proof (rxum_ring_sizes e) as (W1 & W2 & _). unfold handle_pdu. do 6 wp_step. unfold receive_pdu, regular_pdu in *. fold (sn_size e).
  destruct (um_read_any (sn_size e) buf Hb) as (o & E & Hty). rewrite E in *. destruct o as [h|]; [|wp_step; by apply HQ].
  destruct (zlen buf <=? rlc_um_nr_packed_length h); [wp_step; by apply HQ|]. destruct (si_eqb (um_si h) full_sdu) eqn:Ef.
  - apply new_sdus_deliver. intros es Hes. by apply HQ.
  - destruct (number_of_spec r e (um_sn h) Hr) as [Esn Hk]; [exact (ur_sn _ _ _ Hty)|]. set (k := number_of _ _ r) in *.
    rewrite Esn, (invalid_spec e (next_highest r) (rp_H _ _ Hr) (next_reassembly r)); [|apply Hr|pose proof (rp_range _ _ Hr); lia|lia].
    destruct (Z.ltb_spec k (next_reassembly r)); [wp_step; by apply HQ|]. eapply wp_handle_segment; [done|done|lia|done|done|].
    destruct (receive_segment _ _ _ _ _) as [r' sdus]. intros e' es H1 H2 H3 H4. by apply HQ.
Qed.

(** The trigger as a number near RX_Next_Highest. *)
Definition trigger_of (r : receiver) (e : rlc_rx_um_entity) : Z := number_of (um_window_size e) (rx_timer_trigger (st e)) r.

Lemma wp_on_expired r e (Q : unit -> rlc_rx_um_entity -> list rx_event -> Prop) :
  represents r e ->
  (forall e' es, let r' := expire (trigger_of r e) r in represents r' e' -> supervised r' e' -> cfg e' = cfg e -> new_sdus es = [] -> Q tt e' es) ->
  wp on_expired_reassembly_timer Q e.
Proof.
  intros Hr HQ. pose proof (rxum_ring_sizes e) as (W1 & W2 & _). unfold on_expired_reassembly_timer. pose proof (rp_range _ _ Hr) as Hran.
  destruct (number_of_spec r e _ Hr (rp_trigger _ _ Hr)) as [ET HT]. do 3 wp_step. rewrite <- (rp_R _ _ Hr).
  eapply (wp_um_expire_loop _ (next_highest r)); [apply Hr|apply Hr|done|symmetry; exact ET|exact HT|]. intros x e1 es Hx Hx2 Hes Ht. do 2 wp_step.
  eapply wp_restart_reassembly_timer.
  - eapply represents_moved; [done|apply (moved_release (next_highest r)); [apply Hr|apply Ht]|..].
    + eapply holds_same; [| |eapply holds_trimmed; [apply Hr|exact Ht|lia|lia]]; done.
    + lia.
    + apply Hr.
    + subst x. apply first_open_edge; [lia|apply Hr].
  - subst x. intros e2 Hr2 Hs2 E2. rewrite app_nil_r. apply HQ; [done|done| |done]. rewrite E2. apply Ht.
Qed.

(** A task dispatched for an earlier start of the timer changes nothing. *)
Lemma wp_um_reassembly_timeout r e epoch (Q : unit -> rlc_rx_um_entity -> list rx_event -> Prop) :
  represents r e -> supervised r e -> (tm_cmd_id (reassembly_timer e) = epoch -> is_running (reassembly_timer e) = true) ->
  (forall e' es, let r' := if tm_cmd_id (reassembly_timer e) =? epoch then expire (trigger_of r e) r else r in
     represents r' e' -> supervised r' e' -> cfg e' = cfg e -> new_sdus es = [] -> Q tt e' es) ->
  wp (reassembly_timeout epoch) Q e.
Proof.
  intros Hr Hs Hrun HQ. unfold reassembly_timeout. do 3 wp_step. apply wp_timeout_task; [done| |].
  - intros E. do 2 wp_step. cbn [fst snd when]. rewrite (proj2 (Z.eqb_eq _ _) E) in HQ.
    set (e1 := set_reassembly_timer _ e). eapply (wp_on_expired r e1); [by apply (represents_timer r e); try apply Hr|].
    intros e' es r' H1 H2 H3 H4. by apply HQ.
  - intros E. do 2 wp_step. cbn [fst snd when]. rewrite (proj2 (Z.eqb_neq _ _) E) in HQ. wp_step. apply HQ; [|done|done|done].
    apply (represents_timer r e); try done; apply Hr.
Qed.

Lemma represents_create config e : create config = Some e -> 0 < rxum_t_reassembly config -> represents initial e /\ supervised initial e /\ cfg e = config.
Proof.
  unfold create, RlcRxAm.configured_timer. intros E Ht. rewrite (proj2 (Z.ltb_lt _ _) Ht) in E. unfold timer_set in E.
  destruct (MAX_TIMER_DURATION <? rxum_t_reassembly config); [done|]. injection E as <-.
  set (e := mk_entity _ _ _ _). pose proof (rxum_ring_sizes e) as (W1 & W2 & _). split; [|done].
  assert (holds 0 0 0 ∅ e) as Hh by (split; [split; [apply CircularMap.wf_empty|done]|lia|done]).
  split; try done; change (next_reassembly initial) with 0; change (next_highest initial) with 0; change (rx_timer_trigger (st e)) with 0; lia.
Qed.
