(* ===== verification/RlcRxUmSafety.v ===== *)
(** * RLC UM receiving entity: no abort, whatever arrives

    No octets a peer sends and no timer expiry make the entity fail an assertion or loop for ever: this needs no more
    than state variables on the ring and a configured t-Reassembly, and no assumption on the peer. *)

From S2P Require Import Prelude Effects Window RlcConfig RlcAmPdu Timers Segments RlcRxAm RlcUmPdu RlcRxUm RlcRxUmInv.
Import UmHeader RlcRxUm.
Open Scope Z_scope.
Open Scope entity_scope.

(** State variables on the ring, and a timer that can be started. *)
Record sane (e : rlc_rx_um_entity) : Prop := {
  sa_R : 0 <= rx_next_reassembly (st e) < mod_ e;
  sa_H : 0 <= rx_next_highest (st e) < mod_ e;
  sa_trigger : 0 <= rx_timer_trigger (st e) < mod_ e;
  sa_set : is_set (reassembly_timer e) = true;
  sa_ok : window_ok e
}.

(** [e'] is sane and has the configuration of [e]. *)
Definition sane_from (e e' : rlc_rx_um_entity) : Prop := sane e' /\ cfg e' = cfg e.

(** Only the window differs, and it is a window still. *)
Definition kept (e e' : rlc_rx_um_entity) : Prop := same_but_window e e' /\ (window_ok e -> window_ok e').

#[export] Instance kept_preorder : PreOrder kept.
Proof. split; [done|]. intros a b c [[] ?] [[] ?]. split; [split; congruence|auto]. Qed.

Lemma sane_kept e e' : kept e e' -> sane e -> sane_from e e'.
Proof. intros [[S1 S2 S3] O] []. split; [|done]. destruct (um_same_mod e e' S1) as [Em _]. split; rewrite ?Em, ?S2, ?S3; auto. Qed.

Lemma u32_ring e sn : 0 <= sn < mod_ e -> u32 sn = sn.
Proof. pose proof (rxum_ring_sizes e). intros. apply u32_small. lia. Qed.

Lemma wp_remove_any e sn info (Q : unit -> rlc_rx_um_entity -> list rx_event -> Prop) : u32 sn = sn -> win e sn = Some info ->
  (forall e', kept e e' -> Q tt e' []) -> wp (window_remove sn) Q e.
Proof.
  intros Hsn Hw HQ. unfold window_remove. wp_step. wp_step. unfold SduWindow.remove_sn, SduWindow.has_sn.
  rewrite Hsn, CircularMap.contains_lookup. fold (win e sn). rewrite Hw. cbn [negb]. wp_step. wp_step. wp_step. apply HQ. split; [done|].
  intros [O1 O2]. split; simpl; [by apply CircularMap.wf_erase|by rewrite CircularMap.capacity_erase].
Qed.

Lemma wp_discard_any e sn (Q : unit -> rlc_rx_um_entity -> list rx_event -> Prop) : u32 sn = sn ->
  (forall e' es, kept e e' -> Q tt e' es) -> wp (discard_sn sn) Q e.
Proof.
  intros Hsn HQ. unfold discard_sn. wp_step. wp_step. unfold has_sn, SduWindow.has_sn. rewrite Hsn, CircularMap.contains_lookup. fold (win e sn).
  destruct (win e sn) as [info|] eqn:E; wp_step; [|by apply HQ]. eapply wp_um_window_at; [done..|].
  wp_step. wp_step; [wp_step|]; (eapply wp_remove_any; [done..|]); intros e' S; by apply HQ.
Qed.

Lemma wp_release_any e sn (Q : bool -> rlc_rx_um_entity -> list rx_event -> Prop) : u32 sn = sn ->
  (forall b e' es, kept e e' -> Q b e' es) -> wp (release_step sn) Q e.
Proof.
  intros Hsn HQ. unfold release_step. wp_step. apply wp_window_flag; [done|]. destruct (win e sn) as [info|] eqn:E; cbn [flag_at].
  - wp_step; wp_step; [|by apply HQ]. eapply wp_remove_any; [done..|]. intros e' S. wp_step. by apply HQ.
  - wp_step. by apply HQ.
Qed.

(** A loop that starts on the ring and ends on RX_Next_Highest or before it. *)
Lemma wp_ring_loop e cond body sn (Q : Z -> rlc_rx_um_entity -> list rx_event -> Prop) stop_at :
  0 <= sn < mod_ e -> 0 <= stop_at < mod_ e -> (forall e', kept e e' -> cond stop_at e' = false) ->
  (forall x e', 0 <= x < mod_ e -> kept e e' -> wp (body x) (fun _ e2 _ => kept e' e2) e') ->
  (forall x e' es, 0 <= x < mod_ e -> kept e e' -> Q x e' es) ->
  wp (for_loop (sn_fuel e) cond (next_sn e) body sn) Q e.
Proof.
  intros Hsn Hstop Hcond Hbody HQ. pose proof (rxum_ring_sizes e) as (W1 & W2 & _). destruct (representative e sn stop_at) as (b & Hb & Eb); [done|].
  rewrite <- (Z.mod_small sn (mod_ e)) by done.
  assert (forall k, 0 <= k mod mod_ e < mod_ e) as Hring by (intros; apply Z.mod_pos_bound; lia).
  apply (wp_sn_loop e (fun _ e1 _ => kept e e1) _ _ sn b); [lia|done| | |].
  - intros k e1 es _ S _. by apply HQ.
  - intros e1 es S. rewrite Eb. by apply Hcond.
  - intros k e1 es _ S _. eapply wp_mono; [by apply Hbody|]. cbv beta. intros [] e2 es2 S2; [apply HQ; [done|]|]; by etrans.
Qed.

Lemma below_highest_stops e e' : kept e e' -> below_highest (rx_next_highest (st e)) e' = false.
Proof. intros [[_ S2 _] _]. unfold below_highest. rewrite S2. apply Z.ltb_irrefl. Qed.

Lemma wp_release_from_any e sn (Q : Z -> rlc_rx_um_entity -> list rx_event -> Prop) : sane e -> 0 <= sn < mod_ e ->
  (forall x e' es, 0 <= x < mod_ e -> kept e e' -> Q x e' es) -> wp (release_from sn) Q e.
Proof.
  intros Hs Hsn HQ. unfold release_from. wp_step. wp_step. apply (wp_ring_loop e _ _ _ _ (rx_next_highest (st e))); [done|apply Hs| | |done].
  - intros e'. apply below_highest_stops.
  - intros x e' Hx S. apply wp_release_any; [by apply (u32_ring e)|done].
Qed.

Lemma wp_outside_any e sn (Q : Z -> rlc_rx_um_entity -> list rx_event -> Prop) : sane e -> 0 <= sn < mod_ e ->
  (forall x e' es, 0 <= x < mod_ e -> kept e e' -> Q x e' es) ->
  wp (for_loop (sn_fuel e) (fun x e => negb (sn_in_reassembly_window e x)) (next_sn e) (fun x => discard_sn x ;;; ret false) sn) Q e.
Proof.
  intros Hs Hsn HQ. pose proof (rxum_ring_sizes e) as (W1 & W2 & _). apply (wp_ring_loop e _ _ _ _ ((rx_next_highest (st e) - 1) mod mod_ e)); [done|apply Z.mod_pos_bound; lia| | |done].
  - intros e' S. destruct (um_same_mod e e') as [Em Ew]; [apply (sw_cfg _ _ (proj1 S))|]. rewrite <- Em.
    rewrite (um_in_window_spec e' (rx_next_highest (st e))); [|rewrite Em, (sw_st _ _ (proj1 S)); apply Z.mod_small, Hs|lia].
    rewrite (proj2 (Z.leb_le _ _)), (proj2 (Z.ltb_lt _ _)) by lia. done.
  - intros x e' Hx S. wp_step. apply wp_discard_any; [by apply (u32_ring e)|]. intros e2 es S2. by wp_step.
Qed.

(** ** The handlers *)

Lemma sane_intro e e' : cfg e' = cfg e -> rx_window e' = rx_window e -> 0 <= rx_next_reassembly (st e') < mod_ e ->
  0 <= rx_next_highest (st e') < mod_ e -> 0 <= rx_timer_trigger (st e') < mod_ e -> is_set (reassembly_timer e') = true -> sane e -> sane_from e e'.
Proof.
  intros S1 S2 HR HH HT Hset Hs. destruct (um_same_mod e e' S1) as [Em Ew]. split; [|done]. split; rewrite ?Em; try done.
  destruct (sa_ok _ Hs) as [O1 O2]. split; rewrite S2, ?Ew; done.
Qed.

Lemma sane_reassembly e x : sane e -> 0 <= x < mod_ e -> sane_from e (set_rx_next_reassembly x e).
Proof. intros Hs Hx. by apply sane_intro; try apply Hs. Qed.
Lemma sane_highest e x : sane e -> 0 <= x < mod_ e -> sane_from e (set_rx_next_highest x e).
Proof. intros Hs Hx. by apply sane_intro; try apply Hs. Qed.

Lemma sane_trans a b c : sane_from a b -> sane_from b c -> sane_from a c.
Proof. intros [_ E1] [H2 E2]. split; [done|congruence]. Qed.

(** A computation that keeps the entity sane. *)
Definition harmless {A} (m : H A) : Prop := forall e, sane e -> wp m (fun _ e' _ => sane_from e e') e.

Lemma harmless_bind {A B} (m : H A) (k : A -> H B) : harmless m -> (forall a, harmless (k a)) -> harmless (bind m k).
Proof.
  intros Hm Hk e Hs. wp_step. eapply wp_mono; [by apply Hm|]. cbv beta. intros a e1 _ S1. eapply wp_mono; [apply Hk, S1|]. cbv beta.
  intros b e2 _ S2. by eapply sane_trans.
Qed.

Lemma sane_refl e : sane e -> sane_from e e.
Proof. done. Qed.

Lemma harmless_deliver sdu : harmless (deliver sdu).
Proof. intros e Hs. unfold deliver. destruct sdu; by wp_steps. Qed.

Lemma harmless_window_set sn info : harmless (window_set sn info).
Proof.
  intros e Hs. unfold window_set. wp_step. apply (sane_kept e); [|done]. split; [done|]. intros [O1 O2].
  split; simpl; [by apply CircularMap.wf_set_at|by rewrite CircularMap.capacity_set_at].
Qed.

Lemma mod_sane e x : 0 <= x mod mod_ e < mod_ e.
Proof. pose proof (rxum_ring_sizes e). apply Z.mod_pos_bound. lia. Qed.

Lemma sane_mod e e' : sane_from e e' -> mod_ e' = mod_ e.
Proof. intros [_ E]. by apply um_same_mod. Qed.

(** Releasing from [sn] on and moving RX_Next_Reassembly there. *)
Lemma wp_release_to e sn : sane e -> 0 <= sn < mod_ e ->
  wp (let! x := release_from sn in modify (set_rx_next_reassembly x)) (fun _ e' _ => sane_from e e') e.
Proof.
  intros Hs Hsn. wp_step. apply wp_release_from_any; [done..|]. intros x e1 es Hx S. wp_step. pose proof (sane_kept _ _ S Hs) as S1.
  eapply sane_trans; [exact S1|]. apply sane_reassembly; [apply S1|]. by rewrite (sane_mod e).
Qed.

Lemma wp_deliver_complete_any alloc sn e : u32 sn = sn -> complete e sn = true -> sane e -> wp (deliver_complete alloc sn) (fun _ e' _ => sane_from e e') e.
Proof.
  intros Hsn Hc Hs. unfold deliver_complete, complete in *. destruct (win e sn) as [info|] eqn:E; [|done]. wp_step. eapply wp_um_window_at; [done..|].
  refine (harmless_bind _ _ (harmless_deliver _) (fun _ => harmless_bind _ _ (harmless_window_set _ _) (fun _ => _)) e Hs).
  intros e1 Hs1. do 2 wp_step. wp_step; [|done]. apply wp_release_to; [done|apply mod_sane].
Qed.

Lemma wp_advance_window_any sn : harmless (advance_window sn).
Proof.
  intros e Hs. unfold advance_window. do 5 wp_step. pose proof (sane_highest e _ Hs (mod_sane e (sn + 1))) as S1.
  set (e1 := set_rx_next_highest _ e) in *. apply wp_outside_any; [apply S1|apply mod_sane|]. intros x e2 es Hx S2.
  pose proof (sane_trans _ _ _ S1 (sane_kept _ _ S2 (proj1 S1))) as S3. eapply wp_mono; [apply wp_release_to; [apply S3|]|].
  - by rewrite (sane_mod e e2), <- (sane_mod e e1).
  - cbv beta. intros _ e3 _ S4. by eapply sane_trans.
Qed.

Lemma harmless_set_timer b tm : is_set tm = true -> harmless (when b (modify (set_reassembly_timer tm))).
Proof. intros Htm e Hs. wp_step; [|done]. wp_step. by apply sane_intro; try apply Hs. Qed.

Lemma harmless_run_timer b : harmless (when b run_reassembly_timer).
Proof.
  intros e Hs. wp_step; [|done]. unfold run_reassembly_timer. do 3 wp_step. unfold timer_run. rewrite (sa_set _ Hs). cbn [negb]. do 4 wp_step.
  by apply sane_intro; try apply Hs.
Qed.

Lemma harmless_flag (b : bool) f e sn (Q : bool -> rlc_rx_um_entity -> list rx_event -> Prop) : u32 sn = sn -> (forall v, Q v e []) ->
  wp (if b then window_flag f sn else ret false) Q e.
Proof. intros Hsn HQ. wp_step; [by apply wp_window_flag|by wp_step]. Qed.

Lemma harmless_stop_timer : harmless stop_reassembly_timer.
Proof.
  intros e Hs. unfold stop_reassembly_timer. do 2 wp_step. wp_step; [|done]. wp_step. apply harmless_flag; [by apply (u32_ring e), Hs|].
  intros v. apply harmless_set_timer; [rewrite is_set_stop; apply Hs|done].
Qed.

Lemma harmless_restart_timer : harmless restart_reassembly_timer.
Proof.
  intros e Hs. unfold restart_reassembly_timer, restart_needed. do 4 wp_step. apply harmless_flag; [by apply (u32_ring e), Hs|].
  intros v. wp_step. by apply harmless_run_timer.
Qed.

Lemma harmless_start_timer : harmless start_reassembly_timer.
Proof. intros e Hs. unfold start_reassembly_timer. do 2 wp_step. wp_step; [|done]. by apply harmless_restart_timer. Qed.

Lemma wp_store_any e header payload : sane e -> u32 (um_sn header) = um_sn header -> wp (handle_segment_data_sdu header payload) (fun _ e' _ => sane_from e e') e.
Proof.
  intros Hs Hsn. unfold handle_segment_data_sdu. wp_step; [by wp_step|]. wp_step.
  assert (forall e1 info, sane_from e e1 -> wp (let '(stored_segments, stored) := store_segment (segments info) (mk_segment (um_si header) (um_so header) payload) in
    window_set (um_sn header) (update_segment_inventory (mk_info (fully_received info) (has_gap info) stored_segments)) ;;; ret stored)
    (fun _ e' _ => sane_from e e') e1) as Hset.
  { intros e1 info S1. destruct (store_segment _ _) as [l b]. wp_step. eapply wp_mono; [apply harmless_window_set, S1|]. cbv beta. intros _ e2 _ S2. wp_step.
    by eapply sane_trans. }
  unfold get_or_add_sn. do 3 wp_step. unfold has_sn, SduWindow.has_sn, SduWindow.add_sn, SduWindow.has_sn. rewrite !Hsn, !CircularMap.contains_lookup. fold (win e (um_sn header)).
  destruct (win e (um_sn header)) as [info|] eqn:E.
  - wp_step. eapply wp_um_window_at; [done..|]. by apply Hset.
  - do 3 wp_step. set (e1 := set_rx_window _ e). destruct (win e1 (um_sn header)) as [info|] eqn:E1.
    + eapply wp_um_window_at; [done..|]. apply Hset. apply (sane_kept e); [|done]. split; [done|]. intros [O1 O2].
      split; simpl; [by apply CircularMap.wf_overwrite|by rewrite CircularMap.capacity_overwrite].
    + exfalso. unfold win, e1 in E1. simpl in E1. rewrite CircularMap.lookup_overwrite, Z.eqb_refl in E1; [done|apply Hs].
Qed.

Lemma wp_handle_segment_any alloc header payload e : sane e -> u32 (um_sn header) = um_sn header ->
  wp (handle_segment alloc header payload) (fun _ e' _ => sane_from e e') e.
Proof.
  intros Hs Hsn. unfold handle_segment. wp_step. eapply wp_mono; [by apply wp_store_any|]. cbv beta. intros _ e1 _ S1.
  assert (harmless (stop_reassembly_timer ;;; start_reassembly_timer)) as Htimers.
  { apply harmless_bind; [apply harmless_stop_timer|intros _; apply harmless_start_timer]. }
  assert (forall e2 (Q : unit -> rlc_rx_um_entity -> list rx_event -> Prop), sane_from e1 e2 -> (forall a e3 es, sane_from e e3 -> Q a e3 es) ->
    wp (stop_reassembly_timer ;;; start_reassembly_timer) Q e2) as Hend.
  { intros e2 Q S2 HQ. eapply wp_mono; [apply Htimers, S2|]. cbv beta. intros a e3 es S3. apply HQ. eapply sane_trans; [exact S1|]. by eapply sane_trans. }
  wp_step. apply wp_window_flag; [done|]. fold (complete e1 (um_sn header)). do 2 wp_step. wp_step. wp_step.
  - eapply wp_mono; [by apply wp_deliver_complete_any; [| |apply S1]|]. cbv beta. intros _ e2 _ S2. by apply Hend.
  - wp_step; [|apply Hend; [apply sane_refl, S1|done]]. eapply wp_mono; [apply wp_advance_window_any, S1|]. cbv beta. intros _ e2 _ S2. by apply Hend.
Qed.

Lemma wp_handle_pdu_any alloc buf e : sane e -> Forall is_byte buf -> wp (handle_pdu alloc buf) (fun _ e' _ => sane_from e e') e.
Proof.
  intros Hs Hb. unfold handle_pdu. do 6 wp_step. destruct (um_read_any (rxum_sn_field_length (cfg e)) buf Hb) as (o & E & Hty). rewrite E.
  destruct o as [h|]; [|by wp_step]. wp_step; [by wp_step|]. wp_step.
  - eapply wp_mono; [by apply harmless_deliver|done].
  - wp_step; [by wp_step|]. eapply wp_mono; [apply wp_handle_segment_any; [done|]|done].
    apply (u32_ring e). exact (ur_sn _ _ _ Hty).
Qed.

Lemma harmless_on_expired : harmless on_expired_reassembly_timer.
Proof.
  intros e Hs. unfold on_expired_reassembly_timer. do 3 wp_step. apply (wp_ring_loop e _ _ _ _ (rx_next_highest (st e))); [apply Hs|apply Hs| | |].
  - intros e'. apply below_highest_stops.
  - intros x e' Hx S. unfold expire_step. do 2 wp_step. wp_step.
    + wp_step. apply wp_discard_any; [by apply (u32_ring e)|]. intros. by wp_step.
    + apply wp_release_any; [by apply (u32_ring e)|done].
  - intros x e1 es Hx S. do 2 wp_step. pose proof (sane_kept _ _ S Hs) as S1.
    assert (sane_from e (set_rx_next_reassembly x e1)) as S2.
    { eapply sane_trans; [exact S1|]. apply sane_reassembly; [apply S1|]. by rewrite (sane_mod e). }
    eapply wp_mono; [apply harmless_restart_timer, S2|]. cbv beta. intros _ e2 _ S3. by eapply sane_trans.
Qed.

Lemma wp_timeout_any epoch e : sane e -> (tm_cmd_id (reassembly_timer e) = epoch -> is_running (reassembly_timer e) = true) ->
  wp (reassembly_timeout epoch) (fun _ e' _ => sane_from e e') e.
Proof.
  intros Hs Hrun. unfold reassembly_timeout. do 3 wp_step. assert (forall tm, is_set tm = true -> sane_from e (set_reassembly_timer tm e)) as Htm.
  { intros tm Htm. by apply sane_intro; try apply Hs. }
  apply wp_timeout_task; [done| |]; intros E; do 2 wp_step; cbn [fst snd when].
  - set (tm := mk_timer timer_expired _ _). assert (sane_from e (set_reassembly_timer tm e)) as S1 by apply Htm, Hs.
    eapply wp_mono; [apply harmless_on_expired, S1|]. cbv beta. intros _ e2 _ S2. exact (sane_trans _ _ _ S1 S2).
  - wp_step. by apply Htm, Hs.
Qed.

Lemma sane_create config e : create config = Some e -> 0 < rxum_t_reassembly config -> sane e.
Proof.
  unfold create, RlcRxAm.configured_timer. intros E Ht. rewrite (proj2 (Z.ltb_lt _ _) Ht) in E. unfold timer_set in E.
  destruct (MAX_TIMER_DURATION <? rxum_t_reassembly config); [done|]. injection E as <-.
  set (e := mk_entity _ _ _ _). pose proof (rxum_ring_sizes e) as (W1 & W2 & _). assert (0 <= 0 < mod_ e) by lia.
  assert (window_ok e) as O by (split; [apply CircularMap.wf_empty|done]). by split.
Qed.
