(* ===== verification/RlcRxUmProps.v ===== *)
(** * RLC UM receiving entity: reassembly of numbered SDUs

    What the receiver of [RlcRxUmInv] delivers when the segments it gets are those of numbered SDUs [D 0], ..., [D (N - 1)], in
    any order: exactly the SDUs all of whose bytes arrived.  [N] is at most the window size, so nothing is given up. *)

From S2P Require Import Prelude Effects RlcConfig RlcAmPdu Segments RlcRxAm RlcRxUm RlcRxUmInv.
Import RlcRxUm UmReceiver.
Open Scope Z_scope.

(** A list of slices that covers every offset at most once. *)
Definition covers_b (i : Z) (s : rlc_rx_am_sdu_segment) : bool := (sg_so s <=? i) && (i <? seg_end s).
Definition covers_once (l : list rlc_rx_am_sdu_segment) : Prop := forall i, (length (List.filter (covers_b i) l) <= 1)%nat.

Lemma covers_b_spec i s : covers_b i s = true <-> seg_covers s i.
Proof. unfold covers_b, seg_covers. rewrite andb_true_iff, Z.leb_le, Z.ltb_lt. done. Qed.

Lemma contiguous_covers_once lo l : contiguous lo l -> Forall seg_fits l -> covers_once l.
Proof.
  intros Hc Hf i. revert lo Hc. induction l as [|s l IH]; intros lo Hc; [simpl; lia|]. destruct Hc as [E Hc]. apply Forall_cons in Hf as [Hs Hl]. simpl.
  destruct (covers_b i s) eqn:Ec; [|by eapply IH]. apply covers_b_spec in Ec.
  assert (List.filter (covers_b i) l = []) as ->; [|simpl; lia]. assert (i < seg_end s) as Hi by apply Ec. clear IH E Ec. revert Hi Hc. generalize (seg_end s) as hi.
  induction Hl as [|g l Hg Hl IH]; intros hi Hi Hc; [done|]. destruct Hc as [E Hc]. simpl. unfold covers_b at 1. rewrite (proj2 (Z.leb_gt _ _)) by lia. cbn [andb].
  apply (IH (seg_end g)); [|done]. destruct Hg. unfold seg_end in *. unfold seg_len in *. lia.
Qed.

Lemma length_filter_perm {A} (f : A -> bool) l l' : l ≡ₚ l' -> length (List.filter f l) = length (List.filter f l').
Proof. induction 1 as [|x l l' _ IH|x y l|l1 l2 l3 _ IH1 _ IH2]; simpl; [done| | |congruence]; repeat destruct (f _); simpl; congruence. Qed.

Lemma covers_once_perm l l' : l ≡ₚ l' -> covers_once l -> covers_once l'.
Proof. intros Hp H i. specialize (H i). by rewrite <- (length_filter_perm _ _ _ Hp). Qed.

Lemma covers_once_fresh l1 g l2 : seg_fits g -> covers_once (l1 ++ g :: l2) -> ~ covered l1 (sg_so g).
Proof.
  intros Hg H Hc. specialize (H (sg_so g)). rewrite List.filter_app, length_app in H. simpl in H.
  rewrite (proj2 (covers_b_spec (sg_so g) g)) in H by by apply seg_covers_start. simpl in H.
  apply Exists_exists in Hc as (s & Hs & Hcov). apply covers_b_spec in Hcov.
  assert (s ∈ List.filter (covers_b (sg_so g)) l1) as Hin by (apply list_elem_of_In, filter_In; split; [by apply list_elem_of_In|done]).
  destruct (List.filter (covers_b (sg_so g)) l1); [by apply elem_of_nil in Hin|]. simpl in H. lia.
Qed.

(** Storing a segment adds at most one entry. *)
Lemma length_set_insert x l : (length (set_insert x l) <= S (length l))%nat.
Proof. induction l as [|y l IH]; simpl; [lia|]. destruct (_ <? _); [simpl; lia|]. destruct (_ <? _); simpl; lia. Qed.

Lemma length_store_loop rest : forall before new, (length (fst (store_loop before rest new)) <= S (length before + length rest))%nat.
Proof.
  induction rest as [|cur rest IH]; intros before new; cbn [store_loop]; cbv zeta.
  - simpl. pose proof (length_set_insert new before). lia.
  - assert (forall n, (length (fst (store_loop (before ++ [cur]) rest n)) <= S (length before + S (length rest)))%nat) as IH1.
    { intros n. specialize (IH (before ++ [cur]) n). rewrite length_app in IH. simpl in IH. lia. }
    change (length (cur :: rest)) with (S (length rest)). repeat case_match; cbn [fst]; try apply IH1.
    + rewrite length_app. simpl. lia.
    + pose proof (length_set_insert new (before ++ cur :: rest)). rewrite length_app in *. simpl in *. lia.
    + etrans; [apply length_set_insert|]. apply le_n_S. etrans; [apply length_set_insert|]. rewrite length_app. lia.
    + etrans; [apply IH|]. lia.
Qed.

Lemma length_store_segment l s : (length (fst (store_segment l s)) <= S (length l))%nat.
Proof. apply (length_store_loop l []). Qed.

(** The chain takes as many slices as it has room for. *)
Lemma chain_append_all_room max l : forall acc n, n + zlen l <= max -> exists m, RlcRxAm.chain_append_all max (acc, n) l = Some (acc ++ concat (map sg_payload l), m).
Proof.
  induction l as [|s l IH]; intros acc n Hn; cbn [RlcRxAm.chain_append_all].
  - exists n. simpl. by rewrite app_nil_r.
  - rewrite zlen_cons in Hn. pose proof (zlen_nonneg l). unfold RlcRxAm.chain_append at 1. destruct (sg_payload s) as [|b bs] eqn:E; cbn [fst snd mbind option_bind].
    + simpl. rewrite E. apply IH. lia.
    + rewrite (proj2 (Z.eqb_neq _ _)) by lia. cbn [mbind option_bind]. destruct (IH (acc ++ b :: bs) (n + 1)) as [m Em]; [lia|]. exists m. rewrite Em. simpl.
      by rewrite E, <- app_assoc.
Qed.

(** ** What has arrived *)

Section numbered.
Context (D : Z -> list Z) (N W : Z) (HN : N <= W) (HD : forall k, 0 <= k < N -> 0 < zlen (D k) <= 65535).
Context (max : Z).

(** The segments of SDU [k] among the arrivals. *)
Definition segs_of (k : Z) (l : list (Z * rlc_rx_am_sdu_segment)) : list rlc_rx_am_sdu_segment :=
  omap (fun a => if a.1 =? k then Some a.2 else None) l.

Lemma segs_of_app k l l' : segs_of k (l ++ l') = segs_of k l ++ segs_of k l'.
Proof. apply omap_app. Qed.

Lemma segs_of_snoc k l j g : segs_of k (l ++ [(j, g)]) = segs_of k l ++ (if j =? k then [g] else []).
Proof. rewrite segs_of_app. simpl. by destruct (j =? k). Qed.

Lemma segs_of_snoc_same l k g : segs_of k (l ++ [(k, g)]) = segs_of k l ++ [g].
Proof. by rewrite segs_of_snoc, Z.eqb_refl. Qed.

Definition numbers : list Z := seqZ 0 N.

(** The entry of an SDU tells which of its bytes arrived. *)
Definition entry_ok (k : Z) (segs : list rlc_rx_am_sdu_segment) (o : option rlc_rx_um_sdu_info) : Prop :=
  match o with
  | None => segs = []
  | Some info =>
      if fully_received info then segments info = [] /\ forall i, 0 <= i < zlen (D k) -> covered segs i
      else chain 0 (segments info) /\ Forall (slice_of (D k)) (segments info) /\ (forall i, covered (segments info) i <-> covered segs i) /\
        (length (segments info) <= length segs)%nat /\ snd (inventory_loop 0 (segments info)) = false
  end.

Record tracks (l : list (Z * rlc_rx_am_sdu_segment)) (r : receiver) (out : list (list Z)) : Prop := {
  tk_range : 0 <= next_reassembly r <= next_highest r /\ next_highest r <= N;
  tk_below : forall k, 0 <= k < next_reassembly r -> complete_at (store r) k = true;
  tk_entry : forall k, 0 <= k < N -> entry_ok k (segs_of k l) (store r !! k);
  tk_out : out ≡ₚ map D (List.filter (complete_at (store r)) numbers)
}.

Lemma tracks_initial : 0 <= N -> tracks [] initial [].
Proof.
  intros H0. split; simpl; try done; [lia|].
  assert (List.filter (complete_at ∅) numbers = []) as ->; [|done]. induction numbers as [|x l IH]; done.
Qed.

Lemma complete_entry l r out k : tracks l r out -> 0 <= k < N -> complete_at (store r) k = true -> forall i, 0 <= i < zlen (D k) -> covered (segs_of k l) i.
Proof.
  intros Ht Hk. pose proof (tk_entry _ _ _ Ht k Hk) as He. unfold complete_at, flag_at. destruct (store r !! k) as [info|]; [|done]. simpl in He.
  intros Hf. rewrite Hf in He. apply He.
Qed.

(** All bytes of an SDU arrived: it is complete. *)
Lemma covered_complete l r out k : tracks l r out -> 0 <= k < N -> (forall i, 0 <= i < zlen (D k) -> covered (segs_of k l) i) -> complete_at (store r) k = true.
Proof.
  intros Ht Hk Hc. pose proof (tk_entry _ _ _ Ht k Hk) as He. pose proof (HD k Hk) as HDk. unfold complete_at, flag_at. destruct (store r !! k) as [info|]; simpl in He.
  - destruct (fully_received info); [done|]. destruct He as (H1 & H2 & H3 & _ & H5).
    rewrite (inventory_complete (D k) ltac:(lia) 0 (segments info)) in H5; [done|lia|done|done|]. intros i Hi. by apply H3, Hc.
  - rewrite He in Hc. specialize (Hc 0 ltac:(lia)). by apply covered_nil in Hc.
Qed.

Lemma filter_flip (f g : Z -> bool) k l : NoDup l -> k ∈ l -> f k = false -> g k = true -> (forall x, x <> k -> g x = f x) ->
  List.filter g l ≡ₚ k :: List.filter f l.
Proof.
  intros Hnd Hk Hf Hg Hx. induction Hnd as [|x l Hn Hnd IH]; [by apply elem_of_nil in Hk|]. simpl. destruct (Z.eq_dec x k) as [->|Hne].
  - rewrite Hf, Hg. apply perm_skip. assert (List.filter g l = List.filter f l) as ->; [|done]. apply filter_ext_in. intros x Hin. apply Hx. intros ->.
    apply Hn. by apply list_elem_of_In.
  - apply elem_of_cons in Hk as [<-|Hk]; [done|]. rewrite (Hx x) by done. destruct (f x); [|by apply IH]. rewrite IH by done. apply perm_swap.
Qed.

(** The new entry after a segment that brings a new byte. *)
Lemma entry_add k segs o g : 0 <= k < N -> entry_ok k segs o -> slice_of (D k) g -> ~ covered segs (sg_so g) ->
  let info := info_add (default sdu_info_default o) g in
  flag_at fully_received o = false /\
  (fully_received info = false -> entry_ok k (segs ++ [g]) (Some info)) /\
  (fully_received info = true -> entry_ok k (segs ++ [g]) (Some (info_release info)) /\ concat (map sg_payload (segments info)) = D k /\
     (length (segments info) <= S (length segs))%nat).
Proof.
  intros Hk He Hg Hfresh info. pose proof (HD k Hk) as HDk. pose proof (slice_of_fits (D k) (proj2 HDk) g Hg) as Hfit.
  set (i0 := default sdu_info_default o) in *.
  assert (flag_at fully_received o = false /\ chain 0 (segments i0) /\ Forall (slice_of (D k)) (segments i0) /\ (forall i, covered (segments i0) i <-> covered segs i) /\
    (length (segments i0) <= length segs)%nat) as (Hnf & H1 & H2 & H3 & H4).
  { unfold i0, entry_ok in *. destruct o as [i|]; simpl in *; [|subst segs; by split_and!]. destruct (fully_received i) eqn:Ef.
    - exfalso. apply Hfresh. destruct He as [_ He]. apply He. destruct Hg. unfold seg_end in *. lia.
    - by destruct He as (? & ? & ? & ? & _). }
  split; [done|]. destruct (store_segment_spec (slice_of (D k)) (slice_of_advance (D k)) (segments i0) g H1 Hfit H2 Hg) as [S1 S2 S3 _ _].
  pose proof (length_store_segment (segments i0) g) as Hlen. set (l := fst (store_segment (segments i0) g)) in *.
  assert (forall i, covered l i <-> covered (segs ++ [g]) i) as Hcov.
  { intros i. rewrite S3, H3, covered_app, covered_cons. pose proof (covered_nil i). tauto. }
  assert (segments info = l /\ (has_gap info, fully_received info) = inventory_loop 0 l) as [El Einv].
  { subst info. unfold info_add, update_segment_inventory. cbn [segments]. fold l. rewrite segment_inventory_loop. by destruct (inventory_loop 0 l). }
  rewrite El. split; intros Ef; rewrite Ef in Einv.
  - unfold entry_ok. rewrite Ef, El, <- Einv. split_and!; try done. rewrite length_app. simpl. lia.
  - destruct (inventory_full (D k) 0 l (has_gap info)) as (_ & Hc & Hend); [lia|done|done|done|].
    split; [|split; [|lia]].
    + unfold entry_ok, info_release. cbn [fully_received segments]. rewrite Ef. split; [done|]. intros i Hi. apply Hcov.
      apply (contiguous_covered 0); [done|by eapply chain_fits|lia].
    + destruct (contiguous_bytes (D k) 0 l) as [-> _]; [lia|done|done|]. rewrite Hend, Z.sub_0_r. apply sub_all.
Qed.

Lemma complete_at_insert w k info x : complete_at (<[k := info]> w) x = if x =? k then fully_received info else complete_at w x.
Proof. unfold complete_at. destruct (Z.eqb_spec x k) as [->|]; [by rewrite lookup_insert_eq|by rewrite lookup_insert_ne]. Qed.

Lemma below_first_open w lo hi x : (forall j, 0 <= j < lo -> complete_at w j = true) -> lo <= hi ->
  let R := first_open (Z.to_nat (hi - lo)) w lo in lo <= R <= hi /\ (0 <= x < R -> complete_at w x = true).
Proof.
  intros Hlo Hle R. destruct (first_open_found (Z.to_nat (hi - lo)) w lo) as (H1 & H2 & _). fold R in H1, H2. split; [lia|].
  intros Hx. destruct (Z.lt_ge_cases x lo); [apply Hlo; lia|apply H2; lia].
Qed.

(** One more segment. *)
Lemma tracks_receive l r out k g : tracks l r out -> 0 <= k < N -> slice_of (D k) g -> ~ covered (segs_of k l) (sg_so g) ->
  Z.of_nat (S (length (segs_of k l))) <= max ->
  let '(r', sdus) := receive_segment W (Some max) k g r in tracks (l ++ [(k, g)]) r' (out ++ sdus) /\ next_reassembly r <= k.
Proof.
  intros Ht Hk Hg Hfresh Hmax. pose proof (tk_range _ _ _ Ht) as Hran. destruct (entry_add k _ _ g Hk (tk_entry _ _ _ Ht k Hk) Hg Hfresh) as (Hnf & Hopen & Hfull).
  fold (complete_at (store r) k) in Hnf. unfold receive_segment. set (info := info_add _ g) in *. rewrite <- (segs_of_snoc_same l k g) in Hopen, Hfull.
  assert (next_reassembly r <= k) as HR.
  { destruct (Z.lt_ge_cases k (next_reassembly r)) as [Hlt|]; [|done]. by rewrite (tk_below _ _ _ Ht) in Hnf by lia. }
  assert (forall info', entry_ok k (segs_of k (l ++ [(k, g)])) (Some info') -> forall j, 0 <= j < N -> entry_ok j (segs_of j (l ++ [(k, g)])) (<[k := info']> (store r) !! j)) as Hentry.
  { intros info' He j Hj. destruct (Z.eq_dec j k) as [->|Hne]; [by rewrite lookup_insert_eq|]. rewrite lookup_insert_ne by done.
    rewrite segs_of_snoc, (proj2 (Z.eqb_neq k j)), app_nil_r by done. by apply (tk_entry _ _ _ Ht). }
  assert (forall info', (forall x, 0 <= x < next_reassembly r -> complete_at (<[k := info']> (store r)) x = true)) as Hbelow.
  { intros info' x Hx. rewrite complete_at_insert. destruct (Z.eqb_spec x k); [lia|]. by apply (tk_below _ _ _ Ht). }
  destruct (fully_received info) eqn:Ef.
  - destruct (Hfull eq_refl) as (He & Hbytes & Hlen). clear Hopen Hfull. set (w := <[k := info_release info]> (store r)).
    assert (option_list (reassemble_sdu (Some max) info) = [D k]) as ->.
    { unfold reassemble_sdu. rewrite Ef. cbn [negb mbind option_bind]. destruct (chain_append_all_room max (segments info) [] 0) as [m Em]; [unfold zlen; lia|].
      rewrite Em. simpl. by rewrite Hbytes. }
    split; [|done]. pose proof (fun x => below_first_open w (next_reassembly r) (next_highest r) x (Hbelow _) ltac:(lia)) as Hfo. cbv zeta in Hfo. split; cbn [next_reassembly next_highest store].
    + destruct (Hfo 0) as [Hr _]. destruct (k =? _); lia.
    + intros x Hx. destruct (k =? _); [by apply Hfo|by apply Hbelow].
    + by apply Hentry.
    + rewrite (tk_out _ _ _ Ht), (filter_flip (complete_at (store r)) (complete_at w) k numbers); [by rewrite Permutation_app_comm| | |done| |].
      * apply NoDup_seqZ.
      * apply elem_of_seqZ. lia.
      * unfold w. by rewrite complete_at_insert, Z.eqb_refl.
      * intros x Hx. unfold w. by rewrite complete_at_insert, (proj2 (Z.eqb_neq x k)).
  - specialize (Hopen eq_refl). clear Hfull. set (w := <[k := info]> (store r)).
    assert (forall x, complete_at w x = complete_at (store r) x) as Hsame.
    { intros x. unfold w. rewrite complete_at_insert. destruct (Z.eqb_spec x k) as [->|]; [by rewrite Ef, Hnf|done]. }
    assert (out ++ [] ≡ₚ map D (List.filter (complete_at w) numbers)) as Hout.
    { rewrite app_nil_r, (tk_out _ _ _ Ht). by rewrite (filter_ext _ _ Hsame). }
    destruct (Z.ltb_spec k (next_highest r)).
    + split; [|done]. split; cbn [next_reassembly next_highest store]; [lia|by apply Hbelow|by apply Hentry|done].
    + replace (Z.max (next_reassembly r) (k + 1 - W)) with (next_reassembly r) by lia. split; [|done].
      pose proof (fun x => below_first_open w (next_reassembly r) (k + 1) x (Hbelow _) ltac:(lia)) as Hfo. cbv zeta in Hfo.
      split; cbn [next_reassembly next_highest store]; [destruct (Hfo 0); lia|intros x Hx; by apply Hfo|by apply Hentry|done].
Qed.
End numbered.
