(* ===== verification/BatchedQueue.v ===== *)
(** * The batched dispatch queue, instruction by instruction

    Models [include/srsran/adt/batched_dispatch_queue.h]: producers on any number of threads push values
    into a lock-free queue; the one that raises [job_count] from zero defers a task, and the task takes the
    values out in batches.  A step of the model is one access to shared memory; threads interleave
    freely.  The lock-free queue itself is a third-party container, taken as a FIFO of fixed capacity
    that is atomic; the executor runs one task of the queue at a time and may refuse one. *)

From S2P Require Import Prelude.
From stdpp Require Import gmap.
Open Scope Z_scope.

Module BatchedQueue.

Section queue.
Context {V : Type}.

Record config := mk_config { capacity : Z; batch_max_size : Z }.

(** Where a thread stands in [try_push], [dispatch_value_dequeue_task] and [drain_queue]; the value itself is in the queue. *)
Inductive pc :=
| at_fetch_add
| at_defer
| at_drain_load
| at_drain_pop (queue_size run_count : Z)
| at_drain_sub (run_count : Z).

(** Where the task stands in [handle_enqueued_values]. *)
Inductive worker_pc :=
| w_load
| w_pop (max_pops max_count run_count : Z) (batched_values : list V)
| w_sub (max_pops run_count : Z) (batched_values : list V)
| w_callback (queue_size max_pops run_count : Z) (batched_values : list V)
| w_run (p : pc).

Record sys := mk_sys {
  queue : list V;
  job_count : Z;
  stopped : bool;
  tasks : nat;
  producers : gmap nat pc;
  worker : option worker_pc
}.

(** [deferred ok]: the executor was asked to take the task, and its answer. *)
Inductive event :=
| pushed (v : V)
| deferred (accepted : bool)
| answered (t : nat) (ok : bool)
| called_back (values : list V)
| dropped (v : V).

Definition set_queue (q : list V) (s : sys) : sys := mk_sys q (job_count s) (stopped s) (tasks s) (producers s) (worker s).
Definition set_job_count (n : Z) (s : sys) : sys := mk_sys (queue s) n (stopped s) (tasks s) (producers s) (worker s).
Definition set_stopped (s : sys) : sys := mk_sys (queue s) (job_count s) true (tasks s) (producers s) (worker s).
Definition set_tasks (n : nat) (s : sys) : sys := mk_sys (queue s) (job_count s) (stopped s) n (producers s) (worker s).
Definition set_producers (m : gmap nat pc) (s : sys) : sys := mk_sys (queue s) (job_count s) (stopped s) (tasks s) m (worker s).
Definition set_worker (w : option worker_pc) (s : sys) : sys := mk_sys (queue s) (job_count s) (stopped s) (tasks s) (producers s) w.

Definition create : sys := mk_sys [] 0 false 0 ∅ None.

(** One step of a thread; it goes on or returns an answer.  [accepted]: the executor takes the task deferred. *)
Definition thread_step (accepted : bool) (p : pc) (s : sys) : (pc + bool) * sys * list event :=
  match p with
  | at_fetch_add => (if job_count s =? 0 then inl at_defer else inr true, set_job_count (u32 (job_count s + 1)) s, [])
  | at_defer => (if accepted then inr true else inl at_drain_load, if accepted then set_tasks (S (tasks s)) s else s, [deferred accepted])
  | at_drain_load => (if 0 <? job_count s then inl (at_drain_pop (job_count s) 0) else inr false, s, [])
  | at_drain_pop n k =>
      if k =? n then (inl (at_drain_sub k), s, []) else
      match queue s with
      | v :: q => (inl (at_drain_pop n (k + 1)), set_queue q s, [dropped v])
      | [] => (inl (at_drain_sub n), s, [])
      end
  | at_drain_sub k =>
      let n := u32 (job_count s - k) in
      (if 0 <? n then inl (at_drain_pop n 0) else inr false, set_job_count n s, [])
  end.

Definition enter_loop (queue_size max_pops : Z) : option worker_pc :=
  if 0 <? queue_size then Some (w_pop max_pops (Z.min queue_size max_pops) 0 []) else None.

(** One step of the task; [None]: it has ended. *)
Definition worker_step (c : config) (accepted : bool) (w : worker_pc) (s : sys) : option worker_pc * sys * list event :=
  match w with
  | w_load => (enter_loop (job_count s) (batch_max_size c), s, [])
  | w_pop mp mc k batch =>
      if k =? mc then (Some (w_sub mp k batch), s, []) else
      match queue s with
      | v :: q => (Some (w_pop mp mc (k + 1) (batch ++ [v])), set_queue q s, [])
      | [] => (Some (w_sub mp mc batch), s, [])
      end
  | w_sub mp k batch =>
      let n := u32 (job_count s - k) in
      (Some (w_callback n mp k batch), set_job_count n s, [])
  | w_callback n mp k batch =>
      let mp := u32 (mp - k) in
      (if (0 <? n) && (mp =? 0) then Some (w_run at_defer) else enter_loop n mp, s, [called_back batch])
  | w_run p =>
      let '(o, s, es) := thread_step accepted p s in
      (match o with inl p => Some (w_run p) | inr _ => None end, s, es)
  end.

Inductive action :=
| push (t : nat) (v : V)
| producer_runs (t : nat) (accepted : bool)
| task_starts
| worker_runs (accepted : bool)
| stop_called.

(** [None]: the action is not possible.  Nothing may be pushed after [stop], which runs where the tasks run. *)
Definition step (c : config) (a : action) (s : sys) : option (sys * list event) :=
  match a with
  | push t v =>
      if stopped s then None else
      match producers s !! t with
      | Some _ => None
      | None =>
          if zlen (queue s) <? capacity c then
            Some (set_producers (<[t := at_fetch_add]> (producers s)) (set_queue (queue s ++ [v]) s), [pushed v])
          else Some (s, [answered t false])
      end
  | producer_runs t accepted =>
      match producers s !! t with
      | None => None
      | Some p =>
          let '(o, s, es) := thread_step accepted p s in
          match o with
          | inl p => Some (set_producers (<[t := p]> (producers s)) s, es)
          | inr ok => Some (set_producers (delete t (producers s)) s, es ++ [answered t ok])
          end
      end
  | task_starts =>
      match tasks s, worker s with
      | S n, None => Some (set_worker (if stopped s then None else Some w_load) (set_tasks n s), [])
      | _, _ => None
      end
  | worker_runs accepted =>
      match worker s with
      | None => None
      | Some w => let '(o, s, es) := worker_step c accepted w s in Some (set_worker o s, es)
      end
  | stop_called =>
      match worker s with
      | Some _ => None
      | None => Some (if stopped s then s else set_worker (Some (w_run at_drain_load)) (set_stopped s), [])
      end
  end.

Fixpoint run (c : config) (l : list action) (s : sys) : option (sys * list event) :=
  match l with
  | [] => Some (s, [])
  | a :: l =>
      match step c a s with
      | None => None
      | Some (s, es) => match run c l s with Some (s, es') => Some (s, es ++ es') | None => None end
      end
  end.

End queue.

Arguments sys : clear implicits.
Arguments event : clear implicits.
Arguments action : clear implicits.
Arguments worker_pc : clear implicits.

End BatchedQueue.

(** * The batched dispatch queue: no value is lost, reordered or left behind

    Invariants of every interleaving of the threads of [BatchedQueue]: the count of jobs is exact, one
    thread at a time takes values out and always finds them, values are handed over in the order in
    which they were pushed, and what is pushed is handed over unless the executor refuses a task. *)

Import BatchedQueue.
Open Scope Z_scope.

(** ** Sums over the threads *)

Definition msum {K} (f : K -> Z) (m : gmap nat K) : Z := map_fold (fun _ p n => f p + n) 0 m.

Lemma msum_empty {K} (f : K -> Z) : msum f ∅ = 0.
Proof. apply map_fold_empty. Qed.

Lemma msum_insert {K} (f : K -> Z) m t p : m !! t = None -> msum f (<[t := p]> m) = f p + msum f m.
Proof. intros H. unfold msum. rewrite map_fold_insert_L; [done|intros; lia|done]. Qed.

Lemma msum_delete {K} (f : K -> Z) m t p : m !! t = Some p -> msum f m = f p + msum f (delete t m).
Proof. intros H. rewrite <- (insert_delete_id m t p H) at 1. by rewrite msum_insert by apply lookup_delete_eq. Qed.

Lemma msum_replace {K} (f : K -> Z) m t p : msum f (<[t := p]> m) = f p + msum f (delete t m).
Proof. by rewrite <- insert_delete_eq, msum_insert by apply lookup_delete_eq. Qed.

Lemma msum_nonneg {K} (f : K -> Z) m : (forall p, 0 <= f p) -> 0 <= msum f m.
Proof.
  intros Hf. induction m as [|t p m Hm IH] using map_ind; [by rewrite msum_empty|]. rewrite msum_insert by done. specialize (Hf p). lia.
Qed.

Lemma msum_le {K} (f g : K -> Z) m : (forall t p, m !! t = Some p -> f p <= g p) -> msum f m <= msum g m.
Proof.
  induction m as [|t p m Hm IH] using map_ind; intros Hf; [by rewrite !msum_empty|]. rewrite !msum_insert by done.
  pose proof (Hf t p ltac:(by rewrite lookup_insert_eq)). assert (msum f m <= msum g m); [|lia].
  apply IH. intros t' p' Hp. apply (Hf t'). rewrite lookup_insert_ne; [done|]. intros ->. congruence.
Qed.

Lemma msum_zero_lookup {K} (f : K -> Z) m t p : (forall q, 0 <= f q) -> msum f m = 0 -> m !! t = Some p -> f p = 0.
Proof. intros Hf Hz Hp. rewrite (msum_delete f m t p Hp) in Hz. pose proof (msum_nonneg f (delete t m) Hf). specialize (Hf p). lia. Qed.

Lemma msum_scale {K} (f : K -> Z) k m : msum (fun p => k * f p) m = k * msum f m.
Proof. induction m as [|t p m Hm IH] using map_ind; [rewrite !msum_empty; lia|]. rewrite !msum_insert by done. lia. Qed.

(** ** Who may take values out *)

Section queue.
Context {V : Type} (c : config).

(** The right to dequeue, what was taken out but not subtracted from the count yet, and what was pushed but not counted yet. *)
Definition held (p : pc) : Z := match p with at_fetch_add => 0 | _ => 1 end.
Definition popped (p : pc) : Z := match p with at_drain_pop _ k | at_drain_sub k => k | _ => 0 end.
Definition uncounted (p : pc) : Z := match p with at_fetch_add => 1 | _ => 0 end.
Definition w_held (w : worker_pc V) : Z := match w with w_callback n _ _ _ => if 0 <? n then 1 else 0 | w_run p => held p | _ => 1 end.
Definition w_popped (w : worker_pc V) : Z := match w with w_pop _ _ k _ | w_sub _ k _ => k | w_run p => popped p | _ => 0 end.
Definition batch (w : worker_pc V) : list V := match w with w_pop _ _ _ b | w_sub _ _ b | w_callback _ _ _ b => b | _ => [] end.

Definition of_worker {A} (d : A) (f : worker_pc V -> A) (s : sys V) : A := match worker s with Some w => f w | None => d end.

(** Local variables against the count [jc]. *)
Definition pc_ok (jc : Z) (p : pc) : Prop :=
  match p with
  | at_drain_pop n k => 0 <= k <= n /\ 0 < n <= capacity c /\ n <= jc
  | at_drain_sub k => 0 < k <= jc /\ k <= capacity c
  | _ => True
  end.
Definition worker_ok (jc : Z) (w : worker_pc V) : Prop :=
  match w with
  | w_load => True
  | w_pop mp mc k b => 0 <= k <= mc /\ 0 < mc <= mp /\ mp < 4294967296 /\ mc <= jc /\ mc <= capacity c
  | w_sub mp k b => 0 < k <= mp /\ mp < 4294967296 /\ k <= jc /\ k <= capacity c
  | w_callback n mp k b => 0 <= n <= jc /\ n <= capacity c /\ 0 < k <= mp /\ mp < 4294967296
  | w_run p => p <> at_fetch_add /\ pc_ok jc p
  end.

Record config_ok : Prop := { ck_capacity : 0 < capacity c < 2147483648; ck_batch : 0 < batch_max_size c < 4294967296 }.

Record counts (s : sys V) : Prop := {
  co_queue : zlen (queue s) <= capacity c;
  co_exact : job_count s = zlen (queue s) - msum uncounted (producers s) + msum popped (producers s) + of_worker 0 w_popped s;
  co_holder : Z.of_nat (tasks s) + msum held (producers s) + of_worker 0 w_held s = if 0 <? job_count s then 1 else 0;
  co_count : 0 <= job_count s;
  co_producers : forall t p, producers s !! t = Some p -> pc_ok (job_count s) p;
  co_worker : of_worker True (worker_ok (job_count s)) s
}.

(** After [stop]. *)
Record drained (s : sys V) : Prop := {
  dr_producers : producers s = ∅;
  dr_exact : job_count s = zlen (queue s) + of_worker 0 w_popped s;
  dr_queue : zlen (queue s) <= capacity c;
  dr_count : 0 <= job_count s;
  dr_worker : match worker s with
              | None => job_count s = 0
              | Some (w_run p) => p <> at_fetch_add /\ p <> at_defer /\ pc_ok (job_count s) p
              | Some _ => False
              end
}.

Definition inv (s : sys V) : Prop := if stopped s then drained s else counts s.

Lemma held_nonneg p : 0 <= held p. Proof. destruct p; simpl; lia. Qed.
Lemma uncounted_nonneg p : 0 <= uncounted p. Proof. destruct p; simpl; lia. Qed.
Lemma w_held_nonneg w : 0 <= w_held w. Proof. destruct w as [| | |n ? ? ?|p]; simpl; try lia; [destruct (0 <? n); lia|apply held_nonneg]. Qed.
Lemma popped_bound jc p : 0 < capacity c -> pc_ok jc p -> 0 <= popped p <= capacity c * held p.
Proof. destruct p; cbn [pc_ok popped held]; lia. Qed.
Lemma w_popped_bound jc w : 0 < capacity c -> worker_ok jc w -> 0 <= w_popped w <= capacity c * w_held w.
Proof. intros Hc. destruct w as [| | |n ? ? ?|p]; cbn [worker_ok w_popped w_held]; [lia|lia|lia|destruct (0 <? n); lia|intros [_ H]; by apply (popped_bound jc)]. Qed.

Lemma held_zero p : held p = 0 -> p = at_fetch_add.
Proof. by destruct p. Qed.

(** Threads without the right to dequeue do not mind the count. *)
Lemma others_ok (m : gmap nat pc) jc : msum held m = 0 -> forall t p, m !! t = Some p -> pc_ok jc p.
Proof. intros Hz t p Hp. by rewrite (held_zero p (msum_zero_lookup held m t p held_nonneg Hz Hp)). Qed.

Lemma pc_ok_mono jc jc' p : jc <= jc' -> pc_ok jc p -> pc_ok jc' p.
Proof. destruct p; simpl; lia. Qed.
Lemma worker_ok_mono jc jc' w : jc <= jc' -> worker_ok jc w -> worker_ok jc' w.
Proof. destruct w as [| | | |p]; simpl; try lia. intros Hle [H1 H2]. split; [done|]. by apply (pc_ok_mono jc). Qed.

(** At most [capacity] values are out of the queue and not subtracted yet. *)
Lemma popped_total (m : gmap nat pc) jc : 0 < capacity c -> (forall t p, m !! t = Some p -> pc_ok jc p) -> 0 <= msum popped m <= capacity c * msum held m.
Proof.
  intros Hc H. rewrite <- msum_scale. split.
  - rewrite <- (Z.mul_0_l (msum held m)), <- msum_scale. apply msum_le. intros t p Hp. pose proof (popped_bound _ p Hc (H t p Hp)). lia.
  - apply msum_le. intros t p Hp. by apply (popped_bound jc), (H t).
Qed.
Lemma popped_worker s : 0 < capacity c -> of_worker True (worker_ok (job_count s)) s ->
  0 <= of_worker 0 w_popped s <= capacity c * of_worker 0 w_held s /\ 0 <= of_worker 0 w_held s.
Proof. intros Hc H. unfold of_worker in *. destruct (worker s) as [w|]; [|lia]. split; [by apply (w_popped_bound (job_count s))|apply w_held_nonneg]. Qed.

(** The count never wraps around. *)
Lemma count_bound s : config_ok -> counts s -> 0 <= job_count s <= 2 * capacity c.
Proof.
  intros [Hc _] [H1 H2 H3 H4 H5 H6]. pose proof (popped_total _ _ (proj1 Hc) H5). pose proof (popped_worker s (proj1 Hc) H6).
  pose proof (msum_nonneg uncounted (producers s) uncounted_nonneg). pose proof (msum_nonneg held (producers s) held_nonneg).
  destruct (0 <? job_count s); nia.
Qed.

(** *** One step *)

Definition next_of {A} (d : A) (f : pc -> A) (o : pc + bool) : A := match o with inl p => f p | inr _ => d end.

Ltac zero_cases := repeat match goal with
  | H : context [0 <? ?x] |- _ => destruct (Z.ltb_spec 0 x)
  | |- context [0 <? ?x] => destruct (Z.ltb_spec 0 x)
  end.

(** A step of a thread, seen with the sums [ru], [rp], [rh] over all the others. *)
Lemma thread_step_sound acc p (s : sys V) o s' es ru rp rh : config_ok -> thread_step acc p s = (o, s', es) ->
  zlen (queue s) <= capacity c -> 0 <= job_count s <= 2 * capacity c -> 0 <= ru -> 0 <= rp <= capacity c * rh -> 0 <= rh ->
  job_count s = zlen (queue s) - (uncounted p + ru) + (popped p + rp) ->
  Z.of_nat (tasks s) + held p + rh = (if 0 <? job_count s then 1 else 0) -> pc_ok (job_count s) p ->
  (stopped s' = stopped s /\ producers s' = producers s /\ worker s' = worker s) /\
  zlen (queue s') <= capacity c /\ 0 <= job_count s' /\
  job_count s' = zlen (queue s') - (next_of 0 uncounted o + ru) + (next_of 0 popped o + rp) /\
  Z.of_nat (tasks s') + next_of 0 held o + rh = (if 0 <? job_count s' then 1 else 0) /\
  next_of True (pc_ok (job_count s')) o /\ (job_count s <= job_count s' \/ rh = 0).
Proof.
  intros [Hc _] Hs Hq Hj Hu Hp Hh Hx Ht Hok. pose proof (zlen_nonneg (queue s)). destruct p as [| | |n k|k]; cbn [thread_step uncounted popped held pc_ok] in *.
  - injection Hs as <- <- <-. cbn. rewrite u32_small by lia. destruct (Z.eqb_spec (job_count s) 0) as [E|E]; cbn; rewrite ?E in *; cbn in *;
      (split; [done|]); rewrite ?(proj2 (Z.ltb_lt 0 (job_count s))) in Ht by lia; rewrite (proj2 (Z.ltb_lt _ _)) by lia; lia.
  - destruct acc; injection Hs as <- <- <-; cbn; (split; [done|]); lia.
  - injection Hs as <- <- <-. destruct (Z.ltb_spec 0 (job_count s)); cbn; [|lia]. split; [done|].
    assert (rh = 0) by lia. assert (rp = 0) by nia. destruct (Z.ltb_spec 0 (job_count s)); lia.
  - assert (rh = 0) as Hr by (destruct (0 <? job_count s); lia). assert (rp = 0) by nia. destruct (Z.eqb_spec k n) as [->|].
    + injection Hs as <- <- <-. cbn. split; [done|]. lia.
    + destruct (queue s) as [|v q] eqn:Eq; [exfalso; change (zlen []) with 0 in *; lia|]. injection Hs as <- <- <-. cbn. rewrite zlen_cons in *. split; [done|]. lia.
  - assert (rh = 0) as Hr by (destruct (0 <? job_count s); lia). assert (rp = 0) by nia. rewrite u32_small in Hs by lia. injection Hs as <- <- <-.
    destruct (Z.ltb_spec 0 (job_count s - k)) as [Hl|]; cbn; (split; [done|]); zero_cases; lia.
Qed.

Definition next_worker {A} (d : A) (f : worker_pc V -> A) (o : option (worker_pc V)) : A := match o with Some w => f w | None => d end.

Lemma enter_loop_sound n mp jc : 0 <= n <= jc -> n <= capacity c -> 0 < mp < 4294967296 ->
  next_worker 0 w_popped (enter_loop n mp) = 0 /\ next_worker 0 w_held (enter_loop n mp) = (if 0 <? n then 1 else 0) /\
  next_worker True (worker_ok jc) (enter_loop n mp).
Proof. intros H1 H2 H3. unfold enter_loop. destruct (Z.ltb_spec 0 n); cbn; lia. Qed.

Lemma worker_step_sound acc w (s : sys V) o s' es ru rp rh : config_ok -> worker_step c acc w s = (o, s', es) ->
  zlen (queue s) <= capacity c -> 0 <= job_count s <= 2 * capacity c -> 0 <= ru -> 0 <= rp <= capacity c * rh -> 0 <= rh ->
  job_count s = zlen (queue s) - ru + (w_popped w + rp) ->
  Z.of_nat (tasks s) + w_held w + rh = (if 0 <? job_count s then 1 else 0) -> worker_ok (job_count s) w ->
  (stopped s' = stopped s /\ producers s' = producers s) /\
  zlen (queue s') <= capacity c /\ 0 <= job_count s' /\
  job_count s' = zlen (queue s') - ru + (next_worker 0 w_popped o + rp) /\
  Z.of_nat (tasks s') + next_worker 0 w_held o + rh = (if 0 <? job_count s' then 1 else 0) /\
  next_worker True (worker_ok (job_count s')) o /\ (job_count s <= job_count s' \/ rh = 0).
Proof.
  intros Hcfg Hs Hq Hj Hu Hp Hh Hx Ht Hok. pose proof Hcfg as [Hc Hb]. pose proof (zlen_nonneg (queue s)). destruct w as [|mp mc k b|mp k b|n mp k b|p]; cbn [worker_step w_popped w_held worker_ok] in *.
  - injection Hs as <- <- <-. assert (rh = 0 /\ rp = 0) as [-> ->] by (destruct (0 <? job_count s); nia).
    destruct (enter_loop_sound (job_count s) (batch_max_size c) (job_count s)) as (-> & -> & H3); [lia|lia|lia|]. split; [done|]. split; [lia|]. split; [lia|]. split; [lia|].
    split; [destruct (0 <? job_count s); lia|]. split; [done|lia].
  - assert (rh = 0 /\ rp = 0) as [-> ->] by (destruct (0 <? job_count s); nia). destruct (Z.eqb_spec k mc) as [->|].
    + injection Hs as <- <- <-. cbn. split; [done|]. lia.
    + destruct (queue s) as [|v q] eqn:Eq; [exfalso; change (zlen []) with 0 in *; lia|]. injection Hs as <- <- <-. cbn. rewrite zlen_cons in *. split; [done|]. lia.
  - assert (rh = 0 /\ rp = 0) as [-> ->] by (destruct (0 <? job_count s); nia). rewrite u32_small in Hs by lia. injection Hs as <- <- <-. cbn. split; [done|].
    rewrite (proj2 (Z.ltb_lt 0 (job_count s))) in Ht by lia. destruct (Z.ltb_spec 0 (job_count s - k)); lia.
  - rewrite u32_small in Hs by lia. injection Hs as <- <- <-. destruct (Z.ltb_spec 0 n) as [Hn|Hn]; cbn [andb].
    + destruct (Z.eqb_spec (mp - k) 0); [cbn; split_and!; (done || lia)|]. destruct (enter_loop_sound n (mp - k) (job_count s)) as (-> & -> & H3); [lia|lia|lia|].
      rewrite (proj2 (Z.ltb_lt _ _)) by lia. split; [done|]. repeat split; try done; lia.
    + unfold enter_loop. rewrite (proj2 (Z.ltb_ge _ _)) by lia. cbn. split; [done|]. lia.
  - destruct Hok as [Hne Hok]. destruct (thread_step acc p s) as [[o' s''] es'] eqn:E. injection Hs as <- <- <-.
    assert (uncounted p = 0) as Hun by (by destruct p). destruct (thread_step_sound acc p s o' s'' es' ru rp rh Hcfg E) as ((H1 & H2 & _) & H3 & H4 & H5 & H6 & H7 & H8); try done; [lia|].
    assert (next_of 0 uncounted o' = 0 /\ forall p', o' = inl p' -> p' <> at_fetch_add) as [Hun' Hne'].
    { destruct p; [done|destruct acc| | |]; cbn in E; repeat (case_match; simplify_eq/=); try done; split; try done; intros ? [= <-]; done. }
    split; [done|]. split; [done|]. split; [done|]. destruct o' as [p'|ok]; cbn in *; (split; [rewrite ?Hun, ?Hun' in *; lia|]); (split; [lia|]); (split; [|done]); [|done]. split; [by apply Hne'|done].
Qed.

Lemma worker_quiet jc jc' w : worker_ok jc w -> w_held w = 0 -> 0 <= jc' -> worker_ok jc' w.
Proof. destruct w as [| | |n ? ? ?|p]; cbn; try lia; [destruct (Z.ltb_spec 0 n); lia|]. intros [Hne _] Hh%held_zero. by destruct Hne. Qed.

(** The other threads after a step. *)
Lemma others_after (m : gmap nat pc) (rh jc jc' : Z) : 0 <= rh -> jc <= jc' \/ msum held m + rh = 0 ->
  (forall t p, m !! t = Some p -> pc_ok jc p) -> forall t p, m !! t = Some p -> pc_ok jc' p.
Proof.
  intros Hr [Hle|Hz] H t p Hp; [apply (pc_ok_mono jc); eauto|]. pose proof (msum_nonneg held m held_nonneg). by apply (others_ok m jc') with t; [lia|].
Qed.
Lemma worker_after s jc' (rh : Z) : 0 <= rh -> 0 <= jc' -> job_count s <= jc' \/ rh + of_worker 0 w_held s = 0 ->
  of_worker True (worker_ok (job_count s)) s -> of_worker True (worker_ok jc') s.
Proof.
  unfold of_worker. intros Hr Hj H Hw. destruct (worker s) as [w|]; [|done]. pose proof (w_held_nonneg w).
  destruct H as [Hle|Hz]; [by apply (worker_ok_mono (job_count s))|apply (worker_quiet (job_count s)); [done|lia|done]].
Qed.

Lemma lookup_insert_cases {K} (m : gmap nat K) t p t' p' : <[t := p]> m !! t' = Some p' -> p' = p \/ delete t m !! t' = Some p'.
Proof. intros H. destruct (decide (t' = t)) as [->|]; [rewrite lookup_insert_eq in H; left; congruence|right]. rewrite lookup_insert_ne in H by done. by rewrite lookup_delete_ne. Qed.

Lemma counts_producer t acc p s o s1 es : config_ok -> counts s -> producers s !! t = Some p -> thread_step acc p s = (o, s1, es) ->
  stopped s1 = stopped s /\
  counts (set_producers (match o with inl p' => <[t := p']> (producers s1) | inr _ => delete t (producers s1) end) s1).
Proof.
  intros Hcfg Hs Hp E. pose proof Hs as [H1 H2 H3 H4 H5 H6]. pose proof Hcfg as [Hc _]. pose proof (count_bound s Hcfg Hs) as Hb. set (m := delete t (producers s)).
  assert (forall t p, m !! t = Some p -> pc_ok (job_count s) p) as Hm by (intros t' p' [_ Hl]%lookup_delete_Some; by apply (H5 t')).
  pose proof (popped_total m _ (proj1 Hc) Hm). pose proof (popped_worker s (proj1 Hc) H6). pose proof (msum_nonneg held m held_nonneg). pose proof (msum_nonneg uncounted m uncounted_nonneg).
  rewrite (msum_delete uncounted _ t p Hp), (msum_delete popped _ t p Hp) in H2. rewrite (msum_delete held _ t p Hp) in H3. fold m in H2, H3.
  destruct (thread_step_sound acc p s o s1 es (msum uncounted m) (msum popped m + of_worker 0 w_popped s) (msum held m + of_worker 0 w_held s) Hcfg E) as ((G1 & G2 & G3) & G4 & G5 & G6 & G7 & G8 & G9);
    [done|done|done|nia|lia|lia|lia|by apply (H5 t)|]. split; [done|]. rewrite G2.
  assert (forall f : pc -> Z, msum f (match o with inl p' => <[t := p']> (producers s) | inr _ => m end) = next_of 0 f o + msum f m) as Hsum by (intros f; destruct o; cbn; [apply msum_replace|lia]).
  assert (of_worker True (worker_ok (job_count s1)) s) as Hw by (apply (worker_after s _ (msum held m)); [done|done|lia|done]).
  constructor; cbn; unfold of_worker in *; cbn; rewrite ?G3, ?Hsum; try done; try lia.
  intros t' p' Hl. assert (m !! t' = Some p' \/ o = inl p') as [Hl'| ->]; [|by eapply (others_after m); [|exact G9|exact Hm|exact Hl']; unfold of_worker; lia|done].
  destruct o as [q|]; [|by left]. apply lookup_insert_cases in Hl as [->|]; auto.
Qed.

Lemma counts_worker acc w s o s1 es : config_ok -> counts s -> worker s = Some w -> worker_step c acc w s = (o, s1, es) ->
  stopped s1 = stopped s /\ counts (set_worker o s1).
Proof.
  intros Hcfg Hs Hw E. pose proof Hs as [H1 H2 H3 H4 H5 H6]. pose proof Hcfg as [Hc _]. pose proof (count_bound s Hcfg Hs) as Hb.
  unfold of_worker in H2, H3, H6. rewrite Hw in H2, H3, H6. pose proof (popped_total _ _ (proj1 Hc) H5).
  pose proof (msum_nonneg held (producers s) held_nonneg). pose proof (msum_nonneg uncounted (producers s) uncounted_nonneg).
  destruct (worker_step_sound acc w s o s1 es (msum uncounted (producers s)) (msum popped (producers s)) (msum held (producers s)) Hcfg E) as ((G1 & G2) & G4 & G5 & G6 & G7 & G8 & G9);
    [done|done|done|nia|lia|lia|lia|done|]. split; [done|].
  constructor; cbn; unfold of_worker in *; cbn; rewrite ?G2; fold (next_worker 0 w_popped o) (next_worker 0 w_held o); try done; try lia.
  intros t p Hl. eapply (others_after _ 0); [done| |exact H5|exact Hl]. rewrite Z.add_0_r. exact G9.
Qed.

Lemma drained_worker acc w s o s1 es : config_ok -> drained s -> worker s = Some w -> worker_step c acc w s = (o, s1, es) -> stopped s1 = stopped s /\ drained (set_worker o s1).
Proof.
  intros [Hc _] [H1 H2 H3 H4 H5] Hw E. unfold of_worker in H2. rewrite Hw in H2, H5. pose proof (zlen_nonneg (queue s)).
  destruct w as [| | | |p]; [done..|]. destruct H5 as (Hf & Hd & Hok). cbn [w_popped] in H2. cbn [worker_step] in E.
  destruct p as [| | |n k|k]; [done|done|..]; cbn [thread_step popped pc_ok] in *.
  - injection E as <- <- <-. split; [done|]. destruct (Z.ltb_spec 0 (job_count s)); constructor; unfold of_worker; cbn; split_and?; try done; lia.
  - destruct (Z.eqb_spec k n) as [->|]; [injection E as <- <- <-; split; [done|]; constructor; unfold of_worker; cbn; split_and?; try done; lia|].
    destruct (queue s) as [|v q] eqn:Eq; [exfalso; change (zlen []) with 0 in *; lia|]. injection E as <- <- <-. rewrite zlen_cons in *.
    split; [done|]; constructor; unfold of_worker; cbn; split_and?; try done; lia.
  - rewrite u32_small in E by lia. injection E as <- <- <-. split; [done|]. destruct (Z.ltb_spec 0 (job_count s - k)); constructor; unfold of_worker; cbn; split_and?; try done; lia.
Qed.

(** [stop] is called when no producer is pushing. *)
Definition action_ok (a : action V) (s : sys V) : Prop := match a with stop_called => producers s = ∅ | _ => True end.

Lemma inv_create : config_ok -> inv create.
Proof. intros [Hc _]. constructor; unfold of_worker; cbn; rewrite ?msum_empty; try done; try lia. change (zlen []) with 0. lia. Qed.

Lemma queue_step_inv a s s' es : config_ok -> inv s -> action_ok a s -> step c a s = Some (s', es) -> inv s'.
Proof.
  intros Hcfg Hs Ha E. pose proof Hcfg as [Hc _]. unfold inv in *. destruct a as [t v|t acc| |acc|]; cbn [step] in E.
  - destruct (stopped s) eqn:Es; [done|]. destruct (producers s !! t) eqn:El; [done|]. destruct (Z.ltb_spec (zlen (queue s)) (capacity c)); simplify_eq; cbn; rewrite Es; [|done].
    destruct Hs as [H1 H2 H3 H4 H5 H6]. pose proof (zlen_nonneg (queue s)). constructor; unfold of_worker in *; cbn; rewrite ?msum_insert, ?zlen_app by done; change (zlen [v]) with 1; cbn; try done; try lia.
    intros t' p' [->|Hl]%lookup_insert_cases; [done|]. apply lookup_delete_Some in Hl as [_ Hl]. by apply (H5 t').
  - destruct (producers s !! t) as [p|] eqn:El; [|done]. destruct (thread_step acc p s) as [[o s1] es1] eqn:Et. destruct (stopped s) eqn:Es.
    { destruct Hs as [H1 _ _ _ _]. rewrite H1 in El. done. }
    destruct (counts_producer t acc p s o s1 es1 Hcfg Hs El Et) as [G1 G2]. by destruct o; simplify_eq; cbn; rewrite G1, Es.
  - destruct (tasks s) as [|n] eqn:Et; [done|]. destruct (worker s) eqn:Ew; [done|]. simplify_eq. cbn. destruct (stopped s) eqn:Es.
    + destruct Hs as [H1 H2 H3 H4 H5]. unfold of_worker in *. rewrite Ew in *. by constructor; unfold of_worker; cbn.
    + destruct Hs as [H1 H2 H3 H4 H5 H6]. unfold of_worker in *. rewrite Ew in *. constructor; unfold of_worker; cbn; try done; lia.
  - destruct (worker s) as [w|] eqn:Ew; [|done]. destruct (worker_step c acc w s) as [[o s1] es1] eqn:Et. simplify_eq. cbn. destruct (stopped s) eqn:Es.
    + destruct (drained_worker acc w s o s1 es Hcfg Hs Ew Et) as [-> G2]. by rewrite Es.
    + destruct (counts_worker acc w s o s1 es Hcfg Hs Ew Et) as [-> G2]. by rewrite Es.
  - destruct (worker s) eqn:Ew; [done|]. simplify_eq. destruct (stopped s) eqn:Es; [by rewrite Es|]. cbn in *. destruct Hs as [H1 H2 H3 H4 H5 H6]. unfold of_worker in *. rewrite Ew in *. rewrite Ha, !msum_empty in H2.
    constructor; unfold of_worker; cbn; try done; lia.
Qed.

(** ** Values are always found *)

Lemma thread_finds t n k s : config_ok -> counts s -> producers s !! t = Some (at_drain_pop n k) -> k < n -> 0 < zlen (queue s).
Proof.
  intros [Hc _] [H1 H2 H3 H4 H5 H6] Hp Hk. pose proof (H5 t _ Hp) as Hok. cbn in Hok. set (m := delete t (producers s)).
  rewrite (msum_delete uncounted _ t _ Hp), (msum_delete popped _ t _ Hp) in H2. rewrite (msum_delete held _ t _ Hp) in H3. fold m in H2, H3. cbn in H2, H3.
  assert (forall t p, m !! t = Some p -> pc_ok (job_count s) p) as Hm by (intros t' p' [_ Hl]%lookup_delete_Some; by apply (H5 t')).
  pose proof (popped_total m _ (proj1 Hc) Hm). pose proof (popped_worker s (proj1 Hc) H6). pose proof (msum_nonneg held m held_nonneg). pose proof (msum_nonneg uncounted m uncounted_nonneg).
  assert (msum held m = 0 /\ of_worker 0 w_held s = 0) as [E1 E2] by (destruct (0 <? job_count s); lia). rewrite E1, E2 in *. lia.
Qed.

Lemma task_finds w mp mc k s : config_ok -> inv s -> worker s = Some w -> (exists b, w = w_pop mp mc k b) \/ w = w_run (at_drain_pop mc k) -> k < mc -> 0 < zlen (queue s).
Proof.
  intros [Hc _] Hs Hw Hpc Hk. unfold inv in Hs. destruct (stopped s).
  - destruct Hs as [H1 H2 H3 H4 H5]. unfold of_worker in H2. rewrite Hw in *. destruct Hpc as [[b ->]| ->]; [done|]. cbn in *. lia.
  - destruct Hs as [H1 H2 H3 H4 H5 H6]. unfold of_worker in *. rewrite Hw in *. pose proof (popped_total _ _ (proj1 Hc) H5). pose proof (msum_nonneg held _ held_nonneg : 0 <= msum held (producers s)).
    pose proof (msum_nonneg uncounted _ uncounted_nonneg : 0 <= msum uncounted (producers s)).
    assert (w_held w = 1 /\ w_popped w = k /\ mc <= job_count s) as (E1 & E2 & E3) by (destruct Hpc as [[b ->]| ->]; cbn in *; lia). rewrite E1, E2 in *.
    assert (msum held (producers s) = 0) as E by (destruct (0 <? job_count s); lia). rewrite E in *. lia.
Qed.

(** ** Order *)

Definition pushes (es : list (event V)) : list V := omap (fun e => match e with pushed v => Some v | _ => None end) es.
Definition drops (es : list (event V)) : list V := omap (fun e => match e with dropped v => Some v | _ => None end) es.
Definition delivered (es : list (event V)) : list V := es ≫= (fun e => match e with called_back vs => vs | _ => [] end).

Lemma pushes_app a b : pushes (a ++ b) = pushes a ++ pushes b. Proof. apply omap_app. Qed.
Lemma drops_app a b : drops (a ++ b) = drops a ++ drops b. Proof. apply omap_app. Qed.
Lemma delivered_app a b : delivered (a ++ b) = delivered a ++ delivered b. Proof. apply bind_app. Qed.

(** What was taken out or waits is a part of what was pushed, in the same order; nothing else gets lost but what was dropped. *)
Definition in_order (s : sys V) (es : list (event V)) : Prop :=
  delivered es ++ of_worker [] batch s ++ queue s `sublist_of` pushes es /\ pushes es ≡ₚ delivered es ++ drops es ++ of_worker [] batch s ++ queue s.

Lemma thread_step_order acc p (s : sys V) o s' es : thread_step acc p s = (o, s', es) ->
  pushes es = [] /\ delivered es = [] /\ drops es ++ queue s' = queue s /\ producers s' = producers s /\ worker s' = worker s.
Proof. intros E. destruct p; cbn in E; repeat (case_match; simplify_eq/=); done. Qed.

Lemma worker_step_order acc w (s : sys V) o s' es : worker_step c acc w s = (o, s', es) ->
  pushes es = [] /\ delivered es ++ next_worker [] batch o ++ drops es ++ queue s' = batch w ++ queue s.
Proof.
  intros E. destruct w as [| | | |p]; cbn in E.
  - simplify_eq. unfold enter_loop. by case_match.
  - repeat (case_match; simplify_eq/=); (split; [done|]); [done|congruence|by rewrite <- app_assoc].
  - by simplify_eq.
  - simplify_eq. cbn. rewrite app_nil_r. unfold enter_loop. by repeat case_match.
  - destruct (thread_step acc p s) as [[o' s1] es1] eqn:Et. destruct (thread_step_order _ _ _ _ _ _ Et) as (H1 & H2 & H3 & _). simplify_eq. split; [done|]. rewrite H2. by destruct o'.
Qed.

Lemma in_order_step s es s' es' : in_order s es -> pushes es' = [] ->
  delivered es' ++ of_worker [] batch s' ++ drops es' ++ queue s' = of_worker [] batch s ++ queue s -> in_order s' (es ++ es').
Proof.
  intros [H1 H2] Hp E. unfold in_order. rewrite pushes_app, drops_app, delivered_app, Hp, app_nil_r. rewrite <- E in H1, H2. split.
  - etrans; [|exact H1]. rewrite <- app_assoc. do 2 (apply sublist_app; [done|]). apply sublist_app; [done|]. by apply sublist_inserts_l.
  - rewrite H2. solve_Permutation.
Qed.

Lemma step_order a s es s' es' : in_order s es -> step c a s = Some (s', es') -> in_order s' (es ++ es').
Proof.
  intros Hs E. destruct a as [t v|t acc| |acc|]; cbn [step] in E.
  - destruct (stopped s); [done|]. destruct (producers s !! t); [done|]. destruct (zlen (queue s) <? capacity c); injection E as <- <-.
    + destruct Hs as [H1 H2]. unfold in_order. rewrite pushes_app, drops_app, delivered_app. unfold of_worker in *. cbn. rewrite !app_nil_r. rewrite !app_assoc in *. split; [by apply sublist_app|]. by rewrite H2.
    + apply (in_order_step s); done.
  - destruct (producers s !! t) as [p|]; [|done]. destruct (thread_step acc p s) as [[o s1] es1] eqn:Et. destruct (thread_step_order _ _ _ _ _ _ Et) as (H1 & H2 & H3 & _ & H4).
    destruct o as [p'|ok]; injection E as <- <-; apply (in_order_step s); rewrite ?pushes_app, ?drops_app, ?delivered_app, ?H1, ?H2; try done; unfold of_worker; cbn; rewrite H4, ?app_nil_r, <- H3; done.
  - destruct (tasks s); [done|]. destruct (worker s) eqn:Ew; [done|]. injection E as <- <-. apply (in_order_step s); [done|done|]. unfold of_worker. cbn. rewrite Ew. by destruct (stopped s).
  - destruct (worker s) as [w|] eqn:Ew; [|done]. destruct (worker_step c acc w s) as [[o s1] es1] eqn:Et. destruct (worker_step_order _ _ _ _ _ _ Et) as (H1 & H2). injection E as <- <-.
    apply (in_order_step s); [done|done|]. unfold of_worker in *. cbn. rewrite Ew. exact H2.
  - destruct (worker s) eqn:Ew; [done|]. injection E as <- <-. apply (in_order_step s); [done|done|]. unfold of_worker. destruct (stopped s); cbn; rewrite ?Ew; done.
Qed.

(** ** Progress *)

Definition weight (p : pc) : Z :=
  match p with
  | at_fetch_add => 6
  | at_defer => 5
  | at_drain_load | at_drain_sub _ => 3
  | at_drain_pop _ k => if k =? 0 then 2 else 4
  end.
Definition w_weight (w : worker_pc V) : Z :=
  match w with
  | w_load => 3
  | w_pop _ _ k _ => if k =? 0 then 2 else 8
  | w_sub _ _ _ => 7
  | w_callback _ _ _ _ => 6
  | w_run p => weight p
  end.
(** A bound on the steps that are left when nobody pushes. *)
Definition measure (s : sys V) : Z := 7 * zlen (queue s) + 4 * Z.of_nat (tasks s) + msum weight (producers s) + of_worker 0 w_weight s.

Lemma weight_nonneg p : 0 <= weight p.
Proof. destruct p as [| | |n k|k]; cbn; try lia. destruct (k =? 0); lia. Qed.
Lemma w_weight_nonneg w : 0 <= w_weight w.
Proof. destruct w as [|mp mc k b| | |p]; cbn; try lia; [destruct (k =? 0); lia|apply weight_nonneg]. Qed.

Lemma measure_nonneg s : 0 <= measure s.
Proof.
  unfold measure, of_worker. pose proof (zlen_nonneg (queue s)). pose proof (msum_nonneg weight (producers s) weight_nonneg).
  destruct (worker s) as [w|]; [pose proof (w_weight_nonneg w)|]; lia.
Qed.

Lemma thread_step_weight jc acc p (s : sys V) o s' es : thread_step acc p s = (o, s', es) -> pc_ok jc p -> (forall n k, p = at_drain_pop n k -> k < n -> 0 < zlen (queue s)) ->
  7 * zlen (queue s') + 4 * Z.of_nat (tasks s') + next_of 0 weight o < 7 * zlen (queue s) + 4 * Z.of_nat (tasks s) + weight p.
Proof.
  intros E Hok Hf. destruct p as [| | |n k|k]; cbn [thread_step pc_ok weight] in *.
  - injection E as <- <- <-. destruct (job_count s =? 0); cbn; lia.
  - destruct acc; injection E as <- <- <-; cbn; lia.
  - injection E as <- <- <-. destruct (0 <? job_count s); cbn; lia.
  - destruct (Z.eqb_spec k n) as [->|]; [injection E as <- <- <-; cbn; rewrite (proj2 (Z.eqb_neq n 0)) by lia; lia|].
    specialize (Hf n k eq_refl ltac:(lia)). destruct (queue s) as [|v q]; [by change (zlen []) with 0 in Hf|]. injection E as <- <- <-. cbn. rewrite zlen_cons, (proj2 (Z.eqb_neq (k + 1) 0)) by lia.
    destruct (k =? 0); lia.
  - injection E as <- <- <-. destruct (0 <? _); cbn; lia.
Qed.

Lemma enter_loop_weight n mp : next_worker 0 w_weight (enter_loop n mp) <= 2.
Proof. unfold enter_loop. destruct (0 <? n); cbn; lia. Qed.

Lemma worker_step_weight acc w (s : sys V) o s' es : worker_step c acc w s = (o, s', es) -> worker_ok (job_count s) w ->
  (forall mp mc k, (exists b, w = w_pop mp mc k b) \/ w = w_run (at_drain_pop mc k) -> k < mc -> 0 < zlen (queue s)) ->
  7 * zlen (queue s') + 4 * Z.of_nat (tasks s') + next_worker 0 w_weight o < 7 * zlen (queue s) + 4 * Z.of_nat (tasks s) + w_weight w.
Proof.
  intros E Hok Hf. destruct w as [|mp mc k b|mp k b|n mp k b|p]; cbn [worker_step worker_ok w_weight] in *.
  - injection E as <- <- <-. pose proof (enter_loop_weight (job_count s) (batch_max_size c)). lia.
  - destruct (Z.eqb_spec k mc) as [->|]; [injection E as <- <- <-; cbn; rewrite (proj2 (Z.eqb_neq mc 0)) by lia; lia|].
    specialize (Hf mp mc k ltac:(eauto) ltac:(lia)). destruct (queue s) as [|v q]; [by change (zlen []) with 0 in Hf|]. injection E as <- <- <-. cbn. rewrite zlen_cons, (proj2 (Z.eqb_neq (k + 1) 0)) by lia.
    destruct (k =? 0); lia.
  - injection E as <- <- <-. cbn. lia.
  - injection E as <- <- <-. destruct ((0 <? n) && _); [cbn; lia|]. pose proof (enter_loop_weight n (u32 (mp - k))). lia.
  - destruct (thread_step acc p s) as [[o' s1] es1] eqn:Et. injection E as <- <- <-.
    pose proof (thread_step_weight (job_count s) acc p s o' s1 es1 Et (proj2 Hok) ltac:(intros n k ->; apply (Hf 0 n k); by right)) as H. by destruct o'.
Qed.

Definition internal (a : action V) : Prop := match a with push _ _ | stop_called => False | _ => True end.

Lemma thread_step_stopped acc p (s : sys V) o s' es : thread_step acc p s = (o, s', es) -> stopped s' = stopped s.
Proof. intros E. destruct p as [| | |n k|k]; [|destruct acc|..]; cbn in E; repeat case_match; simplify_eq/=; done. Qed.

Lemma worker_step_fixed acc w (s : sys V) o s' es : worker_step c acc w s = (o, s', es) -> stopped s' = stopped s /\ producers s' = producers s.
Proof.
  intros E. destruct w as [| | | |p]; cbn in E; [repeat case_match; simplify_eq/=; done..|].
  destruct (thread_step acc p s) as [[o' s1] es1] eqn:Et. injection E as _ <- _.
  by destruct (thread_step_order _ _ _ _ _ _ Et) as (_ & _ & _ & ? & _); split; [apply (thread_step_stopped _ _ _ _ _ _ Et)|].
Qed.

Lemma step_measure a s s' es : config_ok -> inv s -> internal a -> step c a s = Some (s', es) -> measure s' < measure s.
Proof.
  intros Hcfg Hs Ha E. destruct a as [t v|t acc| |acc|]; [done|..|done]; cbn [step] in E; unfold measure, of_worker.
  - destruct (producers s !! t) as [p|] eqn:Hp; [|done]. unfold inv in Hs. destruct (stopped s); [destruct Hs as [H1 _ _ _ _]; by rewrite H1 in Hp|].
    destruct (thread_step acc p s) as [[o s1] es1] eqn:Et. destruct (thread_step_order _ _ _ _ _ _ Et) as (_ & _ & _ & G1 & G2). pose proof (msum_delete weight _ t p Hp) as Hm.
    pose proof (thread_step_weight (job_count s) acc p s o s1 es1 Et (co_producers s Hs t p Hp) ltac:(intros n k -> Hk; by apply (thread_finds t n k))) as Hw.
    destruct o as [p'|ok]; injection E as <- <-; cbn in *; rewrite G1, G2, ?msum_replace; lia.
  - destruct (tasks s) as [|n]; [done|]. destruct (worker s); [done|]. injection E as <- <-. cbn. destruct (stopped s); cbn; lia.
  - destruct (worker s) as [w|] eqn:Ew; [|done]. destruct (worker_step c acc w s) as [[o s1] es1] eqn:Et. injection E as <- <-. cbn.
    assert (worker_ok (job_count s) w) as Hok.
    { unfold inv in Hs. destruct (stopped s); destruct Hs; unfold of_worker in *; rewrite Ew in *; [|done]. destruct w as [| | | |p]; try done. by destruct dr_worker0 as (? & _ & ?). }
    destruct (worker_step_fixed _ _ _ _ _ _ Et) as [_ Hp].
    pose proof (worker_step_weight acc w s o s1 es1 Et Hok ltac:(intros mp mc k Hpc Hk; by apply (task_finds w mp mc k s))) as Hw. rewrite Hp. unfold next_worker in Hw. lia.
Qed.

(** ** Values are dropped only after the executor refused a task *)

Definition is_refusal (e : event V) : bool := match e with deferred acc => negb acc | _ => false end.
Definition refused (es : list (event V)) : bool := existsb is_refusal es.

(** Not in [drain_queue]. *)
Definition pushing (p : pc) : Prop := match p with at_fetch_add | at_defer => True | _ => False end.
Definition w_pushing (w : worker_pc V) : Prop := match w with w_run p => pushing p | _ => True end.
Record undrained (s : sys V) : Prop := {
  un_producers : forall t p, producers s !! t = Some p -> pushing p;
  un_worker : of_worker True w_pushing s
}.
Definition kept (s : sys V) (es : list (event V)) : Prop := refused es = false -> stopped s = false -> undrained s /\ drops es = [].

Lemma not_refused (es : list (event V)) : deferred false ∉ es -> refused es = false.
Proof.
  intros Hno. destruct (refused es) eqn:E; [|done]. apply existsb_exists in E as ([|[]| | |] & Hin & He); try done. by apply list_elem_of_In in Hin.
Qed.
Lemma refused_app a b : refused (a ++ b) = refused a || refused b. Proof. apply existsb_app. Qed.

Lemma thread_step_kept acc p (s : sys V) o s' es : thread_step acc p s = (o, s', es) -> refused es = false -> pushing p ->
  next_of True pushing o /\ drops es = [].
Proof. intros E Hr Hp. destruct p; [|destruct acc|done..]; cbn in E; simplify_eq/=; [by case_match|done]. Qed.

Lemma worker_step_kept acc w (s : sys V) o s' es : worker_step c acc w s = (o, s', es) -> refused es = false -> w_pushing w ->
  next_worker True w_pushing o /\ drops es = [].
Proof.
  intros E Hr Hw. destruct w as [| | | |p]; cbn in E; [unfold enter_loop in E; repeat case_match; simplify_eq/=; done..|].
  destruct (thread_step acc p s) as [[o' s1] es1] eqn:Et. injection E as <- <- <-. destruct (thread_step_kept _ _ _ _ _ _ Et Hr Hw). by destruct o'.
Qed.

Lemma step_kept a s es s' es' : kept s es -> step c a s = Some (s', es') -> kept s' (es ++ es').
Proof.
  intros Hs E. unfold kept. rewrite refused_app, orb_false_iff, drops_app. intros [Hr Hr'] Hst. specialize (Hs Hr).
  destruct a as [t v|t acc| |acc|]; cbn [step] in E.
  - destruct (stopped s) eqn:Es; [done|]. destruct (Hs eq_refl) as [[Hp Hw] ->]. destruct (producers s !! t); [done|]. case_match; simplify_eq; [|done].
    split; [|done]. constructor; [|done]. cbn. intros t' p' [->|[_ Hl]%lookup_delete_Some]%lookup_insert_cases; [done|by apply (Hp t')].
  - destruct (producers s !! t) as [p|] eqn:El; [|done]. destruct (thread_step acc p s) as [[o s1] es1] eqn:Et.
    pose proof (thread_step_stopped _ _ _ _ _ _ Et) as E1. destruct (thread_step_order _ _ _ _ _ _ Et) as (_ & _ & _ & E2 & E3).
    assert (refused es1 = false /\ stopped s1 = false) as [Hr1 Hs1].
    { destruct o; simplify_eq/=; [done|]. by rewrite refused_app, orb_false_iff in Hr'; destruct Hr'. }
    destruct (Hs ltac:(congruence)) as [[Hp Hw] ->]. destruct (thread_step_kept _ _ _ _ _ _ Et Hr1 (Hp t p El)) as [Ho Hd].
    destruct o as [p'|ok]; simplify_eq; rewrite ?drops_app, Hd; (split; [|done]); (constructor; [|unfold of_worker in *; cbn; by rewrite E3]); cbn; rewrite E2; intros t' p0.
    + intros [->|[_ Hl]%lookup_delete_Some]%lookup_insert_cases; [done|by apply (Hp t')].
    + intros [_ Hl]%lookup_delete_Some. by apply (Hp t').
  - destruct (tasks s) as [|n]; [done|]. destruct (worker s) eqn:Ew; [done|]. simplify_eq. cbn in Hst. destruct (Hs Hst) as [[Hp _] ->]. split; [|done].
    constructor; [done|]. unfold of_worker. cbn. by destruct (stopped s).
  - destruct (worker s) as [w|] eqn:Ew; [|done]. destruct (worker_step c acc w s) as [[o s1] es1] eqn:Et. simplify_eq. cbn in Hst.
    destruct (worker_step_fixed _ _ _ _ _ _ Et) as [E1 E2]. rewrite E1 in Hst. destruct (Hs Hst) as [[Hp Hw] ->]. unfold of_worker in Hw. rewrite Ew in Hw.
    destruct (worker_step_kept _ _ _ _ _ _ Et Hr' Hw) as [Ho ->]. split; [|done]. constructor; cbn; [by rewrite E2|]. by destruct o.
  - destruct (worker s); [done|]. simplify_eq. destruct (stopped s) eqn:Es; [congruence|done].
Qed.

(** ** Runs *)

(** What can be reached, with all that happened. *)
Inductive reach : sys V -> list (event V) -> Prop :=
| reach_create : reach create []
| reach_step s es a s' es' : reach s es -> action_ok a s -> step c a s = Some (s', es') -> reach s' (es ++ es').

Lemma reach_kept s es : reach s es -> kept s es.
Proof.
  induction 1 as [|s es a s' es' _ IH _ E]; [|by apply (step_kept a s)]. intros _ _. split; [|done]. constructor; [|done]. intros t p; cbn; by rewrite lookup_empty.
Qed.

Lemma queue_reach_inv s es : config_ok -> reach s es -> inv s /\ in_order s es.
Proof.
  intros Hcfg. induction 1 as [|s es a s' es' _ [IH1 IH2] Ha E]; [split; [by apply inv_create|done]|]. split; [by apply (queue_step_inv a s s' es')|by apply (step_order a s)].
Qed.

Lemma reach_run l s es s' es' : reach s es -> Forall (fun a => a <> stop_called) l -> run c l s = Some (s', es') -> reach s' (es ++ es').
Proof.
  intros Hr Hl. revert s es es' Hr. induction Hl as [|a l Ha _ IH]; intros s es es' Hr E; cbn in E; [simplify_eq; by rewrite app_nil_r|].
  destruct (step c a s) as [[s1 es1]|] eqn:E1; [|done]. destruct (run c l s1) as [[s2 es2]|] eqn:E2; [|done]. simplify_eq. rewrite app_assoc.
  apply (IH s1); [|done]. apply (reach_step s es a); [done|by destruct a|done].
Qed.

Lemma internal_goes_on l : Forall internal l -> Forall (fun a => a <> stop_called) l.
Proof. intros Hl. eapply Forall_impl; [exact Hl|]. by intros [] ?. Qed.

Definition quiescent (s : sys V) : Prop := producers s = ∅ /\ worker s = None /\ tasks s = 0%nat.

Lemma possible s : ~ quiescent s -> exists a s' es, internal a /\ step c a s = Some (s', es).
Proof.
  intros Hq. destruct (worker s) as [w|] eqn:Ew.
  { exists (worker_runs true). cbn. rewrite Ew. destruct (worker_step c true w s) as [[o s1] es1]. eauto. }
  destruct (tasks s) as [|n] eqn:Et; [|exists task_starts; cbn; rewrite Ew, Et; eauto].
  destruct (decide (producers s = ∅)) as [|Hne]; [by destruct Hq|]. apply map_choose in Hne as (t & p & Hp). exists (producer_runs t true). cbn. rewrite Hp.
  destruct (thread_step true p s) as [[[p'|ok] s1] es1]; eauto.
Qed.

Lemma sublist_full {A} (l k : list A) : l `sublist_of` k -> (length k <= length l)%nat -> l = k.
Proof. induction 1 as [|x l k _ IH|x l k Hs IH]; cbn; intros Hl; [done|f_equal; apply IH; lia|]. apply sublist_length in Hs. lia. Qed.

Lemma quiescent_done s es : config_ok -> reach s es -> quiescent s ->
  queue s = [] /\ job_count s = 0 /\ delivered es `sublist_of` pushes es /\ pushes es ≡ₚ delivered es ++ drops es /\ (drops es = [] -> delivered es = pushes es).
Proof.
  intros Hcfg Hr (Hp & Hw & Ht). destruct (queue_reach_inv s es Hcfg Hr) as [Hi [Ho1 Ho2]].
  assert (queue s = [] /\ job_count s = 0) as [Hq Hj].
  { unfold inv, of_worker in *. destruct (stopped s); destruct Hi; unfold of_worker in *; rewrite Hp, Hw, ?Ht, ?msum_empty in *.
    - split; [apply zlen_zero_nil; lia|lia].
    - destruct (Z.ltb_spec 0 (job_count s)); [lia|]. split; [apply zlen_zero_nil; lia|lia]. }
  unfold of_worker in *. rewrite Hq, Hw in *. cbn [app] in *. rewrite !app_nil_r in *. split; [done|]. split; [done|]. split; [done|]. split; [done|].
  intros Hd. apply sublist_full; [done|]. by rewrite Ho2, Hd, app_nil_r.
Qed.

End queue.

(** ** The properties *)

(** A state of the queue in use. *)
Definition takers {V} (s : sys V) : Z := msum held (producers s) + of_worker 0 w_held s + Z.of_nat (tasks s).

(** C23: Whatever the interleaving of a queue not stopped: it keeps to its capacity; the count of jobs is the number of values in the queue, less those pushed
    but not counted yet, plus those taken out but not subtracted yet, and never wraps around; at most one thread or
    task at a time has the right to take values out, and exactly one as long as values are counted; a producer, the task and the task
    clearing the queue, about to take a value out, find one; and what was handed over, is in a batch or waits is what was pushed, in
    the order pushed, less what was dropped. *)
Theorem batched_queue_exclusive {V} (c : config) (s : sys V) es : config_ok c -> reach c s es -> stopped s = false ->
  zlen (queue s) <= capacity c /\ 0 <= job_count s <= 2 * capacity c /\
  job_count s = zlen (queue s) - msum uncounted (producers s) + msum popped (producers s) + of_worker 0 w_popped s /\
  takers s = (if 0 <? job_count s then 1 else 0) /\
  (forall t n k, producers s !! t = Some (at_drain_pop n k) -> k < n -> queue s <> []) /\
  (forall mp mc k b, worker s = Some (w_pop mp mc k b) -> k < mc -> queue s <> []) /\
  (forall n k, worker s = Some (w_run (at_drain_pop n k)) -> k < n -> queue s <> []) /\
  delivered es ++ of_worker [] batch s ++ queue s `sublist_of` pushes es /\
  pushes es ≡ₚ delivered es ++ drops es ++ of_worker [] batch s ++ queue s.
Proof.
  intros Hcfg Hr Hs. destruct (queue_reach_inv c s es Hcfg Hr) as [Hi Ho]. assert (counts c s) as Hc by (unfold inv in Hi; by rewrite Hs in Hi).
  assert (forall q : list V, 0 < zlen q -> q <> []) as Hne by (by intros [|]).
  split; [apply (co_queue c s Hc)|]. split; [by apply count_bound|]. split; [apply (co_exact c s Hc)|]. split; [unfold takers; pose proof (co_holder c s Hc); lia|].
  split; [intros t n k Hp Hk; apply Hne; by apply (thread_finds c t n k)|]. split; [|split; [|exact Ho]].
  - intros mp mc k b Hw Hk. apply Hne. apply (task_finds c (w_pop mp mc k b) mp mc k); eauto.
  - intros n k Hw Hk. apply Hne. apply (task_finds c (w_run (at_drain_pop n k)) 0 n k); eauto.
Qed.

(** C24: Nothing is left behind: when nobody pushes any more, every schedule of the threads, the tasks and the executor's
    answers comes to its end within [measure] steps; it can come to its end; and then the queue is empty and what was pushed was handed
    over in order, each value once, or dropped; all of it, and nothing was dropped, if the executor refused no task and the queue was not stopped. *)
Theorem batched_queue_delivers {V} (c : config) (s : sys V) es : config_ok c -> reach c s es ->
  (forall l s' es', Forall internal l -> run c l s = Some (s', es') -> Z.of_nat (length l) <= measure s) /\
  (exists l s' es', Forall internal l /\ run c l s = Some (s', es') /\ quiescent s') /\
  (forall l s' es', Forall internal l -> run c l s = Some (s', es') -> quiescent s' -> let all := es ++ es' in
     queue s' = [] /\ job_count s' = 0 /\ pushes all ≡ₚ delivered all ++ drops all /\ delivered all `sublist_of` pushes all /\
     (drops all = [] -> delivered all = pushes all) /\
     (deferred false ∉ all -> stopped s' = false -> drops all = [] /\ delivered all = pushes all)).
Proof.
  intros Hcfg Hr. split; [|split].
  - intros l. revert s es Hr. induction l as [|a l IH]; intros s es Hr s' es' Hl E; [pose proof (measure_nonneg s); cbn; lia|]. apply Forall_cons in Hl as [Ha Hl]. cbn in E.
    destruct (step c a s) as [[s1 es1]|] eqn:E1; [|done]. destruct (run c l s1) as [[s2 es2]|] eqn:E2; [|done].
    assert (reach c s1 (es ++ es1)) as Hr1 by (apply (reach_step c s es a); [done|by destruct a|done]).
    pose proof (IH s1 _ Hr1 s2 es2 Hl E2). pose proof (step_measure c a s s1 es1 Hcfg (proj1 (queue_reach_inv c s es Hcfg Hr)) Ha E1). rewrite length_cons. lia.
  - remember (Z.to_nat (measure s)) as n eqn:En. revert s es Hr En. induction (lt_wf n) as [n _ IH]. intros s es Hr En.
    destruct (decide (worker s = None /\ tasks s = 0%nat /\ producers s = ∅)) as [(H1 & H2 & H3)|Hq]; [by exists [], s, []|].
    destruct (possible c s) as (a & s1 & es1 & Ha & E1); [by intros (H1 & H2 & H3); apply Hq|].
    pose proof (step_measure c a s s1 es1 Hcfg (proj1 (queue_reach_inv c s es Hcfg Hr)) Ha E1). pose proof (measure_nonneg s1).
    destruct (IH (Z.to_nat (measure s1)) ltac:(lia) s1 (es ++ es1)) as (l & s2 & es2 & Hl & E2 & Hq2); [apply (reach_step c s es a); [done|by destruct a|done]|done|].
    exists (a :: l), s2, (es1 ++ es2). split; [by apply Forall_cons|]. split; [cbn; by rewrite E1, E2|done].
  - intros l s' es' Hl E Hq all. pose proof (reach_run c l s es s' es' Hr (internal_goes_on l Hl) E) as Hr'.
    destruct (quiescent_done c s' all Hcfg Hr' Hq) as (H1 & H2 & H3 & H4 & H5). do 5 (split; [done|]). intros Hno Hst.
    destruct (reach_kept c s' all Hr' (not_refused all Hno) Hst) as [_ Hd]. split; [done|by apply H5].
Qed.

(** Two producers and an executor that refuses one task: the first push is answered with success and its value is dropped, the second is
    answered with failure and its value is handed over. *)
Definition swapped_run : list (action Z) :=
  [push 1 10; push 2 20; producer_runs 2 true; producer_runs 2 false; producer_runs 2 true; producer_runs 2 true; producer_runs 2 true; producer_runs 2 true;
   producer_runs 1 true; producer_runs 1 true; task_starts; worker_runs true; worker_runs true; worker_runs true; worker_runs true; worker_runs true].
Theorem batched_queue_answers_swapped : exists s es, run (mk_config 8192 256) swapped_run create = Some (s, es) /\
  In (answered 1 true) es /\ In (dropped 10) es /\ In (answered 2 false) es /\ In (called_back [20]) es.
Proof.
  assert (option_map snd (run (mk_config 8192 256) swapped_run create) = Some [pushed 10; pushed 20; deferred false; dropped 10; answered 2 false; deferred true; answered 1 true; called_back [20]]) as E by (vm_compute; reflexivity).
  destruct (run _ _ _) as [[s es]|]; [|done]. injection E as ->. exists s. eexists. split; [reflexivity|]. cbn. tauto.
Qed.

Lemma config_ok_sample : config_ok (mk_config 8192 256).
Proof. split; cbn; lia. Qed.

Definition sample_actions : list (action Z) := [push 1 10; push 2 20; producer_runs 2 true; producer_runs 2 true; task_starts; producer_runs 1 true].

Lemma reach_sample : exists s es, reach (mk_config 8192 256) s es /\ pushes es = [10; 20] /\ worker s = Some w_load /\ stopped s = false.
Proof.
  eexists _, _. split; [apply (reach_run _ sample_actions create []); [apply reach_create|by repeat constructor|reflexivity]|by split].
Qed.

Lemma batched_queue_exclusive_witness : exists (s : sys Z) es, reach (mk_config 8192 256) s es /\ pushes es = [10; 20] /\ zlen (queue s) <= 8192.
Proof.
  destruct reach_sample as (s & es & Hr & Hp & _ & Hs). exists s, es. split; [exact Hr|]. split; [exact Hp|].
  exact (proj1 (batched_queue_exclusive _ s es config_ok_sample Hr Hs)).
Defined.

Lemma batched_queue_delivers_witness : exists (s : sys Z) es l s' es', reach (mk_config 8192 256) s es /\ pushes es = [10; 20] /\ run (mk_config 8192 256) l s = Some (s', es') /\ quiescent s'.
Proof.
  destruct reach_sample as (s & es & Hr & Hp & _). destruct (batched_queue_delivers _ s es config_ok_sample Hr) as (_ & (l & s' & es' & _ & E & Hq) & _).
  exists s, es, l, s', es'. split; [exact Hr|]. split; [exact Hp|]. split; [exact E|exact Hq].
Defined.
