(* ===== verification/BitEncoding.v ===== *)
(** * Bit-wise reading and writing of byte buffers

    Models [bit_encoder::pack] and [bit_decoder::unpack] of [lib/support/bit_encoding.cpp]
    ([include/srsran/support/bit_encoding.h]): values of up to 64 bits are written most significant
    bit first and cross octet boundaries.  The abstraction is the sequence of bits: packing appends
    the bits of the value, unpacking takes them off the front. *)

From S2P Require Import Prelude.
Open Scope Z_scope.

(** ** The encoder *)

(** The octets written and the offset of the next bit in the last one; 0 when it is full. *)
Record bit_encoder := mk_encoder { be_bytes : list Z; be_offset : Z }.

Definition new_encoder : bit_encoder := mk_encoder [] 0.

(** [writer.back() += x]. *)
Definition add_to_back (x : Z) (bytes : list Z) : list Z :=
  match back bytes with
  | Some b => removelast bytes ++ [u8 (b + x)]
  | None => bytes
  end.

(** The loop of [pack]; every turn writes at least one bit, [n_bits] turns are enough. *)
Fixpoint pack_bits (fuel : nat) (val n_bits : Z) (e : bit_encoder) : bit_encoder :=
  if n_bits <=? 0 then e else
  match fuel with
  | O => e
  | S fuel' =>
      let bytes := if be_offset e =? 0 then be_bytes e ++ [0] else be_bytes e in
      let val := if n_bits <? 64 then Z.land val (2 ^ n_bits - 1) else val in
      if n_bits <? 8 - be_offset e then
        let shifted_val := u8 (Z.shiftl val (8 - be_offset e - n_bits)) in
        pack_bits fuel' val 0 (mk_encoder (add_to_back shifted_val bytes) (be_offset e + n_bits))
      else
        let shifted_val := u8 (Z.shiftr val (n_bits - 8 + be_offset e)) in
        pack_bits fuel' val (n_bits - (8 - be_offset e)) (mk_encoder (add_to_back shifted_val bytes) 0)
  end.

Definition pack (val n_bits : Z) (e : bit_encoder) : bit_encoder := pack_bits (Z.to_nat n_bits) val n_bits e.

(** ** The decoder *)

(** The octets left and the number of bits of the first one that were read. *)
Record bit_decoder := mk_decoder { bd_rest : list Z; bd_offset : Z }.

Definition new_decoder (buffer : list Z) : bit_decoder := mk_decoder buffer 0.

(** The loop of [unpack] into a [w]-bit integer: the value, whether it was read, the decoder after.
    Every turn reads at least one bit, [n_bits] turns are enough. *)
Fixpoint unpack_bits (fuel : nat) (w : Z) (d : bit_decoder) (n_bits val : Z) : Z * bool * bit_decoder :=
  if n_bits <=? 0 then (val, true, d) else
  match fuel, bd_rest d with
  | O, _ | _, [] => (val, false, d)
  | S fuel', b :: rest =>
      if n_bits <? 8 - bd_offset d then
        let mask := u8 (u8 (Z.shiftl 1 (8 - bd_offset d)) - u8 (Z.shiftl 1 (8 - bd_offset d - n_bits))) in
        let val := (val + Z.shiftr (u8 (Z.land b mask)) (8 - bd_offset d - n_bits)) mod 2 ^ w in
        unpack_bits fuel' w (mk_decoder (bd_rest d) (bd_offset d + n_bits)) 0 val
      else
        let mask := u8 (Z.shiftl 1 (8 - bd_offset d) - 1) in
        let val := (val + Z.shiftl (Z.land b mask) (n_bits - 8 + bd_offset d)) mod 2 ^ w in
        unpack_bits fuel' w (mk_decoder rest 0) (n_bits - (8 - bd_offset d)) val
  end.

Definition unpack_uint (w : Z) (d : bit_decoder) (n_bits : Z) : Z * bool * bit_decoder :=
  unpack_bits (Z.to_nat n_bits) w d n_bits 0.

(** ** Sequences of bits *)

(** The number whose binary digits these are, the most significant one first. *)
Fixpoint bits_value (l : list bool) : Z :=
  match l with
  | [] => 0
  | b :: l' => (if b then 2 ^ zlen l' else 0) + bits_value l'
  end.

(** The [n] low binary digits of a number. *)
Definition value_bits (n v : Z) : list bool := map (fun i => Z.testbit v (n - 1 - i)) (seqZ 0 n).

Definition byte_bits (b : Z) : list bool := value_bits 8 b.
Definition bytes_bits (l : list Z) : list bool := l ≫= byte_bits.

Lemma zlen_value_bits n v : 0 <= n -> zlen (value_bits n v) = n.
Proof. intros. unfold value_bits, zlen. rewrite length_map, length_seqZ. lia. Qed.

Lemma zlen_bytes_bits l : zlen (bytes_bits l) = 8 * zlen l.
Proof.
  induction l as [|b l IH]; [done|]. change (bytes_bits (b :: l)) with (byte_bits b ++ bytes_bits l).
  unfold byte_bits. rewrite zlen_app, zlen_cons, zlen_value_bits, IH; lia.
Qed.

Lemma bytes_bits_app l k : bytes_bits (l ++ k) = bytes_bits l ++ bytes_bits k.
Proof. unfold bytes_bits. apply bind_app. Qed.

Lemma bits_value_app l k : bits_value (l ++ k) = bits_value l * 2 ^ zlen k + bits_value k.
Proof.
  induction l as [|b l IH]; cbn [app bits_value]; [done|]. rewrite IH, zlen_app.
  destruct b; [|lia]. rewrite Z.pow_add_r by apply zlen_nonneg. lia.
Qed.

Lemma bits_value_range l : 0 <= bits_value l < 2 ^ zlen l.
Proof.
  induction l as [|b l IH]; cbn [bits_value]; [done|].
  rewrite zlen_cons, Z.pow_add_r by (try apply zlen_nonneg; lia). destruct b; lia.
Qed.

Lemma value_bits_split n m v :
  0 <= n -> 0 <= m -> value_bits (n + m) v = value_bits n (Z.shiftr v m) ++ value_bits m v.
Proof.
  intros Hn Hm. unfold value_bits. rewrite seqZ_app by lia. rewrite map_app. f_equal.
  - apply map_ext_in. intros i Hi%list_elem_of_In%elem_of_seqZ. rewrite Z.shiftr_spec by lia. f_equal. lia.
  - replace (seqZ (0 + n) m) with (map (Z.add n) (seqZ 0 m)) by (rewrite Z.add_comm; apply fmap_add_seqZ).
    rewrite map_map. apply map_ext. intros i. f_equal. lia.
Qed.

Lemma value_bits_mod n v : 0 <= n -> value_bits n (v mod 2 ^ n) = value_bits n v.
Proof.
  intros Hn. apply map_ext_in. intros i Hi%list_elem_of_In%elem_of_seqZ.
  by rewrite Z.mod_pow2_bits_low by lia.
Qed.

Lemma bits_value_bit v : bits_value (value_bits 1 v) = v mod 2.
Proof.
  change (value_bits 1 v) with [Z.testbit v 0]. cbn [bits_value]. rewrite Z.add_0_r, Z.bit0_odd, Zmod_odd.
  by destruct (Z.odd v).
Qed.

Lemma bits_value_bits n v : 0 <= n -> bits_value (value_bits n v) = v mod 2 ^ n.
Proof.
  intros Hn. rewrite <- (Z2Nat.id n) by done. generalize (Z.to_nat n) as k. clear n Hn. intros k.
  revert v. induction k as [|k IH]; intros v.
  - simpl. by rewrite Z.mod_1_r.
  - replace (Z.of_nat (S k)) with (1 + Z.of_nat k) by lia.
    rewrite value_bits_split, bits_value_app, IH, zlen_value_bits by lia.
    rewrite bits_value_bit, Z.shiftr_div_pow2 by lia.
    rewrite Z.pow_add_r, (Z.mul_comm (2 ^ 1)), Z.rem_mul_r by lia. change (2 ^ 1) with 2. lia.
Qed.

Lemma value_bits_value l : value_bits (zlen l) (bits_value l) = l.
Proof.
  induction l as [|b l IH]; [done|].
  rewrite zlen_cons, Z.add_comm, value_bits_split by (try apply zlen_nonneg; lia).
  pose proof (bits_value_range l). pose proof (zlen_nonneg l).
  assert (bits_value (b :: l) = bits_value l + (if b then 1 else 0) * 2 ^ zlen l) as E
    by (cbn [bits_value]; destruct b; lia).
  rewrite E. rewrite <- (value_bits_mod (zlen l)), Z_mod_plus_full, Z.mod_small by lia. rewrite IH.
  rewrite Z.shiftr_div_pow2, Z_div_plus_full, Z.div_small by lia. by destruct b.
Qed.

Lemma value_bits_inj n v w : 0 <= v < 2 ^ n -> 0 <= w < 2 ^ n -> 0 <= n -> value_bits n v = value_bits n w -> v = w.
Proof.
  intros Hv Hw Hn E. rewrite <- (Z.mod_small v (2 ^ n)), <- (Z.mod_small w (2 ^ n)) by done.
  rewrite <- !bits_value_bits by done. by rewrite E.
Qed.

(** ** The decoder takes bits off the front *)

Definition decodes (d : bit_decoder) (bs : list bool) : Prop :=
  Forall is_byte (bd_rest d) /\ 0 <= bd_offset d < 8 /\ (bd_rest d = [] -> bd_offset d = 0) /\
  bs = drop (Z.to_nat (bd_offset d)) (bytes_bits (bd_rest d)).

Lemma new_decoder_decodes buffer : Forall is_byte buffer -> decodes (new_decoder buffer) (bytes_bits buffer).
Proof. intros. split; [done|]. split; [simpl; lia|]. split; done. Qed.

(** The bits of an octet from offset [o]: the [n] next ones, and the rest. *)
Lemma byte_bits_from b o n :
  0 <= o -> 0 <= n -> o + n <= 8 ->
  drop (Z.to_nat o) (byte_bits b) = value_bits n (Z.shiftr b (8 - o - n)) ++ value_bits (8 - o - n) b.
Proof.
  intros. unfold byte_bits. replace 8 with (o + (n + (8 - o - n))) at 1 by lia.
  rewrite value_bits_split, drop_app_length' by (rewrite ?Nat2Z.inj_iff; try lia;
    pose proof (zlen_value_bits o (Z.shiftr b (n + (8 - o - n)))); unfold zlen in *; lia).
  rewrite value_bits_split by lia. done.
Qed.

Lemma byte_bits_drop b o : 0 <= o <= 8 -> drop (Z.to_nat o) (byte_bits b) = value_bits (8 - o) b.
Proof.
  intros. rewrite (byte_bits_from b o 0) by lia. by rewrite Z.sub_0_r.
Qed.

(** The masks of the two branches select the bits of the octet from the offset on. *)
Lemma decoder_masks b o n :
  is_byte b -> 0 <= o < 8 -> 0 <= n < 8 - o ->
  Z.shiftr (u8 (Z.land b (u8 (u8 (Z.shiftl 1 (8 - o)) - u8 (Z.shiftl 1 (8 - o - n)))))) (8 - o - n) =
    bits_value (value_bits n (Z.shiftr b (8 - o - n))) /\
  Z.land b (u8 (Z.shiftl 1 (8 - o) - 1)) = bits_value (value_bits (8 - o) b).
Proof.
  intros Hb Ho Hn.
  pose proof (range_forall 8 (fun o => forallb (fun n => forallb (fun b =>
    negb (n <? 8 - o) ||
    (Z.shiftr (u8 (Z.land b (u8 (u8 (Z.shiftl 1 (8 - o)) - u8 (Z.shiftl 1 (8 - o - n)))))) (8 - o - n) =?
       bits_value (value_bits n (Z.shiftr b (8 - o - n)))) &&
    (Z.land b (u8 (Z.shiftl 1 (8 - o) - 1)) =? bits_value (value_bits (8 - o) b))) (seqZ 0 256)) (seqZ 0 8))) as F.
  specialize (F ltac:(vm_compute; reflexivity) o Ho). cbv beta in F.
  pose proof (range_forall 8 _ F n ltac:(lia)) as F1. cbv beta in F1.
  pose proof (byte_forall _ F1 b Hb) as F2. cbv beta in F2.
  apply orb_true_iff in F2 as [F2|F2].
  - apply negb_true_iff, Z.ltb_ge in F2. lia.
  - apply andb_true_iff in F2 as [F2 F3]. by apply Z.eqb_eq in F2, F3.
Qed.

Lemma decodes_cons d bs n :
  decodes d bs -> 0 < n <= zlen bs ->
  exists b rest, bd_rest d = b :: rest /\ is_byte b /\ Forall is_byte rest /\
    bs = drop (Z.to_nat (bd_offset d)) (byte_bits b) ++ bytes_bits rest.
Proof.
  intros (H1 & H2 & H3 & H4) Hn. destruct (bd_rest d) as [|b rest].
  - assert (bs = []) as -> by (by rewrite H4, H3).
    change (zlen (@nil bool)) with 0 in Hn. lia.
  - apply Forall_cons in H1 as [Hb Hr]. exists b, rest. split; [done|]. split; [done|]. split; [done|].
    rewrite H4. change (bytes_bits (b :: rest)) with (byte_bits b ++ bytes_bits rest).
    rewrite drop_app_le; [done|]. unfold byte_bits.
    pose proof (zlen_value_bits 8 b ltac:(lia)). unfold zlen in *. lia.
Qed.

Lemma take_app_zlen {A} n (l k : list A) : zlen l = n -> take (Z.to_nat n) (l ++ k) = l.
Proof. unfold zlen. intros <-. rewrite Nat2Z.id. apply take_app_length. Qed.
Lemma drop_app_zlen {A} n (l k : list A) : zlen l = n -> drop (Z.to_nat n) (l ++ k) = k.
Proof. unfold zlen. intros <-. rewrite Nat2Z.id. apply drop_app_length. Qed.

Lemma unpack_bits_spec w : forall fuel d bs n val,
  decodes d bs -> 0 <= w -> 0 <= n <= zlen bs -> n <= Z.of_nat fuel -> 0 <= val < 2 ^ w ->
  exists d', unpack_bits fuel w d n val = ((val + bits_value (take (Z.to_nat n) bs)) mod 2 ^ w, true, d') /\
    decodes d' (drop (Z.to_nat n) bs).
Proof.
  induction fuel as [|fuel IH]; intros d bs n val Hd Hw Hn Hf Hv; cbn [unpack_bits];
    destruct (Z.leb_spec n 0) as [Hn0|Hn0]; try lia.
  1,2: replace n with 0 by lia; exists d; split; [|done]; cbn [Z.to_nat take bits_value];
    by rewrite Z.add_0_r, Z.mod_small.
  destruct (decodes_cons d bs n Hd ltac:(lia)) as (b & rest & Hr & Hb & Hrest & ->).
  destruct Hd as (_ & Ho & _ & _). rewrite Hr. set (o := bd_offset d) in *.
  assert (forall k, 0 <= k <= 8 - o -> zlen (value_bits k (Z.shiftr b (8 - o - k))) = k) as Hl
    by (intros; apply zlen_value_bits; lia).
  destruct (Z.ltb_spec n (8 - o)) as [Hlt|Hge]; cbv zeta.
  - destruct (decoder_masks b o n Hb Ho ltac:(lia)) as [-> _]. rewrite (byte_bits_from b o n) by lia.
    rewrite <- app_assoc, take_app_zlen, drop_app_zlen by (apply Hl; lia).
    eexists. split; [|]; [destruct fuel; cbn [unpack_bits]; rewrite ?Z.leb_refl; reflexivity|].
    split; [by constructor|]. split; [simpl; lia|]. split; [done|]. simpl bd_offset. simpl bd_rest.
    change (bytes_bits (b :: rest)) with (byte_bits b ++ bytes_bits rest).
    rewrite drop_app_le by (pose proof (zlen_value_bits 8 b ltac:(lia)); unfold byte_bits, zlen in *; lia).
    rewrite byte_bits_drop by lia. f_equal. f_equal. lia.
  - rewrite (proj2 (decoder_masks b o 0 Hb Ho ltac:(lia))), byte_bits_drop by lia.
    destruct (IH (mk_decoder rest 0) (bytes_bits rest) (n - (8 - o))
      ((val + Z.shiftl (bits_value (value_bits (8 - o) b)) (n - 8 + o)) mod 2 ^ w)) as (d' & E & Hd').
    + split; [done|]. split; [simpl; lia|]. by split.
    + done.
    + rewrite zlen_app, byte_bits_drop, zlen_value_bits in Hn by lia. lia.
    + lia.
    + apply Z.mod_pos_bound, Z.pow_pos_nonneg; lia.
    + exists d'. rewrite E. pose proof (zlen_value_bits (8 - o) b ltac:(lia)) as Hlen.
      assert (Z.to_nat n = length (value_bits (8 - o) b) + Z.to_nat (n - (8 - o)))%nat as En by (unfold zlen in *; lia).
      rewrite En, take_app_add, drop_app_add. split; [|done]. f_equal. f_equal.
      rewrite Zplus_mod_idemp_l, bits_value_app. f_equal. rewrite Z.shiftl_mul_pow2, zlen_take by lia.
      rewrite Z.min_l by (rewrite zlen_app, byte_bits_drop, zlen_value_bits in Hn by lia; lia).
      replace (n - 8 + o) with (n - (8 - o)) by lia. lia.
Qed.

Lemma unpack_bits_short w : forall fuel d bs n val,
  decodes d bs -> 0 <= w -> 0 <= val < 2 ^ w -> zlen bs < n -> n <= Z.of_nat fuel ->
  exists v d', unpack_bits fuel w d n val = (v, false, d') /\ 0 <= v < 2 ^ w /\ decodes d' [].
Proof.
  induction fuel as [|fuel IH]; intros d bs n val Hd Hw Hv Hn Hf; cbn [unpack_bits]; pose proof (zlen_nonneg bs);
    destruct (Z.leb_spec n 0); try lia.
  pose proof Hd as (H1 & H2 & H3 & H4). destruct (bd_rest d) as [|b rest] eqn:Hr.
  { exists val, d. split; [done|]. split; [done|]. unfold decodes. rewrite Hr. split; [done|]. split; [done|]. split; [done|]. by destruct (Z.to_nat (bd_offset d)). }
  apply Forall_cons in H1 as [Hb Hrest].
  assert (zlen bs = 8 - bd_offset d + 8 * zlen rest) as E.
  { rewrite H4, zlen_drop, zlen_bytes_bits, zlen_cons by lia. pose proof (zlen_nonneg rest). lia. }
  pose proof (zlen_nonneg rest). destruct (Z.ltb_spec n (8 - bd_offset d)); [lia|]. cbv zeta.
  eapply (IH _ (bytes_bits rest)); [|done|apply Z.mod_pos_bound; lia|rewrite zlen_bytes_bits; lia|lia].
  split; [done|]. split; [simpl; lia|]. by split.
Qed.

(** [unpack]: the next bits, when there are enough of them. *)
Lemma unpack_uint_spec w d bs n :
  decodes d bs -> 0 <= n <= w -> n <= zlen bs ->
  exists d', unpack_uint w d n = (bits_value (take (Z.to_nat n) bs), true, d') /\ decodes d' (drop (Z.to_nat n) bs).
Proof.
  intros Hd Hn Hlen. unfold unpack_uint.
  destruct (unpack_bits_spec w (Z.to_nat n) d bs n 0 Hd) as (d' & E & Hd'); try lia.
  exists d'. split; [|done]. rewrite E, Z.add_0_l, Z.mod_small; [done|].
  pose proof (bits_value_range (take (Z.to_nat n) bs)) as R. rewrite zlen_take, Z.min_l in R by lia.
  pose proof (Z.pow_le_mono_r 2 n w). lia.
Qed.

Lemma unpack_uint_short w d bs n :
  decodes d bs -> 0 <= w -> 0 <= n -> zlen bs < n ->
  exists v d', unpack_uint w d n = (v, false, d') /\ 0 <= v < 2 ^ w /\ decodes d' [].
Proof. intros. apply (unpack_bits_short w (Z.to_nat n) d bs); [done|done|lia|lia|lia]. Qed.

(** Either way the decoder can go on. *)
Lemma unpack_uint_any w d bs n :
  decodes d bs -> 0 <= n <= w -> exists v ok d' bs', unpack_uint w d n = (v, ok, d') /\ 0 <= v < 2 ^ w /\ decodes d' bs' /\
    zlen bs' <= zlen bs /\ (n <= zlen bs -> v = bits_value (take (Z.to_nat n) bs) /\ bs' = drop (Z.to_nat n) bs).
Proof.
  intros Hd Hn. pose proof (zlen_nonneg bs). destruct (Z.le_gt_cases n (zlen bs)) as [Hle|Hgt].
  - destruct (unpack_uint_spec w d bs n Hd Hn Hle) as (d' & E & Hd'). do 4 eexists. split; [exact E|].
    pose proof (bits_value_range (take (Z.to_nat n) bs)) as R. rewrite zlen_take, Z.min_l in R by lia.
    pose proof (Z.pow_le_mono_r 2 n w). split; [lia|]. split; [exact Hd'|]. split; [|done]. rewrite zlen_drop by lia. lia.
  - destruct (unpack_uint_short w d bs n Hd) as (v & d' & E & Hv & Hd'); [lia..|]. exists v, false, d', [].
    split; [done|]. split; [done|]. split; [done|]. split; [done|lia].
Qed.

(** ** The encoder appends bits *)

(** The bits written: the last octet holds [be_offset] of them above zeros. *)
Definition encodes (e : bit_encoder) (bs : list bool) : Prop :=
  Forall is_byte (be_bytes e) /\ 0 <= be_offset e < 8 /\
  if be_offset e =? 0 then bs = bytes_bits (be_bytes e)
  else exists pre hi, be_bytes e = pre ++ [hi * 2 ^ (8 - be_offset e)] /\ 0 <= hi < 2 ^ be_offset e /\
       bs = bytes_bits pre ++ value_bits (be_offset e) hi.

Lemma new_encoder_encodes : encodes new_encoder [].
Proof. split; [constructor|]. split; [simpl; lia|done]. Qed.

(** With room made for the next bit, all offsets look alike. *)
Lemma encodes_room e bs :
  encodes e bs ->
  exists pre hi, (if be_offset e =? 0 then be_bytes e ++ [0] else be_bytes e) = pre ++ [hi * 2 ^ (8 - be_offset e)] /\
    0 <= hi < 2 ^ be_offset e /\ Forall is_byte pre /\ bs = bytes_bits pre ++ value_bits (be_offset e) hi.
Proof.
  intros (Hb & Ho & H). destruct (Z.eqb_spec (be_offset e) 0) as [E|].
  - exists (be_bytes e), 0. rewrite E. split; [done|]. split; [done|]. split; [done|]. by rewrite app_nil_r.
  - destruct H as (pre & hi & Heq & Hhi & Hbs). exists pre, hi. rewrite Heq in Hb.
    apply Forall_app in Hb as [Hb _]. done.
Qed.

Lemma add_to_back_snoc x pre b : add_to_back x (pre ++ [b]) = pre ++ [u8 (b + x)].
Proof. unfold add_to_back. by rewrite last_snoc, removelast_last. Qed.

(** An octet with [k] further bits [x] below its [o] bits [hi]. *)
Lemma octet_parts o k hi x :
  0 <= o -> 0 <= k -> o + k <= 8 -> 0 <= hi < 2 ^ o -> 0 <= x < 2 ^ k ->
  let b := hi * 2 ^ (8 - o) + x * 2 ^ (8 - o - k) in
  0 <= b < 256 /\ b = (hi * 2 ^ k + x) * 2 ^ (8 - (o + k)) /\ hi * 2 ^ k + x < 2 ^ (o + k) /\
  value_bits (o + k) (hi * 2 ^ k + x) = value_bits o hi ++ value_bits k x.
Proof.
  intros Ho Hk Hok Hhi Hx b. unfold b. clear b.
  assert (2 ^ (8 - o) = 2 ^ k * 2 ^ (8 - o - k)) as E1 by (rewrite <- Z.pow_add_r by lia; f_equal; lia).
  assert (2 ^ (o + k) = 2 ^ o * 2 ^ k) as E2 by (apply Z.pow_add_r; lia).
  assert (256 = 2 ^ (o + k) * 2 ^ (8 - o - k)) as E3
    by (rewrite <- Z.pow_add_r by lia; change 256 with (2 ^ 8); f_equal; lia).
  assert (0 < 2 ^ (8 - o - k)) by (apply Z.pow_pos_nonneg; lia).
  assert (0 < 2 ^ k) by (apply Z.pow_pos_nonneg; lia).
  assert (0 <= hi * 2 ^ k + x < 2 ^ (o + k)) by (rewrite E2; nia).
  replace (8 - (o + k)) with (8 - o - k) by lia.
  split; [rewrite E1; nia|]. split; [rewrite E1; lia|]. split; [lia|].
  rewrite value_bits_split by lia. f_equal.
  - rewrite Z.shiftr_div_pow2, Z.div_add_l, Z.div_small by lia. f_equal. lia.
  - rewrite <- value_bits_mod, Z.add_comm, Z_mod_plus_full, Z.mod_small by lia. done.
Qed.

(** One turn of the loop: [k] bits enter the last octet. *)
Lemma encodes_turn e bs k x :
  encodes e bs -> 0 < k <= 8 - be_offset e -> 0 <= x < 2 ^ k ->
  encodes (mk_encoder (add_to_back (x * 2 ^ (8 - be_offset e - k))
             (if be_offset e =? 0 then be_bytes e ++ [0] else be_bytes e)) ((be_offset e + k) mod 8))
    (bs ++ value_bits k x).
Proof.
  intros He Hk Hx. destruct (encodes_room e bs He) as (pre & hi & -> & Hhi & Hpre & ->).
  destruct He as (_ & Ho & _). set (o := be_offset e) in *. rewrite add_to_back_snoc.
  destruct (octet_parts o k hi x) as (B1 & B2 & B3 & B4); try lia. cbv zeta in *. rewrite u8_small by lia.
  split; [apply Forall_app; split; [done|]; apply Forall_cons_2; [exact B1|apply Forall_nil_2]|].
  split; [apply Z.mod_pos_bound; lia|]. cbn [be_offset be_bytes].
  destruct (Z.eq_dec (o + k) 8) as [E|E].
  - rewrite E. cbn. rewrite bytes_bits_app, <- app_assoc, <- B4. f_equal. rewrite B2, E. cbn [bytes_bits mbind list_bind].
    unfold byte_bits. rewrite app_nil_r. f_equal. lia.
  - rewrite Z.mod_small by lia. destruct (Z.eqb_spec (o + k) 0); [lia|].
    exists pre, (hi * 2 ^ k + x). rewrite <- app_assoc, B4. split; [by rewrite B2|]. split; [nia|done].
Qed.

Lemma pack_bits_spec : forall fuel e bs n val,
  encodes e bs -> 0 <= n <= 64 -> n <= Z.of_nat fuel -> 0 <= val < 2 ^ 64 ->
  encodes (pack_bits fuel val n e) (bs ++ value_bits n val).
Proof.
  induction fuel as [|fuel IH]; intros e bs n val He Hn Hf Hv; cbn [pack_bits];
    destruct (Z.leb_spec n 0); try lia.
  1,2: replace n with 0 by lia; by rewrite app_nil_r.
  pose proof He as (_ & Ho & _). set (o := be_offset e) in *. cbv zeta.
  set (v := if n <? 64 then Z.land val (2 ^ n - 1) else val).
  assert (0 <= v < 2 ^ n /\ v <= val /\ value_bits n v = value_bits n val) as (Hv1 & Hv2 & Hv3).
  { unfold v. destruct (Z.ltb_spec n 64); [|replace n with 64 by lia; done].
    rewrite land_mask, value_bits_mod by lia. pose proof (Z.mod_pos_bound val (2 ^ n) ltac:(apply Z.pow_pos_nonneg; lia)).
    split; [lia|]. split; [apply Z.mod_le; lia|done]. }
  clearbody v. rewrite <- Hv3. destruct (Z.ltb_spec n (8 - o)) as [Hlt|Hge].
  - rewrite Z.shiftl_mul_pow2 by lia.
    destruct (octet_parts o n 0 v) as (B1 & _); try lia.
    cbv zeta in B1. rewrite u8_small by lia.
    pose proof (encodes_turn e bs n v He ltac:(lia) Hv1) as Ht. fold o in Ht. rewrite (Z.mod_small (o + n)) in Ht by lia.
    destruct fuel; cbn [pack_bits]; rewrite ?Z.leb_refl; exact Ht.
  - set (k := 8 - o) in *. replace (n - 8 + o) with (n - k) by lia. rewrite Z.shiftr_div_pow2 by lia.
    assert (2 ^ n = 2 ^ k * 2 ^ (n - k)) as En by (rewrite <- Z.pow_add_r by lia; f_equal; lia).
    assert (0 < 2 ^ (n - k)) by (apply Z.pow_pos_nonneg; lia).
    assert (0 <= v / 2 ^ (n - k) < 2 ^ k) as Hx by (split; [apply Z.div_pos; lia|apply Z.div_lt_upper_bound; lia]).
    assert (2 ^ k <= 256) by (change 256 with (2 ^ 8); apply Z.pow_le_mono_r; lia).
    rewrite u8_small by lia.
    pose proof (encodes_turn e bs k (v / 2 ^ (n - k)) He ltac:(lia) Hx) as Ht. fold o in Ht.
    replace (8 - o - k) with 0 in Ht by lia. rewrite Z.mul_1_r in Ht. replace ((o + k) mod 8) with 0 in Ht
      by (replace (o + k) with 8 by lia; done).
    assert (value_bits n v = value_bits k (v / 2 ^ (n - k)) ++ value_bits (n - k) v) as ->.
    { rewrite <- Z.shiftr_div_pow2, <- value_bits_split by lia. f_equal. lia. }
    rewrite app_assoc.
    apply IH; [exact Ht|lia|lia|lia].
Qed.

Lemma pack_spec e bs n val :
  encodes e bs -> 0 <= n <= 64 -> 0 <= val < 2 ^ 64 -> encodes (pack val n e) (bs ++ value_bits n val).
Proof. intros. apply pack_bits_spec; [done|done|lia|done]. Qed.

(** The octets written decode to the bits, padded with zeros. *)
Lemma encodes_bytes e bs :
  encodes e bs -> exists pad, bytes_bits (be_bytes e) = bs ++ repeat false pad /\ (pad < 8)%nat.
Proof.
  intros (_ & Ho & H). destruct (Z.eqb_spec (be_offset e) 0).
  - exists 0%nat. rewrite H, app_nil_r. split; [done|lia].
  - destruct H as (pre & hi & -> & Hhi & ->). set (o := be_offset e) in *. exists (Z.to_nat (8 - o)).
    split; [|lia]. rewrite bytes_bits_app, <- app_assoc. f_equal. cbn [bytes_bits mbind list_bind].
    rewrite app_nil_r. unfold byte_bits. replace 8 with (o + (8 - o)) at 1 by lia.
    rewrite value_bits_split, Z.shiftr_div_pow2, Z.div_mul by lia. f_equal.
    rewrite <- value_bits_mod, Z_mod_mult by lia. unfold value_bits.
    rewrite <- (Z2Nat.id (8 - o)) at 1 by lia. generalize (Z.to_nat (8 - o)). intros n0. clear.
    rewrite (map_ext _ (fun _ => false)) by (intros; apply Z.bits_0).
    unfold seqZ. rewrite Nat2Z.id, map_map. generalize 0%nat. induction n0 as [|m IH]; intros; simpl; [done|].
    f_equal. apply IH.
Qed.

(** ** Round trip *)

Definition pack_all (fields : list (Z * Z)) (e : bit_encoder) : bit_encoder :=
  fold_left (fun e f => pack (snd f) (fst f) e) fields e.

Fixpoint unpack_all (w : Z) (widths : list Z) (d : bit_decoder) : option (list Z * bit_decoder) :=
  match widths with
  | [] => Some ([], d)
  | n :: widths' =>
      match unpack_uint w d n with
      | (v, true, d') =>
          match unpack_all w widths' d' with Some (vs, d'') => Some (v :: vs, d'') | None => None end
      | (_, false, _) => None
      end
  end.

Definition field_ok (w : Z) (f : Z * Z) : Prop := 0 <= fst f <= w /\ 0 <= snd f < 2 ^ fst f.

Definition fields_bits (fields : list (Z * Z)) : list bool := fields ≫= (fun f => value_bits (fst f) (snd f)).

Lemma pack_all_encodes w fields : w <= 64 -> forall e bs,
  Forall (field_ok w) fields -> encodes e bs -> encodes (pack_all fields e) (bs ++ fields_bits fields).
Proof.
  intros Hw. induction fields as [|[n v] fields IH]; intros e bs Hf He; [by rewrite app_nil_r|].
  apply Forall_cons in Hf as [[Hn Hv] Hf]. simpl in *.
  change (fields_bits ((n, v) :: fields)) with (value_bits n v ++ fields_bits fields). rewrite app_assoc.
  apply IH; [done|]. apply pack_spec; [done|lia|]. pose proof (Z.pow_le_mono_r 2 n 64). lia.
Qed.

Lemma unpack_all_fields w fields : forall d rest,
  Forall (field_ok w) fields -> decodes d (fields_bits fields ++ rest) ->
  exists d', unpack_all w (map fst fields) d = Some (map snd fields, d') /\ decodes d' rest.
Proof.
  induction fields as [|[n v] fields IH]; intros d rest Hf Hd; [simpl; eauto|].
  apply Forall_cons in Hf as [[Hn Hv] Hf]. simpl in Hn, Hv.
  change (fields_bits ((n, v) :: fields)) with (value_bits n v ++ fields_bits fields) in Hd. rewrite <- app_assoc in Hd.
  pose proof (zlen_value_bits n v ltac:(lia)) as Hl.
  destruct (unpack_uint_spec w d _ n Hd) as (d1 & E & Hd1); [lia|rewrite zlen_app, Hl; pose proof (zlen_nonneg (fields_bits fields ++ rest)); lia|].
  rewrite take_app_zlen, bits_value_bits, Z.mod_small in E by (done || lia). rewrite drop_app_zlen in Hd1 by done.
  destruct (IH d1 rest Hf Hd1) as (d2 & E2 & Hd2). exists d2. split; [|done]. simpl. by rewrite E, E2.
Qed.

Lemma encodes_decodes e bs : encodes e bs -> exists pad, decodes (new_decoder (be_bytes e)) (bs ++ repeat false pad) /\ (pad < 8)%nat.
Proof.
  intros He. destruct (encodes_bytes e bs He) as (pad & E & Hpad). exists pad. split; [|done].
  rewrite <- E. apply new_decoder_decodes, He.
Qed.

(** A sequence of fields of up to 64 bits each, packed one after the other across octet
    boundaries, is unpacked to the same values; fewer than eight padding bits are left, all zero. *)
Theorem bit_encoding_roundtrip w fields :
  w <= 64 -> Forall (field_ok w) fields ->
  exists d pad, unpack_all w (map fst fields) (new_decoder (be_bytes (pack_all fields new_encoder))) = Some (map snd fields, d) /\
    decodes d (repeat false pad) /\ (pad < 8)%nat.
Proof.
  intros Hw Hf. pose proof (pack_all_encodes w fields Hw _ _ Hf new_encoder_encodes) as He.
  destruct (encodes_decodes _ _ He) as (pad & Hd & Hpad). destruct (unpack_all_fields w fields _ _ Hf Hd) as (d & E & Hd').
  by exists d, pad.
Qed.

Lemma bit_encoding_roundtrip_witness :
  exists d pad, unpack_all 32 [1; 3; 4; 32; 5] (new_decoder (be_bytes (pack_all [(1, 0); (3, 5); (4, 0); (32, 3735928559); (5, 21)] new_encoder))) =
    Some ([0; 5; 0; 3735928559; 21], d) /\ decodes d (repeat false pad) /\ (pad < 8)%nat.
Proof.
  apply (bit_encoding_roundtrip 32 [(1, 0); (3, 5); (4, 0); (32, 3735928559); (5, 21)]); [discriminate|].
  repeat (apply Forall_cons; split; [split; split; (discriminate || reflexivity)|]). apply Forall_nil. exact I.
Defined.
