(* ===== verification/BitFields.v ===== *)
(** * Packing and unpacking messages field by field

    The functions of [bit_encoder] and [bit_decoder] ([lib/support/bit_encoding.cpp],
    [include/srsran/support/bit_encoding.h]) that work on whole octets, and a monad for the decoders
    built on [bit_decoder::unpack]: a message is read field by field and reading may fail. *)

From S2P Require Import Prelude BitEncoding.
Open Scope Z_scope.

(** ** Octets *)

(** [pack_bytes]: aligned octets are appended, others are packed one by one. *)
Definition pack_bytes (bytes : list Z) (e : bit_encoder) : bit_encoder :=
  match bytes with
  | [] => e
  | _ => if be_offset e =? 0 then mk_encoder (be_bytes e ++ bytes) 0 else fold_left (fun e b => pack b 8 e) bytes e
  end.

Definition align_bytes_zero (e : bit_encoder) : bit_encoder := mk_encoder (be_bytes e) 0.

(** [nof_bytes] and [nof_bits] of the encoder. *)
Definition packed_bytes (e : bit_encoder) : Z := zlen (be_bytes e).
Definition packed_bits (e : bit_encoder) : Z := 8 * (zlen (be_bytes e) - (if be_offset e =? 0 then 0 else 1)) + be_offset e.

(** [nof_bytes] and [nof_bits] of a decoder of [buffer]. *)
Definition decoded_bytes (buffer : list Z) (d : bit_decoder) : Z := zlen buffer - zlen (bd_rest d) + (if bd_offset d =? 0 then 0 else 1).
Definition decoded_bits (buffer : list Z) (d : bit_decoder) : Z := bd_offset d + 8 * (zlen buffer - zlen (bd_rest d)).

Definition advance_bits (n_bits : Z) (d : bit_decoder) : bool * bit_decoder :=
  let extra_bits := (bd_offset d + n_bits) mod 8 in
  let bytes_required := (bd_offset d + n_bits + 7) / 8 in
  let bytes_offset := (bd_offset d + n_bits) / 8 in
  if zlen (bd_rest d) <? bytes_required then (false, d)
  else (true, mk_decoder (drop (Z.to_nat bytes_offset) (bd_rest d)) extra_bits).

Definition align_bytes (d : bit_decoder) : bit_decoder :=
  if bd_offset d =? 0 then d else mk_decoder (tl (bd_rest d)) 0.

(** [unpack_bytes] into [n] octets that are zero at first. *)
Fixpoint unpack_bytes_loop (n : nat) (d : bit_decoder) : list Z * bool * bit_decoder :=
  match n with
  | O => ([], true, d)
  | S n' =>
      let '(b, ok, d) := unpack_uint 8 d 8 in
      if ok then let '(bytes, ok, d) := unpack_bytes_loop n' d in (b :: bytes, ok, d)
      else (b :: repeat 0 n', false, d)
  end.
Definition unpack_bytes (n : Z) (d : bit_decoder) : list Z * bool * bit_decoder :=
  if n =? 0 then ([], true, d) else
  if zlen (bd_rest d) <? n then (repeat 0 (Z.to_nat n), false, d) else
  if bd_offset d =? 0 then (take (Z.to_nat n) (bd_rest d), true, mk_decoder (drop (Z.to_nat n) (bd_rest d)) 0) else
  unpack_bytes_loop (Z.to_nat n) d.

(** [unpack_aligned_bytes]: a view, empty when there are not that many octets. *)
Definition unpack_aligned_bytes (n : Z) (d : bit_decoder) : list Z * bit_decoder :=
  let d := align_bytes d in
  if n =? 0 then ([], d) else
  if zlen (bd_rest d) <? n then ([], d) else
  (take (Z.to_nat n) (bd_rest d), mk_decoder (drop (Z.to_nat n) (bd_rest d)) 0).

(** ** Decoders of messages *)

(** [None]: the read failed and the caller gives up. *)
Definition Dec (A : Type) : Type := bit_decoder -> option A * bit_decoder.

Definition dret {A} (a : A) : Dec A := fun d => (Some a, d).
Definition dfail {A} : Dec A := fun d => (None, d).
Definition dbind {A B} (m : Dec A) (k : A -> Dec B) : Dec B := fun d =>
  match m d with (Some a, d) => k a d | (None, d) => (None, d) end.

(** [VERIFY_READ(decoder.unpack(val, n))] into a [w]-bit integer. *)
Definition field (w n : Z) : Dec Z := fun d => let '(v, ok, d) := unpack_uint w d n in (if ok : bool then Some v else None, d).
(** [decoder.unpack(val, n)] whose result is not looked at. *)
Definition field_ (w n : Z) : Dec Z := fun d => let '(v, _, d) := unpack_uint w d n in (Some v, d).
Definition flag : Dec bool := dbind (field 1 1) (fun v => dret (v =? 1)).
Definition flag_ : Dec bool := dbind (field_ 1 1) (fun v => dret (v =? 1)).

(** [if (cond) read], into an [std::optional]. *)
Definition dwhen {A} (b : bool) (m : Dec A) : Dec (option A) :=
  if b then dbind m (fun a => dret (Some a)) else dret None.

(** [for (i = 0; i < n; i++) push_back(read)]. *)
Fixpoint drepeat {A} (n : nat) (m : Dec A) : Dec (list A) :=
  match n with
  | O => dret []
  | S n' => dbind m (fun a => dbind (drepeat n' m) (fun l => dret (a :: l)))
  end.

Definition run_dec {A} (m : Dec A) (buffer : list Z) : option A := fst (m (new_decoder buffer)).

Declare Scope decode_scope.
Notation "'let?' x ':=' m 'in' k" := (dbind m (fun x => k))
  (at level 200, x binder, m at level 100, k at level 200, right associativity) : decode_scope.

Definition b2z (b : bool) : Z := if b then 1 else 0.

(** ** What is written *)

Lemma encodes_offset e bs : encodes e bs -> be_offset e = zlen bs mod 8.
Proof.
  intros (_ & Ho & H). destruct (Z.eqb_spec (be_offset e) 0) as [E|].
  - rewrite H, zlen_bytes_bits, E. zmod.
  - destruct H as (pre & hi & _ & _ & ->). rewrite zlen_app, zlen_bytes_bits, zlen_value_bits by lia. zmod.
Qed.

Lemma encodes_aligned e bs : encodes e bs -> zlen bs mod 8 = 0 -> bytes_bits (be_bytes e) = bs.
Proof. intros He Ha. pose proof (encodes_offset e bs He) as Ho. destruct He as (_ & _ & H). by rewrite Ho, Ha in H. Qed.

Lemma encodes_of_bytes bytes : Forall is_byte bytes -> encodes (mk_encoder bytes 0) (bytes_bits bytes).
Proof. intros. split; [done|]. split; [simpl; lia|done]. Qed.

Lemma bytes_bits_cons b l : bytes_bits (b :: l) = byte_bits b ++ bytes_bits l.
Proof. done. Qed.

Lemma pack_octet e bs b : encodes e bs -> is_byte b -> encodes (pack b 8 e) (bs ++ byte_bits b).
Proof. intros He Hb. unfold is_byte in Hb. apply (pack_spec e bs 8 b He); lia. Qed.

Lemma fold_octets {S} (step : S -> Z -> S) (P : S -> list bool -> Prop) l :
  (forall s bs b, P s bs -> is_byte b -> P (step s b) (bs ++ byte_bits b)) ->
  forall s bs, P s bs -> Forall is_byte l -> P (fold_left step l s) (bs ++ bytes_bits l).
Proof.
  intros Hstep. induction l as [|b l IH]; intros s bs Hs Hb; [by rewrite app_nil_r|]. apply Forall_cons in Hb as [Hb Hl].
  cbn [fold_left]. rewrite bytes_bits_cons, app_assoc. apply IH; [|done]. by apply Hstep.
Qed.

Lemma pack_bytes_spec bytes e bs :
  encodes e bs -> Forall is_byte bytes -> encodes (pack_bytes bytes e) (bs ++ bytes_bits bytes).
Proof.
  intros He Hb. unfold pack_bytes. destruct bytes as [|b bytes]; [by rewrite app_nil_r|].
  destruct (Z.eqb_spec (be_offset e) 0) as [E|].
  - destruct He as (H1 & _ & H3). rewrite E in H3. simpl in H3. rewrite H3, <- bytes_bits_app.
    apply encodes_of_bytes. by apply Forall_app.
  - apply (fold_octets (fun e b => pack b 8 e) encodes); [|done|done]. intros. by apply pack_octet.
Qed.

Lemma zlen_fields_bits w fields : Forall (field_ok w) fields -> zlen (fields_bits fields) = foldr (fun f n => fst f + n) 0 fields.
Proof.
  induction 1 as [|[n v] fields [Hn _] _ IH]; [done|]. simpl in *.
  change (fields_bits ((n, v) :: fields)) with (value_bits n v ++ fields_bits fields). rewrite zlen_app, zlen_value_bits by lia. lia.
Qed.

Lemma fields_bits_app l k : fields_bits (l ++ k) = fields_bits l ++ fields_bits k.
Proof. unfold fields_bits. apply bind_app. Qed.
Lemma fields_bits_cons n v l : fields_bits ((n, v) :: l) = value_bits n v ++ fields_bits l.
Proof. done. Qed.
Lemma fields_bits_nil : fields_bits [] = [].
Proof. done. Qed.

Lemma bytes_bits_inj l k : Forall is_byte l -> Forall is_byte k -> bytes_bits l = bytes_bits k -> l = k.
Proof.
  intros Hl. revert k. induction Hl as [|b l Hb _ IH]; intros k Hk E.
  - destruct k as [|c k]; [done|]. apply (f_equal zlen) in E. rewrite !zlen_bytes_bits, zlen_cons in E. pose proof (zlen_nonneg k).
    change (zlen (@nil Z)) with 0 in E. lia.
  - destruct Hk as [|c k Hc Hk].
    { apply (f_equal zlen) in E. rewrite !zlen_bytes_bits, zlen_cons in E. pose proof (zlen_nonneg l). change (zlen (@nil Z)) with 0 in E. lia. }
    change (byte_bits b ++ bytes_bits l = byte_bits c ++ bytes_bits k) in E.
    assert (length (byte_bits b) = length (byte_bits c)) as El.
    { pose proof (zlen_value_bits 8 b). pose proof (zlen_value_bits 8 c). unfold byte_bits, zlen in *. lia. }
    apply app_inj_1 in E as [E1 E2]; [|done]. f_equal; [|by apply IH].
    apply (value_bits_inj 8); [exact Hb|exact Hc|lia|exact E1].
Qed.

(** ** What is read *)

(** From [bs] the decoder yields [a] and leaves [rest]. *)
Definition reads {A} (m : Dec A) (bs : list bool) (a : A) (rest : list bool) : Prop :=
  forall d, decodes d bs -> exists d', m d = (Some a, d') /\ decodes d' rest.

Lemma reads_ret {A} (a : A) bs : reads (dret a) bs a bs.
Proof. intros d Hd. by exists d. Qed.

Lemma reads_bind {A B} (m : Dec A) (k : A -> Dec B) bs a mid b rest :
  reads m bs a mid -> reads (k a) mid b rest -> reads (dbind m k) bs b rest.
Proof. intros Hm Hk d Hd. destruct (Hm d Hd) as (d1 & E & Hd1). unfold dbind. rewrite E. by apply Hk. Qed.

Lemma reads_unpack w n v rest d : 0 <= n <= w -> 0 <= v < 2 ^ n -> decodes d (value_bits n v ++ rest) ->
  exists d', unpack_uint w d n = (v, true, d') /\ decodes d' rest.
Proof.
  intros Hn Hv Hd. pose proof (zlen_value_bits n v ltac:(lia)) as Hl.
  destruct (unpack_uint_spec w d _ n Hd) as (d' & E & Hd'); [done|rewrite zlen_app, Hl; pose proof (zlen_nonneg rest); lia|].
  rewrite take_app_zlen, bits_value_bits, Z.mod_small in E by (done || lia). rewrite drop_app_zlen in Hd' by done. by exists d'.
Qed.

Lemma reads_field w n v rest : 0 <= n <= w -> 0 <= v < 2 ^ n -> reads (field w n) (value_bits n v ++ rest) v rest.
Proof. intros Hn Hv d Hd. unfold field. destruct (reads_unpack w n v rest d Hn Hv Hd) as (d' & -> & Hd'). by exists d'. Qed.

Lemma reads_field_ w n v rest : 0 <= n <= w -> 0 <= v < 2 ^ n -> reads (field_ w n) (value_bits n v ++ rest) v rest.
Proof. intros Hn Hv d Hd. unfold field_. destruct (reads_unpack w n v rest d Hn Hv Hd) as (d' & -> & Hd'). by exists d'. Qed.

Lemma reads_flag b rest : reads flag (value_bits 1 (b2z b) ++ rest) b rest.
Proof. eapply reads_bind; [apply reads_field; destruct b; simpl; lia|]. destruct b; apply reads_ret. Qed.
Lemma reads_flag_ b rest : reads flag_ (value_bits 1 (b2z b) ++ rest) b rest.
Proof. eapply reads_bind; [apply reads_field_; destruct b; simpl; lia|]. destruct b; apply reads_ret. Qed.

Lemma reads_when_some {A} (m : Dec A) bs a rest b : b = true -> reads m bs a rest -> reads (dwhen b m) bs (Some a) rest.
Proof. intros -> H. eapply reads_bind; [exact H|]. apply reads_ret. Qed.
Lemma reads_when_none {A} (m : Dec A) bs b : b = false -> reads (dwhen b m) bs None bs.
Proof. intros ->. apply reads_ret. Qed.

Lemma reads_repeat {A} (m : Dec A) (enc : A -> list bool) l rest :
  (forall a rest, a ∈ l -> reads m (enc a ++ rest) a rest) -> reads (drepeat (length l) m) ((l ≫= enc) ++ rest) l rest.
Proof.
  induction l as [|a l IH]; intros Hm; [apply reads_ret|]. cbn [length drepeat mbind list_bind]. rewrite <- app_assoc.
  eapply reads_bind; [apply Hm; left|]. eapply reads_bind; [apply IH; intros; apply Hm; by right|]. apply reads_ret.
Qed.

Lemma run_dec_reads {A} (m : Dec A) buffer a rest : Forall is_byte buffer -> reads m (bytes_bits buffer) a rest -> run_dec m buffer = Some a.
Proof. intros Hb Hm. destruct (Hm _ (new_decoder_decodes buffer Hb)) as (d & E & _). unfold run_dec. by rewrite E. Qed.

(** An optional field of [n] bits. *)
Definition opt_field (n : Z) (o : option Z) : list (Z * Z) := match o with Some v => [(n, v)] | None => [] end.
Definition present {A} (o : option A) : bool := match o with Some _ => true | None => false end.

Lemma reads_opt_field w n o rest : 0 <= n <= w -> (forall v, o = Some v -> 0 <= v < 2 ^ n) ->
  reads (dwhen (present o) (field w n)) (fields_bits (opt_field n o) ++ rest) o rest.
Proof.
  intros Hn Ho. destruct o as [v|]; [|by apply reads_when_none]. apply reads_when_some; [done|]. cbn [opt_field]. rewrite fields_bits_cons, fields_bits_nil, app_nil_r.
  by apply reads_field; [|apply Ho].
Qed.

Lemma opt_field_ok w n o : 0 <= n <= w -> (forall v, o = Some v -> 0 <= v < 2 ^ n) -> Forall (field_ok w) (opt_field n o).
Proof. intros Hn Ho. destruct o as [v|]; [|constructor]. apply Forall_singleton. split; [done|]. by apply Ho. Qed.

(** One step of reading a message whose bits are known. *)
Ltac read_step :=
  lazymatch goal with
  | |- reads (dret _) _ _ _ => apply reads_ret
  | |- reads (dbind flag _) _ _ _ => eapply reads_bind; [apply reads_flag|]
  | |- reads (dbind flag_ _) _ _ _ => eapply reads_bind; [apply reads_flag_|]
  | |- reads (dbind (field _ _) _) _ _ _ => eapply reads_bind; [apply reads_field; [lia|try (split; [vm_compute; discriminate|vm_compute; reflexivity])]|]
  | |- reads (dbind (field_ _ _) _) _ _ _ => eapply reads_bind; [apply reads_field_; [lia|try (split; [vm_compute; discriminate|vm_compute; reflexivity])]|]
  | |- reads (if ?b then _ else _) _ _ _ => let v := eval vm_compute in b in change b with v; cbv iota
  end; cbv beta iota.

(** ** What any octets can yield *)

(** Whatever the bits, what the decoder yields satisfies [P], and the decoder can go on. *)
Definition yields {A} (m : Dec A) (P : A -> Prop) : Prop :=
  forall d bs, decodes d bs -> match m d with (Some a, d') => P a | (None, _) => True end /\ exists bs', decodes (snd (m d)) bs' /\ zlen bs' <= zlen bs.

Lemma yields_ret {A} (a : A) (P : A -> Prop) : P a -> yields (dret a) P.
Proof. intros Ha d bs Hd. split; [done|]. by exists bs. Qed.
Lemma yields_fail {A} (P : A -> Prop) : yields dfail P.
Proof. intros d bs Hd. split; [done|]. by exists bs. Qed.
Lemma yields_bind {A B} (m : Dec A) (k : A -> Dec B) (P : A -> Prop) (Q : B -> Prop) :
  yields m P -> (forall a, P a -> yields (k a) Q) -> yields (dbind m k) Q.
Proof.
  intros Hm Hk d bs Hd. unfold dbind. destruct (Hm d bs Hd) as [HP (bs' & Hd' & Hl)]. destruct (m d) as [[a|] d']; [|by eauto].
  destruct (Hk a HP d' bs' Hd') as [HQ (bs'' & Hd'' & Hl')]. split; [done|]. exists bs''. split; [done|lia].
Qed.
Lemma yields_mono {A} (m : Dec A) (P Q : A -> Prop) : yields m P -> (forall a, P a -> Q a) -> yields m Q.
Proof. intros Hm H d bs Hd. destruct (Hm d bs Hd) as [HP Hr]. split; [|done]. destruct (m d) as [[a|] ?]; auto. Qed.

Lemma yields_unpack w n d bs : 0 <= n <= w -> decodes d bs ->
  exists v ok d' bs', unpack_uint w d n = (v, ok, d') /\ 0 <= v < 2 ^ w /\ (ok = true -> v < 2 ^ n) /\ decodes d' bs' /\ zlen bs' <= zlen bs.
Proof.
  intros Hn Hd. pose proof (zlen_nonneg bs). destruct (Z.le_gt_cases n (zlen bs)).
  - destruct (unpack_uint_spec w d bs n Hd Hn ltac:(lia)) as (d' & E & Hd'). do 4 eexists. split; [exact E|].
    pose proof (bits_value_range (take (Z.to_nat n) bs)) as R. rewrite zlen_take, Z.min_l in R by lia.
    pose proof (Z.pow_le_mono_r 2 n w). split; [lia|]. split; [lia|]. split; [exact Hd'|]. rewrite zlen_drop by lia. lia.
  - destruct (unpack_uint_short w d bs n Hd) as (v & d' & E & Hv & Hd'); [lia..|]. exists v, false, d', []. split; [done|]. split; [done|].
    split; [done|]. split; [done|]. change (zlen (@nil bool)) with 0. lia.
Qed.

Lemma yields_field w n : 0 <= n <= w -> yields (field w n) (fun v => 0 <= v < 2 ^ n).
Proof.
  intros Hn d bs Hd. unfold field. destruct (yields_unpack w n d bs Hn Hd) as (v & ok & d' & bs' & -> & Hv & Hok & Hd' & Hl).
  split; [destruct ok; [|done]; specialize (Hok eq_refl); lia|by exists bs'].
Qed.
Lemma yields_field_ w n : 0 <= n <= w -> yields (field_ w n) (fun v => 0 <= v < 2 ^ w).
Proof.
  intros Hn d bs Hd. unfold field_. destruct (yields_unpack w n d bs Hn Hd) as (v & ok & d' & bs' & -> & Hv & Hok & Hd' & Hl).
  split; [done|by exists bs'].
Qed.
Lemma yields_flag : yields flag (fun _ => True).
Proof. eapply yields_bind; [by apply yields_field|]. intros. by apply yields_ret. Qed.
Lemma yields_flag_ : yields flag_ (fun _ => True).
Proof. eapply yields_bind; [by apply yields_field_|]. intros. by apply yields_ret. Qed.
Lemma yields_when {A} b (m : Dec A) (P : A -> Prop) : yields m P -> yields (dwhen b m) (fun o => forall a, o = Some a -> P a).
Proof.
  intros Hm. unfold dwhen. destruct b; [|by apply yields_ret]. eapply yields_bind; [exact Hm|]. intros a Ha. apply yields_ret. by intros ? [= <-].
Qed.
Lemma yields_repeat {A} n (m : Dec A) (P : A -> Prop) : yields m P -> yields (drepeat n m) (fun l => length l = n /\ Forall P l).
Proof.
  intros Hm. induction n as [|n IH]; cbn [drepeat]; [by apply yields_ret|]. eapply yields_bind; [exact Hm|]. intros a Ha.
  eapply yields_bind; [exact IH|]. intros l [Hl HP]. apply yields_ret. split; [simpl; lia|by constructor].
Qed.

Lemma run_dec_yields {A} (m : Dec A) (P : A -> Prop) buffer a : Forall is_byte buffer -> yields m P -> run_dec m buffer = Some a -> P a.
Proof.
  intros Hb Hm E. destruct (Hm _ _ (new_decoder_decodes buffer Hb)) as [H _]. unfold run_dec in E. destruct (m _) as [[?|] ?]; simpl in E; by simplify_eq.
Qed.

(** ** Octets read *)

Lemma decodes_aligned d bs : decodes d bs -> zlen bs mod 8 = 0 -> bd_offset d = 0 /\ bytes_bits (bd_rest d) = bs.
Proof.
  intros (H1 & H2 & H3 & H4) Ha. pose proof (zlen_nonneg (bd_rest d)). assert (bd_offset d = 0) as E.
  { destruct (decide (bd_rest d = [])) as [En|Hn]; [by apply H3|]. assert (0 < zlen (bd_rest d)).
    { destruct (bd_rest d); [done|]. rewrite zlen_cons in *. pose proof (zlen_nonneg l). lia. }
    rewrite H4, zlen_drop, zlen_bytes_bits, Z.max_r in Ha by lia. zmod. }
  split; [done|]. by rewrite H4, E.
Qed.

Lemma unpack_aligned_spec n l bytes d :
  Forall is_byte l -> Forall is_byte bytes -> zlen l = n -> decodes d (bytes_bits (l ++ bytes)) ->
  exists d', unpack_aligned_bytes n d = (l, d') /\ decodes d' (bytes_bits bytes) /\ bd_offset d' = 0 /\ bd_rest d' = bytes.
Proof.
  intros Hl Hb En Hd. assert (zlen (bytes_bits (l ++ bytes)) mod 8 = 0) as Ha by (rewrite zlen_bytes_bits; zmod).
  destruct (decodes_aligned _ _ Hd Ha) as [Eo Er]. apply bytes_bits_inj in Er; [|apply Hd|by apply Forall_app].
  unfold unpack_aligned_bytes, align_bytes. rewrite Eo. cbn [Z.eqb]. pose proof (zlen_nonneg bytes). destruct (Z.eqb_spec n 0) as [E0|].
  - exists d. rewrite E0 in En. apply zlen_zero_nil in En as ->. done.
  - rewrite Er, zlen_app, (proj2 (Z.ltb_ge _ _)), take_app_zlen, drop_app_zlen by (done || lia).
    eexists. split; [reflexivity|]. split; [by apply new_decoder_decodes|done].
Qed.

Lemma unpack_aligned_any n d bs : 0 <= n -> decodes d bs ->
  exists l d' bs', unpack_aligned_bytes n d = (l, d') /\ Forall is_byte l /\ (l = [] \/ zlen l = n) /\ decodes d' bs' /\ zlen bs' <= zlen bs.
Proof.
  intros Hn Hd. assert (exists bs1, decodes (align_bytes d) bs1 /\ zlen bs1 <= zlen bs) as (bs1 & Hd1 & Hl1).
  { unfold align_bytes. destruct (Z.eqb_spec (bd_offset d) 0); [by exists bs|]. destruct Hd as (H1 & H2 & H3 & H4). eexists.
    split; [apply new_decoder_decodes; by apply list.Forall_tail|]. rewrite H4, zlen_drop, !zlen_bytes_bits by lia.
    destruct (bd_rest d) as [|b r]; [by specialize (H3 eq_refl)|]. simpl tl. rewrite zlen_cons. pose proof (zlen_nonneg r). lia. }
  unfold unpack_aligned_bytes. assert (bd_offset (align_bytes d) = 0) as E0 by (unfold align_bytes; by destruct (Z.eqb_spec (bd_offset d) 0)).
  destruct (n =? 0); [exists [], (align_bytes d), bs1; do 3 (split; [by auto|]); done|].
  destruct (Z.ltb_spec (zlen (bd_rest (align_bytes d))) n); [exists [], (align_bytes d), bs1; do 3 (split; [by auto|]); done|].
  destruct Hd1 as (H1 & H2 & H3 & H4). rewrite E0 in H4. do 3 eexists. split; [reflexivity|]. split; [by apply Forall_take|]. split; [right; rewrite zlen_take by lia; lia|].
  split; [apply new_decoder_decodes; by apply Forall_drop|]. rewrite H4 in Hl1. change (drop (Z.to_nat 0) ?l) with l in Hl1.
  rewrite zlen_bytes_bits in *. rewrite zlen_drop by lia. pose proof (zlen_nonneg (bd_rest (align_bytes d))). lia.
Qed.
