(* ===== verification/NruPacking.v ===== *)
(** * Messages and frames of the NR user plane protocol and of the PDU session user plane protocol

    Models [include/srsran/nru/nru_message.h], [include/srsran/nru/nru_packing.h] and
    [lib/nru/nru_packing.cpp]: DL USER DATA (PDU type 0) and DL DATA DELIVERY STATUS (PDU type 1) are
    packed bit by bit into a container whose length is 2 modulo 4, and unpacked from one.  What is
    packed is unpacked again; what any octets unpack to has its fields in range. *)

From S2P Require Import Prelude BitEncoding BitFields.
Open Scope Z_scope.
Open Scope decode_scope.

Module Nru.

(** ** Messages *)

Definition nru_max_nof_pdcp_sn_discard_blocks : Z := 16.
Definition nru_max_nof_lost_nru_sn_ranges : Z := 2.

Record nru_pdcp_sn_discard_block := mk_block { pdcp_sn_start : Z; block_size : Z }.
Record nru_lost_nru_sn_range := mk_range { nru_sn_start : Z; nru_sn_end : Z }.

Record nru_dl_user_data := mk_dl_user_data {
  report_polling : bool;
  request_out_of_seq_report : bool;
  report_delivered : bool;
  user_data_existence_flag : bool;
  assist_info_report_polling_flag : bool;
  retransmission_flag : bool;
  nru_sn : Z;
  dl_discard_pdcp_sn : option Z;
  discard_blocks : option (list nru_pdcp_sn_discard_block);
  dl_report_pdcp_sn : Z
}.
Definition dl_user_data_default : nru_dl_user_data := mk_dl_user_data false false false false false false 0 None None 0.

Record nru_dl_data_delivery_status := mk_status {
  final_frame_ind : bool;
  desired_buffer_size_for_drb : Z;
  desired_data_rate : option Z;
  lost_nru_sn_ranges : option (list nru_lost_nru_sn_range);
  highest_delivered_pdcp_sn : option Z;
  highest_transmitted_pdcp_sn : option Z;
  cause_value : option Z;
  highest_delivered_retransmitted_pdcp_sn : option Z;
  highest_retransmitted_pdcp_sn : option Z
}.
Definition status_default : nru_dl_data_delivery_status := mk_status false 0 None None None None None None None.

(** DL and UL messages; of the assistance information nothing is implemented. *)
Record nru_dl_message := mk_dl_message { dl_t_pdu : list Z; dl_user_data : nru_dl_user_data }.
Record nru_ul_message := mk_ul_message { ul_t_pdu : option (list Z); data_delivery_status : option nru_dl_data_delivery_status }.

(** PDU types; a cast keeps the reserved values as they are. *)
Definition nru_pdu_type := Z.
Definition pdu_type_dl_user_data : nru_pdu_type := 0.
Definition pdu_type_dl_data_delivery_status : nru_pdu_type := 1.
Definition uint_to_nru_pdu_type (num : Z) : nru_pdu_type := num.

(** [None]: an empty container fails an assertion. *)
Definition get_pdu_type (container : list Z) : option nru_pdu_type :=
  match container with [] => None | b :: _ => Some (uint_to_nru_pdu_type (Z.shiftr b 4)) end.

(** Length check at the start of both functions that unpack. *)
Definition container_ok (container : list Z) : bool := negb (zlen container =? 0) && ((zlen container + 2) mod 4 =? 0).

(** ** DL user data *)

Definition unpack_discard_block : Dec nru_pdcp_sn_discard_block :=
  let? start := field 32 24 in let? size := field 8 8 in dret (mk_block start size).
Definition unpack_discard_blocks : Dec (list nru_pdcp_sn_discard_block) :=
  let? nof_discard_blocks := field 8 8 in
  if nru_max_nof_pdcp_sn_discard_blocks <? nof_discard_blocks then dfail
  else drepeat (Z.to_nat nof_discard_blocks) unpack_discard_block.

(** What is absent keeps the value it has in the message [d0] that is filled. *)
Definition keep {A} (o : option A) (a : A) : A := match o with Some v => v | None => a end.
Definition keep_opt {A} (o o0 : option A) : option A := match o with Some v => Some v | None => o0 end.

Definition unpack_dl_user_data_bits (d0 : nru_dl_user_data) : Dec nru_dl_user_data :=
  let? pdu_type := field 8 4 in
  if negb (uint_to_nru_pdu_type pdu_type =? pdu_type_dl_user_data) then dfail else
  let? spare := field 8 1 in
  if negb (spare =? 0) then dfail else
  let? dl_discard_blocks := flag in
  let? dl_flush := flag in
  let? polling := flag in
  let? spare := field 8 3 in
  if negb (spare =? 0) then dfail else
  let? out_of_seq := flag_ in
  let? delivered := flag_ in
  let? existence := flag_ in
  let? assist := flag_ in
  let? retransmission := flag in
  let? sn := field 32 24 in
  let? discard_sn := dwhen dl_flush (field 32 24) in
  let? blocks := dwhen dl_discard_blocks unpack_discard_blocks in
  let? report_sn := dwhen delivered (field 32 24) in
  dret (mk_dl_user_data polling out_of_seq delivered existence assist retransmission sn
          (keep_opt discard_sn (dl_discard_pdcp_sn d0)) (keep_opt blocks (discard_blocks d0)) (keep report_sn (dl_report_pdcp_sn d0))).

(** [unpack]: [None] is the answer false. *)
Definition unpack_dl_user_data (d0 : nru_dl_user_data) (container : list Z) : option nru_dl_user_data :=
  if container_ok container then run_dec (unpack_dl_user_data_bits d0) container else None.

Definition has_discard_blocks (d : nru_dl_user_data) : bool :=
  match discard_blocks d with Some (_ :: _) => true | _ => false end.
Definition discard_block_fields (b : nru_pdcp_sn_discard_block) : list (Z * Z) := [(24, pdcp_sn_start b); (8, block_size b)].

(** The calls [encoder.pack(value, width)] in their order, as pairs of width and value. *)
Definition dl_user_data_fields (d : nru_dl_user_data) : list (Z * Z) :=
  [(4, pdu_type_dl_user_data); (1, 0); (1, b2z (has_discard_blocks d)); (1, b2z (present (dl_discard_pdcp_sn d)));
   (1, b2z (report_polling d)); (3, 0); (1, b2z (request_out_of_seq_report d)); (1, b2z (report_delivered d));
   (1, b2z (user_data_existence_flag d)); (1, b2z (assist_info_report_polling_flag d)); (1, b2z (retransmission_flag d)); (24, nru_sn d)] ++
  opt_field 24 (dl_discard_pdcp_sn d) ++
  (if has_discard_blocks d then let blocks := default [] (discard_blocks d) in (8, zlen blocks) :: (blocks ≫= discard_block_fields) else []) ++
  (if report_delivered d then [(24, dl_report_pdcp_sn d)] else []).

(** [while ((len + 2) % 4) append(0)]; three turns are enough. *)
Fixpoint pad (fuel : nat) (start_len : Z) (out_buf : list Z) : list Z :=
  if (zlen out_buf - start_len + 2) mod 4 =? 0 then out_buf else
  match fuel with O => out_buf | S fuel' => pad fuel' start_len (out_buf ++ [0]) end.

Definition pack_dl_user_data (out_buf : list Z) (d : nru_dl_user_data) : list Z :=
  pad 3 (zlen out_buf) (be_bytes (pack_all (dl_user_data_fields d) (mk_encoder out_buf 0))).

(** ** DL data delivery status *)

Definition unpack_lost_range : Dec nru_lost_nru_sn_range :=
  let? first := field 32 24 in let? last := field 32 24 in dret (mk_range first last).
Definition unpack_lost_ranges : Dec (list nru_lost_nru_sn_range) :=
  let? nof_lost_sn_ranges := field 8 8 in
  if nru_max_nof_lost_nru_sn_ranges <? nof_lost_sn_ranges then dfail
  else drepeat (Z.to_nat nof_lost_sn_ranges) unpack_lost_range.

Definition unpack_status_bits (s0 : nru_dl_data_delivery_status) : Dec nru_dl_data_delivery_status :=
  let? pdu_type := field 8 4 in
  if negb (uint_to_nru_pdu_type pdu_type =? pdu_type_dl_data_delivery_status) then dfail else
  let? transmitted_ind := flag in
  let? delivered_ind := flag in
  let? final := flag in
  let? lost_packet_report := flag in
  let? spare := field 8 4 in
  if negb (spare =? 0) then dfail else
  let? data_rate_ind := flag in
  let? retransmitted_ind := flag in
  let? delivered_retransmitted_ind := flag in
  let? cause_report := flag in
  let? buffer_size := field 32 32 in
  let? data_rate := dwhen data_rate_ind (field 32 32) in
  let? ranges := dwhen lost_packet_report unpack_lost_ranges in
  let? delivered := dwhen delivered_ind (field 32 24) in
  let? transmitted := dwhen transmitted_ind (field 32 24) in
  let? cause := dwhen cause_report (field 32 8) in
  let? delivered_retransmitted := dwhen delivered_retransmitted_ind (field 32 24) in
  let? retransmitted := dwhen retransmitted_ind (field 32 24) in
  dret (mk_status final buffer_size (keep_opt data_rate (desired_data_rate s0)) (keep_opt ranges (lost_nru_sn_ranges s0))
          (keep_opt delivered (highest_delivered_pdcp_sn s0)) (keep_opt transmitted (highest_transmitted_pdcp_sn s0))
          (keep_opt cause (cause_value s0)) (keep_opt delivered_retransmitted (highest_delivered_retransmitted_pdcp_sn s0))
          (keep_opt retransmitted (highest_retransmitted_pdcp_sn s0))).

Definition unpack_status (s0 : nru_dl_data_delivery_status) (container : list Z) : option nru_dl_data_delivery_status :=
  if container_ok container then run_dec (unpack_status_bits s0) container else None.

Definition lost_range_fields (r : nru_lost_nru_sn_range) : list (Z * Z) := [(24, nru_sn_start r); (24, nru_sn_end r)].

Definition status_fields (s : nru_dl_data_delivery_status) : list (Z * Z) :=
  [(4, pdu_type_dl_data_delivery_status); (1, b2z (present (highest_transmitted_pdcp_sn s))); (1, b2z (present (highest_delivered_pdcp_sn s)));
   (1, b2z (final_frame_ind s)); (1, b2z (present (lost_nru_sn_ranges s))); (4, 0); (1, b2z (present (desired_data_rate s)));
   (1, b2z (present (highest_retransmitted_pdcp_sn s))); (1, b2z (present (highest_delivered_retransmitted_pdcp_sn s)));
   (1, b2z (present (cause_value s))); (32, desired_buffer_size_for_drb s)] ++
  opt_field 32 (desired_data_rate s) ++
  (match lost_nru_sn_ranges s with Some ranges => (8, zlen ranges) :: (ranges ≫= lost_range_fields) | None => [] end) ++
  opt_field 24 (highest_delivered_pdcp_sn s) ++
  opt_field 24 (highest_transmitted_pdcp_sn s) ++
  opt_field 8 (cause_value s) ++
  opt_field 24 (highest_delivered_retransmitted_pdcp_sn s) ++
  opt_field 24 (highest_retransmitted_pdcp_sn s).

Definition pack_status (out_buf : list Z) (s : nru_dl_data_delivery_status) : list Z :=
  pad 3 (zlen out_buf) (be_bytes (pack_all (status_fields s) (mk_encoder out_buf 0))).

End Nru.

(** ** Fields in range *)

Import Nru.

Definition uint (n v : Z) : Prop := 0 <= v < 2 ^ n.
Definition opt_uint (n : Z) (o : option Z) : Prop := forall v, o = Some v -> uint n v.

Definition block_ok (b : nru_pdcp_sn_discard_block) : Prop := uint 24 (pdcp_sn_start b) /\ uint 8 (block_size b).
Record dl_user_data_ok (d : nru_dl_user_data) : Prop := {
  du_sn : uint 24 (nru_sn d);
  du_discard : opt_uint 24 (dl_discard_pdcp_sn d);
  du_blocks : forall l, discard_blocks d = Some l -> Forall block_ok l /\ zlen l <= nru_max_nof_pdcp_sn_discard_blocks;
  du_report : uint 24 (dl_report_pdcp_sn d)
}.

Definition lost_range_ok (r : nru_lost_nru_sn_range) : Prop := uint 24 (nru_sn_start r) /\ uint 24 (nru_sn_end r).
Record status_ok (s : nru_dl_data_delivery_status) : Prop := {
  st_buffer : uint 32 (desired_buffer_size_for_drb s);
  st_rate : opt_uint 32 (desired_data_rate s);
  st_lost : forall l, lost_nru_sn_ranges s = Some l -> Forall lost_range_ok l /\ zlen l <= nru_max_nof_lost_nru_sn_ranges;
  st_delivered : opt_uint 24 (highest_delivered_pdcp_sn s);
  st_transmitted : opt_uint 24 (highest_transmitted_pdcp_sn s);
  st_cause : opt_uint 8 (cause_value s);
  st_delivered_retx : opt_uint 24 (highest_delivered_retransmitted_pdcp_sn s);
  st_retx : opt_uint 24 (highest_retransmitted_pdcp_sn s)
}.

(** What a frame carries of a message: no empty list of blocks, and a report SN only when it is asked for. *)
Definition dl_user_data_sent (d : nru_dl_user_data) : nru_dl_user_data :=
  mk_dl_user_data (report_polling d) (request_out_of_seq_report d) (report_delivered d) (user_data_existence_flag d)
    (assist_info_report_polling_flag d) (retransmission_flag d) (nru_sn d) (dl_discard_pdcp_sn d)
    (if has_discard_blocks d then discard_blocks d else None) (if report_delivered d then dl_report_pdcp_sn d else 0).

(** ** Containers *)

Lemma pad_aligned out_buf start_len : start_len <= zlen out_buf ->
  exists k, (k <= 3)%nat /\ pad 3 start_len out_buf = out_buf ++ repeat 0 k /\ (zlen (pad 3 start_len out_buf) - start_len + 2) mod 4 = 0.
Proof.
  intros Hs. assert (forall n b, Z.of_nat n + (zlen b - start_len + 2 - 1) mod 4 >= 3 -> start_len <= zlen b ->
    exists k, (k <= n)%nat /\ pad n start_len b = b ++ repeat 0 k /\ (zlen (pad n start_len b) - start_len + 2) mod 4 = 0) as G.
  { clear out_buf Hs. induction n as [|n IH]; intros b Hn Hb; simpl; destruct (Z.eqb_spec ((zlen b - start_len + 2) mod 4) 0) as [E|E];
      try (exists 0%nat; split; [lia|]; split; [by rewrite app_nil_r|done]); [exfalso; zmod|].
    destruct (IH (b ++ [0])) as (k & Hk & Ek & Hm); [rewrite zlen_app; change (zlen [0]) with 1; zmod|rewrite zlen_app; change (zlen [0]) with 1; lia|].
    exists (S k). split; [lia|]. split; [|done]. rewrite Ek. simpl. by rewrite <- app_assoc. }
  apply G; [zmod|done].
Qed.

(** Fields that fill whole octets, padded: a container. *)
Lemma pack_container w fields : w <= 64 -> Forall (field_ok w) fields -> zlen (fields_bits fields) mod 8 = 0 -> 8 <= zlen (fields_bits fields) ->
  let c := pad 3 (zlen (@nil Z)) (be_bytes (pack_all fields (mk_encoder [] 0))) in
  Forall is_byte c /\ container_ok c = true /\ 8 * zlen c <= zlen (fields_bits fields) + 24 /\
  exists k, bytes_bits c = fields_bits fields ++ bytes_bits (repeat 0 k).
Proof.
  intros Hw Hf Ha Hpos c. pose proof (pack_all_encodes w fields Hw new_encoder [] Hf new_encoder_encodes) as He. cbn [app] in He.
  pose proof (encodes_aligned _ _ He Ha) as Hb. change new_encoder with (mk_encoder [] 0) in *. set (b := be_bytes _) in *.
  assert (Forall is_byte b) as Hbytes by apply He. pose proof (f_equal zlen Hb) as Hl. rewrite zlen_bytes_bits in Hl.
  destruct (pad_aligned b 0 (zlen_nonneg b)) as (k & Hk & Ek & Hm). change (zlen (@nil Z)) with 0 in c. fold c in Ek, Hm.
  assert (zlen (repeat 0 k) = Z.of_nat k) as Er by (unfold zlen; by rewrite repeat_length).
  split; [rewrite Ek; apply Forall_app; split; [done|apply Forall_forall; intros x Hx%list_elem_of_In%repeat_spec; subst x; split; lia]|].
  assert (zlen c = zlen b + Z.of_nat k) as Ec by (rewrite Ek, zlen_app; lia).
  split; [unfold container_ok; rewrite (proj2 (Z.eqb_neq (zlen c) 0)) by lia; rewrite Z.sub_0_r in Hm; by rewrite Hm|].
  split; [lia|]. exists k. by rewrite Ek, bytes_bits_app, Hb.
Qed.

Lemma field_ok_uint w n v : 0 <= n <= w -> uint n v -> field_ok w (n, v).
Proof. by split. Qed.
Lemma field_ok_b2z w b : 1 <= w -> field_ok w (1, b2z b).
Proof. intros. split; destruct b; simpl; lia. Qed.

Ltac fields_ok :=
  repeat lazymatch goal with
  | |- Forall _ (_ ++ _) => apply Forall_app; split
  | |- Forall _ (_ :: _) => apply Forall_cons; split
  | |- Forall _ [] => apply Forall_nil; exact I
  | |- Forall _ (opt_field _ _) => apply opt_field_ok; [lia|assumption]
  | |- field_ok _ (1, b2z _) => apply field_ok_b2z; lia
  | |- field_ok _ (_, _) => first [apply field_ok_uint; [lia|assumption] | split; unfold pdu_type_dl_user_data, pdu_type_dl_data_delivery_status; simpl; lia]
  end.

Lemma Forall_bind_fields {A} (f : A -> list (Z * Z)) (P : A -> Prop) w l :
  (forall a, P a -> Forall (field_ok w) (f a)) -> Forall P l -> Forall (field_ok w) (l ≫= f).
Proof. intros Hf. induction 1; [constructor|]. apply Forall_app. auto. Qed.

Lemma zlen_opt_field n o : 0 <= n -> zlen (fields_bits (opt_field n o)) = if present o then n else 0.
Proof. intros. destruct o as [v|]; [|done]. cbn [opt_field present]. rewrite fields_bits_cons, zlen_app, zlen_value_bits by done. change (zlen (fields_bits [])) with 0. lia. Qed.

Lemma zlen_bind_fields {A} (f : A -> list (Z * Z)) n l : (forall a, zlen (fields_bits (f a)) = n) -> zlen (fields_bits (l ≫= f)) = n * zlen l.
Proof.
  intros Hf. induction l as [|a l IH]; [simpl; change (zlen (fields_bits [])) with 0; unfold zlen; simpl; lia|].
  change ((a :: l) ≫= f) with (f a ++ (l ≫= f)). rewrite fields_bits_app, zlen_app, Hf, IH, zlen_cons. lia.
Qed.

Lemma fields_bits_bind {A} (f : A -> list (Z * Z)) l : fields_bits (l ≫= f) = l ≫= (fun a => fields_bits (f a)).
Proof. induction l as [|a l IH]; [done|]. change ((a :: l) ≫= f) with (f a ++ (l ≫= f)). rewrite fields_bits_app, IH. done. Qed.

Lemma zlen_block b : zlen (fields_bits (discard_block_fields b)) = 32.
Proof. unfold discard_block_fields. rewrite !fields_bits_cons, !zlen_app, !zlen_value_bits by lia. done. Qed.
Lemma zlen_range b : zlen (fields_bits (lost_range_fields b)) = 48.
Proof. unfold lost_range_fields. rewrite !fields_bits_cons, !zlen_app, !zlen_value_bits by lia. done. Qed.

(** A list with its length in front of it. *)
Lemma reads_counted {A} (item : Dec A) (fields : A -> list (Z * Z)) (P : A -> Prop) max l rest :
  (forall a rest, P a -> reads item (fields_bits (fields a) ++ rest) a rest) -> Forall P l -> zlen l <= max -> max < 256 ->
  reads (let? n := field 8 8 in if max <? n then dfail else drepeat (Z.to_nat n) item) (fields_bits ((8, zlen l) :: (l ≫= fields)) ++ rest) l rest.
Proof.
  intros Hi HP Hl Hm. rewrite fields_bits_cons, <- app_assoc. pose proof (zlen_nonneg l). eapply reads_bind; [apply reads_field; [lia|change (2 ^ 8) with 256; lia]|].
  cbv beta. rewrite (proj2 (Z.ltb_ge _ _)) by lia. unfold zlen. rewrite Nat2Z.id, fields_bits_bind.
  apply (reads_repeat item (fun a => fields_bits (fields a))). intros a r Ha. apply Hi. rewrite Forall_forall in HP. by apply HP.
Qed.

Lemma reads_block b rest : block_ok b -> reads unpack_discard_block (fields_bits (discard_block_fields b) ++ rest) b rest.
Proof.
  intros [H1 H2]. unfold discard_block_fields. rewrite !fields_bits_cons, fields_bits_nil, app_nil_r, <- app_assoc. unfold unpack_discard_block.
  eapply reads_bind; [apply reads_field; [lia|exact H1]|]. eapply reads_bind; [apply reads_field; [lia|exact H2]|]. destruct b. apply reads_ret.
Qed.
Lemma reads_range r rest : lost_range_ok r -> reads unpack_lost_range (fields_bits (lost_range_fields r) ++ rest) r rest.
Proof.
  intros [H1 H2]. unfold lost_range_fields. rewrite !fields_bits_cons, fields_bits_nil, app_nil_r, <- app_assoc. unfold unpack_lost_range.
  eapply reads_bind; [apply reads_field; [lia|exact H1]|]. eapply reads_bind; [apply reads_field; [lia|exact H2]|]. destruct r. apply reads_ret.
Qed.

(** ** DL user data: packed and unpacked *)

Lemma dl_user_data_fields_ok d : dl_user_data_ok d -> Forall (field_ok 64) (dl_user_data_fields d).
Proof.
  intros [H1 H2 H3 H4]. unfold dl_user_data_fields, has_discard_blocks. fields_ok.
  - destruct (discard_blocks d) as [[|b l]|]; [constructor| |constructor]. destruct (H3 _ eq_refl) as [Hl Hn]. cbv zeta. change (default [] (Some (b :: l))) with (b :: l).
    apply Forall_cons. split; [|apply (Forall_bind_fields _ block_ok); [intros a [Ha1 Ha2]; unfold discard_block_fields; fields_ok|done]].
    apply field_ok_uint; [lia|]. split; [apply zlen_nonneg|]. change (2 ^ 8) with 256. unfold nru_max_nof_pdcp_sn_discard_blocks in Hn. lia.
  - destruct (report_delivered d); fields_ok.
Qed.

Lemma zlen_dl_user_data d : dl_user_data_ok d ->
  zlen (fields_bits (dl_user_data_fields d)) mod 8 = 0 /\ 40 <= zlen (fields_bits (dl_user_data_fields d)) <= 616.
Proof.
  intros [_ _ H3 _]. unfold dl_user_data_fields, has_discard_blocks.
  rewrite !fields_bits_app, !zlen_app, zlen_opt_field, !fields_bits_cons, !zlen_app, !zlen_value_bits by lia. change (zlen (fields_bits [])) with 0.
  assert (exists k, zlen (fields_bits (if match discard_blocks d with Some (_ :: _) => true | _ => false end
    then (8, zlen (default [] (discard_blocks d))) :: (default [] (discard_blocks d) ≫= discard_block_fields) else [])) = 8 * k /\ 0 <= k <= 65) as (k & -> & Hk).
  { destruct (discard_blocks d) as [[|b l]|] eqn:E; try (exists 0; split; [done|lia]). destruct (H3 _ eq_refl) as [_ Hn]. change (default [] (Some (b :: l))) with (b :: l).
    rewrite fields_bits_cons, zlen_app, zlen_value_bits, (zlen_bind_fields _ 32) by (lia || apply zlen_block).
    unfold nru_max_nof_pdcp_sn_discard_blocks in Hn. exists (1 + 4 * zlen (b :: l)). pose proof (zlen_nonneg (b :: l)). lia. }
  assert (exists r, zlen (fields_bits (if report_delivered d then [(24, dl_report_pdcp_sn d)] else [])) = 8 * r /\ 0 <= r <= 3) as (r & -> & Hr).
  { destruct (report_delivered d); [|exists 0; split; [done|lia]]. rewrite fields_bits_cons, zlen_app, zlen_value_bits by lia. exists 3. split; [done|lia]. }
  destruct (present (dl_discard_pdcp_sn d)); split; try lia; zmod.
Qed.

Lemma reads_dl_user_data d rest : dl_user_data_ok d ->
  reads (unpack_dl_user_data_bits dl_user_data_default) (fields_bits (dl_user_data_fields d) ++ rest) (dl_user_data_sent d) rest.
Proof.
  intros [H1 H2 H3 H4]. unfold dl_user_data_fields, unpack_dl_user_data_bits. rewrite !fields_bits_app, !fields_bits_cons, fields_bits_nil, <- !app_assoc. cbn [app].
  do 14 read_step. eapply reads_bind; [apply reads_field; [lia|exact H1]|]. cbv beta.
  eapply reads_bind; [apply reads_opt_field; [lia|exact H2]|]. cbv beta.
  eapply (reads_bind _ _ _ (if has_discard_blocks d then discard_blocks d else None)).
  { unfold has_discard_blocks. destruct (discard_blocks d) as [[|b l]|]; try by apply reads_when_none. destruct (H3 _ eq_refl) as [Hl Hn]. cbv zeta. change (default [] (Some (b :: l))) with (b :: l).
    apply reads_when_some; [done|]. unfold unpack_discard_blocks. apply (reads_counted _ _ block_ok); [intros; by apply reads_block|done|done|done]. }
  eapply (reads_bind _ _ _ (if report_delivered d then Some (dl_report_pdcp_sn d) else None)).
  { destruct (report_delivered d); [|by apply reads_when_none]. rewrite fields_bits_cons, fields_bits_nil, app_nil_r. apply reads_when_some; [done|]. by apply reads_field. }
  unfold dl_user_data_sent. replace (keep_opt (dl_discard_pdcp_sn d) _) with (dl_discard_pdcp_sn d) by (by destruct (dl_discard_pdcp_sn d)).
  replace (keep_opt (if has_discard_blocks d then discard_blocks d else None) _) with (if has_discard_blocks d then discard_blocks d else None)
    by (destruct (has_discard_blocks d); [by destruct (discard_blocks d)|done]).
  destruct (report_delivered d); apply reads_ret.
Qed.

Lemma dl_user_data_packed d : dl_user_data_ok d ->
  let c := pack_dl_user_data [] d in
  Forall is_byte c /\ container_ok c = true /\ zlen c <= 80 /\ unpack_dl_user_data dl_user_data_default c = Some (dl_user_data_sent d).
Proof.
  intros Hd c. pose proof (zlen_dl_user_data d Hd) as [Ha Hn].
  destruct (pack_container 64 (dl_user_data_fields d)) as (Hb & Hc & Hl & k & Hbits); [done|by apply dl_user_data_fields_ok|done|lia|]. change (pad 3 _ _) with c in Hb, Hc, Hl, Hbits.
  split; [done|]. split; [done|]. split; [lia|]. unfold unpack_dl_user_data. rewrite Hc. eapply run_dec_reads; [done|]. rewrite Hbits. by apply reads_dl_user_data.
Qed.

(** ** DL data delivery status: packed and unpacked *)

Lemma status_fields_ok s : status_ok s -> Forall (field_ok 64) (status_fields s).
Proof.
  intros [H1 H2 H3 H4 H5 H6 H7 H8]. unfold status_fields. fields_ok.
  destruct (lost_nru_sn_ranges s) as [l|]; [|constructor]. destruct (H3 _ eq_refl) as [Hl Hn].
  apply Forall_cons. split; [|apply (Forall_bind_fields _ lost_range_ok); [intros a [Ha1 Ha2]; unfold lost_range_fields; fields_ok|done]].
  apply field_ok_uint; [lia|]. split; [apply zlen_nonneg|]. change (2 ^ 8) with 256. unfold nru_max_nof_lost_nru_sn_ranges in Hn. lia.
Qed.

Lemma zlen_status s : status_ok s ->
  zlen (fields_bits (status_fields s)) mod 8 = 0 /\ 48 <= zlen (fields_bits (status_fields s)) <= 616.
Proof.
  intros [_ _ H3 _ _ _ _ _]. unfold status_fields.
  rewrite !fields_bits_app, !zlen_app, !zlen_opt_field, !fields_bits_cons, !zlen_app, !zlen_value_bits by lia. change (zlen (fields_bits [])) with 0.
  assert (exists k, zlen (fields_bits (match lost_nru_sn_ranges s with Some ranges => (8, zlen ranges) :: (ranges ≫= lost_range_fields) | None => [] end)) = 8 * k /\ 0 <= k <= 13) as (k & -> & Hk).
  { destruct (lost_nru_sn_ranges s) as [l|] eqn:E; [|exists 0; split; [done|lia]]. destruct (H3 _ eq_refl) as [_ Hn].
    rewrite fields_bits_cons, zlen_app, zlen_value_bits, (zlen_bind_fields _ 48) by (lia || apply zlen_range).
    unfold nru_max_nof_lost_nru_sn_ranges in Hn. exists (1 + 6 * zlen l). pose proof (zlen_nonneg l). lia. }
  repeat match goal with |- context [present ?o] => destruct (present o) end; split; try lia; zmod.
Qed.

Lemma keep_opt_none {A} (o : option A) : keep_opt o None = o.
Proof. by destruct o. Qed.

Lemma reads_status s rest : status_ok s ->
  reads (unpack_status_bits status_default) (fields_bits (status_fields s) ++ rest) s rest.
Proof.
  intros [H1 H2 H3 H4 H5 H6 H7 H8]. unfold status_fields, unpack_status_bits. rewrite !fields_bits_app, !fields_bits_cons, fields_bits_nil, <- !app_assoc. cbn [app].
  do 12 read_step. eapply reads_bind; [apply reads_field; [lia|exact H1]|]. cbv beta.
  eapply reads_bind; [apply reads_opt_field; [lia|exact H2]|]. cbv beta.
  eapply (reads_bind _ _ _ (lost_nru_sn_ranges s)).
  { destruct (lost_nru_sn_ranges s) as [l|]; [|by apply reads_when_none]. destruct (H3 _ eq_refl) as [Hl Hn].
    apply reads_when_some; [done|]. apply (reads_counted _ _ lost_range_ok); [intros; by apply reads_range|done|done|done]. }
  do 5 (eapply reads_bind; [apply reads_opt_field; [lia|eassumption]|]; cbv beta).
  destruct s. cbn [status_default desired_data_rate lost_nru_sn_ranges highest_delivered_pdcp_sn highest_transmitted_pdcp_sn cause_value
    highest_delivered_retransmitted_pdcp_sn highest_retransmitted_pdcp_sn]. rewrite !keep_opt_none. apply reads_ret.
Qed.

Lemma status_packed s : status_ok s ->
  let c := pack_status [] s in
  Forall is_byte c /\ container_ok c = true /\ zlen c <= 80 /\ unpack_status status_default c = Some s.
Proof.
  intros Hs c. pose proof (zlen_status s Hs) as [Ha Hn].
  destruct (pack_container 64 (status_fields s)) as (Hb & Hc & Hl & k & Hbits); [done|by apply status_fields_ok|done|lia|]. change (pad 3 _ _) with c in Hb, Hc, Hl, Hbits.
  split; [done|]. split; [done|]. split; [lia|]. unfold unpack_status. rewrite Hc. eapply run_dec_reads; [done|]. rewrite Hbits. by apply reads_status.
Qed.

(** ** What any octets unpack to *)

Lemma yields_counted {A} (item : Dec A) (P : A -> Prop) max : yields item P -> 0 <= max ->
  yields (let? n := field 8 8 in if max <? n then dfail else drepeat (Z.to_nat n) item) (fun l => Forall P l /\ zlen l <= max).
Proof.
  intros Hi Hm. eapply yields_bind; [by apply yields_field|]. intros n Hn. cbv beta. destruct (Z.ltb_spec max n); [apply yields_fail|].
  eapply yields_mono; [apply yields_repeat, Hi|]. intros l [Hl HP]. split; [done|]. unfold zlen. lia.
Qed.

Lemma yields_block : yields unpack_discard_block block_ok.
Proof. eapply yields_bind; [by apply yields_field|]. intros a Ha. eapply yields_bind; [by apply yields_field|]. intros b Hb. by apply yields_ret. Qed.
Lemma yields_range : yields unpack_lost_range lost_range_ok.
Proof. eapply yields_bind; [by apply yields_field|]. intros a Ha. eapply yields_bind; [by apply yields_field|]. intros b Hb. by apply yields_ret. Qed.

Ltac yield_step :=
  lazymatch goal with
  | |- yields (dbind flag _) _ => eapply yields_bind; [apply yields_flag|intros ? _]
  | |- yields (dbind flag_ _) _ => eapply yields_bind; [apply yields_flag_|intros ? _]
  | |- yields (dbind (field _ _) _) _ => eapply yields_bind; [apply yields_field; lia|intros ? ?]
  | |- yields (dbind (dwhen _ _) _) _ => eapply yields_bind; [apply yields_when; first [apply yields_field; lia|eassumption]|intros ? ?]
  | |- yields (if ?b then _ else _) _ => destruct b; [apply yields_fail|]
  end; cbv beta.

Lemma unpack_dl_user_data_ok c d : Forall is_byte c -> unpack_dl_user_data dl_user_data_default c = Some d -> dl_user_data_ok d.
Proof.
  intros Hc. unfold unpack_dl_user_data. destruct (container_ok c); [|done]. apply run_dec_yields; [done|]. unfold unpack_dl_user_data_bits.
  pose proof (yields_counted _ _ nru_max_nof_pdcp_sn_discard_blocks yields_block ltac:(done)) as Hbl.
  repeat yield_step. apply yields_ret. cbn [dl_user_data_default dl_discard_pdcp_sn discard_blocks dl_report_pdcp_sn]. rewrite !keep_opt_none.
  constructor; cbn [nru_sn dl_discard_pdcp_sn discard_blocks dl_report_pdcp_sn]; try assumption.
  match goal with |- uint 24 (keep ?o _) => destruct o as [v|]; [match goal with H : context [Some v] |- _ => exact (H v eq_refl) end|by split] end.
Qed.

Lemma unpack_status_ok c s : Forall is_byte c -> unpack_status status_default c = Some s -> status_ok s.
Proof.
  intros Hc. unfold unpack_status. destruct (container_ok c); [|done]. apply run_dec_yields; [done|]. unfold unpack_status_bits.
  pose proof (yields_counted _ _ nru_max_nof_lost_nru_sn_ranges yields_range ltac:(done)) as Hbl.
  repeat yield_step. apply yields_ret. cbn [status_default desired_data_rate lost_nru_sn_ranges highest_delivered_pdcp_sn highest_transmitted_pdcp_sn cause_value
    highest_delivered_retransmitted_pdcp_sn highest_retransmitted_pdcp_sn]. rewrite !keep_opt_none.
  by constructor.
Qed.

(** ** The property *)

(** An NR-U frame unpacks to what was packed: the container of a message with fields in range has a length of 2 modulo 4,
    at most 80 octets, and unpacks to the message, less an empty list of discard blocks and a report SN that is not asked for.
    Whatever octets unpack to a message unpack to one that packs and unpacks to itself. *)
Theorem nru_roundtrip :
  (forall d, dl_user_data_ok d -> let c := pack_dl_user_data [] d in
     Forall is_byte c /\ zlen c <= 80 /\ (zlen c + 2) mod 4 = 0 /\ unpack_dl_user_data dl_user_data_default c = Some (dl_user_data_sent d)) /\
  (forall s, status_ok s -> let c := pack_status [] s in
     Forall is_byte c /\ zlen c <= 80 /\ (zlen c + 2) mod 4 = 0 /\ unpack_status status_default c = Some s) /\
  (forall c d, Forall is_byte c -> unpack_dl_user_data dl_user_data_default c = Some d ->
     unpack_dl_user_data dl_user_data_default (pack_dl_user_data [] d) = Some (dl_user_data_sent d)) /\
  (forall c s, Forall is_byte c -> unpack_status status_default c = Some s -> unpack_status status_default (pack_status [] s) = Some s).
Proof.
  assert (forall c, container_ok c = true -> (zlen c + 2) mod 4 = 0) as Hlen by (intros c [_ H%Z.eqb_eq]%andb_true_iff; done).
  split; [intros d Hd; destruct (dl_user_data_packed d Hd) as (H1 & H2 & H3 & H4); auto|].
  split; [intros s Hs; destruct (status_packed s Hs) as (H1 & H2 & H3 & H4); auto|].
  split; [intros c d Hc E%unpack_dl_user_data_ok; [|done]; by apply dl_user_data_packed|].
  intros c s Hc E%unpack_status_ok; [|done]. by apply status_packed.
Qed.

Definition example_dl_user_data : nru_dl_user_data :=
  mk_dl_user_data true false false true false false 5 (Some 7) (Some [mk_block 100 3; mk_block 200 255]) 0.
Definition example_status : nru_dl_data_delivery_status :=
  mk_status false 100000 None (Some [mk_range 1 4]) (Some 17) (Some 4095) (Some 2) None (Some 9).

Lemma nru_roundtrip_witness :
  unpack_dl_user_data dl_user_data_default (pack_dl_user_data [] example_dl_user_data) = Some example_dl_user_data /\
  unpack_status status_default (pack_status [] example_status) = Some example_status.
Proof.
  destruct nru_roundtrip as (H1 & H2 & _). split.
  - apply H1. constructor; [by split|intros ? [= <-]; by split| |by split]. intros l [= <-]. split; [|vm_compute; congruence].
    repeat (apply Forall_cons; split; [split; split; vm_compute; congruence|]). apply Forall_nil. exact I.
  - apply H2. constructor; [by split|intros ? [=]| |intros ? [= <-]; by split|intros ? [= <-]; by split|intros ? [= <-]; by split|intros ? [=]|intros ? [= <-]; by split].
    intros l [= <-]. split; [|vm_compute; congruence]. repeat (apply Forall_cons; split; [split; split; vm_compute; congruence|]). apply Forall_nil. exact I.
Defined.

(** * PDU session user plane protocol: the container of the NG-U tunnel

    Models [lib/psup/psup_packing.cpp] and [include/srsran/psup/psup_message.h]: DL PDU SESSION INFORMATION
    (PDU type 0).  Unlike NR-U the reader does not look at what its reads answer. *)

Open Scope Z_scope.
Open Scope decode_scope.

Module Psup.

Definition pdu_type_dl_pdu_session_information : Z := 0.
Definition qos_flow_id_invalid : Z := 64.

Record psup_dl_pdu_session_information := mk_info {
  rqi : bool;
  qos_flow_id : Z;
  ppi : option Z;
  dl_sending_time_stamp : option Z;
  dl_qfi_sn : option Z
}.
Definition info_default : psup_dl_pdu_session_information := mk_info false qos_flow_id_invalid None None None.

Definition unpack_bits (i0 : psup_dl_pdu_session_information) : Dec psup_dl_pdu_session_information :=
  let? pdu_type := field_ 8 4 in
  if negb (pdu_type =? pdu_type_dl_pdu_session_information) then dfail else
  let? qmp := flag_ in
  let? snp := flag_ in
  let? _ := field_ 8 2 in
  let? ppp := flag_ in
  let? rqi := flag_ in
  let? qfi := field_ 8 6 in
  let? ppi' := dwhen ppp (let? ppi := field_ 8 3 in let? _ := field_ 8 5 in dret ppi) in
  let? stamp := dwhen qmp (field_ 64 64) in
  let? sn := dwhen snp (field_ 32 24) in
  dret (mk_info rqi qfi (Nru.keep_opt ppi' (ppi i0)) (Nru.keep_opt stamp (dl_sending_time_stamp i0)) (Nru.keep_opt sn (dl_qfi_sn i0))).

Definition unpack (i0 : psup_dl_pdu_session_information) (container : list Z) : option psup_dl_pdu_session_information :=
  run_dec (unpack_bits i0) container.

Definition info_fields (i : psup_dl_pdu_session_information) : list (Z * Z) :=
  [(4, pdu_type_dl_pdu_session_information); (1, b2z (present (dl_sending_time_stamp i))); (1, b2z (present (dl_qfi_sn i))); (2, 0);
   (1, b2z (present (ppi i))); (1, b2z (rqi i)); (6, qos_flow_id i)] ++
  (match ppi i with Some p => [(3, p); (5, 0)] | None => [] end) ++
  opt_field 64 (dl_sending_time_stamp i) ++
  opt_field 24 (dl_qfi_sn i).

Definition pack (out_buf : list Z) (i : psup_dl_pdu_session_information) : list Z :=
  Nru.pad 3 (zlen out_buf) (be_bytes (pack_all (info_fields i) (mk_encoder out_buf 0))).

End Psup.

Import Psup.

(** ** Packed and unpacked *)

Record info_ok (i : psup_dl_pdu_session_information) : Prop := {
  pi_qfi : uint 6 (qos_flow_id i);
  pi_ppi : opt_uint 3 (ppi i);
  pi_stamp : opt_uint 64 (dl_sending_time_stamp i);
  pi_sn : opt_uint 24 (dl_qfi_sn i)
}.

Lemma info_fields_ok i : info_ok i -> Forall (field_ok 64) (info_fields i).
Proof.
  intros [H1 H2 H3 H4]. unfold info_fields. fields_ok.
  - split; vm_compute; split; congruence.
  - destruct (ppi i) as [p|]; [|constructor]. specialize (H2 p eq_refl). fields_ok.
Qed.

Lemma reads_opt_field_ w n o rest : 0 <= n <= w -> opt_uint n o ->
  reads (dwhen (present o) (field_ w n)) (fields_bits (opt_field n o) ++ rest) o rest.
Proof.
  intros Hn Ho. destruct o as [v|]; [|by apply reads_when_none]. apply reads_when_some; [done|]. cbn [opt_field]. rewrite fields_bits_cons, fields_bits_nil, app_nil_r.
  apply reads_field_; [done|]. by apply Ho.
Qed.

Lemma reads_info i rest : info_ok i -> reads (unpack_bits info_default) (fields_bits (info_fields i) ++ rest) i rest.
Proof.
  intros [H1 H2 H3 H4]. unfold info_fields, unpack_bits. rewrite !fields_bits_app, !fields_bits_cons, fields_bits_nil, <- !app_assoc. cbn [app].
  do 7 read_step. eapply reads_bind; [apply reads_field_; [lia|]|].
  { exact H1. }
  cbv beta. eapply (reads_bind _ _ _ (ppi i)).
  { destruct (ppi i) as [p|]; [|by apply reads_when_none]. specialize (H2 p eq_refl). apply reads_when_some; [done|]. rewrite !fields_bits_cons, fields_bits_nil, <- !app_assoc. cbn [app].
    eapply reads_bind; [apply reads_field_; [lia|exact H2]|]. read_step. apply reads_ret. }
  do 2 (eapply reads_bind; [apply reads_opt_field_; [lia|eassumption]|]; cbv beta).
  destruct i. cbn [info_default ppi dl_sending_time_stamp dl_qfi_sn]. rewrite !keep_opt_none. apply reads_ret.
Qed.

Lemma zlen_info i : zlen (fields_bits (info_fields i)) mod 8 = 0 /\ 16 <= zlen (fields_bits (info_fields i)) <= 112.
Proof.
  unfold info_fields. rewrite !fields_bits_app, !zlen_app, !zlen_opt_field, !fields_bits_cons, !zlen_app, !zlen_value_bits by lia. change (zlen (fields_bits [])) with 0.
  destruct (ppi i); rewrite ?fields_bits_cons, ?zlen_app, ?zlen_value_bits by lia; change (zlen (fields_bits [])) with 0;
    destruct (present (dl_sending_time_stamp i)), (present (dl_qfi_sn i)); split; try lia; zmod.
Qed.

(** DL PDU SESSION INFORMATION with its fields in range unpacks to what was packed, and its container has a length of 2 modulo 4. *)
Theorem psup_roundtrip i : info_ok i ->
  Forall is_byte (pack [] i) /\ zlen (pack [] i) <= 17 /\ (zlen (pack [] i) + 2) mod 4 = 0 /\ unpack info_default (pack [] i) = Some i.
Proof.
  intros Hi. pose proof (zlen_info i) as [Ha Hn].
  destruct (pack_container 64 (info_fields i)) as (Hb & Hc & Hl & k & Hbits); [done|by apply info_fields_ok|done|lia|].
  change (Nru.pad 3 _ _) with (pack [] i) in *. split; [done|]. split; [lia|]. split; [by apply andb_true_iff in Hc as [_ H%Z.eqb_eq]|].
  unfold unpack. eapply run_dec_reads; [done|]. rewrite Hbits. by apply reads_info.
Qed.

Lemma psup_roundtrip_witness :
  let i := mk_info true 9 (Some 5) (Some 0xfedcba9876543210) (Some 77) in unpack info_default (pack [] i) = Some i.
Proof. intros i. apply (psup_roundtrip i). constructor; [by split|intros ? [= <-]; by split..]. Defined.

(** The reader accepts an empty container: every field reads as zero, which is a DL PDU SESSION INFORMATION of QoS flow 0. *)
Lemma unpack_empty_container : unpack info_default [] = Some (mk_info false 0 None None None).
Proof. reflexivity. Qed.
