(* ===== verification/GtpuPdu.v ===== *)
(** * GTP-U PDUs: header, extension headers and information elements

    Models [lib/gtpu/gtpu_pdu.h] and [lib/gtpu/gtpu_pdu.cpp].  A PDU is dissected bit by bit into a
    header with its extension headers; writing puts a header in front of a payload. *)

From S2P Require Import Prelude Effects BitEncoding BitFields NruPacking.
Open Scope Z_scope.
Open Scope decode_scope.

Module Gtpu.

(** ** Data *)

Definition GTPU_BASE_HEADER_LEN : Z := 8.
Definition GTPU_EXTENDED_HEADER_LEN : Z := 12.
Definition GTPU_FLAGS_VERSION_V1 : Z := 1.
Definition GTPU_FLAGS_GTP_PROTOCOL : Z := 1.
Definition GTPU_MSG_ECHO_REQUEST : Z := 1.
Definition GTPU_MSG_ECHO_RESPONSE : Z := 2.
Definition GTPU_MSG_ERROR_INDICATION : Z := 26.
Definition GTPU_MSG_SUPPORTED_EXTENSION_HEADERS_NOTIFICATION : Z := 31.
Definition GTPU_MSG_END_MARKER : Z := 254.
Definition GTPU_MSG_DATA_PDU : Z := 255.
Definition GTPU_MAX_NUM_HEADER_EXTENSIONS : nat := 10.
Definition GTPU_PATH_MANAGEMENT_TEID : Z := 0.

(** The extension header types are octets; a cast keeps the values the enumeration does not name. *)
Definition no_more_extension_headers : Z := 0.
Definition service_class_indicator : Z := 0x20.
Definition udp_port : Z := 0x40.
Definition ran_container : Z := 0x81.
Definition long_pdcp_pdu_number_0 : Z := 0x03.
Definition long_pdcp_pdu_number_1 : Z := 0x82.
Definition xw_ran_container : Z := 0x83.
Definition nr_ran_container : Z := 0x84.
Definition pdu_session_container : Z := 0x85.
Definition pdcp_pdu_number : Z := 0xc0.
Definition reserved_types : list Z := [0x01; 0x02; 0xc1; 0xc2].

Definition ie_recovery_type : Z := 14.
Definition ie_teid_i_type : Z := 16.
Definition ie_gsn_address_type : Z := 133.
Definition ie_private_extension_type : Z := 255.

Record gtpu_extension_header := mk_ext { extension_header_type : Z; container : list Z }.
Record gtpu_flags := mk_flags { version : Z; protocol_type : Z; ext_hdr : bool; f_seq_number : bool; f_n_pdu : bool }.
Record gtpu_header := mk_header {
  flags : gtpu_flags;
  message_type : Z;
  length : Z;
  teid : Z;
  seq_number : Z;
  n_pdu : Z;
  next_ext_hdr_type : Z;
  ext_list : list gtpu_extension_header
}.
Record gtpu_dissected_pdu := mk_dissected { buf : list Z; hdr : gtpu_header; hdr_len : Z; test_mode : bool }.

Record gtpu_ie_recovery := mk_recovery { restart_counter : Z }.
Record gtpu_ie_private_extension := mk_private { extension_identifier : Z; extension_value : list Z }.
Inductive gtpu_peer_address := ipv4_addr (bytes : list Z) | ipv6_addr (bytes : list Z).
Record gtpu_msg_error_indication := mk_error_indication { teid_i : Z; peer_address : gtpu_peer_address }.

(** ** Checks *)

Definition gtpu_supported_flags_check (f : gtpu_flags) : bool :=
  (version f =? GTPU_FLAGS_VERSION_V1) && (protocol_type f =? GTPU_FLAGS_GTP_PROTOCOL) && negb (f_n_pdu f).

Definition gtpu_supported_msg_type_check (t : Z) : bool :=
  (t =? GTPU_MSG_DATA_PDU) || (t =? GTPU_MSG_ECHO_REQUEST) || (t =? GTPU_MSG_ECHO_RESPONSE) || (t =? GTPU_MSG_ERROR_INDICATION) || (t =? GTPU_MSG_END_MARKER).

Definition gtpu_extension_header_comprehension_check (type : Z) : bool :=
  if (type =? no_more_extension_headers) || (type =? nr_ran_container) || (type =? pdu_session_container) || (type =? pdcp_pdu_number) then true else
  if bool_decide (type ∈ reserved_types) then false else
  let comp := Z.shiftr type 6 in negb ((comp =? 2) || (comp =? 3)).

(** ** Writing *)

Definition gtpu_get_length (h : gtpu_header) (sdu : list Z) : Z :=
  let len := u16 (zlen sdu) in
  let len := if negb (zlen (ext_list h) =? 0) || f_seq_number (flags h) || f_n_pdu (flags h) then u16 (len + 4) else len in
  fold_left (fun len ext => u16 (u16 (len + 2) + zlen (container ext))) (ext_list h) len.

(** A container whose length, with the two octets around it, is not a multiple of four fails the assertion. *)
Definition gtpu_write_ext_header (e : bit_encoder) (ext : gtpu_extension_header) (next_extension_header_type : Z) : res bit_encoder :=
  let payload := u8 (1 + zlen (container ext) + 1) in
  if negb (payload mod 4 =? 0) then Fault FaultAssert else
  Ok (pack next_extension_header_type 8 (pack_bytes (container ext) (pack (payload / 4) 8 e))).

Definition next_type (exts : list gtpu_extension_header) : Z :=
  match exts with [] => no_more_extension_headers | ext :: _ => extension_header_type ext end.

Fixpoint gtpu_write_ext_headers (e : bit_encoder) (exts : list gtpu_extension_header) : res bit_encoder :=
  match exts with
  | [] => Ok e
  | ext :: exts =>
      match gtpu_write_ext_header e ext (next_type exts) with
      | Ok e => gtpu_write_ext_headers e exts
      | Fault f => Fault f
      end
  end.

Definition has_optional_fields (h : gtpu_header) : bool := negb (zlen (ext_list h) =? 0) || f_seq_number (flags h) || f_n_pdu (flags h).

(** The calls [encoder.pack(value, width)] for the header, as pairs of width and value. *)
Definition header_fields (pdu : list Z) (h : gtpu_header) : list (Z * Z) :=
  [(3, version (flags h)); (1, protocol_type (flags h)); (1, 0); (1, b2z (negb (zlen (ext_list h) =? 0)));
   (1, b2z (f_seq_number (flags h))); (1, b2z (f_n_pdu (flags h))); (8, message_type h); (16, gtpu_get_length h pdu); (32, teid h)] ++
  (if has_optional_fields h then [(16, seq_number h); (8, n_pdu h); (8, next_type (ext_list h))] else []).

(** [Ok None] is the answer false. *)
Definition gtpu_write_header (pdu : list Z) (h : gtpu_header) : res (option (list Z)) :=
  if negb (gtpu_supported_flags_check (flags h)) then Ok None else
  if negb (gtpu_supported_msg_type_check (message_type h)) then Ok None else
  match gtpu_write_ext_headers (pack_all (header_fields pdu h) new_encoder) (ext_list h) with
  | Ok e => Ok (Some (be_bytes e ++ pdu))
  | Fault f => Fault f
  end.

Definition gtpu_write_ie_recovery (pdu : list Z) (ie : gtpu_ie_recovery) : list Z :=
  be_bytes (pack_all [(8, ie_recovery_type); (8, restart_counter ie)] (mk_encoder pdu 0)).

Definition gtpu_write_ie_private_extension (pdu : list Z) (ie : gtpu_ie_private_extension) : list Z :=
  be_bytes (pack_all ([(8, ie_private_extension_type); (16, u16 (zlen (extension_value ie) + 2)); (16, extension_identifier ie)] ++
    map (fun v => (8, v)) (extension_value ie)) (mk_encoder pdu 0)).

(** ** Reading *)

(** Big-endian octets 4 to 7. *)
Definition gtpu_read_teid (pdu : list Z) : option Z :=
  if zlen pdu <? GTPU_BASE_HEADER_LEN then None else
  let octet i := nth i pdu 0 in
  Some (Z.lor (Z.lor (Z.lor (Z.shiftl (octet 4%nat) 24) (Z.shiftl (octet 5%nat) 16)) (Z.shiftl (octet 6%nat) 8)) (octet 7%nat)).

Definition octets (n : Z) : Dec (list Z) := fun d => let '(l, d) := unpack_aligned_bytes n d in (Some l, d).
Definition bytes_read (buffer : list Z) : Dec Z := fun d => (Some (decoded_bytes buffer d), d).

(** The container and the type of the next extension header; no read is checked. *)
Definition gtpu_read_ext_header : Dec (list Z * Z) :=
  let? length := field_ 8 8 in
  let? container := octets (u16 (length * 4 - 2)) in
  let? next := field_ 8 8 in
  dret (container, next).

(** The loop over the extension headers, with [room] for that many more in the list. *)
Fixpoint gtpu_read_ext_headers (room : nat) (type : Z) : Dec (list gtpu_extension_header) :=
  if negb (gtpu_extension_header_comprehension_check type) then dfail else
  let? ext := gtpu_read_ext_header in
  match room with
  | O => dfail
  | S room =>
      if snd ext =? no_more_extension_headers then dret [mk_ext type (fst ext)] else
      let? exts := gtpu_read_ext_headers room (snd ext) in
      dret (mk_ext type (fst ext) :: exts)
  end.

Definition gtpu_dissect_bits (raw_pdu : list Z) : Dec gtpu_dissected_pdu :=
  let? version := field_ 8 3 in
  let? protocol_type := field_ 8 1 in
  let? _ := field_ 8 1 in
  let? e := flag_ in
  let? s := flag_ in
  let? pn := flag_ in
  let flags := mk_flags version protocol_type e s pn in
  if negb (gtpu_supported_flags_check flags) then dfail else
  let? message_type := field_ 8 8 in
  let? length := field_ 16 16 in
  let? teid := field_ 32 32 in
  if negb (length =? u16 (zlen raw_pdu - GTPU_BASE_HEADER_LEN)) then dfail else
  let? opt :=
    (if e || s || pn then
       if zlen raw_pdu <? GTPU_EXTENDED_HEADER_LEN then dfail else
       let? seq_number := field_ 16 16 in
       let? n_pdu := field_ 8 8 in
       let? next := field_ 8 8 in
       if negb (gtpu_extension_header_comprehension_check next) then dfail else dret (seq_number, n_pdu, next)
     else dret (0, 0, no_more_extension_headers)) in
  let '(seq_number, n_pdu, next) := opt in
  let? exts :=
    (if e then if next =? no_more_extension_headers then dfail else gtpu_read_ext_headers GTPU_MAX_NUM_HEADER_EXTENSIONS next
     else dret []) in
  let? hdr_len := bytes_read raw_pdu in
  dret (mk_dissected raw_pdu (mk_header flags message_type length teid seq_number n_pdu next exts) hdr_len false).

Definition gtpu_dissect_pdu (raw_pdu : list Z) : option gtpu_dissected_pdu :=
  if zlen raw_pdu <? GTPU_BASE_HEADER_LEN then None else run_dec (gtpu_dissect_bits raw_pdu) raw_pdu.

(** Trimming more than the buffer holds fails an assertion. *)
Definition gtpu_extract_msg (pdu : gtpu_dissected_pdu) : res (list Z) :=
  if zlen (buf pdu) <? hdr_len pdu then Fault FaultAssert else Ok (drop (Z.to_nat (hdr_len pdu)) (buf pdu)).

(** A read and its answer. *)
Definition fieldb (w n : Z) : Dec (Z * bool) := fun d => let '(v, ok, d) := unpack_uint w d n in (Some (v, ok), d).
Definition octetsb (n : Z) : Dec (list Z * bool) := fun d => let '(l, ok, d) := unpack_bytes n d in (Some (l, ok), d).

Definition gtpu_read_ie_gtpu_peer_address : Dec (gtpu_peer_address * bool) :=
  let? len := fieldb 16 16 in
  if negb (snd len) then dfail else
  if fst len =? 4 then let? a := octetsb 4 in dret (ipv4_addr (fst a), snd a) else
  if fst len =? 16 then let? a := octetsb 16 in dret (ipv6_addr (fst a), snd a) else dfail.

Definition gtpu_read_msg_error_indication_bits : Dec gtpu_msg_error_indication :=
  let? ie_type := fieldb 8 8 in
  if negb (fst ie_type =? ie_teid_i_type) then dfail else
  let? teid := fieldb 32 32 in
  let? ie_type2 := fieldb 8 8 in
  if negb (fst ie_type2 =? ie_gsn_address_type) then dfail else
  let? address := gtpu_read_ie_gtpu_peer_address in
  if snd ie_type && snd teid && snd ie_type2 && snd address then dret (mk_error_indication (fst teid) (fst address)) else dfail.
Definition gtpu_read_msg_error_indication (pdu : list Z) : option gtpu_msg_error_indication := run_dec gtpu_read_msg_error_indication_bits pdu.

End Gtpu.
