(* ===== verification/GtpuPduFacts.v ===== *)
(** * GTP-U PDUs: what is written can be dissected

    A header in range is written, and dissected to the header as it was sent, with the payload behind
    it; whatever the octets received, dissecting stays inside them. *)

From S2P Require Import Prelude Effects BitEncoding BitFields NruPacking GtpuPdu.
Open Scope Z_scope.
Open Scope decode_scope.

Import Gtpu.

(** ** Headers that can be written *)

Record ext_ok (e : gtpu_extension_header) : Prop := {
  eo_type : uint 8 (extension_header_type e);
  eo_comprehended : gtpu_extension_header_comprehension_check (extension_header_type e) = true;
  eo_last : extension_header_type e <> no_more_extension_headers;
  eo_bytes : Forall is_byte (container e);
  eo_words : (zlen (container e) + 2) mod 4 = 0;
  eo_short : zlen (container e) <= 250
}.

Record header_ok (h : gtpu_header) : Prop := {
  ho_flags : gtpu_supported_flags_check (flags h) = true;
  ho_type : gtpu_supported_msg_type_check (message_type h) = true;
  ho_teid : uint 32 (teid h);
  ho_sn : uint 16 (seq_number h);
  ho_n_pdu : uint 8 (n_pdu h);
  ho_exts : Forall ext_ok (ext_list h);
  ho_room : (Datatypes.length (ext_list h) <= GTPU_MAX_NUM_HEADER_EXTENSIONS)%nat
}.

(** The header as it arrives: the flag of the extension headers, the length and the type of the first
    extension header are those that were written, the optional fields are zero when they are absent. *)
Definition header_sent (pdu : list Z) (h : gtpu_header) : gtpu_header :=
  let opt := has_optional_fields h in
  mk_header (mk_flags (version (flags h)) (protocol_type (flags h)) (negb (zlen (ext_list h) =? 0)) (f_seq_number (flags h)) (f_n_pdu (flags h)))
    (message_type h) (gtpu_get_length h pdu) (teid h)
    (if opt then seq_number h else 0) (if opt then n_pdu h else 0) (if opt then next_type (ext_list h) else no_more_extension_headers) (ext_list h).

(** ** Extension headers *)

Definition ext_octets (e : gtpu_extension_header) (next : Z) : list Z := ((zlen (container e) + 2) / 4 :: container e) ++ [next].
Fixpoint exts_octets (exts : list gtpu_extension_header) : list Z :=
  match exts with [] => [] | e :: exts => ext_octets e (next_type exts) ++ exts_octets exts end.

Lemma next_type_byte exts : Forall ext_ok exts -> uint 8 (next_type exts).
Proof. destruct 1; [by split|]. by apply eo_type. Qed.

Lemma ext_words e : ext_ok e -> exists k, zlen (container e) = 4 * k - 2 /\ 1 <= k <= 63 /\ (zlen (container e) + 2) / 4 = k.
Proof.
  intros [_ _ _ _ Hw Hl]. pose proof (zlen_nonneg (container e)). exists ((zlen (container e) + 2) / 4).
  split; [|split; [|done]]; zmod.
Qed.

Lemma ext_octets_bytes e next : ext_ok e -> uint 8 next -> Forall is_byte (ext_octets e next).
Proof.
  intros He Hn. destruct (ext_words e He) as (k & _ & Hk & E). unfold ext_octets. rewrite E. apply Forall_app. split; [|by apply Forall_singleton].
  apply Forall_cons. split; [unfold is_byte; lia|by apply eo_bytes].
Qed.

Lemma exts_octets_bytes exts : Forall ext_ok exts -> Forall is_byte (exts_octets exts).
Proof. induction 1 as [|e exts He Hes IH]; [constructor|]. cbn [exts_octets]. apply Forall_app. split; [by apply ext_octets_bytes, next_type_byte|done]. Qed.

Lemma write_ext_header_ok w bs e next : encodes w bs -> ext_ok e -> uint 8 next ->
  exists w', gtpu_write_ext_header w e next = Ok w' /\ encodes w' (bs ++ bytes_bits (ext_octets e next)).
Proof.
  intros Hw He Hn. destruct (ext_words e He) as (k & Hl & Hk & E). unfold gtpu_write_ext_header.
  assert (u8 (1 + zlen (container e) + 1) = 4 * k) as -> by (unfold u8; rewrite Z.mod_small by lia; lia).
  replace (4 * k mod 4) with 0 by zmod. cbn [negb Z.eqb]. replace (4 * k / 4) with k by zmod.
  eexists. split; [reflexivity|]. unfold ext_octets. rewrite E, bytes_bits_app, bytes_bits_cons. change (bytes_bits [next]) with (byte_bits next ++ []).
  rewrite app_nil_r, !app_assoc. apply pack_octet; [|exact Hn]. apply pack_bytes_spec; [|by apply eo_bytes]. apply pack_octet; [done|unfold is_byte; lia].
Qed.

Lemma write_ext_headers_ok exts : forall w bs, encodes w bs -> Forall ext_ok exts ->
  exists w', gtpu_write_ext_headers w exts = Ok w' /\ encodes w' (bs ++ bytes_bits (exts_octets exts)).
Proof.
  induction exts as [|e exts IH]; intros w bs Hw Hes; [exists w; by rewrite app_nil_r|]. apply Forall_cons in Hes as [He Hes]. cbn [gtpu_write_ext_headers exts_octets].
  destruct (write_ext_header_ok w bs e (next_type exts)) as (w1 & -> & H1); [done|done|by apply next_type_byte|].
  destruct (IH w1 _ H1 Hes) as (w2 & -> & H2). exists w2. split; [done|]. by rewrite bytes_bits_app, app_assoc.
Qed.

Lemma reads_octets n l bytes : Forall is_byte l -> Forall is_byte bytes -> zlen l = n ->
  reads (octets n) (bytes_bits (l ++ bytes)) l (bytes_bits bytes).
Proof. intros Hl Hb En d Hd. unfold octets. destruct (unpack_aligned_spec n l bytes d Hl Hb En Hd) as (d' & -> & Hd' & _). by exists d'. Qed.

Lemma reads_octet_ b rest : is_byte b -> reads (field_ 8 8) (bytes_bits (b :: rest)) b (bytes_bits rest).
Proof. intros Hb. rewrite bytes_bits_cons. apply reads_field_; [lia|exact Hb]. Qed.

Lemma reads_bytes_read raw rest : Forall is_byte rest -> reads (bytes_read raw) (bytes_bits rest) (zlen raw - zlen rest) (bytes_bits rest).
Proof.
  intros Hr d Hd. exists d. split; [|done]. assert (zlen (bytes_bits rest) mod 8 = 0) as Ha by (rewrite zlen_bytes_bits; zmod).
  destruct (decodes_aligned _ _ Hd Ha) as [E Eb]. apply bytes_bits_inj in Eb; [|apply Hd|done]. unfold bytes_read, decoded_bytes. rewrite E, Eb. cbn [Z.eqb]. do 2 f_equal. lia.
Qed.

Lemma reads_ext_header e next rest : ext_ok e -> uint 8 next -> Forall is_byte rest ->
  reads gtpu_read_ext_header (bytes_bits (ext_octets e next ++ rest)) (container e, next) (bytes_bits rest).
Proof.
  intros He Hn Hr. destruct (ext_words e He) as (k & Hl & Hk & E). unfold gtpu_read_ext_header, ext_octets. rewrite E, <- app_assoc. cbn [app].
  eapply reads_bind; [apply reads_octet_; unfold is_byte; lia|]. cbv beta.
  eapply reads_bind; [apply (reads_octets _ (container e) (next :: rest)); [by apply eo_bytes|by apply Forall_cons|unfold u16; rewrite Z.mod_small; lia]|].
  eapply reads_bind; [by apply reads_octet_|]. apply reads_ret.
Qed.

Lemma reads_ext_headers exts : forall room rest, exts <> [] -> Forall ext_ok exts -> (Datatypes.length exts <= room)%nat -> Forall is_byte rest ->
  reads (gtpu_read_ext_headers room (next_type exts)) (bytes_bits (exts_octets exts ++ rest)) exts (bytes_bits rest).
Proof.
  induction exts as [|e exts IH]; intros room rest Hne Hes Hroom Hr; [done|]. apply Forall_cons in Hes as [He Hes]. cbn [Datatypes.length] in Hroom.
  destruct room as [|room]; [lia|]. cbn [gtpu_read_ext_headers next_type exts_octets]. rewrite (eo_comprehended e He), <- app_assoc. cbn [negb].
  eapply reads_bind; [apply reads_ext_header; [done|by apply next_type_byte|apply Forall_app; split; [by apply exts_octets_bytes|done]]|]. cbn [fst snd].
  destruct exts as [|e2 exts]; [destruct e; apply reads_ret|]. cbn [next_type] in *. apply Forall_cons in Hes as [He2 Hes].
  rewrite (proj2 (Z.eqb_neq _ _) (eo_last e2 He2)). eapply reads_bind; [apply IH; [done|by apply Forall_cons|cbn [Datatypes.length] in *; lia|done]|].
  destruct e. apply reads_ret.
Qed.

(** ** The length field *)

Definition header_octets (h : gtpu_header) : Z := 8 + (if has_optional_fields h then 4 else 0) + zlen (exts_octets (ext_list h)).

Lemma u16_add_l a b : u16 (u16 a + b) = u16 (a + b).
Proof. unfold u16. apply Zplus_mod_idemp_l. Qed.

Lemma fold_length exts : forall len, fold_left (fun len ext => u16 (u16 (len + 2) + zlen (container ext))) exts (u16 len) = u16 (len + zlen (exts_octets exts)).
Proof.
  induction exts as [|e exts IH]; intros len; [cbn [fold_left]; f_equal; change (zlen (exts_octets [])) with 0; lia|].
  cbn [fold_left exts_octets]. rewrite !u16_add_l, <- Z.add_assoc, u16_add_l, IH. f_equal. unfold ext_octets. rewrite !zlen_app, !zlen_cons. change (zlen (@nil Z)) with 0. lia.
Qed.

Lemma get_length_spec h sdu : gtpu_get_length h sdu = u16 (header_octets h - 8 + zlen sdu).
Proof.
  unfold gtpu_get_length, header_octets, has_optional_fields. set (len := if _ || _ || _ then _ else _).
  assert (len = u16 ((if negb (zlen (ext_list h) =? 0) || f_seq_number (flags h) || f_n_pdu (flags h) then 4 else 0) + zlen sdu)) as ->.
  { unfold len. destruct (_ || _ || _); [rewrite u16_add_l; f_equal; lia|done]. }
  rewrite fold_length. f_equal. lia.
Qed.

(** ** The header *)

Lemma supported_type_byte t : gtpu_supported_msg_type_check t = true -> uint 8 t.
Proof.
  unfold gtpu_supported_msg_type_check, uint. rewrite !orb_true_iff, !Z.eqb_eq. change (2 ^ 8) with 256.
  unfold GTPU_MSG_DATA_PDU, GTPU_MSG_ECHO_REQUEST, GTPU_MSG_ECHO_RESPONSE, GTPU_MSG_ERROR_INDICATION, GTPU_MSG_END_MARKER. lia.
Qed.

Lemma header_fields_ok pdu h : header_ok h -> Forall (field_ok 64) (header_fields pdu h).
Proof.
  intros [H1 H2 H3 H4 H5 H6 H7]. apply andb_true_iff in H1 as [[H1 Hp]%andb_true_iff _]. apply Z.eqb_eq in H1, Hp.
  unfold header_fields. rewrite H1, Hp. fields_ok.
  - vm_compute; split; split; congruence.
  - vm_compute; split; split; congruence.
  - apply field_ok_uint; [lia|by apply supported_type_byte].
  - apply field_ok_uint; [lia|]. rewrite get_length_spec. unfold uint, u16. change (2 ^ 16) with 65536. zmod.
  - destruct (has_optional_fields h); fields_ok. apply field_ok_uint; [lia|by apply next_type_byte].
Qed.

Lemma zlen_header_fields pdu h : zlen (fields_bits (header_fields pdu h)) = 8 * (8 + (if has_optional_fields h then 4 else 0)).
Proof.
  unfold header_fields. rewrite fields_bits_app, zlen_app, !fields_bits_cons, !zlen_app, !zlen_value_bits by lia.
  destruct (has_optional_fields h); rewrite ?fields_bits_cons, ?zlen_app, ?zlen_value_bits by lia; change (zlen (fields_bits [])) with 0; lia.
Qed.

(** What is written: the header, its extension headers and the payload. *)
Lemma gtpu_write_header_ok pdu h : header_ok h -> Forall is_byte pdu ->
  exists w, gtpu_write_header pdu h = Ok (Some w) /\ Forall is_byte w /\ zlen w = header_octets h + zlen pdu /\
    bytes_bits w = fields_bits (header_fields pdu h) ++ bytes_bits (exts_octets (ext_list h) ++ pdu).
Proof.
  intros Hh Hp. pose proof Hh as [H1 H2 _ _ _ H6 _]. unfold gtpu_write_header. rewrite H1, H2. cbn [negb].
  pose proof (pack_all_encodes 64 (header_fields pdu h) ltac:(lia) new_encoder [] (header_fields_ok pdu h Hh) new_encoder_encodes) as He. cbn [app] in He.
  destruct (write_ext_headers_ok (ext_list h) _ _ He H6) as (e & -> & He'). eexists. split; [reflexivity|].
  assert (bytes_bits (be_bytes e) = fields_bits (header_fields pdu h) ++ bytes_bits (exts_octets (ext_list h))) as Eb.
  { apply encodes_aligned; [exact He'|]. rewrite zlen_app, zlen_header_fields, zlen_bytes_bits. destruct (has_optional_fields h); zmod. }
  split; [apply Forall_app; split; [apply He'|done]|]. split.
  - rewrite zlen_app. apply (f_equal zlen) in Eb. rewrite zlen_app, zlen_header_fields, !zlen_bytes_bits in Eb. unfold header_octets. lia.
  - by rewrite bytes_bits_app, Eb, <- app_assoc, <- bytes_bits_app.
Qed.

Lemma reads_gtpu_pdu pdu h raw : header_ok h -> Forall is_byte pdu -> zlen raw = header_octets h + zlen pdu ->
  reads (gtpu_dissect_bits raw) (fields_bits (header_fields pdu h) ++ bytes_bits (exts_octets (ext_list h) ++ pdu))
    (mk_dissected raw (header_sent pdu h) (header_octets h) false) (bytes_bits pdu).
Proof.
  intros Hh Hp Hraw. pose proof Hh as [H1 H2 H3 H4 H5 H6 H7]. pose proof (zlen_nonneg pdu). pose proof (zlen_nonneg (exts_octets (ext_list h))) as Hx.
  pose proof (exts_octets_bytes _ H6) as Hxb. apply andb_true_iff in H1 as [[H1 Hpt]%andb_true_iff Hn]. apply Z.eqb_eq in H1, Hpt. apply negb_true_iff in Hn.
  unfold header_fields, gtpu_dissect_bits. rewrite H1, Hpt, Hn, fields_bits_app, !fields_bits_cons, fields_bits_nil, <- !app_assoc. cbn [app].
  do 6 read_step. unfold gtpu_supported_flags_check. cbn [version protocol_type f_n_pdu GTPU_FLAGS_VERSION_V1 GTPU_FLAGS_GTP_PROTOCOL Z.eqb Pos.eqb andb negb].
  eapply reads_bind; [apply reads_field_; [lia|by apply supported_type_byte]|]. cbv beta. eapply reads_bind; [apply reads_field_; [lia|rewrite get_length_spec; unfold u16; change (2 ^ 16) with 65536; zmod]|].
  cbv beta. eapply reads_bind; [apply reads_field_; [lia|exact H3]|]. cbv beta.
  rewrite get_length_spec at 1. replace (u16 (zlen raw - GTPU_BASE_HEADER_LEN)) with (u16 (header_octets h - 8 + zlen pdu)) by (f_equal; unfold GTPU_BASE_HEADER_LEN; lia).
  rewrite Z.eqb_refl. cbn [negb].
  assert (negb (zlen (ext_list h) =? 0) || f_seq_number (flags h) || false = has_optional_fields h) as -> by (unfold has_optional_fields; by rewrite Hn).
  unfold header_sent. rewrite H1, Hpt, Hn. cbv zeta.
  eapply (reads_bind _ _ _ (if has_optional_fields h then seq_number h else 0, if has_optional_fields h then n_pdu h else 0, if has_optional_fields h then next_type (ext_list h) else no_more_extension_headers)).
  { destruct (has_optional_fields h) eqn:Eo.
    - rewrite (proj2 (Z.ltb_ge _ _)) by (unfold GTPU_EXTENDED_HEADER_LEN, header_octets in *; rewrite Eo in Hraw; lia).
      rewrite !fields_bits_cons, fields_bits_nil, <- !app_assoc. cbn [app].
      eapply reads_bind; [apply reads_field_; [lia|exact H4]|]. cbv beta. eapply reads_bind; [apply reads_field_; [lia|exact H5]|]. cbv beta.
      eapply reads_bind; [apply reads_field_; [lia|by apply next_type_byte]|]. cbv beta.
      replace (gtpu_extension_header_comprehension_check (next_type (ext_list h))) with true by (destruct H6 as [|e es He _]; [done|cbn [next_type]; by rewrite eo_comprehended]).
      apply reads_ret.
    - rewrite fields_bits_nil. apply reads_ret. }
  cbv beta iota. eapply (reads_bind _ _ _ (ext_list h)).
  { destruct (negb (zlen (ext_list h) =? 0)) eqn:Ee.
    - assert (has_optional_fields h = true) as -> by (unfold has_optional_fields; by rewrite Ee).
      assert (ext_list h <> []) as Hne by (intros E0; by rewrite E0 in Ee). destruct (next_type (ext_list h) =? no_more_extension_headers) eqn:E0.
      { apply Z.eqb_eq in E0. destruct H6 as [|e es He _]; [done|]. by destruct (eo_last e He). }
      apply reads_ext_headers; [done|done|done|done].
    - apply negb_false_iff, Z.eqb_eq, zlen_zero_nil in Ee. rewrite Ee. apply reads_ret. }
  eapply reads_bind; [by apply reads_bytes_read|]. replace (zlen raw - zlen pdu) with (header_octets h) by lia. apply reads_ret.
Qed.

(** A header of a supported kind, its fields in range and its extension headers at most ten of types
    the reader comprehends, is written in front of any payload; dissecting what was written yields
    the header as sent, and extracting the message yields the payload. *)
Theorem gtpu_header_roundtrip pdu h : header_ok h -> Forall is_byte pdu ->
  exists w, gtpu_write_header pdu h = Ok (Some w) /\ Forall is_byte w /\
    gtpu_dissect_pdu w = Some (mk_dissected w (header_sent pdu h) (header_octets h) false) /\
    gtpu_extract_msg (mk_dissected w (header_sent pdu h) (header_octets h) false) = Ok pdu.
Proof.
  intros Hh Hp. destruct (gtpu_write_header_ok pdu h Hh Hp) as (w & Ew & Hb & Hl & Hbits). exists w. split; [done|]. split; [done|].
  pose proof (zlen_nonneg pdu). pose proof (zlen_nonneg (exts_octets (ext_list h))). assert (8 <= header_octets h) as H8 by (unfold header_octets; destruct (has_optional_fields h); lia).
  split.
  - unfold gtpu_dissect_pdu. rewrite (proj2 (Z.ltb_ge _ _)) by (unfold GTPU_BASE_HEADER_LEN; lia). eapply run_dec_reads; [done|]. rewrite Hbits. by apply reads_gtpu_pdu.
  - unfold gtpu_extract_msg. cbn [buf hdr_len]. rewrite (proj2 (Z.ltb_ge _ _)) by lia. f_equal.
    unfold gtpu_write_header in Ew. destruct (negb _); [done|]. destruct (negb _); [done|]. destruct (gtpu_write_ext_headers _ _) as [e|]; [|done].
    injection Ew as <-. rewrite zlen_app in Hl. apply drop_app_zlen. lia.
Qed.

Lemma gtpu_header_roundtrip_witness :
  let h := mk_header (mk_flags 1 1 false true false) GTPU_MSG_DATA_PDU 0 0xdeadbeef 77 0 0 [mk_ext pdu_session_container [0; 9]; mk_ext nr_ran_container [1; 2; 3; 4; 5; 6]] in
  let pdu := [0xca; 0xfe] in
  exists w, gtpu_write_header pdu h = Ok (Some w) /\ gtpu_dissect_pdu w = Some (mk_dissected w (header_sent pdu h) 24 false).
Proof.
  intros h pdu. destruct (gtpu_header_roundtrip pdu h) as (w & Hw & _ & Hd & _).
  - constructor; try done. repeat constructor; try done; repeat constructor; done. simpl; unfold GTPU_MAX_NUM_HEADER_EXTENSIONS; lia.
  - repeat constructor; done.
  - exists w. by split.
Defined.

(** ** Dissecting any octets *)

(** [yields] for a decoder with at most [N] bits to read. *)
Definition yields_upto {A} (N : Z) (m : Dec A) (P : A -> Prop) : Prop :=
  forall d bs, decodes d bs -> zlen bs <= N -> match fst (m d) with Some a => P a | None => True end.

Lemma yields_upto_bind {A B} N (m : Dec A) (k : A -> Dec B) (P : A -> Prop) (Q : B -> Prop) :
  yields m P -> (forall a, P a -> yields_upto N (k a) Q) -> yields_upto N (dbind m k) Q.
Proof.
  intros Hm Hk d bs Hd Hl. unfold dbind. destruct (Hm d bs Hd) as [HP (bs' & Hd' & Hl')]. destruct (m d) as [[a|] d']; [|done].
  apply (Hk a HP d' bs'); [done|lia].
Qed.

Lemma yields_upto_fail {A} N (P : A -> Prop) : yields_upto N dfail P.
Proof. done. Qed.

Lemma yields_octets n : 0 <= n -> yields (octets n) (fun l => Forall is_byte l /\ (l = [] \/ zlen l = n)).
Proof.
  intros Hn d bs Hd. unfold octets. destruct (unpack_aligned_any n d bs Hn Hd) as (l & d' & bs' & -> & Hb & Hl & Hd' & Hlen). split; [done|by exists bs'].
Qed.

(** The octets read so far lie inside the buffer. *)
Lemma decoded_bytes_bound raw d bs : decodes d bs -> zlen bs <= 8 * zlen raw -> 0 <= decoded_bytes raw d <= zlen raw.
Proof.
  intros (H1 & H2 & H3 & H4) Hl. rewrite H4, zlen_drop, zlen_bytes_bits in Hl by lia. unfold decoded_bytes. pose proof (zlen_nonneg (bd_rest d)).
  destruct (Z.eqb_spec (bd_offset d) 0) as [E|]; [lia|]. destruct (bd_rest d) as [|b r]; [by specialize (H3 eq_refl)|].
  rewrite zlen_cons in *. pose proof (zlen_nonneg r). lia.
Qed.

Record ext_read_ok (e : gtpu_extension_header) : Prop := {
  er_type : uint 8 (extension_header_type e);
  er_comprehended : gtpu_extension_header_comprehension_check (extension_header_type e) = true;
  er_last : extension_header_type e <> no_more_extension_headers;
  er_bytes : Forall is_byte (container e)
}.

Lemma yields_ext_header : yields gtpu_read_ext_header (fun r => Forall is_byte (fst r) /\ uint 8 (snd r)).
Proof.
  unfold gtpu_read_ext_header. eapply yields_bind; [apply yields_field_; lia|]. intros len Hlen. eapply yields_bind; [apply yields_octets; unfold u16; zmod|].
  intros c [Hc _]. eapply yields_bind; [apply yields_field_; lia|]. intros next Hn. by apply yields_ret.
Qed.

Lemma yields_ext_headers : forall room type, uint 8 type -> type <> no_more_extension_headers ->
  yields (gtpu_read_ext_headers room type) (fun exts => Forall ext_read_ok exts /\ (Datatypes.length exts <= room)%nat).
Proof.
  induction room as [|room IH]; intros type Ht Hne; cbn [gtpu_read_ext_headers]; destruct (gtpu_extension_header_comprehension_check type) eqn:Ec; cbn [negb]; try apply yields_fail.
  - eapply yields_bind; [apply yields_ext_header|]. intros. apply yields_fail.
  - eapply yields_bind; [apply yields_ext_header|]. intros [c next] [Hc Hn]. cbn [fst snd] in *. assert (ext_read_ok (mk_ext type c)) by done.
    destruct (Z.eqb_spec next no_more_extension_headers); [apply yields_ret; split; [by apply Forall_singleton|simpl; lia]|].
    eapply yields_bind; [by apply IH|]. intros exts [He Hr]. apply yields_ret. split; [by apply Forall_cons|simpl; lia].
Qed.

Record dissected_ok (raw : list Z) (p : gtpu_dissected_pdu) : Prop := {
  dk_buf : buf p = raw;
  dk_len : 0 <= hdr_len p <= zlen raw;
  dk_flags : gtpu_supported_flags_check (flags (hdr p)) = true;
  dk_type : uint 8 (message_type (hdr p));
  dk_length : length (hdr p) = u16 (zlen raw - GTPU_BASE_HEADER_LEN);
  dk_teid : uint 32 (teid (hdr p));
  dk_sn : uint 16 (seq_number (hdr p));
  dk_n_pdu : uint 8 (n_pdu (hdr p));
  dk_exts : Forall ext_read_ok (ext_list (hdr p));
  dk_room : (Datatypes.length (ext_list (hdr p)) <= GTPU_MAX_NUM_HEADER_EXTENSIONS)%nat;
  dk_test : test_mode p = false
}.

Ltac upto_step :=
  lazymatch goal with
  | |- yields_upto _ (dbind flag_ _) _ => eapply yields_upto_bind; [apply yields_flag_|intros ? _]
  | |- yields_upto _ (dbind (field_ _ _) _) _ => eapply yields_upto_bind; [apply yields_field_; lia|intros ? ?]
  end; cbv beta zeta.

Lemma yields_upto_dissect raw : yields_upto (8 * zlen raw) (gtpu_dissect_bits raw) (dissected_ok raw).
Proof.
  unfold gtpu_dissect_bits. do 6 upto_step. destruct (gtpu_supported_flags_check _) eqn:Ef; cbn [negb]; [|apply yields_upto_fail]. do 3 upto_step.
  match goal with |- yields_upto _ (if negb (?l =? _) then _ else _) _ => destruct (Z.eqb_spec l (u16 (zlen raw - GTPU_BASE_HEADER_LEN))); cbn [negb]; [|apply yields_upto_fail] end.
  eapply (yields_upto_bind _ _ _ (fun o => uint 16 (fst (fst o)) /\ uint 8 (snd (fst o)) /\ uint 8 (snd o))).
  { destruct (_ || _ || _); [|apply yields_ret; by repeat split]. destruct (zlen raw <? _); [apply yields_fail|].
    eapply yields_bind; [apply yields_field_; lia|intros ? ?]. eapply yields_bind; [apply yields_field_; lia|intros ? ?]. eapply yields_bind; [apply yields_field_; lia|intros ? ?].
    destruct (negb _); [apply yields_fail|by apply yields_ret]. }
  intros [[sn n] next] (Hsn & Hn & Hnext). cbn [fst snd] in *.
  eapply (yields_upto_bind _ _ _ (fun exts => Forall ext_read_ok exts /\ (Datatypes.length exts <= GTPU_MAX_NUM_HEADER_EXTENSIONS)%nat)).
  { match goal with |- yields (if ?e then _ else _) _ => destruct e; [|apply yields_ret; split; [constructor|simpl; lia]] end.
    destruct (Z.eqb_spec next no_more_extension_headers); [apply yields_fail|by apply yields_ext_headers]. }
  intros exts [He Hr] d bs Hd Hl. cbn [dbind bytes_read dret fst]. pose proof (decoded_bytes_bound raw d bs Hd Hl). by constructor.
Qed.

Lemma dissect_ok raw p : Forall is_byte raw -> gtpu_dissect_pdu raw = Some p -> dissected_ok raw p.
Proof.
  intros Hb E. unfold gtpu_dissect_pdu in E. destruct (zlen raw <? _); [done|].
  pose proof (yields_upto_dissect raw _ _ (new_decoder_decodes raw Hb) ltac:(rewrite zlen_bytes_bits; lia)) as Hp. unfold run_dec in E. by rewrite E in Hp.
Qed.

Lemma extract_ok raw p : dissected_ok raw p -> gtpu_extract_msg p = Ok (drop (Z.to_nat (hdr_len p)) raw).
Proof. intros [Hbuf Hlen _ _ _ _ _ _ _ _ _]. unfold gtpu_extract_msg. by rewrite Hbuf, (proj2 (Z.ltb_ge _ _)) by lia. Qed.

(** C28: Whatever octets arrive, what is dissected keeps them, has its fields in range, supported flags, the
    length of the buffer, at most ten extension headers, all of comprehended types, and a header that
    lies inside the buffer: extracting the message never trims more than there is. *)
Theorem gtpu_dissect_in_bounds raw p : Forall is_byte raw -> gtpu_dissect_pdu raw = Some p ->
  dissected_ok raw p /\ gtpu_extract_msg p = Ok (drop (Z.to_nat (hdr_len p)) raw).
Proof. intros Hb E. pose proof (dissect_ok raw p Hb E) as Hp. split; [done|]. by apply extract_ok. Qed.

Lemma gtpu_dissect_in_bounds_witness :
  let raw := [0x34; 0xff; 0; 9; 0xde; 0xad; 0xbe; 0xef; 0; 77; 0; 0x85; 0; 5; 0; 9; 0] in
  exists p, gtpu_dissect_pdu raw = Some p /\ dissected_ok raw p.
Proof.
  intros raw. destruct (gtpu_dissect_pdu raw) as [p|] eqn:E; [|vm_compute in E; discriminate E].
  exists p. split; [reflexivity|]. apply (gtpu_dissect_in_bounds raw p); [repeat constructor; done|exact E].
Defined.

(** The reads of an extension header are not checked: one whose length octet is zero is accepted with an
    empty container, and the payload behind it is kept as it is. *)
Lemma gtpu_zero_length_extension_accepted :
  gtpu_dissect_pdu [0x34; 0xff; 0; 7; 0; 0; 0; 1; 0; 5; 0; 0x85; 0; 0; 0x2a] =
  Some (mk_dissected [0x34; 0xff; 0; 7; 0; 0; 0; 1; 0; 5; 0; 0x85; 0; 0; 0x2a]
    (mk_header (mk_flags 1 1 true false false) 255 7 1 5 0 0x85 [mk_ext 0x85 []]) 14 false).
Proof. reflexivity. Qed.

(** A PDU that ends right after the type of its first extension header is accepted too. *)
Lemma gtpu_missing_extension_accepted :
  gtpu_dissect_pdu [0x34; 0xff; 0; 4; 0; 0; 0; 1; 0; 5; 0; 0x85] =
  Some (mk_dissected [0x34; 0xff; 0; 4; 0; 0; 0; 1; 0; 5; 0; 0x85]
    (mk_header (mk_flags 1 1 true false false) 255 4 1 5 0 0x85 [mk_ext 0x85 []]) 12 false).
Proof. reflexivity. Qed.
