(* ===== verification/TokenBucket.v ===== *)
(** * Token bucket: the limiter of the UE's aggregate rate

    Models [token_bucket] of [include/srsran/support/rate_limiting/token_bucket.h] and
    [lib/support/rate_limiting/token_bucket.cpp]: the tokens are 32-bit integers, their difference is
    read as a signed one.  [generate_token_bucket_config] computes with floating-point numbers and is
    left out; the configuration is an argument. *)

From S2P Require Import Prelude Effects Timers.
Open Scope Z_scope.
Open Scope entity_scope.

Module TokenBucket.

Record token_bucket_config := mk_config { refill_token : Z; refill_period : Z; cfg_max_tokens : Z }.

(** [bucket_refill] is the number that the callback of the timer captures. *)
Record token_bucket := mk_bucket {
  max_tokens : Z;
  tokens_in_bucket : Z;
  bucket_refill : Z;
  refill_timer : unique_timer;
  bucket_stopped : bool
}.

Definition B (A : Type) : Type := M token_bucket Empty_set A.

Definition set_tokens (v : Z) (b : token_bucket) : token_bucket := mk_bucket (max_tokens b) v (bucket_refill b) (refill_timer b) (bucket_stopped b).
Definition set_refill_timer (v : unique_timer) (b : token_bucket) : token_bucket := mk_bucket (max_tokens b) (tokens_in_bucket b) (bucket_refill b) v (bucket_stopped b).
Definition set_bucket_stopped (b : token_bucket) : token_bucket := mk_bucket (max_tokens b) (tokens_in_bucket b) (bucket_refill b) (refill_timer b) true.

(** [None]: an assertion on the configuration fails. *)
Definition create (cfg : token_bucket_config) : option token_bucket :=
  if (refill_token cfg =? 0) || (cfg_max_tokens cfg =? 0) || (cfg_max_tokens cfg <? refill_token cfg) || (MAX_TIMER_DURATION <? refill_period cfg) then None else
  Some (mk_bucket (cfg_max_tokens cfg) (cfg_max_tokens cfg) (refill_token cfg)
          (push_cmd (mk_timer timer_running (Some (refill_period cfg)) 0)) false).

Definition run_refill_timer : B unit :=
  let! b := get in
  let! tm := timer_run (refill_timer b) in
  modify (set_refill_timer tm).

(** [int32_t(x)] of a 32-bit number. *)
Definition s32 (x : Z) : Z := if x <? 2147483648 then x else x - 4294967296.

Definition consume (tokens : Z) : B bool :=
  let! b := get in
  if bucket_stopped b then ret false else
  let tokens_left := s32 (u32 (tokens_in_bucket b - tokens)) in
  if tokens_left <? 0 then ret false else
  modify (set_tokens tokens_left) ;;;
  when (negb (is_running (refill_timer b))) run_refill_timer ;;;
  ret true.

Definition refill (tokens : Z) : B unit :=
  let! b := get in
  if bucket_stopped b then ret tt else
  let tokens_added := u32 (tokens_in_bucket b + tokens) in
  modify (set_tokens (Z.min (max_tokens b) tokens_added)) ;;;
  if Z.min (max_tokens b) tokens_added =? max_tokens b then modify (fun b => set_refill_timer (timer_stop (refill_timer b)) b)
  else run_refill_timer.

(** The expiry task of the timer. *)
Definition refill_timeout (epoch : Z) : B unit :=
  let! b := get in
  let! r := timeout_task (refill_timer b) epoch in
  modify (set_refill_timer (fst r)) ;;;
  when (snd r) (refill (bucket_refill b)).

Definition stop (b : token_bucket) : token_bucket :=
  if bucket_stopped b then b else set_bucket_stopped (set_refill_timer (timer_stop (refill_timer b)) b).

End TokenBucket.

Import TokenBucket.

(** ** Invariant *)

(** Signed differences are exact up to here: about 172 Gbit/s with the refill period of 100 ms the CU-UP uses. *)
Definition max_sane_tokens : Z := 2147483647.

Record bucket_ok (b : token_bucket) : Prop := {
  bo_max : 0 < bucket_refill b <= max_tokens b /\ max_tokens b <= max_sane_tokens;
  bo_level : 0 <= tokens_in_bucket b <= max_tokens b;
  bo_set : is_set (refill_timer b) = true;
  bo_refills : bucket_stopped b = false -> tokens_in_bucket b < max_tokens b -> is_running (refill_timer b) = true
}.

Lemma bucket_ok_create cfg b : 0 <= refill_token cfg -> cfg_max_tokens cfg <= max_sane_tokens -> create cfg = Some b ->
  bucket_ok b /\ bucket_stopped b = false /\ tokens_in_bucket b = max_tokens b /\ max_tokens b = cfg_max_tokens cfg /\ bucket_refill b = refill_token cfg.
Proof.
  unfold create. intros H0 Hm. destruct (_ || _) eqn:E; [done|]. bool_prop. intros [= <-]. split; [|done]. constructor; simpl; [lia|lia|done|done].
Qed.

Lemma s32_diff a n : 0 <= a <= max_sane_tokens -> 0 <= n <= max_sane_tokens -> s32 (u32 (a - n)) = a - n.
Proof. unfold s32, u32, max_sane_tokens. change (2 ^ 32) with 4294967296. intros. destruct (Z.ltb_spec ((a - n) mod 4294967296) 2147483648); zmod. Qed.

Lemma wp_run_refill_timer b (Q : unit -> token_bucket -> list Empty_set -> Prop) :
  is_set (refill_timer b) = true ->
  (forall tm, is_running tm = true -> is_set tm = true -> Q tt (set_refill_timer tm b) []) -> wp run_refill_timer Q b.
Proof. intros Hs HQ. unfold run_refill_timer. do 3 wp_step. unfold timer_run. rewrite Hs. cbn [negb]. do 2 wp_step. by apply HQ. Qed.

(** A request is granted exactly when the bucket holds that many tokens. *)
Lemma wp_consume b n (Q : bool -> token_bucket -> list Empty_set -> Prop) : bucket_ok b -> 0 <= n <= max_sane_tokens ->
  (forall b', bucket_ok b' -> bucket_stopped b' = bucket_stopped b -> max_tokens b' = max_tokens b -> bucket_refill b' = bucket_refill b ->
     let granted := negb (bucket_stopped b) && (n <=? tokens_in_bucket b) in
     tokens_in_bucket b' = (if granted then tokens_in_bucket b - n else tokens_in_bucket b) -> Q granted b' []) ->
  wp (consume n) Q b.
Proof.
  intros Hb Hn HQ. unfold consume. do 2 wp_step. destruct (bucket_stopped b) eqn:Es; [wp_step; by apply (HQ b)|].
  pose proof (bo_level b Hb). pose proof (bo_max b Hb). rewrite s32_diff by lia. cbn [negb andb] in HQ. cbv zeta in *. destruct (Z.ltb_spec (tokens_in_bucket b - n) 0).
  { wp_step. rewrite (proj2 (Z.leb_gt _ _)) in HQ by lia. by apply (HQ b). }
  rewrite (proj2 (Z.leb_le _ _)) in HQ by lia. do 4 wp_step.
  - apply wp_run_refill_timer; [by apply (bo_set b)|]. intros tm Hr Hset. wp_step. apply HQ; try done. constructor; simpl; [done|lia|done|done].
  - wp_step. apply HQ; try done. bool_prop. constructor; simpl; [done|lia|by apply (bo_set b)|done].
Qed.

Lemma wp_refill_timeout b epoch (Q : unit -> token_bucket -> list Empty_set -> Prop) : bucket_ok b ->
  (tm_cmd_id (refill_timer b) = epoch -> is_running (refill_timer b) = true) ->
  (forall b', bucket_ok b' -> bucket_stopped b' = bucket_stopped b -> max_tokens b' = max_tokens b -> bucket_refill b' = bucket_refill b ->
     tokens_in_bucket b' = (if (tm_cmd_id (refill_timer b) =? epoch) && negb (bucket_stopped b) then Z.min (max_tokens b) (tokens_in_bucket b + bucket_refill b) else tokens_in_bucket b) ->
     Q tt b' []) ->
  wp (refill_timeout epoch) Q b.
Proof.
  intros Hb Hrun HQ. unfold refill_timeout. do 3 wp_step. apply wp_timeout_task; [done| |]; intros E; do 2 wp_step; cbn [fst snd when].
  - rewrite (proj2 (Z.eqb_eq _ _) E) in HQ. cbn [andb] in HQ. unfold refill. do 2 wp_step. cbn [bucket_stopped set_refill_timer].
    destruct (bucket_stopped b) eqn:Es; [wp_step; apply HQ; try done; constructor; simpl; try apply Hb; congruence|]. cbn [negb] in HQ.
    pose proof (bo_level b Hb). pose proof (bo_max b Hb) as [? Hmax]. unfold max_sane_tokens in Hmax. cbn [tokens_in_bucket bucket_refill max_tokens set_refill_timer].
    rewrite u32_small by lia. cbv zeta. do 2 wp_step. destruct (Z.eqb_spec (Z.min (max_tokens b) (tokens_in_bucket b + bucket_refill b)) (max_tokens b)).
    + wp_step. apply HQ; try done. constructor; simpl; [by apply Hb|lia|rewrite is_set_stop; by apply (bo_set b)|lia].
    + apply wp_run_refill_timer; [by apply (bo_set b)|]. intros tm Hr Hset. apply HQ; try done. constructor; simpl; [by apply Hb|lia|done|done].
  - wp_step. rewrite (proj2 (Z.eqb_neq _ _) E) in HQ. cbn [andb] in HQ. by apply HQ; destruct b.
Qed.

Lemma bucket_ok_stop b : bucket_ok b -> bucket_ok (stop b).
Proof.
  intros Hb. unfold stop. destruct (bucket_stopped b) eqn:E; [done|]. constructor; simpl; [by apply Hb|by apply (bo_level b)|rewrite is_set_stop; by apply (bo_set b)|done].
Qed.

(** ** Runs *)

Inductive bucket_op := op_consume (n : Z) | op_expire (epoch : Z) | op_stop.

(** The tokens granted and the refills done. *)
Definition run_op (o : bucket_op) : B Z :=
  match o with
  | op_consume n => let! granted := consume n in ret (if granted then n else 0)
  | op_expire epoch => refill_timeout epoch ;;; ret 0
  | op_stop => modify stop ;;; ret 0
  end.

Definition op_ok (b : token_bucket) (o : bucket_op) : Prop :=
  match o with
  | op_consume n => 0 <= n <= max_sane_tokens
  | op_expire epoch => tm_cmd_id (refill_timer b) = epoch -> is_running (refill_timer b) = true
  | op_stop => True
  end.
Definition refills (b : token_bucket) (o : bucket_op) : Z :=
  match o with op_expire epoch => if tm_cmd_id (refill_timer b) =? epoch then 1 else 0 | _ => 0 end.

(** [granted] tokens after [n] expiries of the refill timer. *)
Inductive bucket_run (cfg : token_bucket_config) : token_bucket -> Z -> Z -> Prop :=
| br_create b : create cfg = Some b -> bucket_run cfg b 0 0
| br_step b granted n o b' k es : bucket_run cfg b granted n -> op_ok b o -> run_op o b = Ok (k, b', es) ->
    bucket_run cfg b' (granted + k) (n + refills b o).

Record run_inv (cfg : token_bucket_config) (b : token_bucket) (granted n : Z) : Prop := {
  ri_ok : bucket_ok b;
  ri_max : max_tokens b = cfg_max_tokens cfg;
  ri_refill : bucket_refill b = refill_token cfg;
  ri_granted : 0 <= granted /\ granted + tokens_in_bucket b <= cfg_max_tokens cfg + n * refill_token cfg
}.

Lemma wp_run_op cfg b granted n o : run_inv cfg b granted n -> op_ok b o ->
  wp (run_op o) (fun k b' _ => run_inv cfg b' (granted + k) (n + refills b o)) b.
Proof.
  intros [Hb Hm Hr Hg] Ho. pose proof (bo_max b Hb). destruct o as [m|epoch|]; cbn [run_op op_ok refills] in *.
  - wp_step. apply wp_consume; [done|done|]. intros b' Hb' _ Hm' Hr' granted' Hl. wp_step. constructor; [done|lia|lia|]. destruct granted' eqn:E; [|lia]. lia.
  - wp_step. apply wp_refill_timeout; [done|done|]. intros b' Hb' _ Hm' Hr' Hl. wp_step. constructor; [done|lia|lia|].
    destruct (tm_cmd_id (refill_timer b) =? epoch); cbn [andb] in Hl; [|lia]. destruct (negb (bucket_stopped b)); lia.
  - do 3 wp_step. constructor; [by apply bucket_ok_stop|..]; unfold stop; destruct (bucket_stopped b); simpl; lia.
Qed.

Lemma bucket_run_inv cfg b granted n : 0 <= refill_token cfg -> cfg_max_tokens cfg <= max_sane_tokens -> bucket_run cfg b granted n -> run_inv cfg b granted n.
Proof.
  intros H0 Hm. induction 1 as [b Hc|b granted n o b' k es _ IH Ho E].
  - destruct (bucket_ok_create cfg b H0 Hm Hc) as (Hb & _ & Hl & Hx & Hf). constructor; [done|done|done|lia].
  - pose proof (wp_run_op cfg b granted n o IH Ho) as Hw. unfold wp in Hw. by rewrite E in Hw.
Qed.

(** As long as the bucket's size fits 31 bits: no operation aborts; a request is granted exactly when the
    bucket is not stopped and holds enough tokens; all that was granted is bounded by the bucket's size
    and one refill for every expiry of the timer; and a bucket that is not full keeps its timer running. *)
Theorem token_bucket_limits cfg b granted n o : 0 <= refill_token cfg -> cfg_max_tokens cfg <= max_sane_tokens ->
  bucket_run cfg b granted n -> op_ok b o ->
  granted + tokens_in_bucket b <= cfg_max_tokens cfg + n * refill_token cfg /\ 0 <= tokens_in_bucket b <= cfg_max_tokens cfg /\
  (bucket_stopped b = false -> tokens_in_bucket b < cfg_max_tokens cfg -> is_running (refill_timer b) = true) /\
  exists k b' es, run_op o b = Ok (k, b', es) /\
    match o with op_consume m => k = if negb (bucket_stopped b) && (m <=? tokens_in_bucket b) then m else 0 | _ => k = 0 end.
Proof.
  intros H0 Hm Hrun Ho. pose proof (bucket_run_inv cfg b granted n H0 Hm Hrun) as [Hb Hmax Hr Hg]. split; [lia|]. split; [rewrite <- Hmax; apply (bo_level b Hb)|].
  split; [rewrite <- Hmax; apply (bo_refills b Hb)|]. apply (wp_run (run_op o)). destruct o; cbn [run_op op_ok] in *.
  - wp_step. apply wp_consume; [done|done|]. intros. by wp_step.
  - wp_step. apply wp_refill_timeout; [done|done|]. intros. by wp_step.
  - by do 3 wp_step.
Qed.

Lemma token_bucket_limits_witness :
  let cfg := mk_config 100 100 1000 in
  exists b granted, bucket_run cfg b granted 1 /\ granted + tokens_in_bucket b <= 1000 + 1 * 100.
Proof.
  intros cfg. destruct (create cfg) as [b0|] eqn:E0; [|discriminate E0].
  destruct (run_op (op_consume 700) b0) as [[[k1 b1] es1]|] eqn:E1; [|injection E0 as <-; discriminate E1].
  pose proof (br_step cfg _ _ _ (op_consume 700) b1 k1 es1 (br_create cfg b0 E0) ltac:(split; done) E1) as R1.
  injection E0 as <-. injection E1 as <- <- <-.
  lazymatch type of R1 with bucket_run _ ?b1 _ _ => destruct (run_op (op_expire 1) b1) as [[[k2 b2] es2]|] eqn:E2 end; [|discriminate E2].
  pose proof (br_step cfg _ _ _ (op_expire 1) b2 k2 es2 R1 ltac:(done) E2) as R2.
  exists b2, (0 + 700 + k2). split; [exact R2|].
  exact (proj1 (token_bucket_limits cfg b2 _ 1 op_stop ltac:(done) ltac:(done) R2 I)).
Defined.

(** A bucket of 2^31 tokens or more, which an aggregate rate of 172 Gbit/s gives, refuses what it could
    grant: the difference is read as a negative number. *)
Theorem token_bucket_large_refuses b n : bucket_stopped b = false -> max_sane_tokens + 1 + n <= tokens_in_bucket b < 4294967296 -> 0 <= n ->
  consume n b = Ok (false, b, []).
Proof.
  intros Hs Ht Hn. unfold consume, bind, get. rewrite Hs. unfold max_sane_tokens in Ht. rewrite u32_small by lia.
  assert (s32 (tokens_in_bucket b - n) <? 0 = true) as -> by (unfold s32; destruct (Z.ltb_spec (tokens_in_bucket b - n) 2147483648); lia). done.
Qed.

Lemma token_bucket_large_refuses_witness :
  exists b, create (mk_config 2500000000 100 2500000000) = Some b /\ consume 1500 b = Ok (false, b, []).
Proof. eexists. split; [reflexivity|]. apply token_bucket_large_refuses; [done|split; done|done]. Defined.
