(* ===== verification/GtpuNgu.v ===== *)
(** * GTP-U tunnels of the NG-U interface

    Models [lib/gtpu/gtpu_tunnel_ngu_rx_impl.h], [gtpu_tunnel_ngu_tx_impl.h], [gtpu_tunnel_impl_ngu.h] and
    the entry point of [gtpu_tunnel_base_rx.h].  The receiver takes a PDU whose PDU session container it
    can read, puts it in order by its sequence number and passes the SDU with its QoS flow to the lower
    layer; the limiter of the UE's aggregate rate is part of the state.  Logging is left out. *)

From S2P Require Import Prelude Effects Window Timers BitEncoding BitFields NruPacking GtpuPdu TokenBucket.
Open Scope Z_scope.
Open Scope entity_scope.

Module GtpuNgu.

(** ** Receiver *)

Record ngu_rx_config := mk_rx_config { rx_local_teid : Z; rx_t_reordering : Z; rx_ignore_ue_ambr : bool; rx_test_mode : bool }.

Definition gtpu_sn_mod : Z := 65536.
Definition gtpu_rx_window_size : Z := 32768.

Record gtpu_rx_state := mk_state { rx_next : Z; rx_deliv : Z; rx_reord : Z }.

Record gtpu_rx_sdu_info := mk_info { info_sdu : list Z; info_qfi : Z; info_sn : option Z }.
Definition rx_sdu_info_default : gtpu_rx_sdu_info := mk_info [] Psup.qos_flow_id_invalid None.

Record gtpu_tunnel_ngu_rx_impl := mk_rx {
  config : ngu_rx_config;
  rx_stopped : bool;
  st : gtpu_rx_state;
  rx_window : CircularMap.t gtpu_rx_sdu_info;
  reordering_timer : unique_timer;
  ue_ambr_limiter : TokenBucket.token_bucket
}.

Inductive rx_event := on_new_sdu (sdu : list Z) (qos_flow_id : Z).

Definition set_rx_stopped (e : gtpu_tunnel_ngu_rx_impl) : gtpu_tunnel_ngu_rx_impl := mk_rx (config e) true (st e) (rx_window e) (reordering_timer e) (ue_ambr_limiter e).
Definition set_st (v : gtpu_rx_state) (e : gtpu_tunnel_ngu_rx_impl) : gtpu_tunnel_ngu_rx_impl :=
  mk_rx (config e) (rx_stopped e) v (rx_window e) (reordering_timer e) (ue_ambr_limiter e).
Definition set_rx_window (v : CircularMap.t gtpu_rx_sdu_info) (e : gtpu_tunnel_ngu_rx_impl) : gtpu_tunnel_ngu_rx_impl :=
  mk_rx (config e) (rx_stopped e) (st e) v (reordering_timer e) (ue_ambr_limiter e).
Definition set_reordering_timer (v : unique_timer) (e : gtpu_tunnel_ngu_rx_impl) : gtpu_tunnel_ngu_rx_impl :=
  mk_rx (config e) (rx_stopped e) (st e) (rx_window e) v (ue_ambr_limiter e).
Definition set_ue_ambr_limiter (v : TokenBucket.token_bucket) (e : gtpu_tunnel_ngu_rx_impl) : gtpu_tunnel_ngu_rx_impl :=
  mk_rx (config e) (rx_stopped e) (st e) (rx_window e) (reordering_timer e) v.
Definition set_rx_next (v : Z) (e : gtpu_tunnel_ngu_rx_impl) : gtpu_tunnel_ngu_rx_impl := set_st (mk_state v (rx_deliv (st e)) (rx_reord (st e))) e.
Definition set_rx_deliv (v : Z) (e : gtpu_tunnel_ngu_rx_impl) : gtpu_tunnel_ngu_rx_impl := set_st (mk_state (rx_next (st e)) v (rx_reord (st e))) e.
Definition set_rx_reord (v : Z) (e : gtpu_tunnel_ngu_rx_impl) : gtpu_tunnel_ngu_rx_impl := set_st (mk_state (rx_next (st e)) (rx_deliv (st e)) v) e.

Definition H (A : Type) : Type := M gtpu_tunnel_ngu_rx_impl rx_event A.

(** [None]: the duration of the timer is refused. *)
Definition create (cfg : ngu_rx_config) (limiter : TokenBucket.token_bucket) : option gtpu_tunnel_ngu_rx_impl :=
  if MAX_TIMER_DURATION <? rx_t_reordering cfg then None else
  let timer := if negb (rx_t_reordering cfg =? 0) then mk_timer timer_stopped (Some (rx_t_reordering cfg)) 0 else create_timer in
  Some (mk_rx cfg false (mk_state 0 0 0) (CircularMap.empty_map gtpu_rx_window_size) timer limiter).

Definition stop (e : gtpu_tunnel_ngu_rx_impl) : gtpu_tunnel_ngu_rx_impl :=
  if rx_stopped e then e else set_rx_stopped (set_reordering_timer (timer_stop (reordering_timer e)) e).

Definition rx_mod_base (e : gtpu_tunnel_ngu_rx_impl) (sn : Z) : Z := u16 (u32 (sn - rx_deliv (st e)) mod gtpu_sn_mod).
Definition inside_rx_window (e : gtpu_tunnel_ngu_rx_impl) (sn : Z) : bool := rx_mod_base e sn <? gtpu_rx_window_size.
Definition has_sn (e : gtpu_tunnel_ngu_rx_impl) (sn : Z) : bool := SduWindow.has_sn (rx_window e) sn.

Definition consume (n : Z) : H bool :=
  lift ue_ambr_limiter set_ue_ambr_limiter (fun ev : Empty_set => match ev with end) (TokenBucket.consume (u32 n)).

Definition deliver_sdu (sdu_info : gtpu_rx_sdu_info) : H unit := emit (on_new_sdu (info_sdu sdu_info) (info_qfi sdu_info)).

(** The SDU under RX_DELIV is delivered and removed. *)
Definition deliver_and_remove : H unit :=
  let! e := get in
  let! sdu_info := SduWindow.index (rx_window e) (rx_deliv (st e)) in
  deliver_sdu sdu_info ;;;
  let! w := SduWindow.remove_sn (rx_window e) (rx_deliv (st e)) in
  modify (set_rx_window w).
Definition advance_rx_deliv : H unit := modify (fun e => set_rx_deliv (u16 (rx_deliv (st e) + 1)) e).

(** A loop that moves RX_DELIV up to [target] takes as many turns as the distance, plus one. *)
Definition deliv_fuel (e : gtpu_tunnel_ngu_rx_impl) (target : Z) : nat := Datatypes.S (Z.to_nat (u16 (target - rx_deliv (st e)))).

Definition consecutive_step (_ : unit) : H (unit + unit) :=
  let! e := get in
  if negb (rx_deliv (st e) =? rx_next (st e)) && has_sn e (rx_deliv (st e)) then
    deliver_and_remove ;;; advance_rx_deliv ;;; ret (inl tt)
  else ret (inr tt).
Definition deliver_all_consecutive_sdus : H unit :=
  let! e := get in while_loop (deliv_fuel e (rx_next (st e))) consecutive_step tt.

Definition expire_step (_ : unit) : H (unit + unit) :=
  let! e := get in
  if rx_deliv (st e) =? rx_reord (st e) then ret (inr tt) else
  when (has_sn e (rx_deliv (st e))) deliver_and_remove ;;;
  advance_rx_deliv ;;; ret (inl tt).

(** RX_REORD is set to RX_NEXT and the timer runs. *)
Definition supervise_up_to_next : H unit :=
  modify (fun e => set_rx_reord (rx_next (st e)) e) ;;;
  let! e := get in
  let! tm := timer_run (reordering_timer e) in
  modify (set_reordering_timer tm).

Definition handle_t_reordering_expire : H unit :=
  let! e := get in
  if is_running (reordering_timer e) then ret tt else
  if negb (inside_rx_window e (rx_reord (st e))) then ret tt else
  while_loop (deliv_fuel e (rx_reord (st e))) expire_step tt ;;;
  deliver_all_consecutive_sdus ;;;
  let! e := get in
  when (rx_mod_base e (rx_deliv (st e)) <? rx_mod_base e (rx_next (st e)))
    (when (negb (rx_t_reordering (config e) =? 0)) supervise_up_to_next).

(** The expiry task with the callback. *)
Definition reordering_timeout (epoch : Z) : H unit :=
  let! e := get in
  let! r := timeout_task (reordering_timer e) epoch in
  modify (set_reordering_timer (fst r)) ;;;
  when (snd r) handle_t_reordering_expire.

(** The loop over the extension headers: the first PDU session container that can be read. *)
Definition session_info (ext_list : list Gtpu.gtpu_extension_header) : option Psup.psup_dl_pdu_session_information :=
  fold_left (fun info ext =>
    if Gtpu.extension_header_type ext =? Gtpu.pdu_session_container then
      match info with None => Psup.unpack Psup.info_default (Gtpu.container ext) | Some _ => info end
    else info) ext_list None.

(** The rest of [handle_pdu] for an SDU with a sequence number inside the window. *)
Definition store_sdu (sn : Z) (sdu_info : gtpu_rx_sdu_info) : H unit :=
  let! e := get in
  let! w := SduWindow.add_sn rx_sdu_info_default (rx_window e) sn in
  modify (set_rx_window (CircularMap.set_at w (u32 sn) sdu_info)).

Definition handle_timers : H unit :=
  let! e := get in
  when (is_running (reordering_timer e) && negb (inside_rx_window e (rx_reord (st e))))
    (modify (set_reordering_timer (timer_stop (reordering_timer e)))) ;;;
  let! e := get in
  if rx_t_reordering (config e) =? 0 then
    modify (set_rx_reord (rx_next (st e))) ;;; handle_t_reordering_expire
  else
    when (negb (is_running (reordering_timer e)) && (rx_mod_base e (rx_deliv (st e)) <? rx_mod_base e (rx_next (st e))))
      supervise_up_to_next.

Definition handle_sdu_in_window (sn : Z) (sdu_info : gtpu_rx_sdu_info) : H unit :=
  store_sdu sn sdu_info ;;;
  let! e := get in
  when (rx_mod_base e (rx_next (st e)) <=? rx_mod_base e sn) (modify (set_rx_next (u16 (sn + 1)))) ;;;
  let! e := get in
  when (rx_mod_base e sn =? rx_mod_base e (rx_deliv (st e))) deliver_all_consecutive_sdus ;;;
  handle_timers.

(** [handle_pdu] of the tunnel. *)
Definition handle_dissected_pdu (pdu : Gtpu.gtpu_dissected_pdu) : H unit :=
  let! e := get in
  if rx_stopped e then ret tt else
  let! admitted := (if rx_ignore_ue_ambr (config e) then ret true else consume (zlen (Gtpu.buf pdu))) in
  if negb admitted then ret tt else
  if Gtpu.test_mode pdu then deliver_sdu (mk_info (Gtpu.buf pdu) 1 None) else
  match session_info (Gtpu.ext_list (Gtpu.hdr pdu)) with
  | None => ret tt
  | Some info =>
      let! rx_sdu := (match Gtpu.gtpu_extract_msg pdu with Ok sdu => ret sdu | Fault _ => abort end) in
      if negb (Gtpu.f_seq_number (Gtpu.flags (Gtpu.hdr pdu))) || (rx_t_reordering (config e) =? 0)
      then deliver_sdu (mk_info rx_sdu (Psup.qos_flow_id info) None)
      else
        let sn := Gtpu.seq_number (Gtpu.hdr pdu) in
        let! e := get in
        let rx_sdu_info := mk_info rx_sdu (Psup.qos_flow_id info) (Some sn) in
        if negb (inside_rx_window e sn) then deliver_sdu rx_sdu_info else
        if rx_mod_base e sn <? rx_mod_base e (rx_deliv (st e)) then deliver_sdu rx_sdu_info else
        if has_sn e sn then ret tt else
        handle_sdu_in_window sn rx_sdu_info
  end.

(** [handle_pdu] of the base class; in test mode the header of the PDU keeps its initial value. *)
Definition test_header : Gtpu.gtpu_header := Gtpu.mk_header (Gtpu.mk_flags 0 0 false false false) 0 0 0 0 0 0 [].
Definition handle_pdu (buf : list Z) : H unit :=
  let! e := get in
  if rx_test_mode (config e) then handle_dissected_pdu (Gtpu.mk_dissected buf test_header 0 true) else
  match Gtpu.gtpu_dissect_pdu buf with
  | None => ret tt
  | Some pdu => handle_dissected_pdu pdu
  end.

(** ** Transmitter *)

Record gtpu_tunnel_ngu_tx_impl := mk_tx { tx_peer_teid : Z; tx_stopped : bool }.
Definition tx_stop (t : gtpu_tunnel_ngu_tx_impl) : gtpu_tunnel_ngu_tx_impl := mk_tx (tx_peer_teid t) true.

(** The UL PDU SESSION INFORMATION of a QoS flow. *)
Definition ul_container (qfi : Z) : list Z := be_bytes (pack_all [(4, 1); (4, 0); (1, 0); (7, qfi)] new_encoder).

Definition tx_header (teid qfi : Z) (buf : list Z) : Gtpu.gtpu_header :=
  Gtpu.mk_header (Gtpu.mk_flags Gtpu.GTPU_FLAGS_VERSION_V1 Gtpu.GTPU_FLAGS_GTP_PROTOCOL true false false) Gtpu.GTPU_MSG_DATA_PDU
    (u16 (zlen buf + 4 + 4)) teid 0 0 Gtpu.pdu_session_container [Gtpu.mk_ext Gtpu.pdu_session_container (ul_container qfi)].

(** The PDU handed to the upper layer; [Fault] is an assertion. *)
Definition handle_sdu (t : gtpu_tunnel_ngu_tx_impl) (buf : list Z) (qfi : Z) : res (option (list Z)) :=
  if tx_stopped t then Ok None else Gtpu.gtpu_write_header buf (tx_header (tx_peer_teid t) qfi buf).

End GtpuNgu.
