(* ===== verification/GtpuNguRefine.v ===== *)
(** * NG-U receiver: specification and refinement

    An abstract receiver with unbounded sequence numbers and a record of every SDU it ever took.  SDU [k]
    stands for sequence number [k] modulo 65536; what arrives outside the window is passed on at once. *)

From S2P Require Import Prelude Effects Window Timers BitEncoding BitFields NruPacking GtpuPdu GtpuPduFacts TokenBucket GtpuNgu.
Open Scope Z_scope.

Module NguReceiver.

Definition sdu : Type := list Z * Z.

(** [reord]: while t-Reordering runs, the number it was started with. *)
Record receiver := mk_receiver { deliv : Z; next : Z; reord : option Z; taken : gmap Z sdu }.
Definition initial : receiver := mk_receiver 0 0 None ∅.
Definition W : Z := GtpuNgu.gtpu_rx_window_size.

(** The SDUs taken with numbers in [a, b), each with its number, in ascending order. *)
Definition from_to (t : gmap Z sdu) (a b : Z) : list (option Z * sdu) :=
  omap (fun k => (fun s => (Some k, s)) <$> t !! k) (seqZ a (b - a)).

(** The first number from [k] on that was not taken, among [n] of them. *)
Fixpoint first_missing (n : nat) (t : gmap Z sdu) (k : Z) : Z :=
  match n with
  | O => k
  | S n => match t !! k with Some _ => first_missing n t (k + 1) | None => k end
  end.

(** Everything up to the first missing number from [k] on is delivered. *)
Definition deliver_from (k : Z) (r : receiver) : receiver * list (option Z * sdu) :=
  let d := first_missing (Z.to_nat (next r - k)) (taken r) k in
  (mk_receiver d (next r) (reord r) (taken r), from_to (taken r) (deliv r) d).

(** t-Reordering stops once its number has left the window at the lower edge, and is started when something is missing. *)
Definition supervise (r : receiver) : receiver :=
  let reord := match reord r with Some R => if (0 <=? R - deliv r) && (R - deliv r <? W) then Some R else None | None => None end in
  mk_receiver (deliv r) (next r)
    (match reord with Some R => Some R | None => if deliv r <? next r then Some (next r) else None end) (taken r).

Definition number_of (sn : Z) (r : receiver) : Z := deliv r + (sn - deliv r) mod GtpuNgu.gtpu_sn_mod.

Definition receive_numbered (k : Z) (s : sdu) (r : receiver) : receiver * list (option Z * sdu) :=
  if W <=? k - deliv r then (r, [(None, s)]) else
  match taken r !! k with
  | Some _ => (r, [])
  | None =>
      let r := mk_receiver (deliv r) (Z.max (next r) (k + 1)) (reord r) (<[k := s]> (taken r)) in
      let '(r, out) := if k =? deliv r then deliver_from k r else (r, []) in
      (supervise r, out)
  end.

(** What a PDU carries: its SDU and, when it is to be put in order, its sequence number. *)
Definition contents (cfg : GtpuNgu.ngu_rx_config) (buf : list Z) : option (option Z * sdu) :=
  if GtpuNgu.rx_test_mode cfg then Some (None, (buf, 1)) else
  match Gtpu.gtpu_dissect_pdu buf with
  | None => None
  | Some p =>
      match GtpuNgu.session_info (Gtpu.ext_list (Gtpu.hdr p)) with
      | None => None
      | Some info =>
          Some (if Gtpu.f_seq_number (Gtpu.flags (Gtpu.hdr p)) && negb (GtpuNgu.rx_t_reordering cfg =? 0) then Some (Gtpu.seq_number (Gtpu.hdr p)) else None,
                (drop (Z.to_nat (Gtpu.hdr_len p)) buf, Psup.qos_flow_id info))
      end
  end.

Definition receive_pdu (cfg : GtpuNgu.ngu_rx_config) (buf : list Z) (r : receiver) : receiver * list (option Z * sdu) :=
  match contents cfg buf with
  | None => (r, [])
  | Some (None, s) => (r, [(None, s)])
  | Some (Some sn, s) => receive_numbered (number_of sn r) s r
  end.

(** t-Reordering expires.  A number that lies a whole window ahead is not looked at. *)
Definition expire (r : receiver) : receiver * list (option Z * sdu) :=
  match reord r with
  | None => (r, [])
  | Some R =>
      if W <=? R - deliv r then (mk_receiver (deliv r) (next r) None (taken r), []) else
      let '(r, out) := deliver_from R r in
      (mk_receiver (deliv r) (next r) (if deliv r <? next r then Some (next r) else None) (taken r), out)
  end.

(** ** Theory *)

Record receiver_ok (r : receiver) : Prop := {
  ro_order : 0 <= deliv r <= next r /\ next r <= deliv r + W;
  ro_taken : forall k, is_Some (taken r !! k) -> 0 <= k < next r;
  ro_gap : taken r !! deliv r = None;
  ro_reord : forall R, reord r = Some R -> deliv r <= R <= next r
}.

(** Whenever something is missing t-Reordering runs, unless the numbers seen span the whole window. *)
Definition supervised (r : receiver) : Prop := reord r <> None \/ deliv r = next r \/ next r = deliv r + W.

Lemma first_missing_spec n t k : k <= first_missing n t k <= k + Z.of_nat n /\
  (forall j, k <= j < first_missing n t k -> is_Some (t !! j)) /\ (first_missing n t k = k + Z.of_nat n \/ t !! first_missing n t k = None).
Proof.
  revert k. induction n as [|n IH]; intros k; cbn [first_missing]; [split; [lia|]; split; [lia|left; lia]|].
  destruct (t !! k) eqn:E; [|split; [lia|]; split; [lia|by right]]. destruct (IH (k + 1)) as (H1 & H2 & H3).
  split; [lia|]. split; [|destruct H3; [left; lia|by right]]. intros j Hj. destruct (Z.eq_dec j k) as [->|]; [by rewrite E|]. apply H2. lia.
Qed.

(** The stopping point is determined by what was taken. *)
Lemma first_missing_unique n t k d : k <= d <= k + Z.of_nat n -> (forall j, k <= j < d -> is_Some (t !! j)) -> t !! d = None -> first_missing n t k = d.
Proof.
  intros Hd Hall Hn. destruct (first_missing_spec n t k) as (H1 & H2 & H3). destruct (Z.lt_trichotomy (first_missing n t k) d) as [Hlt|[E|Hgt]]; [|done|].
  - destruct H3 as [E|E]; [lia|]. destruct (Hall (first_missing n t k)) as [x Hx]; [lia|]. congruence.
  - destruct (H2 d) as [x Hx]; [lia|]. congruence.
Qed.

Lemma from_to_nil t a : from_to t a a = [].
Proof. unfold from_to. by rewrite Z.sub_diag. Qed.
Lemma from_to_app t a b c : a <= b <= c -> from_to t a b ++ from_to t b c = from_to t a c.
Proof.
  intros. unfold from_to. rewrite <- omap_app. f_equal. replace (c - a) with ((b - a) + (c - b)) by lia. rewrite seqZ_app by lia. do 2 f_equal. lia.
Qed.
Lemma from_to_one t a : from_to t a (a + 1) = match t !! a with Some s => [(Some a, s)] | None => [] end.
Proof. unfold from_to. replace (a + 1 - a) with 1 by lia. unfold seqZ. simpl. rewrite Z.add_0_l. by destruct (t !! a). Qed.
Lemma from_to_ext t t' a b : (forall k, a <= k < b -> t !! k = t' !! k) -> from_to t a b = from_to t' a b.
Proof.
  intros H. unfold from_to. apply list_omap_ext. apply Forall2_same_length_lookup_2; [done|]. intros i x y Hx Hy. assert (x = y) as -> by congruence. apply lookup_seqZ in Hx as [-> Hi]. rewrite H; [done|lia].
Qed.

Lemma missing_next r k : (forall k, is_Some (taken r !! k) -> 0 <= k < next r) -> next r <= k -> taken r !! k = None.
Proof. intros H Hk. destruct (taken r !! k) eqn:E; [|done]. destruct (H k ltac:(by rewrite E)). lia. Qed.

Lemma deliver_from_ok k r r' out : 0 <= deliv r <= k -> k <= next r -> next r <= deliv r + W -> (forall j, is_Some (taken r !! j) -> 0 <= j < next r) ->
  deliver_from k r = (r', out) ->
  k <= deliv r' <= next r /\ next r' = next r /\ reord r' = reord r /\ taken r' = taken r /\ taken r !! deliv r' = None /\
  (forall j, k <= j < deliv r' -> is_Some (taken r !! j)) /\ out = from_to (taken r) (deliv r) (deliv r').
Proof.
  intros H1 H2 H3 Ht [= <- <-]. cbn [deliv next reord taken]. destruct (first_missing_spec (Z.to_nat (next r - k)) (taken r) k) as (G1 & G2 & G3).
  split; [lia|]. do 3 (split; [done|]). split; [|done]. destruct G3 as [E|E]; [|done]. apply missing_next; [done|lia].
Qed.

Lemma supervise_ok r : 0 <= deliv r <= next r -> next r <= deliv r + W -> (forall j, is_Some (taken r !! j) -> 0 <= j < next r) -> taken r !! deliv r = None ->
  (forall R, reord r = Some R -> R <= next r) -> receiver_ok (supervise r) /\ supervised (supervise r).
Proof.
  intros H1 H2 H3 H4 H5. split.
  - constructor; cbn [supervise deliv next reord taken]; [done|done|done|]. intros R. destruct (reord r) as [R0|]; [specialize (H5 R0 eq_refl)|].
    + destruct (_ && _) eqn:E; [bool_prop; intros [= <-]; lia|]. destruct (Z.ltb_spec (deliv r) (next r)); [|done]. intros [= <-]. lia.
    + destruct (Z.ltb_spec (deliv r) (next r)); [|done]. intros [= <-]. lia.
  - unfold supervised. cbn [supervise deliv next reord]. destruct (reord r) as [R0|]; [destruct (_ && _); [by left|]|]; (destruct (Z.ltb_spec (deliv r) (next r)); [by left|right; left; lia]).
Qed.

(** The deliveries that have a number, and the SDUs taken with numbers in [a, b) in ascending order. *)
Definition numbered (out : list (option Z * sdu)) : list (Z * sdu) := omap (fun o => (fun k => (k, snd o)) <$> fst o) out.
Definition ascending (t : gmap Z sdu) (a b : Z) : list (Z * sdu) := omap (fun k => (fun s => (k, s)) <$> t !! k) (seqZ a (b - a)).

Lemma ascending_nil t a : ascending t a a = [].
Proof. unfold ascending. by rewrite Z.sub_diag. Qed.
Lemma ascending_app t a b c : a <= b <= c -> ascending t a b ++ ascending t b c = ascending t a c.
Proof.
  intros. unfold ascending. rewrite <- omap_app. f_equal. replace (c - a) with ((b - a) + (c - b)) by lia. rewrite seqZ_app by lia. do 2 f_equal. lia.
Qed.
Lemma ascending_ext t t' a b : (forall k, a <= k < b -> t !! k = t' !! k) -> ascending t a b = ascending t' a b.
Proof.
  intros H. unfold ascending. apply list_omap_ext. apply Forall2_same_length_lookup_2; [done|]. intros i x y Hx Hy. assert (x = y) as -> by congruence. apply lookup_seqZ in Hx as [-> Hi]. rewrite H; [done|lia].
Qed.

(** What one reception does to the record and to the order of deliveries. *)
Definition advances (r r' : receiver) (out : list (option Z * sdu)) : Prop :=
  deliv r <= deliv r' /\ (forall k s, taken r !! k = Some s -> taken r' !! k = Some s) /\ (forall k, k < deliv r -> taken r' !! k = taken r !! k) /\
  numbered out = ascending (taken r') (deliv r) (deliv r').

Lemma numbered_from_to t a b : numbered (from_to t a b) = ascending t a b.
Proof. unfold numbered, ascending, from_to. induction (seqZ a (b - a)) as [|k l IH]; [done|]. cbn. destruct (t !! k); cbn; [f_equal|]; exact IH. Qed.

Lemma advances_refl r out : numbered out = [] -> advances r r out.
Proof. intros E. split; [lia|]. split; [done|]. split; [done|]. by rewrite E, ascending_nil. Qed.

Lemma unchanged_ok r out : receiver_ok r -> supervised r -> numbered out = [] ->
  receiver_ok r /\ supervised r /\ advances r r out.
Proof. intros. split; [done|]. split; [done|]. by apply advances_refl. Qed.

Lemma receive_numbered_ok k s r : receiver_ok r -> supervised r -> deliv r <= k ->
  let '(r', out) := receive_numbered k s r in receiver_ok r' /\ supervised r' /\ advances r r' out.
Proof.
  intros Hrok Hs Hk. pose proof Hrok as [Ho Ht Hg Hr]. unfold receive_numbered. destruct (Z.leb_spec W (k - deliv r)); [by apply unchanged_ok|].
  destruct (taken r !! k) eqn:Ek; [by apply unchanged_ok|].
  set (r1 := mk_receiver (deliv r) (Z.max (next r) (k + 1)) (reord r) (<[k := s]> (taken r))).
  assert (forall j, is_Some (taken r1 !! j) -> 0 <= j < next r1) as Ht1.
  { intros j Hj. subst r1. cbn [taken next] in *. destruct (Z.eq_dec j k) as [->|Hne]; [lia|]. rewrite lookup_insert_ne in Hj by done. specialize (Ht j Hj). lia. }
  assert (forall j, is_Some (taken r !! j) -> taken r1 !! j = taken r !! j) as Hkeep by (intros j [x Hx]; subst r1; cbn [taken]; rewrite lookup_insert_ne; [done|congruence]).
  destruct (Z.eqb_spec k (deliv r1)) as [E|Hne]; subst r1; cbn [deliv] in *.
  - destruct (deliver_from k _) as [r2 out] eqn:Ed. apply deliver_from_ok in Ed as (H1 & H2 & H3 & H4 & H5 & H6 & H7); cbn [deliv next reord taken] in *; [|lia..|done].
    split; [|split].
    + apply supervise_ok; [lia|lia|by rewrite H4, H2|by rewrite H4|intros R; rewrite H3, H2; intros HR; specialize (Hr R HR); lia].
    + apply supervise_ok; [lia|lia|by rewrite H4, H2|by rewrite H4|intros R; rewrite H3, H2; intros HR; specialize (Hr R HR); lia].
    + unfold advances. cbn [supervise deliv taken]. split; [lia|]. rewrite H4. split; [intros j x Hx; by rewrite Hkeep|]. split; [intros j Hj; apply lookup_insert_ne; lia|].
      rewrite H7. apply numbered_from_to.
  - assert (taken r !! deliv r = None) by done. split; [|split].
    + apply supervise_ok; cbn [deliv next reord taken]; [lia|lia|done|by rewrite lookup_insert_ne|intros R HR; specialize (Hr R HR); lia].
    + apply supervise_ok; cbn [deliv next reord taken]; [lia|lia|done|by rewrite lookup_insert_ne|intros R HR; specialize (Hr R HR); lia].
    + unfold advances. cbn [supervise deliv taken]. split; [lia|]. split; [intros j x Hx; by rewrite Hkeep|]. split; [intros j Hj; apply lookup_insert_ne; lia|].
      by rewrite ascending_nil.
Qed.

Lemma receive_pdu_ok cfg buf r : receiver_ok r -> supervised r ->
  let '(r', out) := receive_pdu cfg buf r in receiver_ok r' /\ supervised r' /\ advances r r' out.
Proof.
  intros Hr Hs. unfold receive_pdu. destruct (contents cfg buf) as [[[sn|] s]|]; try by apply unchanged_ok.
  apply receive_numbered_ok; [done|done|]. unfold number_of, GtpuNgu.gtpu_sn_mod. zmod.
Qed.

Lemma expire_ok r : receiver_ok r -> supervised r -> let '(r', out) := expire r in receiver_ok r' /\ supervised r' /\ advances r r' out.
Proof.
  intros Hr Hs. pose proof Hr as [Ho Ht Hg HR]. unfold expire. destruct (reord r) as [R|] eqn:ER; [|by apply unchanged_ok].
  specialize (HR R eq_refl). destruct (Z.leb_spec W (R - deliv r)).
  - split; [by constructor|]. split; [right; right; cbn [deliv next]; lia|]. split; [cbn [deliv]; lia|]. cbn [deliv taken]. split; [done|]. split; [done|]. by rewrite ascending_nil.
  - destruct (deliver_from R r) as [r1 out] eqn:Ed. apply deliver_from_ok in Ed as (H1 & H2 & H3 & H4 & H5 & H6 & H7); [|lia..|done].
    split; [|split].
    + constructor; cbn [deliv next reord taken]; [lia|by rewrite H4, H2|by rewrite H4|]. intros R0. destruct (Z.ltb_spec (deliv r1) (next r1)); [|done]. intros [= <-]. lia.
    + unfold supervised. cbn [deliv next reord]. destruct (Z.ltb_spec (deliv r1) (next r1)); [by left|right; left; lia].
    + unfold advances. cbn [deliv taken]. split; [lia|]. rewrite H4. split; [done|]. split; [done|]. rewrite H7. apply numbered_from_to.
Qed.

End NguReceiver.

(** * NG-U receiver: the entity behaves as the abstract receiver

    [represents r e]: the entity [e] holds, modulo 65536 and in its window, what the abstract receiver [r]
    holds.  Every operation of the entity keeps the relation, aborts nowhere and delivers what the
    abstract receiver delivers. *)

Import GtpuNgu NguReceiver.
Open Scope Z_scope.
Open Scope entity_scope.

Definition sn_of (k : Z) : Z := k mod 65536.
Definition entry (k : Z) (s : sdu) : gtpu_rx_sdu_info := mk_info (fst s) (snd s) (Some (sn_of k)).
Definition events (out : list (option Z * sdu)) : list rx_event := map (fun o => on_new_sdu (fst (snd o)) (snd (snd o))) out.

Lemma events_app a b : events (a ++ b) = events a ++ events b.
Proof. apply map_app. Qed.

(** ** The window *)

(** The window at lower edge [d] holds the SDUs of [t] from [d] on. *)
Record window_ok (t : gmap Z sdu) (d : Z) (w : CircularMap.t gtpu_rx_sdu_info) : Prop := {
  wk_wf : CircularMap.wf w;
  wk_capacity : CircularMap.capacity w = 2 ^ 15;
  wk_lookup : forall k, d <= k < d + 65536 -> CircularMap.lookup w (sn_of k) = if k <? d + 32768 then entry k <$> t !! k else None
}.

Lemma sn_of_range k : 0 <= sn_of k < 65536.
Proof. unfold sn_of. zmod. Qed.
Lemma sn_of_inj d j k : d <= j < d + 65536 -> d <= k < d + 65536 -> sn_of j = sn_of k -> j = k.
Proof. unfold sn_of. zmod. Qed.
Lemma u32_sn_of k : u32 (sn_of k) = sn_of k.
Proof. apply u32_small. pose proof (sn_of_range k). lia. Qed.
Lemma u16_sn_of_succ k : u16 (sn_of k + 1) = sn_of (k + 1).
Proof. unfold u16, sn_of. change (2 ^ 16) with 65536. apply Zplus_mod_idemp_l. Qed.

Lemma window_ok_empty : window_ok ∅ 0 (CircularMap.empty_map gtpu_rx_window_size).
Proof. constructor; [apply CircularMap.wf_empty|done|]. intros k _. rewrite CircularMap.lookup_empty_map, lookup_empty. by destruct (k <? _). Qed.

Lemma window_skip t d w : window_ok t d w -> t !! d = None -> t !! (d + 32768) = None -> window_ok t (d + 1) w.
Proof.
  intros [H1 H2 H3] Hd Hd'. constructor; [done|done|]. intros k Hk. destruct (Z.eq_dec k (d + 65536)) as [->|].
  - replace (sn_of (d + 65536)) with (sn_of d) by (unfold sn_of; zmod). rewrite H3, Hd by lia. rewrite (proj2 (Z.ltb_ge (d + 65536) _)) by lia. by destruct (_ <? _).
  - rewrite H3 by lia. destruct (Z.ltb_spec k (d + 32768)), (Z.ltb_spec k (d + 1 + 32768)); try done; [lia|]. replace k with (d + 32768) by lia. by rewrite Hd'.
Qed.

Lemma window_remove t d w : window_ok t d w -> t !! (d + 32768) = None -> window_ok t (d + 1) (fst (CircularMap.erase w (sn_of d))).
Proof.
  intros [H1 H2 H3] Hd'. constructor; [by apply CircularMap.wf_erase|by rewrite CircularMap.capacity_erase|]. intros k Hk.
  rewrite CircularMap.lookup_erase by done. destruct (Z.eqb_spec (sn_of k) (sn_of d)) as [E|Hne].
  - assert (k = d + 65536) as -> by (unfold sn_of in E; zmod). by rewrite (proj2 (Z.ltb_ge _ _)) by lia.
  - rewrite H3 by (unfold sn_of in Hne; zmod). destruct (Z.ltb_spec k (d + 32768)), (Z.ltb_spec k (d + 1 + 32768)); try done; [lia|]. replace k with (d + 32768) by lia. by rewrite Hd'.
Qed.

Lemma window_add t d w k s : window_ok t d w -> t !! k = None -> d <= k < d + 32768 ->
  window_ok (<[k := s]> t) d (CircularMap.set_at (CircularMap.overwrite w (sn_of k) rx_sdu_info_default) (sn_of k) (entry k s)).
Proof.
  intros [H1 H2 H3] Hk Hr. assert (forall x, CircularMap.get_circular_idx w (sn_of x) = x mod 32768) as Hidx.
  { intros x. rewrite (circular_idx_mod w 15) by (lia || done). rewrite H2. change (2 ^ 15) with 32768. unfold sn_of. zmod. }
  constructor; [by apply CircularMap.wf_set_at, CircularMap.wf_overwrite|by rewrite CircularMap.capacity_set_at, CircularMap.capacity_overwrite|].
  intros j Hj. rewrite CircularMap.lookup_set_at. destruct (Z.eqb_spec (sn_of j) (sn_of k)) as [E|Hne].
  - apply (sn_of_inj d) in E as ->; [|lia..]. rewrite lookup_insert_eq, (proj2 (Z.ltb_lt _ _)) by lia. rewrite CircularMap.contains_lookup, CircularMap.lookup_overwrite, Z.eqb_refl by done. done.
  - rewrite CircularMap.lookup_overwrite, (proj2 (Z.eqb_neq _ _) Hne), !Hidx, H3 by (done || lia).
    assert (j <> k) by congruence. rewrite lookup_insert_ne by done. destruct (Z.eqb_spec (j mod 32768) (k mod 32768)); [|done].
    rewrite (proj2 (Z.ltb_ge _ _)); [done|]. zmod.
Qed.

(** ** The lower edge moves *)

Record edge (t : gmap Z sdu) (d n : Z) (e : gtpu_tunnel_ngu_rx_impl) : Prop := {
  ed_order : 0 <= d <= n /\ n <= d + 32768;
  ed_taken : forall k, is_Some (t !! k) -> 0 <= k < n;
  ed_deliv : rx_deliv (st e) = sn_of d;
  ed_next : rx_next (st e) = sn_of n;
  ed_window : window_ok t d (rx_window e)
}.

Lemma mod_base_spec e d k : rx_deliv (st e) = sn_of d -> d <= k < d + 65536 -> rx_mod_base e (sn_of k) = k - d.
Proof. intros E Hk. unfold rx_mod_base. rewrite E. unfold u16, u32, gtpu_sn_mod, sn_of. change (2 ^ 32) with (65536 * 65536). change (2 ^ 16) with 65536. zmod. Qed.

Lemma edge_has_sn t d n e k : edge t d n e -> d <= k < d + 32768 -> has_sn e (sn_of k) = match t !! k with Some _ => true | None => false end.
Proof.
  intros [_ _ _ _ Hw] Hk. unfold has_sn, SduWindow.has_sn. rewrite u32_sn_of, CircularMap.contains_lookup, (wk_lookup _ _ _ Hw), (proj2 (Z.ltb_lt _ _)) by lia.
  by destruct (t !! k).
Qed.

(** Everything but the window and RX_DELIV is as before, and the SDUs passed were delivered. *)
Definition advanced (t : gmap Z sdu) (d n : Z) (e e' : gtpu_tunnel_ngu_rx_impl) (d' : Z) (es : list rx_event) : Prop :=
  edge t d' n e' /\ (exists w, e' = set_st (mk_state (rx_next (st e)) (sn_of d') (rx_reord (st e))) (set_rx_window w e)) /\ es = events (from_to t d d').

Lemma ngu_advanced_refl t d n e : edge t d n e -> advanced t d n e e d [].
Proof.
  intros He. split; [done|]. split; [exists (rx_window e)|by rewrite from_to_nil]. rewrite <- (ed_deliv _ _ _ _ He). by destruct e as [? ? []].
Qed.

Lemma edge_move t d n w e : 0 <= d -> d + 1 <= n -> n <= d + 32768 -> (forall k, is_Some (t !! k) -> 0 <= k < n) -> rx_next (st e) = sn_of n -> window_ok t (d + 1) w ->
  edge t (d + 1) n (set_rx_deliv (sn_of (d + 1)) (set_rx_window w e)).
Proof. intros. constructor; try done; lia. Qed.

(** One turn: the SDU at the edge is delivered, if there is one, and the edge moves. *)
Lemma wp_advance t d n e d1 e1 es1 (b : bool) (Q : unit + unit -> gtpu_tunnel_ngu_rx_impl -> list rx_event -> Prop) :
  d <= d1 < n -> advanced t d n e e1 d1 es1 -> b = has_sn e1 (sn_of d1) ->
  (forall e2 es2, advanced t d n e e2 (d1 + 1) (es1 ++ es2) -> Q (inl tt) e2 es2) ->
  wp (when b deliver_and_remove ;;; advance_rx_deliv ;;; ret (inl tt)) Q e1.
Proof.
  intros Hd (He & (w & E1) & Ees) -> HQ. pose proof He as [Ho Ht Hdl Hn Hw]. rewrite (edge_has_sn t d1 n) by (done || lia).
  assert (t !! (d1 + 32768) = None) as Hout by (destruct (t !! (d1 + 32768)) eqn:E; [|done]; destruct (Ht (d1 + 32768)); [by rewrite E|lia]).
  wp_step. destruct (t !! d1) as [s|] eqn:Es; cbn [when].
  - unfold deliver_and_remove. do 3 wp_step. unfold SduWindow.index. rewrite Hdl, u32_sn_of.
    eapply CircularMap.wp_at; [rewrite (wk_lookup _ _ _ Hw), (proj2 (Z.ltb_lt _ _)), Es by lia; reflexivity|].
    unfold deliver_sdu. do 3 wp_step. unfold SduWindow.remove_sn. pose proof (edge_has_sn t d1 n e1 d1 He ltac:(lia)) as Hh. unfold has_sn in Hh. rewrite Hh, Es. cbn [negb].
    do 2 wp_step. unfold advance_rx_deliv. do 3 wp_step. apply HQ. split; [|split].
    + cbn [rx_deliv st set_rx_window]. rewrite Hdl, u16_sn_of_succ. apply edge_move; try done; try lia. by apply window_remove.
    + cbn [rx_deliv st set_rx_window]. rewrite Hdl, u16_sn_of_succ, E1. by eexists.
    + rewrite Ees, <- (from_to_app t d d1 (d1 + 1)), from_to_one, Es, events_app by lia. done.
  - wp_step. unfold advance_rx_deliv. do 3 wp_step. apply HQ. cbn [app]. rewrite Hdl, u16_sn_of_succ. split; [|split].
    + replace e1 with (set_rx_window (rx_window e1) e1) by (by destruct e1). apply edge_move; try done; try lia. by apply window_skip.
    + rewrite E1. by exists w.
    + by rewrite Ees, <- (from_to_app t d d1 (d1 + 1)), from_to_one, Es, !app_nil_r by lia.
Qed.

Lemma deliv_fuel_spec e d k : rx_deliv (st e) = sn_of d -> d <= k < d + 65536 -> deliv_fuel e (sn_of k) = Datatypes.S (Z.to_nat (k - d)).
Proof. intros E Hk. unfold deliv_fuel. rewrite E. do 2 f_equal. unfold u16, sn_of. change (2 ^ 16) with 65536. zmod. Qed.

Lemma ngu_advanced_st t d n e e' d' es : advanced t d n e e' d' es ->
  rx_deliv (st e') = sn_of d' /\ rx_next (st e') = sn_of n /\ rx_reord (st e') = rx_reord (st e) /\ config e' = config e /\ rx_stopped e' = rx_stopped e /\
  reordering_timer e' = reordering_timer e /\ ue_ambr_limiter e' = ue_ambr_limiter e.
Proof. intros ([_ _ H1 H2 _] & (w & E) & _). split; [done|]. split; [done|]. by rewrite E. Qed.

Lemma wp_deliver_all_consecutive_sdus t d n e : edge t d n e ->
  wp deliver_all_consecutive_sdus (fun _ e' es => advanced t d n e e' (first_missing (Z.to_nat (n - d)) t d) es) e.
Proof.
  intros He. pose proof (ed_order _ _ _ _ He). unfold deliver_all_consecutive_sdus. do 2 wp_step. rewrite (ed_next _ _ _ _ He), (deliv_fuel_spec e d) by (apply He || lia).
  apply (wp_while_loop (fun f _ e1 es => exists k, d <= k <= n /\ advanced t d n e e1 k es /\ (forall j, d <= j < k -> is_Some (t !! j)) /\ Z.of_nat f = n - k + 1)).
  - exists d. split; [lia|]. split; [by apply ngu_advanced_refl|]. split; lia.
  - intros [] e1 es (k & ? & _ & _ & ?). lia.
  - intros f [] e1 es (k & Hk & Ha & Hall & Hf). destruct (ngu_advanced_st _ _ _ _ _ _ _ Ha) as (Hd1 & Hn1 & _). pose proof (proj1 Ha) as He1.
    unfold consecutive_step. do 2 wp_step. rewrite Hd1, Hn1. destruct (Z.eqb_spec (sn_of k) (sn_of n)) as [E|Hne]; cbn [negb andb].
    + apply (sn_of_inj d) in E as ->; [|lia..]. wp_step. rewrite app_nil_r. replace (first_missing _ t d) with n; [done|]. symmetry.
      apply first_missing_unique; [lia|done|]. destruct (t !! n) eqn:E; [|done]. destruct (ed_taken _ _ _ _ He n); [by rewrite E|lia].
    + assert (k < n) by (destruct (Z.eq_dec k n); [by subst|lia]). pose proof (ed_order _ _ _ _ He1). pose proof (edge_has_sn _ _ _ _ k He1 ltac:(lia)) as Hh. rewrite Hh. destruct (t !! k) as [s|] eqn:Es.
      * apply (wp_advance t d n e k e1 es true); [lia|done|by rewrite Hh|]. intros e2 es2 Ha2. exists (k + 1). split; [lia|]. split; [done|]. split; [|lia].
        intros j Hj. destruct (Z.eq_dec j k) as [->|]; [by rewrite Es|]. apply Hall. lia.
      * wp_step. rewrite app_nil_r. replace (first_missing _ t d) with k; [done|]. symmetry. apply first_missing_unique; [lia|done|done].
Qed.

Lemma wp_expire_loop_ngu t d n R e : edge t d n e -> d <= R <= n -> rx_reord (st e) = sn_of R ->
  wp (while_loop (deliv_fuel e (rx_reord (st e))) expire_step tt) (fun _ e' es => advanced t d n e e' R es) e.
Proof.
  intros He HR Hre. pose proof (ed_order _ _ _ _ He). rewrite Hre, (deliv_fuel_spec e d) by (apply He || lia).
  apply (wp_while_loop (fun f _ e1 es => exists k, d <= k <= R /\ advanced t d n e e1 k es /\ Z.of_nat f = R - k + 1)).
  - exists d. split; [lia|]. split; [by apply ngu_advanced_refl|lia].
  - intros [] e1 es (k & ? & _ & ?). lia.
  - intros f [] e1 es (k & Hk & Ha & Hf). destruct (ngu_advanced_st _ _ _ _ _ _ _ Ha) as (Hd1 & _ & Hr1 & _). unfold expire_step. do 2 wp_step. rewrite Hd1, Hr1, Hre.
    destruct (Z.eqb_spec (sn_of k) (sn_of R)) as [E|Hne].
    + apply (sn_of_inj d) in E as ->; [|lia..]. wp_step. by rewrite app_nil_r.
    + assert (k < R) by (destruct (Z.eq_dec k R); [by subst|lia]). eapply (wp_advance t d n e k e1 es); [lia|done|done|]. intros e2 es2 Ha2.
      exists (k + 1). split; [lia|]. split; [done|lia].
Qed.

Lemma advanced_twice t d n e e1 e2 d1 d2 es1 es2 : d <= d1 <= d2 -> advanced t d n e e1 d1 es1 -> advanced t d1 n e1 e2 d2 es2 -> advanced t d n e e2 d2 (es1 ++ es2).
Proof.
  intros Hd (_ & (w1 & E1) & X1) (He & (w2 & E2) & X2). split; [done|]. split.
  - exists w2. by rewrite E2, E1.
  - by rewrite X1, X2, <- events_app, from_to_app.
Qed.

(** ** t-Reordering *)

Definition same_setup (e e' : gtpu_tunnel_ngu_rx_impl) : Prop := config e' = config e /\ rx_stopped e' = rx_stopped e /\ ue_ambr_limiter e' = ue_ambr_limiter e.

Definition timer_ok (o : option Z) (e : gtpu_tunnel_ngu_rx_impl) : Prop :=
  match o with Some R => is_running (reordering_timer e) = true /\ rx_reord (st e) = sn_of R | None => is_running (reordering_timer e) = false end.

(** The entity between two operations. *)
Record represents (r : receiver) (e : gtpu_tunnel_ngu_rx_impl) : Prop := {
  rp_ok : receiver_ok r;
  rp_edge : edge (taken r) (deliv r) (next r) e;
  rp_timer : timer_ok (reord r) e;
  rp_set : rx_t_reordering (config e) <> 0 -> is_set (reordering_timer e) = true;
  rp_limiter : bucket_ok (ue_ambr_limiter e)
}.

Lemma edge_timer t d n tm e : edge t d n e -> edge t d n (set_reordering_timer tm e).
Proof. by intros [H1 H2 H3 H4 H5]. Qed.
Lemma edge_reord t d n v e : edge t d n e -> edge t d n (set_rx_reord v e).
Proof. by intros [H1 H2 H3 H4 H5]. Qed.

(** RX_REORD is set to RX_NEXT and the timer runs. *)
Lemma wp_supervise_up_to_next t d n e (Q : unit -> gtpu_tunnel_ngu_rx_impl -> list rx_event -> Prop) : edge t d n e -> is_set (reordering_timer e) = true ->
  (forall e', edge t d n e' -> timer_ok (Some n) e' -> is_set (reordering_timer e') = true -> same_setup e e' -> Q tt e' []) -> wp supervise_up_to_next Q e.
Proof.
  intros He Hset HQ. unfold supervise_up_to_next. do 5 wp_step. unfold timer_run. cbn [reordering_timer set_rx_reord set_st]. rewrite Hset. cbn [negb]. do 2 wp_step.
  apply HQ; [by apply edge_timer, edge_reord|split; [done|apply He]|done|done].
Qed.

Lemma inside_window_spec e d k : rx_deliv (st e) = sn_of d -> d <= k < d + 65536 -> inside_rx_window e (sn_of k) = (k - d <? W).
Proof. intros E Hk. unfold inside_rx_window. by rewrite (mod_base_spec e d). Qed.

Lemma behind_next_spec t d n e : edge t d n e -> (rx_mod_base e (rx_deliv (st e)) <? rx_mod_base e (rx_next (st e))) = (d <? n).
Proof.
  intros [Ho _ Hd Hn _]. rewrite Hd, Hn, !(mod_base_spec e d) by (done || lia). destruct (Z.ltb_spec d n), (Z.ltb_spec (d - d) (n - d)); lia.
Qed.

Lemma wp_handle_expire r e : receiver_ok r -> supervised r -> edge (taken r) (deliv r) (next r) e ->
  (forall R, reord r = Some R -> is_running (reordering_timer e) = false -> rx_reord (st e) = sn_of R -> is_set (reordering_timer e) = true -> rx_t_reordering (config e) <> 0 -> bucket_ok (ue_ambr_limiter e) ->
   wp handle_t_reordering_expire (fun _ e' es => represents (fst (expire r)) e' /\ es = events (snd (expire r)) /\ same_setup e e') e).
Proof.
  intros Hr Hs He R HR Hrun Hre Hset Ht Hb. pose proof Hr as [Ho Htk Hg Hrr]. specialize (Hrr R HR). unfold handle_t_reordering_expire, expire. rewrite HR. do 2 wp_step. rewrite Hrun.
  pose proof (ed_deliv _ _ _ _ He) as Hd. unfold W, gtpu_rx_window_size in *. rewrite Hre, (inside_window_spec e (deliv r)) by (done || lia). unfold W, gtpu_rx_window_size.
  destruct (Z.ltb_spec (R - deliv r) 32768), (Z.leb_spec 32768 (R - deliv r)); try lia; cbn [negb].
  - rewrite <- Hre. do 1 wp_step. eapply wp_mono; [by apply wp_expire_loop_ngu|]. intros [] e1 es1 Ha1. pose proof (proj1 Ha1) as He1. destruct (ngu_advanced_st _ _ _ _ _ _ _ Ha1) as (_ & _ & _ & Hc1 & Hst1 & Htm1 & Hl1).
    wp_step. eapply wp_mono; [by apply wp_deliver_all_consecutive_sdus|]. intros [] e2 es2 Ha2. pose proof (proj1 Ha2) as He2. destruct (ngu_advanced_st _ _ _ _ _ _ _ Ha2) as (_ & _ & _ & Hc2 & Hst2 & Htm2 & Hl2).
    pose proof (expire_ok r Hr Hs) as Hok. unfold expire in Hok. rewrite HR in Hok. unfold W, gtpu_rx_window_size in Hok. rewrite (proj2 (Z.leb_gt _ _)) in Hok by lia.
    unfold deliver_from in *. cbn [deliv next taken reord fst snd] in *. set (d := first_missing (Z.to_nat (next r - R)) (taken r) R) in *. destruct Hok as (Hok & _ & _).
    destruct (first_missing_spec (Z.to_nat (next r - R)) (taken r) R) as (Hdr & _). fold d in Hdr.
    assert (es1 ++ es2 = events (from_to (taken r) (deliv r) d)) as Hev by (eapply (advanced_twice _ (deliv r) _ e e1 e2 R d es1 es2); [lia|done|done]).
    do 2 wp_step. rewrite (behind_next_spec _ _ _ _ He2), Hc2, Hc1, (proj2 (Z.eqb_neq _ _) Ht). cbn [negb when]. destruct (Z.ltb_spec d (next r)); cbn [when].
    + apply (wp_supervise_up_to_next (taken r) d (next r)); [done|by rewrite Htm2, Htm1|]. intros e3 He3 Hto Hset3 (Hc3 & Hst3 & Hl3). rewrite !app_nil_r.
      split; [constructor; try done; by rewrite Hl3, Hl2, Hl1|]. split; [done|]. unfold same_setup. by rewrite Hc3, Hst3, Hl3, Hc2, Hst2, Hl2.
    + wp_step. rewrite !app_nil_r. split; [|split; [done|]].
      * constructor; [done|done|unfold timer_ok; cbn [reord]; by rewrite Htm2, Htm1|by rewrite Htm2, Htm1|by rewrite Hl2, Hl1].
      * unfold same_setup. by rewrite Hc2, Hst2, Hl2.
  - wp_step. split; [|split; [done|done]]. constructor; [constructor; cbn [deliv next taken reord]; unfold W, gtpu_rx_window_size; try done; lia|done|done|done|done].
Qed.

Lemma inside_window_signed e d k : rx_deliv (st e) = sn_of d -> -32768 <= k - d <= 32768 -> inside_rx_window e (sn_of k) = (0 <=? k - d) && (k - d <? W).
Proof.
  intros E Hk. unfold W, gtpu_rx_window_size. destruct (Z.leb_spec 0 (k - d)) as [Hge|Hlt]; cbn [andb]; [by rewrite (inside_window_spec e d) by (done || lia)|].
  replace (sn_of k) with (sn_of (k + 65536)) by (unfold sn_of; zmod). rewrite (inside_window_spec e d) by (done || lia). unfold W, gtpu_rx_window_size. lia.
Qed.

Lemma wp_handle_timers r e (Q : unit -> gtpu_tunnel_ngu_rx_impl -> list rx_event -> Prop) :
  edge (taken r) (deliv r) (next r) e -> timer_ok (reord r) e -> (forall R, reord r = Some R -> -32768 <= R - deliv r <= 32768) ->
  rx_t_reordering (config e) <> 0 -> is_set (reordering_timer e) = true ->
  (forall e', edge (taken r) (deliv r) (next r) e' -> timer_ok (reord (supervise r)) e' -> is_set (reordering_timer e') = true -> same_setup e e' -> Q tt e' []) ->
  wp handle_timers Q e.
Proof.
  intros He Hto HR Ht Hset HQ. unfold handle_timers. do 2 wp_step. apply wp_bind. set (keep := match reord r with Some R => (0 <=? R - deliv r) && (R - deliv r <? W) | None => false end).
  assert (forall Q : unit -> gtpu_tunnel_ngu_rx_impl -> list rx_event -> Prop,
    (forall e1, edge (taken r) (deliv r) (next r) e1 -> timer_ok (if keep then reord r else None) e1 -> is_set (reordering_timer e1) = true -> same_setup e e1 -> Q tt e1 []) ->
    wp (when (is_running (reordering_timer e) && negb (inside_rx_window e (rx_reord (st e)))) (modify (set_reordering_timer (timer_stop (reordering_timer e))))) Q e) as Hstop.
  { intros Q1 HQ1. unfold keep in HQ1. destruct (reord r) as [R|].
    - destruct Hto as [Hrun Hre]. rewrite Hrun, Hre, (inside_window_signed e (deliv r)) by (apply He || auto). destruct (_ && _); cbn [negb andb when].
      + wp_step. by apply HQ1.
      + wp_step. apply HQ1; [by apply edge_timer|apply is_running_stop|cbn [reordering_timer set_reordering_timer]; by rewrite is_set_stop|done].
    - cbn [timer_ok] in Hto. rewrite Hto. cbn [andb when]. wp_step. by apply HQ1. }
  apply Hstop. clear Hstop. intros e1 He1 Hto1 Hset1 (Hc1 & Hst1 & Hl1). do 2 wp_step. rewrite Hc1, (proj2 (Z.eqb_neq _ _) Ht), (behind_next_spec _ _ _ _ He1).
  assert (reord (supervise r) = match (if keep then reord r else None) with Some R => Some R | None => if deliv r <? next r then Some (next r) else None end) as Hsup.
  { unfold supervise, keep. cbn [reord]. destruct (reord r); [by destruct (_ && _)|done]. }
  rewrite Hsup in HQ. destruct (if keep then reord r else None) as [R|]; cbn [timer_ok] in Hto1.
  - rewrite (proj1 Hto1). cbn [negb andb when]. wp_step. by apply HQ.
  - rewrite Hto1. cbn [negb andb]. destruct (Z.ltb_spec (deliv r) (next r)); cbn [when].
    + apply (wp_supervise_up_to_next (taken r) (deliv r) (next r)); [done|done|]. intros e2 He2 Hto2 Hset2 (Hc2 & Hst2 & Hl2). apply HQ; [done|done|done|].
      unfold same_setup. by rewrite Hc2, Hst2, Hl2.
    + wp_step. by apply HQ.
Qed.

(** ** Reception *)

Lemma edge_store r e k s : edge (taken r) (deliv r) (next r) e -> taken r !! k = None -> deliv r <= k < deliv r + 32768 ->
  let w := CircularMap.set_at (CircularMap.overwrite (rx_window e) (sn_of k) rx_sdu_info_default) (sn_of k) (entry k s) in
  edge (<[k := s]> (taken r)) (deliv r) (Z.max (next r) (k + 1)) (if next r <=? k then set_rx_next (sn_of (k + 1)) (set_rx_window w e) else set_rx_window w e).
Proof.
  intros [Ho Ht Hd Hn Hw] Hk Hr w. assert (window_ok (<[k := s]> (taken r)) (deliv r) w) as Hw' by by apply window_add.
  assert (forall j, is_Some (<[k := s]> (taken r) !! j) -> 0 <= j < Z.max (next r) (k + 1)) as Ht'.
  { intros j Hj. destruct (Z.eq_dec j k) as [->|]; [lia|]. rewrite lookup_insert_ne in Hj by done. specialize (Ht j Hj). lia. }
  destruct (Z.leb_spec (next r) k); constructor; try done; try lia; cbn [rx_next st set_rx_next set_st set_rx_window]; [by rewrite Z.max_r by lia|by rewrite Z.max_l by lia].
Qed.

Lemma wp_handle_sdu_in_window r e k s : represents r e -> rx_t_reordering (config e) <> 0 -> deliv r <= k < deliv r + 32768 -> taken r !! k = None ->
  wp (handle_sdu_in_window (sn_of k) (entry k s)) (fun _ e' es => represents (fst (receive_numbered k s r)) e' /\ es = events (snd (receive_numbered k s r)) /\ same_setup e e') e.
Proof.
  intros [Hr He Hto Hset Hb] Ht Hk Hn. pose proof Hr as [Ho Htk Hg Hrr]. unfold W, gtpu_rx_window_size in *. pose proof (edge_store r e k s He Hn Hk) as He1. cbv zeta in He1. unfold receive_numbered.
  unfold W, gtpu_rx_window_size. rewrite (proj2 (Z.leb_gt 32768 (k - deliv r))), Hn by lia.
  unfold handle_sdu_in_window, store_sdu. do 4 wp_step. unfold SduWindow.add_sn. pose proof (edge_has_sn _ _ _ _ k He Hk) as Hh. unfold has_sn in Hh. rewrite Hh, Hn.
  do 2 wp_step. rewrite u32_sn_of. set (e1 := set_rx_window _ e) in *. do 3 wp_step.
  assert (rx_deliv (st e1) = sn_of (deliv r)) as Hd1 by apply He. change (rx_next (st e1)) with (rx_next (st e)). rewrite (ed_next _ _ _ _ He), !(mod_base_spec e1 (deliv r)) by (done || lia).
  assert ((next r - deliv r <=? k - deliv r) = (next r <=? k)) as -> by (destruct (Z.leb_spec (next r - deliv r) (k - deliv r)), (Z.leb_spec (next r) k); lia).
  rewrite u16_sn_of_succ. set (e2 := if next r <=? k then set_rx_next (sn_of (k + 1)) e1 else e1) in *.
  assert (forall P : unit -> gtpu_tunnel_ngu_rx_impl -> list rx_event -> Prop, P tt e2 [] -> wp (when (next r <=? k) (modify (set_rx_next (sn_of (k + 1))))) P e1) as Hwhen
    by (intros P HP; unfold e2 in HP; destruct (next r <=? k); cbn [when]; wp_step; done).
  apply Hwhen. clear Hwhen. assert (same_setup e e2 /\ reordering_timer e2 = reordering_timer e /\ rx_reord (st e2) = rx_reord (st e)) as ((Hc2 & Hst2 & Hl2) & Htm2 & Hre2) by (unfold e2; by destruct (next r <=? k)).
  clearbody e2. do 2 wp_step. cbn [app]. pose proof (ed_deliv _ _ _ _ He1) as Hd2. rewrite !Hd2, !(mod_base_spec e2 (deliv r)) by (done || lia).
  assert ((k - deliv r =? deliv r - deliv r) = (k =? deliv r)) as -> by (destruct (Z.eqb_spec (k - deliv r) (deliv r - deliv r)), (Z.eqb_spec k (deliv r)); lia).
  cbn [deliv]. pose proof (receive_numbered_ok k s r Hr) as Hok. set (r1 := mk_receiver (deliv r) (Z.max (next r) (k + 1)) (reord r) (<[k:=s]> (taken r))) in *.
  destruct (Z.eqb_spec k (deliv r)) as [E|Hne]; cbn [when].
  - subst k. wp_step. eapply wp_mono; [by apply wp_deliver_all_consecutive_sdus|]. intros [] e3 es3 Ha3. destruct (ngu_advanced_st _ _ _ _ _ _ _ Ha3) as (_ & _ & Hre3 & Hc3 & Hst3 & Htm3 & Hl3).
    unfold deliver_from. cbn [deliv next taken reord r1]. set (d := first_missing _ _ _) in *. cbn [fst snd].
    pose proof (first_missing_spec (Z.to_nat (Z.max (next r) (deliv r + 1) - deliv r)) (<[deliv r:=s]> (taken r)) (deliv r)) as (Hdr & _ & Hdn). fold d in Hdr, Hdn.
    assert (forall R, reord r = Some R -> -32768 <= R - d <= 32768) as HR32 by (intros R HR; specialize (Hrr R HR); lia).
    apply (wp_handle_timers (mk_receiver d (Z.max (next r) (deliv r + 1)) (reord r) (<[deliv r:=s]> (taken r)))); cbn [deliv next reord taken]; [apply Ha3| |exact HR32|by rewrite Hc3, Hc2|rewrite Htm3, Htm2, <- ?Hc2; auto|].
    { unfold timer_ok. rewrite Htm3, Htm2, Hre3, Hre2. exact Hto. }
    intros e4 He4 Hto4 Hset4 (Hc4 & Hst4 & Hl4). rewrite !app_nil_r. split; [|split; [apply Ha3|unfold same_setup; by rewrite Hc4, Hst4, Hl4, Hc3, Hst3, Hl3]].
    constructor; [|exact He4|exact Hto4|done|by rewrite Hl4, Hl3, Hl2]. apply supervise_ok; cbn [deliv next reord taken]; [lia|unfold W, gtpu_rx_window_size; lia| | |intros R HR; specialize (Hrr R HR); lia].
    + apply (ed_taken _ _ _ _ (proj1 Ha3)).
    + destruct Hdn as [Ed|Hd]; [|done]. destruct (_ !! d) eqn:E; [|done]. pose proof (ed_taken _ _ _ _ He1 d ltac:(by rewrite E)). lia.
  - cbn [fst snd]. do 2 wp_step. apply (wp_handle_timers r1); cbn [deliv next reord taken r1]; [exact He1| |intros R HR; specialize (Hrr R HR); lia|by rewrite Hc2|rewrite Htm2, <- ?Hc2; auto|].
    { unfold timer_ok. rewrite Htm2, Hre2. exact Hto. }
    intros e4 He4 Hto4 Hset4 (Hc4 & Hst4 & Hl4). rewrite ?app_nil_r. split; [|split; [done|unfold same_setup; by rewrite Hc4, Hst4, Hl4]].
    constructor; [|exact He4|exact Hto4|done|by rewrite Hl4, Hl2]. apply supervise_ok; cbn [deliv next reord taken r1]; [lia|unfold W, gtpu_rx_window_size; lia|apply (ed_taken _ _ _ _ He1)|by rewrite lookup_insert_ne by done|intros R HR; specialize (Hrr R HR); lia].
Qed.

Lemma wp_consume_ngu e n (Q : bool -> gtpu_tunnel_ngu_rx_impl -> list rx_event -> Prop) : bucket_ok (ue_ambr_limiter e) -> 0 <= n <= max_sane_tokens ->
  (forall b, bucket_ok b -> Q (negb (TokenBucket.bucket_stopped (ue_ambr_limiter e)) && (n <=? TokenBucket.tokens_in_bucket (ue_ambr_limiter e))) (set_ue_ambr_limiter b e) []) ->
  wp (consume n) Q e.
Proof.
  intros Hb Hn HQ. unfold consume. rewrite u32_small by (unfold max_sane_tokens in Hn; lia).
  pose proof (wp_consume (ue_ambr_limiter e) n (fun a b es => a = negb (TokenBucket.bucket_stopped (ue_ambr_limiter e)) && (n <=? TokenBucket.tokens_in_bucket (ue_ambr_limiter e)) /\ bucket_ok b /\ es = []) Hb Hn) as Hw.
  unfold wp, lift in *. destruct (TokenBucket.consume n (ue_ambr_limiter e)) as [[[a b] es]|]; [|by apply Hw].
  destruct Hw as (-> & Hb' & ->); [done|]. by apply HQ.
Qed.

(** The limiter lets the PDU through. *)
Definition admitted (e : gtpu_tunnel_ngu_rx_impl) (buf : list Z) : bool :=
  rx_ignore_ue_ambr (config e) || (negb (TokenBucket.bucket_stopped (ue_ambr_limiter e)) && (zlen buf <=? TokenBucket.tokens_in_bucket (ue_ambr_limiter e))).

Lemma represents_limiter r e b : represents r e -> bucket_ok b -> represents r (set_ue_ambr_limiter b e).
Proof. intros [H1 [] H3 H4 H5] Hb. by constructor. Qed.

Lemma sn_of_number r sn : 0 <= sn < 65536 -> sn_of (number_of sn r) = sn.
Proof. intros. unfold sn_of, number_of, gtpu_sn_mod. zmod. Qed.

Definition kept (e e' : gtpu_tunnel_ngu_rx_impl) : Prop := config e' = config e /\ rx_stopped e' = rx_stopped e.

(** An SDU that passed the limiter, with the sequence number it is to be put in order by. *)
Definition dispatch (sn : option Z) (s : sdu) : H unit :=
  match sn with
  | None => deliver_sdu (mk_info (fst s) (snd s) None)
  | Some sn =>
      let! e := get in
      let rx_sdu_info := mk_info (fst s) (snd s) (Some sn) in
      if negb (inside_rx_window e sn) then deliver_sdu rx_sdu_info else
      if rx_mod_base e sn <? rx_mod_base e (rx_deliv (st e)) then deliver_sdu rx_sdu_info else
      if has_sn e sn then ret tt else
      handle_sdu_in_window sn rx_sdu_info
  end.

Lemma wp_dispatch r e o s : represents r e -> (forall sn, o = Some sn -> uint 16 sn /\ rx_t_reordering (config e) <> 0) ->
  wp (dispatch o s) (fun _ e' es => let res := match o with None => (r, [(None, s)]) | Some sn => receive_numbered (number_of sn r) s r end in
    represents (fst res) e' /\ es = events (snd res) /\ kept e e') e.
Proof.
  intros Hr Ho. destruct o as [sn|]; cbn [dispatch]; [|unfold deliver_sdu; wp_step; exact (conj Hr (conj eq_refl (conj eq_refl eq_refl)))]. destruct (Ho sn eq_refl) as [Hsn Ht]. unfold uint in Hsn. change (2 ^ 16) with 65536 in Hsn.
  pose proof (rp_edge _ _ Hr) as He. pose proof (ed_deliv _ _ _ _ He) as Hd. do 2 wp_step. set (k := number_of sn r). assert (deliv r <= k < deliv r + 65536) as Hk by (unfold k, number_of, gtpu_sn_mod; zmod).
  rewrite <- (sn_of_number r sn Hsn). fold k. rewrite (inside_window_spec e (deliv r)) by done. rewrite (ed_deliv _ _ _ _ He), !(mod_base_spec e (deliv r)) by (done || lia). unfold W, gtpu_rx_window_size.
  destruct (Z.ltb_spec (k - deliv r) 32768); cbn [negb].
  - rewrite (proj2 (Z.ltb_ge (k - deliv r) _)) by lia. rewrite (edge_has_sn _ _ _ _ k He) by lia. destruct (taken r !! k) as [s'|] eqn:Es.
    + wp_step. unfold receive_numbered, W, gtpu_rx_window_size. rewrite (proj2 (Z.leb_gt 32768 (k - deliv r))), Es by lia. exact (conj Hr (conj eq_refl (conj eq_refl eq_refl))).
    + eapply wp_mono; [apply (wp_handle_sdu_in_window r e k s); [done|done|lia|done]|]. intros [] e' es (H1 & H2 & (H3 & H4 & _)). done.
  - unfold receive_numbered, W, gtpu_rx_window_size. rewrite (proj2 (Z.leb_le 32768 (k - deliv r))) by lia. unfold deliver_sdu. wp_step. exact (conj Hr (conj eq_refl (conj eq_refl eq_refl))).
Qed.

(** What a dissected PDU carries, and what the abstract receiver makes of it. *)
Definition carried (cfg : ngu_rx_config) (p : Gtpu.gtpu_dissected_pdu) : option (option Z * sdu) :=
  if Gtpu.test_mode p then Some (None, (Gtpu.buf p, 1)) else
  match session_info (Gtpu.ext_list (Gtpu.hdr p)) with
  | None => None
  | Some info => Some (if Gtpu.f_seq_number (Gtpu.flags (Gtpu.hdr p)) && negb (rx_t_reordering cfg =? 0) then Some (Gtpu.seq_number (Gtpu.hdr p)) else None,
                       (drop (Z.to_nat (Gtpu.hdr_len p)) (Gtpu.buf p), Psup.qos_flow_id info))
  end.
Definition receive_carried (c : option (option Z * sdu)) (r : receiver) : receiver * list (option Z * sdu) :=
  match c with
  | None => (r, [])
  | Some (None, s) => (r, [(None, s)])
  | Some (Some sn, s) => receive_numbered (number_of sn r) s r
  end.

Lemma wp_handle_dissected_pdu r e p : represents r e -> rx_stopped e = false -> zlen (Gtpu.buf p) <= max_sane_tokens ->
  (Gtpu.test_mode p = false -> Gtpu.gtpu_extract_msg p = Ok (drop (Z.to_nat (Gtpu.hdr_len p)) (Gtpu.buf p)) /\ uint 16 (Gtpu.seq_number (Gtpu.hdr p))) ->
  wp (handle_dissected_pdu p) (fun _ e' es => let res := if admitted e (Gtpu.buf p) then receive_carried (carried (config e) p) r else (r, []) in
    represents (fst res) e' /\ es = events (snd res) /\ kept e e') e.
Proof.
  intros Hr Hs Hlen Hp. pose proof (zlen_nonneg (Gtpu.buf p)). unfold handle_dissected_pdu. do 2 wp_step. rewrite Hs. wp_step.
  assert (forall Q : bool -> gtpu_tunnel_ngu_rx_impl -> list rx_event -> Prop, (forall e', represents r e' -> kept e e' -> Q (admitted e (Gtpu.buf p)) e' []) ->
    wp (if rx_ignore_ue_ambr (config e) then ret true else consume (zlen (Gtpu.buf p))) Q e) as Hadm.
  { intros Q HQ. unfold admitted in HQ. destruct (rx_ignore_ue_ambr (config e)); [by apply wp_ret, HQ|]. apply wp_consume_ngu; [apply Hr|done|]. intros b Hb. apply HQ; [by apply represents_limiter|done]. }
  apply Hadm. clear Hadm. intros e' Hr' [Hc' Hs']. cbn [app]. destruct (admitted e (Gtpu.buf p)); cbn [negb]; [|wp_step; by split; [|split; [|split]]].
  unfold carried. rewrite <- Hc'. assert (forall e2, kept e' e2 -> kept e e2) as Hk by (unfold kept; intros e2 [-> ->]; done).
  destruct (Gtpu.test_mode p); [unfold deliver_sdu; wp_step; exact (conj Hr' (conj eq_refl (conj Hc' Hs')))|]. destruct (Hp eq_refl) as [-> Hsn]. clear Hp.
  destruct (session_info _) as [info|]; [|wp_step; exact (conj Hr' (conj eq_refl (conj Hc' Hs')))]. do 2 wp_step. cbn [app].
  assert (negb (Gtpu.f_seq_number (Gtpu.flags (Gtpu.hdr p))) || (rx_t_reordering (config e') =? 0) = negb (Gtpu.f_seq_number (Gtpu.flags (Gtpu.hdr p)) && negb (rx_t_reordering (config e') =? 0))) as Hb by (by destruct (Gtpu.f_seq_number _), (_ =? 0)).
  rewrite Hb. destruct (Gtpu.f_seq_number (Gtpu.flags (Gtpu.hdr p)) && negb (rx_t_reordering (config e') =? 0)) eqn:Eb; cbn [negb receive_carried].
  - eapply wp_mono; [apply (wp_dispatch r e' (Some (Gtpu.seq_number (Gtpu.hdr p))) (drop (Z.to_nat (Gtpu.hdr_len p)) (Gtpu.buf p), Psup.qos_flow_id info) Hr')|].
    + intros sn [= <-]. split; [done|]. by apply andb_true_iff in Eb as [_ ?%negb_true_iff%Z.eqb_neq].
    + intros [] e2 es (H1 & H2 & H3). auto.
  - unfold deliver_sdu. wp_step. exact (conj Hr' (conj eq_refl (conj Hc' Hs'))).
Qed.

Lemma contents_carried cfg buf : Forall is_byte buf ->
  contents cfg buf = if rx_test_mode cfg then Some (None, (buf, 1)) else match Gtpu.gtpu_dissect_pdu buf with None => None | Some p => carried cfg p end.
Proof.
  intros Hb. unfold contents. destruct (rx_test_mode cfg); [done|]. destruct (Gtpu.gtpu_dissect_pdu buf) as [p|] eqn:E; [|done].
  destruct (dissect_ok buf p Hb E) as [Hbuf _ _ _ _ _ _ _ _ _ Htest]. unfold carried. by rewrite Htest, Hbuf.
Qed.

Lemma wp_handle_pdu_ngu r e buf : represents r e -> rx_stopped e = false -> Forall is_byte buf -> zlen buf <= max_sane_tokens ->
  wp (handle_pdu buf) (fun _ e' es => let res := if admitted e buf then receive_pdu (config e) buf r else (r, []) in
    represents (fst res) e' /\ es = events (snd res) /\ kept e e') e.
Proof.
  intros Hr Hs Hb Hlen. change (receive_pdu (config e) buf r) with (receive_carried (contents (config e) buf) r). rewrite contents_carried by done.
  unfold handle_pdu. do 2 wp_step. cbn [app]. destruct (rx_test_mode (config e)) eqn:Et.
  - by apply (wp_handle_dissected_pdu r e (Gtpu.mk_dissected buf test_header 0 true)).
  - destruct (Gtpu.gtpu_dissect_pdu buf) as [p|] eqn:E; [|wp_step; cbn [receive_carried]; destruct (admitted e buf); exact (conj Hr (conj eq_refl (conj eq_refl eq_refl)))].
    pose proof (dissect_ok buf p Hb E) as Hp. pose proof (dk_buf _ _ Hp) as Hbuf. rewrite <- Hbuf.
    apply (wp_handle_dissected_pdu r e p); [done|done|by rewrite Hbuf|]. intros _. rewrite Hbuf. split; [by apply extract_ok|apply (dk_sn _ _ Hp)].
Qed.

(** The expiry task of t-Reordering. *)
Lemma ngu_wp_reordering_timeout r e epoch : represents r e -> supervised r -> rx_t_reordering (config e) <> 0 ->
  (tm_cmd_id (reordering_timer e) = epoch -> is_running (reordering_timer e) = true) ->
  wp (reordering_timeout epoch) (fun _ e' es => let res := if tm_cmd_id (reordering_timer e) =? epoch then expire r else (r, []) in
    represents (fst res) e' /\ es = events (snd res) /\ kept e e') e.
Proof.
  intros Hr Hsv Ht Hrun. pose proof Hr as [Hok He Hto Hset Hb]. unfold reordering_timeout. do 3 wp_step. apply wp_timeout_task; [done| |]; intros E.
  - rewrite (proj2 (Z.eqb_eq _ _) E). do 2 wp_step. cbn [fst snd when]. specialize (Hrun E). set (e1 := set_reordering_timer _ e).
    destruct (reord r) as [R|] eqn:ER; cbn [timer_ok] in Hto; [|congruence]. destruct Hto as [_ Hre].
    eapply wp_mono; [apply (wp_handle_expire r e1 Hok Hsv (edge_timer _ _ _ _ _ He) R ER); try done; by apply Hset|]. intros [] e' es (H1 & H2 & (H3 & H4 & _)). done.
  - rewrite (proj2 (Z.eqb_neq _ _) E). do 2 wp_step. cbn [fst snd when]. wp_step. replace (set_reordering_timer (reordering_timer e) e) with e by (by destruct e). done.
Qed.
