(* ===== verification/GtpuNguTheorems.v ===== *)
(** * NG-U tunnels: the properties

    Runs of the receiving tunnel from its creation until it is stopped, the theorems on them, and what the
    transmitting tunnel sends. *)

From S2P Require Import Prelude Effects Window Timers BitEncoding BitFields NruPacking GtpuPdu GtpuPduFacts TokenBucket GtpuNgu GtpuNguRefine.
Import GtpuNgu NguReceiver.
Open Scope Z_scope.
Open Scope entity_scope.

(** ** Runs *)

(** The limiter is also used by the other tunnels of the UE and refilled by its own timer. *)
Inductive ngu_input := pdu_arrives (buf : list Z) | timer_fires (epoch : Z) | limiter_runs (o : bucket_op).

Definition handle (i : ngu_input) : H unit :=
  match i with
  | pdu_arrives buf => handle_pdu buf
  | timer_fires epoch => reordering_timeout epoch
  | limiter_runs o => lift ue_ambr_limiter set_ue_ambr_limiter (fun ev : Empty_set => match ev with end) (run_op o) ;;; ret tt
  end.

(** PDUs are octets, not 2 GB long; the back end dispatches the expiry of a started timer only. *)
Definition input_ok (e : gtpu_tunnel_ngu_rx_impl) (i : ngu_input) : Prop :=
  match i with
  | pdu_arrives buf => Forall is_byte buf /\ zlen buf <= max_sane_tokens
  | timer_fires epoch => tm_cmd_id (reordering_timer e) = epoch -> is_running (reordering_timer e) = true
  | limiter_runs o => op_ok (ue_ambr_limiter e) o
  end.

(** What counts: the PDUs the limiter lets through and the expiries of the started timer. *)
Inductive ngu_observed := arrival (buf : list Z) | expiry.
Definition observed (e : gtpu_tunnel_ngu_rx_impl) (i : ngu_input) : list ngu_observed :=
  match i with
  | pdu_arrives buf => if admitted e buf then [arrival buf] else []
  | timer_fires epoch => if tm_cmd_id (reordering_timer e) =? epoch then [expiry] else []
  | limiter_runs _ => []
  end.

Definition new_sdus (es : list rx_event) : list sdu := map (fun ev => match ev with on_new_sdu s q => (s, q) end) es.

Inductive ngu_run (cfg : ngu_rx_config) : gtpu_tunnel_ngu_rx_impl -> list ngu_observed -> list sdu -> Prop :=
| nr_create limiter e : bucket_ok limiter -> create cfg limiter = Some e -> ngu_run cfg e [] []
| nr_step e tr out i e' es : ngu_run cfg e tr out -> input_ok e i -> handle i e = Ok (tt, e', es) -> ngu_run cfg e' (tr ++ observed e i) (out ++ new_sdus es).

(** The abstract receiver on the same observations. *)
Definition receive_one (cfg : ngu_rx_config) (o : ngu_observed) (r : receiver) : receiver * list (option Z * sdu) :=
  match o with arrival buf => receive_pdu cfg buf r | expiry => expire r end.
Definition receive_all (cfg : ngu_rx_config) (tr : list ngu_observed) : receiver * list (option Z * sdu) :=
  fold_left (fun acc o => let '(r, out) := receive_one cfg o (fst acc) in (r, snd acc ++ out)) tr (initial, []).

Lemma receive_all_snoc cfg tr o : receive_all cfg (tr ++ [o]) =
  (fst (receive_one cfg o (fst (receive_all cfg tr))), snd (receive_all cfg tr) ++ snd (receive_one cfg o (fst (receive_all cfg tr)))).
Proof. unfold receive_all. rewrite fold_left_app. cbn [fold_left]. by destruct (receive_one cfg o _). Qed.

(** ** The abstract receiver on a run *)

(** Where an SDU with a number came from. *)
Definition arrived (cfg : ngu_rx_config) (tr : list ngu_observed) (k : Z) (s : sdu) : Prop :=
  exists buf, arrival buf ∈ tr /\ contents cfg buf = Some (Some (sn_of k), s).

Record history_ok (cfg : ngu_rx_config) (tr : list ngu_observed) (r : receiver) (out : list (option Z * sdu)) : Prop := {
  ho_receiver : receiver_ok r;
  ho_supervised : supervised r;
  ho_order : numbered out = ascending (taken r) 0 (deliv r);
  ho_source : forall k s, taken r !! k = Some s -> arrived cfg tr k s
}.

Definition observed_ok (o : ngu_observed) : Prop := match o with arrival buf => Forall is_byte buf | expiry => True end.

Lemma numbered_app a b : numbered (a ++ b) = numbered a ++ numbered b.
Proof. apply omap_app. Qed.

Lemma advances_order r r' a b : receiver_ok r -> numbered a = ascending (taken r) 0 (deliv r) -> advances r r' b -> numbered (a ++ b) = ascending (taken r') 0 (deliv r').
Proof.
  intros Hr Ha (H1 & H2 & H3 & H4). pose proof (ro_order _ Hr). rewrite numbered_app, Ha, H4, <- (ascending_app (taken r') 0 (deliv r) (deliv r')) by lia.
  f_equal. apply ascending_ext. intros k Hk. symmetry. apply H3. lia.
Qed.

Lemma dissect_sn cfg buf sn s : Forall is_byte buf -> contents cfg buf = Some (Some sn, s) -> 0 <= sn < 65536.
Proof.
  intros Hb. unfold contents. destruct (rx_test_mode cfg); [done|]. destruct (Gtpu.gtpu_dissect_pdu buf) as [p|] eqn:E; [|done]. destruct (session_info _); [|done].
  destruct (_ && _); [|done]. intros [= <- _]. apply (dk_sn _ _ (dissect_ok buf p Hb E)).
Qed.

Lemma receive_one_source cfg o r k s : observed_ok o -> taken (fst (receive_one cfg o r)) !! k = Some s -> taken r !! k = Some s \/ arrived cfg [o] k s.
Proof.
  destruct o as [buf|]; cbn [receive_one observed_ok]; intros Hb.
  - unfold receive_pdu. destruct (contents cfg buf) as [[[sn|] s']|] eqn:Ec; [|by left..]. unfold receive_numbered.
    destruct (W <=? _); [by left|]. destruct (taken r !! number_of sn r); [by left|]. set (r1 := mk_receiver _ _ _ _).
    assert (taken (fst (let '(r2, out) := if number_of sn r =? deliv r1 then deliver_from (number_of sn r) r1 else (r1, []) in (supervise r2, out))) = taken r1) as -> by (by destruct (_ =? _)).
    subst r1. cbn [taken]. destruct (Z.eq_dec k (number_of sn r)) as [->|Hne]; [|rewrite lookup_insert_ne by done; by left].
    rewrite lookup_insert_eq. intros [= <-]. right. exists buf. split; [left|]. by rewrite sn_of_number by (eapply dissect_sn; eauto).
  - unfold expire. destruct (reord r); [|by left]. destruct (W <=? _); by left.
Qed.

Lemma history_all cfg tr : Forall observed_ok tr -> history_ok cfg tr (fst (receive_all cfg tr)) (snd (receive_all cfg tr)).
Proof.
  induction tr as [|o tr IH] using rev_ind; intros Hb.
  - constructor; [|right; left; done|done|done]. constructor; cbn; [unfold W, gtpu_rx_window_size; lia|intros k [? Hk]; by rewrite lookup_empty in Hk|apply lookup_empty|done].
  - apply Forall_app in Hb as [Hb [Ho _]%Forall_cons]. destruct (IH Hb) as [H1 H2 H3 H4]. rewrite receive_all_snoc. set (r := fst (receive_all cfg tr)) in *. cbn [fst snd].
    assert (let '(r', out) := receive_one cfg o r in receiver_ok r' /\ supervised r' /\ advances r r' out) as Hstep by (destruct o; [by apply receive_pdu_ok|by apply expire_ok]).
    pose proof (receive_one_source cfg o r) as Hsrc. destruct (receive_one cfg o r) as [r' out]. destruct Hstep as (G1 & G2 & G3). cbn [fst snd] in *.
    constructor; [done|done|by apply (advances_order r)|]. intros k s Hk. destruct (Hsrc k s Ho Hk) as [Hk'|(buf & Hin & Hc)].
    + destruct (H4 k s Hk') as (buf & Hin & Hc). exists buf. split; [by apply elem_of_app; left|done].
    + exists buf. split; [by apply elem_of_app; right|done].
Qed.

(** ** The entity on a run *)

Lemma represents_create_ngu cfg limiter e : bucket_ok limiter -> create cfg limiter = Some e -> represents initial e /\ config e = cfg /\ rx_stopped e = false.
Proof.
  unfold create. intros Hb. destruct (_ <? _); [done|]. intros [= <-]. split; [|done]. constructor; [|constructor|..]; cbn; try done.
  - constructor; cbn; [unfold W, gtpu_rx_window_size; lia|intros k [? Hk]; by rewrite lookup_empty in Hk|apply lookup_empty|done].
  - intros k [? Hk]; by rewrite lookup_empty in Hk.
  - apply window_ok_empty.
  - unfold timer_ok. cbn. by destruct (negb _).
  - intros Ht. by rewrite (proj2 (Z.eqb_neq _ _) Ht).
Qed.

Lemma new_sdus_events out : new_sdus (events out) = map snd out.
Proof. unfold new_sdus, events. rewrite map_map. apply map_ext. by intros [? []]. Qed.

(** One step of the entity and of the abstract receiver. *)
Lemma wp_handle_ngu r e i : represents r e -> supervised r -> rx_stopped e = false -> input_ok e i ->
  (rx_t_reordering (config e) = 0 -> reord r = None) ->
  wp (handle i) (fun _ e' es => let res := match observed e i with o :: _ => receive_one (config e) o r | [] => (r, []) end in
    represents (fst res) e' /\ new_sdus es = map snd (snd res) /\ kept e e') e.
Proof.
  intros Hr Hsv Hs Hi Hz. destruct i as [buf|epoch|o]; cbn [handle input_ok observed] in *.
  - destruct Hi as [Hb Hl]. eapply wp_mono; [by apply wp_handle_pdu_ngu|]. intros [] e' es. destruct (admitted e buf); cbn [receive_one]; intros (H1 & -> & H2); by rewrite new_sdus_events.
  - destruct (decide (rx_t_reordering (config e) = 0)) as [E0|].
    + specialize (Hz E0). pose proof (rp_timer _ _ Hr) as Hto. rewrite Hz in Hto. cbn [timer_ok] in Hto. destruct (Z.eqb_spec (tm_cmd_id (reordering_timer e)) epoch) as [E|Hne]; [specialize (Hi E); congruence|].
      unfold reordering_timeout. do 3 wp_step. apply wp_timeout_task; [done..|]. intros _. do 2 wp_step. cbn [fst snd when]. wp_step.
      replace (set_reordering_timer (reordering_timer e) e) with e by (by destruct e). done.
    + eapply wp_mono; [by apply (ngu_wp_reordering_timeout r)|]. intros [] e' es. destruct (_ =? epoch); cbn [receive_one]; intros (H1 & -> & H2); by rewrite new_sdus_events.
  - wp_step. unfold wp, lift. assert (wp (run_op o) (fun _ b' es => bucket_ok b' /\ es = []) (ue_ambr_limiter e)) as Hw.
    { pose proof (rp_limiter _ _ Hr) as Hb. destruct o as [n|ep|]; cbn [run_op op_ok] in *; wp_step.
      - apply wp_consume; [done|done|]. intros. by wp_step.
      - apply wp_refill_timeout; [done|done|]. intros. by wp_step.
      - do 2 wp_step. split; [by apply bucket_ok_stop|done]. }
    unfold wp in Hw. destruct (run_op o (ue_ambr_limiter e)) as [[[k b'] es]|]; [|done]. destruct Hw as [Hb' ->]. cbn. split; [by apply represents_limiter|done].
Qed.

Lemma unnumbered_config cfg buf r : rx_t_reordering cfg = 0 -> fst (receive_pdu cfg buf r) = r.
Proof.
  intros E. unfold receive_pdu, contents. rewrite E. destruct (rx_test_mode cfg); [done|]. destruct (Gtpu.gtpu_dissect_pdu buf); [|done]. destruct (session_info _); [|done]. by rewrite andb_false_r.
Qed.

Lemma receive_all_unordered cfg tr : rx_t_reordering cfg = 0 -> fst (receive_all cfg tr) = initial.
Proof.
  intros E. induction tr as [|o tr IH] using rev_ind; [done|]. rewrite receive_all_snoc. cbn [fst]. rewrite IH. destruct o; cbn [receive_one]; [by apply unnumbered_config|done].
Qed.

Lemma ngu_run_represents cfg e tr out : ngu_run cfg e tr out ->
  config e = cfg /\ rx_stopped e = false /\ Forall observed_ok tr /\ represents (fst (receive_all cfg tr)) e /\ out = map snd (snd (receive_all cfg tr)).
Proof.
  induction 1 as [limiter e Hb Hc|e tr out i e' es _ (Hc & Hs & Ho & Hr & Hout) Hi E].
  - destruct (represents_create_ngu cfg limiter e Hb Hc) as (H1 & H2 & H3). done.
  - pose proof (history_all cfg tr Ho) as Hh. pose proof (wp_handle_ngu _ e i Hr (ho_supervised _ _ _ _ Hh) Hs Hi) as Hw. unfold wp in Hw. rewrite E, Hc in Hw.
    destruct Hw as (H1 & H2 & H3 & H4); [intros Ez; by rewrite (receive_all_unordered cfg tr Ez)|].
    split; [congruence|]. split; [congruence|]. assert (observed e i = [] \/ exists o, observed e i = [o]) as [En|[o En]].
    { destruct i; cbn [observed]; [destruct (admitted e buf)|destruct (_ =? _)|]; eauto. }
    + rewrite En in *. cbn [fst snd map] in *. rewrite H2, !app_nil_r. done.
    + assert (observed_ok o) as Hoo by (destruct o as [buf|]; [|done]; destruct i as [buf'| |]; cbn [observed] in En; [destruct (admitted e buf'); [|done]; injection En as ->; apply Hi|by destruct (_ =? _)|done]).
      rewrite En in *. rewrite receive_all_snoc. cbn [fst snd]. split; [apply Forall_app; split; [done|by apply Forall_singleton]|]. split; [done|]. by rewrite H2, Hout, map_app.
Qed.

(** C25: The NG-U receiver refines the abstract one: in every run from its creation no operation aborts, and
    after the same admitted PDUs and expiries the entity holds what the abstract receiver holds and
    has delivered the same SDUs. *)
Theorem ngu_rx_refines cfg e tr out : ngu_run cfg e tr out ->
  represents (fst (receive_all cfg tr)) e /\ out = map snd (snd (receive_all cfg tr)) /\
  forall i, input_ok e i -> exists e' es, handle i e = Ok (tt, e', es).
Proof.
  intros Hrun. destruct (ngu_run_represents cfg e tr out Hrun) as (Hc & Hs & Ho & Hr & Hout). split; [done|]. split; [done|]. intros i Hi.
  pose proof (history_all cfg tr Ho) as Hh. pose proof (wp_handle_ngu _ e i Hr (ho_supervised _ _ _ _ Hh) Hs Hi) as Hw.
  unfold wp in Hw. destruct (handle i e) as [[[[] e'] es]|]; [eauto|]. destruct Hw. intros Ez. rewrite Hc in Ez. by rewrite (receive_all_unordered cfg tr Ez).
Qed.

(** SDUs with sequence numbers are delivered in order and once: there is a numbering of PDUs that arrived,
    each number congruent to the sequence number of its PDU, such that what was delivered out of the
    window is the SDUs numbered below RX_DELIV in ascending order; and while an SDU is missing t-Reordering
    runs, unless the numbers seen span the whole window. *)
Theorem ngu_rx_in_order cfg e tr out : ngu_run cfg e tr out ->
  exists (t : gmap Z sdu) (d n : Z) (labelled : list (option Z * sdu)),
    out = map snd labelled /\ numbered labelled = ascending t 0 d /\ (forall k s, t !! k = Some s -> 0 <= k < n /\ arrived cfg tr k s) /\
    rx_deliv (st e) = sn_of d /\ rx_next (st e) = sn_of n /\ 0 <= d <= n /\ n <= d + gtpu_rx_window_size /\ t !! d = None /\
    (is_running (reordering_timer e) = true \/ d = n \/ n = d + gtpu_rx_window_size).
Proof.
  intros Hrun. destruct (ngu_run_represents cfg e tr out Hrun) as (Hc & Hs & Ho & Hr & Hout). destruct (history_all cfg tr Ho) as [[Hor Ht Hg _] Hsup Hord Hsrc].
  set (r := fst (receive_all cfg tr)) in *. pose proof (rp_edge _ _ Hr) as He. exists (taken r), (deliv r), (next r), (snd (receive_all cfg tr)).
  split; [done|]. split; [done|]. split; [intros k s Hk; split; [apply Ht; by rewrite Hk|by apply Hsrc]|]. split; [apply He|]. split; [apply He|]. split; [lia|]. split; [apply Hor|]. split; [done|].
  destruct Hsup as [Hre|Hd]; [left|by right]. pose proof (rp_timer _ _ Hr) as Hto. destruct (reord r); [apply Hto|done].
Qed.

(** When the timer was started while the numbers seen span the whole window, its expiry is skipped: nothing is
    delivered, nothing moves and the timer does not run any more, although an SDU is missing. *)
Theorem ngu_rx_expiry_stalls cfg e tr out : ngu_run cfg e tr out -> is_running (reordering_timer e) = true ->
  rx_reord (st e) = sn_of (rx_deliv (st e) + gtpu_rx_window_size) ->
  exists e', handle (timer_fires (tm_cmd_id (reordering_timer e))) e = Ok (tt, e', []) /\
    st e' = st e /\ rx_window e' = rx_window e /\ is_running (reordering_timer e') = false /\ rx_deliv (st e') <> rx_next (st e').
Proof.
  intros Hrun Ht Hre. destruct (ngu_run_represents cfg e tr out Hrun) as (_ & _ & Ho & Hr & _). destruct (history_all cfg tr Ho) as [[Hor _ _ Hrr] _ _ _].
  set (r := fst (receive_all cfg tr)) in *. pose proof (rp_edge _ _ Hr) as He. pose proof (ed_deliv _ _ _ _ He) as Hd. pose proof (rp_timer _ _ Hr) as Hto.
  cbn [handle]. unfold reordering_timeout, timeout_task, handle_t_reordering_expire, bind, get, ret, modify. rewrite Z.eqb_refl, Ht. cbn [fst snd when]. cbn.
  assert (rx_reord (st e) = sn_of (deliv r + 32768)) as Hre' by (rewrite Hre, Hd; unfold sn_of, gtpu_rx_window_size; zmod).
  assert (rx_mod_base e (sn_of (deliv r + 32768)) = 32768) as Hmb by (rewrite (mod_base_spec e (deliv r)) by (done || lia); lia).
  unfold inside_rx_window, rx_mod_base in *. cbn. rewrite Hre', Hmb. cbn. eexists. split; [reflexivity|]. do 3 (split; [done|]). cbn [st set_reordering_timer].
  destruct (reord r) as [R|] eqn:ER; cbn [timer_ok] in Hto; [|congruence]. specialize (Hrr R eq_refl). destruct Hto as [_ HR]. rewrite Hre' in HR. unfold W, gtpu_rx_window_size in *.
  rewrite Hd, (ed_next _ _ _ _ He). unfold sn_of in *. zmod.
Qed.

(** ** Concrete runs *)

Fixpoint ngu_exec (ins : list ngu_input) (s : gtpu_tunnel_ngu_rx_impl * list ngu_observed * list sdu) : option (gtpu_tunnel_ngu_rx_impl * list ngu_observed * list sdu) :=
  match ins with
  | [] => Some s
  | i :: ins => let '(e, tr, out) := s in
      match handle i e with Ok (_, e', es) => ngu_exec ins (e', tr ++ observed e i, out ++ new_sdus es) | Fault _ => None end
  end.

Lemma ngu_exec_run cfg ins : forall s s', ngu_run cfg (fst (fst s)) (snd (fst s)) (snd s) -> Forall (fun i => match i with pdu_arrives buf => Forall is_byte buf /\ zlen buf <= max_sane_tokens | _ => False end) ins ->
  ngu_exec ins s = Some s' -> ngu_run cfg (fst (fst s')) (snd (fst s')) (snd s').
Proof.
  induction ins as [|i ins IH]; intros [[e tr] out] s' Hr Hi E; cbn [ngu_exec] in E; [by injection E as <-|]. apply Forall_cons in Hi as [Hi His].
  destruct (handle i e) as [[[[] e'] es]|] eqn:Eh; [|done]. apply (IH (e', tr ++ observed e i, out ++ new_sdus es) s'); [|done|done]. cbn [fst snd] in *.
  apply (nr_step cfg e tr out i e' es); [done| |done]. destruct i; try done.
Qed.

(** A G-PDU with a sequence number and a PDU session container of QoS flow 9. *)
Definition sample_pdu (sn : Z) (payload : Z) : list Z :=
  [0x36; 0xff; 0; 9; 0; 0; 0; 1; sn / 256; sn mod 256; 0; 0x85; 1; 0; 9; 0; payload].
Definition sample_cfg : ngu_rx_config := mk_rx_config 1 100 false false.
Definition sample_limiter : TokenBucket.token_bucket := TokenBucket.mk_bucket 1000 1000 100 (mk_timer timer_running (Some 100) 1) false.
Definition sample_run (sns : list Z) : option (gtpu_tunnel_ngu_rx_impl * list ngu_observed * list sdu) :=
  match create sample_cfg sample_limiter with
  | Some e => ngu_exec (map (fun sn => pdu_arrives (sample_pdu sn (sn mod 256))) sns) (e, [], [])
  | None => None
  end.

Lemma sample_run_reached sns s : Forall (fun sn => 0 <= sn < 65536) sns -> sample_run sns = Some s -> ngu_run sample_cfg (fst (fst s)) (snd (fst s)) (snd s).
Proof.
  unfold sample_run. intros Hsn. destruct (create sample_cfg sample_limiter) as [e|] eqn:Ec; [|done]. apply ngu_exec_run.
  - apply (nr_create sample_cfg sample_limiter); [constructor; simpl; unfold max_sane_tokens; (lia || done)|exact Ec].
  - apply Forall_map. eapply Forall_impl; [exact Hsn|]. intros sn Hr. cbn beta in Hr |- *. split; [|by vm_compute]. unfold sample_pdu, is_byte. repeat (apply Forall_cons; split; [try (by vm_compute); zmod|]). constructor.
Qed.

Lemma ngu_rx_refines_witness : exists e tr, ngu_run sample_cfg e tr [([0], 9); ([1], 9); ([2], 9)] /\ represents (fst (receive_all sample_cfg tr)) e.
Proof.
  destruct (sample_run [2; 1; 0]) as [[[e tr] out]|] eqn:E; [|vm_compute in E; discriminate E]. assert (out = [([0], 9); ([1], 9); ([2], 9)]) as -> by (vm_compute in E; injection E as _ _ <-; reflexivity).
  pose proof (sample_run_reached [2; 1; 0] _ ltac:(repeat constructor; lia) E) as Hr. exists e, tr. split; [exact Hr|]. exact (proj1 (ngu_rx_refines sample_cfg e tr _ Hr)).
Defined.

Lemma ngu_rx_in_order_witness : exists e tr (labelled : list (option Z * sdu)), ngu_run sample_cfg e tr (map snd labelled) /\ map snd labelled = [([0], 9); ([1], 9); ([2], 9)].
Proof.
  destruct (sample_run [2; 1; 0]) as [[[e tr] out]|] eqn:E; [|vm_compute in E; discriminate E]. assert (out = [([0], 9); ([1], 9); ([2], 9)]) as Eo by (vm_compute in E; injection E as _ _ <-; reflexivity).
  pose proof (sample_run_reached [2; 1; 0] _ ltac:(repeat constructor; lia) E) as Hr.
  destruct (ngu_rx_in_order sample_cfg e tr out Hr) as (_ & _ & _ & labelled & Hl & _). exists e, tr, labelled. rewrite <- Hl. split; [exact Hr|exact Eo].
Defined.

(** The first PDU that arrives has sequence number 32767: its SDU stays in the window. *)
Lemma ngu_rx_expiry_stalls_witness : exists e tr e', ngu_run sample_cfg e tr [] /\ handle (timer_fires (tm_cmd_id (reordering_timer e))) e = Ok (tt, e', []) /\ is_running (reordering_timer e') = false.
Proof.
  destruct (sample_run [32767]) as [[[e tr] out]|] eqn:E; [|vm_compute in E; discriminate E].
  pose proof (sample_run_reached [32767] _ ltac:(repeat constructor; lia) E) as Hr. assert (out = [] /\ is_running (reordering_timer e) = true /\ rx_reord (st e) = sn_of (rx_deliv (st e) + gtpu_rx_window_size)) as (-> & H1 & H2)
    by (vm_compute in E; injection E as <- _ <-; vm_compute; repeat split).
  destruct (ngu_rx_expiry_stalls sample_cfg e tr [] Hr H1 H2) as (e' & H3 & _ & _ & H4 & _). exists e, tr, e'. split; [exact Hr|]. split; [exact H3|exact H4].
Defined.

(** ** Transmitter *)

Lemma ul_container_octets qfi : 0 <= qfi < 64 -> ul_container qfi = [16; qfi].
Proof. intros H. apply (range_forall 64 (fun q => bool_decide (ul_container q = [16; q]))) in H; [by apply bool_decide_eq_true in H|by vm_compute]. Qed.

Lemma tx_header_ok teid sdu qfi : uint 32 teid -> 0 <= qfi < 64 -> header_ok (tx_header teid qfi sdu).
Proof.
  intros Ht Hq. constructor; cbn; try done; [by split..| |unfold Gtpu.GTPU_MAX_NUM_HEADER_EXTENSIONS; lia].
  apply Forall_singleton. rewrite ul_container_octets by done. constructor; try done. repeat constructor; unfold is_byte; lia.
Qed.

(** An SDU is sent as a G-PDU of the peer's TEID with one PDU session container that carries the QoS flow: any
    GTP-U peer that dissects it finds these and extracts the SDU. *)
Theorem ngu_tx_pdu teid sdu qfi : uint 32 teid -> 0 <= qfi < 64 -> Forall is_byte sdu ->
  exists w p, handle_sdu (mk_tx teid false) sdu qfi = Ok (Some w) /\ Gtpu.gtpu_dissect_pdu w = Some p /\ Gtpu.gtpu_extract_msg p = Ok sdu /\
    Gtpu.message_type (Gtpu.hdr p) = Gtpu.GTPU_MSG_DATA_PDU /\ Gtpu.teid (Gtpu.hdr p) = teid /\
    Gtpu.ext_list (Gtpu.hdr p) = [Gtpu.mk_ext Gtpu.pdu_session_container [16; qfi]].
Proof.
  intros Ht Hq Hb. destruct (gtpu_header_roundtrip sdu (tx_header teid qfi sdu) (tx_header_ok teid sdu qfi Ht Hq) Hb) as (w & Hw & _ & Hd & Hx).
  exists w. eexists. split; [exact Hw|]. split; [exact Hd|]. split; [exact Hx|]. split; [reflexivity|]. split; [reflexivity|]. cbn [Gtpu.hdr Gtpu.ext_list header_sent tx_header]. rewrite ul_container_octets by done. reflexivity.
Qed.

Lemma ngu_tx_pdu_witness : exists w p, handle_sdu (mk_tx 77 false) [1; 2; 3] 9 = Ok (Some w) /\ Gtpu.gtpu_dissect_pdu w = Some p /\ Gtpu.gtpu_extract_msg p = Ok [1; 2; 3].
Proof.
  destruct (ngu_tx_pdu 77 [1; 2; 3] 9) as (w & p & H1 & H2 & H3 & _); [by split|lia|repeat (apply Forall_cons; split; [by split|]); apply Forall_nil; exact I|].
  exists w, p. split; [exact H1|]. split; [exact H2|exact H3].
Defined.
