(* ===== verification/GtpuNru.v ===== *)
(** * GTP-U tunnels of the NR-U interface

    Models [lib/gtpu/gtpu_tunnel_nru_tx_impl.h] and [gtpu_tunnel_nru_rx_impl.h]: an NR-U message travels as a
    G-PDU with its control part packed into an NR RAN container.  What one tunnel sends the other one
    receives.  Logging and the sockets are left out. *)

From S2P Require Import Prelude Effects BitEncoding BitFields NruPacking GtpuPdu GtpuPduFacts.
Import Nru.
Open Scope Z_scope.

Module GtpuNru.

Inductive nru_node := du | cu_up | invalid.
Inductive nru_message := dl_message (m : nru_dl_message) | ul_message (m : nru_ul_message).

(** ** Transmitter *)

Definition tx_flags : Gtpu.gtpu_flags := Gtpu.mk_flags Gtpu.GTPU_FLAGS_VERSION_V1 Gtpu.GTPU_FLAGS_GTP_PROTOCOL true false false.
Definition nr_ran (c : list Z) : Gtpu.gtpu_extension_header := Gtpu.mk_ext Gtpu.nr_ran_container c.

(** [handle_sdu] of a DL message: the PDU that is sent.  [Ok None]: nothing is sent. *)
Definition handle_dl_sdu (peer_teid : Z) (m : nru_dl_message) : res (option (list Z)) :=
  let ext_buf := pack_dl_user_data [] (dl_user_data m) in
  let hdr := Gtpu.mk_header tx_flags Gtpu.GTPU_MSG_DATA_PDU 0 peer_teid 0 0 Gtpu.nr_ran_container [nr_ran ext_buf] in
  Gtpu.gtpu_write_header (dl_t_pdu m) hdr.

(** [handle_sdu] of a UL message; [copied]: the deep copy of its T-PDU finds memory. *)
Definition handle_ul_sdu (copied : bool) (peer_teid : Z) (m : nru_ul_message) : res (option (list Z)) :=
  let exts := match data_delivery_status m with Some s => [nr_ran (pack_status [] s)] | None => [] end in
  let next := match data_delivery_status m with Some _ => Gtpu.nr_ran_container | None => Gtpu.no_more_extension_headers end in
  let hdr := Gtpu.mk_header tx_flags Gtpu.GTPU_MSG_DATA_PDU 0 peer_teid 0 0 next exts in
  match ul_t_pdu m with
  | None => Gtpu.gtpu_write_header [] hdr
  | Some pdu => if copied then Gtpu.gtpu_write_header pdu hdr else Ok None
  end.

(** ** Receiver *)

(** The loop over the extension headers: the first NR RAN container. *)
Definition ran_container (ext_list : list Gtpu.gtpu_extension_header) : option (list Z) :=
  fold_left (fun c ext =>
    if Gtpu.extension_header_type ext =? Gtpu.nr_ran_container then
      match c with None => Some (Gtpu.container ext) | Some _ => c end
    else c) ext_list None.

(** [handle_pdu] of the tunnel: the message passed to the lower layer.  [chained]: the chain for a UL T-PDU is created. *)
Definition handle_dissected_pdu (node : nru_node) (chained : bool) (pdu : Gtpu.gtpu_dissected_pdu) : res (option nru_message) :=
  let c := ran_container (Gtpu.ext_list (Gtpu.hdr pdu)) in
  match node with
  | du =>
      match c with
      | None => Ok None
      | Some c =>
          match unpack_dl_user_data dl_user_data_default c with
          | None => Ok None
          | Some dud => match Gtpu.gtpu_extract_msg pdu with Ok t_pdu => Ok (Some (dl_message (mk_dl_message t_pdu dud))) | Fault f => Fault f end
          end
      end
  | cu_up =>
      match (match c with None => Some None | Some c => match unpack_status status_default c with None => None | Some s => Some (Some s) end end) with
      | None => Ok None
      | Some ddds =>
          match Gtpu.gtpu_extract_msg pdu with
          | Ok t_pdu => Ok (if chained then Some (ul_message (mk_ul_message (match t_pdu with [] => None | _ => Some t_pdu end) ddds)) else None)
          | Fault f => Fault f
          end
      end
  | invalid => Ok None
  end.

(** [handle_pdu] of the base class. *)
Definition handle_pdu (node : nru_node) (chained : bool) (buf : list Z) : res (option nru_message) :=
  match Gtpu.gtpu_dissect_pdu buf with None => Ok None | Some pdu => handle_dissected_pdu node chained pdu end.

End GtpuNru.

Import GtpuNru.

(** ** Sent and received *)

Definition dl_message_ok (m : nru_dl_message) : Prop := dl_user_data_ok (dl_user_data m) /\ Forall is_byte (dl_t_pdu m).
Definition ul_message_ok (m : nru_ul_message) : Prop :=
  (forall s, data_delivery_status m = Some s -> status_ok s) /\ (forall p, ul_t_pdu m = Some p -> Forall is_byte p).

(** What arrives of a message. *)
Definition dl_message_sent (m : nru_dl_message) : nru_dl_message := mk_dl_message (dl_t_pdu m) (dl_user_data_sent (dl_user_data m)).
Definition ul_message_sent (m : nru_ul_message) : nru_ul_message :=
  mk_ul_message (match ul_t_pdu m with Some (b :: l) => Some (b :: l) | _ => None end) (data_delivery_status m).

(** A header with at most one NR RAN container that [container_ok] accepts. *)
Lemma nr_ran_header_ok teid next exts : uint 32 teid ->
  (exts = [] \/ exists c, exts = [nr_ran c] /\ Forall is_byte c /\ container_ok c = true /\ zlen c <= 80) ->
  header_ok (Gtpu.mk_header tx_flags Gtpu.GTPU_MSG_DATA_PDU 0 teid 0 0 next exts).
Proof.
  intros Ht [->|(c & -> & Hb & Hc & Hl)]; (constructor; [done|done|done|by split|by split| |cbn; unfold Gtpu.GTPU_MAX_NUM_HEADER_EXTENSIONS; lia]); cbn; [constructor|].
  apply Forall_singleton. apply andb_true_iff in Hc as [_ Hc%Z.eqb_eq]. constructor; cbn; [by split|done|done|done|done|lia].
Qed.

Lemma handle_pdu_written node chained h pdu : header_ok h -> Forall is_byte pdu ->
  exists w d, Gtpu.gtpu_write_header pdu h = Ok (Some w) /\ Forall is_byte w /\ Gtpu.ext_list (Gtpu.hdr d) = Gtpu.ext_list h /\ Gtpu.gtpu_extract_msg d = Ok pdu /\
    handle_pdu node chained w = handle_dissected_pdu node chained d.
Proof.
  intros Hh Hp. destruct (gtpu_header_roundtrip pdu h Hh Hp) as (w & Hw & Hb & Hd & Hx). exists w, (Gtpu.mk_dissected w (header_sent pdu h) (header_octets h) false). split; [exact Hw|]. split; [exact Hb|]. split; [reflexivity|].
  split; [exact Hx|]. unfold handle_pdu. by rewrite Hd.
Qed.

Lemma nru_dl_wire teid m chained : uint 32 teid -> dl_message_ok m ->
  exists w, handle_dl_sdu teid m = Ok (Some w) /\ Forall is_byte w /\ handle_pdu du chained w = Ok (Some (dl_message (dl_message_sent m))).
Proof.
  intros Ht [Hd Hp]. destruct (dl_user_data_packed (dl_user_data m) Hd) as (H1 & H2 & H3 & H4).
  destruct (handle_pdu_written du chained _ (dl_t_pdu m) (nr_ran_header_ok teid Gtpu.nr_ran_container [nr_ran (pack_dl_user_data [] (dl_user_data m))] Ht ltac:(eauto 6)) Hp) as (w & d & Hw & Hb & He & Hx & Hr).
  exists w. split; [exact Hw|]. split; [exact Hb|]. rewrite Hr. unfold handle_dissected_pdu. rewrite He. cbn [Gtpu.ext_list ran_container fold_left Gtpu.extension_header_type nr_ran Gtpu.container].
  change (Gtpu.nr_ran_container =? Gtpu.nr_ran_container) with true. cbv iota. by rewrite H4, Hx.
Qed.

Lemma nru_ul_wire teid m : uint 32 teid -> ul_message_ok m ->
  exists w, handle_ul_sdu true teid m = Ok (Some w) /\ Forall is_byte w /\ handle_pdu cu_up true w = Ok (Some (ul_message (ul_message_sent m))).
Proof.
  intros Ht [Hs Hp]. destruct m as [t_pdu ddds]. cbn [ul_t_pdu data_delivery_status] in *. set (pdu := default [] t_pdu).
  assert (Forall is_byte pdu) as Hb by (unfold pdu; destruct t_pdu; [by apply Hp|constructor]). unfold handle_ul_sdu. cbn [ul_t_pdu data_delivery_status].
  set (next := match ddds with Some _ => _ | None => _ end). set (exts := match ddds with Some s => [nr_ran (pack_status [] s)] | None => [] end).
  assert (exts = [] \/ exists c, exts = [nr_ran c] /\ Forall is_byte c /\ container_ok c = true /\ zlen c <= 80) as Hexts.
  { unfold exts. destruct ddds as [s|]; [right|by left]. destruct (status_packed s (Hs s eq_refl)) as (H1 & H2 & H3 & _). eauto 6. }
  destruct (handle_pdu_written cu_up true _ pdu (nr_ran_header_ok teid next exts Ht Hexts) Hb) as (w & d & Hw & Hwb & He & Hx & Hr). exists w.
  split; [unfold pdu in Hw; by destruct t_pdu|]. split; [done|]. rewrite Hr. unfold handle_dissected_pdu. rewrite He, Hx. cbn [Gtpu.ext_list].
  assert (match (match ran_container exts with None => Some None | Some c => match unpack_status status_default c with None => None | Some s => Some (Some s) end end) with
    | None => None | Some o => Some o end = Some ddds) as Hc.
  { unfold exts. destruct ddds as [s|]; [|done]. cbn [ran_container fold_left Gtpu.extension_header_type nr_ran Gtpu.container]. change (Gtpu.nr_ran_container =? Gtpu.nr_ran_container) with true.
    cbv iota. destruct (status_packed s (Hs s eq_refl)) as (_ & _ & _ & ->). done. }
  destruct (match ran_container exts with None => Some None | Some c => _ end) as [o|]; [|done]. injection Hc as ->. unfold ul_message_sent, pdu. cbn [ul_t_pdu data_delivery_status]. by destruct t_pdu as [[|b l]|].
Qed.

(** An NR-U message sent through a tunnel arrives: for fields in range no assertion fails, the PDU is sent, and the
    tunnel at the other side passes on the message that was sent (less an empty list of discard blocks, a
    report SN that is not asked for, or an empty uplink T-PDU). *)
Theorem nru_tunnel_delivers teid : uint 32 teid ->
  (forall m chained, dl_message_ok m -> exists w, handle_dl_sdu teid m = Ok (Some w) /\ Forall is_byte w /\ handle_pdu du chained w = Ok (Some (dl_message (dl_message_sent m)))) /\
  (forall m, ul_message_ok m -> exists w, handle_ul_sdu true teid m = Ok (Some w) /\ Forall is_byte w /\ handle_pdu cu_up true w = Ok (Some (ul_message (ul_message_sent m)))).
Proof. intros Ht. split; intros; [by apply nru_dl_wire|by apply nru_ul_wire]. Qed.

Definition example_dl_message : nru_dl_message := mk_dl_message [1; 2; 3] example_dl_user_data.
Lemma nru_tunnel_delivers_witness : exists w, handle_dl_sdu 77 example_dl_message = Ok (Some w) /\ handle_pdu du true w = Ok (Some (dl_message example_dl_message)).
Proof.
  destruct (nru_tunnel_delivers 77) as [H _]; [by split|]. destruct (H example_dl_message true) as (w & H1 & _ & H2).
  - split; [|repeat (apply Forall_cons; split; [by split|]); apply Forall_nil; exact I].
    constructor; [by split|intros ? [= <-]; by split| |by split]. intros l [= <-]. split; [|vm_compute; congruence].
    repeat (apply Forall_cons; split; [split; split; vm_compute; congruence|]). apply Forall_nil. exact I.
  - exists w. split; [exact H1|exact H2].
Defined.

(** No PDU makes a receiver abort: whatever octets arrive, it drops them or passes on a message whose fields are in range. *)
Theorem nru_rx_total node chained buf : Forall is_byte buf -> exists o, handle_pdu node chained buf = Ok o /\
  (forall m, o = Some (dl_message m) -> dl_message_ok m) /\ (forall m, o = Some (ul_message m) -> ul_message_ok m).
Proof.
  intros Hb. unfold handle_pdu. destruct (Gtpu.gtpu_dissect_pdu buf) as [p|] eqn:E; [|by exists None].
  pose proof (dissect_ok buf p Hb E) as Hp. unfold handle_dissected_pdu. rewrite (extract_ok buf p Hp). set (t := drop _ _). assert (Forall is_byte t) as Htb by by apply Forall_drop.
  assert (forall c, ran_container (Gtpu.ext_list (Gtpu.hdr p)) = Some c -> Forall is_byte c) as Hc.
  { unfold ran_container. pose proof (dk_exts _ _ Hp) as Hx. assert (forall o, (forall c, o = Some c -> Forall is_byte c) -> forall c, fold_left (fun c ext => if Gtpu.extension_header_type ext =? Gtpu.nr_ran_container then
      match c with None => Some (Gtpu.container ext) | Some _ => c end else c) (Gtpu.ext_list (Gtpu.hdr p)) o = Some c -> Forall is_byte c) as G; [|by apply G].
    induction Hx as [|e l He _ IH]; intros o Ho c; cbn [fold_left]; [apply Ho|]. apply IH. destruct (_ =? _); [|done]. destruct o; [done|]. intros ? [= <-]. by apply er_bytes. }
  destruct node; [| |by exists None].
  - destruct (ran_container _) as [c|]; [|by exists None]. destruct (unpack_dl_user_data _ c) as [d|] eqn:Eu; [|by exists None]. eexists. split; [reflexivity|]. split; [|done].
    intros m [= <-]. split; [|done]. eapply unpack_dl_user_data_ok; [by apply Hc|exact Eu].
  - destruct (ran_container _) as [c|]; [destruct (unpack_status _ c) as [s|] eqn:Eu; [|by exists None]|].
    + eexists. split; [reflexivity|]. split; [by destruct chained|]. destruct chained; [|done]. intros m [= <-]. split; [intros ? [= <-]; eapply unpack_status_ok; [by apply Hc|exact Eu]|].
      cbn. destruct t; [done|]. by intros ? [= <-].
    + eexists. split; [reflexivity|]. split; [by destruct chained|]. destruct chained; [|done]. intros m [= <-]. split; [done|]. cbn. destruct t; [done|]. by intros ? [= <-].
Qed.

Lemma nru_rx_total_witness : exists o, handle_pdu du true [0x34; 0xff; 0; 9; 0; 0; 0; 1; 0; 0; 0; 0x84; 1; 0; 0; 0; 5] = Ok o.
Proof.
  destruct (nru_rx_total du true [0x34; 0xff; 0; 9; 0; 0; 0; 1; 0; 0; 0; 0x84; 1; 0; 0; 0; 5]) as (o & H & _); [|exists o; exact H].
  repeat (apply Forall_cons; split; [by split|]). apply Forall_nil. exact I.
Defined.
