(* ===== verification/GtpuPath.v ===== *)
(** * GTP-U around the tunnels: echo, TEIDs and the demultiplexer

    Models [lib/gtpu/gtpu_echo_rx_impl.h] and [gtpu_echo_tx_impl.h] (path management),
    [lib/gtpu/gtpu_teid_pool_impl.h] (local TEIDs) and [lib/gtpu/gtpu_demux_impl.cpp] (PDUs of a socket to the tunnel of
    their TEID, through one batched queue per tunnel).  Logging and pcap are left out; mutexes make each
    access to the map of tunnels one step. *)

From S2P Require Import Prelude Effects BitEncoding BitFields NruPacking GtpuPdu GtpuPduFacts GtpuNru.
From stdpp Require Import gmap.
Open Scope Z_scope.
Open Scope entity_scope.

(** ** Path management *)

Module GtpuEcho.

(** [sn_next], a 32-bit number. *)
Record gtpu_echo_tx := mk_echo { sn_next : Z }.

Definition echo_flags : Gtpu.gtpu_flags := Gtpu.mk_flags Gtpu.GTPU_FLAGS_VERSION_V1 Gtpu.GTPU_FLAGS_GTP_PROTOCOL false true false.
Definition echo_header (message_type sn : Z) : Gtpu.gtpu_header :=
  Gtpu.mk_header echo_flags message_type 0 Gtpu.GTPU_PATH_MANAGEMENT_TEID sn 0 Gtpu.no_more_extension_headers [].

(** The PDU sent, if any, and the new state. *)
Definition send_echo_request (t : gtpu_echo_tx) : res (option (list Z) * gtpu_echo_tx) :=
  match Gtpu.gtpu_write_header [] (echo_header Gtpu.GTPU_MSG_ECHO_REQUEST (u16 (sn_next t))) with
  | Ok (Some w) => Ok (Some w, mk_echo (u32 (sn_next t + 1)))
  | Ok None => Ok (None, t)
  | Fault f => Fault f
  end.
Definition send_echo_response (sn : Z) : res (option (list Z)) :=
  Gtpu.gtpu_write_header (Gtpu.gtpu_write_ie_recovery [] (Gtpu.mk_recovery 0)) (echo_header Gtpu.GTPU_MSG_ECHO_RESPONSE sn).

(** What the receiver makes of a PDU. *)
Inductive outcome :=
| discarded
| response_sent (pdu : option (list Z))
| response_handled (sn : Z)
| error_indication (ind : Gtpu.gtpu_msg_error_indication).

Definition handle_dissected_pdu (pdu : Gtpu.gtpu_dissected_pdu) : res outcome :=
  let h := Gtpu.hdr pdu in
  if negb (Gtpu.teid h =? Gtpu.GTPU_PATH_MANAGEMENT_TEID) then Ok discarded else
  if negb (Gtpu.f_seq_number (Gtpu.flags h)) then Ok discarded else
  if Gtpu.message_type h =? Gtpu.GTPU_MSG_ECHO_REQUEST then
    match send_echo_response (Gtpu.seq_number h) with Ok w => Ok (response_sent w) | Fault f => Fault f end
  else if Gtpu.message_type h =? Gtpu.GTPU_MSG_ECHO_RESPONSE then Ok (response_handled (Gtpu.seq_number h))
  else if Gtpu.message_type h =? Gtpu.GTPU_MSG_ERROR_INDICATION then
    match Gtpu.gtpu_extract_msg pdu with
    | Ok msg => Ok (match Gtpu.gtpu_read_msg_error_indication msg with Some ind => error_indication ind | None => discarded end)
    | Fault f => Fault f
    end
  else Ok discarded.

Definition handle_pdu (buf : list Z) : res outcome :=
  match Gtpu.gtpu_dissect_pdu buf with None => Ok discarded | Some pdu => handle_dissected_pdu pdu end.

End GtpuEcho.

(** ** Local TEIDs *)

Module TeidPool.

Definition GTPU_TEID_MIN : Z := 1.

(** The pool is a queue without order between its producers: [pick] says which element comes out. *)
Record gtpu_teid_pool := mk_pool { max_nof_teids : Z; teid_pool : list Z }.

(** The bound of the loop is a 32-bit number. *)
Definition create (max_nof : Z) : gtpu_teid_pool := mk_pool max_nof (seqZ GTPU_TEID_MIN (u32 (GTPU_TEID_MIN + max_nof) - GTPU_TEID_MIN)).

Definition request_teid (pick : nat) (p : gtpu_teid_pool) : option Z * gtpu_teid_pool :=
  match teid_pool p !! pick with
  | Some t => (Some t, mk_pool (max_nof_teids p) (delete pick (teid_pool p)))
  | None => (None, p)
  end.
Definition release_teid (teid : Z) (p : gtpu_teid_pool) : bool * gtpu_teid_pool := (true, mk_pool (max_nof_teids p) (teid_pool p ++ [teid])).
Definition full (p : gtpu_teid_pool) : bool := match teid_pool p with [] => true | _ => false end.

End TeidPool.

(** ** Demultiplexer *)

Module GtpuDemux.

Record gtpu_demux_cfg := mk_cfg { test_mode : bool; queue_size : Z; batch_size : Z }.

(** A queue belongs to who added the tunnel; the map refers to it. *)
Record dispatch_queue := mk_queue { q_teid : Z; q_pdus : list (list Z) }.
Record gtpu_demux_tunnel_ctx := mk_ctx { batched_queue : nat; tunnel : nat }.
Record gtpu_demux := mk_demux {
  cfg : gtpu_demux_cfg;
  stopped : bool;
  teid_to_tunnel : gmap Z gtpu_demux_tunnel_ctx;
  test_teid : Z;
  queues : gmap nat dispatch_queue
}.

(** [tunnel->handle_pdu]. *)
Inductive demux_event := forwarded (tunnel : nat) (pdu : list Z).

Definition H (A : Type) : Type := M gtpu_demux demux_event A.

Definition set_stopped (d : gtpu_demux) : gtpu_demux := mk_demux (cfg d) true (teid_to_tunnel d) (test_teid d) (queues d).
Definition set_teid_to_tunnel (m : gmap Z gtpu_demux_tunnel_ctx) (d : gtpu_demux) : gtpu_demux := mk_demux (cfg d) (stopped d) m (test_teid d) (queues d).
Definition set_test_teid (t : Z) (d : gtpu_demux) : gtpu_demux := mk_demux (cfg d) (stopped d) (teid_to_tunnel d) t (queues d).
Definition set_queues (m : gmap nat dispatch_queue) (d : gtpu_demux) : gtpu_demux := mk_demux (cfg d) (stopped d) (teid_to_tunnel d) (test_teid d) m.

Definition create (c : gtpu_demux_cfg) : gtpu_demux := mk_demux c false ∅ 1 ∅.

Definition stop : H unit := modify set_stopped.
Definition apply_test_teid (teid : Z) : H unit := modify (set_test_teid teid).

(** [queue] names the queue that is made; it is destroyed again when the TEID is taken. *)
Definition add_tunnel (teid : Z) (queue tunnel : nat) : H bool :=
  let! d := get in
  match teid_to_tunnel d !! teid with
  | Some _ => ret false
  | None =>
      modify (set_teid_to_tunnel (<[teid := mk_ctx queue tunnel]> (teid_to_tunnel d))) ;;;
      modify (set_queues (<[queue := mk_queue teid []]> (queues d))) ;;;
      ret true
  end.

Definition remove_tunnel (teid : Z) : H bool :=
  let! d := get in
  match teid_to_tunnel d !! teid with
  | None => ret false
  | Some _ => modify (set_teid_to_tunnel (delete teid (teid_to_tunnel d))) ;;; ret true
  end.

(** The owner destroys its queue. *)
Definition destroy_queue (queue : nat) : H unit := modify (fun d => set_queues (delete queue (queues d)) d).

(** [dispatched]: the executor of the tunnel takes the task that the first PDU of a queue needs.  A reference to a queue that does not exist any more
    is a fault. *)
Definition handle_pdu (dispatched : bool) (pdu : list Z) : H unit :=
  let! d := get in
  if stopped d then ret tt else
  match (if test_mode (cfg d) then Some (test_teid d) else Gtpu.gtpu_read_teid pdu) with
  | None => ret tt
  | Some teid =>
      match teid_to_tunnel d !! teid with
      | None => ret tt
      | Some ctx =>
          let! q := need (queues d !! batched_queue ctx) in
          when ((zlen (q_pdus q) <? queue_size (cfg d)) && (negb (zlen (q_pdus q) =? 0) || dispatched))
            (modify (set_queues (<[batched_queue ctx := mk_queue (q_teid q) (q_pdus q ++ [pdu])]> (queues d))))
      end
  end.

Definition handle_pdu_impl (teid : Z) (pdu : list Z) : H unit :=
  let! d := get in
  if stopped d then ret tt else
  match teid_to_tunnel d !! teid with
  | None => ret tt
  | Some ctx => emit (forwarded (tunnel ctx) pdu)
  end.

(** The task of a queue: a batch is handed to the tunnel and the rest left to another task, or dropped when that one is refused. *)
Definition dispatch (queue : nat) (dispatched : bool) : H unit :=
  let! d := get in
  match queues d !! queue with
  | None => ret tt
  | Some q =>
      let n := Z.to_nat (batch_size (cfg d)) in
      let rest := drop n (q_pdus q) in
      modify (set_queues (<[queue := mk_queue (q_teid q) rest]> (queues d))) ;;;
      for_each (take n (q_pdus q)) (handle_pdu_impl (q_teid q)) ;;;
      when (negb (zlen rest =? 0) && negb dispatched) (modify (set_queues (<[queue := mk_queue (q_teid q) []]> (queues d))))
  end.

End GtpuDemux.

(** * GTP-U around the tunnels: theorems

    The demultiplexer reads the TEID the dissected header has, and hands every PDU to the tunnel of its TEID in
    the order of arrival; NR-U messages sent to a TEID arrive in order at its tunnel; the TEID pool hands
    out no TEID twice; an echo request is answered with its sequence number. *)

Open Scope Z_scope.
Open Scope entity_scope.
Open Scope decode_scope.

(** ** The TEID of a PDU *)

(** [yields] for the decoder at these bits. *)
Definition yields_at {A} (m : Dec A) (bs : list bool) (P : A -> Prop) : Prop :=
  forall d, decodes d bs -> match fst (m d) with Some a => P a | None => True end.

Lemma yields_at_reads {A B} (m : Dec A) (k : A -> Dec B) bs a mid (P : B -> Prop) :
  reads m bs a mid -> yields_at (k a) mid P -> yields_at (dbind m k) bs P.
Proof. intros Hm Hk d Hd. destruct (Hm d Hd) as (d' & E & Hd'). unfold dbind. rewrite E. by apply Hk. Qed.

Lemma yields_at_any {A} (m : Dec A) bs (P : A -> Prop) : yields m P -> yields_at m bs P.
Proof. intros Hm d Hd. destruct (Hm d bs Hd) as [H _]. by destruct (m d) as [[a|] d']. Qed.

(** Whatever is read. *)
Lemma post_bind {A B} (m : Dec A) (k : A -> Dec B) (P : B -> Prop) d :
  (forall a d, match fst (k a d) with Some b => P b | None => True end) -> match fst (dbind m k d) with Some b => P b | None => True end.
Proof. intros Hk. unfold dbind. destruct (m d) as [[a|] d']; [apply Hk|done]. Qed.

(** A field of [n] bits at the head of the octets. *)
Lemma reads_head w n bs : 0 <= n <= w -> n <= zlen bs -> reads (field_ w n) bs (bits_value (take (Z.to_nat n) bs)) (drop (Z.to_nat n) bs).
Proof.
  intros Hn Hl d Hd. unfold field_. destruct (unpack_uint_spec w d bs n Hd Hn ltac:(lia)) as (d' & -> & Hd'). by exists d'.
Qed.

Lemma zlen_drop_bits n (bs : list bool) k : 0 <= n -> n + k <= zlen bs -> k <= zlen (drop (Z.to_nat n) bs).
Proof. intros. rewrite zlen_drop by lia. lia. Qed.

Lemma bits_value_octets l : Forall is_byte l -> bits_value (bytes_bits l) = fold_left (fun v b => v * 256 + b) l 0.
Proof.
  intros Hl. induction l as [|b l IH] using rev_ind; [done|]. apply Forall_app in Hl as [Hl [Hb _]%Forall_cons].
  rewrite bytes_bits_app, bits_value_app, fold_left_app, IH by done. cbn [fold_left]. change (bytes_bits [b]) with (byte_bits b ++ []). rewrite app_nil_r.
  unfold byte_bits. rewrite zlen_value_bits, bits_value_bits, Z.mod_small by (unfold is_byte in Hb; lia). done.
Qed.

Lemma lor_octets a b c d : is_byte a -> is_byte b -> is_byte c -> is_byte d ->
  Z.lor (Z.lor (Z.lor (Z.shiftl a 24) (Z.shiftl b 16)) (Z.shiftl c 8)) d = ((a * 256 + b) * 256 + c) * 256 + d.
Proof.
  unfold is_byte. intros Ha Hb Hc Hd. rewrite (lor_shiftl_add a) by (rewrite ?Z.shiftl_mul_pow2 by lia; lia).
  replace (a * 2 ^ 24 + Z.shiftl b 16) with (Z.shiftl (a * 256 + b) 16) by (rewrite !Z.shiftl_mul_pow2 by lia; lia).
  rewrite lor_shiftl_add by (rewrite ?Z.shiftl_mul_pow2 by lia; lia).
  replace ((a * 256 + b) * 2 ^ 16 + Z.shiftl c 8) with (Z.shiftl ((a * 256 + b) * 256 + c) 8) by (rewrite !Z.shiftl_mul_pow2 by lia; lia).
  rewrite lor_shiftl_add by lia. lia.
Qed.

Lemma read_teid_octets raw : Forall is_byte raw -> Gtpu.GTPU_BASE_HEADER_LEN <= zlen raw ->
  Gtpu.gtpu_read_teid raw = Some (bits_value (take 32 (drop 32 (bytes_bits raw)))).
Proof.
  intros Hb Hl. unfold Gtpu.gtpu_read_teid. rewrite (proj2 (Z.ltb_ge _ _)) by done. f_equal. unfold Gtpu.GTPU_BASE_HEADER_LEN in Hl.
  destruct raw as [|b0 [|b1 [|b2 [|b3 [|b4 [|b5 [|b6 [|b7 raw]]]]]]]]; try (unfold zlen in Hl; cbn [length] in Hl; lia).
  change (b0 :: b1 :: b2 :: b3 :: b4 :: b5 :: b6 :: b7 :: raw) with ([b0; b1; b2; b3] ++ [b4; b5; b6; b7] ++ raw) in *.
  apply Forall_app in Hb as [_ [Hb _]%Forall_app]. rewrite !bytes_bits_app. change (drop 32) with (@drop bool (Z.to_nat 32)). change (take 32) with (@take bool (Z.to_nat 32)).
  rewrite drop_app_zlen, take_app_zlen, bits_value_octets by (done || apply zlen_bytes_bits). repeat (apply Forall_cons in Hb as [? Hb]). by apply lor_octets.
Qed.

Lemma bits_drop_drop (bs : list bool) n k : 0 <= n -> 0 <= k -> drop (Z.to_nat k) (drop (Z.to_nat n) bs) = drop (Z.to_nat (n + k)) bs.
Proof. intros. rewrite drop_drop. f_equal. lia. Qed.

(** One field of the base header, [n] bits behind the first [o]. *)
Lemma yields_at_field_ {B} w n o (k : Z -> Dec B) bs (P : B -> Prop) : 0 <= o -> 0 <= n <= w -> o + n <= zlen bs ->
  yields_at (k (bits_value (take (Z.to_nat n) (drop (Z.to_nat o) bs)))) (drop (Z.to_nat (o + n)) bs) P -> yields_at (dbind (field_ w n) k) (drop (Z.to_nat o) bs) P.
Proof.
  intros Ho Hn Hl H. eapply yields_at_reads; [apply reads_head; [done|rewrite zlen_drop by lia; lia]|]. by rewrite bits_drop_drop by lia.
Qed.

Lemma yields_at_flag_ {B} o (k : bool -> Dec B) bs (P : B -> Prop) : 0 <= o -> o + 1 <= zlen bs ->
  (forall b, yields_at (k b) (drop (Z.to_nat (o + 1)) bs) P) -> yields_at (dbind flag_ k) (drop (Z.to_nat o) bs) P.
Proof.
  intros Ho Hl H d Hd. unfold dbind, flag_. destruct (reads_head 1 1 (drop (Z.to_nat o) bs) ltac:(lia) ltac:(rewrite zlen_drop by lia; lia) d Hd) as (d' & E & Hd').
  rewrite bits_drop_drop in Hd' by lia. unfold dbind. rewrite E. by apply H.
Qed.

(** The demultiplexer finds the TEID that dissecting finds. *)
Lemma read_teid_dissected raw p : Forall is_byte raw -> Gtpu.gtpu_dissect_pdu raw = Some p -> Gtpu.gtpu_read_teid raw = Some (Gtpu.teid (Gtpu.hdr p)).
Proof.
  intros Hb E. unfold Gtpu.gtpu_dissect_pdu in E. destruct (Z.ltb_spec (zlen raw) Gtpu.GTPU_BASE_HEADER_LEN) as [|Hl]; [done|]. rewrite read_teid_octets by done. f_equal.
  set (bs := bytes_bits raw). set (t := bits_value _). assert (64 <= zlen bs) as Hbs by (unfold bs; rewrite zlen_bytes_bits; unfold Gtpu.GTPU_BASE_HEADER_LEN in Hl; lia).
  enough (yields_at (Gtpu.gtpu_dissect_bits raw) (drop (Z.to_nat 0) bs) (fun p => t = Gtpu.teid (Gtpu.hdr p))) as H.
  { specialize (H _ (new_decoder_decodes raw Hb)). unfold run_dec in E. by rewrite E in H. }
  unfold Gtpu.gtpu_dissect_bits.
  do 3 (apply yields_at_field_; [lia|lia|lia|]). do 3 (apply yields_at_flag_; [lia|lia|intros ?]). cbv zeta. destruct (negb (Gtpu.gtpu_supported_flags_check _)); [done|].
  do 3 (apply yields_at_field_; [lia|lia|lia|]).
  destruct (negb _); [done|]. intros d _. apply post_bind. intros [[sn n] next] ?. apply post_bind. intros exts ?. by apply post_bind.
Qed.

(** ** The demultiplexer *)

Section demux.
Import GtpuDemux.

(** What [handle_pdu_impl] does with a PDU of a queue. *)
Definition forwarded_by (d : gtpu_demux) (teid : Z) (pdu : list Z) : list demux_event :=
  if stopped d then [] else match teid_to_tunnel d !! teid with None => [] | Some ctx => [forwarded (tunnel ctx) pdu] end.

Lemma handle_pdu_impl_spec d teid pdu : handle_pdu_impl teid pdu d = Ok (tt, d, forwarded_by d teid pdu).
Proof. unfold handle_pdu_impl, forwarded_by. cbn. destruct (stopped d); [done|]. by destruct (teid_to_tunnel d !! teid). Qed.

Lemma dispatch_fn_spec d teid pdus : for_each pdus (handle_pdu_impl teid) d = Ok (tt, d, pdus ≫= forwarded_by d teid).
Proof. induction pdus as [|pdu pdus IH]; [done|]. cbn [for_each mbind list_bind]. unfold bind. by rewrite handle_pdu_impl_spec, IH. Qed.

(** What a task of a queue leaves in it. *)
Definition left_by (d : gtpu_demux) (dispatched : bool) (pdus : list (list Z)) : list (list Z) :=
  if dispatched then drop (Z.to_nat (batch_size (cfg d))) pdus else [].

Lemma dispatch_spec queue dispatched d : dispatch queue dispatched d =
  Ok (tt, match queues d !! queue with None => d | Some q => set_queues (<[queue := mk_queue (q_teid q) (left_by d dispatched (q_pdus q))]> (queues d)) d end,
    match queues d !! queue with None => [] | Some q => take (Z.to_nat (batch_size (cfg d))) (q_pdus q) ≫= forwarded_by d (q_teid q) end).
Proof.
  unfold dispatch. cbn. destruct (queues d !! queue) as [q|]; [|done]. unfold bind. cbn. rewrite dispatch_fn_spec. cbn. unfold left_by.
  set (rest := drop _ _). change (forwarded_by (set_queues _ d)) with (forwarded_by d).
  destruct dispatched, (zlen rest =? 0) eqn:E; cbn [negb andb when]; cbn; rewrite ?app_nil_r; try done.
  apply Z.eqb_eq, zlen_zero_nil in E. by rewrite E.
Qed.

(** Where a PDU goes. *)
Definition pdu_teid (d : gtpu_demux) (pdu : list Z) : option Z := if test_mode (cfg d) then Some (test_teid d) else Gtpu.gtpu_read_teid pdu.

Lemma handle_pdu_spec dispatched pdu d : (forall teid ctx, teid_to_tunnel d !! teid = Some ctx -> is_Some (queues d !! batched_queue ctx)) ->
  handle_pdu dispatched pdu d = Ok (tt,
    if stopped d then d else
    match (pdu_teid d pdu ≫= fun t => teid_to_tunnel d !! t) with
    | None => d
    | Some ctx =>
        match queues d !! batched_queue ctx with
        | None => d
        | Some q => if (zlen (q_pdus q) <? queue_size (cfg d)) && (negb (zlen (q_pdus q) =? 0) || dispatched)
            then set_queues (<[batched_queue ctx := mk_queue (q_teid q) (q_pdus q ++ [pdu])]> (queues d)) d else d
        end
    end, []).
Proof.
  intros Hlive. unfold handle_pdu, pdu_teid. cbn. destruct (stopped d); [done|]. destruct (if test_mode (cfg d) then _ else _) as [t|]; [|done]. cbn.
  destruct (teid_to_tunnel d !! t) as [ctx|] eqn:E; [|done]. destruct (Hlive t ctx E) as [q Hq]. unfold bind, need. rewrite Hq. cbn. by destruct (_ && _).
Qed.

(** *** Runs *)

Inductive demux_op :=
| op_stop
| op_add (teid : Z) (queue tunnel : nat)
| op_remove (teid : Z)
| op_destroy (queue : nat)
| op_pdu (dispatched : bool) (pdu : list Z)
| op_dispatch (queue : nat) (dispatched : bool).

Definition demux_perform (o : demux_op) : GtpuDemux.H unit :=
  match o with
  | op_stop => stop
  | op_add teid queue tunnel => add_tunnel teid queue tunnel ;;; ret tt
  | op_remove teid => remove_tunnel teid ;;; ret tt
  | op_destroy queue => destroy_queue queue
  | op_pdu dispatched pdu => handle_pdu dispatched pdu
  | op_dispatch queue dispatched => dispatch queue dispatched
  end.

(** The owners: a queue is new and the TEID is not that of a queue that still exists; a queue goes after its tunnel was removed. *)
Definition demux_op_ok (d : gtpu_demux) (o : demux_op) : Prop :=
  match o with
  | op_add teid queue _ => queues d !! queue = None /\ (teid_to_tunnel d !! teid = None -> forall i q, queues d !! i = Some q -> q_teid q <> teid)
  | op_destroy queue => forall teid ctx, teid_to_tunnel d !! teid = Some ctx -> batched_queue ctx <> queue
  | _ => True
  end.

Definition op_pdus (o : demux_op) : list (list Z) := match o with op_pdu _ pdu => [pdu] | _ => [] end.
Definition event_pdu (ev : demux_event) : list Z := match ev with forwarded _ pdu => pdu end.

(** A run with the PDUs that arrived and the events. *)
Inductive demux_run (c : gtpu_demux_cfg) : gtpu_demux -> list (list Z) -> list demux_event -> Prop :=
| dr_create : demux_run c (create c) [] []
| dr_step d ps es o d' es' : demux_run c d ps es -> demux_op_ok d o -> demux_perform o d = Ok (tt, d', es') -> demux_run c d' (ps ++ op_pdus o) (es ++ es').

(** PDUs with this TEID. *)
Definition has_teid (t : Z) (pdu : list Z) : Prop := Gtpu.gtpu_read_teid pdu = Some t.
#[local] Instance has_teid_dec t pdu : Decision (has_teid t pdu) := decide (Gtpu.gtpu_read_teid pdu = Some t).

Record demux_inv (d : gtpu_demux) : Prop := {
  di_test : test_mode (cfg d) = false;
  di_live : forall t ctx, teid_to_tunnel d !! t = Some ctx -> exists q, queues d !! batched_queue ctx = Some q /\ q_teid q = t;
  di_unique : forall i j q r, queues d !! i = Some q -> queues d !! j = Some r -> q_teid q = q_teid r -> i = j;
  di_teids : forall i q, queues d !! i = Some q -> Forall (has_teid (q_teid q)) (q_pdus q)
}.

(** For every TEID, forwarded and then waiting, in the order of arrival. *)
Definition in_order (d : gtpu_demux) (ps fs : list (list Z)) : Prop :=
  (forall t, filter (has_teid t) fs `sublist_of` filter (has_teid t) ps) /\
  (forall i q, queues d !! i = Some q -> filter (has_teid (q_teid q)) fs ++ q_pdus q `sublist_of` filter (has_teid (q_teid q)) ps).

(** The tunnel that is registered for the TEID of the PDU gets it. *)
Definition to_its_tunnel (d : gtpu_demux) (ev : demux_event) : Prop :=
  match ev with forwarded tun pdu => exists t ctx, has_teid t pdu /\ teid_to_tunnel d !! t = Some ctx /\ tunnel ctx = tun end.

Lemma demux_inv_live d : demux_inv d -> forall t ctx, teid_to_tunnel d !! t = Some ctx -> is_Some (queues d !! batched_queue ctx).
Proof. intros Hd t ctx H. destruct (di_live d Hd t ctx H) as (q & Hq & _). eauto. Qed.

Lemma inv_update d i q l : demux_inv d -> queues d !! i = Some q -> Forall (has_teid (q_teid q)) l ->
  demux_inv (set_queues (<[i := mk_queue (q_teid q) l]> (queues d)) d).
Proof.
  intros [H1 H2 H3 H4] Hq Hl.
  assert (forall j r, <[i := mk_queue (q_teid q) l]> (queues d) !! j = Some r -> exists r', queues d !! j = Some r' /\ q_teid r' = q_teid r /\ (q_pdus r = l \/ r = r')) as Hold.
  { intros j r [[<- <-]|[_ Hr]]%lookup_insert_Some; [exists q; cbn; auto|eauto]. }
  constructor; cbn [cfg teid_to_tunnel queues set_queues]; [done| | |].
  - intros t ctx Ht. destruct (H2 t ctx Ht) as (r & Hr & <-). destruct (decide (i = batched_queue ctx)) as [->|Hne].
    + rewrite lookup_insert_eq. eexists. split; [done|]. cbn. congruence.
    + rewrite lookup_insert_ne by done. eauto.
  - intros j k r r' Hr Hr' E. destruct (Hold j r Hr) as (a & Ha & Ea & _), (Hold k r' Hr') as (b & Hb & Eb & _). apply (H3 j k a b); [done|done|congruence].
  - intros j r [[<- <-]|[_ Hr]]%lookup_insert_Some; [done|]. by apply (H4 j).
Qed.

Lemma in_order_arrived d ps fs x : in_order d ps fs -> in_order d (ps ++ x) fs.
Proof.
  intros [H1 H2]. split; intros; rewrite filter_app; apply sublist_inserts_r; eauto.
Qed.

Lemma filter_teid_same t l : Forall (has_teid t) l -> filter (has_teid t) l = l.
Proof. induction 1 as [|x l Hx _ IH]; [done|]. rewrite filter_cons_True by done. by rewrite IH. Qed.
Lemma filter_teid_other t t' l : t' <> t -> Forall (has_teid t) l -> filter (has_teid t') l = [].
Proof.
  intros Hne. induction 1 as [|x l Hx _ IH]; [done|]. rewrite filter_cons_False; [done|]. unfold has_teid in *. congruence.
Qed.

Lemma forwarded_all d t l : map event_pdu (l ≫= forwarded_by d t) `sublist_of` l.
Proof.
  induction l as [|pdu l IH]; [done|]. cbn [mbind list_bind]. rewrite map_app. change (pdu :: l) with ([pdu] ++ l). apply sublist_app; [|exact IH].
  unfold forwarded_by. destruct (stopped d); [apply sublist_nil_l|]. destruct (teid_to_tunnel d !! t); [reflexivity|apply sublist_nil_l].
Qed.

Lemma forwarded_well d t l : Forall (has_teid t) l -> Forall (to_its_tunnel d) (l ≫= forwarded_by d t).
Proof.
  induction 1 as [|pdu l Hp _ IH]; [constructor|]. cbn [mbind list_bind]. apply Forall_app. split; [|done]. unfold forwarded_by. destruct (stopped d); [constructor|].
  destruct (teid_to_tunnel d !! t) as [ctx|] eqn:E; [|constructor]. apply Forall_singleton. by exists t, ctx.
Qed.

Lemma Forall_sublist {A} (P : A -> Prop) l k : l `sublist_of` k -> Forall P k -> Forall P l.
Proof. rewrite !Forall_forall. intros Hs Hk x Hx. apply Hk. by eapply elem_of_submseteq, sublist_submseteq. Qed.

(** A task of a queue. *)
Lemma in_order_dispatch d ps fs i q dispatched : demux_inv d -> in_order d ps fs -> queues d !! i = Some q ->
  in_order (set_queues (<[i := mk_queue (q_teid q) (left_by d dispatched (q_pdus q))]> (queues d)) d) ps
    (fs ++ map event_pdu (take (Z.to_nat (batch_size (cfg d))) (q_pdus q) ≫= forwarded_by d (q_teid q))).
Proof.
  intros Hd [H1 H2] Hq. set (n := Z.to_nat _). set (F := map event_pdu _). pose proof (di_teids d Hd i q Hq) as Ht.
  assert (F `sublist_of` take n (q_pdus q)) as HF by apply forwarded_all.
  assert (Forall (has_teid (q_teid q)) F) as HFt by (apply (Forall_sublist _ _ _ HF); by apply Forall_take).
  assert (left_by d dispatched (q_pdus q) `sublist_of` drop n (q_pdus q)) as HL by (unfold left_by; destruct dispatched; [done|apply sublist_nil_l]).
  assert (filter (has_teid (q_teid q)) fs ++ F ++ left_by d dispatched (q_pdus q) `sublist_of` filter (has_teid (q_teid q)) ps) as Hall.
  { etrans; [|exact (H2 i q Hq)]. apply sublist_app; [reflexivity|]. rewrite <- (take_drop n (q_pdus q)) at 2. by apply sublist_app. }
  split.
  - intros t. rewrite filter_app. destruct (decide (t = q_teid q)) as [->|Hne].
    + rewrite (filter_teid_same _ F) by done. etrans; [|exact Hall]. rewrite app_assoc. apply sublist_inserts_r. reflexivity.
    + rewrite (filter_teid_other (q_teid q) t F), app_nil_r by done. apply H1.
  - intros j r. cbn [queues set_queues]. intros [[<- <-]|[Hne Hr]]%lookup_insert_Some; rewrite filter_app; cbn [q_teid q_pdus].
    + by rewrite (filter_teid_same _ F), <- app_assoc by done.
    + rewrite (filter_teid_other (q_teid q) _ F), app_nil_r; [by eapply H2| |done]. intros E. apply Hne. by eapply (di_unique d Hd i j).
Qed.

(** A PDU joins the queue of its TEID. *)
Lemma in_order_push d ps fs i q pdu : demux_inv d -> in_order d ps fs -> queues d !! i = Some q -> has_teid (q_teid q) pdu ->
  in_order (set_queues (<[i := mk_queue (q_teid q) (q_pdus q ++ [pdu])]> (queues d)) d) (ps ++ [pdu]) fs.
Proof.
  intros Hd [H1 H2] Hq Ht. split; [intros t; rewrite filter_app; by apply sublist_inserts_r|].
  intros j r. cbn [queues set_queues]. intros [[<- <-]|[Hne Hr]]%lookup_insert_Some; rewrite filter_app.
  - cbn [q_teid q_pdus]. rewrite (filter_teid_same _ [pdu]), app_assoc by by apply Forall_singleton. apply sublist_app; [by eapply H2|reflexivity].
  - apply sublist_inserts_r. by eapply H2.
Qed.

(** One operation. *)
Definition demux_step_ok (d : gtpu_demux) (o : demux_op) (ps fs : list (list Z)) (r : res (unit * gtpu_demux * list demux_event)) : Prop :=
  exists d' es, r = Ok (tt, d', es) /\ demux_inv d' /\ in_order d' (ps ++ op_pdus o) (fs ++ map event_pdu es) /\ Forall (to_its_tunnel d) es.

Lemma demux_step_still d o ps fs d' : demux_inv d' -> in_order d' ps fs -> demux_step_ok d o ps fs (Ok (tt, d', [])).
Proof. intros Hi Ho. exists d', []. split; [done|]. split; [done|]. split; [|constructor]. cbn. rewrite app_nil_r. by apply in_order_arrived. Qed.

Lemma perform_add_spec d teid queue tun : demux_perform (op_add teid queue tun) d =
  Ok (tt, match teid_to_tunnel d !! teid with Some _ => d | None => set_queues (<[queue := mk_queue teid []]> (queues d)) (set_teid_to_tunnel (<[teid := mk_ctx queue tun]> (teid_to_tunnel d)) d) end, []).
Proof. cbn [demux_perform]. unfold add_tunnel, bind, get. by destruct (teid_to_tunnel d !! teid). Qed.

Lemma perform_remove_spec d teid : demux_perform (op_remove teid) d =
  Ok (tt, match teid_to_tunnel d !! teid with Some _ => set_teid_to_tunnel (delete teid (teid_to_tunnel d)) d | None => d end, []).
Proof. cbn [demux_perform]. unfold remove_tunnel, bind, get. by destruct (teid_to_tunnel d !! teid). Qed.

Lemma demux_step_add d ps fs teid queue tun : demux_inv d -> in_order d ps fs -> demux_op_ok d (op_add teid queue tun) ->
  demux_step_ok d (op_add teid queue tun) ps fs (demux_perform (op_add teid queue tun) d).
Proof.
  intros Hd Ho [Hn Hf]. pose proof Hd as [H1 H2 H3 H4]. destruct Ho as [O1 O2]. rewrite perform_add_spec.
  destruct (teid_to_tunnel d !! teid) as [ctx|] eqn:E; apply demux_step_still; try done. specialize (Hf eq_refl).
  - constructor; cbn; [done| | |].
    + intros t c [[<- <-]|[Hne Hc]]%lookup_insert_Some; cbn [batched_queue]; [rewrite lookup_insert_eq; eauto|]. destruct (H2 t c Hc) as (q & Hq & Eq).
      exists q. split; [|done]. rewrite lookup_insert_ne; [done|]. intros ->. congruence.
    + intros i j q r [[<- <-]|[Hi Hq]]%lookup_insert_Some [[<- <-]|[Hj Hr]]%lookup_insert_Some Eq; cbn in Eq; [done|by destruct (Hf j r)|by destruct (Hf i q)|by eapply H3].
    + intros i q [[<- <-]|[_ Hq]]%lookup_insert_Some; [constructor|by eapply H4].
  - split; [done|]. cbn. intros i q [[<- <-]|[_ Hq]]%lookup_insert_Some; [cbn; rewrite app_nil_r; apply O1|by apply (O2 i)].
Qed.

Lemma demux_step d o ps fs : demux_inv d -> in_order d ps fs -> demux_op_ok d o -> demux_step_ok d o ps fs (demux_perform o d).
Proof.
  intros Hd Ho Hok. pose proof Hd as [H1 H2 H3 H4]. destruct o as [|teid queue tun|teid|queue|dispatched pdu|queue dispatched].
  - apply demux_step_still; [by destruct d|done].
  - by apply demux_step_add.
  - rewrite perform_remove_spec. destruct (teid_to_tunnel d !! teid); apply demux_step_still; try done.
    constructor; cbn; [done| |done|done]. intros t ctx [_ Hc]%lookup_delete_Some. by apply H2.
  - cbn [demux_perform]. apply demux_step_still.
    + constructor; cbn; [done| | |].
      * intros t ctx Hc. destruct (H2 t ctx Hc) as (q & Hq & Eq). exists q. split; [|done]. rewrite lookup_delete_ne; [done|]. intros ->. by apply (Hok t ctx Hc).
      * intros i j q r [_ Hi]%lookup_delete_Some [_ Hj]%lookup_delete_Some. by apply H3.
      * intros i q [_ Hi]%lookup_delete_Some. by apply (H4 i).
    + destruct Ho as [O1 O2]. split; [done|]. cbn. intros i q [_ Hi]%lookup_delete_Some. by apply (O2 i).
  - cbn [demux_perform]. rewrite handle_pdu_spec by by apply demux_inv_live. unfold pdu_teid. rewrite H1.
    destruct (stopped d); [by apply demux_step_still|]. destruct (Gtpu.gtpu_read_teid pdu) as [t|] eqn:Et; [|by apply demux_step_still]. cbn [mbind option_bind].
    destruct (teid_to_tunnel d !! t) as [ctx|] eqn:E; [|by apply demux_step_still]. destruct (H2 t ctx E) as (q & Hq & Eq). rewrite Hq.
    destruct (_ && _); [|by apply demux_step_still]. assert (has_teid (q_teid q) pdu) as Ht by (unfold has_teid; congruence). eexists _, []. split; [done|]. cbn [map op_pdus]. rewrite app_nil_r. split; [|split; [by apply in_order_push|constructor]].
    apply inv_update; [done|done|]. apply Forall_app. split; [by apply (H4 _ _ Hq)|by apply Forall_singleton].
  - cbn [demux_perform]. rewrite dispatch_spec. destruct (queues d !! queue) as [q|] eqn:Hq; [|by apply demux_step_still]. eexists _, _. split; [done|].
    pose proof (H4 _ _ Hq) as Ht. split; [apply inv_update; [done|done|unfold left_by; destruct dispatched; [by apply Forall_drop|constructor]]|].
    split; [|by apply forwarded_well, Forall_take]. cbn [op_pdus]. rewrite app_nil_r. by apply in_order_dispatch.
Qed.

Lemma demux_run_inv c d ps es : test_mode c = false -> demux_run c d ps es -> demux_inv d /\ in_order d ps (map event_pdu es).
Proof.
  intros Hc. induction 1 as [|d ps es o d' es' _ [Hd Ho] Hok E].
  - split; [constructor; done|split; [done|]]. intros i q H. cbn in H. by rewrite lookup_empty in H.
  - destruct (demux_step d o ps _ Hd Ho Hok) as (d2 & es2 & E2 & Hi & Ho' & _). rewrite E in E2. injection E2 as <- <-. rewrite map_app. by split.
Qed.

(** C27: A demultiplexer without test mode whose tunnels are removed before their queues, and whose TEIDs are used again only after the
    queue is gone (otherwise [reused_teid_gets_old_pdus]), never refers to a queue that does not exist; every PDU goes to the tunnel that is registered for the TEID its header
    has; and the PDUs of one TEID, forwarded and waiting, are in the order of arrival, none of them twice. *)
Theorem gtpu_demux_in_order c d ps es : test_mode c = false -> demux_run c d ps es ->
  (forall o, demux_op_ok d o -> exists d' es', demux_perform o d = Ok (tt, d', es') /\ Forall (to_its_tunnel d) es') /\
  in_order d ps (map event_pdu es).
Proof.
  intros Hc Hr. destruct (demux_run_inv c d ps es Hc Hr) as [Hd Ho]. split; [|done]. intros o Hok. destruct (demux_step d o ps _ Hd Ho Hok) as (d' & es' & H1 & _ & _ & H2). eauto.
Qed.

(** *** Everything that finds room is forwarded *)

(** The tasks of a queue, one after the other. *)
Definition drain (n : nat) (queue : nat) : GtpuDemux.H unit := for_each (repeat tt n) (fun _ => dispatch queue true).

Lemma with_queue_lookup i q d : queues (set_queues (<[i := q]> (queues d)) d) !! i = Some q.
Proof. apply lookup_insert_eq. Qed.
Lemma with_queue_twice i q r d : set_queues (<[i := q]> (queues (set_queues (<[i := r]> (queues d)) d))) (set_queues (<[i := r]> (queues d)) d) = set_queues (<[i := q]> (queues d)) d.
Proof. unfold set_queues. cbn. by rewrite insert_insert_eq. Qed.

Lemma push_all ws : forall d t ctx q, demux_inv d -> stopped d = false -> teid_to_tunnel d !! t = Some ctx -> queues d !! batched_queue ctx = Some q ->
  Forall (has_teid t) ws -> zlen (q_pdus q) + zlen ws <= queue_size (cfg d) ->
  for_each ws (handle_pdu true) d = Ok (tt, set_queues (<[batched_queue ctx := mk_queue (q_teid q) (q_pdus q ++ ws)]> (queues d)) d, []).
Proof.
  induction ws as [|w ws IH]; intros d t ctx q Hd Hs Ht Hq Hw Hroom.
  - cbn. rewrite app_nil_r. destruct q. rewrite insert_id by done. by destruct d.
  - apply Forall_cons in Hw as [Hw Hws]. rewrite zlen_cons in Hroom. pose proof (zlen_nonneg ws). cbn [for_each]. unfold bind. rewrite handle_pdu_spec by by apply demux_inv_live.
    rewrite Hs. unfold pdu_teid. rewrite (di_test d Hd), Hw. cbn [mbind option_bind]. rewrite Ht, Hq, (proj2 (Z.ltb_lt _ _)), orb_true_r by lia. cbn [andb].
    destruct (di_live d Hd t ctx Ht) as (q' & Hq' & Et). rewrite Hq in Hq'. injection Hq' as <-.
    set (d1 := set_queues _ d). assert (demux_inv d1) as Hd1.
    { apply inv_update; [done|done|]. apply Forall_app. split; [by eapply di_teids|apply Forall_singleton; by rewrite Et]. }
    rewrite (IH d1 t ctx (mk_queue (q_teid q) (q_pdus q ++ [w])) Hd1 Hs Ht (with_queue_lookup _ _ _) Hws) by (cbn [q_pdus cfg d1 set_queues]; rewrite zlen_app, zlen_cons, zlen_nil; lia).
    cbn [q_teid q_pdus app]. unfold d1. by rewrite <- app_assoc, with_queue_twice.
Qed.

Lemma forwarded_registered d t ctx l : stopped d = false -> teid_to_tunnel d !! t = Some ctx -> l ≫= forwarded_by d t = map (forwarded (tunnel ctx)) l.
Proof. intros Hs Ht. induction l as [|w l IH]; [done|]. cbn [mbind list_bind map]. unfold forwarded_by at 1. by rewrite Hs, Ht, IH. Qed.

Lemma drain_all n : forall d ctx q, stopped d = false -> teid_to_tunnel d !! q_teid q = Some ctx -> queues d !! batched_queue ctx = Some q ->
  zlen (q_pdus q) <= Z.of_nat n * batch_size (cfg d) -> 0 < batch_size (cfg d) ->
  drain n (batched_queue ctx) d = Ok (tt, set_queues (<[batched_queue ctx := mk_queue (q_teid q) []]> (queues d)) d, map (forwarded (tunnel ctx)) (q_pdus q)).
Proof.
  induction n as [|n IH]; intros d ctx q Hs Ht Hq Hn Hb.
  - pose proof (zlen_nonneg (q_pdus q)). assert (q_pdus q = []) as E by (apply zlen_zero_nil; lia). destruct q as [t l]. cbn in *. subst. rewrite insert_id by done. by destruct d.
  - unfold drain in *. cbn [repeat for_each]. unfold bind. rewrite dispatch_spec, Hq. set (d1 := set_queues _ d).
    rewrite (IH d1 ctx (mk_queue (q_teid q) (left_by d true (q_pdus q))) Hs Ht (with_queue_lookup _ _ _)); [|cbn [q_pdus cfg d1 set_queues left_by]; rewrite zlen_drop by lia; lia|done].
    cbn [q_teid q_pdus left_by]. unfold d1. rewrite with_queue_twice, (forwarded_registered d _ ctx), <- map_app, take_drop by done. done.
Qed.

(** The PDU of a message has the TEID it was sent to. *)
Lemma dl_sdu_teid t m w : uint 32 t -> dl_message_ok m -> GtpuNru.handle_dl_sdu t m = Ok (Some w) -> has_teid t w.
Proof.
  intros Ht [Hd Hp] E. destruct (dl_user_data_packed (Nru.dl_user_data m) Hd) as (H1 & H2 & H3 & H4).
  destruct (gtpu_header_roundtrip (Nru.dl_t_pdu m) _ (nr_ran_header_ok t Gtpu.nr_ran_container [GtpuNru.nr_ran (Nru.pack_dl_user_data [] (Nru.dl_user_data m))] Ht ltac:(eauto 6)) Hp) as (w' & Hw & Hb & Hdis & _).
  unfold GtpuNru.handle_dl_sdu in E. rewrite Hw in E. injection E as ->. exact (read_teid_dissected w _ Hb Hdis).
Qed.

(** The DU's side of a tunnel, and what it passes on of the events. *)
Definition received (ev : demux_event) : res (option GtpuNru.nru_message) := match ev with forwarded _ pdu => GtpuNru.handle_pdu GtpuNru.du true pdu end.

Lemma dl_wires t ms : uint 32 t -> Forall dl_message_ok ms -> exists ws, map (GtpuNru.handle_dl_sdu t) ms = map (fun w => Ok (Some w)) ws /\ Forall (has_teid t) ws /\
  map (GtpuNru.handle_pdu GtpuNru.du true) ws = map (fun m => Ok (Some (GtpuNru.dl_message (dl_message_sent m)))) ms.
Proof.
  intros Ht. induction 1 as [|m ms Hm _ (ws & H1 & H2 & H3)]; [by exists []|]. destruct (nru_dl_wire t m true Ht Hm) as (w & Hw & _ & Hr). exists (w :: ws). cbn [map].
  split; [congruence|]. split; [constructor; [by eapply dl_sdu_teid|done]|congruence].
Qed.

(** C26: NR-U messages with fields in range that are sent to a TEID whose tunnel is registered, whose queue has room for
    them, arrive: every one is written, none is dropped on the way, enough tasks of the queue hand all of them to this tunnel in the order in
    which they were sent, and it passes on what was sent. *)
Theorem gtpu_path_delivers d t ctx ms n : demux_inv d -> stopped d = false -> uint 32 t -> Forall dl_message_ok ms ->
  teid_to_tunnel d !! t = Some ctx -> queues d !! batched_queue ctx = Some (mk_queue t []) ->
  zlen ms <= queue_size (cfg d) -> 0 < batch_size (cfg d) -> zlen ms <= Z.of_nat n * batch_size (cfg d) ->
  exists ws, map (GtpuNru.handle_dl_sdu t) ms = map (fun w => Ok (Some w)) ws /\
    exists es, (for_each ws (handle_pdu true) ;;; drain n (batched_queue ctx)) d = Ok (tt, d, es) /\ es = map (forwarded (tunnel ctx)) ws /\
      map received es = map (fun m => Ok (Some (GtpuNru.dl_message (dl_message_sent m)))) ms.
Proof.
  intros Hd Hs Ht Hms Hc Hq Hroom Hb Hn. destruct (dl_wires t ms Ht Hms) as (ws & H1 & H2 & H3). exists ws. split; [done|].
  assert (zlen ws = zlen ms) as Hl by (apply (f_equal zlen) in H1; unfold zlen in *; rewrite !length_map in H1; lia).
  exists (map (forwarded (tunnel ctx)) ws). split; [|split; [done|by rewrite map_map]]. unfold bind.
  rewrite (push_all ws d t ctx _ Hd Hs Hc Hq H2) by (cbn [q_pdus]; change (zlen (@nil (list Z))) with 0; lia). cbn [q_teid q_pdus app]. set (d1 := set_queues _ d).
  rewrite (drain_all n d1 ctx (mk_queue t ws) Hs Hc (with_queue_lookup _ _ _)) by (cbn [q_pdus cfg d1 set_queues]; lia). cbn [q_teid q_pdus app]. unfold d1. rewrite with_queue_twice.
  rewrite insert_id by done. by destruct d.
Qed.

End demux.

(** An example: one tunnel with TEID 77. *)
Definition demux_example_cfg : GtpuDemux.gtpu_demux_cfg := GtpuDemux.mk_cfg false 8 2.
Definition demux_example : GtpuDemux.gtpu_demux :=
  GtpuDemux.mk_demux demux_example_cfg false {[77 := GtpuDemux.mk_ctx 0 5]} 1 {[0%nat := GtpuDemux.mk_queue 77 []]}.

Lemma demux_example_run : demux_run demux_example_cfg demux_example [] [].
Proof.
  refine (dr_step _ _ [] [] (op_add 77 0 5) _ [] (dr_create _) _ _); [|vm_compute; reflexivity].
  split; [vm_compute; reflexivity|]. intros _ i q H. vm_compute in H. discriminate H.
Defined.

Lemma gtpu_demux_in_order_witness : exists d' es', demux_perform (op_pdu true [0x30; 0xff; 0; 1; 0; 0; 0; 77; 9]) demux_example = Ok (tt, d', es').
Proof.
  destruct (gtpu_demux_in_order demux_example_cfg demux_example [] [] eq_refl demux_example_run) as [H _].
  destruct (H (op_pdu true [0x30; 0xff; 0; 1; 0; 0; 0; 77; 9]) I) as (d' & es' & E & _). exists d', es'. exact E.
Defined.

Lemma demux_example_inv : demux_inv demux_example.
Proof. exact (proj1 (demux_run_inv demux_example_cfg demux_example [] [] eq_refl demux_example_run)). Defined.

Lemma gtpu_path_delivers_witness : exists ws, map (GtpuNru.handle_dl_sdu 77) [example_dl_message; example_dl_message; example_dl_message] = map (fun w => Ok (Some w)) ws /\
  exists es, (for_each ws (GtpuDemux.handle_pdu true) ;;; drain 2 0) demux_example = Ok (tt, demux_example, es).
Proof.
  destruct (gtpu_path_delivers demux_example 77 (GtpuDemux.mk_ctx 0 5) [example_dl_message; example_dl_message; example_dl_message] 2) as (ws & H1 & es & H2 & _ & _).
  - exact demux_example_inv.
  - reflexivity.
  - by split.
  - assert (dl_message_ok example_dl_message) as Hm; [|repeat (apply Forall_cons; split; [exact Hm|]); apply Forall_nil; exact I].
    split; [|repeat (apply Forall_cons; split; [by split|]); apply Forall_nil; exact I].
    constructor; [by split|intros ? [= <-]; by split| |by split]. intros l [= <-]. split; [|vm_compute; congruence].
    repeat (apply Forall_cons; split; [split; split; vm_compute; congruence|]). apply Forall_nil. exact I.
  - vm_compute. reflexivity.
  - vm_compute. reflexivity.
  - vm_compute. congruence.
  - vm_compute. reflexivity.
  - vm_compute. congruence.
  - exists ws. split; [exact H1|]. exists es. exact H2.
Defined.

(** A TEID that is used again before its old queue is gone: what waited there goes to the new tunnel. *)
Lemma reused_teid_gets_old_pdus : let pdu := [0x30; 0xff; 0; 1; 0; 0; 0; 77; 9] in
  exists d, (GtpuDemux.add_tunnel 77 0 5 ;;; GtpuDemux.handle_pdu true pdu ;;; GtpuDemux.remove_tunnel 77 ;;; GtpuDemux.add_tunnel 77 1 6 ;;; GtpuDemux.dispatch 0 true)
    (GtpuDemux.create demux_example_cfg) = Ok (tt, d, [GtpuDemux.forwarded 6 pdu]).
Proof. eexists. vm_compute. reflexivity. Qed.

(** ** Local TEIDs *)

Section pool.
Import TeidPool.

(** Runs in which only TEIDs that were handed out, and not released since, are released. *)
Inductive pool_run (n : Z) : gtpu_teid_pool -> list Z -> Prop :=
| pr_create : pool_run n (create n) []
| pr_request p a pick o p' : pool_run n p a -> request_teid pick p = (o, p') -> pool_run n p' (option_list o ++ a)
| pr_release p a t a' : pool_run n p a -> a ≡ₚ t :: a' -> pool_run n (snd (release_teid t p)) a'.

Lemma pool_run_perm n p a : 0 <= n < 2 ^ 32 - 1 -> pool_run n p a -> a ++ teid_pool p ≡ₚ seqZ GTPU_TEID_MIN n.
Proof.
  intros Hn. induction 1 as [|p a pick o p' _ IH E|p a t a' _ IH Ha].
  - cbn. rewrite u32_small by (unfold GTPU_TEID_MIN in *; lia). f_equiv. by replace (GTPU_TEID_MIN + n - GTPU_TEID_MIN) with n by lia.
  - unfold request_teid in E. destruct (teid_pool p !! pick) as [t|] eqn:Et; injection E as <- <-; [|done]. cbn. rewrite <- IH.
    rewrite (delete_Permutation _ _ _ Et) at 2. by rewrite <- Permutation_middle.
  - cbn. rewrite <- IH, Ha, app_assoc. cbn. by rewrite <- Permutation_cons_append.
Qed.

(** The TEIDs handed out and those in the pool are the numbers 1 to [n], each once: no TEID belongs to two tunnels, the pool is full exactly when
    all of them are handed out, and otherwise a request gets one that nobody has. *)
Theorem teid_pool_unique n p a : 0 <= n < 2 ^ 32 - 1 -> pool_run n p a ->
  NoDup a /\ Forall (fun t => GTPU_TEID_MIN <= t < GTPU_TEID_MIN + n) a /\ (full p = true <-> a ≡ₚ seqZ GTPU_TEID_MIN n) /\
  (full p = false -> exists t p', request_teid 0 p = (Some t, p') /\ t ∉ a /\ pool_run n p' (t :: a)).
Proof.
  intros Hn Hr. pose proof (pool_run_perm n p a Hn Hr) as Hp. assert (NoDup (a ++ teid_pool p)) as Hnd by (rewrite Hp; apply NoDup_seqZ). pose proof Hnd as (Ha & Hdis & _)%NoDup_app.
  split; [done|]. split.
  { apply Forall_forall. intros t Ht. assert (t ∈ seqZ GTPU_TEID_MIN n) as Hi%elem_of_seqZ; [|done]. rewrite <- Hp. apply elem_of_app. by left. }
  unfold full. destruct (teid_pool p) as [|t l] eqn:El; split; try done.
  - split; [|done]. intros _. by rewrite app_nil_r in Hp.
  - split; [done|]. intros E. rewrite <- E in Hp. apply Permutation_length in Hp. rewrite length_app in Hp. cbn in Hp. lia.
  - intros _. assert (request_teid 0 p = (Some t, mk_pool (max_nof_teids p) l)) as E by (unfold request_teid; by rewrite El). exists t, (mk_pool (max_nof_teids p) l). split; [done|].
    split; [intros Ht; apply (Hdis t Ht); left|]. exact (pr_request n p a 0 (Some t) _ Hr E).
Qed.

Lemma teid_pool_unique_witness : exists t p', request_teid 0 (create 3) = (Some t, p') /\ t ∉ ([] : list Z).
Proof.
  destruct (teid_pool_unique 3 (create 3) []) as (_ & _ & _ & H); [by split|apply pr_create|]. destruct (H eq_refl) as (t & p' & H1 & H2 & _). exists t, p'. split; [exact H1|exact H2].
Defined.

(** A release is not checked: a TEID that is released twice is handed out twice. *)
Lemma teid_released_twice : let p0 := create 1 in let '(o, p1) := request_teid 0 p0 in
  let '(_, p2) := release_teid 1 p1 in let '(b, p3) := release_teid 1 p2 in let '(o1, p4) := request_teid 0 p3 in
  o = Some 1 /\ b = true /\ o1 = Some 1 /\ fst (request_teid 0 p4) = Some 1.
Proof. vm_compute. auto. Qed.

End pool.

(** ** Path management *)

Section echo.
Import GtpuEcho.

Lemma echo_header_ok type sn : Gtpu.gtpu_supported_msg_type_check type = true -> uint 16 sn -> header_ok (echo_header type sn).
Proof. intros Ht Hs. constructor; cbn; [done|done|by split|done|by split|constructor|unfold Gtpu.GTPU_MAX_NUM_HEADER_EXTENSIONS; lia]. Qed.

(** An echo message is written, and dissected with its sequence number. *)
Lemma echo_written type sn pdu : Gtpu.gtpu_supported_msg_type_check type = true -> uint 16 sn -> Forall is_byte pdu ->
  exists w p, Gtpu.gtpu_write_header pdu (echo_header type sn) = Ok (Some w) /\ Forall is_byte w /\ handle_pdu w = handle_dissected_pdu p /\
    Gtpu.teid (Gtpu.hdr p) = Gtpu.GTPU_PATH_MANAGEMENT_TEID /\ Gtpu.f_seq_number (Gtpu.flags (Gtpu.hdr p)) = true /\ Gtpu.message_type (Gtpu.hdr p) = type /\ Gtpu.seq_number (Gtpu.hdr p) = sn.
Proof.
  intros Ht Hs Hp. destruct (gtpu_header_roundtrip pdu _ (echo_header_ok type sn Ht Hs) Hp) as (w & Hw & Hb & Hd & _). eexists w, _. split; [done|]. split; [done|].
  split; [unfold handle_pdu; rewrite Hd; reflexivity|]. done.
Qed.

Lemma echo_response_sent sn : uint 16 sn -> exists r, send_echo_response sn = Ok (Some r) /\ Forall is_byte r /\ handle_pdu r = Ok (response_handled sn).
Proof.
  intros Hs. destruct (echo_written Gtpu.GTPU_MSG_ECHO_RESPONSE sn (Gtpu.gtpu_write_ie_recovery [] (Gtpu.mk_recovery 0)) eq_refl Hs) as (r & p & Hr & Hb & Hp & H1 & H2 & H3 & H4).
  { vm_compute. repeat constructor; congruence. }
  exists r. split; [exact Hr|]. split; [done|]. rewrite Hp. unfold handle_dissected_pdu. by rewrite H1, H2, H3, H4.
Qed.

(** Every echo request is sent and answered, with its sequence number (16 bits of the counter); the answer is
    recognised; and the counter goes on. *)
Theorem gtpu_echo_answered sn : exists w r,
  send_echo_request (mk_echo sn) = Ok (Some w, mk_echo (u32 (sn + 1))) /\ handle_pdu w = Ok (response_sent (Some r)) /\ handle_pdu r = Ok (response_handled (u16 sn)).
Proof.
  assert (uint 16 (u16 sn)) as Hr by exact (u16_range sn). destruct (echo_written Gtpu.GTPU_MSG_ECHO_REQUEST (u16 sn) [] eq_refl Hr ltac:(constructor)) as (w & p & Hw & Hb & Hp & H1 & H2 & H3 & H4).
  destruct (echo_response_sent (u16 sn) Hr) as (r & Hs & _ & Hh). exists w, r. unfold send_echo_request. cbn [sn_next]. rewrite Hw. split; [done|]. split; [|done].
  rewrite Hp. unfold handle_dissected_pdu. rewrite H1, H2, H3, H4, Hs. done.
Qed.

(** Whatever octets arrive at the receiver of path management messages, nothing aborts; only an echo request is
    answered, and with an answer. *)
Theorem gtpu_echo_rx_total buf : Forall is_byte buf -> exists o, handle_pdu buf = Ok o /\ (forall r, o = response_sent r -> exists w, r = Some w).
Proof.
  intros Hb. unfold handle_pdu. destruct (Gtpu.gtpu_dissect_pdu buf) as [p|] eqn:E; [|by exists discarded]. pose proof (dissect_ok buf p Hb E) as Hp.
  unfold handle_dissected_pdu. destruct (negb _); [by exists discarded|]. destruct (negb _); [by exists discarded|].
  destruct (_ =? Gtpu.GTPU_MSG_ECHO_REQUEST).
  { destruct (echo_response_sent (Gtpu.seq_number (Gtpu.hdr p)) (dk_sn _ _ Hp)) as (r & -> & _). eexists. split; [done|]. intros ? [= <-]. eauto. }
  destruct (_ =? Gtpu.GTPU_MSG_ECHO_RESPONSE); [by eexists|]. destruct (_ =? Gtpu.GTPU_MSG_ERROR_INDICATION); [|by exists discarded].
  rewrite (extract_ok buf p Hp). destruct (Gtpu.gtpu_read_msg_error_indication _); by eexists.
Qed.

End echo.
