(* ===== verification/F1u.v ===== *)
(** * F1-U bearers: the NR user plane between CU-UP and DU

    Models [lib/f1u/cu_up/f1u_bearer_impl.{h,cpp}] and [lib/f1u/du/f1u_bearer_impl.{h,cpp}].  Downlink SDUs travel
    with the PDCP SNs to be discarded; delivery status of the RLC travels back.  Logging is left out;
    an executor that rejects a task is an argument. *)

From S2P Require Import Prelude Effects Timers BitEncoding BitFields NruPacking.
Import Nru.
Open Scope Z_scope.
Open Scope entity_scope.

(** [UINT32_MAX]: a PDCP SN that is not set yet. *)
Definition unset_pdcp_sn : Z := 4294967295.

(** ** CU-UP *)

Module F1uCuUp.

Record f1u_config := mk_config { dl_t_notif_timer : Z; queue_size : Z; batch_size : Z }.

Record f1u_bearer := mk_bearer {
  cfg : f1u_config;
  ul_queue : list nru_ul_message;
  stopped : bool;
  dl_notif_timer : unique_timer;
  notif_highest_transmitted_pdcp_sn : Z;
  notif_highest_delivered_pdcp_sn : Z;
  discard_blocks : list nru_pdcp_sn_discard_block
}.

Inductive f1u_event :=
| on_new_pdu (m : nru_dl_message)
| on_new_sdu (sdu : list Z)
| run_ue_inactivity_timer
| on_desired_buffer_size_notification (size : Z)
| on_transmit_notification (sn : Z)
| on_delivery_notification (sn : Z)
| on_retransmit_notification (sn : Z)
| on_delivery_retransmitted_notification (sn : Z).

Definition H (A : Type) : Type := M f1u_bearer f1u_event A.

Definition set_ul_queue (v : list nru_ul_message) (e : f1u_bearer) : f1u_bearer :=
  mk_bearer (cfg e) v (stopped e) (dl_notif_timer e) (notif_highest_transmitted_pdcp_sn e) (notif_highest_delivered_pdcp_sn e) (discard_blocks e).
Definition set_stopped (v : bool) (e : f1u_bearer) : f1u_bearer :=
  mk_bearer (cfg e) (ul_queue e) v (dl_notif_timer e) (notif_highest_transmitted_pdcp_sn e) (notif_highest_delivered_pdcp_sn e) (discard_blocks e).
Definition set_dl_notif_timer (v : unique_timer) (e : f1u_bearer) : f1u_bearer :=
  mk_bearer (cfg e) (ul_queue e) (stopped e) v (notif_highest_transmitted_pdcp_sn e) (notif_highest_delivered_pdcp_sn e) (discard_blocks e).
Definition set_notif_transmitted (v : Z) (e : f1u_bearer) : f1u_bearer :=
  mk_bearer (cfg e) (ul_queue e) (stopped e) (dl_notif_timer e) v (notif_highest_delivered_pdcp_sn e) (discard_blocks e).
Definition set_notif_delivered (v : Z) (e : f1u_bearer) : f1u_bearer :=
  mk_bearer (cfg e) (ul_queue e) (stopped e) (dl_notif_timer e) (notif_highest_transmitted_pdcp_sn e) v (discard_blocks e).
Definition set_discard_blocks (v : list nru_pdcp_sn_discard_block) (e : f1u_bearer) : f1u_bearer :=
  mk_bearer (cfg e) (ul_queue e) (stopped e) (dl_notif_timer e) (notif_highest_transmitted_pdcp_sn e) (notif_highest_delivered_pdcp_sn e) v.

(** [None]: the duration of the timer is refused. *)
Definition create (config : f1u_config) : option f1u_bearer :=
  if MAX_TIMER_DURATION <? dl_t_notif_timer config then None else
  Some (mk_bearer config [] false (mk_timer timer_stopped (Some (dl_t_notif_timer config)) 0) unset_pdcp_sn unset_pdcp_sn []).

Definition stop : H unit :=
  let! e := get in
  if stopped e then ret tt else
  modify (set_stopped true) ;;; modify (fun e => set_dl_notif_timer (timer_stop (dl_notif_timer e)) e).

(** *** Uplink *)

(** [try_push] of the batched queue: a message that is not the first of the queue waits with the others; the first needs a
    task of the UL executor, which [dispatched] says was taken, else the queue is cleared again. *)
Definition handle_pdu (dispatched : bool) (msg : nru_ul_message) : H unit :=
  let! e := get in
  when ((zlen (ul_queue e) <? queue_size (cfg e)) && (negb (zlen (ul_queue e) =? 0) || dispatched)) (modify (set_ul_queue (ul_queue e ++ [msg]))).

(** [defers n]: the DL executor takes the [n]-th task deferred. *)
Definition defer (accepted : bool) (ev : f1u_event) : H unit := when accepted (emit ev).

Definition handle_status (defers : nat -> bool) (status : nru_dl_data_delivery_status) : H unit :=
  defer (defers 0%nat) (on_desired_buffer_size_notification (desired_buffer_size_for_drb status)) ;;;
  match highest_transmitted_pdcp_sn status with
  | None => ret tt
  | Some sn =>
      let! e := get in
      when (negb (sn =? notif_highest_transmitted_pdcp_sn e))
        (emit run_ue_inactivity_timer ;;; modify (set_notif_transmitted sn) ;;; defer (defers 1%nat) (on_transmit_notification sn))
  end ;;;
  match highest_delivered_pdcp_sn status with
  | None => ret tt
  | Some sn =>
      let! e := get in
      when (negb (sn =? notif_highest_delivered_pdcp_sn e))
        (modify (set_notif_delivered sn) ;;; defer (defers 2%nat) (on_delivery_notification sn))
  end ;;;
  match highest_retransmitted_pdcp_sn status with
  | None => ret tt
  | Some sn => defer (defers 3%nat) (on_retransmit_notification sn)
  end ;;;
  match highest_delivered_retransmitted_pdcp_sn status with
  | None => ret tt
  | Some sn => defer (defers 4%nat) (on_delivery_retransmitted_notification sn)
  end.

Definition handle_pdu_impl (defers : nat -> bool) (msg : nru_ul_message) : H unit :=
  let! e := get in
  if stopped e then ret tt else
  match ul_t_pdu msg with
  | Some (b :: l) => emit run_ue_inactivity_timer ;;; emit (on_new_sdu (b :: l))
  | _ => ret tt
  end ;;;
  match data_delivery_status msg with
  | Some status => handle_status defers status
  | None => ret tt
  end.

(** The task of the UL executor takes a batch of the queue and leaves the rest to another task; when that one is refused the
    rest is dropped.  [defers] is asked for every message of the batch. *)
Definition dispatch_fn (defers : nru_ul_message -> nat -> bool) (msg_span : list nru_ul_message) : H unit :=
  for_each msg_span (fun msg => handle_pdu_impl (defers msg) msg).
Definition handle_enqueued_values (defers : nru_ul_message -> nat -> bool) (dispatched : bool) : H unit :=
  let! e := get in
  let n := Z.to_nat (batch_size (cfg e)) in
  let rest := drop n (ul_queue e) in
  modify (set_ul_queue rest) ;;;
  dispatch_fn defers (take n (ul_queue e)) ;;;
  when (negb (zlen rest =? 0) && negb dispatched) (modify (set_ul_queue [])).

(** *** Downlink *)

Definition dl_message_with (sdu : list Z) (is_retx : bool) (blocks : option (list nru_pdcp_sn_discard_block)) : nru_dl_message :=
  mk_dl_message sdu (mk_dl_user_data false false false false false is_retx 0 None blocks 0).

(** [fill_discard_blocks]: what is attached. *)
Definition fill_discard_blocks : H (option (list nru_pdcp_sn_discard_block)) :=
  let! e := get in
  match discard_blocks e with
  | [] => ret None
  | blocks => modify (set_discard_blocks []) ;;; ret (Some blocks)
  end.

Definition stop_timer : H unit := modify (fun e => set_dl_notif_timer (timer_stop (dl_notif_timer e)) e).

Definition handle_sdu (sdu : list Z) (is_retx : bool) : H unit :=
  let! e := get in
  if stopped e then ret tt else
  let! blocks := fill_discard_blocks in
  stop_timer ;;;
  emit (on_new_pdu (dl_message_with sdu is_retx blocks)).

Definition flush_discard_blocks : H unit :=
  let! blocks := fill_discard_blocks in
  stop_timer ;;;
  match blocks with
  | Some _ => emit (on_new_pdu (dl_message_with [] false blocks))
  | None => ret tt
  end.

(** [discard_blocks.push_back]; more than the capacity fails an assertion. *)
Definition push_discard_block (pdcp_sn : Z) : H unit :=
  let! e := get in
  assert_ (zlen (discard_blocks e) <? nru_max_nof_pdcp_sn_discard_blocks) ;;;
  modify (set_discard_blocks (discard_blocks e ++ [mk_block pdcp_sn 1])).

Definition discard_sdu (pdcp_sn : Z) : H unit :=
  let! e := get in
  when (negb (is_running (dl_notif_timer e)))
    (let! tm := timer_run (dl_notif_timer e) in modify (set_dl_notif_timer tm)) ;;;
  let! e := get in
  match last (discard_blocks e) with
  | None => push_discard_block pdcp_sn
  | Some last_block =>
      if u32 (pdcp_sn_start last_block + block_size last_block) =? pdcp_sn then
        modify (set_discard_blocks (removelast (discard_blocks e) ++ [mk_block (pdcp_sn_start last_block) (u8 (block_size last_block + 1))]))
      else
        push_discard_block pdcp_sn ;;;
        let! e := get in
        when (zlen (discard_blocks e) =? nru_max_nof_pdcp_sn_discard_blocks) flush_discard_blocks
  end.

Definition on_expired_dl_notif_timer : H unit :=
  let! e := get in if stopped e then ret tt else flush_discard_blocks.

(** The expiry task of the timer. *)
Definition dl_notif_timeout (epoch : Z) : H unit :=
  let! e := get in
  let! r := timeout_task (dl_notif_timer e) epoch in
  modify (set_dl_notif_timer (fst r)) ;;;
  when (snd r) on_expired_dl_notif_timer.

End F1uCuUp.

(** ** DU *)

Module F1uDu.

Record f1u_config := mk_config { t_notify : Z; rlc_queue_bytes_limit : Z; buffer_ul_on_startup : bool; ul_buffer_size : Z }.

(** What the lower layers reported, and what was last sent of it. *)
Record report := mk_report { r_buffer : Z; r_transmitted : Z; r_delivered : Z; r_retransmitted : Z; r_delivered_retransmitted : Z }.

Record f1u_bearer := mk_bearer {
  cfg : f1u_config;
  stopped : bool;
  buffering : bool;
  ul_buffer : list nru_ul_message;
  ul_notif_timer : unique_timer;
  current : report;
  notif : report
}.

Inductive f1u_event :=
| on_new_sdu (sdu : list Z) (is_retx : bool)
| on_discard_sdu (sn : Z)
| on_new_pdu (m : nru_ul_message).

Definition H (A : Type) : Type := M f1u_bearer f1u_event A.

Definition set_stopped (v : bool) (e : f1u_bearer) : f1u_bearer := mk_bearer (cfg e) v (buffering e) (ul_buffer e) (ul_notif_timer e) (current e) (notif e).
Definition set_buffer (b : bool) (v : list nru_ul_message) (e : f1u_bearer) : f1u_bearer := mk_bearer (cfg e) (stopped e) b v (ul_notif_timer e) (current e) (notif e).
Definition set_ul_notif_timer (v : unique_timer) (e : f1u_bearer) : f1u_bearer := mk_bearer (cfg e) (stopped e) (buffering e) (ul_buffer e) v (current e) (notif e).
Definition set_current (v : report) (e : f1u_bearer) : f1u_bearer := mk_bearer (cfg e) (stopped e) (buffering e) (ul_buffer e) (ul_notif_timer e) v (notif e).
Definition set_notif (v : report) (e : f1u_bearer) : f1u_bearer := mk_bearer (cfg e) (stopped e) (buffering e) (ul_buffer e) (ul_notif_timer e) (current e) v.

Definition create (config : f1u_config) : option f1u_bearer :=
  if MAX_TIMER_DURATION <? t_notify config then None else
  Some (mk_bearer config false (buffer_ul_on_startup config) []
          (push_cmd (mk_timer timer_running (Some (t_notify config)) 0))
          (mk_report (rlc_queue_bytes_limit config) unset_pdcp_sn unset_pdcp_sn unset_pdcp_sn unset_pdcp_sn)
          (mk_report 0 unset_pdcp_sn unset_pdcp_sn unset_pdcp_sn unset_pdcp_sn)).

Definition stop (e : f1u_bearer) : f1u_bearer :=
  set_stopped true (if stopped e then e else set_ul_notif_timer (timer_stop (ul_notif_timer e)) e).

(** *** Reports of the lower layers *)

Definition handle_transmit_notification (highest_pdcp_sn desired_buf_size : Z) (e : f1u_bearer) : f1u_bearer :=
  set_current (mk_report desired_buf_size highest_pdcp_sn (r_delivered (current e)) (r_retransmitted (current e)) (r_delivered_retransmitted (current e))) e.
Definition handle_delivery_notification (highest_pdcp_sn : Z) (e : f1u_bearer) : f1u_bearer :=
  set_current (mk_report (r_buffer (current e)) (r_transmitted (current e)) highest_pdcp_sn (r_retransmitted (current e)) (r_delivered_retransmitted (current e))) e.
Definition handle_retransmit_notification (highest_pdcp_sn : Z) (e : f1u_bearer) : f1u_bearer :=
  set_current (mk_report (r_buffer (current e)) (r_transmitted (current e)) (r_delivered (current e)) highest_pdcp_sn (r_delivered_retransmitted (current e))) e.
Definition handle_delivery_retransmitted_notification (highest_pdcp_sn : Z) (e : f1u_bearer) : f1u_bearer :=
  set_current (mk_report (r_buffer (current e)) (r_transmitted (current e)) (r_delivered (current e)) (r_retransmitted (current e)) highest_pdcp_sn) e.

(** *** Delivery status *)

(** Each of the following yields what is written into the status and whether it is fresh. *)
Definition fill_desired_buffer_size_of_data_radio_bearer : H (Z * bool) :=
  let! e := get in
  let cur := r_buffer (current e) in
  let fresh := negb (cur =? r_buffer (notif e)) in
  when fresh (modify (fun e => set_notif (mk_report cur (r_transmitted (notif e)) (r_delivered (notif e)) (r_retransmitted (notif e)) (r_delivered_retransmitted (notif e))) e)) ;;;
  ret (cur, fresh).

Definition fill_highest_transmitted_pdcp_sn : H (option Z * bool) :=
  let! e := get in
  let cur := r_transmitted (current e) in
  if cur =? unset_pdcp_sn then ret (None, false) else
  let fresh := negb (cur =? r_transmitted (notif e)) in
  when fresh (modify (fun e => set_notif (mk_report (r_buffer (notif e)) cur (r_delivered (notif e)) (r_retransmitted (notif e)) (r_delivered_retransmitted (notif e))) e)) ;;;
  ret (Some cur, fresh).

Definition fill_highest_delivered_pdcp_sn : H (option Z * bool) :=
  let! e := get in
  let cur := r_delivered (current e) in
  if cur =? unset_pdcp_sn then ret (None, false) else
  let fresh := negb (cur =? r_delivered (notif e)) in
  when fresh (modify (fun e => set_notif (mk_report (r_buffer (notif e)) (r_transmitted (notif e)) cur (r_retransmitted (notif e)) (r_delivered_retransmitted (notif e))) e)) ;;;
  ret (Some cur, fresh).

Definition fill_highest_retransmitted_pdcp_sn : H (option Z * bool) :=
  let! e := get in
  let cur := r_retransmitted (current e) in
  if cur =? r_retransmitted (notif e) then ret (None, false) else
  modify (fun e => set_notif (mk_report (r_buffer (notif e)) (r_transmitted (notif e)) (r_delivered (notif e)) cur (r_delivered_retransmitted (notif e))) e) ;;;
  ret (Some cur, true).

Definition fill_highest_delivered_retransmitted_pdcp_sn : H (option Z * bool) :=
  let! e := get in
  let cur := r_delivered_retransmitted (current e) in
  if cur =? r_delivered_retransmitted (notif e) then ret (None, false) else
  modify (fun e => set_notif (mk_report (r_buffer (notif e)) (r_transmitted (notif e)) (r_delivered (notif e)) (r_retransmitted (notif e)) cur) e) ;;;
  ret (Some cur, true).

Definition run_ul_notif_timer : H unit :=
  let! e := get in
  let! tm := timer_run (ul_notif_timer e) in
  modify (set_ul_notif_timer tm).

(** The status and whether it holds fresh values. *)
Definition fill_data_delivery_status : H (nru_dl_data_delivery_status * bool) :=
  let! size := fill_desired_buffer_size_of_data_radio_bearer in
  let! transmitted := fill_highest_transmitted_pdcp_sn in
  let! delivered := fill_highest_delivered_pdcp_sn in
  let! retransmitted := fill_highest_retransmitted_pdcp_sn in
  let! delivered_retransmitted := fill_highest_delivered_retransmitted_pdcp_sn in
  run_ul_notif_timer ;;;
  ret (mk_status false (fst size) None None (fst delivered) (fst transmitted) None (fst delivered_retransmitted) (fst retransmitted),
       snd size || snd transmitted || snd delivered || snd retransmitted || snd delivered_retransmitted).

Definition send_data_delivery_status (force : bool) : H bool :=
  let! r := fill_data_delivery_status in
  if negb (snd r) && negb force then ret false else
  emit (on_new_pdu (mk_ul_message None (Some (fst r)))) ;;; ret true.

Definition on_expired_ul_notif_timer : H unit := let! _ := send_data_delivery_status false in ret tt.

Definition ul_notif_timeout (epoch : Z) : H unit :=
  let! e := get in
  let! r := timeout_task (ul_notif_timer e) epoch in
  modify (set_ul_notif_timer (fst r)) ;;;
  when (snd r) on_expired_ul_notif_timer.

(** *** Uplink *)

Definition handle_sdu (sdu : list Z) : H unit :=
  let! r := fill_data_delivery_status in
  let msg := mk_ul_message (Some sdu) (Some (fst r)) in
  let! e := get in
  if buffering e then
    when (zlen (ul_buffer e) <? ul_buffer_size (cfg e)) (modify (set_buffer true (ul_buffer e ++ [msg])))
  else emit (on_new_pdu msg).

Definition flush_ul_buffer : H unit :=
  let! e := get in
  if negb (buffering e) then ret tt else
  for_each (ul_buffer e) (fun msg => emit (on_new_pdu msg)) ;;;
  modify (set_buffer false []).

(** *** Downlink *)

(** The numbers of a block; the end is computed in 32 bits. *)
Definition block_sns (b : nru_pdcp_sn_discard_block) : list Z :=
  seqZ (pdcp_sn_start b) (u32 (pdcp_sn_start b + block_size b) - pdcp_sn_start b).

Definition handle_pdu_impl (msg : nru_dl_message) : H unit :=
  match dl_t_pdu msg with
  | [] => ret tt
  | sdu => emit (on_new_sdu sdu (retransmission_flag (dl_user_data msg)))
  end ;;;
  when (report_polling (dl_user_data msg)) (let! _ := send_data_delivery_status true in ret tt) ;;;
  match discard_blocks (dl_user_data msg) with
  | None => ret tt
  | Some blocks => for_each blocks (fun b => for_each (block_sns b) (fun sn => emit (on_discard_sdu sn)))
  end.

(** [accepted]: the UE executor takes the task. *)
Definition handle_pdu (accepted : bool) (msg : nru_dl_message) : H unit := when accepted (handle_pdu_impl msg).

End F1uDu.
