(* ===== verification/F1uEndToEnd.v ===== *)
(** * F1-U: end to end

    The link between CU-UP and DU is an interface ([F1uLink]): the local connector and the NR-U tunnels
    over GTP-U implement it.  Against it: downlink SDUs and the PDCP SNs to be discarded reach the DU in
    order, and what the RLC reports in the DU reaches the PDCP in the CU-UP. *)

From S2P Require Import Prelude Effects Timers BitEncoding BitFields NruPacking GtpuPdu GtpuPduFacts GtpuNru F1u.
Import Nru.
Open Scope Z_scope.
Open Scope entity_scope.

(** ** The link *)

(** What the bearers look at of a message. *)
Definition dl_content (m : nru_dl_message) : list Z * bool * bool * list nru_pdcp_sn_discard_block :=
  (dl_t_pdu m, retransmission_flag (dl_user_data m), report_polling (dl_user_data m), default [] (discard_blocks (dl_user_data m))).
Definition ul_content (m : nru_ul_message) : list Z * option nru_dl_data_delivery_status := (default [] (ul_t_pdu m), data_delivery_status m).

(** A link passes messages whose fields are in range on, with their contents. *)
Class F1uLink := {
  link_dl : nru_dl_message -> option nru_dl_message;
  link_ul : nru_ul_message -> option nru_ul_message;
  link_dl_content : forall m, dl_message_ok m -> exists m', link_dl m = Some m' /\ dl_content m' = dl_content m;
  link_ul_content : forall m, ul_message_ok m -> exists m', link_ul m = Some m' /\ ul_content m' = ul_content m
}.

(** The local connector hands the messages over. *)
#[export, refine] Instance local_connector : F1uLink := {| link_dl := Some; link_ul := Some |}.
Proof. all: eauto. Defined.

(** The NR-U tunnels of the two nodes, with the TEIDs of their peers. *)
Definition tunnel_dl (teid : Z) (m : nru_dl_message) : option nru_dl_message :=
  match GtpuNru.handle_dl_sdu teid m with
  | Ok (Some w) => match GtpuNru.handle_pdu GtpuNru.du true w with Ok (Some (GtpuNru.dl_message m')) => Some m' | _ => None end
  | _ => None
  end.
Definition tunnel_ul (teid : Z) (m : nru_ul_message) : option nru_ul_message :=
  match GtpuNru.handle_ul_sdu true teid m with
  | Ok (Some w) => match GtpuNru.handle_pdu GtpuNru.cu_up true w with Ok (Some (GtpuNru.ul_message m')) => Some m' | _ => None end
  | _ => None
  end.

Lemma dl_content_sent m : dl_content (dl_message_sent m) = dl_content m.
Proof.
  destruct m as [t d]. unfold dl_content, dl_message_sent, dl_user_data_sent, has_discard_blocks. cbn [dl_t_pdu dl_user_data retransmission_flag report_polling discard_blocks].
  by destruct (discard_blocks d) as [[|]|].
Qed.
Lemma ul_content_sent m : ul_content (ul_message_sent m) = ul_content m.
Proof. destruct m as [[[|b l]|] s]; done. Qed.

Lemma tunnel_dl_content teid m : uint 32 teid -> dl_message_ok m -> exists m', tunnel_dl teid m = Some m' /\ dl_content m' = dl_content m.
Proof. intros Ht Hm. destruct (nru_dl_wire teid m true Ht Hm) as (w & Hw & _ & Hr). exists (dl_message_sent m). unfold tunnel_dl. rewrite Hw, Hr. split; [done|apply dl_content_sent]. Qed.
Lemma tunnel_ul_content teid m : uint 32 teid -> ul_message_ok m -> exists m', tunnel_ul teid m = Some m' /\ ul_content m' = ul_content m.
Proof. intros Ht Hm. destruct (nru_ul_wire teid m Ht Hm) as (w & Hw & _ & Hr). exists (ul_message_sent m). unfold tunnel_ul. rewrite Hw, Hr. split; [done|apply ul_content_sent]. Qed.

Definition nru_tunnels (dl_teid ul_teid : Z) (Hd : uint 32 dl_teid) (Hu : uint 32 ul_teid) : F1uLink :=
  {| link_dl := tunnel_dl dl_teid; link_ul := tunnel_ul ul_teid;
     link_dl_content := fun m => tunnel_dl_content dl_teid m Hd; link_ul_content := fun m => tunnel_ul_content ul_teid m Hu |}.

(** ** Downlink: CU-UP *)

Import F1uCuUp.

Definition pending_sns (e : f1u_bearer) : list Z := discard_blocks e ≫= F1uDu.block_sns.
Definition sent_pdus (es : list f1u_event) : list nru_dl_message := omap (fun ev => match ev with on_new_pdu m => Some m | _ => None end) es.
Definition sent_sns (ms : list nru_dl_message) : list Z := ms ≫= (fun m => default [] (Nru.discard_blocks (dl_user_data m)) ≫= F1uDu.block_sns).
Definition sent_sdus (ms : list nru_dl_message) : list (list Z * bool) :=
  omap (fun m => match dl_t_pdu m with [] => None | sdu => Some (sdu, retransmission_flag (dl_user_data m)) end) ms.

(** A block of numbers below 2^24, not empty. *)
Definition full_block (b : nru_pdcp_sn_discard_block) : Prop := 0 <= pdcp_sn_start b /\ 1 <= block_size b <= 255 /\ pdcp_sn_start b + block_size b <= 2 ^ 24.

Record cu_ok (e : f1u_bearer) : Prop := {
  co_running : stopped e = false;
  co_set : is_set (dl_notif_timer e) = true;
  co_blocks : Forall full_block (discard_blocks e);
  co_room : zlen (discard_blocks e) < nru_max_nof_pdcp_sn_discard_blocks;
  co_timer : discard_blocks e <> [] -> is_running (dl_notif_timer e) = true
}.

Lemma block_sns_full b : full_block b -> F1uDu.block_sns b = seqZ (pdcp_sn_start b) (block_size b).
Proof. intros (H1 & H2 & H3). change (2 ^ 24) with 16777216 in H3. unfold F1uDu.block_sns. rewrite u32_small by lia. f_equal. lia. Qed.

Lemma sent_pdus_app a b : sent_pdus (a ++ b) = sent_pdus a ++ sent_pdus b.
Proof. apply omap_app. Qed.
Lemma sent_sns_app a b : sent_sns (a ++ b) = sent_sns a ++ sent_sns b.
Proof. apply bind_app. Qed.
Lemma sent_sdus_app a b : sent_sdus (a ++ b) = sent_sdus a ++ sent_sdus b.
Proof. apply omap_app. Qed.

(** The messages a bearer sends: their blocks are full and not too many. *)
Definition sendable (m : nru_dl_message) : Prop :=
  exists sdu retx blocks, m = dl_message_with sdu retx blocks /\ Forall is_byte sdu /\ Forall full_block (default [] blocks) /\ zlen (default [] blocks) <= nru_max_nof_pdcp_sn_discard_blocks.

Lemma sendable_ok m : sendable m -> dl_message_ok m.
Proof.
  intros (sdu & retx & blocks & -> & Hb & Hf & Hl). split; [|exact Hb]. cbn [dl_message_with dl_user_data]. constructor; cbn; [by split|done| |by split].
  intros l ->. split; [|exact Hl]. eapply Forall_impl; [exact Hf|]. intros b (H1 & H2 & H3). unfold block_ok, uint. change (2 ^ 24) with 16777216 in *. change (2 ^ 8) with 256. lia.
Qed.

Definition ms_for (sdu : list Z) (retx : bool) (blocks : list nru_pdcp_sn_discard_block) : nru_dl_message :=
  dl_message_with sdu retx (match blocks with [] => None | _ => Some blocks end).

Lemma default_blocks (blocks : list nru_pdcp_sn_discard_block) : default [] (match blocks with [] => None | _ => Some blocks end) = blocks.
Proof. by destruct blocks. Qed.

(** All blocks leave with a message. *)
Lemma wp_take_blocks e (Q : option (list nru_pdcp_sn_discard_block) -> f1u_bearer -> list f1u_event -> Prop) :
  Q (match discard_blocks e with [] => None | _ => Some (discard_blocks e) end) (set_discard_blocks [] e) [] -> wp fill_discard_blocks Q e.
Proof.
  intros HQ. unfold fill_discard_blocks. do 2 wp_step. destruct (discard_blocks e) eqn:E; wp_steps; [|done].
  replace e with (set_discard_blocks [] e) by (by destruct e; simpl in *; subst). done.
Qed.

Lemma cu_ok_emptied e : cu_ok e -> cu_ok (set_dl_notif_timer (timer_stop (dl_notif_timer (set_discard_blocks [] e))) (set_discard_blocks [] e)).
Proof. intros [H1 H2 H3 H4 H5]. constructor; cbn; [done|by rewrite is_set_stop|constructor|done|done]. Qed.

(** A flush: everything pending is sent. *)
Lemma wp_flush_blocks e : stopped e = false -> is_set (dl_notif_timer e) = true -> Forall full_block (discard_blocks e) -> zlen (discard_blocks e) <= nru_max_nof_pdcp_sn_discard_blocks ->
  wp flush_discard_blocks (fun _ e' es => cu_ok e' /\ discard_blocks e' = [] /\ Forall sendable (sent_pdus es) /\ sent_sns (sent_pdus es) = pending_sns e /\ sent_sdus (sent_pdus es) = []) e.
Proof.
  intros H1 H2 H3 H4. unfold flush_discard_blocks. wp_step. apply wp_take_blocks. cbn [app]. unfold stop_timer. do 2 wp_step.
  set (e' := set_dl_notif_timer _ _). assert (cu_ok e') as He' by (constructor; cbn; [done|by rewrite is_set_stop|constructor|done|done]).
  unfold pending_sns. destruct (discard_blocks e) as [|b l] eqn:E; wp_step; cbn [app sent_pdus omap list_omap].
  - done.
  - split; [done|]. split; [done|]. split; [|cbn; by rewrite app_nil_r]. apply Forall_singleton. exists [], false, (Some (b :: l)). split; [done|]. split; [constructor|]. by split.
Qed.

Inductive cu_op := cu_sdu (sdu : list Z) (is_retx : bool) | cu_discard (sn : Z) | cu_expire (epoch : Z) | cu_pdu (dispatched : bool) (m : nru_ul_message)
| cu_dispatch (defers : nru_ul_message -> nat -> bool) (dispatched : bool).

Definition cu_perform (o : cu_op) : F1uCuUp.H unit :=
  match o with
  | cu_sdu sdu is_retx => handle_sdu sdu is_retx
  | cu_discard sn => discard_sdu sn
  | cu_expire epoch => dl_notif_timeout epoch
  | cu_pdu dispatched m => handle_pdu dispatched m
  | cu_dispatch defers dispatched => handle_enqueued_values defers dispatched
  end.

(** SDUs are octets, numbers have at most 24 bits; the timer back end dispatches started expiries only; and no run of
    consecutive numbers makes a block of more than 255. *)
Definition cu_op_ok (e : f1u_bearer) (o : cu_op) : Prop :=
  match o with
  | cu_sdu sdu _ => Forall is_byte sdu
  | cu_discard sn => uint 24 sn /\ forall b, last (discard_blocks e) = Some b -> block_size b < 255 \/ pdcp_sn_start b + block_size b <> sn
  | cu_expire epoch => tm_cmd_id (dl_notif_timer e) = epoch -> is_running (dl_notif_timer e) = true
  | cu_pdu _ _ | cu_dispatch _ _ => True
  end.

Definition op_sdus (o : cu_op) : list (list Z * bool) := match o with cu_sdu (b :: l) is_retx => [(b :: l, is_retx)] | _ => [] end.
Definition op_discards (o : cu_op) : list Z := match o with cu_discard sn => [sn] | _ => [] end.

(** What one operation sends. *)
Definition cu_sends (o : cu_op) (e e' : f1u_bearer) (es : list f1u_event) : Prop :=
  cu_ok e' /\ Forall sendable (sent_pdus es) /\ sent_sns (sent_pdus es) ++ pending_sns e' = pending_sns e ++ op_discards o /\ sent_sdus (sent_pdus es) = op_sdus o.

Lemma pending_snoc l b : (l ++ [b]) ≫= F1uDu.block_sns = (l ≫= F1uDu.block_sns) ++ F1uDu.block_sns b.
Proof. rewrite bind_app. cbn. by rewrite app_nil_r. Qed.

Lemma seqZ_one x : seqZ x 1 = [x].
Proof. by rewrite seqZ_cons by lia. Qed.

Lemma block_sns_one sn : uint 24 sn -> full_block (mk_block sn 1) /\ F1uDu.block_sns (mk_block sn 1) = [sn].
Proof.
  unfold uint. intros H. assert (full_block (mk_block sn 1)) as Hf by (unfold full_block; cbn; lia). split; [done|]. rewrite block_sns_full by done.
  apply seqZ_one.
Qed.

Lemma last_split {A} (l : list A) b : last l = Some b -> l = removelast l ++ [b].
Proof. intros H. destruct l as [|a l] using rev_ind; [done|]. rewrite last_snoc in H. injection H as <-. by rewrite removelast_last. Qed.

(** The SN joins the last block or starts a new one. *)
Lemma wp_cu_discard_sdu e sn : cu_ok e -> cu_op_ok e (cu_discard sn) -> wp (discard_sdu sn) (fun _ e' es => cu_sends (cu_discard sn) e e' es) e.
Proof.
  intros He [Hsn Hroom]. pose proof He as [H1 H2 H3 H4 H5]. destruct (block_sns_one sn Hsn) as [Hf1 Hs1]. unfold discard_sdu. do 3 wp_step.
  assert (forall Q : unit -> f1u_bearer -> list f1u_event -> Prop, (forall tm, is_running tm = true -> is_set tm = true -> Q tt (set_dl_notif_timer tm e) []) ->
    wp (when (negb (is_running (dl_notif_timer e))) (let! tm := timer_run (dl_notif_timer e) in modify (set_dl_notif_timer tm))) Q e) as Hrun.
  { intros Q HQ. destruct (is_running (dl_notif_timer e)) eqn:Er; cbn [negb when].
    - wp_step. specialize (HQ (dl_notif_timer e) Er H2). by destruct e.
    - wp_step. unfold timer_run. rewrite H2. cbn [negb]. do 2 wp_step. by apply HQ. }
  apply Hrun. clear Hrun. intros tm Hr Hset. do 2 wp_step. cbn [app]. change (discard_blocks (set_dl_notif_timer tm e)) with (discard_blocks e).
  assert (forall b l Q, zlen l < nru_max_nof_pdcp_sn_discard_blocks -> b = set_discard_blocks l (set_dl_notif_timer tm e) ->
    Q tt (set_discard_blocks (l ++ [mk_block sn 1]) (set_dl_notif_timer tm e)) [] -> wp (push_discard_block sn) Q b) as Hpush.
  { intros b l Q Hl -> HQ. unfold push_discard_block. do 3 wp_step. apply wp_assert; [by apply Z.ltb_lt|]. wp_step. done. }
  destruct (last (discard_blocks e)) as [b|] eqn:El.
  - pose proof (last_split _ _ El) as Es. set (l0 := removelast (discard_blocks e)) in *. pose proof H3 as H3'. rewrite Es in H3'. apply Forall_app in H3' as [Hl0 [Hb _]%Forall_cons].
    pose proof Hb as (Hb1 & Hb2 & Hb3). rewrite u32_small by (change (2 ^ 24) with 16777216 in Hb3; lia). destruct (Z.eqb_spec (pdcp_sn_start b + block_size b) sn) as [E|Hne].
    + wp_step. destruct (Hroom b eq_refl) as [Hlt|]; [|done]. rewrite u8_small by lia. unfold uint in Hsn.
      assert (full_block (mk_block (pdcp_sn_start b) (block_size b + 1))) as Hfb by (unfold full_block; cbn; lia).
      split; [constructor; cbn; [done|done|by apply Forall_app; split; [|apply Forall_singleton]| |done]|].
      { rewrite Es in H4. rewrite zlen_app in *. done. }
      cbn [sent_pdus omap list_omap sent_sns sent_sdus op_sdus op_discards]. split; [constructor|]. split; [|done]. unfold pending_sns. cbn [discard_blocks set_discard_blocks].
      rewrite Es, !pending_snoc, !block_sns_full, <- app_assoc by done. change (sent_sns []) with (@nil Z). cbn [app pdcp_sn_start block_size]. f_equal.
      rewrite seqZ_app by lia. f_equal. by rewrite seqZ_one, E.
    + wp_step. apply (Hpush _ (discard_blocks e)); [done|by destruct e|]. do 2 wp_step. cbn [app discard_blocks set_discard_blocks].
      assert (pending_sns (set_discard_blocks (discard_blocks e ++ [mk_block sn 1]) (set_dl_notif_timer tm e)) = pending_sns e ++ [sn]) as Hp by (unfold pending_sns; cbn [discard_blocks set_discard_blocks]; by rewrite pending_snoc, Hs1).
      assert (Forall full_block (discard_blocks e ++ [mk_block sn 1])) as Hall by (apply Forall_app; split; [done|by apply Forall_singleton]).
      wp_step.
      * bool_prop. eapply wp_mono; [apply wp_flush_blocks; [done|done|done|cbn [discard_blocks set_discard_blocks]; lia]|]. intros [] e' es (G1 & G2 & G3 & G4 & G5).
        split; [done|]. split; [done|]. split; [|done]. unfold pending_sns at 1. rewrite G2, G4, Hp. cbn. by rewrite app_nil_r.
      * bool_prop. split; [constructor; cbn; [done|done|done| |done]|]. { rewrite zlen_app in *. change (zlen [mk_block sn 1]) with 1 in *. unfold nru_max_nof_pdcp_sn_discard_blocks in *. lia. }
        split; [constructor|]. split; [exact Hp|done].
  - apply last_None in El. apply (Hpush _ []); [done|by destruct e; simpl in *; subst|]. split; [|split; [constructor|split; [|done]]].
    + constructor; cbn; [done|done|by apply Forall_singleton|done|done].
    + unfold pending_sns. rewrite El. cbn [discard_blocks set_discard_blocks app mbind list_bind sent_pdus omap list_omap sent_sns op_discards]. by rewrite Hs1.
Qed.

(** Uplink operations send nothing down and leave the pending numbers alone. *)
Definition downlink_part (e : f1u_bearer) : bool * unique_timer * list nru_pdcp_sn_discard_block := (stopped e, dl_notif_timer e, discard_blocks e).

Lemma cu_sends_nothing o e e' es : cu_ok e -> downlink_part e' = downlink_part e -> sent_pdus es = [] -> op_sdus o = [] -> op_discards o = [] -> cu_sends o e e' es.
Proof.
  unfold downlink_part. intros He [= E1 E2 E3] H0 H1 H2. unfold cu_sends, pending_sns. rewrite H0, E3, H1, H2, app_nil_r. split; [|done]. destruct He. constructor; rewrite ?E1, ?E2, ?E3; done.
Qed.

Lemma wp_defer accepted ev e (Q : unit -> f1u_bearer -> list f1u_event -> Prop) :
  (accepted = true -> Q tt e [ev]) -> (accepted = false -> Q tt e []) -> wp (defer accepted ev) Q e.
Proof. intros H1 H2. unfold defer. destruct accepted; cbn [when]; wp_step; auto. Qed.

Definition quiet (e e' : f1u_bearer) (es : list f1u_event) : Prop := downlink_part e' = downlink_part e /\ sent_pdus es = [].

Lemma quiet_bind {A} (m : F1uCuUp.H A) (k : A -> F1uCuUp.H unit) e :
  wp m (fun _ e' es => quiet e e' es) e -> (forall a e', wp (k a) (fun _ e'' es => quiet e' e'' es) e') -> wp (bind m k) (fun _ e' es => quiet e e' es) e.
Proof.
  intros Hm Hk. wp_step. eapply wp_mono; [exact Hm|]. intros a e' es [H1 H2]. cbv beta. eapply wp_mono; [apply Hk|]. intros [] e'' es' [H3 H4].
  split; [congruence|]. by rewrite sent_pdus_app, H2, H4.
Qed.

Lemma quiet_defer accepted ev e : match ev with on_new_pdu _ => False | _ => True end -> wp (defer accepted ev) (fun _ e' es => quiet e e' es) e.
Proof. intros Hev. apply wp_defer; intros _; [split; [done|by destruct ev]|done]. Qed.

Lemma quiet_when (b : bool) (m : F1uCuUp.H unit) e : wp m (fun _ e' es => quiet e e' es) e -> wp (when b m) (fun _ e' es => quiet e e' es) e.
Proof. destruct b; cbn [when]; [done|]. intros _. by wp_step. Qed.

Lemma quiet_status defers s e : wp (handle_status defers s) (fun _ e' es => quiet e e' es) e.
Proof.
  unfold handle_status. apply quiet_bind; [by apply quiet_defer|]. intros [] e1. apply quiet_bind.
  { destruct (highest_transmitted_pdcp_sn s); [|by wp_step]. apply quiet_bind; [by wp_step|]. intros ? e2. apply quiet_when, quiet_bind; [by wp_step|]. intros [] e3.
    apply quiet_bind; [by wp_step|]. intros [] e4. by apply quiet_defer. }
  intros [] e2. apply quiet_bind.
  { destruct (highest_delivered_pdcp_sn s); [|by wp_step]. apply quiet_bind; [by wp_step|]. intros ? e3. apply quiet_when, quiet_bind; [by wp_step|]. intros [] e4. by apply quiet_defer. }
  intros [] e3. apply quiet_bind; [destruct (highest_retransmitted_pdcp_sn s); [by apply quiet_defer|by wp_step]|].
  intros [] e4. destruct (highest_delivered_retransmitted_pdcp_sn s); [by apply quiet_defer|by wp_step].
Qed.

Lemma quiet_pdu_impl defers m e : wp (handle_pdu_impl defers m) (fun _ e' es => quiet e e' es) e.
Proof.
  unfold handle_pdu_impl. do 2 wp_step. destruct (stopped e); [by wp_step|]. apply quiet_bind.
  { destruct (ul_t_pdu m) as [[|b l]|]; by wp_steps. }
  intros [] e1. destruct (data_delivery_status m); [apply quiet_status|by wp_step].
Qed.

Lemma quiet_batch defers dispatched e : wp (handle_enqueued_values defers dispatched) (fun _ e' es => quiet e e' es) e.
Proof.
  unfold handle_enqueued_values. apply quiet_bind; [by wp_step|]. intros e0 e1. apply quiet_bind; [by wp_step|]. intros [] e2. apply quiet_bind.
  - unfold dispatch_fn. apply (wp_for_each (fun _ e' es => quiet e2 e' es)); [done|done|]. intros m ms e' es [H1 H2]. eapply wp_mono; [apply quiet_pdu_impl|].
    intros [] e'' es' [H3 H4]. split; [congruence|]. by rewrite sent_pdus_app, H2, H4.
  - intros [] e3. apply quiet_when. by wp_step.
Qed.

Lemma wp_cu_perform o e : cu_ok e -> cu_op_ok e o -> wp (cu_perform o) (fun _ e' es => cu_sends o e e' es) e.
Proof.
  intros He Ho. pose proof He as [H1 H2 H3 H4 H5]. destruct o as [sdu is_retx|sn|epoch|dispatched m|defers dispatched]; cbn [cu_perform cu_op_ok] in *.
  - unfold handle_sdu. do 2 wp_step. rewrite H1. wp_step. apply wp_take_blocks. cbn [app]. unfold stop_timer. do 3 wp_step. set (e' := set_dl_notif_timer _ _).
    assert (cu_ok e') as He' by by apply cu_ok_emptied. split; [done|]. cbn [app sent_pdus omap list_omap]. split; [|split].
    + apply Forall_singleton. eexists sdu, is_retx, _. split; [done|]. split; [done|]. rewrite default_blocks. split; [done|lia].
    + cbn [sent_sns mbind list_bind dl_message_with dl_user_data Nru.discard_blocks op_discards]. rewrite default_blocks, !app_nil_r. unfold pending_sns. cbn. rewrite ?app_nil_r. done.
    + by destruct sdu.
  - by apply wp_cu_discard_sdu.
  - unfold dl_notif_timeout. do 3 wp_step. apply wp_timeout_task; [done| |]; intros E; do 2 wp_step; cbn [fst snd when app].
    + unfold on_expired_dl_notif_timer. do 2 wp_step. cbn [stopped set_dl_notif_timer]. rewrite H1. eapply wp_mono; [apply wp_flush_blocks; [done|done|done|cbn; lia]|].
      intros [] e' es (G1 & G2 & G3 & G4 & G5). split; [done|]. split; [done|]. split; [|done]. unfold pending_sns at 1. rewrite G2, G4. cbn [op_discards mbind list_bind]. by rewrite !app_nil_r.
    + wp_step. by apply cu_sends_nothing; destruct e.
  - unfold handle_pdu. do 2 wp_step. wp_step; [wp_step|]; by apply cu_sends_nothing.
  - eapply wp_mono; [apply quiet_batch|]. intros [] e' es [G1 G2]. by apply cu_sends_nothing.
Qed.

(** Runs of a bearer that is not stopped, with the messages it sent down. *)
Inductive cu_run (config : f1u_config) : f1u_bearer -> list cu_op -> list nru_dl_message -> Prop :=
| cr_create e : 0 <= dl_t_notif_timer config -> create config = Some e -> cu_run config e [] []
| cr_step e os ms o e' es : cu_run config e os ms -> cu_op_ok e o -> cu_perform o e = Ok (tt, e', es) -> cu_run config e' (os ++ [o]) (ms ++ sent_pdus es).

Lemma cu_run_sends config e os ms : cu_run config e os ms ->
  cu_ok e /\ Forall sendable ms /\ sent_sns ms ++ pending_sns e = os ≫= op_discards /\ sent_sdus ms = os ≫= op_sdus.
Proof.
  induction 1 as [e _ Hc|e os ms o e' es _ (H1 & H2 & H3 & H4) Ho E].
  - unfold create in Hc. destruct (_ <? _); [done|]. injection Hc as <-. split; [by constructor|]. by split; [constructor|].
  - pose proof (wp_cu_perform o e H1 Ho) as Hw. unfold wp in Hw. rewrite E in Hw. destruct Hw as (G1 & G2 & G3 & G4). split; [done|].
    split; [by apply Forall_app|]. rewrite sent_sns_app, sent_sdus_app, !bind_app, <- app_assoc, G3, app_assoc, H3, H4, G4. cbn. by rewrite !app_nil_r.
Qed.

(** ** Downlink: DU *)

Definition delivered_sdus (es : list F1uDu.f1u_event) : list (list Z * bool) := omap (fun ev => match ev with F1uDu.on_new_sdu s r => Some (s, r) | _ => None end) es.
Definition discarded_sns (es : list F1uDu.f1u_event) : list Z := omap (fun ev => match ev with F1uDu.on_discard_sdu sn => Some sn | _ => None end) es.

Lemma delivered_sdus_app a b : delivered_sdus (a ++ b) = delivered_sdus a ++ delivered_sdus b.
Proof. apply omap_app. Qed.
Lemma discarded_sns_app a b : discarded_sns (a ++ b) = discarded_sns a ++ discarded_sns b.
Proof. apply omap_app. Qed.

Definition du_ok (e : F1uDu.f1u_bearer) : Prop := is_set (F1uDu.ul_notif_timer e) = true.

(** What the DU makes of a sequence of messages. *)
Definition du_receive_all (ms : list nru_dl_message) : F1uDu.H unit := for_each ms F1uDu.handle_pdu_impl.

Definition ul_pdus (es : list F1uDu.f1u_event) : list nru_ul_message := omap (fun ev => match ev with F1uDu.on_new_pdu m => Some m | _ => None end) es.
Lemma ul_pdus_app a b : ul_pdus (a ++ b) = ul_pdus a ++ ul_pdus b.
Proof. apply omap_app. Qed.

Lemma wp_discard_block b e (Q : unit -> F1uDu.f1u_bearer -> list F1uDu.f1u_event -> Prop) :
  (forall es, delivered_sdus es = [] -> ul_pdus es = [] -> discarded_sns es = F1uDu.block_sns b -> Q tt e es) ->
  wp (for_each (F1uDu.block_sns b) (fun sn => emit (F1uDu.on_discard_sdu sn))) Q e.
Proof.
  intros HQ. generalize dependent (F1uDu.block_sns b). intros l HQ.
  apply (wp_for_each (fun l' e' es => e' = e /\ delivered_sdus es = [] /\ ul_pdus es = [] /\ discarded_sns es ++ l' = l)); [done| |].
  - intros e' es (-> & H1 & H2 & H3). rewrite app_nil_r in H3. by apply HQ.
  - intros sn l' e' es (-> & H1 & H2 & H3). wp_step. split; [done|]. rewrite delivered_sdus_app, ul_pdus_app, discarded_sns_app, H1, H2. split; [done|]. split; [done|]. cbn. by rewrite <- app_assoc.
Qed.

Lemma wp_discard_blocks bs e (Q : unit -> F1uDu.f1u_bearer -> list F1uDu.f1u_event -> Prop) :
  (forall es, delivered_sdus es = [] -> ul_pdus es = [] -> discarded_sns es = bs ≫= F1uDu.block_sns -> Q tt e es) ->
  wp (for_each bs (fun b => for_each (F1uDu.block_sns b) (fun sn => emit (F1uDu.on_discard_sdu sn)))) Q e.
Proof.
  intros HQ. apply (wp_for_each (fun l' e' es => e' = e /\ delivered_sdus es = [] /\ ul_pdus es = [] /\ discarded_sns es ++ (l' ≫= F1uDu.block_sns) = bs ≫= F1uDu.block_sns)); [done| |].
  - intros e' es (-> & H1 & H2 & H3). cbn in H3. rewrite app_nil_r in H3. by apply HQ.
  - intros b l' e' es (-> & H1 & H2 & H3). apply wp_discard_block. intros es' G1 G2 G3. split; [done|]. rewrite delivered_sdus_app, ul_pdus_app, discarded_sns_app, H1, H2, G1, G2, G3. split; [done|]. split; [done|].
    cbn [mbind list_bind] in H3. by rewrite <- app_assoc.
Qed.

(** *** Delivery status in the DU *)

(** What a status tells of the reports, over what was told before. *)
Definition note (s : nru_dl_data_delivery_status) (r : F1uDu.report) : F1uDu.report :=
  F1uDu.mk_report (desired_buffer_size_for_drb s) (default (F1uDu.r_transmitted r) (highest_transmitted_pdcp_sn s)) (default (F1uDu.r_delivered r) (highest_delivered_pdcp_sn s))
    (default (F1uDu.r_retransmitted r) (highest_retransmitted_pdcp_sn s)) (default (F1uDu.r_delivered_retransmitted r) (highest_delivered_retransmitted_pdcp_sn s)).

Definition sn_or_unset (v : Z) : Prop := v = unset_pdcp_sn \/ uint 24 v.
Definition report_ok (r : F1uDu.report) : Prop :=
  uint 32 (F1uDu.r_buffer r) /\ sn_or_unset (F1uDu.r_transmitted r) /\ sn_or_unset (F1uDu.r_delivered r) /\ sn_or_unset (F1uDu.r_retransmitted r) /\ sn_or_unset (F1uDu.r_delivered_retransmitted r).

(** The reports of the DU: in range, and a number that was sent is set. *)
Record du_reports_ok (e : F1uDu.f1u_bearer) : Prop := {
  dr_set : is_set (F1uDu.ul_notif_timer e) = true;
  dr_current : report_ok (F1uDu.current e);
  dr_transmitted : F1uDu.r_transmitted (F1uDu.current e) = unset_pdcp_sn -> F1uDu.r_transmitted (F1uDu.notif e) = unset_pdcp_sn;
  dr_delivered : F1uDu.r_delivered (F1uDu.current e) = unset_pdcp_sn -> F1uDu.r_delivered (F1uDu.notif e) = unset_pdcp_sn;
  dr_retransmitted : F1uDu.r_retransmitted (F1uDu.current e) = unset_pdcp_sn -> F1uDu.r_retransmitted (F1uDu.notif e) = unset_pdcp_sn;
  dr_delivered_retransmitted : F1uDu.r_delivered_retransmitted (F1uDu.current e) = unset_pdcp_sn -> F1uDu.r_delivered_retransmitted (F1uDu.notif e) = unset_pdcp_sn
}.

Definition du_part (e : F1uDu.f1u_bearer) : F1uDu.f1u_config * bool * bool * list nru_ul_message * F1uDu.report :=
  (F1uDu.cfg e, F1uDu.stopped e, F1uDu.buffering e, F1uDu.ul_buffer e, F1uDu.current e).

#[export] Instance report_eq_dec : EqDecision F1uDu.report.
Proof. solve_decision. Defined.

Section fill.
Import F1uDu.

(** Each step brings one member of what was sent up to date. *)
Definition with_buffer (v : Z) (r : report) : report := mk_report v (r_transmitted r) (r_delivered r) (r_retransmitted r) (r_delivered_retransmitted r).
Definition with_transmitted (v : Z) (r : report) : report := mk_report (r_buffer r) v (r_delivered r) (r_retransmitted r) (r_delivered_retransmitted r).
Definition with_delivered (v : Z) (r : report) : report := mk_report (r_buffer r) (r_transmitted r) v (r_retransmitted r) (r_delivered_retransmitted r).
Definition with_retransmitted (v : Z) (r : report) : report := mk_report (r_buffer r) (r_transmitted r) (r_delivered r) v (r_delivered_retransmitted r).
Definition with_delivered_retransmitted (v : Z) (r : report) : report := mk_report (r_buffer r) (r_transmitted r) (r_delivered r) (r_retransmitted r) v.

Lemma set_notif_same e : set_notif (notif e) e = e.
Proof. by destruct e. Qed.

Context (e : F1uDu.f1u_bearer).

Lemma wp_fill_size (Q : Z * bool -> F1uDu.f1u_bearer -> list F1uDu.f1u_event -> Prop) :
  let cur := r_buffer (current e) in
  Q (cur, negb (cur =? r_buffer (notif e))) (set_notif (with_buffer cur (notif e)) e) [] -> wp fill_desired_buffer_size_of_data_radio_bearer Q e.
Proof.
  intros cur HQ. unfold fill_desired_buffer_size_of_data_radio_bearer. do 2 wp_step. subst cur. cbv zeta in *. destruct (Z.eqb_spec (r_buffer (current e)) (r_buffer (notif e))) as [E|]; cbn [negb when] in *; wp_steps; [|exact HQ].
  rewrite E in *. replace (with_buffer _ _) with (notif e) in HQ by (by destruct (notif e)). by rewrite set_notif_same in HQ.
Qed.

Lemma wp_fill_transmitted (Q : option Z * bool -> F1uDu.f1u_bearer -> list F1uDu.f1u_event -> Prop) :
  let cur := r_transmitted (current e) in (cur = unset_pdcp_sn -> r_transmitted (notif e) = unset_pdcp_sn) ->
  Q (if cur =? unset_pdcp_sn then None else Some cur, negb (cur =? r_transmitted (notif e))) (set_notif (with_transmitted cur (notif e)) e) [] -> wp fill_highest_transmitted_pdcp_sn Q e.
Proof.
  intros cur Hu HQ. unfold fill_highest_transmitted_pdcp_sn. do 2 wp_step. subst cur. cbv zeta in *. destruct (Z.eqb_spec (r_transmitted (current e)) unset_pdcp_sn) as [E|].
  - wp_step. specialize (Hu E). rewrite E, <- Hu, Z.eqb_refl in HQ. replace (with_transmitted _ _) with (notif e) in HQ by (by destruct (notif e)). by rewrite set_notif_same in HQ.
  - destruct (Z.eqb_spec (r_transmitted (current e)) (r_transmitted (notif e))) as [E|]; cbn [negb when] in *; wp_steps; [|exact HQ].
    rewrite E in *. replace (with_transmitted _ _) with (notif e) in HQ by (by destruct (notif e)). by rewrite set_notif_same in HQ.
Qed.

Lemma wp_fill_delivered (Q : option Z * bool -> F1uDu.f1u_bearer -> list F1uDu.f1u_event -> Prop) :
  let cur := r_delivered (current e) in (cur = unset_pdcp_sn -> r_delivered (notif e) = unset_pdcp_sn) ->
  Q (if cur =? unset_pdcp_sn then None else Some cur, negb (cur =? r_delivered (notif e))) (set_notif (with_delivered cur (notif e)) e) [] -> wp fill_highest_delivered_pdcp_sn Q e.
Proof.
  intros cur Hu HQ. unfold fill_highest_delivered_pdcp_sn. do 2 wp_step. subst cur. cbv zeta in *. destruct (Z.eqb_spec (r_delivered (current e)) unset_pdcp_sn) as [E|].
  - wp_step. specialize (Hu E). rewrite E, <- Hu, Z.eqb_refl in HQ. replace (with_delivered _ _) with (notif e) in HQ by (by destruct (notif e)). by rewrite set_notif_same in HQ.
  - destruct (Z.eqb_spec (r_delivered (current e)) (r_delivered (notif e))) as [E|]; cbn [negb when] in *; wp_steps; [|exact HQ].
    rewrite E in *. replace (with_delivered _ _) with (notif e) in HQ by (by destruct (notif e)). by rewrite set_notif_same in HQ.
Qed.

Lemma wp_fill_retransmitted (Q : option Z * bool -> F1uDu.f1u_bearer -> list F1uDu.f1u_event -> Prop) :
  let cur := r_retransmitted (current e) in
  Q (if cur =? r_retransmitted (notif e) then None else Some cur, negb (cur =? r_retransmitted (notif e))) (set_notif (with_retransmitted cur (notif e)) e) [] -> wp fill_highest_retransmitted_pdcp_sn Q e.
Proof.
  intros cur HQ. unfold fill_highest_retransmitted_pdcp_sn. do 2 wp_step. subst cur. cbv zeta in *. destruct (Z.eqb_spec (r_retransmitted (current e)) (r_retransmitted (notif e))) as [E|]; cbn [negb] in *; wp_steps; [|exact HQ].
  rewrite E in *. replace (with_retransmitted _ _) with (notif e) in HQ by (by destruct (notif e)). by rewrite set_notif_same in HQ.
Qed.

Lemma wp_fill_delivered_retransmitted (Q : option Z * bool -> F1uDu.f1u_bearer -> list F1uDu.f1u_event -> Prop) :
  let cur := r_delivered_retransmitted (current e) in
  Q (if cur =? r_delivered_retransmitted (notif e) then None else Some cur, negb (cur =? r_delivered_retransmitted (notif e))) (set_notif (with_delivered_retransmitted cur (notif e)) e) [] ->
  wp fill_highest_delivered_retransmitted_pdcp_sn Q e.
Proof.
  intros cur HQ. unfold fill_highest_delivered_retransmitted_pdcp_sn. do 2 wp_step. subst cur. cbv zeta in *.
  destruct (Z.eqb_spec (r_delivered_retransmitted (current e)) (r_delivered_retransmitted (notif e))) as [E|]; cbn [negb] in *; wp_steps; [|exact HQ].
  rewrite E in *. replace (with_delivered_retransmitted _ _) with (notif e) in HQ by (by destruct (notif e)). by rewrite set_notif_same in HQ.
Qed.
End fill.

Lemma sn_sent v : sn_or_unset v -> opt_uint 24 (if v =? unset_pdcp_sn then None else Some v).
Proof. intros [->|H] x; [done|]. destruct (v =? unset_pdcp_sn); [done|]. by intros [= <-]. Qed.
Lemma sn_changed v last : sn_or_unset v -> (v = unset_pdcp_sn -> last = unset_pdcp_sn) -> opt_uint 24 (if v =? last then None else Some v).
Proof. intros [->|H] Hl x; [rewrite Hl by done; by rewrite Z.eqb_refl|]. destruct (v =? last); [done|]. by intros [= <-]. Qed.
Lemma noted_sent v last : (v = unset_pdcp_sn -> last = unset_pdcp_sn) -> default last (if v =? unset_pdcp_sn then None else Some v) = v.
Proof. intros H. destruct (Z.eqb_spec v unset_pdcp_sn) as [E|]; [rewrite E; by apply H|done]. Qed.
Lemma noted_changed v last : default last (if v =? last then None else Some v) = v.
Proof. by destruct (Z.eqb_spec v last). Qed.

Lemma reports_differ (c n : F1uDu.report) :
  negb (F1uDu.r_buffer c =? F1uDu.r_buffer n) || negb (F1uDu.r_transmitted c =? F1uDu.r_transmitted n) || negb (F1uDu.r_delivered c =? F1uDu.r_delivered n) ||
  negb (F1uDu.r_retransmitted c =? F1uDu.r_retransmitted n) || negb (F1uDu.r_delivered_retransmitted c =? F1uDu.r_delivered_retransmitted n) = negb (bool_decide (n = c)).
Proof.
  rewrite <- !negb_andb. f_equal. symmetry. apply eq_true_iff_eq. rewrite bool_decide_eq_true, !andb_true_iff, !Z.eqb_eq. destruct c, n. cbn. split; [by intros [= <- <- <- <- <-]|].
  by intros ((((-> & ->) & ->) & ->) & ->).
Qed.

(** The status holds the current reports; it is fresh exactly when they are not what was sent last. *)
Lemma wp_fill_status e : du_reports_ok e ->
  wp F1uDu.fill_data_delivery_status (fun r e' es => es = [] /\ du_reports_ok e' /\ du_part e' = du_part e /\ F1uDu.notif e' = F1uDu.current e /\ is_running (F1uDu.ul_notif_timer e') = true /\
    status_ok (fst r) /\ note (fst r) (F1uDu.notif e) = F1uDu.current e /\ snd r = negb (bool_decide (F1uDu.notif e = F1uDu.current e))) e.
Proof.
  intros [Hs (K1 & K2 & K3 & K4 & K5) H2 H3 H4 H5]. unfold F1uDu.fill_data_delivery_status.
  wp_step. apply wp_fill_size. wp_step. apply wp_fill_transmitted; [exact H2|]. wp_step. apply wp_fill_delivered; [exact H3|]. wp_step. apply wp_fill_retransmitted. wp_step. apply wp_fill_delivered_retransmitted.
  wp_step. unfold F1uDu.run_ul_notif_timer. do 3 wp_step. unfold timer_run. cbn [F1uDu.ul_notif_timer F1uDu.set_notif]. rewrite Hs. cbn [negb]. do 3 wp_step. cbn.
  assert (F1uDu.mk_report (F1uDu.r_buffer (F1uDu.current e)) (F1uDu.r_transmitted (F1uDu.current e)) (F1uDu.r_delivered (F1uDu.current e)) (F1uDu.r_retransmitted (F1uDu.current e))
    (F1uDu.r_delivered_retransmitted (F1uDu.current e)) = F1uDu.current e) as Heta by (by destruct (F1uDu.current e)).
  split; [done|]. split; [constructor; cbn; [exact Hs|exact (conj K1 (conj K2 (conj K3 (conj K4 K5))))|exact (fun H => H)..]|]. split; [reflexivity|]. split; [exact Heta|]. split; [reflexivity|]. split; [|split; [|apply reports_differ]].
  - constructor; cbn; [exact K1|done|done|by apply sn_sent|by apply sn_sent|done|by apply sn_changed|by apply sn_changed].
  - unfold note. cbn. rewrite !noted_changed, !noted_sent by done. exact Heta.
Qed.

(** The uplink SDUs of messages; empty ones carry no data. *)
Definition ul_sdus (ms : list nru_ul_message) : list (list Z) := omap (fun m => match default [] (ul_t_pdu m) with [] => None | sdu => Some sdu end) ms.
Lemma ul_sdus_app a b : ul_sdus (a ++ b) = ul_sdus a ++ ul_sdus b.
Proof. apply omap_app. Qed.

(** What was told by a sequence of uplink messages, over what was told before. *)
Definition note_ul (r : F1uDu.report) (m : nru_ul_message) : F1uDu.report := match data_delivery_status m with Some s => note s r | None => r end.
Definition note_all (ms : list nru_ul_message) (r : F1uDu.report) : F1uDu.report := fold_left note_ul ms r.
Lemma note_all_app a b r : note_all (a ++ b) r = note_all b (note_all a r).
Proof. apply fold_left_app. Qed.

(** What an operation of the DU sends up tells exactly how what was sent last has changed. *)
Definition du_tells (e e' : F1uDu.f1u_bearer) (es : list F1uDu.f1u_event) : Prop :=
  du_reports_ok e' /\ Forall ul_message_ok (ul_pdus es) /\ note_all (ul_pdus es) (F1uDu.notif e) = F1uDu.notif e'.

Lemma du_tells_nothing e e' es : du_reports_ok e' -> F1uDu.notif e' = F1uDu.notif e -> ul_pdus es = [] -> du_tells e e' es.
Proof. intros H1 H2 H3. split; [done|]. by rewrite H3, H2. Qed.

Lemma du_tells_bind {A B} (m : F1uDu.H A) (k : A -> F1uDu.H B) (P : B -> F1uDu.f1u_bearer -> list F1uDu.f1u_event -> Prop) (R : A -> F1uDu.f1u_bearer -> list F1uDu.f1u_event -> Prop) e :
  wp m (fun a e' es => du_tells e e' es /\ R a e' es) e ->
  (forall a e' es, du_reports_ok e' -> R a e' es -> wp (k a) (fun b e'' es' => du_tells e' e'' es' /\ P b e'' (es ++ es')) e') ->
  wp (bind m k) (fun b e'' es => du_tells e e'' es /\ P b e'' es) e.
Proof.
  intros Hm Hk. wp_step. eapply wp_mono; [exact Hm|]. intros a e' es [(H1 & H2 & H3) HR]. cbv beta. eapply wp_mono; [by apply Hk|]. intros b e'' es' [(G1 & G2 & G3) HP].
  split; [|done]. split; [done|]. rewrite ul_pdus_app, note_all_app, H3. split; [by apply Forall_app|done].
Qed.

Lemma wp_send_status force e : du_reports_ok e ->
  wp (F1uDu.send_data_delivery_status force) (fun _ e' es => du_tells e e' es /\ F1uDu.notif e' = F1uDu.current e' /\ du_part e' = du_part e /\
    is_running (F1uDu.ul_notif_timer e') = true /\ delivered_sdus es = [] /\ discarded_sns es = [] /\ ul_sdus (ul_pdus es) = []) e.
Proof.
  intros He. unfold F1uDu.send_data_delivery_status. wp_step. eapply wp_mono; [by apply wp_fill_status|]. intros [s fr] e' es (-> & H1 & H2 & H3 & H4 & H5 & H6 & H7). cbn [fst snd app] in *.
  assert (F1uDu.current e' = F1uDu.current e) as Hc by (unfold du_part in H2; congruence). destruct (negb fr && negb force) eqn:Eb.
  - apply andb_true_iff in Eb as [Hfr _]. rewrite H7, negb_involutive in Hfr. apply bool_decide_eq_true in Hfr. wp_step.
    split; [by apply du_tells_nothing; rewrite ?H3|]. split; [by rewrite H3|]. by split.
  - do 3 wp_step. split; [|split; [by rewrite H3|by split]]. split; [done|]. cbn. split; [apply Forall_singleton; split; [by intros ? [= <-]|done]|]. by rewrite H6, H3.
Qed.

(** The timer, once running, runs, and no SDU goes up. *)
Definition keeps_running (e e' : F1uDu.f1u_bearer) (es : list F1uDu.f1u_event) : Prop :=
  (is_running (F1uDu.ul_notif_timer e) = true -> is_running (F1uDu.ul_notif_timer e') = true) /\ ul_sdus (ul_pdus es) = [].

(** A downlink message: its SDU is delivered, its numbers are discarded; polling sends a status. *)
Lemma wp_du_receive m e : du_reports_ok e ->
  wp (F1uDu.handle_pdu_impl m) (fun _ e' es => du_tells e e' es /\ du_part e' = du_part e /\ keeps_running e e' es /\ delivered_sdus es = sent_sdus [m] /\ discarded_sns es = sent_sns [m]) e.
Proof.
  intros He. unfold F1uDu.handle_pdu_impl.
  apply (du_tells_bind _ _ _ (fun _ e' es => e' = e /\ ul_pdus es = [] /\ delivered_sdus es = sent_sdus [m] /\ discarded_sns es = [])).
  { cbn [sent_sdus omap list_omap]. destruct (dl_t_pdu m) as [|b l]; wp_step; (split; [by apply du_tells_nothing|done]). }
  intros [] e1 es1 He1 (-> & Hu1 & Hd1 & Hx1). eapply (du_tells_bind _ _ (fun _ e' es => du_part e' = du_part e /\ keeps_running e e' (es1 ++ es) /\ delivered_sdus (es1 ++ es) = sent_sdus [m] /\ discarded_sns (es1 ++ es) = sent_sns [m])
    (fun _ e' es => du_part e' = du_part e /\ keeps_running e e' es /\ delivered_sdus es = [] /\ discarded_sns es = [])).
  { destruct (report_polling (dl_user_data m)); cbn [when]; [|wp_step; split; [by apply du_tells_nothing|done]].
    wp_step. eapply wp_mono; [by apply wp_send_status|]. intros ? e2 es2 (G1 & G2 & G3 & G4 & G5 & G6 & G7). wp_step. rewrite app_nil_r. done. }
  intros [] e2 es2 He2 (Hp2 & [Hr2 Hs2] & Hd2 & Hx2).
  assert (sent_sns [m] = default [] (Nru.discard_blocks (dl_user_data m)) ≫= F1uDu.block_sns) as -> by (cbn [sent_sns mbind list_bind]; by rewrite app_nil_r).
  assert (forall es3, ul_pdus es3 = [] -> keeps_running e e2 (es1 ++ es2 ++ es3)) as Hk by (intros es3 H3; split; [done|]; by rewrite !ul_pdus_app, Hu1, H3, app_nil_r).
  destruct (Nru.discard_blocks (dl_user_data m)) as [bs|]; cbn [default].
  - apply wp_discard_blocks. intros es3 Hd3 Hu3 Hx3. split; [by apply du_tells_nothing|]. rewrite !delivered_sdus_app, !discarded_sns_app, Hd1, Hd2, Hd3, Hx1, Hx2, Hx3, !app_nil_r. split; [done|]. split; [by apply Hk|done].
  - wp_step. split; [by apply du_tells_nothing|]. rewrite !delivered_sdus_app, !discarded_sns_app, Hd1, Hd2, Hx1, Hx2. split; [done|]. split; [by apply Hk|]. cbn. by rewrite app_nil_r.
Qed.

Lemma wp_du_receive_all ms e : du_reports_ok e ->
  wp (du_receive_all ms) (fun _ e' es => du_reports_ok e' /\ delivered_sdus es = sent_sdus ms /\ discarded_sns es = sent_sns ms) e.
Proof.
  intros He. unfold du_receive_all. apply (wp_for_each (fun ms' e' es => du_reports_ok e' /\ exists done_, ms = done_ ++ ms' /\ delivered_sdus es = sent_sdus done_ /\ discarded_sns es = sent_sns done_)).
  - split; [done|]. by exists [].
  - intros e' es (H1 & ms' & -> & H2 & H3). by rewrite app_nil_r.
  - intros m ms' e' es (H1 & ms0 & -> & H2 & H3). eapply wp_mono; [by apply wp_du_receive|]. intros [] e2 es2 ((G1 & _) & _ & _ & G2 & G3). split; [done|].
    exists (ms0 ++ [m]). rewrite <- app_assoc. split; [done|]. by rewrite delivered_sdus_app, discarded_sns_app, sent_sdus_app, sent_sns_app, H2, H3, G2, G3.
Qed.

Lemma content_sent m m' : dl_content m' = dl_content m -> sent_sdus [m'] = sent_sdus [m] /\ sent_sns [m'] = sent_sns [m].
Proof. unfold dl_content. intros [= E1 E2 _ E3]. cbn [sent_sdus omap list_omap sent_sns mbind list_bind]. by rewrite E1, E2, E3. Qed.

(** ** End to end, downlink *)

Section end_to_end.
Context {L : F1uLink}.

Definition linked_dl (ms : list nru_dl_message) : list nru_dl_message := omap link_dl ms.
Definition linked_ul (ms : list nru_ul_message) : list nru_ul_message := omap link_ul ms.

Lemma linked_dl_sent ms : Forall sendable ms -> sent_sdus (linked_dl ms) = sent_sdus ms /\ sent_sns (linked_dl ms) = sent_sns ms.
Proof.
  induction 1 as [|m ms Hm _ [IH1 IH2]]; [done|]. destruct (link_dl_content m (sendable_ok m Hm)) as (m' & E & Hc).
  assert (linked_dl (m :: ms) = [m'] ++ linked_dl ms) as -> by (unfold linked_dl; cbn; by rewrite E). destruct (content_sent m m' Hc) as [E1 E2].
  change (m :: ms) with ([m] ++ ms). by rewrite !sent_sdus_app, !sent_sns_app, E1, E2, IH1, IH2.
Qed.

(** C21: Over any link that passes messages on, and as long as no block of consecutive numbers exceeds 255: the DU delivers the
    downlink SDUs given to the CU-UP, in order and once (empty ones carry no data), and discards the PDCP
    SNs given to it, in order; those not sent yet are pending, and then the notification timer runs. *)
Theorem f1u_downlink_end_to_end config cu os ms du : cu_run config cu os ms -> du_reports_ok du ->
  exists du' es, du_receive_all (linked_dl ms) du = Ok (tt, du', es) /\ delivered_sdus es = os ≫= op_sdus /\ discarded_sns es ++ pending_sns cu = os ≫= op_discards /\
    (pending_sns cu <> [] -> is_running (dl_notif_timer cu) = true).
Proof.
  intros Hrun Hdu. destruct (cu_run_sends config cu os ms Hrun) as (H1 & H2 & H3 & H4). destruct (linked_dl_sent ms H2) as [E1 E2].
  destruct (proj1 (wp_run _ _ _) (wp_du_receive_all (linked_dl ms) du Hdu)) as ([] & du' & es & Er & _ & Hd & Hx). exists du', es.
  split; [done|]. split; [by rewrite Hd, E1|]. split; [by rewrite Hx, E2|]. intros Hp. apply (co_timer _ H1). intros En. unfold pending_sns in Hp. by rewrite En in Hp.
Qed.

End end_to_end.

(** ** A block of 256 numbers *)

(** [k] consecutive numbers from [start] on are pending in one block. *)
Definition one_block (start k : Z) (e : f1u_bearer) : Prop :=
  stopped e = false /\ is_set (dl_notif_timer e) = true /\ discard_blocks e = if k =? 0 then [] else [mk_block start (u8 k)].

Lemma wp_discard_next start k e : one_block start k e -> 0 <= k <= 255 -> 0 <= start -> start + k < 2 ^ 24 ->
  wp (discard_sdu (start + k)) (fun _ e' es => one_block start (k + 1) e' /\ es = []) e.
Proof.
  intros (H1 & H2 & H3) Hk Hs Hm. change (2 ^ 24) with 16777216 in Hm. unfold discard_sdu. do 3 wp_step.
  assert (forall Q : unit -> f1u_bearer -> list f1u_event -> Prop, (forall e', one_block start k e' -> Q tt e' []) ->
    wp (when (negb (is_running (dl_notif_timer e))) (let! tm := timer_run (dl_notif_timer e) in modify (set_dl_notif_timer tm))) Q e) as Hrun.
  { intros Q HQ. destruct (negb (is_running (dl_notif_timer e))); cbn [when]; [|wp_step; by apply HQ]. wp_step. unfold timer_run. rewrite H2. cbn [negb]. do 2 wp_step. by apply HQ. }
  apply Hrun. clear Hrun e H1 H2 H3. intros e (H1 & H2 & H3). do 2 wp_step. cbn [app]. rewrite H3. destruct (Z.eqb_spec k 0) as [->|]; cbn [last].
  - unfold push_discard_block. do 3 wp_step. rewrite H3. apply wp_assert; [done|]. wp_step. split; [|done]. split; [done|]. split; [done|]. by rewrite Z.add_0_r.
  - cbn [pdcp_sn_start block_size]. rewrite (u8_small k), u32_small, Z.eqb_refl by lia. wp_step. split; [|done]. split; [done|]. split; [done|].
    cbn [discard_blocks set_discard_blocks removelast app]. by rewrite (proj2 (Z.eqb_neq (k + 1) 0)) by lia.
Qed.

(** The size of a block is an octet: 256 consecutive numbers make a block of size zero, and not one of them is discarded in the DU. *)
Theorem f1u_discard_block_overflow e start du : cu_ok e -> discard_blocks e = [] -> 0 <= start -> start + 256 <= 2 ^ 24 ->
  exists e' m, (for_each (seqZ start 256) discard_sdu ;;; on_expired_dl_notif_timer) e = Ok (tt, e', [on_new_pdu m]) /\
    Nru.discard_blocks (dl_user_data m) = Some [mk_block start 0] /\ F1uDu.handle_pdu_impl m du = Ok (tt, du, []).
Proof.
  intros He Hb Hs Hm. pose (m := dl_message_with [] false (Some [mk_block start 0])).
  assert (wp (for_each (seqZ start 256) discard_sdu ;;; on_expired_dl_notif_timer) (fun _ e' es => es = [on_new_pdu m]) e) as Hw.
  { wp_step. apply (wp_for_each (fun l e' es => es = [] /\ exists k, 0 <= k <= 256 /\ l = seqZ (start + k) (256 - k) /\ one_block start k e')).
    - split; [done|]. exists 0. rewrite Z.add_0_r. split; [lia|]. split; [done|]. split; [apply He|]. split; [by apply co_set|done].
    - intros e1 es (-> & k & Hk & El & Ho). assert (k = 256) as -> by (destruct (Z.eq_dec k 256); [done|]; rewrite seqZ_cons in El by lia; done).
      destruct Ho as (H1 & H2 & H3). change (u8 256) with 0 in H3. change (256 =? 0) with false in H3. cbv iota in H3. unfold on_expired_dl_notif_timer. do 2 wp_step. rewrite H1. unfold flush_discard_blocks. wp_step. apply wp_take_blocks. rewrite H3.
      unfold stop_timer. do 3 wp_step. done.
    - intros sn l e1 es (-> & k & Hk & El & Ho). assert (k < 256) by (destruct (Z.eq_dec k 256); [subst; done|lia]). rewrite seqZ_cons in El by lia. injection El as -> ->.
      eapply wp_mono; [apply (wp_discard_next start k); [done|lia|done|change (2 ^ 24) with 16777216 in *; lia]|]. intros [] e2 es2 [Ho2 ->]. split; [done|]. exists (k + 1). split; [lia|]. split; [|done]. f_equal; lia. }
  apply wp_run in Hw as ([] & e' & es & E & ->). exists e', m. split; [exact E|]. split; [done|]. subst m. unfold F1uDu.handle_pdu_impl. cbn [dl_message_with dl_t_pdu dl_user_data report_polling Nru.discard_blocks for_each].
  assert (F1uDu.block_sns (mk_block start 0) = []) as Hn.
  { unfold F1uDu.block_sns. cbn [pdcp_sn_start block_size]. rewrite Z.add_0_r, u32_small, Z.sub_diag by (change (2 ^ 24) with 16777216 in *; lia). done. }
  unfold bind. rewrite Hn. done.
Qed.

Definition example_cu : f1u_bearer := mk_bearer (mk_config 10 8192 256) [] false (mk_timer timer_stopped (Some 10) 0) unset_pdcp_sn unset_pdcp_sn [].
Definition example_du : F1uDu.f1u_bearer :=
  F1uDu.mk_bearer (F1uDu.mk_config 10 1000000 false 4096) false false [] (mk_timer timer_running (Some 10) 1)
    (F1uDu.mk_report 1000000 unset_pdcp_sn unset_pdcp_sn unset_pdcp_sn unset_pdcp_sn) (F1uDu.mk_report 0 unset_pdcp_sn unset_pdcp_sn unset_pdcp_sn unset_pdcp_sn).

Lemma f1u_discard_block_overflow_witness :
  exists e' m, (for_each (seqZ 100 256) discard_sdu ;;; on_expired_dl_notif_timer) example_cu = Ok (tt, e', [on_new_pdu m]) /\ F1uDu.handle_pdu_impl m example_du = Ok (tt, example_du, []).
Proof.
  destruct (f1u_discard_block_overflow example_cu 100 example_du) as (e' & m & H1 & _ & H2); [constructor; try done; constructor|done|lia|lia|].
  exists e', m. split; [exact H1|exact H2].
Defined.
