(* ===== verification/F1uStatus.v ===== *)
(** * F1-U uplink: SDUs and delivery status reach the CU-UP

    The DU's side of a run and what its messages tell; the CU-UP's side; the property over any link. *)

From S2P Require Import Prelude Effects Timers BitEncoding BitFields NruPacking GtpuPdu GtpuPduFacts GtpuNru F1u F1uEndToEnd.
Import Nru.
Open Scope Z_scope.
Open Scope entity_scope.

(** ** Runs of the DU *)

Inductive du_op :=
| du_sdu (sdu : list Z)
| du_pdu (m : nru_dl_message)
| du_expire (epoch : Z)
| du_transmitted (sn size : Z)
| du_delivered (sn : Z)
| du_retransmitted (sn : Z)
| du_delivered_retransmitted (sn : Z).

Definition du_perform (o : du_op) : F1uDu.H unit :=
  match o with
  | du_sdu sdu => F1uDu.handle_sdu sdu
  | du_pdu m => F1uDu.handle_pdu true m
  | du_expire epoch => F1uDu.ul_notif_timeout epoch
  | du_transmitted sn size => modify (F1uDu.handle_transmit_notification sn size)
  | du_delivered sn => modify (F1uDu.handle_delivery_notification sn)
  | du_retransmitted sn => modify (F1uDu.handle_retransmit_notification sn)
  | du_delivered_retransmitted sn => modify (F1uDu.handle_delivery_retransmitted_notification sn)
  end.

Definition du_op_ok (e : F1uDu.f1u_bearer) (o : du_op) : Prop :=
  match o with
  | du_sdu sdu => Forall is_byte sdu
  | du_pdu _ => True
  | du_expire epoch => tm_cmd_id (F1uDu.ul_notif_timer e) = epoch -> is_running (F1uDu.ul_notif_timer e) = true
  | du_transmitted sn size => uint 24 sn /\ uint 32 size
  | du_delivered sn | du_retransmitted sn | du_delivered_retransmitted sn => uint 24 sn
  end.

Definition op_ul_sdus (o : du_op) : list (list Z) := match o with du_sdu (b :: l) => [b :: l] | _ => [] end.

(** Runs of a bearer that does not buffer at startup, with the messages it sent up. *)
Inductive du_run (config : F1uDu.f1u_config) : F1uDu.f1u_bearer -> list du_op -> list nru_ul_message -> Prop :=
| dr_create e : F1uDu.buffer_ul_on_startup config = false -> uint 32 (F1uDu.rlc_queue_bytes_limit config) -> F1uDu.create config = Some e -> du_run config e [] []
| dr_step e os ms o e' es : du_run config e os ms -> du_op_ok e o -> du_perform o e = Ok (tt, e', es) -> du_run config e' (os ++ [o]) (ms ++ ul_pdus es).

Definition nothing_told : F1uDu.report := F1uDu.mk_report 0 unset_pdcp_sn unset_pdcp_sn unset_pdcp_sn unset_pdcp_sn.

Record du_history (e : F1uDu.f1u_bearer) (os : list du_op) (ms : list nru_ul_message) : Prop := {
  dh_reports : du_reports_ok e;
  dh_direct : F1uDu.buffering e = false;
  dh_running : is_running (F1uDu.ul_notif_timer e) = true;
  dh_messages : Forall ul_message_ok ms;
  dh_told : note_all ms nothing_told = F1uDu.notif e;
  dh_sdus : ul_sdus ms = os ≫= op_ul_sdus
}.

Lemma du_history_step e os ms o e' es : du_history e os ms -> du_tells e e' es -> F1uDu.buffering e' = false -> is_running (F1uDu.ul_notif_timer e') = true -> ul_sdus (ul_pdus es) = op_ul_sdus o ->
  du_history e' (os ++ [o]) (ms ++ ul_pdus es).
Proof.
  intros [H1 H2 H3 H4 H5 H6] (G1 & G2 & G3) Hb Hr Hs. constructor; [done|done|done|by apply Forall_app|by rewrite note_all_app, H5|].
  rewrite ul_sdus_app, Hs, H6, bind_app. cbn. by rewrite app_nil_r.
Qed.

Lemma reports_stored v e c' : du_reports_ok e -> report_ok c' -> F1uDu.notif v = F1uDu.notif e -> F1uDu.ul_notif_timer v = F1uDu.ul_notif_timer e -> F1uDu.current v = c' ->
  (F1uDu.r_transmitted c' = unset_pdcp_sn -> F1uDu.r_transmitted (F1uDu.current e) = unset_pdcp_sn) -> (F1uDu.r_delivered c' = unset_pdcp_sn -> F1uDu.r_delivered (F1uDu.current e) = unset_pdcp_sn) ->
  (F1uDu.r_retransmitted c' = unset_pdcp_sn -> F1uDu.r_retransmitted (F1uDu.current e) = unset_pdcp_sn) ->
  (F1uDu.r_delivered_retransmitted c' = unset_pdcp_sn -> F1uDu.r_delivered_retransmitted (F1uDu.current e) = unset_pdcp_sn) -> du_reports_ok v.
Proof. intros [H1 H2 H3 H4 H5 H6] Hc Hn Ht Hv G1 G2 G3 G4. constructor; rewrite ?Hn, ?Ht, ?Hv; auto. Qed.

Lemma sn_not_unset sn : uint 24 sn -> sn <> unset_pdcp_sn.
Proof. unfold uint, unset_pdcp_sn. change (2 ^ 24) with 16777216. lia. Qed.

Lemma wp_du_perform o e os ms : du_history e os ms -> du_op_ok e o -> wp (du_perform o) (fun _ e' es => du_history e' (os ++ [o]) (ms ++ ul_pdus es)) e.
Proof.
  intros Hh Ho. pose proof Hh as [H1 H2 H3 H4 H5 H6]. pose proof (dr_current _ H1) as (C1 & C2 & C3 & C4 & C5). destruct o as [sdu|m|epoch|sn size|sn|sn|sn]; cbn [du_perform du_op_ok] in *.
  - unfold F1uDu.handle_sdu. wp_step. eapply wp_mono; [by apply wp_fill_status|]. intros [s fr] e' es (-> & G1 & G2 & G3 & G4 & G5 & G6 & G7). cbn [fst snd app] in *. do 2 wp_step.
    assert (F1uDu.buffering e' = false) as Hb by (unfold du_part in G2; congruence). rewrite Hb. wp_step.
    apply (du_history_step e); [done| |done|done|by destruct sdu]. split; [done|]. cbn. split; [apply Forall_singleton; split; [by intros ? [= <-]|by intros ? [= <-]]|]. by rewrite G6, G3.
  - unfold F1uDu.handle_pdu. cbn [when]. eapply wp_mono; [by apply wp_du_receive|]. intros [] e' es (G1 & G2 & [G3 G4] & _). apply (du_history_step e); [done|done|unfold du_part in G2; congruence|auto|done].
  - unfold F1uDu.ul_notif_timeout. do 3 wp_step. apply wp_timeout_task; [done| |]; intros E; do 2 wp_step; cbn [fst snd when app].
    + unfold F1uDu.on_expired_ul_notif_timer. wp_step. set (e1 := F1uDu.set_ul_notif_timer _ e). assert (du_reports_ok e1) as He1 by (by destruct H1). eapply wp_mono; [by apply (wp_send_status false e1)|].
      intros b e' es (G1 & G2 & G3 & G4 & _ & _ & G7). wp_step. rewrite app_nil_r. apply (du_history_step e); [done|exact G1|unfold du_part in G3; cbn in G3; congruence|done|done].
    + wp_step. replace (F1uDu.set_ul_notif_timer (F1uDu.ul_notif_timer e) e) with e by (by destruct e). apply (du_history_step e); [done|by apply du_tells_nothing|done|done|done].
  - destruct Ho as [Hs Hz]. wp_step. apply (du_history_step e); [done| |done|done|done]. apply du_tells_nothing; [|done|done].
    eapply (reports_stored _ e); [done| |done|done|reflexivity|cbn; intros E; by destruct (sn_not_unset sn Hs)|done|done|done]. split; [done|]. split; [by right|done].
  - wp_step. apply (du_history_step e); [done| |done|done|done]. apply du_tells_nothing; [|done|done].
    eapply (reports_stored _ e); [done| |done|done|reflexivity|done|cbn; intros E; by destruct (sn_not_unset sn Ho)|done|done]. split; [done|]. split; [done|]. split; [by right|done].
  - wp_step. apply (du_history_step e); [done| |done|done|done]. apply du_tells_nothing; [|done|done].
    eapply (reports_stored _ e); [done| |done|done|reflexivity|done|done|cbn; intros E; by destruct (sn_not_unset sn Ho)|done]. split; [done|]. split; [done|]. split; [done|]. split; [by right|done].
  - wp_step. apply (du_history_step e); [done| |done|done|done]. apply du_tells_nothing; [|done|done].
    eapply (reports_stored _ e); [done| |done|done|reflexivity|done|done|done|cbn; intros E; by destruct (sn_not_unset sn Ho)]. split; [done|]. split; [done|]. split; [done|]. split; [done|by right].
Qed.

Lemma du_run_history config e os ms : du_run config e os ms -> du_history e os ms.
Proof.
  induction 1 as [e Hb Hl Hc|e os ms o e' es _ IH Ho E].
  - unfold F1uDu.create in Hc. destruct (_ <? _); [done|]. injection Hc as <-. constructor; cbn; try done.
    constructor; cbn; try done. split; [done|]. repeat split; by left.
  - pose proof (wp_du_perform o e os ms IH Ho) as Hw. unfold wp in Hw. by rewrite E in Hw.
Qed.

(** ** The CU-UP *)

Import F1uCuUp.

(** What the PDCP was told last of each report. *)
Definition tell (r : F1uDu.report) (ev : f1u_event) : F1uDu.report :=
  match ev with
  | on_desired_buffer_size_notification v => with_buffer v r
  | on_transmit_notification v => with_transmitted v r
  | on_delivery_notification v => with_delivered v r
  | on_retransmit_notification v => with_retransmitted v r
  | on_delivery_retransmitted_notification v => with_delivered_retransmitted v r
  | _ => r
  end.
Definition told (es : list f1u_event) (r : F1uDu.report) : F1uDu.report := fold_left tell es r.
Definition cu_sdus (es : list f1u_event) : list (list Z) := omap (fun ev => match ev with on_new_sdu s => Some s | _ => None end) es.

Lemma told_app a b r : told (a ++ b) r = told b (told a r).
Proof. apply fold_left_app. Qed.
Lemma cu_sdus_app a b : cu_sdus (a ++ b) = cu_sdus a ++ cu_sdus b.
Proof. apply omap_app. Qed.

(** All deferred tasks are taken. *)
Definition all_taken (_ : nat) : bool := true.
Definition cu_receive_all (ms : list nru_ul_message) : F1uCuUp.H unit := dispatch_fn (fun _ => all_taken) ms.

(** The bearer remembers what it told of the numbers transmitted and delivered. *)
Definition in_step (e : f1u_bearer) (r : F1uDu.report) : Prop :=
  stopped e = false /\ notif_highest_transmitted_pdcp_sn e = F1uDu.r_transmitted r /\ notif_highest_delivered_pdcp_sn e = F1uDu.r_delivered r.

(** The status brings the PDCP up to date. *)
Lemma wp_handle_status s e r : in_step e r -> wp (handle_status all_taken s) (fun _ e' es => in_step e' (note s r) /\ told es r = note s r /\ cu_sdus es = []) e.
Proof.
  intros (H1 & H2 & H3). unfold handle_status, defer. cbn [all_taken when]. do 3 wp_step.
  destruct s as [final size rate ranges delivered transmitted cause dretx retx], r as [r1 r2 r3 r4 r5]. unfold note.
  cbn [desired_buffer_size_for_drb highest_transmitted_pdcp_sn highest_delivered_pdcp_sn highest_retransmitted_pdcp_sn highest_delivered_retransmitted_pdcp_sn
    F1uDu.r_buffer F1uDu.r_transmitted F1uDu.r_delivered F1uDu.r_retransmitted F1uDu.r_delivered_retransmitted] in *.
  apply (wp_mono _ (fun _ e1 es => in_step e1 (F1uDu.mk_report size (default r2 transmitted) r3 r4 r5) /\
    told es (F1uDu.mk_report size r2 r3 r4 r5) = F1uDu.mk_report size (default r2 transmitted) r3 r4 r5 /\ cu_sdus es = [])).
  { destruct transmitted as [v|]; [|by wp_step]. do 2 wp_step. rewrite H2. destruct (Z.eqb_spec v r2) as [->|]; cbn [negb when]; [by wp_step|]. do 4 wp_step. done. }
  intros [] e1 es1 ((I1 & I2 & I3) & T1 & S1). cbv beta. wp_step.
  apply (wp_mono _ (fun _ e2 es => in_step e2 (F1uDu.mk_report size (default r2 transmitted) (default r3 delivered) r4 r5) /\
    told es (F1uDu.mk_report size (default r2 transmitted) r3 r4 r5) = F1uDu.mk_report size (default r2 transmitted) (default r3 delivered) r4 r5 /\ cu_sdus es = [])).
  { destruct delivered as [v|]; [|by wp_step]. do 2 wp_step. cbn in I3. rewrite I3. destruct (Z.eqb_spec v r3) as [->|]; cbn [negb when]; [by wp_step|]. do 3 wp_step. done. }
  intros [] e2 es2 ((J1 & J2 & J3) & T2 & S2). cbv beta. destruct retx, dretx; wp_steps; cbn [default]; (split; [done|]);
    change (on_desired_buffer_size_notification size :: ?l) with ([on_desired_buffer_size_notification size] ++ l);
    rewrite !told_app, !cu_sdus_app, S1, S2; change (told [_] (F1uDu.mk_report r1 r2 r3 r4 r5)) with (F1uDu.mk_report size r2 r3 r4 r5); by rewrite T1, T2.
Qed.

Lemma wp_cu_receive m e r : in_step e r -> wp (handle_pdu_impl all_taken m) (fun _ e' es => in_step e' (note_ul r m) /\ told es r = note_ul r m /\ cu_sdus es = ul_sdus [m]) e.
Proof.
  intros Hi. unfold handle_pdu_impl. do 2 wp_step. rewrite (proj1 Hi). wp_step.
  apply (wp_mono _ (fun _ e' es => e' = e /\ told es r = r /\ cu_sdus es = ul_sdus [m])).
  { cbn [ul_sdus omap list_omap]. destruct (ul_t_pdu m) as [[|b l]|]; by wp_steps. }
  intros [] e1 es1 (-> & T & S). cbv beta. unfold note_ul. destruct (data_delivery_status m) as [s|]; [|wp_step; by rewrite app_nil_r].
  eapply wp_mono; [by apply wp_handle_status|]. intros [] e2 es2 (I2 & T2 & S2). split; [done|]. cbn [app]. by rewrite told_app, cu_sdus_app, T, S, S2, app_nil_r.
Qed.

Lemma wp_cu_receive_all ms e r : in_step e r ->
  wp (cu_receive_all ms) (fun _ e' es => in_step e' (note_all ms r) /\ told es r = note_all ms r /\ cu_sdus es = ul_sdus ms) e.
Proof.
  intros Hi. unfold cu_receive_all, dispatch_fn. apply (wp_for_each (fun ms' e' es => exists ms0, ms = ms0 ++ ms' /\ in_step e' (note_all ms0 r) /\ told es r = note_all ms0 r /\ cu_sdus es = ul_sdus ms0)).
  - by exists [].
  - intros e' es (ms0 & -> & H). by rewrite app_nil_r.
  - intros m ms' e' es (ms0 & -> & I & T & S). eapply wp_mono; [by apply wp_cu_receive|]. intros [] e2 es2 (I2 & T2 & S2). exists (ms0 ++ [m]). rewrite <- app_assoc. split; [done|].
    rewrite note_all_app, told_app, cu_sdus_app, ul_sdus_app, T, S, S2. done.
Qed.

(** ** End to end *)

Lemma linked_ul_told {L : F1uLink} ms r : Forall ul_message_ok ms -> note_all (linked_ul ms) r = note_all ms r /\ ul_sdus (linked_ul ms) = ul_sdus ms.
Proof.
  intros Hms. revert r. induction Hms as [|m ms Hm _ IH]; intros r; [done|]. destruct (link_ul_content m Hm) as (m' & E & Hc).
  assert (linked_ul (m :: ms) = [m'] ++ linked_ul ms) as -> by (unfold linked_ul; cbn; by rewrite E). change (m :: ms) with ([m] ++ ms).
  rewrite !note_all_app, !ul_sdus_app. destruct (IH (note_all [m] r)) as [IH1 IH2]. injection Hc as Hc1 Hc2.
  assert (note_all [m'] r = note_all [m] r) as -> by (cbn; unfold note_ul; by rewrite Hc2). assert (ul_sdus [m'] = ul_sdus [m]) as -> by (cbn; by rewrite Hc1). by rewrite IH1, IH2.
Qed.

(** C22: Over any link that passes messages on, in runs without stop or flush in which the tasks deferred are taken: the notification timer
    of a DU bearer configured not to buffer at startup always runs, and after its next expiry, once the messages sent so far have been received,
    the PDCP in the CU-UP has been told last exactly the reports the lower layers of the DU made last, and has received the uplink SDUs given to
    the DU, in order and once. *)
Theorem f1u_status_end_to_end {L : F1uLink} config du os ms cu_config cu : du_run config du os ms -> F1uCuUp.create cu_config = Some cu ->
  is_running (F1uDu.ul_notif_timer du) = true /\
  exists du' es, F1uDu.ul_notif_timeout (tm_cmd_id (F1uDu.ul_notif_timer du)) du = Ok (tt, du', es) /\
  exists cu' es', cu_receive_all (linked_ul (ms ++ ul_pdus es)) cu = Ok (tt, cu', es') /\
    told es' nothing_told = F1uDu.current du /\ cu_sdus es' = os ≫= op_ul_sdus.
Proof.
  intros Hrun Hcu. pose proof (du_run_history config du os ms Hrun) as [H1 H2 H3 H4 H5 H6]. split; [done|].
  assert (wp (F1uDu.ul_notif_timeout (tm_cmd_id (F1uDu.ul_notif_timer du)))
    (fun _ du' es => du_tells du du' es /\ F1uDu.notif du' = F1uDu.current du /\ ul_sdus (ul_pdus es) = []) du) as Hw.
  { unfold F1uDu.ul_notif_timeout. do 3 wp_step. apply wp_timeout_task; [done| |done]. intros _. do 2 wp_step. cbn [fst snd when app]. unfold F1uDu.on_expired_ul_notif_timer. wp_step.
    set (e1 := F1uDu.set_ul_notif_timer _ du). assert (du_reports_ok e1) as He1 by (by destruct H1). eapply wp_mono; [by apply (wp_send_status false e1)|].
    intros b e' es (G1 & G2 & G3 & _ & _ & _ & G7). wp_step. rewrite app_nil_r. split; [exact G1|]. split; [|done]. rewrite G2. unfold du_part in G3. cbn in G3. congruence. }
  apply wp_run in Hw as ([] & du' & es & Ed & (_ & G2 & G3) & Gn & Gs). exists du', es. split; [exact Ed|].
  assert (in_step cu nothing_told) as Hi by (unfold F1uCuUp.create in Hcu; destruct (_ <? _); [done|]; by injection Hcu as <-).
  destruct (linked_ul_told (ms ++ ul_pdus es) nothing_told) as [L1 L2]; [by apply Forall_app|].
  destruct (proj1 (wp_run _ _ _) (wp_cu_receive_all (linked_ul (ms ++ ul_pdus es)) cu nothing_told Hi)) as ([] & cu' & es' & Ec & _ & T & S).
  exists cu', es'. split; [exact Ec|]. rewrite T, S, L1, L2, note_all_app, ul_sdus_app, H5, H6, G3, Gs, Gn, app_nil_r. done.
Qed.

(** ** Concrete runs *)

Fixpoint cu_exec (os : list cu_op) (s : f1u_bearer * list nru_dl_message) : option (f1u_bearer * list nru_dl_message) :=
  match os with
  | [] => Some s
  | o :: os => match cu_perform o (fst s) with Ok (_, e', es) => cu_exec os (e', snd s ++ sent_pdus es) | Fault _ => None end
  end.
Fixpoint du_exec (os : list du_op) (s : F1uDu.f1u_bearer * list nru_ul_message) : option (F1uDu.f1u_bearer * list nru_ul_message) :=
  match os with
  | [] => Some s
  | o :: os => match du_perform o (fst s) with Ok (_, e', es) => du_exec os (e', snd s ++ ul_pdus es) | Fault _ => None end
  end.

Definition example_link : F1uLink := nru_tunnels 1 2 ltac:(split; vm_compute; congruence) ltac:(split; vm_compute; congruence).
Definition example_cu_ops : list cu_op := [cu_sdu [1; 2] false; cu_discard 5; cu_sdu [3] true; cu_discard 6].
Definition example_du_ops : list du_op := [du_sdu [7]; du_transmitted 4 500000; du_delivered 3].

Lemma example_cu_run : exists cu ms, cu_run (mk_config 10 8192 256) cu example_cu_ops ms.
Proof.
  unfold example_cu_ops. change [cu_sdu [1; 2] false; cu_discard 5; cu_sdu [3] true; cu_discard 6] with ((([] ++ [cu_sdu [1; 2] false]) ++ [cu_discard 5]) ++ [cu_sdu [3] true] ++ [cu_discard 6]). rewrite (app_assoc _ [_] [_]).
  do 2 eexists. eapply cr_step; [eapply cr_step; [eapply cr_step; [eapply cr_step; [apply cr_create; [|reflexivity]; done| |reflexivity]| |reflexivity]| |reflexivity]| |reflexivity].
  - repeat (apply Forall_cons; split; [by split|]). apply Forall_nil. exact I.
  - split; [by split|]. intros b Hb. discriminate Hb.
  - repeat (apply Forall_cons; split; [by split|]). apply Forall_nil. exact I.
  - split; [by split|]. intros b Hb. discriminate Hb.
Qed.

Lemma f1u_downlink_end_to_end_witness : exists ms du' es,
  du_receive_all (linked_dl (L := example_link) ms) example_du = Ok (tt, du', es) /\ delivered_sdus es = [([1; 2], false); ([3], true)].
Proof.
  destruct example_cu_run as (cu & ms & Hrun). destruct (f1u_downlink_end_to_end (L := example_link) _ cu _ ms example_du Hrun) as (du' & es & H1 & H2 & _).
  - constructor; try done. split; [by split|]. repeat split; by left.
  - exists ms, du', es. split; [exact H1|exact H2].
Defined.

Lemma example_du_run : exists du ms, du_run (F1uDu.mk_config 10 1000000 false 4096) du example_du_ops ms.
Proof.
  unfold example_du_ops. change [du_sdu [7]; du_transmitted 4 500000; du_delivered 3] with ((([] ++ [du_sdu [7]]) ++ [du_transmitted 4 500000]) ++ [du_delivered 3]).
  do 2 eexists. eapply dr_step; [eapply dr_step; [eapply dr_step; [apply dr_create; [done|by split|reflexivity]| |reflexivity]| |reflexivity]| |reflexivity].
  - repeat (apply Forall_cons; split; [by split|]). apply Forall_nil. exact I.
  - by repeat split.
  - by split.
Qed.

Lemma f1u_status_end_to_end_witness : exists du ms cu' es', du_run (F1uDu.mk_config 10 1000000 false 4096) du example_du_ops ms /\
  (exists ms', cu_receive_all (linked_ul (L := example_link) ms') example_cu = Ok (tt, cu', es')) /\ told es' nothing_told = F1uDu.current du /\ cu_sdus es' = [[7]].
Proof.
  destruct example_du_run as (du & ms & Hrun). destruct (f1u_status_end_to_end (L := example_link) _ du _ ms (mk_config 10 8192 256) example_cu Hrun) as (_ & du' & es & _ & cu' & es' & H1 & H2 & H3).
  - reflexivity.
  - exists du, ms, cu', es'. split; [exact Hrun|]. split; [eexists; exact H1|]. split; [exact H2|exact H3].
Defined.
