(* ===== verification/PdcpSn.v ===== *)
(** * PDCP sequence number of an RLC SDU

    Models [get_pdcp_sn] of [include/srsran/pdcp/pdcp_sn_util.h] on the bit-wise reader
    [bit_decoder] of [BitEncoding]. *)

From S2P Require Import Prelude BitEncoding.
Open Scope Z_scope.

Inductive pdcp_sn_size := pdcp_size12bits | pdcp_size18bits | pdcp_size_invalid.

#[export] Instance pdcp_sn_size_eq_dec : EqDecision pdcp_sn_size.
Proof. solve_decision. Defined.

(** [None] for control PDUs, reserved bits and PDUs that are too short. *)
Definition get_pdcp_sn (pdcp_pdu : list Z) (pdcp_sn_len : pdcp_sn_size) (is_srb : bool) : option Z :=
  match pdcp_pdu with
  | [] => None
  | _ =>
      if is_srb && negb (bool_decide (pdcp_sn_len = pdcp_size12bits)) then None else
      let '(dc_field, read_ok, d) := unpack_uint 8 (new_decoder pdcp_pdu) 1 in
      if negb read_ok then None else
      if negb is_srb && (dc_field =? 0) then None else
      if is_srb && (dc_field =? 1) then None else
      let fields :=
        match pdcp_sn_len with
        | pdcp_size12bits => Some (3, 12)
        | pdcp_size18bits => Some (5, 18)
        | pdcp_size_invalid => None
        end in
      match fields with
      | None => None
      | Some (n_reserved, n_sn) =>
          let '(reserved, ok1, d) := unpack_uint 8 d n_reserved in
          let '(pdcp_sn, ok2, d) := unpack_uint 32 d n_sn in
          if negb (ok1 && ok2) then None else
          if negb (reserved =? 0) then None else
          Some pdcp_sn
      end
  end.

(** ** Reference: the fields of a PDCP data PDU header read off its octets (TS 38.323, 6.2.2) *)
Definition pdcp_sn_spec (pdcp_pdu : list Z) (pdcp_sn_len : pdcp_sn_size) (is_srb : bool) : option Z :=
  match pdcp_sn_len, pdcp_pdu with
  | pdcp_size12bits, b0 :: b1 :: _ =>
      if b0 / 16 =? (if is_srb then 0 else 8) then Some ((b0 mod 16) * 256 + b1) else None
  | pdcp_size18bits, b0 :: b1 :: b2 :: _ =>
      if negb is_srb && (b0 / 4 =? 32) then Some ((b0 mod 4) * 65536 + b1 * 256 + b2) else None
  | _, _ => None
  end.

(** The first octet is one of 256 values; the others enter the number unchanged. *)
Lemma octet_low_mask b : 0 <= b < 256 -> Z.land b 255 = b.
Proof. intros. rewrite land_255. by apply Z.mod_small. Qed.

Lemma sn12_first_octet b0 : is_byte b0 ->
  (Z.shiftr (u8 (Z.land b0 128)) 7 = b0 / 128) /\ Z.shiftr (u8 (Z.land b0 112)) 4 = b0 / 16 mod 8.
Proof.
  intros Hb. pose proof (byte_forall (fun b =>
    (Z.shiftr (u8 (Z.land b 128)) 7 =? b / 128) && (Z.shiftr (u8 (Z.land b 112)) 4 =? b / 16 mod 8))) as F.
  specialize (F eq_refl b0 Hb). apply andb_true_iff in F as [F1 F2]. by apply Z.eqb_eq in F1, F2.
Qed.

Lemma sn18_first_octet b0 : is_byte b0 -> Z.shiftr (u8 (Z.land b0 124)) 2 = b0 / 4 mod 32.
Proof.
  intros Hb. apply Z.eqb_eq.
  by apply (byte_forall (fun b => Z.shiftr (u8 (Z.land b 124)) 2 =? b / 4 mod 32)).
Qed.

#[local] Arguments Z.shiftr : simpl never.
#[local] Arguments Z.shiftl : simpl never.
#[local] Arguments Z.land : simpl never.
#[local] Arguments Z.modulo : simpl never.
#[local] Arguments Z.div : simpl never.
#[local] Arguments Z.mul : simpl never.
#[local] Arguments u8 : simpl never.

(** Masks and shift amounts of a step are constants once the offset is known. *)
Ltac step_constants :=
  repeat match goal with
  | |- context [Z.land ?b ?m] => lazymatch m with Zpos _ => fail | _ => let v := eval vm_compute in m in change m with v end
  | |- context [Z.shiftr ?b ?m] => lazymatch m with Zpos _ => fail | Z0 => fail | _ => let v := eval vm_compute in m in change m with v end
  | |- context [Z.shiftl ?b ?m] => lazymatch m with Zpos _ => fail | Z0 => fail | _ => let v := eval vm_compute in m in change m with v end
  end; rewrite ?Z.add_0_l.

(** Single steps of the reader at the offsets the header uses. *)
Lemma unpack_dc b0 rest : is_byte b0 ->
  unpack_uint 8 (new_decoder (b0 :: rest)) 1 = (b0 / 128, true, mk_decoder (b0 :: rest) 1).
Proof.
  intros Hb. unfold unpack_uint, new_decoder. simpl. step_constants.
 rewrite (proj1 (sn12_first_octet b0 Hb)).
  f_equal. f_equal. unfold is_byte in Hb. zmod.
Qed.

Lemma unpack_reserved3 b0 rest : is_byte b0 ->
  unpack_uint 8 (mk_decoder (b0 :: rest) 1) 3 = (b0 / 16 mod 8, true, mk_decoder (b0 :: rest) 4).
Proof.
  intros Hb. unfold unpack_uint. simpl. step_constants.
 rewrite (proj2 (sn12_first_octet b0 Hb)).
  f_equal. f_equal. zmod.
Qed.

Lemma unpack_reserved5 b0 rest : is_byte b0 ->
  unpack_uint 8 (mk_decoder (b0 :: rest) 1) 5 = (b0 / 4 mod 32, true, mk_decoder (b0 :: rest) 6).
Proof.
  intros Hb. unfold unpack_uint. simpl. step_constants.
 rewrite (sn18_first_octet b0 Hb).
  f_equal. f_equal. zmod.
Qed.

Lemma unpack_sn12 b0 b1 rest : is_byte b0 -> is_byte b1 ->
  unpack_uint 32 (mk_decoder (b0 :: b1 :: rest) 4) 12 =
    ((b0 mod 16) * 256 + b1, true, mk_decoder rest 0).
Proof.
  unfold is_byte. intros H0 H1. unfold unpack_uint. simpl. step_constants.
  rewrite land_15, octet_low_mask, Z.shiftl_0_r, Z.shiftl_mul_pow2 by lia.
  f_equal. f_equal. zmod.
Qed.

Lemma unpack_sn18 b0 b1 b2 rest : is_byte b0 -> is_byte b1 -> is_byte b2 ->
  unpack_uint 32 (mk_decoder (b0 :: b1 :: b2 :: rest) 6) 18 =
    ((b0 mod 4) * 65536 + b1 * 256 + b2, true, mk_decoder rest 0).
Proof.
  unfold is_byte. intros H0 H1 H2. unfold unpack_uint. simpl. step_constants.
  rewrite land_3, !octet_low_mask, Z.shiftl_0_r, !Z.shiftl_mul_pow2 by lia.
  f_equal. f_equal. zmod.
Qed.

Lemma unpack_sn12_short b0 : exists v d, unpack_uint 32 (mk_decoder [b0] 4) 12 = (v, false, d).
Proof. unfold unpack_uint. simpl. eauto. Qed.
Lemma unpack_sn18_short b0 bs : (length bs < 2)%nat ->
  exists v d, unpack_uint 32 (mk_decoder (b0 :: bs) 6) 18 = (v, false, d).
Proof.
  intros Hl. destruct bs as [|b1 [|b2 bs]]; simpl in Hl; try lia; unfold unpack_uint; simpl; eauto.
Qed.

Lemma first_octet_cases b0 : is_byte b0 ->
  (b0 / 16 =? 0) = (b0 / 128 =? 0) && (b0 / 16 mod 8 =? 0) /\
  (b0 / 16 =? 8) = negb (b0 / 128 =? 0) && (b0 / 16 mod 8 =? 0) /\
  (b0 / 4 =? 32) = negb (b0 / 128 =? 0) && (b0 / 4 mod 32 =? 0) /\
  (b0 / 128 =? 1) = negb (b0 / 128 =? 0).
Proof.
  unfold is_byte. intros Hb.
  repeat split; apply eq_true_iff_eq; rewrite ?andb_true_iff, ?negb_true_iff, ?Z.eqb_eq, ?Z.eqb_neq; zmod.
Qed.

#[local] Opaque unpack_uint.

Lemma get_pdcp_sn_spec pdu len is_srb :
  Forall is_byte pdu -> get_pdcp_sn pdu len is_srb = pdcp_sn_spec pdu len is_srb.
Proof.
  intros Hb. destruct pdu as [|b0 bs]; [by destruct len|]. apply Forall_cons in Hb as [H0 Hb].
  destruct (first_octet_cases b0 H0) as (F0 & F8 & F32 & F1).
  unfold get_pdcp_sn. rewrite unpack_dc by done. simpl.
  destruct len; simpl; [| |destruct is_srb; simpl; repeat case_match; done].
  - rewrite andb_false_r, F1. rewrite unpack_reserved3 by done.
    destruct bs as [|b1 bs].
    + destruct (unpack_sn12_short b0) as (v & d & ->). simpl.
      destruct is_srb, (b0 / 128 =? 0); done.
    + apply Forall_cons in Hb as [H1 _]. rewrite unpack_sn12 by done. simpl.
      destruct is_srb; simpl; rewrite ?F0, ?F8; destruct (b0 / 128 =? 0), (b0 / 16 mod 8 =? 0); done.
  - rewrite andb_true_r. destruct is_srb; simpl.
    { destruct bs as [|b1 [|b2 bs]]; done. }
    rewrite unpack_reserved5 by done.
    destruct bs as [|b1 [|b2 bs]].
    + destruct (unpack_sn18_short b0 []) as (v & d & ->); [simpl; lia|]. simpl.
      by destruct (b0 / 128 =? 0).
    + destruct (unpack_sn18_short b0 [b1]) as (v & d & ->); [simpl; lia|]. simpl.
      by destruct (b0 / 128 =? 0).
    + apply Forall_cons in Hb as [H1 Hb]. apply Forall_cons in Hb as [H2 _].
      rewrite unpack_sn18 by done. simpl. rewrite F32.
      by destruct (b0 / 128 =? 0), (b0 / 4 mod 32 =? 0).
Qed.

Lemma get_pdcp_sn_range pdu len is_srb sn :
  Forall is_byte pdu -> get_pdcp_sn pdu len is_srb = Some sn -> 0 <= sn < 2 ^ 18.
Proof.
  intros Hb. rewrite get_pdcp_sn_spec by done. unfold pdcp_sn_spec.
  assert (forall b, In b pdu -> 0 <= b < 256) as Hin.
  { intros b Hi. rewrite Forall_forall in Hb. apply Hb. by apply list_elem_of_In. }
  destruct len, pdu as [|b0 [|b1 [|b2 pdu]]]; try done; simpl in Hin;
    pose proof (Hin b0 (or_introl eq_refl)); pose proof (Hin b1 (or_intror (or_introl eq_refl)));
    try (pose proof (Hin b2 (or_intror (or_intror (or_introl eq_refl)))));
    intros Heq; repeat case_match; simplify_eq; zmod.
Qed.

(** the bit-wise reader extracts the PDCP SN exactly where the PDCP header of the bearer type and
    SN length carries it, and nothing from control PDUs, PDUs with reserved bits and short PDUs. *)
Theorem pdcp_sn_reference pdu len is_srb :
  Forall is_byte pdu -> get_pdcp_sn pdu len is_srb = pdcp_sn_spec pdu len is_srb.
Proof. apply get_pdcp_sn_spec. Qed.

Lemma pdcp_sn_reference_witness :
  get_pdcp_sn [0x82; 0x01; 0x07; 0x55] pdcp_size18bits false = Some (2 * 65536 + 256 + 7).
Proof.
  rewrite (pdcp_sn_reference [0x82; 0x01; 0x07; 0x55] pdcp_size18bits false); [reflexivity|].
  repeat (apply Forall_cons; split; [split; [discriminate|reflexivity]|]). apply Forall_nil. exact I.
Defined.
