(* ===== verification/Snow3g.v ===== *)
(** * SNOW 3G and the MAC f9

    Models [lib/security/s3g.cpp]: the key stream generator and the 128-NIA1 message authentication
    code on top of it.  The state's two arrays are lists; the tables of [s3g_PRE_MUL_P] are one map
    from row and column.  The routine with tables for S-boxes and multiplications equals the bit-wise
    definitions that the specification of UEA2 and UIA2 gives, which the file keeps beside it. *)

From Stdlib Require Import Btauto.
From S2P Require Import Prelude Snow3gTables.
Open Scope Z_scope.

Definition u64 (x : Z) : Z := x mod 2 ^ 64.

(** ** The generator *)

Record S3G_STATE := mk_s3g { lfsr : list Z; fsm : list Z }.

Definition s3g_mul_x (v c : Z) : Z :=
  if Z.land v 0x80 =? 0 then u8 (Z.shiftl v 1) else u8 (Z.lxor (Z.shiftl v 1) c).

Fixpoint s3g_mul_x_pow (v : Z) (i : nat) (c : Z) : Z :=
  match i with O => v | S i' => s3g_mul_x (s3g_mul_x_pow v i' c) c end.

Definition s3g_mul_alpha (c : Z) : Z := word MUL_ALPHA c.
Definition s3g_div_alpha (c : Z) : Z := word DIV_ALPHA c.

Definition s3g_s1 (w : Z) : Z :=
  Z.lxor (Z.lxor (Z.lxor (word S1_T0 (Z.land w 0xff)) (word S1_T1 (Z.land (Z.shiftr w 8) 0xff)))
    (word S1_T2 (Z.land (Z.shiftr w 16) 0xff))) (word S1_T3 (Z.land (Z.shiftr w 24) 0xff)).

Definition s3g_s2 (w : Z) : Z :=
  Z.lxor (Z.lxor (Z.lxor (word S2_T0 (Z.land w 0xff)) (word S2_T1 (Z.land (Z.shiftr w 8) 0xff)))
    (word S2_T2 (Z.land (Z.shiftr w 16) 0xff))) (word S2_T3 (Z.land (Z.shiftr w 24) 0xff)).

Definition s3g_clock_lfsr (state : S3G_STATE) (f : Z) : S3G_STATE :=
  let v :=
    Z.lxor (Z.lxor (Z.lxor (Z.lxor (Z.lxor
      (Z.land (Z.shiftl (word (lfsr state) 0) 8) 0xffffff00)
      (s3g_mul_alpha (Z.land (Z.shiftr (word (lfsr state) 0) 24) 0xff)))
      (word (lfsr state) 2))
      (Z.land (Z.shiftr (word (lfsr state) 11) 8) 0x00ffffff))
      (s3g_div_alpha (Z.land (word (lfsr state) 11) 0xff))) f in
  mk_s3g (drop 1 (lfsr state) ++ [v]) (fsm state).

(** The new state and the output word. *)
Definition s3g_clock_fsm (state : S3G_STATE) : S3G_STATE * Z :=
  let f := Z.lxor (Z.land (word (lfsr state) 15 + word (fsm state) 0) 0xffffffff) (word (fsm state) 1) in
  let r := Z.land (word (fsm state) 1 + Z.lxor (word (fsm state) 2) (word (lfsr state) 5)) 0xffffffff in
  (mk_s3g (lfsr state) [r; s3g_s1 (word (fsm state) 0); s3g_s2 (word (fsm state) 1)], f).

(** The rounds of the initialization. *)
Fixpoint s3g_init_rounds (n : nat) (state : S3G_STATE) : S3G_STATE :=
  match n with
  | O => state
  | S n' => let '(state, f) := s3g_clock_fsm state in s3g_init_rounds n' (s3g_clock_lfsr state f)
  end.

Definition s3g_initialize (k iv : list Z) : S3G_STATE :=
  let ones := 0xffffffff in
  s3g_init_rounds 32 (mk_s3g
    [Z.lxor (word k 0) ones; Z.lxor (word k 1) ones; Z.lxor (word k 2) ones; Z.lxor (word k 3) ones;
     word k 0; word k 1; word k 2; word k 3;
     Z.lxor (word k 0) ones; Z.lxor (Z.lxor (word k 1) ones) (word iv 3);
     Z.lxor (Z.lxor (word k 2) ones) (word iv 2); Z.lxor (word k 3) ones;
     Z.lxor (word k 0) (word iv 1); word k 1; word k 2; Z.lxor (word k 3) (word iv 0)]
    [0; 0; 0]).

Fixpoint s3g_keystream (n : nat) (state : S3G_STATE) : list Z :=
  match n with
  | O => []
  | S n' =>
      let '(state, f) := s3g_clock_fsm state in
      Z.lxor f (word (lfsr state) 0) :: s3g_keystream n' (s3g_clock_lfsr state 0)
  end.

(** The first output of the FSM is discarded. *)
Definition s3g_generate_keystream (state : S3G_STATE) (n : Z) : list Z :=
  s3g_keystream (Z.to_nat n) (s3g_clock_lfsr (fst (s3g_clock_fsm state)) 0).

(** ** Multiplication in GF(2^64) *)

Definition s3g_MUL64x (V c : Z) : Z :=
  if Z.land V 0x8000000000000000 =? 0 then u64 (Z.shiftl V 1) else Z.lxor (u64 (Z.shiftl V 1)) c.

Fixpoint s3g_MUL64xPOW (V : Z) (i : nat) (c : Z) : Z :=
  match i with O => V | S i' => s3g_MUL64x (s3g_MUL64xPOW V i' c) c end.

Definition s3g_MUL64 (V P c : Z) : Z :=
  fold_left (fun result i =>
    if Z.land (Z.shiftr P i) 1 =? 0 then result else Z.lxor result (s3g_MUL64xPOW V (Z.to_nat i) c)) (seqZ 0 64) 0.

(** [PM[i][j]]. *)
Definition pm_get (PM : gmap (Z * Z) Z) (i j : Z) : Z := default 0 (PM !! (i, j)).

Definition pre_mul_power (c : Z) (PM : gmap (Z * Z) Z) (i : Z) : gmap (Z * Z) Z :=
  let a := pm_get PM (Z.shiftr (i - 1) 3) (Z.shiftl 1 (Z.land (i - 1) 7)) in
  let x := u64 (Z.shiftl a 1) in
  let x := if Z.land a 0x8000000000000000 =? 0 then x else Z.lxor x c in
  <[(Z.shiftr i 3, Z.shiftl 1 (Z.land i 7)) := x]> PM.

Definition pre_mul_sum (i j : Z) (PM : gmap (Z * Z) Z) (k : Z) : gmap (Z * Z) Z :=
  <[(i, Z.shiftl 1 j + k) := Z.lxor (pm_get PM i (Z.shiftl 1 j)) (pm_get PM i k)]> PM.

Definition s3g_PRE_MUL_P (P c : Z) : gmap (Z * Z) Z :=
  let PM := fold_left (fun PM i => <[(i, 0) := 0]> PM) (seqZ 0 8) ∅ in
  let PM := <[(0, 1) := P]> PM in
  let PM := fold_left (pre_mul_power c) (seqZ 1 63) PM in
  fold_left (fun PM i =>
    fold_left (fun PM j => fold_left (pre_mul_sum i j) (seqZ 1 (Z.shiftl 1 j - 1)) PM) (seqZ 1 7) PM) (seqZ 0 8) PM.

Definition s3g_MUL_P (PM : gmap (Z * Z) Z) (X : Z) : Z :=
  fold_left (fun r i => Z.lxor r (pm_get PM i (Z.land (Z.shiftr X (8 * i)) 0xff))) (seqZ 0 8) 0.

(** ** The MAC f9 *)

Definition mask8bit (n : Z) : Z := Z.lxor 0xff (Z.shiftl 1 (8 - n) - 1).

(** Eight octets as a word. *)
Definition word64 (data : list Z) (at_ : Z) : Z :=
  fold_left (fun r i => Z.lor r (Z.shiftl (word data (at_ + i)) (56 - 8 * i))) (seqZ 0 8) 0.

(** The octets and bits of the last block, [length] bits in all. *)
Definition last_block (data : list Z) (at_ rem_bits : Z) : Z :=
  let full := rem_bits / 8 in
  let rest := rem_bits mod 8 in
  let m := fold_left (fun r i => Z.lor r (Z.shiftl (word data (at_ + i)) (8 * (7 - i)))) (seqZ 0 full) 0 in
  if 0 <? rest then Z.lor m (Z.shiftl (Z.land (word data (at_ + full)) (mask8bit rest)) (8 * (7 - full))) else m.

(** Callers authenticate at least one bit. *)
Definition s3g_f9 (key : list Z) (count fresh dir : Z) (data : list Z) (length : Z) : list Z :=
  let kword i := Z.lxor (Z.lxor (Z.lxor (Z.shiftl (word key (4 * i)) 24) (Z.shiftl (word key (4 * i + 1)) 16))
                   (Z.shiftl (word key (4 * i + 2)) 8)) (word key (4 * i + 3)) in
  let K := [kword 3; kword 2; kword 1; kword 0] in
  let IV := [Z.lxor fresh (u32 (Z.shiftl dir 15)); Z.lxor count (u32 (Z.shiftl dir 31)); fresh; count] in
  let z := s3g_generate_keystream (s3g_initialize K IV) 5 in
  let P := Z.lor (Z.shiftl (word z 0) 32) (word z 1) in
  let Q := Z.lor (Z.shiftl (word z 2) 32) (word z 3) in
  let D := if length mod 64 =? 0 then Z.shiftr length 6 + 1 else Z.shiftr length 6 + 2 in
  let c := 0x1b in
  let PM := s3g_PRE_MUL_P P c in
  let EVAL := fold_left (fun EVAL i => s3g_MUL_P PM (Z.lxor EVAL (word64 data (8 * i)))) (seqZ 0 (D - 2)) 0 in
  let rem_bits := if length mod 64 =? 0 then 64 else length mod 64 in
  let EVAL := s3g_MUL_P PM (Z.lxor EVAL (last_block data (8 * (D - 2)) rem_bits)) in
  let EVAL := s3g_MUL64 (Z.lxor EVAL length) Q c in
  map (fun i => Z.land (Z.lxor (Z.shiftr EVAL (56 - 8 * i)) (Z.shiftr (word z 4) (24 - 8 * i))) 0xff) (seqZ 0 4).

(** ** Bit-wise definitions

    S-boxes and multiplications as the specification gives them. *)

Definition concat4 (r0 r1 r2 r3 : Z) : Z := Z.lor (Z.lor (Z.lor (Z.shiftl r0 24) (Z.shiftl r1 16)) (Z.shiftl r2 8)) r3.

(** S1 with the Rijndael box and 0x1b, S2 with SQ and 0x69. *)
Definition sbox_reference (box : list Z) (c w : Z) : Z :=
  let q i := word box (Z.land (Z.shiftr w (24 - 8 * i)) 0xff) in
  let m i := s3g_mul_x (q i) c in
  concat4
    (Z.lxor (Z.lxor (Z.lxor (Z.lxor (m 0) (q 1)) (q 2)) (m 3)) (q 3))
    (Z.lxor (Z.lxor (Z.lxor (Z.lxor (m 0) (q 0)) (m 1)) (q 2)) (q 3))
    (Z.lxor (Z.lxor (Z.lxor (Z.lxor (q 0) (m 1)) (q 1)) (m 2)) (q 3))
    (Z.lxor (Z.lxor (Z.lxor (Z.lxor (q 0) (q 1)) (m 2)) (q 2)) (m 3)).

Definition mul_alpha_reference (c : Z) : Z :=
  concat4 (s3g_mul_x_pow c 23 0xa9) (s3g_mul_x_pow c 245 0xa9) (s3g_mul_x_pow c 48 0xa9) (s3g_mul_x_pow c 239 0xa9).
Definition div_alpha_reference (c : Z) : Z :=
  concat4 (s3g_mul_x_pow c 16 0xa9) (s3g_mul_x_pow c 39 0xa9) (s3g_mul_x_pow c 6 0xa9) (s3g_mul_x_pow c 64 0xa9).

Lemma lxor_range n a b : 0 <= n -> 0 <= a < 2 ^ n -> 0 <= b < 2 ^ n -> 0 <= Z.lxor a b < 2 ^ n.
Proof.
  intros Hn Ha Hb. assert (Z.lxor a b = Z.lxor a b mod 2 ^ n) as ->; [|apply Z.mod_pos_bound; lia].
  apply Z.bits_inj'. intros i Hi. destruct (Z.lt_ge_cases i n); [by rewrite Z.mod_pow2_bits_low|].
  rewrite Z.mod_pow2_bits_high, Z.lxor_spec by lia.
  by rewrite <- (Z.mod_small a (2 ^ n)), <- (Z.mod_small b (2 ^ n)), !Z.mod_pow2_bits_high by lia.
Qed.

(** The four octets as an exclusive or: linear, so that the octets of a sum are sums of octets. *)
Definition xor4 (r0 r1 r2 r3 : Z) : Z := Z.lxor (Z.lxor (Z.lxor (Z.shiftl r0 24) (Z.shiftl r1 16)) (Z.shiftl r2 8)) r3.

Lemma lor_shiftl_lxor a b n : 0 <= n -> 0 <= b < 2 ^ n -> Z.lor (Z.shiftl a n) b = Z.lxor (Z.shiftl a n) b.
Proof.
  intros Hn Hb. rewrite lor_shiftl_add by done. rewrite <- Z.shiftl_mul_pow2 by done.
  rewrite Z.add_nocarry_lxor; [done|]. apply Z.bits_inj'. intros i Hi. rewrite Z.land_spec, Z.bits_0.
  destruct (Z.lt_ge_cases i n); [by rewrite Z.shiftl_spec_low|].
  by rewrite <- (Z.mod_small b (2 ^ n)), Z.mod_pow2_bits_high, andb_false_r by lia.
Qed.

Lemma concat4_xor4 r0 r1 r2 r3 : is_byte r1 -> is_byte r2 -> is_byte r3 -> concat4 r0 r1 r2 r3 = xor4 r0 r1 r2 r3.
Proof.
  unfold is_byte, concat4, xor4. intros H1 H2 H3.
  assert (forall a b n, 0 <= n -> Z.lor (Z.shiftl a (8 + n)) (Z.shiftl b n) = Z.shiftl (Z.lor (Z.shiftl a 8) b) n) as Hor.
  { intros. by rewrite Z.shiftl_lor, Z.shiftl_shiftl by lia. }
  assert (forall a b n, 0 <= n -> Z.lxor (Z.shiftl a (8 + n)) (Z.shiftl b n) = Z.shiftl (Z.lxor (Z.shiftl a 8) b) n) as Hxor.
  { intros. by rewrite Z.shiftl_lxor, Z.shiftl_shiftl by lia. }
  specialize (fun a b => Hor a b 16) as Hor16. specialize (fun a b => Hxor a b 16) as Hxor16.
  specialize (fun a b => Hor a b 8) as Hor8. specialize (fun a b => Hxor a b 8) as Hxor8. simpl Z.add in *.
  rewrite Hor16, Hxor16, Hor8, Hxor8 by lia. rewrite (lor_shiftl_lxor r0 r1 8) by lia.
  rewrite (lor_shiftl_lxor _ r2 8) by lia.
  by rewrite (lor_shiftl_lxor _ r3 8) by lia.
Qed.

Lemma xor4_lxor a0 a1 a2 a3 b0 b1 b2 b3 :
  Z.lxor (xor4 a0 a1 a2 a3) (xor4 b0 b1 b2 b3) = xor4 (Z.lxor a0 b0) (Z.lxor a1 b1) (Z.lxor a2 b2) (Z.lxor a3 b3).
Proof. unfold xor4. rewrite !Z.shiftl_lxor. apply Z.bits_inj'. intros n _. rewrite !Z.lxor_spec. btauto. Qed.

(** Equality of exclusive ors up to order. *)
Ltac lxor_ac := apply Z.bits_inj'; intros; rewrite !Z.lxor_spec; btauto.

Lemma is_byte_lxor a b : is_byte a -> is_byte b -> is_byte (Z.lxor a b).
Proof. unfold is_byte. apply (lxor_range 8). done. Qed.
Create HintDb byte.
#[export] Hint Resolve is_byte_lxor : byte.

Lemma s3g_mul_x_byte v c : is_byte (s3g_mul_x v c).
Proof. unfold s3g_mul_x, is_byte. destruct (_ =? _); apply u8_range. Qed.
#[export] Hint Resolve s3g_mul_x_byte : byte.

Lemma land_byte x : is_byte (Z.land x 0xff).
Proof. rewrite land_255. apply Z.mod_pos_bound. done. Qed.
#[export] Hint Resolve land_byte : byte.

(** *** S-boxes *)

(** What one octet of the word contributes to the four octets of the result. *)
Definition sbox_column (f : Z -> Z -> Z) (box : list Z) (c b : Z) : Z := let q := word box b in f q (s3g_mul_x q c).
Definition column0 (q m : Z) : Z := xor4 (Z.lxor m q) q q m.
Definition column1 (q m : Z) : Z := xor4 q q m (Z.lxor m q).
Definition column2 (q m : Z) : Z := xor4 q m (Z.lxor m q) q.
Definition column3 (q m : Z) : Z := xor4 m (Z.lxor m q) q q.

Lemma sbox_tables b :
  is_byte b ->
  word S1_T0 b = sbox_column column0 SR 0x1b b /\ word S1_T1 b = sbox_column column1 SR 0x1b b /\
  word S1_T2 b = sbox_column column2 SR 0x1b b /\ word S1_T3 b = sbox_column column3 SR 0x1b b /\
  word S2_T0 b = sbox_column column0 SQ 0x69 b /\ word S2_T1 b = sbox_column column1 SQ 0x69 b /\
  word S2_T2 b = sbox_column column2 SQ 0x69 b /\ word S2_T3 b = sbox_column column3 SQ 0x69 b /\
  is_byte (word SR b) /\ is_byte (word SQ b).
Proof.
  intros Hb. unfold is_byte.
  pose proof (byte_forall (fun b =>
    (word S1_T0 b =? sbox_column column0 SR 0x1b b) && (word S1_T1 b =? sbox_column column1 SR 0x1b b) &&
    (word S1_T2 b =? sbox_column column2 SR 0x1b b) && (word S1_T3 b =? sbox_column column3 SR 0x1b b) &&
    (word S2_T0 b =? sbox_column column0 SQ 0x69 b) && (word S2_T1 b =? sbox_column column1 SQ 0x69 b) &&
    (word S2_T2 b =? sbox_column column2 SQ 0x69 b) && (word S2_T3 b =? sbox_column column3 SQ 0x69 b) &&
    (0 <=? word SR b) && (word SR b <? 256) && (0 <=? word SQ b) && (word SQ b <? 256))
    ltac:(vm_compute; reflexivity) b Hb) as H.
  simpl in H. rewrite !andb_true_iff, !Z.eqb_eq, !Z.leb_le, !Z.ltb_lt in H. tauto.
Qed.

Lemma sbox_reference_columns box c w :
  (forall i, is_byte (word box (Z.land (Z.shiftr w i) 0xff))) ->
  sbox_reference box c w =
    Z.lxor (Z.lxor (Z.lxor (sbox_column column0 box c (Z.land w 0xff)) (sbox_column column1 box c (Z.land (Z.shiftr w 8) 0xff)))
      (sbox_column column2 box c (Z.land (Z.shiftr w 16) 0xff))) (sbox_column column3 box c (Z.land (Z.shiftr w 24) 0xff)).
Proof.
  intros Hb. unfold sbox_reference, sbox_column, column0, column1, column2, column3. cbn zeta.
  change (24 - 8 * 0) with 24. change (24 - 8 * 1) with 16. change (24 - 8 * 2) with 8. change (24 - 8 * 3) with 0.
  rewrite concat4_xor4, !xor4_lxor by auto 8 with byte. rewrite Z.shiftr_0_r. f_equal; lxor_ac.
Qed.

Lemma s3g_s1_reference w : s3g_s1 w = sbox_reference SR 0x1b w.
Proof.
  rewrite sbox_reference_columns by (intros; apply sbox_tables, land_byte). unfold s3g_s1.
  f_equal; [f_equal; [f_equal|]|]; apply sbox_tables, land_byte.
Qed.

Lemma s3g_s2_reference w : s3g_s2 w = sbox_reference SQ 0x69 w.
Proof.
  rewrite sbox_reference_columns by (intros; apply sbox_tables, land_byte). unfold s3g_s2.
  f_equal; [f_equal; [f_equal|]|]; apply sbox_tables, land_byte.
Qed.

(** *** Multiplication by alpha *)

Lemma alpha_references c :
  is_byte c -> s3g_mul_alpha c = mul_alpha_reference c /\ s3g_div_alpha c = div_alpha_reference c.
Proof.
  intros Hc.
  pose proof (byte_forall (fun c => (s3g_mul_alpha c =? mul_alpha_reference c) && (s3g_div_alpha c =? div_alpha_reference c))
    ltac:(vm_compute; reflexivity) c Hc) as H.
  by rewrite andb_true_iff, !Z.eqb_eq in H.
Qed.

(** The steps of the generator with the S-boxes and multiplications of the specification. *)
Definition s3g_clock_lfsr_reference (state : S3G_STATE) (f : Z) : S3G_STATE :=
  let s i := word (lfsr state) i in
  let v := Z.lxor (Z.lxor (Z.lxor (Z.lxor (Z.lxor (Z.land (Z.shiftl (s 0) 8) 0xffffff00)
             (mul_alpha_reference (Z.land (Z.shiftr (s 0) 24) 0xff))) (s 2))
             (Z.land (Z.shiftr (s 11) 8) 0x00ffffff)) (div_alpha_reference (Z.land (s 11) 0xff))) f in
  mk_s3g (drop 1 (lfsr state) ++ [v]) (fsm state).

Definition s3g_clock_fsm_reference (state : S3G_STATE) : S3G_STATE * Z :=
  let R i := word (fsm state) i in
  let s i := word (lfsr state) i in
  (mk_s3g (lfsr state) [u32 (R 1 + Z.lxor (R 2) (s 5)); sbox_reference SR 0x1b (R 0); sbox_reference SQ 0x69 (R 1)],
   Z.lxor (u32 (s 15 + R 0)) (R 1)).

(** C40: the generator with its ten tables takes, in every state, the step of the specification: the
    S-boxes are the Rijndael box and SQ under the column mixing with polynomials 0x1b and 0x69, the
    feedback multiplies and divides by alpha with powers of 0xa9, the sums are modulo 2^32. *)
Theorem snow3g_step_exact state f :
  s3g_clock_lfsr state f = s3g_clock_lfsr_reference state f /\ s3g_clock_fsm state = s3g_clock_fsm_reference state.
Proof.
  split.
  - unfold s3g_clock_lfsr, s3g_clock_lfsr_reference. cbn zeta.
    destruct (alpha_references (Z.land (Z.shiftr (word (lfsr state) 0) 24) 0xff)) as [-> _]; [apply land_byte|].
    by destruct (alpha_references (Z.land (word (lfsr state) 11) 0xff)) as [_ ->]; [apply land_byte|].
  - unfold s3g_clock_fsm, s3g_clock_fsm_reference. cbn zeta. rewrite s3g_s1_reference, s3g_s2_reference.
    unfold u32. by rewrite !(land_mask _ 32).
Qed.

(** *** Multiplication by P *)

(** A loop over consecutive integers establishes what each step carries on. *)
Lemma fold_left_seqZ {S} (I : Z -> S -> Prop) f lo n s :
  0 <= n -> I lo s -> (forall i s, lo <= i < lo + n -> I i s -> I (i + 1) (f s i)) -> I (lo + n) (fold_left f (seqZ lo n) s).
Proof.
  intros Hn. revert lo s. pattern n. apply natlike_ind; [|clear n Hn; intros n Hn IH lo s Hs Hf|done].
  - intros lo s Hs _. by rewrite seqZ_nil, Z.add_0_r by lia.
  - rewrite seqZ_cons by lia. simpl. replace (Z.pred (Z.succ n)) with n by lia.
    replace (lo + Z.succ n) with (Z.succ lo + n) by lia. apply IH; [apply Hf; [lia|done]|].
    intros. apply Hf; [lia|done].
Qed.

Definition xorZ (l : list Z) : Z := foldr Z.lxor 0 l.

Lemma xorZ_app l k : xorZ (l ++ k) = Z.lxor (xorZ l) (xorZ k).
Proof. induction l as [|x l IH]; simpl; [done|]. by rewrite IH, Z.lxor_assoc. Qed.

Lemma fold_left_xorZ {A} (g : A -> Z) l r : fold_left (fun r i => Z.lxor r (g i)) l r = Z.lxor r (xorZ (map g l)).
Proof.
  revert r. induction l as [|x l IH]; intros r; simpl; [by rewrite Z.lxor_0_r|]. by rewrite IH, Z.lxor_assoc.
Qed.

Lemma xorZ_lxor {A} (f g : A -> Z) l : xorZ (map (fun i => Z.lxor (f i) (g i)) l) = Z.lxor (xorZ (map f l)) (xorZ (map g l)).
Proof. induction l as [|x l IH]; simpl; [done|]. rewrite IH. lxor_ac. Qed.

Lemma land_bit x i : 0 <= i -> (Z.land (Z.shiftr x i) 1 =? 0) = negb (Z.testbit x i).
Proof.
  intros. rewrite land_1, <- Z.bit0_mod, Z.shiftr_spec, Z.add_0_l by lia. by destruct (Z.testbit x i).
Qed.

Section table.
Variables P c : Z.

(** The power of bit [i], if the bit is set. *)
Definition selected (X i : Z) (b : Z) : Z := if Z.testbit X b then s3g_MUL64xPOW P (Z.to_nat (i + b)) c else 0.
(** The product with the octet [k] of row [i]. *)
Definition row_product (i k : Z) : Z := xorZ (map (selected k (8 * i)) (seqZ 0 8)).

Lemma s3g_MUL64_selected X : s3g_MUL64 P X c = xorZ (map (selected X 0) (seqZ 0 64)).
Proof.
  unfold s3g_MUL64. rewrite <- (Z.lxor_0_l (xorZ _)).
  assert (Forall (fun i => 0 <= i) (seqZ 0 64)) as H by (apply Forall_forall; intros i Hi%elem_of_seqZ; lia).
  generalize 0 at 3 4. induction H as [|i l Hi H IH]; intros r; simpl; [by rewrite Z.lxor_0_r|].
  rewrite land_bit, IH by lia. unfold selected at 2. rewrite Z.add_0_l.
  destruct (Z.testbit X i); simpl; rewrite ?Z.lxor_0_l; [lxor_ac|done].
Qed.

(** The rows of the octets of [X] together are the product. *)
Lemma row_products X :
  xorZ (map (fun i => row_product i (Z.land (Z.shiftr X (8 * i)) 0xff)) (seqZ 0 8)) = xorZ (map (selected X 0) (seqZ 0 64)).
Proof.
  assert (forall i, 0 <= i -> row_product i (Z.land (Z.shiftr X (8 * i)) 0xff) = xorZ (map (selected X 0) (seqZ (8 * i) 8))) as E.
  { intros i Hi. unfold row_product. f_equal.
    replace (seqZ (8 * i) 8) with (map (Z.add (8 * i)) (seqZ 0 8)) by (rewrite <- (Z.add_0_r (8 * i)) at 2; apply fmap_add_seqZ).
    rewrite map_map. apply map_ext_in. intros b Hb%list_elem_of_In%elem_of_seqZ. unfold selected.
    rewrite Z.land_spec, Z.shiftr_spec, Z.add_0_l by lia.
    replace (Z.testbit 255 b) with true by (symmetry; apply (range_forall 8 (Z.testbit 255)); [reflexivity|lia]).
    by rewrite andb_true_r, (Z.add_comm b). }
  change (seqZ 0 64) with (seqZ (8 * 0) 8 ++ seqZ (8 * 1) 8 ++ seqZ (8 * 2) 8 ++ seqZ (8 * 3) 8 ++
    seqZ (8 * 4) 8 ++ seqZ (8 * 5) 8 ++ seqZ (8 * 6) 8 ++ seqZ (8 * 7) 8 ++ []).
  rewrite !map_app, !xorZ_app, <- !E by lia. reflexivity.
Qed.
(** *** The table *)

(** The first [2 ^ d] entries of row [i], and those of single bits. *)
Definition row_ok (d : Z) (PM : gmap (Z * Z) Z) (i : Z) : Prop :=
  (forall k, 0 <= k < 2 ^ d -> pm_get PM i k = row_product i k) /\
  (forall b, 0 <= b < 8 -> pm_get PM i (2 ^ b) = row_product i (2 ^ b)).

Lemma pm_get_insert PM i k x i' k' :
  pm_get (<[(i, k) := x]> PM) i' k' = if decide (i = i' /\ k = k') then x else pm_get PM i' k'.
Proof.
  unfold pm_get. destruct (decide _) as [[-> ->]|Hne]; [by rewrite lookup_insert_eq|].
  rewrite lookup_insert_ne; [done|]. intros [= -> ->]. by apply Hne.
Qed.

(** No bit of [a] is a bit of [k]: the entry of both is the sum. *)
Lemma row_product_add i j k :
  0 <= j -> 0 <= k < 2 ^ j -> row_product i (2 ^ j + k) = Z.lxor (row_product i (2 ^ j)) (row_product i k).
Proof.
  intros Hj Hk. unfold row_product. rewrite <- xorZ_lxor. f_equal. apply map_ext. intros b. unfold selected.
  assert (2 ^ j + k = Z.lor (Z.shiftl 1 j) k) as -> by (rewrite lor_shiftl_add by done; lia).
  rewrite lor_shiftl_lxor, Z.lxor_spec, Z.shiftl_1_l by done.
  assert (Z.testbit (2 ^ j) b && Z.testbit k b = false) as Hd.
  { destruct (Z.eq_dec j b) as [<-|]; [|by rewrite Z.pow2_bits_false].
    by rewrite <- (Z.mod_small k (2 ^ j)), Z.mod_pow2_bits_high, andb_false_r by lia. }
  destruct (Z.testbit (2 ^ j) b), (Z.testbit k b); try done; by rewrite ?Z.lxor_0_l, ?Z.lxor_0_r.
Qed.

Lemma row_product_0 i : row_product i 0 = 0.
Proof. reflexivity. Qed.

Lemma row_product_pow2 i b : 0 <= b < 8 -> row_product i (2 ^ b) = s3g_MUL64xPOW P (Z.to_nat (8 * i + b)) c.
Proof.
  intros Hb. unfold row_product, selected.
  pose (f := fun y => s3g_MUL64xPOW P (Z.to_nat (8 * i + y)) c).
  change (xorZ (map (fun x => if Z.testbit (2 ^ b) x then f x else 0) (seqZ 0 8)) = f b). clearbody f.
  assert (b = 0 \/ b = 1 \/ b = 2 \/ b = 3 \/ b = 4 \/ b = 5 \/ b = 6 \/ b = 7) as Hc by lia.
  destruct Hc as [->|[->|[->|[->|[->|[->|[->| ->]]]]]]]; lazy -[Z.lxor]; by rewrite ?Z.lxor_0_l, ?Z.lxor_0_r.
Qed.

(** The first two loops store the powers. *)
Lemma powers_stored PM :
  (forall i, 0 <= i < 8 -> pm_get PM i 0 = 0) -> pm_get PM 0 1 = P ->
  forall i, 0 <= i < 8 -> row_ok 0 (fold_left (pre_mul_power c) (seqZ 1 63) PM) i.
Proof.
  intros H0 H1.
  destruct (fold_left_seqZ (fun n PM => (forall i, 0 <= i < 8 -> pm_get PM i 0 = 0) /\
    (forall m, 0 <= m < n -> pm_get PM (m / 8) (2 ^ (m mod 8)) = s3g_MUL64xPOW P (Z.to_nat m) c)) (pre_mul_power c) 1 63 PM)
    as [Hz Hp]; [lia|..].
  - split; [done|]. intros m Hm. by replace m with 0 by lia.
  - intros n s Hn [Hz Hp]. unfold pre_mul_power. rewrite !(Z.shiftr_div_pow2 _ 3), !land_7, !Z.shiftl_1_l, Hp by lia.
    split; intros i Hi; rewrite pm_get_insert; case_decide as E.
    + pose proof (Z.pow_pos_nonneg 2 (n mod 8)). zmod.
    + by apply Hz.
    + destruct E as [E1 E2]. apply Z.pow_inj_r in E2; [|zmod..]. replace i with n by zmod.
      replace (Z.to_nat n) with (S (Z.to_nat (n - 1))) by lia. done.
    + apply Hp. assert (i <> n) by (intros ->; by apply E). lia.
  - intros i Hi. split.
    + intros k Hk. replace k with 0 by lia. by rewrite Hz.
    + intros b Hb. rewrite row_product_pow2 by done. rewrite <- Hp by lia. f_equal; [zmod|f_equal; zmod].
Qed.

(** One pass doubles the part of the row that is known, and leaves the other rows. *)
Lemma row_doubled PM i j :
  0 <= j < 8 -> row_ok j PM i ->
  let PM' := fold_left (pre_mul_sum i j) (seqZ 1 (Z.shiftl 1 j - 1)) PM in
  row_ok (j + 1) PM' i /\ forall i' k, i' <> i -> pm_get PM' i' k = pm_get PM i' k.
Proof.
  intros Hj [Hk Hb]. rewrite Z.shiftl_1_l. assert (0 < 2 ^ j) by (apply Z.pow_pos_nonneg; lia).
  destruct (fold_left_seqZ (fun n PM' => (forall k, 0 <= k < 2 ^ j + n -> pm_get PM' i k = row_product i k) /\
    (forall b, 0 <= b < 8 -> pm_get PM' i (2 ^ b) = row_product i (2 ^ b)) /\
    (forall i' k, i' <> i -> pm_get PM' i' k = pm_get PM i' k)) (pre_mul_sum i j) 1 (2 ^ j - 1) PM) as (Hk' & Hb' & Hf); [lia|..].
  - split; [|done]. intros k Hlt. destruct (Z.eq_dec k (2 ^ j)) as [->|]; [by apply Hb|apply Hk; lia].
  - intros n s Hn (Ik & Ib & If). unfold pre_mul_sum. rewrite Z.shiftl_1_l, (Ik n), Ib, <- row_product_add by lia.
    split_and!.
    + intros k Hlt. rewrite pm_get_insert. case_decide as E; [by destruct E as [_ <-]|]. apply Ik.
      assert (k <> 2 ^ j + n) by (intros ->; by apply E). lia.
    + intros b Hbb. rewrite pm_get_insert. case_decide as E; [by destruct E as [_ <-]|]. by apply Ib.
    + intros i' k Hi'. rewrite pm_get_insert. case_decide as E; [by destruct E as [<- _]|]. by apply If.
  - split; [|done]. split; [|done]. intros k Hlt. apply Hk'. rewrite Z.pow_add_r in Hlt by lia. lia.
Qed.

(** Seven passes complete a row. *)
Lemma row_completed PM i :
  row_ok 0 PM i ->
  let PM' := fold_left (fun PM j => fold_left (pre_mul_sum i j) (seqZ 1 (Z.shiftl 1 j - 1)) PM) (seqZ 1 7) PM in
  row_ok 8 PM' i /\ forall i' k, i' <> i -> pm_get PM' i' k = pm_get PM i' k.
Proof.
  intros [Hz Hb]. apply (fold_left_seqZ (fun j PM' => row_ok j PM' i /\ forall i' k, i' <> i -> pm_get PM' i' k = pm_get PM i' k) _ 1 7).
  - done.
  - split; [|done]. split; [|done]. intros k Hk. assert (k = 0 \/ k = 2 ^ 0) as [->| ->] by lia; [apply Hz|apply Hb]; lia.
  - intros j s Hj [Hr Hf]. destruct (row_doubled s i j) as [Hr' Hf']; [lia|done|]. split; [done|].
    intros i' k Hne. by rewrite Hf', Hf.
Qed.

Lemma row_ok_frame d PM PM' i : (forall k, pm_get PM' i k = pm_get PM i k) -> row_ok d PM i -> row_ok d PM' i.
Proof. intros Hf [Hk Hb]. split; intros; rewrite Hf; auto. Qed.

Lemma s3g_PRE_MUL_P_rows i : 0 <= i < 8 -> row_ok 8 (s3g_PRE_MUL_P P c) i.
Proof.
  unfold s3g_PRE_MUL_P. set (PM0 := <[(0, 1) := P]> _).
  assert (forall i, 0 <= i < 8 -> row_ok 0 (fold_left (pre_mul_power c) (seqZ 1 63) PM0) i) as H0.
  { apply powers_stored; [|done]. intros r Hr. apply Z.eqb_eq.
    by apply (range_forall 8 (fun r => pm_get PM0 r 0 =? 0)). }
  intros Hi. revert i Hi. set (PM1 := fold_left (pre_mul_power c) _ _) in *. clearbody PM1.
  enough (forall i, 0 <= i < 8 -> row_ok (if i <? 8 then 8 else 0) (fold_left (fun PM i =>
    fold_left (fun PM j => fold_left (pre_mul_sum i j) (seqZ 1 (Z.shiftl 1 j - 1)) PM) (seqZ 1 7) PM) (seqZ 0 8) PM1) i) as H.
  { intros i Hi. specialize (H i Hi). by destruct (Z.ltb_spec i 8); [|lia]. }
  apply (fold_left_seqZ (fun n PM => forall i, 0 <= i < 8 -> row_ok (if i <? n then 8 else 0) PM i) _ 0 8); [done|..].
  - intros i Hi. destruct (Z.ltb_spec i 0); [lia|]. by apply H0.
  - intros n s Hn IH i Hi.
    destruct (row_completed s n) as [Hr Hf]. { specialize (IH n Hn). by rewrite Z.ltb_irrefl in IH. }
    destruct (Z.ltb_spec i (n + 1)), (Z.ltb_spec i n) as [Hlt|Hge]; try lia.
    + apply (row_ok_frame _ s); [intros; apply Hf; lia|]. specialize (IH i Hi). by destruct (Z.ltb_spec i n); [|lia].
    + by replace i with n by lia.
    + apply (row_ok_frame _ s); [intros; apply Hf; lia|]. specialize (IH i Hi). by destruct (Z.ltb_spec i n); [lia|].
Qed.

(** the eight rows of 256 precomputed products multiply, octet by octet, exactly as the bit by bit
    multiplication in GF(2^64) modulo the polynomial [c]: [s3g_MUL_P] with the table of [P] is [MUL64]. *)
Theorem snow3g_mul_table_exact X : s3g_MUL_P (s3g_PRE_MUL_P P c) X = s3g_MUL64 P X c.
Proof.
  unfold s3g_MUL_P. rewrite fold_left_xorZ, s3g_MUL64_selected, <- row_products, Z.lxor_0_l. f_equal.
  apply map_ext_in. intros i Hi%list_elem_of_In%elem_of_seqZ. destruct (s3g_PRE_MUL_P_rows i) as [Hk _]; [lia|].
  apply Hk. apply land_byte.
Qed.
End table.
