(* ===== verification/Zuc.v ===== *)
(** * ZUC

    Models [lib/security/zuc.cpp]: the key stream generator of 128-NEA3 and 128-NIA3.  The state's
    members [LFSR_S0] to [LFSR_S15] are a list.  The feedback of the shift register, which the code
    computes with shifts and end-around carries, is a sum modulo 2^31 - 1. *)

From S2P Require Import Prelude Snow3gTables.
Open Scope Z_scope.

Module Zuc.

(** The S-boxes. *)
Definition S0 : list Z := [
  0x3e; 0x72; 0x5b; 0x47; 0xca; 0xe0; 0x00; 0x33; 0x04; 0xd1; 0x54; 0x98; 0x09; 0xb9; 0x6d; 0xcb;
  0x7b; 0x1b; 0xf9; 0x32; 0xaf; 0x9d; 0x6a; 0xa5; 0xb8; 0x2d; 0xfc; 0x1d; 0x08; 0x53; 0x03; 0x90;
  0x4d; 0x4e; 0x84; 0x99; 0xe4; 0xce; 0xd9; 0x91; 0xdd; 0xb6; 0x85; 0x48; 0x8b; 0x29; 0x6e; 0xac;
  0xcd; 0xc1; 0xf8; 0x1e; 0x73; 0x43; 0x69; 0xc6; 0xb5; 0xbd; 0xfd; 0x39; 0x63; 0x20; 0xd4; 0x38;
  0x76; 0x7d; 0xb2; 0xa7; 0xcf; 0xed; 0x57; 0xc5; 0xf3; 0x2c; 0xbb; 0x14; 0x21; 0x06; 0x55; 0x9b;
  0xe3; 0xef; 0x5e; 0x31; 0x4f; 0x7f; 0x5a; 0xa4; 0x0d; 0x82; 0x51; 0x49; 0x5f; 0xba; 0x58; 0x1c;
  0x4a; 0x16; 0xd5; 0x17; 0xa8; 0x92; 0x24; 0x1f; 0x8c; 0xff; 0xd8; 0xae; 0x2e; 0x01; 0xd3; 0xad;
  0x3b; 0x4b; 0xda; 0x46; 0xeb; 0xc9; 0xde; 0x9a; 0x8f; 0x87; 0xd7; 0x3a; 0x80; 0x6f; 0x2f; 0xc8;
  0xb1; 0xb4; 0x37; 0xf7; 0x0a; 0x22; 0x13; 0x28; 0x7c; 0xcc; 0x3c; 0x89; 0xc7; 0xc3; 0x96; 0x56;
  0x07; 0xbf; 0x7e; 0xf0; 0x0b; 0x2b; 0x97; 0x52; 0x35; 0x41; 0x79; 0x61; 0xa6; 0x4c; 0x10; 0xfe;
  0xbc; 0x26; 0x95; 0x88; 0x8a; 0xb0; 0xa3; 0xfb; 0xc0; 0x18; 0x94; 0xf2; 0xe1; 0xe5; 0xe9; 0x5d;
  0xd0; 0xdc; 0x11; 0x66; 0x64; 0x5c; 0xec; 0x59; 0x42; 0x75; 0x12; 0xf5; 0x74; 0x9c; 0xaa; 0x23;
  0x0e; 0x86; 0xab; 0xbe; 0x2a; 0x02; 0xe7; 0x67; 0xe6; 0x44; 0xa2; 0x6c; 0xc2; 0x93; 0x9f; 0xf1;
  0xf6; 0xfa; 0x36; 0xd2; 0x50; 0x68; 0x9e; 0x62; 0x71; 0x15; 0x3d; 0xd6; 0x40; 0xc4; 0xe2; 0x0f;
  0x8e; 0x83; 0x77; 0x6b; 0x25; 0x05; 0x3f; 0x0c; 0x30; 0xea; 0x70; 0xb7; 0xa1; 0xe8; 0xa9; 0x65;
  0x8d; 0x27; 0x1a; 0xdb; 0x81; 0xb3; 0xa0; 0xf4; 0x45; 0x7a; 0x19; 0xdf; 0xee; 0x78; 0x34; 0x60].

Definition S1 : list Z := [
  0x55; 0xc2; 0x63; 0x71; 0x3b; 0xc8; 0x47; 0x86; 0x9f; 0x3c; 0xda; 0x5b; 0x29; 0xaa; 0xfd; 0x77;
  0x8c; 0xc5; 0x94; 0x0c; 0xa6; 0x1a; 0x13; 0x00; 0xe3; 0xa8; 0x16; 0x72; 0x40; 0xf9; 0xf8; 0x42;
  0x44; 0x26; 0x68; 0x96; 0x81; 0xd9; 0x45; 0x3e; 0x10; 0x76; 0xc6; 0xa7; 0x8b; 0x39; 0x43; 0xe1;
  0x3a; 0xb5; 0x56; 0x2a; 0xc0; 0x6d; 0xb3; 0x05; 0x22; 0x66; 0xbf; 0xdc; 0x0b; 0xfa; 0x62; 0x48;
  0xdd; 0x20; 0x11; 0x06; 0x36; 0xc9; 0xc1; 0xcf; 0xf6; 0x27; 0x52; 0xbb; 0x69; 0xf5; 0xd4; 0x87;
  0x7f; 0x84; 0x4c; 0xd2; 0x9c; 0x57; 0xa4; 0xbc; 0x4f; 0x9a; 0xdf; 0xfe; 0xd6; 0x8d; 0x7a; 0xeb;
  0x2b; 0x53; 0xd8; 0x5c; 0xa1; 0x14; 0x17; 0xfb; 0x23; 0xd5; 0x7d; 0x30; 0x67; 0x73; 0x08; 0x09;
  0xee; 0xb7; 0x70; 0x3f; 0x61; 0xb2; 0x19; 0x8e; 0x4e; 0xe5; 0x4b; 0x93; 0x8f; 0x5d; 0xdb; 0xa9;
  0xad; 0xf1; 0xae; 0x2e; 0xcb; 0x0d; 0xfc; 0xf4; 0x2d; 0x46; 0x6e; 0x1d; 0x97; 0xe8; 0xd1; 0xe9;
  0x4d; 0x37; 0xa5; 0x75; 0x5e; 0x83; 0x9e; 0xab; 0x82; 0x9d; 0xb9; 0x1c; 0xe0; 0xcd; 0x49; 0x89;
  0x01; 0xb6; 0xbd; 0x58; 0x24; 0xa2; 0x5f; 0x38; 0x78; 0x99; 0x15; 0x90; 0x50; 0xb8; 0x95; 0xe4;
  0xd0; 0x91; 0xc7; 0xce; 0xed; 0x0f; 0xb4; 0x6f; 0xa0; 0xcc; 0xf0; 0x02; 0x4a; 0x79; 0xc3; 0xde;
  0xa3; 0xef; 0xea; 0x51; 0xe6; 0x6b; 0x18; 0xec; 0x1b; 0x2c; 0x80; 0xf7; 0x74; 0xe7; 0xff; 0x21;
  0x5a; 0x6a; 0x54; 0x1e; 0x41; 0x31; 0x92; 0x35; 0xc4; 0x33; 0x07; 0x0a; 0xba; 0x7e; 0x0e; 0x34;
  0x88; 0xb1; 0x98; 0x7c; 0xf3; 0x3d; 0x60; 0x6c; 0x7b; 0xca; 0xd3; 0x1f; 0x32; 0x65; 0x04; 0x28;
  0x64; 0xbe; 0x85; 0x9b; 0x2f; 0x59; 0x8a; 0xd7; 0xb0; 0x25; 0xac; 0xaf; 0x12; 0x03; 0xe2; 0xf2].
Definition EK_d : list Z :=
  [0x44d7; 0x26bc; 0x626b; 0x135e; 0x5789; 0x35e2; 0x7135; 0x09af; 0x4d78; 0x2f13; 0x6bc4; 0x1af1; 0x5e26; 0x3c4d; 0x789a; 0x47ac].

Record zuc_state_t := mk_zuc { lfsr : list Z; F_R1 : Z; F_R2 : Z; BRC_X0 : Z; BRC_X1 : Z; BRC_X2 : Z; BRC_X3 : Z }.

Definition MAKEU32 (a b c d : Z) : Z := Z.lor (Z.lor (Z.lor (u32 (Z.shiftl a 24)) (u32 (Z.shiftl b 16))) (u32 (Z.shiftl c 8))) d.
Definition MAKEU31 (a b c : Z) : Z := Z.lor (Z.lor (u32 (Z.shiftl a 23)) (u32 (Z.shiftl b 8))) c.
Definition MulByPow2 (x k : Z) : Z := Z.land (Z.lor (u32 (Z.shiftl x k)) (Z.shiftr x (31 - k))) 0x7fffffff.
Definition ROT (a k : Z) : Z := Z.lor (u32 (Z.shiftl a k)) (Z.shiftr a (32 - k)).

(** [c = a + b mod (2^31 - 1)]. *)
Definition AddM (a b : Z) : Z :=
  let c := u32 (a + b) in u32 (Z.land c 0x7fffffff + Z.shiftr c 31).

(** The sum both modes share. *)
Definition lfsr_sum (s : list Z) : Z :=
  let f := word s 0 in
  let f := AddM f (MulByPow2 (word s 0) 8) in
  let f := AddM f (MulByPow2 (word s 4) 20) in
  let f := AddM f (MulByPow2 (word s 10) 21) in
  let f := AddM f (MulByPow2 (word s 13) 17) in
  AddM f (MulByPow2 (word s 15) 15).

Definition shift_in (f : Z) (state : zuc_state_t) : zuc_state_t :=
  mk_zuc (drop 1 (lfsr state) ++ [f]) (F_R1 state) (F_R2 state) (BRC_X0 state) (BRC_X1 state) (BRC_X2 state) (BRC_X3 state).

Definition LFSRWithInitialisationMode (state : zuc_state_t) (u : Z) : zuc_state_t :=
  shift_in (AddM (lfsr_sum (lfsr state)) u) state.
Definition LFSRWithWorkMode (state : zuc_state_t) : zuc_state_t := shift_in (lfsr_sum (lfsr state)) state.

Definition BitReorganization (state : zuc_state_t) : zuc_state_t :=
  let s := word (lfsr state) in
  mk_zuc (lfsr state) (F_R1 state) (F_R2 state)
    (Z.lor (u32 (Z.shiftl (Z.land (s 15) 0x7fff8000) 1)) (Z.land (s 14) 0xffff))
    (Z.lor (Z.shiftl (Z.land (s 11) 0xffff) 16) (Z.shiftr (s 9) 15))
    (Z.lor (Z.shiftl (Z.land (s 7) 0xffff) 16) (Z.shiftr (s 5) 15))
    (Z.lor (Z.shiftl (Z.land (s 2) 0xffff) 16) (Z.shiftr (s 0) 15)).

Definition L1 (X : Z) : Z := Z.lxor (Z.lxor (Z.lxor (Z.lxor X (ROT X 2)) (ROT X 10)) (ROT X 18)) (ROT X 24).
Definition L2 (X : Z) : Z := Z.lxor (Z.lxor (Z.lxor (Z.lxor X (ROT X 8)) (ROT X 14)) (ROT X 22)) (ROT X 30).

(** The S-boxes on the four octets of a word. *)
Definition sbox (u : Z) : Z :=
  MAKEU32 (word S0 (Z.shiftr u 24)) (word S1 (Z.land (Z.shiftr u 16) 0xff)) (word S0 (Z.land (Z.shiftr u 8) 0xff)) (word S1 (Z.land u 0xff)).

Definition F (state : zuc_state_t) : zuc_state_t * Z :=
  let W := u32 (Z.lxor (BRC_X0 state) (F_R1 state) + F_R2 state) in
  let W1 := u32 (F_R1 state + BRC_X1 state) in
  let W2 := Z.lxor (F_R2 state) (BRC_X2 state) in
  let u := L1 (Z.lor (u32 (Z.shiftl W1 16)) (Z.shiftr W2 16)) in
  let v := L2 (Z.lor (u32 (Z.shiftl W2 16)) (Z.shiftr W1 16)) in
  (mk_zuc (lfsr state) (sbox u) (sbox v) (BRC_X0 state) (BRC_X1 state) (BRC_X2 state) (BRC_X3 state), W).

Fixpoint init_rounds (nCount : nat) (state : zuc_state_t) : zuc_state_t :=
  match nCount with
  | O => state
  | S n => let '(state, w) := F (BitReorganization state) in init_rounds n (LFSRWithInitialisationMode state (Z.shiftr w 1))
  end.

Definition zuc_initialize (k iv : list Z) : zuc_state_t :=
  init_rounds 32 (mk_zuc (map (fun i => MAKEU31 (word k i) (word EK_d i) (word iv i)) (seqZ 0 16)) 0 0 0 0 0 0).

Fixpoint keystream (n : nat) (state : zuc_state_t) : list Z :=
  match n with
  | O => []
  | S n' =>
      let '(state, w) := F (BitReorganization state) in
      Z.lxor w (BRC_X3 state) :: keystream n' (LFSRWithWorkMode state)
  end.

(** The first output of [F] is discarded. *)
Definition zuc_generate_keystream (state : zuc_state_t) (key_stream_len : Z) : list Z :=
  keystream (Z.to_nat key_stream_len) (LFSRWithWorkMode (fst (F (BitReorganization state)))).

(** ** The feedback *)

Lemma keystream_length n state : length (keystream n state) = n.
Proof.
  revert state. induction n as [|n IH]; intros state; [done|]. cbn [keystream].
  destruct (F (BitReorganization state)) as [state' w]. simpl. by rewrite IH.
Qed.

Definition is31 (x : Z) : Prop := 0 <= x < 2 ^ 31.

Lemma AddM_mod a b : is31 a -> is31 b -> is31 (AddM a b) /\ AddM a b mod (2 ^ 31 - 1) = (a + b) mod (2 ^ 31 - 1).
Proof.
  unfold is31, AddM. intros Ha Hb. rewrite (u32_small (a + b)) by lia.
  change 0x7fffffff with (2 ^ 31 - 1). rewrite land_mask, Z.shiftr_div_pow2 by lia.
  assert (0 <= (a + b) / 2 ^ 31 <= 1) by zmod.
  pose proof (Z.mod_pos_bound (a + b) (2 ^ 31)). pose proof (Z.div_mod (a + b) (2 ^ 31)).
  rewrite u32_small by lia. split; [zmod|].
  replace (a + b) with ((a + b) mod 2 ^ 31 + (a + b) / 2 ^ 31 + (a + b) / 2 ^ 31 * (2 ^ 31 - 1)) at 3 by lia.
  by rewrite Z_mod_plus_full.
Qed.

Lemma MulByPow2_mod x k : is31 x -> 0 <= k <= 31 ->
  is31 (MulByPow2 x k) /\ MulByPow2 x k mod (2 ^ 31 - 1) = (x * 2 ^ k) mod (2 ^ 31 - 1).
Proof.
  unfold is31, MulByPow2. intros Hx Hk. change 0x7fffffff with (2 ^ 31 - 1).
  assert (0 < 2 ^ k) by (apply Z.pow_pos_nonneg; lia). assert (0 < 2 ^ (31 - k)) by (apply Z.pow_pos_nonneg; lia).
  assert (2 ^ 31 = 2 ^ (31 - k) * 2 ^ k) as E by (rewrite <- Z.pow_add_r by lia; f_equal; lia).
  set (hi := x / 2 ^ (31 - k)). set (lo := x mod 2 ^ (31 - k)).
  pose proof (Z.div_mod x (2 ^ (31 - k)) ltac:(lia)) as D. fold hi lo in D.
  pose proof (Z.mod_pos_bound x (2 ^ (31 - k)) ltac:(lia)) as Hlo. fold lo in Hlo.
  assert (0 <= hi < 2 ^ k) as Hhi.
  { split; [apply Z.div_pos; lia|]. apply Z.div_lt_upper_bound; [lia|]. rewrite <- E. lia. }
  assert (Z.land (Z.lor (u32 (Z.shiftl x k)) (Z.shiftr x (31 - k))) (2 ^ 31 - 1) = lo * 2 ^ k + hi) as ->.
  { rewrite Z.land_lor_distr_l, !land_mask, Z.shiftl_mul_pow2, Z.shiftr_div_pow2 by lia. fold hi.
    rewrite (Z.mod_small hi) by (pose proof (Z.pow_le_mono_r 2 k 31); lia).
    assert (u32 (x * 2 ^ k) mod 2 ^ 31 = lo * 2 ^ k) as ->.
    { unfold u32. change (2 ^ 32) with (2 ^ 31 * 2). rewrite Z.rem_mul_r, (Z.mul_comm (2 ^ 31)), Z_mod_plus_full, Z.mod_mod by lia.
      rewrite E at 1. rewrite Z.mul_mod_distr_r by lia. done. }
    rewrite <- Z.shiftl_mul_pow2 by lia. rewrite lor_shiftl_add by lia. by rewrite Z.shiftl_mul_pow2 by lia. }
  split; [split; [nia|]|].
  - assert (lo * 2 ^ k <= (2 ^ (31 - k) - 1) * 2 ^ k) by (apply Z.mul_le_mono_nonneg_r; lia). lia.
  - assert (x * 2 ^ k = lo * 2 ^ k + hi + hi * (2 ^ 31 - 1)) as ->; [|by rewrite Z_mod_plus_full].
    rewrite E at 1. rewrite D at 1. ring.
Qed.

(** The feedback of the shift register, computed with rotations and end-around carries, is the linear combination
    2^15 s15 + 2^17 s13 + 2^21 s10 + 2^20 s4 + (1 + 2^8) s0 modulo 2^31 - 1 (plus the input in initialization
    mode), as a number of 31 bits. *)
Theorem zuc_feedback_exact s u :
  Forall is31 s -> is31 u ->
  let f := word s 15 * 2 ^ 15 + word s 13 * 2 ^ 17 + word s 10 * 2 ^ 21 + word s 4 * 2 ^ 20 + word s 0 * (1 + 2 ^ 8) in
  is31 (lfsr_sum s) /\ lfsr_sum s mod (2 ^ 31 - 1) = f mod (2 ^ 31 - 1) /\
  is31 (AddM (lfsr_sum s) u) /\ AddM (lfsr_sum s) u mod (2 ^ 31 - 1) = (f + u) mod (2 ^ 31 - 1).
Proof.
  intros Hs Hu. assert (forall i, is31 (word s i)) as Hw.
  { intros i. unfold word. destruct (nth_in_or_default (Z.to_nat i) s 0) as [Hin| ->]; [|done].
    rewrite Forall_forall in Hs. by apply Hs, list_elem_of_In. }
  set (m := 2 ^ 31 - 1).
  assert (forall a b x k, is31 a -> a mod m = b mod m -> 0 <= k <= 31 -> is31 x ->
    is31 (AddM a (MulByPow2 x k)) /\ AddM a (MulByPow2 x k) mod m = (b + x * 2 ^ k) mod m) as step.
  { intros a b x k Ha Hab Hk Hx. destruct (MulByPow2_mod x k Hx Hk) as [M1 M2]. destruct (AddM_mod a _ Ha M1) as [A1 A2].
    split; [done|]. fold m in M2, A2. by rewrite A2, Zplus_mod, M2, Hab, <- Zplus_mod. }
  simpl. unfold lfsr_sum.
  destruct (step (word s 0) (word s 0) (word s 0) 8) as [R1 E1]; try done.
  destruct (step _ _ (word s 4) 20 R1 E1) as [R2 E2]; try done.
  destruct (step _ _ (word s 10) 21 R2 E2) as [R3 E3]; try done.
  destruct (step _ _ (word s 13) 17 R3 E3) as [R4 E4]; try done.
  destruct (step _ _ (word s 15) 15 R4 E4) as [R5 E5]; try done.
  destruct (AddM_mod _ u R5 Hu) as [R6 E6]. fold m in E6.
  split; [done|]. split; [rewrite E5; f_equal; ring|]. split; [done|].
  rewrite E6, Zplus_mod, E5, <- Zplus_mod. f_equal. ring.
Qed.

Lemma zuc_feedback_exact_witness :
  Forall is31 (map (fun i => 0x7fffffff - i) (seqZ 0 16)) /\ is31 0x7fffffff /\
  is31 (AddM (lfsr_sum (map (fun i => 0x7fffffff - i) (seqZ 0 16))) 0x7fffffff).
Proof.
  assert (Forall is31 (map (fun i => 0x7fffffff - i) (seqZ 0 16))) as H1 by (repeat (apply Forall_cons; split; [split; discriminate || reflexivity|]); apply Forall_nil; exact I).
  assert (is31 0x7fffffff) as H2 by (split; discriminate || reflexivity).
  split; [exact H1|]. split; [exact H2|]. apply (zuc_feedback_exact _ _ H1 H2).
Defined.
End Zuc.
