(* ===== verification/Ciphering.v ===== *)
(** * The algorithms NEA1, NEA3, NIA1 and NIA3

    Models [include/srsran/security/ciphering.h] and [integrity.h]: ciphering and message
    authentication with the key streams of SNOW 3G and ZUC.  The functions take a length in bits, as
    the code does; the engines pass eight times the length of the message. *)

From S2P Require Import Prelude Snow3gTables Snow3g Zuc.
Open Scope Z_scope.

Inductive security_direction := dir_uplink | dir_downlink.
Definition to_number_dir (d : security_direction) : Z := match d with dir_uplink => 0 | dir_downlink => 1 end.

(** Octet [i] of a key stream. *)
Definition ks_octet (ks : list Z) (i : Z) : Z := Z.land (Z.shiftr (word ks (i / 4)) ((3 - i mod 4) * 8)) 0xff.

(** The message with the key stream added to its first [n] octets. *)
Definition add_keystream (ks : list Z) (n : Z) (msg : list Z) : list Z :=
  imap (fun i b => if Z.of_nat i <? n then Z.lxor b (ks_octet ks (Z.of_nat i)) else b) msg.

Definition zero_tailing_bits (tail_byte length_bits : Z) : Z :=
  let bits := Z.land (8 - Z.land length_bits 7) 7 in
  Z.land tail_byte (u8 (Z.shiftl 0xff bits)).

(** The octet at [i] rewritten. *)
Definition alter_octet (f : Z -> Z) (i : Z) (msg : list Z) : list Z := alter f (Z.to_nat i) msg.

(** The key as four words, the first octets last. *)
Definition key_words (key : list Z) : list Z :=
  map (fun i => Z.lor (Z.lor (Z.lor (Z.shiftl (word key (4 * (3 - i))) 24) (Z.shiftl (word key (4 * (3 - i) + 1)) 16))
                  (Z.shiftl (word key (4 * (3 - i) + 2)) 8)) (word key (4 * (3 - i) + 3))) (seqZ 0 4).

Definition security_nea1 (key : list Z) (count bearer : Z) (direction : security_direction) (msg : list Z) (msg_len : Z) : list Z :=
  let msg_len_block_8 := (msg_len + 7) / 8 in
  let msg_len_block_32 := (msg_len + 31) / 32 in
  if (msg_len_block_8 <=? zlen msg) && (0 <? zlen msg) then
    let iv2 := Z.lor (u32 (Z.shiftl (Z.land bearer 0x1f) 27)) (Z.shiftl (to_number_dir direction) 26) in
    let state := s3g_initialize (key_words key) [iv2; count; iv2; count] in
    let ks := s3g_generate_keystream state msg_len_block_32 in
    alter_octet (fun b => zero_tailing_bits b msg_len) (msg_len_block_8 - 1) (add_keystream ks msg_len_block_8 msg)
  else msg.

(** The octets of COUNT, most significant first. *)
Definition count_octets (count : Z) : list Z :=
  [Z.land (Z.shiftr count 24) 0xff; Z.land (Z.shiftr count 16) 0xff; Z.land (Z.shiftr count 8) 0xff; Z.land count 0xff].

Definition security_nea3 (key : list Z) (count bearer : Z) (direction : security_direction) (msg : list Z) (msg_len : Z) : list Z :=
  let msg_len_block_8 := (msg_len + 7) / 8 in
  let msg_len_block_32 := (msg_len + 31) / 32 in
  if (msg_len_block_8 <=? zlen msg) && (0 <? zlen msg) then
    let half := count_octets count ++ [Z.lor (u8 (Z.shiftl (Z.land bearer 0x1f) 3)) (Z.shiftl (to_number_dir direction) 2); 0; 0; 0] in
    let state := Zuc.zuc_initialize key (half ++ half) in
    let ks := Zuc.zuc_generate_keystream state msg_len_block_32 in
    alter_octet (fun b => zero_tailing_bits b msg_len) (zlen msg - 1) (add_keystream ks msg_len_block_8 msg)
  else msg.

(** [mac] is what the caller's buffer holds before. *)
Definition security_nia1 (mac key : list Z) (count bearer : Z) (direction : security_direction) (msg : list Z) (msg_len : Z) : list Z :=
  if (msg_len + 7) / 8 <=? zlen msg
  then s3g_f9 key count (u32 (Z.shiftl bearer 27)) (to_number_dir direction) msg msg_len
  else mac.

Definition GET_WORD (DATA : list Z) (i : Z) : Z :=
  let ti := i mod 32 in
  if ti =? 0 then word DATA (i / 32)
  else Z.lor (u32 (Z.shiftl (word DATA (i / 32)) ti)) (Z.shiftr (word DATA (i / 32 + 1)) (32 - ti)).

Definition security_nia3 (mac key : list Z) (count bearer : Z) (direction : security_direction) (msg : list Z) (msg_len : Z) : list Z :=
  if (msg_len + 7) / 8 <=? zlen msg then
    let c := count_octets count in
    let iv4 := Z.land (Z.shiftl bearer 3) 0xf8 in
    let d := Z.shiftl (to_number_dir direction) 7 in
    let iv := c ++ [iv4; 0; 0; 0; Z.lxor (word c 0) d; word c 1; word c 2; word c 3; iv4; 0; d; 0] in
    let state := Zuc.zuc_initialize key iv in
    let N := msg_len + 64 in
    let L := (N + 31) / 32 in
    let ks := Zuc.zuc_generate_keystream state L in
    let T := fold_left (fun T i =>
      if Z.land (word msg (i / 8)) (Z.shiftl 1 (7 - i mod 8)) =? 0 then T else Z.lxor T (GET_WORD ks i)) (seqZ 0 msg_len) 0 in
    let T := Z.lxor T (GET_WORD ks msg_len) in
    count_octets (Z.lxor T (word ks (L - 1)))
  else mac.

(** ** Whole octets

    The engines cipher whole octets: no bit of the last octet is cleared, the key stream is added to
    every octet, and adding it again restores the message. *)

Definition bytes (l : list Z) : Prop := Forall is_byte l.

Lemma bytes_check l : forallb (fun b => (0 <=? b) && (b <? 256)) l = true -> bytes l.
Proof.
  intros H. apply Forall_forall. intros b Hb%list_elem_of_In. rewrite forallb_forall in H.
  apply H in Hb. apply andb_true_iff in Hb as [?%Z.leb_le ?%Z.ltb_lt]. done.
Qed.

Lemma ks_octet_byte ks i : is_byte (ks_octet ks i).
Proof. apply land_byte. Qed.

Lemma zero_tailing_bits_octets b n : is_byte b -> zero_tailing_bits b (8 * n) = b.
Proof.
  intros Hb. unfold zero_tailing_bits. rewrite (land_7 (8 * n)). replace ((8 * n) mod 8) with 0 by zmod.
  change (Z.land b 255 = b). rewrite land_255. by apply Z.mod_small.
Qed.

Lemma add_keystream_length ks n msg : zlen (add_keystream ks n msg) = zlen msg.
Proof. unfold zlen, add_keystream. by rewrite length_imap. Qed.

Lemma add_keystream_bytes ks n msg : bytes msg -> bytes (add_keystream ks n msg).
Proof.
  intros Hm. apply Forall_lookup. intros i b. unfold add_keystream. rewrite list_lookup_imap.
  destruct (msg !! i) as [b'|] eqn:E; simpl; [|done]. intros [= <-].
  pose proof (Forall_lookup_1 _ _ _ _ Hm E). case_match; [|done]. apply is_byte_lxor; [done|apply ks_octet_byte].
Qed.

Lemma add_keystream_involutive ks n msg : add_keystream ks n (add_keystream ks n msg) = msg.
Proof.
  apply list_eq. intros i. unfold add_keystream. rewrite !list_lookup_imap.
  destruct (msg !! i) as [b|]; simpl; [|done]. f_equal. destruct (Z.of_nat i <? n); [|done]. lxor_ac.
Qed.

Lemma alter_octet_id n i msg : bytes msg -> alter_octet (fun b => zero_tailing_bits b (8 * n)) i msg = msg.
Proof.
  intros Hm. unfold alter_octet. apply list_eq. intros j. destruct (decide (Z.to_nat i = j)) as [<-|Hne].
  - rewrite list_lookup_alter_eq. destruct (msg !! Z.to_nat i) as [b|] eqn:E; simpl; [|done]. f_equal.
    apply zero_tailing_bits_octets. by eapply Forall_lookup_1.
  - by rewrite list_lookup_alter_ne.
Qed.

Lemma alter_octet_length f i msg : zlen (alter_octet f i msg) = zlen msg.
Proof. unfold zlen, alter_octet. by rewrite length_alter. Qed.

(** The key stream that ciphering adds to a message of [n] octets. *)
Definition nea1_keystream (key : list Z) (count bearer : Z) (d : security_direction) (n : Z) : list Z :=
  let iv2 := Z.lor (u32 (Z.shiftl (Z.land bearer 0x1f) 27)) (Z.shiftl (to_number_dir d) 26) in
  s3g_generate_keystream (s3g_initialize (key_words key) [iv2; count; iv2; count]) ((8 * n + 31) / 32).

Definition nea3_keystream (key : list Z) (count bearer : Z) (d : security_direction) (n : Z) : list Z :=
  let half := count_octets count ++ [Z.lor (u8 (Z.shiftl (Z.land bearer 0x1f) 3)) (Z.shiftl (to_number_dir d) 2); 0; 0; 0] in
  Zuc.zuc_generate_keystream (Zuc.zuc_initialize key (half ++ half)) ((8 * n + 31) / 32).

Section octets.
Variables (key : list Z) (count bearer : Z) (d : security_direction).

Lemma nea1_octets msg :
  bytes msg ->
  security_nea1 key count bearer d msg (8 * zlen msg) = add_keystream (nea1_keystream key count bearer d (zlen msg)) (zlen msg) msg.
Proof.
  intros Hm. unfold security_nea1. replace ((8 * zlen msg + 7) / 8) with (zlen msg) by zmod. rewrite Z.leb_refl.
  destruct (Z.ltb_spec 0 (zlen msg)) as [|Hz]; simpl.
  - by rewrite alter_octet_id by by apply add_keystream_bytes.
  - by rewrite (zlen_zero_nil msg) by (pose proof (zlen_nonneg msg); lia).
Qed.

Lemma nea3_octets msg :
  bytes msg ->
  security_nea3 key count bearer d msg (8 * zlen msg) = add_keystream (nea3_keystream key count bearer d (zlen msg)) (zlen msg) msg.
Proof.
  intros Hm. unfold security_nea3. replace ((8 * zlen msg + 7) / 8) with (zlen msg) by zmod. rewrite Z.leb_refl.
  destruct (Z.ltb_spec 0 (zlen msg)) as [|Hz]; simpl.
  - by rewrite alter_octet_id by by apply add_keystream_bytes.
  - by rewrite (zlen_zero_nil msg) by (pose proof (zlen_nonneg msg); lia).
Qed.

Lemma nea1_length msg len : zlen (security_nea1 key count bearer d msg len) = zlen msg.
Proof. unfold security_nea1. case_match; [|done]. by rewrite alter_octet_length, add_keystream_length. Qed.
Lemma nea3_length msg len : zlen (security_nea3 key count bearer d msg len) = zlen msg.
Proof. unfold security_nea3. case_match; [|done]. by rewrite alter_octet_length, add_keystream_length. Qed.

Lemma nia1_length mac msg len : zlen mac = 4 -> zlen (security_nia1 mac key count bearer d msg len) = 4.
Proof. intros. unfold security_nia1. by case_match. Qed.
Lemma nia3_length mac msg len : zlen mac = 4 -> zlen (security_nia3 mac key count bearer d msg len) = 4.
Proof. intros. unfold security_nia3. by case_match. Qed.

Lemma nia1_bytes mac msg len : bytes mac -> bytes (security_nia1 mac key count bearer d msg len).
Proof.
  intros. unfold security_nia1. case_match; [|done]. unfold s3g_f9. cbn zeta. apply Forall_map, Forall_forall.
  intros i _. apply land_byte.
Qed.
Lemma nia3_bytes mac msg len : bytes mac -> bytes (security_nia3 mac key count bearer d msg len).
Proof.
  intros. unfold security_nia3. case_match; [|done]. cbn zeta. unfold count_octets.
  repeat (apply Forall_cons; split); try apply land_byte. apply Forall_nil. done.
Qed.

(** Ciphering twice restores the message, octets stay octets. *)
Lemma nea_octets_involutive ks msg : bytes msg ->
  bytes (add_keystream ks (zlen msg) msg) /\ zlen (add_keystream ks (zlen msg) msg) = zlen msg /\
  add_keystream ks (zlen msg) (add_keystream ks (zlen msg) msg) = msg.
Proof.
  intros. split_and!; [by apply add_keystream_bytes|apply add_keystream_length|apply add_keystream_involutive].
Qed.

Lemma nea1_involutive msg :
  bytes msg -> let c := security_nea1 key count bearer d msg (8 * zlen msg) in
  bytes c /\ zlen c = zlen msg /\ security_nea1 key count bearer d c (8 * zlen c) = msg.
Proof.
  intros Hm. simpl. rewrite (nea1_octets msg) by done.
  destruct (nea_octets_involutive (nea1_keystream key count bearer d (zlen msg)) msg Hm) as (Hb & Hl & Hi).
  rewrite nea1_octets, !Hl by done. auto.
Qed.

Lemma nea3_involutive msg :
  bytes msg -> let c := security_nea3 key count bearer d msg (8 * zlen msg) in
  bytes c /\ zlen c = zlen msg /\ security_nea3 key count bearer d c (8 * zlen c) = msg.
Proof.
  intros Hm. simpl. rewrite (nea3_octets msg) by done.
  destruct (nea_octets_involutive (nea3_keystream key count bearer d (zlen msg)) msg Hm) as (Hb & Hl & Hi).
  rewrite nea3_octets, !Hl by done. auto.
Qed.
End octets.

(** ** Test vectors

    Those of the specifications, as in [tests/unittests/security]. *)

(** The [n] octets of a number, most significant first. *)
Definition octets (z : Z) (n : nat) : list Z := map (fun i => Z.land (Z.shiftr z (8 * (Z.of_nat n - 1 - Z.of_nat i))) 255) (seq 0 n).

Example nea1_testset1 :
  security_nea1 (octets 0xD3C5D592327FB11C4035C6680AF8C6D1 16) 0x398a59b4 0x15 dir_downlink
    (octets 0x981BA6824C1BFB1AB485472029B71D808CE33E2CC3C0B5FC1F3DE8A6DC66B1F0 32) 253 =
  octets 0x5D5BFE75EB04F68CE0A12377EA00B37D47C6A0BA06309155086A859C4341B378 32.
Proof. vm_compute. reflexivity. Qed.

Example nia1_testset1 :
  security_nia1 [] (octets 0x2bd6459f82c5b300952c49104881ff48 16) 0x38a6f056 0x1f dir_uplink (octets 0x3332346263393861373479 11) 88 =
  octets 0x731f1165 4.
Proof. vm_compute. reflexivity. Qed.

Example nia1_testset2 :
  security_nia1 [] (octets 0x7e5e94431e11d73828d739cc6ced4573 16) 0x36af6144 0x18 dir_downlink
    (octets 0xb3d3c9170a4e1632f60f861013d22d84b726b6a278d802d1eeaf1321ba5929dc 32) 254 = octets 0xe3259f6f 4.
Proof. vm_compute. reflexivity. Qed.

Example nea3_testset1 :
  security_nea3 (octets 0x173d14ba5003731d7a60049470f00a29 16) 0x66035492 0xf dir_uplink
    (octets 0x6cf65340735552ab0c9752fa6f9025fe0bd675d9005875b200 25) 193 =
  octets 0xa6c85fc66afb8533aafc2518dfe784940ee1e4b030238cc800 25.
Proof. vm_compute. reflexivity. Qed.

Example nia3_testset1 :
  security_nia3 [] (octets 0 16) 0 0 dir_uplink (octets 0 1) 1 = octets 0xc8a9595e 4 /\
  security_nia3 [] (octets 0 16) 0 0 dir_uplink (octets 0 1) 8 = octets 0x390a91b7 4.
Proof. split; vm_compute; reflexivity. Qed.
