(* ===== verification/Security.v ===== *)
(** * Access stratum security of a bearer

    Models the engines of [lib/security/security_engine_impl.cpp], [ciphering_engine_nea*.cpp],
    [integrity_engine_generic.cpp] and [integrity_engine_nia2_cmac.cpp], behind the interfaces of
    [include/srsran/security/security_engine.h].  SNOW 3G and ZUC are those of [Ciphering]; AES is
    mbedTLS's and is the class [SecurityAlgorithms]: counter mode and CMAC as functions of the key, the
    octets the engine prepares and the message.  What the engines rely on is [SecurityLaws].  The code
    hands a message to mbedTLS segment by segment, which is the same as the whole message.  Buffers are
    always allocated. *)

From S2P Require Import Prelude Snow3g Ciphering.
Open Scope Z_scope.

(** Proofs about the engines never look into the algorithms. *)
#[local] Opaque security_nea1 security_nea3 security_nia1 security_nia3.

Inductive security_error := buffer_failure | engine_failure | integrity_failure | ciphering_failure.
Inductive ciphering_algorithm := nea0 | nea1 | nea2 | nea3.
Inductive integrity_algorithm := nia0 | nia1 | nia2 | nia3.
Inductive sec_domain := domain_rrc | domain_up.

#[export] Instance security_error_eq_dec : EqDecision security_error.
Proof. solve_decision. Defined.
#[export] Instance integrity_algorithm_eq_dec : EqDecision integrity_algorithm.
Proof. solve_decision. Defined.
#[export] Instance sec_domain_eq_dec : EqDecision sec_domain.
Proof. solve_decision. Defined.

Definition sec_mac_len : Z := 4.

Record sec_128_as_config := mk_sec_config {
  sec_domain_of : sec_domain;
  k_128_int : option (list Z);
  k_128_enc : list Z;
  integ_algo : option integrity_algorithm;
  cipher_algo : ciphering_algorithm
}.

(** ** mbedTLS *)

(** [aes_ctr key counter message] ciphers from the initial counter block, [aes_cmac key message] is the
    16 octet MAC; both may report a failure. *)
Class SecurityAlgorithms := {
  aes_ctr : list Z -> list Z -> list Z -> option (list Z);
  aes_cmac : list Z -> list Z -> option (list Z)
}.

(** Counter mode adds a key stream, octet by octet; a CMAC has the size of a block. *)
Class SecurityLaws (A : SecurityAlgorithms) : Prop := {
  aes_ctr_length k n m m' : aes_ctr k n m = Some m' -> zlen m' = zlen m;
  aes_ctr_bytes k n m m' : aes_ctr k n m = Some m' -> bytes m -> bytes m';
  aes_ctr_involutive k n m m' : aes_ctr k n m = Some m' -> bytes m -> aes_ctr k n m' = Some m;
  aes_cmac_block k m t : aes_cmac k m = Some t -> zlen t = 16 /\ bytes t
}.

Module SecurityEngine.

(** A result: the buffer or an error. *)
Definition security_result : Type := list Z + security_error.

Record integrity_engine := mk_integ { ie_algo : integrity_algorithm; ie_key : list Z; ie_bearer_id : Z; ie_direction : security_direction }.
Record ciphering_engine := mk_cipher { ce_algo : ciphering_algorithm; ce_key : list Z; ce_bearer_id : Z; ce_direction : security_direction }.
Record security_engine_impl := mk_engine { integ_eng : option integrity_engine; cipher_eng : option ciphering_engine }.

(** The constructor; integrity needs an algorithm and a key. *)
Definition create (sec_cfg : sec_128_as_config) (bearer_id : Z) (direction : security_direction)
    (integrity_enabled ciphering_enabled : bool) : option security_engine_impl :=
  let cipher :=
    if ciphering_enabled then
      match cipher_algo sec_cfg with
      | nea0 => None
      | a => Some (mk_cipher a (k_128_enc sec_cfg) bearer_id direction)
      end
    else None in
  if integrity_enabled then
    match integ_algo sec_cfg, k_128_int sec_cfg with
    | Some a, Some k => Some (mk_engine (Some (mk_integ a k bearer_id direction)) cipher)
    | _, _ => None
    end
  else Some (mk_engine None cipher).

Section engines.
Context `{A : SecurityAlgorithms}.

(** [compute_mac] of the CMAC engine: the first four octets. *)
Definition nia2_cmac (key : list Z) (count bearer_id : Z) (direction : security_direction) (v : list Z) : option (list Z) :=
  let preamble := count_octets count ++
    [u8 (Z.lor (Z.shiftl bearer_id 3) (Z.shiftl (to_number_dir direction) 2)); 0; 0; 0] in
  match aes_cmac key (preamble ++ v) with Some tmp_mac => Some (take 4 tmp_mac) | None => None end.

(** [mac] as initialized. *)
Definition no_mac : list Z := [0; 0; 0; 0].

(** [compute_mac] of the CMAC engine and the [switch] of the generic one, with the message's length in bits. *)
Definition compute_mac (e : integrity_engine) (v : list Z) (count : Z) : option (list Z) :=
  match ie_algo e with
  | nia0 => Some no_mac
  | nia1 => Some (security_nia1 no_mac (ie_key e) count (ie_bearer_id e) (ie_direction e) v (8 * zlen v))
  | nia2 => nia2_cmac (ie_key e) count (ie_bearer_id e) (ie_direction e) v
  | nia3 => Some (security_nia3 no_mac (ie_key e) count (ie_bearer_id e) (ie_direction e) v (8 * zlen v))
  end.

Definition protect_integrity (e : integrity_engine) (buf : list Z) (count : Z) : security_result :=
  match compute_mac e buf count with
  | None => inr integrity_failure
  | Some mac => inl (buf ++ mac)
  end.

Definition verify_integrity (e : integrity_engine) (buf : list Z) (count : Z) : security_result :=
  if zlen buf <=? sec_mac_len then inr integrity_failure else
  let v := sub 0 (zlen buf - sec_mac_len) buf in
  let m := sub (zlen buf - sec_mac_len) sec_mac_len buf in
  match compute_mac e v count with
  | None => inr integrity_failure
  | Some mac => if decide (mac = m) then inl v else inr integrity_failure
  end.

(** The initial counter block of NEA2. *)
Definition nea2_nonce (bearer_id : Z) (direction : security_direction) (count : Z) : list Z :=
  count_octets count ++
  [Z.lor (Z.shiftl (Z.land bearer_id 0x1f) 3) (Z.shiftl (Z.land (to_number_dir direction) 0x01) 2);
   0; 0; 0; 0; 0; 0; 0; 0; 0; 0; 0].

(** The message is the buffer from [offset] on; the callers' buffers hold at least the header. *)
Definition apply_ciphering (e : ciphering_engine) (buf : list Z) (offset count : Z) : security_result :=
  let head := take (Z.to_nat offset) buf in
  let msg := drop (Z.to_nat offset) buf in
  match ce_algo e with
  | nea0 => inl buf
  | nea1 => inl (head ++ security_nea1 (ce_key e) count (ce_bearer_id e) (ce_direction e) msg (8 * zlen msg))
  | nea2 => match aes_ctr (ce_key e) (nea2_nonce (ce_bearer_id e) (ce_direction e) count) msg with
            | Some msg' => inl (head ++ msg')
            | None => inr ciphering_failure
            end
  | nea3 => inl (head ++ security_nea3 (ce_key e) count (ce_bearer_id e) (ce_direction e) msg (8 * zlen msg))
  end.

Definition encrypt_and_protect_integrity (e : security_engine_impl) (buf : list Z) (offset count : Z) : security_result :=
  let result := match integ_eng e with Some i => protect_integrity i buf count | None => inl buf end in
  match result with
  | inr err => inr err
  | inl buf => match cipher_eng e with Some c => apply_ciphering c buf offset count | None => inl buf end
  end.

Definition decrypt_and_verify_integrity (e : security_engine_impl) (buf : list Z) (offset count : Z) : security_result :=
  let result := match cipher_eng e with Some c => apply_ciphering c buf offset count | None => inl buf end in
  match result with
  | inr err => inr err
  | inl buf => match integ_eng e with Some i => verify_integrity i buf count | None => inl buf end
  end.

(** ** What the engines guarantee *)

Context `{L : !SecurityLaws A}.

Lemma compute_mac_length e v count mac : compute_mac e v count = Some mac -> zlen mac = sec_mac_len.
Proof.
  unfold compute_mac. destruct (ie_algo e); intros Hm; simplify_eq; [done|..].
  - by apply nia1_length.
  - unfold nia2_cmac in Hm. destruct (aes_cmac _ _) as [t|] eqn:E; [|done]. injection Hm as <-.
    apply aes_cmac_block in E as [E _]. unfold zlen, sec_mac_len in *. rewrite length_take. lia.
  - by apply nia3_length.
Qed.

(** Exactly the buffers that end in the MAC of what precedes it are accepted. *)
Lemma verify_integrity_spec e buf count v :
  verify_integrity e buf count = inl v <->
  v <> [] /\ exists mac, compute_mac e v count = Some mac /\ buf = v ++ mac.
Proof.
  unfold verify_integrity. split.
  - destruct (Z.leb_spec (zlen buf) sec_mac_len) as [|Hl]; [done|]. unfold sec_mac_len in *.
    set (v0 := sub 0 _ _). destruct (compute_mac e v0 count) as [mac|] eqn:Em; [|done].
    destruct (decide _) as [->|]; [|done]. intros [= <-].
    assert (zlen v0 = zlen buf - 4) as Hv by (apply zlen_sub; lia).
    split; [intros E; rewrite E in Hv; change (zlen (@nil Z)) with 0 in Hv; lia|].
    eexists. split; [done|]. unfold v0.
    rewrite <- (Z.add_0_l (zlen buf - 4)) at 2. rewrite sub_app by lia.
    replace (zlen buf - 4 + 4) with (zlen buf) by lia. by rewrite sub_all.
  - intros (Hv & mac & Em & ->). pose proof (compute_mac_length _ _ _ _ Em) as Hm.
    unfold sec_mac_len in *. rewrite zlen_app, Hm.
    assert (0 < zlen v). { destruct v; [done|]. rewrite zlen_cons. pose proof (zlen_nonneg v). lia. }
    destruct (Z.leb_spec (zlen v + 4) 4); [lia|]. replace (zlen v + 4 - 4) with (zlen v) by lia.
    assert (sub 0 (zlen v) (v ++ mac) = v) as ->.
    { unfold sub. simpl. unfold zlen. rewrite Nat2Z.id. apply take_app_length. }
    rewrite Em. assert (sub (zlen v) 4 (v ++ mac) = mac) as ->; [|by rewrite decide_True].
    unfold sub, zlen in *. rewrite Nat2Z.id, drop_app_length. apply take_ge. lia.
Qed.

(** Only what follows the header changes. *)
Lemma apply_ciphering_length e buf offset count buf' :
  0 <= offset <= zlen buf -> apply_ciphering e buf offset count = inl buf' ->
  zlen buf' = zlen buf /\ take (Z.to_nat offset) buf' = take (Z.to_nat offset) buf.
Proof.
  intros Ho Hc.
  assert (buf' = buf \/ exists m, zlen m = zlen (drop (Z.to_nat offset) buf) /\ buf' = take (Z.to_nat offset) buf ++ m) as [->|(m & Hm & ->)].
  { unfold apply_ciphering in Hc. destruct (ce_algo e); [left; congruence|right..].
    - injection Hc as <-. eexists. split; [|done]. apply nea1_length.
    - destruct (aes_ctr _ _ _) as [m|] eqn:E; [|done]. injection Hc as <-. eauto using aes_ctr_length.
    - injection Hc as <-. eexists. split; [|done]. apply nea3_length. }
  - done.
  - rewrite zlen_app, Hm, <- zlen_app, take_drop. split; [done|].
    rewrite take_app_le by (rewrite length_take; unfold zlen in *; lia). rewrite take_take. f_equal. lia.
Qed.

Lemma cipher_message e buf offset count msg :
  0 <= offset <= zlen buf -> apply_ciphering e (take (Z.to_nat offset) buf ++ msg) offset count =
  match ce_algo e with
  | nea0 => inl (take (Z.to_nat offset) buf ++ msg)
  | nea1 => inl (take (Z.to_nat offset) buf ++ security_nea1 (ce_key e) count (ce_bearer_id e) (ce_direction e) msg (8 * zlen msg))
  | nea2 => match aes_ctr (ce_key e) (nea2_nonce (ce_bearer_id e) (ce_direction e) count) msg with
            | Some msg' => inl (take (Z.to_nat offset) buf ++ msg')
            | None => inr ciphering_failure
            end
  | nea3 => inl (take (Z.to_nat offset) buf ++ security_nea3 (ce_key e) count (ce_bearer_id e) (ce_direction e) msg (8 * zlen msg))
  end.
Proof.
  intros Ho. unfold apply_ciphering. set (h := take (Z.to_nat offset) buf).
  assert (length h = Z.to_nat offset) as <- by (unfold h; rewrite length_take; unfold zlen in *; lia).
  by rewrite take_app_length, drop_app_length.
Qed.

Lemma apply_ciphering_inv e buf offset count buf' :
  bytes buf -> 0 <= offset <= zlen buf -> apply_ciphering e buf offset count = inl buf' ->
  apply_ciphering e buf' offset count = inl buf.
Proof.
  intros Hb Ho. assert (bytes (drop (Z.to_nat offset) buf)) as Hd by by apply Forall_drop.
  rewrite <- (take_drop (Z.to_nat offset) buf) at 1 2. set (m := drop _ buf) in *. rewrite cipher_message by done.
  destruct (ce_algo e) eqn:Ea.
  - intros [= <-]. by rewrite cipher_message, Ea by done.
  - intros [= <-]. rewrite cipher_message, Ea by done. destruct (nea1_involutive (ce_key e) count (ce_bearer_id e) (ce_direction e) m Hd) as (_ & _ & E). cbn zeta in E. by rewrite E.
  - destruct (aes_ctr _ _ m) as [m'|] eqn:E; [|done]. intros [= <-]. rewrite cipher_message, Ea by done.
    by rewrite (aes_ctr_involutive _ _ _ _ E Hd).
  - intros [= <-]. rewrite cipher_message, Ea by done. destruct (nea3_involutive (ce_key e) count (ce_bearer_id e) (ce_direction e) m Hd) as (_ & _ & E). cbn zeta in E. by rewrite E.
Qed.

Lemma compute_mac_bytes e v count mac : compute_mac e v count = Some mac -> bytes mac.
Proof.
  assert (bytes no_mac) as H0 by by apply bytes_check.
  unfold compute_mac. destruct (ie_algo e); intros Hm; simplify_eq; [done|..].
  - by apply nia1_bytes.
  - unfold nia2_cmac in Hm. destruct (aes_cmac _ _) as [t|] eqn:E; [|done]. injection Hm as <-.
    apply Forall_take. by eapply aes_cmac_block.
  - by apply nia3_bytes.
Qed.

(** What an engine protects is opened by an engine like it; protection only adds octets. *)
Lemma protected_opens e buf offset count pdu :
  bytes buf -> buf <> [] -> 0 <= offset <= zlen buf -> encrypt_and_protect_integrity e buf offset count = inl pdu ->
  decrypt_and_verify_integrity e pdu offset count = inl buf /\ take (Z.to_nat offset) pdu = take (Z.to_nat offset) buf /\
  zlen buf <= zlen pdu.
Proof.
  intros Hb Hne Ho. unfold encrypt_and_protect_integrity, decrypt_and_verify_integrity.
  destruct (match integ_eng e with Some i => protect_integrity i buf count | None => inl buf end) as [prot|] eqn:Ei; [|done].
  assert (zlen buf <= zlen prot /\ bytes prot /\ take (Z.to_nat offset) prot = take (Z.to_nat offset) buf /\
    match integ_eng e with Some i => verify_integrity i prot count | None => inl prot end = inl buf) as (Hp1 & Hp2 & Hp3 & Hp4).
  { destruct (integ_eng e) as [i|]; [|simplify_eq; done]. unfold protect_integrity in Ei.
    destruct (compute_mac i buf count) as [mac|] eqn:Em; [|done]. injection Ei as <-. rewrite zlen_app.
    split; [pose proof (zlen_nonneg mac); lia|]. split; [apply Forall_app; split; [done|by eapply compute_mac_bytes]|].
    split; [rewrite take_app_le; [done|unfold zlen in *; lia]|]. apply verify_integrity_spec. eauto. }
  destruct (cipher_eng e) as [c|].
  - intros Hc. rewrite (apply_ciphering_inv c prot offset count pdu) by (done || lia). split; [done|].
    destruct (apply_ciphering_length c prot offset count pdu) as [Hl Ht]; [lia|done|]. rewrite Ht. split; [done|lia].
  - intros [= <-]. done.
Qed.

(** C39: for every choice of algorithms and whatever the COUNT, what one engine protects and ciphers an
    engine of the same keys, bearer and direction deciphers, verifies and returns unchanged, and the
    octets of the header up to [offset] travel in clear. *)
Theorem security_roundtrip e buf offset count pdu :
  bytes buf -> buf <> [] -> 0 <= offset <= zlen buf -> encrypt_and_protect_integrity e buf offset count = inl pdu ->
  decrypt_and_verify_integrity e pdu offset count = inl buf /\ take (Z.to_nat offset) pdu = take (Z.to_nat offset) buf.
Proof. intros Hb Hne Ho He. by destruct (protected_opens e buf offset count pdu Hb Hne Ho He) as (? & ? & _). Qed.

(** What verification accepts was protected with this COUNT, or has the MAC of a message that was not:
    a failed check never returns a buffer, an empty payload never passes. *)
Lemma integrity_rejects e buf count :
  (forall v, v <> [] -> forall mac, compute_mac e v count = Some mac -> buf <> v ++ mac) ->
  verify_integrity e buf count = inr integrity_failure.
Proof.
  intros Hno. destruct (verify_integrity e buf count) as [v|err] eqn:E.
  - apply verify_integrity_spec in E as (Hv & mac & Hm & ->). by destruct (Hno v Hv mac Hm).
  - unfold verify_integrity in E. repeat case_match; simplify_eq; done.
Qed.

End engines.
End SecurityEngine.

(** ** A concrete instance

    The laws can hold together: an exclusive or with octets of the counter block, and a CMAC of the length
    of the data. *)

Definition example_stream (n m : list Z) : list Z := map (fun b => Z.lxor b (u8 (nth 3 n 0))) m.
Definition example_mac (m : list Z) : list Z := u8 (zlen m) :: u8 (nth 3 m 0) :: repeat 0xab 14.

#[export] Instance example_algorithms : SecurityAlgorithms := {
  aes_ctr k n m := Some (example_stream n m);
  aes_cmac k m := Some (example_mac m)
}.

#[export] Instance example_laws : SecurityLaws example_algorithms.
Proof.
  split; simpl; intros; simplify_eq.
  - unfold zlen, example_stream. by rewrite length_map.
  - apply Forall_map. eapply Forall_impl; [done|]. intros b Hb. apply is_byte_lxor; [done|apply u8_range].
  - f_equal. unfold example_stream. rewrite map_map. rewrite <- (map_id m) at 2. apply map_ext. intros b. lxor_ac.
  - split; [done|]. unfold example_mac. repeat (apply Forall_cons; split); try apply u8_range; done || apply Forall_nil.
Qed.

Definition example_engine (i : integrity_algorithm) (c : ciphering_algorithm) : SecurityEngine.security_engine_impl :=
  default (SecurityEngine.mk_engine None None) (SecurityEngine.create
    (mk_sec_config domain_up (Some [0x2b; 0xd6; 0x45; 0x9f; 0x82; 0xc5; 0xb3; 0; 0x95; 0x2c; 0x49; 0x10; 0x48; 0x81; 0xff; 0x48])
      [0xd3; 0xc5; 0xd5; 0x92; 0x32; 0x7f; 0xb1; 0x1c; 0x40; 0x35; 0xc6; 0x68; 0x0a; 0xf8; 0xc6; 0xd1] (Some i) c)
    7 dir_downlink true true).

Definition example_buffer : list Z := [0x80; 0x2a; 1; 2; 3; 0xff].
Definition example_protected (i : integrity_algorithm) (c : ciphering_algorithm) : list Z :=
  match SecurityEngine.encrypt_and_protect_integrity (example_engine i c) example_buffer 2 0x1002a with inl p => p | inr _ => [] end.

Lemma security_roundtrip_witness :
  zlen (example_protected nia1 nea3) = 10 /\
  SecurityEngine.decrypt_and_verify_integrity (example_engine nia1 nea3) (example_protected nia1 nea3) 2 0x1002a = inl example_buffer /\
  take 2 (example_protected nia1 nea3) = [0x80; 0x2a].
Proof.
  split; [vm_compute; reflexivity|].
  assert (bytes example_buffer) as Hb by by apply bytes_check.
  assert (example_buffer <> [] /\ 0 <= 2 <= zlen example_buffer) as [Hne Ho] by done.
  assert (SecurityEngine.encrypt_and_protect_integrity (example_engine nia1 nea3) example_buffer 2 0x1002a =
    inl (example_protected nia1 nea3)) as E by (vm_compute; reflexivity).
  exact (SecurityEngine.security_roundtrip (example_engine nia1 nea3) example_buffer 2 0x1002a (example_protected nia1 nea3) Hb Hne Ho E).
Defined.
