(* ===== verification/PdcpBase.v ===== *)
(** * PDCP: what both directions share

    Models [lib/pdcp/pdcp_sn.h], [lib/pdcp/pdcp_pdu.h], [lib/pdcp/pdcp_entity_tx_rx_base.h], the
    configuration types of [include/srsran/pdcp/pdcp_config.h], the reading and writing of the data
    PDU header ([pdcp_entity_rx::read_data_pdu_header], [pdcp_entity_tx::write_data_pdu_header]), the
    reconstruction of a COUNT from a sequence number that both directions contain, and the crypto
    tokens of [lib/pdcp/pdcp_crypto_token.h]. *)

From S2P Require Import Prelude Effects PdcpSn.
Open Scope Z_scope.
Open Scope entity_scope.

Inductive pdcp_rb_type := rb_srb | rb_drb.
Inductive pdcp_rlc_mode := mode_um | mode_am.
Inductive pdcp_security_direction := sd_uplink | sd_downlink.

#[export] Instance pdcp_rb_type_eq_dec : EqDecision pdcp_rb_type.
Proof. solve_decision. Defined.
#[export] Instance pdcp_rlc_mode_eq_dec : EqDecision pdcp_rlc_mode.
Proof. solve_decision. Defined.

(** The enumerators of [pdcp_t_reordering] and [pdcp_discard_timer] by their values. *)
Definition pdcp_t_reordering : Type := Z.
Definition t_reordering_ms0 : pdcp_t_reordering := 0.
Definition t_reordering_infinity : pdcp_t_reordering := -1.
Definition pdcp_discard_timer : Type := Z.
Definition discard_timer_infinity : pdcp_discard_timer := -1.

Record pdcp_max_count := mk_max_count { notify : Z; hard : Z }.
Record pdcp_count_info := mk_count_info { ci_sn : Z; ci_hfn : Z }.

(** ** Sequence numbers, hyper frame numbers and COUNTs *)

(** [pdcp_sn_size_to_uint]; its assertion excludes [invalid]. *)
Definition pdcp_sn_size_to_uint (s : pdcp_sn_size) : Z :=
  match s with pdcp_size12bits => 12 | pdcp_size18bits => 18 | pdcp_size_invalid => 19 end.

Definition pdcp_compute_sn (count : Z) (s : pdcp_sn_size) : Z :=
  Z.land count (Z.shiftr 0xffffffff (32 - pdcp_sn_size_to_uint s)).
Definition pdcp_compute_hfn (count : Z) (s : pdcp_sn_size) : Z := Z.shiftr count (pdcp_sn_size_to_uint s).
Definition pdcp_compute_count (hfn sn : Z) (s : pdcp_sn_size) : Z :=
  Z.lor (u32 (Z.shiftl hfn (pdcp_sn_size_to_uint s))) sn.
Definition pdcp_sn_cardinality (s : pdcp_sn_size) : Z := Z.shiftl 1 (pdcp_sn_size_to_uint s).
Definition pdcp_window_size (s : pdcp_sn_size) : Z :=
  match s with pdcp_size18bits => 131072 | _ => 2048 end.
Definition pdcp_data_pdu_header_size (s : pdcp_sn_size) : Z :=
  match s with pdcp_size18bits => 3 | _ => 2 end.

(** The COUNT of an SN seen from the lower edge [base] of a window: in [handle_data_pdu] of
    [pdcp_entity_rx.cpp] and [notification_count_estimation]. *)
Definition count_of_sn (s : pdcp_sn_size) (base sn : Z) : Z :=
  let hfn :=
    if sn <? pdcp_compute_sn base s - pdcp_window_size s then u32 (pdcp_compute_hfn base s + 1)
    else if u32 (pdcp_compute_sn base s + pdcp_window_size s) <=? sn then u32 (pdcp_compute_hfn base s - 1)
    else pdcp_compute_hfn base s in
  pdcp_compute_count hfn sn s.

(** ** PDU headers *)

Inductive pdcp_dc_field := pdcp_control | pdcp_data.
Definition to_number_pdcp_dc (d : pdcp_dc_field) : Z := match d with pdcp_control => 0 | pdcp_data => 1 end.
Definition pdcp_pdu_get_dc (first_byte : Z) : pdcp_dc_field :=
  if Z.land (Z.shiftr first_byte 7) 1 =? 0 then pdcp_control else pdcp_data.

Definition cpt_status_report : Z := 0.
Definition pdcp_control_pdu_get_cpt (first_byte : Z) : Z := Z.land (Z.shiftr first_byte 4) 7.

Definition pdcp_control_pdu_max_size : Z := 9000.

Definition read_data_pdu_header (s : pdcp_sn_size) (buf : list Z) : option Z :=
  if zlen buf <=? pdcp_data_pdu_header_size s then None else
  match s, buf with
  | pdcp_size12bits, b0 :: b1 :: _ => Some (Z.lor (Z.shiftl (Z.land b0 0x0f) 8) (Z.land b1 0xff))
  | pdcp_size18bits, b0 :: b1 :: b2 :: _ =>
      Some (Z.lor (Z.lor (Z.shiftl (Z.land b0 0x03) 16) (Z.shiftl (Z.land b1 0xff) 8)) (Z.land b2 0xff))
  | _, _ => None
  end.

(** The header octets [write_data_pdu_header] puts in front of the SDU. *)
Definition data_pdu_header (is_srb : bool) (s : pdcp_sn_size) (sn : Z) : option (list Z) :=
  let first := if is_srb then 0 else 0x80 in
  match s with
  | pdcp_size12bits => Some [Z.lor first (Z.shiftr (Z.land sn 0xf00) 8); Z.land sn 0xff]
  | pdcp_size18bits =>
      Some [Z.lor first (Z.shiftr (Z.land sn 0x30000) 16); Z.shiftr (Z.land sn 0xff00) 8; Z.land sn 0xff]
  | pdcp_size_invalid => None
  end.

(** ** Crypto tokens *)

(** [tokens] counts the PDUs handed to the crypto workers, minus one once [stop] was called. *)
Record pdcp_crypto_token_manager := mk_tokens { tokens : Z; pending_crypto : bool }.

Module Tokens.
Section tokens.
Context {S E : Type}.
Definition init : pdcp_crypto_token_manager := mk_tokens 0 false.
Definition increment_token (t : pdcp_crypto_token_manager) : pdcp_crypto_token_manager :=
  mk_tokens (u32 (tokens t + 1)) (pending_crypto t).
Definition return_token (t : pdcp_crypto_token_manager) : M S E pdcp_crypto_token_manager :=
  if tokens t =? 0xffffffff then abort else
  ret (mk_tokens (u32 (tokens t - 1)) (pending_crypto t || (tokens t =? 0))).
Definition start (t : pdcp_crypto_token_manager) : pdcp_crypto_token_manager :=
  increment_token (mk_tokens (tokens t) false).
Definition stop (t : pdcp_crypto_token_manager) : M S E pdcp_crypto_token_manager := return_token t.
End tokens.
End Tokens.

(** ** Lemmas *)

(** The supported SN sizes. *)
Definition sn_size_ok (s : pdcp_sn_size) : Prop := s <> pdcp_size_invalid.

Section sn.
Context (s : pdcp_sn_size) (Hs : sn_size_ok s).

Lemma sn_size_facts :
  0 < pdcp_sn_size_to_uint s <= 18 /\ pdcp_sn_cardinality s = 2 ^ pdcp_sn_size_to_uint s /\
  pdcp_sn_cardinality s = 2 * pdcp_window_size s /\ pdcp_window_size s = 2 ^ (pdcp_sn_size_to_uint s - 1) /\
  2048 <= pdcp_window_size s <= 131072.
Proof. destruct s; [vm_compute; repeat split; discriminate|vm_compute; repeat split; discriminate|done]. Qed.

Lemma compute_sn_mod count : pdcp_compute_sn count s = count mod pdcp_sn_cardinality s.
Proof.
  destruct s; [| |done]; unfold pdcp_compute_sn; simpl pdcp_sn_size_to_uint; simpl pdcp_sn_cardinality.
  - change (Z.shiftr 4294967295 (32 - 12)) with (2 ^ 12 - 1). by rewrite land_mask.
  - change (Z.shiftr 4294967295 (32 - 18)) with (2 ^ 18 - 1). by rewrite land_mask.
Qed.

Lemma compute_hfn_div count : pdcp_compute_hfn count s = count / pdcp_sn_cardinality s.
Proof.
  pose proof sn_size_facts as (? & -> & _). unfold pdcp_compute_hfn. by rewrite Z.shiftr_div_pow2 by lia.
Qed.

Lemma compute_count_eq hfn sn :
  0 <= sn < pdcp_sn_cardinality s -> pdcp_compute_count hfn sn s = u32 (hfn * pdcp_sn_cardinality s + sn).
Proof.
  pose proof sn_size_facts as (Hn & Hc & _). rewrite Hc. intros Hsn. unfold pdcp_compute_count.
  rewrite Z.shiftl_mul_pow2 by lia. set (n := pdcp_sn_size_to_uint s) in *.
  unfold u32. assert (2 ^ 32 = 2 ^ n * 2 ^ (32 - n)) as E by (rewrite <- Z.pow_add_r by lia; f_equal; lia).
  assert (0 < 2 ^ n) by (apply Z.pow_pos_nonneg; lia). assert (0 < 2 ^ (32 - n)) by (apply Z.pow_pos_nonneg; lia).
  rewrite E, (Z.mul_comm hfn), Z.mul_mod_distr_l by lia.
  rewrite (Z.mul_comm (2 ^ n) (hfn mod _)), <- Z.shiftl_mul_pow2, lor_shiftl_add by lia.
  rewrite (Z.rem_mul_r (2 ^ n * hfn + sn)) by lia.
  rewrite (Z.mul_comm (2 ^ n) hfn).
  rewrite (Z.add_comm (hfn * 2 ^ n) sn), Z_mod_plus_full, (Z.mod_small sn), Z.div_add, (Z.div_small sn) by lia.
  rewrite Z.add_0_l. lia.
Qed.

(** A COUNT is recovered from its SN by whoever knows the lower edge of a window around it. *)
Lemma count_of_sn_exact base count :
  0 <= base < 2 ^ 32 -> 0 <= count < 2 ^ 32 ->
  base - pdcp_window_size s <= count < base + pdcp_window_size s ->
  count_of_sn s base (pdcp_compute_sn count s) = count.
Proof.
  intros Hb Hcnt Hw. pose proof sn_size_facts as (_ & _ & Hc & _ & HW).
  unfold count_of_sn. rewrite !compute_sn_mod, !compute_hfn_div. rewrite Hc in *.
  set (W := pdcp_window_size s) in *. set (m := 2 * W) in *.
  assert (0 < m) by lia. pose proof (Z.mod_pos_bound base m). pose proof (Z.mod_pos_bound count m).
  pose proof (Z.div_mod base m ltac:(lia)) as Db. pose proof (Z.div_mod count m ltac:(lia)) as Dc.
  rewrite compute_count_eq by (rewrite Hc; fold W m; lia). rewrite Hc. fold W m.
  rewrite (u32_small (base mod m + W)) by lia.
  assert (0 <= base / m) by (apply Z.div_pos; lia). assert (0 <= count / m) by (apply Z.div_pos; lia).
  assert (forall h, h = count / m -> u32 (u32 h * m + count mod m) = count) as Fin.
  { intros h ->. rewrite (u32_small (count / m)) by nia. rewrite u32_small; lia. }
  assert (base / m - 1 <= count / m <= base / m + 1) by nia.
  destruct (Z.ltb_spec (count mod m) (base mod m - W)); [|destruct (Z.leb_spec (base mod m + W) (count mod m))].
  - apply Fin. nia.
  - apply Fin. nia.
  - rewrite <- (u32_small (base / m)) by nia. apply Fin. nia.
Qed.

(** Conversely the COUNT found lies around the edge, up to wrap-around. *)
Lemma count_of_sn_range base sn :
  0 <= base < 2 ^ 32 -> 0 <= sn < pdcp_sn_cardinality s ->
  exists c, count_of_sn s base sn = u32 c /\ base - pdcp_window_size s <= c < base + pdcp_window_size s /\
    c mod pdcp_sn_cardinality s = sn.
Proof.
  intros Hb Hsn. pose proof sn_size_facts as (_ & _ & Hc & _ & HW).
  unfold count_of_sn. rewrite !compute_sn_mod, !compute_hfn_div. rewrite Hc in *.
  set (W := pdcp_window_size s) in *. set (m := 2 * W) in *.
  assert (0 < m) by lia. pose proof (Z.mod_pos_bound base m). pose proof (Z.div_mod base m ltac:(lia)) as Db.
  rewrite compute_count_eq by (rewrite Hc; fold W m; lia). rewrite Hc. fold W m. rewrite (u32_small (base mod m + W)) by lia.
  assert (forall h, u32 (u32 h * m + sn) = u32 (h * m + sn)) as U.
  { intros h. unfold u32. by rewrite <- Zplus_mod_idemp_l, Zmult_mod_idemp_l, Zplus_mod_idemp_l. }
  assert (forall h, (h * m + sn) mod m = sn) as Hm by (intros; rewrite Z.add_comm, Z_mod_plus_full; apply Z.mod_small; lia).
  destruct (Z.ltb_spec sn (base mod m - W)); [|destruct (Z.leb_spec (base mod m + W) sn)].
  - exists ((base / m + 1) * m + sn). rewrite U. split; [done|]. split; [lia|apply Hm].
  - exists ((base / m - 1) * m + sn). rewrite U. split; [done|]. split; [lia|apply Hm].
  - exists (base / m * m + sn). split; [done|]. split; [lia|apply Hm].
Qed.

End sn.

(** The first octet of a header: [k] high bits of the SN below the D/C and reserved bits. *)
Lemma first_octet is_srb x k :
  k = 2 \/ k = 4 -> 0 <= x < 2 ^ k ->
  let b := Z.lor (if is_srb : bool then 0 else 0x80) x in
  is_byte b /\ Z.land b (2 ^ k - 1) = x /\ pdcp_pdu_get_dc b = if is_srb then pdcp_control else pdcp_data.
Proof.
  intros Hk Hx.
  pose proof (range_forall 16 (fun x => negb (x <? 2 ^ k) ||
    (let b := Z.lor (if is_srb : bool then 0 else 0x80) x in
     (0 <=? b) && (b <? 256) && (Z.land b (2 ^ k - 1) =? x) &&
     match pdcp_pdu_get_dc b with pdcp_control => is_srb | pdcp_data => negb is_srb end))) as F.
  specialize (F ltac:(destruct Hk as [-> | ->], is_srb; vm_compute; reflexivity) x).
  assert (2 ^ k <= 16) by (destruct Hk as [-> | ->]; lia). specialize (F ltac:(lia)). cbv beta zeta in F.
  destruct (Z.ltb_spec x (2 ^ k)); [|lia]. simpl negb in F. rewrite orb_false_l in F. cbv zeta.
  set (b := Z.lor _ x) in *. bool_prop. split; [done|]. split; [done|].
  destruct (pdcp_pdu_get_dc b), is_srb; done.
Qed.

Lemma shiftr_land_mask x k j : 0 <= k -> 0 <= j -> Z.shiftr (Z.land x (Z.shiftl (2 ^ j - 1) k)) k = (x / 2 ^ k) mod 2 ^ j.
Proof.
  intros. rewrite Z.shiftr_land, Z.shiftr_shiftl_l, Z.sub_diag, Z.shiftl_0_r, land_mask, Z.shiftr_div_pow2 by lia. done.
Qed.

(** Reading a written header gives back the SN, and the D/C bit tells data PDUs of DRBs. *)
Lemma pdcp_header_roundtrip s is_srb sn hdr sdu :
  0 <= sn < pdcp_sn_cardinality s -> data_pdu_header is_srb s sn = Some hdr -> sdu <> [] ->
  zlen hdr = pdcp_data_pdu_header_size s /\ Forall is_byte hdr /\ read_data_pdu_header s (hdr ++ sdu) = Some sn /\
  exists b rest, hdr = b :: rest /\ pdcp_pdu_get_dc b = if is_srb then pdcp_control else pdcp_data.
Proof.
  intros Hsn Hhdr Hne. assert (0 < zlen sdu) as Hl.
  { destruct sdu; [done|]. rewrite zlen_cons. pose proof (zlen_nonneg sdu). lia. }
  destruct s; [| |done]; simpl in Hhdr; injection Hhdr as <-; change (pdcp_sn_cardinality _) with (2 ^ 12) in Hsn || change (pdcp_sn_cardinality _) with (2 ^ 18) in Hsn;
    unfold read_data_pdu_header; rewrite zlen_app.
  - change (Z.land sn 3840) with (Z.land sn (Z.shiftl (2 ^ 4 - 1) 8)). rewrite shiftr_land_mask by lia.
    destruct (first_octet is_srb ((sn / 2 ^ 8) mod 2 ^ 4) 4) as (F1 & F2 & F3); [by right|apply Z.mod_pos_bound; lia|].
    cbv zeta in *. change (2 ^ 4 - 1) with 15 in F2. set (b := Z.lor _ _) in *. rewrite !land_255.
    split; [done|]. split; [repeat apply Forall_cons_2; [done|apply Z.mod_pos_bound; lia|done]|]. split; [|eauto].
    change (zlen [b; sn mod 256]) with 2. simpl pdcp_data_pdu_header_size. destruct (Z.leb_spec (2 + zlen sdu) 2); [lia|].
    cbn [app]. rewrite F2, land_255, lor_shiftl_add; [|lia|apply Z.mod_pos_bound; lia]. f_equal. zmod.
  - change (Z.land sn 196608) with (Z.land sn (Z.shiftl (2 ^ 2 - 1) 16)).
    change (Z.land sn 65280) with (Z.land sn (Z.shiftl (2 ^ 8 - 1) 8)). rewrite !shiftr_land_mask by lia.
    destruct (first_octet is_srb ((sn / 2 ^ 16) mod 2 ^ 2) 2) as (F1 & F2 & F3); [by left|apply Z.mod_pos_bound; lia|].
    cbv zeta in *. change (2 ^ 2 - 1) with 3 in F2. set (b := Z.lor _ _) in *. rewrite !land_255.
    split; [done|]. split; [repeat apply Forall_cons_2; try done; apply Z.mod_pos_bound; lia|]. split; [|eauto].
    change (zlen [b; (sn / 2 ^ 8) mod 2 ^ 8; sn mod 256]) with 3. simpl pdcp_data_pdu_header_size.
    destruct (Z.leb_spec (3 + zlen sdu) 3); [lia|]. cbn [app]. rewrite F2, !land_255.
    assert (Z.shiftl ((sn / 2 ^ 16) mod 2 ^ 2) 16 = Z.shiftl (Z.shiftl ((sn / 2 ^ 16) mod 2 ^ 2) 8) 8) as ->
      by (by rewrite Z.shiftl_shiftl).
    rewrite <- Z.shiftl_lor. change (2 ^ 8) with 256. rewrite !lor_shiftl_add; change (2 ^ 8) with 256. 2-5:zmod.
  f_equal. zmod.
Qed.
