(* ===== verification/PdcpRx.v ===== *)
(** * PDCP receiving entity

    Models [pdcp_entity_rx] of [lib/pdcp/pdcp_entity_rx.h] and [lib/pdcp/pdcp_entity_rx.cpp].  A PDU
    passes through three tasks: [handle_pdu] derives its COUNT, [apply_security] deciphers it and
    checks its integrity in a crypto worker, [apply_reordering] puts it into the window and delivers
    in order.  The tasks are events; an executor that rejects a task is the argument [accepted].
    Logging, latencies and times of arrival are left out; other metrics are events. *)

From S2P Require Import Prelude Effects Window Timers BitEncoding PdcpSn Ciphering Security PdcpBase.
Open Scope Z_scope.
Open Scope entity_scope.

Module PdcpRx.

Record pdcp_rx_config := mk_config {
  rb_type : pdcp_rb_type;
  rlc_mode : pdcp_rlc_mode;
  sn_size : pdcp_sn_size;
  direction : pdcp_security_direction;
  header_compression : bool;
  out_of_order_delivery : bool;
  t_reordering : pdcp_t_reordering;
  max_count : pdcp_max_count
}.

Record pdcp_rx_state := mk_state { rx_next : Z; rx_deliv : Z; rx_reord : Z }.

Record pdcp_rx_pdu_info := mk_pdu_info { pi_buf : list Z; pi_count : Z }.
Record pdcp_rx_sdu_info := mk_sdu_info { si_buf : list Z; si_count : Z }.

Definition sdu_info_default : pdcp_rx_sdu_info := mk_sdu_info [] 0.

Record pdcp_entity_rx := mk_entity {
  cfg : pdcp_rx_config;
  bearer_id : Z;
  max_nof_crypto_workers : nat;
  stopped : bool;
  sec_engine_pool : list (option SecurityEngine.security_engine_impl);
  integrity_enabled : bool;
  ciphering_enabled : bool;
  st : pdcp_rx_state;
  rx_window : CircularMap.t pdcp_rx_sdu_info;
  reordering_timer : unique_timer;
  token_mngr : pdcp_crypto_token_manager;
  buffering : bool;
  pdu_buffer : list (list Z);
  max_count_notified : bool;
  max_count_overflow : bool
}.

Inductive rx_event :=
| on_new_sdu (sdu : list Z)
| on_status_report (pdu : list Z)
| on_integrity_failure
| on_protocol_failure
| on_max_count_reached
| execute_apply_security (pdu_info : pdcp_rx_pdu_info)
| execute_apply_reordering (pdu_info : pdcp_rx_pdu_info)
| execute_handle_failure (err : security_error)
| metrics_add_pdus (n bytes : Z)
| metrics_add_dropped_pdus (n : Z)
| metrics_add_data_pdus (n bytes : Z)
| metrics_add_integrity_failed_pdus (n : Z)
| metrics_add_integrity_verified_pdus (n : Z)
| metrics_add_sdus (n bytes : Z)
| metrics_add_t_reordering_timeouts (n : Z).

(** ** Setters *)

Definition set_stopped (v : bool) (e : pdcp_entity_rx) : pdcp_entity_rx :=
  mk_entity (cfg e) (bearer_id e) (max_nof_crypto_workers e) v (sec_engine_pool e) (integrity_enabled e) (ciphering_enabled e)
    (st e) (rx_window e) (reordering_timer e) (token_mngr e) (buffering e) (pdu_buffer e) (max_count_notified e) (max_count_overflow e).
Definition set_security (pool : list (option SecurityEngine.security_engine_impl)) (integ ciph : bool) (e : pdcp_entity_rx) : pdcp_entity_rx :=
  mk_entity (cfg e) (bearer_id e) (max_nof_crypto_workers e) (stopped e) pool integ ciph
    (st e) (rx_window e) (reordering_timer e) (token_mngr e) (buffering e) (pdu_buffer e) (max_count_notified e) (max_count_overflow e).
Definition set_st (v : pdcp_rx_state) (e : pdcp_entity_rx) : pdcp_entity_rx :=
  mk_entity (cfg e) (bearer_id e) (max_nof_crypto_workers e) (stopped e) (sec_engine_pool e) (integrity_enabled e) (ciphering_enabled e)
    v (rx_window e) (reordering_timer e) (token_mngr e) (buffering e) (pdu_buffer e) (max_count_notified e) (max_count_overflow e).
Definition set_rx_window (v : CircularMap.t pdcp_rx_sdu_info) (e : pdcp_entity_rx) : pdcp_entity_rx :=
  mk_entity (cfg e) (bearer_id e) (max_nof_crypto_workers e) (stopped e) (sec_engine_pool e) (integrity_enabled e) (ciphering_enabled e)
    (st e) v (reordering_timer e) (token_mngr e) (buffering e) (pdu_buffer e) (max_count_notified e) (max_count_overflow e).
Definition set_reordering_timer (v : unique_timer) (e : pdcp_entity_rx) : pdcp_entity_rx :=
  mk_entity (cfg e) (bearer_id e) (max_nof_crypto_workers e) (stopped e) (sec_engine_pool e) (integrity_enabled e) (ciphering_enabled e)
    (st e) (rx_window e) v (token_mngr e) (buffering e) (pdu_buffer e) (max_count_notified e) (max_count_overflow e).
Definition set_token_mngr (v : pdcp_crypto_token_manager) (e : pdcp_entity_rx) : pdcp_entity_rx :=
  mk_entity (cfg e) (bearer_id e) (max_nof_crypto_workers e) (stopped e) (sec_engine_pool e) (integrity_enabled e) (ciphering_enabled e)
    (st e) (rx_window e) (reordering_timer e) v (buffering e) (pdu_buffer e) (max_count_notified e) (max_count_overflow e).
Definition set_buffer (b : bool) (v : list (list Z)) (e : pdcp_entity_rx) : pdcp_entity_rx :=
  mk_entity (cfg e) (bearer_id e) (max_nof_crypto_workers e) (stopped e) (sec_engine_pool e) (integrity_enabled e) (ciphering_enabled e)
    (st e) (rx_window e) (reordering_timer e) (token_mngr e) b v (max_count_notified e) (max_count_overflow e).
Definition set_max_count_flags (n o : bool) (e : pdcp_entity_rx) : pdcp_entity_rx :=
  mk_entity (cfg e) (bearer_id e) (max_nof_crypto_workers e) (stopped e) (sec_engine_pool e) (integrity_enabled e) (ciphering_enabled e)
    (st e) (rx_window e) (reordering_timer e) (token_mngr e) (buffering e) (pdu_buffer e) n o.

Definition set_rx_next (v : Z) (e : pdcp_entity_rx) : pdcp_entity_rx := set_st (mk_state v (rx_deliv (st e)) (rx_reord (st e))) e.
Definition set_rx_deliv (v : Z) (e : pdcp_entity_rx) : pdcp_entity_rx := set_st (mk_state (rx_next (st e)) v (rx_reord (st e))) e.
Definition set_rx_reord (v : Z) (e : pdcp_entity_rx) : pdcp_entity_rx := set_st (mk_state (rx_next (st e)) (rx_deliv (st e)) v) e.

Definition H (B : Type) : Type := M pdcp_entity_rx rx_event B.

Definition is_srb (e : pdcp_entity_rx) : bool := bool_decide (rb_type (cfg e) = rb_srb).
Definition is_um (e : pdcp_entity_rx) : bool := bool_decide (rlc_mode (cfg e) = mode_um).
Definition SN (e : pdcp_entity_rx) (count : Z) : Z := pdcp_compute_sn count (sn_size (cfg e)).
Definition HFN (e : pdcp_entity_rx) (count : Z) : Z := pdcp_compute_hfn count (sn_size (cfg e)).
Definition COUNT (e : pdcp_entity_rx) (hfn sn : Z) : Z := pdcp_compute_count hfn sn (sn_size (cfg e)).
Definition hdr_len_bytes (e : pdcp_entity_rx) : Z := pdcp_data_pdu_header_size (sn_size (cfg e)).
Definition window_size (e : pdcp_entity_rx) : Z := pdcp_window_size (sn_size (cfg e)).
Definition has_sn (e : pdcp_entity_rx) (count : Z) : bool := SduWindow.has_sn (rx_window e) count.

(** ** Construction and shutdown *)

(** The size of [pdu_buffer]. *)
Definition pdu_buffer_size : Z := 2048.

(** [None]: the configuration is refused with [report_error] or an assertion. *)
Definition create (config : pdcp_rx_config) (bearer : Z) (max_workers : nat) (rohc_supported : bool) : option pdcp_entity_rx :=
  if bool_decide (sn_size config = pdcp_size_invalid) then None else
  if header_compression config && (bool_decide (rb_type config = rb_srb) || negb rohc_supported) then None else
  let timer :=
    if negb (t_reordering config =? t_reordering_ms0) && negb (t_reordering config =? t_reordering_infinity)
    then mk_timer timer_stopped (Some (t_reordering config)) 0
    else create_timer in
  Some (mk_entity config bearer max_workers false (repeat None max_workers) false false (mk_state 0 0 0)
          (CircularMap.empty_map (pdcp_window_size (sn_size config))) timer Tokens.init false [] false false).

Definition return_token : H unit :=
  let! e := get in
  let! t := Tokens.return_token (token_mngr e) in
  modify (set_token_mngr t).

Definition stop : H unit :=
  let! e := get in
  when (negb (stopped e))
    (modify (set_stopped true) ;;;
     modify (set_reordering_timer (timer_stop (reordering_timer e))) ;;;
     return_token).

Definition notify_pdu_processing_stopped : H unit :=
  let! e := get in when (negb (stopped e)) return_token.

Definition restart_pdu_processing : H unit :=
  let! e := get in when (negb (stopped e)) (modify (set_token_mngr (Tokens.start (token_mngr e)))).

Definition get_count (e : pdcp_entity_rx) : pdcp_count_info :=
  mk_count_info (SN e (rx_deliv (st e))) (HFN e (rx_deliv (st e))).

Definition set_count (count_info : pdcp_count_info) (e : pdcp_entity_rx) : pdcp_entity_rx :=
  let count := COUNT e (ci_hfn count_info) (ci_sn count_info) in
  set_st (mk_state count count count) e.

(** ** Delivery *)

(** The SDU under a COUNT goes to the upper layer and leaves the window. *)
Definition deliver (count : Z) : H unit :=
  let! e := get in
  let! sdu_info := SduWindow.index (rx_window e) count in
  emit (metrics_add_sdus 1 (zlen (si_buf sdu_info))) ;;;
  emit (on_new_sdu (si_buf sdu_info)) ;;;
  let! w := SduWindow.remove_sn (rx_window e) count in
  modify (set_rx_window w).

Definition advance_rx_deliv : H unit := modify (fun e => set_rx_deliv (u32 (rx_deliv (st e) + 1)) e).

(** A loop that moves RX_DELIV up to [target] takes as many turns as the distance, plus one. *)
Definition deliv_fuel (e : pdcp_entity_rx) (target : Z) : nat := Datatypes.S (Z.to_nat (u32 (target - rx_deliv (st e)))).

Definition consecutive_step (_ : unit) : H (unit + unit) :=
  let! e := get in
  if negb (rx_deliv (st e) =? rx_next (st e)) && has_sn e (rx_deliv (st e)) then
    deliver (rx_deliv (st e)) ;;; advance_rx_deliv ;;; ret (inl tt)
  else ret (inr tt).

Definition deliver_all_consecutive_counts : H unit :=
  let! e := get in while_loop (deliv_fuel e (rx_next (st e))) consecutive_step tt.

(** Delivery of whatever is there in [count <= ... < rx_next]. *)
Fixpoint deliver_present (counts : list Z) : H unit :=
  match counts with
  | [] => ret tt
  | count :: counts' =>
      let! e := get in
      when (has_sn e count) (deliver count) ;;;
      deliver_present counts'
  end.

Definition deliver_all_sdus : H unit :=
  let! e := get in deliver_present (seqZ (rx_deliv (st e)) (rx_next (st e) - rx_deliv (st e))).

Definition discard_step (_ : unit) : H (unit + unit) :=
  let! e := get in
  if rx_deliv (st e) =? rx_next (st e) then ret (inr tt) else
  when (has_sn e (rx_deliv (st e)))
    (let! w := SduWindow.remove_sn (rx_window e) (rx_deliv (st e)) in modify (set_rx_window w)) ;;;
  advance_rx_deliv ;;; ret (inl tt).

Definition discard_all_sdus : H unit :=
  let! e := get in while_loop (deliv_fuel e (rx_next (st e))) discard_step tt.

Definition expire_step (_ : unit) : H (unit + unit) :=
  let! e := get in
  if rx_deliv (st e) =? rx_reord (st e) then ret (inr tt) else
  when (has_sn e (rx_deliv (st e))) (deliver (rx_deliv (st e))) ;;;
  advance_rx_deliv ;;; ret (inl tt).

Definition run_reordering_timer : H unit :=
  let! e := get in
  let! tm := timer_run (reordering_timer e) in
  modify (set_reordering_timer tm).

Definition handle_t_reordering_expire : H unit :=
  emit (metrics_add_t_reordering_timeouts 1) ;;;
  let! e := get in
  while_loop (deliv_fuel e (rx_reord (st e))) expire_step tt ;;;
  deliver_all_consecutive_counts ;;;
  let! e := get in
  when (rx_deliv (st e) <? rx_next (st e))
    (when (negb (t_reordering (cfg e) =? t_reordering_ms0))
       (modify (set_rx_reord (rx_next (st e))) ;;; run_reordering_timer)).

(** The expiry task of t-Reordering with the callback. *)
Definition reordering_timeout (epoch : Z) : H unit :=
  let! e := get in
  let! r := timeout_task (reordering_timer e) epoch in
  modify (set_reordering_timer (fst r)) ;;;
  when (snd r) (let! e := get in when (negb (stopped e)) handle_t_reordering_expire).

(** ** Reception *)

(** RCVD_COUNT of a sequence number. *)
Definition rcvd_count (e : pdcp_entity_rx) (sn : Z) : Z :=
  let rcvd_hfn :=
    if sn <? SN e (rx_deliv (st e)) - window_size e then u32 (HFN e (rx_deliv (st e)) + 1)
    else if u32 (SN e (rx_deliv (st e)) + window_size e) <=? sn then u32 (HFN e (rx_deliv (st e)) - 1)
    else HFN e (rx_deliv (st e)) in
  COUNT e rcvd_hfn sn.

Definition handle_data_pdu (accepted : bool) (pdu : list Z) : H unit :=
  emit (metrics_add_data_pdus 1 (zlen pdu)) ;;;
  let! e := get in
  if zlen pdu <=? hdr_len_bytes e then emit (metrics_add_dropped_pdus 1) else
  match read_data_pdu_header (sn_size (cfg e)) pdu with
  | None => emit (metrics_add_dropped_pdus 1)
  | Some sn =>
      let count := rcvd_count e sn in
      when (notify (max_count (cfg e)) <? count)
        (when (negb (max_count_notified e))
           (emit on_max_count_reached ;;; modify (fun e => set_max_count_flags true (max_count_overflow e) e))) ;;;
      if hard (max_count (cfg e)) <=? count then
        when (negb (max_count_overflow e))
          (emit on_protocol_failure ;;; modify (fun e => set_max_count_flags (max_count_notified e) true e))
      else
        modify (fun e => set_token_mngr (Tokens.increment_token (token_mngr e)) e) ;;;
        if accepted then emit (execute_apply_security (mk_pdu_info pdu count)) else return_token
  end.

Definition handle_control_pdu (pdu : list Z) : H unit :=
  match pdu with
  | [] => abort
  | hdr_byte :: _ =>
      assert_ (match pdcp_pdu_get_dc hdr_byte with pdcp_control => true | pdcp_data => false end) ;;;
      when (pdcp_control_pdu_get_cpt hdr_byte =? cpt_status_report) (emit (on_status_report pdu))
  end.

Definition handle_pdu (accepted : bool) (buf : list Z) : H unit :=
  let! e := get in
  if stopped e then ret tt else
  if buffering e then
    when (zlen (pdu_buffer e) <? pdu_buffer_size) (modify (set_buffer true (pdu_buffer e ++ [buf])))
  else
    emit (metrics_add_pdus 1 (zlen buf)) ;;;
    match buf with
    | [] => emit (metrics_add_dropped_pdus 1)
    | b0 :: _ =>
        if is_srb e || match pdcp_pdu_get_dc b0 with pdcp_data => true | pdcp_control => false end
        then handle_data_pdu accepted buf
        else handle_control_pdu buf
    end.

Definition begin_buffering (e : pdcp_entity_rx) : pdcp_entity_rx := set_buffer true (pdu_buffer e) e.

(** [accepted n]: whether the crypto executor takes the [n]-th PDU flushed. *)
Definition flush_step (accepted : nat -> bool) (n : nat) : H (nat + unit) :=
  let! e := get in
  match pdu_buffer e with
  | [] => ret (inr tt)
  | buf :: rest => modify (set_buffer (buffering e) rest) ;;; handle_pdu (accepted n) buf ;;; ret (inl (Datatypes.S n))
  end.

Definition end_buffering (accepted : nat -> bool) : H unit :=
  let! e := get in
  modify (set_buffer false (pdu_buffer e)) ;;;
  while_loop (Datatypes.S (length (pdu_buffer e))) (flush_step accepted) 0%nat.

Section security.
Context {A : SecurityAlgorithms}.

Definition apply_deciphering_and_integrity_check (worker_idx : nat) (buf : list Z) (count : Z) : H SecurityEngine.security_result :=
  let! e := get in
  if (max_nof_crypto_workers e <=? worker_idx)%nat then abort else
  let! sec_engine := need (sec_engine_pool e !! worker_idx) in
  match sec_engine with
  | None =>
      if is_srb e then
        if zlen buf <=? sec_mac_len then ret (inr buffer_failure)
        else ret (inl (sub 0 (zlen buf - sec_mac_len) buf))
      else ret (inl buf)
  | Some engine => ret (SecurityEngine.decrypt_and_verify_integrity engine buf (hdr_len_bytes e) count)
  end.

(** The task of a crypto worker.  Trimming more than there is fails an assertion of [byte_buffer]. *)
Definition apply_security (worker_idx : nat) (accepted : bool) (pdu_info : pdcp_rx_pdu_info) : H unit :=
  let! result := apply_deciphering_and_integrity_check worker_idx (pi_buf pdu_info) (pi_count pdu_info) in
  match result with
  | inr err => if accepted then emit (execute_handle_failure err) else return_token
  | inl buf =>
      let! e := get in
      let hdr_size := hdr_len_bytes e in
      assert_ (hdr_size <=? zlen buf) ;;;
      if accepted
      then emit (execute_apply_reordering (mk_pdu_info (drop (Z.to_nat hdr_size) buf) (pi_count pdu_info)))
      else return_token
  end.

(** The failure task in the UE executor. *)
Definition handle_failure (err : security_error) : H unit :=
  match err with
  | integrity_failure => emit (metrics_add_integrity_failed_pdus 1) ;;; emit on_integrity_failure
  | _ => emit on_protocol_failure
  end ;;;
  return_token.
End security.

(** The timer part of [apply_reordering]. *)
Definition handle_reordering_timers : H unit :=
  let! e := get in
  when (is_running (reordering_timer e) && (rx_reord (st e) <=? rx_deliv (st e)))
    (modify (set_reordering_timer (timer_stop (reordering_timer e)))) ;;;
  let! e := get in
  when (negb (t_reordering (cfg e) =? t_reordering_infinity))
    (if t_reordering (cfg e) =? t_reordering_ms0 then
       modify (set_rx_reord (rx_next (st e))) ;;; handle_t_reordering_expire
     else
       when (negb (is_running (reordering_timer e)) && (rx_deliv (st e) <? rx_next (st e)))
         (modify (set_rx_reord (rx_next (st e))) ;;; run_reordering_timer)).

(** A new COUNT enters the window; an older one in its slot was removed before. *)
Definition store_sdu (pdu_info : pdcp_rx_pdu_info) : H unit :=
  let! e := get in
  let! w := SduWindow.add_sn sdu_info_default (rx_window e) (pi_count pdu_info) in
  modify (set_rx_window (CircularMap.set_at w (u32 (pi_count pdu_info)) (mk_sdu_info (pi_buf pdu_info) (pi_count pdu_info)))).

Definition apply_reordering_body (pdu_info : pdcp_rx_pdu_info) : H unit :=
  let count := pi_count pdu_info in
  let! e := get in
  if count <? rx_deliv (st e) then ret tt else
  let! duplicate :=
    (if has_sn e count then
       let! sdu_info := SduWindow.index (rx_window e) count in
       if si_count sdu_info =? count then ret true else
       let! w := SduWindow.remove_sn (rx_window e) count in
       modify (set_rx_window w) ;;; ret false
     else ret false) in
  if duplicate : bool then ret tt else
  store_sdu pdu_info ;;;
  when (rx_next (st e) <=? count) (modify (set_rx_next (u32 (count + 1)))) ;;;
  when (count =? rx_deliv (st e)) deliver_all_consecutive_counts ;;;
  handle_reordering_timers.

(** The reordering task in the UE executor; the token is returned when it ends. *)
Definition apply_reordering (pdu_info : pdcp_rx_pdu_info) : H unit :=
  emit (metrics_add_integrity_verified_pdus 1) ;;; apply_reordering_body pdu_info ;;; return_token.

(** ** Security configuration and re-establishment *)

Definition configure_security (sec_cfg : sec_128_as_config) (integrity_enabled_ ciphering_enabled_ : bool) : H unit :=
  let! e := get in
  assert_ (bool_decide (sec_domain_of sec_cfg = if is_srb e then domain_rrc else domain_up)) ;;;
  if integrity_enabled_ && (match k_128_int sec_cfg with None => true | _ => false end ||
                            match integ_algo sec_cfg with None => true | _ => false end) then ret tt else
  assert_ (integrity_enabled_ || negb (is_srb e)) ;;;
  let dir := match direction (cfg e) with sd_uplink => dir_uplink | sd_downlink => dir_downlink end in
  let! engine := need (SecurityEngine.create sec_cfg (bearer_id e) dir integrity_enabled_ ciphering_enabled_) in
  modify (set_security (repeat (Some engine) (max_nof_crypto_workers e)) integrity_enabled_ ciphering_enabled_).

Definition reestablish (sec_cfg : sec_128_as_config) : H unit :=
  let! e := get in
  when (is_srb e) discard_all_sdus ;;;
  let! e := get in
  when (is_srb e || is_um e)
    (when (is_running (reordering_timer e)) (modify (set_reordering_timer (timer_stop (reordering_timer e)))) ;;;
     when (is_um e) deliver_all_sdus) ;;;
  when (is_srb e || is_um e) (modify (set_st (mk_state 0 0 0))) ;;;
  configure_security sec_cfg (integrity_enabled e) (ciphering_enabled e).

(** ** Status report *)

Definition max_bits : Z := (pdcp_control_pdu_max_size - 5) * 8.

Definition bitmap_end (e : pdcp_entity_rx) : Z :=
  let bitmap_begin := u32 (rx_deliv (st e) + 1) in
  if (bitmap_begin <? rx_next (st e)) && (max_bits <? rx_next (st e) - bitmap_begin)
  then bitmap_begin + max_bits else rx_next (st e).

Definition compile_status_report (e : pdcp_entity_rx) : list Z :=
  let enc := pack 0 4 (pack cpt_status_report 3 (pack (to_number_pdcp_dc pdcp_control) 1 new_encoder)) in
  let enc := pack (rx_deliv (st e)) 32 enc in
  let bitmap_begin := u32 (rx_deliv (st e) + 1) in
  be_bytes (fold_left (fun enc i => pack (if has_sn e i then 1 else 0) 1 enc)
              (seqZ bitmap_begin (bitmap_end e - bitmap_begin)) enc).

End PdcpRx.
