(* ===== verification/PdcpRxFacts.v ===== *)
(** * PDCP receiving entity: invariant and delivery

    [rx_inv c0 R e] describes an entity whose window started at COUNT [c0] and has since taken the
    SDUs [R], by COUNT.  Delivery to the upper layer is the part of [R] that RX_DELIV passes. *)

From S2P Require Import Prelude Effects Window Timers BitEncoding PdcpSn Ciphering Security PdcpBase PdcpRx.
Import PdcpRx.
Open Scope Z_scope.
Open Scope entity_scope.

(** ** Events *)

Inductive rx_task :=
| task_security (pdu_info : pdcp_rx_pdu_info)
| task_reordering (pdu_info : pdcp_rx_pdu_info)
| task_failure (err : security_error).

(** The SDUs delivered and the tasks dispatched by a run. *)
Definition sdus (es : list rx_event) : list (list Z) :=
  omap (fun ev => match ev with on_new_sdu s => Some s | _ => None end) es.
Definition dispatched (es : list rx_event) : list rx_task :=
  omap (fun ev => match ev with
    | execute_apply_security i => Some (task_security i)
    | execute_apply_reordering i => Some (task_reordering i)
    | execute_handle_failure err => Some (task_failure err)
    | _ => None
    end) es.

Lemma sdus_app es es' : sdus (es ++ es') = sdus es ++ sdus es'.
Proof. apply omap_app. Qed.
Lemma dispatched_app es es' : dispatched (es ++ es') = dispatched es ++ dispatched es'.
Proof. apply omap_app. Qed.

(** The SDUs of [R] with COUNTs in [a, b), in ascending order. *)
Definition between (R : gmap Z (list Z)) (a b : Z) : list (list Z) := omap (fun c => R !! c) (seqZ a (b - a)).

Lemma between_nil R a : between R a a = [].
Proof. unfold between. by rewrite Z.sub_diag. Qed.

Lemma between_app R a b c : a <= b <= c -> between R a b ++ between R b c = between R a c.
Proof.
  intros. unfold between. rewrite <- omap_app. f_equal. replace (c - a) with ((b - a) + (c - b)) by lia.
  rewrite seqZ_app by lia. f_equal. f_equal. lia.
Qed.

Lemma between_one R a : between R a (a + 1) = match R !! a with Some s => [s] | None => [] end.
Proof.
  unfold between. replace (a + 1 - a) with 1 by lia. rewrite seqZ_cons by lia. cbn [omap list_omap Z.pred Z.add seqZ].
  by destruct (R !! a).
Qed.

Lemma between_ext R R' a b : (forall c, a <= c < b -> R !! c = R' !! c) -> between R a b = between R' a b.
Proof.
  intros E. unfold between. apply list_omap_ext. apply Forall2_same_length_lookup_2; [done|].
  intros i x y Hx Hy. simplify_eq. apply E. apply lookup_seqZ in Hx as [-> ?]. lia.
Qed.

(** ** The invariant *)

Definition timer_configured (e : pdcp_entity_rx) : bool :=
  negb (t_reordering (cfg e) =? t_reordering_ms0) && negb (t_reordering (cfg e) =? t_reordering_infinity).

(** Configurations: a known SN size and a maximum COUNT of 32 bits. *)
Definition config_ok (c : pdcp_rx_config) : Prop :=
  sn_size_ok (sn_size c) /\ 0 <= hard (max_count c) < 2 ^ 32 - 1.

Record core_inv (c0 : Z) (R : gmap Z (list Z)) (e : pdcp_entity_rx) : Prop := {
  ci_cfg : config_ok (cfg e);
  ci_wf : CircularMap.wf (rx_window e);
  ci_cap : CircularMap.capacity (rx_window e) = window_size e;
  ci_order : 0 <= c0 <= rx_deliv (st e) /\ rx_deliv (st e) <= rx_next (st e) <= rx_deliv (st e) + window_size e;
  ci_hard : rx_next (st e) <= hard (max_count (cfg e));
  ci_win : forall c, 0 <= c < 2 ^ 32 -> CircularMap.lookup (rx_window e) c =
             if rx_deliv (st e) <=? c then (fun s => mk_sdu_info s c) <$> R !! c else None;
  ci_R : forall c s, R !! c = Some s -> c0 <= c < rx_next (st e);
  ci_last : rx_deliv (st e) < rx_next (st e) -> is_Some (R !! (rx_next (st e) - 1))
}.

Record rx_inv (c0 : Z) (R : gmap Z (list Z)) (e : pdcp_entity_rx) : Prop := {
  ri_core : core_inv c0 R e;
  ri_missing : R !! rx_deliv (st e) = None;
  ri_set : is_set (reordering_timer e) = timer_configured e;
  ri_running : is_running (reordering_timer e) = true ->
    timer_configured e = true /\ rx_deliv (st e) < rx_reord (st e) <= rx_next (st e);
  ri_started : timer_configured e = true -> stopped e = false -> rx_deliv (st e) < rx_next (st e) ->
    is_running (reordering_timer e) = true;
  ri_ms0 : t_reordering (cfg e) = t_reordering_ms0 -> rx_deliv (st e) = rx_next (st e)
}.

Lemma window_facts e : config_ok (cfg e) ->
  2048 <= window_size e <= 131072 /\ pdcp_sn_cardinality (sn_size (cfg e)) = 2 * window_size e /\
  exists j, 0 <= j /\ window_size e = 2 ^ j.
Proof.
  intros [Hs _]. destruct (sn_size_facts _ Hs) as (H1 & _ & H2 & H3 & H4). unfold window_size.
  split; [done|]. split; [done|]. eexists. split; [|exact H3]. lia.
Qed.

(** [advanced e e' k es]: RX_DELIV moved up to [k]; what it passed left the window. *)
Definition advanced (R : gmap Z (list Z)) (e e' : pdcp_entity_rx) (k : Z) (es : list rx_event) : Prop :=
  exists w, e' = set_rx_deliv k (set_rx_window w e) /\ CircularMap.wf w /\
    CircularMap.capacity w = CircularMap.capacity (rx_window e) /\
    (forall c, CircularMap.lookup w c = if (rx_deliv (st e) <=? c) && (c <? k) then None else CircularMap.lookup (rx_window e) c) /\
    sdus es = between R (rx_deliv (st e)) k /\ dispatched es = [].

Lemma advanced_refl R e : CircularMap.wf (rx_window e) -> advanced R e e (rx_deliv (st e)) [].
Proof.
  intros Hwf. exists (rx_window e). split; [by destruct e as [? ? ? ? ? ? ? []]|]. split; [done|]. split; [done|].
  split; [|by rewrite between_nil]. intros c.
  destruct (Z.leb_spec (rx_deliv (st e)) c), (Z.ltb_spec c (rx_deliv (st e))); done || lia.
Qed.

Lemma advanced_core c0 R e e' k es :
  core_inv c0 R e -> rx_deliv (st e) <= k <= rx_next (st e) -> advanced R e e' k es -> core_inv c0 R e'.
Proof.
  intros Hi Hk (w & -> & Hwf & Hcap & Hlook & _). pose proof (ci_order _ _ _ Hi).
  constructor; simpl; try apply Hi; try done.
  - rewrite Hcap. apply Hi.
  - unfold window_size in *. simpl. lia.
  - intros c Hc. rewrite Hlook, (ci_win _ _ _ Hi) by done.
    destruct (Z.leb_spec (rx_deliv (st e)) c), (Z.leb_spec k c), (Z.ltb_spec c k); simpl; done || lia.
  - intros. apply Hi. lia.
Qed.

(** An SDU of the window delivered. *)
Lemma wp_deliver_one e count si :
  u32 count = count -> CircularMap.lookup (rx_window e) count = Some si ->
  wp (deliver count) (fun _ e' es => e' = set_rx_window (fst (CircularMap.erase (rx_window e) count)) e /\
    sdus es = [si_buf si] /\ dispatched es = []) e.
Proof.
  intros Hu Hl. unfold deliver, SduWindow.index, SduWindow.remove_sn, SduWindow.has_sn. wp_step. wp_step.
  wp_step. rewrite Hu. eapply CircularMap.wp_at; [exact Hl|]. do 4 wp_step.
  assert (CircularMap.contains (rx_window e) count = true) as -> by (apply CircularMap.contains_true; eauto). simpl.
  do 2 wp_step. wp_step. done.
Qed.

(** One SDU delivered, RX_DELIV moved by one. *)
Lemma wp_deliver c0 R e0 e es count s :
  core_inv c0 R e0 -> rx_deliv (st e0) <= count < rx_next (st e0) -> advanced R e0 e count es -> R !! count = Some s ->
  wp (deliver count) (fun _ e' es' => advanced R e0 (set_rx_deliv (u32 (rx_deliv (st e') + 1)) e') (count + 1) (es ++ es') /\
    st e' = st e) e.
Proof.
  intros Hi Hc (w & -> & Hwf & Hcap & Hlook & Hs & Hd) HR.
  pose proof (ci_order _ _ _ Hi). pose proof (ci_hard _ _ _ Hi). pose proof (ci_cfg _ _ _ Hi) as [_ Hh].
  pose proof (window_facts e0 (ci_cfg _ _ _ Hi)) as (HW & Hcard & _).
  assert (u32 count = count) as Hu by (apply u32_small; lia).
  assert (CircularMap.lookup w count = Some (mk_sdu_info s count)) as Hl.
  { rewrite Hlook, (ci_win _ _ _ Hi) by lia. destruct (Z.leb_spec (rx_deliv (st e0)) count); [|lia].
    destruct (Z.ltb_spec count count); [lia|]. simpl. by rewrite HR. }
  eapply wp_mono; [by apply (wp_deliver_one _ count (mk_sdu_info s count))|]. cbv beta. intros _ e' es' (-> & Hs' & Hd').
  split; [|done]. exists (fst (CircularMap.erase w count)). simpl.
  rewrite u32_small by lia. split; [done|]. split; [by apply CircularMap.wf_erase|]. split; [by rewrite CircularMap.capacity_erase|].
  split; [|split].
  - intros c. rewrite CircularMap.lookup_erase, Hlook by done.
    destruct (Z.eqb_spec c count) as [->|].
    + destruct (Z.leb_spec (rx_deliv (st e0)) count), (Z.ltb_spec count (count + 1)); simpl; done || lia.
    + destruct (Z.leb_spec (rx_deliv (st e0)) c), (Z.ltb_spec c (count + 1)), (Z.ltb_spec c count); simpl; done || lia.
  - rewrite sdus_app, Hs, Hs'. rewrite <- (between_app R (rx_deliv (st e0)) count (count + 1)), between_one, HR by lia. done.
  - by rewrite dispatched_app, Hd, Hd'.
Qed.

(** Passing a COUNT that was not received. *)
Lemma advanced_skip c0 R e0 e es count :
  core_inv c0 R e0 -> rx_deliv (st e0) <= count < rx_next (st e0) -> advanced R e0 e count es -> R !! count = None ->
  advanced R e0 (set_rx_deliv (u32 (rx_deliv (st e) + 1)) e) (count + 1) es.
Proof.
  intros Hi Hc (w & -> & Hwf & Hcap & Hlook & Hs & Hd) HR.
  pose proof (ci_order _ _ _ Hi). pose proof (ci_hard _ _ _ Hi). pose proof (ci_cfg _ _ _ Hi) as [_ Hh].
  pose proof (window_facts e0 (ci_cfg _ _ _ Hi)) as (HW & Hcard & _).
  exists w. simpl. rewrite u32_small by lia. split; [done|]. split; [done|]. split; [done|]. split; [|split; [|done]].
  - intros c. rewrite Hlook. destruct (Z.eq_dec c count) as [->|].
    + rewrite (ci_win _ _ _ Hi) by lia. rewrite HR.
      destruct (Z.leb_spec (rx_deliv (st e0)) count), (Z.ltb_spec count count), (Z.ltb_spec count (count + 1)); simpl; done || lia.
    + destruct (Z.leb_spec (rx_deliv (st e0)) c), (Z.ltb_spec c (count + 1)), (Z.ltb_spec c count); simpl; done || lia.
  - rewrite Hs, <- (between_app R (rx_deliv (st e0)) count (count + 1)), between_one, HR, app_nil_r by lia. done.
Qed.

Lemma advanced_has_sn c0 R e0 e es count :
  core_inv c0 R e0 -> rx_deliv (st e0) <= count <= rx_next (st e0) -> advanced R e0 e count es ->
  has_sn e count = match R !! count with Some _ => true | None => false end.
Proof.
  intros Hi Hc (w & -> & Hwf & Hcap & Hlook & _).
  pose proof (ci_order _ _ _ Hi). pose proof (ci_hard _ _ _ Hi). pose proof (ci_cfg _ _ _ Hi) as [_ Hh].
  pose proof (window_facts e0 (ci_cfg _ _ _ Hi)) as (HW & Hcard & _).
  unfold has_sn, SduWindow.has_sn. rewrite u32_small by lia. simpl. rewrite CircularMap.contains_lookup, Hlook, (ci_win _ _ _ Hi) by lia.
  destruct (Z.leb_spec (rx_deliv (st e0)) count); [|lia]. destruct (Z.ltb_spec count count); [lia|]. simpl.
  by destruct (R !! count).
Qed.

(** ** The delivery loops *)

(** The members that reception leaves alone. *)
Definition setup (e : pdcp_entity_rx) : pdcp_crypto_token_manager * list (option SecurityEngine.security_engine_impl) * bool * nat * bool * list (list Z) :=
  (token_mngr e, sec_engine_pool e, integrity_enabled e, max_nof_crypto_workers e, buffering e, pdu_buffer e).
Arguments setup : simpl never.

Lemma setup_timer t e : setup (set_reordering_timer t e) = setup e.
Proof. done. Qed.
Lemma setup_st s e : setup (set_st s e) = setup e.
Proof. done. Qed.
Lemma setup_window w e : setup (set_rx_window w e) = setup e.
Proof. done. Qed.
Lemma setup_reord v e : setup (set_rx_reord v e) = setup e.
Proof. done. Qed.
#[export] Hint Rewrite setup_timer setup_st setup_window setup_reord : setup.


Lemma advanced_st R e e' k es : advanced R e e' k es ->
  cfg e' = cfg e /\ stopped e' = stopped e /\ reordering_timer e' = reordering_timer e /\ setup e' = setup e /\
  st e' = mk_state (rx_next (st e)) k (rx_reord (st e)).
Proof. by intros (w & -> & _). Qed.

Lemma core_next_missing c0 R e : core_inv c0 R e -> R !! rx_next (st e) = None.
Proof. intros Hi. destruct (R !! rx_next (st e)) eqn:E; [|done]. apply (ci_R _ _ _ Hi) in E. lia. Qed.

Lemma wp_deliver_all_consecutive c0 R e :
  core_inv c0 R e ->
  wp deliver_all_consecutive_counts (fun _ e' es => exists k, rx_deliv (st e) <= k <= rx_next (st e) /\
    advanced R e e' k es /\ R !! k = None /\ (forall c, rx_deliv (st e) <= c < k -> is_Some (R !! c))) e.
Proof.
  intros Hi. pose proof (ci_order _ _ _ Hi). pose proof (window_facts e (ci_cfg _ _ _ Hi)) as (HW & _).
  unfold deliver_all_consecutive_counts, deliv_fuel. do 2 wp_step. rewrite u32_small by lia.
  apply (wp_while_loop (fun n _ e1 es => exists k, rx_deliv (st e) <= k <= rx_next (st e) /\ advanced R e e1 k es /\
    (forall c, rx_deliv (st e) <= c < k -> is_Some (R !! c)) /\ Z.of_nat n = rx_next (st e) - k + 1)).
  - exists (rx_deliv (st e)). split; [lia|]. split; [apply advanced_refl, Hi|]. split; lia.
  - intros [] e1 es (k & ? & _ & _ & ?). lia.
  - intros n [] e1 es (k & Hk & Ha & Hpass & Hn). unfold consecutive_step. do 2 wp_step.
    destruct (advanced_st _ _ _ _ _ Ha) as (_ & _ & _ & _ & Hst). rewrite Hst. simpl.
    rewrite (advanced_has_sn _ _ _ _ _ _ Hi Hk Ha). apply wp_if.
    + intros Hb. apply andb_true_iff in Hb as [Hne Hb]. bool_prop. destruct (R !! k) as [s|] eqn:HR; [|done].
      wp_step. eapply wp_mono; [apply (wp_deliver c0 R e e1 es k s); [done|lia|done|done]|]. cbv beta.
      intros _ e2 es2 [Ha2 _]. unfold advance_rx_deliv. do 3 wp_step. rewrite app_nil_r. exists (k + 1).
      split; [lia|]. split; [done|]. split; [|lia]. intros c Hc. destruct (Z.eq_dec c k) as [->|]; [eauto|]. apply Hpass. lia.
    + intros Hb. wp_step. rewrite app_nil_r. exists k. split; [done|]. split; [done|]. split; [|done].
      apply andb_false_iff in Hb as [Hb|Hb]; bool_prop.
      * subst. by eapply core_next_missing.
      * by destruct (R !! k).
Qed.

(** RX_DELIV moved to a target, whatever is missing on the way. *)
Lemma wp_expire_loop c0 R e :
  core_inv c0 R e -> rx_deliv (st e) <= rx_reord (st e) <= rx_next (st e) ->
  wp (while_loop (deliv_fuel e (rx_reord (st e))) expire_step tt)
    (fun _ e' es => advanced R e e' (rx_reord (st e)) es) e.
Proof.
  intros Hi Ht. pose proof (ci_order _ _ _ Hi). pose proof (window_facts e (ci_cfg _ _ _ Hi)) as (HW & _).
  unfold deliv_fuel. rewrite u32_small by lia.
  apply (wp_while_loop (fun n _ e1 es => exists k, rx_deliv (st e) <= k <= rx_reord (st e) /\ advanced R e e1 k es /\
    Z.of_nat n = rx_reord (st e) - k + 1)).
  - exists (rx_deliv (st e)). split; [lia|]. split; [apply advanced_refl, Hi|lia].
  - intros [] e1 es (k & ? & _ & ?). lia.
  - intros n [] e1 es (k & Hk & Ha & Hn). unfold expire_step. do 2 wp_step.
    destruct (advanced_st _ _ _ _ _ Ha) as (_ & _ & _ & _ & Hst). rewrite Hst. simpl. apply wp_if; intros Hb; bool_prop.
    { wp_step. by rewrite app_nil_r, <- Hb. }
    rewrite (advanced_has_sn _ _ _ _ _ k Hi) by (done || lia). destruct (R !! k) as [s|] eqn:HR; wp_step; cbn [when].
    + eapply wp_mono; [apply (wp_deliver c0 R e e1 es k s); [done|lia|done|done]|]. cbv beta.
      intros _ e2 es2 [Ha2 _]. unfold advance_rx_deliv. do 3 wp_step. rewrite app_nil_r. exists (k + 1). split; [lia|]. split; [done|lia].
    + wp_step. unfold advance_rx_deliv. do 3 wp_step. rewrite app_nil_r. exists (k + 1). split; [lia|]. split; [|lia].
      apply (advanced_skip c0); [done|lia|done|done].
Qed.

Lemma advanced_trans c0 R e e1 e2 k1 k2 es1 es2 :
  core_inv c0 R e -> rx_deliv (st e) <= k1 <= k2 -> advanced R e e1 k1 es1 -> advanced R e1 e2 k2 es2 ->
  advanced R e e2 k2 (es1 ++ es2).
Proof.
  intros Hi Hk (w1 & -> & Hwf1 & Hcap1 & Hlook1 & Hs1 & Hd1) (w2 & -> & Hwf2 & Hcap2 & Hlook2 & Hs2 & Hd2).
  exists w2. split; [done|]. split; [done|]. simpl in *. split; [congruence|]. split; [|split].
  - intros c. rewrite Hlook2, Hlook1.
    destruct (Z.leb_spec (rx_deliv (st e)) c), (Z.ltb_spec c k2), (Z.leb_spec k1 c), (Z.ltb_spec c k1); simpl; done || lia.
  - rewrite sdus_app, Hs1, Hs2. apply between_app. lia.
  - by rewrite dispatched_app, Hd1, Hd2.
Qed.

(** ** t-Reordering *)

(** What an operation leaves of the entity besides window, RX_DELIV, RX_REORD and timer. *)
Definition delivering (R : gmap Z (list Z)) (e e' : pdcp_entity_rx) (es : list rx_event) : Prop :=
  cfg e' = cfg e /\ stopped e' = stopped e /\ setup e' = setup e /\ rx_next (st e') = rx_next (st e) /\
  rx_deliv (st e) <= rx_deliv (st e') /\
  sdus es = between R (rx_deliv (st e)) (rx_deliv (st e')) /\ dispatched es = [].

Lemma core_inv_same c0 R e e' :
  core_inv c0 R e -> cfg e' = cfg e -> rx_window e' = rx_window e -> rx_next (st e') = rx_next (st e) ->
  rx_deliv (st e') = rx_deliv (st e) -> core_inv c0 R e'.
Proof.
  intros Hi Hc Hw Hn Hd. destruct Hi. unfold window_size in *. constructor; unfold window_size; rewrite ?Hc, ?Hw, ?Hn, ?Hd; done.
Qed.

(** The first COUNT at or after [k] that is missing. *)
Definition first_missing (R : gmap Z (list Z)) (k k' : Z) : Prop :=
  k <= k' /\ R !! k' = None /\ forall c, k <= c < k' -> is_Some (R !! c).

Lemma wp_handle_t_reordering_expire c0 R e :
  core_inv c0 R e -> rx_deliv (st e) <= rx_reord (st e) <= rx_next (st e) ->
  is_set (reordering_timer e) = timer_configured e -> is_running (reordering_timer e) = false ->
  (t_reordering (cfg e) = t_reordering_infinity -> rx_reord (st e) = rx_next (st e)) ->
  (t_reordering (cfg e) = t_reordering_ms0 -> rx_reord (st e) = rx_next (st e)) ->
  wp handle_t_reordering_expire (fun _ e' es => rx_inv c0 R e' /\ delivering R e e' es /\
    first_missing R (rx_reord (st e)) (rx_deliv (st e'))) e.
Proof.
  intros Hi Ht Hset Hrun Hinf Hms0. unfold handle_t_reordering_expire. do 5 wp_step.
  eapply wp_mono; [by apply (wp_expire_loop c0)|]. cbv beta. intros _ e1 es1 Ha1.
  assert (core_inv c0 R e1) as Hi1 by (eapply advanced_core; [done| |done]; lia).
  destruct (advanced_st _ _ _ _ _ Ha1) as (Hc1 & Hst1 & Htm1 & Htok1 & Hs1).
  wp_step. eapply wp_mono; [by apply (wp_deliver_all_consecutive c0 R)|]. cbv beta.
  intros _ e2 es2 (k & Hk & Ha2 & HRk & Hpass). rewrite Hs1 in Hk, Hpass. simpl in Hk, Hpass.
  assert (core_inv c0 R e2) as Hi2 by (eapply advanced_core; [done| |done]; rewrite Hs1; simpl; lia).
  destruct (advanced_st _ _ _ _ _ Ha2) as (Hc2 & Hst2 & Htm2 & Htok2 & Hs2). rewrite Hs1 in Hs2. simpl in Hs2.
  assert (advanced R e e2 k (es1 ++ es2)) as (_ & _ & _ & _ & _ & Hsd & Hdi) by (eapply (advanced_trans c0); [done| |done|done]; lia).
  assert (timer_configured e2 = timer_configured e) as Htc by (unfold timer_configured; by rewrite Hc2, Hc1).
  assert (rx_deliv (st e2) = k /\ rx_next (st e2) = rx_next (st e)) as [Hd2 Hn2] by (by rewrite Hs2).
  do 2 wp_step. apply wp_when.
  - intros Hlt. bool_prop. apply wp_when.
    + intros Hne. bool_prop. rewrite Hc2, Hc1 in Hne. unfold run_reordering_timer. do 4 wp_step.
      assert (timer_configured e = true) as Hconf.
      { unfold timer_configured. apply andb_true_iff. split; apply negb_true_iff, Z.eqb_neq; [done|].
        intros E. specialize (Hinf E). lia. }
      unfold timer_run. simpl. rewrite Htm2, Htm1, Hset, Hconf. simpl. do 3 wp_step. rewrite !app_nil_r.
      split; [|split].
      * constructor; simpl; try done.
        -- by apply (core_inv_same c0 R e2).
        -- by rewrite Hd2.
        -- transitivity (is_set (reordering_timer e)); [done|]. by rewrite Hset, <- Htc.
        -- intros _. change (timer_configured e2 = true /\ rx_deliv (st e2) < rx_next (st e2) <= rx_next (st e2)).
           rewrite Htc, Hconf. split; [done|lia].
        -- intros E. rewrite Hc2, Hc1 in E. done.
      * unfold delivering. simpl. autorewrite with setup. rewrite Hc2, Hc1, Hst2, Hst1, Htok2, Htok1, Hd2. repeat (split; [done || lia|]). done.
      * split; [simpl; lia|]. simpl. rewrite Hd2. done.
    + intros He. bool_prop. rewrite Hc2, Hc1 in He. specialize (Hms0 He). lia.
  - intros Hge. bool_prop. rewrite !app_nil_r. split; [|split].
    + pose proof (ci_order _ _ _ Hi2). constructor; try done.
      * by rewrite Hd2.
      * by rewrite Htm2, Htm1, Htc.
      * rewrite Htm2, Htm1, Hrun. done.
      * intros. lia.
      * intros. lia.
    + unfold delivering. rewrite Hc2, Hc1, Hst2, Hst1, Htok2, Htok1, Hd2. repeat (split; [done || lia|]). done.
    + rewrite Hd2. split; [lia|done].
Qed.

Lemma delivering_nothing R e e' es :
  cfg e' = cfg e -> stopped e' = stopped e -> setup e' = setup e -> rx_next (st e') = rx_next (st e) ->
  rx_deliv (st e') = rx_deliv (st e) -> sdus es = [] -> dispatched es = [] -> delivering R e e' es.
Proof.
  intros E1 E2 E3 E4 E5 E6 E7. unfold delivering. rewrite E5, between_nil. repeat (split; [done || lia|]). done.
Qed.

(** Stopping and starting t-Reordering after RX_DELIV and RX_NEXT have moved. *)
Lemma wp_handle_reordering_timers c0 R e :
  core_inv c0 R e -> R !! rx_deliv (st e) = None -> is_set (reordering_timer e) = timer_configured e ->
  (is_running (reordering_timer e) = true -> timer_configured e = true /\ rx_reord (st e) <= rx_next (st e)) ->
  wp handle_reordering_timers (fun _ e' es => rx_inv c0 R e' /\ delivering R e e' es /\
    (t_reordering (cfg e) <> t_reordering_ms0 -> rx_deliv (st e') = rx_deliv (st e))) e.
Proof.
  intros Hi HR Hset Hrun. pose proof (ci_order _ _ _ Hi) as Ho. unfold handle_reordering_timers. do 3 wp_step.
  set (e1 := if is_running (reordering_timer e) && (rx_reord (st e) <=? rx_deliv (st e))
             then set_reordering_timer (timer_stop (reordering_timer e)) e else e).
  assert (core_inv c0 R e1 /\ cfg e1 = cfg e /\ st e1 = st e /\ stopped e1 = stopped e /\ setup e1 = setup e /\
    is_set (reordering_timer e1) = timer_configured e /\
    (is_running (reordering_timer e1) = true -> timer_configured e = true /\ rx_deliv (st e) < rx_reord (st e) <= rx_next (st e)))
    as (Hi1 & Hc1 & Hs1 & Hst1 & Htok1 & Hset1 & Hrun1).
  { unfold e1. destruct (is_running _) eqn:Er; simpl; [destruct (Z.leb_spec (rx_reord (st e)) (rx_deliv (st e)))|].
    - split; [by apply (core_inv_same c0 R e)|]. simpl. rewrite is_set_stop, is_running_stop. done.
    - repeat (split; [done|]). intros _. destruct (Hrun eq_refl). split; [done|lia].
    - repeat (split; [done|]). by rewrite Er. }
  assert (wp (let! e := get in
    when (negb (t_reordering (cfg e) =? t_reordering_infinity))
      (if t_reordering (cfg e) =? t_reordering_ms0 then modify (set_rx_reord (rx_next (st e))) ;;; handle_t_reordering_expire
       else when (negb (is_running (reordering_timer e)) && (rx_deliv (st e) <? rx_next (st e)))
              (modify (set_rx_reord (rx_next (st e))) ;;; run_reordering_timer)))
    (fun _ e' es => rx_inv c0 R e' /\ delivering R e e' es /\
      (t_reordering (cfg e) <> t_reordering_ms0 -> rx_deliv (st e') = rx_deliv (st e))) e1) as Hrest.
  { clearbody e1. do 2 wp_step. assert (timer_configured e1 = timer_configured e) as Htc by (unfold timer_configured; by rewrite Hc1).
    rewrite <- Hs1 in Hrun1, HR, Ho. rewrite Hc1. apply wp_when; intros Hinf; bool_prop; [apply wp_if; intros Hms; bool_prop|].
    - do 2 wp_step. assert (is_running (reordering_timer e1) = false) as Hnr.
      { destruct (is_running (reordering_timer e1)); [|done]. destruct (Hrun1 eq_refl) as [Hconf _].
        unfold timer_configured in Hconf. rewrite Hms in Hconf. done. }
      eapply wp_mono; [apply (wp_handle_t_reordering_expire c0 R); simpl; try done; [by apply (core_inv_same c0 R e1)|lia|by rewrite Hset1, <- Htc]|].
      cbv beta. intros _ e' es (G1 & G2 & _). split; [done|]. split; [|done]. unfold delivering in *. simpl in G2.
      rewrite <- Hc1, <- Hst1, <- Htok1, <- Hs1. done.
    - assert (timer_configured e = true) as Hconf.
      { unfold timer_configured. apply andb_true_iff. split; by apply negb_true_iff, Z.eqb_neq. }
      apply wp_when; intros Hb.
      + apply andb_true_iff in Hb as [Hnr Hlt]. bool_prop. unfold run_reordering_timer. do 5 wp_step. unfold timer_run. simpl.
        rewrite Hset1, Hconf. simpl. do 2 wp_step. split; [|split].
        * constructor; simpl; try done.
          -- by apply (core_inv_same c0 R e1).
          -- transitivity (is_set (reordering_timer e1)); [done|]. by rewrite Hset1, <- Htc.
          -- intros _. change (timer_configured e1 = true /\ rx_deliv (st e1) < rx_next (st e1) <= rx_next (st e1)).
             rewrite Htc. split; [done|lia].
          -- intros E. by rewrite Hc1 in E.
        * apply delivering_nothing; simpl; try done; by rewrite Hs1.
        * simpl. by rewrite Hs1.
      + rewrite ?app_nil_r. split; [|split].
        * constructor; try done; [by rewrite Hset1, Htc|by rewrite Htc|intros _ _ Hlt|intros E; by rewrite Hc1 in E].
          destruct (is_running (reordering_timer e1)); [done|]. simpl in Hb. apply Z.ltb_ge in Hb. lia.
        * apply delivering_nothing; try done; by rewrite Hs1.
        * by rewrite Hs1.
    - split; [|split].
      + constructor; try done; [by rewrite Hset1, Htc|by rewrite Htc| |].
        * intros Hconf. rewrite Htc in Hconf. unfold timer_configured in Hconf. rewrite Hinf in Hconf. by destruct (_ =? _).
        * intros E. rewrite Hc1, Hinf in E. done.
      + apply delivering_nothing; try done; by rewrite Hs1.
      + by rewrite Hs1. }
  unfold e1 in Hrest. destruct (_ && _); cbn [when]; wp_step; exact Hrest.
Qed.

(** ** A COUNT enters the window *)

Lemma core_has_sn c0 R e count :
  core_inv c0 R e -> 0 <= count < 2 ^ 32 ->
  has_sn e count = (rx_deliv (st e) <=? count) && match R !! count with Some _ => true | None => false end.
Proof.
  intros Hi Hc. unfold has_sn, SduWindow.has_sn. rewrite u32_small, CircularMap.contains_lookup, (ci_win _ _ _ Hi) by lia.
  destruct (_ <=? _); [|done]. by destruct (R !! count).
Qed.

(** What a reordering task adds to the SDUs received. *)
Definition received (R : gmap Z (list Z)) (e : pdcp_entity_rx) (i : pdcp_rx_pdu_info) : gmap Z (list Z) :=
  if (rx_deliv (st e) <=? pi_count i) && match R !! pi_count i with None => true | Some _ => false end
  then <[pi_count i := pi_buf i]> R else R.

(** The COUNTs that the tasks of the entity carry. *)
Definition count_ok (e : pdcp_entity_rx) (count : Z) : Prop :=
  0 <= count < rx_deliv (st e) + window_size e /\ count < hard (max_count (cfg e)).

Lemma core_bounds c0 R e : core_inv c0 R e ->
  0 <= rx_deliv (st e) <= rx_next (st e) /\ rx_next (st e) <= rx_deliv (st e) + window_size e /\
  rx_next (st e) <= hard (max_count (cfg e)) /\ hard (max_count (cfg e)) < 2 ^ 32 - 1 /\
  2048 <= window_size e <= 131072.
Proof.
  intros Hi. pose proof (ci_order _ _ _ Hi). pose proof (ci_hard _ _ _ Hi). pose proof (ci_cfg _ _ _ Hi) as [_ Hh].
  pose proof (window_facts e (ci_cfg _ _ _ Hi)) as (HW & Hcard & _). lia.
Qed.

(** Two COUNTs in the window do not share a slot. *)
Lemma slots_differ c0 R e c count :
  core_inv c0 R e -> rx_deliv (st e) <= c < rx_deliv (st e) + window_size e ->
  rx_deliv (st e) <= count < rx_deliv (st e) + window_size e ->
  CircularMap.get_circular_idx (rx_window e) c = CircularMap.get_circular_idx (rx_window e) count -> c = count.
Proof.
  intros Hi Hc Hcount. pose proof (window_facts e (ci_cfg _ _ _ Hi)) as (HW & _ & j & Hj & HWj).
  rewrite !(circular_idx_mod _ j) by (rewrite ?(ci_cap _ _ _ Hi); done). rewrite (ci_cap _ _ _ Hi). intros E.
  set (W := window_size e) in *.
  assert ((c - count) mod W = 0) as E0 by (rewrite Zminus_mod, E, Z.sub_diag; apply Z.mod_0_l; lia).
  apply Z.mod_divide in E0 as [q E0]; [|lia]. assert (q = 0) by nia. lia.
Qed.

Lemma wp_store_sdu c0 R e i :
  core_inv c0 R e -> rx_deliv (st e) <= pi_count i -> count_ok e (pi_count i) -> R !! pi_count i = None ->
  wp (store_sdu i) (fun _ e' es => es = [] /\
    exists w, e' = set_rx_window w e /\ CircularMap.wf w /\ CircularMap.capacity w = window_size e /\
      forall c, 0 <= c < 2 ^ 32 -> CircularMap.lookup w c =
        if c =? pi_count i then Some (mk_sdu_info (pi_buf i) (pi_count i)) else CircularMap.lookup (rx_window e) c) e.
Proof.
  intros Hi Hc [Hr Hh] HR. pose proof (core_bounds _ _ _ Hi) as Hb. set (count := pi_count i) in *.
  assert (u32 count = count) as Hu by (apply u32_small; lia).
  unfold store_sdu, SduWindow.add_sn, SduWindow.has_sn. fold count. do 3 wp_step. rewrite Hu.
  assert (CircularMap.lookup (rx_window e) count = None) as Hl.
  { rewrite (ci_win _ _ _ Hi) by lia. destruct (Z.leb_spec (rx_deliv (st e)) count); [|done]. by rewrite HR. }
  rewrite (proj2 (CircularMap.contains_false _ _) Hl). do 2 wp_step. split; [done|].
  set (w0 := CircularMap.overwrite (rx_window e) count sdu_info_default).
  pose proof (ci_wf _ _ _ Hi) as Hwf. assert (CircularMap.wf w0) as Hwf0 by (by apply CircularMap.wf_overwrite).
  assert (forall c, 0 <= c < 2 ^ 32 -> CircularMap.lookup w0 c =
    if c =? count then Some sdu_info_default else CircularMap.lookup (rx_window e) c) as Hl0.
  { intros c Hcr. unfold w0. rewrite CircularMap.lookup_overwrite by done. destruct (Z.eqb_spec c count) as [|Hne]; [done|].
    destruct (Z.eqb_spec (CircularMap.get_circular_idx (rx_window e) c) (CircularMap.get_circular_idx (rx_window e) count)) as [E|]; [|done].
    rewrite (ci_win _ _ _ Hi) by done. destruct (Z.leb_spec (rx_deliv (st e)) c); [|done].
    destruct (R !! c) as [s|] eqn:HRc; [|done]. pose proof (ci_R _ _ _ Hi _ _ HRc).
    exfalso. apply Hne. apply (slots_differ c0 R e); [done|lia|lia|done]. }
  eexists. split; [done|]. split; [by apply CircularMap.wf_set_at|].
  split; [rewrite CircularMap.capacity_set_at; unfold w0; rewrite CircularMap.capacity_overwrite by done; apply Hi|].
  intros c Hcr. rewrite CircularMap.lookup_set_at. destruct (Z.eqb_spec c count) as [->|Hne].
  - assert (CircularMap.contains w0 count = true) as ->; [|done].
    apply CircularMap.contains_true. rewrite Hl0, Z.eqb_refl by lia. eauto.
  - rewrite Hl0 by done. destruct (Z.eqb_spec c count); done.
Qed.

(** The window after the SDU is stored and RX_NEXT is updated. *)
Lemma core_inv_stored c0 R e i w :
  core_inv c0 R e -> rx_deliv (st e) <= pi_count i -> count_ok e (pi_count i) -> R !! pi_count i = None ->
  CircularMap.wf w -> CircularMap.capacity w = window_size e ->
  (forall c, 0 <= c < 2 ^ 32 -> CircularMap.lookup w c =
    if c =? pi_count i then Some (mk_sdu_info (pi_buf i) (pi_count i)) else CircularMap.lookup (rx_window e) c) ->
  core_inv c0 (<[pi_count i := pi_buf i]> R)
    (set_rx_next (Z.max (rx_next (st e)) (pi_count i + 1)) (set_rx_window w e)).
Proof.
  intros Hi Hc [Hr Hh] HR Hwf Hcap Hl. pose proof (core_bounds _ _ _ Hi) as Hb. pose proof (ci_order _ _ _ Hi) as Ho.
  set (count := pi_count i) in *. constructor; simpl; try done; try apply Hi.
  - unfold window_size in *. simpl in *. lia.
  - lia.
  - intros c Hcr. rewrite Hl by done. destruct (Z.eqb_spec c count) as [->|Hne].
    + rewrite lookup_insert_eq. simpl. destruct (Z.leb_spec (rx_deliv (st e)) count); [done|lia].
    + rewrite lookup_insert_ne by done. by apply Hi.
  - intros c s HRc. destruct (Z.eq_dec c count) as [->|Hne]; [lia|].
    rewrite lookup_insert_ne in HRc by done. pose proof (ci_R _ _ _ Hi _ _ HRc). lia.
  - intros _. destruct (Z.max_spec (rx_next (st e)) (count + 1)) as [[Hm ->]|[Hm ->]].
    + replace (count + 1 - 1) with count by lia. rewrite lookup_insert_eq. eauto.
    + destruct (Z.eq_dec (rx_next (st e) - 1) count) as [->|Hne]; [rewrite lookup_insert_eq; eauto|].
      rewrite lookup_insert_ne by done. apply Hi. lia.
Qed.

(** [reordered]: what the reordering task does. *)
Definition reordered (R' : gmap Z (list Z)) (e e' : pdcp_entity_rx) (es : list rx_event) : Prop :=
  cfg e' = cfg e /\ stopped e' = stopped e /\ setup e' = setup e /\
  rx_deliv (st e) <= rx_deliv (st e') /\
  sdus es = between R' (rx_deliv (st e)) (rx_deliv (st e')) /\ dispatched es = [] /\
  (t_reordering (cfg e) <> t_reordering_ms0 -> first_missing R' (rx_deliv (st e)) (rx_deliv (st e'))).

Lemma received_below R e i c : c < rx_deliv (st e) -> received R e i !! c = R !! c.
Proof.
  intros Hc. unfold received. destruct (Z.leb_spec (rx_deliv (st e)) (pi_count i)); [|done]. simpl.
  destruct (R !! pi_count i); [done|]. by rewrite lookup_insert_ne by lia.
Qed.

Lemma reordered_nothing c0 R e : rx_inv c0 R e -> reordered R e e [].
Proof.
  intros Hi. unfold reordered. rewrite between_nil. do 6 (split; [done || lia|]). intros _.
  split; [lia|]. split; [apply Hi|lia].
Qed.

(** Delivery and timers once the SDU is stored. *)
Lemma wp_after_store c0 R' e e2 count :
  core_inv c0 R' e2 -> st e2 = mk_state (rx_next (st e2)) (rx_deliv (st e)) (rx_reord (st e)) -> cfg e2 = cfg e ->
  stopped e2 = stopped e -> setup e2 = setup e -> rx_next (st e) <= rx_next (st e2) ->
  is_set (reordering_timer e2) = timer_configured e ->
  (is_running (reordering_timer e2) = true -> timer_configured e = true /\ rx_reord (st e) <= rx_next (st e)) ->
  (count <> rx_deliv (st e) -> R' !! rx_deliv (st e) = None) ->
  wp (when (count =? rx_deliv (st e)) deliver_all_consecutive_counts ;;; handle_reordering_timers)
    (fun _ e' es => rx_inv c0 R' e' /\ reordered R' e e' es) e2.
Proof.
  intros Hcore2 Hs2 Hc2 Hst2 Htok2 Hn2 Hset Hrun Hmiss.
  assert (rx_deliv (st e2) = rx_deliv (st e) /\ rx_reord (st e2) = rx_reord (st e)) as [Hd2 Hr2] by (by rewrite Hs2).
  pose proof (core_bounds _ _ _ Hcore2) as Hb.
  wp_step. apply (wp_mono _ (fun _ e3 es3 => core_inv c0 R' e3 /\ advanced R' e2 e3 (rx_deliv (st e3)) es3 /\
    first_missing R' (rx_deliv (st e)) (rx_deliv (st e3)))).
  { apply wp_when; intros Heq; bool_prop.
    - eapply wp_mono; [by apply (wp_deliver_all_consecutive c0 R')|]. cbv beta. intros _ e3 es3 (k & Hk & Ha & Hm & Hp).
      assert (rx_deliv (st e3) = k) as Hd3 by (destruct (advanced_st _ _ _ _ _ Ha) as (_ & _ & _ & _ & ->); done).
      rewrite Hd3. split; [by eapply advanced_core|]. split; [done|]. rewrite Hd2 in *. split; [lia|done].
    - split; [done|]. split; [apply advanced_refl, Hcore2|]. rewrite Hd2. split; [lia|]. split; [auto|lia]. }
  cbv beta. intros _ e3 es3 (Hcore3 & Ha & Hfirst).
  destruct (advanced_st _ _ _ _ _ Ha) as (Hc3 & Hst3 & Htm3 & Htok3 & Hs3). destruct Ha as (_ & _ & _ & _ & _ & Hsd3 & Hdi3).
  assert (timer_configured e3 = timer_configured e) as Htc3 by (unfold timer_configured; by rewrite Hc3, Hc2).
  eapply wp_mono; [apply (wp_handle_reordering_timers c0 R')|].
  - done.
  - apply Hfirst.
  - by rewrite Htm3, Htc3.
  - rewrite Htm3, Htc3. intros Hr. destruct (Hrun Hr). split; [done|]. rewrite Hs3. simpl. lia.
  - cbv beta. intros _ e4 es4 (Hinv & (D1 & D2 & D3 & _ & D5 & D6 & D7) & Hsame). split; [done|].
    unfold reordered. rewrite D1, Hc3, Hc2, D2, Hst3, D3, Htok3. pose proof (proj1 Hfirst). do 3 (split; [done|]). split; [lia|].
    split; [|split; [by rewrite dispatched_app, Hdi3|]].
    + rewrite sdus_app, Hsd3, D6, Hd2. apply between_app. lia.
    + intros Hms. rewrite Hc3, Hc2 in Hsame. by rewrite Hsame.
Qed.

Lemma wp_apply_reordering_body c0 R e i :
  rx_inv c0 R e -> count_ok e (pi_count i) ->
  wp (apply_reordering_body i) (fun _ e' es => rx_inv c0 (received R e i) e' /\ reordered (received R e i) e e' es) e.
Proof.
  intros Hi Hok. pose proof (ri_core _ _ _ Hi) as Hcore. pose proof (core_bounds _ _ _ Hcore) as Hb.
  pose proof Hok as [Hr Hh]. unfold apply_reordering_body. set (count := pi_count i) in *. do 2 wp_step. wp_step.
  { bool_prop. wp_step. unfold received. fold count. destruct (Z.leb_spec (rx_deliv (st e)) count); [lia|]. simpl.
    split; [done|]. by eapply reordered_nothing. }
  bool_prop. rewrite (core_has_sn c0 R) by (done || lia).
  destruct (Z.leb_spec (rx_deliv (st e)) count); [|lia]. simpl. destruct (R !! count) as [s|] eqn:HR; wp_step.
  - assert (CircularMap.lookup (rx_window e) count = Some (mk_sdu_info s count)) as Hl.
    { rewrite (ci_win _ _ _ Hcore) by lia. destruct (Z.leb_spec (rx_deliv (st e)) count); [|lia]. by rewrite HR. }
    wp_step. unfold SduWindow.index. rewrite u32_small by lia. eapply CircularMap.wp_at; [exact Hl|]. simpl.
    rewrite Z.eqb_refl. do 2 wp_step. unfold received. fold count. rewrite HR, andb_false_r. split; [done|]. by eapply reordered_nothing.
  - wp_step. cbv iota. wp_step. eapply wp_mono; [by apply (wp_store_sdu c0 R)|]. cbv beta.
    intros _ e1 es1 (-> & w & -> & Hwf & Hcap & Hlook). fold count in Hlook.
    assert (received R e i = <[count := pi_buf i]> R) as HR'.
    { unfold received. fold count. rewrite HR, andb_true_r. by destruct (Z.leb_spec (rx_deliv (st e)) count); [|lia]. }
    pose proof (core_inv_stored c0 R e i w Hcore ltac:(done) Hok HR Hwf Hcap Hlook) as Hcore2. fold count in Hcore2.
    rewrite <- HR' in Hcore2. set (R' := received R e i) in *. set (e2 := set_rx_next _ _) in Hcore2.
    (* RX_NEXT *)
    assert (forall Q, wp (when (count =? rx_deliv (st e)) deliver_all_consecutive_counts ;;; handle_reordering_timers) Q e2 ->
      wp (when (rx_next (st e) <=? count) (modify (set_rx_next (u32 (count + 1)))) ;;;
          when (count =? rx_deliv (st e)) deliver_all_consecutive_counts ;;; handle_reordering_timers) Q (set_rx_window w e)) as Hnext.
    { intros Q HQ. wp_step. apply wp_when; intros Hlt; bool_prop.
      - wp_step. rewrite u32_small by lia. unfold e2 in HQ. by rewrite Z.max_r in HQ by lia.
      - unfold e2 in HQ. rewrite Z.max_l in HQ by lia. by destruct e as [? ? ? ? ? ? ? []]. }
    apply Hnext. clear Hnext. simpl app.
    apply (wp_after_store c0 R' e e2 count); try done; [simpl; lia|apply Hi| |].
    + intros Hrun. destruct (ri_running _ _ _ Hi Hrun) as [? ?]. split; [done|lia].
    + intros Hne. rewrite HR', lookup_insert_ne by done. apply Hi.
Qed.
