(* ===== verification/PdcpRxSystem.v ===== *)
(** * PDCP receiving entity with its pending tasks

    The entity runs in the UE executor and the crypto workers: PDUs wait between the two as tasks,
    which may run in any order.  A state of the system is the entity, its pending tasks and whether
    PDU processing is halted (the token of [stop] or [notify_pdu_processing_stopped] is taken).
    Every operation of the entity and every task preserves [sys_inv]. *)

From S2P Require Import Prelude Effects Window Timers BitEncoding PdcpSn Ciphering Security PdcpBase PdcpRx PdcpRxFacts.
Import PdcpRx.
Open Scope Z_scope.
Open Scope entity_scope.

(** Changes that do not touch the window: tokens, buffered PDUs, notification flags. *)
Definition same_reception (e e' : pdcp_entity_rx) : Prop :=
  cfg e' = cfg e /\ bearer_id e' = bearer_id e /\ max_nof_crypto_workers e' = max_nof_crypto_workers e /\
  stopped e' = stopped e /\ sec_engine_pool e' = sec_engine_pool e /\ integrity_enabled e' = integrity_enabled e /\
  st e' = st e /\ rx_window e' = rx_window e /\ reordering_timer e' = reordering_timer e.

#[export] Instance same_reception_preorder : PreOrder same_reception.
Proof.
  split; [done|]. intros e1 e2 e3 (?&?&?&?&?&?&?&?&?) (?&?&?&?&?&?&?&?&?). unfold same_reception.
  by repeat split; etransitivity.
Qed.

(** [rx_inv] reads these members only. *)
Lemma rx_inv_ext c0 R e e' :
  cfg e' = cfg e -> (stopped e = true -> stopped e' = true) -> st e' = st e -> rx_window e' = rx_window e ->
  reordering_timer e' = reordering_timer e -> rx_inv c0 R e -> rx_inv c0 R e'.
Proof.
  intros E1 E2 E3 E4 E5 Hi.
  assert (core_inv c0 R e') as Hc by (apply (core_inv_same c0 R e); [apply Hi|done|done|by rewrite E3|by rewrite E3]).
  destruct Hi as [? ? ? ? Hstart]. unfold timer_configured in *.
  constructor; unfold timer_configured; rewrite ?E1, ?E3, ?E5; try done.
  intros ? Hs. apply Hstart; [done|]. destruct (stopped e); [|done]. by rewrite E2 in Hs.
Qed.

(** ** The system *)

Definition task_ok (e : pdcp_entity_rx) (t : rx_task) : Prop :=
  match t with
  | task_security i => count_ok e (pi_count i) /\ hdr_len_bytes e < zlen (pi_buf i)
  | task_reordering i => count_ok e (pi_count i)
  | task_failure _ => True
  end.

Record sys_inv (c0 : Z) (R : gmap Z (list Z)) (tasks : list rx_task) (halted : bool) (e : pdcp_entity_rx) : Prop := {
  si_rx : rx_inv c0 R e;
  si_tasks : Forall (task_ok e) tasks;
  si_max : zlen tasks < 2 ^ 32 - 1;
  si_tokens : tokens (token_mngr e) = u32 (zlen tasks - Z.b2z halted);
  si_pending : pending_crypto (token_mngr e) = halted && (zlen tasks =? 0);
  si_stopped : stopped e = true -> halted = true;
  si_pool : length (sec_engine_pool e) = max_nof_crypto_workers e;
  si_engines : forall engine, Some engine ∈ sec_engine_pool e ->
    match SecurityEngine.integ_eng engine with Some _ => integrity_enabled e = true | None => is_srb e = false end
}.

Lemma task_ok_mono e e' t :
  cfg e' = cfg e -> rx_deliv (st e) <= rx_deliv (st e') -> task_ok e t -> task_ok e' t.
Proof.
  intros Hc Hd. unfold task_ok, count_ok, hdr_len_bytes, window_size. rewrite Hc.
  destruct t; intros; destruct_and?; repeat split; done || lia.
Qed.

(** Pending tasks run in any order. *)
#[export] Instance sys_inv_proper c0 R : Proper ((≡ₚ) ==> (=) ==> (=) ==> iff) (sys_inv c0 R).
Proof.
  assert (forall t t' h e, t ≡ₚ t' -> sys_inv c0 R t h e -> sys_inv c0 R t' h e) as Hp.
  { intros t t' h e E Hi. assert (zlen t' = zlen t) as El by (unfold zlen; by rewrite E).
    destruct Hi as [? Hall]. constructor; rewrite ?El; try done. by rewrite <- E. }
  intros t t' E h ? <- e ? <-. split; by apply Hp.
Qed.

(** ** Tokens *)

(** Taking and returning a token, for [n] pending tasks. *)
Lemma wp_return_token n h e (Q : unit -> pdcp_entity_rx -> list rx_event -> Prop) :
  tokens (token_mngr e) = u32 (n - Z.b2z h) -> 0 <= n - Z.b2z h < 2 ^ 32 - 1 ->
  (forall t, tokens t = u32 (n - Z.b2z h - 1) ->
     pending_crypto t = pending_crypto (token_mngr e) || (n - Z.b2z h =? 0) -> Q tt (set_token_mngr t e) []) ->
  wp return_token Q e.
Proof.
  intros Ht Hn HQ. rewrite u32_small in Ht by lia. unfold return_token, Tokens.return_token. do 3 wp_step. rewrite Ht.
  destruct (Z.eqb_spec (n - Z.b2z h) 0xffffffff) as [E|_]; [lia|]. do 2 wp_step. by apply HQ.
Qed.

(** A finished task gives its token back. *)
Lemma wp_task_done c0 R tasks h e (Q : unit -> pdcp_entity_rx -> list rx_event -> Prop) t :
  sys_inv c0 R (t :: tasks) h e ->
  (forall e', sys_inv c0 R tasks h e' -> same_reception e e' -> buffering e' = buffering e -> pdu_buffer e' = pdu_buffer e ->
     Q tt e' []) ->
  wp return_token Q e.
Proof.
  intros Hi HQ. pose proof (si_max _ _ _ _ _ Hi) as Hm. pose proof (si_tokens _ _ _ _ _ Hi) as Ht.
  pose proof (si_pending _ _ _ _ _ Hi) as Hp. rewrite zlen_cons in *. pose proof (zlen_nonneg tasks).
  apply (wp_return_token (zlen tasks + 1) h); [done|destruct h; simpl; lia|]. intros t' Ht' Hp'.
  apply HQ; [|done..]. assert (rx_inv c0 R (set_token_mngr t' e)) as Hr by (apply (rx_inv_ext c0 R e); try done; apply Hi).
  destruct Hi as [? Hall]. apply Forall_cons in Hall as [_ Hall]. constructor; simpl; try done; [lia|rewrite Ht'; f_equal; lia|].
  rewrite Hp', Hp. destruct (Z.eqb_spec (zlen tasks + 1) 0); [lia|]. rewrite andb_false_r. simpl.
  destruct h; simpl; [f_equal; lia|]. destruct (Z.eqb_spec (zlen tasks + 1 - 0) 0); [lia|done].
Qed.

(** ** PDUs from the lower layer *)

(** A COUNT below zero wraps around: with a maximum COUNT close to 2^32 such PDUs must not arrive. *)
Definition no_underflow (e : pdcp_entity_rx) (buf : list Z) : Prop :=
  hard (max_count (cfg e)) <= 2 ^ 32 - window_size e \/
  forall sn, read_data_pdu_header (sn_size (cfg e)) buf = Some sn -> sn < rx_deliv (st e) + window_size e.

Lemma read_header_range s buf sn : read_data_pdu_header s buf = Some sn -> 0 <= sn < pdcp_sn_cardinality s.
Proof.
  unfold read_data_pdu_header. destruct (_ <=? _); [done|].
  assert (forall x, Z.land x 0x0f = x mod 2 ^ 4 /\ Z.land x 0x03 = x mod 2 ^ 2) as Hm
    by (intros x; split; [apply (land_mask x 4)|apply (land_mask x 2)]; lia).
  destruct s; [| |done]; destruct buf as [|b0 [|b1 [|b2 ?]]]; try done; intros [= <-].
  1,2: rewrite (proj1 (Hm b0)), land_255, lor_shiftl_add by (try apply Z.mod_pos_bound; lia);
    change (pdcp_sn_cardinality _) with 4096; change (2 ^ 8) with 256; change (2 ^ 4) with 16;
    pose proof (Z.mod_pos_bound b0 16 eq_refl); pose proof (Z.mod_pos_bound b1 256 eq_refl); lia.
  rewrite (proj2 (Hm b0)), !land_255. change (Z.shiftl (b0 mod 2 ^ 2) 16) with (Z.shiftl (b0 mod 2 ^ 2) (8 + 8)).
  rewrite <- (Z.shiftl_shiftl _ 8 8), <- Z.shiftl_lor by lia. rewrite !lor_shiftl_add by (try apply Z.mod_pos_bound; lia).
  change (2 ^ 8) with 256. change (2 ^ 2) with 4. change (pdcp_sn_cardinality _) with 262144.
  pose proof (Z.mod_pos_bound b0 4 eq_refl). pose proof (Z.mod_pos_bound b1 256 eq_refl). pose proof (Z.mod_pos_bound b2 256 eq_refl). lia.
Qed.

(** The COUNT derived from an SN, unless it is refused. *)
Lemma rcvd_count_ok c0 R e buf sn :
  core_inv c0 R e -> no_underflow e buf -> read_data_pdu_header (sn_size (cfg e)) buf = Some sn ->
  rcvd_count e sn < hard (max_count (cfg e)) -> count_ok e (rcvd_count e sn).
Proof.
  intros Hi Hno Hsn Hh. pose proof (core_bounds _ _ _ Hi) as Hb. pose proof (ci_cfg _ _ _ Hi) as [Hs _].
  pose proof (read_header_range _ _ _ Hsn) as Hr. pose proof (sn_size_facts _ Hs) as (_ & _ & Hcard & _).
  split; [|done]. change (rcvd_count e sn) with (count_of_sn (sn_size (cfg e)) (rx_deliv (st e)) sn) in *.
  destruct (count_of_sn_range _ Hs (rx_deliv (st e)) sn) as (c & Hc & Hcr & Hmod); [lia|done|].
  unfold no_underflow, window_size in *. rewrite Hc in *. set (W := pdcp_window_size _) in *. rewrite Hcard in Hmod.
  destruct (Z.lt_ge_cases c 0) as [Hneg|].
  - destruct Hno as [Hno|Hno].
    + exfalso. assert (u32 c = c + 2 ^ 32) as E; [|unfold W in *; lia].
      unfold u32. rewrite <- (Z_mod_plus_full c 1). apply Z.mod_small. unfold W in *. lia.
    + specialize (Hno _ Hsn). exfalso.
      assert (c mod (2 * W) = c + 2 * W); [|unfold W in *; lia].
      rewrite <- (Z_mod_plus_full c 1). unfold W in *. rewrite Z.mod_small; lia.
  - destruct (Z.lt_ge_cases c (2 ^ 32)); [rewrite u32_small; lia|].
    assert (u32 c = c - 2 ^ 32) as ->; [|unfold W in *; lia].
    unfold u32. rewrite <- (Z_mod_plus_full c (-1)). apply Z.mod_small. unfold W in *. lia.
Qed.

(** What taking a PDU does: some tasks more, nothing delivered, the window untouched. *)
Definition pdu_taken (c0 : Z) (R : gmap Z (list Z)) (tasks : list rx_task) (h : bool) (e e' : pdcp_entity_rx)
    (es : list rx_event) : Prop :=
  sys_inv c0 R (tasks ++ dispatched es) h e' /\ same_reception e e' /\ sdus es = [] /\ zlen (dispatched es) <= 1 /\
  (buffering e = false -> buffering e' = false /\ pdu_buffer e' = pdu_buffer e).

Lemma sys_inv_same c0 R tasks h e e' :
  same_reception e e' -> token_mngr e' = token_mngr e -> sys_inv c0 R tasks h e -> sys_inv c0 R tasks h e'.
Proof.
  intros (E1&E2&E3&E4&E5&E6&E7&E8&E9) Ht [Hr Hall]. constructor; rewrite ?Ht, ?E3, ?E4, ?E5, ?E6; try done.
  - by apply (rx_inv_ext c0 R e); [done|rewrite E4| | | |].
  - eapply Forall_impl; [exact Hall|]. intros t. apply task_ok_mono; [done|rewrite E7; lia].
  - unfold is_srb. by rewrite E1.
Qed.

Lemma taken_nothing c0 R tasks h e e' es :
  sys_inv c0 R tasks h e -> same_reception e e' -> token_mngr e' = token_mngr e -> sdus es = [] -> dispatched es = [] ->
  (buffering e = false -> buffering e' = false /\ pdu_buffer e' = pdu_buffer e) ->
  pdu_taken c0 R tasks h e e' es.
Proof.
  intros Hi Hs Ht Hsd Hd Hbuf. unfold pdu_taken. rewrite Hd, app_nil_r. split; [by apply (sys_inv_same _ _ _ _ e)|done].
Qed.

Lemma wp_pdcp_handle_data_pdu c0 R tasks e accepted buf :
  sys_inv c0 R tasks false e -> zlen tasks < 2 ^ 32 - 2 -> no_underflow e buf ->
  wp (handle_data_pdu accepted buf) (fun _ e' es => pdu_taken c0 R tasks false e e' es) e.
Proof.
  intros Hi Hm Hno. pose proof (ri_core _ _ _ (si_rx _ _ _ _ _ Hi)) as Hcore.
  unfold handle_data_pdu. do 4 wp_step. wp_step.
  { wp_step. by apply taken_nothing. }
  bool_prop. unfold hdr_len_bytes in *. destruct (read_data_pdu_header (sn_size (cfg e)) buf) as [sn|] eqn:Hsn.
  2:{ wp_step. by apply taken_nothing. }
  cbv zeta. set (count := rcvd_count e sn). wp_step.
  apply (wp_mono _ (fun _ e1 es1 => same_reception e e1 /\ token_mngr e1 = token_mngr e /\ sdus es1 = [] /\ dispatched es1 = [] /\
    buffering e1 = buffering e /\ pdu_buffer e1 = pdu_buffer e)).
  { wp_step; [|done]. wp_step; [|done]. do 3 wp_step. done. }
  cbv beta. intros _ e1 es1 (Hs1 & Ht1 & Hsd1 & Hd1 & Hb1 & Hp1).
  assert (forall es, sdus es = [] -> sdus (metrics_add_data_pdus 1 (zlen buf) :: es1 ++ es) = [] /\
    dispatched (metrics_add_data_pdus 1 (zlen buf) :: es1 ++ es) = dispatched es) as Hes.
  { intros es E. change (sdus (es1 ++ es) = [] /\ dispatched (es1 ++ es) = dispatched es).
    by rewrite sdus_app, dispatched_app, Hsd1, Hd1, E. }
  wp_step.
  - wp_step; [do 3 wp_step|].
    + destruct (Hes [on_protocol_failure] eq_refl). apply taken_nothing; try done. simpl. by rewrite Hb1, Hp1.
    + destruct (Hes [] eq_refl). apply taken_nothing; try done. by rewrite Hb1, Hp1.
  - do 2 wp_step. bool_prop.
    assert (count_ok e count) as Hok by (by apply (rcvd_count_ok c0 R e buf)).
    pose proof (si_tokens _ _ _ _ _ Hi) as Ht. pose proof (si_pending _ _ _ _ _ Hi) as Hp. simpl in Hp.
    set (e2 := set_token_mngr _ e1). pose proof Hs1 as (E1&E2&E3&E4&E5&E6&E7&E8&E9). pose proof (zlen_nonneg tasks).
    assert (tokens (token_mngr e2) = u32 (zlen tasks + 1) /\ pending_crypto (token_mngr e2) = false) as [Ht2 Hp2].
    { unfold e2. simpl. rewrite Ht1, Ht, Hp, (u32_small (zlen tasks - _)) by (simpl; lia). split; [f_equal; simpl; lia|done]. }
    set (i := mk_pdu_info buf count).
    assert (sys_inv c0 R (task_security i :: tasks) false e2) as Hi2.
    { assert (forall t, task_ok e t -> task_ok e2 t) as Hmono by (intros t; apply task_ok_mono; [done|simpl; rewrite E7; lia]).
      destruct Hi as [Hr Hall]. constructor; simpl; rewrite ?E3, ?E4, ?E5, ?E6; try done.
      - apply (rx_inv_ext c0 R e); simpl; try done. by rewrite E4.
      - apply Forall_cons. split; [by apply Hmono|]. by apply (Forall_impl _ _ _ Hall).
      - rewrite zlen_cons. lia.
      - transitivity (u32 (zlen tasks + 1)); [done|]. rewrite zlen_cons. f_equal. lia.
      - unfold is_srb. simpl. by rewrite E1. }
    wp_step.
    + wp_step. unfold pdu_taken. destruct (Hes [execute_apply_security i] eq_refl) as [Hes1 Hes2].
      rewrite Hes1, Hes2. change (dispatched [execute_apply_security i]) with [task_security i].
      split; [by rewrite Permutation_app_comm|]. split; [done|]. split; [done|]. split; [done|]. simpl. by rewrite Hb1, Hp1.
    + eapply wp_task_done; [exact Hi2|]. intros e3 Hi3 Hs3 Hb3 Hp3. unfold pdu_taken. rewrite (proj1 (Hes [] eq_refl)), (proj2 (Hes [] eq_refl)).
      change (dispatched []) with (@nil rx_task). rewrite app_nil_r. split; [done|]. split; [by etransitivity|].
      rewrite Hb3, Hp3. simpl. by rewrite Hb1, Hp1.
Qed.

Lemma wp_pdcp_handle_pdu c0 R tasks h e accepted buf :
  sys_inv c0 R tasks h e -> zlen tasks < 2 ^ 32 - 2 -> no_underflow e buf ->
  h = false \/ stopped e = true \/ buffering e = true ->
  wp (handle_pdu accepted buf) (fun _ e' es => pdu_taken c0 R tasks h e e' es) e.
Proof.
  intros Hi Hm Hno Hh. unfold handle_pdu. do 2 wp_step. wp_step.
  { wp_step. by apply taken_nothing. }
  wp_step.
  { wp_step; [wp_step|]; apply taken_nothing; try done. intros. congruence. }
  destruct Hh as [->|[Hh|Hh]]; [|congruence|congruence]. do 2 wp_step. destruct buf as [|b0 buf].
  { wp_step. by apply taken_nothing. }
  wp_step.
  - eapply wp_mono; [by apply (wp_pdcp_handle_data_pdu c0 R tasks)|]. done.
  - match goal with E : (is_srb e || _)%bool = false |- _ => apply orb_false_iff in E as [_ Hdc] end.
    unfold handle_control_pdu. destruct (pdcp_pdu_get_dc b0); [|done]. wp_step. apply wp_assert; [done|].
    wp_step; [wp_step|]; by apply taken_nothing.
Qed.

(** Flushing the buffered PDUs. *)
Lemma wp_end_buffering c0 R tasks h e accepted :
  sys_inv c0 R tasks h e -> zlen tasks + zlen (pdu_buffer e) < 2 ^ 32 - 2 -> Forall (no_underflow e) (pdu_buffer e) ->
  h = false \/ stopped e = true ->
  wp (end_buffering accepted) (fun _ e' es => sys_inv c0 R (tasks ++ dispatched es) h e' /\ same_reception e e' /\ sdus es = []) e.
Proof.
  intros Hi Hm Hno Hh. unfold end_buffering. do 4 wp_step.
  apply (wp_while_loop (fun n _ e1 es => sys_inv c0 R (tasks ++ dispatched es) h e1 /\ same_reception e e1 /\ sdus es = [] /\
    zlen tasks + zlen (dispatched es) + zlen (pdu_buffer e1) < 2 ^ 32 - 2 /\ Forall (no_underflow e) (pdu_buffer e1) /\
    buffering e1 = false /\ n = Datatypes.S (length (pdu_buffer e1)))).
  - rewrite app_nil_r. split; [by apply (sys_inv_same _ _ _ _ e)|]. change (zlen (dispatched [])) with 0. simpl.
    do 2 (split; [done|]). split; [lia|done].
  - intros ? e1 es (_&_&_&_&_&_&?). done.
  - intros n k e1 es (Hi1 & Hs1 & Hsd1 & Hm1 & Hno1 & Hbf1 & Hn). unfold flush_step. do 2 wp_step.
    destruct (pdu_buffer e1) as [|buf rest] eqn:Eb.
    { wp_step. by rewrite app_nil_r. }
    apply Forall_cons in Hno1 as [Hb Hno1]. do 2 wp_step. set (e2 := set_buffer _ _ e1).
    assert (sys_inv c0 R (tasks ++ dispatched es) h e2) as Hi2.
    { by apply (sys_inv_same _ _ _ _ e1). }
    pose proof Hs1 as (E1&_&_&E4&_&_&E7&_). pose proof (zlen_cons buf rest). pose proof (zlen_nonneg rest).
    wp_step. eapply wp_mono; [apply (wp_pdcp_handle_pdu c0 R (tasks ++ dispatched es) h e2 _ buf Hi2)|].
    + rewrite zlen_app. lia.
    + unfold no_underflow, window_size in *. simpl. by rewrite E1, E7.
    + destruct Hh as [Hh|Hh]; [by left|]. right; left. simpl. by rewrite E4.
    + cbv beta. intros _ e3 es3 (Hi3 & Hs3 & Hsd3 & Hd3 & Hb3). wp_step. cbn [app]. rewrite app_nil_r, sdus_app, dispatched_app, Hsd1, Hsd3.
      destruct (Hb3 Hbf1) as [-> ->]. rewrite zlen_app. simpl. split; [by rewrite app_assoc|].
      split; [by rewrite Hs1; exact Hs3|]. split; [done|]. split; [lia|]. split; [done|]. split; [done|]. simpl in Hn. lia.
Qed.

(** ** Tasks *)

Section tasks.
Context `{L : SecurityLaws}.

(** Integrity protected PDUs that are not too short to hold a MAC hold a header in front of it. *)
Definition long_enough (e : pdcp_entity_rx) (buf : list Z) : Prop :=
  is_srb e || integrity_enabled e = true -> zlen buf <= sec_mac_len \/ hdr_len_bytes e + sec_mac_len <= zlen buf.

Lemma hdr_len_pos e : 2 <= hdr_len_bytes e <= 3.
Proof. unfold hdr_len_bytes. destruct (sn_size _); simpl; lia. Qed.

Lemma deciphered_length c0 R tasks h e buf count engine v :
  sys_inv c0 R tasks h e -> Some engine ∈ sec_engine_pool e -> long_enough e buf -> hdr_len_bytes e < zlen buf ->
  SecurityEngine.decrypt_and_verify_integrity engine buf (hdr_len_bytes e) count = inl v -> hdr_len_bytes e <= zlen v.
Proof.
  intros Hi Hin Hlong Hlen Hv. pose proof (si_engines _ _ _ _ _ Hi _ Hin) as He. pose proof (hdr_len_pos e) as Hh.
  unfold SecurityEngine.decrypt_and_verify_integrity in Hv.
  destruct (match SecurityEngine.cipher_eng engine with Some c => _ | None => _ end) as [b|] eqn:Ec; [|done].
  assert (zlen b = zlen buf) as Hb.
  { destruct (SecurityEngine.cipher_eng engine) as [c|]; [|by simplify_eq].
    apply (SecurityEngine.apply_ciphering_length c buf (hdr_len_bytes e) count b); [lia|done]. }
  destruct (SecurityEngine.integ_eng engine) as [i|]; [|simplify_eq; lia].
  apply SecurityEngine.verify_integrity_spec in Hv as (Hne & mac & Hm & ->).
  apply SecurityEngine.compute_mac_length in Hm. rewrite zlen_app, Hm in Hb. unfold long_enough, sec_mac_len in *.
  rewrite He, orb_true_r in Hlong. assert (zlen v <> 0) by (intros E; by apply zlen_zero_nil in E). pose proof (zlen_nonneg v).
  destruct Hlong; [done|lia|lia].
Qed.

(** What a crypto worker makes of a PDU under its engine. *)
Lemma wp_deciphering c0 R tasks h e w buf count :
  sys_inv c0 R tasks h e -> (w < max_nof_crypto_workers e)%nat -> long_enough e buf -> hdr_len_bytes e < zlen buf ->
  wp (apply_deciphering_and_integrity_check w buf count)
    (fun r e' es => e' = e /\ es = [] /\ forall v, r = inl v -> hdr_len_bytes e <= zlen v) e.
Proof.
  intros Hi Hw Hlong Hlen. unfold apply_deciphering_and_integrity_check. do 3 wp_step.
  { match goal with E : (_ <=? _)%nat = true |- _ => apply Nat.leb_le in E end. lia. }
  destruct (lookup_lt_is_Some_2 (sec_engine_pool e) w) as [o Ho]; [rewrite (si_pool _ _ _ _ _ Hi); lia|].
  wp_step. apply (wp_need _ o); [done|]. destruct o as [engine|].
  - wp_step. split; [done|]. split; [done|]. intros v Hv. eapply deciphered_length; try done. by eapply list_elem_of_lookup_2.
  - pose proof (hdr_len_pos e). unfold long_enough, sec_mac_len in *. wp_step; [wp_step|]; wp_step; split; try done; split; try done.
    + intros v [= <-]. bool_prop. assert (is_srb e = true) as Es by done. rewrite Es in Hlong. simpl in Hlong.
      rewrite zlen_sub by lia. destruct Hlong; [done|lia|lia].
    + intros v [= <-]. lia.
Qed.

(** A task replaced by the task it dispatches. *)
Lemma sys_inv_replace c0 R t t' tasks h e :
  sys_inv c0 R (t :: tasks) h e -> task_ok e t' -> sys_inv c0 R (tasks ++ [t']) h e.
Proof.
  intros Hi Ht. assert (sys_inv c0 R (t' :: tasks) h e) as G; [|by rewrite Permutation_app_comm].
  destruct Hi as [Hr Hall]. rewrite zlen_cons in *. apply Forall_cons in Hall as [_ Hall].
  constructor; rewrite ?zlen_cons; try done. by apply Forall_cons.
Qed.

(** What a task that stores nothing does. *)
Definition passed_on (c0 : Z) (R : gmap Z (list Z)) (tasks : list rx_task) (h : bool) (e e' : pdcp_entity_rx)
    (es : list rx_event) : Prop :=
  sys_inv c0 R (tasks ++ dispatched es) h e' /\ same_reception e e' /\ sdus es = [].

Lemma wp_task_passed c0 R t tasks h e es0 :
  sys_inv c0 R (t :: tasks) h e -> sdus es0 = [] -> dispatched es0 = [] ->
  wp return_token (fun _ e' es => passed_on c0 R tasks h e e' (es0 ++ es)) e.
Proof.
  intros Hi Hs Hd. eapply wp_task_done; [done|]. intros e' Hi' Hs' _ _. unfold passed_on. rewrite app_nil_r, Hs, Hd, app_nil_r. done.
Qed.

Lemma wp_apply_security c0 R i tasks h e w accepted :
  sys_inv c0 R (task_security i :: tasks) h e -> (w < max_nof_crypto_workers e)%nat -> long_enough e (pi_buf i) ->
  wp (apply_security w accepted i) (fun _ e' es => passed_on c0 R tasks h e e' es) e.
Proof.
  intros Hi Hw Hlong. destruct (proj1 (Forall_cons _ _ _) (si_tasks _ _ _ _ _ Hi)) as [[Hc Hl] _].
  unfold apply_security. wp_step. eapply wp_mono; [by eapply wp_deciphering|]. cbv beta. intros r e1 es1 (-> & -> & Hv).
  destruct r as [buf|err].
  - do 3 wp_step. apply wp_assert; [apply Z.leb_le, Hv; done|]. destruct accepted.
    + wp_step. unfold passed_on. simpl. split; [|done]. by eapply sys_inv_replace.
    + by eapply (wp_task_passed _ _ _ _ _ _ []).
  - destruct accepted.
    + wp_step. unfold passed_on. simpl. split; [|done]. by eapply sys_inv_replace.
    + by eapply (wp_task_passed _ _ _ _ _ _ []).
Qed.

Lemma wp_handle_failure c0 R err tasks h e :
  sys_inv c0 R (task_failure err :: tasks) h e ->
  wp (handle_failure err) (fun _ e' es => passed_on c0 R tasks h e e' es) e.
Proof.
  intros Hi. unfold handle_failure. wp_step. destruct err; repeat wp_step; by eapply (wp_task_passed _ _ _ _ _ _ [_; _]) || by eapply (wp_task_passed _ _ _ _ _ _ [_]).
Qed.

Lemma sys_inv_received c0 R R' tasks h e e' :
  sys_inv c0 R tasks h e -> rx_inv c0 R' e' -> cfg e' = cfg e -> stopped e' = stopped e -> token_mngr e' = token_mngr e ->
  rx_deliv (st e) <= rx_deliv (st e') -> sec_engine_pool e' = sec_engine_pool e -> integrity_enabled e' = integrity_enabled e ->
  max_nof_crypto_workers e' = max_nof_crypto_workers e -> sys_inv c0 R' tasks h e'.
Proof.
  intros [Hr Hall] Hr' E1 E2 E3 E4 E5 E6 E7. constructor; rewrite ?E2, ?E3, ?E5, ?E6, ?E7; try done.
  - eapply Forall_impl; [exact Hall|]. intros t. by apply task_ok_mono.
  - unfold is_srb. by rewrite E1.
Qed.

Lemma setup_inj e e' : setup e' = setup e ->
  token_mngr e' = token_mngr e /\ sec_engine_pool e' = sec_engine_pool e /\ integrity_enabled e' = integrity_enabled e /\
  max_nof_crypto_workers e' = max_nof_crypto_workers e /\ buffering e' = buffering e /\ pdu_buffer e' = pdu_buffer e.
Proof. unfold setup. by intros [= -> -> -> -> -> ->]. Qed.

(** What delivers: RX_DELIV moves up and what it passes goes to the upper layer, in order. *)
Definition delivers (c0 : Z) (R' : gmap Z (list Z)) (tasks : list rx_task) (h : bool) (e e' : pdcp_entity_rx)
    (es : list rx_event) : Prop :=
  sys_inv c0 R' tasks h e' /\ cfg e' = cfg e /\ rx_deliv (st e) <= rx_deliv (st e') /\
  sdus es = between R' (rx_deliv (st e)) (rx_deliv (st e')) /\ dispatched es = [].

Lemma wp_apply_reordering c0 R i tasks h e :
  sys_inv c0 R (task_reordering i :: tasks) h e ->
  wp (apply_reordering i) (fun _ e' es => delivers c0 (received R e i) tasks h e e' es /\
    (t_reordering (cfg e) <> t_reordering_ms0 -> first_missing (received R e i) (rx_deliv (st e)) (rx_deliv (st e')))) e.
Proof.
  intros Hi. destruct (proj1 (Forall_cons _ _ _) (si_tasks _ _ _ _ _ Hi)) as [Hc _].
  unfold apply_reordering. do 2 wp_step. wp_step.
  eapply wp_mono; [by apply (wp_apply_reordering_body c0 R), Hc; apply Hi|]. cbv beta.
  intros _ e1 es1 (Hr & Hc1 & Hst1 & Htok & Hd & Hsd & Hdi & Hf). destruct (setup_inj _ _ Htok) as (T1 & T2 & T3 & T4 & _).
  assert (sys_inv c0 (received R e i) (task_reordering i :: tasks) h e1) as Hi1 by (by apply (sys_inv_received c0 R _ _ _ e)).
  eapply wp_task_done; [done|]. intros e2 Hi2 (E1&_&_&_&_&_&E7&_) _ _. unfold delivers. rewrite E1, E7, app_nil_r. done.
Qed.

Lemma wp_reordering_timeout c0 R tasks h e epoch :
  sys_inv c0 R tasks h e -> (tm_cmd_id (reordering_timer e) = epoch -> is_running (reordering_timer e) = true) ->
  wp (reordering_timeout epoch) (fun _ e' es => delivers c0 R tasks h e e' es /\
    (tm_cmd_id (reordering_timer e) = epoch -> stopped e = false ->
       first_missing R (rx_reord (st e)) (rx_deliv (st e')))) e.
Proof.
  intros Hi Hep. pose proof (si_rx _ _ _ _ _ Hi) as Hr. unfold reordering_timeout. do 3 wp_step.
  apply wp_timeout_task; [done| |].
  - intros E. specialize (Hep E). destruct (ri_running _ _ _ Hr Hep) as [Hconf Hreord].
    assert (t_reordering (cfg e) <> t_reordering_ms0 /\ t_reordering (cfg e) <> t_reordering_infinity) as [Hms Hinf].
    { unfold timer_configured in Hconf. bool_prop. done. }
    do 2 wp_step. set (e1 := set_reordering_timer _ e).
    assert (core_inv c0 R e1) as Hcore by (apply (core_inv_same c0 R e); [apply Hr|done..]).
    assert (is_set (reordering_timer e1) = timer_configured e1) as Hset by (exact (ri_set _ _ _ Hr)).
    simpl snd. cbn [when]. do 2 wp_step. simpl stopped. apply wp_when; intros Hst.
    + apply negb_true_iff in Hst. eapply wp_mono; [apply (wp_handle_t_reordering_expire c0 R e1 Hcore)|]; try done; [simpl; lia|].
      cbv beta. intros _ e2 es2 (Hr2 & (D1 & D2 & D3 & _ & D5 & D6 & D7) & Hf). destruct (setup_inj _ _ D3) as (T1 & T2 & T3 & T4 & _).
      split; [|done]. split; [by apply (sys_inv_received c0 R R _ _ e)|done].
    + apply negb_false_iff in Hst. split; [|congruence]. unfold delivers. simpl. rewrite between_nil.
      split; [|repeat (split; [done || lia|]); done]. apply (sys_inv_received c0 R R _ _ e); try done.
      constructor; try done; [apply Hr|]. simpl. congruence.
  - intros Hne. do 2 wp_step. simpl snd. cbn [when]. wp_step. split; [|done].
    change (set_reordering_timer _ e) with (set_reordering_timer (reordering_timer e) e).
    assert (set_reordering_timer (reordering_timer e) e = e) as -> by (by destruct e).
    unfold delivers. rewrite between_nil. repeat (split; [done || lia|]). done.
Qed.

(** ** Shutdown *)

(** The token of [stop] and [notify_pdu_processing_stopped]: the flag is set as soon as no task is pending. *)
Lemma wp_halt c0 R tasks e e1 (Q : unit -> pdcp_entity_rx -> list rx_event -> Prop) :
  sys_inv c0 R tasks false e -> rx_inv c0 R e1 -> cfg e1 = cfg e -> st e1 = st e -> setup e1 = setup e ->
  (forall t, sys_inv c0 R tasks true (set_token_mngr t e1) -> Q tt (set_token_mngr t e1) []) ->
  wp return_token Q e1.
Proof.
  intros Hi Hr1 E1 E2 E3 HQ. destruct (setup_inj _ _ E3) as (T1 & T2 & T3 & T4 & _).
  pose proof (si_max _ _ _ _ _ Hi) as Hm. pose proof (si_tokens _ _ _ _ _ Hi) as Ht.
  pose proof (si_pending _ _ _ _ _ Hi) as Hp. pose proof (zlen_nonneg tasks).
  apply (wp_return_token (zlen tasks) false); [by rewrite T1|simpl; lia|]. intros t' Ht' Hp'.
  apply HQ. destruct Hi as [Hr Hall]. constructor; simpl; rewrite ?T2, ?T3, ?T4; try done.
  - by apply (rx_inv_ext c0 R e1).
  - eapply Forall_impl; [exact Hall|]. intros t. apply task_ok_mono; [done|]. simpl. rewrite E2. lia.
  - rewrite Ht'. f_equal. simpl. lia.
  - rewrite Hp', T1, Hp. simpl. f_equal. lia.
  - unfold is_srb. simpl. by rewrite E1.
Qed.

Lemma wp_notify_pdu_processing_stopped c0 R tasks h e :
  sys_inv c0 R tasks h e -> h = false \/ stopped e = true ->
  wp notify_pdu_processing_stopped (fun _ e' es => sys_inv c0 R tasks true e' /\ same_reception e e' /\ es = []) e.
Proof.
  intros Hi Hh. unfold notify_pdu_processing_stopped. do 2 wp_step. apply wp_when; intros Hst; bool_prop.
  - destruct Hh as [->|]; [|congruence]. apply (wp_halt c0 R tasks e); try done. apply Hi.
  - by rewrite (si_stopped _ _ _ _ _ Hi Hst) in Hi.
Qed.

Lemma wp_restart_pdu_processing c0 R tasks h e :
  sys_inv c0 R tasks h e -> h = true ->
  wp restart_pdu_processing (fun _ e' es => sys_inv c0 R tasks (stopped e) e' /\ same_reception e e' /\ es = []) e.
Proof.
  intros Hi ->. unfold restart_pdu_processing. do 2 wp_step. apply wp_when; intros Hst; bool_prop.
  - wp_step. split; [|done]. rewrite Hst. pose proof (si_tokens _ _ _ _ _ Hi) as Ht. destruct Hi as [Hr Hall]. constructor; simpl; try done.
    + by apply (rx_inv_ext c0 R e).
    + rewrite Ht. simpl. unfold u32. rewrite Zplus_mod_idemp_l. f_equal. lia.
    + congruence.
  - by rewrite Hst.
Qed.

Lemma wp_stop c0 R tasks h e :
  sys_inv c0 R tasks h e -> h = false \/ stopped e = true ->
  wp stop (fun _ e' es => sys_inv c0 R tasks true e' /\ cfg e' = cfg e /\ st e' = st e /\ stopped e' = true /\ es = []) e.
Proof.
  intros Hi Hh. unfold stop. do 2 wp_step. apply wp_when; intros Hst; bool_prop.
  - destruct Hh as [->|]; [|congruence]. do 4 wp_step. set (e1 := set_reordering_timer _ (set_stopped true e)).
    assert (rx_inv c0 R e1) as Hr.
    { pose proof (si_rx _ _ _ _ _ Hi) as Hr. assert (core_inv c0 R e1) by (apply (core_inv_same c0 R e); [apply Hr|done..]).
      constructor; try done; simpl.
      - apply Hr.
      - rewrite is_set_stop. apply Hr.
      - by rewrite is_running_stop.
      - apply Hr. }
    apply (wp_halt c0 R tasks e e1); done.
  - by rewrite (si_stopped _ _ _ _ _ Hi Hst) in Hi.
Qed.

(** ** Security configuration and re-establishment *)

Definition security_ok (e : pdcp_entity_rx) (sec_cfg : sec_128_as_config) (integ : bool) : Prop :=
  sec_domain_of sec_cfg = (if is_srb e then domain_rrc else domain_up) /\ (integ = true \/ is_srb e = false).

Lemma wp_configure_security c0 R tasks h e sec_cfg integ ciph :
  sys_inv c0 R tasks h e -> security_ok e sec_cfg integ ->
  wp (configure_security sec_cfg integ ciph)
    (fun _ e' es => sys_inv c0 R tasks h e' /\ cfg e' = cfg e /\ st e' = st e /\ stopped e' = stopped e /\ es = []) e.
Proof.
  intros Hi [Hdom Hint]. unfold configure_security. do 3 wp_step.
  apply wp_assert; [by rewrite bool_decide_true|]. wp_step; [by wp_step|]. wp_step.
  apply wp_assert; [destruct Hint as [Hint|Hint]; rewrite Hint; by rewrite ?orb_true_r|]. wp_step.
  set (dir := match direction (cfg e) with sd_uplink => _ | sd_downlink => _ end).
  destruct (SecurityEngine.create sec_cfg (bearer_id e) dir integ ciph) as [engine|] eqn:Ec.
  - apply (wp_need _ engine); [done|]. wp_step. split; [|done].
    destruct Hi as [Hr Hall]. constructor; simpl; try done.
    + by apply (rx_inv_ext c0 R e).
    + by rewrite repeat_length.
    + intros engine' Hin. apply list_elem_of_In, repeat_spec in Hin. injection Hin as ->.
      unfold SecurityEngine.create in Ec. destruct integ; [destruct (integ_algo sec_cfg), (k_128_int sec_cfg); simplify_eq; done|].
      simplify_eq. simpl. by destruct Hint.
  - exfalso. unfold SecurityEngine.create in Ec. destruct integ; [|done]. by destruct (integ_algo sec_cfg), (k_128_int sec_cfg).
Qed.

(** An entity whose window has been emptied. *)
Definition window_empty (e : pdcp_entity_rx) : Prop :=
  CircularMap.wf (rx_window e) /\ CircularMap.capacity (rx_window e) = window_size e /\
  forall c, 0 <= c < 2 ^ 32 -> CircularMap.lookup (rx_window e) c = None.

(** Only the window, RX_DELIV and the timer change on the way there. *)
Definition emptied (e e' : pdcp_entity_rx) : Prop :=
  cfg e' = cfg e /\ stopped e' = stopped e /\ setup e' = setup e /\ rx_next (st e') = rx_next (st e) /\
  is_set (reordering_timer e') = is_set (reordering_timer e).

(** The window without the COUNTs in [a, b). *)
Definition without (w w' : CircularMap.t pdcp_rx_sdu_info) (a b : Z) : Prop :=
  CircularMap.wf w' /\ CircularMap.capacity w' = CircularMap.capacity w /\
  forall c, CircularMap.lookup w' c = if (a <=? c) && (c <? b) then None else CircularMap.lookup w c.

Lemma without_refl w a : CircularMap.wf w -> without w w a a.
Proof. intros. split; [done|]. split; [done|]. intros c. destruct (Z.leb_spec a c), (Z.ltb_spec c a); done || lia. Qed.

Lemma without_erase w w' a b :
  a <= b -> without w w' a b -> without w (fst (CircularMap.erase w' b)) a (b + 1).
Proof.
  intros Hab (Hwf & Hcap & Hl). split; [by apply CircularMap.wf_erase|]. split; [by rewrite CircularMap.capacity_erase|].
  intros c. rewrite CircularMap.lookup_erase, Hl by done.
  destruct (Z.eqb_spec c b), (Z.leb_spec a c), (Z.ltb_spec c b), (Z.ltb_spec c (b + 1)); simpl; done || lia.
Qed.

Lemma without_skip w w' a b :
  CircularMap.lookup w b = None -> without w w' a b -> without w w' a (b + 1).
Proof.
  intros Hb (Hwf & Hcap & Hl). split; [done|]. split; [done|]. intros c. rewrite Hl. destruct (Z.eq_dec c b) as [->|].
  - rewrite Hb. by destruct (_ && _), (_ && _).
  - destruct (Z.leb_spec a c), (Z.ltb_spec c b), (Z.ltb_spec c (b + 1)); simpl; done || lia.
Qed.

Lemma wp_discard_all_sdus c0 R e :
  core_inv c0 R e ->
  wp discard_all_sdus (fun _ e' es => es = [] /\ exists w, e' = set_rx_deliv (rx_next (st e)) (set_rx_window w e) /\
    without (rx_window e) w (rx_deliv (st e)) (rx_next (st e))) e.
Proof.
  intros Hi. pose proof (core_bounds _ _ _ Hi) as Hb. unfold discard_all_sdus, deliv_fuel. do 2 wp_step. rewrite u32_small by lia.
  apply (wp_while_loop (fun n _ e1 es => es = [] /\ exists k w, rx_deliv (st e) <= k <= rx_next (st e) /\
    e1 = set_rx_deliv k (set_rx_window w e) /\ without (rx_window e) w (rx_deliv (st e)) k /\ Z.of_nat n = rx_next (st e) - k + 1)).
  - split; [done|]. exists (rx_deliv (st e)), (rx_window e). split; [lia|]. split; [by destruct e as [? ? ? ? ? ? ? []]|].
    split; [apply without_refl, Hi|lia].
  - intros [] e1 es (_ & k & w & ? & _ & _ & ?). lia.
  - intros n [] e1 es (-> & k & w & Hk & -> & Hw & Hn). unfold discard_step. do 2 wp_step. simpl rx_deliv. simpl rx_next.
    apply wp_if; intros Hb1; bool_prop.
    { wp_step. split; [done|]. exists w. by rewrite <- Hb1. }
    wp_step. apply (wp_mono _ (fun _ e2 es2 => es2 = [] /\ exists w', e2 = set_rx_deliv k (set_rx_window w' e) /\
      without (rx_window e) w' (rx_deliv (st e)) (k + 1))).
    + unfold has_sn, SduWindow.has_sn. simpl rx_window. rewrite u32_small by lia. apply wp_when; intros Hc.
      * wp_step. unfold SduWindow.remove_sn, SduWindow.has_sn. simpl rx_window. rewrite u32_small, Hc by lia. simpl negb. cbv iota.
        do 2 wp_step. split; [done|]. eexists. split; [done|]. apply without_erase; [lia|done].
      * split; [done|]. exists w. split; [done|]. apply without_skip; [|done]. destruct Hw as (_ & _ & Hl).
        apply CircularMap.contains_false in Hc. rewrite Hl in Hc.
        destruct (Z.leb_spec (rx_deliv (st e)) k), (Z.ltb_spec k k); simpl in Hc; done || lia.
    + cbv beta. intros _ e2 es2 (-> & w' & -> & Hw'). unfold advance_rx_deliv. do 3 wp_step. split; [done|].
      exists (k + 1), w'. simpl. rewrite u32_small by lia. split; [lia|]. split; [done|]. split; [done|lia].
Qed.

(** Everything present is delivered; RX_DELIV stays. *)
Lemma wp_deliver_all_sdus c0 R e :
  core_inv c0 R e ->
  wp deliver_all_sdus (fun _ e' es => sdus es = between R (rx_deliv (st e)) (rx_next (st e)) /\ dispatched es = [] /\
    exists w, e' = set_rx_window w e /\ without (rx_window e) w (rx_deliv (st e)) (rx_next (st e))) e.
Proof.
  intros Hi. pose proof (core_bounds _ _ _ Hi) as Hb. unfold deliver_all_sdus. do 2 wp_step.
  enough (forall n k e1, Z.of_nat n = rx_next (st e) - k -> rx_deliv (st e) <= k ->
    (exists w, e1 = set_rx_window w e /\ without (rx_window e) w (rx_deliv (st e)) k) ->
    wp (deliver_present (seqZ k (rx_next (st e) - k))) (fun _ e' es => sdus es = between R k (rx_next (st e)) /\ dispatched es = [] /\
      exists w, e' = set_rx_window w e /\ without (rx_window e) w (rx_deliv (st e)) (rx_next (st e))) e1) as G.
  { apply (G (Z.to_nat (rx_next (st e) - rx_deliv (st e)))); [lia|lia|]. exists (rx_window e). split; [by destruct e|]. apply without_refl, Hi. }
  induction n as [|n IH]; intros k e1 Hn Hk (w & -> & Hw).
  { replace k with (rx_next (st e)) in * by lia. rewrite Z.sub_diag, between_nil. change (seqZ _ 0) with (@nil Z). cbn [deliver_present]. wp_step. eauto. }
  rewrite seqZ_cons by lia. cbn [deliver_present]. do 3 wp_step.
  assert (CircularMap.lookup w k = CircularMap.lookup (rx_window e) k) as Hlk.
  { destruct Hw as (_ & _ & ->). destruct (Z.leb_spec (rx_deliv (st e)) k), (Z.ltb_spec k k); simpl; done || lia. }
  pose proof (ci_win _ _ _ Hi k ltac:(lia)) as Hwk. destruct (Z.leb_spec (rx_deliv (st e)) k); [|lia].
  rewrite <- (between_app R k (k + 1)), between_one by lia.
  apply (wp_mono _ (fun _ e2 es2 => sdus es2 = match R !! k with Some s => [s] | None => [] end /\ dispatched es2 = [] /\
    exists w', e2 = set_rx_window w' e /\ without (rx_window e) w' (rx_deliv (st e)) (k + 1))).
  - unfold has_sn, SduWindow.has_sn. simpl rx_window. rewrite u32_small by lia. rewrite CircularMap.contains_lookup, Hlk, Hwk.
    destruct (R !! k) as [s|]; simpl.
    + eapply wp_mono; [apply (wp_deliver_one _ k (mk_sdu_info s k)); simpl; [apply u32_small; lia|by rewrite Hlk, Hwk]|].
      cbv beta. intros _ e2 es2 (-> & Hs2 & Hd2). split; [done|]. split; [done|]. eexists. split; [done|]. by apply without_erase.
    + split; [done|]. split; [done|]. exists w. split; [done|]. by apply without_skip.
  - cbv beta. intros _ e2 es2 (Hs2 & Hd2 & Hw2). eapply wp_mono.
    + replace (Z.pred (rx_next (st e) - k)) with (rx_next (st e) - (k + 1)) by lia.
      apply IH; [lia|lia|done].
    + cbv beta. intros _ e3 es3 (Hs3 & Hd3 & Hw3). rewrite sdus_app, dispatched_app, Hs2, Hd2, Hs3, Hd3. done.
Qed.

(** A fresh window from [count] on. *)
Lemma rx_inv_fresh e count :
  config_ok (cfg e) -> 0 <= count <= hard (max_count (cfg e)) -> window_empty e -> is_set (reordering_timer e) = timer_configured e ->
  is_running (reordering_timer e) = false -> rx_next (st e) = count -> rx_deliv (st e) = count -> rx_inv count ∅ e.
Proof.
  intros Hc Hcount (Hwf & Hcap & Hl) Hset Hrun E1 E2. pose proof (window_facts e Hc) as (HW & _).
  constructor; [constructor|..]; rewrite ?E1, ?E2; try done; try lia; try congruence.
  intros c Hcr. rewrite Hl by done. by destruct (_ <=? _).
Qed.

(** What re-establishment delivers: the rest of the window with RLC UM. *)
Definition flushed (R : gmap Z (list Z)) (e : pdcp_entity_rx) : list (list Z) :=
  if is_um e && negb (is_srb e) then between R (rx_deliv (st e)) (rx_next (st e)) else [].

(** SRBs and UM bearers start over at COUNT 0. *)
Definition resets (e : pdcp_entity_rx) : bool := is_srb e || is_um e.

Lemma core_without_window c0 R e w :
  core_inv c0 R e -> without (rx_window e) w (rx_deliv (st e)) (rx_next (st e)) -> window_empty (set_rx_window w e).
Proof.
  intros Hi (Hwf & Hcap & Hl). split; [done|]. split; [simpl; rewrite Hcap; apply Hi|]. intros c Hc. simpl. rewrite Hl, (ci_win _ _ _ Hi) by done.
  destruct (Z.leb_spec (rx_deliv (st e)) c), (Z.ltb_spec c (rx_next (st e))); simpl; try done.
  destruct (R !! c) eqn:E; [|done]. apply (ci_R _ _ _ Hi) in E. lia.
Qed.

(** [e'] differs from [e] in the window, the state variables and the timer only. *)
Definition same_bearer (e e' : pdcp_entity_rx) : Prop :=
  cfg e' = cfg e /\ stopped e' = stopped e /\ setup e' = setup e /\ is_set (reordering_timer e') = is_set (reordering_timer e).

#[export] Instance same_bearer_preorder : PreOrder same_bearer.
Proof. split; [done|]. intros e1 e2 e3 (?&?&?&?) (?&?&?&?). unfold same_bearer. by repeat split; etransitivity. Qed.

Lemma wp_reestablish_discard c0 R e :
  core_inv c0 R e ->
  wp (when (is_srb e) discard_all_sdus) (fun _ e' es => es = [] /\ same_bearer e e' /\ core_inv c0 R e' /\
    rx_next (st e') = rx_next (st e) /\ rx_deliv (st e') = (if is_srb e then rx_next (st e) else rx_deliv (st e)) /\
    (resets e = false -> e' = e)) e.
Proof.
  intros Hi. unfold resets. destruct (is_srb e); cbn [when]; [|by wp_step].
  eapply wp_mono; [by apply (wp_discard_all_sdus c0 R)|]. cbv beta. intros _ e' es (-> & w & -> & Hw).
  do 2 (split; [done|]). split; [|done].
  pose proof (core_bounds _ _ _ Hi) as Hb. pose proof (core_without_window _ _ _ _ Hi Hw) as (Hwf & Hcap & Hl).
  constructor; simpl; try done; try apply Hi; try lia.
  - pose proof (ci_order _ _ _ Hi). unfold window_size in *. simpl. lia.
  - intros c Hc. simpl in Hl. rewrite Hl by done. destruct (Z.leb_spec (rx_next (st e)) c); [|done].
    destruct (R !! c) eqn:E; [|done]. apply (ci_R _ _ _ Hi) in E. lia.
Qed.

Lemma wp_reestablish_flush c0 R e :
  core_inv c0 R e ->
  wp (when (is_srb e || is_um e)
        (when (is_running (reordering_timer e)) (modify (set_reordering_timer (timer_stop (reordering_timer e)))) ;;;
         when (is_um e) deliver_all_sdus))
    (fun _ e' es => same_bearer e e' /\ dispatched es = [] /\
       sdus es = (if is_um e then between R (rx_deliv (st e)) (rx_next (st e)) else []) /\
       (resets e = false -> e' = e) /\
       (resets e = true -> (is_srb e = true -> rx_deliv (st e) = rx_next (st e)) ->
          is_running (reordering_timer e') = false /\ window_empty e')) e.
Proof.
  intros Hi. unfold resets. destruct (is_srb e || is_um e) eqn:Hres; cbn [when].
  2:{ apply orb_false_iff in Hres as [_ ->]. wp_step. done. }
  wp_step. apply (wp_mono _ (fun _ e1 es1 => es1 = [] /\ exists tm, e1 = set_reordering_timer tm e /\
    is_set tm = is_set (reordering_timer e) /\ is_running tm = false)).
  { apply wp_when; intros Hr; [wp_step|]; (split; [done|]).
    - eexists. split; [done|]. by rewrite is_set_stop, is_running_stop.
    - exists (reordering_timer e). split; [by destruct e|done]. }
  cbv beta. intros _ e1 es1 (-> & tm & -> & Hset & Hrun). set (e1 := set_reordering_timer tm e).
  assert (core_inv c0 R e1) as Hi1 by (by apply (core_inv_same c0 R e)).
  destruct (is_um e) eqn:Hum; cbn [when].
  - eapply wp_mono; [by apply (wp_deliver_all_sdus c0 R)|]. cbv beta. intros _ e2 es2 (Hsd & Hd & w & -> & Hw).
    do 3 (split; [done|]). split; [done|]. intros _ _. split; [done|]. by apply (core_without_window c0 R).
  - wp_step. do 4 (split; [done|]). intros _ Hsrb. rewrite orb_false_r in Hres. specialize (Hsrb Hres). split; [done|].
    split; [apply Hi|]. split; [apply Hi|]. intros c Hc. simpl. rewrite (ci_win _ _ _ Hi) by done.
    destruct (Z.leb_spec (rx_deliv (st e)) c); [|done]. destruct (R !! c) eqn:E; [|done]. apply (ci_R _ _ _ Hi) in E. lia.
Qed.

Lemma wp_reestablish c0 R h e sec_cfg :
  sys_inv c0 R [] h e -> security_ok e sec_cfg (integrity_enabled e) ->
  wp (reestablish sec_cfg)
    (fun _ e' es => sys_inv (if resets e then 0 else c0) (if resets e then ∅ else R) [] h e' /\
       cfg e' = cfg e /\ stopped e' = stopped e /\ st e' = (if resets e then mk_state 0 0 0 else st e) /\
       sdus es = flushed R e /\ dispatched es = []) e.
Proof.
  intros Hi Hsec. pose proof (si_rx _ _ _ _ _ Hi) as Hr. pose proof (ri_core _ _ _ Hr) as Hcore.
  unfold reestablish. do 3 wp_step. eapply wp_mono; [by apply (wp_reestablish_discard c0 R)|]. cbv beta.
  intros _ e1 es1 (-> & Hb1 & Hcore1 & Hn1 & Hd1 & Hsame1). do 3 wp_step.
  assert (is_srb e1 = is_srb e /\ is_um e1 = is_um e) as [Es1 Eu1] by (unfold is_srb, is_um; by rewrite (proj1 Hb1)).
  eapply wp_mono; [by apply (wp_reestablish_flush c0 R)|]. cbv beta.
  intros _ e2 es2 (Hb2 & Hdi2 & Hsd2 & Hsame2 & Hempty). unfold resets in Hsame2, Hempty. rewrite Es1, Eu1 in *.
  assert (same_bearer e e2) as (E1 & E2 & E3 & E4) by (by etransitivity).
  assert (sdus es2 = flushed R e) as Hfl.
  { rewrite Hsd2, Hd1, Hn1. unfold flushed. destruct (is_um e), (is_srb e); simpl; try done. apply between_nil. }
  wp_step. change (is_srb e || is_um e) with (resets e) in *.
  apply (wp_mono _ (fun _ e3 es3 => es3 = [] /\ same_bearer e2 e3 /\
    sys_inv (if resets e then 0 else c0) (if resets e then ∅ else R) [] h e3 /\ st e3 = (if resets e then mk_state 0 0 0 else st e))).
  - destruct (resets e) eqn:Hres; cbn [when]; wp_step; (split; [done|]; split; [done|]).
    + destruct Hempty as [Hrun Hwin]; [done|intros Hsrb; rewrite Hd1, Hsrb; done|]. split; [|done].
      destruct (setup_inj _ _ E3) as (T1 & T2 & T3 & T4 & _). destruct Hi as [? Hall]. constructor; simpl; rewrite ?E2, ?T1, ?T2, ?T3, ?T4; try done.
      * pose proof (core_bounds _ _ _ Hcore). assert (config_ok (cfg e2)) by (rewrite E1; apply Hcore).
        apply rx_inv_fresh; try done; [simpl; rewrite E1; lia|]. simpl. rewrite E4. unfold timer_configured. simpl. rewrite E1. apply Hr.
      * unfold is_srb. simpl. by rewrite E1.
    + rewrite Hsame2, Hsame1 by done. done.
  - cbv beta. intros _ e3 es3 (-> & (F1 & F2 & F3 & _) & Hi3 & Hst3).
    assert (integrity_enabled e1 = integrity_enabled e) as T3 by (destruct Hb1 as (_ & _ & Hb1 & _); apply (setup_inj _ _ Hb1)).
    eapply wp_mono; [apply (wp_configure_security _ _ _ _ _ _ _ _ Hi3)|].
    + unfold security_ok, is_srb in *. by rewrite T3, F1, E1.
    + cbv beta. intros _ e4 es4 (Hi4 & G1 & G2 & G3 & ->). rewrite G1, G2, G3, F1, F2, E1, E2, !app_nil_r. done.
Qed.

(** The COUNT a [pdcp_count_info] denotes. *)
Definition count_info_ok (e : pdcp_entity_rx) (info : pdcp_count_info) : Prop :=
  0 <= ci_sn info < pdcp_sn_cardinality (sn_size (cfg e)) /\ 0 <= ci_hfn info /\
  ci_hfn info * pdcp_sn_cardinality (sn_size (cfg e)) + ci_sn info <= hard (max_count (cfg e)).

Lemma count_info_count e info :
  config_ok (cfg e) -> count_info_ok e info ->
  COUNT e (ci_hfn info) (ci_sn info) = ci_hfn info * pdcp_sn_cardinality (sn_size (cfg e)) + ci_sn info.
Proof.
  intros [Hs Hh] (Hsn & Hhfn & Hle). unfold COUNT. rewrite compute_count_eq by done. apply u32_small.
  pose proof (sn_size_facts _ Hs) as (_ & _ & ? & _). nia.
Qed.

Lemma set_count_inv c0 R h e info :
  sys_inv c0 R [] h e -> rx_deliv (st e) = rx_next (st e) -> count_info_ok e info ->
  sys_inv (ci_hfn info * pdcp_sn_cardinality (sn_size (cfg e)) + ci_sn info) ∅ [] h (set_count info e).
Proof.
  intros Hi Hd Hinfo. pose proof Hinfo as (Hsn & Hhfn & Hh). pose proof (si_rx _ _ _ _ _ Hi) as Hr. pose proof (ri_core _ _ _ Hr) as Hcore.
  pose proof (core_bounds _ _ _ Hcore) as Hb. pose proof (ci_cfg _ _ _ Hcore) as Hc. pose proof (proj1 Hc) as Hs.
  pose proof (count_info_count e info Hc Hinfo) as Hcount. set (count := _ * _ + _) in *.
  destruct Hi as [? Hall]. constructor; try done. unfold set_count. rewrite Hcount. apply rx_inv_fresh; try done.
  - simpl. unfold count. nia.
  - split; [apply Hcore|]. split; [apply Hcore|]. intros c Hcr. simpl. rewrite (ci_win _ _ _ Hcore) by done.
    destruct (Z.leb_spec (rx_deliv (st e)) c); [|done]. destruct (R !! c) eqn:E; [|done]. apply (ci_R _ _ _ Hcore) in E. lia.
  - apply Hr.
  - simpl. destruct (is_running (reordering_timer e)) eqn:E; [|done]. destruct (ri_running _ _ _ Hr E). lia.
Qed.

(** A new entity. *)
Lemma pdcp_rx_create_inv config bearer workers rohc e :
  create config bearer workers rohc = Some e -> 0 <= hard (max_count config) < 2 ^ 32 - 1 -> sys_inv 0 ∅ [] false e.
Proof.
  unfold create. intros Hc Hh. destruct (bool_decide_reflect (sn_size config = pdcp_size_invalid)); [done|].
  destruct (header_compression config && _); [done|]. injection Hc as <-. constructor; try done.
  - apply rx_inv_fresh; try done; simpl.
    + lia.
    + unfold timer_configured. simpl. by destruct (negb _ && negb _).
    + by destruct (negb _ && negb _).
  - simpl. by rewrite repeat_length.
  - intros engine Hin. simpl in Hin. by apply list_elem_of_In, repeat_spec in Hin.
Qed.

End tasks.
