(* ===== verification/PdcpRxTheorems.v ===== *)
(** * PDCP receiving entity: the properties

    Runs of the entity with its pending tasks, and what holds in every state they reach: no
    operation aborts, delivery is in order and complete up to RX_DELIV, t-Reordering passes over
    what is missing, the crypto tokens count the pending tasks, and the status report is exact. *)

From S2P Require Import Prelude Effects Window Timers BitEncoding PdcpSn Ciphering Security PdcpBase PdcpRx PdcpRxFacts PdcpRxSystem.
Import PdcpRx.
Open Scope Z_scope.
Open Scope entity_scope.

Record rx_system := mk_sys { entity : pdcp_entity_rx; tasks : list rx_task; halted : bool }.

Inductive rx_op :=
| op_handle_pdu (accepted : bool) (buf : list Z)
| op_run_task (n : nat) (worker_idx : nat) (accepted : bool)
| op_reordering_timeout (epoch : Z)
| op_begin_buffering
| op_end_buffering (accepted : nat -> bool)
| op_stop
| op_notify_pdu_processing_stopped
| op_restart_pdu_processing
| op_configure_security (sec_cfg : sec_128_as_config) (integ ciph : bool)
| op_reestablish (sec_cfg : sec_128_as_config)
| op_set_count (info : pdcp_count_info).

Section system.
Context `{L : SecurityLaws}.

Definition run_task (t : rx_task) (worker_idx : nat) (accepted : bool) : H unit :=
  match t with
  | task_security i => apply_security worker_idx accepted i
  | task_reordering i => apply_reordering i
  | task_failure err => handle_failure err
  end.

Definition op_action (o : rx_op) (s : rx_system) : H unit :=
  match o with
  | op_handle_pdu accepted buf => handle_pdu accepted buf
  | op_run_task n w accepted => match tasks s !! n with Some t => run_task t w accepted | None => ret tt end
  | op_reordering_timeout epoch => reordering_timeout epoch
  | op_begin_buffering => modify begin_buffering
  | op_end_buffering accepted => end_buffering accepted
  | op_stop => stop
  | op_notify_pdu_processing_stopped => notify_pdu_processing_stopped
  | op_restart_pdu_processing => restart_pdu_processing
  | op_configure_security sec_cfg integ ciph => configure_security sec_cfg integ ciph
  | op_reestablish sec_cfg => reestablish sec_cfg
  | op_set_count info => modify (set_count info)
  end.

(** The tasks that remain when the operation has run, without those it dispatches. *)
Definition op_tasks (o : rx_op) (s : rx_system) : list rx_task :=
  match o with op_run_task n _ _ => delete n (tasks s) | _ => tasks s end.
Definition op_halted (o : rx_op) (s : rx_system) : bool :=
  match o with
  | op_stop | op_notify_pdu_processing_stopped => true
  | op_restart_pdu_processing => stopped (entity s)
  | _ => halted s
  end.

Definition step (o : rx_op) (s : rx_system) : option (rx_system * list rx_event) :=
  match op_action o s (entity s) with
  | Ok (_, e', es) => Some (mk_sys e' (op_tasks o s ++ dispatched es) (op_halted o s), es)
  | Fault _ => None
  end.

(** What the callers of the entity respect.  [long_enough] and [no_underflow] are about the peer. *)
Definition op_ok (o : rx_op) (s : rx_system) : Prop :=
  let e := entity s in
  match o with
  | op_handle_pdu _ buf =>
      zlen (tasks s) < 2 ^ 32 - 2 /\ no_underflow e buf /\ (halted s = false \/ stopped e = true \/ buffering e = true)
  | op_run_task n w _ =>
      match tasks s !! n with
      | Some (task_security i) => (w < max_nof_crypto_workers e)%nat /\ long_enough e (pi_buf i)
      | Some _ => True
      | None => False
      end
  | op_reordering_timeout epoch => tm_cmd_id (reordering_timer e) = epoch -> is_running (reordering_timer e) = true
  | op_begin_buffering => True
  | op_end_buffering _ =>
      zlen (tasks s) + zlen (pdu_buffer e) < 2 ^ 32 - 2 /\ Forall (no_underflow e) (pdu_buffer e) /\
      (halted s = false \/ stopped e = true)
  | op_stop | op_notify_pdu_processing_stopped => halted s = false \/ stopped e = true
  | op_restart_pdu_processing => halted s = true
  | op_configure_security sec_cfg integ _ => security_ok e sec_cfg integ
  | op_reestablish sec_cfg => tasks s = [] /\ security_ok e sec_cfg (integrity_enabled e)
  | op_set_count info => tasks s = [] /\ rx_deliv (st e) = rx_next (st e) /\ count_info_ok e info
  end.

(** ** Histories

    A history covers the time since COUNTs last started over: the COUNT it started from, the SDUs
    that entered the window since and the SDUs delivered since. *)
Record history := mk_history { from : Z; taken : gmap Z (list Z); delivered : list (list Z) }.

Definition op_history (o : rx_op) (s : rx_system) (es : list rx_event) (g : history) : history :=
  let e := entity s in
  let go_on R := mk_history (from g) R (delivered g ++ sdus es) in
  match o with
  | op_run_task n _ _ => go_on match tasks s !! n with Some (task_reordering i) => received (taken g) e i | _ => taken g end
  | op_reestablish _ => if resets e then mk_history 0 ∅ [] else go_on (taken g)
  | op_set_count info => mk_history (ci_hfn info * pdcp_sn_cardinality (sn_size (cfg e)) + ci_sn info) ∅ []
  | _ => go_on (taken g)
  end.

Inductive reachable : rx_system -> history -> Prop :=
| reachable_create config bearer workers rohc e :
    create config bearer workers rohc = Some e -> 0 <= hard (max_count config) < 2 ^ 32 - 1 ->
    reachable (mk_sys e [] false) (mk_history 0 ∅ [])
| reachable_step s g o s' es :
    reachable s g -> op_ok o s -> step o s = Some (s', es) -> reachable s' (op_history o s es g).

Definition inv (s : rx_system) (g : history) : Prop :=
  sys_inv (from g) (taken g) (tasks s) (halted s) (entity s) /\
  delivered g = between (taken g) (from g) (rx_deliv (st (entity s))).

Lemma between_received R e i a : between (received R e i) a (rx_deliv (st e)) = between R a (rx_deliv (st e)).
Proof. apply between_ext. intros c Hc. apply received_below. lia. Qed.

(** A step whose run satisfies the invariant of its history. *)
Definition step_to (o : rx_op) (s : rx_system) (g : history) : Prop :=
  wp (op_action o s) (fun _ e' es => inv (mk_sys e' (op_tasks o s ++ dispatched es) (op_halted o s)) (op_history o s es g)) (entity s).

Lemma inv_nothing s g o e' es :
  inv s g -> sys_inv (from g) (taken g) (op_tasks o s ++ dispatched es) (op_halted o s) e' ->
  op_history o s es g = mk_history (from g) (taken g) (delivered g ++ sdus es) -> sdus es = [] ->
  rx_deliv (st e') = rx_deliv (st (entity s)) ->
  inv (mk_sys e' (op_tasks o s ++ dispatched es) (op_halted o s)) (op_history o s es g).
Proof. intros [Hi Hd] Hi' -> -> Hst. split; [done|]. simpl. by rewrite Hst, app_nil_r. Qed.

Lemma inv_delivers s g o e' es R' :
  inv s g -> delivers (from g) R' (op_tasks o s) (op_halted o s) (entity s) e' es ->
  op_history o s es g = mk_history (from g) R' (delivered g ++ sdus es) ->
  between R' (from g) (rx_deliv (st (entity s))) = between (taken g) (from g) (rx_deliv (st (entity s))) ->
  inv (mk_sys e' (op_tasks o s ++ dispatched es) (op_halted o s)) (op_history o s es g).
Proof.
  intros [Hi Hd] (Hi' & _ & Hle & Hsd & Hdi) -> E. split; simpl; [by rewrite Hdi, app_nil_r|].
  rewrite Hsd, Hd, <- E. apply between_app. pose proof (ri_core _ _ _ (si_rx _ _ _ _ _ Hi)) as Hc.
  pose proof (ci_order _ _ _ Hc). lia.
Qed.

Lemma run_task_inv s g n w accepted : inv s g -> op_ok (op_run_task n w accepted) s -> step_to (op_run_task n w accepted) s g.
Proof.
  intros Hg Hok. pose proof Hg as [Hi Hd]. unfold step_to, op_ok, op_action in *. set (o := op_run_task n w accepted).
  destruct (tasks s !! n) as [t|] eqn:Et; [|done].
  assert (sys_inv (from g) (taken g) (t :: delete n (tasks s)) (halted s) (entity s)) as Hi1
      by (by rewrite <- (delete_Permutation (tasks s) n t Et)).
    assert (forall e' es, passed_on (from g) (taken g) (delete n (tasks s)) (halted s) (entity s) e' es ->
      op_history o s es g = mk_history (from g) (taken g) (delivered g ++ sdus es) ->
      inv (mk_sys e' (op_tasks o s ++ dispatched es) (op_halted o s)) (op_history o s es g)) as Hpass.
    { intros e' es (Hi' & (_&_&_&_&_&_&E7&_) & Hsd) E. apply inv_nothing; try done. by rewrite E7. }
    destruct t as [i|i|err]; simpl run_task.
    + destruct Hok as [Hw Hl]. eapply wp_mono; [by eapply wp_apply_security|]. cbv beta. intros _ e' es Hp. apply Hpass; [done|].
      simpl. by rewrite Et.
    + eapply wp_mono; [by eapply wp_apply_reordering|]. cbv beta. intros _ e' es [Hdel _].
      apply (inv_delivers _ _ o _ _ _ Hg Hdel); [simpl; by rewrite Et|apply between_received].
    + eapply wp_mono; [by eapply wp_handle_failure|]. cbv beta. intros _ e' es Hp. apply Hpass; [done|]. simpl. by rewrite Et.
Qed.

Lemma step_inv o s g : inv s g -> op_ok o s -> step_to o s g.
Proof.
  intros Hg Hok. pose proof Hg as [Hi Hd]. pose proof (si_rx _ _ _ _ _ Hi) as Hr. unfold step_to.
  destruct o; simpl op_action; unfold op_ok in Hok.
  - destruct Hok as (H1 & H2 & H3). eapply wp_mono; [by eapply wp_pdcp_handle_pdu|]. cbv beta.
    intros _ e' es (Hi' & (_&_&_&_&_&_&E7&_) & Hsd & _). apply inv_nothing; try done. by rewrite E7.
  - by apply run_task_inv.
  - eapply wp_mono; [by eapply wp_reordering_timeout|]. cbv beta. intros _ e' es [Hdel _].
    by apply (inv_delivers _ _ (op_reordering_timeout epoch) _ _ _ Hg Hdel).
  - wp_step. apply inv_nothing; try done. simpl. rewrite app_nil_r. by apply (sys_inv_same _ _ _ _ (entity s)).
  - destruct Hok as (H1 & H2 & H3). eapply wp_mono; [by eapply wp_end_buffering|]. cbv beta.
    intros _ e' es (Hi' & (_&_&_&_&_&_&E7&_) & Hsd). apply inv_nothing; try done. by rewrite E7.
  - eapply wp_mono; [by eapply wp_stop|]. cbv beta. intros _ e' es (Hi' & _ & E & _ & ->).
    apply inv_nothing; try done; [simpl; by rewrite app_nil_r|by rewrite E].
  - eapply wp_mono; [by eapply wp_notify_pdu_processing_stopped|]. cbv beta. intros _ e' es (Hi' & (_&_&_&_&_&_&E7&_) & ->).
    apply inv_nothing; try done; [simpl; by rewrite app_nil_r|by rewrite E7].
  - eapply wp_mono; [by eapply wp_restart_pdu_processing|]. cbv beta. intros _ e' es (Hi' & (_&_&_&_&_&_&E7&_) & ->).
    apply inv_nothing; try done; [simpl; by rewrite app_nil_r|by rewrite E7].
  - eapply wp_mono; [by eapply wp_configure_security|]. cbv beta. intros _ e' es (Hi' & _ & E & _ & ->).
    apply inv_nothing; try done; [simpl; by rewrite app_nil_r|by rewrite E].
  - destruct Hok as [Ht Hsec]. rewrite Ht in Hi. eapply wp_mono; [by eapply wp_reestablish|]. cbv beta.
    intros _ e' es (Hi' & _ & _ & E & Hsd & Hdi). split; simpl; rewrite ?Ht, ?Hdi; simpl.
    + by destruct (resets (entity s)).
    + rewrite E. destruct (resets (entity s)) eqn:Hres; simpl; [by rewrite between_nil|].
      rewrite Hsd, Hd. unfold flushed, resets in *. apply orb_false_iff in Hres as [_ ->]. by rewrite app_nil_r.
  - destruct Hok as (Ht & Hdn & Hinfo). wp_step. rewrite Ht in Hi. pose proof (set_count_inv _ _ _ _ _ Hi Hdn Hinfo) as Hi'.
    split; simpl; rewrite ?Ht; [done|].
    rewrite count_info_count, between_nil; [done|apply Hr|done].
Qed.

Lemma pdcp_rx_reachable_inv s g : reachable s g -> inv s g.
Proof.
  induction 1 as [config bearer workers rohc e Hc Hh|s g o s' es _ IH Hok Hstep].
  - split; simpl; [by eapply pdcp_rx_create_inv|]. unfold create in Hc.
    destruct (bool_decide _); [done|]. destruct (_ && _); [done|]. injection Hc as <-. simpl. by rewrite between_nil.
  - pose proof (step_inv o s g IH Hok) as Hw. unfold step_to, wp, step in *.
    destruct (op_action o s (entity s)) as [[[[] e'] es']|]; [|done]. by injection Hstep as <- <-.
Qed.

(** ** Runs that can be evaluated *)

#[local] Instance no_underflow_dec e buf : Decision (no_underflow e buf).
Proof.
  unfold no_underflow. apply or_dec; [apply _|].
  destruct (read_data_pdu_header (sn_size (cfg e)) buf) as [sn|].
  - destruct (decide (sn < rx_deliv (st e) + window_size e)) as [Hl|Hl]; [left|right].
    + by intros ? [= <-].
    + intros Hall. by apply Hl, Hall.
  - by left.
Defined.

#[local] Instance op_ok_dec o s : Decision (op_ok o s).
Proof.
  destruct o; simpl; unfold long_enough, security_ok, count_info_ok; try apply _.
  destruct (tasks s !! n) as [[]|]; apply _.
Defined.

(** The state and the history after a sequence of operations, unless one is not allowed or aborts. *)
Fixpoint run (os : list rx_op) (s : rx_system) (g : history) : option (rx_system * history) :=
  match os with
  | [] => Some (s, g)
  | o :: os' =>
      if decide (op_ok o s) then
        match step o s with Some (s', es) => run os' s' (op_history o s es g) | None => None end
      else None
  end.

Lemma run_reachable os : forall s g s' g', reachable s g -> run os s g = Some (s', g') -> reachable s' g'.
Proof.
  induction os as [|o os IH]; simpl; intros s g s' g' Hr; [by intros [= <- <-]|].
  destruct (decide (op_ok o s)); [|done]. destruct (step o s) as [[s1 es]|] eqn:Es; [|done].
  apply IH. by eapply reachable_step.
Qed.

(** The bitmap of a status report. *)
Lemma bitmap_encodes (f : Z -> bool) l : forall enc bs,
  encodes enc bs -> encodes (fold_left (fun enc i => pack (if f i then 1 else 0) 1 enc) l enc) (bs ++ map f l).
Proof.
  induction l as [|i l IH]; intros enc bs He; [by rewrite app_nil_r|]. cbn [fold_left map].
  replace (bs ++ f i :: map f l) with ((bs ++ value_bits 1 (if f i then 1 else 0)) ++ map f l)
    by (rewrite <- app_assoc; by destruct (f i)).
  apply IH, pack_spec; [done|lia|]. destruct (f i); lia.
Qed.

(** ** The properties *)

(** Within [op_ok] no operation aborts: in every state that the entity and its pending tasks can reach, under any
    interleaving of PDUs, crypto tasks, reordering tasks, timer expiries, buffering, shutdown, security
    configuration and re-establishment.  [op_ok] leaves out PDUs whose COUNT would lie below zero and protected PDUs cut
    inside header and MAC; the section on where the entity fails shows what they do. *)
Theorem pdcp_rx_never_aborts s g o :
  reachable s g -> op_ok o s -> exists s' es, step o s = Some (s', es).
Proof.
  intros Hr Hok. pose proof (step_inv o s g (pdcp_rx_reachable_inv s g Hr) Hok) as Hw. unfold step_to, wp, step in *.
  destruct (op_action o s (entity s)) as [[[[] e'] es]|]; [eauto|done].
Qed.

(** C37: Delivery is in order and complete.  The SDUs delivered since COUNTs last started over are exactly the SDUs
    that entered the window with COUNTs below RX_DELIV, in ascending order of COUNT and each once; the window
    holds exactly the others; the SDU of RX_DELIV itself is missing. *)
Theorem pdcp_rx_delivers_in_order s g :
  reachable s g ->
  let e := entity s in
  delivered g = between (taken g) (from g) (rx_deliv (st e)) /\
  taken g !! rx_deliv (st e) = None /\
  (forall c sdu, taken g !! c = Some sdu -> from g <= c < rx_next (st e)) /\
  (forall c, 0 <= c < 2 ^ 32 -> CircularMap.lookup (rx_window e) c =
     if rx_deliv (st e) <=? c then (fun sdu => mk_sdu_info sdu c) <$> taken g !! c else None).
Proof.
  intros Hr. destruct (pdcp_rx_reachable_inv s g Hr) as [Hi Hd]. pose proof (si_rx _ _ _ _ _ Hi) as Hx. pose proof (ri_core _ _ _ Hx) as Hc.
  split; [done|]. split; [apply Hx|]. split; apply Hc.
Qed.

(** C36: RX_DELIV, RX_REORD, RX_NEXT and t-Reordering, in every run within [op_ok].  The window never spans more than
    half the SN space, RX_NEXT never passes the maximum COUNT and, while beyond RX_DELIV, is just behind a COUNT taken.  t-Reordering runs only
    where it is configured and for the COUNTs below RX_REORD, beyond RX_DELIV; it does run whenever RX_DELIV is below RX_NEXT, unless the
    entity is stopped; when it is 0 ms nothing is waited for. *)
Theorem pdcp_rx_window_invariant s g :
  reachable s g ->
  let e := entity s in let d := rx_deliv (st e) in let n := rx_next (st e) in
  from g <= d <= n /\ n <= d + window_size e /\ n <= hard (max_count (cfg e)) /\
  (d < n -> is_Some (taken g !! (n - 1))) /\
  (is_running (reordering_timer e) = true -> timer_configured e = true /\ d < rx_reord (st e) <= n) /\
  (timer_configured e = true -> stopped e = false -> d < n -> is_running (reordering_timer e) = true) /\
  (t_reordering (cfg e) = t_reordering_ms0 -> d = n).
Proof.
  intros Hr. destruct (pdcp_rx_reachable_inv s g Hr) as [Hi Hd]. pose proof (si_rx _ _ _ _ _ Hi) as Hx. pose proof (ri_core _ _ _ Hx) as Hc.
  pose proof (ci_order _ _ _ Hc). simpl. split; [lia|]. split; [lia|]. split; [apply Hc|]. split; [apply Hc|].
  split; [apply Hx|]. split; apply Hx.
Qed.

(** Expiry of t-Reordering.  The SDUs below RX_REORD that are there are delivered, and those that follow without a
    gap; RX_DELIV becomes the first COUNT at or after RX_REORD whose SDU is missing. *)
Theorem pdcp_rx_reordering_expiry s g s' es :
  reachable s g -> is_running (reordering_timer (entity s)) = true -> stopped (entity s) = false ->
  step (op_reordering_timeout (tm_cmd_id (reordering_timer (entity s)))) s = Some (s', es) ->
  let d := rx_deliv (st (entity s)) in let d' := rx_deliv (st (entity s')) in
  first_missing (taken g) (rx_reord (st (entity s))) d' /\ sdus es = between (taken g) d d'.
Proof.
  intros Hr Hrun Hst Hstep. destruct (pdcp_rx_reachable_inv s g Hr) as [Hi Hd].
  pose proof (wp_reordering_timeout _ _ _ _ _ (tm_cmd_id (reordering_timer (entity s))) Hi ltac:(done)) as Hw.
  unfold step, op_action, wp in *. destruct (reordering_timeout _ _) as [[[[] e'] es']|]; [|done].
  injection Hstep as <- <-. destruct Hw as [(_ & _ & _ & Hsd & _) Hf]. by split; [apply Hf|].
Qed.

(** Re-establishment of an RLC UM bearer delivers what is left in the window, in order, before COUNTs start
    over: all SDUs that entered the window are delivered by then.  An SRB starts over without delivering. *)
Theorem pdcp_rx_reestablish s g sec_cfg s' es :
  reachable s g -> op_ok (op_reestablish sec_cfg) s -> step (op_reestablish sec_cfg) s = Some (s', es) ->
  let e := entity s in
  delivered g ++ sdus es =
    (if is_um e && negb (is_srb e) then between (taken g) (from g) (rx_next (st e)) else delivered g) /\
  st (entity s') = (if is_srb e || is_um e then mk_state 0 0 0 else st e) /\
  (is_srb e || is_um e = true -> forall c, 0 <= c < 2 ^ 32 -> CircularMap.lookup (rx_window (entity s')) c = None).
Proof.
  intros Hr [Ht Hsec] Hstep. destruct (pdcp_rx_reachable_inv s g Hr) as [Hi Hd]. rewrite Ht in Hi.
  pose proof (wp_reestablish _ _ _ _ _ Hi Hsec) as Hw. unfold step, op_action, wp in *.
  destruct (reestablish sec_cfg (entity s)) as [[[[] e'] es']|]; [|done]. injection Hstep as <- <-.
  destruct Hw as (Hi' & _ & _ & E & Hsd & _). pose proof (ri_core _ _ _ (si_rx _ _ _ _ _ Hi)) as Hc. pose proof (ci_order _ _ _ Hc).
  simpl. split; [|split; [done|]].
  - rewrite Hsd, Hd. unfold flushed. destruct (is_um (entity s) && negb (is_srb (entity s))); [apply between_app; lia|apply app_nil_r].
  - intros Hres c Hcr. pose proof (ci_win _ _ _ (ri_core _ _ _ (si_rx _ _ _ _ _ Hi')) c Hcr) as ->.
    change (is_srb (entity s) || is_um (entity s)) with (resets (entity s)) in Hres. rewrite Hres. by destruct (_ <=? _).
Qed.

(** The crypto tokens count the tasks under way, and the flag that shutdown and re-establishment wait for is set
    exactly when PDU processing is halted and no task is left. *)
Theorem pdcp_rx_tokens_exact s g :
  reachable s g ->
  tokens (token_mngr (entity s)) = u32 (zlen (tasks s) - Z.b2z (halted s)) /\
  (pending_crypto (token_mngr (entity s)) = true <-> halted s = true /\ tasks s = []).
Proof.
  intros Hr. destruct (pdcp_rx_reachable_inv s g Hr) as [Hi Hd]. split; [apply Hi|]. rewrite (si_pending _ _ _ _ _ Hi), andb_true_iff, Z.eqb_eq.
  split; (intros [? E]; split; [done|]); [by apply zlen_zero_nil|by rewrite E].
Qed.

(** The bits of a status report. *)
Lemma compiled_report_bits c0 R tasks0 h e :
  sys_inv c0 R tasks0 h e ->
  let d := rx_deliv (st e) in
  exists pad, (pad < 8)%nat /\
    bytes_bits (compile_status_report e) =
      value_bits 8 0 ++ value_bits 32 d ++
      map (fun c => bool_decide (is_Some (R !! c))) (seqZ (d + 1) (Z.min (rx_next (st e)) (d + 1 + max_bits) - (d + 1))) ++
      repeat false pad /\
    zlen (compile_status_report e) <= pdcp_control_pdu_max_size /\ Forall is_byte (compile_status_report e).
Proof.
  intros Hi. pose proof (ri_core _ _ _ (si_rx _ _ _ _ _ Hi)) as Hc.
  pose proof (core_bounds _ _ _ Hc) as Hb. simpl. set (d := rx_deliv (st e)) in *. set (n := rx_next (st e)) in *.
  assert (u32 (d + 1) = d + 1) as Hu by (apply u32_small; lia).
  assert (bitmap_end e = Z.min n (d + 1 + max_bits)) as He.
  { unfold bitmap_end. fold d n. rewrite Hu. destruct (Z.ltb_spec (d + 1) n), (Z.ltb_spec max_bits (n - (d + 1))); simpl; assert (0 <= max_bits) by done; lia. }
  set (l := seqZ (d + 1) (Z.min n (d + 1 + max_bits) - (d + 1))).
  assert (map (has_sn e) l = map (fun c => bool_decide (is_Some (R !! c))) l) as Hmap.
  { apply map_ext_in. intros c Hin. apply list_elem_of_In, elem_of_seqZ in Hin. rewrite (core_has_sn _ R) by (done || lia).
    fold d. destruct (Z.leb_spec d c); [|lia]. simpl. destruct (R !! c); [by rewrite bool_decide_true|by rewrite bool_decide_false]. }
  assert (encodes (fold_left (fun enc i => pack (if has_sn e i then 1 else 0) 1 enc) l
    (pack d 32 (pack 0 4 (pack cpt_status_report 3 (pack (to_number_pdcp_dc pdcp_control) 1 new_encoder)))))
    (value_bits 8 0 ++ value_bits 32 d ++ map (has_sn e) l)) as Henc.
  { rewrite app_assoc. apply bitmap_encodes. apply pack_spec; [|lia|lia].
    change (encodes (mk_encoder [0] 0) (value_bits 8 0)). split; [repeat constructor; lia|]. split; [simpl; lia|reflexivity]. }
  destruct (encodes_bytes _ _ Henc) as (pad & Hbits & Hpad). exists pad. split; [done|].
  unfold compile_status_report. fold d. rewrite Hu, He. fold l. rewrite Hbits, Hmap, <- !app_assoc. split; [done|].
  apply (f_equal zlen) in Hbits. rewrite zlen_bytes_bits, !zlen_app, !zlen_value_bits in Hbits by lia.
  assert (zlen (map (has_sn e) l) <= max_bits) by (unfold zlen, l; rewrite length_map, length_seqZ; assert (0 <= max_bits) by done; lia).
  assert (zlen (repeat false pad) < 8) by (unfold zlen; rewrite repeat_length; lia). change max_bits with 71960 in *.
  change pdcp_control_pdu_max_size with 9000. split; [lia|]. apply (proj1 Henc).
Qed.

(** The status report is exact: behind the header it carries RX_DELIV as FMC, then one bit for each COUNT after it,
    up to RX_NEXT or the largest control PDU, that says whether the SDU is there. *)
Theorem pdcp_rx_status_report_exact s g :
  reachable s g ->
  let e := entity s in let d := rx_deliv (st e) in
  exists pad, (pad < 8)%nat /\
    bytes_bits (compile_status_report e) =
      value_bits 8 0 ++ value_bits 32 d ++
      map (fun c => bool_decide (is_Some (taken g !! c))) (seqZ (d + 1) (Z.min (rx_next (st e)) (d + 1 + max_bits) - (d + 1))) ++
      repeat false pad /\
    zlen (compile_status_report e) <= pdcp_control_pdu_max_size.
Proof. intros Hr. destruct (pdcp_rx_reachable_inv s g Hr) as [Hi _]. 
  destruct (compiled_report_bits _ _ _ _ _ Hi) as (pad & H1 & H2 & H3 & _). by exists pad.
Qed.

End system.

#[export] Existing Instances no_underflow_dec op_ok_dec.

(** ** Witnesses: a bearer that misses COUNT 1 *)

Definition example_config : pdcp_rx_config :=
  mk_config rb_drb mode_um pdcp_size12bits sd_uplink false false 10 (mk_max_count 0xc0000000 0xd0000000).
Definition example_pdu (sn : Z) (sdu : list Z) : list Z := 0x80 :: sn :: sdu.

(** A PDU that runs through its two tasks. *)
Definition through (sn : Z) (sdu : list Z) : list rx_op :=
  [op_handle_pdu true (example_pdu sn sdu); op_run_task 0 0 true; op_run_task 0 0 true].

Definition start_system (config : pdcp_rx_config) : rx_system :=
  match create config 1 2 false with
  | Some e => mk_sys e [] false
  | None => mk_sys (mk_entity config 1 0 true [] false false (mk_state 0 0 0) (CircularMap.empty_map 0) create_timer Tokens.init false [] false false) [] true
  end.
Definition start_history : history := mk_history 0 ∅ [].

Definition run_from (config : pdcp_rx_config) (os : list rx_op) : rx_system * history :=
  default (start_system config, start_history) (run os (start_system config) start_history).

Definition example_ops : list rx_op := through 0 [5; 6] ++ through 2 [7] ++ [op_handle_pdu true (example_pdu 3 [8; 9])].
Definition example : rx_system * history := run_from example_config example_ops.

Lemma start_reachable config :
  (exists e, create config 1 2 false = Some e) -> 0 <= hard (max_count config) < 2 ^ 32 - 1 ->
  reachable (start_system config) start_history.
Proof. intros [e He] Hh. unfold start_system. rewrite He. by eapply reachable_create. Qed.

Lemma pdcp_rx_example_reachable : reachable (fst example) (snd example).
Proof.
  apply (run_reachable example_ops (start_system example_config) start_history); [|vm_compute; reflexivity].
  apply start_reachable; [eexists; reflexivity|split; reflexivity || discriminate].
Qed.

Lemma pdcp_rx_never_aborts_witness :
  op_ok (op_run_task 0 1 true) (fst example) /\ exists s' es, step (op_run_task 0 1 true) (fst example) = Some (s', es).
Proof.
  assert (op_ok (op_run_task 0 1 true) (fst example)) as Hok by (refine (bool_decide_unpack (op_ok _ _) _); vm_compute; exact I).
  split; [exact Hok|]. exact (pdcp_rx_never_aborts _ _ _ pdcp_rx_example_reachable Hok).
Defined.

Lemma pdcp_rx_delivers_in_order_witness :
  delivered (snd example) = [[5; 6]] /\
  delivered (snd example) = between (taken (snd example)) 0 (rx_deliv (st (entity (fst example)))) /\
  taken (snd example) !! 1 = None.
Proof.
  split; [vm_compute; reflexivity|]. destruct (pdcp_rx_delivers_in_order _ _ pdcp_rx_example_reachable) as (H1 & H2 & _).
  split; [exact H1|exact H2].
Defined.

Lemma pdcp_rx_window_invariant_witness :
  is_running (reordering_timer (entity (fst example))) = true /\ rx_reord (st (entity (fst example))) <= 3.
Proof.
  destruct (pdcp_rx_window_invariant _ _ pdcp_rx_example_reachable) as (_ & _ & _ & _ & H1 & H2 & _).
  assert (is_running (reordering_timer (entity (fst example))) = true) as Hr by (apply H2; vm_compute; reflexivity).
  split; [exact Hr|]. destruct (H1 Hr) as [_ [_ H3]]. replace 3 with (rx_next (st (entity (fst example)))) by (vm_compute; reflexivity). exact H3.
Defined.

Definition example_expiry : rx_op := op_reordering_timeout (tm_cmd_id (reordering_timer (entity (fst example)))).
Definition example_expired : rx_system * list rx_event := default (fst example, []) (step example_expiry (fst example)).

Lemma pdcp_rx_reordering_expiry_witness :
  first_missing (taken (snd example)) (rx_reord (st (entity (fst example)))) (rx_deliv (st (entity (fst example_expired)))) /\
  sdus (snd example_expired) = [[7]].
Proof.
  assert (is_running (reordering_timer (entity (fst example))) = true) as H1 by (vm_compute; reflexivity).
  assert (stopped (entity (fst example)) = false) as H2 by (vm_compute; reflexivity).
  assert (step example_expiry (fst example) = Some (fst example_expired, snd example_expired)) as H3 by (vm_compute; reflexivity).
  split; [|vm_compute; reflexivity]. exact (proj1 (pdcp_rx_reordering_expiry _ _ _ _ pdcp_rx_example_reachable H1 H2 H3)).
Defined.

Lemma pdcp_rx_tokens_exact_witness :
  zlen (tasks (fst example)) = 1 /\ tokens (token_mngr (entity (fst example))) = u32 (1 - 0) /\
  pending_crypto (token_mngr (entity (fst example))) <> true.
Proof.
  assert (zlen (tasks (fst example)) = 1 /\ halted (fst example) = false) as [E1 E2] by (vm_compute; split; reflexivity).
  split; [exact E1|]. destruct (pdcp_rx_tokens_exact _ _ pdcp_rx_example_reachable) as [H1 H2]. rewrite E1, E2 in H1.
  split; [exact H1|]. intros E. apply H2 in E. destruct E as [E _]. rewrite E2 in E. discriminate.
Defined.

Lemma pdcp_rx_status_report_exact_witness :
  compile_status_report (entity (fst example)) = [0; 0; 0; 0; 1; 128] /\
  exists pad, (pad < 8)%nat /\ bytes_bits (compile_status_report (entity (fst example))) =
    value_bits 8 0 ++ value_bits 32 1 ++ map (fun c => bool_decide (is_Some (taken (snd example) !! c))) [2] ++ repeat false pad.
Proof.
  split; [vm_compute; reflexivity|]. destruct (pdcp_rx_status_report_exact _ _ pdcp_rx_example_reachable) as (pad & H1 & H2 & _).
  assert (rx_deliv (st (entity (fst example))) = 1) as E1 by (vm_compute; reflexivity).
  assert (rx_next (st (entity (fst example))) = 3) as E2 by (vm_compute; reflexivity).
  rewrite E1, E2 in H2. exists pad. split; [exact H1|exact H2].
Defined.

(** The same bearer before the last PDU, and keys for it. *)
Definition example_idle : rx_system * history := run_from example_config (through 0 [5; 6] ++ through 2 [7]).
Definition example_keys : sec_128_as_config := mk_sec_config domain_up (Some [1; 2]) [3; 4] (Some nia2) nea2.

Lemma example_idle_reachable : reachable (fst example_idle) (snd example_idle).
Proof.
  apply (run_reachable (through 0 [5; 6] ++ through 2 [7]) (start_system example_config) start_history); [|vm_compute; reflexivity].
  apply start_reachable; [eexists; reflexivity|split; reflexivity || discriminate].
Qed.

Definition example_reestablished : rx_system * list rx_event :=
  default (fst example_idle, []) (step (op_reestablish example_keys) (fst example_idle)).

Lemma pdcp_rx_reestablish_witness :
  sdus (snd example_reestablished) = [[7]] /\
  st (entity (fst example_reestablished)) = mk_state 0 0 0 /\
  delivered (snd example_idle) ++ sdus (snd example_reestablished) = between (taken (snd example_idle)) 0 3.
Proof.
  assert (op_ok (op_reestablish example_keys) (fst example_idle)) as H1
    by (refine (bool_decide_unpack (op_ok _ _) _); vm_compute; exact I).
  assert (step (op_reestablish example_keys) (fst example_idle) = Some (fst example_reestablished, snd example_reestablished)) as H2
    by (vm_compute; reflexivity).
  destruct (pdcp_rx_reestablish _ _ _ _ _ example_idle_reachable H1 H2) as (H3 & H4 & _).
  assert (is_um (entity (fst example_idle)) = true) as E1 by (vm_compute; reflexivity).
  assert (is_srb (entity (fst example_idle)) = false) as E2 by (vm_compute; reflexivity).
  assert (rx_next (st (entity (fst example_idle))) = 3) as E3 by (vm_compute; reflexivity).
  assert (from (snd example_idle) = 0) as E4 by (vm_compute; reflexivity).
  rewrite E1, E2, E3, E4 in H3. rewrite E1, E2 in H4.
  split; [vm_compute; reflexivity|]. split; [exact H4|exact H3].
Defined.

(** ** Where the entity fails *)

Definition srb_config : pdcp_rx_config :=
  mk_config rb_srb mode_am pdcp_size12bits sd_uplink false false t_reordering_infinity (mk_max_count 0xc0000000 0xd0000000).

(** A PDU of five octets on an SRB without security makes an assertion fail: it passes the checks of length, the
    crypto worker cuts four octets of MAC off and then two octets of header off the one that is left. *)
Theorem pdcp_rx_short_srb_pdu_aborts (A : SecurityAlgorithms) b2 b3 b4 accepted :
  exists s es, step (op_handle_pdu true [0; 0; b2; b3; b4]) (start_system srb_config) = Some (s, es) /\
    step (op_run_task 0 0 accepted) s = None.
Proof. eexists _, _. split; reflexivity. Qed.

(** The maximum COUNT the code configures by default. *)
Definition default_config : pdcp_rx_config :=
  mk_config rb_drb mode_um pdcp_size12bits sd_uplink false false 10 (mk_max_count 0xc0000000 0xfffffffe).

Fixpoint steps {A : SecurityAlgorithms} (os : list rx_op) (s : rx_system) : option rx_system :=
  match os with
  | [] => Some s
  | o :: os' => match step o s with Some (s', _) => steps os' s' | None => None end
  end.

(** With the default maximum COUNT, one PDU ahead of the window moves a fresh bearer to the end of the COUNTs: the
    HFN wraps below zero, the COUNT is accepted, and the window is no window any more: expiry of t-Reordering
    then passes over all COUNTs there are. *)
Theorem pdcp_rx_count_underflow (A : SecurityAlgorithms) :
  exists s, steps [op_handle_pdu true [0x8f; 0xfd; 7]; op_run_task 0 0 true; op_run_task 0 0 true] (start_system default_config) = Some s /\
    st (entity s) = mk_state 0xfffffffe 0 0xfffffffe /\ window_size (entity s) = 2048 /\
    is_running (reordering_timer (entity s)) = true.
Proof. eexists. split; [vm_compute; reflexivity|]. split; [|split]; reflexivity. Qed.
