(* ===== verification/PdcpTx.v ===== *)
(** * PDCP transmitting entity

    Models [pdcp_entity_tx] of [lib/pdcp/pdcp_entity_tx.h] and [lib/pdcp/pdcp_entity_tx.cpp] with its
    window [lib/pdcp/pdcp_tx_window.h], [pdcp_tx_window.cpp].  An SDU gets its COUNT and header in
    [handle_sdu], is protected and ciphered by a crypto worker in [apply_security], and
    [apply_reordering] hands the PDUs to the lower layer in the order of their COUNTs.  The tasks are
    events; an executor that rejects a task is the argument [accepted].  The clock of the discard
    timer is the argument [now].  Logging, latencies and times of arrival are left out; other metrics
    are events. *)

From S2P Require Import Prelude Effects Window Timers BitEncoding PdcpSn Ciphering Security PdcpBase.
Open Scope Z_scope.
Open Scope entity_scope.

(** ** The window *)

Record pdcp_tx_window_sdu_info := mk_tx_sdu_info { ts_sdu : list Z; ts_count : Z; tick_point_of_arrival : option Z }.
Record pdcp_tx_window_element := mk_element { sdu_info : pdcp_tx_window_sdu_info; elem_pdu : list Z; sdu_length : Z }.

Definition element_default : pdcp_tx_window_element := mk_element (mk_tx_sdu_info [] 0 None) [] 0.

Record pdcp_tx_window := mk_tx_window { tw_map : CircularMap.t pdcp_tx_window_element; sdu_bytes : Z; nof_sdus : Z }.

Module PdcpTxWindow.
Section window.
Context {S E : Type}.

Definition create (s : pdcp_sn_size) : pdcp_tx_window := mk_tx_window (CircularMap.empty_map (pdcp_window_size s)) 0 0.

Definition has_sn (w : pdcp_tx_window) (count : Z) : bool := SduWindow.has_sn (tw_map w) count.

Definition index (w : pdcp_tx_window) (count : Z) : M S E pdcp_tx_window_element := SduWindow.index (tw_map w) count.

(** Writing through the reference that [operator[]] returns. *)
Definition set_pdu (w : pdcp_tx_window) (count : Z) (pdu : list Z) : M S E pdcp_tx_window :=
  let! elem := index w count in
  ret (mk_tx_window (CircularMap.set_at (tw_map w) (u32 count) (mk_element (sdu_info elem) pdu (sdu_length elem)))
         (sdu_bytes w) (nof_sdus w)).

Definition add_sdu (w : pdcp_tx_window) (info : pdcp_tx_window_sdu_info) (length : Z) : M S E pdcp_tx_window :=
  let! m := SduWindow.add_sn element_default (tw_map w) (ts_count info) in
  ret (mk_tx_window (CircularMap.set_at m (u32 (ts_count info)) (mk_element info [] length))
         (u32 (sdu_bytes w + length)) (u32 (nof_sdus w + 1))).

Definition remove_sdu (w : pdcp_tx_window) (count : Z) : M S E pdcp_tx_window :=
  if has_sn w count then
    let! elem := index w count in
    let! m := SduWindow.remove_sn (tw_map w) count in
    ret (mk_tx_window m (u32 (sdu_bytes w - sdu_length elem)) (u32 (nof_sdus w - 1)))
  else ret w.

Definition clear (w : pdcp_tx_window) : pdcp_tx_window := mk_tx_window (CircularMap.clear (tw_map w)) 0 0.

(** [pdcp_data_header_size] and [pdcp_data_trailer_size]. *)
Definition header_size (s : pdcp_sn_size) : Z := match s with pdcp_size12bits => 2 | _ => 3 end.
Definition trailer_size (rb : pdcp_rb_type) (integrity : bool) : Z :=
  match rb with rb_srb => 4 | rb_drb => if integrity then 4 else 0 end.

Definition get_pdu_bytes (w : pdcp_tx_window) (rb : pdcp_rb_type) (s : pdcp_sn_size) (integrity : bool) : Z :=
  u32 (sdu_bytes w + nof_sdus w * (header_size s + trailer_size rb integrity)).
End window.
End PdcpTxWindow.

(** ** The entity *)

Module PdcpTx.

Record pdcp_tx_config := mk_config {
  rb_type : pdcp_rb_type;
  rlc_mode : pdcp_rlc_mode;
  sn_size : pdcp_sn_size;
  direction : pdcp_security_direction;
  header_compression : bool;
  discard_timer_cfg : option pdcp_discard_timer;
  status_report_required : bool;
  max_count : pdcp_max_count;
  test_mode : bool
}.

Record pdcp_tx_state := mk_state { tx_next : Z; tx_trans_crypto : Z; tx_reord_crypto : Z; tx_trans : Z; tx_next_ack : Z }.

Record pdcp_tx_buffer_info := mk_buffer_info { bi_is_retx : bool; bi_retx_id : Z; bi_count : Z; bi_buf : list Z }.

Inductive early_drop_reason := zero_dbs | full_rlc_queue | full_window | no_drop.

Record pdcp_entity_tx := mk_entity {
  cfg : pdcp_tx_config;
  bearer_id : Z;
  max_nof_crypto_workers : nat;
  stopped : bool;
  discard_timer : unique_timer;
  crypto_reordering_timer : unique_timer;
  st : pdcp_tx_state;
  desired_buffer_size : Z;
  retransmit_id : Z;
  sec_engine_pool : list (option SecurityEngine.security_engine_impl);
  integrity_enabled : bool;
  ciphering_enabled : bool;
  token_mngr : pdcp_crypto_token_manager;
  buffering : bool;
  sdu_buffer : list (list Z);
  tx_window : pdcp_tx_window;
  max_count_notified : bool;
  max_count_overflow : bool
}.

Inductive tx_event :=
| on_new_pdu (pdu : list Z) (is_retx : bool)
| on_discard_pdu (sn : Z)
| on_protocol_failure
| on_max_count_reached
| execute_apply_security (buf_info : pdcp_tx_buffer_info)
| execute_apply_reordering (buf_info : pdcp_tx_buffer_info)
| execute_handle_failure (err : security_error)
| metrics_add_sdus (n bytes : Z)
| metrics_add_lost_sdus (n : Z)
| metrics_add_pdus (n bytes : Z)
| metrics_add_discard_timouts (n : Z).

(** *** Setters *)

Definition set_stopped (v : bool) (e : pdcp_entity_tx) : pdcp_entity_tx :=
  mk_entity (cfg e) (bearer_id e) (max_nof_crypto_workers e) v (discard_timer e) (crypto_reordering_timer e) (st e)
    (desired_buffer_size e) (retransmit_id e) (sec_engine_pool e) (integrity_enabled e) (ciphering_enabled e) (token_mngr e)
    (buffering e) (sdu_buffer e) (tx_window e) (max_count_notified e) (max_count_overflow e).
Definition set_discard_timer (v : unique_timer) (e : pdcp_entity_tx) : pdcp_entity_tx :=
  mk_entity (cfg e) (bearer_id e) (max_nof_crypto_workers e) (stopped e) v (crypto_reordering_timer e) (st e)
    (desired_buffer_size e) (retransmit_id e) (sec_engine_pool e) (integrity_enabled e) (ciphering_enabled e) (token_mngr e)
    (buffering e) (sdu_buffer e) (tx_window e) (max_count_notified e) (max_count_overflow e).
Definition set_crypto_timer (v : unique_timer) (e : pdcp_entity_tx) : pdcp_entity_tx :=
  mk_entity (cfg e) (bearer_id e) (max_nof_crypto_workers e) (stopped e) (discard_timer e) v (st e)
    (desired_buffer_size e) (retransmit_id e) (sec_engine_pool e) (integrity_enabled e) (ciphering_enabled e) (token_mngr e)
    (buffering e) (sdu_buffer e) (tx_window e) (max_count_notified e) (max_count_overflow e).
Definition set_st (v : pdcp_tx_state) (e : pdcp_entity_tx) : pdcp_entity_tx :=
  mk_entity (cfg e) (bearer_id e) (max_nof_crypto_workers e) (stopped e) (discard_timer e) (crypto_reordering_timer e) v
    (desired_buffer_size e) (retransmit_id e) (sec_engine_pool e) (integrity_enabled e) (ciphering_enabled e) (token_mngr e)
    (buffering e) (sdu_buffer e) (tx_window e) (max_count_notified e) (max_count_overflow e).
Definition set_desired_buffer_size (v : Z) (e : pdcp_entity_tx) : pdcp_entity_tx :=
  mk_entity (cfg e) (bearer_id e) (max_nof_crypto_workers e) (stopped e) (discard_timer e) (crypto_reordering_timer e) (st e)
    v (retransmit_id e) (sec_engine_pool e) (integrity_enabled e) (ciphering_enabled e) (token_mngr e)
    (buffering e) (sdu_buffer e) (tx_window e) (max_count_notified e) (max_count_overflow e).
Definition set_retransmit_id (v : Z) (e : pdcp_entity_tx) : pdcp_entity_tx :=
  mk_entity (cfg e) (bearer_id e) (max_nof_crypto_workers e) (stopped e) (discard_timer e) (crypto_reordering_timer e) (st e)
    (desired_buffer_size e) v (sec_engine_pool e) (integrity_enabled e) (ciphering_enabled e) (token_mngr e)
    (buffering e) (sdu_buffer e) (tx_window e) (max_count_notified e) (max_count_overflow e).
Definition set_security (pool : list (option SecurityEngine.security_engine_impl)) (integ ciph : bool) (e : pdcp_entity_tx) : pdcp_entity_tx :=
  mk_entity (cfg e) (bearer_id e) (max_nof_crypto_workers e) (stopped e) (discard_timer e) (crypto_reordering_timer e) (st e)
    (desired_buffer_size e) (retransmit_id e) pool integ ciph (token_mngr e)
    (buffering e) (sdu_buffer e) (tx_window e) (max_count_notified e) (max_count_overflow e).
Definition set_token_mngr (v : pdcp_crypto_token_manager) (e : pdcp_entity_tx) : pdcp_entity_tx :=
  mk_entity (cfg e) (bearer_id e) (max_nof_crypto_workers e) (stopped e) (discard_timer e) (crypto_reordering_timer e) (st e)
    (desired_buffer_size e) (retransmit_id e) (sec_engine_pool e) (integrity_enabled e) (ciphering_enabled e) v
    (buffering e) (sdu_buffer e) (tx_window e) (max_count_notified e) (max_count_overflow e).
Definition set_buffer (b : bool) (v : list (list Z)) (e : pdcp_entity_tx) : pdcp_entity_tx :=
  mk_entity (cfg e) (bearer_id e) (max_nof_crypto_workers e) (stopped e) (discard_timer e) (crypto_reordering_timer e) (st e)
    (desired_buffer_size e) (retransmit_id e) (sec_engine_pool e) (integrity_enabled e) (ciphering_enabled e) (token_mngr e)
    b v (tx_window e) (max_count_notified e) (max_count_overflow e).
Definition set_tx_window (v : pdcp_tx_window) (e : pdcp_entity_tx) : pdcp_entity_tx :=
  mk_entity (cfg e) (bearer_id e) (max_nof_crypto_workers e) (stopped e) (discard_timer e) (crypto_reordering_timer e) (st e)
    (desired_buffer_size e) (retransmit_id e) (sec_engine_pool e) (integrity_enabled e) (ciphering_enabled e) (token_mngr e)
    (buffering e) (sdu_buffer e) v (max_count_notified e) (max_count_overflow e).
Definition set_max_count_flags (n o : bool) (e : pdcp_entity_tx) : pdcp_entity_tx :=
  mk_entity (cfg e) (bearer_id e) (max_nof_crypto_workers e) (stopped e) (discard_timer e) (crypto_reordering_timer e) (st e)
    (desired_buffer_size e) (retransmit_id e) (sec_engine_pool e) (integrity_enabled e) (ciphering_enabled e) (token_mngr e)
    (buffering e) (sdu_buffer e) (tx_window e) n o.

Definition set_tx_next (v : Z) (e : pdcp_entity_tx) : pdcp_entity_tx :=
  set_st (mk_state v (tx_trans_crypto (st e)) (tx_reord_crypto (st e)) (tx_trans (st e)) (tx_next_ack (st e))) e.
Definition set_tx_trans_crypto (v : Z) (e : pdcp_entity_tx) : pdcp_entity_tx :=
  set_st (mk_state (tx_next (st e)) v (tx_reord_crypto (st e)) (tx_trans (st e)) (tx_next_ack (st e))) e.
Definition set_tx_reord_crypto (v : Z) (e : pdcp_entity_tx) : pdcp_entity_tx :=
  set_st (mk_state (tx_next (st e)) (tx_trans_crypto (st e)) v (tx_trans (st e)) (tx_next_ack (st e))) e.
Definition set_tx_trans (v : Z) (e : pdcp_entity_tx) : pdcp_entity_tx :=
  set_st (mk_state (tx_next (st e)) (tx_trans_crypto (st e)) (tx_reord_crypto (st e)) v (tx_next_ack (st e))) e.
Definition set_tx_next_ack (v : Z) (e : pdcp_entity_tx) : pdcp_entity_tx :=
  set_st (mk_state (tx_next (st e)) (tx_trans_crypto (st e)) (tx_reord_crypto (st e)) (tx_trans (st e)) v) e.

Definition H (B : Type) : Type := M pdcp_entity_tx tx_event B.

Definition is_srb (e : pdcp_entity_tx) : bool := bool_decide (rb_type (cfg e) = rb_srb).
Definition is_um (e : pdcp_entity_tx) : bool := bool_decide (rlc_mode (cfg e) = mode_um).
Definition is_am (e : pdcp_entity_tx) : bool := bool_decide (rlc_mode (cfg e) = mode_am).
Definition SN (e : pdcp_entity_tx) (count : Z) : Z := pdcp_compute_sn count (sn_size (cfg e)).
Definition HFN (e : pdcp_entity_tx) (count : Z) : Z := pdcp_compute_hfn count (sn_size (cfg e)).
Definition COUNT (e : pdcp_entity_tx) (hfn sn : Z) : Z := pdcp_compute_count hfn sn (sn_size (cfg e)).
Definition hdr_len_bytes (e : pdcp_entity_tx) : Z := pdcp_data_pdu_header_size (sn_size (cfg e)).
Definition window_size (e : pdcp_entity_tx) : Z := pdcp_window_size (sn_size (cfg e)).
Definition has_sn (e : pdcp_entity_tx) (count : Z) : bool := PdcpTxWindow.has_sn (tx_window e) count.

(** *** Construction and shutdown *)

Definition pdcp_tx_crypto_reordering_timeout_ms : Z := 40.
(** The size of [sdu_buffer]. *)
Definition sdu_buffer_size : Z := 2048.

(** [None]: the configuration is refused with [report_error] or an assertion. *)
Definition create (config : pdcp_tx_config) (bearer : Z) (max_workers : nat) (rohc_supported : bool) : option pdcp_entity_tx :=
  if bool_decide (sn_size config = pdcp_size_invalid) then None else
  if match rb_type config with
     | rb_srb => negb (bool_decide (sn_size config = pdcp_size12bits)) || bool_decide (rlc_mode config = mode_um) || header_compression config
     | rb_drb => header_compression config && negb rohc_supported
     end then None else
  Some (mk_entity config bearer max_workers false create_timer
          (mk_timer timer_stopped (Some pdcp_tx_crypto_reordering_timeout_ms) 0) (mk_state 0 0 0 0 0) 0 0
          (repeat None max_workers) false false Tokens.init false [] (PdcpTxWindow.create (sn_size config)) false false).

Definition return_token : H unit :=
  let! e := get in
  let! t := Tokens.return_token (token_mngr e) in
  modify (set_token_mngr t).

Definition stop : H unit :=
  let! e := get in
  when (negb (stopped e))
    (modify (set_stopped true) ;;;
     modify (set_tx_window (PdcpTxWindow.clear (tx_window e))) ;;;
     when (match discard_timer_cfg (cfg e) with Some _ => true | None => false end)
       (modify (set_discard_timer (timer_stop (discard_timer e)))) ;;;
     modify (set_crypto_timer (timer_stop (crypto_reordering_timer e))) ;;;
     return_token).

Definition notify_pdu_processing_stopped : H unit :=
  let! e := get in when (negb (stopped e)) return_token.

Definition restart_pdu_processing : H unit :=
  let! e := get in when (negb (stopped e)) (modify (set_token_mngr (Tokens.start (token_mngr e)))).

Definition get_count (e : pdcp_entity_tx) : pdcp_count_info := mk_count_info (SN e (tx_next (st e))) (HFN e (tx_next (st e))).

Definition set_count (count_info : pdcp_count_info) (e : pdcp_entity_tx) : pdcp_entity_tx :=
  let count := COUNT e (ci_hfn count_info) (ci_sn count_info) in
  set_st (mk_state count count count count count) e.

Definition reset (e : pdcp_entity_tx) : pdcp_entity_tx :=
  set_tx_window (PdcpTxWindow.clear (tx_window e)) (set_st (mk_state 0 0 0 0 0) e).

Definition nof_pdus_in_window (e : pdcp_entity_tx) : Z := u32 (tx_next (st e) - tx_next_ack (st e)).

(** *** SDUs *)

(** [get_pdu_size]. *)
Definition get_pdu_size (e : pdcp_entity_tx) (sdu : list Z) : Z :=
  PdcpTxWindow.header_size (sn_size (cfg e)) + zlen sdu + (if integrity_enabled e then 4 else 0).

Definition check_early_drop (e : pdcp_entity_tx) (buf : list Z) : early_drop_reason :=
  if desired_buffer_size e =? 0 then zero_dbs else
  let updated_buffer_size :=
    u32 (PdcpTxWindow.get_pdu_bytes (tx_window e) (rb_type (cfg e)) (sn_size (cfg e)) (integrity_enabled e) + get_pdu_size e buf) in
  if desired_buffer_size e <? updated_buffer_size then full_rlc_queue else
  if window_size e - 1 <=? u32 (tx_next (st e) - tx_next_ack (st e)) then full_window else
  no_drop.

(** The buffer with the header in front; the prepending itself never fails. *)
Definition write_data_pdu_header (buf : list Z) (sn : Z) : H (option (list Z)) :=
  let! e := get in
  assert_ (negb (is_srb e && bool_decide (sn_size (cfg e) = pdcp_size18bits))) ;;;
  ret (match data_pdu_header (is_srb e) (sn_size (cfg e)) sn with Some h => Some (h ++ buf) | None => None end).

Definition is_finite (d : option pdcp_discard_timer) : bool :=
  match d with Some v => negb (v =? discard_timer_infinity) | None => false end.

(** Starting the discard timer with a new duration. *)
Definition start_discard_timer (duration : Z) : H unit :=
  let! e := get in
  let! tm := timer_set (discard_timer e) duration in
  let! tm := timer_run tm in
  modify (set_discard_timer tm).

(** The bookkeeping of [handle_sdu] for the discard timer; the information kept in the window. *)
Definition make_sdu_info (now : Z) (buf : list Z) : H pdcp_tx_window_sdu_info :=
  let! e := get in
  match discard_timer_cfg (cfg e) with
  | None => ret (mk_tx_sdu_info [] (tx_next (st e)) None)
  | Some duration =>
      when (negb (duration =? discard_timer_infinity) && negb (is_running (discard_timer e))) (start_discard_timer (u32 duration)) ;;;
      ret (mk_tx_sdu_info (if is_am e then buf else []) (tx_next (st e))
             (if duration =? discard_timer_infinity then None else Some now))
  end.

(** A buffer handed to the crypto workers takes a token with it. *)
Definition execute_crypto (accepted : bool) (buf_info : pdcp_tx_buffer_info) : H unit :=
  if accepted then emit (execute_apply_security buf_info) else return_token.

Definition take_token : H unit := modify (fun e => set_token_mngr (Tokens.increment_token (token_mngr e)) e).

(** The part of [handle_sdu] after the checks. *)
Definition transmit_sdu (now : Z) (accepted : bool) (buf : list Z) : H unit :=
  let! info := make_sdu_info now buf in
  let! e := get in
  let! w := PdcpTxWindow.add_sdu (tx_window e) info (zlen buf) in
  modify (set_tx_window w) ;;;
  let! r := write_data_pdu_header buf (SN e (tx_next (st e))) in
  match r with
  | None => emit (metrics_add_lost_sdus 1) ;;; emit on_protocol_failure
  | Some pdu =>
      let! e := get in
      take_token ;;;
      modify (fun e => set_tx_next (u32 (tx_next (st e) + 1)) e) ;;;
      execute_crypto accepted (mk_buffer_info false (retransmit_id e) (tx_next (st e)) pdu) ;;;
      when (negb accepted) (emit (metrics_add_lost_sdus 1))
  end.

(** [now] is the tick of the discard timer; [warn_on_drop_count] only drives the logs. *)
Definition handle_sdu (now : Z) (accepted : bool) (buf : list Z) : H unit :=
  emit (metrics_add_sdus 1 (zlen buf)) ;;;
  let! e := get in
  if stopped e then emit (metrics_add_lost_sdus 1) else
  if buffering e then
    when (zlen (sdu_buffer e) <? sdu_buffer_size) (modify (set_buffer true (sdu_buffer e ++ [buf])))
  else
  if negb (is_srb e) && negb (match check_early_drop e buf with no_drop => true | _ => false end)
  then emit (metrics_add_lost_sdus 1) else
  if hard (max_count (cfg e)) <=? tx_next (st e) then
    when (negb (max_count_overflow e))
      (emit (metrics_add_lost_sdus 1) ;;; emit on_protocol_failure ;;;
       modify (fun e => set_max_count_flags (max_count_notified e) true e))
  else
    when ((notify (max_count (cfg e)) <=? tx_next (st e)) && negb (max_count_notified e))
      (emit on_max_count_reached ;;; modify (fun e => set_max_count_flags true (max_count_overflow e) e)) ;;;
    transmit_sdu now accepted buf.

Definition begin_buffering (e : pdcp_entity_tx) : pdcp_entity_tx := set_buffer true (sdu_buffer e) e.

(** [accepted n]: whether the crypto executor takes the [n]-th SDU flushed. *)
Definition flush_step (now : Z) (accepted : nat -> bool) (n : nat) : H (nat + unit) :=
  let! e := get in
  match sdu_buffer e with
  | [] => ret (inr tt)
  | buf :: rest => modify (set_buffer (buffering e) rest) ;;; handle_sdu now (accepted n) buf ;;; ret (inl (Datatypes.S n))
  end.

Definition end_buffering (now : Z) (accepted : nat -> bool) : H unit :=
  let! e := get in
  modify (set_buffer false (sdu_buffer e)) ;;;
  while_loop (Datatypes.S (length (sdu_buffer e))) (flush_step now accepted) 0%nat.

(** *** Crypto workers *)

Section security.
Context {A : SecurityAlgorithms}.

(** The value of a failed result is taken: the exception ends the process. *)
Definition apply_ciphering_and_integrity_protection (worker_idx : nat) (buf : list Z) (count : Z) : H SecurityEngine.security_result :=
  let! e := get in
  if (max_nof_crypto_workers e <=? worker_idx)%nat then abort else
  let! sec_engine := need (sec_engine_pool e !! worker_idx) in
  match sec_engine with
  | None => if is_srb e then ret (inl (buf ++ [0; 0; 0; 0])) else ret (inr engine_failure)
  | Some engine =>
      match SecurityEngine.encrypt_and_protect_integrity engine buf (hdr_len_bytes e) count with
      | inl pdu => ret (inl pdu)
      | inr _ => abort
      end
  end.

(** The task of a crypto worker. *)
Definition apply_security (worker_idx : nat) (accepted : bool) (buf_info : pdcp_tx_buffer_info) : H unit :=
  let! result := apply_ciphering_and_integrity_protection worker_idx (bi_buf buf_info) (bi_count buf_info) in
  match result with
  | inr err => when accepted (emit (execute_handle_failure err)) ;;; return_token
  | inl buf =>
      if accepted
      then emit (execute_apply_reordering (mk_buffer_info (bi_is_retx buf_info) (bi_retx_id buf_info) (bi_count buf_info) buf))
      else return_token
  end.
End security.

(** The failure task in the UE executor; it holds no token. *)
Definition handle_failure (err : security_error) : H unit := emit on_protocol_failure.

(** *** Notifications of the lower layer *)

Definition notification_count_estimation (e : pdcp_entity_tx) (notification_sn : Z) : Z :=
  let tx_lower := match discard_timer_cfg (cfg e) with Some _ => tx_next_ack (st e) | None => tx_trans (st e) end in
  count_of_sn (sn_size (cfg e)) tx_lower notification_sn.

Definition remove_sdu (count : Z) : H unit :=
  let! e := get in
  let! w := PdcpTxWindow.remove_sdu (tx_window e) count in
  modify (set_tx_window w).

Definition advance_next_ack : H unit := modify (fun e => set_tx_next_ack (u32 (tx_next_ack (st e) + 1)) e).

(** Both loops over TX_NEXT_ACK end at a COUNT above it. *)
Definition ack_fuel (e : pdcp_entity_tx) (end_ : Z) : nat := Datatypes.S (Z.to_nat (end_ - tx_next_ack (st e))).

Definition stop_discard_step (highest_count : Z) (_ : unit) : H (unit + unit) :=
  let! e := get in
  if tx_next_ack (st e) <=? highest_count then
    when (has_sn e (tx_next_ack (st e))) (remove_sdu (tx_next_ack (st e))) ;;;
    advance_next_ack ;;; ret (inl tt)
  else ret (inr tt).

(** [tx_trans = std::max(tx_trans, tx_next_ack)]. *)
Definition update_tx_trans : H unit := modify (fun e => set_tx_trans (tx_trans (st e) `max` tx_next_ack (st e)) e).

(** The tick of the element at a COUNT, which must have one. *)
Definition arrival_tick (count : Z) : H Z :=
  let! e := get in
  let! elem := PdcpTxWindow.index (tx_window e) count in
  need (tick_point_of_arrival (sdu_info elem)).

Definition stop_discard_timer (now highest_count : Z) : H unit :=
  let! e := get in
  match discard_timer_cfg (cfg e) with
  | None => ret tt
  | Some duration =>
      if (highest_count <? tx_next_ack (st e)) || (tx_next (st e) <=? highest_count) then ret tt else
      if negb (has_sn e (tx_next_ack (st e))) then ret tt else
      modify (set_discard_timer (timer_stop (discard_timer e))) ;;;
      while_loop (ack_fuel e (highest_count + 1)) (stop_discard_step highest_count) tt ;;;
      update_tx_trans ;;;
      if duration =? discard_timer_infinity then ret tt else
      let! e := get in
      when (negb (tx_next_ack (st e) =? tx_next (st e)))
        (let! tick := arrival_tick (tx_next_ack (st e)) in
         start_discard_timer (u32 (tick + u32 duration - now)))
  end.

Definition handle_transmit_notification_impl (now notif_sn : Z) : H unit :=
  let! e := get in
  if pdcp_sn_cardinality (sn_size (cfg e)) <=? notif_sn then ret tt else
  let notif_count := notification_count_estimation e notif_sn in
  if tx_trans_crypto (st e) <=? notif_count then ret tt else
  if notif_count <? tx_trans (st e) then ret tt else
  if tx_next (st e) <=? notif_count then ret tt else
  modify (set_tx_trans (u32 (notif_count + 1))) ;;;
  match discard_timer_cfg (cfg e) with
  | None => ret tt
  | Some _ => when (is_um e) (stop_discard_timer now notif_count)
  end.

Definition handle_transmit_notification (now notif_sn : Z) : H unit :=
  let! e := get in
  if stopped e then ret tt else handle_transmit_notification_impl now notif_sn.

Definition handle_delivery_notification_impl (now notif_sn : Z) : H unit :=
  let! e := get in
  if pdcp_sn_cardinality (sn_size (cfg e)) <=? notif_sn then ret tt else
  let notif_count := notification_count_estimation e notif_sn in
  if tx_next (st e) <=? notif_count then ret tt else
  match discard_timer_cfg (cfg e) with
  | None => ret tt
  | Some _ => when (is_am e) (stop_discard_timer now notif_count)
  end.

Definition handle_delivery_notification (now notif_sn : Z) : H unit :=
  let! e := get in
  if stopped e then ret tt else handle_delivery_notification_impl now notif_sn.

Definition handle_retransmit_notification (now notif_sn : Z) : H unit :=
  let! e := get in
  if stopped e || is_srb e || is_um e then ret tt else handle_transmit_notification_impl now notif_sn.

Definition handle_delivery_retransmitted_notification (now notif_sn : Z) : H unit :=
  let! e := get in
  if stopped e || is_srb e || is_um e then ret tt else handle_delivery_notification_impl now notif_sn.

Definition handle_desired_buffer_size_notification (desired_bs : Z) : H unit :=
  let! e := get in when (negb (stopped e)) (modify (set_desired_buffer_size desired_bs)).

(** *** Discarding *)

Definition skip_missing_step (_ : unit) : H (unit + unit) :=
  let! e := get in
  if (tx_next_ack (st e) <? tx_next (st e)) && negb (has_sn e (tx_next_ack (st e)))
  then advance_next_ack ;;; ret (inl tt) else ret (inr tt).

Definition discard_pdu (count : Z) : H unit :=
  let! e := get in
  match discard_timer_cfg (cfg e) with
  | None => ret tt
  | Some _ =>
      if (count <? tx_next_ack (st e)) || (tx_next (st e) <=? count) then ret tt else
      if negb (has_sn e count) then ret tt else
      emit (on_discard_pdu (SN e count)) ;;;
      remove_sdu count ;;;
      while_loop (ack_fuel e (tx_next (st e))) skip_missing_step tt ;;;
      update_tx_trans
  end.

(** One turn of the [do] loop of [discard_callback]. *)
Definition discard_callback_step (oldest_timepoint : Z) (_ : unit) : H (unit + unit) :=
  let! e := get in
  discard_pdu (tx_next_ack (st e)) ;;;
  let! e := get in
  if negb (has_sn e (tx_next_ack (st e))) then ret (inr tt) else
  let! tick := arrival_tick (tx_next_ack (st e)) in
  if negb (tick =? oldest_timepoint) then
    start_discard_timer (u32 (tick - oldest_timepoint)) ;;; ret (inr tt)
  else if negb (tx_next_ack (st e) =? tx_next (st e)) then ret (inl tt) else ret (inr tt).

Definition discard_callback : H unit :=
  let! e := get in
  if stopped e then ret tt else
  emit (metrics_add_discard_timouts 1) ;;;
  if negb (has_sn e (tx_next_ack (st e))) then ret tt else
  let! oldest_timepoint := arrival_tick (tx_next_ack (st e)) in
  while_loop (ack_fuel e (tx_next (st e))) (discard_callback_step oldest_timepoint) tt.

(** The expiry task of the discard timer. *)
Definition discard_timeout (epoch : Z) : H unit :=
  let! e := get in
  let! r := timeout_task (discard_timer e) epoch in
  modify (set_discard_timer (fst r)) ;;;
  when (snd r) discard_callback.

(** *** Reordering of the protected PDUs *)

Definition write_data_pdu_to_lower_layers (pdu : list Z) (is_retx : bool) : H unit :=
  emit (metrics_add_pdus 1 (zlen pdu)) ;;; emit (on_new_pdu pdu is_retx).

Definition write_control_pdu_to_lower_layers (buf : list Z) : H unit :=
  emit (metrics_add_pdus 1 (zlen buf)) ;;; emit (on_new_pdu buf false).

(** The PDU at a COUNT is moved out of the window and written. *)
Definition write_stored_pdu (count : Z) (pdu : list Z) (is_retx : bool) : H unit :=
  let! e := get in
  let! w := PdcpTxWindow.set_pdu (tx_window e) count [] in
  modify (set_tx_window w) ;;;
  write_data_pdu_to_lower_layers pdu is_retx.

Definition deliver_step (now : Z) (is_retx : bool) (count : Z) : H (Z + unit) :=
  let! e := get in
  if count <? tx_next (st e) then
    let! elem := PdcpTxWindow.index (tx_window e) count in
    match elem_pdu elem with
    | [] => ret (inr tt)
    | pdu =>
        write_stored_pdu count pdu is_retx ;;;
        modify (set_tx_trans_crypto (u32 (count + 1))) ;;;
        when (test_mode (cfg e)) (handle_transmit_notification now (SN e count)) ;;;
        ret (inl (u32 (count + 1)))
    end
  else ret (inr tt).

(** Both reordering functions deliver what is there in order. *)
Definition deliver_in_order (now : Z) (is_retx : bool) : H unit :=
  let! e := get in
  while_loop (Datatypes.S (Z.to_nat (tx_next (st e) - tx_trans_crypto (st e)))) (deliver_step now is_retx) (tx_trans_crypto (st e)).

Definition run_crypto_timer : H unit :=
  let! e := get in
  let! tm := timer_run (crypto_reordering_timer e) in
  modify (set_crypto_timer tm).

Definition handle_crypto_timers : H unit :=
  let! e := get in
  when (is_running (crypto_reordering_timer e) && (tx_reord_crypto (st e) <=? tx_trans_crypto (st e)))
    (modify (set_crypto_timer (timer_stop (crypto_reordering_timer e)))) ;;;
  let! e := get in
  when (negb (is_running (crypto_reordering_timer e)) && (tx_trans_crypto (st e) <? tx_next (st e)))
    (modify (set_tx_reord_crypto (tx_next (st e))) ;;; run_crypto_timer).

Definition apply_reordering_body (now : Z) (buf_info : pdcp_tx_buffer_info) : H unit :=
  let! e := get in
  let count := bi_count buf_info in
  if stopped e then ret tt else
  if negb (bi_retx_id buf_info =? retransmit_id e) then ret tt else
  if count <? tx_next_ack (st e) then ret tt else
  if count <? tx_trans (st e) then ret tt else
  if negb (has_sn e count) then ret tt else
  let! w := PdcpTxWindow.set_pdu (tx_window e) count (bi_buf buf_info) in
  modify (set_tx_window w) ;;;
  deliver_in_order now (bi_is_retx buf_info) ;;;
  handle_crypto_timers.

(** The task; the token is returned when it ends. *)
Definition apply_reordering (now : Z) (buf_info : pdcp_tx_buffer_info) : H unit :=
  apply_reordering_body now buf_info ;;; return_token.

Definition crypto_expire_step (_ : unit) : H (unit + unit) :=
  let! e := get in
  let count := tx_trans_crypto (st e) in
  if count =? tx_reord_crypto (st e) then ret (inr tt) else
  when (has_sn e count)
    (let! elem := PdcpTxWindow.index (tx_window e) count in
     match elem_pdu elem with [] => ret tt | pdu => write_stored_pdu count pdu false end) ;;;
  modify (set_tx_trans_crypto (u32 (count + 1))) ;;; ret (inl tt).

Definition crypto_reordering_timeout (now : Z) : H unit :=
  let! e := get in
  if stopped e then ret tt else
  while_loop (Datatypes.S (Z.to_nat (u32 (tx_reord_crypto (st e) - tx_trans_crypto (st e))))) crypto_expire_step tt ;;;
  deliver_in_order now false ;;;
  let! e := get in
  when (tx_trans_crypto (st e) <? tx_next (st e))
    (modify (set_tx_reord_crypto (tx_next (st e))) ;;; run_crypto_timer).

(** The expiry task of the crypto reordering timer. *)
Definition crypto_timeout (now epoch : Z) : H unit :=
  let! e := get in
  let! r := timeout_task (crypto_reordering_timer e) epoch in
  modify (set_crypto_timer (fst r)) ;;;
  when (snd r) (crypto_reordering_timeout now).

(** *** Status reports, retransmission and re-establishment *)

Fixpoint discard_each (counts : list Z) : H unit :=
  match counts with [] => ret tt | count :: counts' => discard_pdu count ;;; discard_each counts' end.

(** The bitmap: [fmc] is the COUNT of the bit read before. *)
Fixpoint evaluate_bitmap (fuel : nat) (dec : bit_decoder) (fmc : Z) : H unit :=
  match unpack_uint 32 dec 1 with
  | (bit, true, dec') =>
      match fuel with
      | O => fun _ => Fault FaultFuel
      | Datatypes.S fuel' => when (bit =? 1) (discard_pdu (u32 (fmc + 1))) ;;; evaluate_bitmap fuel' dec' (u32 (fmc + 1))
      end
  | (_, false, _) => ret tt
  end.

Definition handle_status_report (status : list Z) : H unit :=
  let '(dc, _, dec) := unpack_uint 32 (new_decoder status) 1 in
  if negb (dc =? to_number_pdcp_dc pdcp_control) then ret tt else
  let '(cpt, _, dec) := unpack_uint 32 dec 3 in
  if negb (cpt =? cpt_status_report) then ret tt else
  let '(reserved, _, dec) := unpack_uint 32 dec 4 in
  if negb (reserved =? 0) then ret tt else
  let '(fmc, _, dec) := unpack_uint 32 dec 32 in
  let! e := get in
  discard_each (seqZ (tx_next_ack (st e)) (fmc - tx_next_ack (st e))) ;;;
  evaluate_bitmap (8 * length status) dec fmc.

(** [report] is what [compile_status_report] of the receiving side returns. *)
Definition send_status_report (report : list Z) : H unit :=
  let! e := get in when (status_report_required (cfg e)) (write_control_pdu_to_lower_layers report).

(** [accepted count]: whether the crypto executor takes the buffer of that COUNT. *)
Definition retransmit_step (accepted : Z -> bool) (count : Z) : H (Z + unit) :=
  let! e := get in
  if count <? tx_next (st e) then
    if has_sn e count then
      let! elem := PdcpTxWindow.index (tx_window e) count in
      let! r := write_data_pdu_header (ts_sdu (sdu_info elem)) (SN e count) in
      match r with
      | None => emit on_protocol_failure ;;; ret (inr tt)
      | Some buf =>
          take_token ;;;
          execute_crypto (accepted count) (mk_buffer_info true (retransmit_id e) count buf) ;;;
          ret (inl (u32 (count + 1)))
      end
    else ret (inl (u32 (count + 1)))
  else ret (inr tt).

Definition retransmit_all_pdus (accepted : Z -> bool) : H unit :=
  let! e := get in
  match discard_timer_cfg (cfg e) with
  | None => ret tt
  | Some _ =>
      if negb (is_am e) then ret tt else
      modify (set_tx_trans (tx_next_ack (st e))) ;;;
      modify (set_tx_trans_crypto (tx_next_ack (st e))) ;;;
      modify (set_retransmit_id (u16 (retransmit_id e + 1))) ;;;
      while_loop (ack_fuel e (tx_next (st e))) (retransmit_step accepted) (tx_next_ack (st e))
  end.

Definition data_recovery (report : list Z) (accepted : Z -> bool) : H unit :=
  let! e := get in
  assert_ (negb (is_srb e) && is_am e) ;;;
  when (status_report_required (cfg e)) (send_status_report report) ;;;
  retransmit_all_pdus accepted.

Definition configure_security (sec_cfg : sec_128_as_config) (integrity_enabled_ ciphering_enabled_ : bool) : H unit :=
  let! e := get in
  assert_ (bool_decide (sec_domain_of sec_cfg = if is_srb e then domain_rrc else domain_up)) ;;;
  if integrity_enabled_ && (match k_128_int sec_cfg with None => true | _ => false end ||
                            match integ_algo sec_cfg with None => true | _ => false end) then ret tt else
  assert_ (integrity_enabled_ || negb (is_srb e)) ;;;
  let dir := match direction (cfg e) with sd_uplink => dir_uplink | sd_downlink => dir_downlink end in
  let! engine := need (SecurityEngine.create sec_cfg (bearer_id e) dir integrity_enabled_ ciphering_enabled_) in
  modify (set_security (repeat (Some engine) (max_nof_crypto_workers e)) integrity_enabled_ ciphering_enabled_).

Definition reestablish (sec_cfg : sec_128_as_config) (accepted : Z -> bool) : H unit :=
  let! e := get in
  when (is_srb e || is_um e) (modify reset) ;;;
  configure_security sec_cfg (integrity_enabled e) (ciphering_enabled e) ;;;
  when (is_am e) (retransmit_all_pdus accepted).

End PdcpTx.
