(* ===== verification/PdcpTxFacts.v ===== *)
(** * PDCP transmitting entity: the window

    [win_inv G cf held w next ack] describes a window whose SDUs are [held], by COUNT: each element
    keeps what its SDU needs, and a PDU waiting in it is the SDU's PDU under one of the engines [G]. *)

From S2P Require Import Prelude Effects Window Timers BitEncoding PdcpSn Ciphering Security PdcpBase PdcpTx.
Import PdcpTx.
Open Scope Z_scope.
Open Scope entity_scope.

(** ** Events *)

Inductive tx_task :=
| task_security (buf_info : pdcp_tx_buffer_info)
| task_reordering (buf_info : pdcp_tx_buffer_info)
| task_failure (err : security_error).

(** The PDUs written, the SNs discarded and the tasks dispatched by a run. *)
Definition pdus (es : list tx_event) : list (list Z * bool) :=
  omap (fun ev => match ev with on_new_pdu p r => Some (p, r) | _ => None end) es.
Definition discards (es : list tx_event) : list Z :=
  omap (fun ev => match ev with on_discard_pdu sn => Some sn | _ => None end) es.
Definition dispatched (es : list tx_event) : list tx_task :=
  omap (fun ev => match ev with
    | execute_apply_security i => Some (task_security i)
    | execute_apply_reordering i => Some (task_reordering i)
    | execute_handle_failure err => Some (task_failure err)
    | _ => None
    end) es.

Lemma pdus_app es es' : pdus (es ++ es') = pdus es ++ pdus es'.
Proof. apply omap_app. Qed.
Lemma discards_app es es' : discards (es ++ es') = discards es ++ discards es'.
Proof. apply omap_app. Qed.
Lemma tx_dispatched_app es es' : dispatched (es ++ es') = dispatched es ++ dispatched es'.
Proof. apply omap_app. Qed.

(** Runs that write nothing, discard nothing and dispatch nothing. *)
Definition quiet (es : list tx_event) : Prop := pdus es = [] /\ discards es = [] /\ dispatched es = [].

Lemma quiet_app es es' : quiet es -> quiet es' -> quiet (es ++ es').
Proof.
  unfold quiet. rewrite pdus_app, discards_app, tx_dispatched_app. intros (->&->&->) (->&->&->). done.
Qed.
Lemma quiet_nil : quiet [].
Proof. done. Qed.

(** ** Configurations *)

Definition is_configured (cf : pdcp_tx_config) : bool := match discard_timer_cfg cf with Some _ => true | None => false end.

(** What [create] accepts, with a discard timer of the enumeration; test mode, in which the entity
    notifies itself, is left to the tests. *)
Definition config_ok (cf : pdcp_tx_config) : Prop :=
  sn_size_ok (sn_size cf) /\
  (rb_type cf = rb_srb -> sn_size cf = pdcp_size12bits /\ rlc_mode cf = mode_am) /\
  match discard_timer_cfg cf with Some d => d = discard_timer_infinity \/ 0 < d <= 1500 | None => True end /\
  0 <= hard (max_count cf) < 2 ^ 32 /\ test_mode cf = false.

Lemma tx_window_facts cf : config_ok cf ->
  2048 <= pdcp_window_size (sn_size cf) <= 131072 /\ exists j, 0 <= j /\ pdcp_window_size (sn_size cf) = 2 ^ j.
Proof.
  intros [Hs _]. destruct (sn_size_facts _ Hs) as (H1 & _ & H2 & H3 & H4). split; [done|]. eexists. split; [|exact H3]. lia.
Qed.

(** ** PDUs *)

(** Octets in the SDUs. *)
Definition total (held : gmap Z (list Z)) : Z := map_fold (fun _ sdu n => zlen sdu + n) 0 held.

Lemma total_insert held c sdu : held !! c = None -> total (<[c := sdu]> held) = zlen sdu + total held.
Proof. intros. unfold total. rewrite map_fold_insert_L; [done| |done]. intros. lia. Qed.

Lemma total_delete held c sdu : held !! c = Some sdu -> total held = zlen sdu + total (delete c held).
Proof. intros. unfold total. by rewrite (map_fold_delete_L _ _ c sdu held) by (done || intros; lia). Qed.

Section window.
Context {A : SecurityAlgorithms}.

(** What a crypto worker makes of a buffer with header, without failure. *)
Definition protected (cf : pdcp_tx_config) (engine : option SecurityEngine.security_engine_impl) (buf : list Z) (count : Z) : option (list Z) :=
  match engine with
  | None => if bool_decide (rb_type cf = rb_srb) then Some (buf ++ [0; 0; 0; 0]) else None
  | Some g =>
      match SecurityEngine.encrypt_and_protect_integrity g buf (pdcp_data_pdu_header_size (sn_size cf)) count with
      | inl pdu => Some pdu
      | inr _ => None
      end
  end.

(** The SDU behind its header. *)
Definition with_header (cf : pdcp_tx_config) (count : Z) (sdu : list Z) : option (list Z) :=
  match data_pdu_header (bool_decide (rb_type cf = rb_srb)) (sn_size cf) (pdcp_compute_sn count (sn_size cf)) with
  | Some h => Some (h ++ sdu)
  | None => None
  end.

Definition pdu_of (G : list (option SecurityEngine.security_engine_impl)) (cf : pdcp_tx_config) (count : Z) (sdu pdu : list Z) : Prop :=
  exists engine buf, engine ∈ G /\ with_header cf count sdu = Some buf /\ protected cf engine buf count = Some pdu.

Context (G : list (option SecurityEngine.security_engine_impl)) (cf : pdcp_tx_config).

Record elem_ok (count : Z) (sdu : list Z) (el : pdcp_tx_window_element) : Prop := {
  eo_count : ts_count (sdu_info el) = count;
  eo_length : sdu_length el = zlen sdu;
  eo_sdu : is_configured cf = true -> rlc_mode cf = mode_am -> ts_sdu (sdu_info el) = sdu;
  eo_tick : is_finite (discard_timer_cfg cf) = true -> exists t, tick_point_of_arrival (sdu_info el) = Some t /\ 0 <= t < 2 ^ 32;
  eo_pdu : elem_pdu el = [] \/ pdu_of G cf count sdu (elem_pdu el)
}.

Notation look w := (CircularMap.lookup (tw_map w)).

(** Later SDUs arrived later, the ticks compared modulo 2^32. *)
Definition ticks_ordered (w : pdcp_tx_window) : Prop :=
  forall c c' el el' t t', c < c' -> look w c = Some el -> look w c' = Some el' ->
    tick_point_of_arrival (sdu_info el) = Some t -> tick_point_of_arrival (sdu_info el') = Some t' ->
    u32 (t' - t) <= MAX_TIMER_DURATION.

Record win_inv (held : gmap Z (list Z)) (w : pdcp_tx_window) (next ack : Z) : Prop := {
  wi_wf : CircularMap.wf (tw_map w);
  wi_cap : CircularMap.capacity (tw_map w) = pdcp_window_size (sn_size cf);
  wi_held : forall c, match look w c with Some el => exists sdu, held !! c = Some sdu /\ elem_ok c sdu el | None => held !! c = None end;
  wi_keys : forall c sdu, held !! c = Some sdu ->
    0 <= c /\ next - pdcp_window_size (sn_size cf) <= c < next /\ (is_configured cf = true -> ack <= c);
  wi_totals : is_configured cf = true -> nof_sdus w = u32 (Z.of_nat (size held)) /\ sdu_bytes w = u32 (total held);
  wi_ticks : ticks_ordered w
}.

Lemma held_look held w next ack c sdu :
  win_inv held w next ack -> held !! c = Some sdu -> exists el, look w c = Some el /\ elem_ok c sdu el.
Proof.
  intros Hi Hc. pose proof (wi_held _ _ _ _ Hi c) as H. destruct (look w c) as [el|]; [|congruence].
  destruct H as (sdu' & ? & ?). simplify_eq. eauto.
Qed.

Lemma tx_has_sn_held held w next ack c :
  win_inv held w next ack -> 0 <= c < 2 ^ 32 -> PdcpTxWindow.has_sn w c = bool_decide (is_Some (held !! c)).
Proof.
  intros Hi Hc. unfold PdcpTxWindow.has_sn, SduWindow.has_sn. rewrite u32_small, CircularMap.contains_lookup by done.
  pose proof (wi_held _ _ _ _ Hi c) as H. destruct (look w c) as [el|].
  - destruct H as (sdu & -> & _). by rewrite bool_decide_true by eauto.
  - rewrite H. by rewrite bool_decide_false by by intros [? ?].
Qed.

Lemma wp_tx_index {S E} held w next ack c sdu (s : S) (Q : pdcp_tx_window_element -> S -> list E -> Prop) :
  win_inv held w next ack -> 0 <= c < 2 ^ 32 -> held !! c = Some sdu ->
  (forall el, look w c = Some el -> elem_ok c sdu el -> Q el s []) -> wp (PdcpTxWindow.index w c) Q s.
Proof.
  intros Hi Hc Hh HQ. destruct (held_look _ _ _ _ _ _ Hi Hh) as (el & Hl & Ho).
  unfold PdcpTxWindow.index, SduWindow.index. rewrite u32_small by done. eapply CircularMap.wp_at; [exact Hl|]. by apply HQ.
Qed.

(** The slots of the window. *)
Lemma tx_slot held w next ack c : config_ok cf -> win_inv held w next ack ->
  CircularMap.get_circular_idx (tw_map w) c = c mod pdcp_window_size (sn_size cf).
Proof.
  intros Hcf Hi. destruct (tx_window_facts _ Hcf) as (_ & j & Hj & Hw).
  rewrite (circular_idx_mod _ j); [by rewrite (wi_cap _ _ _ _ Hi)|done|by rewrite (wi_cap _ _ _ _ Hi)].
Qed.

(** *** Removing *)

Lemma ticks_ordered_sub w w' :
  (forall c el, look w' c = Some el -> exists el0, look w c = Some el0 /\
     tick_point_of_arrival (sdu_info el) = tick_point_of_arrival (sdu_info el0)) -> ticks_ordered w -> ticks_ordered w'.
Proof.
  intros Hsub Ht c c' el el' t t' Hlt H1 H2 T1 T2. destruct (Hsub _ _ H1) as (a & Ha & Ta). destruct (Hsub _ _ H2) as (b & Hb & Tb).
  eapply Ht; [exact Hlt|exact Ha|exact Hb| |]; congruence.
Qed.

Lemma wp_window_remove {S E} held w next ack c sdu (s : S) (Q : pdcp_tx_window -> S -> list E -> Prop) :
  win_inv held w next ack -> 0 <= c < 2 ^ 32 -> held !! c = Some sdu ->
  (forall w', win_inv (delete c held) w' next ack -> (forall c', c' <> c -> look w' c' = look w c') -> Q w' s []) ->
  wp (PdcpTxWindow.remove_sdu w c) Q s.
Proof.
  intros Hi Hc Hh HQ. unfold PdcpTxWindow.remove_sdu. rewrite (tx_has_sn_held held w next ack) by done.
  rewrite bool_decide_true by eauto. wp_step. eapply wp_tx_index; [exact Hi|done|exact Hh|]. intros el Hl Ho.
  wp_step. unfold SduWindow.remove_sn, SduWindow.has_sn. rewrite u32_small by done.
  assert (CircularMap.contains (tw_map w) c = true) as Hct by (apply CircularMap.contains_true; eauto). rewrite Hct. simpl. wp_step.
  wp_step. apply HQ.
  - pose proof (CircularMap.lookup_erase (tw_map w) c) as Hle. pose proof (wi_wf _ _ _ _ Hi) as Hwf. constructor; simpl.
    + by apply CircularMap.wf_erase.
    + rewrite CircularMap.capacity_erase. apply Hi.
    + intros c'. rewrite Hle by done. pose proof (wi_held _ _ _ _ Hi c') as H.
      destruct (Z.eqb_spec c' c) as [->|Hne]; [by rewrite lookup_delete_eq|]. by rewrite lookup_delete_ne.
    + intros c' sdu' [_ Hc']%lookup_delete_Some. by apply Hi in Hc'.
    + intros Hcfg. destruct (wi_totals _ _ _ _ Hi Hcfg) as [-> ->]. rewrite (eo_length _ _ _ Ho).
      rewrite (total_delete _ _ _ Hh). rewrite map_size_delete, Hh.
      assert (0 < size held)%nat.
      { destruct (size held) eqn:Es; [|lia]. apply map_size_empty_inv in Es. by rewrite Es, lookup_empty in Hh. }
      unfold u32. rewrite !Zminus_mod_idemp_l. split; f_equal; lia.
    + apply (ticks_ordered_sub w); [|apply Hi]. simpl. intros c' el'. rewrite Hle by done. destruct (_ =? _); [done|]. eauto.
  - intros c' Hne. simpl. rewrite CircularMap.lookup_erase by apply Hi. by destruct (Z.eqb_spec c' c).
Qed.

(** The lower edge moves over COUNTs that are not held. *)
Lemma win_inv_ack held w next ack ack' :
  (forall c, is_Some (held !! c) -> is_configured cf = true -> ack' <= c) -> win_inv held w next ack -> win_inv held w next ack'.
Proof.
  intros Hno [? ? ? Hk ? ?]. constructor; try done. intros c sdu Hc. destruct (Hk _ _ Hc) as (? & ? & _).
  split; [done|]. split; [done|]. eauto.
Qed.

(** *** Waiting PDUs *)

Lemma wp_window_set_pdu {S E} held w next ack c sdu pdu (s : S) (Q : pdcp_tx_window -> S -> list E -> Prop) :
  win_inv held w next ack -> 0 <= c < 2 ^ 32 -> held !! c = Some sdu -> pdu = [] \/ pdu_of G cf c sdu pdu ->
  (forall w', win_inv held w' next ack -> (forall c', c' <> c -> look w' c' = look w c') ->
     elem_pdu <$> look w' c = Some pdu -> Q w' s []) ->
  wp (PdcpTxWindow.set_pdu w c pdu) Q s.
Proof.
  intros Hi Hc Hh Hp HQ. unfold PdcpTxWindow.set_pdu. wp_step. eapply wp_tx_index; [exact Hi|done|exact Hh|]. intros el Hl Ho.
  wp_step. rewrite u32_small by done.
  assert (CircularMap.contains (tw_map w) c = true) as Hct by (apply CircularMap.contains_true; eauto).
  set (el' := mk_element _ _ _).
  assert (forall c', CircularMap.lookup (CircularMap.set_at (tw_map w) c el') c' = if c' =? c then Some el' else look w c') as Hls.
  { intros c'. by rewrite CircularMap.lookup_set_at, Hct. }
  apply HQ; simpl.
  - constructor; simpl.
    + apply CircularMap.wf_set_at, Hi.
    + rewrite CircularMap.capacity_set_at. apply Hi.
    + intros c'. rewrite Hls. destruct (Z.eqb_spec c' c) as [->|Hne]; [|apply Hi].
      exists sdu. split; [done|]. destruct Ho. by constructor.
    + apply Hi.
    + apply Hi.
    + apply (ticks_ordered_sub w); [|apply Hi]. simpl. intros c' e'. rewrite Hls. destruct (Z.eqb_spec c' c) as [->|]; [|eauto].
      intros [= <-]. eauto.
  - intros c' Hne. rewrite Hls. by destruct (Z.eqb_spec c' c).
  - by rewrite Hls, Z.eqb_refl.
Qed.

(** *** Adding *)

Lemma same_slot W next c : 0 < W -> next - W <= c < next -> c mod W = next mod W <-> c = next - W.
Proof.
  intros HW Hc. split.
  - intros Em. pose proof (Z.div_mod c W ltac:(lia)). pose proof (Z.div_mod next W ltac:(lia)).
    assert (next - c = W * (next / W - c / W)) as E by lia. set (k := next / W - c / W) in *.
    assert (k = 1) as Hk by (clear -HW Hc E; nia). rewrite Hk in E. lia.
  - intros ->. rewrite <- (Z_mod_plus_full next (-1) W). done.
Qed.

(** The SDUs after one more: the new one takes the slot of the one a window before. *)
Definition added (held : gmap Z (list Z)) (next : Z) (sdu : list Z) : gmap Z (list Z) :=
  <[next := sdu]> (delete (next - pdcp_window_size (sn_size cf)) held).

Lemma wp_window_add {S E} held w next ack info sdu (s : S) (Q : pdcp_tx_window -> S -> list E -> Prop) :
  config_ok cf -> win_inv held w next ack -> 0 <= next < 2 ^ 32 -> ack <= next ->
  elem_ok next sdu (mk_element info [] (zlen sdu)) ->
  (is_configured cf = true -> held !! (next - pdcp_window_size (sn_size cf)) = None) ->
  (forall c el t t', look w c = Some el -> tick_point_of_arrival (sdu_info el) = Some t -> tick_point_of_arrival info = Some t' ->
     u32 (t' - t) <= MAX_TIMER_DURATION) ->
  (forall w', win_inv (added held next sdu) w' (next + 1) ack -> look w' next = Some (mk_element info [] (zlen sdu)) -> Q w' s []) ->
  wp (PdcpTxWindow.add_sdu w info (zlen sdu)) Q s.
Proof.
  intros Hcf Hi Hn Ha Ho Hev Htk HQ. pose proof (eo_count _ _ _ Ho) as Hcnt. simpl in Hcnt.
  destruct (tx_window_facts _ Hcf) as (HW & _). set (W := pdcp_window_size (sn_size cf)) in *.
  assert (held !! next = None) as Hfresh.
  { destruct (held !! next) eqn:Eh; [|done]. apply Hi in Eh. lia. }
  unfold PdcpTxWindow.add_sdu, SduWindow.add_sn, SduWindow.has_sn. rewrite Hcnt, u32_small by done.
  assert (CircularMap.contains (tw_map w) next = false) as ->.
  { apply CircularMap.contains_false. pose proof (wi_held _ _ _ _ Hi next) as H. destruct (look w next); [|done].
    destruct H as (? & ? & _). congruence. }
  wp_step. wp_step. wp_step. rewrite ?Hcnt. set (m := CircularMap.overwrite (tw_map w) next element_default).
  pose proof (wi_wf _ _ _ _ Hi) as Hwf.
  assert (forall c', CircularMap.lookup (CircularMap.set_at m next (mk_element info [] (zlen sdu))) c' =
    if c' =? next then Some (mk_element info [] (zlen sdu)) else if c' =? next - W then None else look w c') as Hls.
  { intros c'. rewrite CircularMap.lookup_set_at.
    assert (CircularMap.contains m next = true) as ->.
    { apply CircularMap.contains_true. unfold m. rewrite CircularMap.lookup_overwrite, Z.eqb_refl by done. eauto. }
    destruct (Z.eqb_spec c' next) as [|Hne]; [done|]. unfold m. rewrite CircularMap.lookup_overwrite by done.
    destruct (Z.eqb_spec c' next) as [|_]; [done|]. rewrite !(tx_slot held w next ack) by done. fold W.
    destruct (look w c') as [el|] eqn:El.
    - pose proof (wi_held _ _ _ _ Hi c') as H. rewrite El in H. destruct H as (sdu' & Hh & _). apply Hi in Hh. fold W in Hh.
      pose proof (same_slot W next c' ltac:(lia) ltac:(lia)) as Hsl.
      by destruct (Z.eqb_spec (c' mod W) (next mod W)) as [Em|Em], (Z.eqb_spec c' (next - W)) as [Hd|Hd]; try tauto.
    - by destruct (_ =? _), (_ =? _). }
  apply HQ; [|simpl; by rewrite Hls, Z.eqb_refl]. constructor; simpl.
  - by apply CircularMap.wf_set_at, CircularMap.wf_overwrite.
  - rewrite CircularMap.capacity_set_at. unfold m. rewrite CircularMap.capacity_overwrite by done. apply Hi.
  - intros c'. rewrite Hls. unfold added. fold W. destruct (Z.eqb_spec c' next) as [->|Hne]; [rewrite lookup_insert_eq; eauto|].
    rewrite lookup_insert_ne by done. destruct (Z.eqb_spec c' (next - W)) as [->|Hne']; [by rewrite lookup_delete_eq|].
    rewrite lookup_delete_ne by done. apply Hi.
  - intros c' sdu' Hc'. unfold added in Hc'. fold W in Hc'. fold W. apply lookup_insert_Some in Hc' as [[<- _]|[Hne Hc']]; [lia|].
    apply lookup_delete_Some in Hc' as [Hd Hc']. apply Hi in Hc'. fold W in Hc'. split; [lia|]. split; [lia|]. apply Hc'.
  - intros Hcfg. destruct (wi_totals _ _ _ _ Hi Hcfg) as [-> ->]. unfold added. fold W. rewrite delete_id by by apply Hev.
    rewrite map_size_insert_None, total_insert by done. unfold u32. rewrite !Zplus_mod_idemp_l. split; f_equal; lia.
  - intros c1 c2 el1 el2 t1 t2 Hlt. simpl. rewrite !Hls. destruct (Z.eqb_spec c1 next) as [->|].
    { destruct (Z.eqb_spec c2 next); [lia|]. destruct (_ =? next - W); [done|]. intros _ H2. exfalso.
      pose proof (wi_held _ _ _ _ Hi c2) as H. rewrite H2 in H. destruct H as (? & Hh & _). apply Hi in Hh. lia. }
    destruct (Z.eqb_spec c1 (next - W)); [done|]. destruct (Z.eqb_spec c2 next) as [->|].
    + intros H1 [= <-] T1 T2. by eapply Htk.
    + destruct (_ =? next - W); [done|]. intros H1 H2 T1 T2. by eapply (wi_ticks _ _ _ _ Hi c1 c2).
Qed.

(** *** Clearing *)

Lemma win_inv_clear held w next ack next' ack' :
  win_inv held w next ack -> win_inv ∅ (PdcpTxWindow.clear w) next' ack'.
Proof.
  intros Hi. constructor; try done. apply Hi.
Qed.
End window.
