(* ===== verification/PdcpTxInv.v ===== *)
(** * PDCP transmitting entity: invariant, release and discard of SDUs

    [tx_inv G held e]: the window holds the SDUs [held], the state variables are in order.  The
    operations here change the state variables, the window and the two timers only; [moved] says so. *)

From S2P Require Import Prelude Effects Window Timers BitEncoding PdcpSn Ciphering Security PdcpBase PdcpTx PdcpTxFacts.
Import PdcpTx.
Open Scope Z_scope.
Open Scope entity_scope.

Definition moved (w : pdcp_tx_window) (s : pdcp_tx_state) (d c : unique_timer) (e : pdcp_entity_tx) : pdcp_entity_tx :=
  set_st s (set_tx_window w (set_discard_timer d (set_crypto_timer c e))).

Lemma moved_id e : e = moved (tx_window e) (st e) (discard_timer e) (crypto_reordering_timer e) e.
Proof. by destruct e. Qed.

Definition with_ack (a : Z) (s : pdcp_tx_state) : pdcp_tx_state :=
  mk_state (tx_next s) (tx_trans_crypto s) (tx_reord_crypto s) (tx_trans s) a.
Definition with_trans (t : Z) (s : pdcp_tx_state) : pdcp_tx_state :=
  mk_state (tx_next s) (tx_trans_crypto s) (tx_reord_crypto s) t (tx_next_ack s).
Definition with_crypto (k : Z) (s : pdcp_tx_state) : pdcp_tx_state :=
  mk_state (tx_next s) k (tx_reord_crypto s) (tx_trans s) (tx_next_ack s).
Definition with_reord (k : Z) (s : pdcp_tx_state) : pdcp_tx_state :=
  mk_state (tx_next s) (tx_trans_crypto s) k (tx_trans s) (tx_next_ack s).

Lemma with_ack_id s : with_ack (tx_next_ack s) s = s.
Proof. by destruct s. Qed.
Lemma with_crypto_id s : with_crypto (tx_trans_crypto s) s = s.
Proof. by destruct s. Qed.

Record st_inv (s : pdcp_tx_state) (running : bool) : Prop := {
  so_ack : 0 <= tx_next_ack s <= tx_next s;
  so_next : tx_next s < 2 ^ 32;
  so_trans : tx_next_ack s <= tx_trans s <= tx_next s;
  so_crypto : 0 <= tx_trans_crypto s <= tx_next s;
  so_reord : 0 <= tx_reord_crypto s;
  so_running : running = true -> tx_trans_crypto s <= tx_reord_crypto s <= tx_next s
}.

Section inv.
Context {A : SecurityAlgorithms}.
Implicit Types (G : list (option SecurityEngine.security_engine_impl)) (held : gmap Z (list Z)) (e : pdcp_entity_tx).

Record tx_inv G held e : Prop := {
  ti_cfg : config_ok (cfg e);
  ti_win : win_inv G (cfg e) held (tx_window e) (tx_next (st e)) (tx_next_ack (st e));
  ti_st : st_inv (st e) (is_running (crypto_reordering_timer e));
  ti_set : is_set (crypto_reordering_timer e) = true;
  ti_span : is_configured (cfg e) = true -> tx_next (st e) - tx_next_ack (st e) <= window_size e
}.

(** The SDUs from a COUNT on; those below it. *)
Definition released held (k : Z) : gmap Z (list Z) := filter (fun kv => k <= fst kv) held.
Definition counts_of held (a b : Z) : list Z := filter (fun c => is_Some (held !! c)) (seqZ a (b - a)).

Lemma released_lookup held k c : released held k !! c = if k <=? c then held !! c else None.
Proof.
  unfold released. rewrite map_lookup_filter. destruct (held !! c) as [s|]; simpl; [|by destruct (_ <=? _)].
  destruct (Z.leb_spec k c); [by rewrite option_guard_True|]. rewrite option_guard_False; [done|simpl; lia].
Qed.

Lemma released_succ held k : delete k (released held k) = released held (k + 1).
Proof.
  apply map_eq. intros c. rewrite released_lookup. destruct (Z.eq_dec k c) as [<-|Hne].
  - rewrite lookup_delete_eq. by destruct (Z.leb_spec (k + 1) k); [lia|].
  - rewrite lookup_delete_ne, released_lookup by done. by destruct (Z.leb_spec k c), (Z.leb_spec (k + 1) c); lia || done.
Qed.

Lemma released_all held k : (forall c, is_Some (held !! c) -> k <= c) -> released held k = held.
Proof.
  intros Hk. apply map_eq. intros c. rewrite released_lookup. destruct (Z.leb_spec k c); [done|].
  destruct (held !! c) eqn:E; [|done]. specialize (Hk c ltac:(eauto)). lia.
Qed.

Lemma counts_of_nil held a : counts_of held a a = [].
Proof. unfold counts_of. by rewrite Z.sub_diag. Qed.

Lemma counts_of_app held a b c : a <= b <= c -> counts_of held a b ++ counts_of held b c = counts_of held a c.
Proof.
  intros. unfold counts_of. rewrite <- filter_app. f_equal. replace (c - a) with ((b - a) + (c - b)) by lia.
  rewrite seqZ_app by lia. f_equal. f_equal. lia.
Qed.

Lemma counts_of_one held a : counts_of held a (a + 1) = if decide (is_Some (held !! a)) then [a] else [].
Proof.
  unfold counts_of. replace (a + 1 - a) with 1 by lia. rewrite seqZ_cons by lia. change (seqZ (Z.succ a) (Z.pred 1)) with (@nil Z).
  rewrite filter_cons. by case_decide.
Qed.

Lemma counts_of_ext held held' a b : (forall c, a <= c < b -> is_Some (held !! c) <-> is_Some (held' !! c)) -> counts_of held a b = counts_of held' a b.
Proof.
  intros Hx. unfold counts_of. assert (forall c, c ∈ seqZ a (b - a) -> is_Some (held !! c) <-> is_Some (held' !! c)) as Hy.
  { intros c Hc%elem_of_seqZ. apply Hx. lia. }
  clear Hx. induction (seqZ a (b - a)) as [|c l IH]; [done|]. rewrite !filter_cons.
  pose proof (Hy c ltac:(left)). rewrite IH by (intros; apply Hy; by right). repeat case_decide; done || tauto.
Qed.

Lemma has_sn_tx G held e c : tx_inv G held e -> 0 <= c < 2 ^ 32 -> has_sn e c = bool_decide (is_Some (held !! c)).
Proof. intros Hi. unfold has_sn. eapply tx_has_sn_held. apply Hi. Qed.

Lemma held_range G held e c sdu : tx_inv G held e -> held !! c = Some sdu -> 0 <= c < tx_next (st e).
Proof. intros Hi Hc. pose proof (ti_win _ _ _ Hi) as Hw. apply Hw in Hc. lia. Qed.

Lemma held_ack G held e c : tx_inv G held e -> is_configured (cfg e) = true -> is_Some (held !! c) -> tx_next_ack (st e) <= c.
Proof. intros Hi Hc [sdu Hh]. pose proof (ti_win _ _ _ Hi) as Hw. apply Hw in Hh as (_ & _ & Hh). auto. Qed.

(** *** Releasing an SDU *)

Lemma wp_remove_sdu G held e c sdu (Q : unit -> pdcp_entity_tx -> list tx_event -> Prop) :
  tx_inv G held e -> held !! c = Some sdu ->
  (forall w, tx_inv G (delete c held) (set_tx_window w e) ->
     (forall c', c' <> c -> CircularMap.lookup (tw_map w) c' = CircularMap.lookup (tw_map (tx_window e)) c') ->
     Q tt (set_tx_window w e) []) ->
  wp (remove_sdu c) Q e.
Proof.
  intros Hi Hc HQ. pose proof (held_range _ _ _ _ _ Hi Hc) as Hr. pose proof (so_next _ _ (ti_st _ _ _ Hi)).
  unfold remove_sdu. do 3 wp_step. eapply wp_window_remove; [apply Hi|lia|exact Hc|]. intros w Hw Hl. wp_step. apply HQ; [|done].
  destruct Hi. by constructor.
Qed.

Lemma tx_inv_ack G held w s d c e a :
  tx_inv G held (moved w s d c e) -> tx_next_ack s <= a <= tx_next s ->
  (forall c', is_Some (held !! c') -> is_configured (cfg e) = true -> a <= c') ->
  tx_inv G held (moved w (with_trans (tx_trans s `max` a) (with_ack a s)) d c e).
Proof.
  intros [? Hw Hs ? Hsp] Ha Hn. constructor; simpl; try done.
  - by eapply win_inv_ack.
  - simpl in Hs. destruct Hs. constructor; simpl; try done; lia.
  - intros Hc. specialize (Hsp Hc). unfold window_size in *. simpl in *. lia.
Qed.

(** *** The loop of [stop_discard_timer] *)

(** The entity in the middle of the loop, with TX_NEXT_ACK at [k]: the SDUs below are released, those above untouched. *)
Definition releasing G held (h : Z) e (k : Z) (e1 : pdcp_entity_tx) : Prop :=
  exists w, e1 = moved w (with_ack k (st e)) (discard_timer e) (crypto_reordering_timer e) e /\
    win_inv G (cfg e) (released held k) w (tx_next (st e)) k /\
    (forall c, h < c -> CircularMap.lookup (tw_map w) c = CircularMap.lookup (tw_map (tx_window e)) c).

Lemma wp_stop_discard_step G held e h k e1 (Q : unit + unit -> pdcp_entity_tx -> list tx_event -> Prop) :
  releasing G held h e k e1 -> 0 <= k < 2 ^ 32 - 1 -> k <= h ->
  (forall e2, releasing G held h e (k + 1) e2 -> Q (inl tt) e2 []) ->
  wp (stop_discard_step h tt) Q e1.
Proof.
  intros (w & -> & Hw & Hl) Hk Hkh HQ. unfold stop_discard_step. do 2 wp_step. simpl tx_next_ack.
  destruct (Z.leb_spec k h) as [_|]; [|lia].
  assert (forall held' w', win_inv G (cfg e) held' w' (tx_next (st e)) k -> held' = released held (k + 1) ->
    (forall c, h < c -> CircularMap.lookup (tw_map w') c = CircularMap.lookup (tw_map (tx_window e)) c) ->
    wp (advance_next_ack ;;; ret (inl tt)) Q (moved w' (with_ack k (st e)) (discard_timer e) (crypto_reordering_timer e) e)) as Hgo.
  { intros held' w' Hw' -> Hl'. unfold advance_next_ack. do 3 wp_step. apply HQ. exists w'. simpl. rewrite u32_small by lia.
    split; [done|]. split; [|done]. eapply win_inv_ack; [|exact Hw']. intros c Hc _. rewrite released_lookup in Hc.
    destruct (Z.leb_spec (k + 1) c); [done|]. by destruct Hc. }
  unfold has_sn. cbn [tx_window moved set_st set_tx_window].
  rewrite (tx_has_sn_held G (cfg e) (released held k) w (tx_next (st e)) k) by (done || lia).
  wp_step. case_bool_decide as Hs; cbn [when].
  - destruct Hs as [sdu Hs]. unfold remove_sdu. do 2 wp_step. wp_step.
    eapply wp_window_remove; [exact Hw|lia|exact Hs|]. intros w' Hw' Hlk. wp_step. cbn [app].
    apply (Hgo _ w' Hw'); [apply released_succ|]. intros c Hc. rewrite Hlk by lia. by apply Hl.
  - wp_step. cbn [app]. apply (Hgo _ w Hw); [|done]. rewrite <- released_succ, delete_id; [done|].
    destruct (released held k !! k) eqn:E; [|done]. exfalso. apply Hs. eauto.
Qed.

Lemma wp_stop_discard_loop G held e h :
  tx_inv G held e -> is_configured (cfg e) = true -> tx_next_ack (st e) <= h < tx_next (st e) ->
  wp (while_loop (ack_fuel e (h + 1)) (stop_discard_step h) tt)
    (fun _ e' es => es = [] /\ releasing G held h e (h + 1) e') e.
Proof.
  intros Hi Hcfg Hh. pose proof (so_next _ _ (ti_st _ _ _ Hi)) as Hn. pose proof (so_ack _ _ (ti_st _ _ _ Hi)) as Ha.
  apply (wp_while_loop (fun n _ e1 es => es = [] /\ exists k, releasing G held h e k e1 /\
    tx_next_ack (st e) <= k <= h + 1 /\ n = Datatypes.S (Z.to_nat (h + 1 - k)))).
  - split; [done|]. exists (tx_next_ack (st e)). split; [|split; [lia|done]]. exists (tx_window e). rewrite with_ack_id.
    split; [apply moved_id|]. split; [|done]. rewrite released_all; [apply Hi|]. intros c Hc. by eapply held_ack.
  - intros ? e1 es (_ & k & _ & _ & ?). done.
  - intros n [] e1 es (-> & k & Hr & Hk & Hfuel). destruct (Z.le_gt_cases k h).
    + eapply wp_stop_discard_step; [exact Hr|lia|done|]. intros e2 Hr2. split; [done|]. exists (k + 1). split; [done|]. lia.
    + assert (k = h + 1) as -> by lia. unfold stop_discard_step. do 2 wp_step. pose proof Hr as (w & -> & _). simpl tx_next_ack.
      destruct (Z.leb_spec (h + 1) h); [lia|]. wp_step. done.
Qed.

(** TX_NEXT_ACK moves to [k], and [held'] remains in the window. *)
Definition shrunk G (held' : gmap Z (list Z)) e (k : Z) (d : unique_timer) (e' : pdcp_entity_tx) : Prop :=
  tx_inv G held' e' /\ exists w,
    e' = moved w (with_trans (tx_trans (st e) `max` k) (with_ack k (st e))) d (crypto_reordering_timer e) e /\
    (forall c, is_Some (held' !! c) -> CircularMap.lookup (tw_map w) c = CircularMap.lookup (tw_map (tx_window e)) c).

(** With a finite discard timer the timer runs for the oldest SDU, which is at TX_NEXT_ACK. *)
Definition armed held e : Prop :=
  (is_running (discard_timer e) = true -> is_finite (discard_timer_cfg (cfg e)) = true) /\
  (stopped e = false -> is_finite (discard_timer_cfg (cfg e)) = true -> tx_next_ack (st e) < tx_next (st e) ->
   is_Some (held !! tx_next_ack (st e)) /\ is_running (discard_timer e) = true).

(** The new duration of the discard timer when the SDU at [k] becomes the oldest. *)
Definition restart_ok (now : Z) e (k : Z) : Prop :=
  is_finite (discard_timer_cfg (cfg e)) = true -> k < tx_next (st e) ->
  match tick_point_of_arrival ∘ sdu_info <$> CircularMap.lookup (tw_map (tx_window e)) k, discard_timer_cfg (cfg e) with
  | Some (Some tick), Some d => u32 (tick + u32 d - now) <= MAX_TIMER_DURATION
  | _, _ => False
  end.

Lemma wp_start_discard_timer e d (Q : unit -> pdcp_entity_tx -> list tx_event -> Prop) :
  d <= MAX_TIMER_DURATION ->
  (forall t, is_running t = true -> Q tt (set_discard_timer t e) []) -> wp (start_discard_timer d) Q e.
Proof.
  intros Hd HQ. unfold start_discard_timer. do 3 wp_step. unfold timer_set. destruct (Z.ltb_spec MAX_TIMER_DURATION d); [lia|].
  do 2 wp_step. unfold timer_run. destruct (is_running (discard_timer e)); simpl; do 2 wp_step; by apply HQ.
Qed.

Lemma wp_arrival_tick e c el t (Q : Z -> pdcp_entity_tx -> list tx_event -> Prop) :
  0 <= c < 2 ^ 32 -> CircularMap.lookup (tw_map (tx_window e)) c = Some el -> tick_point_of_arrival (sdu_info el) = Some t ->
  Q t e [] -> wp (arrival_tick c) Q e.
Proof.
  intros Hc Hl Ht HQ. unfold arrival_tick, PdcpTxWindow.index, SduWindow.index. do 3 wp_step. rewrite u32_small by done.
  eapply CircularMap.wp_at; [exact Hl|]. rewrite Ht. simpl. by apply wp_ret.
Qed.

(** A COUNT in the window whose oldest SDU is there. *)
Definition in_window e (h : Z) : bool :=
  is_configured (cfg e) && negb ((h <? tx_next_ack (st e)) || (tx_next (st e) <=? h)) && has_sn e (tx_next_ack (st e)).

Lemma wp_stop_discard_timer G held e now h :
  tx_inv G held e -> (in_window e h = true -> restart_ok now e (h + 1)) ->
  wp (stop_discard_timer now h)
    (fun _ e' es => es = [] /\
       if in_window e h then (exists d, shrunk G (released held (h + 1)) e (h + 1) d e') /\ armed (released held (h + 1)) e' else e' = e) e.
Proof.
  intros Hi Hre. unfold stop_discard_timer. do 2 wp_step. unfold in_window, is_configured in *.
  destruct (discard_timer_cfg (cfg e)) as [dur|] eqn:Hd; cbn [andb] in *; [|by wp_step].
  destruct (_ || _) eqn:Hout; cbn [andb negb] in *; [by wp_step|].
  destruct (has_sn e _); cbn [negb] in *; [|by wp_step]. specialize (Hre eq_refl). bool_prop.
  pose proof (so_next _ _ (ti_st _ _ _ Hi)) as Hn. pose proof (so_ack _ _ (ti_st _ _ _ Hi)) as Ha.
  assert (is_configured (cfg e) = true) as Hcfg by (unfold is_configured; by rewrite Hd).
  do 2 wp_step. set (e0 := set_discard_timer _ e).
  assert (tx_inv G held e0) as Hi0 by (destruct Hi; by constructor).
  wp_step. change (ack_fuel e (h + 1)) with (ack_fuel e0 (h + 1)).
  eapply wp_mono; [apply (wp_stop_discard_loop G held e0 h Hi0 Hcfg); simpl; lia|].
  cbv beta. intros _ e1 es (-> & w & -> & Hw & Hl). unfold update_tx_trans. do 2 wp_step.
  set (held' := released held (h + 1)) in *.
  match goal with |- wp _ _ ?e => set (e1 := e) end.
  assert (forall d, tx_inv G held' (set_discard_timer d e1)) as Hi1.
  { intros d. pose proof (ti_st _ _ _ Hi). destruct Hi as [? _ [] ? Hsp]. constructor; try done.
    - constructor; simpl; lia || done.
    - intros Hc. specialize (Hsp Hc). unfold window_size in *. simpl in *. lia. }
  assert (forall d, exists d0, shrunk G held' e (h + 1) d0 (set_discard_timer d e1)) as Hsh.
  { intros d. exists d. split; [apply Hi1|]. exists w. split; [done|]. intros c Hc. apply Hl.
    unfold held' in Hc. rewrite released_lookup in Hc. destruct (Z.leb_spec (h + 1) c); [lia|]. by destruct Hc. }
  destruct (Z.eqb_spec dur discard_timer_infinity) as [Hinf|Hfin].
  { wp_step. split; [done|]. split; [apply (Hsh (discard_timer e1))|]. split; simpl.
    - by rewrite is_running_stop.
    - intros _. rewrite Hd. unfold is_finite. by rewrite Hinf, Z.eqb_refl. }
  do 2 wp_step. simpl tx_next_ack. simpl tx_next. wp_step.
  - bool_prop. wp_step. unfold restart_ok in Hre. rewrite Hd in Hre. simpl in Hre.
    assert (is_finite (Some dur) = true) as Hfin' by (apply negb_true_iff; by destruct (Z.eqb_spec dur discard_timer_infinity)).
    specialize (Hre Hfin' ltac:(lia)).
    destruct (CircularMap.lookup (tw_map (tx_window e)) (h + 1)) as [el|] eqn:El; [|done]. simpl in Hre.
    destruct (tick_point_of_arrival (sdu_info el)) as [t|] eqn:Et; [|done].
    eapply wp_arrival_tick; [lia| |exact Et|]; [simpl; rewrite Hl by lia; exact El|].
    apply wp_start_discard_timer; [exact Hre|]. intros d Hrun. cbn [app]. split; [done|]. split; [apply Hsh|].
    split; [by rewrite <- Hd in Hfin'|]. intros _ _ _. split; [|done]. simpl. pose proof (wi_held _ _ _ _ _ _ Hw (h + 1)) as Hh. simpl in Hl. rewrite Hl, El in Hh by lia.
    destruct Hh as (? & -> & _). eauto.
  - bool_prop. split; [done|]. split; [apply (Hsh (discard_timer e1))|]. split; simpl; [by rewrite is_running_stop|lia].
Qed.

(** *** Discarding one SDU *)

(** The first SDU at or after [a], or [b] when there is none below it. *)
Definition next_held held (a b k : Z) : Prop :=
  a <= k <= b /\ (forall c, a <= c < k -> held !! c = None) /\ (k < b -> is_Some (held !! k)).

Lemma wp_skip_missing G held e :
  tx_inv G held e -> is_configured (cfg e) = true ->
  wp (while_loop (ack_fuel e (tx_next (st e))) skip_missing_step tt)
    (fun _ e' es => es = [] /\ exists k, next_held held (tx_next_ack (st e)) (tx_next (st e)) k /\ e' = set_tx_next_ack k e) e.
Proof.
  intros Hi Hcfg. pose proof (so_next _ _ (ti_st _ _ _ Hi)) as Hn. pose proof (so_ack _ _ (ti_st _ _ _ Hi)) as Ha.
  apply (wp_while_loop (fun n _ e1 es => es = [] /\ exists k, tx_next_ack (st e) <= k <= tx_next (st e) /\
    (forall c, tx_next_ack (st e) <= c < k -> held !! c = None) /\ e1 = set_tx_next_ack k e /\
    n = Datatypes.S (Z.to_nat (tx_next (st e) - k)))).
  - split; [done|]. exists (tx_next_ack (st e)). split; [lia|]. split; [lia|]. split; [by destruct e as [? ? ? ? ? ? []]|done].
  - intros ? e1 es (_ & k & _ & _ & _ & ?). done.
  - intros n [] e1 es (-> & k & Hk & Hno & -> & Hfuel). unfold skip_missing_step. do 2 wp_step. simpl tx_next_ack. simpl tx_next.
    unfold has_sn. cbn [tx_window set_tx_next_ack set_st].
    rewrite (tx_has_sn_held G (cfg e) held _ (tx_next (st e)) (tx_next_ack (st e)) k (ti_win _ _ _ Hi)) by lia.
    case_bool_decide as Hs.
    + rewrite andb_false_r. wp_step. split; [done|]. exists k. split; [|done]. by split; [lia|].
    + destruct (Z.ltb_spec k (tx_next (st e))); cbn [andb negb].
      * unfold advance_next_ack. do 3 wp_step. split; [done|]. exists (k + 1). simpl. rewrite u32_small by lia.
        split; [lia|]. split; [|split; [done|lia]]. intros c Hc. destruct (Z.eq_dec c k) as [->|]; [|apply Hno; lia].
        destruct (held !! k) eqn:E; [|done]. exfalso. apply Hs. eauto.
      * wp_step. split; [done|]. exists k. split; [|done]. split; [lia|]. split; [done|lia].
Qed.

Definition may_discard held e (c : Z) : bool :=
  is_configured (cfg e) && negb ((c <? tx_next_ack (st e)) || (tx_next (st e) <=? c)) && bool_decide (is_Some (held !! c)).

Lemma wp_discard_pdu G held e c :
  tx_inv G held e -> 0 <= c ->
  wp (discard_pdu c)
    (fun _ e' es =>
       if may_discard held e c then es = [on_discard_pdu (SN e c)] /\
         exists k, next_held (delete c held) (tx_next_ack (st e)) (tx_next (st e)) k /\
           shrunk G (delete c held) e k (discard_timer e) e'
       else es = [] /\ e' = e) e.
Proof.
  intros Hi Hc. unfold discard_pdu. do 2 wp_step. unfold may_discard, is_configured.
  destruct (discard_timer_cfg (cfg e)) as [dur|] eqn:Hd; cbn [andb]; [|by wp_step].
  destruct (_ || _) eqn:Hout; cbn [andb negb]; [by wp_step|]. bool_prop.
  pose proof (so_next _ _ (ti_st _ _ _ Hi)) as Hn. pose proof (so_ack _ _ (ti_st _ _ _ Hi)) as Ha.
  rewrite (has_sn_tx G held) by (done || lia). case_bool_decide as Hs; cbn [negb]; [|by wp_step]. destruct Hs as [sdu Hs].
  assert (is_configured (cfg e) = true) as Hcfg by (unfold is_configured; by rewrite Hd).
  do 3 wp_step. eapply wp_remove_sdu; [done|exact Hs|]. intros w Hi1 Hl. wp_step.
  set (e1 := set_tx_window w e) in *. change (ack_fuel e (tx_next (st e))) with (ack_fuel e1 (tx_next (st e1))).
  eapply wp_mono; [by apply (wp_skip_missing G (delete c held))|]. cbv beta. intros _ e2 es (-> & k & Hk & ->).
  unfold update_tx_trans. wp_step. split; [done|]. exists k. split; [done|]. simpl in Hk. destruct Hk as (Hk & Hno & _).
  split.
  - pose proof (ti_st _ _ _ Hi) as []. destruct Hi1 as [? Hw _ ? Hsp]. constructor; try done.
    + eapply win_inv_ack; [|exact Hw]. simpl. intros c' Hc' _. destruct (Z.le_gt_cases k c'); [done|].
      destruct Hc' as [sdu' Hc']. pose proof (wi_keys _ _ _ _ _ _ Hw _ _ Hc') as (_ & _ & Hlo). simpl in Hlo.
      specialize (Hlo Hcfg). rewrite Hno in Hc' by lia. done.
    + constructor; simpl; try done; lia.
    + specialize (Hsp Hcfg). unfold window_size in *. simpl in *. lia.
  - exists w. split; [done|]. intros c' Hc'. apply Hl. intros ->. rewrite lookup_delete_eq in Hc'. by destruct Hc'.
Qed.

(** *** Discarding several SDUs *)

Lemma shrunk_trans G h1 h2 e k1 k2 d1 d2 e1 e2 :
  k1 <= k2 -> (forall c, is_Some (h2 !! c) -> is_Some (h1 !! c)) ->
  shrunk G h1 e k1 d1 e1 -> shrunk G h2 e1 k2 d2 e2 -> shrunk G h2 e k2 d2 e2.
Proof.
  intros Hk Hsub (_ & w1 & -> & Hl1) (Hi2 & w2 & -> & Hl2). split; [done|]. exists w2. split.
  - unfold moved, with_trans, with_ack, set_st. simpl. by rewrite <- Z.max_assoc, (Z.max_r k1 k2) by done.
  - intros c Hc. rewrite Hl2 by done. by apply Hl1, Hsub.
Qed.

Lemma shrunk_refl G held e : tx_inv G held e -> shrunk G held e (tx_next_ack (st e)) (discard_timer e) e.
Proof.
  intros Hi. split; [done|]. exists (tx_window e). split; [|done]. pose proof (so_trans _ _ (ti_st _ _ _ Hi)).
  unfold moved, with_trans, with_ack. rewrite Z.max_l by lia. by destruct e as [? ? ? ? ? ? []].
Qed.

Lemma shrunk_armed G held held' e k e' :
  shrunk G held' e k (discard_timer e) e' -> (k < tx_next (st e) -> is_Some (held' !! k)) ->
  tx_next_ack (st e) <= k -> armed held e -> armed held' e'.
Proof.
  intros (_ & w & -> & _) Hk Hle [Hr Ha]. split; [done|]. intros Hst Hf Hlt. simpl in Hst, Hf, Hlt. destruct (Ha Hst Hf ltac:(lia)) as [_ Hrun]. split; [by apply Hk|done].
Qed.

(** The tick of the SDU held at a COUNT. *)
Definition tick_at e (c : Z) : option Z :=
  el ← CircularMap.lookup (tw_map (tx_window e)) c; tick_point_of_arrival (sdu_info el).

Lemma tick_at_held G held e c :
  tx_inv G held e -> is_finite (discard_timer_cfg (cfg e)) = true -> is_Some (held !! c) ->
  exists el t, CircularMap.lookup (tw_map (tx_window e)) c = Some el /\ tick_point_of_arrival (sdu_info el) = Some t /\ tick_at e c = Some t.
Proof.
  intros Hi Hf [sdu Hh]. destruct (held_look _ _ _ _ _ _ _ _ (ti_win _ _ _ Hi) Hh) as (el & Hl & Ho).
  destruct (eo_tick _ _ _ _ _ Ho Hf) as (t & Ht & _). exists el, t. unfold tick_at. rewrite Hl. done.
Qed.

Lemma next_held_released held a b k : next_held (released held a) a b k -> released held k = released held a.
Proof.
  intros (Hk & Hno & _). apply map_eq. intros c. rewrite !released_lookup.
  destruct (Z.leb_spec k c), (Z.leb_spec a c); try done || lia. specialize (Hno c ltac:(lia)). rewrite released_lookup in Hno.
  by destruct (Z.leb_spec a c); [|lia].
Qed.

Lemma counts_of_gap held a b : a <= b -> (forall c, a <= c < b -> held !! c = None) -> counts_of held a b = [].
Proof.
  intros Hab Hno. rewrite (counts_of_ext held ∅); [|intros c Hc; rewrite (Hno c), lookup_empty by done; done].
  unfold counts_of. induction (seqZ a (b - a)) as [|c l IH]; [done|]. rewrite filter_cons. case_decide as H; [|done].
  rewrite lookup_empty in H. by destruct H.
Qed.

(** What an expiry of the discard timer does: the SDUs from TX_NEXT_ACK to [k] go; they came at the same tick. *)
Definition expired_to G held e (k : Z) (e' : pdcp_entity_tx) (es : list tx_event) : Prop :=
  (exists d, shrunk G (released held k) e k d e') /\ armed (released held k) e' /\
  es = map (fun c => on_discard_pdu (SN e c)) (counts_of held (tx_next_ack (st e)) k) /\
  tx_next_ack (st e) < k <= tx_next (st e) /\
  (forall c, tx_next_ack (st e) <= c < k -> is_Some (held !! c) -> tick_at e c = tick_at e (tx_next_ack (st e))) /\
  (k < tx_next (st e) -> is_Some (held !! k) /\ tick_at e k <> tick_at e (tx_next_ack (st e))).
End inv.
