(* ===== verification/PdcpTxDiscard.v ===== *)
(** * PDCP transmitting entity: discard timer, notifications and status reports

    The operations that release SDUs from the lower end of the window: each says exactly which. *)

From S2P Require Import Prelude Effects Window Timers BitEncoding PdcpSn Ciphering Security PdcpBase PdcpTx PdcpTxFacts PdcpTxInv.
Import PdcpTx.
Open Scope Z_scope.
Open Scope entity_scope.

Section discard.
Context {A : SecurityAlgorithms}.
Implicit Types (G : list (option SecurityEngine.security_engine_impl)) (held : gmap Z (list Z)) (e : pdcp_entity_tx).

(** ** Expiry of the discard timer *)

(** The loop, when the SDUs before [k] are gone. *)
Definition expiring G held e (k : Z) (e1 : pdcp_entity_tx) (es : list tx_event) : Prop :=
  shrunk G (released held k) e k (discard_timer e) e1 /\
  es = map (fun c => on_discard_pdu (SN e c)) (counts_of held (tx_next_ack (st e)) k) /\
  tx_next_ack (st e) <= k < tx_next (st e) /\ is_Some (held !! k) /\
  (forall c, tx_next_ack (st e) <= c <= k -> is_Some (held !! c) -> tick_at e c = tick_at e (tx_next_ack (st e))).

Lemma expiring_next G held e k e1 es : expiring G held e k e1 es ->
  tx_inv G held e -> is_configured (cfg e) = true ->
  wp (discard_pdu k) (fun _ e2 es2 => exists k', next_held (released held (k + 1)) (k + 1) (tx_next (st e)) k' /\
    shrunk G (released held k') e k' (discard_timer e) e2 /\
    es ++ es2 = map (fun c => on_discard_pdu (SN e c)) (counts_of held (tx_next_ack (st e)) k')) e1.
Proof.
  intros (Hsh & -> & Hk & Hh & _) Hi Hcfg. pose proof (so_next _ _ (ti_st _ _ _ Hi)). pose proof (so_ack _ _ (ti_st _ _ _ Hi)).
  pose proof Hsh as (Hi1 & w & He1 & Hl).
  eapply wp_mono; [apply (wp_discard_pdu G (released held k) e1 k Hi1); lia|]. cbv beta. intros _ e2 es2 Hd.
  assert (released held k !! k = held !! k) as Ek by (rewrite released_lookup; by destruct (Z.leb_spec k k); [|lia]).
  unfold may_discard in Hd. rewrite Ek, (bool_decide_true (is_Some (held !! k)) Hh), andb_true_r in Hd.
  assert (cfg e1 = cfg e /\ tx_next_ack (st e1) = k /\ tx_next (st e1) = tx_next (st e) /\ discard_timer e1 = discard_timer e)
    as (Ec & Ea & En & Edt) by by rewrite He1.
  rewrite Ec, Ea, En, Hcfg in Hd. destruct (Z.ltb_spec k k); [lia|]. destruct (Z.leb_spec (tx_next (st e)) k); [lia|].
  destruct Hd as (-> & k' & Hn & Hsh2). rewrite released_succ, Edt in *.
  assert (k + 1 <= k' /\ next_held (released held (k + 1)) (k + 1) (tx_next (st e)) k') as [Hlt Hn'].
  { destruct Hn as (Hr & Hno & Hs). assert (k' <> k).
    { intros ->. destruct Hs as [? Hs]; [lia|]. rewrite released_lookup in Hs. by destruct (Z.leb_spec (k + 1) k); [lia|]. }
    split; [lia|]. split; [lia|]. split; [|done]. intros c Hc. apply Hno. lia. }
  exists k'. split; [done|]. pose proof (next_held_released _ _ _ _ Hn') as Erel. rewrite <- Erel in Hsh2. split.
  - eapply shrunk_trans; [| |exact Hsh|exact Hsh2]; [lia|]. intros c [sdu Hc]. rewrite released_lookup in Hc. rewrite released_lookup.
    destruct (Z.leb_spec k' c); [|done]. destruct (Z.leb_spec k c); [by eauto|lia].
  - destruct Hn' as (_ & Hno & _).
    rewrite <- (counts_of_app held _ k k'), <- (counts_of_app held k (k + 1) k') by lia.
    rewrite counts_of_one, decide_True, (counts_of_gap held (k + 1) k'), !map_app; [|lia| |done].
    + simpl. unfold SN. by rewrite Ec.
    + intros c Hc. specialize (Hno c Hc). rewrite released_lookup in Hno. by destruct (Z.leb_spec (k + 1) c); [|lia].
Qed.

(** Later SDUs arrived later. *)
Lemma ticks_in_order G held e c c' t t' :
  tx_inv G held e -> c < c' -> tick_at e c = Some t -> tick_at e c' = Some t' -> u32 (t' - t) <= MAX_TIMER_DURATION.
Proof.
  unfold tick_at. intros Hi Hlt H1 H2. apply bind_Some in H1 as (el & Hl & Ht), H2 as (el' & Hl' & Ht').
  eapply (wi_ticks _ _ _ _ _ _ (ti_win _ _ _ Hi)); eassumption.
Qed.

(** Whether the loop goes on, with the next SDU at [k']. *)
Lemma wp_discard_callback_step G held e k e1 es t :
  tx_inv G held e -> is_finite (discard_timer_cfg (cfg e)) = true -> tick_at e (tx_next_ack (st e)) = Some t ->
  expiring G held e k e1 es ->
  wp (discard_callback_step t tt) (fun r e2 es2 => match r with
    | inl _ => exists k', k < k' /\ expiring G held e k' e2 (es ++ es2)
    | inr _ => exists k', expired_to G held e k' e2 (es ++ es2)
    end) e1.
Proof.
  intros Hi Hfin Ht Hx. pose proof (so_next _ _ (ti_st _ _ _ Hi)). pose proof (so_ack _ _ (ti_st _ _ _ Hi)).
  assert (is_configured (cfg e) = true) as Hcfg by (unfold is_configured, is_finite in *; by destruct (discard_timer_cfg _)).
  unfold discard_callback_step. do 3 wp_step.
  pose proof Hx as ((_ & w1 & He1 & _) & _ & Hk & Hheld & Hticks).
  assert (tx_next_ack (st e1) = k) as -> by by rewrite He1.
  eapply wp_mono; [by apply (expiring_next G held e k e1 es Hx)|]. cbv beta.
  intros _ e2 es2 (k' & Hn & Hsh & Hes). pose proof Hsh as (Hi2 & w2 & He2 & Hl2). pose proof Hn as (Hk' & Hno & Hs').
  assert (tx_next_ack (st e2) = k' /\ tx_next (st e2) = tx_next (st e)) as [Ea En] by by rewrite He2.
  do 2 wp_step. rewrite Ea, En, (has_sn_tx _ _ _ _ Hi2) by lia.
  assert (is_Some (released held k' !! k') <-> is_Some (held !! k')) as Hiff
    by (rewrite released_lookup; by destruct (Z.leb_spec k' k'); [|lia]).
  assert (forall c, tx_next_ack (st e) <= c < k' -> is_Some (held !! c) -> tick_at e c = tick_at e (tx_next_ack (st e))) as Hsame.
  { intros c Hc Hcs. apply Hticks; [|done]. destruct (Z.le_gt_cases (k + 1) c) as [Hc'|]; [|lia]. exfalso.
    specialize (Hno c ltac:(lia)). rewrite released_lookup in Hno. destruct (Z.leb_spec (k + 1) c); [|lia]. rewrite Hno in Hcs. by destruct Hcs. }
  case_bool_decide as Hdec; cbn [negb].
  2:{ wp_step. assert (k' = tx_next (st e)) as ->.
    { destruct (Z.lt_ge_cases k' (tx_next (st e))) as [Hlt|]; [|lia]. exfalso. apply Hdec, Hiff.
      specialize (Hs' Hlt). rewrite released_lookup in Hs'. by destruct (Z.leb_spec (k + 1) k'); [|lia]. }
    rewrite app_nil_r, Hes. exists (tx_next (st e)). split; [by eexists|]. split; [split; [by rewrite He2|intros _ _; rewrite Ea, En; lia]|].
    split; [done|]. split; [lia|]. split; [done|lia]. }
  pose proof Hdec as [sdu Hsdu]. pose proof (held_range _ _ _ _ _ Hi2 Hsdu) as Hr. rewrite En in Hr. apply Hiff in Hdec as Hheld'.
  destruct (tick_at_held G held e k' Hi Hfin Hheld') as (el & t' & Hel & Htel & Hta).
  wp_step. eapply wp_arrival_tick; [lia| |exact Htel|].
  { rewrite He2. simpl. rewrite Hl2; [exact Hel|by eauto]. }
  destruct (Z.eqb_spec t' t) as [->|Hne]; cbn [negb].
  - destruct (Z.eqb_spec k' (tx_next (st e))); [lia|]. cbn [negb]. wp_step. exists k'. split; [lia|]. rewrite !app_nil_r.
    split; [done|]. split; [done|]. split; [lia|]. split; [done|]. intros c Hc Hcs. destruct (Z.eq_dec c k') as [->|]; [congruence|].
    apply Hsame; [lia|done].
  - wp_step. apply wp_start_discard_timer.
    { eapply (ticks_in_order G held e (tx_next_ack (st e)) k'); [done|lia|done|done]. }
    intros d Hrun. wp_step. exists k'. rewrite !app_nil_r. split; [exists d|].
    + destruct Hsh as [Hi' _]. split; [destruct Hi'; by constructor|]. exists w2. split; [by rewrite He2|done].
    + split; [split; simpl; [by rewrite He2|intros _ _ _; by rewrite Ea]|]. split; [done|]. split; [lia|]. split; [done|]. intros _. split; [done|]. congruence.
Qed.

(** The SDUs that came at the tick of the oldest one are discarded, and the timer runs for the oldest one left. *)
Lemma wp_discard_callback G held e :
  tx_inv G held e -> is_finite (discard_timer_cfg (cfg e)) = true -> stopped e = false -> is_Some (held !! tx_next_ack (st e)) ->
  wp discard_callback (fun _ e' es => exists k es', es = metrics_add_discard_timouts 1 :: es' /\ expired_to G held e k e' es') e.
Proof.
  intros Hi Hfin Hst Hh. pose proof (so_next _ _ (ti_st _ _ _ Hi)). pose proof (so_ack _ _ (ti_st _ _ _ Hi)).
  pose proof Hh as [sdu Hsdu]. pose proof (held_range _ _ _ _ _ Hi Hsdu) as Hr.
  unfold discard_callback. do 2 wp_step. rewrite Hst. do 2 wp_step. rewrite (has_sn_tx _ _ _ _ Hi), bool_decide_true by done || lia.
  cbn [negb]. destruct (tick_at_held _ _ _ _ Hi Hfin Hh) as (el & t & Hel & Ht & Hta).
  wp_step. eapply wp_arrival_tick; [lia|exact Hel|exact Ht|]. cbn [app].
  apply (wp_mono _ (fun _ e' es => exists k, expired_to G held e k e' es)); [|intros _ e' es (k & ?); cbn [app]; eauto].
  apply (wp_while_loop (fun n _ e1 es => exists k, expiring G held e k e1 es /\ (Z.to_nat (tx_next (st e) - k) < n)%nat)).
  - exists (tx_next_ack (st e)). split; [|unfold ack_fuel; lia]. split; [|split; [by rewrite counts_of_nil|split; [lia|split; [done|]]]].
    + rewrite released_all; [by apply shrunk_refl|]. intros c Hc. eapply held_ack; [done| |done].
      unfold is_configured, is_finite in *. by destruct (discard_timer_cfg _).
    + intros c Hc _. by assert (c = tx_next_ack (st e)) as -> by lia.
  - intros ? e1 es (k & _ & ?). lia.
  - intros n [] e1 es (k & Hx & Hn). eapply wp_mono; [by apply (wp_discard_callback_step G held e k e1 es t)|].
    cbv beta. intros [[]|[]] e2 es2 H'; [|exact H']. destruct H' as (k' & Hlt & Hx'). exists k'. split; [done|]. destruct Hx' as (_ & _ & ? & _). lia.
Qed.

(** ** Status reports *)

(** The SDUs left when those of some COUNTs are discarded, and the COUNTs discarded in turn. *)
Definition without held (cs : list Z) : gmap Z (list Z) := filter (fun kv => fst kv ∉ cs) held.
Fixpoint gone held (cs : list Z) : list Z :=
  match cs with
  | [] => []
  | c :: cs' => if decide (is_Some (held !! c)) then c :: gone (delete c held) cs' else gone held cs'
  end.

Lemma without_lookup held cs c : without held cs !! c = if decide (c ∈ cs) then None else held !! c.
Proof.
  unfold without. rewrite map_lookup_filter. destruct (held !! c) as [s|]; simpl; [|by case_decide].
  case_decide; [by rewrite option_guard_False by (simpl; tauto)|by rewrite option_guard_True].
Qed.

Lemma without_nil held : without held [] = held.
Proof. apply map_eq. intros c. rewrite without_lookup. case_decide as H; [|done]. by apply elem_of_nil in H. Qed.

Lemma without_app held l k : without (without held l) k = without held (l ++ k).
Proof.
  apply map_eq. intros c. rewrite !without_lookup. repeat case_decide; try done; rewrite elem_of_app in *; tauto.
Qed.

Lemma without_cons held c l : without held (c :: l) = without (delete c held) l.
Proof.
  apply map_eq. intros x. rewrite !without_lookup. destruct (Z.eq_dec c x) as [<-|Hne].
  - rewrite lookup_delete_eq. rewrite decide_True by left. by case_decide.
  - rewrite lookup_delete_ne by done. repeat case_decide; try done; rewrite elem_of_cons in *; naive_solver.
Qed.

Lemma gone_ext cs : forall h h', (forall c, c ∈ cs -> is_Some (h !! c) <-> is_Some (h' !! c)) -> gone h cs = gone h' cs.
Proof.
  induction cs as [|c cs IH]; [done|]. intros h h' Hx. simpl. pose proof (Hx c ltac:(left)) as Hc.
  repeat case_decide; try tauto.
  - f_equal. apply IH. intros x Hin. destruct (Z.eq_dec c x) as [<-|]; [by rewrite !lookup_delete_eq|].
    rewrite !lookup_delete_ne by done. apply Hx. by right.
  - apply IH. intros x Hin. apply Hx. by right.
Qed.

Lemma gone_app l k : forall held, gone held (l ++ k) = gone held l ++ gone (without held l) k.
Proof.
  induction l as [|c l IH]; intros held; [by rewrite without_nil|]. simpl. rewrite without_cons. case_decide as Hc.
  - by rewrite IH.
  - rewrite IH. f_equal. f_equal. by rewrite delete_id by (apply eq_None_not_Some; done).
Qed.

(** The COUNTs a bearer acts on; without discard timer there are none. *)
Definition effective e (cs : list Z) : list Z := if is_configured (cfg e) then cs else [].

Definition discards_all G held (cs : list Z) e (e' : pdcp_entity_tx) (es : list tx_event) : Prop :=
  es = map (fun c => on_discard_pdu (SN e c)) (gone held cs) /\
  exists k, shrunk G (without held cs) e k (discard_timer e) e' /\ tx_next_ack (st e) <= k /\
    (gone held cs = [] /\ k = tx_next_ack (st e) \/ next_held (without held cs) (tx_next_ack (st e)) (tx_next (st e)) k).

Lemma discards_nothing G held e : tx_inv G held e -> discards_all G held [] e e [].
Proof.
  intros Hi. split; [done|]. exists (tx_next_ack (st e)). rewrite without_nil. split; [by apply shrunk_refl|]. split; [lia|auto].
Qed.

Lemma gone_nil_without held cs : gone held cs = [] -> without held cs = held.
Proof.
  revert held. induction cs as [|c cs IH]; intros held; [intros; apply without_nil|]. simpl. case_decide as Hc; [done|]. intros Hg.
  rewrite without_cons, delete_id by by apply eq_None_not_Some. by apply IH.
Qed.

Lemma discards_all_app G held l1 l2 e e1 e2 es1 es2 :
  discards_all G held l1 e e1 es1 -> discards_all G (without held l1) l2 e1 e2 es2 ->
  discards_all G held (l1 ++ l2) e e2 (es1 ++ es2).
Proof.
  intros (-> & k1 & Hsh1 & Hk1 & Hc1) (-> & k2 & Hsh2 & Hk2 & Hc2).
  pose proof Hsh1 as (_ & w & He1 & _).
  assert (tx_next_ack (st e1) = k1 /\ tx_next (st e1) = tx_next (st e) /\ cfg e1 = cfg e /\ discard_timer e1 = discard_timer e)
    as (Ea & En & Ec & Ed) by by rewrite He1.
  rewrite Ea, En, Ed in *. rewrite without_app in *. split.
  - rewrite gone_app, map_app. f_equal. apply map_ext. intros c. unfold SN. by rewrite Ec.
  - exists k2. split; [|split; [lia|]].
    + eapply shrunk_trans; [exact Hk2| |exact Hsh1|exact Hsh2]. intros c Hc. rewrite without_lookup in *.
      destruct (decide (c ∈ l1 ++ l2)) as [|Hn]; [by destruct Hc|]. rewrite elem_of_app in Hn. by rewrite decide_False by tauto.
    + rewrite gone_app. destruct Hc2 as [[Hg2 ->]|(H1 & H2 & H3)].
      * rewrite Hg2, app_nil_r. apply gone_nil_without in Hg2. rewrite without_app in Hg2. rewrite Hg2. exact Hc1.
      * right. split; [lia|]. split; [|done]. intros c Hc. destruct (Z.le_gt_cases k1 c); [apply H2; lia|].
        destruct Hc1 as [[_ ->]|(_ & Hno & _)]; [lia|]. specialize (Hno c ltac:(lia)). rewrite <- without_app, without_lookup.
        by case_decide.
Qed.

Lemma wp_discard_one G held e c :
  tx_inv G held e -> 0 <= c -> wp (discard_pdu c) (fun _ e' es => discards_all G held (effective e [c]) e e' es) e.
Proof.
  intros Hi Hc. eapply wp_mono; [by apply (wp_discard_pdu G held)|]. cbv beta. intros _ e' es Hd. unfold may_discard, effective in *.
  destruct (is_configured (cfg e)) eqn:Hcfg; [|destruct Hd as [-> ->]; by apply discards_nothing]. cbn [andb] in Hd.
  destruct (held !! c) as [sdu|] eqn:Eh.
  - pose proof (held_range _ _ _ _ _ Hi Eh) as Hr. pose proof (held_ack _ _ _ c Hi Hcfg ltac:(eauto)) as Ha.
    destruct (Z.ltb_spec c (tx_next_ack (st e))); [lia|]. destruct (Z.leb_spec (tx_next (st e)) c); [lia|].
    rewrite bool_decide_true in Hd by eauto. destruct Hd as (-> & k & Hn & Hsh).
    assert (without held [c] = delete c held) as Ew by by rewrite without_cons, without_nil.
    split; [simpl; by rewrite Eh, decide_True by eauto|]. exists k. rewrite Ew. split; [done|]. split; [destruct Hn; lia|by right].
  - rewrite bool_decide_false, andb_false_r in Hd by by intros [? ?]. destruct Hd as [-> ->].
    assert (gone held [c] = []) as Eg by (simpl; rewrite Eh; by rewrite decide_False by by intros [? ?]).
    split; [by rewrite Eg|]. exists (tx_next_ack (st e)). rewrite (gone_nil_without _ _ Eg). split; [by apply shrunk_refl|]. split; [lia|by left].
Qed.

Lemma discards_all_inv G held l e e' es : discards_all G held l e e' es -> tx_inv G (without held l) e' /\ cfg e' = cfg e.
Proof. intros (_ & k & (Hi & w & -> & _) & _). done. Qed.

Lemma effective_app e e' l k : cfg e' = cfg e -> effective e (l ++ k) = effective e l ++ effective e' k.
Proof. intros E. unfold effective. rewrite E. by destruct (is_configured _). Qed.

(** One SDU and then others. *)
Lemma wp_discard_then G held e c l (m : H unit) :
  tx_inv G held e -> 0 <= c ->
  (forall e1 h1, tx_inv G h1 e1 -> wp m (fun _ e' es => discards_all G h1 (effective e1 l) e1 e' es) e1) ->
  wp (discard_pdu c ;;; m) (fun _ e' es => discards_all G held (effective e (c :: l)) e e' es) e.
Proof.
  intros Hi Hc Hm. wp_step. eapply wp_mono; [by apply (wp_discard_one G held)|]. cbv beta. intros _ e1 es1 Hd1.
  destruct (discards_all_inv _ _ _ _ _ _ Hd1) as [Hi1 Ec]. eapply wp_mono; [by apply Hm|]. cbv beta. intros _ e2 es2 Hd2.
  change (c :: l) with ([c] ++ l). rewrite (effective_app e e1) by done. by eapply discards_all_app.
Qed.

Lemma wp_discard_each G cs : forall held e, tx_inv G held e -> Forall (fun c => 0 <= c) cs ->
  wp (discard_each cs) (fun _ e' es => discards_all G held (effective e cs) e e' es) e.
Proof.
  induction cs as [|c cs IH]; intros held e Hi Hc; simpl.
  - wp_step. unfold effective. destruct (is_configured _); by apply discards_nothing.
  - apply Forall_cons in Hc as [Hc Hcs]. apply wp_discard_then; [done|done|]. intros. by apply IH.
Qed.

(** The COUNTs whose bit is set, the first bit being that of [c]. *)
Fixpoint marked (c : Z) (bs : list bool) : list Z :=
  match bs with
  | [] => []
  | b :: bs' => if b : bool then c :: marked (u32 (c + 1)) bs' else marked (u32 (c + 1)) bs'
  end.

Lemma wp_evaluate_bitmap G bs : forall fuel dec c held e, tx_inv G held e -> decodes dec bs -> (length bs <= fuel)%nat ->
  wp (evaluate_bitmap fuel dec c) (fun _ e' es => discards_all G held (effective e (marked (u32 (c + 1)) bs)) e e' es) e.
Proof.
  induction bs as [|b bs IH]; intros fuel dec c held e Hi Hd Hf.
  - destruct (unpack_uint_short 32 dec [] 1 Hd) as (v & d' & E & _); [lia|lia|done|].
    assert (evaluate_bitmap fuel dec c = ret tt) as -> by (destruct fuel; simpl; by rewrite E).
    wp_step. unfold effective. destruct (is_configured _); by apply discards_nothing.
  - destruct (unpack_uint_spec 32 dec (b :: bs) 1 Hd ltac:(lia)) as (d' & E & Hd').
    { rewrite zlen_cons. pose proof (zlen_nonneg bs). lia. }
    destruct fuel as [|fuel]; [simpl in Hf; lia|]. cbn [evaluate_bitmap]. rewrite E. simpl in Hf, Hd'. change (Z.to_nat 1) with 1%nat. cbn [take marked].
    assert (bits_value (b :: take 0 bs) = if b then 1 else 0) as -> by by destruct b.
    destruct b; cbn [Z.eqb Pos.eqb when].
    + apply wp_discard_then; [done|by apply (Z.mod_pos_bound _ (2 ^ 32))|]. intros e1 h1 Hi1. apply IH; [done|done|lia].
    + wp_step. wp_step. cbn [app]. apply IH; [done|done|lia].
Qed.

(** The COUNTs a status report confirms, seen from TX_NEXT_ACK. *)
Definition confirmed (ack fmc : Z) (bitmap : list bool) : list Z := seqZ ack (fmc - ack) ++ marked (u32 (fmc + 1)) bitmap.

(** A status report starts with a zero octet and the COUNT of the first missing SDU. *)
Definition report_bits (fmc : Z) (bitmap : list bool) : list bool := value_bits 8 0 ++ value_bits 32 fmc ++ bitmap.

(** Reading one field, whose value is known when the bits have the shape expected. *)
Lemma read_field {P : Prop} d bs n v r : decodes d bs -> 0 <= n <= 32 -> (P -> bs = value_bits n v ++ r /\ 0 <= v < 2 ^ n) ->
  exists x ok d' bs', unpack_uint 32 d n = (x, ok, d') /\ 0 <= x < 2 ^ 32 /\ decodes d' bs' /\ zlen bs' <= zlen bs /\ (P -> x = v /\ bs' = r).
Proof.
  intros Hd Hn HP. destruct (unpack_uint_any 32 d bs n Hd Hn) as (x & ok & d' & bs' & E & Hx & Hd' & Hl & Hval).
  exists x, ok, d', bs'. split; [done|]. split; [done|]. split; [done|]. split; [done|]. intros p. destruct (HP p) as [Hbs Hv].
  pose proof (zlen_value_bits n v ltac:(lia)) as El.
  destruct Hval as [-> ->]; [rewrite Hbs, zlen_app, El; pose proof (zlen_nonneg r); lia|]. rewrite Hbs.
  rewrite take_app_zlen, drop_app_zlen, bits_value_bits, Z.mod_small by (done || lia). done.
Qed.

(** [P]: the report has the shape expected. *)
Lemma wp_handle_status_report {P : Prop} G held e status fmc bitmap :
  tx_inv G held e -> Forall is_byte status ->
  (P -> bytes_bits status = report_bits fmc bitmap /\ 0 <= fmc < 2 ^ 32) ->
  wp (handle_status_report status) (fun _ e' es => exists cs, discards_all G held (effective e cs) e e' es /\
    (P -> cs = confirmed (tx_next_ack (st e)) fmc bitmap)) e.
Proof.
  intros Hi Hb HP. pose proof (so_ack _ _ (ti_st _ _ _ Hi)) as Ha. pose proof (new_decoder_decodes _ Hb) as Hd.
  assert (~ P -> wp (ret tt) (fun _ e' es => exists cs, discards_all G held (effective e cs) e e' es /\
    (P -> cs = confirmed (tx_next_ack (st e)) fmc bitmap)) e) as Hnone.
  { intros Hno. wp_step. exists []. split; [unfold effective; destruct (is_configured _); by apply discards_nothing|tauto]. }
  unfold handle_status_report.
  destruct (read_field (P := P) _ _ 1 0 (value_bits 3 0 ++ value_bits 4 0 ++ value_bits 32 fmc ++ bitmap) Hd)
    as (dc & ok1 & d1 & b1 & -> & _ & Hd1 & Hl1 & H1); [lia|intros p; by destruct (HP p) as [-> _]|].
  destruct (negb (dc =? _)) eqn:E1; [apply Hnone; intros p; by destruct (H1 p) as [-> _]|].
  destruct (read_field (P := P) _ _ 3 0 (value_bits 4 0 ++ value_bits 32 fmc ++ bitmap) Hd1)
    as (cpt & ok2 & d2 & b2 & -> & _ & Hd2 & Hl2 & H2); [lia|intros p; by destruct (H1 p) as [_ ->]|].
  destruct (negb (cpt =? _)) eqn:E2; [apply Hnone; intros p; by destruct (H2 p) as [-> _]|].
  destruct (read_field (P := P) _ _ 4 0 (value_bits 32 fmc ++ bitmap) Hd2)
    as (rs & ok3 & d3 & b3 & -> & _ & Hd3 & Hl3 & H3); [lia|intros p; by destruct (H2 p) as [_ ->]|].
  destruct (negb (rs =? 0)) eqn:E3; [apply Hnone; intros p; by destruct (H3 p) as [-> _]|].
  destruct (read_field (P := P) _ _ 32 fmc bitmap Hd3)
    as (x & ok4 & d4 & b4 & -> & Hx & Hd4 & Hl4 & H4); [lia|intros p; destruct (H3 p) as [_ ->]; by destruct (HP p)|].
  do 3 wp_step. eapply wp_mono; [apply (wp_discard_each G _ held e Hi)|].
  { apply Forall_forall. intros c Hc%elem_of_seqZ. lia. }
  cbv beta. intros _ e1 es1 Hd1'. destruct (discards_all_inv _ _ _ _ _ _ Hd1') as [Hi1 Ec].
  eapply wp_mono; [apply (wp_evaluate_bitmap G b4 _ d4 x _ e1 Hi1 Hd4)|].
  { rewrite zlen_bytes_bits in Hl1. unfold zlen in *. lia. }
  cbv beta. intros _ e2 es2 Hd2'. cbn [app]. exists (confirmed (tx_next_ack (st e)) x b4). unfold confirmed. split.
  - rewrite (effective_app e e1) by done. by eapply discards_all_app.
  - intros p. by destruct (H4 p) as [-> ->].
Qed.

(** ** What all these operations have in common *)

(** SDUs leave the window; TX_NEXT stays and TX_TRANS_CRYPTO does not go back. *)
Record moves G held held' e (e' : pdcp_entity_tx) : Prop := {
  mv_inv : tx_inv G held' e';
  mv_shape : exists w s d c, e' = moved w s d c e;
  mv_sub : held' ⊆ held;
  mv_next : tx_next (st e') = tx_next (st e);
  mv_crypto : tx_trans_crypto (st e) <= tx_trans_crypto (st e');
  mv_armed : armed held' e'
}.

Lemma moves_refl G held e : tx_inv G held e -> armed held e -> moves G held held e e.
Proof. intros Hi Ha. constructor; try done. do 4 eexists. apply moved_id. Qed.

Lemma shrunk_moves G held held' e k d e' : shrunk G held' e k d e' -> held' ⊆ held -> armed held' e' -> moves G held held' e e'.
Proof.
  intros (Hi & w & -> & _) Hs Ha. constructor; try done. by do 4 eexists.
Qed.

Lemma released_sub held k : released held k ⊆ held.
Proof. apply map_filter_subseteq. Qed.
Lemma without_sub held cs : without held cs ⊆ held.
Proof. apply map_filter_subseteq. Qed.

Lemma discards_all_moves G held cs e e' es : discards_all G held cs e e' es -> armed held e -> moves G held (without held cs) e e'.
Proof.
  intros (_ & k & Hsh & Hk & Hc) Ha. eapply shrunk_moves; [exact Hsh|apply without_sub|]. destruct Hc as [[Hg ->]|Hn].
  - rewrite (gone_nil_without _ _ Hg) in *. destruct Hsh as (_ & w & -> & _). exact Ha.
  - eapply (shrunk_armed G held); [exact Hsh|by apply Hn|lia|done].
Qed.

Lemma omap_discards {B} (f : tx_event -> option B) (g : Z -> Z) ev l :
  f ev = None -> (forall sn, f (on_discard_pdu sn) = None) -> omap f (ev :: map (fun c => on_discard_pdu (g c)) l) = [].
Proof. intros H0 H1. simpl. rewrite H0. induction l; simpl; [done|]. by rewrite H1. Qed.

(** *** The discard timer *)

Definition timer_expires (t : unique_timer) : unique_timer := mk_timer timer_expired (tm_duration t) (tm_cmd_id t).

Lemma wp_discard_timeout G held e epoch :
  tx_inv G held e -> armed held e -> (tm_cmd_id (discard_timer e) = epoch -> is_running (discard_timer e) = true) ->
  wp (discard_timeout epoch) (fun _ e' es => exists held', moves G held held' e e' /\ pdus es = [] /\ dispatched es = [] /\
    if (tm_cmd_id (discard_timer e) =? epoch) && negb (stopped e) && (tx_next_ack (st e) <? tx_next (st e))
    then exists k es', es = metrics_add_discard_timouts 1 :: es' /\ held' = released held k /\
      expired_to G held (set_discard_timer (timer_expires (discard_timer e)) e) k e' es'
    else held' = held /\ st e' = st e) e.
Proof.
  intros Hi Ha Hrun. unfold discard_timeout. do 3 wp_step. apply wp_timeout_task; [done|intros Hep|intros Hne]; do 2 wp_step; simpl fst; simpl snd; wp_step; try done.
  - rewrite Hep, Z.eqb_refl. cbn [andb app]. specialize (Hrun Hep). destruct Ha as [Hfin Ha]. specialize (Hfin Hrun).
    rewrite <- Hep. fold (timer_expires (discard_timer e)). set (e1 := set_discard_timer _ e).
    assert (tx_inv G held e1) as Hi1 by (destruct Hi; by constructor). pose proof (so_ack _ _ (ti_st _ _ _ Hi)). pose proof (so_next _ _ (ti_st _ _ _ Hi)).
    assert ((stopped e = false -> tx_next (st e) <= tx_next_ack (st e)) -> moves G held held e e1) as Hmv.
    { intros Hno. constructor; try done; [do 4 eexists; apply (moved_id e1)|]. split; [done|]. intros Hs _ Hlt. simpl in *. specialize (Hno Hs). lia. }
    destruct (stopped e) eqn:Hst; cbn [negb andb].
    + unfold discard_callback. do 2 wp_step. simpl stopped. rewrite Hst. wp_step. exists held. split; [by apply Hmv|done].
    + destruct (Z.ltb_spec (tx_next_ack (st e)) (tx_next (st e))) as [Hlt|Hge].
      * destruct (Ha eq_refl Hfin Hlt) as [Hh _].
        eapply wp_mono; [by apply (wp_discard_callback G held e1)|]. cbv beta. intros _ e' es (k & es' & -> & Hx).
        exists (released held k). pose proof Hx as ((d & Hsh) & Harm & -> & _).
        split; [|split; [by apply omap_discards|split; [by apply omap_discards|eauto]]].
        destruct (shrunk_moves G held _ e1 k d e' Hsh (released_sub _ _) Harm) as [? (w & s & d' & c & ->) ? ? ? ?].
        constructor; try done. by do 4 eexists.
      * unfold discard_callback. do 2 wp_step. simpl stopped. rewrite Hst. do 2 wp_step.
        rewrite (has_sn_tx G held) by (done || simpl; lia). rewrite bool_decide_false.
        2:{ intros [sdu Hs]. apply (held_range _ _ _ _ _ Hi1) in Hs. simpl in Hs. lia. }
        wp_step; [|done]. wp_step. exists held. split; [by apply Hmv|done].
  - destruct (Z.eqb_spec (tm_cmd_id (discard_timer e)) epoch); [done|]. exists held. split; [|done].
    assert (set_discard_timer (discard_timer e) e = e) as -> by by destruct e. by apply moves_refl.
Qed.

(** ** Notifications of the lower layer *)

(** The SDU after the one notified keeps a valid discard deadline. *)
Definition notification_ok (now sn : Z) e : Prop :=
  let h := notification_count_estimation e sn in in_window e h = true -> restart_ok now e (h + 1).

(** The SDUs up to [h] are released. *)
Definition acknowledges G held e (h : Z) (e' : pdcp_entity_tx) : Prop :=
  moves G held (released held (h + 1)) e e' /\ tx_next_ack (st e') = h + 1 /\ tx_trans_crypto (st e') = tx_trans_crypto (st e).

Lemma wp_stop_discard G held e now h :
  tx_inv G held e -> armed held e -> (in_window e h = true -> restart_ok now e (h + 1)) ->
  wp (stop_discard_timer now h) (fun _ e' es => es = [] /\ if in_window e h then acknowledges G held e h e' else e' = e) e.
Proof.
  intros Hi Ha Hre. eapply wp_mono; [by apply (wp_stop_discard_timer G held)|]. cbv beta. intros _ e' es [-> H]. split; [done|].
  destruct (in_window e h); [|done]. destruct H as [[d Hsh] Harm]. split; [|by destruct Hsh as (_ & w & -> & _)].
  eapply shrunk_moves; [exact Hsh|apply released_sub|exact Harm].
Qed.

Lemma in_window_configured e h : in_window e h = true -> is_configured (cfg e) = true.
Proof. unfold in_window. by destruct (is_configured _). Qed.

Lemma in_window_spec e h : in_window e h = true -> tx_next_ack (st e) <= h < tx_next (st e).
Proof. unfold in_window. intros H. apply andb_true_iff in H as [H _]. apply andb_true_iff in H as [_ H]. bool_prop. lia. Qed.

Lemma wp_delivery_impl G held e now sn :
  tx_inv G held e -> armed held e -> notification_ok now sn e ->
  wp (handle_delivery_notification_impl now sn) (fun _ e' es => es = [] /\ let h := notification_count_estimation e sn in
    if (sn <? pdcp_sn_cardinality (sn_size (cfg e))) && is_am e && in_window e h then acknowledges G held e h e' else e' = e) e.
Proof.
  intros Hi Ha Hok. unfold handle_delivery_notification_impl, notification_ok in *. do 2 wp_step.
  set (h := notification_count_estimation e sn) in *. cbv zeta in *. rewrite (Z.ltb_antisym _ sn).
  destruct (_ <=? sn); cbn [negb andb]; [by wp_step|]. wp_step.
  { wp_step. bool_prop. split; [done|]. destruct (in_window e h) eqn:Hin; [|by rewrite andb_false_r]. apply in_window_spec in Hin. lia. }
  destruct (discard_timer_cfg (cfg e)) eqn:Hd.
  - destruct (is_am e); cbn [when andb]; [by apply wp_stop_discard|by wp_step].
  - wp_step. split; [done|]. destruct (in_window e h) eqn:Hin; [|by rewrite andb_false_r].
    apply in_window_configured in Hin. unfold is_configured in Hin. by rewrite Hd in Hin.
Qed.

(** A PDU that was handed over and not yet reported as transmitted. *)
Definition awaits_transmission e (h : Z) : bool :=
  (h <? tx_trans_crypto (st e)) && (tx_trans (st e) <=? h) && (h <? tx_next (st e)).

Lemma wp_transmit_impl G held e now sn :
  tx_inv G held e -> armed held e -> notification_ok now sn e ->
  wp (handle_transmit_notification_impl now sn) (fun _ e' es => es = [] /\ let h := notification_count_estimation e sn in
    if (sn <? pdcp_sn_cardinality (sn_size (cfg e))) && awaits_transmission e h
    then moves G held (if is_um e && in_window e h then released held (h + 1) else held) e e' /\ tx_trans (st e') = h + 1 /\
      tx_trans_crypto (st e') = tx_trans_crypto (st e)
    else e' = e) e.
Proof.
  intros Hi Ha Hok. unfold handle_transmit_notification_impl, notification_ok, awaits_transmission in *. do 2 wp_step.
  set (h := notification_count_estimation e sn) in *. cbv zeta in *.
  rewrite (Z.ltb_antisym _ sn). destruct (_ <=? sn); cbn [negb andb]; [by wp_step|].
  destruct (Z.leb_spec (tx_trans_crypto (st e)) h) as [E1|E1], (Z.ltb_spec h (tx_trans_crypto (st e))) as [?|?]; try lia; cbn [andb]; [by wp_step|].
  destruct (Z.ltb_spec h (tx_trans (st e))) as [E2|E2], (Z.leb_spec (tx_trans (st e)) h) as [?|?]; try lia; cbn [andb]; [by wp_step|].
  destruct (Z.leb_spec (tx_next (st e)) h) as [E3|E3], (Z.ltb_spec h (tx_next (st e))) as [?|?]; try lia; cbn [andb]; [by wp_step|].
  pose proof (so_next _ _ (ti_st _ _ _ Hi)). pose proof (so_trans _ _ (ti_st _ _ _ Hi)). pose proof (so_ack _ _ (ti_st _ _ _ Hi)).
  do 2 wp_step. rewrite u32_small by lia. set (e1 := set_tx_trans (h + 1) e).
  assert (tx_inv G held e1) as Hi1.
  { destruct Hi as [? ? [] ? ?]. constructor; try done. constructor; simpl; lia || done. }
  assert (moves G held held e e1) as Hmv.
  { constructor; try done. exists (tx_window e), (with_trans (h + 1) (st e)), (discard_timer e), (crypto_reordering_timer e). by destruct e. }
  destruct (discard_timer_cfg (cfg e)) eqn:Hd.
  2:{ wp_step. split; [done|]. assert (in_window e h = false) as ->; [|by rewrite andb_false_r].
      unfold in_window, is_configured. by rewrite Hd. }
  destruct (is_um e); cbn [when andb]; [|by wp_step]. eapply wp_mono; [apply (wp_stop_discard_timer G held e1 now h Hi1)|].
  { exact Hok. }
  cbv beta. change (in_window e1 h) with (in_window e h). intros _ e' es [-> Hw]. split; [done|].
  destruct (in_window e h); [|by subst e']. destruct Hw as [[d Hsh] Harm].
  destruct (shrunk_moves _ _ _ _ _ _ _ Hsh (released_sub _ _) Harm) as [? (w & s & d' & c & ->) ? ? ? ?].
  destruct Hsh as (_ & w0 & He & _). split.
  - constructor; try done. exists w, s, d', c. by destruct e.
  - rewrite He. simpl. split; [lia|done].
Qed.

Lemma wp_quiet_when G held e (b : bool) (m : H unit) :
  tx_inv G held e -> armed held e ->
  (b = false -> wp m (fun _ e' es => es = [] /\ (e' = e \/ exists held', moves G held held' e e')) e) ->
  wp (if b then ret tt else m) (fun _ e' es => es = [] /\ exists held', moves G held held' e e') e.
Proof.
  intros Hi Ha Hm. wp_step; [wp_step; split; [done|]; exists held; by apply moves_refl|].
  eapply wp_mono; [by apply Hm|]. cbv beta. intros _ e' es [-> [->|?]]; [|done]. split; [done|]. exists held. by apply moves_refl.
Qed.

(** Any notification, whatever it says. *)
Lemma wp_notification G held e now sn (b : bool) (m : H unit) :
  tx_inv G held e -> armed held e -> notification_ok now sn e ->
  m = handle_transmit_notification_impl now sn \/ m = handle_delivery_notification_impl now sn ->
  wp (if b then ret tt else m) (fun _ e' es => es = [] /\ exists held', moves G held held' e e') e.
Proof.
  intros Hi Ha Hok Hm. apply wp_quiet_when; [done|done|]. intros _. destruct Hm as [-> | ->].
  - eapply wp_mono; [by apply (wp_transmit_impl G held)|]. cbv beta. intros _ e' es [-> Hp]. split; [done|].
    cbv zeta in Hp. destruct (_ && _) in Hp; [right; eexists; apply Hp|by left].
  - eapply wp_mono; [by apply (wp_delivery_impl G held)|]. cbv beta. intros _ e' es [-> Hp]. split; [done|].
    cbv zeta in Hp. destruct (_ && _) in Hp; [right; eexists; apply Hp|by left].
Qed.
End discard.
