(* ===== verification/PdcpTxReorder.v ===== *)
(** * PDCP transmitting entity: reordering of the protected PDUs

    The PDUs that come back from the crypto workers wait in the window; [delivers] says which of
    them an operation hands to the lower layer, and in which order. *)

From S2P Require Import Prelude Effects Window Timers BitEncoding PdcpSn Ciphering Security PdcpBase PdcpTx PdcpTxFacts PdcpTxInv PdcpTxDiscard.
Import PdcpTx.
Open Scope Z_scope.
Open Scope entity_scope.

Section reorder.
Context {A : SecurityAlgorithms}.
Implicit Types (G : list (option SecurityEngine.security_engine_impl)) (held : gmap Z (list Z)) (e : pdcp_entity_tx).

(** The PDU waiting at a COUNT, empty when there is none; the COUNTs of a range with one. *)
Definition pdu_at e (c : Z) : list Z :=
  match CircularMap.lookup (tw_map (tx_window e)) c with Some el => elem_pdu el | None => [] end.
Definition waiting (f : Z -> list Z) (a b : Z) : list Z := filter (fun c => f c <> []) (seqZ a (b - a)).

Lemma waiting_app f a b c : a <= b <= c -> waiting f a b ++ waiting f b c = waiting f a c.
Proof.
  intros. unfold waiting. rewrite <- filter_app. f_equal. replace (c - a) with ((b - a) + (c - b)) by lia.
  rewrite seqZ_app by lia. f_equal. f_equal. lia.
Qed.

Lemma waiting_one f a : waiting f a (a + 1) = if decide (f a <> []) then [a] else [].
Proof.
  unfold waiting. replace (a + 1 - a) with 1 by lia. rewrite seqZ_cons by lia. change (seqZ (Z.succ a) (Z.pred 1)) with (@nil Z).
  rewrite filter_cons. by case_decide.
Qed.

Lemma waiting_ext f g a b : (forall c, a <= c < b -> f c = g c) -> waiting f a b = waiting g a b.
Proof.
  intros Hx. unfold waiting. assert (forall c, c ∈ seqZ a (b - a) -> f c = g c) as Hy.
  { intros c Hc%elem_of_seqZ. apply Hx. lia. }
  clear Hx. induction (seqZ a (b - a)) as [|c l IH]; [done|]. rewrite !filter_cons, (Hy c ltac:(left)).
  rewrite IH by (intros; apply Hy; by right). by case_decide.
Qed.

(** TX_TRANS_CRYPTO moves to [k]: the PDUs waiting below are handed over in order, the others stay. *)
Definition delivers G held (retx : bool) e (k : Z) (e' : pdcp_entity_tx) (es : list tx_event) : Prop :=
  (exists w, e' = moved w (with_crypto k (st e)) (discard_timer e) (crypto_reordering_timer e) e /\
     win_inv G (cfg e) held w (tx_next (st e)) (tx_next_ack (st e)) /\
     (forall c, k <= c -> CircularMap.lookup (tw_map w) c = CircularMap.lookup (tw_map (tx_window e)) c)) /\
  pdus es = map (fun c => (pdu_at e c, retx)) (waiting (pdu_at e) (tx_trans_crypto (st e)) k) /\ discards es = [] /\ dispatched es = [].

Lemma delivers_refl G held retx e : tx_inv G held e -> delivers G held retx e (tx_trans_crypto (st e)) e [].
Proof.
  intros Hi. split; [|by unfold waiting; rewrite Z.sub_diag]. exists (tx_window e). rewrite with_crypto_id. split; [apply moved_id|].
  split; [apply Hi|done].
Qed.

Lemma delivers_pdu_at G held retx e k e' es c : delivers G held retx e k e' es -> k <= c -> pdu_at e' c = pdu_at e c.
Proof. intros [(w & -> & _ & Hl) _] Hc. unfold pdu_at. simpl. by rewrite Hl. Qed.

Lemma delivers_facts G held retx e k e' es : delivers G held retx e k e' es ->
  tx_next (st e') = tx_next (st e) /\ tx_trans_crypto (st e') = k /\ tx_reord_crypto (st e') = tx_reord_crypto (st e) /\ cfg e' = cfg e.
Proof. by intros [(w & -> & _) _]. Qed.

(** Passing over a COUNT without PDU. *)
Lemma delivers_skip G held retx e k e1 es : delivers G held retx e k e1 es -> tx_trans_crypto (st e) <= k -> pdu_at e k = [] ->
  delivers G held retx e (k + 1) (set_tx_trans_crypto (k + 1) e1) es.
Proof.
  intros ((w & -> & Hw & Hl) & Hp & Hrest) Hk Hno. split; [|split; [|done]].
  - exists w. split; [done|]. split; [done|]. intros c Hc. apply Hl. lia.
  - rewrite Hp, <- (waiting_app (pdu_at e) _ k (k + 1)), waiting_one, decide_False, app_nil_r by (done || lia || tauto). done.
Qed.

Lemma wp_write_stored G held retx e k e1 es (Q : unit -> pdcp_entity_tx -> list tx_event -> Prop) :
  delivers G held retx e k e1 es -> tx_trans_crypto (st e) <= k -> 0 <= k < 2 ^ 32 - 1 -> is_Some (held !! k) -> pdu_at e k <> [] ->
  (forall e2 es2, delivers G held retx e (k + 1) (set_tx_trans_crypto (k + 1) e2) (es ++ es2) -> Q tt e2 es2) ->
  wp (write_stored_pdu k (pdu_at e k) retx) Q e1.
Proof.
  intros ((w & -> & Hw & Hl) & Hp & Hd1 & Hd2) Hk Hr [sdu Hs] Hne HQ. unfold write_stored_pdu. do 3 wp_step.
  eapply wp_window_set_pdu; [exact Hw|lia|exact Hs|by left|]. intros w' Hw' Hl' _. unfold write_data_pdu_to_lower_layers.
  do 4 wp_step. apply HQ. split.
  - exists w'. split; [done|]. split; [done|]. intros c Hc. rewrite Hl' by lia. apply Hl. lia.
  - rewrite pdus_app, discards_app, tx_dispatched_app, Hp, Hd1, Hd2. split; [|done]. simpl.
    rewrite <- (waiting_app (pdu_at e) _ k (k + 1)), waiting_one, decide_True, map_app by (done || lia). done.
Qed.

(** Where a delivery in order between [a] and [b] stops. *)
Definition stops_at (f : Z -> list Z) (a b k : Z) : Prop :=
  a <= k <= b /\ (forall c, a <= c < k -> f c <> []) /\ (k < b -> f k = []).

Lemma wp_deliver_step G held retx e now k e1 es :
  tx_inv G held e -> delivers G held retx e k e1 es -> tx_trans_crypto (st e) <= k <= tx_next (st e) ->
  (k < tx_next (st e) -> is_Some (held !! k)) ->
  wp (deliver_step now retx k) (fun r e2 es2 => match r with
    | inl k' => k' = k + 1 /\ k < tx_next (st e) /\ pdu_at e k <> [] /\ delivers G held retx e (k + 1) e2 (es ++ es2)
    | inr _ => (k < tx_next (st e) -> pdu_at e k = []) /\ delivers G held retx e k e2 (es ++ es2)
    end) e1.
Proof.
  intros Hi Hd Hk Hh. pose proof (so_next _ _ (ti_st _ _ _ Hi)). pose proof (so_crypto _ _ (ti_st _ _ _ Hi)).
  destruct (delivers_facts _ _ _ _ _ _ _ Hd) as (En & _ & _ & Ec).
  unfold deliver_step. do 2 wp_step. rewrite En. destruct (Z.ltb_spec k (tx_next (st e))) as [Hlt|]; [|wp_step; rewrite app_nil_r; split; [lia|done]].
  destruct (Hh Hlt) as [sdu Hs]. pose proof Hd as [(w & He1 & Hw & Hl) _]. assert (tx_window e1 = w) as Ew by by rewrite He1.
  wp_step. rewrite Ew. eapply wp_tx_index; [exact Hw|lia|exact Hs|]. intros el Hel _.
  assert (pdu_at e k = elem_pdu el) as Hpk by (unfold pdu_at; rewrite <- Hl by lia; by rewrite Hel).
  cbn [app]. destruct (elem_pdu el) as [|b p] eqn:Ep; [wp_step; by rewrite app_nil_r|]. rewrite <- Hpk.
  wp_step. eapply wp_write_stored; [exact Hd|lia|lia|by eauto|by rewrite Hpk|]. intros e2 es2 Hd2. do 2 wp_step. rewrite u32_small by lia.
  wp_step. assert (test_mode (cfg e1) = false) as -> by (rewrite Ec; apply (ti_cfg _ _ _ Hi)).
  cbn [when]. apply wp_ret, wp_ret. rewrite !app_nil_r. split; [done|]. split; [done|]. split; [by rewrite Hpk|exact Hd2].
Qed.

(** The loop goes on from wherever an earlier part of the operation stopped. *)
Lemma wp_deliver_from G held retx e now k0 e0 es0 :
  tx_inv G held e -> delivers G held retx e k0 e0 es0 -> tx_trans_crypto (st e) <= k0 <= tx_next (st e) ->
  (forall c, k0 <= c < tx_next (st e) -> is_Some (held !! c)) ->
  wp (deliver_in_order now retx) (fun _ e' es => exists k, stops_at (pdu_at e) k0 (tx_next (st e)) k /\
    delivers G held retx e k e' (es0 ++ es)) e0.
Proof.
  intros Hi Hd0 Hk0 Hh. destruct (delivers_facts _ _ _ _ _ _ _ Hd0) as (En & Ek & _ & _). unfold deliver_in_order. do 2 wp_step. rewrite En, Ek.
  apply (wp_while_loop (fun n k e1 es => k0 <= k <= tx_next (st e) /\ (forall c, k0 <= c < k -> pdu_at e c <> []) /\
    delivers G held retx e k e1 (es0 ++ es) /\ n = Datatypes.S (Z.to_nat (tx_next (st e) - k)))).
  - split; [lia|]. split; [lia|]. split; [by rewrite app_nil_r|done].
  - intros k e1 es (_ & _ & _ & ?). done.
  - intros n k e1 es (Hk & Hne & Hd & Hn). eapply wp_mono.
    { apply (wp_deliver_step G held retx e now k e1 _ Hi Hd); [lia|]. intros. apply Hh. lia. }
    cbv beta. intros [k'|[]] e2 es2.
    + intros (-> & Hlt & Hp & Hd2). rewrite app_assoc. split; [lia|]. split; [|split; [exact Hd2|lia]].
      intros c Hc. destruct (Z.eq_dec c k) as [->|]; [done|]. apply Hne. lia.
    + intros (Hp & Hd2). rewrite <- app_assoc in Hd2. cbn [app]. exists k. by split.
Qed.

Lemma wp_deliver_in_order G held retx e now :
  tx_inv G held e -> (forall c, tx_trans_crypto (st e) <= c < tx_next (st e) -> is_Some (held !! c)) ->
  wp (deliver_in_order now retx) (fun _ e' es => exists k, stops_at (pdu_at e) (tx_trans_crypto (st e)) (tx_next (st e)) k /\ delivers G held retx e k e' es) e.
Proof.
  intros Hi Hh. pose proof (so_crypto _ _ (ti_st _ _ _ Hi)).
  eapply wp_mono; [apply (wp_deliver_from G held retx e now _ e [] Hi (delivers_refl _ _ _ _ Hi)); [lia|done]|].
  done.
Qed.

(** Up to TX_REORD_CRYPTO what is there is handed over. *)
Lemma wp_tx_expire_loop G held e :
  tx_inv G held e -> tx_trans_crypto (st e) <= tx_reord_crypto (st e) <= tx_next (st e) ->
  wp (while_loop (Datatypes.S (Z.to_nat (u32 (tx_reord_crypto (st e) - tx_trans_crypto (st e))))) crypto_expire_step tt)
    (fun _ e' es => delivers G held false e (tx_reord_crypto (st e)) e' es) e.
Proof.
  intros Hi Hr. pose proof (so_next _ _ (ti_st _ _ _ Hi)). pose proof (so_crypto _ _ (ti_st _ _ _ Hi)). set (r := tx_reord_crypto (st e)) in *.
  rewrite u32_small by lia.
  apply (wp_while_loop (fun n _ e1 es => exists k, tx_trans_crypto (st e) <= k <= r /\ delivers G held false e k e1 es /\
    n = Datatypes.S (Z.to_nat (r - k)))).
  - exists (tx_trans_crypto (st e)). split; [lia|]. split; [by apply delivers_refl|done].
  - intros ? e1 es (k & _ & _ & ?). done.
  - intros n [] e1 es (k & Hk & Hd & Hn). destruct (delivers_facts _ _ _ _ _ _ _ Hd) as (En & Ek & Er & Ec).
    pose proof Hd as [(w & He1 & Hw & Hl) _]. assert (tx_window e1 = w) as Ew by by rewrite He1.
    unfold crypto_expire_step. do 2 wp_step. rewrite Ek, Er. fold r. destruct (Z.eqb_spec k r) as [->|Hne]; [by wp_step; rewrite app_nil_r|].
    assert (forall e2 es2, delivers G held false e (k + 1) (set_tx_trans_crypto (k + 1) e2) (es ++ es2) ->
      wp (modify (set_tx_trans_crypto (u32 (k + 1))) ;;; ret (inl tt)) (fun (r0 : unit + unit) e' es' => match r0 with
        | inl _ => exists k0, tx_trans_crypto (st e) <= k0 <= r /\ delivers G held false e k0 e' (es ++ es2 ++ es') /\
            n = Datatypes.S (Z.to_nat (r - k0))
        | inr _ => delivers G held false e r e' (es ++ es2 ++ es') end) e2) as Hgo.
    { intros e2 es2 Hd2. do 3 wp_step. rewrite app_nil_r, u32_small by lia. exists (k + 1). split; [lia|]. split; [exact Hd2|lia]. }
    assert (pdu_at e k = [] -> delivers G held false e (k + 1) (set_tx_trans_crypto (k + 1) e1) (es ++ [])) as Hskip.
    { intros. rewrite app_nil_r. apply delivers_skip; [done|lia|done]. }
    assert (forall el, CircularMap.lookup (tw_map w) k = Some el -> pdu_at e k = elem_pdu el) as Hpk.
    { intros el Hel. unfold pdu_at. by rewrite <- Hl, Hel by lia. }
    wp_step. unfold has_sn. rewrite Ew, (tx_has_sn_held _ _ _ _ _ _ _ Hw) by lia. case_bool_decide as Hs; cbn [when].
    + pose proof Hs as [sdu Hsdu]. wp_step. eapply wp_tx_index; [exact Hw|lia|exact Hsdu|]. intros el Hel _.
      cbn [app]. destruct (elem_pdu el) as [|b p] eqn:Ep.
      * wp_step. cbn [app]. apply (Hgo e1 []), Hskip. by rewrite (Hpk _ Hel).
      * rewrite <- Ep, <- (Hpk _ Hel). eapply wp_write_stored; [exact Hd|lia|lia|done|by rewrite (Hpk _ Hel), Ep|].
        intros e2 es2 Hd2. by apply Hgo.
    + wp_step. cbn [app]. apply (Hgo e1 []), Hskip. unfold pdu_at. rewrite <- Hl by lia.
      pose proof (wi_held _ _ _ _ _ _ Hw k) as Hx. destruct (CircularMap.lookup (tw_map w) k); [|done].
      destruct Hx as (? & Hx & _). exfalso. apply Hs. eauto.
Qed.

(** ** The reordering task *)

Lemma wp_run_crypto_timer e (Q : unit -> pdcp_entity_tx -> list tx_event -> Prop) :
  is_set (crypto_reordering_timer e) = true ->
  (forall t, is_running t = true -> is_set t = true -> Q tt (set_crypto_timer t e) []) -> wp run_crypto_timer Q e.
Proof.
  intros Hs HQ. unfold run_crypto_timer. do 3 wp_step. unfold timer_run. rewrite Hs. cbn [negb]. do 2 wp_step. by apply HQ.
Qed.

(** The reordering timer runs as long as PDUs are missing. *)
Lemma wp_handle_crypto_timers G held retx e k e1 es :
  tx_inv G held e -> armed held e -> tx_trans_crypto (st e) <= k <= tx_next (st e) -> delivers G held retx e k e1 es ->
  wp handle_crypto_timers (fun _ e' es' => es' = [] /\ moves G held held e e' /\ tx_trans_crypto (st e') = k /\
    is_running (crypto_reordering_timer e') = (k <? tx_next (st e))) e1.
Proof.
  intros Hi Ha Hk ((w & -> & Hw & _) & _).
  assert (forall c r, is_set c = true -> 0 <= r -> (is_running c = true -> k <= r <= tx_next (st e)) ->
    moves G held held e (moved w (with_reord r (with_crypto k (st e))) (discard_timer e) c e)) as Hmv.
  { intros c r Hs Hr0 Hr. destruct Hi as [? ? [] ? ?]. constructor; try done; [|by do 4 eexists|simpl; lia].
    constructor; try done. constructor; simpl; lia || done. }
  pose proof (ti_set _ _ _ Hi) as Hset. pose proof (so_running _ _ (ti_st _ _ _ Hi)) as Hrn. pose proof (so_reord _ _ (ti_st _ _ _ Hi)).
  unfold handle_crypto_timers. do 2 wp_step. cbn [crypto_reordering_timer moved set_st set_tx_window set_discard_timer set_crypto_timer st tx_reord_crypto tx_trans_crypto with_crypto].
  set (ct := crypto_reordering_timer e) in *.
  assert (forall c r (b : bool), is_set c = true -> is_running c = b -> (b = true -> k < tx_next (st e) /\ k <= r <= tx_next (st e)) -> 0 <= r ->
    wp (let! e := get in when (negb (is_running (crypto_reordering_timer e)) && (tx_trans_crypto (st e) <? tx_next (st e)))
          (modify (set_tx_reord_crypto (tx_next (st e))) ;;; run_crypto_timer))
      (fun _ e' es' => es' = [] /\ moves G held held e e' /\ tx_trans_crypto (st e') = k /\
         is_running (crypto_reordering_timer e') = (k <? tx_next (st e)))
      (moved w (with_reord r (with_crypto k (st e))) (discard_timer e) c e)) as Hgo.
  { intros c r b Hs Hb Hr Hr0. do 2 wp_step. simpl. rewrite Hb. destruct b; cbn [negb andb when].
    - wp_step. destruct Hr as [? ?]; [done|]. split; [done|]. split; [apply Hmv; [done|done|lia]|]. split; [done|]. simpl.
      rewrite Hb. by destruct (Z.ltb_spec k (tx_next (st e))); [|lia].
    - destruct (Z.ltb_spec k (tx_next (st e))); cbn [when].
      + do 2 wp_step. apply wp_run_crypto_timer; [done|]. intros t Ht Hst. split; [done|]. split; [|done].
        apply (Hmv t (tx_next (st e))); [done| |lia]. pose proof (so_ack _ _ (ti_st _ _ _ Hi)). lia.
      + wp_step. split; [done|]. split; [apply Hmv; [done|done|rewrite Hb; done]|]. split; [done|]. simpl. done. }
  wp_step. destruct (is_running ct) eqn:Hrun; cbn [andb].
  - specialize (Hrn ltac:(done)). destruct (Z.leb_spec (tx_reord_crypto (st e)) k); cbn [when].
    + wp_step. cbn [app]. apply (Hgo (timer_stop ct) _ false); [by rewrite is_set_stop|apply is_running_stop|done|done].
    + wp_step. cbn [app]. apply (Hgo ct _ true); [done|done|lia|done].
  - cbn [when]. wp_step. cbn [app]. apply (Hgo ct _ false); done.
Qed.

(** Whether a protected PDU is taken into the window; the PDUs waiting then. *)
Definition takes e (i : pdcp_tx_buffer_info) : bool :=
  negb (stopped e) && (bi_retx_id i =? retransmit_id e) && (tx_next_ack (st e) <=? bi_count i) && (tx_trans (st e) <=? bi_count i) &&
  has_sn e (bi_count i).
Definition pdu_with e (i : pdcp_tx_buffer_info) (c : Z) : list Z := if c =? bi_count i then bi_buf i else pdu_at e c.

(** What the task does: TX_TRANS_CRYPTO goes to the first COUNT whose PDU is missing. *)
Definition reordered e (i : pdcp_tx_buffer_info) (e' : pdcp_entity_tx) (es : list tx_event) : Prop :=
  exists k, let from := tx_trans_crypto (st e) in
  stops_at (pdu_with e i) from (tx_next (st e)) k /\ tx_trans_crypto (st e') = k /\
  pdus es = map (fun c => (pdu_with e i c, bi_is_retx i)) (waiting (pdu_with e i) from k) /\
  is_running (crypto_reordering_timer e') = (k <? tx_next (st e)).

(** No SDU is missing between TX_TRANS_CRYPTO (or [k]) and TX_NEXT. *)
Definition no_gap e (k : Z) : Prop := Forall (fun c => has_sn e c = true) (seqZ k (tx_next (st e) - k)).

Lemma no_gap_held G held e k : tx_inv G held e -> 0 <= k -> no_gap e k -> forall c, k <= c < tx_next (st e) -> is_Some (held !! c).
Proof.
  intros Hi Hk Hg c Hc. pose proof (so_next _ _ (ti_st _ _ _ Hi)). unfold no_gap in Hg. rewrite Forall_forall in Hg.
  specialize (Hg c ltac:(apply elem_of_seqZ; lia)). rewrite (has_sn_tx _ _ _ _ Hi) in Hg by lia. by apply bool_decide_eq_true in Hg.
Qed.

Lemma wp_tx_apply_reordering_body G held e now i :
  tx_inv G held e -> armed held e -> 0 <= bi_count i < 2 ^ 32 ->
  (forall sdu, held !! bi_count i = Some sdu -> pdu_of G (cfg e) (bi_count i) sdu (bi_buf i)) ->
  (takes e i = true -> no_gap e (tx_trans_crypto (st e))) ->
  wp (apply_reordering_body now i) (fun _ e' es => moves G held held e e' /\ discards es = [] /\ dispatched es = [] /\
    if takes e i then reordered e i e' es else e' = e /\ es = []) e.
Proof.
  intros Hi Ha Hc Hpdu Hgap. unfold apply_reordering_body, takes in *. do 2 wp_step. cbv zeta.
  assert (wp (ret tt) (fun _ e' es => moves G held held e e' /\ discards es = [] /\ dispatched es = [] /\ e' = e /\ es = []) e) as Hno.
  { wp_step. split; [by apply moves_refl|done]. }
  rewrite (Z.leb_antisym (bi_count i)), (Z.leb_antisym (bi_count i)) in *.
  destruct (stopped e); cbn [negb andb] in *; [exact Hno|]. destruct (_ =? _); cbn [negb andb] in *; [|exact Hno].
  destruct (bi_count i <? tx_next_ack (st e)); cbn [negb andb] in *; [exact Hno|].
  destruct (bi_count i <? tx_trans (st e)); cbn [negb andb] in *; [exact Hno|].
  rewrite (has_sn_tx _ _ _ _ Hi) in * by done. case_bool_decide as Hs; cbn [negb] in *; [|exact Hno]. clear Hno.
  specialize (Hgap eq_refl). pose proof Hs as [sdu Hsdu]. pose proof (so_crypto _ _ (ti_st _ _ _ Hi)) as Htc.
  pose proof (no_gap_held _ _ _ _ Hi (proj1 Htc) Hgap) as Hheld. wp_step.
  eapply wp_window_set_pdu; [apply Hi|done|exact Hsdu|right; by apply Hpdu|]. intros w Hw Hl Hlc. do 2 wp_step.
  set (e1 := set_tx_window w e). assert (tx_inv G held e1) as Hi1 by (destruct Hi; by constructor).
  assert (forall c, pdu_at e1 c = pdu_with e i c) as Hp.
  { intros c. unfold pdu_with, pdu_at. simpl. destruct (Z.eqb_spec c (bi_count i)) as [->|Hne]; [|by rewrite Hl].
    by destruct (CircularMap.lookup (tw_map w) (bi_count i)) as [el|]; simplify_eq/=. }
  wp_step. eapply wp_mono; [apply (wp_deliver_in_order G held _ e1 now Hi1); exact Hheld|]. cbv beta.
  intros _ e2 es (k & Hst & Hd). pose proof Hst as [Hk _].
  eapply wp_mono; [by apply (wp_handle_crypto_timers G held (bi_is_retx i) e1 k e2 es)|]. cbv beta. intros _ e3 es3 (-> & Hmv & Ek & Hrun).
  rewrite app_nil_r. cbn [app]. destruct Hd as (_ & Hpd & Hd1 & Hd2). split; [|split; [done|split; [done|]]].
  - destruct Hmv as [? (w' & s & d & c & ->) ? ? ? ?]. constructor; try done. by do 4 eexists.
  - exists k. cbv zeta. split; [|split; [done|split; [|done]]].
    + destruct Hst as (? & Hne & Hemp). split; [done|]. split; intros; rewrite <- Hp; auto.
    + rewrite Hpd. rewrite (waiting_ext (pdu_at e1) (pdu_with e i)) by auto. apply map_ext. intros c. by rewrite Hp.
Qed.

(** ** Expiry of the reordering timer *)

Definition crypto_fires e (epoch : Z) : bool := (tm_cmd_id (crypto_reordering_timer e) =? epoch) && negb (stopped e).

(** What is there below TX_REORD_CRYPTO is handed over, and what follows in order. *)
Definition passed_over e (e' : pdcp_entity_tx) (es : list tx_event) : Prop :=
  exists k, stops_at (pdu_at e) (tx_reord_crypto (st e)) (tx_next (st e)) k /\ tx_trans_crypto (st e') = k /\
  pdus es = map (fun c => (pdu_at e c, false)) (waiting (pdu_at e) (tx_trans_crypto (st e)) k) /\
  is_running (crypto_reordering_timer e') = (k <? tx_next (st e)).

Lemma wp_crypto_reordering_timeout G held e now :
  tx_inv G held e -> armed held e -> tx_trans_crypto (st e) <= tx_reord_crypto (st e) <= tx_next (st e) ->
  is_running (crypto_reordering_timer e) = false -> (stopped e = false -> no_gap e (tx_reord_crypto (st e))) ->
  wp (crypto_reordering_timeout now) (fun _ e' es => moves G held held e e' /\ discards es = [] /\ dispatched es = [] /\
    if stopped e then e' = e /\ es = [] else passed_over e e' es) e.
Proof.
  intros Hi Ha Hr Hrun Hgap. pose proof (so_crypto _ _ (ti_st _ _ _ Hi)) as Htc. unfold crypto_reordering_timeout. do 2 wp_step.
  destruct (stopped e); [wp_step; split; [by apply moves_refl|done]|]. specialize (Hgap eq_refl).
  pose proof (no_gap_held _ _ _ (tx_reord_crypto (st e)) Hi ltac:(lia) Hgap) as Hheld.
  wp_step. eapply wp_mono; [by apply (wp_tx_expire_loop G held)|]. cbv beta. intros _ e1 es1 Hd1.
  wp_step. eapply wp_mono; [apply (wp_deliver_from G held false e now _ e1 es1 Hi Hd1); [lia|exact Hheld]|].
  cbv beta. intros _ e2 es2 (k & Hst & Hd2). pose proof Hst as [Hk _]. pose proof Hd2 as ((w & He2 & Hw & _) & Hp & Hdi & Hta).
  assert (forall t r, is_set t = true -> (is_running t = true -> r = tx_next (st e)) -> 0 <= r ->
    moves G held held e (set_crypto_timer t (set_tx_reord_crypto r e2))) as Hmv.
  { intros t r Ht Hr' Hr0. rewrite He2. destruct Hi as [? ? [] ? ?]. constructor; try done; [|by exists w, (with_reord r (with_crypto k (st e))), (discard_timer e), t|simpl; lia].
    constructor; try done. constructor; simpl; try (lia || done). intros Hru. rewrite (Hr' Hru). lia. }
  assert (tx_trans_crypto (st e2) = k /\ tx_next (st e2) = tx_next (st e) /\ crypto_reordering_timer e2 = crypto_reordering_timer e /\
    tx_reord_crypto (st e2) = tx_reord_crypto (st e)) as (E1 & E2 & E3 & E4) by by rewrite He2.
  rewrite pdus_app, discards_app, tx_dispatched_app in *. do 2 wp_step. rewrite E1, E2. unfold passed_over.
  destruct (Z.ltb_spec k (tx_next (st e))) as [Hlt|Hge]; cbn [when].
  - do 2 wp_step. apply wp_run_crypto_timer; [simpl; rewrite E3; apply Hi|]. intros t Ht Hset. cbn [app].
    rewrite app_nil_r, pdus_app, discards_app, tx_dispatched_app.
    split; [apply Hmv; [done|done|lia]|]. split; [done|]. split; [done|]. exists k. split; [done|]. split; [done|]. split; [done|].
    simpl. rewrite Ht. by destruct (Z.ltb_spec k (tx_next (st e))); [|lia].
  - wp_step. rewrite app_nil_r, pdus_app, discards_app, tx_dispatched_app.
    assert (e2 = set_crypto_timer (crypto_reordering_timer e2) (set_tx_reord_crypto (tx_reord_crypto (st e2)) e2)) as Ee by (by destruct e2 as [? ? ? ? ? ? []]).
    split; [rewrite Ee; apply Hmv; rewrite ?E3, ?E4, ?Hrun; [apply Hi|done|lia]|]. split; [done|]. split; [done|]. exists k.
    split; [done|]. split; [done|]. split; [done|]. rewrite E3, Hrun. by destruct (Z.ltb_spec k (tx_next (st e))); [lia|].
Qed.

Lemma wp_crypto_timeout G held e now epoch :
  tx_inv G held e -> armed held e -> (tm_cmd_id (crypto_reordering_timer e) = epoch -> is_running (crypto_reordering_timer e) = true) ->
  (crypto_fires e epoch = true -> no_gap e (tx_reord_crypto (st e))) ->
  wp (crypto_timeout now epoch) (fun _ e' es => moves G held held e e' /\ discards es = [] /\ dispatched es = [] /\
    if crypto_fires e epoch then passed_over e e' es else st e' = st e /\ es = []) e.
Proof.
  intros Hi Ha Hrun Hgap. unfold crypto_timeout, crypto_fires in *. do 3 wp_step.
  apply wp_timeout_task; [done|intros Hep|intros Hne]; do 2 wp_step; cbn [fst snd when app].
  - rewrite Hep, Z.eqb_refl in Hgap |- *. cbn [andb] in *. specialize (Hrun Hep).
    pose proof (so_running _ _ (ti_st _ _ _ Hi) Hrun) as Hr. set (e1 := set_crypto_timer _ e).
    assert (tx_inv G held e1) as Hi1.
    { destruct Hi as [? ? [] ? ?]. by constructor. }
    eapply wp_mono; [apply (wp_crypto_reordering_timeout G held e1 now Hi1 Ha Hr eq_refl)|].
    { intros Hst. apply Hgap. simpl in Hst. by rewrite Hst. }
    cbv beta. intros _ e' es (Hmv & Hdi & Hta & Hx). simpl stopped in Hx. split; [|split; [done|split; [done|]]].
    + destruct Hmv as [? (w & s & d & c & ->) ? ? ? ?]. constructor; try done. by do 4 eexists.
    + destruct (stopped e); cbn [negb]; [by destruct Hx as [-> ->]|exact Hx].
  - destruct (Z.eqb_spec (tm_cmd_id (crypto_reordering_timer e)) epoch); [done|]. cbn [andb]. wp_step. 
    assert (set_crypto_timer (crypto_reordering_timer e) e = e) as -> by by destruct e. split; [by apply moves_refl|done].
Qed.
End reorder.
