(* ===== verification/PdcpTxSystem.v ===== *)
(** * PDCP transmitting entity with its pending tasks

    As on the receiving side, PDUs wait between the UE executor and the crypto workers as tasks that
    run in any order.  [sys_inv sent G held tasks halted e]: the SDUs [sent] so far, of which [held]
    are in the window, the engines [G] configured so far, the pending tasks, and whether PDU
    processing is halted.  Every operation of the entity and every task preserves it. *)

From S2P Require Import Prelude Effects Window Timers BitEncoding PdcpSn Ciphering Security PdcpBase PdcpTx PdcpTxFacts PdcpTxInv PdcpTxDiscard PdcpTxReorder.
Import PdcpTx.
Open Scope Z_scope.
Open Scope entity_scope.

(** ** Tokens *)

(** [n] tokens are out; one more is given back while processing is halted. *)
Definition tokens_ok (n : Z) (h : bool) (t : pdcp_crypto_token_manager) : Prop :=
  tokens t = u32 (n - Z.b2z h) /\ (pending_crypto t = true -> h = true) /\ (h = true -> n = 0 -> pending_crypto t = true).

Lemma tokens_ok_increment n h t : 0 <= n -> tokens_ok n h t -> tokens_ok (n + 1) h (Tokens.increment_token t).
Proof.
  intros Hn (Ht & Hp & _). unfold tokens_ok, Tokens.increment_token. simpl. rewrite Ht. split; [|split; [done|lia]].
  unfold u32. rewrite Zplus_mod_idemp_l. f_equal. lia.
Qed.

Lemma tokens_ok_start n t : tokens_ok n true t -> tokens_ok n false (Tokens.start t).
Proof.
  intros (Ht & _). unfold tokens_ok, Tokens.start, Tokens.increment_token. simpl. rewrite Ht. split; [|done].
  unfold u32. rewrite Zplus_mod_idemp_l. f_equal. simpl. lia.
Qed.

(** Giving a token back: a task that ends, or the halt of PDU processing. *)
Lemma wp_give_back n h n' h' e (Q : unit -> pdcp_entity_tx -> list tx_event -> Prop) :
  tokens_ok n h (token_mngr e) -> 0 <= n < 2 ^ 32 - 1 -> (n' = n - 1 /\ h' = h /\ 0 < n) \/ (n' = n /\ h = false /\ h' = true) ->
  (forall t, tokens_ok n' h' t -> Q tt (set_token_mngr t e) []) -> wp return_token Q e.
Proof.
  intros (Ht & Hp & Hz) Hn Hcase HQ. assert (0 <= n - Z.b2z h < 2 ^ 32 - 1) as Hr by (destruct h, Hcase as [(_ & _ & ?)|(_ & ? & _)]; simpl; done || lia).
  rewrite u32_small in Ht by lia. unfold return_token, Tokens.return_token. do 3 wp_step. rewrite Ht.
  destruct (Z.eqb_spec (n - Z.b2z h) 0xffffffff) as [?|_]; [lia|]. do 2 wp_step. apply HQ. unfold tokens_ok. simpl.
  assert (n - Z.b2z h - 1 = n' - Z.b2z h') as -> by (destruct Hcase as [(-> & -> & _)|(-> & -> & ->)]; simpl; lia). split; [done|].
  destruct Hcase as [(-> & -> & ?)|(-> & -> & ->)].
  - split.
    + intros [?|Hq]%orb_true_iff; [auto|]. bool_prop. destruct h; simpl in *; [done|lia].
    + intros -> ?. apply orb_true_iff. right. apply Z.eqb_eq. simpl. lia.
  - split; [done|]. intros _ ->. apply orb_true_iff. by right.
Qed.

(** ** The system *)

#[export] Instance security_error_eq_dec : EqDecision security_error.
Proof. solve_decision. Defined.

Definition holds_token (t : tx_task) : bool := match t with task_failure _ => false | _ => true end.
Definition nof_tokens (tasks : list tx_task) : Z := zlen (filter (fun t => holds_token t = true) tasks).

Lemma nof_tokens_cons t tasks : nof_tokens (t :: tasks) = Z.b2z (holds_token t) + nof_tokens tasks.
Proof. unfold nof_tokens. rewrite filter_cons. destruct (holds_token t); simpl; [rewrite zlen_cons|]; lia. Qed.

Lemma nof_tokens_app l k : nof_tokens (l ++ k) = nof_tokens l + nof_tokens k.
Proof. unfold nof_tokens. by rewrite filter_app, zlen_app. Qed.

Lemma nof_tokens_range l : 0 <= nof_tokens l <= zlen l.
Proof.
  induction l as [|t l IH]; [done|]. rewrite nof_tokens_cons, zlen_cons. destruct (holds_token t); simpl; lia.
Qed.

#[export] Instance nof_tokens_proper : Proper ((≡ₚ) ==> (=)) nof_tokens.
Proof. intros l k E. unfold nof_tokens, zlen. by rewrite E. Qed.

Section system.
Context {A : SecurityAlgorithms}.
Implicit Types (G : list (option SecurityEngine.security_engine_impl)) (held sent : gmap Z (list Z)) (e : pdcp_entity_tx).

(** A task carries the SDU of its COUNT, behind the header or already protected. *)
Definition task_ok sent G (cf : pdcp_tx_config) (t : tx_task) : Prop :=
  match t with
  | task_security i => exists sdu, sent !! bi_count i = Some sdu /\ with_header cf (bi_count i) sdu = Some (bi_buf i)
  | task_reordering i => exists sdu, sent !! bi_count i = Some sdu /\ pdu_of G cf (bi_count i) sdu (bi_buf i)
  | task_failure _ => True
  end.

Record sys_inv sent G held (tasks : list tx_task) (halted : bool) e : Prop := {
  ts_tx : tx_inv G held e;
  ts_armed : armed held e;
  ts_held : held ⊆ sent;
  ts_sent : forall c, is_Some (sent !! c) -> 0 <= c < tx_next (st e);
  ts_tasks : Forall (task_ok sent G (cfg e)) tasks;
  ts_max : zlen tasks < 2 ^ 32 - 1;
  ts_tokens : tokens_ok (nof_tokens tasks) halted (token_mngr e);
  ts_stopped : stopped e = true -> halted = true;
  ts_pool : length (sec_engine_pool e) = max_nof_crypto_workers e;
  ts_engines : forall engine, engine ∈ sec_engine_pool e -> engine ∈ G
}.

#[export] Instance tx_sys_inv_proper sent G held : Proper ((≡ₚ) ==> (=) ==> (=) ==> iff) (sys_inv sent G held).
Proof.
  assert (forall t t' h e, t ≡ₚ t' -> sys_inv sent G held t h e -> sys_inv sent G held t' h e) as Hp.
  { intros t t' h e E Hi. assert (zlen t' = zlen t) as El by (unfold zlen; by rewrite E).
    destruct Hi. constructor; rewrite ?El; try done; by rewrite <- E. }
  intros t t' E h ? <- e ? <-. split; by apply Hp.
Qed.

(** Members that none of the window operations touch. *)
Lemma sys_inv_moves sent G held held' tasks h e e' : sys_inv sent G held tasks h e -> moves G held held' e e' -> sys_inv sent G held' tasks h e'.
Proof.
  intros [Hi Ha Hs Hsent ? ? ? ? ? ?] [Hi' (w & s & d & c & ->) Hsub Hn _ Ha']. constructor; try done.
  - by etransitivity.
  - intros c0 Hc. rewrite Hn. by apply Hsent.
Qed.

(** Members that the window does not depend on: tokens, buffered SDUs, notification flags, the buffer size. *)
Definition same_tx e (e' : pdcp_entity_tx) : Prop :=
  cfg e' = cfg e /\ max_nof_crypto_workers e' = max_nof_crypto_workers e /\ stopped e' = stopped e /\ discard_timer e' = discard_timer e /\
  crypto_reordering_timer e' = crypto_reordering_timer e /\ st e' = st e /\ sec_engine_pool e' = sec_engine_pool e /\
  tx_window e' = tx_window e /\ retransmit_id e' = retransmit_id e /\ bearer_id e' = bearer_id e.

Lemma tx_inv_same G held e e' : same_tx e e' -> tx_inv G held e -> tx_inv G held e'.
Proof.
  intros (E1&E2&E3&E4&E5&E6&E7&E8&E9&E10) [Hc Hw Hs Ht Hsp]. constructor; unfold window_size in *; rewrite ?E1, ?E5, ?E6, ?E8; done.
Qed.

Lemma armed_same held e e' : same_tx e e' -> armed held e -> armed held e'.
Proof. intros (E1&E2&E3&E4&E5&E6&E7&E8&E9&E10). unfold armed. by rewrite E1, E3, E4, E6. Qed.

Lemma sys_inv_same_tx sent G held tasks tasks' h h' e e' :
  same_tx e e' -> sys_inv sent G held tasks h e -> Forall (task_ok sent G (cfg e)) tasks' -> zlen tasks' < 2 ^ 32 - 1 ->
  tokens_ok (nof_tokens tasks') h' (token_mngr e') -> (stopped e = true -> h' = true) -> sys_inv sent G held tasks' h' e'.
Proof.
  intros Hs [? ? ? Hsent _ _ _ _ ? ?] Htasks Hmax Htok Hst. pose proof Hs as (E1&E2&E3&E4&E5&E6&E7&E8&E9&E10).
  constructor; rewrite ?E1, ?E2, ?E3, ?E6, ?E7; try done; [by eapply tx_inv_same|by eapply armed_same].
Qed.

(** ** Tasks *)

(** The engine of the worker protects the PDU; the entity takes that for granted. *)
Definition crypto_succeeds e (worker_idx : nat) (i : pdcp_tx_buffer_info) : Prop :=
  match sec_engine_pool e !! worker_idx with
  | Some (Some g) =>
      match SecurityEngine.encrypt_and_protect_integrity g (bi_buf i) (hdr_len_bytes e) (bi_count i) with inl _ => True | inr _ => False end
  | _ => True
  end.

Lemma wp_apply_ciphering G held e w i :
  (w < max_nof_crypto_workers e)%nat -> length (sec_engine_pool e) = max_nof_crypto_workers e -> crypto_succeeds e w i ->
  wp (apply_ciphering_and_integrity_protection w (bi_buf i) (bi_count i)) (fun r e' es => e' = e /\ es = [] /\
    exists engine, engine ∈ sec_engine_pool e /\
      match r with inl pdu => protected (cfg e) engine (bi_buf i) (bi_count i) = Some pdu | inr err => err = engine_failure end) e.
Proof.
  intros Hw Hl Hok. unfold apply_ciphering_and_integrity_protection, crypto_succeeds in *. do 2 wp_step.
  destruct (Nat.leb_spec (max_nof_crypto_workers e) w); [lia|].
  destruct (lookup_lt_is_Some_2 (sec_engine_pool e) w) as [eng Hg]; [lia|].
  wp_step. apply (wp_need _ eng); [done|]. rewrite Hg in Hok. pose proof (list_elem_of_lookup_2 _ _ _ Hg) as Hin. unfold protected.
  destruct eng as [g|].
  - destruct (SecurityEngine.encrypt_and_protect_integrity _ _ _ _) as [pdu|] eqn:E; [|done]. wp_step. split; [done|]. split; [done|].
    exists (Some g). split; [done|]. unfold hdr_len_bytes in E. by rewrite E.
  - destruct (is_srb e) eqn:Es; wp_step; (split; [done|]; split; [done|]; exists None; split; [done|]); [|done].
    unfold is_srb in Es. by rewrite Es.
Qed.

(** Nothing happened but to tokens and tasks. *)
Definition passed sent G held (tasks : list tx_task) h e (e' : pdcp_entity_tx) (es : list tx_event) : Prop :=
  sys_inv sent G held (tasks ++ dispatched es) h e' /\ same_tx e e' /\ pdus es = [] /\ discards es = [].

Lemma same_tx_refl e : same_tx e e.
Proof. done. Qed.

(** The task is replaced by others; its token goes to one of them or back. *)
Lemma wp_task_end sent G held t tasks new h e (Q : unit -> pdcp_entity_tx -> list tx_event -> Prop) :
  sys_inv sent G held (t :: tasks) h e -> holds_token t = true -> nof_tokens new = 0 -> zlen new <= 1 -> Forall (task_ok sent G (cfg e)) new ->
  (forall e', sys_inv sent G held (tasks ++ new) h e' -> same_tx e e' -> Q tt e' []) -> wp return_token Q e.
Proof.
  intros Hi Ht Hn Hl Hok HQ. pose proof (ts_tokens _ _ _ _ _ _ Hi) as Htok. pose proof (ts_max _ _ _ _ _ _ Hi) as Hm.
  rewrite nof_tokens_cons, Ht in Htok. rewrite zlen_cons in Hm. simpl in Htok. pose proof (nof_tokens_range tasks).
  eapply (wp_give_back _ _ (nof_tokens tasks) h); [exact Htok|lia|left; split; [lia|split; [done|lia]]|]. intros t' Ht'.
  apply HQ; [|done]. apply (sys_inv_same_tx sent G held (t :: tasks) _ h _ e); try done.
  - pose proof (ts_tasks _ _ _ _ _ _ Hi) as Ha. apply Forall_cons in Ha as [_ Ha]. by apply Forall_app.
  - rewrite zlen_app. lia.
  - rewrite nof_tokens_app, Hn, Z.add_0_r. exact Ht'.
  - apply Hi.
Qed.

Lemma wp_tx_apply_security sent G held i tasks h e w accepted :
  sys_inv sent G held (task_security i :: tasks) h e -> (w < max_nof_crypto_workers e)%nat -> crypto_succeeds e w i ->
  wp (apply_security w accepted i) (fun _ e' es => passed sent G held tasks h e e' es) e.
Proof.
  intros Hi Hw Hok. unfold apply_security. wp_step. eapply wp_mono; [apply (wp_apply_ciphering G held); [done|apply Hi|done]|]. cbv beta.
  intros r e1 es1 (-> & -> & engine & Hin & Hr). cbn [app].
  pose proof (proj1 (Forall_cons _ _ _) (ts_tasks _ _ _ _ _ _ Hi)) as [(sdu & Hs & Hh) Hall].
  destruct r as [pdu|err].
  - destruct accepted.
    + wp_step. unfold passed. simpl. split; [|done]. apply (sys_inv_same_tx sent G held (task_security i :: tasks) _ h _ e); try done.
      * apply Forall_app. split; [done|]. apply Forall_singleton. exists sdu. split; [done|]. exists engine, (bi_buf i).
        split; [by eapply ts_engines|done].
      * rewrite zlen_app. pose proof (ts_max _ _ _ _ _ _ Hi) as Hm. rewrite zlen_cons in Hm. change (zlen [_]) with 1. lia.
      * rewrite nof_tokens_app, Z.add_comm. pose proof (ts_tokens _ _ _ _ _ _ Hi) as Ht. by rewrite nof_tokens_cons in Ht.
      * apply Hi.
    + by eapply (wp_task_end sent G held _ tasks []).
  - destruct accepted; cbn [when]; wp_step; wp_step; cbn [app].
    + eapply (wp_task_end sent G held _ tasks [task_failure err]); try done. by apply Forall_singleton.
    + by eapply (wp_task_end sent G held _ tasks []).
Qed.

Lemma wp_tx_handle_failure sent G held err tasks h e :
  sys_inv sent G held (task_failure err :: tasks) h e -> wp (handle_failure err) (fun _ e' es => passed sent G held tasks h e e' es) e.
Proof.
  intros Hi. unfold handle_failure. wp_step. unfold passed. simpl. rewrite app_nil_r. split; [|done].
  pose proof (proj1 (Forall_cons _ _ _) (ts_tasks _ _ _ _ _ _ Hi)) as [_ Hall]. pose proof (ts_max _ _ _ _ _ _ Hi) as Hm. rewrite zlen_cons in Hm.
  apply (sys_inv_same_tx sent G held (task_failure err :: tasks) _ h _ e); try done; [lia|apply (ts_tokens _ _ _ _ _ _ Hi)|apply Hi].
Qed.

Lemma wp_tx_apply_reordering sent G held i tasks h e now :
  sys_inv sent G held (task_reordering i :: tasks) h e -> (takes e i = true -> no_gap e (tx_trans_crypto (st e))) ->
  wp (apply_reordering now i) (fun _ e' es => sys_inv sent G held tasks h e' /\ discards es = [] /\ dispatched es = [] /\
    (exists e1, moves G held held e e1 /\ same_tx e1 e') /\
    if takes e i then reordered e i e' es else st e' = st e /\ es = []) e.
Proof.
  intros Hi Hgap. unfold apply_reordering. wp_step.
  pose proof (proj1 (Forall_cons _ _ _) (ts_tasks _ _ _ _ _ _ Hi)) as [(sdu & Hs & Hp) Hall].
  pose proof (ts_sent _ _ _ _ _ _ Hi (bi_count i) ltac:(eauto)) as Hc. pose proof (so_next _ _ (ti_st _ _ _ (ts_tx _ _ _ _ _ _ Hi))).
  eapply wp_mono; [apply (wp_tx_apply_reordering_body G held); [apply Hi|apply Hi|lia| |exact Hgap]|].
  { intros sdu' Hh. pose proof (lookup_weaken _ _ _ _ Hh (ts_held _ _ _ _ _ _ Hi)). by simplify_eq. }
  cbv beta. intros _ e1 es1 (Hmv & Hd1 & Hd2 & Hx).
  eapply (wp_task_end sent G held _ tasks [] h e1); [by eapply sys_inv_moves|done|done|done|done|].
  intros e' Hi' Hs'. rewrite app_nil_r in *. split; [done|]. split; [done|]. split; [done|]. split; [by exists e1|].
  pose proof Hs' as (_&_&_&_&E5&E6&_). destruct (takes e i); [|by destruct Hx as [-> ->]].
  destruct Hx as (k & H1 & H2 & H3 & H4). exists k. rewrite E5, E6. done.
Qed.
End system.
