(* ===== verification/PdcpTxSend.v ===== *)
(** * PDCP transmitting entity: taking SDUs

    An SDU that passes the checks of [handle_sdu] gets the next COUNT, enters the window and goes to
    the crypto workers behind its header. *)

From S2P Require Import Prelude Effects Window Timers BitEncoding PdcpSn Ciphering Security PdcpBase PdcpTx PdcpTxFacts PdcpTxInv PdcpTxDiscard PdcpTxReorder PdcpTxSystem.
Import PdcpTx.
Open Scope Z_scope.
Open Scope entity_scope.

Section send.
Context {A : SecurityAlgorithms}.
Implicit Types (G : list (option SecurityEngine.security_engine_impl)) (held sent : gmap Z (list Z)) (e : pdcp_entity_tx).

(** The clock has not passed the SDUs of the window by more than half its range. *)
Definition clock_ok (now : Z) e : Prop :=
  0 <= now < 2 ^ 32 /\
  (is_finite (discard_timer_cfg (cfg e)) = true -> Forall (fun c => match tick_at e c with Some t => u32 (now - t) <= MAX_TIMER_DURATION | None => True end)
    (seqZ (tx_next_ack (st e)) (tx_next (st e) - tx_next_ack (st e)))).

(** There is a COUNT left and a slot of the window for it. *)
Definition has_room e (n : Z) : Prop :=
  tx_next (st e) + n <= hard (max_count (cfg e)) /\
  (is_configured (cfg e) = true -> tx_next (st e) - tx_next_ack (st e) + n <= window_size e).

Lemma clock_ok_at G held now e c el t t' :
  tx_inv G held e -> clock_ok now e -> is_finite (discard_timer_cfg (cfg e)) = true ->
  CircularMap.lookup (tw_map (tx_window e)) c = Some el -> tick_point_of_arrival (sdu_info el) = Some t -> t' = now ->
  u32 (t' - t) <= MAX_TIMER_DURATION.
Proof.
  intros Hi [_ Hck] Hf Hl Ht ->. pose proof (wi_held _ _ _ _ _ _ (ti_win _ _ _ Hi) c) as Hh. rewrite Hl in Hh. destruct Hh as (sdu & Hh & _).
  assert (is_configured (cfg e) = true) as Hcfg by (unfold is_configured, is_finite in *; by destruct (discard_timer_cfg _)).
  pose proof (held_ack _ _ _ c Hi Hcfg ltac:(eauto)). pose proof (held_range _ _ _ _ _ Hi Hh).
  specialize (Hck Hf). rewrite Forall_forall in Hck. specialize (Hck c ltac:(apply elem_of_seqZ; lia)). unfold tick_at in Hck. rewrite Hl in Hck. simpl in Hck. by rewrite Ht in Hck.
Qed.

(** The information about a new SDU; the discard timer runs then. *)
Lemma wp_make_sdu_info held e now buf (Q : pdcp_tx_window_sdu_info -> pdcp_entity_tx -> list tx_event -> Prop) :
  config_ok (cfg e) -> armed held e -> 0 <= now < 2 ^ 32 ->
  (forall info d, elem_ok [] (cfg e) (tx_next (st e)) buf (mk_element info [] (zlen buf)) ->
     tick_point_of_arrival info = (if is_finite (discard_timer_cfg (cfg e)) then Some now else None) ->
     (is_finite (discard_timer_cfg (cfg e)) = is_running d) ->
     Q info (set_discard_timer d e) []) ->
  wp (make_sdu_info now buf) Q e.
Proof.
  intros Hcf [Hfin _] Hnow HQ. unfold make_sdu_info. do 2 wp_step.
  assert (set_discard_timer (discard_timer e) e = e) as Ee by by destruct e.
  assert (forall d, discard_timer_cfg (cfg e) = d -> is_finite d = false -> is_running (discard_timer e) = false) as Hnr.
  { intros d <- Hf. destruct (is_running _); [|done]. by rewrite Hfin in Hf. }
  destruct (discard_timer_cfg (cfg e)) as [d|] eqn:Hd.
  2:{ wp_step. rewrite <- Ee. apply HQ; [|done|by rewrite (Hnr None)]. constructor; simpl; unfold is_configured; rewrite ?Hd; auto; done. }
  pose proof (proj1 (proj2 (proj2 Hcf))) as Hdr. rewrite Hd in Hdr.
  set (info := mk_tx_sdu_info _ _ _).
  assert (elem_ok [] (cfg e) (tx_next (st e)) buf (mk_element info [] (zlen buf))) as Hel.
  { constructor; simpl; auto.
    - intros _ Ham. unfold is_am. by rewrite Ham.
    - rewrite Hd. unfold is_finite. intros Hf. apply negb_true_iff in Hf. rewrite Hf. eauto. }
  assert (tick_point_of_arrival info = if is_finite (Some d) then Some now else None) as Htk.
  { simpl. by destruct (d =? discard_timer_infinity). }
  wp_step. change (negb (d =? discard_timer_infinity)) with (is_finite (Some d)). destruct (is_finite (Some d)) eqn:Hf; cbn [andb].
  - destruct (is_running (discard_timer e)) eqn:Hr; cbn [negb when].
    + do 2 wp_step. rewrite <- Ee. apply HQ; [done|done|by rewrite Hr].
    + apply wp_start_discard_timer.
      { unfold is_finite in Hf. apply negb_true_iff, Z.eqb_neq in Hf. destruct Hdr as [|?]; [done|]. rewrite u32_small; unfold MAX_TIMER_DURATION; lia. }
      intros t Ht. wp_step. cbn [app]. apply HQ; [done|done|by rewrite Ht].
  - cbn [when]. do 2 wp_step. rewrite <- Ee. apply HQ; [done|done|]. by rewrite (Hnr (Some d)).
Qed.

(** An element is not affected by the engines while it holds no PDU. *)
Lemma elem_ok_engines G cf c sdu info n : elem_ok [] cf c sdu (mk_element info [] n) -> elem_ok G cf c sdu (mk_element info [] n).
Proof. intros []. constructor; auto. Qed.

Lemma wp_tx_write_header e buf count (Q : option (list Z) -> pdcp_entity_tx -> list tx_event -> Prop) :
  config_ok (cfg e) -> (forall pdu, with_header (cfg e) count buf = Some pdu -> Q (Some pdu) e []) ->
  wp (write_data_pdu_header buf (SN e count)) Q e.
Proof.
  intros (Hs & Hsrb & _) HQ. unfold write_data_pdu_header. do 3 wp_step. apply wp_assert.
  { unfold is_srb. destruct (rb_type (cfg e)); [|done]. by destruct Hsrb as [-> _]. }
  wp_step. cbn [app]. unfold with_header in HQ. change (bool_decide (rb_type (cfg e) = rb_srb)) with (is_srb e) in HQ.
  change (pdcp_compute_sn count (sn_size (cfg e))) with (SN e count) in HQ.
  destruct (data_pdu_header (is_srb e) (sn_size (cfg e)) (SN e count)) eqn:Eh; [by apply HQ|].
  unfold data_pdu_header in Eh. by destruct (sn_size (cfg e)).
Qed.

(** The entity with one SDU more. *)
Definition queued e (w : pdcp_tx_window) (d : unique_timer) (t : pdcp_crypto_token_manager) : pdcp_entity_tx :=
  set_tx_next (tx_next (st e) + 1) (set_token_mngr t (set_tx_window w (set_discard_timer d e))).

(** The window and the timer take the SDU. *)
Lemma wp_enter_window G held e now buf (m : pdcp_entity_tx -> H unit) (Q : unit -> pdcp_entity_tx -> list tx_event -> Prop) :
  tx_inv G held e -> armed held e -> clock_ok now e -> has_room e 1 ->
  (forall w d, (forall t, tx_inv G (added (cfg e) held (tx_next (st e)) buf) (queued e w d t)) ->
     (forall t, armed (added (cfg e) held (tx_next (st e)) buf) (queued e w d t)) ->
     (forall t, clock_ok now (queued e w d t)) -> wp (m (set_discard_timer d e)) Q (set_tx_window w (set_discard_timer d e))) ->
  wp (let! info := make_sdu_info now buf in let! e := get in
      let! w := PdcpTxWindow.add_sdu (tx_window e) info (zlen buf) in modify (set_tx_window w) ;;; m e) Q e.
Proof.
  intros Hi Ha Hck [Hmax Hroom] HQ. pose proof (ti_cfg _ _ _ Hi) as Hcf. pose proof Hcf as (_ & _ & _ & Hhard & _).
  pose proof (ti_st _ _ _ Hi) as Hst. pose proof (so_ack _ _ Hst). set (n := tx_next (st e)) in *. set (h' := added (cfg e) held n buf) in *.
  assert (is_finite (discard_timer_cfg (cfg e)) = true -> is_configured (cfg e) = true) as Hfc
    by (unfold is_configured, is_finite; by destruct (discard_timer_cfg _)).
  wp_step. apply (wp_make_sdu_info held); [done|done|apply Hck|]. intros info d Hel Htk Hrun. do 3 wp_step. cbn [app].
  assert (is_configured (cfg e) = true -> held !! (n - window_size e) = None) as Hev.
  { intros Hc. specialize (Hroom Hc). destruct (held !! _) eqn:Eh; [|done]. pose proof (held_ack _ _ _ (n - window_size e) Hi Hc ltac:(eauto)). lia. }
  eapply (wp_window_add G (cfg e) held); [done|apply Hi|fold n; lia|fold n; lia|apply elem_ok_engines, Hel|exact Hev| |].
  { intros c el t t' Hl Ht Ht'. destruct (is_finite _) eqn:Hf; [|by rewrite Htk in Ht'].
    eapply clock_ok_at; [exact Hi|exact Hck|done|exact Hl|exact Ht|congruence]. }
  intros w Hw Hwn. do 2 wp_step. fold n h' in Hw, Hwn. apply HQ; intros t.
  - constructor; try done; [|apply Hi|].
    + destruct Hst as [? ? ? ? ? Hr]. constructor; simpl; try done; try lia. intros Hrn. specialize (Hr Hrn). lia.
    + intros Hc. specialize (Hroom Hc). unfold window_size in *. simpl. fold n. lia.
  - split; simpl; [by rewrite <- Hrun|]. intros Hs Hf Hlt. rewrite <- Hrun. split; [|done]. fold n in Hlt |- *.
    unfold h', added. destruct (Z.eq_dec n (tx_next_ack (st e))) as [<-|Hne]; [rewrite lookup_insert_eq; eauto|].
    rewrite lookup_insert_ne, delete_id by (done || by apply Hev, Hfc). by apply (proj2 Ha); [|done|lia].
  - split; [apply Hck|]. simpl. fold n. intros Hf. apply Forall_forall. intros c Hc%elem_of_seqZ.
    destruct (tick_at _ c) as [t0|] eqn:Et; [|done]. unfold tick_at in Et. simpl in Et. apply bind_Some in Et as (el & Hl & Ht).
    assert (tick_point_of_arrival info = Some now) as Hti by by rewrite Htk, Hf.
    destruct (Z.eq_dec c n) as [->|Hne].
    + rewrite Hl in Hwn. injection Hwn as ->. simpl in Ht. rewrite Hti in Ht. injection Ht as <-. by rewrite Z.sub_diag.
    + eapply (wi_ticks _ _ _ _ _ _ Hw c n); [lia|exact Hl|exact Hwn|exact Ht|exact Hti].
Qed.

(** The task for the crypto workers, unless their queue is full. *)
Definition sdu_task e (accepted : bool) (pdu : list Z) : list tx_task :=
  if accepted then [task_security (mk_buffer_info false (retransmit_id e) (tx_next (st e)) pdu)] else [].

(** An SDU enters: the next COUNT, the window, the tasks. *)
Definition enters sent G held (tasks : list tx_task) h e now (accepted : bool) (buf : list Z) (e' : pdcp_entity_tx) (es : list tx_event) : Prop :=
  let n := tx_next (st e) in
  sys_inv (<[n := buf]> sent) G (added (cfg e) held n buf) (tasks ++ dispatched es) h e' /\
  clock_ok now e' /\ pdus es = [] /\ discards es = [] /\
  (exists pdu, with_header (cfg e) n buf = Some pdu /\ dispatched es = sdu_task e accepted pdu) /\
  exists w d t notified overflow, e' = set_max_count_flags notified overflow (queued e w d t).

Lemma task_ok_insert sent G cf n buf t : (forall c, is_Some (sent !! c) -> c < n) -> task_ok sent G cf t -> task_ok (<[n := buf]> sent) G cf t.
Proof.
  intros Hlt. assert (forall c sdu, sent !! c = Some sdu -> <[n := buf]> sent !! c = Some sdu) as Hk.
  { intros c sdu Hc. rewrite lookup_insert_ne; [done|]. specialize (Hlt c ltac:(eauto)). lia. }
  destruct t; simpl; [| |done]; intros (sdu & Hs & ?); exists sdu; auto.
Qed.

Lemma wp_transmit_sdu sent G held tasks h e now accepted buf :
  sys_inv sent G held tasks h e -> zlen tasks < 2 ^ 32 - 2 -> clock_ok now e -> has_room e 1 ->
  wp (transmit_sdu now accepted buf) (fun _ e' es => enters sent G held tasks h e now accepted buf e' es) e.
Proof.
  intros Hi Hmax Hck Hroom. pose proof (ts_tx _ _ _ _ _ _ Hi) as Htx. pose proof (ti_cfg _ _ _ Htx) as Hcf.
  pose proof Hcf as (_ & _ & _ & Hhard & _). pose proof (proj1 Hroom) as Hmaxc. pose proof (so_ack _ _ (ti_st _ _ _ Htx)) as Hack.
  unfold transmit_sdu. apply (wp_enter_window G held); [done|apply Hi|done|done|]. intros w d Htx' Harm' Hck'.
  set (e1 := set_discard_timer d e). change (tx_next (st e1)) with (tx_next (st e)). set (n := tx_next (st e)) in *.
  change (SN e1 n) with (SN (set_tx_window w e1) n). wp_step. apply wp_tx_write_header; [done|]. intros pdu Hpdu. simpl in Hpdu.
  do 2 wp_step. unfold take_token. do 4 wp_step. change (tx_next (st (set_token_mngr _ _))) with n. rewrite u32_small by lia.
  pose proof (ts_tokens _ _ _ _ _ _ Hi) as Htok. pose proof (nof_tokens_range tasks) as Hnt.
  set (e2 := set_tx_next (n + 1) _).
  assert (forall t new, (new = sdu_task e accepted pdu) -> tokens_ok (nof_tokens (tasks ++ new)) h t ->
    sys_inv (<[n := buf]> sent) G (added (cfg e) held n buf) (tasks ++ new) h (set_token_mngr t e2)) as Hinv.
  { intros t new -> Ht. destruct Hi as [? ? Hsub Hsent Htk ? ? ? ? ?].
    assert (Forall (task_ok (<[n := buf]> sent) G (cfg e)) tasks) as Hall.
    { eapply Forall_impl; [exact Htk|]. intros. apply task_ok_insert; [|done]. intros c Hc. apply Hsent in Hc. lia. }
    constructor; try done; [apply (Htx' t)|apply (Harm' t)|..].
    - unfold added. apply insert_mono. etransitivity; [apply delete_subseteq|done].
    - intros c [sdu Hc]. simpl. apply lookup_insert_Some in Hc as [[<- _]|[_ Hc]]; [lia|]. specialize (Hsent c ltac:(eauto)). fold n in Hsent. lia.
    - apply Forall_app. split; [done|]. unfold sdu_task. destruct accepted; [|done]. apply Forall_singleton. exists buf. simpl.
      by rewrite lookup_insert_eq.
    - rewrite zlen_app. unfold sdu_task. destruct accepted; [change (zlen [_]) with 1|change (zlen []) with 0]; lia. }
  assert (forall t es, dispatched es = sdu_task e accepted pdu -> pdus es = [] -> discards es = [] ->
    tokens_ok (nof_tokens (tasks ++ dispatched es)) h t -> enters sent G held tasks h e now accepted buf (set_token_mngr t e2) es) as Hfin.
  { intros t es Hd Hp Hdi Ht. split; [by apply Hinv|]. split; [apply (Hck' t)|]. split; [done|]. split; [done|]. split; [eauto|]. by exists w, d, t, (max_count_notified e), (max_count_overflow e). }
  pose proof (tokens_ok_increment _ _ _ (proj1 Hnt) Htok) as Htok2.
  wp_step. destruct accepted; cbn [negb when execute_crypto].
  - do 2 wp_step. cbn [app]. apply (Hfin (token_mngr e2)); try done. by rewrite nof_tokens_app.
  - eapply (wp_give_back (nof_tokens tasks + 1) h (nof_tokens tasks) h); [exact Htok2|lia|left; split; [lia|split; [done|lia]]|].
    intros t Ht. wp_step. cbn [app]. apply Hfin; try done. simpl. by rewrite app_nil_r.
Qed.

(** The checks of [handle_sdu]. *)
Definition sdu_enters e (buf : list Z) : bool :=
  negb (stopped e) && negb (buffering e) && negb (negb (is_srb e) && negb (match check_early_drop e buf with no_drop => true | _ => false end)) &&
  negb (hard (max_count (cfg e)) <=? tx_next (st e)).

(** SRBs are not subject to the early drop: their window must not be full. *)
Definition srb_room e (n : Z) : Prop :=
  is_srb e = true -> is_configured (cfg e) = true -> tx_next (st e) - tx_next_ack (st e) + n <= window_size e.

Lemma enters_has_room G held e buf : tx_inv G held e -> srb_room e 1 -> sdu_enters e buf = true -> has_room e 1.
Proof.
  intros Hi Hsrb H1. unfold sdu_enters in H1. bool_prop. split; [lia|]. intros Hcfg. destruct (is_srb e) eqn:Es; [by apply Hsrb|].
  pose proof (so_ack _ _ (ti_st _ _ _ Hi)). pose proof (so_next _ _ (ti_st _ _ _ Hi)). pose proof (ti_cfg _ _ _ Hi) as [Hs _].
  pose proof (sn_size_facts _ Hs) as (_ & _ & _ & _ & HW).
  match goal with Hd : negb true && _ = _ |- _ => idtac | Hd : negb false && negb (match _ with _ => _ end) = false |- _ => revert Hd end.
  unfold check_early_drop. destruct (_ =? 0); [done|]. cbv zeta. destruct (_ <? _); [done|].
  destruct (Z.leb_spec (window_size e - 1) (u32 (tx_next (st e) - tx_next_ack (st e)))) as [|Hlt]; [done|]. intros _.
  rewrite u32_small in Hlt by lia. lia.
Qed.

Definition unchanged sent G held (tasks : list tx_task) h e (e' : pdcp_entity_tx) (es : list tx_event) : Prop :=
  sys_inv sent G held tasks h e' /\ same_tx e e' /\ quiet es /\ (buffering e = false -> buffering e' = false /\ sdu_buffer e' = sdu_buffer e).

Lemma unchanged_same sent G held tasks h e e' es : sys_inv sent G held tasks h e -> same_tx e e' -> token_mngr e' = token_mngr e -> quiet es ->
  (buffering e = false -> buffering e' = false /\ sdu_buffer e' = sdu_buffer e) -> unchanged sent G held tasks h e e' es.
Proof.
  intros Hi Hs Ht Hq Hb. split; [|done]. apply (sys_inv_same_tx sent G held tasks tasks h h e); try done; [apply Hi|apply Hi|rewrite Ht; apply Hi|apply Hi].
Qed.

Lemma wp_tx_handle_sdu sent G held tasks h e now accepted buf :
  sys_inv sent G held tasks h e -> zlen tasks < 2 ^ 32 - 2 -> clock_ok now e -> srb_room e 1 ->
  wp (handle_sdu now accepted buf) (fun _ e' es =>
    if sdu_enters e buf then enters sent G held tasks h e now accepted buf e' es else unchanged sent G held tasks h e e' es) e.
Proof.
  intros Hi Hmax Hck Hsrb. pose proof (enters_has_room G held e buf (ts_tx _ _ _ _ _ _ Hi) Hsrb) as Hroom.
  unfold handle_sdu, sdu_enters in *. do 4 wp_step.
  destruct (stopped e) eqn:Est; cbn [negb andb] in *; [wp_step; by apply unchanged_same|].
  destruct (buffering e) eqn:Eb; cbn [negb andb] in *.
  { wp_step; [wp_step|]; apply unchanged_same; try done; by rewrite Eb. }
  destruct (negb (is_srb e) && _); cbn [negb andb] in *; [wp_step; by apply unchanged_same|].
  destruct (Z.leb_spec (hard (max_count (cfg e))) (tx_next (st e))); cbn [negb] in *.
  { destruct (max_count_overflow e); cbn [negb when]; [wp_step; by apply unchanged_same|]. do 5 wp_step. by apply unchanged_same. }
  specialize (Hroom eq_refl). wp_step.
  apply (wp_mono _ (fun _ e1 es1 => quiet es1 /\ exists b, e1 = set_max_count_flags b (max_count_overflow e) e)).
  { destruct (_ && _); cbn [when]; [do 3 wp_step; split; [done|]; by exists true|]. wp_step. split; [done|]. exists (max_count_notified e). by destruct e. }
  cbv beta. intros _ e1 es1 ((Q1 & Q2 & Q3) & b & ->). set (e1 := set_max_count_flags _ _ e).
  assert (sys_inv sent G held tasks h e1) as Hi1.
  { apply (sys_inv_same_tx sent G held tasks tasks h h e); try done; apply Hi. }
  eapply wp_mono; [by apply (wp_transmit_sdu sent G held tasks h e1)|]. cbv beta. intros _ e' es (H1 & H2 & H3 & H4 & H5 & w & d & t & nt & ov & ->).
  unfold enters. change (dispatched (metrics_add_sdus 1 (zlen buf) :: es1 ++ es)) with (dispatched (es1 ++ es)).
  change (pdus (metrics_add_sdus 1 (zlen buf) :: es1 ++ es)) with (pdus (es1 ++ es)).
  change (discards (metrics_add_sdus 1 (zlen buf) :: es1 ++ es)) with (discards (es1 ++ es)).
  rewrite pdus_app, discards_app, tx_dispatched_app, Q1, Q2, Q3. split; [exact H1|]. split; [done|]. split; [done|]. split; [done|]. split; [exact H5|].
  by exists w, d, t, nt, ov.
Qed.

(** ** Flushing the buffered SDUs *)

Definition sent_after sent e (buf : list Z) : gmap Z (list Z) := if sdu_enters e buf then <[tx_next (st e) := buf]> sent else sent.

(** The SDUs sent after the flush: those buffered enter in order, unless a check drops them. *)
Fixpoint sent_flushed (now : Z) (accepted : nat -> bool) (n : nat) (bufs : list (list Z)) sent e : gmap Z (list Z) :=
  match bufs with
  | [] => sent
  | buf :: bufs' =>
      let e0 := set_buffer (buffering e) bufs' e in
      match handle_sdu now (accepted n) buf e0 with
      | Ok (_, e', _) => sent_flushed now accepted (Datatypes.S n) bufs' (sent_after sent e0 buf) e'
      | Fault _ => sent
      end
  end.

(** SDUs enter, nothing is handed over. *)
Definition sends G tasks h e sent' (e' : pdcp_entity_tx) (es : list tx_event) : Prop :=
  (exists held', sys_inv sent' G held' (tasks ++ dispatched es) h e') /\ pdus es = [] /\ discards es = [] /\
  tx_trans_crypto (st e') = tx_trans_crypto (st e) /\ tx_next (st e) <= tx_next (st e') /\ cfg e' = cfg e.

Lemma wp_handle_sdu_sends sent G held tasks h e now accepted buf n :
  sys_inv sent G held tasks h e -> zlen tasks + n < 2 ^ 32 - 2 -> 0 < n -> clock_ok now e -> srb_room e n ->
  wp (handle_sdu now accepted buf) (fun _ e' es => sends G tasks h e (sent_after sent e buf) e' es /\
    zlen (dispatched es) <= 1 /\ clock_ok now e' /\ srb_room e' (n - 1) /\
    (buffering e = false -> buffering e' = false /\ sdu_buffer e' = sdu_buffer e)) e.
Proof.
  intros Hi Hmax Hn Hck Hsrb. eapply wp_mono; [apply (wp_tx_handle_sdu sent G held tasks h e now accepted buf Hi); [lia|done|]|].
  { intros H1 H2. specialize (Hsrb H1 H2). lia. }
  cbv beta. intros _ e' es. unfold sent_after. destruct (sdu_enters e buf).
  - intros (H1 & H2 & H3 & H4 & (pdu & _ & H5) & w & d & t & nt & ov & ->). pose proof (ts_tx _ _ _ _ _ _ H1) as Hx.
    split; [|split; [|split; [done|split]]].
    + split; [eauto|]. split; [done|]. split; [done|]. split; [done|]. simpl. split; [lia|done].
    + rewrite H5. unfold sdu_task. by destruct accepted.
    + intros Hs Hc. specialize (Hsrb Hs Hc). unfold window_size in *. simpl in *. lia.
    + done.
  - intros (H1 & H2 & (Q1 & Q2 & Q3) & H3). pose proof H2 as (E1&E2&E3&E4&E5&E6&E7&E8&E9&E10).
    split; [|split; [by rewrite Q3|split; [|split; [|done]]]].
    + split; [rewrite Q3, app_nil_r; eauto|]. rewrite E6. split; [done|]. split; [done|]. split; [done|]. split; [lia|done].
    + unfold clock_ok, tick_at in *. by rewrite E1, E6, E8.
    + unfold srb_room, is_srb, window_size in *. rewrite E1, E6. intros Hs Hc. specialize (Hsrb Hs Hc). lia.
Qed.

Lemma sent_after_grows sent G held tasks h e buf c sdu : sys_inv sent G held tasks h e -> sent !! c = Some sdu -> sent_after sent e buf !! c = Some sdu.
Proof.
  intros Hi Hc. unfold sent_after. destruct (sdu_enters e buf); [|done]. rewrite lookup_insert_ne; [done|].
  pose proof (ts_sent _ _ _ _ _ _ Hi c ltac:(eauto)). lia.
Qed.

Lemma wp_flush G now accepted h bufs : forall n sent held tasks e,
  sdu_buffer e = bufs -> buffering e = false -> sys_inv sent G held tasks h e -> zlen tasks + zlen bufs < 2 ^ 32 - 2 ->
  clock_ok now e -> srb_room e (zlen bufs) ->
  wp (while_loop (Datatypes.S (length bufs)) (flush_step now accepted) n)
    (fun _ e' es => sends G tasks h e (sent_flushed now accepted n bufs sent e) e' es /\
      (forall c sdu, sent !! c = Some sdu -> sent_flushed now accepted n bufs sent e !! c = Some sdu) /\
      sdu_buffer e' = [] /\ buffering e' = false /\ zlen (dispatched es) <= zlen bufs) e.
Proof.
  induction bufs as [|buf bufs IH]; intros n sent held tasks e Hb Hbuf Hi Hmax Hck Hsrb; cbn [while_loop length sent_flushed];
    unfold flush_step at 1; do 3 wp_step; rewrite Hb.
  - do 2 wp_step. split; [|done]. unfold sends. simpl. rewrite app_nil_r. split; [eauto|]. split; [done|]. split; [done|]. split; [done|]. split; [lia|done].
  - rewrite zlen_cons in *. pose proof (zlen_nonneg bufs). do 3 wp_step. set (e0 := set_buffer (buffering e) bufs e).
    assert (sys_inv sent G held tasks h e0) as Hi0 by (apply (sys_inv_same_tx sent G held tasks tasks h h e); try done; apply Hi).
    pose proof (wp_handle_sdu_sends sent G held tasks h e0 now (accepted n) buf (zlen bufs + 1) Hi0 ltac:(lia) ltac:(lia) Hck Hsrb) as Hw.
    unfold wp in Hw at 1. unfold wp at 1. destruct (handle_sdu now (accepted n) buf e0) as [[[[] e1] es1]|]; [|done].
    destruct Hw as (((held1 & Hi1) & P1 & D1 & T1 & N1 & C1) & Hl & Hck1 & Hsrb1 & Hb1). destruct (Hb1 Hbuf) as [B1 B2]. simpl in B2.
    wp_step. replace (zlen bufs + 1 - 1) with (zlen bufs) in Hsrb1 by lia. cbn [app].
    eapply wp_mono; [apply (IH (Datatypes.S n) _ _ _ e1 B2 B1 Hi1); [rewrite zlen_app; lia|done|done]|].
    cbv beta. intros _ e2 es2 (((held2 & Hi2) & P2 & D2 & T2 & N2 & C2) & Hsub & F1 & F2 & F3). rewrite app_nil_r.
    split; [|split; [intros c sdu Hc; apply Hsub; by eapply sent_after_grows|split; [done|split; [done|rewrite tx_dispatched_app, zlen_app; lia]]]].
    unfold sends. rewrite pdus_app, discards_app, tx_dispatched_app, P1, P2, D1, D2.
    split; [exists held2; by rewrite app_assoc|]. split; [done|]. split; [done|]. simpl in *. split; [congruence|]. split; [lia|congruence].
Qed.

Definition opened e : pdcp_entity_tx := set_buffer false (sdu_buffer e) e.

Lemma wp_tx_end_buffering sent G held tasks h e now accepted :
  sys_inv sent G held tasks h e -> zlen tasks + zlen (sdu_buffer e) < 2 ^ 32 - 2 -> clock_ok now e -> srb_room e (zlen (sdu_buffer e)) ->
  wp (end_buffering now accepted) (fun _ e' es => let sent' := sent_flushed now accepted 0 (sdu_buffer e) sent (opened e) in
    sends G tasks h e sent' e' es /\ (forall c sdu, sent !! c = Some sdu -> sent' !! c = Some sdu) /\
    sdu_buffer e' = [] /\ buffering e' = false /\ zlen (dispatched es) <= zlen (sdu_buffer e)) e.
Proof.
  intros Hi Hmax Hck Hsrb. unfold end_buffering. do 4 wp_step. cbn [app].
  apply (wp_flush G now accepted h (sdu_buffer e) 0 sent held tasks (opened e)); try done.
  apply (sys_inv_same_tx sent G held tasks tasks h h e); try done; apply Hi.
Qed.
End send.
