(* ===== verification/PdcpTxControl.v ===== *)
(** * PDCP transmitting entity: retransmission and control

    Retransmission of the window, shutdown, halting of PDU processing, security configuration and
    re-establishment. *)

From S2P Require Import Prelude Effects Window Timers BitEncoding PdcpSn Ciphering Security PdcpBase PdcpTx PdcpTxFacts PdcpTxInv PdcpTxDiscard PdcpTxReorder PdcpTxSystem PdcpTxSend.
Import PdcpTx.
Open Scope Z_scope.
Open Scope entity_scope.

Section control.
Context {A : SecurityAlgorithms}.
Implicit Types (G : list (option SecurityEngine.security_engine_impl)) (held sent : gmap Z (list Z)) (e : pdcp_entity_tx).

(** ** Retransmission *)

(** The task for one SDU of the window; for the SDUs of a range, in ascending order. *)
Definition retx_task held e (accepted : Z -> bool) (c : Z) : option tx_task :=
  sdu ← held !! c; buf ← with_header (cfg e) c sdu;
  if accepted c then Some (task_security (mk_buffer_info true (retransmit_id e) c buf)) else None.
Definition retx_tasks held e (accepted : Z -> bool) (a b : Z) : list tx_task := omap (retx_task held e accepted) (seqZ a (b - a)).

Lemma retx_tasks_snoc held e accepted a b : a <= b ->
  retx_tasks held e accepted a (b + 1) = retx_tasks held e accepted a b ++ match retx_task held e accepted b with Some t => [t] | None => [] end.
Proof.
  intros. unfold retx_tasks. replace (b + 1 - a) with ((b - a) + 1) by lia. rewrite seqZ_app, omap_app by lia. f_equal.
  replace (a + (b - a)) with b by lia. rewrite seqZ_cons by lia. change (seqZ (Z.succ b) (Z.pred 1)) with (@nil Z). simpl. by destruct (retx_task _ _ _ b).
Qed.

Lemma retx_tasks_length held e accepted a b : a <= b -> zlen (retx_tasks held e accepted a b) <= b - a.
Proof.
  intros. unfold retx_tasks, zlen. transitivity (Z.of_nat (length (seqZ a (b - a)))); [|rewrite length_seqZ; lia].
  apply inj_le. induction (seqZ a (b - a)) as [|c l IH]; simpl; [done|]. destruct (retx_task _ _ _ c); [apply le_n_S, IH|apply Nat.le_le_succ_r, IH].
Qed.

(** The loop at [k]: the entity is [e0] but for the tokens. *)
Definition retransmitting held (tasks : list tx_task) h e0 (accepted : Z -> bool) (k : Z) (e1 : pdcp_entity_tx) (es : list tx_event) : Prop :=
  exists t, e1 = set_token_mngr t e0 /\ tokens_ok (nof_tokens (tasks ++ dispatched es)) h t /\
    dispatched es = retx_tasks held e0 accepted (tx_next_ack (st e0)) k /\ pdus es = [] /\ discards es = [].

Lemma wp_retransmit_step G held tasks h e0 accepted k e1 es :
  tx_inv G held e0 -> is_configured (cfg e0) = true -> rlc_mode (cfg e0) = mode_am ->
  retransmitting held tasks h e0 accepted k e1 es -> tx_next_ack (st e0) <= k < tx_next (st e0) ->
  zlen tasks + (tx_next (st e0) - tx_next_ack (st e0)) < 2 ^ 32 - 2 ->
  wp (retransmit_step accepted k) (fun r e2 es2 => r = inl (k + 1) /\ retransmitting held tasks h e0 accepted (k + 1) e2 (es ++ es2)) e1.
Proof.
  intros Hi Hcfg Ham (t & -> & Ht & Hd & Hp & Hdi) Hk Hmax.
  pose proof (so_next _ _ (ti_st _ _ _ Hi)). pose proof (so_ack _ _ (ti_st _ _ _ Hi)).
  unfold retransmit_step. do 2 wp_step. simpl tx_next. destruct (Z.ltb_spec k (tx_next (st e0))); [|lia].
  change (has_sn (set_token_mngr t e0) k) with (has_sn e0 k). rewrite (has_sn_tx _ _ _ _ Hi) by lia.
  pose proof (retx_tasks_snoc held e0 accepted (tx_next_ack (st e0)) k ltac:(lia)) as Hsn.
  case_bool_decide as Hs.
  2:{ wp_step. rewrite u32_small by lia. split; [done|]. exists t. rewrite app_nil_r, Hsn. unfold retx_task.
      apply eq_None_not_Some in Hs. rewrite Hs. simpl. by rewrite app_nil_r. }
  pose proof Hs as [sdu Hsdu]. wp_step. eapply wp_tx_index; [apply Hi|lia|exact Hsdu|]. intros el Hel Ho.
  rewrite (eo_sdu _ _ _ _ _ Ho) by done. wp_step. change (SN (set_token_mngr t e0) k) with (SN (set_token_mngr t e0) k).
  apply wp_tx_write_header; [apply Hi|]. intros buf Hbuf. simpl in Hbuf. unfold take_token. do 3 wp_step. cbn [app].
  assert (retx_task held e0 accepted k = if accepted k then Some (task_security (mk_buffer_info true (retransmit_id e0) k buf)) else None) as Hrt.
  { unfold retx_task. rewrite Hsdu. simpl. by rewrite Hbuf. }
  pose proof (nof_tokens_range (tasks ++ dispatched es)) as Hnt. pose proof (tokens_ok_increment _ _ _ (proj1 Hnt) Ht) as Ht2.
  rewrite zlen_app, Hd in Hnt. pose proof (retx_tasks_length held e0 accepted (tx_next_ack (st e0)) k ltac:(lia)).
  change (retransmit_id (set_token_mngr t e0)) with (retransmit_id e0). unfold execute_crypto. destruct (accepted k).
  - do 2 wp_step. rewrite u32_small by lia. split; [done|]. exists (Tokens.increment_token t). rewrite tx_dispatched_app, pdus_app, discards_app, Hp, Hdi, Hsn, Hrt, Hd.
    split; [done|]. split; [|done]. rewrite app_assoc, nof_tokens_app, <- Hd. exact Ht2.
  - eapply wp_give_back; [exact Ht2|rewrite Hd; lia|left; split; [reflexivity|]; split; [done|rewrite Hd; lia]|]. intros t' Ht'.
    wp_step. rewrite app_nil_r, u32_small by lia. split; [done|]. exists t'. rewrite Hsn, Hrt, Hd, app_nil_r in *.
    split; [done|]. split; [|done]. by rewrite Z.add_simpl_r in Ht'.
Qed.

(** The state from which everything is retransmitted. *)
Definition rewound e : pdcp_entity_tx :=
  set_retransmit_id (u16 (retransmit_id e + 1)) (set_tx_trans_crypto (tx_next_ack (st e)) (set_tx_trans (tx_next_ack (st e)) e)).

Definition retransmits e : bool := is_configured (cfg e) && is_am e.

(** The reordering timer must not run for PDUs below TX_NEXT_ACK. *)
Definition retransmit_ok e : Prop :=
  retransmits e = true -> is_running (crypto_reordering_timer e) = true -> tx_next_ack (st e) <= tx_reord_crypto (st e).

Lemma sys_inv_rewound sent G held tasks h e : sys_inv sent G held tasks h e -> retransmit_ok e -> retransmits e = true -> sys_inv sent G held tasks h (rewound e).
Proof.
  intros Hi Hok Hr. specialize (Hok Hr). destruct Hi as [[? ? Hst ? ?] ? ? ? ? ? ? ? ? ?]. constructor; try done. constructor; try done.
  destruct Hst as [? ? ? ? ? Hrun]. constructor; simpl; try done; try lia. intros Hr'. specialize (Hrun Hr'). specialize (Hok Hr'). lia.
Qed.

(** All SDUs of the window go to the crypto workers again, in ascending order of COUNT. *)
Lemma wp_retransmit_all sent G held tasks h e accepted :
  sys_inv sent G held tasks h e -> retransmit_ok e -> zlen tasks < 2 ^ 31 ->
  wp (retransmit_all_pdus accepted) (fun _ e' es => pdus es = [] /\ discards es = [] /\ sys_inv sent G held (tasks ++ dispatched es) h e' /\
    if retransmits e then same_tx (rewound e) e' /\ dispatched es = retx_tasks held (rewound e) accepted (tx_next_ack (st e)) (tx_next (st e))
    else e' = e /\ es = []) e.
Proof.
  intros Hi Hok Hmax. unfold retransmit_all_pdus. do 2 wp_step. unfold retransmits in *.
  assert (is_configured (cfg e) && is_am e = false -> wp (ret tt) (fun _ e' es => pdus es = [] /\ discards es = [] /\
    sys_inv sent G held (tasks ++ dispatched es) h e' /\ e' = e /\ es = []) e) as Hno by (intros _; wp_step; simpl; by rewrite app_nil_r).
  destruct (discard_timer_cfg (cfg e)) as [d|] eqn:Hd.
  2:{ assert (is_configured (cfg e) = false) as Hc by (unfold is_configured; by rewrite Hd). rewrite Hc in *. by apply Hno. }
  assert (is_configured (cfg e) = true) as Hc by (unfold is_configured; by rewrite Hd).
  destruct (is_am e) eqn:Ham; cbn [negb]; rewrite Hc in *; cbn [andb] in *; [|by apply Hno]. clear Hno.
  assert (retransmits e = true) as Hr by (unfold retransmits; by rewrite Hc, Ham).
  do 6 wp_step. cbn [app]. change (set_retransmit_id _ _) with (rewound e).
  pose proof (sys_inv_rewound _ _ _ _ _ _ Hi Hok Hr) as Hi0. set (e0 := rewound e) in *. pose proof (ts_tx _ _ _ _ _ _ Hi0) as Hx0.
  pose proof (so_ack _ _ (ti_st _ _ _ Hx0)) as Hack. pose proof (ti_span _ _ _ Hx0 Hc) as Hspan.
  pose proof (sn_size_facts _ (proj1 (ti_cfg _ _ _ Hx0))) as (_ & _ & _ & _ & HW). unfold window_size in Hspan.
  eapply wp_mono; [apply (wp_while_loop (fun n k e1 es => retransmitting held tasks h e0 accepted k e1 es /\
    tx_next_ack (st e0) <= k <= tx_next (st e0) /\ n = Datatypes.S (Z.to_nat (tx_next (st e0) - k))) _
    (fun _ e1 es => retransmitting held tasks h e0 accepted (tx_next (st e0)) e1 es))|].
  - split; [|split; [simpl in *; lia|done]]. exists (token_mngr e0). split; [done|]. simpl dispatched. rewrite app_nil_r.
    split; [apply Hi0|]. split; [|done]. unfold retx_tasks. by rewrite Z.sub_diag.
  - intros k e1 es (_ & _ & ?). done.
  - intros n k e1 es (Hre & Hk & Hn). destruct (Z.eq_dec k (tx_next (st e0))) as [->|Hne].
    + unfold retransmit_step. do 2 wp_step. pose proof Hre as (t & -> & _). simpl tx_next. rewrite Z.ltb_irrefl. wp_step. by rewrite app_nil_r.
    + eapply wp_mono; [apply (wp_retransmit_step G held tasks h e0); try done; [unfold is_am in Ham; by apply bool_decide_eq_true in Ham|lia|lia]|].
      cbv beta. intros r e2 es2 [-> Hre2]. split; [done|]. lia.
  - cbv beta. intros _ e' es (t & -> & Ht & Hdi & Hp & Hds). split; [done|]. split; [done|]. split; [|by rewrite Hdi].
    pose proof (retx_tasks_length held e0 accepted (tx_next_ack (st e0)) (tx_next (st e0)) (proj2 Hack)) as Hl.
    apply (sys_inv_same_tx sent G held tasks _ h h e0); try done; [|rewrite zlen_app, Hdi; lia|apply Hi0].
    apply Forall_app. split; [apply Hi0|]. rewrite Hdi. apply Forall_forall. intros x Hx.
    apply list_elem_of_omap in Hx as (c & _ & Hx). unfold retx_task in Hx. apply bind_Some in Hx as (sdu & Hs & Hx). apply bind_Some in Hx as (buf & Hb & Hx).
    destruct (accepted c); [|done]. injection Hx as <-. exists sdu. split; [|done]. eapply lookup_weaken; [exact Hs|apply Hi].
Qed.

(** ** Halting and shutdown *)

Lemma wp_tx_halt sent G held tasks e (Q : unit -> pdcp_entity_tx -> list tx_event -> Prop) :
  sys_inv sent G held tasks false e -> (forall e', sys_inv sent G held tasks true e' -> same_tx e e' -> Q tt e' []) -> wp return_token Q e.
Proof.
  intros Hi HQ. pose proof (nof_tokens_range tasks). pose proof (ts_max _ _ _ _ _ _ Hi).
  apply (wp_give_back (nof_tokens tasks) false (nof_tokens tasks) true); [apply Hi|lia|by right|]. intros t Ht. apply HQ; [|done].
  apply (sys_inv_same_tx sent G held tasks tasks false true e); try done; apply Hi.
Qed.

Lemma wp_notify_stopped sent G held tasks h e :
  sys_inv sent G held tasks h e -> h = false \/ stopped e = true ->
  wp notify_pdu_processing_stopped (fun _ e' es => sys_inv sent G held tasks true e' /\ same_tx e e' /\ es = []) e.
Proof.
  intros Hi Hh. unfold notify_pdu_processing_stopped. do 2 wp_step. destruct (stopped e) eqn:Hs; cbn [negb when].
  - wp_step. assert (h = true) as -> by by apply (ts_stopped _ _ _ _ _ _ Hi). done.
  - assert (h = false) as -> by by destruct Hh. by apply (wp_tx_halt sent G held tasks).
Qed.

Lemma wp_restart sent G held tasks e :
  sys_inv sent G held tasks true e -> wp restart_pdu_processing (fun _ e' es => sys_inv sent G held tasks (stopped e) e' /\ same_tx e e' /\ es = []) e.
Proof.
  intros Hi. unfold restart_pdu_processing. do 2 wp_step. destruct (stopped e) eqn:Hs; cbn [negb when]; wp_step; [done|].
  split; [|done]. apply (sys_inv_same_tx sent G held tasks tasks true false e); try done; try apply Hi; [by apply tokens_ok_start, Hi|by rewrite Hs].
Qed.

Definition shut e : pdcp_entity_tx :=
  set_crypto_timer (timer_stop (crypto_reordering_timer e))
    (set_discard_timer (if is_configured (cfg e) then timer_stop (discard_timer e) else discard_timer e)
       (set_tx_window (PdcpTxWindow.clear (tx_window e)) (set_stopped true e))).

Lemma sys_inv_shut sent G held tasks h e : sys_inv sent G held tasks h e -> h = true -> sys_inv sent G ∅ tasks h (shut e).
Proof.
  intros [[? Hw [] ? ?] [Hfin _] Hs ? ? ? ? ? ? ?] Hh. constructor; try done.
  - constructor; try done.
    + by eapply win_inv_clear.
    + constructor; try done. simpl. by rewrite is_running_stop.
    + simpl. by rewrite is_set_stop.
  - split; [|done]. simpl. destruct (is_configured (cfg e)); [by rewrite is_running_stop|done].
  - apply map_empty_subseteq.
Qed.

Lemma wp_tx_stop sent G held tasks h e :
  sys_inv sent G held tasks h e -> h = false \/ stopped e = true ->
  wp stop (fun _ e' es => sys_inv sent G (if stopped e then held else ∅) tasks true e' /\ st e' = st e /\ cfg e' = cfg e /\ stopped e' = true /\ es = []) e.
Proof.
  intros Hi Hh. unfold stop. do 2 wp_step. destruct (stopped e) eqn:Hs; cbn [negb when].
  - wp_step. assert (h = true) as -> by by apply (ts_stopped _ _ _ _ _ _ Hi). done.
  - assert (h = false) as -> by by destruct Hh.
    do 5 wp_step. simpl discard_timer_cfg.
    eapply (wp_mono _ (fun _ e1 es => es = [] /\ e1 = set_discard_timer (if is_configured (cfg e) then timer_stop (discard_timer e) else discard_timer e)
       (set_tx_window (PdcpTxWindow.clear (tx_window e)) (set_stopped true e)))).
    { unfold is_configured. destruct (discard_timer_cfg (cfg e)); cbn [when]; wp_step; done. }
    cbv beta. intros _ e1 es1 (-> & ->). do 2 wp_step. cbn [app]. change (set_crypto_timer _ _) with (shut e).
    pose proof (nof_tokens_range tasks). pose proof (ts_max _ _ _ _ _ _ Hi).
    apply (wp_give_back (nof_tokens tasks) false (nof_tokens tasks) true); [apply Hi|lia|by right|]. intros t Ht.
    split; [|done]. apply (sys_inv_shut sent G held tasks true (set_token_mngr t (set_stopped false e))); [|done].
    destruct Hi as [Htx [Hf Ha] ? ? ? ? ? ? ? ?]. constructor; try done.
    + destruct Htx. by constructor.
    + split; [done|]. simpl. intros _. by apply Ha.
Qed.

(** ** Security configuration *)

Lemma pdu_of_mono G G' cf c sdu pdu : G ⊆ G' -> pdu_of G cf c sdu pdu -> pdu_of G' cf c sdu pdu.
Proof. intros Hs (engine & buf & Hin & ?). exists engine, buf. split; [by apply Hs|done]. Qed.

Lemma sys_inv_engines sent G G' held tasks h e : G ⊆ G' -> sys_inv sent G held tasks h e -> sys_inv sent G' held tasks h e.
Proof.
  intros Hs [[? Hw ? ? ?] ? ? ? Htasks ? ? ? ? He]. constructor; try done.
  - constructor; try done. destruct Hw as [? ? Hh ? ? ?]. constructor; try done. intros c. specialize (Hh c).
    destruct (CircularMap.lookup _ c) as [el|]; [|done]. destruct Hh as (sdu & ? & Ho). exists sdu. split; [done|].
    destruct Ho as [? ? ? ? [Hp|Hp]]; constructor; auto. right. by eapply pdu_of_mono.
  - eapply Forall_impl; [exact Htasks|]. intros []; simpl; [done| |done]. intros (sdu & ? & ?). exists sdu. split; [done|]. by eapply pdu_of_mono.
  - intros engine Hin. by apply Hs, He.
Qed.

Definition security_ok e (sec_cfg : sec_128_as_config) (integ : bool) : Prop :=
  sec_domain_of sec_cfg = (if is_srb e then domain_rrc else domain_up) /\ (integ = true \/ is_srb e = false).

Definition same_but_security e (e' : pdcp_entity_tx) : Prop := exists pool i c, e' = set_security pool i c e.

Lemma wp_tx_configure_security sent G held tasks h e sec_cfg integ ciph :
  sys_inv sent G held tasks h e -> security_ok e sec_cfg integ ->
  wp (configure_security sec_cfg integ ciph)
    (fun _ e' es => sys_inv sent (sec_engine_pool e' ++ G) held tasks h e' /\ same_but_security e e' /\ es = []) e.
Proof.
  intros Hi [Hdom Hint]. unfold configure_security. do 3 wp_step. apply wp_assert; [by rewrite bool_decide_true|].
  assert (same_but_security e e) as Hsame.
  { exists (sec_engine_pool e), (integrity_enabled e), (ciphering_enabled e). by destruct e. }
  assert (forall l, G ⊆ l ++ G) as Hsub by (intros l x Hx; apply elem_of_app; by right).
  wp_step; [wp_step; split; [eapply sys_inv_engines; [apply Hsub|exact Hi]|done]|].
  wp_step. apply wp_assert; [destruct Hint as [Hint|Hint]; rewrite Hint; by rewrite ?orb_true_r|]. wp_step.
  set (dir := match direction (cfg e) with sd_uplink => _ | sd_downlink => _ end).
  destruct (SecurityEngine.create sec_cfg (bearer_id e) dir integ ciph) as [engine|] eqn:Ec.
  - apply (wp_need _ engine); [done|]. wp_step. split; [|split; [by do 3 eexists|done]]. set (pool := repeat _ _).
    pose proof (sys_inv_engines _ _ _ _ _ _ _ (Hsub pool) Hi) as Hi'.
    destruct Hi' as [[] ? ? ? ? ? ? ? ? ?]. constructor; try done.
    + simpl. apply repeat_length.
    + simpl. intros g Hg. apply elem_of_app. by left.
  - exfalso. unfold SecurityEngine.create in Ec. destruct integ; [|done]. by destruct (integ_algo sec_cfg), (k_128_int sec_cfg).
Qed.

(** ** Re-establishment *)

Definition resets e : bool := is_srb e || is_um e.

(** COUNTs start over from an empty window. *)
Lemma sys_inv_fresh sent G held h e c w :
  sys_inv sent G held [] h e -> win_inv G (cfg e) ∅ w c c -> 0 <= c < 2 ^ 32 ->
  sys_inv ∅ G ∅ [] h (set_tx_window w (set_st (mk_state c c c c c) e)).
Proof.
  intros [[Hcf _ _ ? _] [Hf _] ? ? ? ? ? ? ? ?] Hw Hc. constructor; try done.
  - constructor; try done.
    + constructor; simpl; try done; lia.
    + intros _. simpl. pose proof (sn_size_facts _ (proj1 Hcf)) as (_ & _ & _ & _ & HW). unfold window_size. simpl. lia.
  - split; [done|]. simpl. lia.
  - intros c' [? Hx]. by rewrite lookup_empty in Hx.
Qed.

Lemma sys_inv_reset sent G held h e : sys_inv sent G held [] h e -> sys_inv ∅ G ∅ [] h (reset e).
Proof. intros Hi. apply (sys_inv_fresh sent G held h e 0); [done|eapply win_inv_clear; apply Hi|lia]. Qed.

(** The SDUs sent and the window once COUNTs have started over, if they do. *)
Definition kept e (m : gmap Z (list Z)) : gmap Z (list Z) := if resets e then ∅ else m.
Definition restarted e : pdcp_entity_tx := if resets e then reset e else e.

(** For bearers that start over no task may be left; for the others the timer must suit the window. *)
Definition reestablish_ok (tasks : list tx_task) e : Prop := (resets e = true -> tasks = []) /\ (resets e = false -> retransmit_ok e).

Lemma wp_tx_reestablish sent G held tasks h e sec_cfg accepted :
  sys_inv sent G held tasks h e -> security_ok e sec_cfg (integrity_enabled e) -> reestablish_ok tasks e -> zlen tasks < 2 ^ 31 ->
  wp (reestablish sec_cfg accepted) (fun _ e' es => pdus es = [] /\ discards es = [] /\
    sys_inv (kept e sent) (sec_engine_pool e' ++ G) (kept e held) (tasks ++ dispatched es) h e' /\
    dispatched es = (if retransmits e then retx_tasks (kept e held) (rewound e) accepted (tx_next_ack (st (restarted e))) (tx_next (st (restarted e))) else []) /\
    cfg e' = cfg e /\ st e' = st (if retransmits e then rewound (restarted e) else restarted e)) e.
Proof.
  intros Hi Hsec [Hres Hre] Hmax. unfold reestablish. do 3 wp_step.
  assert (sys_inv (kept e sent) G (kept e held) tasks h (restarted e) /\ retransmit_ok (restarted e)) as [Hi0 Hre0].
  { unfold kept, restarted. destruct (resets e) eqn:Er; [|by auto]. rewrite (Hres eq_refl) in *. split; [by eapply sys_inv_reset|].
    intros _ _. simpl. pose proof (so_reord _ _ (ti_st _ _ _ (ts_tx _ _ _ _ _ _ Hi))). lia. }
  apply (wp_mono _ (fun _ e1 es => es = [] /\ e1 = restarted e)).
  { unfold restarted. change (is_srb e || is_um e) with (resets e). destruct (resets e); cbn [when]; wp_step; done. }
  cbv beta. intros _ e1 es1 (-> & ->). set (e0 := restarted e) in *.
  assert (is_srb e0 = is_srb e /\ integrity_enabled e0 = integrity_enabled e /\ is_am e0 = is_am e /\ cfg e0 = cfg e /\ retransmit_id e0 = retransmit_id e) as (F1 & F2 & F3 & F4 & F5)
    by (unfold e0, restarted; by destruct (resets e)).
  wp_step. eapply wp_mono; [apply (wp_tx_configure_security _ _ _ _ _ _ sec_cfg _ _ Hi0)|].
  { unfold security_ok. by rewrite F1. }
  cbv beta. intros _ e2 es2 (Hi2 & (pool & i & c & ->) & ->). cbn [app]. set (e2 := set_security pool i c e0) in *.
  unfold retransmits. destruct (is_am e) eqn:Ham; cbn [when].
  - eapply wp_mono; [apply (wp_retransmit_all _ _ _ _ _ e2 accepted Hi2); [exact Hre0|done]|]. cbv beta. intros _ e' es (H1 & H2 & H3 & H4).
    split; [done|]. split; [done|]. assert (retransmits e2 = is_configured (cfg e)) as Er.
    { unfold retransmits. change (is_am e2) with (is_am e0). change (cfg e2) with (cfg e0). by rewrite F3, F4, andb_true_r. }
    rewrite Er in H4. rewrite andb_true_r. destruct (is_configured (cfg e)).
    + destruct H4 as [(E1&E2&E3&E4&E5&E6&E7&E8&E9&E10) H4]. split; [rewrite E7; exact H3|]. split; [|split; [by rewrite E1; simpl|by rewrite E6]].
      rewrite H4. unfold retx_tasks, retx_task. simpl. by rewrite F4, F5.
    + destruct H4 as [-> ->]. split; [exact H3|done].
  - wp_step. rewrite andb_false_r. simpl. rewrite app_nil_r. done.
Qed.

(** ** COUNTs from elsewhere *)

Definition count_info_ok e (info : pdcp_count_info) : Prop :=
  0 <= ci_sn info < pdcp_sn_cardinality (sn_size (cfg e)) /\ 0 <= ci_hfn info /\
  ci_hfn info * pdcp_sn_cardinality (sn_size (cfg e)) + ci_sn info <= hard (max_count (cfg e)).

Definition info_count e (info : pdcp_count_info) : Z := ci_hfn info * pdcp_sn_cardinality (sn_size (cfg e)) + ci_sn info.

Lemma tx_count_info_count e info : config_ok (cfg e) -> count_info_ok e info -> COUNT e (ci_hfn info) (ci_sn info) = info_count e info /\ 0 <= info_count e info < 2 ^ 32.
Proof.
  intros (Hs & _ & _ & Hh & _) (Hsn & Hhfn & Hle). unfold info_count. pose proof (sn_size_facts _ Hs) as (_ & _ & ? & _).
  assert (0 <= ci_hfn info * pdcp_sn_cardinality (sn_size (cfg e)) + ci_sn info < 2 ^ 32) as Hr by nia. split; [|done].
  unfold COUNT. rewrite compute_count_eq by done. by apply u32_small.
Qed.

Lemma tx_set_count_inv sent G held h e info :
  sys_inv sent G held [] h e -> tx_next (st e) = 0 -> count_info_ok e info -> sys_inv ∅ G ∅ [] h (set_count info e).
Proof.
  intros Hi Hn Hinfo. destruct (tx_count_info_count e info (ti_cfg _ _ _ (ts_tx _ _ _ _ _ _ Hi)) Hinfo) as [Ec Hr].
  unfold set_count. rewrite Ec.
  replace (set_st _ e) with (set_tx_window (tx_window e) (set_st (mk_state (info_count e info) (info_count e info) (info_count e info) (info_count e info) (info_count e info)) e)) by done.
  apply (sys_inv_fresh sent G held); [done| |done]. pose proof (ts_tx _ _ _ _ _ _ Hi) as Hx. pose proof (ti_win _ _ _ Hx) as Hw.
  assert (held = ∅) as ->.
  { apply map_eq. intros c. rewrite lookup_empty. destruct (held !! c) eqn:E; [|done]. pose proof (held_range _ _ _ _ _ Hx E). lia. }
  destruct Hw. by constructor.
Qed.
End control.

(** A new entity. *)
Lemma pdcp_tx_create_inv {A : SecurityAlgorithms} config bearer workers rohc e :
  create config bearer workers rohc = Some e -> config_ok config -> sys_inv ∅ [None] ∅ [] false e.
Proof.
  intros Hc Hcf. unfold create in Hc. destruct (bool_decide _); [done|].
  destruct (match rb_type config with rb_srb => _ | rb_drb => _ end); [done|]. injection Hc as <-.
  destruct (tx_window_facts _ Hcf) as (HW & _).
  assert (win_inv [None] config ∅ (PdcpTxWindow.create (sn_size config)) 0 0) as Hw.
  { by constructor. }
  constructor; try done.
  - constructor; try done. intros _. unfold window_size. simpl. lia.
  - intros c [? Hx]. by rewrite lookup_empty in Hx.
  - apply repeat_length.
  - intros engine Hin. simpl in Hin. apply list_elem_of_In, repeat_spec in Hin as ->. by left.
Qed.
