(* ===== verification/PdcpTxRuns.v ===== *)
(** * PDCP transmitting entity: runs

    The operations of the entity as steps of a system with pending tasks, what its callers respect
    ([op_ok]), and the history of a run: the SDUs sent, the engines configured and the PDUs handed
    over.  [inv] holds in every state reached. *)

From stdpp Require Import sorting.
From S2P Require Import Prelude Effects Window Timers BitEncoding PdcpSn Ciphering Security PdcpBase PdcpTx PdcpTxFacts PdcpTxInv PdcpTxDiscard PdcpTxReorder PdcpTxSystem PdcpTxSend PdcpTxControl.
Import PdcpTx.
Open Scope Z_scope.
Open Scope entity_scope.

Record tx_system := mk_sys { entity : pdcp_entity_tx; tasks : list tx_task; halted : bool }.

Inductive tx_op :=
| op_handle_sdu (now : Z) (accepted : bool) (buf : list Z)
| op_run_task (n worker_idx : nat) (accepted : bool) (now : Z)
| op_transmit_notification (now sn : Z)
| op_delivery_notification (now sn : Z)
| op_retransmit_notification (now sn : Z)
| op_delivery_retransmitted_notification (now sn : Z)
| op_desired_buffer_size (bs : Z)
| op_discard_timeout (epoch : Z)
| op_crypto_timeout (now epoch : Z)
| op_status_report (status : list Z)
| op_send_status_report (report : list Z)
| op_data_recovery (report : list Z) (accepted : Z -> bool)
| op_begin_buffering
| op_end_buffering (now : Z) (accepted : nat -> bool)
| op_stop
| op_notify_pdu_processing_stopped
| op_restart_pdu_processing
| op_configure_security (sec_cfg : sec_128_as_config) (integ ciph : bool)
| op_reestablish (sec_cfg : sec_128_as_config) (accepted : Z -> bool)
| op_set_count (info : pdcp_count_info).

(** The SDUs by COUNT, the engines configured, and the data PDUs handed over with their retransmission
    flags, since COUNTs or the transmission of the window last started over. *)
Record history := mk_history { sent : gmap Z (list Z); engines : list (option SecurityEngine.security_engine_impl); handed : list (list Z * bool) }.

Section runs.
Context {A : SecurityAlgorithms}.

Definition run_task (t : tx_task) (worker_idx : nat) (accepted : bool) (now : Z) : H unit :=
  match t with
  | task_security i => apply_security worker_idx accepted i
  | task_reordering i => apply_reordering now i
  | task_failure err => handle_failure err
  end.

Definition op_action (o : tx_op) (s : tx_system) : H unit :=
  match o with
  | op_handle_sdu now accepted buf => handle_sdu now accepted buf
  | op_run_task n w accepted now => match tasks s !! n with Some t => run_task t w accepted now | None => ret tt end
  | op_transmit_notification now sn => handle_transmit_notification now sn
  | op_delivery_notification now sn => handle_delivery_notification now sn
  | op_retransmit_notification now sn => handle_retransmit_notification now sn
  | op_delivery_retransmitted_notification now sn => handle_delivery_retransmitted_notification now sn
  | op_desired_buffer_size bs => handle_desired_buffer_size_notification bs
  | op_discard_timeout epoch => discard_timeout epoch
  | op_crypto_timeout now epoch => crypto_timeout now epoch
  | op_status_report status => handle_status_report status
  | op_send_status_report report => send_status_report report
  | op_data_recovery report accepted => data_recovery report accepted
  | op_begin_buffering => modify begin_buffering
  | op_end_buffering now accepted => end_buffering now accepted
  | op_stop => stop
  | op_notify_pdu_processing_stopped => notify_pdu_processing_stopped
  | op_restart_pdu_processing => restart_pdu_processing
  | op_configure_security sec_cfg integ ciph => configure_security sec_cfg integ ciph
  | op_reestablish sec_cfg accepted => reestablish sec_cfg accepted
  | op_set_count info => modify (set_count info)
  end.

(** The tasks that remain, without those the operation dispatches. *)
Definition op_tasks (o : tx_op) (s : tx_system) : list tx_task :=
  match o with op_run_task n _ _ _ => delete n (tasks s) | _ => tasks s end.
Definition op_halted (o : tx_op) (s : tx_system) : bool :=
  match o with
  | op_stop | op_notify_pdu_processing_stopped => true
  | op_restart_pdu_processing => stopped (entity s)
  | _ => halted s
  end.

Definition step (o : tx_op) (s : tx_system) : option (tx_system * list tx_event) :=
  match op_action o s (entity s) with
  | Ok (_, e', es) => Some (mk_sys e' (op_tasks o s ++ dispatched es) (op_halted o s), es)
  | Fault _ => None
  end.

(** What the callers respect.  [notification_ok], [no_gap], [crypto_succeeds] and [retransmit_ok] are
    what the entity takes for granted without checking it. *)
Definition op_ok (o : tx_op) (s : tx_system) : Prop :=
  let e := entity s in
  match o with
  | op_handle_sdu now _ _ => zlen (tasks s) + 1 < 2 ^ 32 - 2 /\ clock_ok now e /\ srb_room e 1
  | op_run_task n w _ _ =>
      match tasks s !! n with
      | Some (task_security i) => (w < max_nof_crypto_workers e)%nat /\ crypto_succeeds e w i
      | Some (task_reordering i) => takes e i = true -> no_gap e (tx_trans_crypto (st e))
      | Some (task_failure _) => True
      | None => False
      end
  | op_transmit_notification now sn | op_delivery_notification now sn | op_retransmit_notification now sn
  | op_delivery_retransmitted_notification now sn => notification_ok now sn e
  | op_desired_buffer_size _ | op_send_status_report _ | op_begin_buffering => True
  | op_discard_timeout epoch => tm_cmd_id (discard_timer e) = epoch -> is_running (discard_timer e) = true
  | op_crypto_timeout _ epoch =>
      (tm_cmd_id (crypto_reordering_timer e) = epoch -> is_running (crypto_reordering_timer e) = true) /\
      (crypto_fires e epoch = true -> no_gap e (tx_reord_crypto (st e)))
  | op_status_report status => Forall is_byte status
  | op_data_recovery _ _ => is_srb e = false /\ is_am e = true /\ retransmit_ok e /\ zlen (tasks s) < 2 ^ 31
  | op_end_buffering now _ =>
      zlen (tasks s) + zlen (sdu_buffer e) < 2 ^ 32 - 2 /\ clock_ok now e /\ srb_room e (zlen (sdu_buffer e))
  | op_stop | op_notify_pdu_processing_stopped => halted s = false \/ stopped e = true
  | op_restart_pdu_processing => halted s = true
  | op_configure_security sec_cfg integ _ => security_ok e sec_cfg integ
  | op_reestablish sec_cfg _ => security_ok e sec_cfg (integrity_enabled e) /\ reestablish_ok (tasks s) e /\ zlen (tasks s) < 2 ^ 31
  | op_set_count info => tasks s = [] /\ tx_next (st e) = 0 /\ count_info_ok e info
  end.

(** [e'] and [es]: the entity after the operation and its events. *)
Definition op_history (o : tx_op) (s : tx_system) (e' : pdcp_entity_tx) (es : list tx_event) (g : history) : history :=
  let e := entity s in
  let go_on sent' := mk_history sent' (engines g) (handed g ++ pdus es) in
  match o with
  | op_handle_sdu _ _ buf => go_on (sent_after (sent g) e buf)
  | op_end_buffering now accepted => go_on (sent_flushed now accepted 0 (sdu_buffer e) (sent g) (opened e))
  | op_send_status_report _ => g
  | op_data_recovery _ _ => mk_history (sent g) (engines g) (if retransmits e then [] else handed g)
  | op_configure_security _ _ _ => mk_history (sent g) (sec_engine_pool e' ++ engines g) (handed g ++ pdus es)
  | op_reestablish _ _ => mk_history (kept e (sent g)) (sec_engine_pool e' ++ engines g) (if resets e || retransmits e then [] else handed g)
  | op_set_count _ => mk_history ∅ (engines g) []
  | _ => go_on (sent g)
  end.

Inductive reachable : tx_system -> history -> Prop :=
| reachable_create config bearer workers rohc e :
    create config bearer workers rohc = Some e -> config_ok config -> reachable (mk_sys e [] false) (mk_history ∅ [None] [])
| reachable_step s g o s' es :
    reachable s g -> op_ok o s -> step o s = Some (s', es) -> reachable s' (op_history o s (entity s') es g).

(** The PDUs handed over are those of SDUs sent, in ascending order of COUNT and each once. *)
Definition handed_ok (g : history) (e : pdcp_entity_tx) : Prop :=
  exists counts, StronglySorted Z.lt counts /\
    Forall2 (fun c p => c < tx_trans_crypto (st e) /\ exists sdu, sent g !! c = Some sdu /\ pdu_of (engines g) (cfg e) c sdu (fst p)) counts (handed g).

Definition inv (s : tx_system) (g : history) : Prop :=
  (exists held, sys_inv (sent g) (engines g) held (tasks s) (halted s) (entity s)) /\ handed_ok g (entity s).

(** ** Handing over *)

Lemma seqZ_sorted a n : StronglySorted Z.lt (seqZ a n).
Proof.
  destruct (Z.le_gt_cases n 0) as [|Hn]; [rewrite seqZ_nil by lia; constructor|].
  rewrite <- (Z2Nat.id n) by lia. generalize (Z.to_nat n) as k. clear. intros k. revert a. induction k as [|k IH]; intros a; [constructor|].
  rewrite seqZ_cons, Nat2Z.inj_succ, Z.pred_succ by lia. constructor; [apply IH|]. apply Forall_forall. intros x Hx%elem_of_seqZ. lia.
Qed.

Lemma filter_sorted (P : Z -> Prop) `{forall x, Decision (P x)} l : StronglySorted Z.lt l -> StronglySorted Z.lt (filter P l).
Proof.
  induction 1 as [|x l Hs IH Hall]; [constructor|]. rewrite filter_cons. case_decide; [|done]. constructor; [done|].
  rewrite Forall_forall in *. intros y [_ Hy]%list_elem_of_filter. auto.
Qed.

Lemma handed_ok_mono g g' e e' :
  (forall c sdu, sent g !! c = Some sdu -> sent g' !! c = Some sdu) -> engines g ⊆ engines g' -> cfg e' = cfg e ->
  tx_trans_crypto (st e) <= tx_trans_crypto (st e') -> handed g' = handed g -> handed_ok g e -> handed_ok g' e'.
Proof.
  intros Hs Hg Hc Ht Hh (cs & Hsort & Hall). exists cs. split; [done|]. rewrite Hh, Hc. eapply Forall2_impl; [exact Hall|].
  intros c p (Hlt & sdu & H1 & H2). split; [lia|]. exists sdu. split; [auto|]. by eapply pdu_of_mono.
Qed.

(** More PDUs, from TX_TRANS_CRYPTO on. *)
Lemma handed_ok_more g e e' f retx k :
  handed_ok g e -> cfg e' = cfg e -> tx_trans_crypto (st e') = k -> tx_trans_crypto (st e) <= k ->
  (forall c, f c <> [] -> exists sdu, sent g !! c = Some sdu /\ pdu_of (engines g) (cfg e) c sdu (f c)) ->
  handed_ok (mk_history (sent g) (engines g) (handed g ++ map (fun c => (f c, retx)) (waiting f (tx_trans_crypto (st e)) k))) e'.
Proof.
  intros (cs & Hsort & Hall) Hc Hk Hle Hf. set (new := waiting f _ k). exists (cs ++ new).
  assert (forall c, c ∈ new -> tx_trans_crypto (st e) <= c < k /\ f c <> []) as Hin.
  { intros c [Hne Hc']%list_elem_of_filter. apply elem_of_seqZ in Hc'. split; [lia|done]. }
  split.
  - apply StronglySorted_app. split; [|split; [done|apply filter_sorted, seqZ_sorted]]. intros x y Hx Hy. apply Hin in Hy as [Hy _].
    apply list_elem_of_lookup in Hx as [i Hx]. destruct (Forall2_lookup_l _ _ _ _ _ Hall Hx) as (p & _ & Hp & _). lia.
  - apply Forall2_app; rewrite Hc.
    + eapply Forall2_impl; [exact Hall|]. intros c p [Hlt Hx]. split; [rewrite Hk; lia|exact Hx].
    + apply Forall2_fmap_r, Forall_Forall2_diag, Forall_forall. intros c Hcn. apply Hin in Hcn as [Hr Hne]. split; [rewrite Hk; lia|]. by apply Hf.
Qed.

Lemma pdu_at_content sent0 G held tasks h e c : sys_inv sent0 G held tasks h e -> pdu_at e c <> [] ->
  exists sdu, sent0 !! c = Some sdu /\ pdu_of G (cfg e) c sdu (pdu_at e c).
Proof.
  intros Hi Hne. unfold pdu_at in *. pose proof (wi_held _ _ _ _ _ _ (ti_win _ _ _ (ts_tx _ _ _ _ _ _ Hi)) c) as Hh.
  destruct (CircularMap.lookup _ c) as [el|]; [|done]. destruct Hh as (sdu & Hs & Ho). exists sdu.
  split; [eapply lookup_weaken; [exact Hs|apply Hi]|]. by destruct (eo_pdu _ _ _ _ _ Ho).
Qed.

(** ** Every step preserves the invariant *)

Definition step_to (o : tx_op) (s : tx_system) (g : history) : Prop :=
  wp (op_action o s) (fun _ e' es => inv (mk_sys e' (op_tasks o s ++ dispatched es) (op_halted o s)) (op_history o s e' es g)) (entity s).

Lemma same_tx_crypto e e' : same_tx e e' -> cfg e' = cfg e /\ tx_trans_crypto (st e) <= tx_trans_crypto (st e').
Proof. intros (E1&_&_&_&_&E6&_). rewrite E6. split; [done|lia]. Qed.

Lemma moves_crypto G held held' e e' : moves G held held' e e' -> cfg e' = cfg e /\ tx_trans_crypto (st e) <= tx_trans_crypto (st e').
Proof. intros [? (w & s & d & c & ->) ? ? ? ?]. done. Qed.

(** Steps that hand over nothing. *)
Lemma inv_silent s g held e' tasks' h' es :
  inv s g -> sys_inv (sent g) (engines g) held tasks' h' e' -> pdus es = [] ->
  cfg e' = cfg (entity s) /\ tx_trans_crypto (st (entity s)) <= tx_trans_crypto (st e') ->
  inv (mk_sys e' tasks' h') (mk_history (sent g) (engines g) (handed g ++ pdus es)).
Proof.
  intros [_ Hh] Hi -> [Hc Ht]. split; [by exists held|]. rewrite app_nil_r. by eapply (handed_ok_mono g _ (entity s)).
Qed.

Lemma inv_moves s g held held' e' es tasks' : inv s g -> sys_inv (sent g) (engines g) held (tasks s) (halted s) (entity s) ->
  moves (engines g) held held' (entity s) e' -> pdus es = [] -> tasks' = tasks s ++ [] ->
  inv (mk_sys e' tasks' (halted s)) (mk_history (sent g) (engines g) (handed g ++ pdus es)).
Proof.
  intros Hg Hi Hmv Hp ->. eapply inv_silent; [exact Hg| |exact Hp|by eapply moves_crypto]. rewrite app_nil_r. by eapply sys_inv_moves.
Qed.

(** Steps that take SDUs. *)
Lemma inv_sends s g sent' e' es held : inv s g -> sys_inv (sent g) (engines g) held (tasks s) (halted s) (entity s) ->
  (forall c sdu, sent g !! c = Some sdu -> sent' !! c = Some sdu) -> sends (engines g) (tasks s) (halted s) (entity s) sent' e' es ->
  inv (mk_sys e' (tasks s ++ dispatched es) (halted s)) (mk_history sent' (engines g) (handed g ++ pdus es)).
Proof.
  intros [_ Hh] Hi Hs ((held' & Hi') & -> & _ & Ht & _ & Hc). split; [by exists held'|]. rewrite app_nil_r.
  eapply (handed_ok_mono g); [exact Hs|done|exact Hc|simpl; lia|done|exact Hh].
Qed.

Lemma tx_run_task_inv s g n w accepted now : inv s g -> op_ok (op_run_task n w accepted now) s -> step_to (op_run_task n w accepted now) s g.
Proof.
  intros Hg Hok. pose proof Hg as [(held & Hi) Hh]. unfold step_to, op_ok, op_action in *. destruct (tasks s !! n) as [t|] eqn:Et; [|done].
  assert (sys_inv (sent g) (engines g) held (t :: delete n (tasks s)) (halted s) (entity s)) as Hi1
    by (by rewrite <- (delete_Permutation (tasks s) n t Et)).
  assert (forall e' es, passed (sent g) (engines g) held (delete n (tasks s)) (halted s) (entity s) e' es ->
    inv (mk_sys e' (delete n (tasks s) ++ dispatched es) (halted s)) (mk_history (sent g) (engines g) (handed g ++ pdus es))) as Hpass.
  { intros e' es (Hi' & Hs & Hp & _). eapply inv_silent; [exact Hg|exact Hi'|exact Hp|by apply same_tx_crypto]. }
  destruct t as [i|i|err]; simpl run_task.
  - destruct Hok as [Hw Hc]. eapply wp_mono; [by eapply wp_tx_apply_security|]. cbv beta. intros _ e' es Hp. by apply Hpass.
  - eapply wp_mono; [by eapply wp_tx_apply_reordering|]. cbv beta. intros _ e' es (Hi' & _ & Hd & (e1 & Hmv & Hs) & Hx).
    simpl. rewrite Hd, app_nil_r. split; [by exists held|]. simpl.
    destruct (moves_crypto _ _ _ _ _ Hmv) as [Ec1 Et1]. destruct (same_tx_crypto _ _ Hs) as [Ec2 Et2].
    destruct (takes (entity s) i).
    + destruct Hx as (k & Hst & Hk & Hp & _). rewrite Hp. eapply handed_ok_more; [exact Hh|congruence|exact Hk|apply Hst|].
      pose proof (proj1 (Forall_cons _ _ _) (ts_tasks _ _ _ _ _ _ Hi1)) as [(sdu & Hsd & Hpd) _].
      intros x Hne. unfold pdu_with in *. destruct (Z.eqb_spec x (bi_count i)) as [Ex|]; [rewrite Ex; by exists sdu|].
      by eapply pdu_at_content.
    + destruct Hx as [_ ->]. simpl. rewrite app_nil_r. eapply (handed_ok_mono g _ (entity s)); [done|done|congruence|lia|done|exact Hh].
  - eapply wp_mono; [by eapply wp_tx_handle_failure|]. cbv beta. intros _ e' es Hp. by apply Hpass.
Qed.

Lemma crypto_timeout_inv s g now epoch : inv s g -> op_ok (op_crypto_timeout now epoch) s -> step_to (op_crypto_timeout now epoch) s g.
Proof.
  intros Hg [Hrun Hgap]. pose proof Hg as [(held & Hi) Hh]. unfold step_to, op_action.
  eapply wp_mono; [apply (wp_crypto_timeout _ _ _ now epoch (ts_tx _ _ _ _ _ _ Hi) (ts_armed _ _ _ _ _ _ Hi) Hrun Hgap)|]. cbv beta.
  intros _ e' es (Hmv & _ & Hd & Hx). destruct (moves_crypto _ _ _ _ _ Hmv) as [Ec Et].
  split; simpl; [exists held; rewrite Hd, app_nil_r; by eapply sys_inv_moves|]. destruct (crypto_fires (entity s) epoch).
  - destruct Hx as (k & Hst & Hk & Hp & _). rewrite Hp. eapply handed_ok_more; [exact Hh|exact Ec|exact Hk|lia|].
    intros c Hne. by eapply pdu_at_content.
  - destruct Hx as [_ ->]. simpl. rewrite app_nil_r. by eapply (handed_ok_mono g).
Qed.

Lemma started_over s' G h e' held' tasks' sent' : sys_inv sent' G held' tasks' h e' -> s' = mk_sys e' tasks' h -> inv s' (mk_history sent' G []).
Proof. intros Hi ->. split; [by exists held'|]. exists []. split; constructor. Qed.

Lemma data_recovery_inv s g report accepted : inv s g -> op_ok (op_data_recovery report accepted) s -> step_to (op_data_recovery report accepted) s g.
Proof.
  intros Hg (Hsrb & Ham & Hre & Hmax). pose proof Hg as [(held & Hi) Hh]. unfold step_to, op_action, data_recovery. do 3 wp_step.
  apply wp_assert; [by rewrite Hsrb, Ham|]. wp_step.
  apply (wp_mono _ (fun _ e1 es => e1 = entity s /\ dispatched es = [])).
  { unfold send_status_report. destruct (status_report_required _) eqn:Er; cbn [when]; [|by wp_step].
    do 2 wp_step. rewrite Er. cbn [when]. unfold write_control_pdu_to_lower_layers. do 3 wp_step. done. }
  cbv beta. intros _ e1 es1 (-> & Hd1). eapply wp_mono; [by apply (wp_retransmit_all _ _ _ _ _ _ accepted Hi)|]. cbv beta.
  intros _ e' es (_ & _ & Hi' & Hx). simpl. rewrite tx_dispatched_app, Hd1. cbn [app].
  destruct (retransmits (entity s)); [by eapply started_over|]. destruct Hx as [-> ->]. split; [by exists held|].
  by apply (handed_ok_mono g _ (entity s)).
Qed.

Lemma reestablish_inv s g sec_cfg accepted : inv s g -> op_ok (op_reestablish sec_cfg accepted) s -> step_to (op_reestablish sec_cfg accepted) s g.
Proof.
  intros Hg (Hsec & Hre & Hmax). pose proof Hg as [(held & Hi) Hh]. unfold step_to, op_action.
  eapply wp_mono; [by apply (wp_tx_reestablish _ _ _ _ _ _ sec_cfg accepted Hi)|]. cbv beta.
  intros _ e' es (_ & _ & Hi' & Hd & Hc & Ht). simpl.
  destruct (resets (entity s) || retransmits (entity s)) eqn:Er; [by eapply started_over|]. apply orb_false_iff in Er as [E1 E2].
  split; [by eexists|]. simpl. rewrite E2 in Ht. unfold restarted in Ht. rewrite E1 in Ht.
  apply (handed_ok_mono g _ (entity s)); try done; simpl; [intros c sdu Hs; unfold kept; by rewrite E1|intros x Hx; apply elem_of_app; by right|by rewrite Ht].
Qed.

Lemma notification_inv s g now sn (b : bool) (m : H unit) :
  inv s g -> notification_ok now sn (entity s) ->
  m = handle_transmit_notification_impl now sn \/ m = handle_delivery_notification_impl now sn ->
  wp (if b then ret tt else m) (fun _ e' es => inv (mk_sys e' (tasks s ++ dispatched es) (halted s)) (mk_history (sent g) (engines g) (handed g ++ pdus es))) (entity s).
Proof.
  intros Hg Hok Hm. pose proof Hg as [(held & Hi) Hh].
  eapply wp_mono; [by apply (wp_notification (engines g) held _ now sn b m (ts_tx _ _ _ _ _ _ Hi) (ts_armed _ _ _ _ _ _ Hi) Hok)|]. cbv beta.
  intros _ e' es (-> & held' & Hmv). by eapply (inv_moves s g held held').
Qed.

(** Steps that change neither the window nor its state variables. *)
Lemma inv_same s g held h' e' es : inv s g -> sys_inv (sent g) (engines g) held (tasks s) h' e' -> same_tx (entity s) e' -> es = [] ->
  inv (mk_sys e' (tasks s ++ dispatched es) h') (mk_history (sent g) (engines g) (handed g ++ pdus es)).
Proof. intros Hg Hi Hs ->. eapply inv_silent; [exact Hg|by rewrite app_nil_r|done|by apply same_tx_crypto]. Qed.

Lemma sys_inv_same_all sent0 G held tasks0 h e e' : sys_inv sent0 G held tasks0 h e -> same_tx e e' -> token_mngr e' = token_mngr e -> sys_inv sent0 G held tasks0 h e'.
Proof. intros Hi Hs Ht. apply (sys_inv_same_tx sent0 G held tasks0 tasks0 h h e); try done; rewrite ?Ht; apply Hi. Qed.

Lemma control_inv o s g : inv s g -> op_ok o s ->
  match o with op_stop | op_notify_pdu_processing_stopped | op_restart_pdu_processing | op_configure_security _ _ _ | op_set_count _ => step_to o s g | _ => True end.
Proof.
  intros Hg Hok. pose proof Hg as [(held & Hi) Hh]. destruct o; try done; unfold op_ok in Hok; unfold step_to, op_action.
  - eapply wp_mono; [by eapply wp_tx_stop|]. cbv beta. intros _ e' es (Hi' & E1 & E2 & _ & ->). eapply inv_silent; [exact Hg|by rewrite app_nil_r|done|].
    rewrite E1. split; [done|lia].
  - eapply wp_mono; [by eapply wp_notify_stopped|]. cbv beta. intros _ e' es (Hi' & Hs & ->). by eapply inv_same.
  - simpl in Hok. rewrite Hok in Hi. eapply wp_mono; [by eapply wp_restart|]. cbv beta. intros _ e' es (Hi' & Hs & ->). by eapply inv_same.
  - eapply wp_mono; [by eapply wp_tx_configure_security|]. cbv beta. intros _ e' es (Hi' & (pool & i & c & ->) & ->). simpl. rewrite !app_nil_r.
    split; [by exists held|]. apply (handed_ok_mono g _ (entity s)); try done. intros x Hx. apply elem_of_app. by right.
  - destruct Hok as (Ht & Hn & Hinfo). rewrite Ht in Hi. wp_step. simpl. rewrite Ht. eapply started_over; [by eapply tx_set_count_inv|done].
Qed.

Lemma tx_step_inv o s g : inv s g -> op_ok o s -> step_to o s g.
Proof.
  intros Hg Hok. pose proof Hg as [(held & Hi) Hh]. pose proof (ts_tx _ _ _ _ _ _ Hi) as Htx. pose proof (ts_armed _ _ _ _ _ _ Hi) as Harm.
  pose proof (control_inv o s g Hg Hok) as Hctl. destruct o; unfold op_ok in Hok; try exact Hctl; clear Hctl; unfold step_to, op_action.
  - destruct Hok as (H1 & H2 & H3). eapply wp_mono; [apply (wp_handle_sdu_sends _ _ _ _ _ _ now accepted buf 1 Hi); [lia|lia|done|done]|].
    cbv beta. intros _ e' es [Hs _]. eapply inv_sends; [exact Hg|exact Hi| |exact Hs]. intros c sdu. by eapply sent_after_grows.
  - by apply tx_run_task_inv.
  - unfold handle_transmit_notification. do 2 wp_step. apply (notification_inv s g now sn (stopped (entity s))); try done. by left.
  - unfold handle_delivery_notification. do 2 wp_step. apply (notification_inv s g now sn (stopped (entity s))); try done. by right.
  - unfold handle_retransmit_notification. do 2 wp_step. apply (notification_inv s g now sn (stopped (entity s) || _ || _)); try done. by left.
  - unfold handle_delivery_retransmitted_notification. do 2 wp_step. apply (notification_inv s g now sn (stopped (entity s) || _ || _)); try done. by right.
  - unfold handle_desired_buffer_size_notification. do 2 wp_step. destruct (stopped (entity s)); cbn [negb when]; wp_step;
      (eapply inv_same; [exact Hg| |done|done]; by eapply sys_inv_same_all).
  - eapply wp_mono; [by apply (wp_discard_timeout (engines g) held)|]. cbv beta. intros _ e' es (held' & Hmv & Hp & Hd & _).
    rewrite Hd. by eapply inv_moves.
  - by apply crypto_timeout_inv.
  - eapply wp_mono; [apply (wp_handle_status_report (P := False) (engines g) held _ status 0 [] Htx Hok); done|]. cbv beta.
    intros _ e' es (cs & Hd & _). pose proof (discards_all_moves _ _ _ _ _ _ Hd Harm) as Hmv. destruct Hd as [-> _].
    assert (forall {B} (f : tx_event -> option B) l, (forall sn, f (on_discard_pdu sn) = None) -> omap f (map (fun c => on_discard_pdu (SN (entity s) c)) l) = []) as Hom.
    { intros B f l Hf. induction l as [|c l IH]; simpl; [done|]. by rewrite Hf. }
    unfold dispatched. rewrite Hom by done. eapply inv_moves; [exact Hg|exact Hi|exact Hmv|by apply Hom|done].
  - unfold send_status_report. do 2 wp_step. destruct (status_report_required _); cbn [when].
    + unfold write_control_pdu_to_lower_layers. do 3 wp_step. simpl. rewrite app_nil_r. by destruct s.
    + wp_step. simpl. rewrite app_nil_r. by destruct s.
  - by apply data_recovery_inv.
  - wp_step. eapply inv_same; [exact Hg| |done|done]. by eapply sys_inv_same_all.
  - destruct Hok as (H1 & H2 & H3). eapply wp_mono; [by apply (wp_tx_end_buffering _ _ _ _ _ _ now accepted Hi)|]. cbv beta.
    intros _ e' es (Hs & Hsub & _). by eapply inv_sends.
  - by apply reestablish_inv.
Qed.
End runs.
