(* ===== verification/PdcpTxTheorems.v ===== *)
(** * PDCP transmitting entity: the properties

    What holds in every state that the entity and its pending tasks reach: operations do not abort as
    long as the callers respect [op_ok]; the window holds the SDUs that are neither acknowledged nor
    discarded; PDUs are handed over in the order of their COUNTs; notifications, status reports and the
    discard timer release exactly the SDUs they are about.  Two theorems show what happens otherwise. *)

From stdpp Require Import sorting.
From S2P Require Import Prelude Effects Window Timers BitEncoding PdcpSn Ciphering Security PdcpBase PdcpTx PdcpTxFacts PdcpTxInv PdcpTxDiscard PdcpTxReorder PdcpTxSystem PdcpTxSend PdcpTxControl PdcpTxRuns.
Import PdcpTx.
Open Scope Z_scope.
Open Scope entity_scope.

Section theorems.
Context {A : SecurityAlgorithms}.

Lemma pdcp_tx_reachable_inv s g : reachable s g -> inv s g.
Proof.
  induction 1 as [config bearer workers rohc e Hc Hcf|s g o s' es _ IH Hok Hstep].
  - split; [exists ∅; by eapply pdcp_tx_create_inv|]. exists []. split; constructor.
  - pose proof (tx_step_inv o s g IH Hok) as Hw. unfold step_to, wp, step in *.
    destruct (op_action o s (entity s)) as [[[[] e'] es']|]; [|done]. by injection Hstep as <- <-.
Qed.

(** The postcondition of the operation of a step. *)
Lemma step_post o s s' es (Q : unit -> pdcp_entity_tx -> list tx_event -> Prop) :
  step o s = Some (s', es) -> wp (op_action o s) Q (entity s) -> Q tt (entity s') es.
Proof. unfold step, wp. destruct (op_action o s (entity s)) as [[[[] e'] es']|]; [|done]. by intros [= <- <-]. Qed.

(** ** Runs that can be evaluated *)

#[local] Instance restart_ok_dec now e k : Decision (restart_ok now e k).
Proof.
  unfold restart_ok. apply impl_dec; [apply _|]. apply impl_dec; [apply _|].
  destruct (_ <$> _) as [[?|]|], (discard_timer_cfg (cfg e)); apply _.
Defined.

#[local] Instance clock_ok_dec now e : Decision (clock_ok now e).
Proof.
  unfold clock_ok. apply and_dec; [apply _|]. apply impl_dec; [apply _|]. apply Forall_dec. intros c. destruct (tick_at e c); apply _.
Defined.

#[local] Instance crypto_succeeds_dec e w i : Decision (crypto_succeeds e w i).
Proof.
  unfold crypto_succeeds. destruct (_ !! w) as [[g|]|]; [|apply _..].
  destruct (SecurityEngine.encrypt_and_protect_integrity _ _ _ _); apply _.
Defined.

#[local] Instance tx_op_ok_dec o s : Decision (op_ok o s).
Proof.
  destruct o; simpl; unfold srb_room, notification_ok, no_gap, retransmit_ok, reestablish_ok, security_ok, count_info_ok; try apply _.
  destruct (tasks s !! n) as [[]|]; apply _.
Defined.

(** The state and the history after a sequence of operations, unless one is not allowed or aborts. *)
Fixpoint run (os : list tx_op) (s : tx_system) (g : history) : option (tx_system * history) :=
  match os with
  | [] => Some (s, g)
  | o :: os' =>
      if decide (op_ok o s) then
        match step o s with Some (s', es) => run os' s' (op_history o s (entity s') es g) | None => None end
      else None
  end.

Lemma tx_run_reachable os : forall s g s' g', reachable s g -> run os s g = Some (s', g') -> reachable s' g'.
Proof.
  induction os as [|o os IH]; simpl; intros s g s' g' Hr; [by intros [= <- <-]|].
  destruct (decide (op_ok o s)); [|done]. destruct (step o s) as [[s1 es]|] eqn:Es; [|done].
  apply IH. by eapply reachable_step.
Qed.


(** ** The properties *)

(** Within [op_ok] no operation aborts: in every state that the entity and its pending tasks can reach, under any
    interleaving of SDUs, crypto tasks, reordering tasks, notifications and flow control of the lower layer, both
    timers, status reports, data recovery, buffering, shutdown, security configuration and re-establishment.  [op_ok]
    names what the entity takes for granted; the section on where the entity fails shows what happens beyond it. *)
Theorem pdcp_tx_never_aborts s g o :
  reachable s g -> op_ok o s -> exists s' es, step o s = Some (s', es).
Proof.
  intros Hr Hok. pose proof (tx_step_inv o s g (pdcp_tx_reachable_inv s g Hr) Hok) as Hw. unfold step_to, wp, step in *.
  destruct (op_action o s (entity s)) as [[[[] e'] es]|]; [eauto|done].
Qed.


(** The end of buffering.  The loop that flushes the buffered SDUs terminates: it empties the buffer whatever the
    crypto executor refuses, takes every buffered SDU once and in order, gives at most one PDU per SDU to the crypto
    workers, and hands nothing to the lower layer itself. *)
Theorem pdcp_tx_flush_terminates s g now accepted :
  reachable s g -> op_ok (op_end_buffering now accepted) s ->
  let e := entity s in
  exists s' es, step (op_end_buffering now accepted) s = Some (s', es) /\
    sdu_buffer (entity s') = [] /\ buffering (entity s') = false /\
    zlen (dispatched es) <= zlen (sdu_buffer e) /\ pdus es = [] /\ discards es = [] /\
    exists held, sys_inv (sent_flushed now accepted 0 (sdu_buffer e) (sent g) (opened e)) (engines g) held
      (tasks s ++ dispatched es) (halted s) (entity s').
Proof.
  intros Hr (H1 & H2 & H3) e. destruct (pdcp_tx_reachable_inv s g Hr) as [(held & Hi) _].
  pose proof (wp_tx_end_buffering _ _ _ _ _ _ now accepted Hi H1 H2 H3) as Hw. unfold wp, step, op_action in *.
  destruct (end_buffering now accepted (entity s)) as [[[[] e'] es]|]; [|done]. destruct Hw as ((Hs & Hp & Hd & _) & _ & Hb & Hbf & Hl).
  eexists _, _. split; [done|]. done.
Qed.

(** C34: Order and content.  The data PDUs handed to the lower layer since the COUNTs or the transmission of the window
    last started over are PDUs of SDUs sent, each the SDU behind the header of its COUNT under one of the engines
    configured, in ascending order of COUNT and no COUNT twice. *)
Theorem pdcp_tx_hands_over_in_order s g :
  reachable s g ->
  let e := entity s in
  exists counts, StronglySorted Z.lt counts /\
    Forall2 (fun c p => c < tx_trans_crypto (st e) /\ exists sdu, sent g !! c = Some sdu /\ pdu_of (engines g) (cfg e) c sdu (fst p)) counts (handed g) /\
    (forall c, is_Some (sent g !! c) -> 0 <= c < tx_next (st e)).
Proof.
  intros Hr. destruct (pdcp_tx_reachable_inv s g Hr) as [(held & Hi) (counts & Hs & Hall)]. exists counts. split; [done|]. split; [done|apply Hi].
Qed.

Lemma waiting_all f a k : (forall c, a <= c < k -> f c <> []) -> waiting f a k = seqZ a (k - a).
Proof.
  intros Hf. unfold waiting. assert (forall c, c ∈ seqZ a (k - a) -> f c <> []) as Hx by (intros c Hc%elem_of_seqZ; apply Hf; lia).
  clear Hf. induction (seqZ a (k - a)) as [|c l IH]; [done|]. rewrite filter_cons, decide_True by (apply Hx; by left).
  f_equal. apply IH. intros x Hin. apply Hx. by right.
Qed.

(** The reordering task.  A protected PDU that is up to date is stored in the window, and the PDUs stored from
    TX_TRANS_CRYPTO on are handed over without gap, each with its COUNT, up to the first COUNT that has none;
    the reordering timer runs afterwards exactly when PDUs are outstanding.  A PDU that is not up to date changes
    nothing. *)
Theorem pdcp_tx_reordering_exact s g n i w accepted now s' es :
  reachable s g -> tasks s !! n = Some (task_reordering i) -> op_ok (op_run_task n w accepted now) s ->
  step (op_run_task n w accepted now) s = Some (s', es) ->
  let e := entity s in let v := st e in let k := tx_trans_crypto (st (entity s')) in
  if takes e i then
    tx_trans_crypto v <= k <= tx_next v /\
    (forall c, tx_trans_crypto v <= c < k -> pdu_with e i c <> []) /\ (k < tx_next v -> pdu_with e i k = []) /\
    pdus es = map (fun c => (pdu_with e i c, bi_is_retx i)) (seqZ (tx_trans_crypto v) (k - tx_trans_crypto v)) /\
    is_running (crypto_reordering_timer (entity s')) = (k <? tx_next v)
  else st (entity s') = v /\ es = [].
Proof.
  intros Hr Ht Hok Hstep. destruct (pdcp_tx_reachable_inv s g Hr) as [(held & Hi) _]. simpl in Hok. rewrite Ht in Hok.
  assert (sys_inv (sent g) (engines g) held (task_reordering i :: delete n (tasks s)) (halted s) (entity s)) as Hi1
    by (by rewrite <- (delete_Permutation (tasks s) n _ Ht)).
  eapply step_post in Hstep; [|unfold op_action; rewrite Ht; simpl run_task; by eapply wp_tx_apply_reordering].
  destruct Hstep as (_ & _ & _ & _ & Hx). cbv zeta. destruct (takes (entity s) i); [|done].
  destruct Hx as (k & (H1 & H2 & H3) & -> & H4 & H5). rewrite H4, (waiting_all _ _ _ H2). done.
Qed.

Lemma has_sn_keeps G G' held held' e e' (f : Z -> bool) :
  tx_inv G held e -> tx_inv G' held' e' -> (forall c, 0 <= c < 2 ^ 32 -> held' !! c = if f c then held !! c else None) ->
  forall c, 0 <= c < 2 ^ 32 -> has_sn e' c = has_sn e c && f c.
Proof.
  intros Hi Hi' Hf c Hc. rewrite (has_sn_tx _ _ _ _ Hi), (has_sn_tx _ _ _ _ Hi'), Hf by done. destruct (f c).
  - by rewrite andb_true_r.
  - rewrite andb_false_r. apply bool_decide_false. by intros [? ?].
Qed.

(** Delivery notification on an RLC AM bearer with discard timer.  The notification of a COUNT of the window,
    recognised from its SN, releases exactly the SDUs up to that COUNT and moves TX_NEXT_ACK behind it; nothing is
    sent or discarded; with a finite discard timer, the timer then runs for the next SDU. *)
Theorem pdcp_tx_delivery_notification s g now c s' es :
  reachable s g ->
  let e := entity s in let e' := entity s' in
  stopped e = false -> is_am e = true -> is_configured (cfg e) = true -> has_sn e (tx_next_ack (st e)) = true ->
  tx_next_ack (st e) <= c < tx_next (st e) ->
  op_ok (op_delivery_notification now (SN e c)) s -> step (op_delivery_notification now (SN e c)) s = Some (s', es) ->
  es = [] /\ tx_next_ack (st e') = c + 1 /\ tx_next (st e') = tx_next (st e) /\
  (forall x, 0 <= x < 2 ^ 32 -> has_sn e' x = has_sn e x && (c + 1 <=? x)) /\
  (is_finite (discard_timer_cfg (cfg e)) = true -> c + 1 < tx_next (st e) -> is_running (discard_timer e') = true).
Proof.
  intros Hr e e' Hst Ham Hcfg Hold Hc Hok Hstep. destruct (pdcp_tx_reachable_inv s g Hr) as [(held & Hi) _].
  pose proof (ts_tx _ _ _ _ _ _ Hi) as Hx. pose proof (ti_st _ _ _ Hx) as [Ha Hn _ _ _ _]. pose proof (ti_cfg _ _ _ Hx) as [Hs _].
  pose proof (ti_span _ _ _ Hx Hcfg) as Hspan. fold e in Hx, Ha, Hn, Hs, Hspan. unfold window_size in Hspan.
  assert (notification_count_estimation e (SN e c) = c) as Hest.
  { unfold notification_count_estimation, SN. unfold is_configured in Hcfg. destruct (discard_timer_cfg (cfg e)); [|done].
    apply count_of_sn_exact; [done|lia|lia|lia]. }
  eapply step_post in Hstep; [|unfold op_action, handle_delivery_notification; do 2 wp_step; fold e; rewrite Hst;
    apply (wp_delivery_impl (engines g) held); [exact Hx|apply Hi|exact Hok]].
  destruct Hstep as [-> Hp]. cbv zeta in Hp. rewrite Hest, Ham in Hp.
  assert (SN e c <? pdcp_sn_cardinality (sn_size (cfg e)) = true) as Hsn.
  { apply Z.ltb_lt. unfold SN. rewrite compute_sn_mod by done. apply Z.mod_pos_bound. by destruct (sn_size (cfg e)). }
  assert (in_window e c = true) as Hin.
  { unfold in_window. rewrite Hcfg, Hold. destruct (Z.ltb_spec c (tx_next_ack (st e))); [lia|]. by destruct (Z.leb_spec (tx_next (st e)) c); [lia|]. }
  rewrite Hsn, Hin in Hp. cbn [andb] in Hp. destruct Hp as (Hmv & E1 & _). fold e' in Hmv, E1.
  split; [done|]. split; [done|]. split; [apply (mv_next _ _ _ _ _ Hmv)|]. split.
  - eapply has_sn_keeps; [exact Hx|apply (mv_inv _ _ _ _ _ Hmv)|]. intros x _. apply released_lookup.
  - intros Hf Hlt. destruct (mv_armed _ _ _ _ _ Hmv) as [_ Harm]. destruct (mv_shape _ _ _ _ _ Hmv) as (w & v & d & ct & E).
    pose proof (mv_next _ _ _ _ _ Hmv) as En. assert (stopped e' = stopped e /\ cfg e' = cfg e) as [Es Ec] by by rewrite E.
    apply Harm; [by rewrite Es|by rewrite Ec|lia].
Qed.

Lemma counts_of_has_sn G held e a b : tx_inv G held e -> 0 <= a -> b <= 2 ^ 32 -> counts_of held a b = filter (fun c => has_sn e c = true) (seqZ a (b - a)).
Proof.
  intros Hi Ha Hb. unfold counts_of. assert (forall c, c ∈ seqZ a (b - a) -> is_Some (held !! c) <-> has_sn e c = true) as Hx.
  { intros c Hc%elem_of_seqZ. rewrite (has_sn_tx _ _ _ _ Hi) by lia. by rewrite bool_decide_eq_true. }
  induction (seqZ a (b - a)) as [|c l IH]; [done|]. rewrite !filter_cons. pose proof (Hx c ltac:(by left)).
  rewrite IH by (intros; apply Hx; by right). repeat case_decide; done || tauto.
Qed.

(** Expiry of the discard timer.  The SDUs from TX_NEXT_ACK on that came at the same tick as the oldest one are
    discarded, in order and each notified once to the lower layer; the first one that came at another tick
    becomes the oldest, and the timer runs again for it. *)
Theorem pdcp_tx_discard_expiry s g s' es :
  reachable s g ->
  let e := entity s in let e' := entity s' in let a := tx_next_ack (st e) in let k := tx_next_ack (st e') in
  is_running (discard_timer e) = true -> stopped e = false -> a < tx_next (st e) ->
  step (op_discard_timeout (tm_cmd_id (discard_timer e))) s = Some (s', es) ->
  a < k <= tx_next (st e) /\
  discards es = map (SN e) (filter (fun c => has_sn e c = true) (seqZ a (k - a))) /\
  (forall x, 0 <= x < 2 ^ 32 -> has_sn e' x = has_sn e x && (k <=? x)) /\
  (forall c, a <= c < k -> has_sn e c = true -> tick_at e c = tick_at e a) /\
  (k < tx_next (st e) -> has_sn e k = true /\ tick_at e k <> tick_at e a /\ is_running (discard_timer e') = true).
Proof.
  intros Hr e e' a k Hrun Hst Hlt Hstep. destruct (pdcp_tx_reachable_inv s g Hr) as [(held & Hi) _].
  pose proof (ts_tx _ _ _ _ _ _ Hi) as Hx. pose proof (ti_st _ _ _ Hx) as [Ha Hn _ _ _ _]. fold e in Hx, Ha, Hn.
  eapply step_post in Hstep; [|unfold op_action; apply (wp_discard_timeout (engines g) held); [exact Hx|apply Hi|done]].
  destruct Hstep as (held' & Hmv & _ & _ & Hp). fold e e' in Hmv, Hp. rewrite Z.eqb_refl, Hst in Hp.
  destruct (Z.ltb_spec (tx_next_ack (st e)) (tx_next (st e))) as [_|]; [|lia]. cbn [negb andb] in Hp.
  destruct Hp as (k0 & es' & -> & -> & (d & Hsh) & Harm & Hes & Hk & Hsame & Hnext). simpl in Hk, Hsame, Hnext.
  assert (k = k0) as -> by (destruct Hsh as (_ & w & E & _); unfold k; by rewrite E).
  assert (forall c, 0 <= c < 2 ^ 32 -> is_Some (held !! c) <-> has_sn e c = true) as Hhas.
  { intros c Hc. rewrite (has_sn_tx _ _ _ _ Hx) by done. by rewrite bool_decide_eq_true. }
  split; [done|]. split; [|split; [|split]].
  - rewrite Hes, <- (counts_of_has_sn (engines g) held) by (done || lia). simpl. fold a.
    induction (counts_of held a k0) as [|c l IH]; [done|]. simpl. f_equal. apply IH.
  - eapply has_sn_keeps; [exact Hx|apply (mv_inv _ _ _ _ _ Hmv)|]. intros x _. apply released_lookup.
  - intros c Hc Hcs. apply (Hsame c Hc). apply Hhas; [lia|done].
  - intros Hlt'. destruct (Hnext Hlt') as [H1 H2]. split; [apply Hhas; [lia|done]|]. split; [done|].
    destruct Hsh as (_ & w & E & _). assert (stopped e' = stopped e /\ cfg e' = cfg e /\ tx_next (st e') = tx_next (st e) /\ tx_next_ack (st e') = k0)
      as (E1 & E2 & E3 & E4) by by rewrite E.
    apply Harm; [by rewrite E1|rewrite E2; apply (ts_armed _ _ _ _ _ _ Hi), Hrun|by rewrite E3, E4].
Qed.

Lemma gone_filter cs : forall held, NoDup cs -> gone held cs = filter (fun c => is_Some (held !! c)) cs.
Proof.
  induction cs as [|c cs IH]; intros held Hnd; [done|]. apply NoDup_cons in Hnd as [Hc Hnd]. simpl. rewrite filter_cons. case_decide; [f_equal|by apply IH].
  rewrite <- IH by done. apply gone_ext. intros x Hx. rewrite lookup_delete_ne; [done|]. by intros ->.
Qed.

(** The COUNTs marked are those whose bit is set. *)
Lemma marked_spec bs : forall c x, 0 <= c -> c + zlen bs <= 2 ^ 32 -> x ∈ marked c bs <-> c <= x /\ bs !! Z.to_nat (x - c) = Some true.
Proof.
  induction bs as [|b bs IH]; intros c x Hc Hl.
  - simpl. rewrite lookup_nil. split; [intros Hx; by apply elem_of_nil in Hx|by intros [_ ?]].
  - rewrite zlen_cons in Hl. pose proof (zlen_nonneg bs).
    assert (x ∈ marked (u32 (c + 1)) bs <-> c + 1 <= x /\ bs !! Z.to_nat (x - (c + 1)) = Some true) as Hr.
    { destruct bs as [|b' bs']; [simpl; rewrite lookup_nil; split; [intros Hx; by apply elem_of_nil in Hx|by intros [_ ?]]|].
      rewrite zlen_cons in *. pose proof (zlen_nonneg bs'). rewrite u32_small by lia. apply IH; lia. }
    destruct (Z.lt_trichotomy x c) as [Hlt|[->|Hgt]].
    + simpl. destruct b; rewrite ?elem_of_cons, Hr; lia.
    + rewrite Z.sub_diag. simpl. destruct b; rewrite ?elem_of_cons, Hr; [split; [done|by left]|split; [lia|by intros [_ ?]]].
    + replace (Z.to_nat (x - c)) with (Datatypes.S (Z.to_nat (x - (c + 1)))) by lia. simpl.
      destruct b; rewrite ?elem_of_cons, Hr; [split; [intros [?|[? ?]]; [lia|split; [lia|done]]|intros [? ?]; right; split; [lia|done]]|].
      split; intros [? ?]; (split; [lia|done]).
Qed.

Lemma marked_nodup bs : forall c, 0 <= c -> c + zlen bs <= 2 ^ 32 -> NoDup (marked c bs).
Proof.
  induction bs as [|b bs IH]; intros c Hc Hl; [constructor|]. rewrite zlen_cons in Hl. pose proof (zlen_nonneg bs). simpl.
  assert (NoDup (marked (u32 (c + 1)) bs) /\ c ∉ marked (u32 (c + 1)) bs) as [Hn Hni].
  { destruct bs as [|b' bs']; [split; [constructor|apply not_elem_of_nil]|]. rewrite zlen_cons in *. pose proof (zlen_nonneg bs').
    rewrite u32_small by lia. split; [apply IH; lia|]. rewrite marked_spec by (rewrite ?zlen_cons; lia). lia. }
  destruct b; [by constructor|done].
Qed.

(** What a report confirms. *)
Definition reported (fmc : Z) (bitmap : list bool) (x : Z) : Prop := x < fmc \/ fmc < x /\ bitmap !! Z.to_nat (x - (fmc + 1)) = Some true.

Lemma wp_status_report sent0 G held tasks0 h e status fmc bitmap :
  sys_inv sent0 G held tasks0 h e -> is_configured (cfg e) = true -> Forall is_byte status -> bytes_bits status = report_bits fmc bitmap ->
  0 <= fmc -> fmc + 1 + zlen bitmap <= 2 ^ 32 ->
  wp (handle_status_report status) (fun _ e' es =>
    (forall x, 0 <= x < 2 ^ 32 -> has_sn e' x = true <-> has_sn e x = true /\ ~ reported fmc bitmap x) /\
    discards es = map (SN e) (filter (fun c => has_sn e c = true) (confirmed (tx_next_ack (st e)) fmc bitmap))) e.
Proof.
  intros Hi Hcfg Hb Hbits Hf Hlen. pose proof (ts_tx _ _ _ _ _ _ Hi) as Hx. pose proof (ti_st _ _ _ Hx) as [Ha Hn _ _ _ _]. pose proof (zlen_nonneg bitmap).
  eapply wp_mono; [apply (wp_handle_status_report (P := True) G held _ status fmc bitmap Hx Hb); intros _; split; [exact Hbits|lia]|].
  cbv beta. intros _ e' es (cs & Hd & Hcs). specialize (Hcs I). subst cs. unfold effective in Hd. rewrite Hcfg in Hd.
  set (cs := confirmed (tx_next_ack (st e)) fmc bitmap) in *. destruct (discards_all_inv _ _ _ _ _ _ Hd) as [Hi' _]. destruct Hd as [-> _].
  assert (forall x, x ∈ marked (u32 (fmc + 1)) bitmap <-> fmc < x /\ bitmap !! Z.to_nat (x - (fmc + 1)) = Some true) as Hm.
  { intros x. destruct bitmap as [|b bs]; [simpl; rewrite lookup_nil; split; [intros Hq; by apply elem_of_nil in Hq|by intros [_ ?]]|].
    rewrite zlen_cons in *. pose proof (zlen_nonneg bs). rewrite u32_small, marked_spec by (rewrite ?zlen_cons; lia).
    split; intros [? ?]; (split; [lia|done]). }
  assert (NoDup cs) as Hnd.
  { unfold cs, confirmed. apply NoDup_app. split; [apply NoDup_seqZ|]. split.
    - intros x Hq%elem_of_seqZ Hq'. apply Hm in Hq'. lia.
    - destruct bitmap as [|b bs]; [constructor|]. rewrite zlen_cons in *. pose proof (zlen_nonneg bs).
      rewrite u32_small by lia. apply marked_nodup; [lia|rewrite zlen_cons; lia]. }
  assert (forall x, is_Some (held !! x) -> tx_next_ack (st e) <= x) as Hlow by (intros x Hs; by eapply held_ack).
  split.
  - intros x Hxr. rewrite (has_sn_tx _ _ _ _ Hx), (has_sn_tx _ _ _ _ Hi'), !bool_decide_eq_true, without_lookup by done.
    assert (is_Some (held !! x) -> x ∈ cs <-> reported fmc bitmap x) as Hrep.
    { intros Hs. unfold cs, confirmed, reported. rewrite elem_of_app, elem_of_seqZ, Hm. specialize (Hlow x Hs). split; intros [?|?]; auto; lia. }
    case_decide as Hin.
    + split; [by intros [? ?]|]. intros [Hs Hno]. tauto.
    + split; [intros Hs; split; [done|tauto]|]. by intros [? _].
  - rewrite gone_filter by done.
    assert (forall c, c ∈ cs -> is_Some (held !! c) <-> has_sn e c = true) as Hhas.
    { intros c Hc. assert (0 <= c < 2 ^ 32) as Hcr.
      { unfold cs, confirmed in Hc. rewrite elem_of_app, elem_of_seqZ, Hm in Hc. destruct Hc as [?|[? Hl]]; [lia|].
        apply lookup_lt_Some in Hl. unfold zlen in *. lia. }
      rewrite (has_sn_tx _ _ _ _ Hx) by done. by rewrite bool_decide_eq_true. }
    clear Hnd Hi'. revert Hhas. generalize cs as l. induction l as [|c l IH]; intros Hhas; [done|]. rewrite !filter_cons.
    pose proof (Hhas c ltac:(by left)). assert (forall x, x ∈ l -> is_Some (held !! x) <-> has_sn e x = true) as Hl by (intros; apply Hhas; by right).
    specialize (IH Hl). repeat case_decide; try tauto. simpl. f_equal. exact IH.
Qed.

(** Status reports.  A report that confirms the COUNTs below FMC and those marked in its bitmap makes the entity
    discard exactly the SDUs of the window with these COUNTs, in this order and each notified once to the lower
    layer; the others stay. *)
Theorem pdcp_tx_status_report_exact s g status fmc bitmap s' es :
  reachable s g ->
  let e := entity s in let e' := entity s' in
  is_configured (cfg e) = true -> Forall is_byte status -> bytes_bits status = report_bits fmc bitmap ->
  0 <= fmc -> fmc + 1 + zlen bitmap <= 2 ^ 32 ->
  step (op_status_report status) s = Some (s', es) ->
  (forall x, 0 <= x < 2 ^ 32 -> has_sn e' x = true <-> has_sn e x = true /\ ~ reported fmc bitmap x) /\
  discards es = map (SN e) (filter (fun c => has_sn e c = true) (confirmed (tx_next_ack (st e)) fmc bitmap)).
Proof.
  intros Hr e e' Hcfg Hb Hbits Hf Hlen Hstep. destruct (pdcp_tx_reachable_inv s g Hr) as [(held & Hi) _].
  eapply step_post in Hstep; [|unfold op_action; by apply (wp_status_report _ _ _ _ _ _ status fmc bitmap Hi)]. exact Hstep.
Qed.

(** Data recovery on an RLC AM bearer with discard timer.  Every SDU of the window goes to the crypto workers again
    behind the header of its old COUNT, in ascending order of COUNT, as a retransmission; handing over starts
    over at TX_NEXT_ACK; and PDUs of the transmission before that are still on their way are not handed over
    any more. *)
Theorem pdcp_tx_data_recovery s g report accepted s' es :
  reachable s g -> op_ok (op_data_recovery report accepted) s ->
  let e := entity s in let e' := entity s' in
  is_configured (cfg e) = true -> step (op_data_recovery report accepted) s = Some (s', es) ->
  dispatched es = omap (fun c => if has_sn e c then retx_task (sent g) (rewound e) accepted c else None)
    (seqZ (tx_next_ack (st e)) (tx_next (st e) - tx_next_ack (st e))) /\
  tx_trans_crypto (st e') = tx_next_ack (st e) /\ tx_next_ack (st e') = tx_next_ack (st e) /\ tx_next (st e') = tx_next (st e) /\
  (forall c, 0 <= c < 2 ^ 32 -> has_sn e' c = has_sn e c) /\
  (forall i, bi_retx_id i = retransmit_id e -> takes e' i = false).
Proof.
  intros Hr (Hsrb & Ham & Hre & Hmax) e e' Hcfg Hstep. destruct (pdcp_tx_reachable_inv s g Hr) as [(held & Hi) _].
  pose proof (ts_tx _ _ _ _ _ _ Hi) as Hx. pose proof (ti_st _ _ _ Hx) as [Ha Hn _ _ _ _]. fold e in Hsrb, Ham, Hre, Hx, Ha, Hn.
  assert (retransmits e = true) as Hret by (unfold retransmits; by rewrite Hcfg, Ham).
  assert (wp (data_recovery report accepted) (fun _ e1 es => same_tx (rewound e) e1 /\
    dispatched es = retx_tasks held (rewound e) accepted (tx_next_ack (st e)) (tx_next (st e))) e) as Hw.
  { unfold data_recovery. do 3 wp_step. apply wp_assert; [by rewrite Hsrb, Ham|]. wp_step.
    apply (wp_mono _ (fun _ e1 es => e1 = e /\ dispatched es = [])).
    { unfold send_status_report. destruct (status_report_required _) eqn:Er; cbn [when]; [|by wp_step].
      do 2 wp_step. rewrite Er. cbn [when]. unfold write_control_pdu_to_lower_layers. do 3 wp_step. done. }
    cbv beta. intros _ e1 es1 (-> & Hd1). eapply wp_mono; [by apply (wp_retransmit_all _ _ _ _ _ _ accepted Hi)|]. cbv beta.
    intros _ e1 es2 (_ & _ & _ & Hq). fold e in Hq. rewrite Hret in Hq. simpl. by rewrite tx_dispatched_app, Hd1. }
  eapply step_post in Hstep; [|exact Hw]. destruct Hstep as [(E1&E2&E3&E4&E5&E6&E7&E8&E9&E10) Hd]. fold e' in E1,E2,E3,E4,E5,E6,E7,E8,E9,E10.
  split; [|split; [by rewrite E6|split; [by rewrite E6|split; [by rewrite E6|split]]]].
  - rewrite Hd. unfold retx_tasks. set (l := seqZ _ _).
    assert (forall c, c ∈ l -> retx_task held (rewound e) accepted c = if has_sn e c then retx_task (sent g) (rewound e) accepted c else None) as Hc.
    { intros c Hc%elem_of_seqZ. rewrite (has_sn_tx _ _ _ _ Hx) by lia. unfold retx_task. case_bool_decide as Hs.
      - destruct Hs as [sdu Hs]. by rewrite Hs, (lookup_weaken _ _ _ _ Hs (ts_held _ _ _ _ _ _ Hi)).
      - apply eq_None_not_Some in Hs. by rewrite Hs. }
    revert Hc. induction l as [|c l IH]; intros Hc; [done|]. simpl. rewrite (Hc c) by by left.
    destruct (if has_sn e c then _ else _); [f_equal|]; apply IH; intros; apply Hc; by right.
  - intros c Hc. unfold has_sn. by rewrite E8.
  - intros i Hid. unfold takes. rewrite E9, Hid. simpl. destruct (Z.eqb_spec (retransmit_id e) (u16 (retransmit_id e + 1))) as [E|]; [|by rewrite andb_false_r].
    exfalso. unfold u16 in E. pose proof (Z.mod_pos_bound (retransmit_id e + 1) (2 ^ 16) eq_refl).
    destruct (Z.eq_dec (retransmit_id e) 65535) as [E0|]; [by rewrite E0 in E|]. rewrite Z.mod_small in E; lia.
Qed.
End theorems.

#[export] Existing Instances restart_ok_dec clock_ok_dec crypto_succeeds_dec tx_op_ok_dec.

(** ** Witnesses: an RLC AM bearer with a discard timer of 100 ms *)

Definition tx_example_config : pdcp_tx_config :=
  mk_config rb_drb mode_am pdcp_size12bits sd_downlink false (Some 100) true (mk_max_count 0xc0000000 0xd0000000) false.

Definition tx_start (config : pdcp_tx_config) : tx_system :=
  match create config 1 2 false with
  | Some e => mk_sys e [] false
  | None => mk_sys (mk_entity config 1 0 true create_timer create_timer (mk_state 0 0 0 0 0) 0 0 [] false false Tokens.init false []
      (mk_tx_window (CircularMap.empty_map 0) 0 0) false false) [] true
  end.
Definition tx_start_history : history := mk_history ∅ [None] [].

Definition tx_keys : sec_128_as_config := mk_sec_config domain_up (Some [1; 2]) [3; 4] (Some nia2) nea2.

(** Security is configured and the lower layer has room; three SDUs arrive, the last one later. *)
Definition tx_example_ops : list tx_op :=
  [op_configure_security tx_keys true true; op_desired_buffer_size 100000;
   op_handle_sdu 7 true [5; 6]; op_handle_sdu 7 true [7]; op_handle_sdu 27 true [8; 9]].

Definition tx_run_from (config : pdcp_tx_config) (os : list tx_op) : tx_system * history :=
  default (tx_start config, tx_start_history) (run os (tx_start config) tx_start_history).


(** The SDU of COUNT 1 comes back from the crypto workers before that of COUNT 0. *)
Definition tx_overtaken : tx_system * history :=
  tx_run_from tx_example_config (tx_example_ops ++ [op_run_task 1 0 true 28; op_run_task 2 0 true 28; op_run_task 0 1 true 28]).
(** All three are handed over. *)
Definition tx_flown_ops : list tx_op :=
  tx_example_ops ++ [op_run_task 1 0 true 28; op_run_task 2 0 true 28; op_run_task 0 1 true 28; op_run_task 1 0 true 28;
                     op_run_task 0 0 true 29; op_run_task 0 0 true 29].
Definition tx_flown : tx_system * history := tx_run_from tx_example_config tx_flown_ops.

(** The state after one more step. *)
Definition tx_after (s : tx_system) (o : tx_op) : tx_system * list tx_event := default (s, []) (step o s).

Lemma tx_start_reachable : reachable (tx_start tx_example_config) tx_start_history.
Proof.
  apply (reachable_create tx_example_config 1 2 false); [reflexivity|]. split; [discriminate|]. split; [discriminate|].
  split; [right; simpl; lia|]. split; [simpl; lia|reflexivity].
Qed.

Lemma tx_overtaken_reachable : reachable (fst tx_overtaken) (snd tx_overtaken).
Proof.
  apply (tx_run_reachable (tx_example_ops ++ [op_run_task 1 0 true 28; op_run_task 2 0 true 28; op_run_task 0 1 true 28])
    (tx_start tx_example_config) tx_start_history); [apply tx_start_reachable|vm_compute; reflexivity].
Qed.
Lemma tx_flown_reachable : reachable (fst tx_flown) (snd tx_flown).
Proof. apply (tx_run_reachable tx_flown_ops (tx_start tx_example_config) tx_start_history); [apply tx_start_reachable|vm_compute; reflexivity]. Qed.

Lemma pdcp_tx_never_aborts_witness :
  op_ok (op_handle_sdu 40 true [1]) (fst tx_flown) /\ exists s' es, step (op_handle_sdu 40 true [1]) (fst tx_flown) = Some (s', es).
Proof.
  assert (op_ok (op_handle_sdu 40 true [1]) (fst tx_flown)) as Hok by (refine (bool_decide_unpack (op_ok _ _) _); vm_compute; exact I).
  split; [exact Hok|]. exact (pdcp_tx_never_aborts _ _ _ tx_flown_reachable Hok).
Defined.

(** Two SDUs arrive while the entity buffers. *)
Definition tx_buffered_ops : list tx_op := tx_example_ops ++ [op_begin_buffering; op_handle_sdu 30 true [1; 2]; op_handle_sdu 31 true [3]].
Definition tx_buffered : tx_system * history := tx_run_from tx_example_config tx_buffered_ops.

Lemma pdcp_tx_flush_terminates_witness :
  sdu_buffer (entity (fst tx_buffered)) = [[1; 2]; [3]] /\
  exists s' es, step (op_end_buffering 40 (fun _ => true)) (fst tx_buffered) = Some (s', es) /\ sdu_buffer (entity s') = [].
Proof.
  split; [vm_compute; reflexivity|].
  assert (reachable (fst tx_buffered) (snd tx_buffered)) as Hr.
  { apply (tx_run_reachable tx_buffered_ops (tx_start tx_example_config) tx_start_history); [apply tx_start_reachable|vm_compute; reflexivity]. }
  assert (op_ok (op_end_buffering 40 (fun _ => true)) (fst tx_buffered)) as Hok by (refine (bool_decide_unpack (op_ok _ _) _); vm_compute; exact I).
  destruct (pdcp_tx_flush_terminates _ _ 40 (fun _ => true) Hr Hok) as (s' & es & H1 & H2 & _). exists s', es. split; [exact H1|exact H2].
Defined.


Lemma pdcp_tx_hands_over_in_order_witness :
  zlen (handed (snd tx_flown)) = 3 /\ exists counts, StronglySorted Z.lt counts /\ length counts = 3%nat.
Proof.
  split; [vm_compute; reflexivity|]. destruct (pdcp_tx_hands_over_in_order _ _ tx_flown_reachable) as (counts & H1 & H2 & _).
  exists counts. split; [exact H1|]. rewrite (Forall2_length _ _ _ H2). vm_compute. reflexivity.
Defined.

Definition tx_overtaken_pdu : pdcp_tx_buffer_info :=
  match tasks (fst tx_overtaken) !! 1%nat with Some (task_reordering i) => i | _ => mk_buffer_info false 0 0 [] end.

Lemma pdcp_tx_reordering_exact_witness :
  let o := op_run_task 1 0 true 28 in
  step o (fst tx_overtaken) = Some (tx_after (fst tx_overtaken) o) /\
  tx_trans_crypto (st (entity (fst (tx_after (fst tx_overtaken) o)))) = 2 /\
  pdus (snd (tx_after (fst tx_overtaken) o)) = map (fun c => (pdu_with (entity (fst tx_overtaken)) tx_overtaken_pdu c, false)) [0; 1].
Proof.
  assert (op_ok (op_run_task 1 0 true 28) (fst tx_overtaken)) as H1 by (refine (bool_decide_unpack (op_ok _ _) _); vm_compute; exact I).
  assert (tasks (fst tx_overtaken) !! 1%nat = Some (task_reordering tx_overtaken_pdu)) as H2 by (vm_compute; reflexivity).
  assert (step (op_run_task 1 0 true 28) (fst tx_overtaken) = Some (fst (tx_after (fst tx_overtaken) (op_run_task 1 0 true 28)),
    snd (tx_after (fst tx_overtaken) (op_run_task 1 0 true 28)))) as H3 by (vm_compute; reflexivity).
  pose proof (pdcp_tx_reordering_exact _ _ _ _ _ _ _ _ _ tx_overtaken_reachable H2 H1 H3) as H4. cbv zeta in H4.
  assert (takes (entity (fst tx_overtaken)) tx_overtaken_pdu = true) as H5 by (vm_compute; reflexivity). rewrite H5 in H4.
  assert (tx_trans_crypto (st (entity (fst (tx_after (fst tx_overtaken) (op_run_task 1 0 true 28))))) = 2) as H6 by (vm_compute; reflexivity).
  destruct H4 as (_ & _ & _ & H7 & _). rewrite H6 in H7. split; [vm_compute; reflexivity|]. split; [exact H6|exact H7].
Defined.

Lemma pdcp_tx_delivery_notification_witness :
  let o := op_delivery_notification 30 0 in
  tx_next_ack (st (entity (fst (tx_after (fst tx_flown) o)))) = 1 /\ is_running (discard_timer (entity (fst (tx_after (fst tx_flown) o)))) = true.
Proof.
  assert (op_ok (op_delivery_notification 30 (SN (entity (fst tx_flown)) 0)) (fst tx_flown)) as H1
    by (refine (bool_decide_unpack (op_ok _ _) _); vm_compute; exact I).
  assert (step (op_delivery_notification 30 (SN (entity (fst tx_flown)) 0)) (fst tx_flown) =
    Some (fst (tx_after (fst tx_flown) (op_delivery_notification 30 0)), snd (tx_after (fst tx_flown) (op_delivery_notification 30 0)))) as H2 by (vm_compute; reflexivity).
  destruct (pdcp_tx_delivery_notification _ _ 30 0 _ _ tx_flown_reachable ltac:(vm_compute; reflexivity) ltac:(vm_compute; reflexivity)
    ltac:(vm_compute; reflexivity) ltac:(vm_compute; reflexivity) ltac:(vm_compute; split; reflexivity || discriminate) H1 H2) as (_ & H3 & _ & _ & H4).
  split; [exact H3|]. apply H4; vm_compute; reflexivity.
Defined.

Lemma pdcp_tx_discard_expiry_witness :
  let o := op_discard_timeout (tm_cmd_id (discard_timer (entity (fst tx_flown)))) in
  tx_next_ack (st (entity (fst (tx_after (fst tx_flown) o)))) = 2 /\ discards (snd (tx_after (fst tx_flown) o)) = [0; 1].
Proof.
  assert (step (op_discard_timeout (tm_cmd_id (discard_timer (entity (fst tx_flown))))) (fst tx_flown) =
    Some (fst (tx_after (fst tx_flown) (op_discard_timeout (tm_cmd_id (discard_timer (entity (fst tx_flown)))))),
          snd (tx_after (fst tx_flown) (op_discard_timeout (tm_cmd_id (discard_timer (entity (fst tx_flown)))))))) as H1 by (vm_compute; reflexivity).
  destruct (pdcp_tx_discard_expiry _ _ _ _ tx_flown_reachable ltac:(vm_compute; reflexivity) ltac:(vm_compute; reflexivity) ltac:(vm_compute; reflexivity) H1)
    as (_ & H2 & _). split; [vm_compute; reflexivity|]. etransitivity; [exact H2|]. vm_compute. reflexivity.
Defined.

(** The receiver has COUNT 1 only. *)
Definition tx_report : list Z := [0; 0; 0; 0; 0; 128].

Lemma pdcp_tx_status_report_exact_witness :
  let o := op_status_report tx_report in
  discards (snd (tx_after (fst tx_flown) o)) = [1] /\ has_sn (entity (fst (tx_after (fst tx_flown) o))) 0 = true.
Proof.
  assert (step (op_status_report tx_report) (fst tx_flown) =
    Some (fst (tx_after (fst tx_flown) (op_status_report tx_report)), snd (tx_after (fst tx_flown) (op_status_report tx_report)))) as H1 by (vm_compute; reflexivity).
  assert (Forall is_byte tx_report) as H2 by by apply bytes_check.
  assert (bytes_bits tx_report = report_bits 0 [true; false; false; false; false; false; false; false]) as H3 by (vm_compute; reflexivity).
  destruct (pdcp_tx_status_report_exact _ _ tx_report 0 _ _ _ tx_flown_reachable ltac:(vm_compute; reflexivity) H2 H3 ltac:(vm_compute; discriminate)
    ltac:(vm_compute; discriminate) H1) as [H4 H5].
  split; [etransitivity; [exact H5|]; vm_compute; reflexivity|]. apply H4; [vm_compute; split; reflexivity || discriminate|].
  split; [vm_compute; reflexivity|]. intros [H6|[H6 _]]; revert H6; vm_compute; discriminate.
Defined.

Lemma pdcp_tx_data_recovery_witness :
  let o := op_data_recovery tx_report (fun _ => true) in
  tx_trans_crypto (st (entity (fst (tx_after (fst tx_flown) o)))) = 0 /\ zlen (dispatched (snd (tx_after (fst tx_flown) o))) = 3.
Proof.
  assert (op_ok (op_data_recovery tx_report (fun _ => true)) (fst tx_flown)) as H1 by (refine (bool_decide_unpack (op_ok _ _) _); vm_compute; exact I).
  assert (step (op_data_recovery tx_report (fun _ => true)) (fst tx_flown) =
    Some (fst (tx_after (fst tx_flown) (op_data_recovery tx_report (fun _ => true))), snd (tx_after (fst tx_flown) (op_data_recovery tx_report (fun _ => true))))) as H2
    by (vm_compute; reflexivity).
  destruct (pdcp_tx_data_recovery _ _ _ _ _ _ tx_flown_reachable H1 ltac:(vm_compute; reflexivity) H2) as (H3 & H4 & _).
  split; [exact H4|]. rewrite H3. vm_compute. reflexivity.
Defined.

(** ** Where the entity fails *)

Definition plain_keys : sec_128_as_config := mk_sec_config domain_up None [] None nea0.

(** A bearer with two or three SDUs on their way, without ciphering and integrity protection. *)
Definition plain_ops (n : nat) : list tx_op :=
  [op_configure_security plain_keys false false; op_desired_buffer_size 100000] ++
  map (fun i => op_handle_sdu (10 * Z.of_nat i) true [Z.of_nat i]) (seq 0 n).

Fixpoint steps {A : SecurityAlgorithms} (os : list tx_op) (s : tx_system) : option tx_system :=
  match os with
  | [] => Some s
  | o :: os' => match step o s with Some (s', _) => steps os' s' | None => None end
  end.

(** A gap in the window ends the process at the next delivery notification.  The peer's status report confirms
    COUNT 1 and not COUNT 0; when RLC confirms COUNT 0, the restart of the discard timer reads the SDU of COUNT 1,
    which the report has removed. *)
Theorem pdcp_tx_gap_aborts_notification (A : SecurityAlgorithms) :
  exists s, steps (plain_ops 3 ++ [op_run_task 0 0 true 30; op_run_task 0 0 true 30; op_run_task 0 0 true 30; op_run_task 0 0 true 30;
      op_run_task 0 0 true 30; op_run_task 0 0 true 30; op_status_report tx_report]) (tx_start tx_example_config) = Some s /\
    tasks s = [] /\ st (entity s) = mk_state 3 3 3 0 0 /\
    op_action (op_delivery_notification 40 0) s (entity s) = Fault FaultAssert.
Proof. eexists. split; [vm_compute; reflexivity|]. split; [reflexivity|]. split; [reflexivity|]. vm_compute. reflexivity. Qed.

(** The discard timer ends the process when it is faster than the crypto workers.  It removes the SDU of COUNT 0,
    which still waits for its worker; the PDU of COUNT 1 comes back, and the delivery in order reads the window
    at TX_TRANS_CRYPTO, where the SDU is missing. *)
Theorem pdcp_tx_discarded_sdu_aborts_reordering (A : SecurityAlgorithms) :
  exists s, steps (plain_ops 2 ++ [op_run_task 1 0 true 90; op_discard_timeout 1]) (tx_start tx_example_config) = Some s /\
    map (fun t => match t with task_reordering i => bi_count i | _ => -1 end) (tasks s) = [-1; 1] /\
    st (entity s) = mk_state 2 0 0 1 1 /\ op_action (op_run_task 1 0 true 110) s (entity s) = Fault FaultAssert.
Proof. eexists. split; [vm_compute; reflexivity|]. split; [reflexivity|]. split; [reflexivity|]. vm_compute. reflexivity. Qed.
