(* ===== verification/PdcpEndToEnd.v ===== *)
(** * PDCP end to end

    A transmitting entity ([PdcpTx]) and the receiving entity of its peer ([PdcpRx]): a PDU that one hands
    over is taken by the other with its COUNT and its SDU, and the status report of the other releases
    exactly what it no longer waits for. *)

From S2P Require Import Prelude Effects Window Timers BitEncoding PdcpSn Ciphering Security PdcpBase PdcpRx PdcpRxFacts PdcpRxSystem PdcpRxTheorems PdcpTx PdcpTxFacts PdcpTxInv PdcpTxDiscard PdcpTxReorder PdcpTxSystem PdcpTxSend PdcpTxControl PdcpTxRuns PdcpTxTheorems.
Open Scope Z_scope.
Open Scope entity_scope.

Section end_to_end.
Context `{L : SecurityLaws}.

(** The tasks a run of the receiving entity dispatches. *)
Definition rx_dispatched (es : list PdcpRx.rx_event) : list PdcpRxFacts.rx_task := PdcpRxFacts.dispatched es.

(** The bearer of the receiving entity fits that of the transmitting entity. *)
Record matching (cf : PdcpTx.pdcp_tx_config) (rx : PdcpRx.pdcp_entity_rx) : Prop := {
  m_sn : PdcpRx.sn_size (PdcpRx.cfg rx) = PdcpTx.sn_size cf;
  m_rb : PdcpRx.rb_type (PdcpRx.cfg rx) = PdcpTx.rb_type cf
}.

(** The PDU of an SDU: the header in clear, and what deciphers to the SDU. *)
Lemma pdu_shape cf g c sdu buf pdu :
  sn_size_ok (PdcpTx.sn_size cf) -> bytes sdu -> sdu <> [] -> 0 <= c ->
  PdcpTxFacts.with_header cf c sdu = Some buf ->
  SecurityEngine.encrypt_and_protect_integrity g buf (pdcp_data_pdu_header_size (PdcpTx.sn_size cf)) c = inl pdu ->
  let n := pdcp_data_pdu_header_size (PdcpTx.sn_size cf) in let is_srb := bool_decide (PdcpTx.rb_type cf = rb_srb) in
  SecurityEngine.decrypt_and_verify_integrity g pdu n c = inl buf /\ drop (Z.to_nat n) buf = sdu /\ n < zlen buf /\ n < zlen pdu /\
  read_data_pdu_header (PdcpTx.sn_size cf) pdu = Some (pdcp_compute_sn c (PdcpTx.sn_size cf)) /\
  exists b rest, pdu = b :: rest /\ pdcp_pdu_get_dc b = if is_srb then pdcp_control else pdcp_data.
Proof.
  intros Hs Hb Hne Hc Hh He n is_srb. unfold PdcpTxFacts.with_header in Hh. fold is_srb in Hh.
  destruct (data_pdu_header is_srb (PdcpTx.sn_size cf) _) as [h|] eqn:Eh; [|done]. injection Hh as <-.
  assert (0 <= pdcp_compute_sn c (PdcpTx.sn_size cf) < pdcp_sn_cardinality (PdcpTx.sn_size cf)) as Hsn.
  { rewrite compute_sn_mod by done. apply Z.mod_pos_bound. by destruct (PdcpTx.sn_size cf). }
  destruct (pdcp_header_roundtrip _ _ _ _ sdu Hsn Eh Hne) as (Hl & Hbh & _ & b & rest & -> & Hdc). fold n in Hl.
  set (h := b :: rest) in *. assert (0 < zlen sdu) as Hls.
  { destruct sdu; [done|]. rewrite zlen_cons. pose proof (zlen_nonneg sdu). lia. }
  assert (bytes (h ++ sdu)) as Hbb by by apply Forall_app.
  assert (0 <= n <= zlen (h ++ sdu)) as Hn by (rewrite zlen_app, Hl; assert (0 <= n) by (unfold n; by destruct (PdcpTx.sn_size cf)); lia).
  assert (Z.to_nat n = length h) as Hnat by (unfold zlen in Hl; lia).
  destruct (SecurityEngine.protected_opens g (h ++ sdu) n c pdu Hbb ltac:(done) Hn He) as (Hd & Htk & Hlp).
  split; [done|]. split; [rewrite Hnat; apply drop_app_length|]. split; [rewrite zlen_app; lia|]. rewrite zlen_app in Hlp. split; [lia|].
  rewrite Hnat, take_app_length in Htk. pose proof (take_drop (length h) pdu) as Ep. rewrite Htk in Ep. set (tl := drop (length h) pdu) in *.
  assert (tl <> []) as Hne' by (intros E; rewrite E, app_nil_r in Ep; rewrite <- Ep in Hlp; lia).
  rewrite <- Ep. split; [|by exists b, (rest ++ tl)].
  by destruct (pdcp_header_roundtrip _ _ _ _ tl Hsn Eh Hne') as (_ & _ & ? & _).
Qed.

(** The state of the receiving entity lets the PDU of this COUNT in. *)
Record listening (rx : PdcpRx.pdcp_entity_rx) (g : SecurityEngine.security_engine_impl) (w : nat) (c : Z) : Prop := {
  l_active : PdcpRx.stopped rx = false /\ PdcpRx.buffering rx = false;
  l_base : 0 <= PdcpRx.rx_deliv (PdcpRx.st rx) < 2 ^ 32;
  l_window : PdcpRx.rx_deliv (PdcpRx.st rx) - PdcpRx.window_size rx <= c < PdcpRx.rx_deliv (PdcpRx.st rx) + PdcpRx.window_size rx;
  l_hard : 0 <= c < hard (PdcpRx.max_count (PdcpRx.cfg rx)) /\ hard (PdcpRx.max_count (PdcpRx.cfg rx)) <= 2 ^ 32;
  l_engine : (w < PdcpRx.max_nof_crypto_workers rx)%nat /\ PdcpRx.sec_engine_pool rx !! w = Some (Some g)
}.

Lemma wp_rx_takes rx g w c pdu :
  sn_size_ok (PdcpRx.sn_size (PdcpRx.cfg rx)) -> listening rx g w c ->
  PdcpRx.hdr_len_bytes rx < zlen pdu ->
  read_data_pdu_header (PdcpRx.sn_size (PdcpRx.cfg rx)) pdu = Some (pdcp_compute_sn c (PdcpRx.sn_size (PdcpRx.cfg rx))) ->
  (exists b rest, pdu = b :: rest /\ pdcp_pdu_get_dc b = if PdcpRx.is_srb rx then pdcp_control else pdcp_data) ->
  wp (PdcpRx.handle_pdu true pdu) (fun _ rx' es => rx_dispatched es = [PdcpRxFacts.task_security (PdcpRx.mk_pdu_info pdu c)] /\
    PdcpRx.cfg rx' = PdcpRx.cfg rx /\ PdcpRx.max_nof_crypto_workers rx' = PdcpRx.max_nof_crypto_workers rx /\
    PdcpRx.sec_engine_pool rx' = PdcpRx.sec_engine_pool rx) rx.
Proof.
  intros Hs [[Hst Hbuf] Hbase Hwin Hhard _] Hlen Hread (b & rest & Epdu & Hdc). unfold PdcpRx.handle_pdu. do 2 wp_step. rewrite Hst, Hbuf.
  do 2 wp_step. rewrite Epdu. assert (PdcpRx.is_srb rx || match pdcp_pdu_get_dc b with pdcp_data => true | pdcp_control => false end = true) as ->.
  { rewrite Hdc. by destruct (PdcpRx.is_srb rx). }
  rewrite <- Epdu. unfold PdcpRx.handle_data_pdu. do 4 wp_step. destruct (Z.leb_spec (zlen pdu) (PdcpRx.hdr_len_bytes rx)); [lia|].
  rewrite Hread. cbv zeta. set (sn := pdcp_compute_sn c _).
  assert (PdcpRx.rcvd_count rx sn = c) as Hc.
  { change (PdcpRx.rcvd_count rx sn) with (count_of_sn (PdcpRx.sn_size (PdcpRx.cfg rx)) (PdcpRx.rx_deliv (PdcpRx.st rx)) sn).
    apply count_of_sn_exact; [done|done|lia|exact Hwin]. }
  rewrite Hc. destruct (Z.leb_spec (hard (PdcpRx.max_count (PdcpRx.cfg rx))) c); [lia|]. wp_step.
  apply (wp_mono _ (fun _ rx1 es1 => rx_dispatched es1 = [] /\ exists n, rx1 = PdcpRx.set_max_count_flags n (PdcpRx.max_count_overflow rx) rx)).
  { destruct (_ <? c); cbn [when]; [|wp_step; split; [done|exists (PdcpRx.max_count_notified rx); by destruct rx]].
    destruct (negb _); cbn [when]; [do 3 wp_step; split; [done|by exists true]|]. wp_step. split; [done|exists (PdcpRx.max_count_notified rx); by destruct rx]. }
  cbv beta. intros _ rx1 es1 (Hd & n & ->). do 3 wp_step. unfold rx_dispatched in *. simpl. rewrite PdcpRxFacts.dispatched_app, Hd. done.
Qed.

(** The buffer and the PDU of the transmitting entity. *)
Lemma tx_header tx c sdu buf tx1 es :
  PdcpTx.write_data_pdu_header sdu (PdcpTx.SN tx c) tx = Ok (Some buf, tx1, es) -> PdcpTxFacts.with_header (PdcpTx.cfg tx) c sdu = Some buf.
Proof.
  unfold PdcpTx.write_data_pdu_header, PdcpTxFacts.with_header. change (bool_decide (PdcpTx.rb_type (PdcpTx.cfg tx) = rb_srb)) with (PdcpTx.is_srb tx).
  unfold bind, get, assert_, ret. destruct (negb _); [|done]. unfold PdcpTx.SN. by destruct (data_pdu_header _ _ _); intros [= <- <- <-].
Qed.

Lemma tx_protects tx wt g i pdu tx1 es :
  PdcpTx.sec_engine_pool tx !! wt = Some (Some g) ->
  PdcpTx.apply_security wt true i tx = Ok (tt, tx1, es) ->
  PdcpTx.execute_apply_reordering (PdcpTx.mk_buffer_info (PdcpTx.bi_is_retx i) (PdcpTx.bi_retx_id i) (PdcpTx.bi_count i) pdu) ∈ es ->
  SecurityEngine.encrypt_and_protect_integrity g (PdcpTx.bi_buf i) (PdcpTx.hdr_len_bytes tx) (PdcpTx.bi_count i) = inl pdu.
Proof.
  intros Hg. unfold PdcpTx.apply_security, PdcpTx.apply_ciphering_and_integrity_protection, bind, get, need, abort, emit, ret.
  destruct (Nat.leb _ _); [done|]. rewrite Hg. destruct (SecurityEngine.encrypt_and_protect_integrity _ _ _ _); [|done].
  intros [= <- <-] Hin. by apply list_elem_of_singleton in Hin as [= ->].
Qed.

(** C33: End to end.  An SDU that the transmitting entity puts behind the header of a COUNT and that its crypto worker
    protects, taken by a receiving entity that has the same keys and whose window lies around that COUNT, comes
    out of the receiver's crypto worker with the same COUNT and the same octets. *)
Theorem pdcp_end_to_end tx wt i c sdu buf pdu g tx1 es0 tx2 es rx w :
  sn_size_ok (PdcpTx.sn_size (PdcpTx.cfg tx)) -> bytes sdu -> sdu <> [] ->
  matching (PdcpTx.cfg tx) rx -> PdcpTx.sec_engine_pool tx !! wt = Some (Some g) -> listening rx g w c ->
  PdcpTx.write_data_pdu_header sdu (PdcpTx.SN tx c) tx = Ok (Some buf, tx1, es0) ->
  PdcpTx.bi_buf i = buf -> PdcpTx.bi_count i = c -> PdcpTx.apply_security wt true i tx = Ok (tt, tx2, es) ->
  PdcpTx.execute_apply_reordering (PdcpTx.mk_buffer_info (PdcpTx.bi_is_retx i) (PdcpTx.bi_retx_id i) c pdu) ∈ es ->
  exists rx1 es1 rx2 es2,
    PdcpRx.handle_pdu true pdu rx = Ok (tt, rx1, es1) /\ rx_dispatched es1 = [PdcpRxFacts.task_security (PdcpRx.mk_pdu_info pdu c)] /\
    PdcpRx.apply_security w true (PdcpRx.mk_pdu_info pdu c) rx1 = Ok (tt, rx2, es2) /\
    rx_dispatched es2 = [PdcpRxFacts.task_reordering (PdcpRx.mk_pdu_info sdu c)].
Proof.
  set (cf := PdcpTx.cfg tx). intros Hs Hb Hne [Hsn Hrb] Hpool Hl Hh Eb Ec Hsec Hin. pose proof (l_hard _ _ _ _ Hl) as [[Hc _] _].
  apply tx_header in Hh. rewrite <- Ec in Hin. pose proof (tx_protects tx wt g i pdu tx2 es Hpool Hsec Hin) as He. rewrite Eb, Ec in He.
  destruct (pdu_shape cf g c sdu buf pdu Hs Hb Hne Hc Hh He) as (Hd & Hdrop & Hlb & Hlp & Hread & Hdc).
  unfold PdcpRx.hdr_len_bytes in *. rewrite <- Hsn in *.
  assert (PdcpRx.is_srb rx = bool_decide (PdcpTx.rb_type cf = rb_srb)) as Esrb by (unfold PdcpRx.is_srb; by rewrite Hrb).
  rewrite <- Esrb in Hdc. pose proof (wp_rx_takes rx g w c pdu Hs Hl Hlp Hread Hdc) as Hw. unfold wp in Hw.
  destruct (PdcpRx.handle_pdu true pdu rx) as [[[[] rx1] es1]|]; [|done]. destruct Hw as (Hd1 & E1 & E2 & E3).
  pose proof (l_engine _ _ _ _ Hl) as [Hw Hg]. exists rx1, es1.
  assert (wp (PdcpRx.apply_security w true (PdcpRx.mk_pdu_info pdu c)) (fun _ rx2 es2 => rx_dispatched es2 = [PdcpRxFacts.task_reordering (PdcpRx.mk_pdu_info sdu c)]) rx1) as Ha.
  { unfold PdcpRx.apply_security, PdcpRx.apply_deciphering_and_integrity_check. do 3 wp_step. rewrite E2, E3, Hg.
    destruct (Nat.leb_spec (PdcpRx.max_nof_crypto_workers rx) w); [lia|]. wp_step. apply (wp_need _ (Some g)); [done|]. wp_step.
    unfold PdcpRx.hdr_len_bytes. rewrite E1. simpl PdcpRx.pi_buf. simpl PdcpRx.pi_count. rewrite Hd. do 3 wp_step. rewrite E1.
    apply wp_assert; [apply Z.leb_le; lia|]. wp_step. unfold rx_dispatched. simpl. by rewrite Hdrop. }
  unfold wp in Ha. destruct (PdcpRx.apply_security _ _ _ rx1) as [[[[] rx2] es2]|]; [|done]. exists rx2, es2. done.
Qed.

(** ** The status report of the peer *)

(** What a receiving entity no longer waits for, as far as its report says.  [R]: the SDUs that entered its window. *)
Definition delivered_by (rx : PdcpRx.pdcp_entity_rx) (R : gmap Z (list Z)) (x : Z) : Prop := x < PdcpRx.rx_deliv (PdcpRx.st rx) /\ is_Some (R !! x).
(** The SDU never came, and t-Reordering gave it up (or COUNTs started beyond it). *)
Definition passed_over (rx : PdcpRx.pdcp_entity_rx) (R : gmap Z (list Z)) (x : Z) : Prop := x < PdcpRx.rx_deliv (PdcpRx.st rx) /\ R !! x = None.
(** The SDU waits for earlier ones, within reach of the bitmap. *)
Definition held_in_reach (rx : PdcpRx.pdcp_entity_rx) (R : gmap Z (list Z)) (x : Z) : Prop :=
  let d := PdcpRx.rx_deliv (PdcpRx.st rx) in d < x < Z.min (PdcpRx.rx_next (PdcpRx.st rx)) (d + 1 + PdcpRx.max_bits) /\ is_Some (R !! x).
Definition settled (rx : PdcpRx.pdcp_entity_rx) (R : gmap Z (list Z)) (x : Z) : Prop := delivered_by rx R x \/ passed_over rx R x \/ held_in_reach rx R x.

Lemma settled_spec rx R x : let d := PdcpRx.rx_deliv (PdcpRx.st rx) in
  settled rx R x <-> x < d \/ d < x < Z.min (PdcpRx.rx_next (PdcpRx.st rx)) (d + 1 + PdcpRx.max_bits) /\ is_Some (R !! x).
Proof.
  intros d. unfold settled, delivered_by, passed_over, held_in_reach. fold d. split; [tauto|]. intros [H|H]; [|tauto]. destruct (R !! x) eqn:E; [left|right; left]; split; by eauto.
Qed.

Lemma bitmap_lookup (R : gmap Z (list Z)) d n pad x : d < x ->
  (map (fun c => bool_decide (is_Some (R !! c))) (seqZ (d + 1) (n - (d + 1))) ++ repeat false pad) !! Z.to_nat (x - (d + 1)) = Some true <->
  x < n /\ is_Some (R !! x).
Proof.
  intros Hx. rewrite lookup_app, list_lookup_fmap. destruct (Z.lt_ge_cases x n) as [Hlt|Hge].
  - assert (seqZ (d + 1) (n - (d + 1)) !! Z.to_nat (x - (d + 1)) = Some x) as -> by (apply lookup_seqZ; lia). simpl. split.
    + intros [= Hb]. by apply bool_decide_eq_true in Hb.
    + intros [_ Hs]. by rewrite bool_decide_true.
  - assert (seqZ (d + 1) (n - (d + 1)) !! Z.to_nat (x - (d + 1)) = None) as -> by (apply lookup_ge_None; rewrite length_seqZ; lia). simpl. split; [|lia].
    intros Hr. apply list_elem_of_lookup_2, list_elem_of_In, repeat_spec in Hr. done.
Qed.

(** C35: Status report end to end.  When the report that the receiving entity compiles reaches the transmitting entity of
    an RLC AM bearer with discard timer, the SDUs that leave the transmitter's window are exactly those for which the
    receiver does not wait: it has delivered them, or t-Reordering passed over them and they are lost, or it holds them
    within reach of the report's bitmap; all others stay for retransmission.  RX_NEXT is not within eight of 2^32. *)
Theorem pdcp_status_report_end_to_end sr gr stx gtx stx' es :
  PdcpRxTheorems.reachable sr gr -> PdcpTxRuns.reachable stx gtx ->
  let rx := PdcpRxTheorems.entity sr in let tx := PdcpTxRuns.entity stx in let tx' := PdcpTxRuns.entity stx' in
  is_configured (PdcpTx.cfg tx) = true -> PdcpRx.rx_next (PdcpRx.st rx) + 8 <= 2 ^ 32 ->
  PdcpTxRuns.step (PdcpTxRuns.op_status_report (PdcpRx.compile_status_report rx)) stx = Some (stx', es) ->
  forall x, 0 <= x < 2 ^ 32 ->
    PdcpTx.has_sn tx' x = true <-> PdcpTx.has_sn tx x = true /\ ~ settled rx (PdcpRxTheorems.taken gr) x.
Proof.
  intros Hrr Hrt rx tx tx' Hcfg Hnext Hstep.
  destruct (PdcpRxTheorems.pdcp_rx_reachable_inv sr gr Hrr) as [Hir _]. destruct (PdcpTxTheorems.pdcp_tx_reachable_inv stx gtx Hrt) as [(held & Hit) _].
  destruct (compiled_report_bits _ _ _ _ _ Hir) as (pad & Hpad & Hbits & _ & Hbytes). fold rx in Hbits, Hbytes.
  pose proof (PdcpRxFacts.core_bounds _ _ _ (PdcpRxFacts.ri_core _ _ _ (PdcpRxSystem.si_rx _ _ _ _ _ Hir))) as Hb. fold rx in Hb.
  set (d := PdcpRx.rx_deliv (PdcpRx.st rx)) in *. set (n := Z.min (PdcpRx.rx_next (PdcpRx.st rx)) (d + 1 + PdcpRx.max_bits)) in *.
  set (bitmap := map _ (seqZ (d + 1) (n - (d + 1))) ++ repeat false pad) in *.
  assert (d + 1 + zlen bitmap <= 2 ^ 32) as Hlen.
  { unfold bitmap. rewrite zlen_app. unfold zlen. rewrite length_map, length_seqZ, repeat_length. lia. }
  eapply PdcpTxTheorems.step_post in Hstep;
    [|apply (PdcpTxTheorems.wp_status_report _ _ _ _ _ _ (PdcpRx.compile_status_report rx) d bitmap Hit Hcfg Hbytes Hbits); lia].
  destruct Hstep as [Hhas _]. intros x Hx. fold tx' in Hhas. rewrite (Hhas x Hx).
  assert (PdcpTxTheorems.reported d bitmap x <-> settled rx (PdcpRxTheorems.taken gr) x) as Hiff; [|tauto].
  rewrite settled_spec.
  unfold PdcpTxTheorems.reported. fold d n. destruct (Z.lt_ge_cases d x) as [Hlt|Hge]; [|split; intros [?|[? ?]]; auto; lia].
  unfold bitmap. rewrite (bitmap_lookup _ d n pad x Hlt). split; (intros [?|?]; [by left|right]); split; try tauto || lia.
Qed.
End end_to_end.

(** ** Witnesses *)

(** The transmitter of the example after its security configuration; worker 0 takes the SDU of COUNT 2. *)
Definition e2e_engine : SecurityEngine.security_engine_impl := example_engine nia1 nea3.
Definition e2e_transmitter : PdcpTx.pdcp_entity_tx :=
  PdcpTx.set_security [Some e2e_engine; Some e2e_engine] true true (PdcpTxRuns.entity (fst tx_flown)).
Definition e2e_info : PdcpTx.pdcp_tx_buffer_info := PdcpTx.mk_buffer_info false 0 2 [128; 2; 8; 9].
Definition e2e_pdu : list Z :=
  match PdcpTx.apply_security 0 true e2e_info e2e_transmitter with
  | Ok (_, _, [PdcpTx.execute_apply_reordering i]) => PdcpTx.bi_buf i
  | _ => []
  end.
Definition e2e_receiver : PdcpRx.pdcp_entity_rx :=
  PdcpRx.set_security [Some e2e_engine; Some e2e_engine] true true (PdcpRxTheorems.entity (start_system example_config)).

Lemma pdcp_end_to_end_witness :
  zlen e2e_pdu = 8 /\ exists rx1 es1 rx2 es2,
    PdcpRx.handle_pdu true e2e_pdu e2e_receiver = Ok (tt, rx1, es1) /\
    PdcpRx.apply_security 1 true (PdcpRx.mk_pdu_info e2e_pdu 2) rx1 = Ok (tt, rx2, es2) /\
    rx_dispatched es2 = [PdcpRxFacts.task_reordering (PdcpRx.mk_pdu_info [8; 9] 2)].
Proof.
  split; [vm_compute; reflexivity|].
  assert (PdcpTx.write_data_pdu_header [8; 9] (PdcpTx.SN e2e_transmitter 2) e2e_transmitter = Ok (Some [128; 2; 8; 9], e2e_transmitter, [])) as Hh
    by (vm_compute; reflexivity).
  assert (PdcpTx.apply_security 0 true e2e_info e2e_transmitter =
    Ok (tt, e2e_transmitter, [PdcpTx.execute_apply_reordering (PdcpTx.mk_buffer_info false 0 2 e2e_pdu)])) as Hp by (vm_compute; reflexivity).
  assert (matching (PdcpTx.cfg e2e_transmitter) e2e_receiver) as Hm by (split; vm_compute; reflexivity).
  assert (listening e2e_receiver e2e_engine 1 2) as Hl.
  { split; [split; reflexivity|vm_compute; split; [discriminate|reflexivity]|vm_compute; split; [discriminate|reflexivity]| |].
    - vm_compute. repeat split; discriminate.
    - split; [apply Nat.ltb_lt; reflexivity|reflexivity]. }
  assert (bytes [8; 9]) as Hb by by apply bytes_check.
  destruct (pdcp_end_to_end e2e_transmitter 0 e2e_info 2 [8; 9] [128; 2; 8; 9] e2e_pdu e2e_engine _ _ _ _ e2e_receiver 1
    ltac:(vm_compute; discriminate) Hb ltac:(discriminate) Hm eq_refl Hl Hh eq_refl eq_refl Hp ltac:(by apply list_elem_of_singleton))
    as (rx1 & es1 & rx2 & es2 & H1 & _ & H2 & H3).
  exists rx1, es1, rx2, es2. split; [exact H1|]. split; [exact H2|exact H3].
Defined.

(** The receiver of the example has delivered COUNT 0 and holds COUNT 2. *)
Definition e2e_report : list Z := PdcpRx.compile_status_report (PdcpRxTheorems.entity (fst example)).

Lemma pdcp_status_report_end_to_end_witness :
  let s' := fst (tx_after (fst tx_flown) (PdcpTxRuns.op_status_report e2e_report)) in
  e2e_report = [0; 0; 0; 0; 1; 128] /\ PdcpTx.has_sn (PdcpTxRuns.entity s') 1 = true.
Proof.
  split; [vm_compute; reflexivity|].
  assert (PdcpTxRuns.step (PdcpTxRuns.op_status_report e2e_report) (fst tx_flown) =
    Some (fst (tx_after (fst tx_flown) (PdcpTxRuns.op_status_report e2e_report)), snd (tx_after (fst tx_flown) (PdcpTxRuns.op_status_report e2e_report)))) as H1
    by (vm_compute; reflexivity).
  apply (pdcp_status_report_end_to_end _ _ _ _ _ _ pdcp_rx_example_reachable tx_flown_reachable ltac:(vm_compute; reflexivity)
    ltac:(vm_compute; discriminate) H1 1 ltac:(vm_compute; split; [discriminate|reflexivity])).
  split; [vm_compute; reflexivity|]. intros [[Hx _]|[[Hx _]|[[Hx _] _]]]; revert Hx; vm_compute; discriminate.
Defined.
