(* ===== verification/SduQueue.v ===== *)
(** * Tx SDU queue

    Models [rlc_sdu] of [include/srsran/rlc/rlc_tx.h] and the queue of
    [lib/rlc/rlc_sdu_queue_lockfree.h]: a bounded FIFO of SDUs, a slot per PDCP SN modulo the
    capacity that says whether the SDU is still wanted, and the packed count of SDUs and bytes.
    Discarding only marks the slot; the SDU leaves the FIFO when the reader pops it.

    The operations are the calls as a whole, in any order, each run to its end before the
    next.  [SduQueueThreads] splits them into single accesses to shared memory, interleaves the two
    threads and shows that every run is linearizable to these operations. *)

From S2P Require Import Prelude.
Open Scope Z_scope.

Record rlc_sdu := mk_sdu {
  sdu_buf : list Z;
  sdu_is_retx : bool;
  sdu_pdcp_sn : option Z;
  sdu_time_of_arrival : Z
}.

Module SduQueue.

Definition STATE_FREE : Z := 0xffffffff.
Definition STATE_DISCARDED : Z := 0xfffffffe.

(** The two arrays hold [capacity] slots; a slot not yet written is free. *)
Record rlc_sdu_queue := mk_queue {
  capacity : Z;
  byte_limit : Z;
  state : Z;
  queue : list rlc_sdu;
  sdu_states : gmap Z Z;
  sdu_sizes : gmap Z Z
}.

Definition create (capacity byte_limit : Z) : rlc_sdu_queue := mk_queue capacity byte_limit 0 [] ∅ ∅.

Definition slot (q : rlc_sdu_queue) (pdcp_sn : Z) : Z := pdcp_sn mod capacity q.
Definition slot_state (q : rlc_sdu_queue) (pdcp_sn : Z) : Z :=
  default STATE_FREE (sdu_states q !! slot q pdcp_sn).
Definition slot_size (q : rlc_sdu_queue) (pdcp_sn : Z) : Z := default 0 (sdu_sizes q !! slot q pdcp_sn).

Definition set_state (v : Z) (q : rlc_sdu_queue) : rlc_sdu_queue :=
  mk_queue (capacity q) (byte_limit q) v (queue q) (sdu_states q) (sdu_sizes q).
Definition set_queue (v : list rlc_sdu) (q : rlc_sdu_queue) : rlc_sdu_queue :=
  mk_queue (capacity q) (byte_limit q) (state q) v (sdu_states q) (sdu_sizes q).
Definition set_slot_state (pdcp_sn v : Z) (q : rlc_sdu_queue) : rlc_sdu_queue :=
  mk_queue (capacity q) (byte_limit q) (state q) (queue q) (<[slot q pdcp_sn := v]> (sdu_states q)) (sdu_sizes q).
Definition set_slot_size (pdcp_sn v : Z) (q : rlc_sdu_queue) : rlc_sdu_queue :=
  mk_queue (capacity q) (byte_limit q) (state q) (queue q) (sdu_states q) (<[slot q pdcp_sn := v]> (sdu_sizes q)).

(** Upper 32 bits: number of SDUs; lower 32 bits: number of bytes. *)
Definition state_change (sdu_size : Z) : Z := Z.lor (Z.shiftl 1 32) (u32 sdu_size).
Definition state_add (sdu_size : Z) (q : rlc_sdu_queue) : rlc_sdu_queue :=
  set_state ((state q + state_change sdu_size) mod 2 ^ 64) q.
Definition state_sub (sdu_size : Z) (q : rlc_sdu_queue) : rlc_sdu_queue :=
  set_state ((state q - state_change sdu_size) mod 2 ^ 64) q.

Record state_t := mk_state_t { n_sdus : Z; n_bytes : Z }.
Definition get_state (q : rlc_sdu_queue) : state_t :=
  mk_state_t (Z.shiftr (state q) 32) (Z.land (state q) 0xffffffff).

(** The FIFO: the library queue holds [capacity] elements, at least one. *)
Definition try_push (sdu : rlc_sdu) (q : rlc_sdu_queue) : rlc_sdu_queue * bool :=
  if zlen (queue q) <? Z.max 1 (capacity q) then (set_queue (queue q ++ [sdu]) q, true) else (q, false).
Definition try_pop (q : rlc_sdu_queue) : option (rlc_sdu * rlc_sdu_queue) :=
  match queue q with [] => None | sdu :: rest => Some (sdu, set_queue rest q) end.

Definition write (sdu : rlc_sdu) (q : rlc_sdu_queue) : rlc_sdu_queue * bool :=
  if byte_limit q <=? zlen (sdu_buf sdu) + n_bytes (get_state q) then (q, false) else
  let sdu_size := zlen (sdu_buf sdu) in
  match sdu_pdcp_sn sdu with
  | Some pdcp_sn =>
      if negb (slot_state q pdcp_sn =? STATE_FREE) then (q, false) else
      let q := set_slot_state pdcp_sn pdcp_sn (set_slot_size pdcp_sn sdu_size q) in
      let '(q, pushed) := try_push sdu q in
      if negb pushed then (set_slot_state pdcp_sn STATE_FREE q, false)
      else (state_add sdu_size q, true)
  | None =>
      let '(q, pushed) := try_push sdu q in
      if negb pushed then (q, false) else (state_add sdu_size q, true)
  end.

Definition try_discard (pdcp_sn : Z) (q : rlc_sdu_queue) : rlc_sdu_queue * bool :=
  let sdu_size := u32 (slot_size q pdcp_sn) in
  if slot_state q pdcp_sn =? pdcp_sn
  then (state_sub sdu_size (set_slot_state pdcp_sn STATE_DISCARDED q), true)
  else (q, false).

Definition check_and_release (pdcp_sn : Z) (q : rlc_sdu_queue) : rlc_sdu_queue * bool :=
  let sdu_size := u32 (slot_size q pdcp_sn) in
  let old_state := slot_state q pdcp_sn in
  let q := set_slot_state pdcp_sn STATE_FREE q in
  if old_state =? pdcp_sn then (state_sub sdu_size q, true)
  else if old_state =? STATE_DISCARDED then (q, false)
  else (state_sub sdu_size q, false).

Definition check (pdcp_sn : Z) (q : rlc_sdu_queue) : bool := slot_state q pdcp_sn =? pdcp_sn.

(** Every turn pops one SDU: the length of the FIFO plus one turns are enough. *)
Fixpoint read_loop (fuel : nat) (q : rlc_sdu_queue) : rlc_sdu_queue * option rlc_sdu :=
  match fuel, try_pop q with
  | O, _ | _, None => (q, None)
  | S fuel', Some (sdu, q) =>
      match sdu_pdcp_sn sdu with
      | Some pdcp_sn =>
          let '(q, sdu_is_valid) := check_and_release pdcp_sn q in
          if sdu_is_valid then (q, Some sdu) else read_loop fuel' q
      | None => (state_sub (zlen (sdu_buf sdu)) q, Some sdu)
      end
  end.
Definition read (q : rlc_sdu_queue) : rlc_sdu_queue * option rlc_sdu := read_loop (S (length (queue q))) q.

(** The same with the reference argument [sdu] written out: every SDU popped is assigned to it, one that
    was discarded too. *)
Fixpoint read_into_loop (fuel : nat) (sdu : rlc_sdu) (q : rlc_sdu_queue) : rlc_sdu_queue * rlc_sdu * bool :=
  match fuel, try_pop q with
  | O, _ | _, None => (q, sdu, false)
  | S fuel', Some (sdu, q) =>
      match sdu_pdcp_sn sdu with
      | Some pdcp_sn =>
          let '(q, sdu_is_valid) := check_and_release pdcp_sn q in
          if sdu_is_valid then (q, sdu, true) else read_into_loop fuel' sdu q
      | None => (state_sub (zlen (sdu_buf sdu)) q, sdu, true)
      end
  end.
Definition read_into (sdu : rlc_sdu) (q : rlc_sdu_queue) : rlc_sdu_queue * rlc_sdu * bool :=
  read_into_loop (S (length (queue q))) sdu q.

(** Discarded SDUs at the front are popped on the way. *)
Fixpoint front_loop (fuel : nat) (q : rlc_sdu_queue) : rlc_sdu_queue * option rlc_sdu :=
  match fuel, queue q with
  | O, _ | _, [] => (q, None)
  | S fuel', front_sdu :: _ =>
      match sdu_pdcp_sn front_sdu with
      | Some pdcp_sn =>
          if check pdcp_sn q then (q, Some front_sdu) else
          match try_pop q with
          | None => (q, None)
          | Some (pop_sdu, q) =>
              if negb (bool_decide (sdu_pdcp_sn pop_sdu = Some pdcp_sn)) then (q, None) else
              let '(q, sdu_is_valid) := check_and_release pdcp_sn q in
              if sdu_is_valid then (q, None) else front_loop fuel' q
          end
      | None => (q, Some front_sdu)
      end
  end.
Definition front (q : rlc_sdu_queue) : rlc_sdu_queue * option rlc_sdu := front_loop (S (length (queue q))) q.

Definition is_empty (q : rlc_sdu_queue) : bool := match queue q with [] => true | _ => false end.
Definition is_full (q : rlc_sdu_queue) : bool := capacity q <=? zlen (queue q).

(** ** Abstract view: the SDUs that are queued and not discarded, in order *)

Definition valid_in (states : gmap Z Z) (cap : Z) (s : rlc_sdu) : bool :=
  match sdu_pdcp_sn s with
  | Some p => default STATE_FREE (states !! (p mod cap)) =? p
  | None => true
  end.
Definition live (q : rlc_sdu_queue) : list rlc_sdu :=
  List.filter (valid_in (sdu_states q) (capacity q)) (queue q).

Definition total_bytes (l : list rlc_sdu) : Z := foldr (fun s acc => zlen (sdu_buf s) + acc) 0 l.

(** Slots in use. *)
Definition occupied (q : rlc_sdu_queue) : list Z :=
  omap (fun s => p ← sdu_pdcp_sn s; Some (slot q p)) (queue q).

Record inv (q : rlc_sdu_queue) : Prop := {
  inv_capacity : 0 < capacity q < 2 ^ 32;
  inv_length : zlen (queue q) <= capacity q;
  inv_slots : NoDup (occupied q);
  inv_free : forall i, i ∉ occupied q -> default STATE_FREE (sdu_states q !! i) = STATE_FREE;
  inv_used : forall s p, s ∈ queue q -> sdu_pdcp_sn s = Some p -> 0 <= p < STATE_DISCARDED /\
    (slot_state q p = p \/ slot_state q p = STATE_DISCARDED) /\ slot_size q p = zlen (sdu_buf s);
  inv_limit : 0 <= byte_limit q < 2 ^ 32;
  inv_bytes : total_bytes (live q) <= byte_limit q;
  inv_state : state q = zlen (live q) * 2 ^ 32 + total_bytes (live q)
}.

(** ** Counters *)

Lemma total_bytes_app l k : total_bytes (l ++ k) = total_bytes l + total_bytes k.
Proof. induction l as [|s l IH]; simpl; [lia|]. rewrite IH. lia. Qed.
Lemma total_bytes_nonneg l : 0 <= total_bytes l.
Proof. induction l as [|s l IH]; simpl; [lia|]. pose proof (zlen_nonneg (sdu_buf s)). lia. Qed.

Lemma state_change_eq n : 0 <= n < 2 ^ 32 -> state_change n = 2 ^ 32 + n.
Proof. intros. unfold state_change. rewrite u32_small, lor_shiftl_add by lia. lia. Qed.

Lemma live_queue q : zlen (live q) <= zlen (queue q).
Proof. unfold live, zlen. pose proof (filter_length_le (valid_in (sdu_states q) (capacity q)) (queue q)). lia. Qed.

Lemma live_length q : inv q -> zlen (live q) < 2 ^ 32.
Proof.
  intros Hq. pose proof (inv_length q Hq). pose proof (inv_capacity q Hq). pose proof (live_queue q). lia.
Qed.

Lemma total_range q : inv q -> 0 <= total_bytes (live q) < 2 ^ 32.
Proof.
  intros Hq. pose proof (total_bytes_nonneg (live q)). pose proof (inv_bytes q Hq).
  pose proof (inv_limit q Hq). lia.
Qed.

Lemma get_state_live q :
  inv q -> get_state q = mk_state_t (zlen (live q)) (total_bytes (live q)).
Proof.
  intros Hq. pose proof (total_range q Hq). pose proof (zlen_nonneg (live q)).
  unfold get_state. rewrite (inv_state q Hq). change 0xffffffff with (2 ^ 32 - 1).
  rewrite land_mask, Z.shiftr_div_pow2 by lia. f_equal; zmod.
Qed.

(** ** Slots *)

Definition slot_of (q : rlc_sdu_queue) (s : rlc_sdu) : option Z := p ← sdu_pdcp_sn s; Some (slot q p).

Lemma elem_of_occupied q i :
  i ∈ occupied q <-> exists s p, s ∈ queue q /\ sdu_pdcp_sn s = Some p /\ slot q p = i.
Proof.
  unfold occupied. rewrite list_elem_of_omap. split.
  - intros (s & Hs & H). destruct (sdu_pdcp_sn s) as [p|] eqn:E; simplify_eq/=. eauto.
  - intros (s & p & Hs & E & <-). exists s. split; [done|]. by rewrite E.
Qed.

Lemma filter_ext_elem {A} (f g : A -> bool) l :
  (forall x, x ∈ l -> f x = g x) -> List.filter f l = List.filter g l.
Proof.
  induction l as [|x l IH]; simpl; intros H; [done|].
  rewrite (H x) by left. rewrite IH; [done|]. intros. apply H. by right.
Qed.

Lemma valid_other states cap i v s :
  (forall p, sdu_pdcp_sn s = Some p -> p mod cap <> i) ->
  valid_in (<[i := v]> states) cap s = valid_in states cap s.
Proof.
  intros H. unfold valid_in. destruct (sdu_pdcp_sn s) as [p|] eqn:E; [|done].
  rewrite lookup_insert_ne; [done|]. intros Hi. by apply (H p).
Qed.

Lemma slot_state_free q p : inv q -> 0 <= p < STATE_DISCARDED ->
  (slot_state q p = STATE_FREE <-> slot q p ∉ occupied q).
Proof.
  intros Hq Hp. split.
  - intros Hf (s & p' & Hs & E & Hi)%elem_of_occupied.
    destruct (inv_used q Hq s p' Hs E) as (Hr & Hst & _).
    unfold slot_state in *. rewrite Hi in Hst. rewrite Hf in Hst.
    unfold STATE_FREE, STATE_DISCARDED in *. lia.
  - intros Hn. by apply (inv_free q Hq).
Qed.

(** An SDU whose slot says so is queued and live; no other SDU shares its slot. *)
Lemma queued_by_slot q p : inv q -> 0 <= p < STATE_DISCARDED -> slot_state q p = p ->
  exists q1 s q2, queue q = q1 ++ s :: q2 /\ sdu_pdcp_sn s = Some p /\ slot_size q p = zlen (sdu_buf s).
Proof.
  intros Hq Hp Hst. destruct (decide (slot q p ∈ occupied q)) as [Hin|Hn].
  - apply elem_of_occupied in Hin as (s & p' & Hs & E & Hi).
    destruct (inv_used q Hq s p' Hs E) as (Hr & Hst' & Hsz).
    assert (p' = p) as ->.
    { unfold slot_state in *. rewrite Hi, Hst in Hst'. unfold STATE_DISCARDED in *. lia. }
    apply list_elem_of_split in Hs as (q1 & q2 & Hs). by exists q1, s, q2.
  - apply slot_state_free in Hn; [|done..]. unfold STATE_FREE, STATE_DISCARDED in *. lia.
Qed.

Lemma slots_distinct q q1 s q2 p : inv q -> queue q = q1 ++ s :: q2 -> sdu_pdcp_sn s = Some p ->
  forall s' p', s' ∈ q1 ++ q2 -> sdu_pdcp_sn s' = Some p' -> slot q p' <> slot q p.
Proof.
  intros Hq Hs E s' p' Hin E' Heq. pose proof (inv_slots q Hq) as Hnd.
  unfold occupied in Hnd. rewrite Hs, omap_app in Hnd. simpl in Hnd. rewrite E in Hnd. simpl in Hnd.
  apply NoDup_app in Hnd as (_ & Hd & [Hn _]%NoDup_cons).
  apply elem_of_app in Hin as [Hin|Hin].
  - apply (Hd (slot q p)); [|left]. apply list_elem_of_omap. exists s'. split; [done|]. by rewrite E', <- Heq.
  - apply Hn, list_elem_of_omap. exists s'. split; [done|]. by rewrite E', <- Heq.
Qed.

(** ** Operations on the abstract view *)

Definition sdu_ok (s : rlc_sdu) : Prop :=
  zlen (sdu_buf s) < 2 ^ 32 /\ forall p, sdu_pdcp_sn s = Some p -> 0 <= p < STATE_DISCARDED.

Definition same_limits (q q' : rlc_sdu_queue) : Prop :=
  capacity q' = capacity q /\ byte_limit q' = byte_limit q.

(** Slots that nothing queued uses do not matter. *)
Lemma inv_ext q q' :
  same_limits q q' -> queue q' = queue q -> state q' = state q ->
  (forall i, default STATE_FREE (sdu_states q' !! i) = default STATE_FREE (sdu_states q !! i)) ->
  (forall i, i ∈ occupied q -> default 0 (sdu_sizes q' !! i) = default 0 (sdu_sizes q !! i)) ->
  inv q -> inv q' /\ live q' = live q.
Proof.
  intros [Hc Hl] Hq Hs Hst Hsz Hinv.
  assert (live q' = live q) as HL.
  { unfold live. rewrite Hq, Hc. apply filter_ext_elem. intros s _. unfold valid_in.
    destruct (sdu_pdcp_sn s); [|done]. by rewrite Hst. }
  assert (occupied q' = occupied q) as Ho by (unfold occupied, slot; by rewrite Hq, Hc).
  split; [|done]. destruct Hinv. constructor; rewrite ?Hc, ?Hl, ?Hq, ?HL, ?Hs, ?Ho; auto.
  - intros i Hi. rewrite Hst. auto.
  - intros s p Hin E. unfold slot_state, slot_size, slot in *. rewrite Hc, Hst, Hsz; [by eauto|].
    apply elem_of_occupied. by exists s, p.
Qed.

Lemma unoccupied q p :
  slot q p ∉ occupied q -> forall s p', s ∈ queue q -> sdu_pdcp_sn s = Some p' -> slot q p' <> slot q p.
Proof. intros Hn s p' Hs E Hi. apply Hn, elem_of_occupied. by exists s, p'. Qed.

(** Enqueueing: the slot, if any, was free and now holds the PDCP SN and the size. *)
Lemma inv_enqueue q q' s :
  inv q -> sdu_ok s -> same_limits q q' -> queue q' = queue q ++ [s] ->
  zlen (queue q) < capacity q -> total_bytes (live q) + zlen (sdu_buf s) < byte_limit q ->
  state q' = state q + 2 ^ 32 + zlen (sdu_buf s) ->
  match sdu_pdcp_sn s with
  | Some p => slot q p ∉ occupied q /\ sdu_states q' = <[slot q p := p]> (sdu_states q) /\
              sdu_sizes q' = <[slot q p := zlen (sdu_buf s)]> (sdu_sizes q)
  | None => sdu_states q' = sdu_states q /\ sdu_sizes q' = sdu_sizes q
  end ->
  inv q' /\ live q' = live q ++ [s].
Proof.
  intros Hinv [Hlen Hp] [Hc Hl] Hq Hcap Hbytes Hs Hslots. pose proof (zlen_nonneg (sdu_buf s)).
  assert (live q' = live q ++ [s]) as HL.
  { unfold live. rewrite Hq, Hc, List.filter_app. destruct (sdu_pdcp_sn s) as [p|] eqn:E.
    - destruct Hslots as (Hn & -> & _). f_equal.
      + apply filter_ext_elem. intros s' Hs'. apply valid_other. intros p' E'. by apply (unoccupied q p Hn s').
      + simpl. unfold valid_in. rewrite E. unfold slot. rewrite lookup_insert_eq. simpl. by rewrite Z.eqb_refl.
    - destruct Hslots as [-> _]. simpl. unfold valid_in at 2. by rewrite E. }
  assert (occupied q' = occupied q ++ option_list (slot_of q s)) as Ho.
  { unfold occupied, slot. rewrite Hq, Hc, omap_app. f_equal. }
  split; [|done]. pose proof Hinv as Hinv'. destruct Hinv.
  assert (zlen (queue q') <= capacity q) by (rewrite Hq, zlen_app, zlen_cons, zlen_nil; lia).
  constructor; rewrite ?Hc, ?Hl, ?HL, ?total_bytes_app; simpl; auto.
  - rewrite Ho. apply NoDup_app. split; [done|]. unfold slot_of. destruct (sdu_pdcp_sn s) as [p|]; simpl.
    + split; [|apply NoDup_singleton]. intros i Hi ->%list_elem_of_singleton. by destruct Hslots.
    + split; [|constructor]. by intros ? _ ?%elem_of_nil.
  - intros i Hi. rewrite Ho in Hi. apply not_elem_of_app in Hi as [Hi Hn].
    unfold slot_of in Hn. destruct (sdu_pdcp_sn s) as [p|]; simpl in Hn.
    + destruct Hslots as (_ & -> & _). rewrite lookup_insert_ne; [auto|].
      intros Heq. by apply Hn, list_elem_of_singleton.
    + destruct Hslots as [-> _]. auto.
  - intros s' p' Hin E'. unfold slot_state, slot_size, slot in *. rewrite Hc. rewrite Hq in Hin.
    apply elem_of_app in Hin as [Hin| ->%list_elem_of_singleton].
    + destruct (inv_used q Hinv' s' p' Hin E') as (Hr & H1 & H2). split; [done|].
      destruct (sdu_pdcp_sn s) as [p|]; [|by destruct Hslots as [-> ->]].
      destruct Hslots as (Hn & -> & ->). rewrite !lookup_insert_ne; [done|..];
        intros Hi; by apply (unoccupied q p Hn s' p').
    + rewrite E' in Hslots. destruct Hslots as (_ & -> & ->). rewrite !lookup_insert_eq. simpl. auto.
  - lia.
  - rewrite zlen_app, zlen_cons, zlen_nil. lia.
Qed.

(** Taking a live SDU out of the counts; [q'] keeps the SDUs before and after it. *)
Lemma counts_without q l1 s l2 :
  inv q -> live q = l1 ++ s :: l2 ->
  0 <= zlen (sdu_buf s) < 2 ^ 32 /\
  (state q - state_change (zlen (sdu_buf s))) mod 2 ^ 64 = zlen (l1 ++ l2) * 2 ^ 32 + total_bytes (l1 ++ l2) /\
  total_bytes (l1 ++ l2) <= byte_limit q.
Proof.
  intros Hq HL. pose proof (total_range q Hq) as Ht. pose proof (live_length q Hq) as Hn.
  pose proof (inv_bytes q Hq). pose proof (inv_limit q Hq).
  assert (total_bytes (live q) = total_bytes l1 + (zlen (sdu_buf s) + total_bytes l2)) as Eb
    by by rewrite HL, total_bytes_app.
  assert (zlen (live q) = zlen l1 + (zlen l2 + 1)) as El by by rewrite HL, zlen_app, zlen_cons.
  pose proof (total_bytes_nonneg l1). pose proof (total_bytes_nonneg l2). pose proof (zlen_nonneg (sdu_buf s)).
  pose proof (zlen_nonneg l1). pose proof (zlen_nonneg l2).
  rewrite total_bytes_app, zlen_app. split; [lia|]. split; [|lia].
  rewrite state_change_eq by lia. rewrite (inv_state q Hq), Eb, El, Z.mod_small by lia. lia.
Qed.

(** Releasing the slot of an SDU that was just popped from the front. *)
Lemma inv_pop q q' s rest :
  inv q -> queue q = s :: rest -> same_limits q q' -> queue q' = rest ->
  state q' = (if valid_in (sdu_states q) (capacity q) s
              then (state q - state_change (zlen (sdu_buf s))) mod 2 ^ 64 else state q) ->
  sdu_sizes q' = sdu_sizes q ->
  sdu_states q' = match sdu_pdcp_sn s with
                  | Some p => <[slot q p := STATE_FREE]> (sdu_states q)
                  | None => sdu_states q
                  end ->
  inv q' /\
  live q = (if valid_in (sdu_states q) (capacity q) s then [s] else []) ++ live q'.
Proof.
  intros Hinv Hq [Hc Hl] Hq' Hs Hsz Hst.
  assert (forall s' p', s' ∈ rest -> sdu_pdcp_sn s' = Some p' -> forall p, sdu_pdcp_sn s = Some p ->
    slot q p' <> slot q p) as Hd.
  { intros s' p' Hin E' p E. by apply (slots_distinct q [] s rest p Hinv Hq E s' p'). }
  assert (live q = (if valid_in (sdu_states q) (capacity q) s then [s] else []) ++ live q') as HL.
  { unfold live. rewrite Hq, Hq', Hc. simpl.
    assert (List.filter (valid_in (sdu_states q') (capacity q)) rest =
            List.filter (valid_in (sdu_states q) (capacity q)) rest) as ->; [|by destruct (valid_in _ _ s)].
    apply filter_ext_elem. intros s' Hin. rewrite Hst. destruct (sdu_pdcp_sn s) as [p|] eqn:E; [|done].
    apply valid_other. intros p' E'. by apply (Hd s' p' Hin E'). }
  split; [|done].
  assert (occupied q = option_list (slot_of q s) ++ occupied q') as Ho.
  { unfold occupied, slot_of, slot. rewrite Hq, Hq', Hc. simpl. by destruct (sdu_pdcp_sn s). }
  pose proof Hinv as Hinv'. destruct Hinv. rewrite Hq, zlen_cons in inv_length0.
  assert (NoDup (occupied q') /\ forall i, i ∈ occupied q' -> slot_of q s <> Some i) as [Hnd Hns].
  { rewrite Ho in inv_slots0. apply NoDup_app in inv_slots0 as (_ & Hdis & Hnd). split; [done|].
    intros i Hi Hsl. apply (Hdis i); [|done]. rewrite Hsl. by left. }
  constructor; rewrite ?Hc, ?Hl, ?Hq'; auto; [lia| | | |].
  - intros i Hi. rewrite Hst. destruct (decide (slot_of q s = Some i)) as [Hsl|Hsl].
    + unfold slot_of in Hsl. destruct (sdu_pdcp_sn s) as [p|]; simplify_eq/=. by rewrite lookup_insert_eq.
    + assert (i ∉ occupied q) as Hi'.
      { rewrite Ho. apply not_elem_of_app. split; [|done]. destruct (slot_of q s); simpl; [|apply not_elem_of_nil].
        intros ->%list_elem_of_singleton. done. }
      unfold slot_of in Hsl. destruct (sdu_pdcp_sn s) as [p|]; [|auto].
      rewrite lookup_insert_ne; [auto|]. intros Heq. apply Hsl. simpl. by rewrite Heq.
  - intros s' p' Hin E'. destruct (inv_used0 s' p') as (Hr & H1 & H2); [rewrite Hq; by right|done|].
    unfold slot_state, slot_size, slot in *. rewrite Hc, Hsz. split; [done|]. split; [|done].
    rewrite Hst. destruct (sdu_pdcp_sn s) as [p|] eqn:E; [|done].
    rewrite lookup_insert_ne; [done|]. intros Heq. by apply (Hd s' p' Hin E' p).
  - rewrite HL, total_bytes_app in inv_bytes0. pose proof (total_bytes_nonneg (if valid_in (sdu_states q) (capacity q) s then [s] else [])). lia.
  - rewrite Hs. destruct (valid_in _ _ s); [|by rewrite inv_state0, HL].
    by destruct (counts_without q [] s (live q') Hinv' HL) as (_ & -> & _).
Qed.

Definition carries (p : Z) (s : rlc_sdu) : bool := bool_decide (sdu_pdcp_sn s = Some p).

(** Marking the slot of a live SDU: it leaves the abstract queue, not the FIFO. *)
Lemma inv_discard q p :
  inv q -> 0 <= p < STATE_DISCARDED -> slot_state q p = p ->
  let q' := state_sub (u32 (slot_size q p)) (set_slot_state p STATE_DISCARDED q) in
  inv q' /\ live q' = List.filter (fun s => negb (carries p s)) (live q) /\
  existsb (carries p) (live q) = true.
Proof.
  intros Hinv Hp Hst q'.
  destruct (queued_by_slot q p Hinv Hp Hst) as (q1 & s & q2 & Hq & E & Hsz).
  pose proof (slots_distinct q q1 s q2 p Hinv Hq E) as Hd.
  assert (valid_in (sdu_states q) (capacity q) s = true) as Hv.
  { unfold valid_in. rewrite E. apply Z.eqb_eq. done. }
  assert (forall l, (forall s', s' ∈ l -> s' ∈ q1 ++ q2) ->
    List.filter (valid_in (sdu_states q') (capacity q)) l = List.filter (valid_in (sdu_states q) (capacity q)) l /\
    Forall (fun s' => carries p s' = false) (List.filter (valid_in (sdu_states q) (capacity q)) l)) as Hl.
  { intros l Hin. split.
    - apply filter_ext_elem. intros s' Hs'. apply valid_other. intros p' E'. by apply (Hd s' p'); [apply Hin|].
    - apply Forall_forall. intros s' [Hs' _]%list_elem_of_In%filter_In. apply list_elem_of_In in Hs'.
      apply bool_decide_eq_false. intros E'. by apply (Hd s' p); [apply Hin| |]. }
  destruct (Hl q1) as [L1 F1]; [intros; apply elem_of_app; by left|].
  destruct (Hl q2) as [L2 F2]; [intros; apply elem_of_app; by right|].
  set (l1 := List.filter (valid_in (sdu_states q) (capacity q)) q1) in *.
  set (l2 := List.filter (valid_in (sdu_states q) (capacity q)) q2) in *.
  assert (live q = l1 ++ s :: l2) as HL.
  { unfold live. rewrite Hq, List.filter_app. simpl. by rewrite Hv. }
  assert (live q' = l1 ++ l2) as HL'.
  { unfold live. change (queue q') with (queue q). change (capacity q') with (capacity q).
    assert (valid_in (sdu_states q') (capacity q) s = false) as Hv'.
    { unfold valid_in. rewrite E. change (sdu_states q') with (<[slot q p := STATE_DISCARDED]> (sdu_states q)).
      unfold slot. rewrite lookup_insert_eq. apply Z.eqb_neq. simpl. lia. }
    rewrite Hq, List.filter_app. cbn [List.filter]. by rewrite Hv', L1, L2. }
  assert (forall l, Forall (fun s' => carries p s' = false) l -> List.filter (fun s' => negb (carries p s')) l = l) as Hid.
  { induction 1 as [|s' l Hs' _ IH]; simpl; [done|]. by rewrite Hs', IH. }
  assert (carries p s = true) as Hc by by apply bool_decide_eq_true.
  destruct (counts_without q l1 s l2 Hinv HL) as (Hsize & Hcnt & Hby). split; [|split].
  - pose proof Hinv as Hinv'. destruct Hinv. constructor; rewrite ?HL'; auto.
    + intros i Hi. change (sdu_states q') with (<[slot q p := STATE_DISCARDED]> (sdu_states q)).
      rewrite lookup_insert_ne; [auto|]. intros <-. apply Hi. change (occupied q') with (occupied q).
      apply elem_of_occupied. exists s, p. split; [|done]. rewrite Hq. apply elem_of_app. right. by left.
    + intros s' p' Hin E'. destruct (inv_used0 s' p' Hin E') as (Hr & H1 & H2). split; [done|]. split; [|done].
      change (slot_state q' p') with (default STATE_FREE (<[slot q p := STATE_DISCARDED]> (sdu_states q) !! slot q p')).
      destruct (decide (slot q p = slot q p')) as [->|Hne]; [rewrite lookup_insert_eq; by right|].
      by rewrite lookup_insert_ne.
    + change (state q') with ((state q - state_change (u32 (slot_size q p))) mod 2 ^ 64).
      by rewrite Hsz, (u32_small (zlen _)).
  - rewrite HL', HL, List.filter_app. simpl. by rewrite Hc, !Hid.
  - rewrite HL, existsb_app. simpl. by rewrite Hc, orb_true_r.
Qed.

Lemma not_live_no_slot q p :
  inv q -> 0 <= p < STATE_DISCARDED -> slot_state q p <> p ->
  List.filter (fun s => negb (carries p s)) (live q) = live q /\ existsb (carries p) (live q) = false.
Proof.
  intros Hinv Hp Hst.
  assert (forall s, s ∈ live q -> carries p s = false) as Hn.
  { intros s [Hs Hv]%list_elem_of_In%filter_In. apply bool_decide_eq_false. intros E.
    unfold valid_in in Hv. rewrite E in Hv. apply Z.eqb_eq in Hv. done. }
  split.
  - rewrite <- (List.filter_true (live q)) at 2. apply filter_ext_elem. intros s Hs. by rewrite Hn.
  - apply not_true_iff_false. intros (s & Hs%list_elem_of_In & Hc)%existsb_exists. by rewrite Hn in Hc.
Qed.

(** When [write] accepts an SDU: it fits the byte limit, its slot is free, the FIFO has room. *)
Definition accepts (q : rlc_sdu_queue) (s : rlc_sdu) : bool :=
  (total_bytes (live q) + zlen (sdu_buf s) <? byte_limit q) &&
  match sdu_pdcp_sn s with Some p => negb (bool_decide (slot q p ∈ occupied q)) | None => true end &&
  (zlen (queue q) <? capacity q).

Lemma write_spec q s :
  inv q -> sdu_ok s ->
  let '(q', ok) := write s q in
  inv q' /\ same_limits q q' /\ ok = accepts q s /\
  queue q' = queue q ++ (if ok then [s] else []) /\ live q' = live q ++ (if ok then [s] else []).
Proof.
  intros Hinv Hs. unfold write, accepts, try_push. rewrite get_state_live by done. simpl.
  pose proof (inv_capacity q Hinv) as Hcap. pose proof (inv_limit q Hinv) as Hlim.
  pose proof (zlen_nonneg (sdu_buf s)). pose proof (total_bytes_nonneg (live q)).
  replace (total_bytes (live q) + zlen (sdu_buf s)) with (zlen (sdu_buf s) + total_bytes (live q)) by lia.
  rewrite (Z.ltb_antisym (byte_limit q)). destruct (Z.leb_spec (byte_limit q) (zlen (sdu_buf s) + total_bytes (live q))) as [|Hby].
  { simpl. by rewrite !app_nil_r. }
  assert (zlen (queue q) < capacity q ->
    (state q + state_change (zlen (sdu_buf s))) mod 2 ^ 64 = state q + 2 ^ 32 + zlen (sdu_buf s)) as Hadd.
  { intros. rewrite state_change_eq by lia. pose proof (live_queue q). pose proof (zlen_nonneg (live q)).
    pose proof (inv_length q Hinv).
    rewrite (inv_state q Hinv), Z.mod_small by lia. lia. }
  destruct (sdu_pdcp_sn s) as [p|] eqn:E; simpl.
  - destruct (Z.eqb_spec (slot_state q p) STATE_FREE) as [Hf|Hf]; simpl.
    2: { rewrite bool_decide_eq_true_2; [simpl; by rewrite !app_nil_r|].
         destruct (decide (slot q p ∈ occupied q)) as [|Hn]; [done|]. exfalso. apply Hf.
         by apply slot_state_free; [|apply Hs|]. }
    assert (slot q p ∉ occupied q) as Hn by (apply slot_state_free; [done|by apply Hs|done]).
    rewrite bool_decide_eq_false_2 by done. rewrite Z.max_r by lia. simpl.
    destruct (Z.ltb_spec (zlen (queue q)) (capacity q)) as [Hr|Hr]; simpl.
    + lazymatch goal with |- inv ?q' /\ _ =>
        pose proof (inv_enqueue q q' s Hinv Hs (conj eq_refl eq_refl) eq_refl Hr) as G end;
      destruct G as [G1 G2]; [lia|simpl; rewrite Hadd by done; done|by rewrite E|done].
    + rewrite !app_nil_r. enough (inv (set_slot_state p STATE_FREE (set_slot_state p p (set_slot_size p (zlen (sdu_buf s)) q))) /\
        live (set_slot_state p STATE_FREE (set_slot_state p p (set_slot_size p (zlen (sdu_buf s)) q))) = live q) as [? ?] by done.
      apply inv_ext; try done; simpl; intros i.
      * unfold slot. simpl. destruct (decide (p mod capacity q = i)) as [<-|Hne];
          [rewrite lookup_insert_eq; by rewrite (inv_free q Hinv)|by rewrite !lookup_insert_ne].
      * intros Hi. rewrite lookup_insert_ne; [done|]. by intros <-.
  - rewrite Z.max_r by lia. destruct (Z.ltb_spec (zlen (queue q)) (capacity q)) as [Hr|Hr]; simpl; [|by rewrite !app_nil_r].
    lazymatch goal with |- inv ?q' /\ _ =>
        pose proof (inv_enqueue q q' s Hinv Hs (conj eq_refl eq_refl) eq_refl Hr) as G end;
      destruct G as [G1 G2]; [lia|simpl; rewrite Hadd by done; done|by rewrite E|done].
Qed.

Lemma try_discard_spec q p :
  inv q -> 0 <= p < STATE_DISCARDED ->
  let '(q', ok) := try_discard p q in
  inv q' /\ same_limits q q' /\ queue q' = queue q /\ ok = existsb (carries p) (live q) /\
  live q' = List.filter (fun s => negb (carries p s)) (live q).
Proof.
  intros Hinv Hp. unfold try_discard. destruct (Z.eqb_spec (slot_state q p) p) as [Hst|Hst].
  - destruct (inv_discard q p Hinv Hp Hst) as (H1 & H2 & H3). by rewrite H3.
  - destruct (not_live_no_slot q p Hinv Hp Hst) as [-> ->]. done.
Qed.

(** Popping the front: the slot is released, the SDU was live or discarded. *)
Lemma release_spec q s rest p :
  inv q -> queue q = s :: rest -> sdu_pdcp_sn s = Some p ->
  let '(q', v) := check_and_release p (set_queue rest q) in
  inv q' /\ same_limits q q' /\ queue q' = rest /\ v = valid_in (sdu_states q) (capacity q) s /\
  live q = (if v then [s] else []) ++ live q'.
Proof.
  intros Hinv Hq E. destruct (inv_used q Hinv s p) as (Hr & Hst & Hsz); [rewrite Hq; by left|done|].
  unfold check_and_release.
  change (slot_state (set_queue rest q) p) with (slot_state q p).
  change (slot_size (set_queue rest q) p) with (slot_size q p).
  assert (valid_in (sdu_states q) (capacity q) s = (slot_state q p =? p)) as Hv by (unfold valid_in; by rewrite E).
  destruct (Z.eqb_spec (slot_state q p) p) as [Hp|Hp].
  - lazymatch goal with |- inv ?q' /\ _ =>
      pose proof (inv_pop q q' s rest Hinv Hq (conj eq_refl eq_refl) eq_refl) as G end.
    rewrite Hv, E in G. destruct G as [G1 G2]; [|done..].
    simpl. rewrite Hsz. unfold state_change, u32. by rewrite !Z.mod_mod.
  - destruct Hst as [?|Hd]; [done|]. rewrite Hd, Z.eqb_refl.
    lazymatch goal with |- inv ?q' /\ _ =>
      pose proof (inv_pop q q' s rest Hinv Hq (conj eq_refl eq_refl) eq_refl) as G end.
    rewrite Hv, E in G. by destruct G as [G1 G2].
Qed.

Lemma same_limits_trans q q1 q2 : same_limits q q1 -> same_limits q1 q2 -> same_limits q q2.
Proof. unfold same_limits. intuition congruence. Qed.

Lemma read_loop_spec fuel : forall q, inv q -> (length (queue q) < fuel)%nat ->
  let '(q', r) := read_loop fuel q in
  inv q' /\ same_limits q q' /\ r = hd_error (live q) /\ live q' = tl (live q) /\
  (r = None -> queue q' = []) /\ exists popped, queue q = popped ++ queue q'.
Proof.
  induction fuel as [|fuel IH]; intros q Hinv Hlen; [lia|]. simpl. unfold try_pop.
  destruct (queue q) as [|s rest] eqn:Hq.
  { unfold live. rewrite Hq. simpl. rewrite ?Hq. split; [done|]. split; [done|]. split; [done|]. split; [done|]. split; [done|]. by exists []. }
  destruct (sdu_pdcp_sn s) as [p|] eqn:E.
  - pose proof (release_spec q s rest p Hinv Hq E) as R.
    destruct (check_and_release p (set_queue rest q)) as [q1 v]. destruct R as (H1 & H2 & H3 & H4 & H5).
    destruct v.
    + rewrite H5, H3. simpl. split; [done|]. split; [done|]. split; [done|]. split; [done|]. split; [done|]. by exists [s].
    + simpl in H5. specialize (IH q1 H1). destruct (read_loop fuel q1) as [q' r].
      destruct IH as (I1 & I2 & I3 & I4 & I5 & popped & I6); [rewrite H3; simpl in Hlen; lia|].
      split; [done|]. split; [by apply (same_limits_trans _ q1)|]. rewrite H5. split; [done|]. split; [done|]. split; [done|].
      exists (s :: popped). by rewrite <- app_comm_cons, <- I6, H3.
  - destruct (inv_pop q (state_sub (zlen (sdu_buf s)) (set_queue rest q)) s rest Hinv Hq) as [I1 I2];
      try done; rewrite ?E; try done; [unfold valid_in; by rewrite E|].
    unfold valid_in in I2. rewrite E in I2. rewrite I2. simpl.
    split; [done|]. split; [done|]. split; [done|]. split; [done|]. split; [done|]. by exists [s].
Qed.

Lemma read_spec q : inv q ->
  let '(q', r) := read q in
  inv q' /\ same_limits q q' /\ r = hd_error (live q) /\ live q' = tl (live q) /\
  (r = None -> queue q' = []) /\ exists popped, queue q = popped ++ queue q'.
Proof. intros. apply read_loop_spec; [done|lia]. Qed.

(** [read_into] is [read]; without a valid SDU, the argument is the last SDU of the FIFO. *)
Lemma read_into_loop_read fuel : forall sdu q, inv q -> (length (queue q) < fuel)%nat ->
  let '(q', s, ok) := read_into_loop fuel sdu q in
  read_loop fuel q = (q', if ok : bool then Some s else None) /\
  (ok = false -> s = default sdu (last (queue q))) /\ (ok = true -> s ∈ live q).
Proof.
  induction fuel as [|fuel IH]; intros sdu q Hinv Hlen; [lia|]. simpl. unfold try_pop. destruct (queue q) as [|s rest] eqn:Hq; [by rewrite ?Hq|].
  destruct (sdu_pdcp_sn s) as [p|] eqn:E.
  - pose proof (release_spec q s rest p Hinv Hq E) as R. destruct (check_and_release p (set_queue rest q)) as [q1 v]. destruct R as (H1 & H2 & H3 & H4 & H5).
    destruct v.
    + split; [done|]. split; [done|]. intros _. rewrite H5. left.
    + specialize (IH s q1 H1). destruct (read_into_loop fuel s q1) as [[q' s'] ok]. destruct IH as (I1 & I2 & I3); [rewrite H3; simpl in Hlen; lia|].
      split; [done|]. split.
      * intros Hf. rewrite (I2 Hf), H3. by destruct rest as [|x l] using rev_ind; [|rewrite app_comm_cons, !last_snoc].
      * intros Ht. rewrite H5. by apply I3.
  - split; [done|]. split; [done|]. intros _. assert (valid_in (sdu_states q) (capacity q) s = true) as Hv by (unfold valid_in; by rewrite E).
    unfold live. rewrite Hq. simpl. rewrite Hv. left.
Qed.

Lemma front_loop_spec fuel : forall q, inv q -> (length (queue q) < fuel)%nat ->
  let '(q', r) := front_loop fuel q in
  inv q' /\ same_limits q q' /\ r = hd_error (live q) /\ live q' = live q /\
  r = hd_error (queue q') /\ exists popped, queue q = popped ++ queue q'.
Proof.
  induction fuel as [|fuel IH]; intros q Hinv Hlen; [lia|]. simpl.
  destruct (queue q) as [|s rest] eqn:Hq.
  { unfold live. rewrite Hq. simpl. rewrite ?Hq. repeat (split; [done|]). by exists []. }
  assert (valid_in (sdu_states q) (capacity q) s = true -> hd_error (live q) = Some s) as Hhd.
  { intros Hv. unfold live. rewrite Hq. simpl. by rewrite Hv. }
  destruct (sdu_pdcp_sn s) as [p|] eqn:E.
  - pose proof (release_spec q s rest p Hinv Hq E) as R.
    assert (valid_in (sdu_states q) (capacity q) s = check p q) as Hv by (unfold valid_in; by rewrite E).
    destruct (check p q).
    + rewrite Hhd, Hq by done. repeat (split; [done|]). by exists [].
    + unfold try_pop. rewrite Hq, E, bool_decide_eq_true_2 by done. simpl.
      destruct (check_and_release p (set_queue rest q)) as [q1 v]. destruct R as (H1 & H2 & H3 & H4 & H5).
      rewrite Hv in H4. subst v. simpl in H5. specialize (IH q1 H1). destruct (front_loop fuel q1) as [q' r].
      destruct IH as (I1 & I2 & I3 & I4 & I5 & popped & I6); [rewrite H3; simpl in Hlen; lia|].
      split; [done|]. split; [by apply (same_limits_trans _ q1)|]. rewrite H5. repeat (split; [done|]).
      exists (s :: popped). by rewrite <- app_comm_cons, <- I6, H3.
  - rewrite Hhd, Hq by (unfold valid_in; by rewrite E). repeat (split; [done|]). by exists [].
Qed.

Lemma front_spec q : inv q ->
  let '(q', r) := front q in
  inv q' /\ same_limits q q' /\ r = hd_error (live q) /\ live q' = live q /\
  r = hd_error (queue q') /\ exists popped, queue q = popped ++ queue q'.
Proof. intros. apply front_loop_spec; [done|lia]. Qed.

(** Without discarded SDUs in the FIFO, reading takes its head and the front is its head. *)
Lemma all_live_head q s rest : inv q -> queue q = s :: rest -> live q = queue q -> valid_in (sdu_states q) (capacity q) s = true.
Proof.
  intros Hinv Hq Hl. destruct (valid_in _ _ s) eqn:Hv; [done|]. unfold live in Hl. rewrite Hq in Hl. simpl in Hl. rewrite Hv in Hl.
  pose proof (List.filter_length_le (valid_in (sdu_states q) (capacity q)) rest) as Hle. rewrite Hl in Hle. simpl in Hle. lia.
Qed.

Lemma read_all_live q : inv q -> live q = queue q -> live (fst (read q)) = queue (fst (read q)) /\ queue (fst (read q)) = tl (queue q).
Proof.
  intros Hinv Hl. unfold read. cbn [read_loop]. unfold try_pop. destruct (queue q) as [|s rest] eqn:Hq; [cbn [fst]; by rewrite Hl|].
  pose proof (all_live_head q s rest Hinv Hq ltac:(by rewrite Hq)) as Hv. cbn [tl]. destruct (sdu_pdcp_sn s) as [p|] eqn:E.
  - pose proof (release_spec q s rest p Hinv Hq E) as R. destruct (check_and_release p (set_queue rest q)) as [q1 v]. destruct R as (_ & _ & H3 & H4 & H5).
    rewrite H4, Hv in *. cbn [fst]. rewrite Hl in H5. injection H5 as H5. by rewrite H3, <- H5.
  - cbn [fst]. pose proof Hl as Hl'. unfold live in Hl'. rewrite Hq in Hl'. simpl in Hl'. rewrite Hv in Hl'. injection Hl' as Hl'. done.
Qed.

Lemma front_all_live q : inv q -> live q = queue q -> fst (front q) = q.
Proof.
  intros Hinv Hl. unfold front. cbn [front_loop]. destruct (queue q) as [|s rest] eqn:Hq; [done|].
  pose proof (all_live_head q s rest Hinv Hq ltac:(by rewrite Hq)) as Hv. unfold valid_in in Hv. destruct (sdu_pdcp_sn s) as [p|]; [|done].
  change (slot_state q p =? p = true) in Hv. unfold check. by rewrite Hv.
Qed.

Lemma create_queue_inv cap limit : 0 < cap < 2 ^ 32 -> 0 <= limit < 2 ^ 32 -> inv (create cap limit) /\ live (create cap limit) = [].
Proof.
  intros. split; [|done]. constructor; simpl; rewrite ?zlen_nil; try done; try lia; try (constructor; fail);
    by intros ?? ?%elem_of_nil.
Qed.

(** ** The queue implements a FIFO with removal *)

Inductive operation := op_write (s : rlc_sdu) | op_discard (pdcp_sn : Z) | op_read | op_front.
Inductive outcome := accepted (b : bool) | obtained (s : option rlc_sdu).

Definition run (o : operation) (q : rlc_sdu_queue) : rlc_sdu_queue * outcome :=
  match o with
  | op_write s => let '(q', b) := write s q in (q', accepted b)
  | op_discard p => let '(q', b) := try_discard p q in (q', accepted b)
  | op_read => let '(q', r) := read q in (q', obtained r)
  | op_front => let '(q', r) := front q in (q', obtained r)
  end.

Definition operation_ok (o : operation) : Prop :=
  match o with
  | op_write s => sdu_ok s
  | op_discard p => 0 <= p < STATE_DISCARDED
  | _ => True
  end.

(** The abstract queue: a list of SDUs. *)
Inductive fifo_step : list rlc_sdu -> operation -> outcome -> list rlc_sdu -> Prop :=
| fifo_accept l s : fifo_step l (op_write s) (accepted true) (l ++ [s])
| fifo_reject l s : fifo_step l (op_write s) (accepted false) l
| fifo_discard l p :
    fifo_step l (op_discard p) (accepted (existsb (carries p) l)) (List.filter (fun s => negb (carries p s)) l)
| fifo_read l : fifo_step l op_read (obtained (hd_error l)) (tl l)
| fifo_front l : fifo_step l op_front (obtained (hd_error l)) l.

Lemma run_refines q o : inv q -> operation_ok o ->
  let '(q', out) := run o q in inv q' /\ same_limits q q' /\ fifo_step (live q) o out (live q').
Proof.
  intros Hinv Ho. destruct o as [s|p| |]; simpl in *.
  - pose proof (write_spec q s Hinv Ho) as W. destruct (write s q) as [q' b].
    destruct W as (? & ? & _ & _ & ->). split; [done|]. split; [done|].
    destruct b; [constructor|rewrite app_nil_r; constructor].
  - pose proof (try_discard_spec q p Hinv Ho) as W. destruct (try_discard p q) as [q' b].
    destruct W as (? & ? & _ & -> & ->). split; [done|]. split; [done|]. constructor.
  - pose proof (read_spec q Hinv) as W. destruct (read q) as [q' r].
    destruct W as (? & ? & -> & -> & _). split; [done|]. split; [done|]. constructor.
  - pose proof (front_spec q Hinv) as W. destruct (front q) as [q' r].
    destruct W as (? & ? & -> & -> & _). split; [done|]. split; [done|]. constructor.
Qed.

(** Runs of operations; the outcomes in order. *)
Fixpoint run_all (os : list operation) (q : rlc_sdu_queue) : rlc_sdu_queue * list outcome :=
  match os with
  | [] => (q, [])
  | o :: os' => let '(q1, out) := run o q in let '(q2, outs) := run_all os' q1 in (q2, out :: outs)
  end.
Inductive fifo_run : list rlc_sdu -> list operation -> list outcome -> list rlc_sdu -> Prop :=
| fifo_done l : fifo_run l [] [] l
| fifo_more l o out l1 os outs l2 :
    fifo_step l o out l1 -> fifo_run l1 os outs l2 -> fifo_run l (o :: os) (out :: outs) l2.

Lemma run_all_refines os : forall q, inv q -> Forall operation_ok os ->
  let '(q', outs) := run_all os q in inv q' /\ fifo_run (live q) os outs (live q').
Proof.
  induction os as [|o os IH]; intros q Hinv Hos; simpl; [split; [done|constructor]|].
  apply Forall_cons in Hos as [Ho Hos]. pose proof (run_refines q o Hinv Ho) as R.
  destruct (run o q) as [q1 out]. destruct R as (H1 & _ & Hstep).
  specialize (IH q1 H1 Hos). destruct (run_all os q1) as [q2 outs]. destruct IH as [H2 Hrun].
  split; [done|]. by econstructor.
Qed.

Lemma run_all_limits os : forall q, inv q -> Forall operation_ok os -> same_limits q (fst (run_all os q)).
Proof.
  induction os as [|o os IH]; intros q Hinv Hos; simpl; [done|].
  apply Forall_cons in Hos as [Ho Hos]. pose proof (run_refines q o Hinv Ho) as R.
  destruct (run o q) as [q1 out]. destruct R as (H1 & [Hc Hb] & _).
  specialize (IH q1 H1 Hos). destruct (run_all os q1) as [q2 outs]. destruct IH as [Hc2 Hb2]. split; simpl in *; congruence.
Qed.
End SduQueue.

(** C29: whatever SDUs are written, discarded, read and peeked at, the Tx SDU queue behaves as a FIFO of
    the SDUs that were accepted and not discarded, and the count of SDUs and bytes that other
    threads read is the one of that FIFO. *)
Theorem sdu_queue_refines_fifo cap limit os :
  0 < cap < 2 ^ 32 -> 0 <= limit < 2 ^ 32 -> Forall SduQueue.operation_ok os ->
  let '(q, outs) := SduQueue.run_all os (SduQueue.create cap limit) in
  exists l, SduQueue.fifo_run [] os outs l /\
    SduQueue.get_state q = SduQueue.mk_state_t (zlen l) (SduQueue.total_bytes l).
Proof.
  intros Hc Hl Hos. destruct (SduQueue.create_queue_inv cap limit Hc Hl) as [Hinv E].
  pose proof (SduQueue.run_all_refines os _ Hinv Hos) as R.
  destruct (SduQueue.run_all _ _) as [q outs]. destruct R as [Hq Hrun]. rewrite E in Hrun.
  exists (SduQueue.live q). split; [done|]. by apply SduQueue.get_state_live.
Qed.

(** An SDU is accepted exactly when the bytes queued stay below the limit, the FIFO has room and no
    queued SDU, discarded or not, has the same PDCP SN modulo the capacity. *)
Theorem sdu_queue_accepts q s :
  SduQueue.inv q -> SduQueue.sdu_ok s ->
  snd (SduQueue.write s q) = true <->
  SduQueue.total_bytes (SduQueue.live q) + zlen (sdu_buf s) < SduQueue.byte_limit q /\
  zlen (SduQueue.queue q) < SduQueue.capacity q /\
  forall s' p p', s' ∈ SduQueue.queue q -> sdu_pdcp_sn s = Some p -> sdu_pdcp_sn s' = Some p' ->
    p' mod SduQueue.capacity q <> p mod SduQueue.capacity q.
Proof.
  intros Hinv Hs. pose proof (SduQueue.write_spec q s Hinv Hs) as W.
  destruct (SduQueue.write s q) as [q' b]. destruct W as (_ & _ & -> & _ & _). simpl.
  unfold SduQueue.accepts. rewrite !andb_true_iff, !Z.ltb_lt.
  destruct (sdu_pdcp_sn s) as [p|].
  - rewrite negb_true_iff, bool_decide_eq_false, SduQueue.elem_of_occupied.
    split; [intros [[? Hn] ?]|intros (? & ? & Hn)].
    + split; [done|]. split; [done|]. intros s' p0 p' Hin [= <-] E Heq. apply Hn. by exists s', p'.
    + split; [split; [done|]|done]. intros (s' & p' & Hin & E & Heq). by apply (Hn s' p p').
  - split; [intros [[? _] ?]|intros (? & ? & _)]; [|done]. split; [done|]. split; [done|]. by intros.
Qed.

(** Whatever SDUs are written, discarded, read and peeked at, the FIFO never exceeds its capacity nor the bytes their
    limit, and the word that packs both counts is their exact value: no carry or borrow passes between its halves, and
    nothing wraps at 64 bits. *)
Theorem sdu_queue_bounds cap limit os :
  0 < cap < 2 ^ 32 -> 0 <= limit < 2 ^ 32 -> Forall SduQueue.operation_ok os ->
  let q := fst (SduQueue.run_all os (SduQueue.create cap limit)) in
  zlen (SduQueue.queue q) <= cap /\ SduQueue.n_sdus (SduQueue.get_state q) <= cap /\
  0 <= SduQueue.n_bytes (SduQueue.get_state q) <= limit /\
  SduQueue.state q = SduQueue.n_sdus (SduQueue.get_state q) * 2 ^ 32 + SduQueue.n_bytes (SduQueue.get_state q).
Proof.
  intros Hc Hl Hos q. destruct (SduQueue.create_queue_inv cap limit Hc Hl) as [Hinv _].
  pose proof (SduQueue.run_all_refines os _ Hinv Hos) as R. pose proof (SduQueue.run_all_limits os _ Hinv Hos) as [Ec El].
  subst q. destruct (SduQueue.run_all _ _) as [q outs]. destruct R as [Hq _]. cbn [fst] in *.
  rewrite (SduQueue.get_state_live q Hq). cbn [SduQueue.n_sdus SduQueue.n_bytes]. pose proof (SduQueue.live_queue q). pose proof (SduQueue.inv_length q Hq).
  pose proof (SduQueue.inv_bytes q Hq). pose proof (SduQueue.total_bytes_nonneg (SduQueue.live q)). simpl in Ec, El.
  rewrite Ec, El in *. split; [lia|]. split; [lia|]. split; [lia|]. apply Hq.
Qed.

Definition example_queue_ops : list SduQueue.operation :=
  [SduQueue.op_write (mk_sdu [1; 2] false (Some 5) 0); SduQueue.op_write (mk_sdu [3] false (Some 6) 1);
   SduQueue.op_discard 5; SduQueue.op_write (mk_sdu [4] false (Some 13) 2); SduQueue.op_front;
   SduQueue.op_read; SduQueue.op_write (mk_sdu [9; 9; 9] false None 3)].

Lemma example_queue_ops_ok : Forall SduQueue.operation_ok example_queue_ops.
Proof.
  repeat (apply Forall_cons; split; [|]); try apply Forall_nil; try exact I;
    try (split; [reflexivity|]; intros p [= <-]; split; [discriminate|reflexivity]);
    try (split; [discriminate|reflexivity]). split; [reflexivity|]. intros p Hp. discriminate.
Qed.

Lemma sdu_queue_refines_fifo_witness :
  exists q, SduQueue.run_all example_queue_ops (SduQueue.create 8 100) =
      (q, [SduQueue.accepted true; SduQueue.accepted true; SduQueue.accepted true; SduQueue.accepted false;
           SduQueue.obtained (Some (mk_sdu [3] false (Some 6) 1));
           SduQueue.obtained (Some (mk_sdu [3] false (Some 6) 1)); SduQueue.accepted true]) /\
    exists l, SduQueue.get_state q = SduQueue.mk_state_t (zlen l) (SduQueue.total_bytes l) /\
      SduQueue.get_state q = SduQueue.mk_state_t 1 3.
Proof.
  pose proof example_queue_ops_ok as Hos.
  pose proof (sdu_queue_refines_fifo 8 100 example_queue_ops ltac:(lia) ltac:(lia) Hos) as H.
  eexists. split; [vm_compute; reflexivity|].
  vm_compute in H. destruct H as (l & _ & H). exists l. split; [exact H|reflexivity].
Defined.

Lemma sdu_queue_accepts_witness :
  snd (SduQueue.write (mk_sdu [7] true (Some 3) 0) (SduQueue.create 8 100)) = true.
Proof.
  destruct (SduQueue.create_queue_inv 8 100) as [Hinv _]; [split; reflexivity|split; [discriminate|reflexivity]|].
  apply (sdu_queue_accepts _ (mk_sdu [7] true (Some 3) 0) Hinv).
  - split; [reflexivity|]. intros p [= <-]. split; [discriminate|reflexivity].
  - split; [reflexivity|]. split; [reflexivity|]. intros s' p p' Hin. apply elem_of_nil in Hin. destruct Hin.
Defined.

Lemma sdu_queue_bounds_witness :
  let q := fst (SduQueue.run_all example_queue_ops (SduQueue.create 8 100)) in
  SduQueue.n_bytes (SduQueue.get_state q) <= 100 /\ SduQueue.state q = 1 * 2 ^ 32 + 3.
Proof.
  pose proof example_queue_ops_ok as Hos.
  destruct (sdu_queue_bounds 8 100 example_queue_ops ltac:(lia) ltac:(lia) Hos) as (_ & _ & [_ H1] & H2).
  split; [exact H1|]. rewrite H2. reflexivity.
Defined.
