(* ===== verification/SduQueueThreads.v ===== *)
(** * The Tx SDU queue, access by access

    [rlc_sdu_queue_lockfree] is used by two threads at once: the upper layers write and discard, the lower layers read and look at
    the front.  A step of this model is one access to shared memory - one atomic load, store, exchange or addition, or
    one call of the single-producer single-consumer queue of the library - and the steps of the two
    threads interleave freely.  The queue of the library is taken as an atomic FIFO and the accesses as
    sequentially consistent.  A thread that is not interrupted does what the operation of [SduQueue] does. *)

From S2P Require Import Prelude SduQueue.
Open Scope Z_scope.
Import SduQueue.

Module SduQueueThreads.

(** Where the upper thread stands in [write] and [try_discard]. *)
Inductive upper_pc :=
| wr_get_state (sdu : rlc_sdu)
| wr_load_slot (sdu : rlc_sdu) (pdcp_sn : Z)
| wr_store_size (sdu : rlc_sdu) (pdcp_sn : Z)
| wr_store_slot (sdu : rlc_sdu) (pdcp_sn : Z)
| wr_push (sdu : rlc_sdu)
| wr_free_slot (sdu : rlc_sdu) (pdcp_sn : Z)
| wr_state_add (sdu : rlc_sdu)
| di_compare_exchange (pdcp_sn : Z)
| di_load_size (pdcp_sn : Z) (success : bool)
| di_state_sub (pdcp_sn sdu_size : Z).

(** Who called [check_and_release]: [read], which goes on without a valid SDU, or [front], with the SDU it popped. *)
Inductive caller := by_read (sdu : rlc_sdu) | by_front (pop_sdu : rlc_sdu).

(** Where the lower thread stands in [read] and [front]. *)
Inductive lower_pc :=
| rd_pop
| rd_state_sub (sdu : rlc_sdu)
| fr_front
| fr_check (front_sdu : rlc_sdu) (pdcp_sn : Z)
| fr_pop (pdcp_sn : Z)
| cr_load_size (c : caller) (pdcp_sn : Z)
| cr_exchange (c : caller) (pdcp_sn sdu_size : Z)
| cr_state_sub (c : caller) (sdu_size : Z) (sdu_is_valid : bool).

(** One access; the thread goes on, or returns its result. *)
Definition upper_step (pc : upper_pc) (q : rlc_sdu_queue) : rlc_sdu_queue * (upper_pc + outcome) :=
  match pc with
  | wr_get_state sdu =>
      if byte_limit q <=? zlen (sdu_buf sdu) + n_bytes (get_state q) then (q, inr (accepted false))
      else (q, inl match sdu_pdcp_sn sdu with Some pdcp_sn => wr_load_slot sdu pdcp_sn | None => wr_push sdu end)
  | wr_load_slot sdu pdcp_sn =>
      if negb (slot_state q pdcp_sn =? STATE_FREE) then (q, inr (accepted false)) else (q, inl (wr_store_size sdu pdcp_sn))
  | wr_store_size sdu pdcp_sn => (set_slot_size pdcp_sn (zlen (sdu_buf sdu)) q, inl (wr_store_slot sdu pdcp_sn))
  | wr_store_slot sdu pdcp_sn => (set_slot_state pdcp_sn pdcp_sn q, inl (wr_push sdu))
  | wr_push sdu =>
      let '(q, pushed) := try_push sdu q in
      (q, if negb pushed then match sdu_pdcp_sn sdu with Some pdcp_sn => inl (wr_free_slot sdu pdcp_sn) | None => inr (accepted false) end
          else inl (wr_state_add sdu))
  | wr_free_slot sdu pdcp_sn => (set_slot_state pdcp_sn STATE_FREE q, inr (accepted false))
  | wr_state_add sdu => (state_add (zlen (sdu_buf sdu)) q, inr (accepted true))
  | di_compare_exchange pdcp_sn =>
      if slot_state q pdcp_sn =? pdcp_sn then (set_slot_state pdcp_sn STATE_DISCARDED q, inl (di_load_size pdcp_sn true))
      else (q, inl (di_load_size pdcp_sn false))
  | di_load_size pdcp_sn success =>
      let sdu_size := u32 (slot_size q pdcp_sn) in
      (q, if negb success then inr (accepted false) else inl (di_state_sub pdcp_sn sdu_size))
  | di_state_sub pdcp_sn sdu_size => (state_sub sdu_size q, inr (accepted true))
  end.

(** What follows [check_and_release]. *)
Definition released (c : caller) (sdu_is_valid : bool) : lower_pc + outcome :=
  match c with
  | by_read sdu => if sdu_is_valid then inr (obtained (Some sdu)) else inl rd_pop
  | by_front _ => if sdu_is_valid then inr (obtained None) else inl fr_front
  end.

Definition lower_step (pc : lower_pc) (q : rlc_sdu_queue) : rlc_sdu_queue * (lower_pc + outcome) :=
  match pc with
  | rd_pop =>
      match try_pop q with
      | None => (q, inr (obtained None))
      | Some (sdu, q) => (q, inl match sdu_pdcp_sn sdu with Some pdcp_sn => cr_load_size (by_read sdu) pdcp_sn | None => rd_state_sub sdu end)
      end
  | rd_state_sub sdu => (state_sub (zlen (sdu_buf sdu)) q, inr (obtained (Some sdu)))
  | fr_front =>
      match queue q with
      | [] => (q, inr (obtained None))
      | front_sdu :: _ => (q, match sdu_pdcp_sn front_sdu with Some pdcp_sn => inl (fr_check front_sdu pdcp_sn) | None => inr (obtained (Some front_sdu)) end)
      end
  | fr_check front_sdu pdcp_sn => (q, if check pdcp_sn q then inr (obtained (Some front_sdu)) else inl (fr_pop pdcp_sn))
  | fr_pop pdcp_sn =>
      match try_pop q with
      | None => (q, inr (obtained None))
      | Some (pop_sdu, q) =>
          (q, if negb (bool_decide (sdu_pdcp_sn pop_sdu = Some pdcp_sn)) then inr (obtained None) else inl (cr_load_size (by_front pop_sdu) pdcp_sn))
      end
  | cr_load_size c pdcp_sn => (q, inl (cr_exchange c pdcp_sn (u32 (slot_size q pdcp_sn))))
  | cr_exchange c pdcp_sn sdu_size =>
      let old_state := slot_state q pdcp_sn in
      (set_slot_state pdcp_sn STATE_FREE q,
       if old_state =? pdcp_sn then inl (cr_state_sub c sdu_size true)
       else if old_state =? STATE_DISCARDED then released c false
       else inl (cr_state_sub c sdu_size false))
  | cr_state_sub c sdu_size sdu_is_valid => (state_sub sdu_size q, released c sdu_is_valid)
  end.

(** ** The two threads *)

Record sys := mk_sys { fifo : rlc_sdu_queue; upper : option upper_pc; lower : option lower_pc }.

Inductive event := called (o : operation) | answered (o : operation) (out : outcome).
Inductive action := calls (o : operation) | upper_runs | lower_runs.

Definition upper_op (pc : upper_pc) : operation :=
  match pc with
  | wr_get_state sdu | wr_load_slot sdu _ | wr_store_size sdu _ | wr_store_slot sdu _ | wr_push sdu | wr_free_slot sdu _ | wr_state_add sdu => op_write sdu
  | di_compare_exchange p | di_load_size p _ | di_state_sub p _ => op_discard p
  end.
Definition caller_op (c : caller) : operation := match c with by_read _ => op_read | by_front _ => op_front end.
Definition lower_op (pc : lower_pc) : operation :=
  match pc with
  | rd_pop | rd_state_sub _ => op_read
  | fr_front | fr_check _ _ | fr_pop _ => op_front
  | cr_load_size c _ | cr_exchange c _ _ | cr_state_sub c _ _ => caller_op c
  end.

(** Which thread an operation runs on, and where it begins. *)
Definition entry (o : operation) : upper_pc + lower_pc :=
  match o with
  | op_write sdu => inl (wr_get_state sdu)
  | op_discard pdcp_sn => inl (di_compare_exchange pdcp_sn)
  | op_read => inr rd_pop
  | op_front => inr fr_front
  end.

Definition after {A} (o : operation) (next : A + outcome) : option A * list event :=
  match next with inl pc => (Some pc, []) | inr out => (None, [answered o out]) end.

Definition step (a : action) (s : sys) : option (sys * list event) :=
  match a with
  | calls o =>
      match entry o with
      | inl pc => match upper s with None => Some (mk_sys (fifo s) (Some pc) (lower s), [called o]) | Some _ => None end
      | inr pc => match lower s with None => Some (mk_sys (fifo s) (upper s) (Some pc), [called o]) | Some _ => None end
      end
  | upper_runs =>
      match upper s with
      | None => None
      | Some pc => let '(q, next) := upper_step pc (fifo s) in let '(pc', es) := after (upper_op pc) next in Some (mk_sys q pc' (lower s), es)
      end
  | lower_runs =>
      match lower s with
      | None => None
      | Some pc => let '(q, next) := lower_step pc (fifo s) in let '(pc', es) := after (lower_op pc) next in Some (mk_sys q (upper s) pc', es)
      end
  end.

Definition create (capacity byte_limit : Z) : sys := mk_sys (SduQueue.create capacity byte_limit) None None.

Fixpoint run_threads (l : list action) (s : sys) : option (sys * list event) :=
  match l with
  | [] => Some (s, [])
  | a :: l =>
      match step a s with
      | None => None
      | Some (s, es) => match run_threads l s with Some (s, es') => Some (s, es ++ es') | None => None end
      end
  end.

(** ** A thread alone does the whole operation *)

Fixpoint upper_alone (fuel : nat) (pc : upper_pc) (q : rlc_sdu_queue) : option (rlc_sdu_queue * outcome) :=
  match fuel with
  | O => None
  | S fuel => match upper_step pc q with (q, inr out) => Some (q, out) | (q, inl pc) => upper_alone fuel pc q end
  end.
Fixpoint lower_alone (fuel : nat) (pc : lower_pc) (q : rlc_sdu_queue) : option (rlc_sdu_queue * outcome) :=
  match fuel with
  | O => None
  | S fuel => match lower_step pc q with (q, inr out) => Some (q, out) | (q, inl pc) => lower_alone fuel pc q end
  end.
Definition alone (fuel : nat) (o : operation) (q : rlc_sdu_queue) : option (rlc_sdu_queue * outcome) :=
  match entry o with inl pc => upper_alone fuel pc q | inr pc => lower_alone fuel pc q end.

Lemma write_alone sdu q : alone 6 (op_write sdu) q = Some (run (op_write sdu) q).
Proof.
  cbn. unfold write, try_push. destruct (byte_limit q <=? _); [done|]. destruct (sdu_pdcp_sn sdu) as [p|] eqn:E; cbn.
  - destruct (slot_state q p =? STATE_FREE); cbn; [|done]. unfold try_push. cbn. destruct (zlen (queue q) <? _); cbn; [done|by rewrite E].
  - unfold try_push. destruct (zlen (queue q) <? _); cbn; [done|by rewrite E].
Qed.

Lemma discard_alone p q : alone 3 (op_discard p) q = Some (run (op_discard p) q).
Proof. cbn. unfold try_discard. by destruct (slot_state q p =? p). Qed.

Lemma read_alone fuel : forall q, (length (queue q) < fuel)%nat ->
  exists n, lower_alone n rd_pop q = Some (let '(q', r) := read_loop fuel q in (q', obtained r)).
Proof.
  induction fuel as [|fuel IH]; intros q Hl; [lia|]. cbn [read_loop]. unfold try_pop. destruct (queue q) as [|x rest] eqn:Eq.
  { exists 1%nat. cbn. unfold try_pop. by rewrite Eq. }
  destruct (sdu_pdcp_sn x) as [p|] eqn:Ep.
  2: { exists 2%nat. cbn. unfold try_pop. by rewrite Eq, Ep. }
  unfold check_and_release. set (q1 := set_queue rest q).
  assert (forall n r, lower_alone n (cr_load_size (by_read x) p) q1 = r -> lower_alone (S n) rd_pop q = r) as Hpop.
  { intros n r <-. cbn. unfold try_pop. by rewrite Eq, Ep. }
  destruct (Z.eqb_spec (slot_state q1 p) p) as [Es|Es]; [exists 4%nat; apply Hpop; cbn; by rewrite Es, Z.eqb_refl|].
  destruct (Z.eqb_spec (slot_state q1 p) STATE_DISCARDED) as [Ed|Ed].
  - destruct (IH (set_slot_state p STATE_FREE q1)) as [n Hn]; [cbn in *; lia|]. exists (S (S (S n))). apply Hpop. cbn.
    rewrite (proj2 (Z.eqb_neq _ _) Es), Ed. exact Hn.
  - destruct (IH (state_sub (u32 (slot_size q1 p)) (set_slot_state p STATE_FREE q1))) as [n Hn]; [cbn in *; lia|]. exists (S (S (S (S n)))). apply Hpop. cbn.
    rewrite (proj2 (Z.eqb_neq _ _) Es), (proj2 (Z.eqb_neq _ _) Ed). exact Hn.
Qed.

Lemma front_alone fuel : forall q, (length (queue q) < fuel)%nat ->
  exists n, lower_alone n fr_front q = Some (let '(q', r) := front_loop fuel q in (q', obtained r)).
Proof.
  induction fuel as [|fuel IH]; intros q Hl; [lia|]. cbn [front_loop]. destruct (queue q) as [|x rest] eqn:Eq.
  { exists 1%nat. cbn. by rewrite Eq. }
  destruct (sdu_pdcp_sn x) as [p|] eqn:Ep.
  2: { exists 1%nat. cbn. by rewrite Eq, Ep. }
  destruct (check p q) eqn:Ec; [exists 2%nat; cbn; rewrite Eq, Ep; cbn; by rewrite Ec|].
  unfold try_pop, check_and_release. rewrite Eq, Ep, bool_decide_eq_true_2 by done. cbn [negb]. set (q1 := set_queue rest q).
  assert (forall n r, lower_alone n (cr_load_size (by_front x) p) q1 = r -> lower_alone (S (S (S n))) fr_front q = r) as Hpop.
  { intros n r <-. cbn. rewrite Eq, Ep. cbn. rewrite Ec. cbn. unfold try_pop. by rewrite Eq, Ep, bool_decide_eq_true_2. }
  unfold check in Ec. change (slot_state q1 p) with (slot_state q p). rewrite Ec.
  destruct (Z.eqb_spec (slot_state q p) STATE_DISCARDED) as [Ed|Ed].
  - destruct (IH (set_slot_state p STATE_FREE q1)) as [n Hn]; [cbn in *; lia|]. exists (S (S (S (S (S n))))). apply Hpop. cbn.
    change (slot_state q1 p) with (slot_state q p). rewrite Ec, Ed. exact Hn.
  - destruct (IH (state_sub (u32 (slot_size q1 p)) (set_slot_state p STATE_FREE q1))) as [n Hn]; [cbn in *; lia|]. exists (S (S (S (S (S (S n)))))). apply Hpop. cbn.
    change (slot_state q1 p) with (slot_state q p). rewrite Ec, (proj2 (Z.eqb_neq _ _) Ed). exact Hn.
Qed.

(** Uninterrupted, the accesses of an operation are the operation of [SduQueue]. *)
Lemma alone_is_operation o q : exists n, alone n o q = Some (run o q).
Proof.
  destruct o as [sdu|p| |]; [exists 6%nat; apply write_alone|exists 3%nat; apply discard_alone|..].
  - destruct (read_alone (S (length (queue q))) q) as [n Hn]; [lia|]. exists n. exact Hn.
  - destruct (front_alone (S (length (queue q))) q) as [n Hn]; [lia|]. exists n. exact Hn.
Qed.

(** ** Slots and contents *)

Section core.
Context (cap : Z).

Definition at_slot (m : gmap Z Z) (p : Z) : Z := default STATE_FREE (m !! (p mod cap)).
Definition size_at (m : gmap Z Z) (p : Z) : Z := default 0 (m !! (p mod cap)).
Definition slots (c : list rlc_sdu) : list Z := omap (fun x => p ← sdu_pdcp_sn x; Some (p mod cap)) c.
(** The SDUs that were not discarded. *)
Definition wanted (states : gmap Z Z) (c : list rlc_sdu) : list rlc_sdu := List.filter (valid_in states cap) c.

(** The slots against the SDUs [c] that have not been released; [reserved]: the PDCP SN whose slot the writer is filling. *)
Record core (states sizes : gmap Z Z) (c : list rlc_sdu) (reserved : option Z) : Prop := {
  cr_slots : NoDup (slots c);
  cr_free : forall p, p mod cap ∉ slots c -> (forall r, reserved = Some r -> r mod cap <> p mod cap) -> at_slot states p = STATE_FREE;
  cr_reserved : forall r, reserved = Some r -> r mod cap ∉ slots c;
  cr_used : forall x p, x ∈ c -> sdu_pdcp_sn x = Some p -> 0 <= p < STATE_DISCARDED /\
    (at_slot states p = p \/ at_slot states p = STATE_DISCARDED) /\ size_at sizes p = zlen (sdu_buf x)
}.

Lemma elem_of_slots c i : i ∈ slots c <-> exists x p, x ∈ c /\ sdu_pdcp_sn x = Some p /\ p mod cap = i.
Proof.
  unfold slots. rewrite list_elem_of_omap. split.
  - intros (x & Hx & H). destruct (sdu_pdcp_sn x) as [p|] eqn:E; simplify_eq/=. eauto.
  - intros (x & p & Hx & E & <-). exists x. split; [done|]. by rewrite E.
Qed.

Lemma in_slots c x p : x ∈ c -> sdu_pdcp_sn x = Some p -> p mod cap ∈ slots c.
Proof. intros Hx E. apply elem_of_slots. eauto. Qed.

Lemma at_slot_store m p p' v : at_slot (<[p mod cap := v]> m) p' = if decide (p mod cap = p' mod cap) then v else at_slot m p'.
Proof. unfold at_slot. case_decide as E; [by rewrite E, lookup_insert_eq|by rewrite lookup_insert_ne]. Qed.
Lemma size_at_store m p p' v : size_at (<[p mod cap := v]> m) p' = if decide (p mod cap = p' mod cap) then v else size_at m p'.
Proof. unfold size_at. case_decide as E; [by rewrite E, lookup_insert_eq|by rewrite lookup_insert_ne]. Qed.

Lemma wanted_store states c p v : p mod cap ∉ slots c -> wanted (<[p mod cap := v]> states) c = wanted states c.
Proof.
  intros Hn. apply filter_ext_elem. intros x Hx. apply valid_other. intros p' E Heq. apply Hn. rewrite <- Heq. by apply (in_slots c x p').
Qed.

Lemma core_store_size states sizes c r v : core states sizes c (Some r) -> core states (<[r mod cap := v]> sizes) c (Some r).
Proof.
  intros [H1 H2 H3 H4]. constructor; [done..|]. intros x p Hx E. rewrite size_at_store. case_decide as Hd; [|by apply H4].
  destruct (H3 r eq_refl). rewrite Hd. by apply (in_slots c x p).
Qed.

Lemma core_store_state states sizes c r v : core states sizes c (Some r) -> core (<[r mod cap := v]> states) sizes c (Some r).
Proof.
  intros [H1 H2 H3 H4]. constructor; [done|..|done|].
  - intros p Hp Hr. rewrite at_slot_store, decide_False by by apply Hr. by apply H2.
  - intros x p Hx E. rewrite at_slot_store, decide_False; [by apply H4|]. intros Hd. destruct (H3 r eq_refl). rewrite Hd. by apply (in_slots c x p).
Qed.

Lemma core_unreserve states sizes c r : core states sizes c (Some r) -> at_slot states r = STATE_FREE -> core states sizes c None.
Proof.
  intros [H1 H2 H3 H4] Hf. constructor; [done|..|done|done]. intros p Hp _. destruct (decide (r mod cap = p mod cap)) as [E|E].
  - unfold at_slot in *. by rewrite <- E.
  - apply H2; [done|]. by intros ? [= <-].
Qed.

Lemma core_free_slot states sizes c p : core states sizes c None -> at_slot states p = STATE_FREE -> p mod cap ∉ slots c.
Proof.
  intros H Hf (x & p' & Hx & E & Hp)%elem_of_slots. destruct (cr_used _ _ _ _ H x p' Hx E) as (Hr & Hs & _).
  unfold at_slot in *. rewrite Hp, Hf in Hs. unfold STATE_FREE, STATE_DISCARDED in *. lia.
Qed.

Lemma core_reserve states sizes c p : core states sizes c None -> p mod cap ∉ slots c -> core states sizes c (Some p).
Proof. intros [H1 H2 H3 H4] Hn. constructor; [done|..|done]; [intros p' Hp _; by apply H2|by intros ? [= <-]]. Qed.

Lemma slots_app c x : slots (c ++ [x]) = slots c ++ slots [x].
Proof. apply omap_app. Qed.
Lemma slots_cons x c : slots (x :: c) = option_list (p ← sdu_pdcp_sn x; Some (p mod cap)) ++ slots c.
Proof. unfold slots. cbn. by destruct (sdu_pdcp_sn x). Qed.

(** Pushing an SDU fills the reserved slot. *)
Lemma core_push states sizes c x : core states sizes c (sdu_pdcp_sn x) ->
  (forall p, sdu_pdcp_sn x = Some p -> 0 <= p < STATE_DISCARDED /\ at_slot states p = p /\ size_at sizes p = zlen (sdu_buf x)) ->
  core states sizes (c ++ [x]) None /\ wanted states (c ++ [x]) = wanted states c ++ [x].
Proof.
  intros [H1 H2 H3 H4] Hx. split.
  - constructor; [..|done|].
    + rewrite slots_app. apply NoDup_app. split; [done|]. rewrite (slots_cons x []). destruct (sdu_pdcp_sn x) as [p|]; cbn; [|split; [by intros ? _ ?%elem_of_nil|constructor]].
      split; [|apply NoDup_singleton]. intros i Hi ->%list_elem_of_singleton. by apply (H3 p).
    + intros p Hp _. rewrite slots_app in Hp. apply not_elem_of_app in Hp as [Hp Hn]. apply H2; [done|]. intros r E Hr. apply Hn.
      rewrite slots_cons, E, <- Hr. by left.
    + intros y p [Hy| ->%list_elem_of_singleton]%elem_of_app E; [by apply H4|]. destruct (Hx p E) as (? & ? & ?). auto.
  - unfold wanted. rewrite List.filter_app. cbn. assert (valid_in states cap x = true) as ->; [|done]. unfold valid_in. destruct (sdu_pdcp_sn x) as [p|]; [|done].
    apply Z.eqb_eq. by apply Hx.
Qed.

Lemma wanted_head states x c : wanted states (x :: c) = (if valid_in states cap x then [x] else []) ++ wanted states c.
Proof. unfold wanted. cbn. by destruct (valid_in states cap x). Qed.

Lemma valid_with_sn states x p : sdu_pdcp_sn x = Some p -> valid_in states cap x = (at_slot states p =? p).
Proof. intros E. unfold valid_in. by rewrite E. Qed.
Lemma valid_without_sn states x : sdu_pdcp_sn x = None -> valid_in states cap x = true.
Proof. intros E. unfold valid_in. by rewrite E. Qed.

(** Taking out an SDU without PDCP SN. *)
Lemma core_pop states sizes x c r : core states sizes (x :: c) r -> sdu_pdcp_sn x = None -> core states sizes c r.
Proof.
  intros [H1 H2 H3 H4] E. rewrite slots_cons, E in H1, H2, H3. constructor; [done..|]. intros y p Hy. apply H4. by right.
Qed.

(** Releasing the slot of the SDU that was taken out. *)
Lemma core_exchange states sizes x c r p : core states sizes (x :: c) r -> sdu_pdcp_sn x = Some p ->
  core (<[p mod cap := STATE_FREE]> states) sizes c r /\ wanted (<[p mod cap := STATE_FREE]> states) c = wanted states c.
Proof.
  intros [H1 H2 H3 H4] E. rewrite slots_cons, E in H1, H2, H3. cbn in *. apply NoDup_cons in H1 as [Hn H1]. split; [|by apply wanted_store].
  constructor; [done|..].
  - intros p' Hp Hr. rewrite at_slot_store. case_decide as Hd; [done|]. apply H2; [|done]. intros [?|?]%elem_of_cons; congruence.
  - intros r' Hr ?. apply (H3 r' Hr). by right.
  - intros y p' Hy E'. rewrite at_slot_store, decide_False; [apply H4; [by right|done]|]. intros Hd. apply Hn. rewrite Hd. by apply (in_slots c y p').
Qed.

Lemma core_head states sizes x c r p : core states sizes (x :: c) r -> sdu_pdcp_sn x = Some p ->
  0 <= p < STATE_DISCARDED /\ (at_slot states p = p \/ at_slot states p = STATE_DISCARDED) /\ size_at sizes p = zlen (sdu_buf x).
Proof. intros H. apply (cr_used _ _ _ _ H). by left. Qed.

Lemma not_carried p l : Forall (fun x => carries p x = false) l -> List.filter (fun x => negb (carries p x)) l = l /\ existsb (carries p) l = false.
Proof. induction 1 as [|x l Hx _ [IH1 IH2]]; cbn; [done|]. by rewrite Hx, IH1, IH2. Qed.

(** Marking a slot as discarded takes its SDU out of what is wanted, and only it. *)
Lemma core_discard states sizes c p : core states sizes c None -> 0 <= p < STATE_DISCARDED -> at_slot states p = p ->
  core (<[p mod cap := STATE_DISCARDED]> states) sizes c None /\
  exists l1 x l2, wanted states c = l1 ++ x :: l2 /\ wanted (<[p mod cap := STATE_DISCARDED]> states) c = l1 ++ l2 /\
    carries p x = true /\ Forall (fun y => carries p y = false) (l1 ++ l2) /\ size_at sizes p = zlen (sdu_buf x).
Proof.
  intros H Hp Hst. pose proof H as [H1 H2 H3 H4].
  assert (p mod cap ∈ slots c) as (x & p' & Hx & E & Hpp)%elem_of_slots.
  { destruct (decide (p mod cap ∈ slots c)) as [|Hn]; [done|]. rewrite (H2 p Hn) in Hst by done. unfold STATE_FREE, STATE_DISCARDED in *. lia. }
  destruct (H4 x p' Hx E) as (Hr & Hs & Hsz). assert (p' = p) as ->.
  { unfold at_slot in *. rewrite Hpp, Hst in Hs. unfold STATE_DISCARDED in *. lia. }
  apply list_elem_of_split in Hx as (c1 & c2 & ->).
  assert (p mod cap ∉ slots c1 /\ p mod cap ∉ slots c2) as [Hn1 Hn2].
  { unfold slots in H1. rewrite omap_app in H1. fold (slots c1) (slots (x :: c2)) in H1. rewrite slots_cons, E in H1. cbn in H1.
    apply NoDup_app in H1 as (_ & Hd & [Hn _]%NoDup_cons). split; [|done]. intros Hi. apply (Hd _ Hi). by left. }
  assert (forall k, p mod cap ∉ slots k -> Forall (fun y => carries p y = false) (wanted states k)) as Hcar.
  { intros k Hn. apply Forall_forall. intros y [Hy _]%list_elem_of_In%filter_In. apply list_elem_of_In in Hy. apply bool_decide_eq_false. intros E'. apply Hn. by apply (in_slots k y p). }
  split.
  - constructor; [done|..|done|].
    + intros q Hq _. rewrite at_slot_store. case_decide as Hd; [|by apply H2]. destruct Hq. rewrite <- Hd. apply (in_slots _ x p); [|done]. apply elem_of_app. right. by left.
    + intros y q Hy Ey. destruct (H4 y q Hy Ey) as (? & ? & ?). rewrite at_slot_store. case_decide; auto.
  - exists (wanted states c1), x, (wanted states c2). unfold wanted in *. rewrite !List.filter_app. cbn.
    rewrite !(valid_with_sn _ x p E), at_slot_store, decide_True, Hst, Z.eqb_refl, (proj2 (Z.eqb_neq STATE_DISCARDED p)) by (done || lia).
    split; [done|]. split; [f_equal; by apply wanted_store|]. split; [by apply bool_decide_eq_true|]. split; [apply Forall_app; auto|done].
Qed.

Lemma core_not_wanted states c p : at_slot states p <> p -> Forall (fun x => carries p x = false) (wanted states c).
Proof.
  intros Hst. apply Forall_forall. intros x [_ Hv]%list_elem_of_In%filter_In. apply bool_decide_eq_false. intros E.
  rewrite (valid_with_sn _ x p E) in Hv. by apply Z.eqb_eq in Hv.
Qed.
End core.

(** ** Linearization: what each operation does, at the moment it takes effect *)

Inductive thread := upper_thread | lower_thread.
Definition thread_of (o : operation) : thread := match entry o with inl _ => upper_thread | inr _ => lower_thread end.

(** A history with the moments written in at which the operations take effect. *)
Inductive mark := seen (e : event) | effect (o : operation) (out : outcome).
Definition mark_thread (m : mark) : thread :=
  match m with seen (called o) | seen (answered o _) | effect o _ => thread_of o end.
Definition erase (ms : list mark) : list event := omap (fun m => match m with seen e => Some e | _ => None end) ms.
Definition effects (ms : list mark) : list (operation * outcome) :=
  omap (fun m => match m with effect o out => Some (o, out) | _ => None end) ms.

(** What a thread is doing: an operation takes effect once, between the call and the answer, with the outcome that is answered. *)
Inductive status := idle | waiting (o : operation) | served (o : operation) (out : outcome).
Inductive moves (t : thread) : status -> list mark -> status -> Prop :=
| mv_nil st : moves t st [] st
| mv_other st m ms st' : mark_thread m <> t -> moves t st ms st' -> moves t st (m :: ms) st'
| mv_call o ms st' : thread_of o = t -> moves t (waiting o) ms st' -> moves t idle (seen (called o) :: ms) st'
| mv_effect o out ms st' : moves t (served o out) ms st' -> moves t (waiting o) (effect o out :: ms) st'
| mv_answer o out ms st' : moves t idle ms st' -> moves t (served o out) (seen (answered o out) :: ms) st'.

Lemma moves_app t st ms st1 ms' st2 : moves t st ms st1 -> moves t st1 ms' st2 -> moves t st (ms ++ ms') st2.
Proof. induction 1; intros H'; cbn; [done|apply mv_other|apply mv_call|apply mv_effect|apply mv_answer]; auto. Qed.

Lemma moves_other t st ms : Forall (fun m => mark_thread m <> t) ms -> moves t st ms st.
Proof. induction 1; constructor; auto. Qed.

Definition upper_status (pc : upper_pc) : status :=
  match pc with
  | wr_state_add sdu => served (op_write sdu) (accepted true)
  | di_load_size p success => served (op_discard p) (accepted success)
  | di_state_sub p _ => served (op_discard p) (accepted true)
  | _ => waiting (upper_op pc)
  end.
Definition lower_status (pc : lower_pc) : status :=
  match pc with
  | rd_state_sub sdu | cr_state_sub (by_read sdu) _ _ => served op_read (obtained (Some sdu))
  | _ => waiting (lower_op pc)
  end.
Definition status_of (t : thread) (s : sys) : status :=
  match t with
  | upper_thread => from_option upper_status idle (upper s)
  | lower_thread => from_option lower_status idle (lower s)
  end.

(** ** Sizes on their way into and out of the count *)

Definition arriving (s : sys) : list Z := match upper s with Some (wr_state_add sdu) => [zlen (sdu_buf sdu)] | _ => [] end.
Definition leaving_upper (q : rlc_sdu_queue) (pc : option upper_pc) : list Z :=
  match pc with Some (di_load_size p true) => [slot_size q p] | Some (di_state_sub _ n) => [n] | _ => [] end.
Definition leaving_lower (pc : option lower_pc) : list Z :=
  match pc with Some (rd_state_sub sdu) => [zlen (sdu_buf sdu)] | Some (cr_state_sub _ n _) => [n] | _ => [] end.
Definition leaving (s : sys) : list Z := leaving_upper (fifo s) (upper s) ++ leaving_lower (lower s).

Definition zsum (l : list Z) : Z := foldr Z.add 0 l.
Arguments zsum : simpl never.
Lemma zsum_nil : zsum [] = 0. Proof. done. Qed.
Lemma zsum_cons x l : zsum (x :: l) = x + zsum l. Proof. done. Qed.
Definition sizes_of (l : list rlc_sdu) : list Z := map (fun x => zlen (sdu_buf x)) l.
(** The packed word of so many SDUs. *)
Definition packed (l : list Z) : Z := zlen l * 2 ^ 32 + zsum l.

Lemma zsum_app a b : zsum (a ++ b) = zsum a + zsum b.
Proof. induction a as [|x a IH]; [done|]. cbn [app]. rewrite !zsum_cons, IH. lia. Qed.
Lemma packed_app a b : packed (a ++ b) = packed a + packed b.
Proof. unfold packed. rewrite zlen_app, zsum_app. lia. Qed.
Lemma packed_one n : packed [n] = 2 ^ 32 + n. Proof. unfold packed. change (zlen [n]) with 1. change (zsum [n]) with (n + 0). lia. Qed.
Lemma packed_nil : packed [] = 0. Proof. done. Qed.
Lemma zsum_sizes l : zsum (sizes_of l) = total_bytes l.
Proof. induction l as [|x l IH]; [done|]. cbn [sizes_of map]. fold (sizes_of l). by rewrite zsum_cons, IH. Qed.
Lemma sizes_app a b : sizes_of (a ++ b) = sizes_of a ++ sizes_of b. Proof. apply map_app. Qed.
Lemma zlen_sizes l : zlen (sizes_of l) = zlen l. Proof. unfold zlen, sizes_of. by rewrite length_map. Qed.

(** ** The invariant *)

Definition caller_sdu (c : caller) : rlc_sdu := match c with by_read sdu | by_front sdu => sdu end.
(** Taken out of the FIFO, its slot not released yet. *)
Definition held (pc : option lower_pc) : list rlc_sdu :=
  match pc with Some (cr_load_size c _) | Some (cr_exchange c _ _) => [caller_sdu c] | _ => [] end.
Definition content (s : sys) : list rlc_sdu := held (lower s) ++ queue (fifo s).
Definition reserved (pc : option upper_pc) : option Z :=
  match pc with Some (wr_store_size _ p) | Some (wr_store_slot _ p) | Some (wr_free_slot _ p) => Some p | Some (wr_push sdu) => sdu_pdcp_sn sdu | _ => None end.

(** [used]: bytes that are counted or still on their way out of the count. *)
Definition upper_ok (q : rlc_sdu_queue) (used : Z) (pc : upper_pc) : Prop :=
  let fits sdu := sdu_ok sdu /\ used + zlen (sdu_buf sdu) < byte_limit q in
  match pc with
  | wr_get_state sdu | wr_state_add sdu => sdu_ok sdu
  | wr_load_slot sdu p | wr_store_size sdu p => fits sdu /\ sdu_pdcp_sn sdu = Some p
  | wr_store_slot sdu p => fits sdu /\ sdu_pdcp_sn sdu = Some p /\ slot_size q p = zlen (sdu_buf sdu)
  | wr_push sdu => fits sdu /\ forall p, sdu_pdcp_sn sdu = Some p -> slot_state q p = p /\ slot_size q p = zlen (sdu_buf sdu)
  | di_compare_exchange p => 0 <= p < STATE_DISCARDED
  | _ => True
  end.
Definition caller_ok (q : rlc_sdu_queue) (c : caller) (p : Z) : Prop :=
  sdu_pdcp_sn (caller_sdu c) = Some p /\ match c with by_read _ => True | by_front _ => slot_state q p = STATE_DISCARDED end.
Definition lower_ok (q : rlc_sdu_queue) (pc : lower_pc) : Prop :=
  match pc with
  | fr_check x p => hd_error (queue q) = Some x /\ sdu_pdcp_sn x = Some p
  | fr_pop p => exists x, hd_error (queue q) = Some x /\ sdu_pdcp_sn x = Some p /\ slot_state q p = STATE_DISCARDED
  | cr_load_size c p => caller_ok q c p
  | cr_exchange c p n => caller_ok q c p /\ n = u32 (zlen (sdu_buf (caller_sdu c)))
  | cr_state_sub c _ v => v = true /\ exists x, c = by_read x
  | _ => True
  end.

Record tinv (s : sys) (l : list rlc_sdu) : Prop := {
  ti_capacity : 0 < capacity (fifo s) < 2 ^ 31;
  ti_limit : 0 <= byte_limit (fifo s) < 2 ^ 32;
  ti_length : zlen (queue (fifo s)) <= capacity (fifo s);
  ti_core : core (capacity (fifo s)) (sdu_states (fifo s)) (sdu_sizes (fifo s)) (content s) (reserved (upper s));
  ti_wanted : wanted (capacity (fifo s)) (sdu_states (fifo s)) (content s) = l;
  ti_leaving : Forall (fun n => 0 <= n) (leaving s);
  ti_room : total_bytes l + zsum (leaving s) <= byte_limit (fifo s);
  ti_upper : from_option (upper_ok (fifo s) (total_bytes l + zsum (leaving s))) True (upper s);
  ti_lower : from_option (lower_ok (fifo s)) True (lower s);
  ti_state : state (fifo s) = (packed (sizes_of l) + packed (leaving s) - packed (arriving s)) mod 2 ^ 64
}.

Lemma state_add_word w n k q : state q = w mod 2 ^ 64 -> 0 <= n < 2 ^ 32 -> k = w + packed [n] -> state (state_add n q) = k mod 2 ^ 64.
Proof. intros E Hn ->. cbn -[Z.pow]. rewrite E, state_change_eq, packed_one, Zplus_mod_idemp_l by done. done. Qed.
Lemma state_sub_word w n k q : state q = w mod 2 ^ 64 -> 0 <= n < 2 ^ 32 -> k = w - packed [n] -> state (state_sub n q) = k mod 2 ^ 64.
Proof. intros E Hn ->. cbn -[Z.pow]. rewrite E, state_change_eq, packed_one, Zminus_mod_idemp_l by done. done. Qed.

(** The lower thread does not notice a step of the upper one that keeps the SDUs in front and the slots of discarded SDUs. *)
Lemma lower_ok_kept q q' pc : (forall x, hd_error (queue q) = Some x -> hd_error (queue q') = Some x) ->
  (forall x p, x ∈ held (Some pc) ++ queue q -> sdu_pdcp_sn x = Some p -> slot_state q p = STATE_DISCARDED -> slot_state q' p = STATE_DISCARDED) ->
  lower_ok q pc -> lower_ok q' pc.
Proof.
  intros Hq Hs. destruct pc as [| | |x p|p|c p|c p n|c n v]; unfold lower_ok, caller_ok; try done.
  - intros [? ?]. auto.
  - intros (x & Hx & ? & ?). exists x. split; [auto|]. split; [done|]. apply (Hs x); [|done..]. destruct (queue q); [done|]. injection Hx as ->. by left.
  - intros [? H]. split; [done|]. destruct c as [x|x]; [done|]. apply (Hs x); [by left|done..].
  - intros [[? H] ?]. split; [|done]. split; [done|]. destruct c as [x|x]; [done|]. apply (Hs x); [by left|done..].
Qed.

(** Writing to the reserved slot. *)
Lemma reserved_slot_kept s l r v : tinv s l -> reserved (upper s) = Some r ->
  from_option (lower_ok (set_slot_state r v (fifo s))) True (lower s).
Proof.
  intros H Hr. pose proof (ti_lower s l H) as Hl. pose proof (ti_core s l H) as Hc. unfold content in Hc. destruct (lower s) as [pc|]; [|done]. cbn in *.
  eapply lower_ok_kept; [| |exact Hl]; [done|]. intros x p Hx E Hd. unfold slot_state, slot in *. cbn. unfold slot.
  rewrite lookup_insert_ne; [done|]. intros Heq. apply (cr_reserved _ _ _ _ _ Hc r Hr). rewrite Heq. by apply (in_slots _ _ x p).
Qed.

(** Nor the upper one a step of the lower one. *)
Lemma upper_ok_kept q q' used used' pc : used' <= used -> byte_limit q' = byte_limit q -> capacity q' = capacity q -> sdu_sizes q' = sdu_sizes q ->
  (forall p, reserved (Some pc) = Some p -> slot_state q' p = slot_state q p) -> upper_ok q used pc -> upper_ok q' used' pc.
Proof.
  intros Hu Hb Hc Hz Hs. unfold upper_ok, slot_size, slot. rewrite Hb, Hc, Hz. destruct pc as [x|x p|x p|x p|x|x p|x|p|p b|p n]; try done; cbn.
  1-3: intuition lia.
  intros [[? ?] Hx]. split; [split; [done|lia]|]. intros p E. rewrite (Hs p E). auto.
Qed.

Lemma fifo_one l o out l' : fifo_step l o out l' -> fifo_run l [o] [out] l'.
Proof. intros H. econstructor; [exact H|constructor]. Qed.

(** A step of thread [t] against the abstract queue: nothing happens there, or the operation takes effect. *)
Definition simulated (t : thread) (s s' : sys) (es : list event) (l : list rlc_sdu) : Prop :=
  exists l' eff, tinv s' l' /\ fifo_run l (map fst eff) (map snd eff) l' /\
    moves t (status_of t s) (map (fun '(o, out) => effect o out) eff ++ map seen es) (status_of t s') /\
    Forall (fun '(o, _) => thread_of o = t) eff.

Lemma simulated_silent t s s' l : tinv s' l -> status_of t s' = status_of t s -> simulated t s s' [] l.
Proof. intros H E. exists l, []. cbn. rewrite E. split; [done|]. split; [constructor|]. split; constructor. Qed.
Lemma simulated_answer t s s' o out l : tinv s' l -> status_of t s = served o out -> status_of t s' = idle -> simulated t s s' [answered o out] l.
Proof. intros H E E'. exists l, []. cbn. rewrite E, E'. split; [done|]. split; [constructor|]. split; [do 2 constructor|constructor]. Qed.
Lemma simulated_effect t s s' o out l l' : tinv s' l' -> fifo_step l o out l' -> status_of t s = waiting o -> status_of t s' = served o out -> thread_of o = t -> simulated t s s' [] l.
Proof.
  intros H Hf E E' Ht. exists l', [(o, out)]. cbn. rewrite E, E'. split; [done|]. split; [by apply fifo_one|]. split; [do 2 constructor|by constructor].
Qed.
Lemma simulated_whole t s s' o out l l' : tinv s' l' -> fifo_step l o out l' -> status_of t s = waiting o -> status_of t s' = idle -> thread_of o = t -> simulated t s s' [answered o out] l.
Proof.
  intros H Hf E E' Ht. exists l', [(o, out)]. cbn. rewrite E, E'. split; [done|]. split; [by apply fifo_one|]. split; [do 3 constructor|by constructor].
Qed.

Lemma content_length s l : tinv s l -> zlen l <= capacity (fifo s) + zlen (held (lower s)) /\ zlen (held (lower s)) + zlen (leaving_lower (lower s)) <= 1.
Proof.
  intros H. pose proof (ti_length s l H). split.
  - rewrite <- (ti_wanted s l H). unfold wanted. transitivity (zlen (content s)); [unfold zlen; pose proof (filter_length_le (valid_in (sdu_states (fifo s)) (capacity (fifo s))) (content s)); lia|].
    unfold content. rewrite zlen_app. lia.
  - destruct (lower s) as [[| | |x p|p|c p|c p n|c n v]|]; unfold zlen; cbn; lia.
Qed.

Lemma zsum_nonneg k : Forall (fun n => 0 <= n) k -> 0 <= zsum k.
Proof. induction 1; rewrite ?zsum_cons; [done|lia]. Qed.
Lemma leaving_lower_nonneg s l : tinv s l -> 0 <= zsum (leaving_upper (fifo s) (upper s)) /\ 0 <= zsum (leaving_lower (lower s)).
Proof. intros H. pose proof (ti_leaving s l H) as Hl. apply Forall_app in Hl as [H1 H2]. split; by apply zsum_nonneg. Qed.

(** With nothing on its way into the count, the word is the two numbers. *)
Lemma get_state_word s l : tinv s l -> arriving s = [] ->
  get_state (fifo s) = mk_state_t (zlen l + zlen (leaving s)) (total_bytes l + zsum (leaving s)) /\
  0 <= zlen l + zlen (leaving s) < 2 ^ 32 /\ 0 <= total_bytes l + zsum (leaving s) < 2 ^ 32.
Proof.
  intros H Ha. pose proof (content_length s l H) as [H1 H2]. pose proof (ti_capacity s l H). pose proof (ti_limit s l H). pose proof (ti_room s l H).
  pose proof (zsum_nonneg _ (ti_leaving s l H)). pose proof (total_bytes_nonneg l). pose proof (zlen_nonneg l). pose proof (zlen_nonneg (leaving s)). pose proof (zlen_nonneg (held (lower s))).
  assert (zlen (leaving s) <= zlen (leaving_lower (lower s)) + 1) as Hlen.
  { unfold leaving. rewrite zlen_app. destruct (upper s) as [[| | | | | | | |p []|]|]; unfold zlen; cbn; lia. }
  pose proof (ti_state s l H) as E. rewrite Ha, packed_nil in E. unfold packed in E. rewrite zlen_sizes, zsum_sizes in E.
  split; [|lia]. unfold get_state. rewrite E. change 0xffffffff with (2 ^ 32 - 1). rewrite land_mask, Z.shiftr_div_pow2 by lia. f_equal; zmod.
Qed.

Lemma upper_sim_write_front s l sdu q next : tinv s l ->
  upper s = Some (wr_get_state sdu) -> upper_step (wr_get_state sdu) (fifo s) = (q, next) ->
  let '(pc', es) := after (op_write sdu) next in simulated upper_thread s (mk_sys q pc' (lower s)) es l.
Proof.
  intros H Hu E. assert (arriving s = []) as Ha by (unfold arriving; by rewrite Hu). destruct (get_state_word s l H Ha) as (Hg & _ & _).
  pose proof H as [Ic Il In Ik Iw Ig Ir Iu Ix Is]. cbn [upper_step] in E. rewrite Hg in E. cbn [n_bytes] in E.
  unfold leaving, arriving, content in *. rewrite Hu in *. cbn [from_option upper_ok leaving_upper app] in *.
  destruct (Z.leb_spec (byte_limit (fifo s)) (zlen (sdu_buf sdu) + (total_bytes l + zsum (leaving_lower (lower s))))); injection E as <- <-; cbn [after].
  - apply simulated_whole with l; [by constructor|constructor|by cbn; rewrite Hu|done|done].
  - apply simulated_silent; [|cbn; rewrite Hu; by destruct (sdu_pdcp_sn sdu)]. destruct (sdu_pdcp_sn sdu) as [p|] eqn:Es; constructor; cbn; rewrite ?Es; try done; cbn; split_and!; try done; try lia.
Qed.

Lemma fifo_discarded l1 x l2 p : carries p x = true -> Forall (fun y => carries p y = false) (l1 ++ l2) ->
  fifo_step (l1 ++ x :: l2) (op_discard p) (accepted true) (l1 ++ l2).
Proof.
  intros Hx Hn. apply Forall_app in Hn as [[F1 E1]%not_carried [F2 E2]%not_carried]. pose proof (fifo_discard (l1 ++ x :: l2) p) as H.
  rewrite existsb_app, List.filter_app in H. cbn in H. by rewrite E1, Hx, F1, F2 in H.
Qed.
Lemma fifo_not_discarded l p : Forall (fun y => carries p y = false) l -> fifo_step l (op_discard p) (accepted false) l.
Proof. intros [F E]%not_carried. pose proof (fifo_discard l p) as H. by rewrite F, E in H. Qed.

Lemma upper_sim_compare_exchange s l p q next : tinv s l -> upper s = Some (di_compare_exchange p) ->
  upper_step (di_compare_exchange p) (fifo s) = (q, next) ->
  let '(pc', es) := after (op_discard p) next in simulated upper_thread s (mk_sys q pc' (lower s)) es l.
Proof.
  intros H Hu E. pose proof H as [Ic Il In Ik Iw Ig Ir Iu Ix Is]. unfold leaving, arriving, content in *. rewrite Hu in *.
  cbn [upper_step from_option upper_ok leaving_upper app reserved packed_nil] in *.
  destruct (Z.eqb_spec (slot_state (fifo s) p) p) as [Hs|Hs]; injection E as <- <-; cbn [after].
  - destruct (core_discard _ _ _ _ _ Ik Iu Hs) as (Ck & l1 & x & l2 & W1 & W2 & Hx & Hn & Hz). rewrite W1 in Iw. subst l.
    apply simulated_effect with (op_discard p) (accepted true) (l1 ++ l2); [|by apply fifo_discarded|by cbn; rewrite Hu|done|done].
    rewrite total_bytes_app in Ir. cbn [total_bytes foldr] in Ir. fold (total_bytes l2) in Ir. change (size_at (capacity (fifo s)) (sdu_sizes (fifo s)) p) with (slot_size (fifo s) p) in Hz.
    pose proof (zlen_nonneg (sdu_buf x)).
    constructor; try done; unfold content, leaving, arriving; cbn [fifo upper lower leaving_upper app];
      change (slot_size (set_slot_state p STATE_DISCARDED (fifo s)) p) with (slot_size (fifo s) p); rewrite ?Hz, ?total_bytes_app, ?zsum_cons.
    + by constructor.
    + cbn. lia.
    + destruct (lower s) as [pc|]; [|done]. cbn in *. eapply lower_ok_kept; [| |exact Ix]; [done|]. intros y r _ _ Hd. unfold slot_state, slot in *. cbn. unfold slot.
      destruct (decide (p mod capacity (fifo s) = r mod capacity (fifo s))) as [->|Hne]; [by rewrite lookup_insert_eq|by rewrite lookup_insert_ne].
    + cbn [state set_slot_state]. rewrite Is, !sizes_app. f_equal. change (zlen (sdu_buf x) :: leaving_lower (lower s)) with ([zlen (sdu_buf x)] ++ leaving_lower (lower s)).
      change (sizes_of (x :: l2)) with ([zlen (sdu_buf x)] ++ sizes_of l2). rewrite !packed_app. lia.
  - apply simulated_effect with (op_discard p) (accepted false) l; [by constructor|apply fifo_not_discarded|by cbn; rewrite Hu|done|done].
    rewrite <- Iw. by apply core_not_wanted.
Qed.

Lemma upper_sim s l pc q next : tinv s l -> upper s = Some pc -> upper_step pc (fifo s) = (q, next) ->
  let '(pc', es) := after (upper_op pc) next in simulated upper_thread s (mk_sys q pc' (lower s)) es l.
Proof.
  intros H Hu E. destruct pc as [x|x p|x p|x p|x|x p|x|p|p b|p n]; [by apply upper_sim_write_front|..|by apply upper_sim_compare_exchange| |];
    pose proof H as [Ic Il In Ik Iw Ig Ir Iu Ix Is]; unfold leaving, arriving, content in *; rewrite Hu in *;
    cbn [upper_step from_option upper_ok leaving_upper app reserved packed_nil] in *.
  - destruct Iu as [Hfit Es]. destruct (Z.eqb_spec (slot_state (fifo s) p) STATE_FREE) as [Hf|Hf]; injection E as <- <-; cbn [after negb].
    + apply simulated_silent; [|by cbn; rewrite Hu]. constructor; try done. cbn. apply core_reserve; [done|]. by apply core_free_slot with (sdu_states (fifo s)) (sdu_sizes (fifo s)).
    + apply simulated_whole with l; [by constructor|constructor|by cbn; rewrite Hu|done|done].
  - injection E as <- <-. apply simulated_silent; [|by cbn; rewrite Hu]. constructor; try done.
    + by apply core_store_size.
    + destruct Iu as [Hfit Es]. cbn. split; [done|]. split; [done|]. unfold slot_size, slot. cbn. by rewrite lookup_insert_eq.
  - injection E as <- <-. apply simulated_silent; [|by cbn; rewrite Hu]. destruct Iu as (Hfit & Es & Hz). constructor; try done.
    + cbn. rewrite Es. by apply core_store_state.
    + cbn. etrans; [|exact Iw]. apply wanted_store. by apply (cr_reserved _ _ _ _ _ Ik).
    + cbn. split; [done|]. intros p'. rewrite Es. intros [= <-]. split; [|done]. unfold slot_state, slot. cbn. by rewrite lookup_insert_eq.
    + apply (reserved_slot_kept s l p p H). by rewrite Hu.
  - destruct Iu as [[Hok Hfit] Hsn]. unfold try_push in E. rewrite Z.max_r in E by lia. destruct (Z.ltb_spec (zlen (queue (fifo s))) (capacity (fifo s))) as [Hr|Hr]; cbn [negb] in E.
    + injection E as <- <-. cbn [after]. destruct (core_push _ _ _ _ _ Ik) as [Ck Cw].
      { intros p Es. destruct (Hsn p Es) as [? ?]. split; [by apply Hok|done]. }
      apply simulated_effect with (op_write x) (accepted true) (l ++ [x]); [|constructor|by cbn; rewrite Hu|done|done].
      constructor; unfold content, leaving, arriving; cbn [fifo upper lower leaving_upper app reserved from_option upper_ok set_queue queue capacity sdu_states sdu_sizes byte_limit state]; try done.
      * rewrite zlen_app. change (zlen [x]) with 1. lia.
      * by rewrite app_assoc.
      * by rewrite app_assoc, Cw, Iw.
      * rewrite total_bytes_app. cbn. lia.
      * pose proof (ti_lower s l H) as Hl. destruct (lower s) as [pc|]; [|done]. cbn in *. eapply lower_ok_kept; [| |exact Hl]; [|done]. cbn. by destruct (queue (fifo s)).
      * rewrite Is, sizes_app, !packed_app. f_equal. change (sizes_of [x]) with [zlen (sdu_buf x)]. rewrite packed_nil. lia.
    + destruct (sdu_pdcp_sn x) as [p|] eqn:Es; injection E as <- <-; cbn [after].
      * apply simulated_silent; [|by cbn; rewrite Hu]. constructor; try done; cbn; by rewrite ?Es.
      * apply simulated_whole with l; [by constructor|constructor|by cbn; rewrite Hu|done|done].
  - injection E as <- <-. cbn [after]. apply simulated_whole with l; [|constructor|by cbn; rewrite Hu|done|done]. constructor; try done; cbn.
    + apply core_unreserve with p; [by apply core_store_state|]. unfold at_slot, slot. by rewrite lookup_insert_eq.
    + etrans; [|exact Iw]. apply wanted_store. by apply (cr_reserved _ _ _ _ _ Ik).
    + apply (reserved_slot_kept s l p STATE_FREE H). by rewrite Hu.
  - injection E as <- <-. cbn [after]. apply simulated_answer; [|by cbn; rewrite Hu|done]. constructor; try done.
    unfold arriving, leaving; cbn [fifo upper lower leaving_upper app]. pose proof (zlen_nonneg (sdu_buf x)). rewrite packed_nil.
    eapply state_add_word; [exact Is|destruct Iu; lia|]. lia.
  - destruct b; cbn [leaving_upper app] in *; injection E as <- <-; cbn [after negb].
    + apply simulated_silent; [|by cbn; rewrite Hu]. rewrite u32_small; [by constructor|].
      apply Forall_cons in Ig as [Hn Ig]. rewrite zsum_cons in Ir. pose proof (zsum_nonneg _ Ig). pose proof (total_bytes_nonneg l). lia.
    + apply simulated_answer; [by constructor|by cbn; rewrite Hu|done].
  - injection E as <- <-. cbn [after]. apply simulated_answer; [|by cbn; rewrite Hu|done].
    apply Forall_cons in Ig as [Hn Ig]. rewrite zsum_cons in Ir. pose proof (zsum_nonneg _ Ig). pose proof (total_bytes_nonneg l).
    constructor; try done; unfold arriving, leaving; cbn [fifo upper lower leaving_upper app].
    + cbn. lia.
    + eapply state_sub_word; [exact Is|lia|]. unfold arriving. cbn [upper]. change (n :: leaving_lower (lower s)) with ([n] ++ leaving_lower (lower s)). rewrite packed_app. lia.
Qed.

Lemma upper_kept s l q' used' : tinv s l -> used' <= total_bytes l + zsum (leaving s) ->
  byte_limit q' = byte_limit (fifo s) -> capacity q' = capacity (fifo s) -> sdu_sizes q' = sdu_sizes (fifo s) ->
  (forall p, reserved (upper s) = Some p -> slot_state q' p = slot_state (fifo s) p) ->
  from_option (upper_ok q' used') True (upper s) /\ leaving_upper q' (upper s) = leaving_upper (fifo s) (upper s).
Proof.
  intros H Hu Hb Hc Hz Hs. pose proof (ti_upper s l H) as Hok. destruct (upper s) as [pc|]; [|done]. split.
  - cbn in *. by apply (upper_ok_kept (fifo s) q' (total_bytes l + zsum (leaving s))).
  - destruct pc as [| | | | | | | |p []|]; try done. cbn. unfold slot_size, slot. by rewrite Hc, Hz.
Qed.

(** A step of the lower thread that leaves the shared memory as it is, or takes an SDU out of the FIFO to hold it. *)
Lemma lower_silent s l pc q pc' : tinv s l -> lower s = Some pc -> q = fifo s \/ q = set_queue (queue q) (fifo s) ->
  held (Some pc') ++ queue q = content s -> zlen (queue q) <= zlen (queue (fifo s)) -> leaving_lower (Some pc) = leaving_lower (Some pc') -> lower_ok q pc' -> lower_status pc' = lower_status pc ->
  simulated lower_thread s (mk_sys q (upper s) (Some pc')) [] l.
Proof.
  intros H Hl Hq Hc Hz Hlv Hok Hst. apply simulated_silent; [|cbn; by rewrite Hl].
  assert (capacity q = capacity (fifo s) /\ byte_limit q = byte_limit (fifo s) /\ state q = state (fifo s) /\ sdu_states q = sdu_states (fifo s) /\ sdu_sizes q = sdu_sizes (fifo s)) as (E1 & E2 & E3 & E4 & E5)
    by (by destruct Hq as [->| ->]).
  destruct (upper_kept s l q (total_bytes l + zsum (leaving s)) H) as [Hu Hv]; [lia|done..|intros p _; unfold slot_state, slot; by rewrite E1, E4|].
  pose proof H as [Ic Il In Ik Iw Ig Ir Iu Ix Is]. unfold leaving, arriving in *. rewrite Hl, Hlv in *.
  constructor; unfold content, leaving, arriving; cbn [fifo upper lower]; rewrite ?E1, ?E2, ?E3, ?E4, ?E5, ?Hv, ?Hc; done || lia.
Qed.

Lemma nothing_wanted s l : tinv s l -> content s = [] -> l = [].
Proof. intros H E. by rewrite <- (ti_wanted s l H), E. Qed.

Lemma lower_whole s l pc out : tinv s l -> lower s = Some pc -> lower_status pc = waiting (lower_op pc) -> fifo_step l (lower_op pc) out l ->
  leaving_lower (Some pc) = [] -> held (Some pc) = [] -> thread_of (lower_op pc) = lower_thread ->
  simulated lower_thread s (mk_sys (fifo s) (upper s) None) [answered (lower_op pc) out] l.
Proof.
  intros H Hl Hst Hf Hlv Hh Ht. apply simulated_whole with l; [|done|cbn; by rewrite Hl|done|done].
  pose proof H as [Ic Il In Ik Iw Ig Ir Iu Ix Is]. unfold leaving, arriving, content in *. rewrite Hl, ?Hlv, ?Hh in *. by constructor.
Qed.

Lemma lower_sim_read s l q next : tinv s l -> lower s = Some rd_pop -> lower_step rd_pop (fifo s) = (q, next) ->
  let '(pc', es) := after op_read next in simulated lower_thread s (mk_sys q (upper s) pc') es l.
Proof.
  intros H Hl E. pose proof H as [Ic Il In Ik Iw Ig Ir Iu Ix Is]. cbn [lower_step] in E. unfold try_pop in E. destruct (queue (fifo s)) as [|x rest] eqn:Eq.
  - injection E as <- <-. apply (lower_whole s l rd_pop); try done. rewrite (nothing_wanted s l H) by (unfold content; by rewrite Hl, Eq). apply (fifo_read []).
  - destruct (sdu_pdcp_sn x) as [p|] eqn:Es; injection E as <- <-; cbn [after].
    + apply (lower_silent s l rd_pop); try done; [by right| |rewrite Eq; cbn; rewrite zlen_cons; lia]. unfold content. by rewrite Hl, Eq.
    + unfold content, leaving, arriving in *. rewrite Hl, Eq in *. cbn [held app leaving_lower] in *. rewrite wanted_head, valid_without_sn in Iw by done. cbn [app] in Iw.
      pose proof (core_pop _ _ _ _ _ _ Ik Es) as Ck. set (l' := wanted _ _ rest) in *. subst l. cbn [total_bytes foldr] in Ir. fold (total_bytes l') in Ir.
      rewrite app_nil_r in Ir, Ig, Is. pose proof (zlen_nonneg (sdu_buf x)). rewrite zlen_cons in In.
      destruct (upper_kept s (x :: l') (set_queue rest (fifo s)) (total_bytes l' + zsum (leaving_upper (fifo s) (upper s) ++ [zlen (sdu_buf x)])) H) as [Hu Hv]; try done.
      { unfold leaving. rewrite Hl, !zsum_app. cbn [leaving_lower total_bytes foldr]. fold (total_bytes l'). rewrite zsum_cons, !zsum_nil. lia. }
      apply simulated_effect with op_read (obtained (Some x)) l'; [|apply (fifo_read (x :: l'))|by cbn; rewrite Hl|done|done].
      constructor; unfold content, leaving, arriving; cbn [fifo upper lower leaving_lower]; rewrite ?Hv; try done.
      * cbn. lia.
      * apply Forall_app. split; [done|by constructor].
      * rewrite zsum_app, zsum_cons, zsum_nil. cbn. lia.
      * cbn [state set_queue]. rewrite Is. f_equal. change (sizes_of (x :: l')) with ([zlen (sdu_buf x)] ++ sizes_of l'). rewrite !packed_app. lia.
Qed.

(** The count after an SDU was subtracted by the lower thread. *)
Lemma lower_subtracts s l n pc out : tinv s l -> lower s = Some pc -> held (Some pc) = [] -> leaving_lower (Some pc) = [n] -> lower_status pc = served op_read out ->
  simulated lower_thread s (mk_sys (state_sub n (fifo s)) (upper s) None) [answered op_read out] l.
Proof.
  intros H Hl Hh Hlv Hst. apply simulated_answer; [|cbn; by rewrite Hl|done].
  pose proof H as [Ic Il In Ik Iw Ig Ir Iu Ix Is]. unfold content, leaving, arriving in *. rewrite Hl, Hh, Hlv in *. cbn [app] in *.
  rewrite zsum_app, zsum_cons, zsum_nil in Ir. apply Forall_app in Ig as [Ig1 Ig2]. apply Forall_cons in Ig2 as [Hn _].
  pose proof (zsum_nonneg _ Ig1). pose proof (total_bytes_nonneg l).
  destruct (upper_kept s l (state_sub n (fifo s)) (total_bytes l + zsum (leaving_upper (fifo s) (upper s) ++ [])) H) as [Hu Hv]; try done.
  { unfold leaving. rewrite Hl, Hlv, !zsum_app, zsum_cons, zsum_nil. lia. }
  constructor; unfold content, leaving, arriving; cbn [fifo upper lower leaving_lower]; rewrite ?Hv; try done; rewrite app_nil_r in *; try done.
  - cbn. lia.
  - eapply state_sub_word; [exact Is|lia|]. rewrite packed_app. cbn [upper]. lia.
Qed.

(** What [check_and_release] finds in the slot of the SDU taken out. *)
Lemma lower_sim_exchange s l c p n q next : tinv s l -> lower s = Some (cr_exchange c p n) -> lower_step (cr_exchange c p n) (fifo s) = (q, next) ->
  let '(pc', es) := after (caller_op c) next in simulated lower_thread s (mk_sys q (upper s) pc') es l.
Proof.
  intros H Hl E. pose proof H as [Ic Il In Ik Iw Ig Ir Iu Ix Is]. unfold content, leaving, arriving in *. rewrite Hl in *. cbn [held app leaving_lower from_option lower_ok] in *.
  destruct Ix as [[Es Hc] ->]. destruct (core_head _ _ _ _ _ _ _ Ik Es) as (Hp & Hs & Hz). destruct (core_exchange _ _ _ _ _ _ _ Ik Es) as [Ck Cw].
  rewrite wanted_head, (valid_with_sn _ _ _ _ Es) in Iw. change (at_slot (capacity (fifo s)) (sdu_states (fifo s)) p) with (slot_state (fifo s) p) in *.
  set (l' := wanted (capacity (fifo s)) (sdu_states (fifo s)) (queue (fifo s))) in *. set (x := caller_sdu c) in *.
  assert (forall u, u <= total_bytes l + zsum (leaving s) -> from_option (upper_ok (set_slot_state p STATE_FREE (fifo s)) u) True (upper s) /\
    leaving_upper (set_slot_state p STATE_FREE (fifo s)) (upper s) = leaving_upper (fifo s) (upper s)) as Hk.
  { intros u Hle. apply (upper_kept s l); try done. intros r Hr. unfold slot_state, slot. cbn. unfold slot. rewrite lookup_insert_ne; [done|]. intros Heq.
    apply (cr_reserved _ _ _ _ _ Ik r Hr). rewrite <- Heq. apply (in_slots _ _ x p); [by left|done]. }
  unfold leaving in Hk. rewrite Hl in Hk. cbn [leaving_lower] in Hk. rewrite app_nil_r in Hk, Ig, Ir, Is.
  cbn [lower_step] in E. destruct (Z.eqb_spec (slot_state (fifo s) p) p) as [Hv|Hv].
  - injection E as <- <-. cbn [after app] in *. subst l. cbn [total_bytes foldr] in Ir, Hk. fold (total_bytes l') in Ir, Hk.
    pose proof (zlen_nonneg (sdu_buf x)). pose proof (total_bytes_nonneg l'). pose proof (zsum_nonneg _ Ig). rewrite u32_small by lia.
    destruct c as [y|y]; [|rewrite Hc in Hv; unfold STATE_DISCARDED in *; lia]. cbn in x. subst x.
    destruct (Hk (total_bytes l' + zsum (leaving_upper (fifo s) (upper s) ++ [zlen (sdu_buf y)]))) as [Hu Hv']; [rewrite zsum_app, zsum_cons, zsum_nil; lia|].
    apply simulated_effect with op_read (obtained (Some y)) l'; [|apply (fifo_read (y :: l'))|by cbn; rewrite Hl|done|done].
    constructor; unfold content, leaving, arriving; cbn [fifo upper lower leaving_lower]; rewrite ?Hv'; try done.
    + apply Forall_app. split; [done|by constructor].
    + rewrite zsum_app, zsum_cons, zsum_nil. cbn. lia.
    + cbn. split; [done|by exists y].
    + cbn [state set_slot_state]. rewrite Is. f_equal. change (sizes_of (y :: l')) with ([zlen (sdu_buf y)] ++ sizes_of l'). rewrite !packed_app. cbn [upper]. lia.
  - destruct Hs as [Hs|Hs]; [done|]. rewrite Hs, Z.eqb_refl in E. cbn [app] in Iw.
    destruct (Hk (total_bytes l + zsum (leaving_upper (fifo s) (upper s)))) as [Hu Hv']; [lia|].
    assert (forall pc', lower_status pc' = waiting (caller_op c) -> held (Some pc') = [] -> leaving_lower (Some pc') = [] -> lower_ok (set_slot_state p STATE_FREE (fifo s)) pc' ->
      simulated lower_thread s (mk_sys (set_slot_state p STATE_FREE (fifo s)) (upper s) (Some pc')) [] l) as Hgo.
    { intros pc' Hst Hh Hlv Hok. apply simulated_silent; [|cbn; rewrite Hl, Hst; by destruct c]. constructor; unfold content, leaving, arriving; cbn [fifo upper lower]; rewrite ?Hv', ?Hh, ?Hlv, ?app_nil_r; try done.
      cbn. by rewrite <- Iw. }
    destruct c as [y|y]; cbn [released] in E; injection E as <- <-; by apply Hgo.
Qed.

Lemma lower_sim s l pc q next : tinv s l -> lower s = Some pc -> lower_step pc (fifo s) = (q, next) ->
  let '(pc', es) := after (lower_op pc) next in simulated lower_thread s (mk_sys q (upper s) pc') es l.
Proof.
  intros H Hl E. destruct pc as [|x| |x p|p|c p|c p n|c n v]; [by apply lower_sim_read|..|by apply (lower_sim_exchange s l c p n)|];
    pose proof (ti_lower s l H) as Hok; rewrite Hl in Hok; cbn [lower_step from_option lower_ok] in *.
  - injection E as <- <-. cbn [after]. by apply (lower_subtracts s l _ (rd_state_sub x)).
  - destruct (queue (fifo s)) as [|x rest] eqn:Eq.
    + injection E as <- <-. apply (lower_whole s l fr_front); try done. rewrite (nothing_wanted s l H) by (unfold content; by rewrite Hl, Eq). apply (fifo_front []).
    + destruct (sdu_pdcp_sn x) as [p|] eqn:Es; injection E as <- <-; cbn [after].
      * apply (lower_silent s l fr_front); try done; [by left|unfold content; by rewrite Hl|cbn; by rewrite Eq].
      * apply (lower_whole s l fr_front); try done. rewrite <- (ti_wanted s l H). unfold content. rewrite Hl, Eq. cbn [held app]. rewrite wanted_head, valid_without_sn by done. apply (fifo_front (x :: _)).
  - destruct Hok as [Hh Es]. destruct (queue (fifo s)) as [|y rest] eqn:Eq; [done|]. injection Hh as ->.
    pose proof (ti_core s l H) as Hc. unfold content in Hc. rewrite Hl, Eq in Hc. cbn [held app] in Hc. destruct (core_head _ _ _ _ _ _ _ Hc Es) as (_ & Hs & _).
    unfold check in E. destruct (Z.eqb_spec (slot_state (fifo s) p) p) as [Hv|Hv]; injection E as <- <-; cbn [after].
    + apply (lower_whole s l (fr_check x p)); try done. rewrite <- (ti_wanted s l H). unfold content. rewrite Hl, Eq. cbn [held app].
      rewrite wanted_head, (valid_with_sn _ _ _ _ Es). change (at_slot (capacity (fifo s)) (sdu_states (fifo s)) p) with (slot_state (fifo s) p). rewrite Hv, Z.eqb_refl. apply (fifo_front (x :: _)).
    + apply (lower_silent s l (fr_check x p)); try done; [by left|unfold content; by rewrite Hl|]. exists x. rewrite Eq. split; [done|]. split; [done|]. by destruct Hs.
  - destruct Hok as (x & Hh & Es & Hd). unfold try_pop in E. destruct (queue (fifo s)) as [|y rest] eqn:Eq; [done|]. injection Hh as ->.
    rewrite bool_decide_eq_true_2 in E by done. injection E as <- <-. cbn [after negb].
    apply (lower_silent s l (fr_pop p)); try done; [by right|unfold content; by rewrite Hl, Eq|rewrite Eq; cbn; rewrite zlen_cons; lia].
  - destruct Hok as [Es Hc]. pose proof (ti_core s l H) as Hk. unfold content in Hk. rewrite Hl in Hk. cbn [held app] in Hk. destruct (core_head _ _ _ _ _ _ _ Hk Es) as (_ & _ & Hz).
    injection E as <- <-. cbn [after]. apply (lower_silent s l (cr_load_size c p)); try done; [by left|unfold content; by rewrite Hl|].
    split; [done|]. f_equal. exact Hz.
  - destruct Hok as [-> [x ->]]. injection E as <- <-. cbn [after released caller_op]. by apply (lower_subtracts s l _ (cr_state_sub (by_read x) n true)).
Qed.

(** ** Runs of the two threads *)

Definition action_ok (a : action) : Prop := match a with calls o => operation_ok o | _ => True end.

(** The abstract queue goes from [l] to [l'] by what takes effect in [ms]. *)
Definition serves (l : list rlc_sdu) (ms : list mark) (l' : list rlc_sdu) : Prop := fifo_run l (map fst (effects ms)) (map snd (effects ms)) l'.

Lemma fifo_run_app l os outs l1 os' outs' l2 : fifo_run l os outs l1 -> fifo_run l1 os' outs' l2 -> fifo_run l (os ++ os') (outs ++ outs') l2.
Proof. induction 1; intros H2; [done|]. econstructor; eauto. Qed.
Lemma serves_app l ms l1 ms' l2 : serves l ms l1 -> serves l1 ms' l2 -> serves l (ms ++ ms') l2.
Proof. unfold serves, effects. intros H1 H2. rewrite omap_app, !map_app. by apply fifo_run_app with l1. Qed.
Lemma erase_app a b : erase (a ++ b) = erase a ++ erase b. Proof. apply omap_app. Qed.

Lemma effects_of eff es : effects (map (fun '(o, out) => effect o out) eff ++ map seen es) = eff.
Proof.
  unfold effects. rewrite omap_app. assert (forall k : list event, omap (fun m => match m with effect o out => Some (o, out) | _ => None end) (map seen k) = []) as -> by (induction k; done).
  rewrite app_nil_r. induction eff as [|[o out] eff IH]; cbn; [done|]. by f_equal.
Qed.
Lemma erase_of (eff : list (operation * outcome)) es : erase (map (fun '(o, out) => effect o out) eff ++ map seen es) = es.
Proof. induction eff as [|[o out] eff IH]; cbn; [|done]. induction es; cbn; [done|by f_equal]. Qed.

Lemma simulated_step t s s' es l : simulated t s s' es l -> Forall (fun e => mark_thread (seen e) = t) es ->
  (forall t', t' <> t -> status_of t' s' = status_of t' s) ->
  exists l' ms, tinv s' l' /\ erase ms = es /\ serves l ms l' /\ forall t, moves t (status_of t s) ms (status_of t s').
Proof.
  intros (l' & eff & H & Hf & Hm & He) Hes Ho. exists l', (map (fun '(o, out) => effect o out) eff ++ map seen es).
  split; [done|]. split; [apply erase_of|]. split; [unfold serves; by rewrite effects_of|].
  intros t'. assert (t' = t \/ t' <> t) as [->|Hne] by (destruct t, t'; auto); [done|]. rewrite (Ho t' Hne). apply moves_other. apply Forall_app. split.
  - apply Forall_forall. intros m ([o out] & <- & Hin)%list_elem_of_In%in_map_iff. rewrite Forall_forall in He. apply list_elem_of_In, He in Hin. cbn. congruence.
  - apply Forall_forall. intros m (e & <- & Hin)%list_elem_of_In%in_map_iff. rewrite Forall_forall in Hes. apply list_elem_of_In, Hes in Hin. congruence.
Qed.

Lemma call_step s l o s' es : tinv s l -> operation_ok o -> step (calls o) s = Some (s', es) ->
  tinv s' l /\ es = [called o] /\ forall t, moves t (status_of t s) (map seen es) (status_of t s').
Proof.
  intros H Ho E. cbn [step] in E. pose proof H as [Ic Il In Ik Iw Ig Ir Iu Ix Is]. unfold content, leaving, arriving in *. destruct o as [x|p| |]; cbn [entry] in E.
  1-2: destruct (upper s) eqn:Eu; [done|]; injection E as <- <-.
  3-4: destruct (lower s) eqn:Eu; [done|]; injection E as <- <-.
  all: split; [by constructor; try done; try (unfold content, leaving, arriving; cbn; rewrite ?Eu)|]; split; [done|];
    intros []; cbn; rewrite ?Eu; try (apply mv_other; [done|constructor]); apply mv_call; done || constructor.
Qed.

Lemma step_sim a s s' es l : tinv s l -> action_ok a -> step a s = Some (s', es) ->
  exists l' ms, tinv s' l' /\ erase ms = es /\ serves l ms l' /\ forall t, moves t (status_of t s) ms (status_of t s').
Proof.
  intros H Ha E. destruct a as [o| |].
  - destruct (call_step s l o s' es H Ha E) as (H' & -> & Hm). exists l, [seen (called o)]. split; [done|]. split; [done|]. split; [constructor|exact Hm].
  - cbn [step] in E. destruct (upper s) as [pc|] eqn:Eu; [|done]. destruct (upper_step pc (fifo s)) as [q next] eqn:Es. pose proof (upper_sim s l pc q next H Eu Es) as Hs.
    destruct next as [pc'|out]; cbn [after] in *; injection E as <- <-; (apply (simulated_step upper_thread); [done| |by intros []]); [done|by destruct pc; repeat constructor].
  - cbn [step] in E. destruct (lower s) as [pc|] eqn:Eu; [|done]. destruct (lower_step pc (fifo s)) as [q next] eqn:Es. pose proof (lower_sim s l pc q next H Eu Es) as Hs.
    destruct next as [pc'|out]; cbn [after] in *; injection E as <- <-; (apply (simulated_step lower_thread); [done| |by intros []]); [done|].
    destruct pc as [| | | | |[] ?|[] ? ?|[] ? ?]; by repeat constructor.
Qed.

Lemma run_sim acts : forall s s' es l, tinv s l -> Forall action_ok acts -> run_threads acts s = Some (s', es) ->
  exists l' ms, tinv s' l' /\ erase ms = es /\ serves l ms l' /\ forall t, moves t (status_of t s) ms (status_of t s').
Proof.
  induction acts as [|a acts IH]; intros s s' es l H Ha E; cbn in E.
  - simplify_eq. exists l, []. split; [done|]. split; [done|]. split; [constructor|]. intros t. constructor.
  - apply Forall_cons in Ha as [Ha Has]. destruct (step a s) as [[s1 es1]|] eqn:E1; [|done]. destruct (run_threads acts s1) as [[s2 es2]|] eqn:E2; [|done]. simplify_eq.
    destruct (step_sim a s s1 es1 l H Ha E1) as (l1 & ms1 & H1 & M1 & S1 & V1). destruct (IH s1 s' es2 l1 H1 Has E2) as (l2 & ms2 & H2 & M2 & S2 & V2).
    exists l2, (ms1 ++ ms2). split; [done|]. split; [by rewrite erase_app, M1, M2|]. split; [by apply serves_app with l1|]. intros t. by apply moves_app with (status_of t s1).
Qed.

Lemma upper_step_fixed pc q q' next : upper_step pc q = (q', next) -> same_limits q q'.
Proof. destruct pc; cbn; unfold try_push; intros E; repeat case_match; simplify_eq; done. Qed.
Lemma lower_step_fixed pc q q' next : lower_step pc q = (q', next) -> same_limits q q'.
Proof. destruct pc; cbn; unfold try_pop; intros E; repeat case_match; simplify_eq; done. Qed.
Lemma run_fixed acts : forall s s' es, run_threads acts s = Some (s', es) -> same_limits (fifo s) (fifo s').
Proof.
  induction acts as [|a acts IH]; intros s s' es E; cbn in E; [by simplify_eq|]. destruct (step a s) as [[s1 es1]|] eqn:E1; [|done].
  destruct (run_threads acts s1) as [[s2 es2]|] eqn:E2; [|done]. simplify_eq. apply (same_limits_trans _ (fifo s1)); [|by apply (IH s1 s' es2)].
  destruct a as [o| |]; cbn in E1.
  - destruct (entry o); repeat case_match; by simplify_eq.
  - destruct (upper s) as [pc|]; [|done]. destruct (upper_step pc (fifo s)) as [q next] eqn:Es. apply upper_step_fixed in Es. destruct (after _ next). by simplify_eq.
  - destruct (lower s) as [pc|]; [|done]. destruct (lower_step pc (fifo s)) as [q next] eqn:Es. apply lower_step_fixed in Es. destruct (after _ next). by simplify_eq.
Qed.

Lemma create_tinv cap limit : 0 < cap < 2 ^ 31 -> 0 <= limit < 2 ^ 32 -> tinv (create cap limit) [].
Proof.
  intros Hc Hl. constructor; try done; [unfold zlen; cbn; lia| |cbn; rewrite zsum_nil; lia].
  constructor; cbn.
  - constructor.
  - intros p _ _. unfold at_slot. cbn. by rewrite lookup_empty.
  - done.
  - by intros x p ?%elem_of_nil.
Qed.

End SduQueueThreads.

Import SduQueueThreads.

(** C30: However the accesses of the two threads interleave, the Tx SDU queue is linearizable: every operation takes effect once, between its
    call and its answer and with the outcome answered, as on a FIFO of the SDUs accepted and not discarded;
    the FIFO keeps to its capacity and its bytes to the limit.  The packed word is the count of that FIFO and of the SDUs just taken out of it,
    less an SDU pushed but not added yet, modulo 2^64; while none is being added both halves are exact
    and within 32 bits, and with no operation under way they are the numbers of SDUs and bytes. *)
Theorem sdu_queue_linearizable cap limit acts s es :
  0 < cap < 2 ^ 31 -> 0 <= limit < 2 ^ 32 -> Forall action_ok acts -> run_threads acts (create cap limit) = Some (s, es) ->
  exists l ms, erase ms = es /\ (forall t, moves t idle ms (status_of t s)) /\ serves [] ms l /\
    zlen (queue (fifo s)) <= cap /\ total_bytes l + zsum (leaving s) <= limit /\
    state (fifo s) = (packed (sizes_of l) + packed (leaving s) - packed (arriving s)) mod 2 ^ 64 /\
    (arriving s = [] -> get_state (fifo s) = mk_state_t (zlen l + zlen (leaving s)) (total_bytes l + zsum (leaving s))) /\
    (upper s = None -> lower s = None -> get_state (fifo s) = mk_state_t (zlen l) (total_bytes l)).
Proof.
  intros Hc Hl Ha E. destruct (run_sim acts _ s es [] (create_tinv cap limit Hc Hl) Ha E) as (l & ms & H & M & S & V). exists l, ms.
  assert (capacity (fifo s) = cap /\ byte_limit (fifo s) = limit) as [<- <-] by by apply (run_fixed acts (create cap limit) s es).
  split; [done|]. split; [intros t; specialize (V t); by destruct t|]. split; [done|]. split; [apply (ti_length s l H)|]. split; [apply (ti_room s l H)|]. split; [apply (ti_state s l H)|].
  assert (arriving s = [] -> get_state (fifo s) = mk_state_t (zlen l + zlen (leaving s)) (total_bytes l + zsum (leaving s))) as Hg by (intros Harr; by apply (get_state_word s l H)).
  split; [done|]. intros Hu Hw. rewrite Hg by (unfold arriving; by rewrite Hu). unfold leaving. rewrite Hu, Hw. cbn [leaving_upper leaving_lower app]. rewrite zlen_nil, zsum_nil. f_equal; lia.
Qed.

(** The lower thread takes out and subtracts an SDU that the upper one has pushed but not added: both halves of the word wrap around,
    and a reader takes the queue for one of four thousand million SDUs. *)
Definition example_sdu : rlc_sdu := mk_sdu [1; 2; 3] false None 0.
Definition overtaken : list action := [calls (op_write example_sdu); upper_runs; upper_runs; calls op_read; lower_runs; lower_runs].
Lemma sdu_queue_count_overtaken : exists s es, run_threads overtaken (create 8 100) = Some (s, es) /\
  queue (fifo s) = [] /\ get_state (fifo s) = mk_state_t 4294967294 4294967293.
Proof. eexists _, _. split; [vm_compute; reflexivity|]. split; vm_compute; reflexivity. Qed.

(** The same with a PDCP SN, the SDU discarded between being taken out and released, while another one is being written. *)
Definition example_interleaving : list action :=
  let s5 := mk_sdu [1; 2] false (Some 5) 0 in let s6 := mk_sdu [3] false (Some 6) 1 in
  [calls (op_write s5); upper_runs; upper_runs; upper_runs; upper_runs; upper_runs; calls op_read; lower_runs; lower_runs;
   upper_runs; calls (op_discard 5); upper_runs; lower_runs; upper_runs; upper_runs;
   calls (op_write s6); upper_runs; upper_runs; upper_runs; upper_runs; upper_runs; upper_runs; lower_runs; lower_runs; lower_runs; lower_runs].

Lemma sdu_queue_linearizable_witness : exists s es, run_threads example_interleaving (create 8 100) = Some (s, es) /\
  In (answered op_read (obtained (Some (mk_sdu [3] false (Some 6) 1)))) es /\ get_state (fifo s) = mk_state_t 0 0 /\
  exists l ms, erase ms = es /\ serves [] ms l /\ get_state (fifo s) = mk_state_t (zlen l) (total_bytes l).
Proof.
  eexists _, _. split; [vm_compute; reflexivity|]. split; [cbn; tauto|]. split; [vm_compute; reflexivity|].
  destruct (sdu_queue_linearizable 8 100 example_interleaving _ _ ltac:(lia) ltac:(lia)
    ltac:(repeat (apply Forall_cons; split; [|]); try apply Forall_nil; try exact I; try (split; [reflexivity|]; intros p [= <-]; split; [discriminate|reflexivity]); split; [discriminate|reflexivity])
    ltac:(vm_compute; reflexivity)) as (l & ms & H1 & _ & H2 & _ & _ & _ & _ & H3).
  exists l, ms. split; [exact H1|]. split; [exact H2|]. apply H3; reflexivity.
Defined.
