(* ===== verification/RetxQueue.v ===== *)
(** * Retransmission queue

    Models [lib/rlc/rlc_retx_queue.h]: the ring buffer of retransmissions (a list with a capacity,
    [include/srsran/adt/ring_buffer.h]), where removed elements stay as invalid ones until they
    reach the front, and the running totals the buffer state is computed from. *)

From S2P Require Import Prelude RlcAmPdu.
Open Scope Z_scope.

Record rlc_tx_amd_retx := mk_retx { retx_sn : Z; retx_so : Z; retx_length : Z }.

Module RetxQueue.

Definition includes (r : rlc_tx_amd_retx) (segment_offset segment_length : Z) : bool :=
  (retx_so r <=? segment_offset) &&
  (u32 (segment_offset + segment_length) <=? u32 (retx_so r + retx_length r)).

Record rlc_retx_queue_state := mk_state { retx_bytes : Z; n_retx_so_zero : Z; n_retx_so_nonzero : Z }.
Definition state_zero : rlc_retx_queue_state := mk_state 0 0 0.

Definition add (elem : rlc_tx_amd_retx) (st : rlc_retx_queue_state) : rlc_retx_queue_state :=
  if retx_so elem =? 0
  then mk_state (u32 (retx_bytes st + retx_length elem)) (u32 (n_retx_so_zero st + 1)) (n_retx_so_nonzero st)
  else mk_state (u32 (retx_bytes st + retx_length elem)) (n_retx_so_zero st) (u32 (n_retx_so_nonzero st + 1)).

Definition subtract (elem : rlc_tx_amd_retx) (st : rlc_retx_queue_state) : rlc_retx_queue_state :=
  let bytes := if retx_length elem <=? retx_bytes st then retx_bytes st - retx_length elem else 0 in
  if retx_so elem =? 0
  then mk_state bytes (if 0 <? n_retx_so_zero st then n_retx_so_zero st - 1 else n_retx_so_zero st)
         (n_retx_so_nonzero st)
  else mk_state bytes (n_retx_so_zero st)
         (if 0 <? n_retx_so_nonzero st then n_retx_so_nonzero st - 1 else n_retx_so_nonzero st).

Record rlc_retx_queue_item := mk_item { invalid : bool; retx : rlc_tx_amd_retx }.

Record rlc_retx_queue := mk_queue {
  max_size : Z;
  queue : list rlc_retx_queue_item;
  st : rlc_retx_queue_state
}.

Definition create (capacity : Z) : rlc_retx_queue := mk_queue capacity [] state_zero.

Definition try_push (r : rlc_tx_amd_retx) (q : rlc_retx_queue) : rlc_retx_queue * bool :=
  if zlen (queue q) =? max_size q then (q, false)
  else (mk_queue (max_size q) (queue q ++ [mk_item false r]) (add r (st q)), true).

(** The elements after the invalid ones at the front. *)
Fixpoint skip_invalid (l : list rlc_retx_queue_item) : list rlc_retx_queue_item :=
  match l with
  | i :: l' => if invalid i then skip_invalid l' else l
  | [] => []
  end.
Definition clean_invalid_front (q : rlc_retx_queue) : rlc_retx_queue :=
  mk_queue (max_size q) (skip_invalid (queue q)) (st q).

Definition pop (q : rlc_retx_queue) : rlc_retx_queue :=
  match queue q with
  | [] => q
  | i :: rest => clean_invalid_front (mk_queue (max_size q) rest (subtract (retx i) (st q)))
  end.

(** [None]: an assertion fails. *)
Definition front (q : rlc_retx_queue) : option rlc_tx_amd_retx :=
  match queue q with
  | i :: _ => if invalid i then None else Some (retx i)
  | [] => None
  end.
Definition replace_front (r : rlc_tx_amd_retx) (q : rlc_retx_queue) : option rlc_retx_queue :=
  match queue q with
  | i :: rest =>
      if invalid i then None
      else Some (mk_queue (max_size q) (mk_item false r :: rest) (add r (subtract (retx i) (st q))))
  | [] => None
  end.

Definition clear (q : rlc_retx_queue) : rlc_retx_queue := mk_queue (max_size q) [] state_zero.
Definition size (q : rlc_retx_queue) : Z := zlen (queue q).
Definition empty (q : rlc_retx_queue) : bool := match queue q with [] => true | _ => false end.

Definition has_sn (q : rlc_retx_queue) (sn : Z) : bool :=
  existsb (fun i => negb (invalid i) && (retx_sn (retx i) =? sn)) (queue q).
Definition has_sn_segment (q : rlc_retx_queue) (sn so length : Z) : bool :=
  existsb (fun i => negb (invalid i) && (retx_sn (retx i) =? sn) && includes (retx i) so length) (queue q).

(** The loop of [remove_sn]: elements, totals, and whether one was removed. *)
Fixpoint mark_removed (sn : Z) (l : list rlc_retx_queue_item) (st : rlc_retx_queue_state) :
    list rlc_retx_queue_item * rlc_retx_queue_state * bool :=
  match l with
  | [] => ([], st, false)
  | i :: l' =>
      if negb (invalid i) && (retx_sn (retx i) =? sn) then
        let '(l2, st, _) := mark_removed sn l' (subtract (retx i) st) in
        (mk_item true (retx i) :: l2, st, true)
      else let '(l2, st, r) := mark_removed sn l' st in (i :: l2, st, r)
  end.
Definition remove_sn (sn : Z) (q : rlc_retx_queue) : rlc_retx_queue * bool :=
  if empty q then (q, false) else
  let '(l, st, r) := mark_removed sn (queue q) (st q) in
  (clean_invalid_front (mk_queue (max_size q) l st), r).

(** ** Abstract view: the retransmissions that are pending *)

Fixpoint valid_items (l : list rlc_retx_queue_item) : list rlc_tx_amd_retx :=
  match l with
  | [] => []
  | i :: l' => if invalid i then valid_items l' else retx i :: valid_items l'
  end.
Definition pending (q : rlc_retx_queue) : list rlc_tx_amd_retx := valid_items (queue q).

Fixpoint bytes_of (l : list rlc_tx_amd_retx) : Z :=
  match l with [] => 0 | r :: l' => retx_length r + bytes_of l' end.
Fixpoint count_so (zero : bool) (l : list rlc_tx_amd_retx) : Z :=
  match l with
  | [] => 0
  | r :: l' => (if eqb (retx_so r =? 0) zero then 1 else 0) + count_so zero l'
  end.
Definition state_of (l : list rlc_tx_amd_retx) : rlc_retx_queue_state :=
  mk_state (bytes_of l) (count_so true l) (count_so false l).

(** The totals fit their 32 bits. *)
Definition fits (l : list rlc_tx_amd_retx) : Prop :=
  Forall (fun r => 0 <= retx_length r) l /\ bytes_of l < 2 ^ 32 /\ zlen l < 2 ^ 32.

Record inv (q : rlc_retx_queue) : Prop := {
  inv_front : skip_invalid (queue q) = queue q;
  inv_size : zlen (queue q) <= max_size q;
  inv_state : st q = state_of (pending q);
  inv_fits : fits (pending q)
}.

Lemma valid_items_app l k : valid_items (l ++ k) = valid_items l ++ valid_items k.
Proof. induction l as [|i l IH]; simpl; [done|]. destruct (invalid i); simpl; by rewrite IH. Qed.
Lemma valid_skip l : valid_items (skip_invalid l) = valid_items l.
Proof. induction l as [|i l IH]; simpl; [done|]. destruct (invalid i) eqn:E; [done|]. simpl. by rewrite E. Qed.
Lemma skip_skip l : skip_invalid (skip_invalid l) = skip_invalid l.
Proof. induction l as [|i l IH]; simpl; [done|]. destruct (invalid i) eqn:E; [done|]. simpl. by rewrite E. Qed.
Lemma skip_app l k : skip_invalid l = l -> l <> [] -> skip_invalid (l ++ k) = l ++ k.
Proof.
  destruct l as [|i l]; [done|]. simpl. intros H _. destruct (invalid i) eqn:E; [|done].
  exfalso. assert (length (skip_invalid l) <= length l)%nat as Hl.
  { clear. induction l as [|j l IH]; simpl; [lia|]. destruct (invalid j); simpl; lia. }
  rewrite H in Hl. simpl in Hl. lia.
Qed.
Lemma skip_length l : zlen (skip_invalid l) <= zlen l.
Proof. induction l as [|i l IH]; simpl; [lia|]. destruct (invalid i); rewrite ?zlen_cons; lia. Qed.

Lemma bytes_of_app l k : bytes_of (l ++ k) = bytes_of l + bytes_of k.
Proof. induction l as [|r l IH]; simpl; [done|]. rewrite IH. lia. Qed.
Lemma count_so_app z l k : count_so z (l ++ k) = count_so z l + count_so z k.
Proof. induction l as [|r l IH]; simpl; [done|]. rewrite IH. lia. Qed.
Lemma count_so_range z l : 0 <= count_so z l <= zlen l.
Proof.
  induction l as [|r l IH]; cbn [count_so]; [done|]. rewrite zlen_cons. destruct (eqb _ _); lia.
Qed.
Lemma bytes_of_nonneg l : Forall (fun r => 0 <= retx_length r) l -> 0 <= bytes_of l.
Proof. induction 1; simpl; lia. Qed.

Lemma fits_cons r l : fits (r :: l) -> fits l /\ 0 <= retx_length r /\ bytes_of l + retx_length r < 2 ^ 32.
Proof.
  intros (Hf & Hb & Hl). apply Forall_cons in Hf as [Hr Hf]. simpl in Hb. rewrite zlen_cons in Hl.
  split; [|lia]. split; [done|]. lia.
Qed.

Lemma subtract_state r l : fits (r :: l) -> subtract r (state_of (r :: l)) = state_of l.
Proof.
  intros Hf. apply fits_cons in Hf as ([Hl _] & Hr & _). pose proof (bytes_of_nonneg l Hl).
  pose proof (count_so_range true l). pose proof (count_so_range false l).
  unfold subtract, state_of. simpl. destruct (Z.leb_spec (retx_length r) (retx_length r + bytes_of l)); [|lia].
  assert ((0 <? 1 + count_so true l) = true) as E1 by (apply Z.ltb_lt; lia).
  assert ((0 <? 1 + count_so false l) = true) as E2 by (apply Z.ltb_lt; lia).
  destruct (Z.eqb_spec (retx_so r) 0); cbn [eqb]; rewrite ?E1, ?E2; f_equal; lia.
Qed.

Lemma add_state r l l' : fits l' -> bytes_of l' = bytes_of l + retx_length r -> zlen l' = zlen l + 1 ->
  (forall z, count_so z l' = count_so z l + (if eqb (retx_so r =? 0) z then 1 else 0)) ->
  add r (state_of l) = state_of l'.
Proof.
  intros (Hf & Hb & Hl) Eb Ez Ec. pose proof (bytes_of_nonneg l' Hf).
  pose proof (count_so_range true l'). pose proof (count_so_range false l').
  unfold add, state_of. simpl. rewrite !Ec, Eb in *. destruct (retx_so r =? 0); simpl in *; f_equal;
    rewrite ?u32_small by lia; lia.
Qed.

Lemma create_retx_inv cap : 0 <= cap -> inv (create cap) /\ pending (create cap) = [].
Proof. intros. split; [|done]. constructor; by simpl. Qed.

Lemma pending_nil q : inv q -> (pending q = [] <-> queue q = []).
Proof.
  intros Hq. unfold pending. split; [|by intros ->]. pose proof (inv_front q Hq) as Hf.
  destruct (queue q) as [|i l]; [done|]. simpl in *. destruct (invalid i) eqn:E; [|done].
  intros _. exfalso. pose proof (skip_length l) as Hl. rewrite Hf, zlen_cons in Hl. lia.
Qed.

Lemma empty_pending q : inv q -> empty q = match pending q with [] => true | _ => false end.
Proof.
  intros Hq. pose proof (pending_nil q Hq) as [H1 H2]. unfold empty.
  destruct (queue q), (pending q); try done; by (specialize (H1 eq_refl) || specialize (H2 eq_refl)).
Qed.

Lemma front_pending q : inv q -> front q = hd_error (pending q).
Proof.
  intros Hq. unfold front, pending. pose proof (inv_front q Hq) as Hf.
  destruct (queue q) as [|i l]; [done|]. simpl in *. destruct (invalid i) eqn:E; [|done].
  exfalso. pose proof (skip_length l) as Hl. rewrite Hf, zlen_cons in Hl. lia.
Qed.

(** A valid element at the front, as the queue invariant leaves it. *)
Lemma front_item q r l : inv q -> pending q = r :: l ->
  exists rest, queue q = mk_item false r :: rest /\ valid_items rest = l.
Proof.
  intros Hq Hp. pose proof (front_pending q Hq) as Hf. unfold front, pending in *. rewrite Hp in Hf.
  destruct (queue q) as [|i rest]; [done|]. simpl in *. destruct (invalid i) eqn:E; [done|].
  simplify_eq/=. exists rest. split; [|done]. destruct i; simpl in *. by subst.
Qed.

Lemma try_push_spec q r :
  inv q -> fits (pending q ++ [r]) ->
  let '(q', ok) := try_push r q in
  inv q' /\ max_size q' = max_size q /\ ok = negb (size q =? max_size q) /\
  pending q' = pending q ++ (if ok then [r] else []).
Proof.
  intros Hq Hf. unfold try_push, size. destruct (Z.eqb_spec (zlen (queue q)) (max_size q)) as [|Hne]; simpl.
  { by rewrite app_nil_r. }
  assert (pending (mk_queue (max_size q) (queue q ++ [mk_item false r]) (add r (st q))) = pending q ++ [r]) as Hp.
  { unfold pending. simpl. by rewrite valid_items_app. }
  split; [|done]. pose proof (inv_size q Hq). constructor; rewrite ?Hp; simpl; auto.
  - destruct (queue q) as [|i l] eqn:Eq; [done|]. apply skip_app; [|done]. rewrite <- Eq. by apply inv_front.
  - rewrite zlen_app, zlen_cons, zlen_nil. lia.
  - rewrite (inv_state q Hq). apply add_state; [done|rewrite bytes_of_app; simpl; lia| |].
    + by rewrite zlen_app, zlen_cons, zlen_nil.
    + intros z. rewrite count_so_app. simpl. lia.
Qed.

Lemma pop_spec q : inv q -> inv (pop q) /\ max_size (pop q) = max_size q /\ pending (pop q) = tl (pending q).
Proof.
  intros Hq. destruct (pending q) as [|r l] eqn:Hp.
  - apply pending_nil in Hp as Hp'; [|done]. unfold pop. rewrite Hp'. done.
  - destruct (front_item q r l Hq Hp) as (rest & Hqueue & Hrest).
    unfold pop. rewrite Hqueue. simpl.
    assert (pending (clean_invalid_front (mk_queue (max_size q) rest (subtract r (st q)))) = l) as Hp'.
    { unfold pending. simpl. by rewrite valid_skip. }
    pose proof (inv_fits q Hq) as Hf. rewrite Hp in Hf. pose proof (inv_size q Hq) as Hs.
    rewrite Hqueue, zlen_cons in Hs. pose proof (skip_length rest).
    split; [|done]. constructor; rewrite ?Hp'; simpl.
    + apply skip_skip.
    + lia.
    + by rewrite (inv_state q Hq), Hp, subtract_state.
    + by apply fits_cons in Hf as [? _].
Qed.

Lemma replace_front_spec q r r' l :
  inv q -> pending q = r :: l -> fits (r' :: l) ->
  exists q', replace_front r' q = Some q' /\ inv q' /\ max_size q' = max_size q /\ pending q' = r' :: l.
Proof.
  intros Hq Hp Hf'. destruct (front_item q r l Hq Hp) as (rest & Hqueue & Hrest).
  unfold replace_front. rewrite Hqueue. simpl. eexists. split; [done|].
  assert (pending (mk_queue (max_size q) (mk_item false r' :: rest) (add r' (subtract r (st q)))) = r' :: l) as Hp'.
  { unfold pending. simpl. by rewrite Hrest. }
  pose proof (inv_fits q Hq) as Hf. rewrite Hp in Hf. pose proof (inv_size q Hq) as Hs. rewrite Hqueue in Hs.
  split; [|done]. constructor; rewrite ?Hp'; simpl; [done| | |done].
  - by rewrite zlen_cons in *.
  - rewrite (inv_state q Hq), Hp, subtract_state by done.
    apply add_state; [done|simpl; lia|by rewrite zlen_cons|]. intros z. simpl. lia.
Qed.

Lemma clear_spec q : inv q -> inv (clear q) /\ max_size (clear q) = max_size q /\ pending (clear q) = [].
Proof.
  intros Hq. split; [|done]. pose proof (inv_size q Hq). pose proof (zlen_nonneg (queue q)).
  constructor; simpl; try done. by apply (Z.le_trans _ (zlen (queue q))).
Qed.

Lemma has_sn_spec q sn : has_sn q sn = existsb (fun r => retx_sn r =? sn) (pending q).
Proof.
  unfold has_sn, pending. induction (queue q) as [|i l IH]; simpl; [done|].
  destruct (invalid i); simpl; by rewrite IH.
Qed.

Definition drop_sn (sn : Z) (l : list rlc_tx_amd_retx) : list rlc_tx_amd_retx :=
  List.filter (fun r => negb (retx_sn r =? sn)) l.

Lemma state_of_mid l r k : state_of (l ++ r :: k) = state_of (r :: l ++ k).
Proof. unfold state_of. rewrite bytes_of_app, !count_so_app. simpl. rewrite bytes_of_app, !count_so_app. f_equal; lia. Qed.

Lemma fits_mid l r k : fits (l ++ r :: k) <-> fits (r :: l ++ k).
Proof.
  unfold fits. rewrite !Forall_app, !Forall_cons, Forall_app, bytes_of_app, zlen_app, zlen_cons. simpl.
  rewrite bytes_of_app, zlen_cons, zlen_app. split; intros (? & ? & ?); (split; [tauto|]); lia.
Qed.

Lemma mark_removed_spec sn l : forall pre, fits (pre ++ valid_items l) ->
  let '(l', st', r) := mark_removed sn l (state_of (pre ++ valid_items l)) in
  valid_items l' = drop_sn sn (valid_items l) /\ st' = state_of (pre ++ valid_items l') /\
  fits (pre ++ valid_items l') /\ zlen l' = zlen l /\
  r = existsb (fun r => retx_sn r =? sn) (valid_items l).
Proof.
  unfold drop_sn. induction l as [|i l IH]; intros pre Hf; simpl in *; [done|].
  destruct (invalid i) eqn:Ei; simpl in *.
  - specialize (IH pre Hf). destruct (mark_removed sn l _) as [[l2 st'] r].
    destruct IH as (H1 & H2 & H3 & H4 & H5). simpl. rewrite Ei, !zlen_cons, H4. done.
  - destruct (Z.eqb_spec (retx_sn (retx i)) sn) as [E|E]; simpl.
    + apply fits_mid in Hf. rewrite state_of_mid, subtract_state by done.
      apply fits_cons in Hf as [Hf _]. specialize (IH pre Hf).
      destruct (mark_removed sn l _) as [[l2 st'] r]. destruct IH as (H1 & H2 & H3 & H4 & H5).
      simpl. by rewrite !zlen_cons, H4.
    + specialize (IH (pre ++ [retx i])). rewrite <- app_assoc in IH. specialize (IH Hf).
      destruct (mark_removed sn l _) as [[l2 st'] r]. destruct IH as (H1 & H2 & H3 & H4 & H5).
      rewrite <- app_assoc in H2, H3. simpl in *. rewrite Ei, !zlen_cons, H4. rewrite H1 in *. done.
Qed.

Lemma remove_sn_spec sn q : inv q ->
  let '(q', r) := remove_sn sn q in
  inv q' /\ max_size q' = max_size q /\ r = existsb (fun r => retx_sn r =? sn) (pending q) /\
  pending q' = drop_sn sn (pending q).
Proof.
  intros Hq. unfold remove_sn, empty. destruct (queue q) as [|i l] eqn:Eq.
  { by unfold pending; rewrite Eq. }
  rewrite <- Eq. pose proof (mark_removed_spec sn (queue q) [] (inv_fits q Hq)) as M.
  simpl in M. fold (pending q) in M. rewrite <- (inv_state q Hq) in M.
  destruct (mark_removed sn (queue q) (st q)) as [[l' st'] r]. destruct M as (H1 & H2 & H3 & H4 & H5).
  assert (pending (clean_invalid_front (mk_queue (max_size q) l' st')) = valid_items l') as Hp.
  { unfold pending. simpl. apply valid_skip. }
  pose proof (inv_size q Hq). pose proof (skip_length l').
  split; [constructor; rewrite ?Hp; simpl; [apply skip_skip|lia|done|done]|]. by rewrite Hp.
Qed.

(** ** The queue as a list of retransmissions with exact totals *)

Inductive operation :=
| op_push (r : rlc_tx_amd_retx)
| op_pop
| op_replace_front (r : rlc_tx_amd_retx)
| op_clear
| op_remove_sn (sn : Z).

(** [None]: an assertion fails. *)
Definition run (o : operation) (q : rlc_retx_queue) : option rlc_retx_queue :=
  match o with
  | op_push r => Some (fst (try_push r q))
  | op_pop => Some (pop q)
  | op_replace_front r => replace_front r q
  | op_clear => Some (clear q)
  | op_remove_sn sn => Some (fst (remove_sn sn q))
  end.

Definition pending_after (o : operation) (full : bool) (l : list rlc_tx_amd_retx) : list rlc_tx_amd_retx :=
  match o with
  | op_push r => if full then l else l ++ [r]
  | op_pop => tl l
  | op_replace_front r => r :: tl l
  | op_clear => []
  | op_remove_sn sn => drop_sn sn l
  end.

(** The caller replaces the front of a queue that has one, and the totals stay within 32 bits. *)
Definition operation_ok (q : rlc_retx_queue) (o : operation) : Prop :=
  match o with
  | op_push r => fits (pending q ++ [r])
  | op_replace_front r => pending q <> [] /\ fits (r :: tl (pending q))
  | _ => True
  end.
End RetxQueue.

(** Pushing, popping, replacing the front, clearing and removing a sequence number keep the queue a
    list of pending retransmissions in order, whose bytes and header counts are the totals the
    buffer state reads, with a valid element at the front whenever one is pending. *)
Theorem retx_queue_exact q o :
  RetxQueue.inv q -> RetxQueue.operation_ok q o ->
  exists q', RetxQueue.run o q = Some q' /\ RetxQueue.inv q' /\
    RetxQueue.pending q' =
      RetxQueue.pending_after o (RetxQueue.size q =? RetxQueue.max_size q) (RetxQueue.pending q) /\
    RetxQueue.st q' = RetxQueue.state_of (RetxQueue.pending q') /\
    RetxQueue.front q' = hd_error (RetxQueue.pending q').
Proof.
  intros Hq Ho.
  enough (exists q', RetxQueue.run o q = Some q' /\ RetxQueue.inv q' /\ RetxQueue.pending q' =
      RetxQueue.pending_after o (RetxQueue.size q =? RetxQueue.max_size q) (RetxQueue.pending q))
    as (q' & H1 & H2 & H3).
  { exists q'. split; [done|]. split; [done|]. split; [done|].
    split; [by apply RetxQueue.inv_state|by apply RetxQueue.front_pending]. }
  destruct o as [r| |r| |sn]; simpl in *.
  - pose proof (RetxQueue.try_push_spec q r Hq Ho) as P. destruct (RetxQueue.try_push r q) as [q' ok].
    destruct P as (H1 & _ & -> & H2). exists q'. split; [done|]. split; [done|]. rewrite H2.
    destruct (_ =? _); simpl; [apply app_nil_r|done].
  - destruct (RetxQueue.pop_spec q Hq) as (? & _ & ?). eauto.
  - destruct Ho as [Hne Hf]. destruct (RetxQueue.pending q) as [|r0 l] eqn:Hp; [done|].
    destruct (RetxQueue.replace_front_spec q r0 r l Hq Hp Hf) as (q' & ? & ? & _ & ?). eauto.
  - destruct (RetxQueue.clear_spec q Hq) as (? & _ & ?). eauto.
  - pose proof (RetxQueue.remove_sn_spec sn q Hq) as P. destruct (RetxQueue.remove_sn sn q) as [q' ok].
    destruct P as (H1 & _ & _ & H2). eauto.
Qed.

Lemma retx_queue_exact_witness :
  let q := fst (RetxQueue.try_push (mk_retx 5 10 4) (fst (RetxQueue.try_push (mk_retx 4 0 7) (RetxQueue.create 8)))) in
  RetxQueue.pending q = [mk_retx 4 0 7; mk_retx 5 10 4] /\
  exists q', RetxQueue.run (RetxQueue.op_remove_sn 4) q = Some q' /\
    RetxQueue.st q' = RetxQueue.mk_state 4 0 1 /\ RetxQueue.front q' = Some (mk_retx 5 10 4).
Proof.
  intros q. split; [reflexivity|]. assert (RetxQueue.inv q) as Hq.
  { constructor; [reflexivity|discriminate|reflexivity|].
    split; [|split; reflexivity]. repeat (apply Forall_cons; split; [discriminate|]). apply Forall_nil. exact I. }
  destruct (retx_queue_exact q (RetxQueue.op_remove_sn 4) Hq I) as (q' & H1 & _ & H2 & H3 & H4).
  exists q'. split; [exact H1|]. rewrite H3, H4, H2. split; reflexivity.
Defined.
