(* ===== verification/RlcTxUm.v ===== *)
(** * The transmitting UM entity, and types shared by the transmitting entities

    Models the Tx configurations of [include/srsran/rlc/rlc_config.h], the buffer state of
    [include/srsran/rlc/rlc_buffer_state.h] and the interface to the receiving side of an AM bearer
    ([rlc_rx_am_status_provider] of [lib/rlc/rlc_am_interconnect.h]). *)

From S2P Require Import Prelude Effects RlcConfig RlcAmPdu RlcUmPdu PdcpSn SduQueue.
Import StatusPdu.
Open Scope Z_scope.

Record rlc_tx_am_config := {
  txam_sn_field_length : rlc_am_sn_size;
  txam_pdcp_sn_len : pdcp_sn_size;
  txam_t_poll_retx : Z;
  txam_max_retx_thresh : Z;
  txam_poll_pdu : Z;
  txam_poll_byte : Z;
  txam_queue_size : Z;
  txam_queue_size_bytes : Z;
  txam_max_window : Z
}.

Record rlc_tx_um_config := {
  txum_sn_field_length : rlc_um_sn_size;
  txum_pdcp_sn_len : pdcp_sn_size;
  txum_queue_size : Z;
  txum_queue_size_bytes : Z
}.

(** Bytes pending and the arrival time of the oldest of them. *)
Record rlc_buffer_state := mk_buffer_state { pending_bytes : Z; hol_toa : option Z }.
Definition buffer_state_default : rlc_buffer_state := mk_buffer_state 0 None.

(** [operator<] of two optional time points: no value is before every value. *)
Definition hol_toa_ltb (a b : option Z) : bool :=
  match a, b with
  | _, None => false
  | None, Some _ => true
  | Some x, Some y => x <? y
  end.

(** 275 PRBs of 156 resource elements, four layers, eight bits per symbol. *)
Definition MAX_DL_PDU_LENGTH : Z := (156 * 275 * 4 * 8 + 7) / 8.

(** What the receiving side answers when asked: whether a status report is due, its size, and the
    report [get_status_pdu] hands over. *)
Record rlc_rx_am_status_provider := mk_provider {
  status_report_required : bool;
  status_pdu_length : Z;
  status_pdu : rlc_am_status_pdu
}.

(** * RLC UM transmitting entity

    Models [lib/rlc/rlc_tx_um_entity.{h,cpp}]: SDUs from the upper layer, PDUs on request of the lower layer (a complete
    SDU without sequence number, or segments under TX_Next), and the buffer state.  A span
    handed to [pull_pdu] is its length [grant_len]; the PDU written is the list returned.  Calls to neighbours are
    events, metrics as if they are enabled.  Left out: logging, the latency metrics and the tasks that only free memory. *)

Import UmHeader.
Open Scope Z_scope.
Open Scope entity_scope.

Module RlcTxUm.

Record rlc_tx_um_entity := mk_entity {
  cfg : rlc_tx_um_config;
  tx_next : Z;
  sdu_queue : SduQueue.rlc_sdu_queue;
  sdu : rlc_sdu;
  next_so : Z;
  prev_buffer_state : rlc_buffer_state;
  suspend_bs_notif_barring : bool;
  pending_buffer_state : bool;
  stopped : bool
}.

Inductive tx_event :=
| on_transmitted_sdu (pdcp_sn desired_buf_size : Z)
| on_buffer_state_update (bs : rlc_buffer_state)
| pcap_push_pdu (pdu : list Z)
| defer_update_mac_buffer_state
| execute_stop_low_metrics_timer
| metrics_add_sdus (n bytes : Z)
| metrics_add_lost_sdus (n : Z)
| metrics_add_discard (n : Z)
| metrics_add_discard_failure (n : Z)
| metrics_add_pulled_sdus (n : Z)
| metrics_add_pdus_no_segmentation (n bytes : Z)
| metrics_add_pdus_with_segmentation_um (n bytes : Z).

Definition set_tx_next (v : Z) (e : rlc_tx_um_entity) : rlc_tx_um_entity :=
  mk_entity (cfg e) v (sdu_queue e) (sdu e) (next_so e) (prev_buffer_state e) (suspend_bs_notif_barring e) (pending_buffer_state e) (stopped e).
Definition set_sdu_queue (v : SduQueue.rlc_sdu_queue) (e : rlc_tx_um_entity) : rlc_tx_um_entity :=
  mk_entity (cfg e) (tx_next e) v (sdu e) (next_so e) (prev_buffer_state e) (suspend_bs_notif_barring e) (pending_buffer_state e) (stopped e).
Definition set_sdu (v : rlc_sdu) (e : rlc_tx_um_entity) : rlc_tx_um_entity :=
  mk_entity (cfg e) (tx_next e) (sdu_queue e) v (next_so e) (prev_buffer_state e) (suspend_bs_notif_barring e) (pending_buffer_state e) (stopped e).
Definition set_next_so (v : Z) (e : rlc_tx_um_entity) : rlc_tx_um_entity :=
  mk_entity (cfg e) (tx_next e) (sdu_queue e) (sdu e) v (prev_buffer_state e) (suspend_bs_notif_barring e) (pending_buffer_state e) (stopped e).
Definition set_prev_buffer_state (v : rlc_buffer_state) (e : rlc_tx_um_entity) : rlc_tx_um_entity :=
  mk_entity (cfg e) (tx_next e) (sdu_queue e) (sdu e) (next_so e) v (suspend_bs_notif_barring e) (pending_buffer_state e) (stopped e).
Definition set_suspend_bs_notif_barring (v : bool) (e : rlc_tx_um_entity) : rlc_tx_um_entity :=
  mk_entity (cfg e) (tx_next e) (sdu_queue e) (sdu e) (next_so e) (prev_buffer_state e) v (pending_buffer_state e) (stopped e).
Definition set_pending_buffer_state (v : bool) (e : rlc_tx_um_entity) : rlc_tx_um_entity :=
  mk_entity (cfg e) (tx_next e) (sdu_queue e) (sdu e) (next_so e) (prev_buffer_state e) (suspend_bs_notif_barring e) v (stopped e).
Definition set_stopped (v : bool) (e : rlc_tx_um_entity) : rlc_tx_um_entity :=
  mk_entity (cfg e) (tx_next e) (sdu_queue e) (sdu e) (next_so e) (prev_buffer_state e) (suspend_bs_notif_barring e) (pending_buffer_state e) v.

(** A handler of the entity. *)
Definition H (A : Type) : Type := M rlc_tx_um_entity tx_event A.

(** ** Constants of the entity *)

Definition mod_ (e : rlc_tx_um_entity) : Z := cardinality (to_number_um_sn (txum_sn_field_length (cfg e))).
Definition head_len_full : Z := rlc_um_pdu_header_size_complete_sdu.
Definition head_len_first (e : rlc_tx_um_entity) : Z := rlc_um_pdu_header_size_no_so (txum_sn_field_length (cfg e)).
Definition head_len_not_first (e : rlc_tx_um_entity) : Z := rlc_um_pdu_header_size_with_so (txum_sn_field_length (cfg e)).

(** ** Construction and shutdown *)

Definition sdu_default : rlc_sdu := mk_sdu [] false None 0.

(** [None]: the PDCP SN length is asserted to be 12 or 18 bits. *)
Definition create (config : rlc_tx_um_config) : option rlc_tx_um_entity :=
  if bool_decide (txum_pdcp_sn_len config = pdcp_size_invalid) then None else
  Some (mk_entity config 0 (SduQueue.create (txum_queue_size config) (txum_queue_size_bytes config)) sdu_default 0
          buffer_state_default true false false).

Definition stop : H unit :=
  let! e := get in
  when (negb (stopped e)) (emit execute_stop_low_metrics_timer ;;; modify (set_stopped true)).

(** ** Buffer state *)

Definition get_buffer_state : H rlc_buffer_state :=
  let! e := get in
  let queue_state := SduQueue.get_state (sdu_queue e) in
  let queue_bytes := u32 (SduQueue.n_bytes queue_state + SduQueue.n_sdus queue_state * head_len_full) in
  let! seg :=
    (match sdu_buf (sdu e) with
     | [] =>
         let '(q, next_sdu) := SduQueue.front (sdu_queue e) in
         modify (set_sdu_queue q) ;;; ret (0, sdu_time_of_arrival <$> next_sdu)
     | buf => ret (u32 (zlen buf - next_so e + head_len_not_first e), Some (sdu_time_of_arrival (sdu e)))
     end) in
  let bs := mk_buffer_state (u32 (queue_bytes + fst seg)) (snd seg) in
  when (pending_bytes bs <=? MAX_DL_PDU_LENGTH) (modify (set_suspend_bs_notif_barring true)) ;;;
  ret bs.

Definition update_mac_buffer_state : H unit :=
  modify (set_pending_buffer_state false) ;;;
  let! bs := get_buffer_state in
  let! e := get in
  when ((pending_bytes bs <=? MAX_DL_PDU_LENGTH) || (pending_bytes (prev_buffer_state e) <=? MAX_DL_PDU_LENGTH) || suspend_bs_notif_barring e)
    (modify (set_suspend_bs_notif_barring false) ;;; emit (on_buffer_state_update bs)) ;;;
  modify (set_prev_buffer_state bs).

(** [deferred]: the cell executor accepts the task. *)
Definition handle_changed_buffer_state (deferred : bool) : H unit :=
  let! e := get in
  when (negb (pending_buffer_state e))
    (modify (set_pending_buffer_state true) ;;; when deferred (emit defer_update_mac_buffer_state)).

(** ** Upper layer *)

Definition handle_sdu (now : Z) (deferred : bool) (sdu_buf : list Z) (is_retx : bool) : H unit :=
  let! e := get in
  let sdu_ := mk_sdu sdu_buf false (get_pdcp_sn sdu_buf (txum_pdcp_sn_len (cfg e)) false) now in
  let '(q, written) := SduQueue.write sdu_ (sdu_queue e) in
  modify (set_sdu_queue q) ;;;
  if written then emit (metrics_add_sdus 1 (zlen sdu_buf)) ;;; handle_changed_buffer_state deferred
  else emit (metrics_add_lost_sdus 1).

Definition discard_sdu (deferred : bool) (pdcp_sn : Z) : H unit :=
  let! e := get in
  let '(q, discarded) := SduQueue.try_discard pdcp_sn (sdu_queue e) in
  modify (set_sdu_queue q) ;;;
  if discarded then emit (metrics_add_discard 1) ;;; handle_changed_buffer_state deferred
  else emit (metrics_add_discard_failure 1).

(** ** PDUs for the lower layer *)

(** [None]: no payload fits; else SI and header size. *)
Definition get_si_and_expected_header_size (e : rlc_tx_um_entity) (so sdu_len grant_len : Z) : option (rlc_si_field * Z) :=
  if so =? 0 then
    if sdu_len <=? u32 (grant_len - head_len_full) then Some (full_sdu, head_len_full)
    else if grant_len <=? head_len_first e then None
    else Some (first_segment, head_len_first e)
  else
    if grant_len <=? head_len_not_first e then None
    else if u32 (sdu_len - next_so e) <=? u32 (grant_len - head_len_not_first e) then Some (last_segment, head_len_not_first e)
    else Some (middle_segment, head_len_not_first e).

(** The SDU the next PDU is of; [false]: there is none. *)
Definition fetch_sdu : H bool :=
  let! e := get in
  match sdu_buf (sdu e) with
  | [] =>
      assert_ (next_so e =? 0) ;;;
      let '(q, s, ok) := SduQueue.read_into (sdu e) (sdu_queue e) in
      modify (fun e => set_sdu s (set_sdu_queue q e)) ;;;
      when ok
        (match sdu_pdcp_sn s with
         | Some pdcp_sn => emit (on_transmitted_sdu pdcp_sn (txum_queue_size_bytes (cfg e)))
         | None => ret tt
         end) ;;;
      ret ok
  | _ => ret true
  end.

(** What follows the PDU: the SDU is released after its last byte. *)
Definition finish_pdu (si : rlc_si_field) (payload_len pdu_size : Z) (pdu : list Z) : H unit :=
  (if si_eqb si full_sdu || si_eqb si last_segment then
     modify (fun e => set_sdu (mk_sdu [] (sdu_is_retx (sdu e)) (sdu_pdcp_sn (sdu e)) (sdu_time_of_arrival (sdu e))) e) ;;;
     modify (set_next_so 0) ;;;
     emit (metrics_add_pulled_sdus 1)
   else modify (fun e => set_next_so (u32 (next_so e + payload_len)) e)) ;;;
  when (si_eqb si last_segment) (modify (fun e => set_tx_next ((tx_next e + 1) mod mod_ e) e)) ;;;
  emit (pcap_push_pdu pdu) ;;;
  emit (if si_eqb si full_sdu then metrics_add_pdus_no_segmentation 1 pdu_size else metrics_add_pdus_with_segmentation_um 1 pdu_size).

(** The PDU for a header and the space left; a view past the SDU and a write past the grant abort. *)
Definition write_pdu (grant_len : Z) (header : rlc_um_pdu_header) : H (list Z) :=
  let! e := get in
  let bytes := rlc_um_write_data_pdu_header header in
  let header_len := zlen bytes in
  assert_ (header_len <=? grant_len) ;;;
  let space := u32 (grant_len - header_len) in
  let left := u32 (zlen (sdu_buf (sdu e)) - next_so e) in
  let payload_len := if left <=? space then left else space in
  assert_ (next_so e + payload_len <=? zlen (sdu_buf (sdu e))) ;;;
  let payload := sub (next_so e) (Z.min payload_len (grant_len - header_len)) (sdu_buf (sdu e)) in
  if (zlen payload =? 0) || negb (zlen payload =? payload_len) then ret [] else
  let pdu := bytes ++ payload in
  finish_pdu (um_si header) payload_len (header_len + zlen payload) pdu ;;;
  ret pdu.

Definition pull_pdu (grant_len : Z) : H (list Z) :=
  if grant_len <=? head_len_full then ret [] else
  let! ok := fetch_sdu in
  if negb ok then ret [] else
  let! e := get in
  match get_si_and_expected_header_size e (next_so e) (zlen (sdu_buf (sdu e))) grant_len with
  | None => ret []
  | Some (si, expected_hdr_len) =>
      (** The sanity check on the header size assigns; [expected_header_len] shows that the sizes agree. *)
      write_pdu grant_len (mk_um_header si (txum_sn_field_length (cfg e)) (tx_next e) (u16 (next_so e)))
  end.

End RlcTxUm.
