(* ===== verification/RlcTxUmInv.v ===== *)
(** * RLC UM transmitting entity: what goes out

    The PDUs of the entity described as transmissions of SDUs: [whole] in one PDU without sequence number, or [split] into
    segments that carry the number of SDUs split before.  [tx_inv ts e]: the finished transmissions are [ts] and
    [partial] is under way; pulling a PDU extends them. *)

From S2P Require Import Prelude Effects RlcConfig RlcAmPdu Segments RlcUmPdu PdcpSn SduQueue RlcTxUm.
Import UmHeader RlcTxUm.
Open Scope Z_scope.
Open Scope entity_scope.

(** ** Transmissions *)

Inductive transmission := whole (s : list Z) | split (s : list Z) (segments : list rlc_rx_am_sdu_segment).
Definition sdu_of (t : transmission) : list Z := match t with whole s | split s _ => s end.

(** A PDU with its number counted without wrap-around. *)
Inductive item := item_whole (s : list Z) | item_piece (k : Z) (segment : rlc_rx_am_sdu_segment).

Definition splits (ts : list transmission) : list (list Z) := omap (fun t => match t with split s _ => Some s | whole _ => None end) ts.
Definition nsplit (ts : list transmission) : Z := zlen (splits ts).

Fixpoint items_from (k : Z) (ts : list transmission) : list item :=
  match ts with
  | [] => []
  | whole s :: ts => item_whole s :: items_from k ts
  | split _ segments :: ts => map (item_piece k) segments ++ items_from (k + 1) ts
  end.

Definition encode (size : rlc_um_sn_size) (i : item) : list Z :=
  match i with
  | item_whole s => rlc_um_write_data_pdu_header (mk_um_header full_sdu size 0 0) ++ s
  | item_piece k g =>
      rlc_um_write_data_pdu_header (mk_um_header (sg_si g) size (k mod cardinality (to_number_um_sn size)) (sg_so g)) ++ sg_payload g
  end.

(** The SI of a segment follows from where it lies. *)
Definition si_at (s : list Z) (g : rlc_rx_am_sdu_segment) : rlc_si_field :=
  if sg_so g =? 0 then first_segment else if seg_end g =? zlen s then last_segment else middle_segment.

(** Segment of a split SDU: some of its bytes, not all of them. *)
Definition piece_of (s : list Z) (g : rlc_rx_am_sdu_segment) : Prop :=
  slice_of s g /\ sg_si g = si_at s g /\ (sg_so g = 0 -> seg_end g < zlen s).

Definition sdu_size_ok (s : list Z) : Prop := 0 < zlen s <= 65535.

Definition transmission_ok (t : transmission) : Prop :=
  sdu_size_ok (sdu_of t) /\
  match t with
  | whole _ => True
  | split s segments => contiguous 0 segments /\ Forall (piece_of s) segments /\ last_end 0 segments = zlen s
  end.

Lemma splits_app ts ts' : splits (ts ++ ts') = splits ts ++ splits ts'.
Proof. apply omap_app. Qed.

Lemma nsplit_app ts ts' : nsplit (ts ++ ts') = nsplit ts + nsplit ts'.
Proof. unfold nsplit. by rewrite splits_app, zlen_app. Qed.

Lemma items_from_app k ts ts' : items_from k (ts ++ ts') = items_from k ts ++ items_from (k + nsplit ts) ts'.
Proof.
  revert k. induction ts as [|t ts IH]; intros k.
  - by rewrite Z.add_0_r.
  - destruct t as [s|s segs]; cbn [app items_from]; rewrite IH; unfold nsplit; simpl; [done|]. rewrite <- app_assoc, zlen_cons. do 3 f_equal. lia.
Qed.

Lemma nsplit_nonneg ts : 0 <= nsplit ts.
Proof. apply zlen_nonneg. Qed.

Lemma contiguous_app lo l g : contiguous lo (l ++ [g]) <-> contiguous lo l /\ sg_so g = last_end lo l.
Proof. revert lo. induction l as [|x l IH]; intros lo; simpl; [tauto|]. rewrite IH. tauto. Qed.

(** ** The invariant *)

(** The segments sent of the SDU under way. *)
Record tx_inv (ts : list transmission) (partial : list rlc_rx_am_sdu_segment) (e : rlc_tx_um_entity) : Prop := {
  ti_queue : SduQueue.inv (sdu_queue e);
  ti_sizes : Forall (fun s => sdu_size_ok (sdu_buf s)) (SduQueue.queue (sdu_queue e));
  ti_ts : Forall transmission_ok ts;
  ti_next : tx_next e = nsplit ts mod mod_ e;
  ti_contiguous : contiguous 0 partial;
  ti_pieces : Forall (piece_of (sdu_buf (sdu e))) partial;
  ti_so : next_so e = last_end 0 partial;
  ti_sdu : sdu_buf (sdu e) = [] \/ (sdu_size_ok (sdu_buf (sdu e)) /\ next_so e < zlen (sdu_buf (sdu e)))
}.

(** All PDUs handed out so far. *)
Definition sent (ts : list transmission) (partial : list rlc_rx_am_sdu_segment) : list item :=
  items_from 0 ts ++ map (item_piece (nsplit ts)) partial.

Lemma partial_end s l : Forall (piece_of s) l -> contiguous 0 l -> 0 <= last_end 0 l /\ (l = [] \/ 0 < last_end 0 l).
Proof.
  intros Hp Hc. assert (Forall (slice_of s) l) as Hs by (eapply Forall_impl; [exact Hp|by intros g [? _]]).
  destruct (contiguous_bytes s 0 l) as [_ H]; [lia|done|done|]. split; [lia|]. destruct l as [|g l]; [by left|right].
  simpl in *. destruct Hc as [E Hc]. apply Forall_cons in Hs as [Hg Hs]. destruct (contiguous_bytes s (seg_end g) l) as [_ H2]; [destruct Hg; unfold seg_end; lia|done|done|].
  destruct Hg. unfold seg_end in *. lia.
Qed.

(** ** Pulling a PDU *)

Definition sn_size (e : rlc_tx_um_entity) : rlc_um_sn_size := txum_sn_field_length (cfg e).

(** The SDUs taken for transmission, the one under way included. *)
Definition begun (ts : list transmission) (e : rlc_tx_um_entity) : list (list Z) :=
  map sdu_of ts ++ match sdu_buf (sdu e) with [] => [] | s => [s] end.
Definition waiting (e : rlc_tx_um_entity) : list (list Z) := map sdu_buf (SduQueue.live (sdu_queue e)).

(** No SDU of the FIFO was discarded. *)
Definition none_discarded (e : rlc_tx_um_entity) : Prop := SduQueue.live (sdu_queue e) = SduQueue.queue (sdu_queue e).

(** The FIFO holds discarded SDUs only. *)
Definition stale (e : rlc_tx_um_entity) : Prop := SduQueue.live (sdu_queue e) = [] /\ SduQueue.queue (sdu_queue e) <> [].

Lemma cons_not_nil {A} (x : A) l : x :: l <> [].
Proof. done. Qed.

Lemma wp_fetch_sdu ts partial e (Q : bool -> rlc_tx_um_entity -> list tx_event -> Prop) :
  tx_inv ts partial e ->
  (forall e' es, tx_inv ts partial e' -> cfg e' = cfg e -> sdu_buf (sdu e') <> [] ->
     begun ts e' ++ waiting e' = begun ts e ++ waiting e -> (none_discarded e -> none_discarded e') -> Q true e' es) ->
  (forall e', sdu_buf (sdu e) = [] -> SduQueue.live (sdu_queue e) = [] -> tx_inv ts partial e' -> cfg e' = cfg e ->
     (SduQueue.queue (sdu_queue e) = [] -> begun ts e' ++ waiting e' = begun ts e ++ waiting e) ->
     (none_discarded e -> none_discarded e') -> sdu e' = default (sdu e) (last (SduQueue.queue (sdu_queue e))) -> Q false e' []) ->
  wp fetch_sdu Q e.
Proof.
  intros Hi HQ1 HQ2. unfold fetch_sdu. do 2 wp_step. destruct (sdu_buf (sdu e)) as [|b bs] eqn:Eb.
  2: { wp_step. apply HQ1; try done. rewrite Eb. apply cons_not_nil. }
  assert (partial = []) as ->.
  { destruct partial as [|g l]; [done|]. pose proof (ti_pieces _ _ _ Hi) as Hp. rewrite Eb in Hp. apply Forall_cons in Hp as [[[] _] _].
    unfold seg_end in *. change (zlen []) with 0 in *. lia. }
  pose proof (ti_so _ _ _ Hi) as Hso. cbn in Hso. wp_step. apply wp_assert; [by apply Z.eqb_eq|].
  pose proof (SduQueue.read_into_loop_read (S (length (SduQueue.queue (sdu_queue e)))) (sdu e) (sdu_queue e) (ti_queue _ _ _ Hi) ltac:(lia)) as Hr.
  pose proof (SduQueue.read_spec _ (ti_queue _ _ _ Hi)) as Hs. pose proof (SduQueue.read_all_live _ (ti_queue _ _ _ Hi)) as Hnd. unfold SduQueue.read in Hs, Hnd. unfold SduQueue.read_into.
  destruct (SduQueue.read_into_loop _ _ _) as [[q s] ok]. destruct Hr as (Hr & Hlast & Hlive). rewrite Hr in Hs, Hnd. cbn [fst] in Hnd.
  assert (none_discarded e -> none_discarded (set_sdu s (set_sdu_queue q e))) as Hnone by (intros H; by apply Hnd).
  destruct Hs as (Q1 & Q2 & Q3 & Q4 & Q5 & popped & Q6). pose proof (ti_sizes _ _ _ Hi) as Hsz. rewrite Q6 in Hsz. apply Forall_app in Hsz as [Hsp Hsz].
  assert (sdu_buf s = [] \/ sdu_size_ok (sdu_buf s) -> tx_inv ts [] (set_sdu s (set_sdu_queue q e))) as Hinv.
  { intros Hbuf. split; try apply Hi; try done. simpl. destruct Hbuf as [|Hbuf]; [by left|right]. split; [done|]. unfold sdu_size_ok in Hbuf. lia. }
  assert (forall x, x ∈ SduQueue.queue (sdu_queue e) -> sdu_size_ok (sdu_buf x)) as Hall by (apply Forall_forall, Hi).
  do 2 wp_step. destruct ok.
  - assert (sdu_size_ok (sdu_buf s)) as Hok.
    { apply Hall. specialize (Hlive eq_refl). unfold SduQueue.live in Hlive. apply list_elem_of_In, filter_In in Hlive as [Hin _]. by apply list_elem_of_In. }
    assert (sdu_buf s <> []) as Hne by (intros E0; rewrite E0 in Hok; unfold sdu_size_ok in Hok; change (zlen []) with 0 in Hok; lia).
    assert (forall es, Q true (set_sdu s (set_sdu_queue q e)) es) as Hdone.
    { intros es. apply HQ1; [by apply Hinv; right|done|done| |done]. unfold begun, waiting. simpl. rewrite Eb, Q4.
      destruct (SduQueue.live (sdu_queue e)) as [|x l]; [done|]. injection Q3 as <-. destruct (sdu_buf s) eqn:E; [done|]. rewrite !app_nil_r, <- app_assoc. simpl. by rewrite E. }
    wp_step. cbn [when]. destruct (sdu_pdcp_sn s); wp_steps; apply Hdone.
  - wp_step. cbn [when]. wp_steps. specialize (Hlast eq_refl). apply HQ2; [done| | |done| |done|done].
    + by destruct (SduQueue.live (sdu_queue e)).
    + apply Hinv. destruct (SduQueue.queue (sdu_queue e)) as [|x l] eqn:Eq using rev_ind; [simpl in Hlast; subst s; by left|].
      rewrite last_snoc in Hlast. simpl in Hlast. subst s. right. apply Hall. rewrite elem_of_app. right. left.
    + intros E0. rewrite E0 in Hlast. simpl in Hlast. subst s. unfold begun, waiting. simpl. rewrite Eb, Q4.
      destruct (SduQueue.live (sdu_queue e)) eqn:El; [done|]. done.
Qed.

Lemma full_header_only size sn so sn' so' : rlc_um_write_data_pdu_header (mk_um_header full_sdu size sn so) = rlc_um_write_data_pdu_header (mk_um_header full_sdu size sn' so').
Proof. done. Qed.

(** The code expects the header size it then gets. *)
Lemma expected_header_len e grant_len si n : 0 <= next_so e < 65536 ->
  get_si_and_expected_header_size e (next_so e) (zlen (sdu_buf (sdu e))) grant_len = Some (si, n) ->
  zlen (rlc_um_write_data_pdu_header (mk_um_header si (sn_size e) (tx_next e) (u16 (next_so e)))) = n /\ 1 <= n.
Proof.
  intros Hso. rewrite um_write_length, u16_small by lia. unfold get_si_and_expected_header_size, rlc_um_nr_packed_length, head_len_first, head_len_not_first, head_len_full, sn_size.
  destruct (Z.eqb_spec (next_so e) 0) as [E0|E0].
  - destruct (_ <=? _); [by intros [= <- <-]|]. destruct (_ <=? _); [done|]. intros [= <- <-]. simpl. rewrite E0. by destruct (txum_sn_field_length (cfg e)).
  - destruct (grant_len <=? _); [done|]. destruct (_ <=? _); intros [= <- <-]; simpl; rewrite (proj2 (Z.eqb_neq _ _) E0); by destruct (txum_sn_field_length (cfg e)).
Qed.

(** What a PDU of the SDU under way carries. *)
Record fits (e : rlc_tx_um_entity) (grant_len : Z) (si : rlc_si_field) (n : Z) : Prop := {
  fi_grant : n < grant_len;
  fi_si : si = full_sdu /\ next_so e = 0 /\ zlen (sdu_buf (sdu e)) <= grant_len - n \/
    si = first_segment /\ next_so e = 0 /\ grant_len - n < zlen (sdu_buf (sdu e)) \/
    si = last_segment /\ next_so e <> 0 /\ zlen (sdu_buf (sdu e)) - next_so e <= grant_len - n \/
    si = middle_segment /\ next_so e <> 0 /\ grant_len - n < zlen (sdu_buf (sdu e)) - next_so e
}.

Lemma header_sizes e : 1 <= head_len_first e <= 2 /\ head_len_not_first e = head_len_first e + 2.
Proof. unfold head_len_first, head_len_not_first. by destruct (txum_sn_field_length (cfg e)). Qed.

Lemma get_si_fits e grant_len si n : 1 < grant_len < 2 ^ 32 -> 0 <= next_so e < zlen (sdu_buf (sdu e)) -> zlen (sdu_buf (sdu e)) <= 65535 ->
  get_si_and_expected_header_size e (next_so e) (zlen (sdu_buf (sdu e))) grant_len = Some (si, n) -> fits e grant_len si n.
Proof.
  intros Hg Hso Hlen. pose proof (header_sizes e) as [Hf Hn]. unfold get_si_and_expected_header_size, head_len_full, rlc_um_pdu_header_size_complete_sdu.
  destruct (Z.eqb_spec (next_so e) 0) as [E0|E0].
  - rewrite u32_small by lia. destruct (Z.leb_spec (zlen (sdu_buf (sdu e))) (grant_len - 1)).
    + intros [= <- <-]. split; [lia|]. left. split; [done|lia].
    + destruct (Z.leb_spec grant_len (head_len_first e)); [done|]. intros [= <- <-]. split; [lia|]. right; left. split; [done|lia].
  - destruct (Z.leb_spec grant_len (head_len_not_first e)); [done|]. rewrite !u32_small by lia.
    destruct (Z.leb_spec (zlen (sdu_buf (sdu e)) - next_so e) (grant_len - head_len_not_first e)); intros [= <- <-]; (split; [lia|]).
    + right; right; left. split; [done|lia].
    + right; right; right. split; [done|lia].
Qed.

(** The segment of [len] bytes that comes next. *)
Definition next_segment (e : rlc_tx_um_entity) (si : rlc_si_field) (len : Z) : rlc_rx_am_sdu_segment := mk_segment si (next_so e) (sub (next_so e) len (sdu_buf (sdu e))).

Lemma next_piece e si len : 0 <= next_so e -> 0 < len -> next_so e + len <= zlen (sdu_buf (sdu e)) -> si = si_at (sdu_buf (sdu e)) (next_segment e si len) ->
  (next_so e = 0 -> len < zlen (sdu_buf (sdu e))) -> (si = last_segment <-> next_so e + len = zlen (sdu_buf (sdu e))) ->
  let g := next_segment e si len in piece_of (sdu_buf (sdu e)) g /\ seg_len g = len /\ seg_end g = next_so e + len.
Proof.
  intros H0 Hl He Hsi Hpart Hlast g. assert (seg_len g = len) as El by (unfold seg_len; simpl; rewrite zlen_sub; lia).
  assert (seg_end g = next_so e + len) as Ee by (unfold seg_end; by rewrite El).
  split; [|done]. split; [split; rewrite ?El, ?Ee; simpl; try done; lia|]. split; [done|]. simpl. rewrite Ee. intros E0. specialize (Hpart E0). lia.
Qed.

(** A transmission goes one PDU further. *)
Record advances (ts : list transmission) (partial : list rlc_rx_am_sdu_segment) (e : rlc_tx_um_entity) (pdu : list Z) (e' : rlc_tx_um_entity) : Prop := {
  ad_cfg : cfg e' = cfg e;
  ad_sent : exists ts' partial' i, tx_inv ts' partial' e' /\ sent ts' partial' = sent ts partial ++ [i] /\ pdu = encode (sn_size e) i /\
    begun ts' e' = begun ts e;
  ad_queue : sdu_queue e' = sdu_queue e
}.

Lemma begun_snoc ts s e e' t : sdu_buf (sdu e) = s -> s <> [] -> sdu_buf (sdu e') = [] -> sdu_of t = s -> begun (ts ++ [t]) e' = begun ts e.
Proof. intros E Hs E' Et. unfold begun. rewrite E', map_app, app_nil_r, E. simpl. rewrite Et. by destruct s. Qed.

Lemma si_at_first s g : sg_so g = 0 -> si_at s g = first_segment.
Proof. intros E. unfold si_at. by rewrite E. Qed.

(** The last segment, or a complete SDU, ends a transmission. *)
Lemma advances_end ts partial e e' t pdu i :
  tx_inv ts partial e -> sdu_buf (sdu e) <> [] -> cfg e' = cfg e -> sdu_queue e' = sdu_queue e -> sdu_buf (sdu e') = [] -> next_so e' = 0 ->
  sdu_of t = sdu_buf (sdu e) -> transmission_ok t -> tx_next e' = nsplit (ts ++ [t]) mod mod_ e ->
  items_from (nsplit ts) [t] = map (item_piece (nsplit ts)) partial ++ [i] -> pdu = encode (sn_size e) i -> advances ts partial e pdu e'.
Proof.
  intros Hi Hne E1 E2 E3 E4 Et Hok En Hitems Hpdu. split; [done| |done].
  exists (ts ++ [t]), [], i. split; [|split; [|split; [done|by apply (begun_snoc _ (sdu_buf (sdu e)))]]].
  - split; rewrite ?E2, ?E3; try done; try apply Hi; [|by unfold mod_; rewrite E1; fold (mod_ e)|by left].
    apply Forall_app. split; [apply Hi|by apply Forall_singleton].
  - unfold sent. rewrite items_from_app, Z.add_0_l, Hitems. simpl. rewrite app_nil_r, <- app_assoc. done.
Qed.

(** Any other segment goes on with it. *)
Lemma advances_on ts partial e e' g pdu :
  tx_inv ts partial e -> sdu_buf (sdu e) <> [] -> cfg e' = cfg e -> sdu_queue e' = sdu_queue e -> sdu e' = sdu e -> next_so e' = seg_end g -> tx_next e' = tx_next e ->
  piece_of (sdu_buf (sdu e)) g -> sg_so g = next_so e -> seg_end g < zlen (sdu_buf (sdu e)) -> pdu = encode (sn_size e) (item_piece (nsplit ts) g) -> advances ts partial e pdu e'.
Proof.
  intros Hi Hne E1 E2 E3 E4 E5 Hg Eso Hend Hpdu. split; [done| |done].
  exists ts, (partial ++ [g]), (item_piece (nsplit ts) g). split; [|split; [|split; [done|unfold begun; by rewrite E3]]].
  - split; rewrite ?E2, ?E3, ?E4, ?E5; try apply Hi.
    + unfold mod_. rewrite E1. apply Hi.
    + apply contiguous_app. split; [apply Hi|]. by rewrite Eso, (ti_so _ _ _ Hi).
    + apply Forall_app. split; [apply Hi|by apply Forall_singleton].
    + by rewrite last_end_app.
    + right. split; [|done]. destruct (ti_sdu _ _ _ Hi) as [|[H _]]; done.
  - unfold sent. by rewrite map_app, app_assoc.
Qed.

Lemma wp_write_pdu ts partial e grant_len si n (Q : list Z -> rlc_tx_um_entity -> list tx_event -> Prop) :
  tx_inv ts partial e -> sdu_buf (sdu e) <> [] -> 1 < grant_len < 2 ^ 32 -> fits e grant_len si n ->
  zlen (rlc_um_write_data_pdu_header (mk_um_header si (sn_size e) (tx_next e) (u16 (next_so e)))) = n -> 1 <= n ->
  (forall pdu e' es, advances ts partial e pdu e' -> zlen pdu <= grant_len -> Q pdu e' es) ->
  wp (write_pdu grant_len (mk_um_header si (txum_sn_field_length (cfg e)) (tx_next e) (u16 (next_so e)))) Q e.
Proof.
  intros Hi Hne Hg Hfit Hn Hn1 HQ. fold (sn_size e). destruct (ti_sdu _ _ _ Hi) as [|[Hsz Hlt]]; [done|]. unfold sdu_size_ok in Hsz.
  destruct (partial_end _ _ (ti_pieces _ _ _ Hi) (ti_contiguous _ _ _ Hi)) as [Hso Hpos]. rewrite <- (ti_so _ _ _ Hi) in Hso, Hpos.
  pose proof (fi_grant _ _ _ _ Hfit) as Hgn. unfold write_pdu. do 3 wp_step. rewrite Hn. apply wp_assert; [by apply Z.leb_le; lia|].
  rewrite (u32_small (grant_len - n)), (u32_small (zlen _ - next_so e)) by lia.
  set (buf := sdu_buf (sdu e)) in *. set (len := Z.min (zlen buf - next_so e) (grant_len - n)).
  replace (if zlen buf - next_so e <=? grant_len - n then zlen buf - next_so e else grant_len - n) with len
    by (unfold len; destruct (Z.leb_spec (zlen buf - next_so e) (grant_len - n)); lia).
  wp_step. apply wp_assert; [by apply Z.leb_le; lia|]. replace (Z.min len (grant_len - n)) with len by lia.
  assert (zlen (sub (next_so e) len buf) = len) as El by (rewrite zlen_sub; lia). rewrite El, Z.eqb_refl, (proj2 (Z.eqb_neq len 0)) by lia. cbn [orb negb].
  set (pdu := rlc_um_write_data_pdu_header _ ++ sub (next_so e) len buf).
  assert (zlen pdu <= grant_len) as Hpl by (unfold pdu; rewrite zlen_app, Hn, El; lia). unfold finish_pdu.
  assert (Hpiece := next_piece e si len Hso ltac:(lia) ltac:(fold buf; lia)). cbv zeta in Hpiece. fold buf in Hpiece. set (g := next_segment e si len) in *.
  assert (si <> full_sdu -> pdu = encode (sn_size e) (item_piece (nsplit ts) g)) as Hpdu.
  { intros _. unfold pdu, encode, g. simpl. rewrite (ti_next _ _ _ Hi), u16_small by lia. done. }
  assert (seg_end g = next_so e + len) as Eend by (unfold seg_end, seg_len; simpl; fold buf; lia).
  destruct (fi_si _ _ _ _ Hfit) as [(-> & E0 & Hle)|[(-> & E0 & Hle)|[(-> & E0 & Hle)|(-> & E0 & Hle)]]]; fold buf in Hle; cbn [um_si]; wp_steps; apply HQ; try done.
  - assert (sub (next_so e) len buf = buf) as Eb by (rewrite E0; replace len with (zlen buf) by lia; apply sub_all).
    assert (partial = []) as -> by (destruct Hpos; [done|lia]).
    apply (advances_end _ _ _ _ (whole buf) _ (item_whole buf)); try done; [rewrite nsplit_app; change (nsplit [whole buf]) with 0; rewrite Z.add_0_r; apply Hi|unfold pdu; by rewrite Eb].
  - assert (partial = []) as -> by (destruct Hpos; [done|lia]).
    destruct Hpiece as (Hg1 & Hg2 & Hg3); [by rewrite si_at_first by done|lia|split; [done|lia]|].
    apply (advances_on _ _ _ _ g); try done; [rewrite Eend; apply u32_small; lia|rewrite Eend; fold buf; lia|by apply Hpdu].
  - destruct Hpiece as (Hg1 & Hg2 & Hg3); [|lia|split; [lia|done]|].
    { unfold si_at. simpl. rewrite (proj2 (Z.eqb_neq _ _) E0), Eend, (proj2 (Z.eqb_eq (next_so e + len) _)) by lia. done. }
    apply (advances_end _ _ _ _ (split buf (partial ++ [g])) _ (item_piece (nsplit ts) g)); try done; [| |simpl; by rewrite app_nil_r, map_app|by apply Hpdu].
    + split; [done|]. split; [apply contiguous_app; split; [apply Hi|simpl; by rewrite (ti_so _ _ _ Hi)]|].
      split; [apply Forall_app; split; [apply Hi|by apply Forall_singleton]|]. rewrite last_end_app. simpl. lia.
    + rewrite nsplit_app. change (nsplit [split buf (partial ++ [g])]) with 1.
      transitivity ((tx_next e + 1) mod mod_ e); [done|]. rewrite (ti_next _ _ _ Hi). apply Zplus_mod_idemp_l.
  - destruct Hpiece as (Hg1 & Hg2 & Hg3); [|lia|split; [done|lia]|].
    { unfold si_at. simpl. rewrite (proj2 (Z.eqb_neq _ _) E0), Eend, (proj2 (Z.eqb_neq (next_so e + len) _)) by lia. done. }
    apply (advances_on _ _ _ _ g); try done; [rewrite Eend; apply u32_small; lia|rewrite Eend; fold buf; lia|by apply Hpdu].
Qed.

(** There is something to send: an SDU under way or one waiting. *)
Definition has_data (e : rlc_tx_um_entity) : Prop := sdu_buf (sdu e) <> [] \/ SduQueue.live (sdu_queue e) <> [].

(** The result of [pull_pdu]: at most one PDU, within the grant, the next one of the transmissions. *)
Record pulled (ts : list transmission) (partial : list rlc_rx_am_sdu_segment) (e : rlc_tx_um_entity) (grant_len : Z) (pdu : list Z) (e' : rlc_tx_um_entity) : Prop := {
  pu_cfg : cfg e' = cfg e;
  pu_grant : zlen pdu <= grant_len;
  pu_sent : exists ts' partial', tx_inv ts' partial' e' /\
    (pdu = [] /\ sent ts' partial' = sent ts partial \/ exists i, pdu = encode (sn_size e) i /\ sent ts' partial' = sent ts partial ++ [i]) /\
    (sdu_buf (sdu e) <> [] \/ ~ stale e -> begun ts' e' ++ waiting e' = begun ts e ++ waiting e);
  pu_live : none_discarded e -> none_discarded e';
  pu_progress : has_data e -> head_len_not_first e < grant_len -> pdu <> []
}.

Lemma umtx_pulled_nothing ts partial e grant_len : 0 <= grant_len -> tx_inv ts partial e -> (has_data e -> grant_len <= head_len_not_first e) -> pulled ts partial e grant_len [] e.
Proof.
  intros Hg Hi Hno. split; [done|change (zlen []) with 0; lia| |done|intros Hd Hlt; exfalso; specialize (Hno Hd); lia]. exists ts, partial. split; [done|]. by split; [left|].
Qed.

Lemma encode_not_nil size i : encode size i <> [].
Proof.
  assert (exists h x, encode size i = rlc_um_write_data_pdu_header h ++ x) as (h & x & ->) by (destruct i; do 2 eexists; reflexivity).
  intros [E _]%app_nil. apply (f_equal zlen) in E. rewrite um_write_length in E. pose proof (um_packed_length_range h). change (zlen []) with 0 in E. lia.
Qed.

Lemma wp_umtx_pull_pdu ts partial e grant_len (Q : list Z -> rlc_tx_um_entity -> list tx_event -> Prop) :
  tx_inv ts partial e -> 0 <= grant_len < 2 ^ 32 ->
  (forall pdu e' es, pulled ts partial e grant_len pdu e' -> Q pdu e' es) -> wp (pull_pdu grant_len) Q e.
Proof.
  intros Hi Hg HQ. pose proof (header_sizes e) as [Hf Hn]. unfold pull_pdu, head_len_full, rlc_um_pdu_header_size_complete_sdu. wp_step; bool_prop; wp_step.
  { apply HQ, umtx_pulled_nothing; [lia|done|]. lia. }
  eapply wp_fetch_sdu; [done| |].
  - intros e1 es1 Hi1 Ec Hne Hb Hnd. cbn [negb]. destruct (header_sizes e1) as [Hf1 Hn1]. do 2 wp_step.
    destruct (ti_sdu _ _ _ Hi1) as [|[Hsz Hlt]]; [done|]. unfold sdu_size_ok in Hsz.
    destruct (partial_end _ _ (ti_pieces _ _ _ Hi1) (ti_contiguous _ _ _ Hi1)) as [Hso _]. rewrite <- (ti_so _ _ _ Hi1) in Hso.
    assert (head_len_not_first e1 = head_len_not_first e) as Eh by (unfold head_len_not_first; by rewrite Ec).
    destruct (get_si_and_expected_header_size e1 _ _ grant_len) as [[si n]|] eqn:Es.
    + destruct (expected_header_len e1 grant_len si n) as [En Hn']; [lia|done|]. apply get_si_fits in Es; [|lia|lia|lia].
      eapply wp_write_pdu; [exact Hi1|done|lia|exact Es|exact En|done|]. intros pdu e2 es2 [A1 (ts' & partial' & i & B1 & B2 & B3 & B4) A3] Hpl. apply HQ. split; [congruence|done| |unfold none_discarded in *; by rewrite A3|].
      * exists ts', partial'. split; [done|]. split; [|intros _; rewrite B4, <- Hb; unfold waiting; by rewrite A3]. right. exists i. split; [|done]. rewrite B3. unfold sn_size. by rewrite Ec.
      * intros _ _. rewrite B3. apply encode_not_nil.
    + wp_step. apply HQ. split; [done|change (zlen []) with 0; lia| |done|].
      * exists ts, partial. split; [done|]. split; [by left|done].
      * intros _ Hlt2. exfalso. unfold get_si_and_expected_header_size in Es. destruct (_ =? 0).
        -- destruct (_ <=? _); [done|]. destruct (Z.leb_spec grant_len (head_len_first e1)); [lia|done].
        -- destruct (Z.leb_spec grant_len (head_len_not_first e1)); [lia|]. by destruct (_ <=? _).
  - intros e1 Eb El Hi1 Ec Hrest Hnd _. cbn [negb]. wp_step. apply HQ. split; [done|change (zlen []) with 0; lia| |done|].
    + exists ts, partial. split; [done|]. split; [by left|]. intros [?|Hst]; [done|]. apply Hrest.
      destruct (SduQueue.queue (sdu_queue e)) eqn:Eq; [done|]. destruct Hst. split; [done|]. by rewrite Eq.
    + intros [?|?]; done.
Qed.

(** An SDU that fits goes out whole. *)
Lemma wp_pull_whole ts e grant_len (Q : list Z -> rlc_tx_um_entity -> list tx_event -> Prop) :
  tx_inv ts [] e -> sdu_buf (sdu e) <> [] -> zlen (sdu_buf (sdu e)) + 1 <= grant_len < 2 ^ 32 ->
  (forall e' es, Q (encode (sn_size e) (item_whole (sdu_buf (sdu e)))) e' es) -> wp (pull_pdu grant_len) Q e.
Proof.
  intros Hi Hne Hg HQ. destruct (ti_sdu _ _ _ Hi) as [|[Hsz _]]; [done|]. unfold sdu_size_ok in Hsz. pose proof (ti_so _ _ _ Hi) as Hso. cbn in Hso.
  unfold pull_pdu, head_len_full, rlc_um_pdu_header_size_complete_sdu. rewrite (proj2 (Z.leb_gt _ _)) by lia. wp_step. unfold fetch_sdu. do 2 wp_step.
  destruct (sdu_buf (sdu e)) as [|b bs] eqn:Eb; [done|]. wp_step. cbn [negb]. do 2 wp_step. rewrite Eb, Hso.
  assert (get_si_and_expected_header_size e 0 (zlen (b :: bs)) grant_len = Some (full_sdu, 1)) as ->.
  { unfold get_si_and_expected_header_size, head_len_full, rlc_um_pdu_header_size_complete_sdu. rewrite u32_small by lia. simpl. by rewrite (proj2 (Z.leb_le _ _)) by lia. }
  set (h := mk_um_header _ _ _ _). assert (zlen (rlc_um_write_data_pdu_header h) = 1) as Hh by (by rewrite um_write_length).
  unfold write_pdu. do 3 wp_step. rewrite Hh, Eb, Hso, Z.sub_0_r, !u32_small by lia. apply wp_assert; [by apply Z.leb_le; lia|].
  rewrite (proj2 (Z.leb_le (zlen (b :: bs)) _)) by lia. wp_step. apply wp_assert; [by apply Z.leb_le; lia|]. rewrite Z.min_l by lia. rewrite sub_all, Z.eqb_refl, (proj2 (Z.eqb_neq _ 0)) by lia.
  cbn [orb negb]. unfold finish_pdu. cbn [h um_si si_eqb]. wp_steps; apply HQ.
Qed.
