(* ===== verification/RlcTxUmSteps.v ===== *)
(** * RLC UM transmitting entity: the other operations, and runs

    SDUs and discards from the upper layer, buffer state reports, construction; and [tx_run], the runs of an entity with the PDUs
    it handed out and the SDUs it accepted. *)

From S2P Require Import Prelude Effects RlcConfig RlcAmPdu Segments RlcUmPdu PdcpSn SduQueue RlcTxUm RlcTxUmInv.
Import UmHeader RlcTxUm.
Open Scope Z_scope.
Open Scope entity_scope.

(** The members that decide what is sent are as before. *)
Record same_sending (e e' : rlc_tx_um_entity) : Prop := {
  ss_cfg : cfg e' = cfg e;
  ss_sdu : sdu e' = sdu e;
  ss_next : tx_next e' = tx_next e;
  ss_so : next_so e' = next_so e
}.

Lemma umtx_same_tx_inv ts partial e e' : same_sending e e' -> SduQueue.inv (sdu_queue e') -> Forall (fun s => sdu_size_ok (sdu_buf s)) (SduQueue.queue (sdu_queue e')) ->
  tx_inv ts partial e -> tx_inv ts partial e'.
Proof. intros [S1 S2 S3 S4] Hq Hs Hi. assert (mod_ e' = mod_ e) as Em by (unfold mod_; by rewrite S1). split; rewrite ?S2, ?S3, ?S4, ?Em; try apply Hi; done. Qed.

Lemma begun_same ts e e' : same_sending e e' -> begun ts e' = begun ts e.
Proof. intros [_ S2 _ _]. unfold begun. by rewrite S2. Qed.

Lemma wp_umtx_handle_changed_buffer_state deferred e : wp (handle_changed_buffer_state deferred) (fun _ e' _ => same_sending e e' /\ sdu_queue e' = sdu_queue e) e.
Proof. unfold handle_changed_buffer_state. wp_step. wp_step. wp_step; [|done]. wp_steps; done. Qed.

(** The SDU as it enters the queue: the retransmission flag is ignored. *)
Definition incoming (e : rlc_tx_um_entity) (now : Z) (buf : list Z) : rlc_sdu := mk_sdu buf false (get_pdcp_sn buf (txum_pdcp_sn_len (cfg e)) false) now.

Lemma umtx_incoming_ok e now buf : Forall is_byte buf -> sdu_size_ok buf -> SduQueue.sdu_ok (incoming e now buf).
Proof.
  intros Hb [_ Hs]. split; [simpl; lia|]. intros p Hp. simpl in Hp. apply get_pdcp_sn_range in Hp; [|done]. unfold SduQueue.STATE_DISCARDED. lia.
Qed.

(** Whether the entity announced the SDU as accepted. *)
Definition is_accepted (ev : tx_event) : bool := match ev with metrics_add_sdus _ _ => true | _ => false end.

Lemma no_acceptance deferred e (Q : unit -> rlc_tx_um_entity -> list tx_event -> Prop) :
  (forall e' es, same_sending e e' -> sdu_queue e' = sdu_queue e -> existsb is_accepted es = false -> Q tt e' es) -> wp (handle_changed_buffer_state deferred) Q e.
Proof. intros HQ. unfold handle_changed_buffer_state. do 2 wp_step. wp_step; [|by apply HQ]. wp_step. wp_step. wp_step; [wp_step|]; by apply HQ. Qed.

Lemma wp_umtx_handle_sdu ts partial now deferred buf is_retx e :
  tx_inv ts partial e -> Forall is_byte buf -> sdu_size_ok buf ->
  wp (handle_sdu now deferred buf is_retx) (fun _ e' es => tx_inv ts partial e' /\ same_sending e e' /\
    existsb is_accepted es = SduQueue.accepts (sdu_queue e) (incoming e now buf) /\
    waiting e' = waiting e ++ (if existsb is_accepted es then [buf] else []) /\
    (none_discarded e -> none_discarded e')) e.
Proof.
  intros Hi Hb Hs. unfold handle_sdu. do 2 wp_step. fold (incoming e now buf). pose proof (SduQueue.write_spec _ _ (ti_queue _ _ _ Hi) (umtx_incoming_ok e now buf Hb Hs)) as Hw.
  destruct (SduQueue.write _ _) as [q ok]. destruct Hw as (Q1 & _ & -> & Q2 & Q3). do 2 wp_step. set (e1 := set_sdu_queue q e).
  assert (same_sending e e1) as S1 by done. assert (tx_inv ts partial e1) as Hi1.
  { eapply umtx_same_tx_inv; [done|done| |done]. simpl. rewrite Q2. apply Forall_app. split; [apply Hi|]. destruct (SduQueue.accepts _ _); [by apply Forall_singleton|constructor]. }
  assert (waiting e1 = waiting e ++ (if SduQueue.accepts (sdu_queue e) (incoming e now buf) then [buf] else [])) as Ew.
  { unfold waiting. simpl. rewrite Q3, map_app. by destruct (SduQueue.accepts _ _). }
  destruct (SduQueue.accepts _ _); wp_step.
  - wp_step. apply no_acceptance. intros e2 es S2 Eq Hno. cbn [existsb is_accepted app orb]. destruct S1, S2.
    assert (same_sending e e2) as S by (split; congruence). split_and!; try done; [|by unfold waiting; rewrite Eq|intros E; unfold none_discarded in *; rewrite Eq; simpl; by rewrite Q3, Q2, E].
    eapply umtx_same_tx_inv; [done|by rewrite Eq|rewrite Eq; apply Hi1|done].
  - split_and!; try done. intros E. unfold none_discarded in *. simpl. by rewrite Q3, Q2, E.
Qed.

Lemma wp_umtx_discard_sdu ts partial deferred p e :
  tx_inv ts partial e -> 0 <= p < SduQueue.STATE_DISCARDED ->
  wp (discard_sdu deferred p) (fun _ e' es => tx_inv ts partial e' /\ same_sending e e' /\
    SduQueue.live (sdu_queue e') = List.filter (fun s => negb (SduQueue.carries p s)) (SduQueue.live (sdu_queue e))) e.
Proof.
  intros Hi Hp. unfold discard_sdu. do 2 wp_step. pose proof (SduQueue.try_discard_spec _ p (ti_queue _ _ _ Hi) Hp) as Hd.
  destruct (SduQueue.try_discard _ _) as [q ok]. destruct Hd as (Q1 & _ & Q2 & _ & Q3). do 2 wp_step. set (e1 := set_sdu_queue q e).
  assert (tx_inv ts partial e1) as Hi1 by (eapply (umtx_same_tx_inv _ _ e); [done|done|simpl; rewrite Q2; apply Hi|done]).
  wp_step; wp_step.
  - wp_step. eapply wp_mono; [apply wp_umtx_handle_changed_buffer_state|]. cbv beta. intros _ e2 es ([S1 S2 S3 S4] & Eq). rewrite Eq. split_and!; [|by split|done].
    eapply umtx_same_tx_inv; [done|by rewrite Eq|rewrite Eq; apply Hi1|done].
  - by split_and!.
Qed.

(** ** Buffer state *)

(** Bytes to send: the queued SDUs with their smallest header, the rest of the SDU under way with the largest. *)
Definition bytes_to_send (e : rlc_tx_um_entity) : Z :=
  SduQueue.total_bytes (SduQueue.live (sdu_queue e)) + zlen (SduQueue.live (sdu_queue e)) * head_len_full +
  match sdu_buf (sdu e) with [] => 0 | buf => zlen buf - next_so e + head_len_not_first e end.
(** The arrival of the oldest of them. *)
Definition oldest_arrival (e : rlc_tx_um_entity) : option Z :=
  match sdu_buf (sdu e) with
  | [] => sdu_time_of_arrival <$> hd_error (SduQueue.live (sdu_queue e))
  | _ => Some (sdu_time_of_arrival (sdu e))
  end.

(** Asking for the buffer state may drop discarded SDUs from the FIFO, no more. *)
Definition refreshed (e e' : rlc_tx_um_entity) : Prop := same_sending e e' /\ SduQueue.live (sdu_queue e') = SduQueue.live (sdu_queue e) /\ prev_buffer_state e' = prev_buffer_state e /\
  (none_discarded e -> none_discarded e').

Lemma wp_umtx_get_buffer_state ts partial e (Q : rlc_buffer_state -> rlc_tx_um_entity -> list tx_event -> Prop) : tx_inv ts partial e ->
  (forall e', tx_inv ts partial e' -> refreshed e e' -> Q (mk_buffer_state (u32 (bytes_to_send e)) (oldest_arrival e)) e' []) -> wp get_buffer_state Q e.
Proof.
  intros Hi HQ. unfold get_buffer_state. do 2 wp_step. rewrite SduQueue.get_state_live by apply Hi. cbn [SduQueue.n_sdus SduQueue.n_bytes].
  assert (forall e1 seg toa, tx_inv ts partial e1 -> refreshed e e1 ->
    u32 (u32 (SduQueue.total_bytes (SduQueue.live (sdu_queue e)) + zlen (SduQueue.live (sdu_queue e)) * head_len_full) + seg) = u32 (bytes_to_send e) -> toa = oldest_arrival e ->
    wp (let bs := mk_buffer_state (u32 (u32 (SduQueue.total_bytes (SduQueue.live (sdu_queue e)) + zlen (SduQueue.live (sdu_queue e)) * head_len_full) + seg)) toa in
        when (pending_bytes bs <=? MAX_DL_PDU_LENGTH) (modify (set_suspend_bs_notif_barring true)) ;;; ret bs) Q e1) as Hend.
  { intros e1 seg toa Hi1 [Hs Hl] Hb ->. cbv zeta. rewrite Hb. wp_step. wp_step; [wp_step|]; wp_step; (apply HQ;
      [eapply umtx_same_tx_inv; [|apply Hi1|apply Hi1|exact Hi1]; done|split; [destruct Hs; by split|done]]). }
  wp_step. destruct (sdu_buf (sdu e)) as [|b bs] eqn:Eb.
  - pose proof (SduQueue.front_spec _ (ti_queue _ _ _ Hi)) as Hf. pose proof (SduQueue.front_all_live _ (ti_queue _ _ _ Hi)) as Hnd.
    destruct (SduQueue.front (sdu_queue e)) as [q next].
    destruct Hf as (F1 & _ & F3 & F4 & _ & popped & F6). do 3 wp_step. cbn [fst snd].
    pose proof (ti_sizes _ _ _ Hi) as Hsz. rewrite F6 in Hsz. apply Forall_app in Hsz as [_ Hsz].
    apply Hend; [by eapply umtx_same_tx_inv; [|done|done|exact Hi]| | |].
    + split; [done|]. split; [done|]. split; [done|]. intros Hn. unfold none_discarded in *. simpl. rewrite <- (Hnd Hn) in Hn. exact Hn.
    + unfold bytes_to_send. rewrite Eb, !Z.add_0_r. unfold u32. apply Z.mod_mod. lia.
    + unfold oldest_arrival. by rewrite Eb, F3.
  - wp_step. cbn [fst snd]. apply Hend; [done|done| |].
    + unfold bytes_to_send. rewrite Eb. unfold u32. rewrite <- Zplus_mod. done.
    + unfold oldest_arrival. by rewrite Eb.
Qed.

Lemma wp_umtx_update_mac_buffer_state ts partial e (Q : unit -> rlc_tx_um_entity -> list tx_event -> Prop) : tx_inv ts partial e ->
  (let bs := mk_buffer_state (u32 (bytes_to_send e)) (oldest_arrival e) in
   forall e' es, tx_inv ts partial e' -> same_sending e e' -> SduQueue.live (sdu_queue e') = SduQueue.live (sdu_queue e) -> prev_buffer_state e' = bs -> (none_discarded e -> none_discarded e') ->
     (pending_bytes bs <= MAX_DL_PDU_LENGTH -> es = [on_buffer_state_update bs]) -> (es = [] \/ es = [on_buffer_state_update bs]) -> Q tt e' es) -> wp update_mac_buffer_state Q e.
Proof.
  intros Hi HQ. cbv zeta in HQ. unfold update_mac_buffer_state. do 2 wp_step. set (e0 := set_pending_buffer_state false e).
  assert (tx_inv ts partial e0) as Hi0 by (eapply (umtx_same_tx_inv _ _ e); [done|apply Hi..|done]).
  wp_step. eapply wp_umtx_get_buffer_state; [exact Hi0|]. intros e1 Hi1 [S1 [Hl1 [Hp1 Hnd]]]. change (bytes_to_send e0) with (bytes_to_send e). change (oldest_arrival e0) with (oldest_arrival e).
  set (bs := mk_buffer_state _ _) in *. do 3 wp_step. wp_step; bool_prop.
  - do 4 wp_step. apply HQ; [|destruct S1; by split|done|done|done|done|by right]. eapply (umtx_same_tx_inv _ _ e1); [done|apply Hi1|apply Hi1|done].
  - wp_step. apply HQ; [|destruct S1; by split|done|done|done| |by left]; [eapply (umtx_same_tx_inv _ _ e1); [done|apply Hi1|apply Hi1|done]|].
    intros Hle. exfalso. lia.
Qed.

(** ** Runs *)

Definition config_ok (c : rlc_tx_um_config) : Prop :=
  txum_pdcp_sn_len c <> pdcp_size_invalid /\ 0 < txum_queue_size c < 2 ^ 32 /\ 0 <= txum_queue_size_bytes c < 2 ^ 32.

(** What the upper layers, the lower layer and the cell executor ask of the entity. *)
Inductive tx_op :=
| op_sdu (now : Z) (deferred : bool) (buf : list Z) (is_retx : bool)
| op_discard (deferred : bool) (pdcp_sn : Z)
| op_pull (grant_len : Z)
| op_report
| op_stop.

Definition op_ok (o : tx_op) : Prop :=
  match o with
  | op_sdu _ _ buf _ => Forall is_byte buf /\ sdu_size_ok buf
  | op_discard _ p => 0 <= p < SduQueue.STATE_DISCARDED
  | op_pull g => 0 <= g < 2 ^ 32
  | op_report | op_stop => True
  end.

(** The PDU handed out, empty for none and for the other operations. *)
Definition perform (o : tx_op) : H (list Z) :=
  match o with
  | op_sdu now deferred buf is_retx => handle_sdu now deferred buf is_retx ;;; ret []
  | op_discard deferred p => discard_sdu deferred p ;;; ret []
  | op_pull g => pull_pdu g
  | op_report => update_mac_buffer_state ;;; ret []
  | op_stop => stop ;;; ret []
  end.

Definition accepted (o : tx_op) (es : list tx_event) : list (list Z) :=
  match o with op_sdu _ _ buf _ => if existsb is_accepted es then [buf] else [] | _ => [] end.
Definition pdus_of (pdu : list Z) : list (list Z) := match pdu with [] => [] | _ => [pdu] end.
Definition is_discard (o : tx_op) : bool := match o with op_discard _ _ => true | _ => false end.

(** A run: the entity, the operations, the PDUs handed out, the SDUs accepted. *)
Inductive tx_run (config : rlc_tx_um_config) : rlc_tx_um_entity -> list tx_op -> list (list Z) -> list (list Z) -> Prop :=
| run_create e : create config = Some e -> tx_run config e [] [] []
| run_op e os pdus sdus o pdu e' es : tx_run config e os pdus sdus -> op_ok o -> perform o e = Ok (pdu, e', es) ->
    tx_run config e' (os ++ [o]) (pdus ++ pdus_of pdu) (sdus ++ accepted o es).

(** What a run has sent, and what is left of the accepted SDUs when none was discarded. *)
Definition run_state (config : rlc_tx_um_config) (e : rlc_tx_um_entity) (discards : bool) (pdus sdus : list (list Z)) : Prop :=
  cfg e = config /\ exists ts partial, tx_inv ts partial e /\ pdus = map (encode (txum_sn_field_length config)) (sent ts partial) /\
    (discards = false -> none_discarded e /\ begun ts e ++ waiting e = sdus).

Lemma create_run_state config : config_ok config -> exists e, create config = Some e /\ run_state config e false [] [].
Proof.
  intros (H1 & H2 & H3). unfold create. rewrite bool_decide_eq_false_2 by done. eexists. split; [done|]. split; [done|].
  destruct (SduQueue.create_queue_inv _ _ H2 H3) as [Hq Hl]. exists [], []. split; [|done]. split; try done. by left.
Qed.

Lemma same_run_state config e e' discards pdus sdus ts partial : same_sending e e' -> tx_inv ts partial e' -> waiting e' = waiting e ->
  (none_discarded e -> none_discarded e') -> cfg e = config -> pdus = map (encode (txum_sn_field_length config)) (sent ts partial) ->
  (discards = false -> none_discarded e /\ begun ts e ++ waiting e = sdus) -> run_state config e' discards (pdus ++ []) (sdus ++ []).
Proof.
  intros S Hi Hw Hn Hc Hp Hd. rewrite !app_nil_r. split; [rewrite (ss_cfg _ _ S); done|]. exists ts, partial. split; [done|]. split; [done|].
  intros E. destruct (Hd E) as [H1 H2]. split; [auto|]. by rewrite (begun_same _ _ _ S), Hw.
Qed.

Lemma bind_ret_nil (m : H unit) e (pdu : list Z) e' es : (m ;;; ret (@nil Z)) e = Ok (pdu, e', es) -> pdu = [].
Proof. unfold bind, ret. destruct (m e) as [[[[] e1] es1]|]; [|done]. by intros [= <- _ _]. Qed.

(** Every operation succeeds and goes from state to state. *)
Lemma wp_perform config e discards pdus sdus o : run_state config e discards pdus sdus -> op_ok o ->
  wp (perform o) (fun pdu e' es => run_state config e' (discards || is_discard o) (pdus ++ pdus_of pdu) (sdus ++ accepted o es)) e.
Proof.
  intros (Hc & ts & partial & Hi & Hp & Hd) Ho. destruct o as [now deferred buf is_retx|deferred p|g| |]; cbn [perform op_ok is_discard] in *; rewrite ?orb_false_r.
  - destruct Ho as [Hb Hs]. wp_step. eapply wp_mono; [by eapply wp_umtx_handle_sdu|]. cbv beta. intros _ e' es (Hi' & S & _ & Hw & Hn). wp_step. rewrite !app_nil_r.
    split; [rewrite (ss_cfg _ _ S); done|]. exists ts, partial. split; [done|]. split; [done|]. intros E. destruct (Hd E) as [H1 H2]. split; [auto|].
    cbn [accepted]. by rewrite (begun_same _ _ _ S), Hw, app_assoc, H2.
  - wp_step. eapply wp_mono; [by eapply wp_umtx_discard_sdu|]. cbv beta. intros _ e' es (Hi' & S & _). wp_step. rewrite !app_nil_r, orb_true_r.
    split; [rewrite (ss_cfg _ _ S); done|]. by exists ts, partial.
  - eapply wp_umtx_pull_pdu; [done|done|]. intros pdu e' es [P1 P2 (ts' & partial' & Hi' & Hsent & Hbegun) P4 _]. cbn [accepted]. rewrite app_nil_r.
    split; [congruence|]. exists ts', partial'. split; [done|]. split.
    + destruct Hsent as [[-> ->]|(i & -> & ->)]; [by rewrite app_nil_r|]. rewrite map_app, <- Hp. unfold sn_size. rewrite Hc. simpl.
      pose proof (encode_not_nil (txum_sn_field_length config) i). by destruct (encode (txum_sn_field_length config) i) eqn:E.
    + intros E. destruct (Hd E) as [H1 H2]. split; [auto|]. rewrite Hbegun; [done|]. right. intros [S1 S2]. unfold none_discarded in H1. congruence.
  - wp_step. eapply wp_umtx_update_mac_buffer_state; [done|]. cbv zeta. intros e' es Hi' S Hl _ Hn _ _. wp_step.
    eapply (same_run_state _ e _ _ _ _ ts partial); try done. unfold waiting. by rewrite Hl.
  - wp_step. unfold stop. do 2 wp_step. wp_step; [wp_step; wp_step; wp_step|]; wp_step;
    (eapply (same_run_state _ e _ _ _ _ ts partial); [done|eapply (umtx_same_tx_inv _ _ e); [done|apply Hi|apply Hi|done]|done..]).
Qed.

Lemma tx_run_state config e os pdus sdus : config_ok config -> tx_run config e os pdus sdus -> run_state config e (existsb is_discard os) pdus sdus.
Proof.
  intros Hok. induction 1 as [e He|e os pdus sdus o pdu e' es _ IH Ho E].
  - destruct (create_run_state config Hok) as (e' & E & Hr). rewrite He in E. by injection E as <-.
  - pose proof (wp_perform _ _ _ _ _ o IH Ho) as Hw. unfold wp in Hw. rewrite E in Hw. rewrite existsb_app. simpl. by rewrite orb_false_r.
Qed.
