(* ===== verification/RlcTm.v ===== *)
(** * RLC TM entities

    Models [lib/rlc/rlc_tx_tm_entity.{h,cpp}] and [lib/rlc/rlc_rx_tm_entity.{h,cpp}]: SDUs pass unchanged, one per PDU, without header.
    As in [RlcTxUm], a span is its length and calls to neighbours are events. *)

From S2P Require Import Prelude Effects RlcConfig RlcRxAm SduQueue RlcTxUm.
Open Scope Z_scope.
Open Scope entity_scope.

Record rlc_tx_tm_config := { txtm_queue_size : Z; txtm_queue_size_bytes : Z }.

Module RlcTxTm.

Record rlc_tx_tm_entity := mk_entity {
  cfg : rlc_tx_tm_config;
  sdu_queue : SduQueue.rlc_sdu_queue;
  sdu : rlc_sdu;
  pending_buffer_state : bool;
  stopped : bool
}.

Inductive tx_event :=
| on_transmitted_sdu (pdcp_sn desired_buf_size : Z)
| on_buffer_state_update (bs : rlc_buffer_state)
| pcap_push_pdu (pdu : list Z)
| defer_update_mac_buffer_state
| execute_stop_low_metrics_timer
| metrics_add_sdus (n bytes : Z)
| metrics_add_lost_sdus (n : Z)
| metrics_add_discard_failure (n : Z)
| metrics_add_small_alloc (n : Z)
| metrics_add_pdus_no_segmentation (n bytes : Z).

Definition set_sdu_queue (v : SduQueue.rlc_sdu_queue) (e : rlc_tx_tm_entity) : rlc_tx_tm_entity := mk_entity (cfg e) v (sdu e) (pending_buffer_state e) (stopped e).
Definition set_sdu (v : rlc_sdu) (e : rlc_tx_tm_entity) : rlc_tx_tm_entity := mk_entity (cfg e) (sdu_queue e) v (pending_buffer_state e) (stopped e).
Definition set_pending_buffer_state (v : bool) (e : rlc_tx_tm_entity) : rlc_tx_tm_entity := mk_entity (cfg e) (sdu_queue e) (sdu e) v (stopped e).
Definition set_stopped (v : bool) (e : rlc_tx_tm_entity) : rlc_tx_tm_entity := mk_entity (cfg e) (sdu_queue e) (sdu e) (pending_buffer_state e) v.

(** A handler of the entity. *)
Definition H (A : Type) : Type := M rlc_tx_tm_entity tx_event A.

Definition sdu_default : rlc_sdu := mk_sdu [] false None 0.
Definition create (config : rlc_tx_tm_config) : rlc_tx_tm_entity :=
  mk_entity config (SduQueue.create (txtm_queue_size config) (txtm_queue_size_bytes config)) sdu_default false false.

Definition stop : H unit :=
  let! e := get in
  when (negb (stopped e)) (emit execute_stop_low_metrics_timer ;;; modify (set_stopped true)).

(** [deferred]: the cell executor accepts the task. *)
Definition handle_changed_buffer_state (deferred : bool) : H unit :=
  let! e := get in
  when (negb (pending_buffer_state e))
    (modify (set_pending_buffer_state true) ;;; when deferred (emit defer_update_mac_buffer_state)).

Definition handle_sdu (now : Z) (deferred : bool) (sdu_buf : list Z) (is_retx : bool) : H unit :=
  let! e := get in
  let '(q, written) := SduQueue.write (mk_sdu sdu_buf false None now) (sdu_queue e) in
  modify (set_sdu_queue q) ;;;
  if written then emit (metrics_add_sdus 1 (zlen sdu_buf)) ;;; handle_changed_buffer_state deferred
  else emit (metrics_add_lost_sdus 1).

Definition discard_sdu (pdcp_sn : Z) : H unit := emit (metrics_add_discard_failure 1).

(** The SDU the next PDU is; [false]: there is none. *)
Definition fetch_sdu : H bool :=
  let! e := get in
  match sdu_buf (sdu e) with
  | [] => let '(q, s, ok) := SduQueue.read_into (sdu e) (sdu_queue e) in
          modify (fun e => set_sdu s (set_sdu_queue q e)) ;;; ret ok
  | _ => ret true
  end.

Definition pull_pdu (grant_len : Z) : H (list Z) :=
  let! ok := fetch_sdu in
  if negb ok then ret [] else
  let! e := get in
  let buf := sdu_buf (sdu e) in
  if grant_len <? zlen buf then emit (metrics_add_small_alloc 1) ;;; ret [] else
  match sdu_pdcp_sn (sdu e) with
  | Some pdcp_sn => emit (on_transmitted_sdu pdcp_sn (txtm_queue_size_bytes (cfg e)))
  | None => ret tt
  end ;;;
  modify (fun e => set_sdu (mk_sdu [] (sdu_is_retx (sdu e)) (sdu_pdcp_sn (sdu e)) (sdu_time_of_arrival (sdu e))) e) ;;;
  emit (pcap_push_pdu buf) ;;;
  emit (metrics_add_pdus_no_segmentation 1 (zlen buf)) ;;;
  ret buf.

Definition get_buffer_state : H rlc_buffer_state :=
  let! e := get in
  let! toa :=
    (match sdu_buf (sdu e) with
     | [] => let '(q, next_sdu) := SduQueue.front (sdu_queue e) in modify (set_sdu_queue q) ;;; ret (sdu_time_of_arrival <$> next_sdu)
     | _ => ret (Some (sdu_time_of_arrival (sdu e)))
     end) in
  let! e := get in
  ret (mk_buffer_state (u32 (SduQueue.n_bytes (SduQueue.get_state (sdu_queue e)) + zlen (sdu_buf (sdu e)))) toa).

Definition update_mac_buffer_state : H unit :=
  modify (set_pending_buffer_state false) ;;;
  let! bs := get_buffer_state in
  emit (on_buffer_state_update bs).
End RlcTxTm.

(** The receiving entity keeps no state. *)
Module RlcRxTm.

Inductive rx_event :=
| metrics_add_pdus (num len : Z)
| metrics_add_lost_pdus (num : Z)
| metrics_add_sdus (num len : Z)
| pcap_push_pdu (buf : list Z)
| on_new_sdu (sdu : list Z).

(** [alloc]: what [byte_buffer_chain::create] answers, as in [RlcRxAm]. *)
Definition handle_pdu (alloc : option Z) (buf : list Z) : M unit rx_event unit :=
  emit (metrics_add_pdus 1 (zlen buf)) ;;;
  emit (pcap_push_pdu buf) ;;;
  match (max_slices ← alloc; fst <$> RlcRxAm.chain_append max_slices ([], 0) buf) with
  | None => emit (metrics_add_lost_pdus 1)
  | Some sdu => emit (metrics_add_sdus 1 (zlen sdu)) ;;; emit (on_new_sdu sdu)
  end.
End RlcRxTm.

(** ** What passes *)
Import RlcTxTm.

Definition tm_size_ok (s : list Z) : Prop := 0 < zlen s < 2 ^ 32.

(** The SDUs not sent yet: the one taken from the FIFO first. *)
Definition tm_backlog (e : rlc_tx_tm_entity) : list (list Z) :=
  (match sdu_buf (sdu e) with [] => [] | s => [s] end) ++ map sdu_buf (SduQueue.queue (sdu_queue e)).

Record tm_inv (e : rlc_tx_tm_entity) : Prop := {
  tm_queue : SduQueue.inv (sdu_queue e);
  tm_live : SduQueue.live (sdu_queue e) = SduQueue.queue (sdu_queue e);
  tm_no_sn : Forall (fun s => sdu_pdcp_sn s = None /\ tm_size_ok (sdu_buf s)) (SduQueue.queue (sdu_queue e));
  tm_current : sdu_pdcp_sn (sdu e) = None
}.

Lemma tm_create_inv c : 0 < txtm_queue_size c < 2 ^ 32 -> 0 <= txtm_queue_size_bytes c < 2 ^ 32 -> tm_inv (create c) /\ tm_backlog (create c) = [].
Proof. intros H1 H2. destruct (SduQueue.create_queue_inv _ _ H1 H2) as [Hq Hl]. split; [by split|done]. Qed.

Definition tm_accepted (ev : tx_event) : bool := match ev with metrics_add_sdus _ _ => true | _ => false end.

Lemma wp_tm_handle_sdu e now deferred buf is_retx : tm_inv e -> tm_size_ok buf ->
  wp (handle_sdu now deferred buf is_retx) (fun _ e' es => tm_inv e' /\ tm_backlog e' = tm_backlog e ++ if existsb tm_accepted es then [buf] else []) e.
Proof.
  intros [Q L N S] Hb. unfold handle_sdu. do 2 wp_step. set (s := mk_sdu buf false None now).
  pose proof (SduQueue.write_spec (sdu_queue e) s Q) as Hw. destruct (SduQueue.write s (sdu_queue e)) as [q ok].
  destruct Hw as (Q1 & _ & -> & Q2 & Q3); [split; [apply Hb|done]|]. do 2 wp_step.
  assert (forall ok : bool, ok = SduQueue.accepts (sdu_queue e) s -> forall e', sdu e' = sdu e -> sdu_queue e' = q -> tm_inv e' /\ tm_backlog e' = tm_backlog e ++ if ok then [buf] else []) as Hend.
  { intros ok -> e' E1 E2. split.
    - split; rewrite ?E1, ?E2; [done|by rewrite Q3, Q2, L| |done]. rewrite Q2. apply Forall_app. split; [done|]. destruct (SduQueue.accepts _ _); [by apply Forall_singleton|constructor].
    - unfold tm_backlog. rewrite E1, E2, Q2, map_app, app_assoc. f_equal. by destruct (SduQueue.accepts _ _). }
  destruct (SduQueue.accepts _ _) eqn:Ea; wp_step; [|by apply (Hend false eq_refl)].
  wp_step. unfold handle_changed_buffer_state. do 2 wp_step. wp_step; [|by apply (Hend true eq_refl)]. wp_step. wp_step. wp_step; [wp_step|]; by apply (Hend true eq_refl).
Qed.

(** A pull hands out the oldest SDU if it fits, and nothing otherwise. *)
Lemma wp_tm_pull e grant_len (Q : list Z -> rlc_tx_tm_entity -> list tx_event -> Prop) : tm_inv e ->
  (forall pdu e' es, tm_inv e' -> tm_backlog e = (match pdu with [] => [] | _ => [pdu] end) ++ tm_backlog e' -> zlen pdu <= Z.max 0 grant_len ->
     (pdu = [] -> forall s, hd_error (tm_backlog e) = Some s -> grant_len < zlen s) -> Q pdu e' es) -> wp (pull_pdu grant_len) Q e.
Proof.
  intros [Qi L N SN] HQ. unfold pull_pdu. wp_step.
  assert (forall e1 es, tm_inv e1 -> tm_backlog e1 = tm_backlog e -> sdu_buf (sdu e1) <> [] ->
    wp (let! e := get in
        let buf := sdu_buf (sdu e) in
        if grant_len <? zlen buf then emit (metrics_add_small_alloc 1) ;;; ret [] else
        match sdu_pdcp_sn (sdu e) with Some pdcp_sn => emit (on_transmitted_sdu pdcp_sn (txtm_queue_size_bytes (cfg e))) | None => ret tt end ;;;
        modify (fun e => set_sdu (mk_sdu [] (sdu_is_retx (sdu e)) (sdu_pdcp_sn (sdu e)) (sdu_time_of_arrival (sdu e))) e) ;;;
        emit (pcap_push_pdu buf) ;;; emit (metrics_add_pdus_no_segmentation 1 (zlen buf)) ;;; ret buf) (fun b s es' => Q b s (es ++ es')) e1) as Hsend.
  { intros e1 es [Q1 L1 N1 S1] Eb Hne. do 2 wp_step. cbv zeta. wp_step; bool_prop.
    - wp_steps. apply HQ; [done|done|change (zlen []) with 0; lia|]. intros _ s Hs. rewrite <- Eb in Hs. unfold tm_backlog in Hs.
      destruct (sdu_buf (sdu e1)) as [|b bs] eqn:Ebuf; [done|]. injection Hs as <-. done.
    - rewrite S1. wp_steps. apply HQ; [done| |lia|by intros E; rewrite E in Hne]. rewrite <- Eb. unfold tm_backlog. cbn. by destruct (sdu_buf (sdu e1)). }
  unfold fetch_sdu. do 2 wp_step. destruct (sdu_buf (sdu e)) as [|b bs] eqn:Ebuf.
  2: { wp_step. cbn [negb]. apply (Hsend e []); [done|done|by rewrite Ebuf]. }
  pose proof (SduQueue.read_into_loop_read (S (length (SduQueue.queue (sdu_queue e)))) (sdu e) (sdu_queue e) Qi ltac:(lia)) as Hr.
  pose proof (SduQueue.read_spec _ Qi) as Hs. pose proof (SduQueue.read_all_live _ Qi L) as [Hl1 Hl2]. unfold SduQueue.read in Hs, Hl1, Hl2. unfold SduQueue.read_into.
  destruct (SduQueue.read_into_loop _ _ _) as [[q s] ok]. destruct Hr as (Hr & Hlast & _). rewrite Hr in *. cbn [fst] in *. destruct Hs as (Q1 & _ & Q3 & _).
  do 2 wp_step. wp_step. rewrite L in Q3. set (e1 := set_sdu s (set_sdu_queue q e)).
  assert (tm_backlog e = map sdu_buf (SduQueue.queue (sdu_queue e))) as Eb by (unfold tm_backlog; by rewrite Ebuf).
  destruct (SduQueue.queue (sdu_queue e)) as [|s' rest] eqn:Eq; destruct ok; try done; cbn [negb].
  - specialize (Hlast eq_refl). simpl in Hlast. subst s. wp_step. apply HQ; [split; [done|exact Hl1|simpl; rewrite Hl2; apply Forall_nil_2|done]|rewrite Eb; unfold tm_backlog; simpl; by rewrite Ebuf, Hl2|change (zlen []) with 0; lia|].
    intros _ x Hx. by rewrite Eb in Hx.
  - injection Q3 as ->. apply Forall_cons in N as [[N1 N2] N]. assert (sdu_buf s' <> []) as Hne by (intros E; rewrite E in N2; unfold tm_size_ok in N2; change (zlen []) with 0 in N2; lia).
    apply (Hsend e1 []); [split; [done|exact Hl1|simpl; by rewrite Hl2|done]| |done]. rewrite Eb. unfold tm_backlog. simpl. rewrite Hl2. simpl. by destruct (sdu_buf s').
Qed.

(** Exact buffer state: the bytes of the SDUs not sent yet. *)
Definition tm_bytes (e : rlc_tx_tm_entity) : Z := SduQueue.total_bytes (SduQueue.live (sdu_queue e)) + zlen (sdu_buf (sdu e)).

Lemma wp_tm_update e (Q : unit -> rlc_tx_tm_entity -> list tx_event -> Prop) : tm_inv e ->
  (forall e' es, tm_inv e' -> tm_backlog e' = tm_backlog e -> (exists toa, es = [on_buffer_state_update (mk_buffer_state (u32 (tm_bytes e)) toa)]) -> Q tt e' es) -> wp update_mac_buffer_state Q e.
Proof.
  intros [Qi L N SN] HQ. unfold update_mac_buffer_state, get_buffer_state. do 5 wp_step.
  assert (forall e1 toa, tm_inv e1 -> tm_backlog e1 = tm_backlog e -> sdu_queue e1 = sdu_queue e -> sdu e1 = sdu e ->
    wp (let! e := get in ret (mk_buffer_state (u32 (SduQueue.n_bytes (SduQueue.get_state (sdu_queue e)) + zlen (sdu_buf (sdu e)))) toa))
      (fun bs e' es => wp (emit (on_buffer_state_update bs)) (fun b s es' => Q b s (es ++ es')) e') e1) as Hend.
  { intros e1 toa Hi1 Eb Eq Es. do 4 wp_step. apply HQ; [done|done|]. exists toa. rewrite Eq, Es, SduQueue.get_state_live by done. done. }
  pose proof (SduQueue.front_all_live _ Qi L) as Hf. wp_step. cbn [sdu set_pending_buffer_state sdu_queue].
  destruct (sdu_buf (sdu e)) as [|b bs] eqn:Ebuf.
  - destruct (SduQueue.front (sdu_queue e)) as [q next]. cbn [fst] in Hf. subst q. do 3 wp_step. by apply Hend.
  - wp_step. by apply Hend.
Qed.

(** ** Runs *)

Inductive tm_op := tm_sdu (now : Z) (deferred : bool) (buf : list Z) (is_retx : bool) | tm_discard (pdcp_sn : Z) | tm_pull (grant_len : Z) | tm_report | tm_stop.
Definition tm_op_ok (o : tm_op) : Prop := match o with tm_sdu _ _ buf _ => tm_size_ok buf | _ => True end.
Definition tm_perform (o : tm_op) : H (list Z) :=
  match o with
  | tm_sdu now deferred buf is_retx => handle_sdu now deferred buf is_retx ;;; ret []
  | tm_discard p => discard_sdu p ;;; ret []
  | tm_pull g => pull_pdu g
  | tm_report => update_mac_buffer_state ;;; ret []
  | tm_stop => stop ;;; ret []
  end.
Definition tm_taken (o : tm_op) (es : list tx_event) : list (list Z) :=
  match o with tm_sdu _ _ buf _ => if existsb tm_accepted es then [buf] else [] | _ => [] end.

(** The PDUs handed out and the SDUs accepted by a sequence of operations; [None]: one of them aborts. *)
Fixpoint tm_run (os : list tm_op) (e : rlc_tx_tm_entity) : option (rlc_tx_tm_entity * list (list Z) * list (list Z)) :=
  match os with
  | [] => Some (e, [], [])
  | o :: os =>
      match tm_perform o e with
      | Ok (pdu, e', es) =>
          '(e'', pdus, sdus) ← tm_run os e';
          Some (e'', (match pdu with [] => [] | _ => [pdu] end) ++ pdus, tm_taken o es ++ sdus)
      | Fault _ => None
      end
  end.

Lemma wp_tm_perform e o : tm_inv e -> tm_op_ok o ->
  wp (tm_perform o) (fun pdu e' es => tm_inv e' /\ tm_backlog e ++ tm_taken o es = (match pdu with [] => [] | _ => [pdu] end) ++ tm_backlog e') e.
Proof.
  intros Hi Ho. destruct o as [now d buf x|p|g| |]; cbn [tm_perform tm_op_ok tm_taken] in *; rewrite ?app_nil_r.
  - wp_step. eapply wp_mono; [by apply wp_tm_handle_sdu|]. cbv beta. intros _ e' es (Hi' & Hb). wp_step. by rewrite app_nil_r.
  - by wp_steps.
  - apply wp_tm_pull; [done|]. intros pdu e' es Hi' Hb _ _. done.
  - wp_step. apply wp_tm_update; [done|]. intros e' es Hi' Hb _. by wp_step.
  - wp_step. unfold stop. do 2 wp_step. wp_step; [do 3 wp_step|]; wp_step; [|done]. split; [|done]. destruct Hi. by split.
Qed.

Lemma tm_run_spec os : forall e, tm_inv e -> Forall tm_op_ok os ->
  exists e' pdus sdus, tm_run os e = Some (e', pdus, sdus) /\ tm_inv e' /\ tm_backlog e ++ sdus = pdus ++ tm_backlog e'.
Proof.
  induction os as [|o os IH]; intros e Hi Ho; [exists e, [], []; by rewrite app_nil_r|]. apply Forall_cons in Ho as [Ho Hos].
  pose proof (wp_tm_perform e o Hi Ho) as Hw. apply wp_run in Hw as (pdu & e1 & es & E & Hi1 & Hb). simpl. rewrite E.
  destruct (IH e1 Hi1 Hos) as (e2 & pdus & sdus & -> & Hi2 & Hb2). do 3 eexists. split; [done|]. split; [done|].
  by rewrite app_assoc, Hb, <- !app_assoc, Hb2.
Qed.

Definition tm_new_sdus (es : list RlcRxTm.rx_event) : list (list Z) := omap (fun ev => match ev with RlcRxTm.on_new_sdu sdu => Some sdu | _ => None end) es.

Lemma tm_handle_pdu max buf : 1 <= max -> exists es, RlcRxTm.handle_pdu (Some max) buf tt = Ok (tt, tt, es) /\ tm_new_sdus es = [buf].
Proof.
  intros Hm. unfold RlcRxTm.handle_pdu, RlcRxAm.chain_append. cbn [mbind option_bind]. destruct buf as [|b bs].
  - by eexists.
  - cbn [snd]. rewrite (proj2 (Z.eqb_neq 0 max)) by lia. by eexists.
Qed.

Lemma tm_handle_all max pdus : 1 <= max -> exists es, for_each pdus (RlcRxTm.handle_pdu (Some max)) tt = Ok (tt, tt, es) /\ tm_new_sdus es = pdus.
Proof.
  intros Hm. induction pdus as [|p pdus (es & E & H)]; [by eexists|]. destruct (tm_handle_pdu max p Hm) as (es1 & E1 & H1).
  exists (es1 ++ es). cbn [for_each]. unfold bind. rewrite E1, E. split; [done|]. unfold tm_new_sdus in *. by rewrite omap_app, H1, H.
Qed.

(** ** The property *)

(** A TM bearer end to end: no sequence of operations aborts the transmitting entity; what it hands out, given to the
    receiving entity in order, is delivered unchanged and in order, and together with the SDUs not sent yet it is
    what the entity accepted. *)
Theorem tm_end_to_end config os max :
  0 < txtm_queue_size config < 2 ^ 32 -> 0 <= txtm_queue_size_bytes config < 2 ^ 32 -> Forall tm_op_ok os -> 1 <= max ->
  exists e pdus sdus es, tm_run os (create config) = Some (e, pdus, sdus) /\
    for_each pdus (RlcRxTm.handle_pdu (Some max)) tt = Ok (tt, tt, es) /\ tm_new_sdus es ++ tm_backlog e = sdus.
Proof.
  intros H1 H2 Hos Hm. destruct (tm_create_inv config H1 H2) as [Hi Hb]. destruct (tm_run_spec os _ Hi Hos) as (e & pdus & sdus & E & _ & Hs).
  destruct (tm_handle_all max pdus Hm) as (es & E2 & H). exists e, pdus, sdus, es. split; [done|]. split; [done|]. by rewrite H, <- Hs, Hb.
Qed.

Definition tm_example_ops : list tm_op := [tm_sdu 0 true [1; 2; 3] false; tm_pull 2; tm_sdu 1 true [4] false; tm_report; tm_pull 3].

Lemma tm_end_to_end_witness : exists e pdus sdus es,
  tm_run tm_example_ops (create {| txtm_queue_size := 4; txtm_queue_size_bytes := 100 |}) = Some (e, pdus, sdus) /\
  for_each pdus (RlcRxTm.handle_pdu (Some 4)) tt = Ok (tt, tt, es) /\ tm_new_sdus es ++ tm_backlog e = sdus /\ sdus = [[1; 2; 3]; [4]] /\ pdus = [[1; 2; 3]].
Proof.
  destruct (tm_end_to_end {| txtm_queue_size := 4; txtm_queue_size_bytes := 100 |} tm_example_ops 4) as (e & pdus & sdus & es & E & E2 & H).
  - vm_compute. split; congruence.
  - vm_compute. split; congruence.
  - unfold tm_example_ops. repeat (apply Forall_cons; split; [first [split; reflexivity|exact I]|]). apply Forall_nil. exact I.
  - discriminate.
  - exists e, pdus, sdus, es. split; [exact E|]. split; [exact E2|]. split; [exact H|]. vm_compute in E. injection E as _ <- <-. split; reflexivity.
Defined.
