(* ===== verification/RlcUmEndToEnd.v ===== *)
(** * RLC UM from end to end

    The PDUs of [RlcTxUm] meet the receiver of [RlcRxUm]: the segments of at most half the ring of split SDUs, with complete
    SDUs in between, are delivered exactly once each, in whatever order the PDUs arrive. *)

From S2P Require Import Prelude Effects RlcConfig RlcAmPdu Segments RlcRxAm RlcUmPdu RlcRxUm RlcRxUmInv RlcRxUmRefine RlcRxUmProps RlcTxUmInv.
Import UmHeader RlcRxUm UmReceiver.
Open Scope Z_scope.
Open Scope entity_scope.

(** ** Reading what the sender writes *)

Lemma um_write_bytes h : Forall is_byte (rlc_um_write_data_pdu_header h).
Proof.
  unfold rlc_um_write_data_pdu_header. assert (forall x, is_byte (u8 x)) as Hu by (intros x; apply Z.mod_pos_bound; lia).
  destruct (si_eqb (um_si h) full_sdu), (um_sn_size h), (um_so h =? 0); cbn [negb app]; repeat first [apply Forall_cons; split; [apply Hu|]|apply Forall_nil; done].
Qed.

Definition header_of (size : rlc_um_sn_size) (i : item) : rlc_um_pdu_header :=
  match i with
  | item_whole s => mk_um_header full_sdu size 0 0
  | item_piece k g => mk_um_header (sg_si g) size (k mod cardinality (to_number_um_sn size)) (sg_so g)
  end.
Definition payload_of (i : item) : list Z := match i with item_whole s => s | item_piece _ g => sg_payload g end.

(** Items a sender makes of SDUs [D 0], ..., [D (N - 1)] and of SDUs sent whole. *)
Definition item_ok (D : Z -> list Z) (N : Z) (i : item) : Prop :=
  Forall is_byte (payload_of i) /\
  match i with item_whole s => sdu_size_ok s | item_piece k g => 0 <= k < N /\ sdu_size_ok (D k) /\ piece_of (D k) g end.

Lemma si_at_cases s g : (sg_so g = 0 /\ si_at s g = first_segment) \/ (sg_so g <> 0 /\ (si_at s g = last_segment \/ si_at s g = middle_segment)).
Proof. unfold si_at. destruct (Z.eqb_spec (sg_so g) 0); [by left|right]. split; [done|]. destruct (_ =? _); auto. Qed.

Section reading.
Context (D : Z -> list Z) (N : Z) (size : rlc_um_sn_size) (i : item) (Hi : item_ok D N i).

Lemma encode_split : encode size i = rlc_um_write_data_pdu_header (header_of size i) ++ payload_of i.
Proof. by destruct i. Qed.

Lemma payload_not_empty : 0 < zlen (payload_of i).
Proof. destruct Hi as [_ H]. destruct i as [s|k g]; [unfold sdu_size_ok in H; simpl; lia|]. destruct H as (_ & _ & [[] _] & _). done. Qed.

Lemma header_of_wf : um_header_wf (header_of size i) /\ on_wire (header_of size i) = header_of size i /\ um_sn_size (header_of size i) = size.
Proof.
  destruct Hi as [_ H]. destruct i as [s|k g].
  - split; [|done]. split; [split; [done|by destruct size]|]. split; [done|]. by simpl.
  - destruct H as (_ & Hs & [Hsl (Esi & _)]). unfold sdu_size_ok in Hs. split; [|split; [|done]].
    + split; [simpl; apply Z.mod_pos_bound; by destruct size|]. split; [simpl; destruct Hsl; unfold seg_end in *; lia|]. simpl. rewrite Esi.
      by destruct (si_at_cases (D k) g) as [(E1 & ->)|(E1 & [-> | ->])].
    + unfold on_wire. simpl. rewrite Esi. by destruct (si_at_cases (D k) g) as [(E1 & ->)|(E1 & [-> | ->])].
Qed.

Lemma read_encode : rlc_um_read_data_pdu_header (encode size i) size = Ok (Some (header_of size i)).
Proof.
  destruct header_of_wf as (H1 & H2 & H3). rewrite encode_split. pose proof (um_read_write _ (payload_of i) H1) as E. by rewrite H2, H3 in E.
Qed.

Lemma encode_bytes : Forall is_byte (encode size i).
Proof. rewrite encode_split. apply Forall_app. split; [apply um_write_bytes|apply Hi]. Qed.

Lemma encode_regular : regular_pdu size (encode size i).
Proof.
  unfold regular_pdu. rewrite read_encode. unfold regular_segment. destruct Hi as [_ H]. destruct i as [s|k g]; [done|]. destruct H as (_ & _ & [_ (Esi & _)]). simpl. rewrite Esi.
  by destruct (si_at_cases (D k) g) as [(E1 & ->)|(E1 & [-> | ->])].
Qed.

(** The receiver gets the header and payload back. *)
Lemma receive_encode W max r : 1 <= max ->
  receive_pdu W (Some max) size (encode size i) r =
  match i with
  | item_whole s => (r, [s])
  | item_piece k g =>
      let k' := number_of W (k mod cardinality (to_number_um_sn size)) r in
      if k' <? next_reassembly r then (r, []) else receive_segment W (Some max) k' g r
  end.
Proof.
  intros Hmax. unfold receive_pdu. rewrite read_encode, encode_split. rewrite <- um_write_length, zlen_app. pose proof payload_not_empty.
  rewrite (proj2 (Z.leb_gt _ _)) by lia. unfold zlen at 2. rewrite Nat2Z.id, drop_app_length. destruct Hi as [_ Hit]. destruct i as [s|k g].
  - simpl. unfold RlcRxAm.chain_append. destruct s as [|b bs]; [done|]. cbn [fst snd]. rewrite (proj2 (Z.eqb_neq 0 max)) by lia. done.
  - cbn [header_of um_sn um_si um_so payload_of]. destruct Hit as (_ & _ & [_ (Esi & _)]). assert (si_eqb (sg_si g) full_sdu = false) as ->.
    { rewrite Esi. by destruct (si_at_cases (D k) g) as [(_ & ->)|(_ & [-> | ->])]. }
    by destruct g.
Qed.
End reading.

(** ** The pieces of each SDU *)

Definition pieces (l : list item) : list (Z * rlc_rx_am_sdu_segment) := omap (fun i => match i with item_piece k g => Some (k, g) | item_whole _ => None end) l.
Definition wholes (l : list item) : list (list Z) := omap (fun i => match i with item_whole s => Some s | item_piece _ _ => None end) l.
Definition split_segments (ts : list transmission) : list (list rlc_rx_am_sdu_segment) := omap (fun t => match t with split _ l => Some l | whole _ => None end) ts.

(** SDU number [k] of the split ones, and its segments. *)
Definition nth_sdu (ts : list transmission) (k : Z) : list Z := nth (Z.to_nat k) (splits ts) [].
Definition nth_segments (ts : list transmission) (k : Z) : list rlc_rx_am_sdu_segment := nth (Z.to_nat k) (split_segments ts) [].

Lemma pieces_app l l' : pieces (l ++ l') = pieces l ++ pieces l'.
Proof. apply omap_app. Qed.
Lemma wholes_app l l' : wholes (l ++ l') = wholes l ++ wholes l'.
Proof. apply omap_app. Qed.

Lemma segs_of_map k j l : segs_of k (pieces (map (item_piece j) l)) = if j =? k then l else [].
Proof. induction l as [|g l IH]; simpl; [by destruct (j =? k)|]. unfold segs_of, pieces in *. simpl. rewrite IH. by destruct (j =? k). Qed.

Lemma segs_of_items ts k : forall k0, segs_of k (pieces (items_from k0 ts)) = if k0 <=? k then nth (Z.to_nat (k - k0)) (split_segments ts) [] else [].
Proof.
  induction ts as [|[s|s l] ts IH]; intros k0; cbn [items_from].
  - simpl. destruct (k0 <=? k); [|done]. by destruct (Z.to_nat (k - k0)).
  - apply IH.
  - rewrite pieces_app, segs_of_app, segs_of_map, IH. destruct (Z.eqb_spec k0 k) as [->|Hne].
    + rewrite (proj2 (Z.leb_gt (k + 1) k)), (proj2 (Z.leb_le k k)), Z.sub_diag by lia. simpl. by rewrite app_nil_r.
    + cbn [app]. destruct (Z.leb_spec k0 k).
      * rewrite (proj2 (Z.leb_le (k0 + 1) k)) by lia. replace (Z.to_nat (k - k0)) with (S (Z.to_nat (k - (k0 + 1)))) by lia. done.
      * rewrite (proj2 (Z.leb_gt (k0 + 1) k)) by lia. done.
Qed.

Lemma wholes_items ts : forall k0, wholes (items_from k0 ts) ++ splits ts ≡ₚ map sdu_of ts.
Proof.
  assert (forall k l, wholes (map (item_piece k) l) = []) as Hm by (intros k l; induction l as [|g l IH]; [done|apply IH]).
  induction ts as [|[s|s l] ts IH]; intros k0; cbn [items_from].
  - done.
  - simpl. apply perm_skip, IH.
  - rewrite wholes_app, Hm. simpl. rewrite <- Permutation_middle. apply perm_skip, IH.
Qed.

Lemma split_parts ts k : Forall transmission_ok ts -> 0 <= k < nsplit ts ->
  sdu_size_ok (nth_sdu ts k) /\ contiguous 0 (nth_segments ts k) /\ Forall (piece_of (nth_sdu ts k)) (nth_segments ts k) /\
  last_end 0 (nth_segments ts k) = zlen (nth_sdu ts k).
Proof.
  unfold nth_sdu, nth_segments. intros Hts Hk. assert (Z.to_nat k < length (splits ts))%nat as Hn by (unfold nsplit, zlen in Hk; lia). clear Hk.
  revert Hn. generalize (Z.to_nat k) as n. induction Hts as [|t ts Ht Hts IH]; intros n Hn; [simpl in Hn; lia|]. destruct t as [s|s l]; [by apply IH|].
  destruct n as [|n]; [|apply IH; simpl in Hn; lia]. destruct Ht as (H1 & H2 & H3 & H4). by simpl.
Qed.

Lemma map_nth_sdu ts : map (nth_sdu ts) (numbers (nsplit ts)) = splits ts.
Proof.
  apply list_eq. intros i. unfold numbers, nth_sdu, nsplit. change (map ?f ?l) with (f <$> l). rewrite list_lookup_fmap.
  destruct (splits ts !! i) as [d|] eqn:Hd.
  - pose proof (lookup_lt_Some _ _ _ Hd). rewrite lookup_seqZ_lt by (unfold zlen; lia). cbn [fmap option_fmap option_map].
    rewrite Z.add_0_l, Nat2Z.id. f_equal. by apply nth_lookup_Some.
  - apply lookup_ge_None in Hd. rewrite lookup_seqZ_ge by (unfold zlen; lia). done.
Qed.

Lemma in_segs_of k g l : item_piece k g ∈ l -> g ∈ segs_of k (pieces l).
Proof.
  intros H. apply list_elem_of_omap. exists (k, g). split; [|simpl; by rewrite Z.eqb_refl]. apply list_elem_of_omap. by exists (item_piece k g).
Qed.

Lemma in_items_whole s ts : forall k0, item_whole s ∈ items_from k0 ts -> whole s ∈ ts.
Proof.
  induction ts as [|t ts IH]; intros k0; cbn [items_from]; [by intros ?%elem_of_nil|]. destruct t as [s'|s' l].
  - intros [[= ->]|H]%elem_of_cons; [left|]. right. by eapply IH.
  - intros [H|H]%elem_of_app; [by apply list_elem_of_fmap in H as (g & Hg & _)|]. right. by eapply IH.
Qed.

Lemma split_sdu_in ts k : 0 <= k < nsplit ts -> exists l, split (nth_sdu ts k) l ∈ ts.
Proof.
  unfold nth_sdu. intros Hk. assert (nth (Z.to_nat k) (splits ts) [] ∈ splits ts) as Hin.
  { apply list_elem_of_In, nth_In. unfold nsplit, zlen in Hk. lia. }
  apply list_elem_of_omap in Hin as ([s|s l] & Ht & [= <-]). by exists l.
Qed.

Lemma items_ok ts i : Forall transmission_ok ts -> Forall (fun t => Forall is_byte (sdu_of t)) ts -> i ∈ items_from 0 ts -> item_ok (nth_sdu ts) (nsplit ts) i.
Proof.
  intros Hok Hb Hi. rewrite Forall_forall in Hok, Hb. destruct i as [s|k g].
  - apply in_items_whole in Hi. split; [apply (Hb _ Hi)|]. by destruct (Hok _ Hi).
  - apply in_segs_of in Hi. rewrite segs_of_items, Z.sub_0_r in Hi. destruct (Z.leb_spec 0 k); [|by apply elem_of_nil in Hi]. fold (nth_segments ts k) in Hi.
    assert (0 <= k < nsplit ts) as Hk.
    { split; [done|]. destruct (Z.lt_ge_cases k (nsplit ts)) as [|Hge]; [done|]. unfold nth_segments in Hi. rewrite nth_overflow in Hi; [by apply elem_of_nil in Hi|].
      assert (length (split_segments ts) = length (splits ts)) as ->; [|unfold nsplit, zlen in Hge; lia].
      clear. induction ts as [|[s|s l] ts IH]; simpl; [done|apply IH|]. f_equal. apply IH. }
    destruct (split_parts ts k) as (H1 & H2 & H3 & H4); [by apply Forall_forall|done|]. rewrite Forall_forall in H3. specialize (H3 g Hi). split; [|done].
    destruct (split_sdu_in ts k Hk) as [l Hl]. simpl. destruct H3 as [[Hbytes _ _ _ _] _]. rewrite Hbytes. unfold sub. apply Forall_take, Forall_drop. apply (Hb _ Hl).
Qed.

(** ** Delivery *)

Section delivery.
Context (ts : list transmission) (Hts : Forall transmission_ok ts) (Hbytes : Forall (fun t => Forall is_byte (sdu_of t)) ts).
Context (max : Z) (Hmax : Forall (fun t => match t with whole _ => 1 | split _ l => zlen l end <= max) ts) (Hmax1 : 1 <= max).

(** After the items [l]: the receiver tracks the pieces, the whole SDUs were passed on. *)
Definition after (e0 : rlc_rx_um_entity) (l : list item) (e : rlc_rx_um_entity) (es : list rx_event) : Prop :=
  exists r out, represents r e /\ supervised r e /\ cfg e = cfg e0 /\ tracks (nth_sdu ts) (nsplit ts) (pieces l) r out /\ new_sdus es ≡ₚ wholes l ++ out.

Lemma nth_segments_room k : 0 <= k < nsplit ts -> zlen (nth_segments ts k) <= max.
Proof.
  unfold nth_segments. intros Hk. assert (length (split_segments ts) = length (splits ts)) as El.
  { clear. induction ts as [|[s|s l] ts' IH]; simpl; [done|apply IH|]. f_equal. apply IH. }
  assert (nth (Z.to_nat k) (split_segments ts) [] ∈ split_segments ts) as Hin by (apply list_elem_of_In, nth_In; unfold nsplit, zlen in Hk; lia).
  apply list_elem_of_omap in Hin as ([s|s l] & Ht & [= <-]). rewrite Forall_forall in Hmax. apply (Hmax _ Ht).
Qed.

Lemma piece_fits s l : sdu_size_ok s -> Forall (piece_of s) l -> Forall seg_fits l.
Proof. intros Hs Hl. eapply Forall_impl; [exact Hl|]. intros g [Hg _]. apply (slice_of_fits s); [apply Hs|done]. Qed.

Lemma segments_arrived l k : l ≡ₚ items_from 0 ts -> 0 <= k -> segs_of k (pieces l) ≡ₚ nth_segments ts k.
Proof.
  intros Hp Hk. transitivity (segs_of k (pieces (items_from 0 ts))).
  - unfold segs_of, pieces. by rewrite Hp.
  - rewrite segs_of_items, Z.sub_0_r. by destruct (Z.leb_spec 0 k); [|lia].
Qed.

(** A piece brings a byte no earlier piece of the SDU brought. *)
Lemma piece_is_new l k g l' : l ++ item_piece k g :: l' ≡ₚ items_from 0 ts -> 0 <= k < nsplit ts ->
  ~ covered (segs_of k (pieces l)) (sg_so g) /\ (S (length (segs_of k (pieces l))) <= length (nth_segments ts k))%nat.
Proof.
  intros Hp Hk. destruct (split_parts ts k Hts Hk) as (H1 & H2 & H3 & H4). assert (segs_of k (pieces (l ++ item_piece k g :: l')) ≡ₚ nth_segments ts k) as Hs.
  { apply segments_arrived; [done|lia]. }
  rewrite pieces_app, segs_of_app in Hs. simpl in Hs. unfold segs_of at 2 in Hs. simpl in Hs. rewrite Z.eqb_refl in Hs. split.
  - eapply covers_once_fresh; [|eapply covers_once_perm; [symmetry; exact Hs|by eapply contiguous_covers_once; [|by eapply piece_fits]]].
    assert (g ∈ nth_segments ts k) as Hg by (rewrite <- Hs; apply elem_of_app; right; left). pose proof (piece_fits _ _ H1 H3) as Hf. rewrite Forall_forall in Hf. by apply Hf.
  - rewrite <- (Permutation_length Hs), length_app. simpl. lia.
Qed.

Lemma wp_one_item e0 l i l' e es : l ++ i :: l' ≡ₚ items_from 0 ts -> nsplit ts <= um_window_size e0 -> after e0 l e es ->
  wp (handle_pdu (Some max) (encode (RlcRxUmRefine.sn_size e0) i)) (fun _ e' es' => after e0 (l ++ [i]) e' (es ++ es')) e.
Proof.
  intros Hp HN (r & out & Hr & Hs & Hc & Ht & Ho). pose proof (items_ok ts i Hts Hbytes) as Hi. specialize (Hi ltac:(rewrite <- Hp; apply elem_of_app; right; left)).
  destruct (um_same_mod e0 e Hc) as [Em Ew]. assert (RlcRxUmRefine.sn_size e0 = RlcRxUmRefine.sn_size e) as -> by (unfold RlcRxUmRefine.sn_size; by rewrite Hc).
  eapply wp_um_handle_pdu; [done|done|by eapply encode_bytes|by eapply encode_regular|]. rewrite (receive_encode _ _ _ _ Hi) by done. destruct i as [s|k g].
  - intros e' es' H1 H2 H3 H4. exists r, out. split_and!; try done; [congruence|by rewrite pieces_app, app_nil_r|].
    rewrite um_new_sdus_app, H4, wholes_app, Ho. rewrite <- !app_assoc. apply Permutation_app_head, Permutation_app_comm.
  - destruct Hi as (_ & Hk & Hsz & [Hsl _]). destruct (piece_is_new l k g l' Hp Hk) as [Hnew Hlen]. pose proof (nth_segments_room k Hk) as Hroom.
    pose proof (tk_range _ _ _ _ _ Ht) as Hran. pose proof (rxum_ring_sizes e) as (W1 & W2 & _).
    assert (number_of (um_window_size e) (k mod cardinality (to_number_um_sn (RlcRxUmRefine.sn_size e))) r = k) as Ek.
    { change (cardinality (to_number_um_sn (RlcRxUmRefine.sn_size e))) with (mod_ e). destruct (number_of_spec r e (k mod mod_ e) Hr) as [E1 E2]; [apply Z.mod_pos_bound; lia|]. symmetry. apply (mod_inj e (next_highest r - um_window_size e)); [lia|lia|exact E1]. }
    rewrite Ek. cbv zeta.
    pose proof (tracks_receive (nth_sdu ts) (nsplit ts) (um_window_size e) ltac:(lia) (fun j Hj => proj1 (split_parts ts j Hts Hj)) max (pieces l) r out k g Ht Hk Hsl Hnew ltac:(unfold zlen in Hroom; lia)) as Hstep.
    destruct (receive_segment _ _ _ _ _) as [r' sdus]. destruct Hstep as [Ht' HR]. rewrite (proj2 (Z.ltb_ge _ _)) by lia.
    intros e' es' H1 H2 H3 H4. exists r', (out ++ sdus). split_and!; try done; [congruence|by rewrite pieces_app|].
    rewrite um_new_sdus_app, H4, wholes_app, Ho. simpl. by rewrite app_nil_r, <- app_assoc.
Qed.

Lemma wp_all_items e0 its : represents initial e0 -> supervised initial e0 -> its ≡ₚ items_from 0 ts -> nsplit ts <= um_window_size e0 ->
  wp (for_each (map (encode (RlcRxUmRefine.sn_size e0)) its) (handle_pdu (Some max))) (fun _ _ es => new_sdus es ≡ₚ map sdu_of ts) e0.
Proof.
  intros Hr Hs Hp HN. apply (wp_for_each (fun pdus e es => exists l l', its = l ++ l' /\ pdus = map (encode (RlcRxUmRefine.sn_size e0)) l' /\ after e0 l e es)).
  - exists [], its. split_and!; try done. exists initial, []. split_and!; try done. apply tracks_initial, nsplit_nonneg.
  - intros e es (l & l' & -> & Hl & r & out & _ & _ & _ & Ht & Ho). destruct l' as [|i l']; [|done]. rewrite app_nil_r in Hp.
    rewrite Ho, <- (wholes_items ts 0). assert (wholes l ≡ₚ wholes (items_from 0 ts)) as -> by by apply omap_Permutation. apply Permutation_app_head.
    rewrite (tk_out _ _ _ _ _ Ht), <- map_nth_sdu. rewrite (filter_ext_in _ (fun _ => true)), List.filter_true; [done|]. intros k Hk%list_elem_of_In%elem_of_seqZ.
    destruct (split_parts ts k Hts ltac:(lia)) as (H1 & H2 & H3 & H4). apply (covered_complete (nth_sdu ts) (nsplit ts) (fun j Hj => proj1 (split_parts ts j Hts Hj)) (pieces l) r out); [done|lia|].
    intros j Hj. unfold covered. rewrite (segments_arrived l k) by (done || lia). apply (contiguous_covered 0); [done|by eapply piece_fits|lia].
  - intros pdu pdus e es (l & l' & -> & Hl & Ha). destruct l' as [|i l']; [done|]. injection Hl as -> ->.
    eapply wp_mono; [by eapply wp_one_item|]. cbv beta. intros _ e' es' Ha'. exists (l ++ [i]), l'. split; [by rewrite <- app_assoc|done].
Qed.
End delivery.
