(* ===== verification/RlcUmTheorems.v ===== *)
(** * RLC UM: the properties

    Runs of the receiving entity, and the theorems on both entities and on a bearer end to end, each with an instance on
    concrete octets. *)

From S2P Require Import Prelude Effects RlcConfig RlcAmPdu Timers Segments RlcRxAm RlcUmPdu RlcRxUm RlcRxUmInv RlcRxUmRefine RlcRxUmSafety RlcRxUmProps PdcpSn SduQueue RlcTxUm RlcTxUmInv RlcTxUmSteps RlcUmEndToEnd.
Import UmHeader UmReceiver.
Open Scope Z_scope.
Open Scope entity_scope.

(** ** Runs of the receiving entity *)

Inductive rx_input := pdu_arrives (alloc : option Z) (buf : list Z) | timer_fires (epoch : Z).

Definition rx_handle (i : rx_input) : RlcRxUm.H unit :=
  match i with pdu_arrives alloc buf => RlcRxUm.handle_pdu alloc buf | timer_fires epoch => RlcRxUm.reassembly_timeout epoch end.

(** PDUs are octets; the back end dispatches the expiry of a started timer only. *)
Definition admissible (e : RlcRxUm.rlc_rx_um_entity) (i : rx_input) : Prop :=
  match i with
  | pdu_arrives _ buf => Forall is_byte buf
  | timer_fires epoch => tm_cmd_id (RlcRxUm.reassembly_timer e) = epoch -> is_running (RlcRxUm.reassembly_timer e) = true
  end.
Definition regular_input (size : rlc_um_sn_size) (i : rx_input) : Prop :=
  match i with pdu_arrives _ buf => regular_pdu size buf | timer_fires _ => True end.

Inductive rx_run (config : rlc_rx_um_config) : RlcRxUm.rlc_rx_um_entity -> list rx_input -> list (list Z) -> Prop :=
| rx_create e : RlcRxUm.create config = Some e -> rx_run config e [] []
| rx_step e ins sdus i e' es : rx_run config e ins sdus -> admissible e i -> rx_handle i e = Ok (tt, e', es) ->
    rx_run config e' (ins ++ [i]) (sdus ++ new_sdus es).

(** Runs of the abstract receiver. *)
Inductive receiver_run (W : Z) (size : rlc_um_sn_size) : receiver -> list rx_input -> list (list Z) -> Prop :=
| rc_start : receiver_run W size initial [] []
| rc_pdu r ins sdus alloc buf : receiver_run W size r ins sdus ->
    receiver_run W size (fst (receive_pdu W alloc size buf r)) (ins ++ [pdu_arrives alloc buf]) (sdus ++ snd (receive_pdu W alloc size buf r))
| rc_expire r ins sdus epoch trigger : receiver_run W size r ins sdus -> receiver_run W size (expire trigger r) (ins ++ [timer_fires epoch]) sdus
| rc_late r ins sdus epoch : receiver_run W size r ins sdus -> receiver_run W size r (ins ++ [timer_fires epoch]) sdus.

Definition um_size (size : rlc_um_sn_size) : Z := rlc_window_size (to_number_um_sn size).

Lemma rx_run_represents config e ins sdus : 0 < rxum_t_reassembly config -> rx_run config e ins sdus -> Forall (regular_input (rxum_sn_field_length config)) ins ->
  RlcRxUm.cfg e = config /\ exists r, receiver_run (um_size (rxum_sn_field_length config)) (rxum_sn_field_length config) r ins sdus /\ represents r e /\ supervised r e.
Proof.
  intros Ht. induction 1 as [e He|e ins sdus i e' es _ IH Ha E]; intros Hreg.
  - destruct (represents_create config e He Ht) as (H1 & H2 & H3). split; [done|]. exists initial. split; [constructor|done].
  - apply Forall_app in Hreg as [Hreg [Hi _]%Forall_cons]. destruct (IH Hreg) as (Hc & r & Hr & Hrep & Hs). clear IH.
    assert (RlcRxUm.um_window_size e = um_size (rxum_sn_field_length config)) as Ew by (unfold RlcRxUm.um_window_size; by rewrite Hc).
    assert (RlcRxUmRefine.sn_size e = rxum_sn_field_length config) as Es by (unfold RlcRxUmRefine.sn_size; by rewrite Hc).
    pose (Q := fun (_ : unit) e' es => RlcRxUm.cfg e' = config /\ exists r', receiver_run (um_size (rxum_sn_field_length config)) (rxum_sn_field_length config) r' (ins ++ [i]) (sdus ++ new_sdus es) /\
      represents r' e' /\ supervised r' e').
    assert (wp (rx_handle i) Q e) as Hw; [|unfold wp in Hw; by rewrite E in Hw]. destruct i as [alloc buf|epoch]; cbn [rx_handle admissible regular_input] in *.
    + eapply wp_um_handle_pdu; [done|done|done|by rewrite Es|]. destruct (receive_pdu _ _ _ _ _) as [r' out] eqn:Er. rewrite Ew, Es in Er.
      intros e2 es2 H1 H2 H3 H4. split; [congruence|]. exists r'. split; [|done]. rewrite H4.
      pose proof (rc_pdu _ _ r ins sdus alloc buf Hr) as Hstep. by rewrite Er in Hstep.
    + eapply wp_um_reassembly_timeout; [done..|]. intros e2 es2 r' H1 H2 H3 H4. split; [congruence|]. exists r'. split; [|done]. rewrite H4, app_nil_r. subst r'.
      destruct (_ =? _); by constructor.
Qed.

Lemma rx_run_sane config e ins sdus : 0 < rxum_t_reassembly config -> rx_run config e ins sdus -> sane e.
Proof.
  intros Ht. induction 1 as [e He|e ins sdus i e' es _ IH Ha E]; [by eapply sane_create|].
  assert (wp (rx_handle i) (fun _ e' _ => sane_from e e') e) as Hw by (destruct i; [by apply wp_handle_pdu_any|by apply wp_timeout_any]).
  unfold wp in Hw. rewrite E in Hw. apply Hw.
Qed.

(** ** Running concrete examples *)

Fixpoint rx_exec (ins : list rx_input) (s : RlcRxUm.rlc_rx_um_entity * list (list Z)) : option (RlcRxUm.rlc_rx_um_entity * list (list Z)) :=
  match ins with
  | [] => Some s
  | i :: ins => match rx_handle i (fst s) with Ok (_, e', es) => rx_exec ins (e', snd s ++ new_sdus es) | Fault _ => None end
  end.

Fixpoint tx_exec (os : list tx_op) (s : RlcTxUm.rlc_tx_um_entity * list (list Z) * list (list Z)) : option (RlcTxUm.rlc_tx_um_entity * list (list Z) * list (list Z)) :=
  match os with
  | [] => Some s
  | o :: os =>
      let '(e, pdus, sdus) := s in
      match perform o e with Ok (pdu, e', es) => tx_exec os (e', pdus ++ pdus_of pdu, sdus ++ accepted o es) | Fault _ => None end
  end.

Lemma tx_exec_run config os : forall os0 e pdus sdus e' pdus' sdus', tx_run config e os0 pdus sdus -> Forall op_ok os ->
  tx_exec os (e, pdus, sdus) = Some (e', pdus', sdus') -> tx_run config e' (os0 ++ os) pdus' sdus'.
Proof.
  induction os as [|o os IH]; intros os0 e pdus sdus e' pdus' sdus' Hr Ho E; simpl in E.
  - injection E as <- <- <-. by rewrite app_nil_r.
  - apply Forall_cons in Ho as [Ho Hos]. destruct (perform o e) as [[[pdu e1] es]|] eqn:Ep; [|done].
    rewrite (cons_middle o), app_assoc. eapply IH; [by econstructor|done|done].
Qed.

Lemma rx_exec_run config ins : forall ins0 e sdus e' sdus', rx_run config e ins0 sdus -> Forall (fun i => match i with pdu_arrives _ buf => Forall is_byte buf | timer_fires _ => False end) ins ->
  rx_exec ins (e, sdus) = Some (e', sdus') -> rx_run config e' (ins0 ++ ins) sdus'.
Proof.
  induction ins as [|i ins IH]; intros ins0 e sdus e' sdus' Hr Hi E; simpl in E.
  - injection E as <- <-. by rewrite app_nil_r.
  - apply Forall_cons in Hi as [Hi His]. destruct i as [alloc buf|]; [|done]. destruct (rx_handle _ e) as [[[[] e1] es]|] eqn:Ep; [|done].
    rewrite (cons_middle (pdu_arrives _ _)), app_assoc. eapply IH; [by econstructor|done|done].
Qed.

(** ** A bearer end to end *)

Lemma tx_run_bytes config e os pdus sdus : tx_run config e os pdus sdus -> Forall (Forall is_byte) sdus.
Proof.
  induction 1 as [|e os pdus sdus o pdu e' es _ IH Ho E]; [constructor|]. apply Forall_app. split; [done|].
  destruct o; simpl; try constructor. destruct (existsb _ _); [|constructor]. apply Forall_singleton. apply Ho.
Qed.

Lemma zlen_map {A B} (f : A -> B) l : zlen (map f l) = zlen l.
Proof. unfold zlen. by rewrite length_map. Qed.

Lemma segments_count t ts : forall k, t ∈ ts -> match t with whole _ => 1 | split _ l => zlen l end <= zlen (items_from k ts).
Proof.
  induction ts as [|u ts IH]; intros k Hin; [by apply elem_of_nil in Hin|]. apply elem_of_cons in Hin as [->|Hin].
  - destruct u as [s|s l]; cbn [items_from]; [rewrite zlen_cons|rewrite zlen_app, (zlen_map (item_piece k))]; pose proof (zlen_nonneg (items_from k ts));
      pose proof (zlen_nonneg (items_from (k + 1) ts)); lia.
  - destruct u as [s|s l]; cbn [items_from]; [rewrite zlen_cons|rewrite zlen_app]; [specialize (IH k Hin); lia|specialize (IH (k + 1) Hin)].
    pose proof (zlen_nonneg (map (item_piece k) l)). lia.
Qed.

Lemma nsplit_le ts : nsplit ts <= zlen (map sdu_of ts).
Proof.
  unfold nsplit, zlen. apply Nat2Z.inj_le. rewrite length_map. induction ts as [|[s|s l] ts IH]; simpl; unfold splits in *; simpl; lia.
Qed.

(** What a run without discards has sent once nothing waits: its accepted SDUs, in order. *)
Lemma run_drained config e os pdus sdus : config_ok config -> tx_run config e os pdus sdus -> existsb is_discard os = false ->
  sdu_buf (RlcTxUm.sdu e) = [] -> waiting e = [] ->
  exists ts, Forall transmission_ok ts /\ map sdu_of ts = sdus /\ pdus = map (encode (txum_sn_field_length config)) (items_from 0 ts).
Proof.
  intros Hok Hrun Hd Hb Hw. destruct (tx_run_state _ _ _ _ _ Hok Hrun) as (Hc & ts & partial & Hi & Hp & Hs). rewrite Hd in Hs. destruct (Hs eq_refl) as [_ Hs'].
  assert (partial = []) as ->.
  { destruct partial as [|g l]; [done|]. pose proof (ti_pieces _ _ _ Hi) as Hpc. rewrite Hb in Hpc. apply Forall_cons in Hpc as [[[] _] _].
    unfold seg_end in *. change (zlen []) with 0 in *. lia. }
  exists ts. split; [apply Hi|]. split; [|by rewrite Hp; unfold sent; rewrite app_nil_r]. unfold begun in Hs'. by rewrite Hb, Hw, !app_nil_r in Hs'.
Qed.

(** C31: A UM bearer end to end: when the transmitting entity, without discards, has sent all it accepted, at most half the ring
    of SDUs, and its PDUs arrive in any order, each once, at a fresh receiving entity with the same SN size and
    room for the segments of an SDU, the receiving entity handles all of them and hands up the accepted SDUs, each
    exactly once. *)
Theorem um_end_to_end tx_config rx_config e os pdus sdus pdus' max e0 :
  config_ok tx_config -> tx_run tx_config e os pdus sdus -> existsb is_discard os = false ->
  sdu_buf (RlcTxUm.sdu e) = [] -> waiting e = [] -> zlen sdus <= um_size (txum_sn_field_length tx_config) -> 1 <= max -> zlen pdus <= max ->
  RlcRxUm.create rx_config = Some e0 -> 0 < rxum_t_reassembly rx_config -> rxum_sn_field_length rx_config = txum_sn_field_length tx_config ->
  pdus' ≡ₚ pdus ->
  exists e' es, for_each pdus' (RlcRxUm.handle_pdu (Some max)) e0 = Ok (tt, e', es) /\ new_sdus es ≡ₚ sdus.
Proof.
  intros Hok Hrun Hd Hb Hw Hsize Hmax1 Hmax He0 Ht Esize Hp. destruct (run_drained _ _ _ _ _ Hok Hrun Hd Hb Hw) as (ts & Hts & Es & Ep).
  destruct (represents_create _ _ He0 Ht) as (Hr & Hs & Hc). rewrite Ep in Hp. apply Permutation_map_inv in Hp as (its & -> & Hp). symmetry in Hp.
  assert (RlcRxUmRefine.sn_size e0 = txum_sn_field_length tx_config) as E0 by (unfold RlcRxUmRefine.sn_size; by rewrite Hc).
  assert (Forall (fun t => Forall is_byte (sdu_of t)) ts) as Hbytes by (apply Forall_map; rewrite Es; by eapply tx_run_bytes).
  assert (Forall (fun t => match t with whole _ => 1 | split _ l => zlen l end <= max) ts) as Hroom.
  { apply Forall_forall. intros t Hin. pose proof (segments_count t ts 0 Hin) as H. assert (zlen pdus = zlen (items_from 0 ts)) as El by (rewrite Ep; apply zlen_map). lia. }
  assert (nsplit ts <= RlcRxUm.um_window_size e0) as HN.
  { unfold RlcRxUm.um_window_size. rewrite Hc, Esize. fold (um_size (txum_sn_field_length tx_config)). pose proof (nsplit_le ts). rewrite Es in *. lia. }
  pose proof (wp_all_items ts Hts Hbytes max Hroom Hmax1 e0 its Hr Hs Hp HN) as Hall. rewrite E0 in Hall. apply wp_run in Hall as ([] & e' & es & E & Hn).
  exists e', es. split; [done|]. by rewrite Hn, Es.
Qed.

(** ** Examples: two SDUs, the first sent in two segments *)

Definition ex_tx : rlc_tx_um_config := {| txum_sn_field_length := um_size6bits; txum_pdcp_sn_len := pdcp_size12bits; txum_queue_size := 16; txum_queue_size_bytes := 4096 |}.
Definition ex_rx : rlc_rx_um_config := {| rxum_sn_field_length := um_size6bits; rxum_t_reassembly := 35 |}.
Definition ex_sdu1 : list Z := [0x80; 0; 1; 2; 3].
Definition ex_sdu2 : list Z := [0x80; 1; 9].
Definition ex_ops : list tx_op := [op_sdu 0 true ex_sdu1 false; op_sdu 1 true ex_sdu2 false; op_report; op_pull 4; op_pull 6; op_pull 10].
Definition ex_tx0 : RlcTxUm.rlc_tx_um_entity := Eval vm_compute in default (RlcTxUm.mk_entity ex_tx 0 (SduQueue.create 16 4096) RlcTxUm.sdu_default 0 buffer_state_default true false false) (RlcTxUm.create ex_tx).
Definition ex_rx0 : RlcRxUm.rlc_rx_um_entity := Eval vm_compute in default (RlcRxUm.mk_entity ex_rx (RlcRxUm.mk_state 0 0 0) (Window.CircularMap.empty_map 32) create_timer) (RlcRxUm.create ex_rx).
Definition ex_pdus : list (list Z) := Eval vm_compute in match tx_exec ex_ops (ex_tx0, [], []) with Some (_, pdus, _) => pdus | None => [] end.
Definition ex_tx_end : RlcTxUm.rlc_tx_um_entity := Eval vm_compute in match tx_exec ex_ops (ex_tx0, [], []) with Some (e, _, _) => e | None => ex_tx0 end.

Lemma ex_config_ok : config_ok ex_tx.
Proof. split; [discriminate|]. split; vm_compute; split; congruence. Qed.

Ltac bytes := repeat (apply Forall_cons; split; [split; [discriminate|reflexivity]|]); apply Forall_nil; exact I.

Lemma ex_ops_ok : Forall op_ok ex_ops.
Proof.
  assert (forall s, zlen s = 5 \/ zlen s = 3 -> sdu_size_ok s) as Hs by (unfold sdu_size_ok; intros; lia).
  repeat (apply Forall_cons; split); try apply Forall_nil; simpl; try (split; [bytes|apply Hs; auto]); try done; split; congruence.
Qed.

Lemma ex_run : tx_run ex_tx ex_tx_end ex_ops ex_pdus [ex_sdu1; ex_sdu2].
Proof. apply (tx_exec_run ex_tx ex_ops [] ex_tx0 [] []); [by constructor|apply ex_ops_ok|vm_compute; reflexivity]. Qed.

Lemma um_end_to_end_witness : exists e' es,
  for_each (rev ex_pdus) (RlcRxUm.handle_pdu (Some 8)) ex_rx0 = Ok (tt, e', es) /\ new_sdus es ≡ₚ [ex_sdu1; ex_sdu2].
Proof.
  apply (um_end_to_end ex_tx ex_rx ex_tx_end ex_ops ex_pdus [ex_sdu1; ex_sdu2] (rev ex_pdus) 8 ex_rx0);
    [apply ex_config_ok|apply ex_run|reflexivity|reflexivity|reflexivity|vm_compute; congruence|vm_compute; congruence|vm_compute; congruence|reflexivity|reflexivity|reflexivity|].
  symmetry. apply Permutation_rev.
Defined.

(** ** The receiving entity *)

(** C32: Refinement: on any run in which no last segment with offset zero arrives, the entity with its numbers modulo 64
    or 4096 and half as many window slots is the abstract receiver with unbounded numbers and unbounded memory: same
    inputs, same SDUs delivered, and t-Reassembly runs whenever more than one SDU is open. *)
Theorem um_rx_refines_receiver config e ins sdus :
  0 < rxum_t_reassembly config -> rx_run config e ins sdus -> Forall (regular_input (rxum_sn_field_length config)) ins ->
  exists r, receiver_run (um_size (rxum_sn_field_length config)) (rxum_sn_field_length config) r ins sdus /\ represents r e /\ supervised r e.
Proof. intros Ht Hrun Hreg. by apply (rx_run_represents config e ins sdus). Qed.

Definition ex_inputs : list rx_input := map (pdu_arrives (Some 8)) (rev ex_pdus).
Definition ex_rx_end : RlcRxUm.rlc_rx_um_entity := Eval vm_compute in match rx_exec ex_inputs (ex_rx0, []) with Some (e, _) => e | None => ex_rx0 end.

Lemma ex_rx_run : rx_run ex_rx ex_rx_end ex_inputs [ex_sdu2; ex_sdu1].
Proof.
  apply (rx_exec_run ex_rx ex_inputs [] ex_rx0 []); [by constructor| |vm_compute; reflexivity].
  repeat (apply Forall_cons; split; [bytes|]). apply Forall_nil. exact I.
Qed.

Lemma um_rx_refines_receiver_witness :
  exists r, receiver_run 32 um_size6bits r ex_inputs [ex_sdu2; ex_sdu1] /\ represents r ex_rx_end /\ supervised r ex_rx_end.
Proof.
  apply (um_rx_refines_receiver ex_rx); [reflexivity|apply ex_rx_run|]. repeat (apply Forall_cons; split; [vm_compute; congruence|]). apply Forall_nil. exact I.
Defined.

(** C29: Safety against any peer: whatever octets arrived before, the next PDU or timer expiry is handled to its end, without a
    failing assertion and without an endless loop. *)
Theorem um_rx_never_aborts config e ins sdus i :
  0 < rxum_t_reassembly config -> rx_run config e ins sdus -> admissible e i -> exists e' es, rx_handle i e = Ok (tt, e', es).
Proof.
  intros Ht Hrun Ha. pose proof (rx_run_sane _ _ _ _ Ht Hrun) as Hs.
  assert (wp (rx_handle i) (fun _ e' _ => sane_from e e') e) as Hw by (destruct i; [by apply wp_handle_pdu_any|by apply wp_timeout_any]).
  apply wp_run in Hw as ([] & e' & es & E & _). eauto.
Qed.

Lemma um_rx_never_aborts_witness : exists e' es, rx_handle (pdu_arrives None [0xff; 0xff; 0xff; 0xff]) ex_rx_end = Ok (tt, e', es).
Proof. apply (um_rx_never_aborts ex_rx _ ex_inputs [ex_sdu2; ex_sdu1]); [reflexivity|apply ex_rx_run|]. simpl. bytes. Defined.

(** A receiver with one open SDU, whatever bytes it misses, does not start t-Reassembly: the code looks for the gap
    under RX_Next_Highest, a number nothing was received for yet. *)
Theorem um_rx_single_gap_unsupervised r e :
  represents r e -> next_highest r = next_reassembly r + 1 -> is_running (RlcRxUm.reassembly_timer e) = false ->
  RlcRxUm.start_reassembly_timer e = Ok (tt, e, []).
Proof.
  intros Hr Hone Hrun.
  assert (wp RlcRxUm.start_reassembly_timer (fun _ e' es => e' = e /\ es = []) e) as Hw; [|by apply wp_run in Hw as ([] & ? & ? & -> & -> & ->)].
  unfold RlcRxUm.start_reassembly_timer. do 2 wp_step. rewrite Hrun. cbn [negb when]. unfold RlcRxUm.restart_reassembly_timer.
  apply (wp_bind (A := bool)). eapply wp_mono; [apply (restart_needed_alone r e Hr Hone)|]. cbv beta. intros b e' es (-> & -> & ->). by wp_step.
Qed.

(** Only the last segment of SDU 0 arrived. *)
Definition ex_last : list Z := nth 1 ex_pdus [].
Definition ex_rx_gap : RlcRxUm.rlc_rx_um_entity := Eval vm_compute in match rx_exec [pdu_arrives (Some 8) ex_last] (ex_rx0, []) with Some (e, _) => e | None => ex_rx0 end.
Definition ex_gap_receiver : receiver := fst (receive_pdu 32 (Some 8) um_size6bits ex_last initial).

Lemma ex_gap_represents : represents ex_gap_receiver ex_rx_gap.
Proof.
  destruct (represents_create ex_rx ex_rx0) as (H1 & H2 & H3); [reflexivity|reflexivity|].
  assert (wp (RlcRxUm.handle_pdu (Some 8) ex_last) (fun _ e' _ => represents ex_gap_receiver e') ex_rx0) as Hw.
  { eapply wp_um_handle_pdu; [exact H1|exact H2|bytes|vm_compute; congruence|]. unfold ex_gap_receiver. change (RlcRxUm.um_window_size ex_rx0) with 32.
    change (RlcRxUmRefine.sn_size ex_rx0) with um_size6bits. destruct (receive_pdu _ _ _ _ _) as [r' out]. intros e' es Hr _ _ _. exact Hr. }
  unfold wp in Hw. assert (exists es, RlcRxUm.handle_pdu (Some 8) ex_last ex_rx0 = Ok (tt, ex_rx_gap, es)) as [es E] by (eexists; vm_compute; reflexivity).
  by rewrite E in Hw.
Qed.

Lemma um_rx_single_gap_unsupervised_witness :
  (flag_at RlcRxUm.has_gap (win ex_rx_gap 0) = true /\ RlcRxUm.rx_next_reassembly (RlcRxUm.st ex_rx_gap) = 0) /\
  RlcRxUm.start_reassembly_timer ex_rx_gap = Ok (tt, ex_rx_gap, []).
Proof.
  split; [by vm_compute|]. apply (um_rx_single_gap_unsupervised ex_gap_receiver ex_rx_gap); [apply ex_gap_represents|vm_compute; reflexivity|reflexivity].
Defined.

(** ** The transmitting entity *)

(** Content: on any run, discards included, the PDUs handed out are, in order, whole SDUs and the segments of split SDUs: the
    segments of one SDU follow each other, cover it without gap or overlap, carry the number of SDUs split before
    modulo the ring and the SI of their position.  Without discards the SDUs sent, under way and waiting are the accepted
    ones in order. *)
Theorem um_tx_sends_accepted config e os pdus sdus :
  config_ok config -> tx_run config e os pdus sdus ->
  exists ts partial, Forall transmission_ok ts /\ contiguous 0 partial /\ Forall (piece_of (sdu_buf (RlcTxUm.sdu e))) partial /\
    pdus = map (encode (txum_sn_field_length config)) (sent ts partial) /\
    (existsb is_discard os = false -> begun ts e ++ waiting e = sdus).
Proof.
  intros Hok Hrun. destruct (tx_run_state _ _ _ _ _ Hok Hrun) as (_ & ts & partial & Hi & Hp & Hd). exists ts, partial.
  split; [apply Hi|]. split; [apply Hi|]. split; [apply Hi|]. split; [done|]. intros E. by apply Hd.
Qed.

Lemma um_tx_sends_accepted_witness :
  exists ts partial, Forall transmission_ok ts /\ contiguous 0 partial /\ Forall (piece_of (sdu_buf (RlcTxUm.sdu ex_tx_end))) partial /\
    ex_pdus = map (encode um_size6bits) (sent ts partial) /\ (existsb is_discard ex_ops = false -> begun ts ex_tx_end ++ waiting ex_tx_end = [ex_sdu1; ex_sdu2]).
Proof. apply (um_tx_sends_accepted ex_tx ex_tx_end ex_ops ex_pdus); [apply ex_config_ok|apply ex_run]. Defined.

(** Progress: on any run the next operation succeeds; a pull never exceeds its grant, and hands out a PDU whenever an SDU
    is under way or waits and the grant has room for one byte after the largest header. *)
Theorem um_tx_progress config e os pdus sdus o :
  config_ok config -> tx_run config e os pdus sdus -> op_ok o ->
  exists pdu e' es, perform o e = Ok (pdu, e', es) /\
    match o with op_pull g => zlen pdu <= g /\ (has_data e -> RlcTxUm.head_len_not_first e < g -> pdu <> []) | _ => pdu = [] end.
Proof.
  intros Hok Hrun Ho. pose proof (tx_run_state _ _ _ _ _ Hok Hrun) as Hs. pose proof (wp_perform _ _ _ _ _ o Hs Ho) as Hw.
  apply wp_run in Hw as (pdu & e' & es & E & _). exists pdu, e', es. split; [done|]. destruct Hs as (_ & ts & partial & Hi & _).
  destruct o as [now d buf x|d p|g| |]; cbn [perform op_ok] in *; try by apply bind_ret_nil in E.
  assert (wp (RlcTxUm.pull_pdu g) (fun pdu e' _ => pulled ts partial e g pdu e') e) as Hw by (eapply wp_umtx_pull_pdu; [done|done|]; auto).
  unfold wp in Hw. rewrite E in Hw. destruct Hw. by split.
Qed.

Lemma um_tx_progress_witness :
  exists pdu e' es, perform (op_pull 4) ex_tx_end = Ok (pdu, e', es) /\ zlen pdu <= 4 /\ (has_data ex_tx_end -> RlcTxUm.head_len_not_first ex_tx_end < 4 -> pdu <> []).
Proof. apply (um_tx_progress ex_tx ex_tx_end ex_ops ex_pdus [ex_sdu1; ex_sdu2] (op_pull 4)); [apply ex_config_ok|apply ex_run|split; vm_compute; congruence]. Defined.

(** The buffer state reported to the lower layer is the number of bytes that are left to send, headers included, and the
    arrival of the oldest SDU; it is reported when the bytes fit the largest downlink PDU. *)
Theorem um_tx_buffer_state_exact config e os pdus sdus :
  config_ok config -> tx_run config e os pdus sdus ->
  let bs := mk_buffer_state (u32 (bytes_to_send e)) (oldest_arrival e) in
  exists e' es, RlcTxUm.update_mac_buffer_state e = Ok (tt, e', es) /\ RlcTxUm.prev_buffer_state e' = bs /\
    (pending_bytes bs <= MAX_DL_PDU_LENGTH -> es = [RlcTxUm.on_buffer_state_update bs]).
Proof.
  intros Hok Hrun bs. destruct (tx_run_state _ _ _ _ _ Hok Hrun) as (_ & ts & partial & Hi & _).
  assert (wp RlcTxUm.update_mac_buffer_state (fun _ e' es => RlcTxUm.prev_buffer_state e' = bs /\ (pending_bytes bs <= MAX_DL_PDU_LENGTH -> es = [RlcTxUm.on_buffer_state_update bs])) e) as Hw.
  { eapply wp_umtx_update_mac_buffer_state; [exact Hi|]. by cbv zeta. }
  apply wp_run in Hw as ([] & e' & es & E & H). by exists e', es.
Qed.

Lemma um_tx_buffer_state_exact_witness : exists e' es, RlcTxUm.update_mac_buffer_state ex_tx_end = Ok (tt, e', es) /\
  RlcTxUm.prev_buffer_state e' = mk_buffer_state 0 None /\ es = [RlcTxUm.on_buffer_state_update (mk_buffer_state 0 None)].
Proof.
  destruct (um_tx_buffer_state_exact ex_tx ex_tx_end ex_ops ex_pdus [ex_sdu1; ex_sdu2] ex_config_ok ex_run) as (e' & es & E & H1 & H2).
  exists e', es. split; [exact E|]. split; [exact H1|]. apply H2. vm_compute. congruence.
Defined.

(** A discarded SDU is sent: when the FIFO holds only SDUs the upper layer discarded, a pull hands out nothing but leaves the
    last of them in the member that holds the SDU under way, and the next pull transmits it. *)
Theorem um_tx_sends_discarded_sdu config e os pdus sdus s g :
  config_ok config -> tx_run config e os pdus sdus -> sdu_buf (RlcTxUm.sdu e) = [] -> SduQueue.live (RlcTxUm.sdu_queue e) = [] ->
  last (SduQueue.queue (RlcTxUm.sdu_queue e)) = Some s -> zlen (sdu_buf s) + 1 <= g < 2 ^ 32 ->
  exists e1 es1 e2 es2, RlcTxUm.pull_pdu g e = Ok ([], e1, es1) /\
    RlcTxUm.pull_pdu g e1 = Ok (encode (txum_sn_field_length config) (item_whole (sdu_buf s)), e2, es2).
Proof.
  intros Hok Hrun Hb Hl Hlast Hg. destruct (tx_run_state _ _ _ _ _ Hok Hrun) as (Hc & ts & partial & Hi & _).
  pose proof (ti_sizes _ _ _ Hi) as Hsz. rewrite Forall_forall in Hsz. specialize (Hsz s ltac:(by apply last_Some_elem_of)). unfold sdu_size_ok in Hsz.
  assert (wp (RlcTxUm.pull_pdu g) (fun pdu e1 _ => pdu = [] /\ tx_inv ts [] e1 /\ RlcTxUm.cfg e1 = config /\ RlcTxUm.sdu e1 = s) e) as Hw.
  { unfold RlcTxUm.pull_pdu, RlcTxUm.head_len_full, rlc_um_pdu_header_size_complete_sdu. rewrite (proj2 (Z.leb_gt _ _)) by lia. wp_step.
    eapply wp_fetch_sdu; [exact Hi| |].
    - intros e' es' Hi' _ Hne Hrest _. exfalso. unfold begun, waiting in Hrest. rewrite Hb, Hl, app_nil_r, app_nil_r in Hrest. 
      rewrite <- app_assoc in Hrest. apply (f_equal length) in Hrest. rewrite !length_app in Hrest. destruct (sdu_buf (RlcTxUm.sdu e')); [done|]. simpl in Hrest. lia.
    - intros e' _ _ Hi' Ec _ _ Es. cbn [negb]. wp_step. rewrite Hlast in Es. simpl in Es. split; [done|]. split; [|split; [congruence|done]].
      destruct partial as [|x l]; [done|]. pose proof (ti_pieces _ _ _ Hi) as Hpc. rewrite Hb in Hpc. apply Forall_cons in Hpc as [[[] _] _].
      unfold seg_end in *. change (zlen []) with 0 in *. lia. }
  apply wp_run in Hw as (pdu & e1 & es1 & E1 & -> & Hi1 & Hc1 & Es). 
  assert (wp (RlcTxUm.pull_pdu g) (fun pdu _ _ => pdu = encode (txum_sn_field_length config) (item_whole (sdu_buf s))) e1) as Hw.
  { eapply wp_pull_whole; [exact Hi1|rewrite Es; intros E; rewrite E in Hsz; change (zlen []) with 0 in Hsz; lia|by rewrite Es|]. intros _ _. unfold sn_size. by rewrite Hc1, Es. }
  apply wp_run in Hw as (pdu & e2 & es2 & E2 & ->). by exists e1, es1, e2, es2.
Qed.

(** The only SDU is discarded (PDCP SN 0) before the lower layer asks for data. *)
Definition ex_discard_ops : list tx_op := [op_sdu 0 true ex_sdu1 false; op_discard true 0].
Definition ex_tx_discarded : RlcTxUm.rlc_tx_um_entity := Eval vm_compute in match tx_exec ex_discard_ops (ex_tx0, [], []) with Some (e, _, _) => e | None => ex_tx0 end.

Lemma um_tx_sends_discarded_sdu_witness : exists e1 es1 e2 es2, RlcTxUm.pull_pdu 10 ex_tx_discarded = Ok ([], e1, es1) /\
  RlcTxUm.pull_pdu 10 e1 = Ok (0 :: ex_sdu1, e2, es2).
Proof.
  apply (um_tx_sends_discarded_sdu ex_tx ex_tx_discarded ex_discard_ops [] [ex_sdu1] (mk_sdu ex_sdu1 false (Some 0) 0) 10);
    [apply ex_config_ok| |reflexivity|vm_compute; reflexivity|vm_compute; reflexivity|vm_compute; split; congruence].
  apply (tx_exec_run ex_tx ex_discard_ops [] ex_tx0 [] []); [by constructor| |vm_compute; reflexivity].
  apply Forall_cons. split; [split; [bytes|split; vm_compute; congruence]|]. apply Forall_cons. split; [split; vm_compute; congruence|]. apply Forall_nil. exact I.
Defined.
