(* ===== verification/RlcTxAm.v ===== *)
(** * RLC AM transmitting entity

    Models [lib/rlc/rlc_tx_am_entity.{h,cpp}] and the bin of [lib/rlc/rlc_pdu_recycler.h]: SDUs from
    the upper layer, PDUs on request of the lower layer (status PDU, retransmission, continued
    segment, new SDU, in this order), the polling bit with t-PollRetransmit, status PDUs of the peer
    (acknowledgement, NACKs, retransmission counters) and the buffer state.

    A span handed to [pull_pdu] is its length [grant_len]; the PDU written is the list returned.
    Calls to neighbours are events, tasks given to an executor as well.  The time is an argument
    where it is read.  Not modelled: logging, latency metrics and what only feeds them. *)

From S2P Require Import Prelude Effects Window RlcConfig RlcAmPdu Timers PdcpSn SduQueue RetxQueue RlcTxUm.
Import AmHeader StatusPdu.
Open Scope Z_scope.
Open Scope entity_scope.

Module RlcTxAm.

Record rlc_tx_am_sdu_info := mk_info {
  sdu : list Z;
  is_retx : bool;
  pdcp_sn : option Z;
  time_of_arrival : Z;
  next_so : Z;
  retx_count : Z
}.
Definition sdu_info_default : rlc_tx_am_sdu_info := mk_info [] false None 0 0 RETX_COUNT_NOT_STARTED.

Record rlc_tx_am_state := mk_state {
  tx_next_ack : Z;
  tx_next : Z;
  poll_sn : Z;
  pdu_without_poll : Z;
  byte_without_poll : Z
}.

Record rlc_tx_am_entity := mk_entity {
  cfg : rlc_tx_am_config;
  rb_is_srb : bool;
  st : rlc_tx_am_state;
  sdu_queue : SduQueue.rlc_sdu_queue;
  sn_under_segmentation : Z;
  retx_queue : RetxQueue.rlc_retx_queue;
  retx_sn_latest : Z;
  tx_window : CircularMap.t rlc_tx_am_sdu_info;
  recycle_bin : list (list Z);
  poll_retransmit_timer : unique_timer;
  prev_buffer_state : rlc_buffer_state;
  suspend_bs_notif_barring : bool;
  pending_buffer_state : bool;
  stopped_upper : bool;
  stopped_lower : bool;
  max_retx_reached : bool
}.

Inductive tx_event :=
| on_transmitted_sdu (pdcp_sn desired_buf_size : Z)
| on_retransmitted_sdu (pdcp_sn : Z)
| on_delivered_sdu (pdcp_sn : Z)
| on_delivered_retransmitted_sdu (pdcp_sn : Z)
| on_max_retx
| on_protocol_failure
| defer_on_protocol_failure
| on_buffer_state_update (bs : rlc_buffer_state)
| get_status_pdu
| pcap_push_pdu (pdu : list Z)
| execute_handle_status_pdu (status : rlc_am_status_pdu)
| defer_update_mac_buffer_state
| execute_stop_lower
| execute_clear_recycler
| metrics_add_sdus (n bytes : Z)
| metrics_add_lost_sdus (n : Z)
| metrics_add_discard (n : Z)
| metrics_add_discard_failure (n : Z)
| metrics_add_ctrl_pdus (n bytes : Z)
| metrics_add_pulled_sdus (n : Z)
| metrics_add_pdus_no_segmentation (n bytes : Z)
| metrics_add_pdus_with_segmentation_am (n bytes : Z)
| metrics_add_retx_pdus (n bytes : Z).

Definition set_st (v : rlc_tx_am_state) (e : rlc_tx_am_entity) : rlc_tx_am_entity :=
  mk_entity (cfg e) (rb_is_srb e) v (sdu_queue e) (sn_under_segmentation e) (retx_queue e) (retx_sn_latest
    e) (tx_window e) (recycle_bin e) (poll_retransmit_timer e) (prev_buffer_state e)
    (suspend_bs_notif_barring e) (pending_buffer_state e) (stopped_upper e) (stopped_lower e)
    (max_retx_reached e).
Definition set_sdu_queue (v : SduQueue.rlc_sdu_queue) (e : rlc_tx_am_entity) : rlc_tx_am_entity :=
  mk_entity (cfg e) (rb_is_srb e) (st e) v (sn_under_segmentation e) (retx_queue e) (retx_sn_latest e)
    (tx_window e) (recycle_bin e) (poll_retransmit_timer e) (prev_buffer_state e) (suspend_bs_notif_barring
    e) (pending_buffer_state e) (stopped_upper e) (stopped_lower e) (max_retx_reached e).
Definition set_sn_under_segmentation (v : Z) (e : rlc_tx_am_entity) : rlc_tx_am_entity :=
  mk_entity (cfg e) (rb_is_srb e) (st e) (sdu_queue e) v (retx_queue e) (retx_sn_latest e) (tx_window e)
    (recycle_bin e) (poll_retransmit_timer e) (prev_buffer_state e) (suspend_bs_notif_barring e)
    (pending_buffer_state e) (stopped_upper e) (stopped_lower e) (max_retx_reached e).
Definition set_retx_queue (v : RetxQueue.rlc_retx_queue) (e : rlc_tx_am_entity) : rlc_tx_am_entity :=
  mk_entity (cfg e) (rb_is_srb e) (st e) (sdu_queue e) (sn_under_segmentation e) v (retx_sn_latest e)
    (tx_window e) (recycle_bin e) (poll_retransmit_timer e) (prev_buffer_state e) (suspend_bs_notif_barring
    e) (pending_buffer_state e) (stopped_upper e) (stopped_lower e) (max_retx_reached e).
Definition set_retx_sn_latest (v : Z) (e : rlc_tx_am_entity) : rlc_tx_am_entity :=
  mk_entity (cfg e) (rb_is_srb e) (st e) (sdu_queue e) (sn_under_segmentation e) (retx_queue e) v (tx_window
    e) (recycle_bin e) (poll_retransmit_timer e) (prev_buffer_state e) (suspend_bs_notif_barring e)
    (pending_buffer_state e) (stopped_upper e) (stopped_lower e) (max_retx_reached e).
Definition set_tx_window (v : CircularMap.t rlc_tx_am_sdu_info) (e : rlc_tx_am_entity) : rlc_tx_am_entity :=
  mk_entity (cfg e) (rb_is_srb e) (st e) (sdu_queue e) (sn_under_segmentation e) (retx_queue e)
    (retx_sn_latest e) v (recycle_bin e) (poll_retransmit_timer e) (prev_buffer_state e)
    (suspend_bs_notif_barring e) (pending_buffer_state e) (stopped_upper e) (stopped_lower e)
    (max_retx_reached e).
Definition set_recycle_bin (v : list (list Z)) (e : rlc_tx_am_entity) : rlc_tx_am_entity :=
  mk_entity (cfg e) (rb_is_srb e) (st e) (sdu_queue e) (sn_under_segmentation e) (retx_queue e)
    (retx_sn_latest e) (tx_window e) v (poll_retransmit_timer e) (prev_buffer_state e)
    (suspend_bs_notif_barring e) (pending_buffer_state e) (stopped_upper e) (stopped_lower e)
    (max_retx_reached e).
Definition set_poll_retransmit_timer (v : unique_timer) (e : rlc_tx_am_entity) : rlc_tx_am_entity :=
  mk_entity (cfg e) (rb_is_srb e) (st e) (sdu_queue e) (sn_under_segmentation e) (retx_queue e)
    (retx_sn_latest e) (tx_window e) (recycle_bin e) v (prev_buffer_state e) (suspend_bs_notif_barring e)
    (pending_buffer_state e) (stopped_upper e) (stopped_lower e) (max_retx_reached e).
Definition set_prev_buffer_state (v : rlc_buffer_state) (e : rlc_tx_am_entity) : rlc_tx_am_entity :=
  mk_entity (cfg e) (rb_is_srb e) (st e) (sdu_queue e) (sn_under_segmentation e) (retx_queue e)
    (retx_sn_latest e) (tx_window e) (recycle_bin e) (poll_retransmit_timer e) v (suspend_bs_notif_barring
    e) (pending_buffer_state e) (stopped_upper e) (stopped_lower e) (max_retx_reached e).
Definition set_suspend_bs_notif_barring (v : bool) (e : rlc_tx_am_entity) : rlc_tx_am_entity :=
  mk_entity (cfg e) (rb_is_srb e) (st e) (sdu_queue e) (sn_under_segmentation e) (retx_queue e)
    (retx_sn_latest e) (tx_window e) (recycle_bin e) (poll_retransmit_timer e) (prev_buffer_state e) v
    (pending_buffer_state e) (stopped_upper e) (stopped_lower e) (max_retx_reached e).
Definition set_pending_buffer_state (v : bool) (e : rlc_tx_am_entity) : rlc_tx_am_entity :=
  mk_entity (cfg e) (rb_is_srb e) (st e) (sdu_queue e) (sn_under_segmentation e) (retx_queue e)
    (retx_sn_latest e) (tx_window e) (recycle_bin e) (poll_retransmit_timer e) (prev_buffer_state e)
    (suspend_bs_notif_barring e) v (stopped_upper e) (stopped_lower e) (max_retx_reached e).
Definition set_stopped_upper (v : bool) (e : rlc_tx_am_entity) : rlc_tx_am_entity :=
  mk_entity (cfg e) (rb_is_srb e) (st e) (sdu_queue e) (sn_under_segmentation e) (retx_queue e)
    (retx_sn_latest e) (tx_window e) (recycle_bin e) (poll_retransmit_timer e) (prev_buffer_state e)
    (suspend_bs_notif_barring e) (pending_buffer_state e) v (stopped_lower e) (max_retx_reached e).
Definition set_stopped_lower (v : bool) (e : rlc_tx_am_entity) : rlc_tx_am_entity :=
  mk_entity (cfg e) (rb_is_srb e) (st e) (sdu_queue e) (sn_under_segmentation e) (retx_queue e)
    (retx_sn_latest e) (tx_window e) (recycle_bin e) (poll_retransmit_timer e) (prev_buffer_state e)
    (suspend_bs_notif_barring e) (pending_buffer_state e) (stopped_upper e) v (max_retx_reached e).
Definition set_max_retx_reached (v : bool) (e : rlc_tx_am_entity) : rlc_tx_am_entity :=
  mk_entity (cfg e) (rb_is_srb e) (st e) (sdu_queue e) (sn_under_segmentation e) (retx_queue e)
    (retx_sn_latest e) (tx_window e) (recycle_bin e) (poll_retransmit_timer e) (prev_buffer_state e)
    (suspend_bs_notif_barring e) (pending_buffer_state e) (stopped_upper e) (stopped_lower e) v.
Definition set_tx_next_ack (v : Z) (e : rlc_tx_am_entity) : rlc_tx_am_entity :=
  set_st (mk_state v (tx_next (st e)) (poll_sn (st e)) (pdu_without_poll (st e)) (byte_without_poll (st e)))
    e.
Definition set_tx_next (v : Z) (e : rlc_tx_am_entity) : rlc_tx_am_entity :=
  set_st (mk_state (tx_next_ack (st e)) v (poll_sn (st e)) (pdu_without_poll (st e)) (byte_without_poll (st
    e))) e.
Definition set_poll_sn (v : Z) (e : rlc_tx_am_entity) : rlc_tx_am_entity :=
  set_st (mk_state (tx_next_ack (st e)) (tx_next (st e)) v (pdu_without_poll (st e)) (byte_without_poll (st
    e))) e.
Definition set_pdu_without_poll (v : Z) (e : rlc_tx_am_entity) : rlc_tx_am_entity :=
  set_st (mk_state (tx_next_ack (st e)) (tx_next (st e)) (poll_sn (st e)) v (byte_without_poll (st e))) e.
Definition set_byte_without_poll (v : Z) (e : rlc_tx_am_entity) : rlc_tx_am_entity :=
  set_st (mk_state (tx_next_ack (st e)) (tx_next (st e)) (poll_sn (st e)) (pdu_without_poll (st e)) v) e.

(** A handler of the entity. *)
Definition H (A : Type) : Type := M rlc_tx_am_entity tx_event A.

(** ** Constants of the entity and window helpers *)

Definition mod_ (e : rlc_tx_am_entity) : Z := cardinality (to_number_am_sn (txam_sn_field_length (cfg e))).
Definition am_window_size (e : rlc_tx_am_entity) : Z := rlc_window_size (to_number_am_sn (txam_sn_field_length (cfg e))).
Definition head_min_size (e : rlc_tx_am_entity) : Z := rlc_am_pdu_header_min_size (txam_sn_field_length (cfg e)).
Definition head_max_size (e : rlc_tx_am_entity) : Z := rlc_am_pdu_header_max_size (txam_sn_field_length (cfg e)).

Definition tx_mod_base (e : rlc_tx_am_entity) (x : Z) : Z := u32 (x - tx_next_ack (st e)) mod mod_ e.

Definition inside_tx_window (e : rlc_tx_am_entity) (sn : Z) : bool := tx_mod_base e sn <? am_window_size e.

Definition is_tx_window_full (e : rlc_tx_am_entity) : bool :=
  CircularMap.full (tx_window e) ||
  (negb (txam_max_window (cfg e) =? 0) && (txam_max_window (cfg e) <? tx_mod_base e (tx_next (st e)))).

Definition valid_ack_sn (e : rlc_tx_am_entity) (sn : Z) : bool :=
  (0 <? tx_mod_base e sn) && (tx_mod_base e sn <=? am_window_size e).

Definition has_sn (e : rlc_tx_am_entity) (sn : Z) : bool := SduWindow.has_sn (tx_window e) sn.
(** [tx_window[sn]], read and written through the reference. *)
Definition window_at (sn : Z) : H rlc_tx_am_sdu_info := let! e := get in SduWindow.index (tx_window e) sn.
Definition window_set (sn : Z) (info : rlc_tx_am_sdu_info) : H unit :=
  modify (fun e => set_tx_window (CircularMap.set_at (tx_window e) (u32 sn) info) e).

(** ** Construction and shutdown *)

(** [None]: an assertion of the constructor fails. *)
Definition create (config : rlc_tx_am_config) (is_srb : bool) : option rlc_tx_am_entity :=
  let size := rlc_window_size (to_number_am_sn (txam_sn_field_length config)) in
  if bool_decide (txam_pdcp_sn_len config = pdcp_size_invalid) then None else
  timer ← (if 0 <? txam_t_poll_retx config then
             match timer_set (S := unit) (E := unit) create_timer (txam_t_poll_retx config) tt with
             | Ok (t, _, _) => Some t
             | Fault _ => None
             end
           else Some create_timer);
  Some (mk_entity config is_srb (mk_state 0 0 0 0 0)
          (SduQueue.create (txam_queue_size config) (txam_queue_size_bytes config))
          INVALID_RLC_SN (RetxQueue.create size) INVALID_RLC_SN (CircularMap.empty_map size) []
          timer buffer_state_default true false false false false).

(** The task [stop] executes in the cell executor. *)
Definition stop_lower (e : rlc_tx_am_entity) : rlc_tx_am_entity :=
  set_poll_retransmit_timer (timer_stop (poll_retransmit_timer e)) (set_stopped_lower true e).

Definition stop : H unit :=
  let! e := get in
  when (negb (stopped_upper e)) (modify (set_stopped_upper true) ;;; emit execute_stop_lower).

(** ** Buffer state *)

(** The loop that drops retransmissions of SDUs that left the window. *)
Definition drop_stale_retx_step (_ : unit) : H (unit + unit) :=
  let! e := get in
  if RetxQueue.empty (retx_queue e) then ret (inr tt) else
  let! r := need (RetxQueue.front (retx_queue e)) in
  if has_sn e (retx_sn r) then ret (inr tt)
  else modify (fun e => set_retx_queue (RetxQueue.pop (retx_queue e)) e) ;;; ret (inl tt).

Definition retx_fuel (e : rlc_tx_am_entity) : nat := Datatypes.S (length (RetxQueue.queue (retx_queue e))).

Definition get_buffer_state (provider : rlc_rx_am_status_provider) : H rlc_buffer_state :=
  let! e := get in
  let queue_state := SduQueue.get_state (sdu_queue e) in
  let queue_bytes := u32 (SduQueue.n_bytes queue_state + SduQueue.n_sdus queue_state * head_min_size e) in
  let! seg :=
    (if negb (sn_under_segmentation e =? INVALID_RLC_SN) then
       if has_sn e (sn_under_segmentation e) then
         let! sdu_info := window_at (sn_under_segmentation e) in
         ret (u32 (zlen (sdu sdu_info) - next_so sdu_info + head_max_size e), Some (time_of_arrival sdu_info))
       else ret (0, None)
     else
       let '(q, next_sdu) := SduQueue.front (sdu_queue e) in
       modify (set_sdu_queue q) ;;;
       ret (0, sdu_time_of_arrival <$> next_sdu)) in
  let retx_state := RetxQueue.st (retx_queue e) in
  let retx_bytes := u32 (RetxQueue.retx_bytes retx_state + RetxQueue.n_retx_so_zero retx_state * head_min_size e
                         + RetxQueue.n_retx_so_nonzero retx_state * head_max_size e) in
  while_loop (retx_fuel e) drop_stale_retx_step tt ;;;
  let! e := get in
  let! toa :=
    (if negb (RetxQueue.empty (retx_queue e)) then
       let! r := need (RetxQueue.front (retx_queue e)) in
       let! info := window_at (retx_sn r) in
       ret (Some (time_of_arrival info))
     else ret (snd seg)) in
  let status_bytes := if status_report_required provider then status_pdu_length provider else 0 in
  let bs := mk_buffer_state (u32 (queue_bytes + fst seg + retx_bytes + status_bytes)) toa in
  when (pending_bytes bs <=? MAX_DL_PDU_LENGTH) (modify (set_suspend_bs_notif_barring true)) ;;;
  ret bs.

Definition update_mac_buffer_state (provider : rlc_rx_am_status_provider) (force_notify : bool) : H unit :=
  modify (set_pending_buffer_state false) ;;;
  let! bs := get_buffer_state provider in
  let! e := get in
  when (force_notify || (pending_bytes bs <=? MAX_DL_PDU_LENGTH) ||
        (pending_bytes (prev_buffer_state e) <=? MAX_DL_PDU_LENGTH) || suspend_bs_notif_barring e ||
        hol_toa_ltb (hol_toa bs) (hol_toa (prev_buffer_state e)))
    (modify (set_suspend_bs_notif_barring false) ;;; emit (on_buffer_state_update bs)) ;;;
  modify (set_prev_buffer_state bs).

(** [deferred]: the cell executor accepts the task. *)
Definition handle_changed_buffer_state (deferred : bool) : H unit :=
  let! e := get in
  when (negb (pending_buffer_state e))
    (modify (set_pending_buffer_state true) ;;; when deferred (emit defer_update_mac_buffer_state)).

Definition on_status_report_changed (deferred : bool) : H unit := handle_changed_buffer_state deferred.

(** ** Upper layer *)

Definition handle_sdu (now : Z) (deferred : bool) (sdu_buf : list Z) (is_retx : bool) : H unit :=
  let! e := get in
  let pdcp_sn := get_pdcp_sn sdu_buf (txam_pdcp_sn_len (cfg e)) (rb_is_srb e) in
  let is_retx := if rb_is_srb e && is_retx then false else is_retx in
  let sdu := mk_sdu sdu_buf is_retx pdcp_sn now in
  let '(q, written) := SduQueue.write sdu (sdu_queue e) in
  modify (set_sdu_queue q) ;;;
  if written then
    emit (metrics_add_sdus 1 (zlen sdu_buf)) ;;; handle_changed_buffer_state deferred
  else emit (metrics_add_lost_sdus 1).

Definition discard_sdu (deferred : bool) (pdcp_sn : Z) : H unit :=
  let! e := get in
  let '(q, discarded) := SduQueue.try_discard pdcp_sn (sdu_queue e) in
  modify (set_sdu_queue q) ;;;
  if discarded then emit (metrics_add_discard 1) ;;; handle_changed_buffer_state deferred
  else emit (metrics_add_discard_failure 1).

(** ** Polling bit (TS 38.322, 5.3.3.2) *)

(** Nothing more can be sent: both buffers are empty, or the window is full. *)
Definition no_new_transmission (e : rlc_tx_am_entity) : bool :=
  (SduQueue.is_empty (sdu_queue e) && RetxQueue.empty (retx_queue e) &&
   (sn_under_segmentation e =? INVALID_RLC_SN)) || is_tx_window_full e.

Definition restart_poll_retransmit_timer : H unit :=
  let! e := get in
  when ((0 <? txam_t_poll_retx (cfg e)) && negb (stopped_lower e))
    (let! tm :=
       (if negb (is_running (poll_retransmit_timer e)) then timer_run (poll_retransmit_timer e)
        else timer_run (timer_stop (poll_retransmit_timer e))) in
     modify (set_poll_retransmit_timer tm)).

Definition get_polling_bit (sn : Z) (is_retx : bool) (payload_size : Z) : H Z :=
  when (negb is_retx)
    (modify (fun e => set_pdu_without_poll (u32 (pdu_without_poll (st e) + 1)) e) ;;;
     modify (fun e => set_byte_without_poll (u32 (byte_without_poll (st e) + payload_size)) e)) ;;;
  let! e := get in
  let by_counters :=
    negb is_retx &&
    (((0 <? txam_poll_pdu (cfg e)) && (u32 (txam_poll_pdu (cfg e)) <=? pdu_without_poll (st e))) ||
     ((0 <? txam_poll_byte (cfg e)) && (u32 (txam_poll_byte (cfg e)) <=? byte_without_poll (st e)))) in
  let poll := by_counters || no_new_transmission e in
  when poll
    (modify (set_pdu_without_poll 0) ;;;
     modify (set_byte_without_poll 0) ;;;
     when (negb is_retx) (modify (set_poll_sn sn)) ;;;
     restart_poll_retransmit_timer) ;;;
  ret (if poll then 1 else 0).

(** ** PDUs for the lower layer *)

(** [rlc_am_write_data_pdu_header] into the span: writing past it aborts. *)
Definition write_header (grant_len : Z) (hdr : rlc_am_pdu_header) : H (list Z) :=
  let bytes := rlc_am_write_data_pdu_header hdr in
  assert_ (zlen bytes <=? grant_len) ;;;
  ret bytes.

(** [copy_segments] from [byte_buffer_view{buf, so, len}] into a span of [dst_len] bytes; a view past
    the buffer is undefined. *)
Definition copy_view (buf : list Z) (so len dst_len : Z) : H (list Z) :=
  assert_ (so + len <=? zlen buf) ;;;
  ret (sub so (Z.min len dst_len) buf).

Definition build_first_sdu_segment (grant_len sn : Z) : H (list Z) :=
  let! e := get in
  let! sdu_info := window_at sn in
  if zlen (sdu sdu_info) + head_min_size e <=? grant_len then ret [] else
  if grant_len <=? head_min_size e then ret [] else
  let segment_payload_len := u32 (grant_len - head_min_size e) in
  modify (set_sn_under_segmentation (tx_next (st e))) ;;;
  let! p := get_polling_bit (tx_next (st e)) false segment_payload_len in
  let hdr := mk_header dc_data p first_segment (txam_sn_field_length (cfg e)) (tx_next (st e))
               (u16 (next_so sdu_info)) in
  let! header := write_header grant_len hdr in
  let! payload := copy_view (sdu sdu_info) (so hdr) segment_payload_len (grant_len - zlen header) in
  if (zlen payload =? 0) || negb (zlen payload =? segment_payload_len) then ret [] else
  window_set sn (mk_info (sdu sdu_info) (is_retx sdu_info) (pdcp_sn sdu_info) (time_of_arrival sdu_info)
                   (u32 (next_so sdu_info + segment_payload_len)) (retx_count sdu_info)) ;;;
  emit (metrics_add_pdus_with_segmentation_am 1 (zlen header + zlen payload)) ;;;
  ret (header ++ payload).

(** The end of [build_new_pdu], for an SDU that fits.  The payload size is read from [sdu.buf], which
    was moved into the window: it is 0. *)
Definition build_full_pdu (grant_len sn : Z) (buf : list Z) : H (list Z) :=
  let! e := get in
  let! p := get_polling_bit sn false (zlen (@nil Z)) in
  let! header := write_header grant_len (mk_header dc_data p full_sdu (txam_sn_field_length (cfg e)) sn 0) in
  let payload := take (Z.to_nat (grant_len - zlen header)) buf in
  if zlen payload =? 0 then ret [] else
  emit (metrics_add_pulled_sdus 1) ;;;
  modify (set_tx_next ((sn + 1) mod mod_ e)) ;;;
  emit (metrics_add_pdus_no_segmentation 1 (zlen header + zlen payload)) ;;;
  ret (header ++ payload).

Definition build_new_pdu (grant_len : Z) : H (list Z) :=
  let! e := get in
  if grant_len <=? head_min_size e then ret [] else
  if is_tx_window_full e then ret [] else
  let '(q, read) := SduQueue.read (sdu_queue e) in
  modify (set_sdu_queue q) ;;;
  match read with
  | None => ret []
  | Some s =>
      let sn := tx_next (st e) in
      let! w := SduWindow.add_sn sdu_info_default (tx_window e) sn in
      modify (set_tx_window w) ;;;
      window_set sn (mk_info (sdu_buf s) (sdu_is_retx s) (sdu_pdcp_sn s) (sdu_time_of_arrival s)
                       (next_so sdu_info_default) (retx_count sdu_info_default)) ;;;
      match sdu_pdcp_sn s with
      | Some p =>
          if sdu_is_retx s then emit (on_retransmitted_sdu p)
          else emit (on_transmitted_sdu p (txam_queue_size_bytes (cfg e)))
      | None => ret tt
      end ;;;
      if grant_len <? zlen (sdu_buf s) + head_min_size e then build_first_sdu_segment grant_len sn else
      build_full_pdu grant_len sn (sdu_buf s)
  end.

Definition build_continued_sdu_segment (grant_len sn : Z) : H (list Z) :=
  let! e := get in
  let! sdu_info := window_at sn in
  if next_so sdu_info =? 0 then modify (set_sn_under_segmentation INVALID_RLC_SN) ;;; ret [] else
  if zlen (sdu sdu_info) <=? next_so sdu_info then
    modify (set_sn_under_segmentation INVALID_RLC_SN) ;;; ret []
  else
  if grant_len <=? head_max_size e then ret [] else
  let rest_len := u32 (zlen (sdu sdu_info) - next_so sdu_info) in
  let last := negb (grant_len <? u32 (rest_len + head_max_size e)) in
  let segment_payload_len := if last then rest_len else u32 (grant_len - head_max_size e) in
  when last (modify (set_sn_under_segmentation INVALID_RLC_SN)) ;;;
  let! p := get_polling_bit (tx_next (st e)) false segment_payload_len in
  let hdr := mk_header dc_data p (if last then last_segment else middle_segment)
               (txam_sn_field_length (cfg e)) (tx_next (st e)) (u16 (next_so sdu_info)) in
  let! header := write_header grant_len hdr in
  let! payload := copy_view (sdu sdu_info) (so hdr) segment_payload_len (grant_len - zlen header) in
  if (zlen payload =? 0) || negb (zlen payload =? segment_payload_len) then ret [] else
  window_set sn (mk_info (sdu sdu_info) (is_retx sdu_info) (pdcp_sn sdu_info) (time_of_arrival sdu_info)
                   (u32 (next_so sdu_info + segment_payload_len)) (retx_count sdu_info)) ;;;
  when last
    (emit (metrics_add_pulled_sdus 1) ;;; modify (set_tx_next ((tx_next (st e) + 1) mod mod_ e))) ;;;
  emit (metrics_add_pdus_with_segmentation_am 1 (zlen header + zlen payload)) ;;;
  ret (header ++ payload).

Definition get_retx_expected_hdr_len (e : rlc_tx_am_entity) (retx : rlc_tx_amd_retx) : Z :=
  if retx_so retx =? 0 then head_min_size e else head_max_size e.

Definition retx_pop : H unit := modify (fun e => set_retx_queue (RetxQueue.pop (retx_queue e)) e).

(** The loop that drops the retransmissions at the front whose SDU left the window: whether one is
    left. *)
Definition skip_missing_retx_step (_ : unit) : H (unit + bool) :=
  let! e := get in
  let! r := need (RetxQueue.front (retx_queue e)) in
  if has_sn e (retx_sn r) then ret (inr true) else
  retx_pop ;;;
  let! e := get in
  if RetxQueue.empty (retx_queue e) then ret (inr false) else ret (inl tt).

(** The retransmission sent leaves the queue, or its remainder stays at the front. *)
Definition update_retx_queue (retx : rlc_tx_amd_retx) (retx_payload_len : Z) : H unit :=
  if retx_payload_len =? retx_length retx then
    let! info := window_at (retx_sn retx) in
    let! e := get in
    when (retx_count info =? txam_max_retx_thresh (cfg e)) (modify (set_max_retx_reached true)) ;;;
    retx_pop
  else
    let! e := get in
    let! front := need (RetxQueue.front (retx_queue e)) in
    let retx_remainder := mk_retx (retx_sn front) (u32 (retx_so front + retx_payload_len))
                            (u32 (retx_length front - retx_payload_len)) in
    let! q := need (RetxQueue.replace_front retx_remainder (retx_queue e)) in
    modify (set_retx_queue q).

Definition retx_si (so : Z) (sdu_complete : bool) : rlc_si_field :=
  if so =? 0 then (if sdu_complete then full_sdu else first_segment)
  else (if sdu_complete then last_segment else middle_segment).

Definition build_retx_pdu (grant_len : Z) : H (list Z) :=
  let! e := get in
  if RetxQueue.empty (retx_queue e) then ret [] else
  let! available := while_loop (retx_fuel e) skip_missing_retx_step tt in
  if negb available then ret [] else
  let! e := get in
  let! retx := need (RetxQueue.front (retx_queue e)) in
  modify (set_retx_sn_latest (retx_sn retx)) ;;;
  let! sdu_info := window_at (retx_sn retx) in
  if zlen (sdu sdu_info) <? u32 (retx_so retx + retx_length retx) then retx_pop ;;; ret [] else
  let expected_hdr_len := get_retx_expected_hdr_len e retx in
  if grant_len <=? expected_hdr_len then ret [] else
  let retx_payload_len := Z.min (retx_length retx) (grant_len - expected_hdr_len) in
  let sdu_complete := zlen (sdu sdu_info) <=? retx_so retx + retx_payload_len in
  let si := retx_si (retx_so retx) sdu_complete in
  update_retx_queue retx retx_payload_len ;;;
  let! p := get_polling_bit (retx_sn retx) true 0 in
  let hdr := mk_header dc_data p si (txam_sn_field_length (cfg e)) (retx_sn retx) (u16 (retx_so retx)) in
  let! header := write_header grant_len hdr in
  assert_ (zlen header =? expected_hdr_len) ;;;
  let! payload := copy_view (sdu sdu_info) (so hdr) retx_payload_len (grant_len - zlen header) in
  if (zlen payload =? 0) || negb (zlen payload =? retx_payload_len) then ret [] else
  emit (metrics_add_retx_pdus 1 (zlen header + zlen payload)) ;;;
  ret (header ++ payload).

(** The status PDU, trimmed to the grant if it is larger. *)
Definition send_status_pdu (provider : rlc_rx_am_status_provider) (grant_len : Z) : H (list Z) :=
  if grant_len <? rlc_am_nr_status_pdu_sizeof_header_ack_sn then ret [] else
  emit get_status_pdu ;;;
  let '(s, fits) :=
    if grant_len <? packed_size (status_pdu provider) then trim (status_pdu provider) grant_len
    else (status_pdu provider, true) in
  if negb fits then ret [] else
  let pdu := pack s in
  assert_ (zlen pdu <=? grant_len) ;;;
  if zlen pdu =? 0 then ret [] else
  emit (pcap_push_pdu pdu) ;;;
  emit (metrics_add_ctrl_pdus 1 (zlen pdu)) ;;;
  ret pdu.

(** A PDU from one of the builders goes to the packet capture. *)
Definition captured (m : H (list Z)) : H (list Z) :=
  let! pdu := m in
  emit (pcap_push_pdu pdu) ;;;
  ret pdu.

Definition pull_pdu (provider : rlc_rx_am_status_provider) (grant_len : Z) : H (list Z) :=
  let! e := get in
  if max_retx_reached e then ret [] else
  if status_report_required provider then send_status_pdu provider grant_len else
  if negb (RetxQueue.empty (retx_queue e)) then captured (build_retx_pdu grant_len) else
  if negb (sn_under_segmentation e =? INVALID_RLC_SN) && has_sn e (sn_under_segmentation e) then
    captured (build_continued_sdu_segment grant_len (sn_under_segmentation e))
  else
    when (negb (sn_under_segmentation e =? INVALID_RLC_SN)) (modify (set_sn_under_segmentation INVALID_RLC_SN)) ;;;
    if SduQueue.is_empty (sdu_queue e) then ret [] else captured (build_new_pdu grant_len).

(** ** Retransmission counters *)

Definition set_retx_count (info : rlc_tx_am_sdu_info) (n : Z) : rlc_tx_am_sdu_info :=
  mk_info (sdu info) (is_retx info) (pdcp_sn info) (time_of_arrival info) (next_so info) n.

Definition check_sn_reached_max_retx (sn : Z) : H unit :=
  let! info := window_at sn in
  let! e := get in
  when (retx_count info =? txam_max_retx_thresh (cfg e)) (emit on_max_retx).

Definition increment_retx_count (sn : Z) : H unit :=
  let! pdu := window_at sn in
  window_set sn (set_retx_count pdu
    (if retx_count pdu =? RETX_COUNT_NOT_STARTED then 0 else u32 (retx_count pdu + 1))) ;;;
  check_sn_reached_max_retx sn.

Definition decrement_retx_count (sn : Z) : H unit :=
  let! pdu := window_at sn in
  if retx_count pdu =? RETX_COUNT_NOT_STARTED then ret tt else
  window_set sn (set_retx_count pdu
    (if retx_count pdu =? 0 then RETX_COUNT_NOT_STARTED else retx_count pdu - 1)).

(** ** Status PDUs of the peer *)

(** [None]: the NACK is acceptable; [Some b]: it is not, and [b] says whether the peer violated the
    protocol. *)
Definition check_nack (e : rlc_tx_am_entity) (ack_sn : Z) (nack : rlc_am_status_nack) : option bool :=
  let last := u32 (nack_sn nack + nack_range nack - 1) in
  if tx_mod_base e ack_sn <=? tx_mod_base e (nack_sn nack) then Some false else
  if has_nack_range nack && (tx_mod_base e ack_sn <=? tx_mod_base e last) then Some false else
  if negb (inside_tx_window e (nack_sn nack)) then Some false else
  if has_nack_range nack && negb (inside_tx_window e last) then Some false else
  if tx_mod_base e (tx_next (st e)) <? tx_mod_base e (nack_sn nack) then Some true else
  if has_nack_range nack && (tx_mod_base e (tx_next (st e)) <? tx_mod_base e last) then Some true else
  None.

Definition valid_nack (ack_sn : Z) (nack : rlc_am_status_nack) : H bool :=
  let! e := get in
  match check_nack e ack_sn nack with
  | None => ret true
  | Some violation => when violation (emit defer_on_protocol_failure) ;;; ret false
  end.

(** The NACKs are checked in order, up to the first one that is not acceptable. *)
Fixpoint all_nacks_valid (ack_sn : Z) (nacks : list rlc_am_status_nack) : H bool :=
  match nacks with
  | [] => ret true
  | nack :: nacks' =>
      let! valid := valid_nack ack_sn nack in
      if valid then all_nacks_valid ack_sn nacks' else ret false
  end.

Definition add_discarded_pdu (pdu : list Z) : H unit :=
  modify (fun e => if zlen (recycle_bin e) <? am_window_size e
                   then set_recycle_bin (recycle_bin e ++ [pdu]) e else e).

(** One turn of the ACK loop: the loop variables are the SN and the latest PDCP SNs delivered, of
    new and of retransmitted SDUs. *)
Definition ack_step (stop_sn : Z) (v : Z * option Z * option Z) :
    H ((Z * option Z * option Z) + (option Z * option Z)) :=
  let '(sn, max_deliv_pdcp_sn, max_deliv_retx_pdcp_sn) := v in
  let! e := get in
  if negb (tx_mod_base e sn <? tx_mod_base e stop_sn) then
    ret (inr (max_deliv_pdcp_sn, max_deliv_retx_pdcp_sn))
  else if has_sn e sn then
    let! sdu_info := window_at sn in
    let deliv :=
      match pdcp_sn sdu_info with
      | Some _ => if is_retx sdu_info then (max_deliv_pdcp_sn, pdcp_sn sdu_info)
                  else (pdcp_sn sdu_info, max_deliv_retx_pdcp_sn)
      | None => (max_deliv_pdcp_sn, max_deliv_retx_pdcp_sn)
      end in
    add_discarded_pdu (sdu sdu_info) ;;;
    let! w := SduWindow.remove_sn (tx_window e) sn in
    modify (set_tx_window w) ;;;
    modify (set_tx_next_ack ((sn + 1) mod mod_ e)) ;;;
    ret (inl ((sn + 1) mod mod_ e, fst deliv, snd deliv))
  else ret (inr (max_deliv_pdcp_sn, max_deliv_retx_pdcp_sn)).

Definition sn_fuel (e : rlc_tx_am_entity) : nat := Datatypes.S (Z.to_nat (mod_ e)).

Definition process_acks (stop_sn : Z) : H unit :=
  let! e := get in
  let! deliv := while_loop (sn_fuel e) (ack_step stop_sn) (tx_next_ack (st e), None, None) in
  match fst deliv with Some p => emit (on_delivered_sdu p) | None => ret tt end ;;;
  match snd deliv with Some p => emit (on_delivered_retransmitted_sdu p) | None => ret tt end.

(** One turn of the loop that empties the retransmission queue. *)
Definition clear_retx_step (_ : unit) : H (unit + unit) :=
  let! e := get in
  if RetxQueue.empty (retx_queue e) then ret (inr tt) else
  let! retx := need (RetxQueue.front (retx_queue e)) in
  when (negb (retx_sn_latest e =? retx_sn retx))
    (when (has_sn e (retx_sn retx)) (decrement_retx_count (retx_sn retx)) ;;;
     modify (set_retx_sn_latest (retx_sn retx))) ;;;
  retx_pop ;;;
  ret (inl tt).

Definition clear_retx_queue : H unit :=
  let! e := get in
  while_loop (retx_fuel e) clear_retx_step tt ;;;
  modify (set_retx_sn_latest INVALID_RLC_SN).

(** The byte range of a NACK without range, adjusted to the SDU; [None]: nothing to retransmit. *)
Definition nack_bounds (e : rlc_tx_am_entity) (sdu_info : rlc_tx_am_sdu_info) (nack : rlc_am_status_nack) :
    option (Z * Z) :=
  let sdu_length := u32 (zlen (sdu sdu_info)) in
  let so_start := if has_so nack then so_start nack else 0 in
  let so_end := if has_so nack then so_end nack else u16 (sdu_length - 1) in
  if so_end =? so_end_of_sdu then
    if negb (nack_sn nack =? sn_under_segmentation e) then Some (so_start, u16 (sdu_length - 1)) else
    if next_so sdu_info =? 0 then None else
    if next_so sdu_info <? so_start then None else
    if so_start =? next_so sdu_info then None else
    Some (so_start, u16 (next_so sdu_info - 1))
  else Some (so_start, so_end).

(** The sanity checks of a byte range: offsets outside the SDU are reported and adjusted. *)
Definition adjust_bounds (sdu_length : Z) (bounds : Z * Z) : H (Z * Z) :=
  let '(so_start, so_end) := bounds in
  let! so_start :=
    (if so_end <? so_start then emit defer_on_protocol_failure ;;; ret 0 else ret so_start) in
  let! so_start :=
    (if sdu_length <=? so_start then emit defer_on_protocol_failure ;;; ret 0 else ret so_start) in
  let! so_end :=
    (if sdu_length <=? so_end then
       emit on_protocol_failure ;;; emit defer_on_protocol_failure ;;; ret (u16 (sdu_length - 1))
     else ret so_end) in
  ret (so_start, so_end).

Definition handle_nack (nack : rlc_am_status_nack) : H bool :=
  let! e := get in
  if has_nack_range nack then ret false else
  if negb ((tx_mod_base e (tx_next_ack (st e)) <=? tx_mod_base e (nack_sn nack)) &&
           (tx_mod_base e (nack_sn nack) <=? tx_mod_base e (tx_next (st e)))) then ret false else
  let! sdu_info := window_at (nack_sn nack) in
  match nack_bounds e sdu_info nack with
  | None => ret false
  | Some bounds =>
      let! adjusted := adjust_bounds (u32 (zlen (sdu sdu_info))) bounds in
      let retx := mk_retx (nack_sn nack) (fst adjusted) (u32 (snd adjusted - fst adjusted + 1)) in
      let '(q, pushed) := RetxQueue.try_push retx (retx_queue e) in
      modify (set_retx_queue q) ;;;
      ret pushed
  end.

(** The retransmission counter is incremented once for consecutive NACKs of an SDU. *)
Definition handle_nack_and_count (prev_retx_sn : Z) (nack : rlc_am_status_nack) : H Z :=
  let! queued := handle_nack nack in
  if queued && negb (prev_retx_sn =? nack_sn nack) then
    increment_retx_count (nack_sn nack) ;;; ret (nack_sn nack)
  else ret prev_retx_sn.

(** The NACK of one SDU of a range: the first one starts, the last one ends at the range's offsets. *)
Definition nack_of_range (m : Z) (nack : rlc_am_status_nack) (range_sn : Z) : rlc_am_status_nack :=
  if has_so nack then
    let first := if range_sn =? nack_sn nack then so_start nack else 0 in
    let last := if range_sn =? u32 (nack_sn nack + nack_range nack - 1) mod m then so_end nack else so_end_of_sdu in
    mk_nack range_sn (negb (first =? 0) || negb (last =? so_end_of_sdu)) first last false 0
  else mk_nack range_sn false 0 so_end_of_sdu false 0.

(** One turn of the loop over the SDUs of a range. *)
Definition nack_range_step (ack_sn : Z) (nack : rlc_am_status_nack) (v : Z * Z) : H ((Z * Z) + Z) :=
  let '(range_sn, prev_retx_sn) := v in
  let! e := get in
  if range_sn =? u32 (nack_sn nack + nack_range nack) mod mod_ e then ret (inr prev_retx_sn) else
  if range_sn =? ack_sn then ret (inr prev_retx_sn) else
  let! prev_retx_sn := handle_nack_and_count prev_retx_sn (nack_of_range (mod_ e) nack range_sn) in
  ret (inl ((range_sn + 1) mod mod_ e, prev_retx_sn)).

Fixpoint process_nacks (ack_sn prev_retx_sn : Z) (nacks : list rlc_am_status_nack) : H unit :=
  match nacks with
  | [] => ret tt
  | nack :: nacks' =>
      let! e := get in
      let! prev_retx_sn :=
        (if has_nack_range nack then
           while_loop (sn_fuel e) (nack_range_step ack_sn nack) (nack_sn nack, prev_retx_sn)
         else handle_nack_and_count prev_retx_sn nack) in
      process_nacks ack_sn prev_retx_sn nacks'
  end.

Definition stop_poll_timer_if_acked (ack_sn : Z) : H unit :=
  let! e := get in
  when (tx_mod_base e (poll_sn (st e)) <? tx_mod_base e ack_sn)
    (when (is_running (poll_retransmit_timer e))
       (modify (set_poll_retransmit_timer (timer_stop (poll_retransmit_timer e))))).

(** An acceptable status PDU: acknowledgements up to the first NACK, then the retransmission queue is
    rebuilt from the NACKs. *)
Definition apply_status_pdu (provider : rlc_rx_am_status_provider) (status : rlc_am_status_pdu) : H unit :=
  stop_poll_timer_if_acked (ack_sn status) ;;;
  let stop_sn := match nacks status with [] => ack_sn status | nack :: _ => nack_sn nack end in
  process_acks stop_sn ;;;
  clear_retx_queue ;;;
  process_nacks (ack_sn status) INVALID_RLC_SN (nacks status) ;;;
  update_mac_buffer_state provider true ;;;
  emit execute_clear_recycler.

Definition handle_status_pdu (provider : rlc_rx_am_status_provider) (status : rlc_am_status_pdu) : H unit :=
  let! e := get in
  if negb (valid_ack_sn e (ack_sn status)) then ret tt else
  if tx_mod_base e (u32 (tx_next (st e) + 1)) <? tx_mod_base e (ack_sn status) then
    emit defer_on_protocol_failure
  else
    let! valid := all_nacks_valid (ack_sn status) (nacks status) in
    when valid (apply_status_pdu provider status).

Definition on_status_pdu (status : rlc_am_status_pdu) : H unit := emit (execute_handle_status_pdu status).

(** The task the UE executor runs for [clear_by_executor]. *)
Definition clear_recycler (e : rlc_tx_am_entity) : rlc_tx_am_entity := set_recycle_bin [] e.

(** ** t-PollRetransmit *)

Definition on_expired_poll_retransmit_timer (provider : rlc_rx_am_status_provider) : H unit :=
  let! e := get in
  when (no_new_transmission e)
    (if CircularMap.empty (tx_window e) then ret tt else
     if negb (has_sn e (tx_next_ack (st e))) then ret tt else
     let! info := window_at (tx_next_ack (st e)) in
     let '(q, retx_enqueued) :=
       RetxQueue.try_push (mk_retx (tx_next_ack (st e)) 0 (u32 (zlen (sdu info)))) (retx_queue e) in
     modify (set_retx_queue q) ;;;
     when retx_enqueued (increment_retx_count (tx_next_ack (st e))) ;;;
     update_mac_buffer_state provider true).

(** The expiry task of t-PollRetransmit, in the cell executor. *)
Definition poll_retransmit_timeout (provider : rlc_rx_am_status_provider) (epoch : Z) : H unit :=
  let! e := get in
  let! r := timeout_task (poll_retransmit_timer e) epoch in
  modify (set_poll_retransmit_timer (fst r)) ;;;
  when (snd r) (on_expired_poll_retransmit_timer provider).

End RlcTxAm.
