(* ===== verification/RlcTxAmInv.v ===== *)
(** * RLC AM transmitting entity: its invariant

    What holds between the operations of the transmitting entity.  The transmitting window is tied to
    the list [sent] of the SDUs that were given a sequence number so far, in order: the SDU stored
    under a sequence number at distance [d] from TX_Next_Ack is number [A + d] of that list, with [A]
    the number of SDUs acknowledged so far. *)

From S2P Require Import Prelude Effects Window RlcConfig RlcAmPdu Timers PdcpSn SduQueue RetxQueue RlcTxUm RlcTxAm.
Import AmHeader StatusPdu RlcTxAm.
Open Scope Z_scope.
Open Scope entity_scope.

(** The SDU info stored under a sequence number; distances from TX_Next_Ack. *)
Definition win (e : rlc_tx_am_entity) (sn : Z) : option rlc_tx_am_sdu_info :=
  CircularMap.lookup (tx_window e) sn.
Definition dist (e : rlc_tx_am_entity) (sn : Z) : Z := sn_diff (mod_ e) (tx_next_ack (st e)) sn.
Definition is_sn (e : rlc_tx_am_entity) (sn : Z) : Prop := 0 <= sn < mod_ e.

(** The SDU with number TX_Next is partly sent. *)
Definition segmenting (e : rlc_tx_am_entity) : bool := negb (sn_under_segmentation e =? INVALID_RLC_SN).

(** SDUs in the window: sent in full, or the one under segmentation. *)
Definition in_flight (e : rlc_tx_am_entity) : Z := dist e (tx_next (st e)) + (if segmenting e then 1 else 0).

(** The largest SDU the development allows for: with it the 32-bit total of a full retransmission
    queue cannot overflow ([131072 * 32767 < 2 ^ 32]). *)
Definition MAX_SDU : Z := 32767.
Definition sdu_size_ok (d : list Z) : Prop := 0 < zlen d <= MAX_SDU.

Section ring.
Context (e : rlc_tx_am_entity).

Lemma tx_ring_sizes :
  0 < am_window_size e /\ mod_ e = 2 * am_window_size e /\ (mod_ e | 2 ^ 32) /\
  am_window_size e = 2 ^ (to_number_am_sn (txam_sn_field_length (cfg e)) - 1) /\
  mod_ e <= 262144 /\ 2048 <= am_window_size e.
Proof. apply am_ring_sizes. Qed.

Lemma head_sizes : head_max_size e = head_min_size e + 2 /\ 2 <= head_min_size e <= 3.
Proof. unfold head_max_size, head_min_size. by destruct (txam_sn_field_length (cfg e)). Qed.

Lemma tx_mod_pos : 0 < mod_ e.
Proof. pose proof tx_ring_sizes. lia. Qed.

Lemma tx_mod_base_dist sn : tx_mod_base e sn = dist e sn.
Proof. unfold tx_mod_base, dist, sn_diff. apply u32_mod; [apply tx_mod_pos|apply tx_ring_sizes]. Qed.

Lemma tx_dist_range sn : 0 <= dist e sn < mod_ e.
Proof. apply sn_diff_range, tx_mod_pos. Qed.

Lemma tx_dist_u32 sn : dist e (u32 sn) = dist e sn.
Proof.
  unfold dist, sn_diff. rewrite Zminus_mod, u32_mod, <- Zminus_mod; [done|apply tx_mod_pos|apply tx_ring_sizes].
Qed.

Lemma dist_ack : dist e (tx_next_ack (st e)) = 0.
Proof. apply sn_diff_self, tx_mod_pos. Qed.

Lemma tx_dist_inj x y : is_sn e x -> is_sn e y -> dist e x = dist e y -> x = y.
Proof. apply sn_diff_inj, tx_mod_pos. Qed.

Lemma tx_dist_succ x : dist e x + 1 < mod_ e -> dist e ((x + 1) mod mod_ e) = dist e x + 1.
Proof. apply sn_diff_succ, tx_mod_pos. Qed.

Lemma tx_dist_succ' x : dist e x + 1 < mod_ e -> dist e (x + 1) = dist e x + 1.
Proof. apply sn_diff_succ', tx_mod_pos. Qed.

Lemma tx_is_sn_mod x : is_sn e (x mod mod_ e).
Proof. apply Z.mod_pos_bound, tx_mod_pos. Qed.

Lemma tx_is_sn_u32 x : is_sn e x -> u32 x = x.
Proof. intros [??]. pose proof tx_ring_sizes. apply u32_small. lia. Qed.

Lemma is_sn_valid x : is_sn e x -> x <> INVALID_RLC_SN.
Proof. intros [??]. pose proof tx_ring_sizes. unfold INVALID_RLC_SN. lia. Qed.

Lemma tx_has_sn_win sn : is_sn e sn -> has_sn e sn = match win e sn with Some _ => true | None => false end.
Proof. intros Hsn. unfold has_sn, SduWindow.has_sn. rewrite tx_is_sn_u32 by done. apply CircularMap.contains_lookup. Qed.

Lemma wp_tx_window_at sn info (Q : rlc_tx_am_sdu_info -> rlc_tx_am_entity -> list tx_event -> Prop) :
  is_sn e sn -> win e sn = Some info -> Q info e [] -> wp (window_at sn) Q e.
Proof.
  intros Hsn Hw HQ. unfold window_at. wp_step. wp_step. unfold SduWindow.index.
  rewrite tx_is_sn_u32 by done. by eapply CircularMap.wp_at.
Qed.
End ring.

(** [tx_mod_base] as a distance, everywhere. *)
Ltac to_dist := rewrite ?tx_mod_base_dist, ?tx_dist_u32 in *.

(** ** The transmitting window *)

(** What is stored under a sequence number. *)
Record entry_ok (A : Z) (sent : list (list Z)) (e : rlc_tx_am_entity) (sn : Z) (info : rlc_tx_am_sdu_info) : Prop := {
  en_sn : is_sn e sn;
  en_in : dist e sn < in_flight e;
  en_sdu : sent !! Z.to_nat (A + dist e sn) = Some (sdu info);
  en_size : sdu_size_ok (sdu info);
  en_so : segmenting e = true -> sn = tx_next (st e) -> 0 < next_so info < zlen (sdu info)
}.

Record win_inv (A : Z) (sent : list (list Z)) (e : rlc_tx_am_entity) : Prop := {
  wi_A : 0 <= A /\ A mod mod_ e = tx_next_ack (st e);
  wi_next : is_sn e (tx_next (st e));
  wi_sent : zlen sent = A + in_flight e;
  wi_under : segmenting e = true -> sn_under_segmentation e = tx_next (st e);
  wi_room : in_flight e <= am_window_size e;
  wi_wf : CircularMap.wf (tx_window e);
  wi_cap : CircularMap.capacity (tx_window e) = am_window_size e;
  wi_count : CircularMap.count (tx_window e) = in_flight e;
  wi_some : forall sn info, win e sn = Some info -> entry_ok A sent e sn info;
  wi_none : forall sn, is_sn e sn -> win e sn = None -> in_flight e <= dist e sn
}.

Section window.
Context (A : Z) (sent : list (list Z)) (e : rlc_tx_am_entity) (Hi : win_inv A sent e).

Lemma wi_ack : is_sn e (tx_next_ack (st e)).
Proof. rewrite <- (proj2 (wi_A _ _ _ Hi)). apply tx_is_sn_mod. Qed.

Lemma in_flight_range : 0 <= in_flight e.
Proof. unfold in_flight. pose proof (tx_dist_range e (tx_next (st e))). destruct (segmenting e); lia. Qed.

(** The stored SDUs are exactly those in flight. *)
Lemma win_in_flight sn : is_sn e sn -> dist e sn < in_flight e -> exists info, win e sn = Some info.
Proof.
  intros Hsn Hd. destruct (win e sn) as [info|] eqn:E; [eauto|]. pose proof (wi_none _ _ _ Hi _ Hsn E). lia.
Qed.

Lemma has_sn_dist sn : is_sn e sn -> has_sn e sn = (dist e sn <? in_flight e).
Proof.
  intros Hsn. rewrite tx_has_sn_win by done. destruct (win e sn) as [info|] eqn:E.
  - apply (wi_some _ _ _ Hi) in E. symmetry. apply Z.ltb_lt, E.
  - apply (wi_none _ _ _ Hi) in E; [|done]. symmetry. by apply Z.ltb_ge.
Qed.

Lemma under_stored : segmenting e = true ->
  exists info, win e (tx_next (st e)) = Some info /\ 0 < next_so info < zlen (sdu info) /\ sdu_size_ok (sdu info).
Proof.
  intros Hs. destruct (win_in_flight (tx_next (st e))) as [info Hw]; [apply Hi| |].
  { unfold in_flight. rewrite Hs. lia. }
  exists info. pose proof (wi_some _ _ _ Hi _ _ Hw) as [? ? ? ? Hso]. by split; [|split; [apply Hso|]].
Qed.

(** A number beyond the SDUs in flight, within the window, has a free slot. *)
Lemma slot_free sn : is_sn e sn -> in_flight e <= dist e sn < am_window_size e ->
  CircularMap.data (tx_window e) !! CircularMap.get_circular_idx (tx_window e) sn = None.
Proof.
  intros Hsn Hd. apply CircularMap.slot_empty; [apply Hi|]. intros k Hslot.
  change (win e k = None). destruct (win e k) as [info|] eqn:E; [|done]. exfalso.
  pose proof (wi_some _ _ _ Hi _ _ E) as Hk. pose proof (en_in _ _ _ _ _ Hk) as Hkd.
  pose proof (tx_ring_sizes e) as (W1 & W2 & W3 & W4 & W5 & W6).
  set (j := to_number_am_sn (txam_sn_field_length (cfg e)) - 1) in *.
  assert (0 <= j) by (subst j; destruct (txam_sn_field_length (cfg e)); simpl; lia).
  rewrite !(circular_idx_mod _ j), (wi_cap _ _ _ Hi) in Hslot by (rewrite ?(wi_cap _ _ _ Hi), ?W4; done).
  assert (dist e k = dist e sn); [|lia].
  apply (slot_inj (mod_ e) (am_window_size e) (tx_next_ack (st e))); try done; try lia.
  - exists 2. lia.
  - unfold dist in *. lia.
  - unfold dist in *. lia.
Qed.
End window.

(** ** The queues *)

Definition queued_ok (q : SduQueue.rlc_sdu_queue) : Prop :=
  Forall (fun s => sdu_size_ok (sdu_buf s)) (SduQueue.queue q).

(** A retransmission whose total stays within the bounds of the queue. *)
Definition retx_size_ok (r : rlc_tx_amd_retx) : Prop :=
  0 <= retx_so r /\ 0 < retx_length r /\ retx_so r + retx_length r <= MAX_SDU.

(** A pending retransmission is part of an SDU in the window. *)
Definition retx_ok (e : rlc_tx_am_entity) (r : rlc_tx_amd_retx) : Prop :=
  is_sn e (retx_sn r) /\ retx_size_ok r /\
  exists info, win e (retx_sn r) = Some info /\ retx_so r + retx_length r <= zlen (sdu info).

Record retx_inv (e : rlc_tx_am_entity) : Prop := {
  rq_inv : RetxQueue.inv (retx_queue e);
  rq_size : RetxQueue.max_size (retx_queue e) = am_window_size e;
  rq_sn : Forall (fun r => is_sn e (retx_sn r)) (RetxQueue.pending (retx_queue e));
  rq_fits : Forall retx_size_ok (RetxQueue.pending (retx_queue e))
}.

Record tx_inv (A : Z) (sent : list (list Z)) (e : rlc_tx_am_entity) : Prop := {
  ti_win : win_inv A sent e;
  ti_sdus : SduQueue.inv (sdu_queue e);
  ti_sdu_sizes : queued_ok (sdu_queue e);
  ti_retx : retx_inv e;
  ti_retx_ok : Forall (retx_ok e) (RetxQueue.pending (retx_queue e));
  ti_timer : 0 < txam_t_poll_retx (cfg e) -> is_set (poll_retransmit_timer e) = true
}.

(** ** What the invariant looks at *)

Record same_core (e e' : rlc_tx_am_entity) : Prop := {
  sc_cfg : cfg e' = cfg e;
  sc_ack : tx_next_ack (st e') = tx_next_ack (st e);
  sc_next : tx_next (st e') = tx_next (st e);
  sc_under : sn_under_segmentation e' = sn_under_segmentation e;
  sc_window : tx_window e' = tx_window e
}.

Section same_core.
Context (e e' : rlc_tx_am_entity) (Hc : same_core e e').

Lemma same_mod : mod_ e' = mod_ e /\ am_window_size e' = am_window_size e.
Proof. unfold mod_, am_window_size. by rewrite (sc_cfg _ _ Hc). Qed.
Lemma same_head : head_min_size e' = head_min_size e /\ head_max_size e' = head_max_size e.
Proof. unfold head_min_size, head_max_size. by rewrite (sc_cfg _ _ Hc). Qed.
Lemma tx_same_dist x : dist e' x = dist e x.
Proof. unfold dist. by rewrite (proj1 same_mod), (sc_ack _ _ Hc). Qed.
Lemma same_win : win e' = win e.
Proof. unfold win. by rewrite (sc_window _ _ Hc). Qed.
Lemma same_segmenting : segmenting e' = segmenting e.
Proof. unfold segmenting. by rewrite (sc_under _ _ Hc). Qed.
Lemma same_in_flight : in_flight e' = in_flight e.
Proof. unfold in_flight. by rewrite tx_same_dist, same_segmenting, (sc_next _ _ Hc). Qed.
Lemma same_is_sn x : is_sn e' x <-> is_sn e x.
Proof. unfold is_sn. by rewrite (proj1 same_mod). Qed.

Lemma same_win_inv A sent : win_inv A sent e -> win_inv A sent e'.
Proof.
  destruct same_mod as [Hm Hw]. pose proof tx_same_dist as Hd. pose proof same_win as Hwin.
  pose proof same_segmenting as Hs. pose proof same_in_flight as Hf. pose proof same_is_sn as Hsn.
  intros []. constructor; rewrite ?Hm, ?Hw, ?Hf, ?Hs, ?(sc_ack _ _ Hc), ?(sc_next _ _ Hc), ?(sc_under _ _ Hc), ?(sc_window _ _ Hc) in *;
    try done; [by apply Hsn| |].
  - intros sn info E. rewrite Hwin in E. destruct (wi_some0 _ _ E).
    constructor; rewrite ?Hd, ?Hf, ?Hs, ?(sc_next _ _ Hc); try done. by apply Hsn.
  - intros sn. rewrite Hsn, Hwin, Hd. apply wi_none0.
Qed.

Lemma same_retx_ok r : retx_ok e r -> retx_ok e' r.
Proof. unfold retx_ok. rewrite same_win, same_is_sn. done. Qed.

Lemma same_retx_inv : retx_queue e' = retx_queue e -> retx_inv e -> retx_inv e'.
Proof.
  intros Hq []. constructor; rewrite ?Hq, ?(proj2 same_mod); try done.
  eapply Forall_impl; [exact rq_sn0|]. intros r. by rewrite same_is_sn.
Qed.

(** The invariant after a step that changes neither window nor queues. *)
Lemma same_tx_inv A sent :
  sdu_queue e' = sdu_queue e -> retx_queue e' = retx_queue e ->
  is_set (poll_retransmit_timer e') = is_set (poll_retransmit_timer e) ->
  tx_inv A sent e -> tx_inv A sent e'.
Proof.
  intros Hq Hr Ht []. constructor; rewrite ?Hq, ?Hr, ?Ht, ?(sc_cfg _ _ Hc); try done.
  - by apply same_win_inv.
  - by apply same_retx_inv.
  - eapply Forall_impl; [exact ti_retx_ok0|]. apply same_retx_ok.
Qed.
End same_core.

(** ** The polling bit *)

Lemma wp_restart_poll e :
  (0 < txam_t_poll_retx (cfg e) -> is_set (poll_retransmit_timer e) = true) ->
  wp restart_poll_retransmit_timer (fun _ e' es => es = [] /\ exists tm,
    e' = set_poll_retransmit_timer tm e /\ is_set tm = is_set (poll_retransmit_timer e) /\
    (0 < txam_t_poll_retx (cfg e) -> stopped_lower e = false -> is_running tm = true)) e.
Proof.
  intros Ht. unfold restart_poll_retransmit_timer. wp_step. wp_step. wp_step; bool_prop.
  - specialize (Ht H0). wp_step. wp_step.
    + unfold timer_run. rewrite Ht. simpl. wp_step. wp_step. split; [done|].
      eexists. split; [done|]. by split.
    + unfold timer_run. rewrite is_set_stop, Ht. simpl. wp_step. wp_step. split; [done|].
      eexists. split; [done|]. split; [|done]. etrans; [apply (is_set_stop (poll_retransmit_timer e))|done].
  - split; [done|]. exists (poll_retransmit_timer e). split; [by destruct e|]. split; [done|].
    intros H1 H2. exfalso. apply andb_false_iff in H0 as [H0|H0]; bool_prop; [lia|congruence].
Qed.

(** Neither counter has reached its limit. *)
Definition poll_bounded (e : rlc_tx_am_entity) : Prop :=
  (0 < txam_poll_pdu (cfg e) -> pdu_without_poll (st e) < u32 (txam_poll_pdu (cfg e))) /\
  (0 < txam_poll_byte (cfg e) -> byte_without_poll (st e) < u32 (txam_poll_byte (cfg e))).

(** What choosing the polling bit changes: counters, POLL_SN and the timer. *)
Definition polled (e e' : rlc_tx_am_entity) : Prop := exists pn pw bw tm,
  e' = set_poll_retransmit_timer tm (set_st (mk_state (tx_next_ack (st e)) (tx_next (st e)) pn pw bw) e) /\
  is_set tm = is_set (poll_retransmit_timer e).

Record poll_outcome (e : rlc_tx_am_entity) (sn : Z) (retx : bool) (n p : Z) (e' : rlc_tx_am_entity) : Prop := {
  po_bit : 0 <= p < 2;
  po_bounded : (poll_bounded e \/ retx = false) -> poll_bounded e';
  po_no : p = 0 -> no_new_transmission e = false;
  po_bytes : byte_without_poll (st e') = 0 \/
    byte_without_poll (st e') = (if retx then byte_without_poll (st e) else u32 (byte_without_poll (st e) + n));
  po_yes : p = 1 -> pdu_without_poll (st e') = 0 /\ byte_without_poll (st e') = 0 /\
    (retx = false -> poll_sn (st e') = sn) /\
    (0 < txam_t_poll_retx (cfg e) -> stopped_lower e = false -> is_running (poll_retransmit_timer e') = true)
}.

Lemma u32_pos x : 0 < x < 2 ^ 31 -> 0 < u32 x.
Proof. intros. rewrite u32_small; lia. Qed.

(** The thresholds are positive 32-bit integers, or off. *)
Definition poll_config_ok (c : rlc_tx_am_config) : Prop :=
  txam_poll_pdu c < 2 ^ 31 /\ txam_poll_byte c < 2 ^ 31.

Lemma wp_get_polling_bit e sn (retx : bool) n :
  (0 < txam_t_poll_retx (cfg e) -> is_set (poll_retransmit_timer e) = true) -> poll_config_ok (cfg e) ->
  wp (get_polling_bit sn retx n)
    (fun p e' es => es = [] /\ polled e e' /\ poll_outcome e sn retx n p e') e.
Proof.
  intros Ht [Hc1 Hc2]. unfold get_polling_bit.
  set (e1 := if retx then e else set_byte_without_poll (u32 (byte_without_poll (st e) + n))
                (set_pdu_without_poll (u32 (pdu_without_poll (st e) + 1)) e)).
  wp_step. apply (wp_mono _ (fun _ e' es => e' = e1 /\ es = [])).
  { subst e1. destruct retx; simpl; wp_steps; done. }
  cbv beta. intros _ ? ? [-> ->]. wp_step. wp_step. wp_step.
  assert (no_new_transmission e1 = no_new_transmission e) as Hn by (subst e1; by destruct retx).
  assert (cfg e1 = cfg e /\ poll_retransmit_timer e1 = poll_retransmit_timer e /\ stopped_lower e1 = stopped_lower e)
    as (Hcfg & Htm & Hstop) by (subst e1; by destruct retx).
  rewrite Hn, !Hcfg. apply wp_when; intros Hpoll; rewrite Hpoll.
  - set (e0 := set_byte_without_poll 0 (set_pdu_without_poll 0 e1)).
    set (e2 := if retx then e0 else set_poll_sn sn e0).
    do 4 wp_step. wp_step. apply (wp_mono _ (fun _ e' es => e' = e2 /\ es = [])).
    { subst e2. destruct retx; by repeat split. }
    assert (cfg e2 = cfg e /\ poll_retransmit_timer e2 = poll_retransmit_timer e /\ stopped_lower e2 = stopped_lower e)
      as (Hcfg2 & Htm2 & Hstop2) by (subst e2 e0 e1; by destruct retx).
    cbv beta. intros _ ? ? [-> ->]. eapply wp_mono; [apply wp_restart_poll; by rewrite Hcfg2, Htm2|].
    cbv beta. rewrite Hcfg2, Htm2, Hstop2. intros _ ? ? (-> & tm & -> & T1 & T2). wp_step. split; [done|].
    split.
    { subst e2 e0 e1. destruct retx; by eexists _, _, _, tm. }
    split; [done| |done|by left; subst e2 e0; destruct retx|].
    + intros _. unfold poll_bounded. subst e2 e0 e1. destruct retx; simpl; split; intros; by apply u32_pos.
    + intros _. subst e2 e0. destruct retx; by repeat split.
  - wp_steps. apply orb_false_iff in Hpoll as [Hpoll Hnew]. split; [done|]. split.
    { exists (poll_sn (st e)), (pdu_without_poll (st e1)), (byte_without_poll (st e1)), (poll_retransmit_timer e).
      split; [|done]. subst e1. destruct e as [? ? [] ? ? ? ? ? ? ? ? ? ? ? ? ?], retx; done. }
    split; [done| |done|right; subst e1; by destruct retx|done]. intros Hb. destruct retx.
    + destruct Hb; done.
    + simpl in Hpoll. unfold poll_bounded. simpl. apply orb_false_iff in Hpoll as [P1 P2].
      split; intros Hpos; [destruct (0 <? txam_poll_pdu (cfg e)) eqn:Q|destruct (0 <? txam_poll_byte (cfg e)) eqn:Q];
        bool_prop; simpl in *; bool_prop; lia.
Qed.

(** Everything but the polling variables is as before. *)
Lemma polled_core e e' : polled e e' -> same_core e e'.
Proof. intros (? & ? & ? & ? & -> & _). by split. Qed.
