(* ===== verification/RlcTxAmSend.v ===== *)
(** * RLC AM transmitting entity: what [pull_pdu] sends

    Each builder of [pull_pdu] preserves the invariant and returns a PDU that is the header of an SDU
    of the window followed by the bytes of that SDU the header announces, within the grant. *)

From S2P Require Import Prelude Effects Window RlcConfig RlcAmPdu RlcAmPduFacts Timers PdcpSn SduQueue RetxQueue RlcTxUm RlcTxAm RlcTxAmInv.
Import AmHeader StatusPdu RlcTxAm.
Open Scope Z_scope.
Open Scope entity_scope.

(** ** Storing the SDU with number TX_Next *)

(** [w] is the window of [e] with [info] stored under TX_Next. *)
Record window_with (e : rlc_tx_am_entity) (w : CircularMap.t rlc_tx_am_sdu_info) (info : rlc_tx_am_sdu_info) : Prop := {
  ww_wf : CircularMap.wf w;
  ww_cap : CircularMap.capacity w = am_window_size e;
  ww_count : CircularMap.count w = dist e (tx_next (st e)) + 1;
  ww_lookup : forall k, CircularMap.lookup w k = if k =? tx_next (st e) then Some info else win e k
}.

Lemma window_with_set_at e w info info' :
  window_with e w info -> window_with e (CircularMap.set_at w (tx_next (st e)) info') info'.
Proof.
  intros [H1 H2 H3 H4]. constructor.
  - by apply CircularMap.wf_set_at.
  - by rewrite CircularMap.capacity_set_at.
  - by rewrite CircularMap.count_set_at.
  - intros k. rewrite CircularMap.lookup_set_at, H4. destruct (Z.eqb_spec k (tx_next (st e))) as [->|]; [|done].
    assert (CircularMap.contains w (tx_next (st e)) = true) as ->; [|done].
    apply CircularMap.contains_true. exists info. by rewrite H4, Z.eqb_refl.
Qed.

(** The SDU numbered TX_Next is stored, and is either under segmentation or sent in full. *)
Definition stored_state (e e' : rlc_tx_am_entity) (info : rlc_tx_am_sdu_info) : Prop :=
  (tx_next (st e') = (tx_next (st e) + 1) mod mod_ e /\ sn_under_segmentation e' = INVALID_RLC_SN) \/
  (tx_next (st e') = tx_next (st e) /\ sn_under_segmentation e' = tx_next (st e) /\
   0 < next_so info < zlen (sdu info)).

Lemma stored_in_flight e e' info :
  cfg e' = cfg e -> tx_next_ack (st e') = tx_next_ack (st e) -> is_sn e (tx_next (st e)) ->
  dist e (tx_next (st e)) + 1 <= am_window_size e -> stored_state e e' info ->
  in_flight e' = dist e (tx_next (st e)) + 1 /\ is_sn e (tx_next (st e')) /\
  (segmenting e' = true -> tx_next (st e') = tx_next (st e) /\ sn_under_segmentation e' = tx_next (st e) /\
     0 < next_so info < zlen (sdu info)).
Proof.
  intros Hc Ha Hsn Hd Hs. pose proof (tx_ring_sizes e) as (W1 & W2 & _).
  assert (forall x, dist e' x = dist e x) as Hdist by (intros; unfold dist, mod_; by rewrite Hc, Ha).
  unfold in_flight. rewrite Hdist. destruct Hs as [[H1 H2]|(H1 & H2 & H3)]; unfold segmenting; rewrite H1, H2.
  - simpl. rewrite tx_dist_succ by lia. split; [lia|]. split; [apply tx_is_sn_mod|done].
  - destruct (Z.eqb_spec (tx_next (st e)) INVALID_RLC_SN) as [E|E].
    { by apply is_sn_valid in Hsn. }
    simpl. by repeat split; try apply Hsn; try apply H3.
Qed.

Lemma win_inv_store A sent sent' e e' info :
  win_inv A sent e ->
  cfg e' = cfg e -> tx_next_ack (st e') = tx_next_ack (st e) ->
  window_with e (tx_window e') info ->
  stored_state e e' info -> sdu_size_ok (sdu info) -> dist e (tx_next (st e)) + 1 <= am_window_size e ->
  prefix sent sent' -> zlen sent' = A + dist e (tx_next (st e)) + 1 ->
  sent' !! Z.to_nat (A + dist e (tx_next (st e))) = Some (sdu info) ->
  win_inv A sent' e'.
Proof.
  intros Hi Hc Ha [Hwf Hcap Hcount Hwin] Hs Hsize Hroom Hpre Hlen Hget.
  destruct (stored_in_flight e e' info Hc Ha (wi_next _ _ _ Hi) Hroom Hs) as (Hf & Hsn' & Hseg).
  assert (mod_ e' = mod_ e /\ am_window_size e' = am_window_size e) as [Hm Hw].
  { unfold mod_, am_window_size. by rewrite Hc. }
  assert (forall x, dist e' x = dist e x) as Hdist by (intros; unfold dist; by rewrite Hm, Ha).
  assert (forall x, is_sn e' x <-> is_sn e x) as Hsn by (intros; unfold is_sn; by rewrite Hm).
  constructor; rewrite ?Hm, ?Hw, ?Hf, ?Ha; try done.
  - apply Hi.
  - by apply Hsn.
  - lia.
  - intros E. by destruct (Hseg E) as (-> & -> & _).
  - intros sn i E. unfold win in E. rewrite Hwin in E. destruct (Z.eqb_spec sn (tx_next (st e))) as [->|Hne].
    + simplify_eq. constructor; rewrite ?Hdist, ?Hf; try done; try lia; [apply Hsn, Hi|].
      intros E _. by destruct (Hseg E) as (_ & _ & ?).
    + destruct (wi_some _ _ _ Hi _ _ E) as [E1 E2 E3 E4 E5].
      constructor; rewrite ?Hdist, ?Hf; try done.
      * by apply Hsn.
      * unfold in_flight in E2. destruct (segmenting e); lia.
      * by eapply prefix_lookup_Some.
      * intros Es Et. destruct (Hseg Es) as (En & _). congruence.
  - intros sn Hin E. unfold win in E. rewrite Hwin in E. apply Hsn in Hin. rewrite Hdist.
    destruct (Z.eqb_spec sn (tx_next (st e))) as [|Hne]; [done|].
    pose proof (wi_none _ _ _ Hi _ Hin E) as Hd. unfold in_flight in Hd.
    destruct (segmenting e); [lia|].
    destruct (decide (dist e sn = dist e (tx_next (st e)))) as [Heq|]; [|lia].
    apply tx_dist_inj in Heq; [done|done|apply Hi].
Qed.

(** ** PDUs *)

(** [pdu] is a header and [n] bytes of the SDU with number [k]. *)
Definition data_pdu (size : rlc_am_sn_size) (sent : list (list Z)) (k : Z) (h : rlc_am_pdu_header) (n : Z)
    (pdu : list Z) : Prop :=
  exists d, 0 <= k /\ sent !! Z.to_nat k = Some d /\
    header_wf h /\ dc h = dc_data /\ sn_size h = size /\ sn h = k mod cardinality (to_number_am_sn size) /\
    0 <= so h /\ 0 < n /\ so h + n <= zlen d /\ si h = retx_si (so h) (zlen d <=? so h + n) /\
    pdu = rlc_am_write_data_pdu_header h ++ sub (so h) n d.

(** What a data PDU with polling bit [p h] left behind. *)
Definition poll_post (e : rlc_tx_am_entity) (h : rlc_am_pdu_header) (e' : rlc_tx_am_entity) : Prop :=
  (p h = 0 -> txam_max_window (cfg e) = 0 -> no_new_transmission e' = false) /\
  (p h = 1 -> pdu_without_poll (st e') = 0 /\ byte_without_poll (st e') = 0 /\
    (0 < txam_t_poll_retx (cfg e) -> stopped_lower e = false -> is_running (poll_retransmit_timer e') = true)).

(** The bytes of a PDU that count towards pollByte: those of a retransmission do not, and those of an
    SDU sent in one PDU are missed. *)
Definition bytes_counted (h : rlc_am_pdu_header) (n : Z) : Z := if si_eqb (si h) full_sdu then 0 else n.

(** There is something to send that the window and the retransmission limit allow. *)
Definition can_send (e : rlc_tx_am_entity) : Prop :=
  max_retx_reached e = false /\
  (RetxQueue.pending (retx_queue e) <> [] \/ segmenting e = true \/
   is_tx_window_full e = false /\ SduQueue.live (sdu_queue e) <> []).

(** A pull: nothing, or a PDU of an SDU numbered so far.  At most one SDU is numbered, the oldest of
    the queue. *)
Record pulled (A : Z) (sent : list (list Z)) (grant_len : Z) (e : rlc_tx_am_entity) (pdu : list Z)
    (sent' : list (list Z)) (e' : rlc_tx_am_entity) : Prop := {
  pl_inv : tx_inv A sent' e';
  pl_cfg : cfg e' = cfg e;
  pl_stop : stopped_lower e' = stopped_lower e;
  pl_ack : tx_next_ack (st e') = tx_next_ack (st e);
  pl_bounded : poll_bounded e -> poll_bounded e';
  pl_live : exists new, sent' = sent ++ new /\
    map sdu_buf (SduQueue.live (sdu_queue e)) = new ++ map sdu_buf (SduQueue.live (sdu_queue e'));
  pl_progress : head_max_size e < grant_len -> can_send e -> pdu <> [];
  pl_pdu : pdu = [] \/ exists k h n, A <= k < zlen sent' /\ zlen pdu <= grant_len /\ poll_post e h e' /\
    data_pdu (txam_sn_field_length (cfg e)) sent' k h n pdu
}.

Lemma wp_write_header (h : rlc_am_pdu_header) grant_len e (Q : list Z -> rlc_tx_am_entity -> list tx_event -> Prop) :
  header_wf h -> get_packed_size h <= grant_len -> Q (rlc_am_write_data_pdu_header h) e [] ->
  wp (write_header grant_len h) Q e.
Proof.
  intros Hh Hg HQ. unfold write_header. wp_step. apply wp_assert; [|by wp_step].
  apply Z.leb_le. by rewrite write_length.
Qed.

Lemma wp_copy_view buf o n dst e (Q : list Z -> rlc_tx_am_entity -> list tx_event -> Prop) :
  0 <= n <= dst -> o + n <= zlen buf -> Q (sub o n buf) e [] -> wp (copy_view buf o n dst) Q e.
Proof.
  intros Hn Hb HQ. unfold copy_view. wp_step. apply wp_assert; [by apply Z.leb_le|]. wp_step.
  by rewrite Z.min_l by lia.
Qed.

(** The header of a slice of an SDU of the window. *)
Lemma slice_header_wf size p k o (d : list Z) n :
  0 <= p < 2 -> 0 <= o -> 0 < n -> o + n <= zlen d -> zlen d <= MAX_SDU ->
  header_wf (mk_header dc_data p (retx_si o (zlen d <=? o + n)) size (k mod cardinality (to_number_am_sn size)) (u16 o)) /\
  u16 o = o.
Proof.
  unfold MAX_SDU. intros. rewrite u16_small by lia. split; [|done]. split; [done|]. simpl.
  split; [apply Z.mod_pos_bound; by destruct size|]. split; [lia|]. unfold retx_si.
  destruct (Z.eqb_spec o 0) as [->|]; destruct (zlen d <=? _); simpl; split; done.
Qed.

Lemma slice_header_size size p si sn o :
  (si_has_so si = true <-> o <> 0) ->
  get_packed_size (mk_header dc_data p si size sn o) =
    if o =? 0 then rlc_am_pdu_header_min_size size else rlc_am_pdu_header_max_size size.
Proof.
  intros Hso. unfold get_packed_size. simpl. fold (si_has_so si).
  destruct (Z.eqb_spec o 0) as [->|Hne].
  - destruct (si_has_so si); [|done]. exfalso. by apply Hso.
  - apply Hso in Hne. by rewrite Hne.
Qed.

(** ** Common steps *)

Lemma pulled_nothing A sent grant_len e :
  tx_inv A sent e -> (head_max_size e < grant_len -> can_send e -> False) -> pulled A sent grant_len e [] sent e.
Proof.
  intros Hi Hno. constructor; try done; [|intros ? ? _; by apply Hno|by left].
  exists []. by rewrite app_nil_r.
Qed.

(** A PDU with payload is not empty. *)
Lemma data_pdu_not_nil size sent k h n pdu : data_pdu size sent k h n pdu -> pdu <> [].
Proof.
  intros (d & _ & _ & Hh & _ & _ & _ & Ho & Hn & Hlen & _ & ->) E. apply (f_equal zlen) in E.
  rewrite zlen_app, zlen_sub, zlen_nil in E by lia. pose proof (zlen_nonneg (rlc_am_write_data_pdu_header h)). lia.
Qed.

Lemma tx_inv_store A sent sent' e e' info :
  tx_inv A sent e ->
  cfg e' = cfg e -> tx_next_ack (st e') = tx_next_ack (st e) ->
  window_with e (tx_window e') info ->
  stored_state e e' info -> sdu_size_ok (sdu info) -> dist e (tx_next (st e)) + 1 <= am_window_size e ->
  prefix sent sent' -> zlen sent' = A + dist e (tx_next (st e)) + 1 ->
  sent' !! Z.to_nat (A + dist e (tx_next (st e))) = Some (sdu info) ->
  (forall i, win e (tx_next (st e)) = Some i -> sdu i = sdu info) ->
  SduQueue.inv (sdu_queue e') -> queued_ok (sdu_queue e') -> retx_queue e' = retx_queue e ->
  is_set (poll_retransmit_timer e') = is_set (poll_retransmit_timer e) ->
  tx_inv A sent' e'.
Proof.
  intros [Hi Hs Hsz Hr Hro Ht] Hc Ha Hwin Hst Hsize Hroom Hpre Hlen Hget Hsame Hq Hqs Hrq Htm.
  assert (forall x, is_sn e' x <-> is_sn e x) as Hsn by (intros; unfold is_sn, mod_; by rewrite Hc).
  constructor; try done.
  - by apply (win_inv_store A sent sent' e e' info).
  - destruct Hr. constructor; rewrite ?Hrq; try done.
    + unfold am_window_size. by rewrite Hc.
    + eapply Forall_impl; [exact rq_sn|]. intros r. by rewrite Hsn.
  - rewrite Hrq. eapply Forall_impl; [exact Hro|]. intros r (R1 & R2 & i & R3 & R4).
    split; [by apply Hsn|]. split; [done|]. unfold win. rewrite (ww_lookup _ _ _ Hwin).
    destruct (Z.eqb_spec (retx_sn r) (tx_next (st e))) as [E|]; [|eauto].
    exists info. split; [done|]. rewrite E in R3. by rewrite <- (Hsame _ R3).
  - by rewrite Hc, Htm.
Qed.

(** Whether more can be sent does not depend on the polling variables. *)
Lemma no_new_transmission_same e e' :
  txam_max_window (cfg e) = 0 -> cfg e' = cfg e -> sdu_queue e' = sdu_queue e -> retx_queue e' = retx_queue e ->
  sn_under_segmentation e' = sn_under_segmentation e ->
  CircularMap.count (tx_window e') = CircularMap.count (tx_window e) ->
  CircularMap.capacity (tx_window e') = CircularMap.capacity (tx_window e) ->
  no_new_transmission e' = no_new_transmission e.
Proof.
  intros Hm Hc Hq Hr Hu Hn Hk. unfold no_new_transmission, is_tx_window_full, CircularMap.full, CircularMap.size.
  by rewrite Hq, Hr, Hu, Hn, Hk, Hc, Hm.
Qed.

(** The window with the SDU numbered TX_Next added. *)
Lemma window_added A sent e info w1 :
  win_inv A sent e -> segmenting e = false -> in_flight e < am_window_size e ->
  w1 = CircularMap.set_at (CircularMap.overwrite (tx_window e) (tx_next (st e)) sdu_info_default) (tx_next (st e)) info ->
  window_with e w1 info.
Proof.
  intros Hi Hseg Hroom ->. pose proof (wi_next _ _ _ Hi) as Hsn.
  assert (in_flight e = dist e (tx_next (st e))) as Hf by (unfold in_flight; rewrite Hseg; lia).
  assert (CircularMap.data (tx_window e) !! CircularMap.get_circular_idx (tx_window e) (tx_next (st e)) = None) as Hfree.
  { apply (slot_free A sent e Hi); [done|lia]. }
  apply (window_with_set_at e _ sdu_info_default). constructor.
  { apply CircularMap.wf_overwrite, Hi. }
  { rewrite CircularMap.capacity_overwrite; apply Hi. }
  { rewrite CircularMap.count_overwrite_free, (wi_count _ _ _ Hi) by done. lia. }
  intros k. unfold CircularMap.overwrite. rewrite Hfree, CircularMap.lookup_insert_free by done.
  by destruct (Z.eqb_spec k (tx_next (st e))).
Qed.

Lemma live_queued q s : s ∈ SduQueue.live q -> s ∈ SduQueue.queue q.
Proof. unfold SduQueue.live. rewrite !list_elem_of_In, filter_In. by intros [? _]. Qed.

Lemma queued_ok_suffix q q' popped : SduQueue.queue q = popped ++ SduQueue.queue q' -> queued_ok q -> queued_ok q'.
Proof. unfold queued_ok. intros ->. by intros [_ ?]%Forall_app. Qed.

(** The sequence number of an absolute number. *)
Lemma sn_number A sent e sn : win_inv A sent e -> is_sn e sn -> (A + dist e sn) mod mod_ e = sn.
Proof.
  intros Hi Hsn. unfold dist, sn_diff. rewrite <- (proj2 (wi_A _ _ _ Hi)).
  rewrite Zplus_mod_idemp_r, Z.add_sub_assoc, Zminus_mod_idemp_r. replace (A + sn - A) with sn by lia.
  by apply Z.mod_small.
Qed.

Lemma lookup_sent (sent : list (list Z)) k d : 0 <= k -> zlen sent = k -> (sent ++ [d]) !! Z.to_nat k = Some d.
Proof. intros Hk Hl. apply list_lookup_middle. unfold zlen in Hl. lia. Qed.

(** ** A new SDU *)

(** A new SDU [info] has been taken from the queue, leaving [q], and stored, giving the window [w]. *)
Record added (A : Z) (sent : list (list Z)) (e : rlc_tx_am_entity) (q : SduQueue.rlc_sdu_queue)
    (w : CircularMap.t rlc_tx_am_sdu_info) (info : rlc_tx_am_sdu_info) : Prop := {
  ad_inv : tx_inv A sent e;
  ad_seg : segmenting e = false;
  ad_room : in_flight e < am_window_size e;
  ad_size : sdu_size_ok (sdu info);
  ad_so : next_so info = 0;
  ad_window : window_with e w info;
  ad_q : SduQueue.inv q /\ queued_ok q;
  ad_live : map sdu_buf (SduQueue.live (sdu_queue e)) = [sdu info] ++ map sdu_buf (SduQueue.live q)
}.

Section added.
Context (A : Z) (sent : list (list Z)) (e : rlc_tx_am_entity) (q : SduQueue.rlc_sdu_queue)
  (w : CircularMap.t rlc_tx_am_sdu_info) (info : rlc_tx_am_sdu_info) (Had : added A sent e q w info).
Let k := A + dist e (tx_next (st e)).

Lemma added_numbers : in_flight e = dist e (tx_next (st e)) /\ zlen sent = k /\ 0 <= k /\
  k mod mod_ e = tx_next (st e) /\ (sent ++ [sdu info]) !! Z.to_nat k = Some (sdu info).
Proof.
  destruct Had as [[Hi _ _ _ _ _] Hseg _ _ _ _ _ _].
  assert (in_flight e = dist e (tx_next (st e))) as Hf by (unfold in_flight; rewrite Hseg; lia).
  pose proof (wi_sent _ _ _ Hi). pose proof (wi_A _ _ _ Hi). pose proof (tx_dist_range e (tx_next (st e))).
  split; [done|]. split; [subst k; lia|]. split; [subst k; lia|].
  split; [eapply sn_number; [done|apply Hi]|]. apply lookup_sent; subst k; lia.
Qed.

(** The SDU counts as sent once TX_Next or the SDU under segmentation says so. *)
Lemma added_pulled e' info' h n pdu grant_len :
  cfg e' = cfg e -> stopped_lower e' = stopped_lower e -> tx_next_ack (st e') = tx_next_ack (st e) ->
  sdu_queue e' = q -> retx_queue e' = retx_queue e ->
  is_set (poll_retransmit_timer e') = is_set (poll_retransmit_timer e) -> poll_bounded e' ->
  window_with e (tx_window e') info' -> sdu info' = sdu info ->
  stored_state e e' info' -> zlen pdu <= grant_len -> poll_post e h e' ->
  data_pdu (txam_sn_field_length (cfg e)) (sent ++ [sdu info]) k h n pdu ->
  pulled A sent grant_len e pdu (sent ++ [sdu info]) e'.
Proof.
  intros Hc Hs Ha Hq Hr Ht Hb Hwin Hsdu Hst Hlen Hpost Hpdu.
  destruct added_numbers as (Hf & Hk & Hk0 & Hkm & Hget). destruct Had as [Hinv Hseg Hroom Hsize Hso _ [Q1 Q2] Hlive].
  constructor; try done.
  - apply (tx_inv_store A sent _ e e' info'); rewrite ?Hsdu, ?Hq; try done.
    + lia.
    + by apply prefix_app_r.
    + rewrite zlen_app, zlen_cons, zlen_nil. lia.
    + intros i Hi. exfalso. apply (wi_some _ _ _ (ti_win _ _ _ Hinv)) in Hi as [_ Hd _ _ _]. lia.
  - exists [sdu info]. by rewrite Hq.
  - intros _ _. by eapply data_pdu_not_nil.
  - right. exists k, h, n. split; [|done]. rewrite zlen_app, zlen_cons, zlen_nil.
    pose proof (tx_dist_range e (tx_next (st e))). subst k. lia.
Qed.

Lemma wp_build_first_sdu_segment grant_len :
  poll_config_ok (cfg e) -> grant_len < 2 ^ 32 -> head_min_size e < grant_len < zlen (sdu info) + head_min_size e ->
  wp (build_first_sdu_segment grant_len (tx_next (st e)))
    (fun pdu e' es => pulled A sent grant_len e pdu (sent ++ [sdu info]) e') (set_tx_window w (set_sdu_queue q e)).
Proof.
  intros Hcfg Hg32 Hg. destruct added_numbers as (Hf & Hk & Hk0 & Hkm & Hget).
  pose proof (ti_win _ _ _ (ad_inv _ _ _ _ _ _ Had)) as Hi.
  pose proof (wi_next _ _ _ Hi) as Hsn. pose proof (head_sizes e) as Hh. pose proof (ad_size _ _ _ _ _ _ Had) as [Hz1 Hz2].
  set (e1 := set_tx_window w (set_sdu_queue q e)).
  assert (win e1 (tx_next (st e)) = Some info) as Hw1.
  { change (CircularMap.lookup w (tx_next (st e)) = Some info). by rewrite (ww_lookup _ _ _ (ad_window _ _ _ _ _ _ Had)), Z.eqb_refl. }
  unfold build_first_sdu_segment. wp_step. wp_step. wp_step. eapply wp_tx_window_at; [done..|].
  change (head_min_size e1) with (head_min_size e).
  wp_step; bool_prop; [lia|]. wp_step; bool_prop; [lia|].
  rewrite (u32_small (grant_len - head_min_size e)) by lia. set (n := grant_len - head_min_size e).
  assert (0 < n < zlen (sdu info)) as Hn by (subst n; lia).
  wp_step. wp_step. wp_step. eapply wp_mono.
  { apply wp_get_polling_bit; [apply (ti_timer _ _ _ (ad_inv _ _ _ _ _ _ Had))|done]. }
  cbv beta. intros p e2 es2 (-> & Hpd & Hpo). wp_step.
  assert (retx_si 0 (zlen (sdu info) <=? 0 + n) = first_segment) as Hsi.
  { unfold retx_si. destruct (Z.leb_spec (zlen (sdu info)) (0 + n)); [lia|done]. }
  destruct (slice_header_wf (txam_sn_field_length (cfg e)) p k 0 (sdu info) n) as [Hhw _];
    [apply Hpo|lia..|].
  rewrite Hsi in Hhw. change (cardinality _) with (mod_ e) in Hhw. rewrite Hkm in Hhw. change (u16 0) with 0 in Hhw.
  rewrite (ad_so _ _ _ _ _ _ Had). change (u16 0) with 0.
  change (cfg (set_tx_window w (set_sdu_queue q e))) with (cfg e). change (tx_next (st e1)) with (tx_next (st e)).
  set (hdr := mk_header _ _ _ _ _ _) in *.
  assert (get_packed_size hdr = head_min_size e) as Hps by done.
  apply wp_write_header; [done|rewrite Hps; lia|]. wp_step.
  rewrite (write_length hdr Hhw), Hps. apply wp_copy_view; [subst n; lia|simpl; lia|].
  simpl (so hdr). rewrite zlen_sub by lia.
  destruct (Z.eqb_spec n 0); [lia|]. rewrite Z.eqb_refl. simpl. wp_steps.
  destruct Hpd as (pn & pw & bw & tm & -> & Htm). unfold window_set. wp_steps.
  rewrite (tx_is_sn_u32 e) by done.
  match goal with |- context [CircularMap.set_at _ _ ?i] => apply (added_pulled _ i hdr n); try done end.
  - by apply (po_bounded _ _ _ _ _ _ Hpo); right.
  - by eapply (window_with_set_at e w info), Had.
  - right. split; [done|]. split; [done|]. simpl. rewrite u32_small; lia.
  - rewrite zlen_app, (write_length hdr Hhw), Hps, zlen_sub; simpl; lia.
  - split; [|intros Hp; by apply (po_yes _ _ _ _ _ _ Hpo) in Hp as (? & ? & _ & ?)].
    intros Hp Hm. etrans; [|apply (po_no _ _ _ _ _ _ Hpo Hp)].
    apply no_new_transmission_same; try done.
    + simpl. apply CircularMap.count_set_at.
    + simpl. apply CircularMap.capacity_set_at.
  - exists (sdu info). repeat split; try done; try apply Hhw; simpl; try lia.
Qed.

Lemma wp_build_full_pdu grant_len :
  poll_config_ok (cfg e) -> zlen (sdu info) + head_min_size e <= grant_len ->
  wp (build_full_pdu grant_len (tx_next (st e)) (sdu info))
    (fun pdu e' es => pulled A sent grant_len e pdu (sent ++ [sdu info]) e') (set_tx_window w (set_sdu_queue q e)).
Proof.
  intros Hcfg Hg. destruct added_numbers as (Hf & Hk & Hk0 & Hkm & Hget).
  pose proof (ti_win _ _ _ (ad_inv _ _ _ _ _ _ Had)) as Hi.
  pose proof (wi_next _ _ _ Hi) as Hsn. pose proof (head_sizes e) as Hh. pose proof (ad_size _ _ _ _ _ _ Had) as [Hz1 Hz2].
  unfold build_full_pdu. wp_step. wp_step. wp_step. eapply wp_mono.
  { apply wp_get_polling_bit; [apply (ti_timer _ _ _ (ad_inv _ _ _ _ _ _ Had))|exact Hcfg]. }
  cbv beta. intros p e2 es2 (-> & Hpd & Hpo). wp_step.
  destruct (slice_header_wf (txam_sn_field_length (cfg e)) p k 0 (sdu info) (zlen (sdu info))) as [Hhw _];
    [apply Hpo|lia..|].
  assert (retx_si 0 (zlen (sdu info) <=? 0 + zlen (sdu info)) = full_sdu) as Hsi.
  { unfold retx_si. destruct (Z.leb_spec (zlen (sdu info)) (0 + zlen (sdu info))); [done|lia]. }
  rewrite Hsi in Hhw. change (cardinality _) with (mod_ e) in Hhw. rewrite Hkm in Hhw. change (u16 0) with 0 in Hhw.
  change (cfg (set_tx_window w (set_sdu_queue q e))) with (cfg e).
  set (hdr := mk_header _ _ _ _ _ _) in *.
  assert (get_packed_size hdr = head_min_size e) as Hps by done.
  apply wp_write_header; [done|rewrite Hps; lia|].
  rewrite (write_length hdr Hhw), Hps.
  assert (take (Z.to_nat (grant_len - head_min_size e)) (sdu info) = sdu info) as ->.
  { apply firstn_all2. unfold zlen in *. lia. }
  destruct (Z.eqb_spec (zlen (sdu info)) 0); [lia|]. wp_steps.
  destruct Hpd as (pn & pw & bw & tm & -> & Htm).
  apply (added_pulled _ info hdr (zlen (sdu info))); try done.
  - by apply (po_bounded _ _ _ _ _ _ Hpo); right.
  - apply Had.
  - left. split; [done|]. pose proof (ad_seg _ _ _ _ _ _ Had) as Hseg. unfold segmenting in Hseg. simpl. by bool_prop.
  - rewrite zlen_app, (write_length hdr Hhw), Hps; simpl; lia.
  - split; [|intros Hp; by apply (po_yes _ _ _ _ _ _ Hpo) in Hp as (? & ? & _ & ?)].
    intros Hp Hm. etrans; [|apply (po_no _ _ _ _ _ _ Hpo Hp)]. by apply no_new_transmission_same.
  - exists (sdu info). rewrite sub_all. repeat split; try done; try apply Hhw; simpl; try lia.
Qed.
End added.

Lemma tx_inv_set_queue A sent e q :
  tx_inv A sent e -> SduQueue.inv q -> queued_ok q -> tx_inv A sent (set_sdu_queue q e).
Proof.
  intros [Hi _ _ Hr Hro Ht] Q1 Q2. assert (same_core e (set_sdu_queue q e)) as Hc by done.
  constructor; try done.
  - by eapply same_win_inv.
  - by eapply same_retx_inv.
Qed.

Lemma wp_notify_transmission s n e :
  wp (S := rlc_tx_am_entity) (match sdu_pdcp_sn s with
      | Some p => if sdu_is_retx s then emit (on_retransmitted_sdu p) else emit (on_transmitted_sdu p n)
      | None => ret tt
      end) (fun _ e' es => e' = e) e.
Proof. by destruct (sdu_pdcp_sn s), (sdu_is_retx s). Qed.

Lemma wp_build_new_pdu A sent e grant_len :
  tx_inv A sent e -> segmenting e = false -> RetxQueue.pending (retx_queue e) = [] -> poll_config_ok (cfg e) -> grant_len < 2 ^ 32 ->
  wp (build_new_pdu grant_len) (fun pdu e' es => exists sent', pulled A sent grant_len e pdu sent' e') e.
Proof.
  intros Hinv Hseg Hnoretx Hcfg Hg32. pose proof (ti_win _ _ _ Hinv) as Hi. pose proof (wi_next _ _ _ Hi) as Hsn.
  pose proof (head_sizes e) as Hh.
  unfold build_new_pdu. wp_step. wp_step. wp_step; bool_prop; [wp_step; exists sent; apply pulled_nothing; [done|lia]|].
  wp_step.
  { wp_step. exists sent. apply pulled_nothing; [done|]. intros _ (_ & [?|[?|[? _]]]); congruence. }
  assert (in_flight e < am_window_size e) as Hroom.
  { unfold is_tx_window_full, CircularMap.full, CircularMap.size in *. bool_prop.
    pose proof (wi_room _ _ _ Hi). rewrite (wi_count _ _ _ Hi), (wi_cap _ _ _ Hi) in *. lia. }
  pose proof (SduQueue.read_spec (sdu_queue e) (ti_sdus _ _ _ Hinv)) as Hread.
  destruct (SduQueue.read (sdu_queue e)) as [q r]. destruct Hread as (Q1 & _ & Hr & Hl & _ & popped & Hpop).
  assert (queued_ok q) as Q2 by (by eapply queued_ok_suffix, ti_sdu_sizes).
  wp_step. wp_step. destruct r as [s|].
  2:{ assert (SduQueue.live (sdu_queue e) = []) as Hnil by (by destruct (SduQueue.live (sdu_queue e))).
      wp_step. exists sent. constructor; try done; [by apply tx_inv_set_queue| | |by left].
      2:{ intros _ (_ & [?|[?|[_ ?]]]); congruence. }
      exists []. rewrite app_nil_r. split; [done|]. simpl. rewrite Hl. by destruct (SduQueue.live (sdu_queue e)). }
  assert (SduQueue.live (sdu_queue e) = s :: SduQueue.live q) as Hlive.
  { rewrite Hl. by destruct (SduQueue.live (sdu_queue e)); simplify_eq/=. }
  assert (sdu_size_ok (sdu_buf s)) as Hsize.
  { assert (s ∈ SduQueue.live (sdu_queue e)) as Hin by (rewrite Hlive; left).
    apply live_queued in Hin. pose proof (ti_sdu_sizes _ _ _ Hinv) as Hall. unfold queued_ok in Hall.
    rewrite Forall_forall in Hall. by apply Hall. }
  wp_step. unfold SduWindow.add_sn. pose proof (has_sn_dist A sent e Hi _ Hsn) as Hhas.
  assert (in_flight e = dist e (tx_next (st e))) as Hf by (unfold in_flight; rewrite Hseg; lia).
  rewrite Hf, Z.ltb_irrefl in Hhas. unfold has_sn in Hhas. rewrite Hhas. wp_step. wp_steps.
  unfold window_set. wp_steps. rewrite (tx_is_sn_u32 e) by done. 
  eapply wp_mono.
  { apply (wp_notify_transmission s (txam_queue_size_bytes (cfg e))). }
  cbv beta. intros _ e1 es1 ->.
  set (info := mk_info _ _ _ _ _ _). change (tx_window (set_tx_window ?w _)) with w.
  set (w := CircularMap.set_at _ _ _).
  assert (added A sent e q w info) as Had.
  { constructor; try done.
    - by eapply window_added.
    - by rewrite Hlive. }
  change (set_tx_window w (set_tx_window _ (set_sdu_queue q e))) with (set_tx_window w (set_sdu_queue q e)).
  wp_step; bool_prop; eapply wp_mono.
  - apply (wp_build_first_sdu_segment A sent e q w info Had); [done..|]. simpl. lia.
  - cbv beta. eauto.
  - apply (wp_build_full_pdu A sent e q w info Had); [done|]. simpl. lia.
  - cbv beta. eauto.
Qed.

(** ** A further segment of the SDU under segmentation *)

Section continued.
Context (A : Z) (sent : list (list Z)) (e : rlc_tx_am_entity) (Hinv : tx_inv A sent e) (Hseg : segmenting e = true)
  (info : rlc_tx_am_sdu_info) (Hinfo : win e (tx_next (st e)) = Some info).
Let k := A + dist e (tx_next (st e)).

Lemma under_entry : entry_ok A sent e (tx_next (st e)) info.
Proof. apply (wi_some _ _ _ (ti_win _ _ _ Hinv)), Hinfo. Qed.

Lemma under_numbers : in_flight e = dist e (tx_next (st e)) + 1 /\ zlen sent = k + 1 /\ 0 <= k /\
  k mod mod_ e = tx_next (st e) /\ sent !! Z.to_nat k = Some (sdu info) /\ 0 < next_so info < zlen (sdu info).
Proof.
  pose proof (ti_win _ _ _ Hinv) as Hi. destruct under_entry as [E1 E2 E3 E4 E5].
  assert (in_flight e = dist e (tx_next (st e)) + 1) as Hf by (unfold in_flight; rewrite Hseg; lia).
  pose proof (wi_sent _ _ _ Hi). pose proof (wi_A _ _ _ Hi). pose proof (tx_dist_range e (tx_next (st e))).
  split; [done|]. split; [subst k; lia|]. split; [subst k; lia|].
  split; [by eapply sn_number|]. split; [done|]. by apply E5.
Qed.

Lemma window_with_under : window_with e (tx_window e) info.
Proof.
  pose proof (ti_win _ _ _ Hinv) as Hi. destruct under_numbers as (Hf & _). constructor; try apply Hi.
  - rewrite (wi_count _ _ _ Hi). lia.
  - intros i. destruct (Z.eqb_spec i (tx_next (st e))) as [->|]; done.
Qed.

Lemma continued_pulled e' info' h n pdu grant_len :
  cfg e' = cfg e -> stopped_lower e' = stopped_lower e -> tx_next_ack (st e') = tx_next_ack (st e) ->
  sdu_queue e' = sdu_queue e -> retx_queue e' = retx_queue e ->
  is_set (poll_retransmit_timer e') = is_set (poll_retransmit_timer e) -> poll_bounded e' ->
  window_with e (tx_window e') info' -> sdu info' = sdu info ->
  stored_state e e' info' -> zlen pdu <= grant_len -> poll_post e h e' ->
  data_pdu (txam_sn_field_length (cfg e)) sent k h n pdu ->
  pulled A sent grant_len e pdu sent e'.
Proof.
  intros Hc Hs Ha Hq Hr Ht Hb Hwin Hsdu Hst Hlen Hpost Hpdu.
  destruct under_numbers as (Hf & Hk & Hk0 & Hkm & Hget & Hso). pose proof (ti_win _ _ _ Hinv) as Hi.
  constructor; try done.
  - apply (tx_inv_store A sent _ e e' info'); rewrite ?Hsdu, ?Hq; try done; try apply Hinv; try apply under_entry.
    + rewrite <- Hf. apply Hi.
    + intros i Hwi. congruence.
  - exists []. by rewrite Hq, app_nil_r.
  - intros _ _. by eapply data_pdu_not_nil.
  - right. exists k, h, n. split; [|done].
    pose proof (tx_dist_range e (tx_next (st e))). subst k. lia.
Qed.

Lemma wp_build_continued_sdu_segment grant_len :
  poll_config_ok (cfg e) -> grant_len < 2 ^ 32 ->
  wp (build_continued_sdu_segment grant_len (tx_next (st e)))
    (fun pdu e' es => pulled A sent grant_len e pdu sent e') e.
Proof.
  intros Hcfg Hg32. destruct under_numbers as (Hf & Hk & Hk0 & Hkm & Hget & Hso).
  pose proof (ti_win _ _ _ Hinv) as Hi. pose proof (wi_next _ _ _ Hi) as Hsn. pose proof (head_sizes e) as Hh.
  destruct under_entry as [_ _ _ [Hz1 Hz2] _]. pose proof Hz2 as Hz3. unfold MAX_SDU in Hz3.
  unfold build_continued_sdu_segment. wp_step. wp_step. wp_step. eapply wp_tx_window_at; [done..|].
  destruct (Z.eqb_spec (next_so info) 0) as [|_]; [lia|].
  destruct (Z.leb_spec (zlen (sdu info)) (next_so info)) as [|_]; [lia|].
  wp_step; bool_prop; [wp_step; apply pulled_nothing; [done|lia]|].
  rewrite (u32_small (zlen (sdu info) - next_so info)) by lia.
  rewrite (u32_small (zlen (sdu info) - next_so info + head_max_size e)) by lia. rewrite (u32_small (grant_len - head_max_size e)) by lia.
  set (last := negb (grant_len <? zlen (sdu info) - next_so info + head_max_size e)).
  set (n := if last then zlen (sdu info) - next_so info else grant_len - head_max_size e).
  assert (0 < n <= grant_len - head_max_size e /\ next_so info + n <= zlen (sdu info) /\
          (zlen (sdu info) <=? next_so info + n) = last) as (Hn & Hn2 & Hlast).
  { subst n last. destruct (Z.ltb_spec grant_len (zlen (sdu info) - next_so info + head_max_size e)); simpl;
      (split; [lia|]); (split; [lia|]); [apply Z.leb_gt|apply Z.leb_le]; lia. }
  clearbody n last.
  set (e0 := if last then set_sn_under_segmentation INVALID_RLC_SN e else e).
  wp_step. apply (wp_mono _ (fun _ e' es => e' = e0)); [by subst e0; destruct last|].
  cbv beta. intros _ ? _ ->. wp_step. eapply wp_mono.
  { apply wp_get_polling_bit; subst e0; destruct last; try exact Hcfg; apply (ti_timer _ _ _ Hinv). }
  cbv beta. intros p e2 es2 (-> & Hpd & Hpo). wp_step.
  destruct (slice_header_wf (txam_sn_field_length (cfg e)) p k (next_so info) (sdu info) n) as [Hhw Hu16];
    [apply Hpo|lia..|].
  assert (retx_si (next_so info) (zlen (sdu info) <=? next_so info + n) = if last then last_segment else middle_segment) as Hsi.
  { unfold retx_si. rewrite Hlast. destruct (Z.eqb_spec (next_so info) 0); [lia|done]. }
  rewrite Hsi in Hhw. change (cardinality _) with (mod_ e) in Hhw. rewrite Hkm in Hhw.
  set (hdr := mk_header _ _ _ _ _ _) in *.
  assert (get_packed_size hdr = head_max_size e) as Hps by (subst hdr; by destruct last).
  apply wp_write_header; [done|rewrite Hps; lia|]. wp_step.
  rewrite (write_length hdr Hhw), Hps. simpl (so hdr). rewrite Hu16. apply wp_copy_view; [lia|lia|].
  rewrite zlen_sub by lia. destruct (Z.eqb_spec n 0) as [|_]; [lia|]. rewrite Z.eqb_refl. simpl orb.
  cbv iota. wp_step. unfold window_set. wp_step. rewrite (tx_is_sn_u32 e) by done.
  rewrite (u32_small (next_so info + n)) by lia.
  match goal with |- context [CircularMap.set_at _ _ ?i] => set (info' := i) end.
  destruct Hpd as (pn & pw & bw & tm & -> & Htm). set (e3 := set_tx_window _ _).
  wp_step. apply (wp_mono _ (fun _ e' es => e' = if last then set_tx_next ((tx_next (st e) + 1) mod mod_ e) e3 else e3));
    [by destruct last|].
  cbv beta. intros _ ? _ ->. wp_steps.
  apply (continued_pulled _ info' hdr n); subst e3 e0; try (by destruct last).
  - destruct last; by apply (po_bounded _ _ _ _ _ _ Hpo); right.
  - destruct last; by eapply (window_with_set_at e _ info), window_with_under.
  - destruct last; [by left|]. right. split; [done|]. split; [by apply (wi_under _ _ _ Hi)|]. simpl.
    apply Z.leb_gt in Hlast. lia.
  - rewrite zlen_app, (write_length hdr Hhw), Hps, zlen_sub; lia.
  - split; [|intros Hp; apply (po_yes _ _ _ _ _ _ Hpo) in Hp as (? & ? & _ & Hrun); destruct last; by repeat split].
    intros Hp Hm. etrans; [|apply (po_no _ _ _ _ _ _ Hpo Hp)].
    destruct last; (apply no_new_transmission_same; try done; first [apply CircularMap.count_set_at|apply CircularMap.capacity_set_at]).
  - exists (sdu info). simpl. rewrite Hu16. repeat split; try done; try apply Hhw; simpl; lia.
Qed.
End continued.

(** ** Retransmissions *)

Lemma retx_fits l : Forall retx_size_ok l -> zlen l <= 131073 -> RetxQueue.fits l.
Proof.
  intros Hl Hn. assert (RetxQueue.bytes_of l <= MAX_SDU * zlen l) as Hb.
  { clear Hn. induction Hl as [|r l Hr Hl IH]; [done|]. rewrite zlen_cons. cbn [RetxQueue.bytes_of].
    destruct Hr as (? & ? & ?). lia. }
  unfold MAX_SDU in *. split; [|lia]. eapply Forall_impl; [exact Hl|]. intros r (? & ? & ?). lia.
Qed.

Lemma pending_length q : zlen (RetxQueue.pending q) <= zlen (RetxQueue.queue q).
Proof.
  unfold RetxQueue.pending. induction (RetxQueue.queue q) as [|i l IH]; [done|].
  cbn [RetxQueue.valid_items]. destruct (RetxQueue.invalid i); rewrite ?zlen_cons; lia.
Qed.

Lemma pending_room e : retx_inv e -> zlen (RetxQueue.pending (retx_queue e)) <= 131072.
Proof.
  intros Hr. pose proof (pending_length (retx_queue e)). pose proof (RetxQueue.inv_size _ (rq_inv _ Hr)).
  rewrite (rq_size _ Hr) in *. pose proof (tx_ring_sizes e). lia.
Qed.

(** The invariant after a change of the retransmission queue. *)
Lemma tx_inv_set_retx A sent e q b :
  tx_inv A sent e -> RetxQueue.inv q -> RetxQueue.max_size q = am_window_size e ->
  Forall (retx_ok e) (RetxQueue.pending q) -> tx_inv A sent (set_max_retx_reached b (set_retx_queue q e)).
Proof.
  intros [Hi Hs Hsz _ _ Ht] Hq Hm Hall.
  assert (same_core e (set_max_retx_reached b (set_retx_queue q e))) as Hc by done.
  constructor; try done; [by eapply same_win_inv|].
  constructor; try done; (eapply Forall_impl; [exact Hall|]); by intros r (? & ? & ?).
Qed.

Section retx.
Context (A : Z) (sent : list (list Z)) (e : rlc_tx_am_entity) (Hinv : tx_inv A sent e)
  (r : rlc_tx_amd_retx) (l : list rlc_tx_amd_retx) (Hpending : RetxQueue.pending (retx_queue e) = r :: l).

Lemma front_retx : RetxQueue.front (retx_queue e) = Some r /\ retx_ok e r /\ Forall (retx_ok e) l.
Proof.
  destruct Hinv as [_ _ _ [Hq _ _ _] Hall _]. rewrite RetxQueue.front_pending, Hpending by done.
  rewrite Hpending in Hall. by apply Forall_cons in Hall as [? ?].
Qed.

Lemma wp_update_retx_queue n :
  0 < n <= retx_length r ->
  wp (update_retx_queue r n) (fun _ e' es => es = [] /\ exists q b,
    e' = set_max_retx_reached b (set_retx_queue q e) /\ tx_inv A sent e') e.
Proof.
  intros Hn. destruct front_retx as (Hfront & (Rsn & (R1 & R2 & R3) & info & Rw & Rlen) & Hall).
  pose proof (ti_retx _ _ _ Hinv) as Hr. pose proof (pending_room e Hr) as Hroom.
  unfold update_retx_queue. destruct (Z.eqb_spec n (retx_length r)) as [|Hne].
  - destruct (RetxQueue.pop_spec (retx_queue e) (rq_inv _ Hr)) as (P1 & P2 & P3). rewrite Hpending in P3.
    assert (forall b, tx_inv A sent (set_max_retx_reached b (set_retx_queue (RetxQueue.pop (retx_queue e)) e))) as Hpop.
    { intros b. apply tx_inv_set_retx; [done|done| |by rewrite P3]. by rewrite P2, (rq_size _ Hr). }
    wp_step. eapply wp_tx_window_at; [done..|]. wp_steps; (split; [done|]).
    + eexists _, true. split; [done|apply Hpop].
    + eexists _, (max_retx_reached e). split; [|apply (Hpop (max_retx_reached e))]. done.
  - wp_step. wp_step. wp_step. eapply wp_need; [done|]. unfold MAX_SDU in *.
    rewrite (u32_small (retx_so r + n)), (u32_small (retx_length r - n)) by lia.
    assert (retx_size_ok (mk_retx (retx_sn r) (retx_so r + n) (retx_length r - n))) as Hrem.
    { unfold retx_size_ok, MAX_SDU. simpl. lia. }
    destruct (RetxQueue.replace_front_spec (retx_queue e) r (mk_retx (retx_sn r) (retx_so r + n) (retx_length r - n)) l)
      as (q & Hq & Q1 & Q2 & Q3); [apply Hr|done| |].
    { apply retx_fits.
      - constructor; [done|]. eapply Forall_impl; [exact Hall|]. by intros ? (? & ? & _).
      - rewrite Hpending, zlen_cons in Hroom. rewrite zlen_cons. lia. }
    wp_step. eapply wp_need; [done|]. wp_step. split; [done|]. exists q, (max_retx_reached e).
    assert (set_retx_queue q e = set_max_retx_reached (max_retx_reached e) (set_retx_queue q e)) as -> by done.
    split; [done|]. apply tx_inv_set_retx; [done|done|by rewrite Q2, (rq_size _ Hr)|].
    rewrite Q3. constructor; [|done]. split; [done|]. split; [done|]. exists info. split; [done|]. simpl. lia.
Qed.

End retx.

Lemma wp_build_retx_pdu A sent e r l grant_len :
  tx_inv A sent e -> RetxQueue.pending (retx_queue e) = r :: l -> poll_config_ok (cfg e) ->
  wp (build_retx_pdu grant_len) (fun pdu e' es => pulled A sent grant_len e pdu sent e') e.
Proof.
  intros Hinv Hpending Hcfg. destruct (front_retx A sent e Hinv r l Hpending) as (Hfront & (Rsn & (R1 & R2 & R3) & info & Rw & Rlen) & Hall).
  pose proof (ti_win _ _ _ Hinv) as Hi. pose proof (head_sizes e) as Hh.
  assert (RetxQueue.empty (retx_queue e) = false) as Hne.
  { by rewrite RetxQueue.empty_pending, Hpending by apply (ti_retx _ _ _ Hinv). }
  destruct (wi_some _ _ _ Hi _ _ Rw) as [E1 E2 E3 [Z1 Z2] _].
  unfold build_retx_pdu. wp_step. wp_step. rewrite Hne. wp_step. unfold retx_fuel. cbn [while_loop].
  wp_step. unfold skip_missing_retx_step. wp_step. wp_step. wp_step. eapply wp_need; [done|].
  rewrite tx_has_sn_win, Rw by done. wp_step. wp_step. simpl negb. cbv iota. wp_step. wp_step. wp_step.
  eapply wp_need; [done|]. wp_step. wp_step. wp_step.
  eapply wp_tx_window_at; [done..|]. pose proof Z2 as Z2'. unfold MAX_SDU in Z2', R3.
  rewrite (u32_small (retx_so r + retx_length r)) by lia.
  destruct (Z.ltb_spec (zlen (sdu info)) (retx_so r + retx_length r)) as [|_]; [lia|].
  set (e1 := set_retx_sn_latest (retx_sn r) e). set (hl := get_retx_expected_hdr_len e r).
  assert (tx_inv A sent e1) as Hinv1 by (by apply (same_tx_inv e)).
  wp_step; bool_prop.
  { wp_step. assert (hl <= head_max_size e) as Hhl.
    { subst hl. unfold get_retx_expected_hdr_len. destruct (_ =? _); lia. }
    pose proof (pulled_nothing A sent grant_len e Hinv ltac:(lia)) as []. by constructor. }
  set (n := Z.min (retx_length r) (grant_len - hl)).
  assert (0 < n <= retx_length r /\ n <= grant_len - hl) as [Hn Hn2] by (subst n; lia). clearbody n.
  wp_step. eapply wp_mono; [by apply (wp_update_retx_queue A sent e1 Hinv1 r l Hpending)|].
  cbv beta. intros _ e2 es2 (-> & q & b & -> & Hinv2). wp_step. eapply wp_mono.
  { apply wp_get_polling_bit; [apply (ti_timer _ _ _ Hinv)|exact Hcfg]. }
  cbv beta. intros p e2 es2 (-> & Hpd & Hpo). wp_step.
  destruct (slice_header_wf (txam_sn_field_length (cfg e)) p (A + dist e (retx_sn r)) (retx_so r) (sdu info) n)
    as [Hhw Hu16]; [apply Hpo|lia..|].
  change (cardinality _) with (mod_ e) in Hhw. rewrite (sn_number A sent) in Hhw by done.
  set (hdr := mk_header _ _ _ _ _ _) in *.
  assert (get_packed_size hdr = hl) as Hps.
  { subst hl. unfold get_retx_expected_hdr_len. rewrite <- Hu16 at 1. apply slice_header_size. apply Hhw. }
  apply wp_write_header; [done|rewrite Hps; lia|].
  wp_step. rewrite (write_length hdr Hhw), Hps. apply wp_assert; [by apply Z.eqb_eq|]. wp_step.
  simpl (so hdr). rewrite Hu16. apply wp_copy_view; [lia|lia|].
  rewrite zlen_sub by lia. destruct (Z.eqb_spec n 0) as [|_]; [lia|]. rewrite Z.eqb_refl. simpl orb. cbv iota.
  wp_steps. destruct Hpd as (pn & pw & bw & tm & -> & Htm).
  constructor; try done.
  - by apply (same_tx_inv (set_max_retx_reached b (set_retx_queue q e1))).
  - intros Hb. apply (po_bounded _ _ _ _ _ _ Hpo). by left.
  - exists []. by rewrite app_nil_r.
  - intros _ _ E. apply (f_equal zlen) in E. rewrite zlen_app, (write_length hdr Hhw), Hps, zlen_sub, zlen_nil in E by lia.
    assert (0 <= hl) by (subst hl; unfold get_retx_expected_hdr_len; destruct (_ =? _); lia). lia.
  - right. exists (A + dist e (retx_sn r)), hdr, n. pose proof (wi_A _ _ _ Hi). pose proof (tx_dist_range e (retx_sn r)).
    split; [rewrite (wi_sent _ _ _ Hi); lia|].
    split; [rewrite zlen_app, (write_length hdr Hhw), Hps, zlen_sub; lia|]. split; [split|].
    + intros Hp Hm. etrans; [|apply (po_no _ _ _ _ _ _ Hpo Hp)]. by apply no_new_transmission_same.
    + intros Hp. by apply (po_yes _ _ _ _ _ _ Hpo) in Hp as (? & ? & _ & ?).
    + exists (sdu info). simpl. rewrite Hu16. change (cardinality _) with (mod_ e). rewrite (sn_number A sent) by done.
      repeat split; try done; try apply Hhw; lia.
Qed.

(** ** A request of the lower layer *)

(** The interface to the receiving side: the size of the status report is kept up to date. *)
Definition provider_ok (provider : rlc_rx_am_status_provider) : Prop := size_sync (status_pdu provider).

(** The status report, trimmed to the grant; nothing if not even ACK_SN fits. *)
Definition status_sent (provider : rlc_rx_am_status_provider) (grant_len : Z) : list Z :=
  if grant_len <? 3 then [] else pack (fst (trim (status_pdu provider) grant_len)).

Lemma status_sent_fits provider grant_len :
  provider_ok provider -> 0 <= grant_len -> zlen (status_sent provider grant_len) <= grant_len.
Proof.
  intros Hp Hg. unfold status_sent. destruct (Z.ltb_spec grant_len 3); [by rewrite zlen_nil|].
  pose proof (trim_spec (status_pdu provider) grant_len Hp) as Ht.
  destruct (trim (status_pdu provider) grant_len) as [s ok]. destruct Ht as (T1 & _ & _ & _ & T2 & T3 & _).
  simpl. rewrite pack_length by done. apply T3, T2. lia.
Qed.

Lemma wp_send_status_pdu provider grant_len e :
  provider_ok provider ->
  wp (send_status_pdu provider grant_len)
    (fun pdu e' es => e' = e /\ pdu = status_sent provider grant_len) e.
Proof.
  intros Hp. unfold send_status_pdu, status_sent, rlc_am_nr_status_pdu_sizeof_header_ack_sn.
  destruct (Z.ltb_spec grant_len 3); [by wp_step|].
  assert ((if grant_len <? packed_size (status_pdu provider) then trim (status_pdu provider) grant_len
           else (status_pdu provider, true)) = trim (status_pdu provider) grant_len) as ->.
  { unfold trim. destruct (Z.ltb_spec grant_len (packed_size (status_pdu provider))),
      (Z.leb_spec (packed_size (status_pdu provider)) grant_len); (lia || done). }
  pose proof (trim_spec (status_pdu provider) grant_len Hp) as Ht.
  destruct (trim (status_pdu provider) grant_len) as [s ok]. destruct Ht as (T1 & _ & _ & _ & T2 & T3 & _).
  assert (ok = true) as -> by (apply T2; lia). wp_step. wp_step. simpl negb. cbv iota. wp_step.
  assert (zlen (pack s) = packed_size s) as Hl by (by apply pack_length).
  apply wp_assert; [apply Z.leb_le; rewrite Hl; by apply T3|]. simpl fst.
  wp_step; bool_prop; [wp_step; by rewrite (zlen_zero_nil (pack s))|]. by wp_steps.
Qed.

(** Every operation's outcome: the SDUs that were numbered before are a prefix of those after it. *)
Definition pull_result (A : Z) (sent : list (list Z)) (provider : rlc_rx_am_status_provider) (grant_len : Z)
    (e : rlc_tx_am_entity) (pdu : list Z) (sent' : list (list Z)) (e' : rlc_tx_am_entity) : Prop :=
  if status_report_required provider && negb (max_retx_reached e) then
    e' = e /\ sent' = sent /\ pdu = status_sent provider grant_len
  else pulled A sent grant_len e pdu sent' e'.

Lemma wp_captured A sent grant_len e m :
  wp m (fun pdu e' es => exists sent', pulled A sent grant_len e pdu sent' e') e ->
  wp (captured m) (fun pdu e' es => exists sent', pulled A sent grant_len e pdu sent' e') e.
Proof. intros Hm. unfold captured. wp_step. eapply wp_mono; [exact Hm|]. cbv beta. intros. by wp_steps. Qed.

Lemma segmenting_under A sent e : win_inv A sent e ->
  sn_under_segmentation e = if segmenting e then tx_next (st e) else INVALID_RLC_SN.
Proof.
  intros Hi. destruct (segmenting e) eqn:Hs; [by apply (wi_under _ _ _ Hi)|].
  unfold segmenting in Hs. by bool_prop.
Qed.

Lemma wp_pull_pdu A sent provider grant_len e :
  tx_inv A sent e -> poll_config_ok (cfg e) -> grant_len < 2 ^ 32 -> provider_ok provider ->
  wp (pull_pdu provider grant_len)
    (fun pdu e' es => exists sent', pull_result A sent provider grant_len e pdu sent' e') e.
Proof.
  intros Hinv Hcfg Hg Hp. unfold pull_pdu, pull_result. wp_step. wp_step.
  destruct (max_retx_reached e) eqn:Hmax.
  { wp_step. rewrite andb_false_r. exists sent. apply pulled_nothing; [done|]. intros _ [? _]. congruence. }
  destruct (status_report_required provider); simpl andb; cbv iota.
  { eapply wp_mono; [by apply wp_send_status_pdu|]. cbv beta. intros pdu e' es [-> ->]. by exists sent. }
  pose proof (ti_win _ _ _ Hinv) as Hi. pose proof (wi_next _ _ _ Hi) as Hsn.
  rewrite RetxQueue.empty_pending by apply (ti_retx _ _ _ Hinv).
  destruct (RetxQueue.pending (retx_queue e)) as [|r l] eqn:Hr; simpl negb; cbv iota.
  2:{ apply wp_captured. eapply wp_mono; [by eapply wp_build_retx_pdu|]. cbv beta. eauto. }
  rewrite (segmenting_under _ _ _ Hi). destruct (segmenting e) eqn:Hseg.
  - destruct (Z.eqb_spec (tx_next (st e)) INVALID_RLC_SN) as [E|_]; [by apply is_sn_valid in Hsn|].
    destruct (under_stored A sent e Hi Hseg) as (info & Hw & _).
    rewrite tx_has_sn_win, Hw by done. simpl andb. cbv iota.
    apply wp_captured. eapply wp_mono; [by eapply wp_build_continued_sdu_segment|]. cbv beta. eauto.
  - rewrite Z.eqb_refl. simpl andb. cbv iota. wp_step. simpl when. wp_step.
    wp_step; [|apply wp_captured; by apply wp_build_new_pdu].
    wp_step. exists sent. apply pulled_nothing; [done|]. intros _ (_ & [?|[?|[_ Hlive]]]); try congruence.
    apply Hlive. unfold SduQueue.is_empty in *. unfold SduQueue.live. by destruct (SduQueue.queue (sdu_queue e)).
Qed.

(** * RLC AM transmitting entity: the buffer state

    The number of bytes reported to the lower layer is what is needed to send everything the entity
    holds, headers included. *)

Import AmHeader StatusPdu RlcTxAm.
Open Scope Z_scope.
Open Scope entity_scope.

(** Bytes to send new SDUs, the rest of the SDU under segmentation and the retransmissions: the data
    and a header each, the larger one where a segment offset is due. *)
Definition new_bytes (e : rlc_tx_am_entity) : Z :=
  foldr (fun s acc => zlen (sdu_buf s) + head_min_size e + acc) 0 (SduQueue.live (sdu_queue e)).
Definition segment_bytes (e : rlc_tx_am_entity) : Z :=
  match win e (sn_under_segmentation e) with
  | Some info => if segmenting e then zlen (sdu info) - next_so info + head_max_size e else 0
  | None => 0
  end.
Definition pending_retx_bytes (e : rlc_tx_am_entity) : Z :=
  foldr (fun r acc => retx_length r + get_retx_expected_hdr_len e r + acc) 0 (RetxQueue.pending (retx_queue e)).
Definition status_bytes (provider : rlc_rx_am_status_provider) : Z :=
  if status_report_required provider then status_pdu_length provider else 0.

Definition bytes_to_send (e : rlc_tx_am_entity) (provider : rlc_rx_am_status_provider) : Z :=
  new_bytes e + segment_bytes e + pending_retx_bytes e + status_bytes provider.

(** Arrival of the SDU that is sent from next: of the first retransmission, else of the SDU under
    segmentation, else of the oldest SDU queued. *)
Definition next_arrival (e : rlc_tx_am_entity) : option Z :=
  match RetxQueue.pending (retx_queue e) with
  | r :: _ => time_of_arrival <$> win e (retx_sn r)
  | [] => if segmenting e then time_of_arrival <$> win e (sn_under_segmentation e)
          else sdu_time_of_arrival <$> hd_error (SduQueue.live (sdu_queue e))
  end.

Lemma new_bytes_sum e :
  new_bytes e = SduQueue.total_bytes (SduQueue.live (sdu_queue e)) + zlen (SduQueue.live (sdu_queue e)) * head_min_size e.
Proof.
  unfold new_bytes, SduQueue.total_bytes. induction (SduQueue.live (sdu_queue e)) as [|s l IH]; cbn [foldr]; [done|].
  rewrite IH, zlen_cons. lia.
Qed.

Lemma retx_bytes_sum e :
  pending_retx_bytes e = RetxQueue.bytes_of (RetxQueue.pending (retx_queue e)) +
    RetxQueue.count_so true (RetxQueue.pending (retx_queue e)) * head_min_size e +
    RetxQueue.count_so false (RetxQueue.pending (retx_queue e)) * head_max_size e.
Proof.
  unfold pending_retx_bytes, get_retx_expected_hdr_len.
  induction (RetxQueue.pending (retx_queue e)) as [|r l IH]; cbn [foldr RetxQueue.bytes_of RetxQueue.count_so]; [lia|].
  rewrite IH. destruct (retx_so r =? 0); cbn [eqb]; lia.
Qed.

(** What evaluating the buffer state may change: SDUs discarded meanwhile leave the queue. *)
Record refreshed (A : Z) (sent : list (list Z)) (e e' : rlc_tx_am_entity) : Prop := {
  rf_eq : exists q b, e' = set_suspend_bs_notif_barring b (set_sdu_queue q e);
  rf_inv : tx_inv A sent e';
  rf_live : SduQueue.live (sdu_queue e') = SduQueue.live (sdu_queue e)
}.

(** The first part: the segment under way, or the queue's front. *)
Lemma wp_next_segment A sent e :
  tx_inv A sent e ->
  wp (if negb (sn_under_segmentation e =? INVALID_RLC_SN) then
        if has_sn e (sn_under_segmentation e) then
          let! sdu_info := window_at (sn_under_segmentation e) in
          ret (u32 (zlen (sdu sdu_info) - next_so sdu_info + head_max_size e), Some (time_of_arrival sdu_info))
        else ret (0, None)
      else
        let '(q, next_sdu) := SduQueue.front (sdu_queue e) in
        modify (set_sdu_queue q) ;;;
        ret (0, sdu_time_of_arrival <$> next_sdu))
    (fun seg e' es => es = [] /\ u32 (fst seg) = u32 (segment_bytes e) /\
       snd seg = (if segmenting e then time_of_arrival <$> win e (sn_under_segmentation e)
                  else sdu_time_of_arrival <$> hd_error (SduQueue.live (sdu_queue e))) /\
       exists q, e' = set_sdu_queue q e /\ tx_inv A sent e' /\ SduQueue.live q = SduQueue.live (sdu_queue e)) e.
Proof.
  intros Hinv. pose proof (ti_win _ _ _ Hinv) as Hi. pose proof (wi_next _ _ _ Hi) as Hsn.
  unfold segment_bytes. change (negb (sn_under_segmentation e =? INVALID_RLC_SN)) with (segmenting e).
  destruct (segmenting e) eqn:Hseg.
  - rewrite (wi_under _ _ _ Hi Hseg). destruct (under_stored A sent e Hi Hseg) as (info & Hw & _).
    rewrite tx_has_sn_win, Hw by done. wp_step. eapply wp_tx_window_at; [done..|]. wp_step. split; [done|].
    split; [unfold u32; by apply Z.mod_mod|]. split; [done|]. exists (sdu_queue e).
    by destruct e.
  - pose proof (SduQueue.front_spec (sdu_queue e) (ti_sdus _ _ _ Hinv)) as Hf.
    destruct (SduQueue.front (sdu_queue e)) as [q r]. destruct Hf as (Q1 & _ & -> & Q2 & _ & popped & Hpop).
    wp_steps. split; [done|]. split; [by destruct (win e _)|]. split; [done|].
    exists q. split; [done|]. split; [|done].
    apply tx_inv_set_queue; [done|done|]. by eapply queued_ok_suffix, ti_sdu_sizes.
Qed.

Lemma wp_get_buffer_state A sent provider e :
  tx_inv A sent e ->
  wp (get_buffer_state provider) (fun bs e' es => es = [] /\ refreshed A sent e e' /\
    bs = mk_buffer_state (u32 (bytes_to_send e provider)) (next_arrival e)) e.
Proof.
  intros Hinv. unfold get_buffer_state. wp_step. wp_step.
  rewrite SduQueue.get_state_live by apply (ti_sdus _ _ _ Hinv). cbn [SduQueue.n_sdus SduQueue.n_bytes].
  wp_step. eapply wp_mono; [by apply (wp_next_segment A sent)|]. cbv beta.
  intros seg e1 es1 (-> & Hseg & Htoa & q & -> & Hinv1 & Hlive).
  pose proof (ti_retx _ _ _ Hinv) as Hr. rewrite (RetxQueue.inv_state _ (rq_inv _ Hr)).
  unfold RetxQueue.state_of. cbn [RetxQueue.retx_bytes RetxQueue.n_retx_so_zero RetxQueue.n_retx_so_nonzero].
  rewrite <- new_bytes_sum, <- retx_bytes_sum.
  pose proof (RetxQueue.empty_pending _ (rq_inv _ Hr)) as He. pose proof (RetxQueue.front_pending _ (rq_inv _ Hr)) as Hf.
  wp_step.
  apply (wp_mono _ (fun _ e' es => e' = set_sdu_queue q e /\ es = [])).
  { unfold retx_fuel. cbn [while_loop]. unfold drop_stale_retx_step. wp_step. wp_step. wp_step.
    change (retx_queue (set_sdu_queue q e)) with (retx_queue e). rewrite He.
    destruct (RetxQueue.pending (retx_queue e)) as [|r l] eqn:Hp; [by wp_steps|].
    wp_step. eapply wp_need; [exact Hf|].
    pose proof (ti_retx_ok _ _ _ Hinv1) as Hall. simpl in Hall. rewrite Hp in Hall.
    apply Forall_cons in Hall as [(Hrsn & _ & info & Hw & _) _].
    rewrite tx_has_sn_win, Hw by done. by wp_steps. }
  cbv beta. intros _ ? ? [-> ->]. wp_step. wp_step. wp_step.
  change (retx_queue (set_sdu_queue q e)) with (retx_queue e). rewrite He.
  apply (wp_mono _ (fun toa e' es => e' = set_sdu_queue q e /\ es = [] /\ toa = next_arrival e)).
  { unfold next_arrival. destruct (RetxQueue.pending (retx_queue e)) as [|r l] eqn:Hp; simpl negb; cbv iota; [by wp_step|].
    wp_step. eapply wp_need; [exact Hf|]. wp_step.
    pose proof (ti_retx_ok _ _ _ Hinv1) as Hall. simpl in Hall. rewrite Hp in Hall.
    apply Forall_cons in Hall as [(Hrsn & _ & info & Hw & _) _].
    eapply wp_tx_window_at; [done..|]. wp_step. split; [done|]. split; [done|].
    change (win e (retx_sn r) = Some info) in Hw. by rewrite Hw. }
  cbv beta. intros toa ? ? (-> & -> & ->).
  assert (forall b, refreshed A sent e (set_suspend_bs_notif_barring b (set_sdu_queue q e))) as Hrf.
  { intros b. split; [by exists q, b| |done]. by apply (same_tx_inv (set_sdu_queue q e)). }
  assert (u32 (u32 (new_bytes e) + fst seg + u32 (pending_retx_bytes e) + (if status_report_required provider then status_pdu_length provider else 0))
          = u32 (bytes_to_send e provider)) as Hsum.
  { unfold bytes_to_send. fold (status_bytes provider).
    unfold u32 in *. change (2 ^ 32) with 4294967296 in *. clear - Hseg.
    generalize dependent (fst seg). generalize (new_bytes e) (segment_bytes e) (pending_retx_bytes e) (status_bytes provider).
    intros. zmod. }
  wp_step. wp_step.
  - wp_step. wp_step. split; [done|]. split; [apply Hrf|]. by rewrite Hsum.
  - wp_step. split; [done|]. split; [|by rewrite Hsum].
    specialize (Hrf (suspend_bs_notif_barring e)). by destruct e.
Qed.

Lemma wp_update_mac_buffer_state A sent provider force e :
  tx_inv A sent e ->
  wp (update_mac_buffer_state provider force) (fun _ e' es =>
    let bs := mk_buffer_state (u32 (bytes_to_send e provider)) (next_arrival e) in
    (es = [] \/ es = [on_buffer_state_update bs]) /\ (force = true -> es = [on_buffer_state_update bs]) /\
    prev_buffer_state e' = bs /\ tx_inv A sent e' /\ same_core e e' /\ stopped_lower e' = stopped_lower e /\
    poll_retransmit_timer e' = poll_retransmit_timer e /\ st e' = st e /\
    retx_queue e' = retx_queue e /\ SduQueue.live (sdu_queue e') = SduQueue.live (sdu_queue e)) e.
Proof.
  intros Hinv. unfold update_mac_buffer_state. wp_steps.
  set (e0 := set_pending_buffer_state false e).
  assert (tx_inv A sent e0) as Hinv0 by (by apply (same_tx_inv e)).
  eapply wp_mono; [by apply (wp_get_buffer_state A sent)|]. cbv beta.
  intros bs e1 es1 (-> & [(q & b & ->) Hinv1 Hlive] & Hbs).
  change (bytes_to_send e0 provider) with (bytes_to_send e provider) in Hbs. change (next_arrival e0) with (next_arrival e) in Hbs.
  rewrite <- Hbs. set (e1 := set_suspend_bs_notif_barring b _) in *.
  assert (forall b', tx_inv A sent (set_prev_buffer_state bs (set_suspend_bs_notif_barring b' e1))) as Hinv2.
  { intros b'. by apply (same_tx_inv e1). }
  wp_step. wp_step. wp_step. wp_step.
  - wp_steps. simpl. split; [by right|]. split; [done|]. split; [done|].
    split; [apply (Hinv2 false)|]. by repeat split.
  - wp_step. split; [by left|]. split; [intros ->; done|]. split; [done|].
    split; [by apply (same_tx_inv e1)|]. by repeat split.
Qed.
