(* ===== verification/RlcTxAmStatus.v ===== *)
(** * RLC AM transmitting entity: what a status PDU does

    Acknowledgements move the window forward one SDU at a time; then the retransmission queue is
    rebuilt from the NACKs.  [retx_of] says what a NACK asks to retransmit. *)

From S2P Require Import Prelude Effects Window RlcConfig RlcAmPdu RlcAmPduFacts Timers PdcpSn SduQueue RetxQueue RlcTxUm RlcTxAm RlcTxAmInv RlcTxAmSend.
Import AmHeader StatusPdu RlcTxAm.
Open Scope Z_scope.
Open Scope entity_scope.

(** ** Acknowledgement of one SDU *)

(** TX_Next_Ack moves past the SDU at the lower edge, which leaves the window. *)
Record acked (e e' : rlc_tx_am_entity) : Prop := {
  ac_cfg : cfg e' = cfg e;
  ac_ack : tx_next_ack (st e') = (tx_next_ack (st e) + 1) mod mod_ e;
  ac_next : tx_next (st e') = tx_next (st e);
  ac_under : sn_under_segmentation e' = sn_under_segmentation e;
  ac_window : tx_window e' = fst (CircularMap.erase (tx_window e) (tx_next_ack (st e)))
}.

Section ack.
Context (A : Z) (sent : list (list Z)) (e e' : rlc_tx_am_entity) (Hi : win_inv A sent e) (Ha : acked e e')
  (Hd : 0 < dist e (tx_next (st e))).

Lemma acked_mod : mod_ e' = mod_ e /\ am_window_size e' = am_window_size e.
Proof. unfold mod_, am_window_size. by rewrite (ac_cfg _ _ Ha). Qed.

Lemma acked_dist x : 0 < dist e x -> dist e' x = dist e x - 1.
Proof.
  intros Hx. unfold dist. rewrite (proj1 acked_mod), (ac_ack _ _ Ha). pose proof (tx_mod_pos e). pose proof (tx_ring_sizes e).
  assert (sn_diff (mod_ e) (tx_next_ack (st e)) ((tx_next_ack (st e) + 1) mod mod_ e) = 1) as E by (by apply sn_diff_add; lia).
  rewrite (sn_diff_rebase (mod_ e) ltac:(lia) (tx_next_ack (st e))); rewrite E; unfold dist in *; lia.
Qed.

Lemma acked_dist_edge x : dist e x = 0 -> dist e' x = mod_ e - 1.
Proof.
  intros Hx. unfold dist. rewrite (proj1 acked_mod), (ac_ack _ _ Ha). pose proof (tx_mod_pos e). pose proof (tx_ring_sizes e).
  assert (sn_diff (mod_ e) (tx_next_ack (st e)) ((tx_next_ack (st e) + 1) mod mod_ e) = 1) as E by (by apply sn_diff_add; lia).
  rewrite (sn_diff_rebase_wrap (mod_ e) ltac:(lia) (tx_next_ack (st e))); rewrite E; unfold dist in *; lia.
Qed.

Lemma acked_win sn : win e' sn = if sn =? tx_next_ack (st e) then None else win e sn.
Proof. unfold win. rewrite (ac_window _ _ Ha). apply CircularMap.lookup_erase, Hi. Qed.

Lemma acked_in_flight : in_flight e' = in_flight e - 1.
Proof.
  unfold in_flight, segmenting. rewrite (ac_under _ _ Ha), (ac_next _ _ Ha), acked_dist by done. lia.
Qed.

Lemma acked_win_inv : win_inv (A + 1) sent e'.
Proof.
  destruct acked_mod as [Hm Hw]. pose proof (wi_ack _ _ _ Hi) as Hack.
  pose proof (wi_room _ _ _ Hi). pose proof (wi_A _ _ _ Hi) as [HA HAm].
  constructor; rewrite ?Hm, ?Hw, ?acked_in_flight, ?(ac_next _ _ Ha).
  - split; [lia|]. rewrite (ac_ack _ _ Ha), <- HAm. by rewrite Zplus_mod_idemp_l.
  - unfold is_sn. rewrite Hm. apply Hi.
  - rewrite (wi_sent _ _ _ Hi). lia.
  - unfold segmenting. rewrite (ac_under _ _ Ha). apply Hi.
  - lia.
  - rewrite (ac_window _ _ Ha). apply CircularMap.wf_erase, Hi.
  - rewrite (ac_window _ _ Ha), CircularMap.capacity_erase. apply Hi.
  - rewrite (ac_window _ _ Ha), CircularMap.count_erase, (wi_count _ _ _ Hi); [done|].
    apply CircularMap.contains_true. apply (win_in_flight A sent e Hi); [done|].
    rewrite dist_ack. unfold in_flight. destruct (segmenting e); lia.
  - intros sn info E. rewrite acked_win in E. destruct (Z.eqb_spec sn (tx_next_ack (st e))) as [|Hne]; [done|].
    destruct (wi_some _ _ _ Hi _ _ E) as [E1 E2 E3 E4 E5].
    assert (0 < dist e sn) as Hpos.
    { pose proof (tx_dist_range e sn). destruct (decide (dist e sn = 0)) as [D0|]; [|lia].
      exfalso. apply Hne. apply (tx_dist_inj e); [done|done|]. by rewrite dist_ack. }
    constructor; rewrite ?acked_dist, ?acked_in_flight, ?(ac_next _ _ Ha) by done; try done.
    + unfold is_sn. by rewrite Hm.
    + lia.
    + by replace (A + 1 + (dist e sn - 1)) with (A + dist e sn) by lia.
    + unfold segmenting. rewrite (ac_under _ _ Ha). apply E5.
  - intros sn Hsn E. unfold is_sn in Hsn. rewrite Hm in Hsn. rewrite acked_win in E.
    destruct (Z.eqb_spec sn (tx_next_ack (st e))) as [->|Hne].
    + rewrite acked_dist_edge by apply dist_ack. pose proof (tx_ring_sizes e). lia.
    + pose proof (wi_none _ _ _ Hi _ Hsn E).
      assert (0 < in_flight e) by (unfold in_flight; destruct (segmenting e); lia).
      rewrite acked_dist by lia. lia.
Qed.
End ack.

(** ** The acknowledgement loop *)

(** Latest PDCP SNs delivered: of new SDUs and of retransmitted ones. *)
Definition latest (v : option Z * option Z) (info : rlc_tx_am_sdu_info) : option Z * option Z :=
  match pdcp_sn info with
  | Some _ => if is_retx info then (fst v, pdcp_sn info) else (pdcp_sn info, snd v)
  | None => v
  end.

(** The [n] oldest SDUs in flight. *)
Definition oldest (e : rlc_tx_am_entity) (n : Z) : list rlc_tx_am_sdu_info :=
  omap (fun i => win e ((tx_next_ack (st e) + i) mod mod_ e)) (seqZ 0 n).

Definition delivered (v : option Z * option Z) : list tx_event :=
  match fst v with Some p => [on_delivered_sdu p] | None => [] end ++
  match snd v with Some p => [on_delivered_retransmitted_sdu p] | None => [] end.

(** The [n] oldest SDUs were acknowledged. *)
Record acked_upto (A : Z) (sent : list (list Z)) (n : Z) (e e' : rlc_tx_am_entity) : Prop := {
  au_eq : exists w bin, e' = set_tx_next_ack ((tx_next_ack (st e) + n) mod mod_ e) (set_tx_window w (set_recycle_bin bin e));
  au_inv : win_inv (A + n) sent e';
  au_dist : dist e' (tx_next (st e')) = dist e (tx_next (st e)) - n;
  au_win : forall sn, is_sn e sn -> win e' sn = if dist e sn <? n then None else win e sn
}.

Lemma oldest_succ e n : 0 <= n ->
  oldest e (n + 1) = oldest e n ++ match win e ((tx_next_ack (st e) + n) mod mod_ e) with Some i => [i] | None => [] end.
Proof.
  intros Hn. unfold oldest. rewrite seqZ_app by lia. rewrite omap_app. by f_equal.
Qed.

Lemma acked_upto_mod A sent n e e' : acked_upto A sent n e e' -> mod_ e' = mod_ e /\ tx_next (st e') = tx_next (st e).
Proof. by intros [(w & bin & ->) _ _ _]. Qed.

Lemma dist_add e n : 0 <= n < mod_ e -> dist e ((tx_next_ack (st e) + n) mod mod_ e) = n.
Proof. intros Hn. by apply sn_diff_add. Qed.

Lemma acked_upto_0 A sent e : win_inv A sent e -> acked_upto A sent 0 e e.
Proof.
  intros Hi. constructor.
  - exists (tx_window e), (recycle_bin e). rewrite Z.add_0_r, Z.mod_small by apply (wi_ack _ _ _ Hi).
    by destruct e as [? ? [] ? ? ? ? ? ? ? ? ? ? ? ? ?].
  - by rewrite Z.add_0_r.
  - lia.
  - intros sn Hsn. pose proof (tx_dist_range e sn). destruct (Z.ltb_spec (dist e sn) 0); [lia|done].
Qed.

(** A further acknowledgement. *)
Lemma acked_upto_succ A sent n e s s' :
  win_inv A sent e -> acked_upto A sent n e s -> 0 <= n < dist e (tx_next (st e)) ->
  (exists bin, s' = set_tx_next_ack ((tx_next_ack (st s) + 1) mod mod_ e)
     (set_tx_window (fst (CircularMap.erase (tx_window s) (tx_next_ack (st s)))) (set_recycle_bin bin s))) ->
  acked_upto A sent (n + 1) e s'.
Proof.
  intros Hi0 [(w & bin & Hs) Hi Hd Hw] Hn (bin' & Hs').
  assert (acked s s') as Ha by (rewrite Hs', Hs; by split).
  pose proof (tx_dist_range e (tx_next (st e))) as Hr. pose proof (tx_mod_pos e) as Hm.
  assert (0 < dist s (tx_next (st s))) as Hpos by lia.
  assert (mod_ s = mod_ e /\ tx_next_ack (st s) = (tx_next_ack (st e) + n) mod mod_ e) as [Hms Has] by (by rewrite Hs).
  constructor.
  - exists (fst (CircularMap.erase (tx_window s) (tx_next_ack (st s)))), bin'. rewrite Hs', Hs. simpl.
    by rewrite Zplus_mod_idemp_l, Z.add_assoc.
  - rewrite Z.add_assoc. by apply (acked_win_inv (A + n) sent s s').
  - rewrite (ac_next _ _ Ha), (acked_dist s s') by done. lia.
  - intros sn Hsn. rewrite (acked_win (A + n) sent s s') by done. rewrite Hw by done.
    destruct (Z.eqb_spec sn (tx_next_ack (st s))) as [->|Hne].
    + rewrite Has, dist_add by lia. destruct (Z.ltb_spec n (n + 1)); [done|lia].
    + assert (dist e sn <> n).
      { intros E. apply Hne. rewrite Has. apply (tx_dist_inj e); [done|apply tx_is_sn_mod|]. by rewrite dist_add by lia. }
      destruct (Z.ltb_spec (dist e sn) n), (Z.ltb_spec (dist e sn) (n + 1)); (lia || done).
Qed.

Lemma wp_add_discarded_pdu buf s :
  wp (add_discarded_pdu buf) (fun _ s' es => es = [] /\ exists bin, s' = set_recycle_bin bin s) s.
Proof.
  unfold add_discarded_pdu. wp_step. split; [done|]. destruct (_ <? _); [eauto|].
  exists (recycle_bin s). by destruct s.
Qed.

Lemma wp_ack_step A sent e stop_sn n s md mr :
  win_inv A sent e -> acked_upto A sent n e s -> is_sn e stop_sn -> 0 <= n <= dist e stop_sn ->
  dist e stop_sn <= dist e (tx_next (st e)) -> (md, mr) = fold_left latest (oldest e n) (None, None) ->
  wp (ack_step stop_sn (tx_next_ack (st s), md, mr)) (fun r s' es => es = [] /\
    match r with
    | inl (sn, md, mr) => n + 1 <= dist e stop_sn /\ acked_upto A sent (n + 1) e s' /\ sn = tx_next_ack (st s') /\
        (md, mr) = fold_left latest (oldest e (n + 1)) (None, None)
    | inr v => n = dist e stop_sn /\ s' = s /\ v = (md, mr)
    end) s.
Proof.
  intros Hi Hu Hstop Hn Hle Hv. pose proof (tx_dist_range e (tx_next (st e))) as Hr. pose proof (tx_mod_pos e) as Hm.
  destruct (acked_upto_mod _ _ _ _ _ Hu) as [Hms Hnext]. pose proof (au_inv _ _ _ _ _ Hu) as His.
  assert (tx_next_ack (st s) = (tx_next_ack (st e) + n) mod mod_ e) as Has.
  { destruct (au_eq _ _ _ _ _ Hu) as (? & ? & Hs). by rewrite Hs. }
  assert (dist s stop_sn = dist e stop_sn - n) as Hds.
  { unfold dist. rewrite Hms, Has. pose proof (dist_add e n) as E. unfold dist in *.
    rewrite (sn_diff_rebase (mod_ e) ltac:(lia) (tx_next_ack (st e))); rewrite E by lia; lia. }
  unfold ack_step. wp_step. wp_step. rewrite !tx_mod_base_dist, dist_ack, Hds.
  destruct (Z.ltb_spec 0 (dist e stop_sn - n)); simpl negb; cbv iota; [|wp_step; split; [done|]; split; [lia|done]].
  assert (exists info, win s (tx_next_ack (st s)) = Some info) as [info Hw].
  { apply (win_in_flight _ _ _ His); [apply (wi_ack _ _ _ His)|]. rewrite dist_ack. unfold in_flight.
    pose proof (au_dist _ _ _ _ _ Hu). destruct (segmenting s); lia. }
  rewrite tx_has_sn_win, Hw by apply (wi_ack _ _ _ His). wp_step.
  eapply wp_tx_window_at; [apply (wi_ack _ _ _ His)|done|]. wp_step. eapply wp_mono; [apply wp_add_discarded_pdu|].
  cbv beta. intros _ s1 es1 [-> (bin & ->)]. wp_step. unfold SduWindow.remove_sn.
  assert (SduWindow.has_sn (tx_window s) (tx_next_ack (st s)) = true) as ->.
  { pose proof (tx_has_sn_win s (tx_next_ack (st s)) (wi_ack _ _ _ His)) as E. rewrite Hw in E. exact E. }
  simpl negb. cbv iota. wp_steps. split; [done|].
  assert (acked_upto A sent (n + 1) e (set_tx_next_ack ((tx_next_ack (st s) + 1) mod mod_ s)
    (set_tx_window (CircularMap.erase (tx_window s) (tx_next_ack (st s))).1 (set_recycle_bin bin s)))) as Hu'.
  { apply (acked_upto_succ A sent n e s); [done|done|lia|]. exists bin. by rewrite Hms. }
  split; [lia|]. split; [exact Hu'|]. split; [done|].
  rewrite oldest_succ, fold_left_app, <- Hv by lia.
  assert (win e ((tx_next_ack (st e) + n) mod mod_ e) = Some info) as ->.
  { rewrite <- Hw, Has. rewrite (au_win _ _ _ _ _ Hu) by apply tx_is_sn_mod. rewrite dist_add by lia.
    by rewrite Z.ltb_irrefl. }
  simpl. unfold latest. by destruct (pdcp_sn info), (is_retx info).
Qed.

Lemma wp_process_acks A sent e stop_sn :
  win_inv A sent e -> is_sn e stop_sn -> dist e stop_sn <= dist e (tx_next (st e)) ->
  wp (process_acks stop_sn) (fun _ e' es => acked_upto A sent (dist e stop_sn) e e' /\
    es = delivered (fold_left latest (oldest e (dist e stop_sn)) (None, None))) e.
Proof.
  intros Hi Hstop Hle. unfold process_acks. wp_step. wp_step. wp_step.
  pose proof (tx_dist_range e stop_sn) as Hr.
  apply (wp_while_loop (fun fuel v s es => es = [] /\ exists n, Z.of_nat fuel + n > dist e stop_sn /\
    0 <= n <= dist e stop_sn /\ acked_upto A sent n e s /\ fst (fst v) = tx_next_ack (st s) /\
    (snd (fst v), snd v) = fold_left latest (oldest e n) (None, None))).
  - split; [done|]. exists 0. split; [unfold sn_fuel; lia|]. split; [lia|]. split; [by apply acked_upto_0|]. done.
  - intros ? ? ? (_ & n & ? & ? & _). lia.
  - intros fuel [[sn md] mr] s es (-> & n & Hf & Hn & Hu & Hsn & Hv). simpl in Hsn, Hv. subst sn.
    eapply wp_mono; [by apply (wp_ack_step A sent e stop_sn n)|]. cbv beta.
    intros [[[sn md'] mr']|v] s' es' (-> & Hpost); simpl.
    + destruct Hpost as (P1 & P2 & -> & P3). split; [done|]. exists (n + 1). split; [lia|]. split; [lia|]. done.
    + destruct Hpost as (-> & -> & ->). rewrite <- Hv. unfold delivered. simpl.
      destruct md, mr; wp_steps; done.
Qed.

(** ** Retransmission counters *)

(** Two entries of a window that differ in their retransmission counter only. *)
Definition same_sdu (i j : rlc_tx_am_sdu_info) : Prop := j = set_retx_count i (retx_count j).

(** Windows that differ in the counters only. *)
Record recounted (w w' : CircularMap.t rlc_tx_am_sdu_info) : Prop := {
  rc_wf : CircularMap.wf w -> CircularMap.wf w';
  rc_cap : CircularMap.capacity w' = CircularMap.capacity w;
  rc_count : CircularMap.count w' = CircularMap.count w;
  rc_lookup : forall sn, option_Forall2 same_sdu (CircularMap.lookup w sn) (CircularMap.lookup w' sn)
}.

#[export] Instance same_sdu_preorder : PreOrder same_sdu.
Proof.
  split; [by intros []|]. intros i j k Hij Hjk. unfold same_sdu in *. rewrite Hjk, Hij. done.
Qed.

#[export] Instance recounted_preorder : PreOrder recounted.
Proof.
  split.
  - by split.
  - intros w1 w2 w3 [H1 H2 H3 H4] [K1 K2 K3 K4]. split; [auto|congruence|congruence|].
    intros sn. specialize (H4 sn). specialize (K4 sn).
    inversion H4; subst; inversion K4; subst; try congruence; constructor.
    etrans; [done|]. congruence.
Qed.

Lemma recounted_set_at w k i j :
  CircularMap.lookup w k = Some i -> same_sdu i j -> recounted w (CircularMap.set_at w k j).
Proof.
  intros Hk Hs. split.
  - apply CircularMap.wf_set_at.
  - apply CircularMap.capacity_set_at.
  - apply CircularMap.count_set_at.
  - intros sn. rewrite CircularMap.lookup_set_at. destruct (Z.eqb_spec sn k) as [->|].
    + assert (CircularMap.contains w k = true) as -> by (apply CircularMap.contains_true; eauto).
      rewrite Hk. by constructor.
    + destruct (CircularMap.lookup w sn); by constructor.
Qed.

(** What a change of the counters leaves as it is. *)
Section recount.
Context (e e' : rlc_tx_am_entity) (Hcfg : cfg e' = cfg e) (Hack : tx_next_ack (st e') = tx_next_ack (st e))
  (Hnext : tx_next (st e') = tx_next (st e)) (Hunder : sn_under_segmentation e' = sn_under_segmentation e)
  (Hw : recounted (tx_window e) (tx_window e')).

Lemma recount_mod : mod_ e' = mod_ e /\ am_window_size e' = am_window_size e.
Proof. unfold mod_, am_window_size. by rewrite Hcfg. Qed.
Lemma recount_dist x : dist e' x = dist e x.
Proof. unfold dist. by rewrite (proj1 recount_mod), Hack. Qed.
Lemma recount_in_flight : in_flight e' = in_flight e.
Proof. unfold in_flight, segmenting. by rewrite recount_dist, Hunder, Hnext. Qed.
Lemma recount_win sn : option_Forall2 same_sdu (win e sn) (win e' sn).
Proof. apply (rc_lookup _ _ Hw). Qed.

Lemma recount_win_inv A sent : win_inv A sent e -> win_inv A sent e'.
Proof.
  destruct recount_mod as [Hm Ha]. intros [? ? ? ? ? ? ? ? Hsome Hnone]. constructor; unfold is_sn, segmenting in *;
    rewrite ?Hm, ?Ha, ?recount_in_flight, ?Hack, ?Hnext, ?Hunder; try done.
  - by apply (rc_wf _ _ Hw).
  - by rewrite (rc_cap _ _ Hw).
  - by rewrite (rc_count _ _ Hw).
  - intros sn info E. pose proof (recount_win sn) as Hs. rewrite E in Hs. inversion Hs as [i j Hij Hi Hj|]; subst.
    destruct (Hsome sn i) as [E1 E2 E3 E4 E5]; [done|]. rewrite Hij.
    constructor; rewrite ?recount_dist, ?recount_in_flight; unfold is_sn, segmenting in *; rewrite ?Hm, ?Hunder, ?Hnext; done.
  - intros sn Hsn E. pose proof (recount_win sn) as Hs. rewrite E in Hs. inversion Hs as [|Hi Hj]; subst.
    rewrite recount_dist. by apply Hnone.
Qed.

Lemma recount_retx_ok r : retx_ok e r -> retx_ok e' r.
Proof.
  intros (R1 & R2 & i & R3 & R4). unfold is_sn in *. split; [by unfold is_sn; rewrite (proj1 recount_mod)|]. split; [done|].
  pose proof (recount_win (retx_sn r)) as Hs. rewrite R3 in Hs. inversion Hs as [i' j Hij Hi' Hj|]; subst.
  exists j. split; [done|]. by rewrite Hij.
Qed.
End recount.

Lemma wp_increment_retx_count e sn info :
  is_sn e sn -> win e sn = Some info ->
  wp (increment_retx_count sn) (fun _ e' es =>
    (es = [] \/ es = [on_max_retx]) /\ exists w, e' = set_tx_window w e /\ recounted (tx_window e) w) e.
Proof.
  intros Hsn Hw. unfold increment_retx_count. wp_step. eapply wp_tx_window_at; [done..|].
  wp_step. unfold window_set. wp_step. rewrite (tx_is_sn_u32 e) by done. set (info' := set_retx_count _ _).
  assert (recounted (tx_window e) (CircularMap.set_at (tx_window e) sn info')) as Hr.
  { by apply (recounted_set_at _ _ info). }
  set (e' := set_tx_window _ e). unfold check_sn_reached_max_retx. wp_step.
  apply (wp_tx_window_at e' sn info'); [done| |].
  { unfold win. simpl. rewrite CircularMap.lookup_set_at, Z.eqb_refl.
    assert (CircularMap.contains (tx_window e) sn = true) as -> by (apply CircularMap.contains_true; eauto). done. }
  wp_steps; (split; [auto|]); eexists; done.
Qed.

Lemma wp_decrement_retx_count e sn info :
  is_sn e sn -> win e sn = Some info ->
  wp (decrement_retx_count sn) (fun _ e' es =>
    es = [] /\ exists w, e' = set_tx_window w e /\ recounted (tx_window e) w) e.
Proof.
  intros Hsn Hw. unfold decrement_retx_count. wp_step. eapply wp_tx_window_at; [done..|].
  wp_step; [wp_step; split; [done|]; exists (tx_window e); split; [by destruct e|done]|].
  unfold window_set. wp_step. rewrite (tx_is_sn_u32 e) by done. split; [done|]. eexists. split; [done|].
  by apply (recounted_set_at _ _ info).
Qed.

(** ** Emptying the retransmission queue *)

(** The state in the loop: at most [n] retransmissions are left in [q]. *)
Record clearing (e : rlc_tx_am_entity) (n : nat) (w : CircularMap.t rlc_tx_am_sdu_info) (q : RetxQueue.rlc_retx_queue) : Prop := {
  cl_w : recounted (tx_window e) w;
  cl_q : RetxQueue.inv q;
  cl_size : RetxQueue.max_size q = RetxQueue.max_size (retx_queue e);
  cl_sn : Forall (fun r => is_sn e (retx_sn r)) (RetxQueue.pending q);
  cl_left : (length (RetxQueue.pending q) < n)%nat
}.
Definition with_queues (e : rlc_tx_am_entity) w q x : rlc_tx_am_entity :=
  set_retx_sn_latest x (set_retx_queue q (set_tx_window w e)).

Lemma wp_retx_pop_clearing e n w q x r l :
  clearing e (Datatypes.S n) w q -> RetxQueue.pending q = r :: l ->
  wp retx_pop (fun _ s' es => es = [] /\ exists q', s' = with_queues e w q' x /\ clearing e n w q') (with_queues e w q x).
Proof.
  intros [C1 C2 C3 C4 C5] Hp. destruct (RetxQueue.pop_spec q C2) as (P1 & P2 & P3). rewrite Hp in *. simpl in P3, C5.
  unfold retx_pop. wp_steps. split; [done|]. exists (RetxQueue.pop q). split; [done|].
  constructor; rewrite ?P2, ?P3; try done; [by apply Forall_cons in C4 as [_ ?]|lia].
Qed.

Lemma wp_rewind_retx_count e n w q x r :
  clearing e n w q -> is_sn e (retx_sn r) ->
  wp (when (negb (x =? retx_sn r))
        (when (has_sn (with_queues e w q x) (retx_sn r)) (decrement_retx_count (retx_sn r)) ;;;
         modify (set_retx_sn_latest (retx_sn r))))
    (fun _ s' es => es = [] /\ exists w' x', s' = with_queues e w' q x' /\ clearing e n w' q) (with_queues e w q x).
Proof.
  intros Hc Hsn. wp_step; [|split; [done|]; by exists w, x].
  wp_step. wp_step.
  - assert (exists info, win (with_queues e w q x) (retx_sn r) = Some info) as [info Hw].
    { pose proof (tx_has_sn_win (with_queues e w q x) (retx_sn r) Hsn) as E.
      destruct (win (with_queues e w q x) (retx_sn r)); [eauto|congruence]. }
    eapply wp_mono; [by eapply wp_decrement_retx_count|]. cbv beta. intros _ ? ? (-> & w' & -> & Hr).
    wp_step. split; [done|]. exists w', (retx_sn r). split; [done|].
    destruct Hc. constructor; try done. by etrans.
  - wp_step. split; [done|]. by exists w, (retx_sn r).
Qed.

Lemma wp_clear_retx_step e n w q x :
  clearing e (Datatypes.S n) w q ->
  wp (clear_retx_step tt) (fun r s' es => es = [] /\ match r with
      | inl _ => exists w' q' x', s' = with_queues e w' q' x' /\ clearing e n w' q'
      | inr _ => exists q x, s' = with_queues e w q x /\ clearing e (Datatypes.S n) w q /\ RetxQueue.queue q = []
      end) (with_queues e w q x).
Proof.
  intros Hc. destruct Hc as [C1 C2 C3 C4 C5] eqn:E. clear E. unfold clear_retx_step. wp_step. wp_step.
  change (retx_queue (with_queues e w q x)) with q.
  pose proof (RetxQueue.empty_pending q C2) as He. pose proof (RetxQueue.front_pending q C2) as Hf.
  destruct (RetxQueue.pending q) as [|r l] eqn:Hp; rewrite He.
  { wp_step. split; [done|]. exists q, x. split; [done|]. split; [done|]. by apply RetxQueue.pending_nil. }
  wp_step. eapply wp_need; [exact Hf|]. apply Forall_cons in C4 as [Hrsn _].
  wp_step. eapply wp_mono; [by apply (wp_rewind_retx_count e (Datatypes.S n))|]. cbv beta.
  intros _ ? ? (-> & w' & x' & -> & Hc'). wp_step. eapply wp_mono; [by eapply wp_retx_pop_clearing|]. cbv beta.
  intros _ ? ? (-> & q' & -> & Hc''). wp_step. split; [done|]. eauto.
Qed.

Lemma wp_clear_retx_queue e :
  RetxQueue.inv (retx_queue e) -> Forall (fun r => is_sn e (retx_sn r)) (RetxQueue.pending (retx_queue e)) ->
  wp clear_retx_queue (fun _ e' es => es = [] /\ exists w q,
    e' = with_queues e w q INVALID_RLC_SN /\ recounted (tx_window e) w /\ RetxQueue.inv q /\
    RetxQueue.queue q = [] /\ RetxQueue.max_size q = RetxQueue.max_size (retx_queue e)) e.
Proof.
  intros Hq Hsn. unfold clear_retx_queue. wp_step. wp_step. wp_step.
  apply (wp_while_loop (fun n _ s es => es = [] /\ exists w q x, s = with_queues e w q x /\ clearing e n w q)).
  - split; [done|]. exists (tx_window e), (retx_queue e), (retx_sn_latest e). split; [by destruct e|].
    constructor; try done. unfold retx_fuel. pose proof (pending_length (retx_queue e)). unfold zlen in *. lia.
  - intros ? ? ? (_ & w & q & x & _ & [_ _ _ _ ?]). lia.
  - intros n [] s es (-> & w & q & x & -> & Hc). eapply wp_mono; [by apply wp_clear_retx_step|]. cbv beta.
    intros [|[]] s' es'; [done|]. intros (-> & q' & x' & -> & Hc' & Hempty). wp_step. split; [done|].
    exists w, q'. split; [done|]. by destruct Hc'.
Qed.

(** ** One NACK *)

(** An event that does not report a delivery. *)
Definition quiet (ev : tx_event) : Prop :=
  match ev with on_delivered_sdu _ | on_delivered_retransmitted_sdu _ => False | _ => True end.

(** Offsets outside the SDU are adjusted to it. *)
Definition clamp (len : Z) (bounds : Z * Z) : Z * Z :=
  (if (snd bounds <? fst bounds) || (len <=? fst bounds) then 0 else fst bounds, Z.min (snd bounds) (len - 1)).

(** What a NACK without range asks to retransmit. *)
Definition retx_of (e : rlc_tx_am_entity) (nack : rlc_am_status_nack) : option rlc_tx_amd_retx :=
  match win e (nack_sn nack) with
  | Some info =>
      match nack_bounds e info nack with
      | Some bounds =>
          let adjusted := clamp (zlen (sdu info)) bounds in
          Some (mk_retx (nack_sn nack) (fst adjusted) (snd adjusted - fst adjusted + 1))
      | None => None
      end
  | None => None
  end.

(** A NACK whose fields are in range, without range, for a number in flight or outside the window. *)
Record nack_ok (e : rlc_tx_am_entity) (nack : rlc_am_status_nack) : Prop := {
  nk_sn : is_sn e (nack_sn nack);
  nk_start : 0 <= so_start nack < 65536;
  nk_end : 0 <= so_end nack < 65536;
  nk_single : has_nack_range nack = false;
  nk_known : dist e (nack_sn nack) < in_flight e \/ dist e (tx_next (st e)) < dist e (nack_sn nack)
}.

Lemma wp_adjust_bounds len a b e :
  0 < len < 65536 -> 0 <= a -> 0 <= b ->
  wp (adjust_bounds len (a, b)) (fun r e' es => e' = e /\ r = clamp len (a, b) /\ 0 <= fst r <= snd r /\ snd r < len /\ Forall quiet es) e.
Proof.
  intros Hl Ha Hb. unfold adjust_bounds, clamp. cbn [fst snd].
  wp_step. apply (wp_mono _ (fun x e' es => e' = e /\ x = (if b <? a then 0 else a) /\ Forall quiet es)).
  { destruct (b <? a); wp_steps; by repeat constructor. }
  cbv beta. intros a1 ? es1 (-> & -> & Hes1). wp_step.
  apply (wp_mono _ (fun x e' es => e' = e /\ x = (if (b <? a) || (len <=? a) then 0 else a) /\ Forall quiet es)).
  { destruct (Z.ltb_spec b a), (Z.leb_spec len a); simpl; destruct (Z.leb_spec len 0); (lia || (wp_steps; by repeat constructor)). }
  cbv beta. intros a2 ? es2 (-> & -> & Hes2). wp_step.
  apply (wp_mono _ (fun x e' es => e' = e /\ x = Z.min b (len - 1) /\ Forall quiet es)).
  { rewrite u16_small by lia. destruct (Z.leb_spec len b); wp_steps; (split; [done|]; split; [lia|by repeat constructor]). }
  cbv beta. intros b1 ? es3 (-> & -> & Hes3). wp_step. split; [done|]. split; [done|]. cbn [fst snd].
  assert (Forall quiet (es1 ++ es2 ++ es3)) as Hq by (by repeat apply Forall_app_2).
  rewrite app_nil_r. destruct (Z.ltb_spec b a), (Z.leb_spec len a); simpl; (split; [lia|]); by split; [lia|].
Qed.

(** The adjusted bounds are bytes of the SDU. *)
Lemma nack_bounds_range A sent e info nack bounds :
  win_inv A sent e -> win e (nack_sn nack) = Some info -> nack_ok e nack ->
  nack_bounds e info nack = Some bounds -> 0 <= fst bounds /\ 0 <= snd bounds.
Proof.
  intros Hi Hw Hn Hb. destruct (wi_some _ _ _ Hi _ _ Hw) as [E1 E2 E3 [E4 E4'] E5]. destruct Hn. unfold MAX_SDU in *.
  unfold nack_bounds in Hb. rewrite (u32_small (zlen (sdu info))) in Hb by lia.
  pose proof (u16_range (zlen (sdu info) - 1)). pose proof (u16_range (next_so info - 1)).
  set (a := if has_so nack then so_start nack else 0) in *.
  set (b := if has_so nack then so_end nack else u16 (zlen (sdu info) - 1)) in *.
  assert (0 <= a /\ 0 <= b) as [? ?] by (subst a b; destruct (has_so nack); lia).
  clearbody a b. repeat case_match; simplify_eq/=; lia.
Qed.

Lemma wp_handle_nack A sent e nack :
  win_inv A sent e -> nack_ok e nack ->
  wp (handle_nack nack) (fun pushed e' es => Forall quiet es /\ match retx_of e nack with
    | None => e' = e /\ pushed = false
    | Some r => e' = set_retx_queue (fst (RetxQueue.try_push r (retx_queue e))) e /\
        pushed = snd (RetxQueue.try_push r (retx_queue e)) /\ retx_ok e r /\ retx_sn r = nack_sn nack
    end) e.
Proof.
  intros Hi Hn. pose proof (nk_sn _ _ Hn) as Hsn. unfold handle_nack, retx_of. wp_step. wp_step.
  rewrite (nk_single _ _ Hn), !tx_mod_base_dist, dist_ack. pose proof (tx_dist_range e (nack_sn nack)) as Hd.
  destruct (Z.leb_spec 0 (dist e (nack_sn nack))) as [_|]; [|lia]. simpl andb.
  destruct (Z.leb_spec (dist e (nack_sn nack)) (dist e (tx_next (st e)))) as [Hle|Hgt]; simpl negb; cbv iota.
  2:{ wp_step. split; [constructor|]. destruct (win e (nack_sn nack)) as [info|] eqn:Hw; [|done].
      apply (wi_some _ _ _ Hi) in Hw as [_ Hin _ _ _]. unfold in_flight in Hin. destruct (segmenting e); lia. }
  destruct (win_in_flight A sent e Hi (nack_sn nack) Hsn) as [info Hw]; [destruct (nk_known _ _ Hn); lia|].
  wp_step. eapply wp_tx_window_at; [done..|]. rewrite Hw.
  destruct (wi_some _ _ _ Hi _ _ Hw) as [E1 E2 E3 [E4 E4'] E5]. pose proof E4' as E6. unfold MAX_SDU in E6.
  destruct (nack_bounds e info nack) as [[a b]|] eqn:Hb; [|wp_step; by split; [constructor|]].
  destruct (nack_bounds_range A sent e info nack _ Hi Hw Hn Hb) as [Ha0 Hb0]. simpl in Ha0, Hb0.
  rewrite (u32_small (zlen (sdu info))) by lia. wp_step. eapply wp_mono; [apply wp_adjust_bounds; lia|]. cbv beta.
  intros r ? es (-> & Hr & Hr1 & Hr2 & Hes). rewrite <- Hr. cbv zeta. destruct r as [a' b']. cbn [fst snd] in *.
  rewrite (u32_small (b' - a' + 1)) by lia.
  destruct (RetxQueue.try_push (mk_retx (nack_sn nack) a' (b' - a' + 1)) (retx_queue e)) as [q pushed].
  wp_steps. split; [by rewrite app_nil_r|]. split; [done|]. split; [done|]. split; [|done]. split; [done|].
  unfold retx_size_ok, MAX_SDU. simpl. split; [lia|]. exists info. split; [done|]. lia.
Qed.

(** ** The NACKs of a status PDU *)

Definition window_nat (e : rlc_tx_am_entity) : nat := Z.to_nat (am_window_size e).

(** While the NACKs are processed: the retransmissions in [l] were requested since the state [e], in
    which the queue was empty; those the queue has room for are pending. *)
Record nacking (A : Z) (sent : list (list Z)) (e : rlc_tx_am_entity) (l : list rlc_tx_amd_retx) (s : rlc_tx_am_entity) : Prop := {
  ng_eq : exists w q, s = set_retx_queue q (set_tx_window w e);
  ng_win : win_inv A sent e;
  ng_w : recounted (tx_window e) (tx_window s);
  ng_q : RetxQueue.inv (retx_queue s);
  ng_size : RetxQueue.max_size (retx_queue s) = am_window_size e;
  ng_queue : RetxQueue.queue (retx_queue s) = map (RetxQueue.mk_item false) (take (window_nat e) l);
  ng_ok : Forall (retx_ok e) (take (window_nat e) l)
}.

Lemma valid_items_map l : RetxQueue.valid_items (map (RetxQueue.mk_item false) l) = l.
Proof. induction l as [|r l IH]; [done|]. cbn. by rewrite IH. Qed.

Lemma take_snoc {B} n (l : list B) x : take n (l ++ [x]) = take n l ++ (if decide (length l < n)%nat then [x] else []).
Proof.
  rewrite take_app. f_equal. destruct (decide _) as [|].
  - destruct (n - length l)%nat eqn:E; [lia|simpl; by rewrite take_nil].
  - by replace (n - length l)%nat with 0%nat by lia.
Qed.

(** What the rest of the entity does not tell. *)
Lemma retx_of_recount e e' nack :
  recounted (tx_window e) (tx_window e') -> sn_under_segmentation e' = sn_under_segmentation e ->
  retx_of e' nack = retx_of e nack.
Proof.
  intros Hw Hu. unfold retx_of. pose proof (rc_lookup _ _ Hw (nack_sn nack)) as Hs. unfold win.
  inversion Hs as [i j Hij Hi Hj|Hi Hj]; [|done].
  assert (nack_bounds e' j nack = nack_bounds e i nack) as ->.
  { unfold nack_bounds. rewrite Hij, Hu. done. }
  by rewrite Hij.
Qed.

Section nacking.
Context (A : Z) (sent : list (list Z)) (e : rlc_tx_am_entity).

Lemma nacking_same l s : nacking A sent e l s ->
  cfg s = cfg e /\ tx_next_ack (st s) = tx_next_ack (st e) /\ tx_next (st s) = tx_next (st e) /\
  sn_under_segmentation s = sn_under_segmentation e.
Proof. by intros [(w & q & ->) _ _ _ _ _ _]. Qed.

Lemma nacking_win_inv l s : nacking A sent e l s -> win_inv A sent s.
Proof.
  intros Hn. destruct (nacking_same l s Hn) as (H1 & H2 & H3 & H4).
  apply (recount_win_inv e s H1 H2 H3 H4 (ng_w _ _ _ _ _ Hn)), Hn.
Qed.

Lemma nacking_nack_ok l s nack : nacking A sent e l s -> nack_ok e nack -> nack_ok s nack.
Proof.
  intros Hn [? ? ? ? ?]. destruct (nacking_same l s Hn) as (H1 & H2 & H3 & H4).
  pose proof (recount_dist e s H1 H2) as Hd. pose proof (recount_in_flight e s H1 H2 H3 H4) as Hf.
  constructor; rewrite ?Hd, ?Hf, ?H3; try done. unfold is_sn. by rewrite (proj1 (recount_mod e s H1)).
Qed.

(** A request reaches the queue, unless that is full. *)
Lemma nacking_push l s r w :
  nacking A sent e l s -> retx_ok e r -> recounted (tx_window s) w ->
  snd (RetxQueue.try_push r (retx_queue s)) = bool_decide (length l < window_nat e)%nat /\
  nacking A sent e (l ++ [r]) (set_retx_queue (fst (RetxQueue.try_push r (retx_queue s))) (set_tx_window w s)).
Proof.
  intros [(w0 & q0 & Hs) N2 N3 N4 N5 N6 N7] Hr Hw. pose proof (tx_ring_sizes e) as (W0 & W1 & _ & _ & W2 & _).
  assert (RetxQueue.pending (retx_queue s) = take (window_nat e) l) as Hp.
  { unfold RetxQueue.pending. by rewrite N6, valid_items_map. }
  assert (RetxQueue.size (retx_queue s) = Z.of_nat (Nat.min (window_nat e) (length l))) as Hsize.
  { unfold RetxQueue.size. rewrite N6. unfold zlen. by rewrite length_map, length_take. }
  assert (RetxQueue.fits (RetxQueue.pending (retx_queue s) ++ [r])) as Hfits.
  { apply retx_fits.
    - rewrite Hp. apply Forall_app. split; [|by constructor; [apply Hr|]].
      eapply Forall_impl; [exact N7|]. by intros ? (_ & ? & _).
    - rewrite Hp, zlen_app, zlen_cons, zlen_nil. unfold zlen. rewrite length_take. unfold window_nat in *. lia. }
  pose proof (RetxQueue.try_push_spec (retx_queue s) r N4 Hfits) as Hpush. unfold RetxQueue.try_push, RetxQueue.size in *.
  rewrite N5, Hsize in Hpush |- *. unfold window_nat in *.
  destruct (Z.eqb_spec (Z.of_nat (Nat.min (Z.to_nat (am_window_size e)) (length l))) (am_window_size e)) as [Heq|Hne]; simpl fst in *; simpl snd in *.
  - split; [rewrite bool_decide_false; [done|lia]|]. constructor; try done.
    + exists w, (retx_queue s). by rewrite Hs.
    + by etrans.
    + simpl. rewrite take_snoc, N6. rewrite decide_False by (unfold window_nat; lia). by rewrite app_nil_r.
    + rewrite take_snoc, decide_False by (unfold window_nat; lia). by rewrite app_nil_r.
  - split; [rewrite bool_decide_true; [done|lia]|]. destruct Hpush as (P1 & P2 & _ & P4).
    constructor; try done.
    + eexists w, _. by rewrite Hs.
    + by etrans.
    + simpl. rewrite take_snoc, N6, decide_True by (unfold window_nat; lia). by rewrite map_app.
    + rewrite take_snoc, decide_True by (unfold window_nat; lia). apply Forall_app. by split; [|constructor].
Qed.

Lemma wp_handle_nack_and_count l s prev nack :
  nacking A sent e l s -> nack_ok e nack ->
  wp (handle_nack_and_count prev nack)
    (fun _ s' es => Forall quiet es /\ nacking A sent e (l ++ option_list (retx_of e nack)) s') s.
Proof.
  intros Hn Hok. destruct (nacking_same l s Hn) as (H1 & H2 & H3 & H4).
  pose proof (nacking_win_inv l s Hn) as Hwin. pose proof (nacking_nack_ok l s nack Hn Hok) as Hok'.
  unfold handle_nack_and_count. wp_step. eapply wp_mono; [by apply (wp_handle_nack A sent)|]. cbv beta.
  rewrite (retx_of_recount e s nack (ng_w _ _ _ _ _ Hn) H4).
  intros pushed s1 es1 [Hes1 Hpost]. revert Hpost. destruct (retx_of e nack) as [r|]; simpl option_list.
  2:{ intros [-> ->]. simpl andb. cbv iota. wp_step. by rewrite !app_nil_r. }
  intros (-> & -> & Hr & Hrsn).
  assert (retx_ok e r) as Hre.
  { destruct Hr as (R1 & R2 & i & R3 & R4). split; [by rewrite Hrsn; apply (nk_sn _ _ Hok)|]. split; [done|].
    pose proof (rc_lookup _ _ (ng_w _ _ _ _ _ Hn) (retx_sn r)) as Hs. unfold win in *. rewrite R3 in Hs.
    inversion Hs as [i0 j Hij Hi0 Hj|]; subst. exists i0. split; [done|]. by rewrite Hij in R4. }
  assert (forall w, recounted (tx_window s) w -> nacking A sent e (l ++ [r])
    (set_retx_queue (RetxQueue.try_push r (retx_queue s)).1 (set_tx_window w s))) as Hpush.
  { intros w Hw. by apply nacking_push. }
  wp_step; [|wp_step; rewrite app_nil_r; split; [done|]; specialize (Hpush (tx_window s) ltac:(done)); by destruct s].
  destruct Hr as (R1 & R2 & i & R3 & R4). rewrite Hrsn in R3. wp_step. eapply wp_mono.
  { by apply (wp_increment_retx_count _ _ i); [apply Hok'|]. }
  cbv beta. intros _ ? es2 (Hes2 & w & -> & Hw). wp_step. split; [|by apply (Hpush w)].
  rewrite app_nil_r. apply Forall_app_2; [done|]. destruct Hes2 as [->| ->]; by repeat constructor.
Qed.
End nacking.

(** The NACKs a NACK with range stands for. *)
Definition single (m : Z) (nack : rlc_am_status_nack) (i : Z) : rlc_am_status_nack :=
  nack_of_range m nack ((nack_sn nack + i) mod m).
Definition singles (m : Z) (nack : rlc_am_status_nack) : list rlc_am_status_nack :=
  if has_nack_range nack then map (single m nack) (seqZ 0 (nack_range nack)) else [nack].

(** What a list of NACKs asks to retransmit. *)
Definition requested (e : rlc_tx_am_entity) (l : list rlc_am_status_nack) : list rlc_tx_amd_retx :=
  omap (retx_of e) (l ≫= singles (mod_ e)).

(** The NACKs are in range, and stop before ACK_SN. *)
Record nack_fine (e : rlc_tx_am_entity) (ack_sn : Z) (nack : rlc_am_status_nack) : Prop := {
  nf_sn : is_sn e (nack_sn nack);
  nf_range : 0 <= nack_range nack < 256;
  nf_single : Forall (nack_ok e) (singles (mod_ e) nack);
  nf_ack : has_nack_range nack = true -> forall i, 0 <= i < nack_range nack -> (nack_sn nack + i) mod mod_ e <> ack_sn
}.

Section nack_list.
Context (A : Z) (sent : list (list Z)) (e : rlc_tx_am_entity).

Lemma omap_single (l : list rlc_am_status_nack) x :
  omap (retx_of e) (l ++ [x]) = omap (retx_of e) l ++ option_list (retx_of e x).
Proof. rewrite omap_app. simpl. by destruct (retx_of e x). Qed.

Lemma wp_nack_range_step ack_sn nack l s i prev :
  nacking A sent e l s -> nack_fine e ack_sn nack -> has_nack_range nack = true -> 0 <= i <= nack_range nack ->
  wp (nack_range_step ack_sn nack ((nack_sn nack + i) mod mod_ e, prev)) (fun r s' es => Forall quiet es /\
    match r with
    | inl (sn, _) => i < nack_range nack /\ sn = (nack_sn nack + (i + 1)) mod mod_ e /\
        nacking A sent e (l ++ option_list (retx_of e (single (mod_ e) nack i))) s'
    | inr _ => i = nack_range nack /\ s' = s
    end) s.
Proof.
  intros Hn [Hsn Hr Hall Hne] Hrange Hi. destruct (nacking_same A sent e l s Hn) as (H1 & _).
  assert (mod_ s = mod_ e) as Hm by (apply (recount_mod e s H1)). pose proof (tx_ring_sizes e) as (W0 & W1 & W2 & _ & W3 & W4).
  unfold nack_range_step. wp_step. wp_step. rewrite Hm, u32_mod by (lia || done).
  destruct (Z.eqb_spec ((nack_sn nack + i) mod mod_ e) ((nack_sn nack + nack_range nack) mod mod_ e)) as [Heq|Hneq].
  - wp_step. split; [constructor|]. split; [|done]. assert (sn_diff (mod_ e) (nack_sn nack) ((nack_sn nack + i) mod mod_ e) = i) as E by (apply sn_diff_add; lia).
    rewrite Heq, sn_diff_add in E; lia.
  - assert (i < nack_range nack) as Hlt by (destruct (decide (i = nack_range nack)) as [->|]; [done|lia]).
    specialize (Hne Hrange i ltac:(lia)). destruct (Z.eqb_spec ((nack_sn nack + i) mod mod_ e) ack_sn) as [|_]; [done|].
    wp_step. eapply wp_mono.
    { apply (wp_handle_nack_and_count A sent e l s); [done|]. unfold singles in Hall. rewrite Hrange in Hall.
      rewrite Forall_forall in Hall. apply (Hall (single (mod_ e) nack i)).
      apply list_elem_of_In, in_map, list_elem_of_In, elem_of_seqZ. lia. }
    cbv beta. intros prev' s' es [Hes Hn']. wp_step. split; [by rewrite app_nil_r|]. split; [done|]. split; [|done].
    by rewrite Zplus_mod_idemp_l, Z.add_assoc.
Qed.

Lemma wp_nack_range ack_sn nack l s prev :
  nacking A sent e l s -> nack_fine e ack_sn nack -> has_nack_range nack = true ->
  wp (while_loop (sn_fuel s) (nack_range_step ack_sn nack) (nack_sn nack, prev))
    (fun _ s' es => Forall quiet es /\ nacking A sent e (l ++ omap (retx_of e) (singles (mod_ e) nack)) s') s.
Proof.
  intros Hn Hf Hrange. destruct (nacking_same A sent e l s Hn) as (H1 & _).
  assert (mod_ s = mod_ e) as Hm by (apply (recount_mod e s H1)). pose proof (tx_ring_sizes e) as (W0 & W1 & W2 & _ & W3 & W4).
  pose proof (nf_range _ _ _ Hf) as Hr. unfold singles. rewrite Hrange.
  apply (wp_while_loop (fun fuel v s' es => Forall quiet es /\ exists i, 0 <= i <= nack_range nack /\ nack_range nack < i + Z.of_nat fuel /\
    fst v = (nack_sn nack + i) mod mod_ e /\
    nacking A sent e (l ++ omap (retx_of e) (map (single (mod_ e) nack) (seqZ 0 i))) s')).
  - split; [constructor|]. exists 0. split; [lia|]. split; [unfold sn_fuel; lia|]. simpl. rewrite Z.add_0_r, app_nil_r.
    split; [symmetry; apply Z.mod_small, (nf_sn _ _ _ Hf)|done].
  - intros v s' es (_ & i & ? & ? & _). lia.
  - intros fuel [sn prev'] s' es (Hes & i & Hi & Hfuel & Hsn & Hn'). simpl in Hsn. subst sn.
    eapply wp_mono; [by eapply (wp_nack_range_step ack_sn nack _ s' i)|]. cbv beta.
    intros [[sn' prev'']|x] s'' es' [Hes' Hpost]; (split; [by apply Forall_app_2|]); [|by destruct Hpost as [-> ->]].
    destruct Hpost as (Hlt & -> & Hn''). exists (i + 1). split; [lia|]. split; [lia|]. split; [done|].
    rewrite seqZ_app, map_app by lia. simpl. rewrite omap_single, app_assoc. done.
Qed.

Lemma wp_process_nacks ack_sn nacks : forall l s prev,
  nacking A sent e l s -> Forall (nack_fine e ack_sn) nacks ->
  wp (process_nacks ack_sn prev nacks) (fun _ s' es => Forall quiet es /\ nacking A sent e (l ++ requested e nacks) s') s.
Proof.
  unfold requested. induction nacks as [|nack nacks IH]; intros l s prev Hn Hall; simpl.
  - wp_step. split; [constructor|]. by rewrite app_nil_r.
  - apply Forall_cons in Hall as [Hf Hall]. wp_step. wp_step. wp_step. rewrite omap_app, app_assoc.
    assert (forall l', l' = l ++ omap (retx_of e) (singles (mod_ e) nack) -> forall s' prev', nacking A sent e l' s' ->
      wp (process_nacks ack_sn prev' nacks) (fun _ s'' es => Forall quiet es /\
        nacking A sent e ((l ++ omap (retx_of e) (singles (mod_ e) nack)) ++ omap (retx_of e) (nacks ≫= singles (mod_ e))) s'') s') as Hnext.
    { intros ? -> s' prev' Hn'. by apply IH. }
    destruct (has_nack_range nack) eqn:Hrange.
    + eapply wp_mono; [by apply wp_nack_range|]. cbv beta. intros prev' s' es [Hes Hn'].
      eapply wp_mono; [exact (Hnext _ eq_refl _ _ Hn')|]. intros _ s'' es' [Hes' Hn'']. by split; [apply Forall_app_2|].
    + eapply wp_mono.
      { apply (wp_handle_nack_and_count A sent e l s prev nack Hn). pose proof (nf_single _ _ _ Hf) as Hs.
        unfold singles in Hs. rewrite Hrange in Hs. by apply Forall_cons in Hs as [? _]. }
      cbv beta. intros prev' s' es [Hes Hn']. eapply wp_mono.
      { eapply Hnext; [|exact Hn']. unfold singles. rewrite Hrange. simpl. by destruct (retx_of e nack). }
      intros _ s'' es' [Hes' Hn'']. by split; [apply Forall_app_2|].
Qed.
End nack_list.

(** ** The status PDU *)

(** Fields as the reader of status PDUs leaves them. *)
Record status_in_range (e : rlc_tx_am_entity) (status : rlc_am_status_pdu) : Prop := {
  sr_ack : is_sn e (ack_sn status);
  sr_nacks : Forall (fun n => is_sn e (nack_sn n) /\ 0 <= so_start n < 65536 /\ 0 <= so_end n < 65536 /\
    0 <= nack_range n < 256) (nacks status)
}.

(** An ACK_SN beyond TX_Next covers the SDU under segmentation, which the peer cannot have: there is
    one, and the report lists what is missing. *)
Definition status_plausible (e : rlc_tx_am_entity) (status : rlc_am_status_pdu) : Prop :=
  dist e (ack_sn status) = dist e (tx_next (st e)) + 1 -> segmenting e = true /\ nacks status <> [].

(** The status PDU passes the checks of the entity. *)
Definition acceptable (e : rlc_tx_am_entity) (status : rlc_am_status_pdu) : Prop :=
  0 < dist e (ack_sn status) <= am_window_size e /\ dist e (ack_sn status) <= dist e (tx_next (st e)) + 1 /\
  Forall (fun n => check_nack e (ack_sn status) n = None) (nacks status).

(** Where the acknowledgements stop. *)
Definition stop_sn (status : rlc_am_status_pdu) : Z :=
  match nacks status with [] => ack_sn status | n :: _ => nack_sn n end.

(** The SNs a NACK covers lie before ACK_SN. *)
Lemma check_nack_spec e ack n :
  check_nack e ack n = None -> is_sn e (nack_sn n) -> 0 <= nack_range n < 256 ->
  dist e (nack_sn n) < dist e ack /\ dist e (nack_sn n) < am_window_size e /\
  (has_nack_range n = true -> dist e (nack_sn n) + nack_range n <= dist e ack).
Proof.
  intros Hc Hsn Hr. unfold check_nack, inside_tx_window in Hc. rewrite !tx_mod_base_dist, !tx_dist_u32 in Hc.
  destruct (Z.leb_spec (dist e ack) (dist e (nack_sn n))) as [|H1]; [done|].
  destruct (has_nack_range n && (dist e ack <=? dist e (nack_sn n + nack_range n - 1))) eqn:H2; [done|].
  destruct (Z.ltb_spec (dist e (nack_sn n)) (am_window_size e)) as [H3|]; [|done].
  split; [lia|]. split; [done|]. intros Hrange. rewrite Hrange in H2. simpl in H2. bool_prop.
  pose proof (tx_ring_sizes e) as (W0 & W1 & W2 & _ & W3 & W4). pose proof (tx_dist_range e (nack_sn n)).
  assert (dist e (nack_sn n + nack_range n - 1) = (dist e (nack_sn n) + (nack_range n - 1)) mod mod_ e) as E.
  { unfold dist, sn_diff. rewrite Zplus_mod_idemp_l. f_equal. lia. }
  destruct (decide (nack_range n = 0)) as [R0|]; [lia|]. rewrite Z.mod_small in E; lia.
Qed.

(** Distances after [n] acknowledgements. *)
Lemma dist_after e e' n x :
  mod_ e' = mod_ e -> tx_next_ack (st e') = (tx_next_ack (st e) + n) mod mod_ e -> 0 <= n < mod_ e ->
  dist e' x = if dist e x <? n then dist e x - n + mod_ e else dist e x - n.
Proof.
  intros Hm Ha Hn. pose proof (tx_mod_pos e). pose proof (dist_add e n Hn) as E. unfold dist in *. rewrite Hm, Ha.
  destruct (Z.ltb_spec (sn_diff (mod_ e) (tx_next_ack (st e)) x) n).
  - rewrite (sn_diff_rebase_wrap (mod_ e) ltac:(lia) (tx_next_ack (st e))); rewrite E; lia.
  - rewrite (sn_diff_rebase (mod_ e) ltac:(lia) (tx_next_ack (st e))); rewrite E; lia.
Qed.

Section apply.
Context (A : Z) (sent : list (list Z)) (e : rlc_tx_am_entity) (status : rlc_am_status_pdu)
  (Hinv : tx_inv A sent e) (Hrange : status_in_range e status) (Hacc : acceptable e status)
  (Hplaus : status_plausible e status).
Let n := dist e (stop_sn status).

Lemma stop_sn_range : is_sn e (stop_sn status) /\ n <= dist e (tx_next (st e)).
Proof.
  destruct Hrange as [R1 R2], Hacc as (A1 & A2 & A3). unfold status_plausible in Hplaus. subst n. unfold stop_sn.
  destruct (nacks status) as [|x l]; [split; [done|]|].
  - destruct (decide (dist e (ack_sn status) = dist e (tx_next (st e)) + 1)) as [E|]; [|lia].
    by destruct (Hplaus E).
  - apply Forall_cons in R2 as [(Hsn & _ & _ & Hr) _]. apply Forall_cons in A3 as [A3 _].
    destruct (check_nack_spec e _ x A3 Hsn Hr) as [? _]. split; [done|lia].
Qed.

(** The NACKs, seen after the acknowledgements. *)
Lemma nacks_fine e' :
  cfg e' = cfg e -> tx_next_ack (st e') = (tx_next_ack (st e) + n) mod mod_ e -> tx_next (st e') = tx_next (st e) ->
  sn_under_segmentation e' = sn_under_segmentation e ->
  Forall (nack_fine e' (ack_sn status)) (nacks status).
Proof.
  intros Hc Ha Hn Hu. destruct Hrange as [R1 R2], Hacc as (A1 & A2 & A3). destruct stop_sn_range as [Hs Hle].
  assert (mod_ e' = mod_ e) as Hm by (unfold mod_; by rewrite Hc).
  pose proof (tx_dist_range e (stop_sn status)) as Hn0. pose proof (tx_ring_sizes e) as (W0 & W1 & W2 & _ & W3 & W4).
  pose proof (wi_room _ _ _ (ti_win _ _ _ Hinv)) as Hroom.
  assert (segmenting e' = segmenting e) as Hseg by (unfold segmenting; by rewrite Hu).
  assert (in_flight e' = in_flight e - n /\ dist e' (tx_next (st e)) = dist e (tx_next (st e)) - n) as [Hf Hd].
  { unfold in_flight. rewrite Hseg, Hn, (dist_after e e' n) by (done || lia).
    destruct (Z.ltb_spec (dist e (tx_next (st e))) n); lia. }
  assert (in_flight e = dist e (tx_next (st e)) + (if segmenting e then 1 else 0)) as Hif by done.
  assert (dist e (ack_sn status) <= in_flight e) as Hack.
  { destruct (decide (dist e (ack_sn status) = dist e (tx_next (st e)) + 1)) as [E|].
    - destruct (Hplaus E) as [-> _] in Hif. lia.
    - destruct (segmenting e); lia. }
  assert (dist e (tx_next (st e)) <= in_flight e) as Hle' by (destruct (segmenting e); lia).
  rewrite Forall_forall in *. intros x Hx. destruct (R2 x Hx) as (X1 & X2 & X3 & X4).
  destruct (check_nack_spec e _ x (A3 x Hx) X1 X4) as (C1 & C2 & C3).
  assert (forall sn, is_sn e sn -> dist e sn < in_flight e ->
    is_sn e' sn /\ (dist e' sn < in_flight e' \/ dist e' (tx_next (st e')) < dist e' sn)) as Hknown.
  { intros sn Hsn Hlt. split; [by unfold is_sn; rewrite Hm|]. rewrite Hn, Hf, Hd, (dist_after e e' n) by (done || lia).
    pose proof (tx_dist_range e sn). destruct (Z.ltb_spec (dist e sn) n); lia. }
  assert (has_nack_range x = true -> forall i, 0 <= i < nack_range x ->
    dist e ((nack_sn x + i) mod mod_ e) = dist e (nack_sn x) + i) as Hi.
  { intros Hr i Hi. specialize (C3 Hr). pose proof (tx_dist_range e (ack_sn status)).
    unfold dist. rewrite sn_diff_mod_r by lia. unfold sn_diff. replace (nack_sn x + i - tx_next_ack (st e)) with (nack_sn x - tx_next_ack (st e) + i) by lia.
    rewrite <- Zplus_mod_idemp_l. fold (sn_diff (mod_ e) (tx_next_ack (st e)) (nack_sn x)). fold (dist e (nack_sn x)).
    apply Z.mod_small. pose proof (tx_dist_range e (nack_sn x)). lia. }
  constructor; [by unfold is_sn; rewrite Hm|done| |].
  - unfold singles. destruct (has_nack_range x) eqn:Hr.
    + specialize (C3 eq_refl). specialize (Hi eq_refl). rewrite Forall_forall. intros y Hy.
      apply list_elem_of_In, in_map_iff in Hy as (i & <- & Hin). apply list_elem_of_In, elem_of_seqZ in Hin.
      destruct (Hknown ((nack_sn x + i) mod mod_ e)) as [K1 K2]; [apply tx_is_sn_mod|rewrite Hi by lia; lia|].
      unfold single, nack_of_range. rewrite Hm. constructor; destruct (has_so x); cbn [nack_sn so_start so_end has_nack_range]; try done;
        unfold so_end_of_sdu; destruct (_ =? _); lia.
    + apply Forall_singleton. destruct (Hknown (nack_sn x)) as [K1 K2]; [done|lia|]. by constructor.
  - intros Hr i Hin. specialize (C3 Hr). rewrite Hm. intros E. pose proof (Hi Hr i Hin) as Ed. rewrite E in Ed. lia.
Qed.
End apply.

(** What an acceptable status PDU does: the SDUs before the first NACK are acknowledged and reported,
    the retransmission queue is rebuilt from the NACKs, as far as it has room. *)
Record status_applied (A : Z) (sent : list (list Z)) (provider : rlc_rx_am_status_provider) (status : rlc_am_status_pdu)
    (e e' : rlc_tx_am_entity) (es : list tx_event) : Prop := {
  sa_inv : tx_inv (A + dist e (stop_sn status)) sent e';
  sa_cfg : cfg e' = cfg e;
  sa_ack : tx_next_ack (st e') = stop_sn status;
  sa_next : tx_next (st e') = tx_next (st e);
  sa_stop : stopped_lower e' = stopped_lower e;
  sa_counts : pdu_without_poll (st e') = pdu_without_poll (st e) /\ byte_without_poll (st e') = byte_without_poll (st e);
  sa_retx : RetxQueue.pending (retx_queue e') = take (window_nat e') (requested e' (nacks status));
  sa_live : SduQueue.live (sdu_queue e') = SduQueue.live (sdu_queue e);
  sa_events : exists rest, Forall quiet rest /\
    es = delivered (fold_left latest (oldest e (dist e (stop_sn status))) (None, None)) ++ rest
}.

Lemma wp_stop_poll_timer ack_sn e :
  wp (stop_poll_timer_if_acked ack_sn) (fun _ e' es => es = [] /\ exists tm, e' = set_poll_retransmit_timer tm e /\
    is_set tm = is_set (poll_retransmit_timer e)) e.
Proof.
  unfold stop_poll_timer_if_acked. wp_step. wp_step.
  assert (set_poll_retransmit_timer (poll_retransmit_timer e) e = e) as Hsame by (by destruct e).
  wp_step; [wp_step|].
  - wp_step. split; [done|]. eexists. split; [done|]. apply is_set_stop.
  - split; [done|]. by exists (poll_retransmit_timer e).
  - split; [done|]. by exists (poll_retransmit_timer e).
Qed.


(** The queue after the acknowledgements, emptied. *)
Lemma nacking_start A sent e n e1 w q :
  tx_inv A sent e -> acked_upto A sent n e e1 -> recounted (tx_window e1) w -> RetxQueue.inv q ->
  RetxQueue.queue q = [] -> RetxQueue.max_size q = am_window_size e ->
  nacking (A + n) sent (with_queues e1 w q INVALID_RLC_SN) [] (with_queues e1 w q INVALID_RLC_SN).
Proof.
  intros Hinv Hu Hw Hq Hempty Hmax. destruct (au_eq _ _ _ _ _ Hu) as (w1 & bin & ->).
  constructor; try done.
  - by exists w, q.
  - by eapply recount_win_inv; [..|exact (au_inv _ _ _ _ _ Hu)].
  - simpl. by rewrite Hempty, take_nil.
  - by rewrite take_nil.
Qed.

(** Once the NACKs are processed, the invariant holds again. *)
Lemma nacking_end A sent e l s :
  nacking A sent e l s -> SduQueue.inv (sdu_queue e) -> queued_ok (sdu_queue e) ->
  (0 < txam_t_poll_retx (cfg e) -> is_set (poll_retransmit_timer e) = true) ->
  tx_inv A sent s /\ RetxQueue.pending (retx_queue s) = take (window_nat e) l.
Proof.
  intros Hn Hq Hqs Ht. destruct (nacking_same A sent e l s Hn) as (H1 & H2 & H3 & H4).
  pose proof (nacking_win_inv A sent e l s Hn) as Hwin. destruct Hn as [(w & q & Hs) N2 N3 N4 N5 N6 N7].
  assert (RetxQueue.pending (retx_queue s) = take (window_nat e) l) as Hp.
  { unfold RetxQueue.pending. by rewrite N6, valid_items_map. }
  assert (Forall (retx_ok s) (RetxQueue.pending (retx_queue s))) as Hok.
  { rewrite Hp. eapply Forall_impl; [exact N7|]. intros r. by apply recount_retx_ok. }
  split; [|done]. constructor; try done.
  - by rewrite Hs.
  - by rewrite Hs.
  - constructor; try done; [by rewrite N5; unfold am_window_size; rewrite H1| |];
      (eapply Forall_impl; [exact Hok|]); by intros r (? & ? & _).
  - by rewrite Hs.
Qed.

Lemma wp_apply_status_pdu A sent provider e status :
  tx_inv A sent e -> status_in_range e status -> acceptable e status -> status_plausible e status ->
  wp (apply_status_pdu provider status) (fun _ e' es => status_applied A sent provider status e e' es) e.
Proof.
  intros Hinv Hrange Hacc Hplaus. destruct (stop_sn_range e status Hrange Hacc Hplaus) as [Hs Hle].
  set (n := dist e (stop_sn status)) in *. unfold apply_status_pdu. fold (stop_sn status).
  wp_step. eapply wp_mono; [apply wp_stop_poll_timer|]. cbv beta. intros _ ? ? (-> & tm & -> & Htm).
  set (e0 := set_poll_retransmit_timer tm e).
  assert (tx_inv A sent e0) as Hinv0 by (by apply (same_tx_inv e)).
  wp_step. eapply wp_mono; [apply (wp_process_acks A sent e0 (stop_sn status)); [apply Hinv0|done|exact Hle]|].
  cbv beta. intros _ e1 es1 [Hu ->]. change (dist e0 (stop_sn status)) with n in *.
  change (oldest e0) with (oldest e). destruct (au_eq _ _ _ _ _ Hu) as (w1 & bin & He1).
  pose proof (ti_retx _ _ _ Hinv) as Hr.
  wp_step. eapply wp_mono.
  { apply wp_clear_retx_queue; rewrite He1; [apply Hr|apply (rq_sn _ Hr)]. }
  cbv beta. intros _ e2 es2 (-> & w & q & -> & Hw & Hq & Hempty & Hmax).
  assert (nacking (A + n) sent (with_queues e1 w q INVALID_RLC_SN) [] (with_queues e1 w q INVALID_RLC_SN)) as Hng.
  { apply (nacking_start A sent e0); try done. by rewrite Hmax, He1; apply (rq_size _ Hr). }
  set (e2 := with_queues e1 w q INVALID_RLC_SN) in *.
  assert (cfg e2 = cfg e /\ tx_next_ack (st e2) = (tx_next_ack (st e) + n) mod mod_ e /\ tx_next (st e2) = tx_next (st e) /\
    sn_under_segmentation e2 = sn_under_segmentation e) as (C1 & C2 & C3 & C4) by (subst e2; by rewrite He1).
  pose proof (nacks_fine A sent e status Hinv Hrange Hacc Hplaus e2 C1 C2 C3 C4) as Hfine.
  wp_step. eapply wp_mono; [by apply (wp_process_nacks (A + n) sent e2)|]. cbv beta. intros _ e3 es3 [Hes3 Hng3].
  simpl app in Hng3. destruct (nacking_same (A + n) sent e2 _ e3 Hng3) as (N1 & N2 & N3 & N4).
  assert (sdu_queue e2 = sdu_queue e /\ cfg e2 = cfg e /\ is_set (poll_retransmit_timer e2) = is_set (poll_retransmit_timer e))
    as (Q1 & Q2 & Q3) by (subst e2; by rewrite He1).
  destruct (nacking_end (A + n) sent e2 _ e3 Hng3) as [Hinv3 Hp3]; rewrite ?Q1, ?Q2, ?Q3; try apply Hinv.
  wp_step. eapply wp_mono; [by apply (wp_update_mac_buffer_state (A + n) sent)|]. cbv beta zeta.
  intros _ e4 es4 (Hes4 & _ & _ & Hinv4 & Hcore & Hstop4 & Htm4 & Hst4 & Hrq4 & Hlive4). wp_step.
  assert (stopped_lower e3 = stopped_lower e /\ pdu_without_poll (st e3) = pdu_without_poll (st e) /\
    byte_without_poll (st e3) = byte_without_poll (st e) /\ sdu_queue e3 = sdu_queue e) as (S1 & S2 & S3 & S4).
  { destruct (ng_eq _ _ _ _ _ Hng3) as (w3 & q3 & ->). subst e2. by rewrite He1. }
  assert (forall l, requested e4 l = requested e2 l) as Hreq.
  { intros l. unfold requested. rewrite (proj1 (same_mod _ _ Hcore)), (proj1 (recount_mod _ _ N1)).
    assert (forall x, retx_of e4 x = retx_of e2 x) as Hext.
    { intros x. rewrite (retx_of_recount e3 e4), (retx_of_recount e2 e3); try done; [apply Hng3| |apply (sc_under _ _ Hcore)].
      by rewrite (sc_window _ _ Hcore). }
    induction (l ≫= singles (mod_ e2)) as [|x l' IH]; [done|]. cbn. rewrite Hext.
    destruct (retx_of e2 x); [by f_equal|done]. }
  constructor; try done.
  - by rewrite (sc_cfg _ _ Hcore), N1.
  - rewrite (sc_ack _ _ Hcore), N2, C2. apply (tx_dist_inj e); [apply tx_is_sn_mod|done|]. rewrite dist_add; [done|].
    apply tx_dist_range.
  - by rewrite (sc_next _ _ Hcore), N3, C3.
  - by rewrite Hstop4, S1.
  - by rewrite Hst4, S2, S3.
  - rewrite Hrq4, Hp3, Hreq. unfold window_nat, am_window_size. by rewrite (sc_cfg _ _ Hcore), N1.
  - by rewrite Hlive4, S4.
  - exists (es3 ++ es4 ++ [execute_clear_recycler]). split; [|done].
    apply Forall_app_2; [done|]. apply Forall_app_2; [|by repeat constructor].
    destruct Hes4 as [->| ->]; by repeat constructor.
Qed.

(** All NACKs are checked before anything changes. *)
Lemma wp_all_nacks_valid ack_sn l e :
  wp (all_nacks_valid ack_sn l) (fun b e' es => e' = e /\ Forall quiet es /\
    (b = true <-> Forall (fun n => check_nack e ack_sn n = None) l) /\ (b = true -> es = [])) e.
Proof.
  induction l as [|x l IH]; simpl; [wp_step; by repeat split|].
  wp_step. unfold valid_nack. wp_step. wp_step. destruct (check_nack e ack_sn x) as [v|] eqn:Hc.
  - wp_step. apply (wp_mono _ (fun _ e' es => e' = e /\ Forall quiet es)); [destruct v; split; by repeat constructor|].
    cbv beta. intros _ ? es [-> Hes]. wp_steps. split; [done|]. split; [by rewrite !app_nil_r|]. split; [|done].
    split; [done|]. intros Hall. apply Forall_cons in Hall as [Hx _]. congruence.
  - wp_step. eapply wp_mono; [exact IH|]. cbv beta. intros b ? es (-> & Hes & Hb & Hnil). split; [done|].
    split; [done|]. split; [|done]. rewrite Hb, Forall_cons. tauto.
Qed.

(** A status PDU is applied, or ignored as a whole. *)
Lemma wp_handle_status_pdu A sent provider e status :
  tx_inv A sent e -> status_in_range e status -> (acceptable e status -> status_plausible e status) ->
  wp (handle_status_pdu provider status) (fun _ e' es =>
    (acceptable e status /\ status_applied A sent provider status e e' es) \/
    (~ acceptable e status /\ e' = e /\ Forall quiet es)) e.
Proof.
  intros Hinv Hrange Hplaus. unfold handle_status_pdu, valid_ack_sn. wp_step. wp_step.
  rewrite !tx_mod_base_dist, tx_dist_u32. pose proof (ti_win _ _ _ Hinv) as Hi.
  pose proof (wi_room _ _ _ Hi) as Hroom. pose proof (tx_ring_sizes e) as (W0 & W1 & _ & _ & _ & W5).
  assert (dist e (tx_next (st e)) <= am_window_size e) as Hd by (unfold in_flight in Hroom; destruct (segmenting e); lia).
  rewrite tx_dist_succ' by lia. unfold acceptable.
  destruct (Z.ltb_spec 0 (dist e (ack_sn status))) as [H1|H1]; simpl andb; simpl negb; cbv iota.
  2:{ wp_step. right. split; [intros (? & _); lia|done]. }
  destruct (Z.leb_spec (dist e (ack_sn status)) (am_window_size e)) as [H2|H2]; simpl negb; cbv iota.
  2:{ wp_step. right. split; [intros (? & _); lia|done]. }
  destruct (Z.ltb_spec (dist e (tx_next (st e)) + 1) (dist e (ack_sn status))) as [H3|H3].
  { wp_step. right. split; [intros (_ & ? & _); lia|]. split; [done|]. by repeat constructor. }
  wp_step. eapply wp_mono; [apply wp_all_nacks_valid|]. cbv beta. intros b ? es (-> & Hes & Hb & Hnil). wp_step.
  - rewrite Hnil by done. simpl app.
    assert (acceptable e status) as Hacc by (split; [lia|]; split; [lia|]; by apply Hb).
    eapply wp_mono; [by apply (wp_apply_status_pdu A sent); auto|]. cbv beta. intros. by left.
  - right. rewrite app_nil_r. split; [|done]. intros (_ & _ & Hall). apply Hb in Hall. congruence.
Qed.
