(* ===== verification/RlcTxAmSteps.v ===== *)
(** * RLC AM transmitting entity: the remaining operations

    SDUs from the upper layer, discarding, the expiry of t-PollRetransmit and construction. *)

From S2P Require Import Prelude Effects Window RlcConfig RlcAmPdu RlcAmPduFacts Timers PdcpSn SduQueue RetxQueue RlcTxUm RlcTxAm RlcTxAmInv RlcTxAmSend RlcTxAmStatus.
Import AmHeader StatusPdu RlcTxAm.
Open Scope Z_scope.
Open Scope entity_scope.

(** ** Upper layer *)

(** What operations other than a pull and a status PDU leave as it is. *)
Record kept (e e' : rlc_tx_am_entity) : Prop := {
  kp_cfg : cfg e' = cfg e;
  kp_ack : tx_next_ack (st e') = tx_next_ack (st e);
  kp_next : tx_next (st e') = tx_next (st e);
  kp_counts : pdu_without_poll (st e') = pdu_without_poll (st e) /\ byte_without_poll (st e') = byte_without_poll (st e)
}.

#[export] Instance kept_preorder : PreOrder kept.
Proof.
  split; [by split|]. intros a b c [? ? ? [? ?]] [? ? ? [? ?]]. split; try congruence. split; congruence.
Qed.

Lemma wp_handle_changed_buffer_state A sent deferred e :
  tx_inv A sent e ->
  wp (handle_changed_buffer_state deferred) (fun _ e' _ => tx_inv A sent e' /\ kept e e' /\
    sdu_queue e' = sdu_queue e) e.
Proof.
  intros Hinv. unfold handle_changed_buffer_state. wp_step. wp_step.
  wp_step; [|done]. wp_steps; (split; [by apply (same_tx_inv e)|done]).
Qed.

(** The SDU as it enters the queue: SRBs ignore the retransmission flag. *)
Definition incoming (e : rlc_tx_am_entity) (now : Z) (buf : list Z) (is_retx : bool) : rlc_sdu :=
  mk_sdu buf (if rb_is_srb e && is_retx then false else is_retx) (get_pdcp_sn buf (txam_pdcp_sn_len (cfg e)) (rb_is_srb e)) now.

Lemma incoming_ok e now buf is_retx : Forall is_byte buf -> sdu_size_ok buf -> SduQueue.sdu_ok (incoming e now buf is_retx).
Proof.
  intros Hb [_ Hs]. unfold MAX_SDU in Hs. split; [simpl; lia|]. intros p Hp. simpl in Hp.
  apply get_pdcp_sn_range in Hp; [|done]. unfold SduQueue.STATE_DISCARDED. lia.
Qed.

Lemma wp_handle_sdu A sent now deferred buf is_retx e :
  tx_inv A sent e -> Forall is_byte buf -> sdu_size_ok buf ->
  wp (handle_sdu now deferred buf is_retx) (fun _ e' es => tx_inv A sent e' /\ kept e e' /\
    let s := incoming e now buf is_retx in
    SduQueue.live (sdu_queue e') = SduQueue.live (sdu_queue e) ++ (if SduQueue.accepts (sdu_queue e) s then [s] else [])) e.
Proof.
  intros Hinv Hb Hs. unfold handle_sdu. wp_step. wp_step. fold (incoming e now buf is_retx).
  pose proof (SduQueue.write_spec (sdu_queue e) (incoming e now buf is_retx) (ti_sdus _ _ _ Hinv) (incoming_ok e now buf is_retx Hb Hs)) as Hw.
  destruct (SduQueue.write (incoming e now buf is_retx) (sdu_queue e)) as [q ok].
  destruct Hw as (Q1 & _ & -> & Q2 & Q3). wp_step. wp_step.
  set (e1 := set_sdu_queue q e). assert (tx_inv A sent e1) as Hinv1.
  { apply tx_inv_set_queue; [done|done|]. unfold queued_ok. rewrite Q2. apply Forall_app. split; [apply (ti_sdu_sizes _ _ _ Hinv)|].
    destruct (SduQueue.accepts _ _); [by apply Forall_cons_2|constructor]. }
  wp_step.
  - wp_step. wp_step. eapply wp_mono; [by apply (wp_handle_changed_buffer_state A sent)|]. cbv beta.
    intros _ e2 es (Hinv2 & Hk & Hq). split; [done|]. split; [by etrans; [|exact Hk]|]. by rewrite Hq.
  - wp_step. split; [done|]. split; [done|]. done.
Qed.

Lemma wp_discard_sdu A sent deferred p e :
  tx_inv A sent e -> 0 <= p < SduQueue.STATE_DISCARDED ->
  wp (discard_sdu deferred p) (fun _ e' es => tx_inv A sent e' /\ kept e e' /\
    SduQueue.live (sdu_queue e') = List.filter (fun s => negb (SduQueue.carries p s)) (SduQueue.live (sdu_queue e))) e.
Proof.
  intros Hinv Hp. unfold discard_sdu. wp_step. wp_step.
  pose proof (SduQueue.try_discard_spec (sdu_queue e) p (ti_sdus _ _ _ Hinv) Hp) as Hd.
  destruct (SduQueue.try_discard p (sdu_queue e)) as [q ok]. destruct Hd as (Q1 & _ & Q2 & _ & Q3). wp_step. wp_step.
  set (e1 := set_sdu_queue q e). assert (tx_inv A sent e1) as Hinv1.
  { apply tx_inv_set_queue; [done|done|]. unfold queued_ok. rewrite Q2. apply (ti_sdu_sizes _ _ _ Hinv). }
  wp_step.
  - wp_step. wp_step. eapply wp_mono; [by apply (wp_handle_changed_buffer_state A sent)|]. cbv beta.
    intros _ e2 es (Hinv2 & Hk & Hq). split; [done|]. split; [by etrans; [|exact Hk]|]. by rewrite Hq.
  - wp_step. by split.
Qed.

(** ** t-PollRetransmit *)

Lemma tx_inv_recount A sent e w : recounted (tx_window e) w -> tx_inv A sent e -> tx_inv A sent (set_tx_window w e).
Proof.
  intros Hw [Hi Hs Hsz Hr Hro Ht]. constructor; try done.
  - by apply (recount_win_inv e).
  - by destruct Hr; constructor.
  - eapply Forall_impl; [exact Hro|]. intros r. by apply recount_retx_ok.
Qed.

(** The expiry asks for the oldest SDU in flight, unless there is something else to send. *)
Definition poll_retx (e : rlc_tx_am_entity) : list rlc_tx_amd_retx :=
  match win e (tx_next_ack (st e)) with
  | Some info =>
      if no_new_transmission e && negb (RetxQueue.size (retx_queue e) =? am_window_size e)
      then [mk_retx (tx_next_ack (st e)) 0 (zlen (sdu info))] else []
  | None => []
  end.

Lemma wp_push_oldest A sent e info :
  tx_inv A sent e -> win e (tx_next_ack (st e)) = Some info ->
  let r := mk_retx (tx_next_ack (st e)) 0 (u32 (zlen (sdu info))) in
  let pushed := RetxQueue.try_push r (retx_queue e) in
  snd pushed = negb (RetxQueue.size (retx_queue e) =? am_window_size e) /\
  u32 (zlen (sdu info)) = zlen (sdu info) /\ tx_inv A sent (set_retx_queue (fst pushed) e) /\
  RetxQueue.pending (fst pushed) = RetxQueue.pending (retx_queue e) ++ (if snd pushed then [r] else []).
Proof.
  intros Hinv Hw. pose proof (ti_win _ _ _ Hinv) as Hi. pose proof (ti_retx _ _ _ Hinv) as Hr.
  destruct (wi_some _ _ _ Hi _ _ Hw) as [E1 E2 E3 [E4 E5] _]. pose proof E5 as E5'. unfold MAX_SDU in E5'.
  rewrite (u32_small (zlen (sdu info))) by lia. cbv zeta. set (r := mk_retx _ _ _).
  assert (retx_ok e r) as Hok.
  { split; [done|]. split; [unfold retx_size_ok; simpl; lia|]. exists info. split; [done|]. simpl. lia. }
  pose proof (RetxQueue.try_push_spec (retx_queue e) r (rq_inv _ Hr)) as Hp.
  destruct (RetxQueue.try_push r (retx_queue e)) as [q ok]. destruct Hp as (P1 & P2 & P3 & P4).
  { apply retx_fits; [apply Forall_app; split; [apply (rq_fits _ Hr)|by constructor; [apply Hok|]]|].
    rewrite zlen_app, zlen_cons, zlen_nil. pose proof (pending_room e Hr). lia. }
  rewrite (rq_size _ Hr) in *. simpl. split; [done|]. split; [done|]. split; [|done].
  change (set_retx_queue q e) with (set_max_retx_reached (max_retx_reached e) (set_retx_queue q e)).
  apply tx_inv_set_retx; [done..|]. rewrite P4. apply Forall_app. split; [apply (ti_retx_ok _ _ _ Hinv)|].
  destruct ok; [by apply Forall_cons_2|constructor].
Qed.

Lemma wp_on_expired_poll A sent provider e :
  tx_inv A sent e ->
  wp (on_expired_poll_retransmit_timer provider) (fun _ e' es => tx_inv A sent e' /\ kept e e' /\
    SduQueue.live (sdu_queue e') = SduQueue.live (sdu_queue e) /\
    RetxQueue.pending (retx_queue e') = RetxQueue.pending (retx_queue e) ++ poll_retx e) e.
Proof.
  intros Hinv. pose proof (ti_win _ _ _ Hinv) as Hi. pose proof (wi_ack _ _ _ Hi) as Hack.
  unfold on_expired_poll_retransmit_timer, poll_retx. wp_step. wp_step.
  destruct (no_new_transmission e) eqn:Hno; simpl when.
  2:{ wp_step. split; [done|]. split; [done|]. split; [done|]. destruct (win e _); by rewrite app_nil_r. }
  destruct (CircularMap.empty (tx_window e)) eqn:Hempty.
  { unfold CircularMap.empty, CircularMap.size in Hempty. rewrite (wi_count _ _ _ Hi) in Hempty. bool_prop.
    destruct (win e (tx_next_ack (st e))) as [info|] eqn:Hw.
    - pose proof (en_in _ _ _ _ _ (wi_some _ _ _ Hi _ _ Hw)) as Hd. pose proof (tx_dist_range e (tx_next_ack (st e))). lia.
    - wp_step. by rewrite app_nil_r. }
  rewrite tx_has_sn_win by done. destruct (win e (tx_next_ack (st e))) as [info|] eqn:Hw; simpl negb; cbv iota.
  2:{ wp_step. by rewrite app_nil_r. }
  wp_step. eapply wp_tx_window_at; [done..|].
  destruct (wp_push_oldest A sent e info Hinv Hw) as (P1 & P2 & P3 & P4). cbv zeta in *.
  destruct (RetxQueue.try_push _ (retx_queue e)) as [q ok]. simpl in P1, P3, P4. rewrite P2 in P4. subst ok.
  simpl andb. wp_step. wp_step. wp_step. set (e1 := set_retx_queue q e) in *.
  apply (wp_mono _ (fun _ e' _ => exists w, e' = set_tx_window w e1 /\ recounted (tx_window e1) w)).
  { wp_step; [|exists (tx_window e1); split; [by destruct e|done]].
    eapply wp_mono; [by apply (wp_increment_retx_count e1 _ info)|]. cbv beta. intros _ ? ? (_ & w & H1 & H2). eauto. }
  cbv beta. intros _ ? _ (w & -> & Hrc). eapply wp_mono.
  { apply (wp_update_mac_buffer_state A sent). by apply tx_inv_recount. }
  cbv beta zeta. intros _ e2 es2 (_ & _ & _ & Hinv2 & Hcore & _ & _ & Hst & Hrq & Hlive). split; [done|].
  split; [|split; [done|]].
  - constructor; rewrite ?Hst; try done. by rewrite (sc_cfg _ _ Hcore).
  - by rewrite Hrq.
Qed.

Lemma wp_poll_retransmit_timeout A sent provider epoch e :
  tx_inv A sent e -> (tm_cmd_id (poll_retransmit_timer e) = epoch -> is_running (poll_retransmit_timer e) = true) ->
  wp (poll_retransmit_timeout provider epoch) (fun _ e' es => tx_inv A sent e' /\ kept e e' /\
    SduQueue.live (sdu_queue e') = SduQueue.live (sdu_queue e) /\
    RetxQueue.pending (retx_queue e') = RetxQueue.pending (retx_queue e) ++
      (if tm_cmd_id (poll_retransmit_timer e) =? epoch then poll_retx e else [])) e.
Proof.
  intros Hinv Hrun. unfold poll_retransmit_timeout. wp_step. wp_step. wp_step.
  unfold timeout_task. destruct (Z.eqb_spec (tm_cmd_id (poll_retransmit_timer e)) epoch) as [Heq|Hne].
  - rewrite (Hrun Heq). wp_steps; [|done]. set (e1 := set_poll_retransmit_timer _ e).
    assert (tx_inv A sent e1) as Hinv1 by (by apply (same_tx_inv e)).
    eapply wp_mono; [by apply (wp_on_expired_poll A sent)|]. cbv beta.
    intros _ e2 es (H1 & H2 & H3 & H4). split; [done|]. split; [by etrans; [|exact H2]|]. done.
  - wp_steps; [done|]. split; [|split; [done|]; split; [done|]; by rewrite app_nil_r].
    by apply (same_tx_inv e).
Qed.

(** ** Construction *)

(** Configurations the entity accepts and the development speaks about. *)
Definition config_ok (c : rlc_tx_am_config) : Prop :=
  txam_pdcp_sn_len c <> pdcp_size_invalid /\ txam_t_poll_retx c <= MAX_TIMER_DURATION /\ poll_config_ok c /\
  0 < txam_queue_size c < 2 ^ 32 /\ 0 <= txam_queue_size_bytes c < 2 ^ 32.

Lemma tx_create_inv c is_srb :
  config_ok c -> exists e, create c is_srb = Some e /\ tx_inv 0 [] e /\ cfg e = c /\ poll_bounded e.
Proof.
  intros (H1 & H2 & [H3 H4] & H5 & H6). unfold create. rewrite bool_decide_false by done.
  assert (exists tm, (if 0 <? txam_t_poll_retx c then
      match timer_set (S := unit) (E := unit) create_timer (txam_t_poll_retx c) tt with
      | Ok (t, _, _) => Some t | Fault _ => None end else Some create_timer) = Some tm /\
      (0 < txam_t_poll_retx c -> is_set tm = true)) as (tm & -> & Htm).
  { destruct (Z.ltb_spec 0 (txam_t_poll_retx c)); [|by exists create_timer; split; [|lia]].
    unfold timer_set. destruct (Z.ltb_spec MAX_TIMER_DURATION (txam_t_poll_retx c)); [lia|]. by eexists. }
  simpl. eexists. split; [done|].
  pose proof (am_ring_sizes (txam_sn_field_length c)) as (W0 & W1 & W2 & W3 & W4 & W5).
  destruct (SduQueue.create_queue_inv (txam_queue_size c) (txam_queue_size_bytes c) H5 H6) as [Q1 Q2].
  destruct (RetxQueue.create_retx_inv (rlc_window_size (to_number_am_sn (txam_sn_field_length c)))) as [R1 R2]; [lia|].
  split; [|split; [done|]].
  - constructor; try done.
    + constructor; unfold in_flight, dist, segmenting, is_sn, mod_; simpl; rewrite ?sn_diff_self by lia; try done; try lia.
      * unfold am_window_size. simpl. lia.
      * intros sn Hsn _. pose proof (sn_diff_range (cardinality (to_number_am_sn (txam_sn_field_length c))) ltac:(lia) 0 sn). lia.
    + unfold queued_ok. simpl. constructor.
  - split; simpl; intros; by apply u32_pos.
Qed.
