(* ===== verification/RlcTxAmTheorems.v ===== *)
(** * RLC AM transmitting entity: theorems

    The entity as a state machine whose steps are the calls of its neighbours, and what holds in
    every state it can reach. *)

From S2P Require Import Prelude Effects Window RlcConfig RlcAmPdu RlcAmPduFacts Timers PdcpSn SduQueue RetxQueue RlcTxUm RlcTxAm RlcTxAmInv RlcTxAmSend RlcTxAmStatus RlcTxAmSteps.
Import AmHeader StatusPdu RlcTxAm.
Open Scope Z_scope.
Open Scope entity_scope.

(** ** The state machine *)

Inductive operation :=
| op_handle_sdu (now : Z) (deferred : bool) (buf : list Z) (is_retx : bool)
| op_discard_sdu (deferred : bool) (pdcp_sn : Z)
| op_pull_pdu (provider : rlc_rx_am_status_provider) (grant_len : Z)
| op_on_status_pdu (status : rlc_am_status_pdu)
| op_handle_status_pdu (provider : rlc_rx_am_status_provider) (status : rlc_am_status_pdu)
| op_poll_retransmit_timeout (provider : rlc_rx_am_status_provider) (epoch : Z)
| op_update_mac_buffer_state (provider : rlc_rx_am_status_provider)
| op_on_status_report_changed (deferred : bool)
| op_stop
| op_stop_lower
| op_clear_recycler.

(** The PDU returned; nothing for the operations that return none. *)
Definition run_operation (o : operation) : H (list Z) :=
  match o with
  | op_handle_sdu now deferred buf is_retx => handle_sdu now deferred buf is_retx ;;; ret []
  | op_discard_sdu deferred p => discard_sdu deferred p ;;; ret []
  | op_pull_pdu provider grant_len => pull_pdu provider grant_len
  | op_on_status_pdu status => on_status_pdu status ;;; ret []
  | op_handle_status_pdu provider status => handle_status_pdu provider status ;;; ret []
  | op_poll_retransmit_timeout provider epoch => poll_retransmit_timeout provider epoch ;;; ret []
  | op_update_mac_buffer_state provider => update_mac_buffer_state provider false ;;; ret []
  | op_on_status_report_changed deferred => on_status_report_changed deferred ;;; ret []
  | op_stop => stop ;;; ret []
  | op_stop_lower => modify stop_lower ;;; ret []
  | op_clear_recycler => modify clear_recycler ;;; ret []
  end.

(** What the neighbours promise: SDUs are bytes, not empty and of bounded size; the grant fits a
    [size_t] of 32 bits; an expiry task of the current epoch means that the timer is running; status
    PDUs come from the reader, and those that pass the entity's checks do not acknowledge what was
    never sent in full. *)
Definition operation_ok (e : rlc_tx_am_entity) (o : operation) : Prop :=
  match o with
  | op_handle_sdu _ _ buf _ => Forall is_byte buf /\ sdu_size_ok buf
  | op_discard_sdu _ p => 0 <= p < SduQueue.STATE_DISCARDED
  | op_pull_pdu provider grant_len => 0 <= grant_len < 2 ^ 32 /\ provider_ok provider
  | op_handle_status_pdu _ status => status_in_range e status /\ (acceptable e status -> status_plausible e status)
  | op_poll_retransmit_timeout _ epoch =>
      tm_cmd_id (poll_retransmit_timer e) = epoch -> is_running (poll_retransmit_timer e) = true
  | _ => True
  end.

(** The SDUs a step gives a sequence number. *)
Definition numbered (e : rlc_tx_am_entity) (o : operation) (e' : rlc_tx_am_entity) : list (list Z) :=
  match o with
  | op_pull_pdu _ _ =>
      take (length (SduQueue.live (sdu_queue e)) - length (SduQueue.live (sdu_queue e')))
        (map sdu_buf (SduQueue.live (sdu_queue e)))
  | _ => []
  end.

(** Reachable states, with the number of SDUs acknowledged and the SDUs numbered so far. *)
Inductive reachable (config : rlc_tx_am_config) (is_srb : bool) : Z -> list (list Z) -> rlc_tx_am_entity -> Prop :=
| reachable_create e : create config is_srb = Some e -> reachable config is_srb 0 [] e
| reachable_step A sent e o pdu e' es :
    reachable config is_srb A sent e -> operation_ok e o -> run_operation o e = Ok (pdu, e', es) ->
    reachable config is_srb (A + dist e (tx_next_ack (st e'))) (sent ++ numbered e o e') e'.

(** ** Every operation *)

Definition step_ok (A : Z) (sent : list (list Z)) (e : rlc_tx_am_entity) (o : operation) (pdu : list Z)
    (e' : rlc_tx_am_entity) : Prop :=
  tx_inv (A + dist e (tx_next_ack (st e'))) (sent ++ numbered e o e') e' /\ cfg e' = cfg e /\
  (poll_bounded e -> poll_bounded e').

Lemma kept_bounded e e' : kept e e' -> poll_bounded e -> poll_bounded e'.
Proof. intros [Hc _ _ [H1 H2]]. unfold poll_bounded. by rewrite Hc, H1, H2. Qed.

Lemma kept_step A sent e o pdu e' :
  tx_inv A sent e' -> kept e e' -> numbered e o e' = [] -> step_ok A sent e o pdu e'.
Proof.
  intros Hinv Hk Hn. unfold step_ok. rewrite Hn, app_nil_r, (kp_ack _ _ Hk), dist_ack, Z.add_0_r.
  split; [done|]. split; [apply (kp_cfg _ _ Hk)|]. by apply kept_bounded.
Qed.

Lemma pulled_numbered A sent grant_len e pdu sent' e' provider :
  pulled A sent grant_len e pdu sent' e' ->
  sent' = sent ++ numbered e (op_pull_pdu provider grant_len) e'.
Proof.
  intros Hp. destruct (pl_live _ _ _ _ _ _ _ Hp) as (new & -> & Hl). unfold numbered. f_equal.
  assert (length (SduQueue.live (sdu_queue e)) - length (SduQueue.live (sdu_queue e')) = length new)%nat as ->.
  { pose proof (f_equal length Hl) as E. rewrite length_app, !length_map in E. lia. }
  by rewrite Hl, take_app_length.
Qed.

Lemma pull_step A sent provider grant_len e pdu sent' e' :
  tx_inv A sent e -> pull_result A sent provider grant_len e pdu sent' e' ->
  step_ok A sent e (op_pull_pdu provider grant_len) pdu e' /\ sent' = sent ++ numbered e (op_pull_pdu provider grant_len) e'.
Proof.
  intros Hinv. unfold pull_result. destruct (_ && _).
  - intros (-> & -> & ->). assert (numbered e (op_pull_pdu provider grant_len) e = []) as E.
    { unfold numbered. by rewrite Nat.sub_diag. }
    split; [|by rewrite E, app_nil_r]. by apply kept_step.
  - intros Hp. pose proof (pulled_numbered _ _ _ _ _ _ _ provider Hp) as E. split; [|done]. unfold step_ok.
    rewrite <- E, (pl_ack _ _ _ _ _ _ _ Hp), dist_ack, Z.add_0_r. by destruct Hp.
Qed.

Lemma wp_tx_run_operation A sent e o :
  tx_inv A sent e -> poll_config_ok (cfg e) -> operation_ok e o ->
  wp (run_operation o) (fun pdu e' es => step_ok A sent e o pdu e') e.
Proof.
  intros Hinv Hcfg Hok. destruct o; simpl in Hok |- *.
  - destruct Hok. wp_step. eapply wp_mono; [by apply (wp_handle_sdu A sent)|]. cbv beta.
    intros _ e' es (I1 & I2 & _). wp_step. by apply kept_step.
  - wp_step. eapply wp_mono; [by apply (wp_discard_sdu A sent)|]. cbv beta.
    intros _ e' es (I1 & I2 & _). wp_step. by apply kept_step.
  - destruct Hok as [Hg Hp]. eapply wp_mono; [apply (wp_pull_pdu A sent); [done|done|lia|done]|]. cbv beta.
    intros pdu e' es (sent' & Hr). by eapply pull_step.
  - unfold on_status_pdu. wp_steps. by apply kept_step.
  - destruct Hok as [Hr Hp]. wp_step. eapply wp_mono; [by apply (wp_handle_status_pdu A sent)|]. cbv beta.
    intros _ e' es [[_ Hs]|(_ & -> & _)]; wp_step; [|by apply kept_step]. unfold step_ok. simpl. rewrite app_nil_r.
    rewrite (sa_ack _ _ _ _ _ _ _ Hs). split; [apply Hs|]. split; [apply Hs|]. unfold poll_bounded.
    destruct (sa_counts _ _ _ _ _ _ _ Hs) as [-> ->]. by rewrite (sa_cfg _ _ _ _ _ _ _ Hs).
  - wp_step. eapply wp_mono; [by apply (wp_poll_retransmit_timeout A sent)|]. cbv beta.
    intros _ e' es (I1 & I2 & _). wp_step. by apply kept_step.
  - wp_step. eapply wp_mono; [by apply (wp_update_mac_buffer_state A sent)|]. cbv beta zeta.
    intros _ e' es (_ & _ & _ & I1 & I2 & _ & _ & Hst & _). wp_step. apply kept_step; [done| |done].
    constructor; rewrite ?Hst; try done. apply (sc_cfg _ _ I2).
  - wp_step. unfold on_status_report_changed. eapply wp_mono; [by apply (wp_handle_changed_buffer_state A sent)|]. cbv beta.
    intros _ e' es (I1 & I2 & _). wp_step. by apply kept_step.
  - unfold stop. wp_steps; [|by apply kept_step]. apply kept_step; [by apply (same_tx_inv e)|done|done].
  - wp_steps. apply kept_step; [|done|done]. apply (same_tx_inv e); try done. simpl. apply is_set_stop.
  - wp_steps. apply kept_step; [by apply (same_tx_inv e)|done|done].
Qed.

Lemma reachable_inv config is_srb A sent e :
  config_ok config -> reachable config is_srb A sent e -> tx_inv A sent e /\ cfg e = config /\ poll_bounded e.
Proof.
  intros Hc. induction 1 as [e Hcr|A sent e o pdu e' es Hr (IH1 & IH2 & IH3) Hok Hrun].
  - destruct (tx_create_inv config is_srb Hc) as (e0 & H1 & H2). congruence.
  - pose proof (wp_tx_run_operation A sent e o IH1) as W. rewrite IH2 in W. specialize (W (proj1 (proj2 (proj2 Hc))) Hok).
    unfold wp in W. rewrite Hrun in W. destruct W as (W1 & W2 & W3). split; [done|]. split; [congruence|auto].
Qed.

(** ** What NACKs ask for, byte by byte *)








(** ** Theorems *)

(** C6: no operation of the transmitting entity aborts the process: whatever was sent, acknowledged
    and retransmitted before, no assertion fails, no access leaves a buffer or the window, and no
    loop runs on.  SDUs are octets, not empty and of bounded size.  The fields of a status PDU are in
    their ranges, and one that the entity accepts acknowledges nothing beyond TX_Next, unless an SDU is being
    segmented and NACKs are listed: [tx_am_nack_of_unsent_sdu_aborts] shows why this is asked. *)
Theorem tx_am_never_aborts config is_srb A sent e o :
  config_ok config -> reachable config is_srb A sent e -> operation_ok e o ->
  exists pdu e' es, run_operation o e = Ok (pdu, e', es).
Proof.
  intros Hc Hr Hok. destruct (reachable_inv _ _ _ _ _ Hc Hr) as (Hinv & Hcfg & _).
  assert (poll_config_ok (cfg e)) as Hp by (rewrite Hcfg; apply Hc).
  pose proof (proj1 (wp_run _ _ _) (wp_tx_run_operation A sent e o Hinv Hp Hok)) as (pdu & e' & es & H & _). eauto.
Qed.

(** C7: the window of the transmitting entity holds exactly the SDUs that were numbered and not yet
    acknowledged, at most a window of them: TX_Next_Ack is the number of SDUs acknowledged and
    TX_Next the number sent in full, modulo the ring, and the SDU under a sequence number is the one
    that was given this number.  What is queued for retransmission belongs to the window. *)
Theorem tx_am_window_invariant config is_srb A sent e :
  config_ok config -> reachable config is_srb A sent e ->
  A mod mod_ e = tx_next_ack (st e) /\
  (A + dist e (tx_next (st e))) mod mod_ e = tx_next (st e) /\
  zlen sent = A + in_flight e /\ in_flight e <= am_window_size e /\
  (forall sn, is_sn e sn ->
     sdu <$> win e sn = if dist e sn <? in_flight e then sent !! Z.to_nat (A + dist e sn) else None) /\
  Forall (fun r => exists info, win e (retx_sn r) = Some info /\
     0 <= retx_so r /\ 0 < retx_length r /\ retx_so r + retx_length r <= zlen (sdu info))
    (RetxQueue.pending (retx_queue e)).
Proof.
  intros Hc Hr. destruct (reachable_inv _ _ _ _ _ Hc Hr) as (Hinv & _ & _). pose proof (ti_win _ _ _ Hinv) as Hi.
  split; [apply Hi|]. split; [eapply sn_number; [done|apply Hi]|]. split; [apply Hi|]. split; [apply Hi|]. split.
  - intros sn Hsn. destruct (win e sn) as [info|] eqn:Hw; simpl.
    + destruct (wi_some _ _ _ Hi _ _ Hw) as [_ Hd Hs _ _]. by apply Z.ltb_lt in Hd as ->.
    + apply (wi_none _ _ _ Hi) in Hw; [|done]. by apply Z.ltb_ge in Hw as ->.
  - eapply Forall_impl; [exact (ti_retx_ok _ _ _ Hinv)|]. intros r (_ & (R1 & R2 & _) & info & R3 & R4). eauto.
Qed.

(** C8: what a pull returns fits the grant and is either the status report, nothing, or a PDU of one
    SDU of the window: its header carries the SDU's number modulo the ring and the segmentation
    info and offset of the slice that follows, and the slice is the SDU's bytes at this offset.  At
    most one SDU is given a number, the oldest of the queue. *)
Theorem tx_am_pdu_content config is_srb A sent e provider grant_len pdu e' es :
  config_ok config -> reachable config is_srb A sent e -> operation_ok e (op_pull_pdu provider grant_len) ->
  run_operation (op_pull_pdu provider grant_len) e = Ok (pdu, e', es) ->
  let new := numbered e (op_pull_pdu provider grant_len) e' in
  zlen pdu <= grant_len /\
  map sdu_buf (SduQueue.live (sdu_queue e)) = new ++ map sdu_buf (SduQueue.live (sdu_queue e')) /\
  if status_report_required provider && negb (max_retx_reached e) then pdu = status_sent provider grant_len
  else pdu = [] \/ exists k h n, A <= k < zlen (sent ++ new) /\
         data_pdu (txam_sn_field_length config) (sent ++ new) k h n pdu.
Proof.
  intros Hc Hr [Hg Hp] Hrun new. destruct (reachable_inv _ _ _ _ _ Hc Hr) as (Hinv & Hcfg & _).
  assert (poll_config_ok (cfg e)) as Hpc by (rewrite Hcfg; apply Hc).
  pose proof (wp_pull_pdu A sent provider grant_len e Hinv Hpc ltac:(lia) Hp) as W. unfold wp in W.
  simpl in Hrun. rewrite Hrun in W. destruct W as (sent' & Hres).
  destruct (pull_step A sent provider grant_len e pdu sent' e' Hinv Hres) as [_ Hs]. fold new in Hs.
  unfold pull_result in Hres. destruct (_ && _).
  - destruct Hres as (-> & _ & ->). split; [apply status_sent_fits; [done|lia]|]. split; [|done].
    unfold new, numbered. by rewrite Nat.sub_diag.
  - rewrite Hs in Hres. destruct (pl_live _ _ _ _ _ _ _ Hres) as (new' & Hn & Hl). apply app_inv_head in Hn.
    rewrite <- Hn in Hl. split; [|split; [done|]].
    + destruct (pl_pdu _ _ _ _ _ _ _ Hres) as [->|(k & h & n & _ & Hlen & _)]; [rewrite zlen_nil; lia|done].
    + destruct (pl_pdu _ _ _ _ _ _ _ Hres) as [->|(k & h & n & Hk & _ & _ & Hpdu)]; [by left|].
      right. exists k, h, n. by rewrite <- Hcfg.
Qed.

(** as long as the retransmission limit is not reached and there is something to send (a
    retransmission, the rest of a segmented SDU, or a queued SDU while the window has room), a grant
    larger than the largest header yields a PDU. *)
Theorem tx_am_pull_progress config is_srb A sent e provider grant_len pdu e' es :
  config_ok config -> reachable config is_srb A sent e -> operation_ok e (op_pull_pdu provider grant_len) ->
  run_operation (op_pull_pdu provider grant_len) e = Ok (pdu, e', es) ->
  head_max_size e < grant_len -> can_send e -> status_report_required provider = false -> pdu <> [].
Proof.
  intros Hc Hr [Hg Hp] Hrun Hlen Hcan Hst. destruct (reachable_inv _ _ _ _ _ Hc Hr) as (Hinv & Hcfg & _).
  assert (poll_config_ok (cfg e)) as Hpc by (rewrite Hcfg; apply Hc).
  pose proof (wp_pull_pdu A sent provider grant_len e Hinv Hpc ltac:(lia) Hp) as W. unfold wp in W.
  simpl in Hrun. rewrite Hrun in W. destruct W as (sent' & Hres). unfold pull_result in Hres. rewrite Hst in Hres.
  by apply (pl_progress _ _ _ _ _ _ _ Hres).
Qed.

(** C9: a status PDU that passes the checks acknowledges the SDUs before its first NACK, or before
    ACK_SN when it has none: they leave the window, TX_Next_Ack moves to that number, and the upper
    layer is told the PDCP SN of the last of them that was new and of the last that was a PDCP
    retransmission.  A status PDU that fails a check changes nothing. *)
Theorem tx_am_status_acknowledges config is_srb A sent e provider status pdu e' es :
  config_ok config -> reachable config is_srb A sent e -> operation_ok e (op_handle_status_pdu provider status) ->
  run_operation (op_handle_status_pdu provider status) e = Ok (pdu, e', es) ->
  (acceptable e status /\ tx_next_ack (st e') = stop_sn status /\ tx_next (st e') = tx_next (st e) /\
   in_flight e' = in_flight e - dist e (stop_sn status) /\
   exists rest, Forall quiet rest /\
     es = delivered (fold_left latest (oldest e (dist e (stop_sn status))) (None, None)) ++ rest) \/
  (~ acceptable e status /\ e' = e /\ Forall quiet es).
Proof.
  intros Hc Hr [Hsr Hpl] Hrun. destruct (reachable_inv _ _ _ _ _ Hc Hr) as (Hinv & Hcfg & _).
  pose proof (wp_handle_status_pdu A sent provider e status Hinv Hsr Hpl) as W. unfold wp in W.
  simpl in Hrun. unfold bind in Hrun. destruct (handle_status_pdu provider status e) as [[[[] e1] es1]|]; [|done].
  simpl in Hrun. rewrite app_nil_r in Hrun. simplify_eq.
  destruct W as [[Hacc Hs]|W]; [left|by right].
  split; [done|]. split; [apply Hs|]. split; [apply Hs|]. split; [|apply Hs].
  pose proof (wi_sent _ _ _ (ti_win _ _ _ Hinv)). pose proof (wi_sent _ _ _ (ti_win _ _ _ (sa_inv _ _ _ _ _ _ _ Hs))). lia.
Qed.


(** Between two polls fewer than pollPDU PDUs and, of what is counted, fewer than pollByte bytes
    are sent.  A PDU without poll leaves something to send: not both buffers are empty, and the
    window is not full (the limit [max_window] aside); one with poll starts t-PollRetransmit. *)
Theorem tx_am_polling config is_srb A sent e provider grant_len pdu e' es :
  config_ok config -> reachable config is_srb A sent e -> operation_ok e (op_pull_pdu provider grant_len) ->
  run_operation (op_pull_pdu provider grant_len) e = Ok (pdu, e', es) -> status_report_required provider = false ->
  poll_bounded e' /\
  (pdu = [] \/ exists k h n, data_pdu (txam_sn_field_length config) (sent ++ numbered e (op_pull_pdu provider grant_len) e') k h n pdu /\
     (p h = 0 -> txam_max_window config = 0 -> no_new_transmission e' = false) /\
     (p h = 1 -> pdu_without_poll (st e') = 0 /\ byte_without_poll (st e') = 0 /\
        (0 < txam_t_poll_retx config -> stopped_lower e = false -> is_running (poll_retransmit_timer e') = true))).
Proof.
  intros Hc Hr [Hg Hp] Hrun Hst. destruct (reachable_inv _ _ _ _ _ Hc Hr) as (Hinv & Hcfg & Hb).
  assert (poll_config_ok (cfg e)) as Hpc by (rewrite Hcfg; apply Hc).
  pose proof (wp_pull_pdu A sent provider grant_len e Hinv Hpc ltac:(lia) Hp) as W. unfold wp in W.
  simpl in Hrun. rewrite Hrun in W. destruct W as (sent' & Hres).
  destruct (pull_step A sent provider grant_len e pdu sent' e' Hinv Hres) as [(_ & _ & Hb') Hs].
  split; [auto|]. unfold pull_result in Hres. rewrite Hst in Hres. simpl in Hres.
  destruct (pl_pdu _ _ _ _ _ _ _ Hres) as [->|(k & h & n & _ & _ & [P1 P2] & Hpdu)]; [by left|].
  right. exists k, h, n. rewrite <- Hcfg, <- Hs. by split.
Qed.


(** ** A concrete run *)

(** A sequence of operations; [None] when one of them aborts. *)
Fixpoint run_all (os : list operation) (v : Z * list (list Z) * rlc_tx_am_entity) :
    option (Z * list (list Z) * rlc_tx_am_entity) :=
  match os with
  | [] => Some v
  | o :: os' =>
      let '(A, sent, e) := v in
      match run_operation o e with
      | Ok (_, e', _) => run_all os' (A + dist e (tx_next_ack (st e')), sent ++ numbered e o e', e')
      | Fault _ => None
      end
  end.

(** [operation_ok], decided. *)
Definition operation_okb (e : rlc_tx_am_entity) (o : operation) : bool :=
  match o with
  | op_handle_sdu _ _ buf _ => forallb (fun b => (0 <=? b) && (b <? 256)) buf && (0 <? zlen buf) && (zlen buf <=? MAX_SDU)
  | op_discard_sdu _ p => (0 <=? p) && (p <? SduQueue.STATE_DISCARDED)
  | op_pull_pdu provider grant_len => (0 <=? grant_len) && (grant_len <? 2 ^ 32) &&
      (packed_size (status_pdu provider) =? 3 + nacks_size (st_sn_size (status_pdu provider)) (nacks (status_pdu provider)))
  | op_handle_status_pdu _ status =>
      (0 <=? ack_sn status) && (ack_sn status <? mod_ e) &&
      forallb (fun n => (0 <=? nack_sn n) && (nack_sn n <? mod_ e) && (0 <=? so_start n) && (so_start n <? 65536) &&
        (0 <=? so_end n) && (so_end n <? 65536) && (0 <=? nack_range n) && (nack_range n <? 256)) (nacks status) &&
      (negb (dist e (ack_sn status) =? dist e (tx_next (st e)) + 1) ||
       segmenting e && match nacks status with [] => false | _ => true end)
  | op_poll_retransmit_timeout _ epoch =>
      negb (tm_cmd_id (poll_retransmit_timer e) =? epoch) || is_running (poll_retransmit_timer e)
  | _ => true
  end.

Lemma operation_okb_ok e o : operation_okb e o = true -> operation_ok e o.
Proof.
  destruct o; simpl; try done; intros Hb; bool_prop.
  - split; [|by split]. apply Forall_forall. intros b Hin.
    match goal with Hall : forallb _ _ = true |- _ => rewrite forallb_forall in Hall; apply list_elem_of_In, Hall in Hin end.
    unfold is_byte. by bool_prop.
  - done.
  - split; [done|]. done.
  - split.
    + split; [done|]. apply Forall_forall. intros n Hin.
      match goal with Hall : forallb _ _ = true |- _ => rewrite forallb_forall in Hall; apply list_elem_of_In, Hall in Hin end.
      bool_prop. unfold is_sn. by repeat split.
    + intros _ E. apply orb_true_iff in H1 as [H1|H1]; bool_prop; [done|]. split; [done|]. by destruct (nacks status).
  - intros E. apply orb_true_iff in Hb as [Hb|Hb]; bool_prop; done.
Qed.

Fixpoint all_okb (os : list operation) (e : rlc_tx_am_entity) : bool :=
  match os with
  | [] => true
  | o :: os' =>
      operation_okb e o && match run_operation o e with Ok (_, e', _) => all_okb os' e' | Fault _ => false end
  end.

Lemma reachable_run config is_srb os : forall A sent e v,
  reachable config is_srb A sent e -> all_okb os e = true -> run_all os (A, sent, e) = Some v ->
  reachable config is_srb (fst (fst v)) (snd (fst v)) (snd v).
Proof.
  induction os as [|o os IH]; intros A sent e v Hr Hok Hrun; simpl in *; [by simplify_eq|].
  apply andb_true_iff in Hok as [Ho%operation_okb_ok Hok].
  destruct (run_operation o e) as [[[pdu e'] es]|] eqn:E; [|done].
  eapply IH; [|done|exact Hrun]. by eapply reachable_step.
Qed.

Definition example_config : rlc_tx_am_config :=
  {| txam_sn_field_length := am_size12bits; txam_pdcp_sn_len := pdcp_size12bits; txam_t_poll_retx := 45;
     txam_max_retx_thresh := 4; txam_poll_pdu := 4; txam_poll_byte := 1500; txam_queue_size := 16;
     txam_queue_size_bytes := 6172672; txam_max_window := 0 |}.

Definition example_entity : rlc_tx_am_entity :=
  match create example_config false with Some e => e | None => mk_entity example_config false (mk_state 0 0 0 0 0)
    (SduQueue.create 0 0) 0 (RetxQueue.create 0) 0 (CircularMap.empty_map 0) [] create_timer buffer_state_default
    false false false false false end.

Definition no_status : rlc_rx_am_status_provider := mk_provider false 0 (new_status_pdu am_size12bits).

(** Three SDUs arrive; the first is sent in one PDU, the second in part. *)
Definition example_ops : list operation :=
  [op_handle_sdu 1 true [0x80; 0; 11; 12] false; op_handle_sdu 2 true [0x80; 1; 21; 22; 23; 24; 25] false;
   op_handle_sdu 3 true [0x80; 2; 31] false; op_pull_pdu no_status 10; op_pull_pdu no_status 6].

Definition example_state : Z * list (list Z) * rlc_tx_am_entity :=
  match run_all example_ops (0, [], example_entity) with Some v => v | None => (0, [], example_entity) end.

Lemma example_config_ok : config_ok example_config.
Proof. unfold config_ok, poll_config_ok. simpl. unfold MAX_TIMER_DURATION. repeat split; (lia || discriminate). Qed.

Lemma example_reachable : reachable example_config false (fst (fst example_state)) (snd (fst example_state)) (snd example_state).
Proof.
  apply (reachable_run _ _ example_ops 0 [] example_entity);
    [apply reachable_create; reflexivity|vm_compute; reflexivity|vm_compute; reflexivity].
Qed.

(** The peer misses the first SDU and the last bytes of what it got of the second. *)
Definition example_nacks : rlc_am_status_pdu :=
  set_ack_sn (fold_left push_nack [mk_nack 0 true 1 65535 false 0] (new_status_pdu am_size12bits)) 1.
Definition example_acks : rlc_am_status_pdu := set_ack_sn (new_status_pdu am_size12bits) 1.

Lemma tx_am_never_aborts_witness :
  exists pdu e' es, run_operation (op_handle_status_pdu no_status example_nacks) (snd example_state) = Ok (pdu, e', es).
Proof.
  apply (tx_am_never_aborts example_config false (fst (fst example_state)) (snd (fst example_state))).
  - apply example_config_ok.
  - apply example_reachable.
  - apply operation_okb_ok. vm_compute. reflexivity.
Defined.

Lemma tx_am_window_invariant_witness :
  zlen (snd (fst example_state)) = 2 /\ in_flight (snd example_state) = 2 /\ sdu <$> win (snd example_state) 1 = Some [0x80; 1; 21; 22; 23; 24; 25].
Proof.
  destruct (tx_am_window_invariant example_config false (fst (fst example_state)) (snd (fst example_state)) (snd example_state)
    example_config_ok example_reachable) as (_ & _ & Hlen & _ & Hwin & _).
  split; [|split].
  - rewrite Hlen. vm_compute. reflexivity.
  - vm_compute. reflexivity.
  - rewrite Hwin; [vm_compute; reflexivity|]. split; [discriminate|reflexivity].
Defined.

Lemma tx_am_pdu_content_witness :
  exists pdu e' es, run_operation (op_pull_pdu no_status 100) (snd example_state) = Ok (pdu, e', es) /\ zlen pdu <= 100 /\ exists k h n, 0 <= k < 2 /\ data_pdu am_size12bits (snd (fst example_state)) k h n pdu.
Proof.
  destruct (run_operation (op_pull_pdu no_status 100) (snd example_state)) as [[[pdu e'] es]|] eqn:Hrun;
    [|vm_compute in Hrun; discriminate].
  destruct (tx_am_pdu_content example_config false (fst (fst example_state)) (snd (fst example_state)) (snd example_state)
    no_status 100 pdu e' es example_config_ok example_reachable) as (H1 & _ & H2).
  - apply operation_okb_ok. vm_compute. reflexivity.
  - exact Hrun.
  - exists pdu, e', es. split; [reflexivity|]. split; [exact H1|]. vm_compute in Hrun. injection Hrun as <- <- <-.
    destruct H2 as [H2|(k & h & n & Hk & H2)]; [discriminate H2|]. exists k, h, n.
    split; [exact Hk|exact H2].
Defined.

Lemma tx_am_pull_progress_witness :
  exists pdu e' es, run_operation (op_pull_pdu no_status 5) (snd example_state) = Ok (pdu, e', es) /\ pdu <> [].
Proof.
  destruct (run_operation (op_pull_pdu no_status 5) (snd example_state)) as [[[pdu e'] es]|] eqn:Hrun;
    [|vm_compute in Hrun; discriminate].
  exists pdu, e', es. split; [reflexivity|].
  apply (tx_am_pull_progress example_config false (fst (fst example_state)) (snd (fst example_state)) (snd example_state)
    no_status 5 pdu e' es example_config_ok example_reachable).
  - apply operation_okb_ok. vm_compute. reflexivity.
  - exact Hrun.
  - vm_compute. reflexivity.
  - split; [vm_compute; reflexivity|]. right. left. vm_compute. reflexivity.
  - reflexivity.
Defined.

Lemma tx_am_status_acknowledges_witness :
  exists e' rest, run_operation (op_handle_status_pdu no_status example_acks) (snd example_state) =
    Ok ([], e', on_delivered_sdu 0 :: rest) /\ tx_next_ack (st e') = 1 /\ in_flight e' = 1.
Proof.
  destruct (run_operation (op_handle_status_pdu no_status example_acks) (snd example_state)) as [[[pdu e'] es]|] eqn:Hrun;
    [|vm_compute in Hrun; discriminate].
  destruct (tx_am_status_acknowledges example_config false (fst (fst example_state)) (snd (fst example_state)) (snd example_state)
    no_status example_acks pdu e' es example_config_ok example_reachable) as [(_ & H1 & _ & H2 & rest & _ & H3)|(H & _)].
  - apply operation_okb_ok. vm_compute. reflexivity.
  - exact Hrun.
  - exists e', rest. split; [|split; [exact H1|rewrite H2; vm_compute; reflexivity]].
    rewrite H3. vm_compute in Hrun. injection Hrun as <- _ _. f_equal.
  - exfalso. apply H. split; [vm_compute; split; [reflexivity|discriminate]|]. split; [vm_compute; discriminate|]. apply Forall_nil. exact I.
Defined.


Lemma tx_am_polling_witness :
  exists pdu e' es, run_operation (op_pull_pdu no_status 100) (snd example_state) = Ok (pdu, e', es) /\ poll_bounded e'.
Proof.
  destruct (run_operation (op_pull_pdu no_status 100) (snd example_state)) as [[[pdu e'] es]|] eqn:Hrun;
    [|vm_compute in Hrun; discriminate].
  exists pdu, e', es. split; [reflexivity|].
  apply (tx_am_polling example_config false (fst (fst example_state)) (snd (fst example_state)) (snd example_state)
    no_status 100 pdu e' es example_config_ok example_reachable).
  - apply operation_okb_ok. vm_compute. reflexivity.
  - exact Hrun.
  - reflexivity.
Defined.


(** ** Behaviours outside the expectations *)

(** A status PDU that acknowledges one number too many and NACKs the SDU numbered TX_Next, of
    which nothing has been sent, passes every check of [handle_status_pdu], and processing the NACK
    accesses the window where it holds nothing: an assertion fails. *)
Theorem tx_am_nack_of_unsent_sdu_aborts :
  exists A sent e status,
    reachable example_config false A sent e /\ status_in_range e status /\ acceptable e status /\
    run_operation (op_handle_status_pdu no_status status) e = Fault FaultAssert.
Proof.
  set (os := [op_handle_sdu 1 true [0x80; 0; 11; 12] false; op_pull_pdu no_status 10]).
  set (status := set_ack_sn (fold_left push_nack [mk_nack 1 false 0 65535 false 0] (new_status_pdu am_size12bits)) 2).
  destruct (run_all os (0, [], example_entity)) as [v|] eqn:Hv; [|by vm_compute in Hv].
  exists (fst (fst v)), (snd (fst v)), (snd v), status. split; [|vm_compute in Hv; injection Hv as <-; split; [|split]].
  - apply (reachable_run _ _ os 0 [] example_entity); [by apply reachable_create|by vm_compute|done].
  - split; [by vm_compute|]. apply Forall_cons_2; [|constructor]. by vm_compute.
  - split; [by vm_compute|]. split; [by vm_compute|]. apply Forall_cons_2; [|constructor]. by vm_compute.
  - by vm_compute.
Qed.

Definition long_sdu (i : Z) : list Z := [0x80; i] ++ repeat 7 998.

Definition poll_bits (pdus : list (list Z)) : list Z :=
  map (fun pdu => match rlc_am_read_data_pdu_header pdu am_size12bits with Ok (Some h) => p h | _ => -1 end) pdus.

(** The PDUs of a sequence of operations. *)
Fixpoint pdus_of (os : list operation) (e : rlc_tx_am_entity) : list (list Z) :=
  match os with
  | [] => []
  | o :: os' => match run_operation o e with Ok (pdu, e', _) => pdu :: pdus_of os' e' | Fault _ => [] end
  end.

Definition poll_byte_config : rlc_tx_am_config :=
  {| txam_sn_field_length := am_size12bits; txam_pdcp_sn_len := pdcp_size12bits; txam_t_poll_retx := 45;
     txam_max_retx_thresh := 4; txam_poll_pdu := -1; txam_poll_byte := 1500; txam_queue_size := 16;
     txam_queue_size_bytes := 6172672; txam_max_window := 0 |}.

(** Bytes of an SDU sent in one PDU do not count towards pollByte: with pollByte 1500 and pollPDU
    off, four PDUs of 1000 bytes each go out without a poll, while an SDU is waiting. *)
Theorem tx_am_poll_byte_ignores_full_sdus :
  exists e, create poll_byte_config false = Some e /\
  let arrivals := map (fun i => op_handle_sdu i true (long_sdu i) false) (seqZ 0 5) in
  let pulls := repeat (op_pull_pdu no_status 1002) 4 in
  all_okb (arrivals ++ pulls) e = true /\
  map zlen (drop 5 (pdus_of (arrivals ++ pulls) e)) = [1002; 1002; 1002; 1002] /\
  poll_bits (drop 5 (pdus_of (arrivals ++ pulls) e)) = [0; 0; 0; 0].
Proof. eexists. split; [reflexivity|]. vm_compute. by repeat split. Qed.

Definition max_window_config : rlc_tx_am_config :=
  {| txam_sn_field_length := am_size12bits; txam_pdcp_sn_len := pdcp_size12bits; txam_t_poll_retx := 45;
     txam_max_retx_thresh := 4; txam_poll_pdu := -1; txam_poll_byte := -1; txam_queue_size := 16;
     txam_queue_size_bytes := 6172672; txam_max_window := 2 |}.

(** The PDU that exhausts the limit [max_window] carries no poll, since the polling bit is chosen
    before TX_Next moves: the entity then has an SDU to send and may not, no poll has been sent,
    t-PollRetransmit is not running, and a further pull yields nothing. *)
Theorem tx_am_max_window_stalls_without_poll :
  exists e, create max_window_config false = Some e /\
  let os := map (fun i => op_handle_sdu i true [0x80; i; 1] false) (seqZ 0 4) ++ repeat (op_pull_pdu no_status 10) 3 in
  all_okb os e = true /\ poll_bits (drop 4 (pdus_of os e)) = [0; 0; 0] /\
  match run_all os (0, [], e) with
  | Some (_, _, e') => no_new_transmission e' = true /\ is_running (poll_retransmit_timer e') = false /\
      SduQueue.is_empty (sdu_queue e') = false /\ pdus_of [op_pull_pdu no_status 10] e' = [[]]
  | None => False
  end.
Proof. eexists. split; [reflexivity|]. vm_compute. by repeat split. Qed.
