(* ===== verification/MacUlSch.v ===== *)
(** * MAC UL-SCH PDUs

    Models [lib/mac/mac_ul/mac_ul_sch_pdu.{h,cpp}] (subPDUs), [lcid_ul_sch.h], [ul_bsr.{h,cpp}] (buffer status reports) and
    [ul_phr.h] (power headroom reports).  A reader over a byte buffer is the list of the octets that are left; looking at an
    octet that is not there is a fault. *)

From S2P Require Import Prelude Effects.
Open Scope Z_scope.
Open Scope entity_scope.

(** ** Logical channel identifiers *)

Module LcidUlSch.

Definition CCCH_SIZE_64 : Z := 0.
Definition LCID1 : Z := 1.
Definition LCID32 : Z := 32.
Definition MIN_RESERVED : Z := 33.
Definition MAX_RESERVED : Z := 51.
Definition CCCH_SIZE_48 : Z := 52.
Definition BIT_RATE_QUERY : Z := 53.
Definition SE_PHR : Z := 57.
Definition CRNTI : Z := 58.
Definition SHORT_TRUNC_BSR : Z := 59.
Definition LONG_TRUNC_BSR : Z := 60.
Definition SHORT_BSR : Z := 61.
Definition LONG_BSR : Z := 62.
Definition PADDING : Z := 63.

Definition is_ccch (l : Z) : bool := (l =? CCCH_SIZE_48) || (l =? CCCH_SIZE_64).
Definition is_sdu (l : Z) : bool := (l <=? LCID32) && (LCID1 <=? l).
Definition is_valid_lcid (l : Z) : bool := (l <=? PADDING) && ((l <? MIN_RESERVED) || (MAX_RESERVED <? l)).
Definition is_var_len_ce (l : Z) : bool := (l =? LONG_TRUNC_BSR) || (l =? LONG_BSR).
Definition has_length_field (l : Z) : bool := if is_ccch l then false else is_sdu l || is_var_len_ce l.
Definition sizeof_ce (l : Z) : Z :=
  if l =? CCCH_SIZE_48 then 6 else if l =? CCCH_SIZE_64 then 8 else if l =? CRNTI then 2 else
  if (l =? SHORT_BSR) || (l =? SHORT_TRUNC_BSR) then 1 else if l =? SE_PHR then 2 else
  if (l =? LONG_BSR) || (l =? LONG_TRUNC_BSR) then 1 else 0.

End LcidUlSch.

(** ** Readers *)

Definition Reader (A : Type) : Type := M (list Z) Empty_set A.

Definition deref : Reader Z := let! r := get in match r with b :: _ => ret b | [] => abort end.
Definition advance : Reader unit := let! r := get in match r with _ :: r => modify (fun _ => r) | [] => abort end.
Definition split_and_advance (n : Z) : Reader (list Z) :=
  let! r := get in if zlen r <? n then abort else modify (drop (Z.to_nat n)) ;;; ret (take (Z.to_nat n) r).

(** The value read, whatever is left. *)
Definition run_reader {A} (m : Reader A) (buffer : list Z) : res A := match m buffer with Ok (a, _, _) => Ok a | Fault f => Fault f end.

(** ** SubPDUs *)

Module MacUlSch.
Import LcidUlSch.

Record mac_ul_sch_subpdu := mk_subpdu { lcid_val : Z; header_length : Z; F_bit : bool; payload_view : list Z }.

Definition total_length (s : mac_ul_sch_subpdu) : Z := header_length s + zlen (payload_view s).

Definition MAX_SUBPDUS_PER_PDU : Z := 4096.

(** [None]: an error is returned. *)
Definition unpack_subpdu : Reader (option mac_ul_sch_subpdu) :=
  let! subpdu_len := gets zlen in
  if subpdu_len =? 0 then ret None else
  let! b := deref in
  let F := 0 <? Z.land b 0x40 in
  let lcid := Z.land b 0x3f in
  advance ;;;
  if negb (is_valid_lcid lcid) then ret None else
  if has_length_field lcid then
    if subpdu_len <? (if F then 3 else 2) then ret None else
    let! first := deref in
    advance ;;;
    let! length :=
      (if F then let! second := deref in advance ;;; ret (Z.lor (u32 (Z.shiftl first 8)) (Z.land second 0xff), 3)
       else ret (first, 2)) in
    if subpdu_len <? u32 (snd length + fst length) then ret None else
    let! payload := split_and_advance (fst length) in
    ret (Some (mk_subpdu lcid (snd length) F payload))
  else if lcid =? PADDING then
    let! payload := get in
    modify (fun _ => []) ;;;
    ret (Some (mk_subpdu lcid 1 F payload))
  else
    if subpdu_len <? u32 (1 + sizeof_ce lcid) then ret None else
    let! payload := split_and_advance (sizeof_ce lcid) in
    ret (Some (mk_subpdu lcid 1 F payload)).

(** The answer and the list of subPDUs. *)
Definition unpack_body (subpdus : list mac_ul_sch_subpdu) : Reader (list mac_ul_sch_subpdu + bool * list mac_ul_sch_subpdu) :=
  let! r := get in
  if zlen r =? 0 then ret (inr (true, subpdus)) else
  if zlen subpdus =? MAX_SUBPDUS_PER_PDU then ret (inr (true, subpdus)) else
  let! s := unpack_subpdu in
  match s with
  | Some s => ret (inl (subpdus ++ [s]))
  | None => ret (inr (false, []))
  end.
Definition unpack (subpdus : list mac_ul_sch_subpdu) (payload : list Z) : res (bool * list mac_ul_sch_subpdu) :=
  run_reader (while_loop (S (length payload)) unpack_body subpdus) payload.

Definition INVALID_RNTI : Z := 0.

(** The host is little endian. *)
Definition decode_crnti_ce (payload : list Z) : res Z :=
  if zlen payload <? 2 then Ok INVALID_RNTI else
  run_reader (let! b0 := deref in advance ;;; let! b1 := deref in ret (u16 (Z.lor (u16 (Z.shiftl b0 8)) b1))) payload.

End MacUlSch.

(** ** Buffer status reports *)

Module UlBsr.

Inductive bsr_format := SHORT_BSR | LONG_BSR | SHORT_TRUNC_BSR | LONG_TRUNC_BSR.
#[export] Instance bsr_format_eq_dec : EqDecision bsr_format.
Proof. solve_decision. Defined.

Definition MAX_NOF_LCGS : Z := 8.

Record lcg_bsr_report := mk_bsr { lcg_id : Z; buffer_size : Z }.
#[export] Instance lcg_bsr_report_eq_dec : EqDecision lcg_bsr_report.
Proof. solve_decision. Defined.

Definition decode_sbsr (payload : list Z) : res lcg_bsr_report :=
  run_reader (let! b := deref in ret (mk_bsr (Z.shiftr (Z.land b 0xe0) 5) (Z.land b 0x1f))) payload.

Definition empty_lbsr_report : list lcg_bsr_report := map (fun i => mk_bsr i 0) (seqZ 0 MAX_NOF_LCGS).

(** The loop over the LCGs from [i] on; [None]: the report is invalid. *)
Fixpoint decode_lcgs (format : bsr_format) (bitmap : Z) (lcgs : list Z) (report : list lcg_bsr_report) : Reader (option (list lcg_bsr_report)) :=
  match lcgs with
  | [] => ret (Some report)
  | i :: lcgs =>
      if negb (Z.land bitmap (Z.shiftl 1 i) =? 0) then
        let! r := get in
        if 0 <? zlen r then
          let! size := deref in
          advance ;;;
          if size =? 255 then ret None else decode_lcgs format bitmap lcgs (report ++ [mk_bsr i size])
        else if bool_decide (format = LONG_TRUNC_BSR) then decode_lcgs format bitmap lcgs (report ++ [mk_bsr i 64])
        else ret None
      else decode_lcgs format bitmap lcgs (if bool_decide (format = LONG_TRUNC_BSR) then report ++ [mk_bsr i 0] else report)
  end.

Definition decode_lbsr (format : bsr_format) (payload : list Z) : res (option (list lcg_bsr_report)) :=
  run_reader (
    let! bitmap := deref in
    advance ;;;
    if bitmap =? 0 then ret (Some empty_lbsr_report) else decode_lcgs format bitmap (seqZ 0 MAX_NOF_LCGS) []) payload.

Definition buffer_size_levels_5bit : list Z :=
  [0; 10; 14; 20; 28; 38; 53; 74; 102; 142; 198; 276; 384; 535; 745; 1038;
   1446; 2014; 2806; 3909; 5446; 7587; 10570; 14726; 20516; 28581; 39818; 55474; 77284; 107669; 150000; 150000].

Definition buffer_size_levels_8bit : list Z :=
  [0; 10; 11; 12; 13; 14; 15; 16; 17; 18; 19; 20; 22; 23; 25; 26;
   28; 30; 32; 34; 36; 38; 40; 43; 46; 49; 52; 55; 59; 62; 66; 71;
   75; 80; 85; 91; 97; 103; 110; 117; 124; 132; 141; 150; 160; 170; 181; 193;
   205; 218; 233; 248; 264; 281; 299; 318; 339; 361; 384; 409; 436; 464; 494; 526;
   560; 597; 635; 677; 720; 767; 817; 870; 926; 987; 1051; 1119; 1191; 1269; 1351; 1439;
   1532; 1631; 1737; 1850; 1970; 2098; 2234; 2379; 2533; 2698; 2873; 3059; 3258; 3469; 3694; 3934;
   4189; 4461; 4751; 5059; 5387; 5737; 6109; 6506; 6928; 7378; 7857; 8367; 8910; 9488; 10104; 10760;
   11458; 12202; 12994; 13838; 14736; 15692; 16711; 17795; 18951; 20181; 21491; 22885; 24371; 25953; 27638; 29431;
   31342; 33376; 35543; 37850; 40307; 42923; 45709; 48676; 51836; 55200; 58784; 62599; 66663; 70990; 75598; 80505;
   85730; 91295; 97221; 103532; 110252; 117409; 125030; 133146; 141789; 150992; 160793; 171231; 182345; 194182; 206786; 220209;
   234503; 249725; 265935; 283197; 301579; 321155; 342002; 364202; 387842; 413018; 439827; 468377; 498780; 531156; 565634; 602350;
   641449; 683087; 727427; 774645; 824928; 878475; 935498; 996222; 1060888; 1129752; 1203085; 1281179; 1364342; 1452903; 1547213; 1647644;
   1754595; 1868488; 1989774; 2118933; 2256475; 2402946; 2558924; 2725027; 2901912; 3090279; 3290873; 3504487; 3731968; 3974215; 4232186; 4506902;
   4799451; 5110989; 5442750; 5796046; 6172275; 6572925; 6999582; 7453933; 7937777; 8453028; 9001725; 9586039; 10208280; 10870913; 11576557; 12328006;
   13128233; 13980403; 14887889; 15854280; 16883401; 17979324; 19146385; 20389201; 21712690; 23122088; 24622972; 26221280; 27923336; 29735875; 31666069; 33721553;
   35910462; 38241455; 40723756; 43367187; 46182206; 49179951; 52372284; 55771835; 59392055; 63247269; 67352729; 71724679; 76380419; 81338368; 81338368].

Definition max_offset : Z := 550000.

Definition buff_size_field_to_bytes (buff_size_index : Z) (format : bsr_format) : Z :=
  if buff_size_index =? 0 then 0 else
  let levels := match format with SHORT_BSR | SHORT_TRUNC_BSR => buffer_size_levels_5bit | LONG_BSR | LONG_TRUNC_BSR => buffer_size_levels_8bit end in
  let idx := buff_size_index `min` (zlen levels - 1) in
  let offset := if zlen levels - 1 <=? buff_size_index then max_offset else 0 in
  u32 (nth (Z.to_nat idx) levels 0 + offset).

End UlBsr.

(** ** Power headroom reports *)

Module UlPhr.

(** Sums of an [int] and an [unsigned] are unsigned and become [int] again in the interval. *)
Definition to_int (x : Z) : Z := if u32 x <? 2 ^ 31 then u32 x else u32 x - 2 ^ 32.

Definition ph_to_db_range (ph : Z) : Z * Z :=
  if ph =? 0 then (-32, -32) else
  if ph =? 63 then (38, 38) else
  if ph <? 55 then (to_int (-32 + ph - 1), to_int (-32 + ph)) else (to_int (-32 + ph - 1), to_int (-32 + ph + 1)).

Definition p_cmax_to_dbm_range (p_cmax : Z) : Z * Z :=
  if p_cmax =? 0 then (-29, -29) else
  if p_cmax =? 63 then (33, 33) else (to_int (-29 + p_cmax - 1), to_int (-29 + p_cmax)).

Record cell_ph_report := mk_ph { serv_cell_id : Z; ph : Z * Z; p_cmax : Z * Z }.

Definition decode_se_phr (payload : list Z) : res cell_ph_report :=
  run_reader (let! b0 := deref in advance ;;; let! b1 := deref in
    ret (mk_ph 0 (ph_to_db_range (Z.land b0 63)) (p_cmax_to_dbm_range (Z.land b1 63)))) payload.

End UlPhr.
