(* ===== verification/MacUlSchFacts.v ===== *)
(** * MAC UL-SCH PDUs: what is unpacked

    The octets of a list of subPDUs unpack to that list; whatever the octets, unpacking ends without looking outside the PDU, and what
    it accepts are the subPDUs the octets consist of.  Buffer status and power headroom reports: values and ranges. *)

From S2P Require Import Prelude Effects BitEncoding MacUlSch.
Open Scope Z_scope.
Open Scope entity_scope.

Import LcidUlSch MacUlSch.

(** ** The octets of a subPDU *)

Definition bit (b : bool) : Z := if b then 1 else 0.

Definition length_octets (s : mac_ul_sch_subpdu) : list Z :=
  if has_length_field (lcid_val s) then
    if F_bit s then [zlen (payload_view s) / 256; zlen (payload_view s) mod 256] else [zlen (payload_view s)]
  else [].

(** [r]: the reserved bit, which the receiver ignores. *)
Definition subpdu_octets (r : bool) (s : mac_ul_sch_subpdu) : list Z :=
  (bit r * 128 + bit (F_bit s) * 64 + lcid_val s) :: length_octets s ++ payload_view s.

Record subpdu_ok (s : mac_ul_sch_subpdu) : Prop := {
  so_lcid : 0 <= lcid_val s < 64;
  so_valid : is_valid_lcid (lcid_val s) = true;
  so_header : header_length s = 1 + zlen (length_octets s);
  so_bytes : Forall is_byte (payload_view s);
  so_length : if has_length_field (lcid_val s) then zlen (payload_view s) < (if F_bit s then 65536 else 256)
    else lcid_val s = PADDING \/ zlen (payload_view s) = sizeof_ce (lcid_val s)
}.

(** Padding is the last subPDU. *)
Fixpoint padding_last (l : list mac_ul_sch_subpdu) : Prop :=
  match l with [] => True | s :: l => (lcid_val s = PADDING -> l = []) /\ padding_last l end.

Definition pdu_octets (rs : list (bool * mac_ul_sch_subpdu)) : list Z := rs ≫= fun p => subpdu_octets (fst p) (snd p).

(** ** One subPDU *)

Lemma ul_first_octet r F l : 0 <= l < 64 ->
  (0 <? Z.land (bit r * 128 + bit F * 64 + l) 64) = F /\ Z.land (bit r * 128 + bit F * 64 + l) 63 = l.
Proof.
  intros Hl. rewrite land_63. split; [|destruct r, F; cbn [bit]; zmod].
  change 64 with (Z.shiftl 1 6) at 2. apply eq_true_iff_eq. rewrite Z.ltb_lt.
  set (v := bit r * 128 + bit F * 64 + l). assert (Z.land v (Z.shiftl 1 6) = if Z.testbit v 6 then 64 else 0) as ->.
  { apply Z.bits_inj'. intros i Hi. rewrite Z.land_spec, Z.shiftl_1_l. destruct (decide (i = 6)) as [->|Hne].
    - rewrite Z.pow2_bits_true by lia. destruct (Z.testbit v 6); reflexivity.
    - rewrite Z.pow2_bits_false, andb_false_r by lia. destruct (Z.testbit v 6); [|by rewrite Z.bits_0]. change 64 with (2 ^ 6). by rewrite Z.pow2_bits_false by lia. }
  assert (Z.testbit v 6 = F) as ->; [|destruct F; lia].
  rewrite Z.testbit_odd, Z.shiftr_div_pow2 by lia. change (2 ^ 6) with 64. assert (v / 64 = bit r * 2 + bit F) as -> by (unfold v; destruct r, F; cbn [bit]; zmod).
  by destruct r, F.
Qed.

Lemma second_octet n : 0 <= n < 65536 -> Z.lor (u32 (Z.shiftl (n / 256) 8)) (Z.land (n mod 256) 255) = n.
Proof.
  intros Hn. rewrite land_255, Zmod_mod, u32_small by (rewrite Z.shiftl_mul_pow2 by lia; zmod). rewrite lor_shiftl_add by zmod. zmod.
Qed.

Lemma wp_deref b r (Q : Z -> list Z -> list Empty_set -> Prop) : Q b (b :: r) [] -> wp deref Q (b :: r).
Proof. done. Qed.
Lemma wp_reader_advance b r (Q : unit -> list Z -> list Empty_set -> Prop) : Q tt r [] -> wp advance Q (b :: r).
Proof. done. Qed.
Lemma wp_split n r (Q : list Z -> list Z -> list Empty_set -> Prop) : 0 <= n <= zlen r -> Q (take (Z.to_nat n) r) (drop (Z.to_nat n) r) [] -> wp (split_and_advance n) Q r.
Proof. intros Hn HQ. unfold split_and_advance. do 2 wp_step. rewrite (proj2 (Z.ltb_ge _ _)) by lia. wp_steps. done. Qed.

Lemma run_reader_wp {A} (m : Reader A) buffer (Q : A -> Prop) : wp m (fun a _ _ => Q a) buffer -> exists a, run_reader m buffer = Ok a /\ Q a.
Proof. unfold wp, run_reader. destruct (m buffer) as [[[a r] es]|]; [eauto|done]. Qed.

Lemma sizeof_ce_small l : 0 <= sizeof_ce l <= 8.
Proof. unfold sizeof_ce. repeat (destruct (_ =? _); cbn [orb]; [lia|]). lia. Qed.

Lemma subpdu_size s : subpdu_ok s -> zlen (payload_view s) < 65536 \/ (has_length_field (lcid_val s) = false /\ lcid_val s = PADDING).
Proof.
  intros [_ _ _ _ H]. destruct (has_length_field _); [destruct (F_bit s); left; lia|]. destruct H as [H|H]; [by right|]. pose proof (sizeof_ce_small (lcid_val s)). left. lia.
Qed.

Lemma mk_subpdu_eq s h F l p : lcid_val s = l -> header_length s = h -> F_bit s = F -> payload_view s = p -> s = mk_subpdu l h F p.
Proof. intros. destruct s. simpl in *. by subst. Qed.

(** The steps of a reader up to the next test. *)
Ltac rd :=
  cbn [fst snd app negb]; cbv beta iota zeta; repeat (lazymatch goal with
    | |- wp deref _ _ => apply wp_deref
    | |- wp advance _ _ => apply wp_reader_advance
    | |- wp (bind _ _) _ _ => apply wp_bind
    | |- wp (ret _) _ _ => apply wp_ret
    | |- wp get _ _ => apply wp_get
    | |- wp (gets _) _ _ => apply wp_gets
    | |- wp (modify _) _ _ => apply wp_modify
    end; cbv beta iota zeta; cbn [fst snd app negb]).

(** What was written is read. *)
Lemma wp_unpack_written r s rest (Q : option mac_ul_sch_subpdu -> list Z -> list Empty_set -> Prop) :
  subpdu_ok s -> (lcid_val s = PADDING -> rest = []) -> zlen rest < 2 ^ 31 -> (forall es, Q (Some s) rest es) -> wp unpack_subpdu Q (subpdu_octets r s ++ rest).
Proof.
  intros Hs Hpad Hrest HQ. pose proof Hs as [H1 H2 H3 H4 H5]. pose proof (zlen_nonneg rest). pose proof (zlen_nonneg (payload_view s)).
  destruct (ul_first_octet r (F_bit s) (lcid_val s) H1) as [EF El]. unfold subpdu_octets. cbn [app]. unfold unpack_subpdu. rd.
  rewrite zlen_cons, (proj2 (Z.eqb_neq _ 0)) by (pose proof (zlen_nonneg ((length_octets s ++ payload_view s) ++ rest)); lia). rd.
  rewrite EF, El, H2. rd. rewrite <- app_assoc. unfold length_octets in *. destruct (has_length_field (lcid_val s)) eqn:Eh.
  - destruct (F_bit s) eqn:EFb; cbn [app]; rewrite ?zlen_cons, !zlen_app.
    + cbv iota. rewrite (proj2 (Z.ltb_ge _ 3)) by lia. rd. rewrite second_octet, (proj2 (Z.ltb_ge _ _)) by (rewrite ?u32_small by lia; lia). rd. apply wp_split; [rewrite zlen_app; lia|].
      rewrite take_app_zlen, drop_app_zlen by done. rd. rewrite <- (mk_subpdu_eq s 3 true (lcid_val s) (payload_view s)); [apply HQ|done|rewrite H3; done|done|done].
    + cbv iota. rewrite (proj2 (Z.ltb_ge _ 2)) by lia. rd. rewrite (proj2 (Z.ltb_ge _ _)) by (rewrite ?u32_small by lia; lia). rd. apply wp_split; [rewrite zlen_app; lia|].
      rewrite take_app_zlen, drop_app_zlen by done. rd. rewrite <- (mk_subpdu_eq s 2 false (lcid_val s) (payload_view s)); [apply HQ|done|rewrite H3; done|done|done].
  - cbn [app]. destruct (Z.eqb_spec (lcid_val s) PADDING) as [Ep|Ep].
    + rewrite (Hpad Ep), app_nil_r. rd. rewrite Hpad in HQ by done.
      rewrite <- (mk_subpdu_eq s 1 (F_bit s) (lcid_val s) (payload_view s)); [apply HQ|done|rewrite H3; done|done|done].
    + destruct H5 as [?|H5]; [done|]. pose proof (sizeof_ce_small (lcid_val s)). rewrite zlen_app, (proj2 (Z.ltb_ge _ _)) by (rewrite ?u32_small by lia; lia). rd.
      apply wp_split; [rewrite zlen_app; lia|]. rewrite <- H5, take_app_zlen, drop_app_zlen by done. rd.
      rewrite <- (mk_subpdu_eq s 1 (F_bit s) (lcid_val s) (payload_view s)); [apply HQ|done|rewrite H3; done|done|done].
Qed.

Lemma octet_split b : is_byte b -> exists r F l, 0 <= l < 64 /\ b = bit r * 128 + bit F * 64 + l.
Proof.
  unfold is_byte. intros Hb. exists (128 <=? b), (64 <=? b mod 128), (b mod 64). split; [zmod|].
  destruct (Z.leb_spec 128 b), (Z.leb_spec 64 (b mod 128)); cbn [bit]; zmod.
Qed.

(** The subPDU read consists of the octets read. *)
Definition is_read (buf : list Z) (o : option mac_ul_sch_subpdu) (rest : list Z) : Prop :=
  forall s, o = Some s -> subpdu_ok s /\ (exists r, buf = subpdu_octets r s ++ rest) /\ (lcid_val s = PADDING -> rest = []).

Lemma is_read_split r F l buf n s : 0 <= l < 64 -> is_valid_lcid l = true -> Forall is_byte buf -> 0 <= n <= zlen buf -> 
  s = mk_subpdu l (header_length s) F (take (Z.to_nat n) buf) -> header_length s = 1 + zlen (length_octets s) ->
  (if has_length_field l then n < (if F then 65536 else 256) else l <> PADDING /\ n = sizeof_ce l) ->
  is_read ((bit r * 128 + bit F * 64 + l) :: length_octets s ++ buf) (Some s) (drop (Z.to_nat n) buf).
Proof.
  intros Hl Hv Hb Hn -> Hh Hlen ? [= <-]. assert (zlen (take (Z.to_nat n) buf) = n) as Et by (rewrite zlen_take by lia; lia).
  split; [|split].
  - constructor; cbn [lcid_val F_bit payload_view header_length]; [done|done|exact Hh|by apply Forall_take|]. rewrite Et. destruct (has_length_field l); [done|]. right. by destruct Hlen.
  - exists r. unfold subpdu_octets. cbn [F_bit lcid_val payload_view app]. by rewrite <- app_assoc, take_drop.
  - cbn [lcid_val]. intros ->. change (has_length_field PADDING) with false in Hlen. by destruct Hlen.
Qed.

(** Whatever the octets: no access outside them, and what is read are the octets. *)
Lemma wp_unpack_any buf (Q : option mac_ul_sch_subpdu -> list Z -> list Empty_set -> Prop) : Forall is_byte buf -> zlen buf < 2 ^ 31 ->
  (forall o rest es, is_read buf o rest -> Q o rest es) -> wp unpack_subpdu Q buf.
Proof.
  intros Hb Hl HQ. assert (forall rest es, Q None rest es) as HN by (intros; apply HQ; done). unfold unpack_subpdu. rd.
  destruct buf as [|b buf]; [rd; apply HN|]. apply Forall_cons in Hb as [Hb Hbuf]. rewrite zlen_cons in *. pose proof (zlen_nonneg buf). rewrite (proj2 (Z.eqb_neq _ 0)) by lia. rd.
  destruct (octet_split b Hb) as (r & F & l & Hll & ->). destruct (ul_first_octet r F l Hll) as [-> ->]. destruct (is_valid_lcid l) eqn:Ev; rd; [|apply HN].
  destruct (has_length_field l) eqn:Eh.
  - destruct F.
    + destruct (Z.ltb_spec (zlen buf + 1) 3); rd; [apply HN|]. destruct buf as [|b1 [|b2 buf]]; [unfold zlen in *; cbn [length] in *; lia|unfold zlen in *; cbn [length] in *; lia|]. rd. apply Forall_cons in Hbuf as [H1 [H2 Hbuf]%Forall_cons].
      unfold is_byte in H1, H2. rewrite !zlen_cons in *. pose proof (zlen_nonneg buf). set (n := Z.lor _ _). assert (n = b1 * 256 + b2) as En.
      { unfold n. rewrite land_255, Z.mod_small, u32_small, lor_shiftl_add by (rewrite ?Z.shiftl_mul_pow2 by lia; lia). done. }
      destruct (Z.ltb_spec (zlen buf + 1 + 1 + 1) (u32 (3 + n))) as [|Hn]; rd; [apply HN|]. rewrite u32_small in Hn by lia. apply wp_split; [lia|]. rd. apply HQ.
      assert (zlen (take (Z.to_nat n) buf) = n) as Et by (rewrite zlen_take by lia; lia). set (s := mk_subpdu _ _ _ _).
      assert (length_octets s = [b1; b2]) as EL by (unfold length_octets, s; cbn [lcid_val F_bit payload_view]; rewrite Eh, Et, En; f_equal; [|f_equal]; zmod).
      change (b1 :: b2 :: buf) with ([b1; b2] ++ buf). rewrite <- EL. apply is_read_split; [done|done|done|lia|done|by rewrite EL|rewrite Eh; lia].
    + destruct (Z.ltb_spec (zlen buf + 1) 2); rd; [apply HN|]. destruct buf as [|b1 buf]; [unfold zlen in *; cbn [length] in *; lia|]. rd. apply Forall_cons in Hbuf as [H1 Hbuf].
      unfold is_byte in H1. rewrite !zlen_cons in *. pose proof (zlen_nonneg buf).
      destruct (Z.ltb_spec (zlen buf + 1 + 1) (u32 (2 + b1))) as [|Hn]; rd; [apply HN|]. rewrite u32_small in Hn by lia. apply wp_split; [lia|]. rd. apply HQ.
      assert (zlen (take (Z.to_nat b1) buf) = b1) as Et by (rewrite zlen_take by lia; lia). set (s := mk_subpdu _ _ _ _).
      assert (length_octets s = [b1]) as EL by (unfold length_octets, s; cbn [lcid_val F_bit payload_view]; by rewrite Eh, Et).
      change (b1 :: buf) with ([b1] ++ buf). rewrite <- EL. apply is_read_split; [done|done|done|lia|done|by rewrite EL|rewrite Eh; lia].
  - destruct (Z.eqb_spec l PADDING) as [->|Hp].
    + rd. apply HQ. intros ? [= <-]. split; [constructor; [done|done|done|done|by left]|]. split; [|done]. exists r. unfold subpdu_octets. cbn. by rewrite app_nil_r.
    + pose proof (sizeof_ce_small l). destruct (Z.ltb_spec (zlen buf + 1) (u32 (1 + sizeof_ce l))) as [|Hn]; rd; [apply HN|]. rewrite u32_small in Hn by lia. apply wp_split; [lia|]. rd. apply HQ.
      set (s := mk_subpdu _ _ _ _). assert (length_octets s = []) as EL by (unfold length_octets, s; cbn [lcid_val]; by rewrite Eh).
      change buf with ([] ++ buf) at 1. rewrite <- EL. apply is_read_split; [done|done|done|lia|done|by rewrite EL|rewrite Eh; by split].
Qed.

(** ** The PDU *)

Lemma pdu_octets_app a b : pdu_octets (a ++ b) = pdu_octets a ++ pdu_octets b.
Proof. apply bind_app. Qed.
Lemma pdu_octets_cons p l : pdu_octets (p :: l) = subpdu_octets (fst p) (snd p) ++ pdu_octets l.
Proof. done. Qed.

Lemma subpdu_octets_nonempty r s : 1 <= zlen (subpdu_octets r s).
Proof. unfold subpdu_octets. rewrite zlen_cons. pose proof (zlen_nonneg (length_octets s ++ payload_view s)). lia. Qed.

(** What the loop has read so far are octets of the PDU; nothing is left or the list is full. *)
Record loop_read (buffer : list Z) (n : nat) (subpdus : list mac_ul_sch_subpdu) (left : list Z) : Prop := {
  lr_fuel : zlen left < Z.of_nat n;
  lr_octets : exists rs, subpdus = map snd rs /\ buffer = pdu_octets rs ++ left;
  lr_ok : Forall subpdu_ok subpdus;
  lr_max : zlen subpdus <= MAX_SUBPDUS_PER_PDU;
  lr_padding : forall s l, subpdus = l ++ [s] -> lcid_val s = PADDING -> left = [];
  lr_last : padding_last subpdus
}.

Lemma padding_last_snoc l s : padding_last l -> Forall (fun s => lcid_val s <> PADDING) l -> padding_last (l ++ [s]).
Proof. induction l as [|x l IH]; intros Hl Hn; [done|]. apply Forall_cons in Hn as [Hx Hn]. destruct Hl as [_ Hl]. split; [done|by apply IH]. Qed.

Lemma padding_last_init l : padding_last l -> (forall s l', l = l' ++ [s] -> lcid_val s <> PADDING) -> Forall (fun s => lcid_val s <> PADDING) l.
Proof.
  induction l as [|x l IH]; intros Hl Hs; [done|]. destruct Hl as [Hx Hl]. apply Forall_cons. split.
  - intros E. specialize (Hx E). subst l. by apply (Hs x []).
  - apply IH; [done|]. intros s l' ->. by apply (Hs s (x :: l')).
Qed.

Lemma wp_unpack_loop buffer : Forall is_byte buffer -> zlen buffer < 2 ^ 31 ->
  wp (while_loop (S (length buffer)) unpack_body []) (fun r _ _ =>
    if fst r then exists rs left, snd r = map snd rs /\ buffer = pdu_octets rs ++ left /\ Forall subpdu_ok (snd r) /\ padding_last (snd r) /\
      zlen (snd r) <= MAX_SUBPDUS_PER_PDU /\ (left = [] \/ zlen (snd r) = MAX_SUBPDUS_PER_PDU)
    else snd r = []) buffer.
Proof.
  intros Hb Hl. apply (wp_while_loop (fun n subpdus left _ => loop_read buffer n subpdus left)).
  - constructor; [unfold zlen; lia|by exists []|done|done|intros s [|? ?]; done|done].
  - intros i s es [H _ _ _ _ _]. pose proof (zlen_nonneg s). lia.
  - intros n subpdus left es [L1 (rs & L2 & L3) L4 L5 L6 L7]. unfold unpack_body. rd. destruct (Z.eqb_spec (zlen left) 0) as [E|Hne].
    { rd. apply zlen_zero_nil in E. exists rs, left. auto 8. }
    destruct (Z.eqb_spec (zlen subpdus) MAX_SUBPDUS_PER_PDU) as [E|Hm]; [rd; exists rs, left; auto 8|].
    assert (left <> []) as Hleft by (intros ->; done). rd. rewrite L3 in Hb, Hl. apply Forall_app in Hb as [_ Hb]. rewrite zlen_app in Hl. pose proof (zlen_nonneg (pdu_octets rs)).
    apply wp_unpack_any; [done|lia|]. intros [s|] rest es' Hread; cbv iota; [|rd; done]. rd. destruct (Hread s eq_refl) as (Hs & (r & Er) & Hp). pose proof (subpdu_octets_nonempty r s).
    assert (zlen left = zlen (subpdu_octets r s) + zlen rest) as El by (rewrite Er; apply zlen_app). constructor.
    + lia.
    + exists (rs ++ [(r, s)]). rewrite map_app, pdu_octets_app. cbn [map snd]. split; [congruence|]. rewrite pdu_octets_cons. cbn [fst snd pdu_octets mbind list_bind]. rewrite app_nil_r, <- app_assoc. congruence.
    + by apply Forall_app; split; [|apply Forall_singleton].
    + rewrite zlen_app. change (zlen [s]) with 1. lia.
    + intros s' l' [_ <-]%app_inj_tail. done.
    + apply padding_last_snoc; [done|]. apply padding_last_init; [done|]. intros s' l' E Ep. by apply Hleft, (L6 s' l').
Qed.

(** *** The format of TS 38.321 *)

(** What Table 6.2.1-2 and clause 6.1.3 of TS 38.321 (release 15) say of the size of a subPDU of the UL-SCH: an explicit length field, a fixed number
    of octets, or all that is left.  The identities 33 to 51 are reserved. *)
Inductive ul_sch_size := Explicit | Octets (n : Z) | Remainder.

Definition standard_size (l : Z) : option ul_sch_size :=
  if l =? 0 then Some (Octets 8) else if (1 <=? l) && (l <=? 32) then Some Explicit else
  match l with
  | 52 => Some (Octets 6)
  | 53 => Some (Octets 2)
  | 54 | 56 => Some Explicit
  | 55 => Some (Octets 0)
  | 57 | 58 => Some (Octets 2)
  | 59 | 61 => Some (Octets 1)
  | 60 | 62 => Some Explicit
  | 63 => Some Remainder
  | _ => None
  end.

(** The recommended bit rate query and the multiple entry PHRs, to which the code gives the size 0. *)
Definition misread (l : Z) : bool := (l =? 53) || (l =? 54) || (l =? 56).

Definition standard_subpdu (s : mac_ul_sch_subpdu) : Prop :=
  0 <= lcid_val s < 64 /\ Forall is_byte (payload_view s) /\
  match standard_size (lcid_val s) with
  | Some Explicit => if F_bit s then header_length s = 3 /\ zlen (payload_view s) < 65536 else header_length s = 2 /\ zlen (payload_view s) < 256
  | Some (Octets n) => header_length s = 1 /\ zlen (payload_view s) = n
  | Some Remainder => header_length s = 1
  | None => False
  end.

Definition standard_octets (r : bool) (s : mac_ul_sch_subpdu) : list Z :=
  (bit r * 128 + bit (F_bit s) * 64 + lcid_val s) ::
  match standard_size (lcid_val s) with
  | Some Explicit => if F_bit s then [zlen (payload_view s) / 256; zlen (payload_view s) mod 256] else [zlen (payload_view s)]
  | _ => []
  end ++ payload_view s.

(** The octets a subPDU was read from: those of the standard, and of the three kinds above the first octet alone. *)
Definition octets_read (p : bool * mac_ul_sch_subpdu) : list Z :=
  if misread (lcid_val (snd p)) then [bit (fst p) * 128 + bit (F_bit (snd p)) * 64 + lcid_val (snd p)] else standard_octets (fst p) (snd p).

(** The table of the code is the standard's, the three kinds aside. *)
Lemma table_standard l : 0 <= l < 64 -> misread l = false ->
  standard_size l = if negb (is_valid_lcid l) then None else if has_length_field l then Some Explicit else if l =? PADDING then Some Remainder else Some (Octets (sizeof_ce l)).
Proof.
  intros Hl Hm. assert (forall x, 0 <= x < 64 -> (fun x => misread x || match standard_size x, (if negb (is_valid_lcid x) then None else if has_length_field x then Some Explicit
    else if x =? PADDING then Some Remainder else Some (Octets (sizeof_ce x))) with
    | Some (Octets n), Some (Octets m) => n =? m | Some Explicit, Some Explicit | Some Remainder, Some Remainder | None, None => true | _, _ => false end) x = true) as G
    by (apply range_forall; vm_compute; reflexivity).
  specialize (G l Hl). cbv beta in G. rewrite Hm in G. cbn [orb] in G. destruct (standard_size l) as [[]|], (if negb _ then _ else _) as [[]|]; try done. by apply Z.eqb_eq in G as ->.
Qed.

Lemma subpdu_ok_standard s : misread (lcid_val s) = false -> subpdu_ok s <-> standard_subpdu s.
Proof.
  intros Hm. unfold standard_subpdu. split.
  - intros [H1 H2 H3 H4 H5]. rewrite (table_standard _ H1 Hm), H2. cbn [negb]. unfold length_octets in H3. destruct (has_length_field _); [destruct (F_bit s); done|].
    destruct (Z.eqb_spec (lcid_val s) PADDING); [done|]. destruct H5; [done|]. done.
  - intros (H1 & H2 & H3). rewrite (table_standard _ H1 Hm) in H3. destruct (is_valid_lcid (lcid_val s)) eqn:Ev; cbn [negb] in H3; [|done].
    constructor; [done|done| |done|]; unfold length_octets; (destruct (has_length_field _); [by destruct (F_bit s), H3|]); (destruct (Z.eqb_spec (lcid_val s) PADDING); [by auto|]); destruct H3; auto.
Qed.

Lemma subpdu_octets_standard r s : subpdu_ok s -> misread (lcid_val s) = false -> subpdu_octets r s = standard_octets r s.
Proof.
  intros [H1 H2 _ _ _] Hm. unfold subpdu_octets, standard_octets, length_octets. rewrite (table_standard _ H1 Hm), H2. cbn [negb].
  destruct (has_length_field _); [done|]. by destruct (lcid_val s =? PADDING).
Qed.

Lemma subpdu_misread r s : subpdu_ok s -> misread (lcid_val s) = true -> header_length s = 1 /\ payload_view s = [] /\ subpdu_octets r s = octets_read (r, s).
Proof.
  intros [_ _ H3 _ H5] Hm. unfold octets_read, subpdu_octets, length_octets in *. cbn [fst snd]. rewrite Hm.
  assert (lcid_val s = 53 \/ lcid_val s = 54 \/ lcid_val s = 56) as [E|[E|E]] by (unfold misread in Hm; bool_prop; lia); rewrite E in *; (destruct H5 as [|H5]; [done|]);
    apply zlen_zero_nil in H5; rewrite H5; done.
Qed.

Lemma octets_read_eq p : subpdu_ok (snd p) -> subpdu_octets (fst p) (snd p) = octets_read p.
Proof.
  destruct p as [r s]. cbn [fst snd]. intros Hs. destruct (misread (lcid_val s)) eqn:Em; [by apply subpdu_misread|]. unfold octets_read. cbn [fst snd]. rewrite Em. by apply subpdu_octets_standard.
Qed.

Lemma pdu_octets_read rs : Forall subpdu_ok (map snd rs) -> pdu_octets rs = rs ≫= octets_read.
Proof.
  induction rs as [|p rs IH]; [done|]. intros [Hp Hrs]%Forall_cons. rewrite pdu_octets_cons, octets_read_eq, IH by done. done.
Qed.

(** *** What is accepted *)

Lemma wp_unpack_rest rs : forall n done_ (Q : bool * list mac_ul_sch_subpdu -> list Z -> list Empty_set -> Prop), Forall subpdu_ok (map snd rs) -> padding_last (map snd rs) ->
  zlen done_ + zlen rs <= MAX_SUBPDUS_PER_PDU -> zlen (pdu_octets rs) < 2 ^ 31 -> (length (pdu_octets rs) < n)%nat -> (forall es, Q (true, done_ ++ map snd rs) [] es) ->
  wp (while_loop n unpack_body done_) Q (pdu_octets rs).
Proof.
  induction rs as [|[r s] rs IH]; intros n done_ Q Hok Hpad Hmax Hl Hn HQ; (destruct n as [|n]; [lia|]); cbn [while_loop]; unfold unpack_body at 1.
  - rd. cbn [map] in HQ. rewrite app_nil_r in HQ. apply HQ.
  - cbn [map snd] in *. apply Forall_cons in Hok as [Hs Hok]. destruct Hpad as [Hp Hpad]. rewrite pdu_octets_cons in *. cbn [fst snd] in *. pose proof (subpdu_octets_nonempty r s).
    rewrite zlen_app in Hl. pose proof (zlen_nonneg (pdu_octets rs)). rewrite zlen_cons in Hmax. pose proof (zlen_nonneg rs). rd.
    rewrite zlen_app, (proj2 (Z.eqb_neq _ 0)) by lia. rd. rewrite (proj2 (Z.eqb_neq _ _)) by lia. rd. apply wp_unpack_written; [done| |lia|].
    { intros E. specialize (Hp E). apply map_eq_nil in Hp. by subst rs. }
    intros es. rd. apply IH; [done|done|rewrite zlen_app; change (zlen [s]) with 1; lia|lia| |].
    + rewrite length_app in Hn. unfold zlen in *. lia.
    + intros es'. rewrite <- app_assoc. apply HQ.
Qed.

Lemma unpack_written rs : Forall subpdu_ok (map snd rs) -> padding_last (map snd rs) -> zlen rs <= MAX_SUBPDUS_PER_PDU -> zlen (pdu_octets rs) < 2 ^ 31 ->
  unpack [] (pdu_octets rs) = Ok (true, map snd rs).
Proof.
  intros Hok Hpad Hmax Hl. destruct (run_reader_wp (while_loop (S (length (pdu_octets rs))) unpack_body []) (pdu_octets rs) (fun r => r = (true, map snd rs))) as (r & E & ->); [|exact E].
  apply wp_unpack_rest; [done|done|done|done|lia|done].
Qed.

Lemma standard_pdu rs : Forall (fun s => misread (lcid_val s) = false /\ standard_subpdu s) (map snd rs) -> (rs ≫= fun p => standard_octets (fst p) (snd p)) = pdu_octets rs.
Proof.
  induction rs as [|p rs IH]; [done|]. intros [[Hm Hp] Hrs]%Forall_cons. rewrite pdu_octets_cons, subpdu_octets_standard by (try apply subpdu_ok_standard; done). rewrite <- IH by done. done.
Qed.

(** C20: Whatever octets a MAC PDU has, unpacking ends and looks at no octet outside it.  What it accepts are the subPDUs of which the PDU consists by
    TS 38.321 (reserved bits aside): each has a valid LCID and the length its header or its kind says, padding comes last, and there
    are at most 4096; octets are left over only behind 4096 of them.  When it rejects a PDU all subPDUs are dropped, and the PDU does not consist of
    subPDUs of the standard.  The recommended bit rate query and the multiple entry PHRs are excepted: what is read of them is their first octet. *)
Theorem ul_sch_unpack_exact buffer : Forall is_byte buffer -> zlen buffer < 2 ^ 31 -> exists accepted subpdus, unpack [] buffer = Ok (accepted, subpdus) /\
  if accepted : bool then exists rs left, subpdus = map snd rs /\ buffer = (rs ≫= octets_read) ++ left /\
    Forall (fun s => if misread (lcid_val s) then header_length s = 1 /\ payload_view s = [] else standard_subpdu s) subpdus /\ padding_last subpdus /\
    zlen subpdus <= MAX_SUBPDUS_PER_PDU /\ (left = [] \/ zlen subpdus = MAX_SUBPDUS_PER_PDU)
  else subpdus = [] /\ forall rs, Forall (fun s => misread (lcid_val s) = false /\ standard_subpdu s) (map snd rs) -> padding_last (map snd rs) -> zlen rs <= MAX_SUBPDUS_PER_PDU ->
    buffer <> rs ≫= fun p => standard_octets (fst p) (snd p).
Proof.
  intros Hb Hl. destruct (run_reader_wp _ _ _ (wp_unpack_loop buffer Hb Hl)) as ([accepted subpdus] & E & H). exists accepted, subpdus. split; [done|]. cbn [fst snd] in H. destruct accepted.
  - destruct H as (rs & left_ & -> & -> & Hok & H). exists rs, left_. split; [done|]. split; [by rewrite pdu_octets_read|]. split; [|done].
    eapply Forall_impl; [exact Hok|]. intros s Hs. destruct (misread (lcid_val s)) eqn:Em; [|by apply subpdu_ok_standard].
    by destruct (subpdu_misread false s Hs Em) as (? & ? & _).
  - split; [done|]. intros rs Hrs Hpad Hmax ->. assert (Forall subpdu_ok (map snd rs)) as Hok by (eapply Forall_impl; [exact Hrs|]; intros s [Hm Hs]; by apply subpdu_ok_standard).
    rewrite (standard_pdu rs Hrs) in E, Hl. pose proof (unpack_written rs Hok Hpad Hmax Hl) as Ew. unfold unpack in Ew. congruence.
Qed.

Lemma ul_sch_unpack_exact_witness : exists accepted subpdus, unpack [] [0x3d; 0x45; 0x01; 0x02; 0xaa; 0xbb; 0x3f; 0; 0] = Ok (accepted, subpdus) /\
  if accepted : bool then subpdus = [mk_subpdu 61 1 false [0x45]; mk_subpdu 1 2 false [0xaa; 0xbb]; mk_subpdu 63 1 false [0; 0]] else False.
Proof.
  destruct (ul_sch_unpack_exact [0x3d; 0x45; 0x01; 0x02; 0xaa; 0xbb; 0x3f; 0; 0]) as (a & l & H & _).
  - repeat (apply Forall_cons; split; [by split|]). apply Forall_nil. exact I.
  - reflexivity.
  - exists a, l. split; [exact H|]. vm_compute in H. injection H as <- <-. reflexivity.
Defined.

(** Round trip: the octets of subPDUs with valid LCIDs and lengths, padding last and at most 4096, unpack to these subPDUs, whatever
    the reserved bits. *)
Theorem ul_sch_roundtrip rs : Forall subpdu_ok (map snd rs) -> padding_last (map snd rs) -> zlen rs <= MAX_SUBPDUS_PER_PDU -> zlen (pdu_octets rs) < 2 ^ 31 ->
  unpack [] (pdu_octets rs) = Ok (true, map snd rs).
Proof. apply unpack_written. Qed.

Definition ul_sch_example : list (bool * mac_ul_sch_subpdu) :=
  [(false, mk_subpdu SHORT_BSR 1 false [0x45]); (true, mk_subpdu 4 2 false [1; 2; 3]); (false, mk_subpdu 1 3 true [9]); (false, mk_subpdu PADDING 1 false [0; 0])].

Lemma ul_sch_example_ok : Forall subpdu_ok (map snd ul_sch_example).
Proof.
  repeat (apply Forall_cons; split; [constructor; [by split|done|done|repeat (apply Forall_cons; split; [by split|]); apply Forall_nil; exact I|first [right; vm_compute; reflexivity|left; reflexivity|vm_compute; reflexivity]]|]). apply Forall_nil. exact I.
Defined.

Lemma ul_sch_roundtrip_witness : unpack [] (pdu_octets ul_sch_example) = Ok (true, map snd ul_sch_example).
Proof.
  apply (ul_sch_roundtrip ul_sch_example); [exact ul_sch_example_ok| |vm_compute; congruence|vm_compute; reflexivity].
  repeat (split; [intros E; vm_compute in E; try discriminate E; reflexivity|]). exact I.
Defined.

(** ** Buffer status reports *)

Section bsr.
Import UlBsr.

(** The LCGs whose bit is set. *)
Definition marked (bitmap : Z) (lcgs : list Z) : list Z := filter (fun i => negb (Z.land bitmap (Z.shiftl 1 i) =? 0)) lcgs.

Lemma marked_cons bitmap i lcgs : marked bitmap (i :: lcgs) = if negb (Z.land bitmap (Z.shiftl 1 i) =? 0) then i :: marked bitmap lcgs else marked bitmap lcgs.
Proof. unfold marked. rewrite filter_cons. by destruct (negb _). Qed.

Lemma wp_decode_long bitmap lcgs : forall sizes rest report (Q : option (list lcg_bsr_report) -> list Z -> list Empty_set -> Prop),
  length sizes = length (marked bitmap lcgs) -> Forall (fun v => v <> 255) sizes -> (forall es, Q (Some (report ++ zip_with mk_bsr (marked bitmap lcgs) sizes)) rest es) ->
  wp (decode_lcgs LONG_BSR bitmap lcgs report) Q (sizes ++ rest).
Proof.
  induction lcgs as [|i lcgs IH]; intros sizes rest report Q Hlen Hv HQ; cbn [decode_lcgs].
  - destruct sizes; [|done]. rd. specialize (HQ []). by rewrite app_nil_r in HQ.
  - rewrite marked_cons in *. destruct (negb _).
    + destruct sizes as [|v sizes]; [done|]. apply Forall_cons in Hv as [Hv Hvs]. cbn [app]. rd. pose proof (zlen_nonneg (sizes ++ rest)). rewrite zlen_cons, (proj2 (Z.ltb_lt _ _)) by lia. rd.
      rewrite (proj2 (Z.eqb_neq _ _) Hv). cbv iota. apply IH; [cbn in Hlen; lia|done|]. intros es. rewrite <- app_assoc. apply HQ.
    + rewrite bool_decide_eq_false_2 by done. by apply IH.
Qed.

(** A long BSR: the sizes that follow the bitmap belong to the LCGs whose bits are set, in this order. *)
Lemma decode_lbsr_long bitmap sizes rest : bitmap <> 0 -> length sizes = length (marked bitmap (seqZ 0 MAX_NOF_LCGS)) -> Forall (fun v => v <> 255) sizes ->
  decode_lbsr LONG_BSR (bitmap :: sizes ++ rest) = Ok (Some (zip_with mk_bsr (marked bitmap (seqZ 0 MAX_NOF_LCGS)) sizes)).
Proof.
  intros Hb Hlen Hv. unfold decode_lbsr. destruct (run_reader_wp (let! bitmap := deref in advance ;;; if bitmap =? 0 then ret (Some empty_lbsr_report) else decode_lcgs LONG_BSR bitmap (seqZ 0 MAX_NOF_LCGS) [])
    (bitmap :: sizes ++ rest) (fun o => o = Some (zip_with mk_bsr (marked bitmap (seqZ 0 MAX_NOF_LCGS)) sizes))) as (o & E & ->); [|exact E].
  rd. rewrite (proj2 (Z.eqb_neq _ _) Hb). cbv iota. by apply wp_decode_long.
Qed.

Definition report_ok (n : Z) (l : list lcg_bsr_report) : Prop := Forall (fun r => 0 <= lcg_id r < 8 /\ 0 <= buffer_size r < 255) l /\ zlen l <= n.

Lemma wp_decode_any format bitmap lcgs : forall rest report n (Q : option (list lcg_bsr_report) -> list Z -> list Empty_set -> Prop),
  Forall is_byte rest -> Forall (fun i => 0 <= i < 8) lcgs -> report_ok n report -> (forall o r es, (forall l, o = Some l -> report_ok (n + zlen lcgs) l) -> Q o r es) ->
  wp (decode_lcgs format bitmap lcgs report) Q rest.
Proof.
  induction lcgs as [|i lcgs IH]; intros rest report n Q Hr Hi Hrep HQ; cbn [decode_lcgs].
  - rd. apply HQ. intros l [= <-]. by rewrite Z.add_0_r.
  - apply Forall_cons in Hi as [Hi His]. assert (forall v, 0 <= v < 255 -> report_ok (n + 1) (report ++ [mk_bsr i v])) as Hsnoc.
    { intros v Hv. destruct Hrep as [H1 H2]. split; [by apply Forall_app; split; [|apply Forall_singleton]|]. rewrite zlen_app. change (zlen [mk_bsr i v]) with 1. lia. }
    assert (report_ok (n + 1) report) as Hw by (destruct Hrep; split; [done|lia]).
    assert (forall rest report, Forall is_byte rest -> report_ok (n + 1) report -> wp (decode_lcgs format bitmap lcgs report) Q rest) as Hgo.
    { intros rest' report' H1 H2. apply (IH _ _ (n + 1)); [done|done|done|]. intros o r es Ho. apply HQ. intros l Hl. rewrite zlen_cons. replace (n + (zlen lcgs + 1)) with (n + 1 + zlen lcgs) by lia. auto. }
    destruct (negb _); [|destruct (bool_decide _); apply Hgo; [done|by apply Hsnoc|done|done]]. rd. destruct rest as [|v rest].
    + change (0 <? zlen (@nil Z)) with false. cbv iota. destruct (bool_decide _); [by apply Hgo, Hsnoc|]. rd. by apply HQ.
    + apply Forall_cons in Hr as [Hv Hr]. unfold is_byte in Hv. pose proof (zlen_nonneg rest). rewrite zlen_cons, (proj2 (Z.ltb_lt _ _)) by lia. rd. destruct (Z.eqb_spec v 255); rd; [by apply HQ|]. apply Hgo; [done|]. apply Hsnoc. lia.
Qed.

(** A report that is not empty is decoded without a fault, at most one entry for each of the eight LCGs. *)
Lemma decode_lbsr_any format payload : Forall is_byte payload -> payload <> [] -> exists o, decode_lbsr format payload = Ok o /\ forall l, o = Some l -> report_ok 8 l.
Proof.
  intros Hb Hne. destruct payload as [|bitmap payload]; [done|]. apply Forall_cons in Hb as [_ Hb]. unfold decode_lbsr. apply run_reader_wp. rd. destruct (bitmap =? 0); rd.
  - intros l [= <-]. split; [|done]. repeat (apply Forall_cons; split; [cbn; lia|]). apply Forall_nil. exact I.
  - apply (wp_decode_any _ _ _ _ _ 0); [done| |by split|done]. repeat (apply Forall_cons; split; [lia|]). apply Forall_nil. exact I.
Qed.

(** An empty one reads behind its end. *)
Lemma decode_lbsr_empty format : decode_lbsr format [] = Fault FaultAssert.
Proof. reflexivity. Qed.

Lemma decode_sbsr_any payload : Forall is_byte payload -> payload <> [] -> exists r, decode_sbsr payload = Ok r /\ 0 <= lcg_id r < 8 /\ 0 <= buffer_size r < 32.
Proof.
  intros Hb Hne. destruct payload as [|b payload]; [done|]. apply Forall_cons in Hb as [Hb _]. eexists. split; [reflexivity|]. cbn [lcg_id buffer_size]. clear Hne.
  revert b Hb. assert (forall b, 0 <= b < 256 -> (fun b => (0 <=? Z.shiftr (Z.land b 224) 5) && (Z.shiftr (Z.land b 224) 5 <? 8) && (0 <=? Z.land b 31) && (Z.land b 31 <? 32)) b = true) as H by (by apply byte_forall).
  intros b Hb. specialize (H b Hb). cbv beta in H. bool_prop. lia.
Qed.

(** The sizes grow with the index and fit 32 bits. *)
Fixpoint increasing (l : list Z) : bool := match l with x :: ((y :: _) as l') => (x <? y) && increasing l' | _ => true end.

Lemma increasing_nth l : increasing l = true -> forall j i, (i < j < length l)%nat -> nth i l 0 < nth j l 0.
Proof.
  induction l as [|x [|y l] IH]; intros Hl j i Hij; [cbn in Hij; lia|cbn in Hij; lia|]. apply andb_true_iff in Hl as [Hxy%Z.ltb_lt Hl]. cbn [length] in Hij. destruct j as [|j]; [lia|].
  assert (forall j, (j < S (length l))%nat -> x < nth j (y :: l) 0) as Hx.
  { intros [|k] Hk; [done|]. etrans; [exact Hxy|]. apply (IH Hl (S k) 0%nat). cbn [length]. lia. }
  destruct i as [|i]; [apply Hx; lia|]. apply (IH Hl j i). cbn [length]. lia.
Qed.

Lemma sizes_of_levels format : let n := match format with SHORT_BSR | SHORT_TRUNC_BSR => 32 | _ => 255 end in
  increasing (map (fun i => buff_size_field_to_bytes i format) (seqZ 0 n)) = true.
Proof. destruct format; vm_compute; reflexivity. Qed.

Theorem buff_size_monotone format i j : let n := match format with SHORT_BSR | SHORT_TRUNC_BSR => 32 | _ => 255 end in
  0 <= i < j -> j < n -> buff_size_field_to_bytes i format < buff_size_field_to_bytes j format.
Proof.
  intros n Hij Hj. pose proof (increasing_nth _ (sizes_of_levels format) (Z.to_nat j) (Z.to_nat i)) as H. cbv zeta in H. fold n in H. rewrite length_map, length_seqZ in H.
  assert (forall k, 0 <= k < n -> nth (Z.to_nat k) (map (fun i => buff_size_field_to_bytes i format) (seqZ 0 n)) 0 = buff_size_field_to_bytes k format) as Hn.
  { intros k Hk. rewrite nth_lookup, list_lookup_fmap, (proj2 (lookup_seqZ 0 n (Z.to_nat k) k)) by lia. done. }
  rewrite !Hn in H by lia. apply H. lia.
Qed.

Lemma buff_size_monotone_witness : buff_size_field_to_bytes 253 LONG_BSR < buff_size_field_to_bytes 254 LONG_BSR.
Proof. apply (buff_size_monotone LONG_BSR 253 254); lia. Defined.

End bsr.

(** ** Power headroom reports *)

Section phr.
Import UlPhr.

(** Table 10.1.17.1-1 of TS 38.133: from 22 dB on, the intervals are two dB wide. *)
Definition ph_table (ph : Z) : Z * Z :=
  if ph =? 0 then (-32, -32) else if ph =? 63 then (38, 38) else
  if ph <? 55 then (ph - 33, ph - 32) else (22 + 2 * (ph - 55), 24 + 2 * (ph - 55)).

Lemma ph_range_table ph : 0 <= ph <= 55 \/ ph = 63 -> ph_to_db_range ph = ph_table ph.
Proof.
  intros H. assert (forall x, 0 <= x < 64 -> (fun x => (55 <? x) && negb (x =? 63) || bool_decide (ph_to_db_range x = ph_table x)) x = true) as G by (apply range_forall; vm_compute; reflexivity).
  specialize (G ph ltac:(lia)). cbv beta in G. destruct (bool_decide _) eqn:E; [by apply bool_decide_eq_true in E|]. rewrite orb_false_r in G. bool_prop. lia.
Qed.

(** The values 56 to 62 are read as up to seven dB less. *)
Lemma ph_range_differs : map (fun ph => fst (ph_table ph) - fst (ph_to_db_range ph)) [55; 56; 57; 58; 59; 60; 61; 62] = [0; 1; 2; 3; 4; 5; 6; 7].
Proof. vm_compute. reflexivity. Qed.

Lemma p_cmax_range p : 0 <= p < 64 -> -29 <= fst (p_cmax_to_dbm_range p) <= snd (p_cmax_to_dbm_range p) /\ snd (p_cmax_to_dbm_range p) <= 33.
Proof.
  intros H. assert (forall x, 0 <= x < 64 -> (fun x => (-29 <=? fst (p_cmax_to_dbm_range x)) && (fst (p_cmax_to_dbm_range x) <=? snd (p_cmax_to_dbm_range x)) && (snd (p_cmax_to_dbm_range x) <=? 33)) x = true) as G
    by (apply range_forall; vm_compute; reflexivity).
  specialize (G p H). cbv beta in G. bool_prop. lia.
Qed.

End phr.
