(* ===== verification/MacUlRx.v ===== *)
(** * MAC UL: UE contexts and the handling of received PDUs

    Models [lib/mac/mac_ul/pdu_rx_handler.{h,cpp}], [mac_ul_ue_manager.{h,cpp}] and [lib/mac/rnti_value_table.h].  The SDUs of a
    PDU go to the bearers of the UE, its control elements to the scheduler; a Msg3 goes on as the UE named by its
    C-RNTI CE, in a task of that UE's executor, or as a new UE with its CCCH message.  Logging and pcap are left out; slots and
    cells are numbers that are passed on; a bearer is the number of its notifier. *)

From S2P Require Import Prelude Effects MacUlSch.
Open Scope Z_scope.
Open Scope entity_scope.

Module MacUlRx.
Import LcidUlSch MacUlSch.

(** ** Indexes *)

Definition MAX_NOF_DU_UES : Z := 1024.
Definition INVALID_DU_UE_INDEX : Z := 1024.
Definition is_du_ue_index_valid (i : Z) : bool := i <? MAX_NOF_DU_UES.
Definition MIN_CRNTI : Z := 0x1.
Definition MAX_CRNTI : Z := 0xffef.
Definition is_crnti (rnti : Z) : bool := (rnti <=? MAX_CRNTI) && (MIN_CRNTI <=? rnti).
Definition LCID_SRB0 : Z := 0.
Definition UE_CON_RES_ID : Z := 62.

(** ** State *)

Record mac_ul_ue_context := mk_ue { ue_index : Z; rnti : Z; rrc_config_pending : bool; ul_bearers : gmap Z nat }.
Record mac_ul := mk_mac { rnti_table : gmap Z Z; ue_db : gmap Z mac_ul_ue_context }.

Record decoded_mac_rx_pdu := mk_decoded { slot_rx : Z; cell_index_rx : Z; ctx_ue_index : Z; pdu_rnti : Z; pdu : list Z; decoded_subpdus : list mac_ul_sch_subpdu }.

Inductive mac_event :=
| on_new_sdu (bearer : nat) (sdu : list Z)
| on_ul_ccch_msg_received (cell_index tc_rnti slot_rx : Z) (subpdu : list Z)
| handle_ul_bsr_indication (cell_index ue_index rnti : Z) (bsr_fmt : UlBsr.bsr_format) (lcg_reports : list UlBsr.lcg_bsr_report)
| handle_ul_phr_indication (cell_index ue_index rnti slot_rx : Z) (phr : UlPhr.cell_ph_report)
| handle_ul_sched_command (cell_index slot_rx ue_index rnti : Z)
| handle_crnti_ce_indication (old_ue_index cell_index : Z)
| handle_dl_mac_ce_indication (ue_index ce_lcid : Z)
| execute_crnti_task (ctx : decoded_mac_rx_pdu).

Definition H (A : Type) : Type := M mac_ul mac_event A.

Definition set_rnti_table (t : gmap Z Z) (m : mac_ul) : mac_ul := mk_mac t (ue_db m).
Definition set_ue_db (d : gmap Z mac_ul_ue_context) (m : mac_ul) : mac_ul := mk_mac (rnti_table m) d.
Definition set_ul_bearers (b : gmap Z nat) (u : mac_ul_ue_context) : mac_ul_ue_context := mk_ue (ue_index u) (rnti u) (rrc_config_pending u) b.
Definition set_rrc_config_pending (p : bool) (u : mac_ul_ue_context) : mac_ul_ue_context := mk_ue (ue_index u) (rnti u) p (ul_bearers u).

(** What a decoder of a control element returns; its fault is the handler's. *)
Definition decoded {A} (r : res A) : H A := fun m => match r with Ok a => Ok (a, m, []) | Fault f => Fault f end.

(** ** RNTI table *)

(** An RNTI that is not a C-RNTI lies outside the array. *)
Definition lookup_rnti (r : Z) : H Z := assert_ (is_crnti r) ;;; let! m := get in ret (default INVALID_DU_UE_INDEX (rnti_table m !! r)).

Definition table_add_ue (crnti value : Z) : H bool :=
  assert_ (is_crnti crnti) ;;;
  assert_ (negb (value =? INVALID_DU_UE_INDEX)) ;;;
  let! m := get in
  modify (set_rnti_table (<[crnti := value]> (rnti_table m))) ;;;
  ret (default INVALID_DU_UE_INDEX (rnti_table m !! crnti) =? INVALID_DU_UE_INDEX).

Definition table_rem_ue (crnti : Z) : H unit :=
  assert_ (is_crnti crnti) ;;;
  let! m := get in
  modify (set_rnti_table (delete crnti (rnti_table m))).

(** ** UE contexts *)

Definition find_ue (i : Z) : H (option mac_ul_ue_context) := let! m := get in ret (ue_db m !! i).

(** An LCID that exists keeps its bearer: [slotted_vector::insert]. *)
Definition insert_bearer (b : gmap Z nat) (channel : Z * nat) : gmap Z nat :=
  match b !! fst channel with Some _ => b | None => <[fst channel := snd channel]> b end.

Definition addmod_bearers (i : Z) (ul_logical_channels : list (Z * nat)) : H bool :=
  match ul_logical_channels with
  | [] => ret true
  | _ =>
      let! m := get in
      match ue_db m !! i with
      | None => ret false
      | Some u =>
          let u := set_rrc_config_pending true (set_ul_bearers (fold_left insert_bearer ul_logical_channels (ul_bearers u)) u) in
          modify (set_ue_db (<[i := u]> (ue_db m))) ;;; ret true
      end
  end.

Definition add_ue (i crnti : Z) (bearers : list (Z * nat)) : H bool :=
  assert_ (is_crnti crnti) ;;;
  assert_ (is_du_ue_index_valid i) ;;;
  let! m := get in
  match ue_db m !! i with
  | Some _ => ret false
  | None =>
      modify (set_ue_db (<[i := mk_ue i crnti false ∅]> (ue_db m))) ;;;
      let! ok := addmod_bearers i bearers in
      ret ok
  end.

Definition remove_ue (i : Z) : H unit := let! m := get in modify (set_ue_db (delete i (ue_db m))).

Definition remove_bearers (i : Z) (lcids : list Z) : H bool :=
  match lcids with
  | [] => ret true
  | _ =>
      let! m := get in
      match ue_db m !! i with
      | None => ret false
      | Some u =>
          let u := set_rrc_config_pending true (set_ul_bearers (fold_left (fun b lcid => delete lcid b) lcids (ul_bearers u)) u) in
          modify (set_ue_db (<[i := u]> (ue_db m))) ;;; ret true
      end
  end.

Definition handle_ue_config_applied (i : Z) : H unit :=
  let! m := get in
  match ue_db m !! i with
  | None => ret tt
  | Some u => modify (set_ue_db (<[i := set_rrc_config_pending false u]> (ue_db m)))
  end.

(** ** SDUs and control elements *)

Definition handle_sdu (ctx : decoded_mac_rx_pdu) (sdu : mac_ul_sch_subpdu) (ue : option mac_ul_ue_context) : H bool :=
  match ue with
  | None => ret false
  | Some ue =>
      match ul_bearers ue !! lcid_val sdu with
      | None => ret false
      | Some bearer => emit (on_new_sdu bearer (payload_view sdu)) ;;; ret true
      end
  end.

Definition bsr_format_of (lcid : Z) : UlBsr.bsr_format :=
  if lcid =? SHORT_BSR then UlBsr.SHORT_BSR else if lcid =? SHORT_TRUNC_BSR then UlBsr.SHORT_TRUNC_BSR else
  if lcid =? LONG_BSR then UlBsr.LONG_BSR else UlBsr.LONG_TRUNC_BSR.
Definition is_short_bsr (lcid : Z) : bool := (lcid =? SHORT_BSR) || (lcid =? SHORT_TRUNC_BSR).
Definition is_long_bsr (lcid : Z) : bool := (lcid =? LONG_BSR) || (lcid =? LONG_TRUNC_BSR).

Definition handle_mac_ce (ctx : decoded_mac_rx_pdu) (subpdu : mac_ul_sch_subpdu) : H bool :=
  let lcid := lcid_val subpdu in
  if is_ccch lcid then ret (negb (is_du_ue_index_valid (ctx_ue_index ctx)))
  else if is_short_bsr lcid || is_long_bsr lcid then
    if negb (is_du_ue_index_valid (ctx_ue_index ctx)) then ret false else
    let indicate reports := emit (handle_ul_bsr_indication (cell_index_rx ctx) (ctx_ue_index ctx) (pdu_rnti ctx) (bsr_format_of lcid) reports) ;;; ret true in
    if is_short_bsr lcid then
      let! report := decoded (UlBsr.decode_sbsr (payload_view subpdu)) in indicate [report]
    else
      let! report := decoded (UlBsr.decode_lbsr (bsr_format_of lcid) (payload_view subpdu)) in
      match report with None => ret false | Some report => indicate report end
  else if lcid =? CRNTI then
    let! r := decoded (decode_crnti_ce (payload_view subpdu)) in
    ret (r =? pdu_rnti ctx)
  else if lcid =? SE_PHR then
    if negb (is_du_ue_index_valid (ctx_ue_index ctx)) then ret false else
    let! phr := decoded (UlPhr.decode_se_phr (payload_view subpdu)) in
    emit (handle_ul_phr_indication (cell_index_rx ctx) (ctx_ue_index ctx) (pdu_rnti ctx) (slot_rx ctx) phr) ;;; ret true
  else ret true.

(** The loop over the subPDUs ends with the first that is not handled. *)
Fixpoint handle_subpdus (ctx : decoded_mac_rx_pdu) (ue : option mac_ul_ue_context) (subpdus : list mac_ul_sch_subpdu) : H bool :=
  match subpdus with
  | [] => ret true
  | s :: subpdus =>
      let! r := (if is_sdu (lcid_val s) then handle_sdu ctx s ue else handle_mac_ce ctx s) in
      if negb r then ret false else handle_subpdus ctx ue subpdus
  end.

Definition handle_rx_subpdus (ctx : decoded_mac_rx_pdu) : H bool :=
  let! ue := find_ue (ctx_ue_index ctx) in
  handle_subpdus ctx ue (decoded_subpdus ctx).

(** ** Msg3 *)

(** [appended]: the octets are copied into the message. *)
Definition handle_ccch_msg (appended : bool) (ctx : decoded_mac_rx_pdu) (sdu : mac_ul_sch_subpdu) : H bool :=
  assert_ (ctx_ue_index ctx =? INVALID_DU_UE_INDEX) ;;;
  if negb appended then ret false else
  emit (on_ul_ccch_msg_received (cell_index_rx ctx) (pdu_rnti ctx) (slot_rx ctx) (payload_view sdu)) ;;; ret true.

Fixpoint contains_positive_bsr (subpdus : list mac_ul_sch_subpdu) : H bool :=
  match subpdus with
  | [] => ret false
  | s :: subpdus =>
      let lcid := lcid_val s in
      let! short := (if is_short_bsr lcid then let! rep := decoded (UlBsr.decode_sbsr (payload_view s)) in ret (0 <? UlBsr.buffer_size rep) else ret false) in
      if short then ret true else
      let! long := (if is_long_bsr lcid then
          let! rep := decoded (UlBsr.decode_lbsr (bsr_format_of lcid) (payload_view s)) in
          ret (match rep with Some l => existsb (fun r => 0 <? UlBsr.buffer_size r) l | None => false end)
        else ret false) in
      if long then ret true else contains_positive_bsr subpdus
  end.

(** [dispatched]: the executor of the UE takes the task. *)
Definition handle_crnti_ce (dispatched : bool) (ctx : decoded_mac_rx_pdu) (subpdu : mac_ul_sch_subpdu) : H bool :=
  let! r := decoded (decode_crnti_ce (payload_view subpdu)) in
  if negb (is_crnti r) then ret false else
  let! i := lookup_rnti r in
  if i =? INVALID_DU_UE_INDEX then ret false else
  when dispatched (emit (execute_crnti_task (mk_decoded (slot_rx ctx) (cell_index_rx ctx) i r (pdu ctx) (decoded_subpdus ctx)))) ;;;
  ret true.

Definition crnti_task (ctx : decoded_mac_rx_pdu) : H unit :=
  let! ue := find_ue (ctx_ue_index ctx) in
  match ue with
  | None => ret tt
  | Some _ =>
      let! ok := handle_rx_subpdus ctx in
      if negb ok then ret tt else
      emit (handle_crnti_ce_indication (ctx_ue_index ctx) (cell_index_rx ctx)) ;;;
      let! positive := contains_positive_bsr (decoded_subpdus ctx) in
      when (negb positive) (emit (handle_ul_sched_command (cell_index_rx ctx) (slot_rx ctx) (ctx_ue_index ctx) (pdu_rnti ctx)))
  end.

(** The search from the last subPDU to the first. *)
Fixpoint find_msg3 (subpdus : list mac_ul_sch_subpdu) : option mac_ul_sch_subpdu :=
  match subpdus with
  | [] => None
  | s :: subpdus => if (lcid_val s =? CRNTI) || is_ccch (lcid_val s) then Some s else find_msg3 subpdus
  end.

Definition handle_rx_pdu (appended dispatched : bool) (sl_rx cell_index r : Z) (octets : list Z) : H bool :=
  let! i := lookup_rnti r in
  let! unpacked := decoded (unpack [] octets) in
  if negb (fst unpacked) then ret false else
  let ctx := mk_decoded sl_rx cell_index i r octets (snd unpacked) in
  match (if is_du_ue_index_valid i then None else find_msg3 (rev (snd unpacked))) with
  | Some s => if lcid_val s =? CRNTI then handle_crnti_ce dispatched ctx s else handle_ccch_msg appended ctx s
  | None => handle_rx_subpdus ctx
  end.

(** The CCCH message once the UE has been created. *)
Definition push_ul_ccch_msg (i : Z) (ul_ccch_msg : list Z) : H bool :=
  let! ue := find_ue i in
  match ue with
  | None => ret false
  | Some ue =>
      match ul_bearers ue !! LCID_SRB0 with
      | None => ret false
      | Some bearer =>
          emit (on_new_sdu bearer ul_ccch_msg) ;;;
          emit (handle_dl_mac_ce_indication i UE_CON_RES_ID) ;;;
          ret true
      end
  end.

End MacUlRx.
