(* ===== verification/MacUlTheorems.v ===== *)
(** * MAC UL: what becomes of a received PDU

    Whatever octets arrive, the handler comes to its end unless a long BSR without octets is among the subPDUs; the SDUs of a PDU
    go to the bearers of the UE and its control elements to the scheduler, in their order, up to the first that is rejected; a
    Msg3 with a C-RNTI CE is handled as the UE it names. *)

From S2P Require Import Prelude Effects BitEncoding MacUlSch MacUlSchFacts MacUlRx.
Open Scope Z_scope.
Open Scope entity_scope.

Import LcidUlSch MacUlSch MacUlRx.

(** ** One subPDU *)

(** The subPDU is not handled. *)
Definition rejected (ctx : decoded_mac_rx_pdu) (ue : option mac_ul_ue_context) (s : mac_ul_sch_subpdu) : bool :=
  let lcid := lcid_val s in
  let known := is_du_ue_index_valid (ctx_ue_index ctx) in
  if is_sdu lcid then match ue with None => true | Some u => match ul_bearers u !! lcid with None => true | Some _ => false end end
  else if is_ccch lcid then known
  else if is_short_bsr lcid then negb known
  else if is_long_bsr lcid then negb known || match UlBsr.decode_lbsr (bsr_format_of lcid) (payload_view s) with Ok None => true | _ => false end
  else if lcid =? CRNTI then match decode_crnti_ce (payload_view s) with Ok r => negb (r =? pdu_rnti ctx) | _ => true end
  else if lcid =? SE_PHR then negb known
  else false.

(** What a subPDU that is handled causes. *)
Definition effect (ctx : decoded_mac_rx_pdu) (ue : option mac_ul_ue_context) (s : mac_ul_sch_subpdu) : list mac_event :=
  let lcid := lcid_val s in
  let bsr reports := [handle_ul_bsr_indication (cell_index_rx ctx) (ctx_ue_index ctx) (pdu_rnti ctx) (bsr_format_of lcid) reports] in
  if is_sdu lcid then match (ue ≫= fun u => ul_bearers u !! lcid) with Some bearer => [on_new_sdu bearer (payload_view s)] | None => [] end
  else if is_short_bsr lcid then match UlBsr.decode_sbsr (payload_view s) with Ok r => bsr [r] | _ => [] end
  else if is_long_bsr lcid then match UlBsr.decode_lbsr (bsr_format_of lcid) (payload_view s) with Ok (Some l) => bsr l | _ => [] end
  else if lcid =? SE_PHR then
    match UlPhr.decode_se_phr (payload_view s) with Ok phr => [handle_ul_phr_indication (cell_index_rx ctx) (ctx_ue_index ctx) (pdu_rnti ctx) (slot_rx ctx) phr] | _ => [] end
  else [].

Definition handle_one (ctx : decoded_mac_rx_pdu) (ue : option mac_ul_ue_context) (s : mac_ul_sch_subpdu) : MacUlRx.H bool :=
  if is_sdu (lcid_val s) then handle_sdu ctx s ue else handle_mac_ce ctx s.

(** A long BSR has a bitmap. *)
Definition long_bsr_ok (s : mac_ul_sch_subpdu) : Prop := is_long_bsr (lcid_val s) = true -> payload_view s <> [].

Lemma decode_crnti_any payload : zlen payload = 2 -> exists r, decode_crnti_ce payload = Ok r.
Proof.
  intros Hl. destruct payload as [|b0 [|b1 payload]]; [done|done|]. unfold decode_crnti_ce. rewrite (proj2 (Z.ltb_ge _ _)) by lia. by eexists.
Qed.

Lemma decode_se_phr_any payload : zlen payload = 2 -> exists r, UlPhr.decode_se_phr payload = Ok r.
Proof. intros Hl. destruct payload as [|b0 [|b1 payload]]; [done|done|]. by eexists. Qed.

Lemma fixed_size s : subpdu_ok s -> has_length_field (lcid_val s) = false -> lcid_val s <> PADDING -> zlen (payload_view s) = sizeof_ce (lcid_val s).
Proof. intros [_ _ _ _ H] Hh Hp. rewrite Hh in H. by destruct H. Qed.

Lemma handle_one_spec ctx ue s m : subpdu_ok s -> long_bsr_ok s ->
  handle_one ctx ue s m = Ok (negb (rejected ctx ue s), m, if rejected ctx ue s then [] else effect ctx ue s).
Proof.
  intros Hs Hlong. pose proof (so_bytes s Hs) as Hb. pose proof (fixed_size s Hs) as Hsize. unfold handle_one, rejected, effect, handle_mac_ce, long_bsr_ok in *. set (lcid := lcid_val s) in *.
  destruct (is_sdu lcid) eqn:E1.
  { unfold handle_sdu. destruct ue as [u|]; [|done]. cbn. fold lcid. by destruct (ul_bearers u !! lcid). }
  destruct (is_ccch lcid) eqn:E2.
  { assert (is_short_bsr lcid = false /\ is_long_bsr lcid = false /\ (lcid =? SE_PHR) = false) as (-> & -> & ->); [|by destruct (is_du_ue_index_valid _)].
    unfold is_ccch in E2. apply orb_true_iff in E2 as [->%Z.eqb_eq| ->%Z.eqb_eq]; done. }
  destruct (is_short_bsr lcid) eqn:E3; cbn [orb].
  { destruct (is_du_ue_index_valid _); [|done]. cbn [negb]. destruct (decode_sbsr_any (payload_view s) Hb) as (r & Er & _); [|unfold bind, decoded; by rewrite Er].
    intros E. rewrite E in Hsize. unfold is_short_bsr in E3. apply orb_true_iff in E3 as [E3%Z.eqb_eq|E3%Z.eqb_eq]; rewrite E3 in Hsize; by specialize (Hsize eq_refl ltac:(done)). }
  destruct (is_long_bsr lcid) eqn:E4.
  { destruct (is_du_ue_index_valid _); [|done]. cbn [negb orb]. destruct (decode_lbsr_any (bsr_format_of lcid) (payload_view s) Hb (Hlong eq_refl)) as (o & Eo & _).
    unfold bind, decoded. rewrite Eo. by destruct o. }
  destruct (Z.eqb_spec lcid CRNTI) as [E5|].
  { rewrite E5 in Hsize. destruct (decode_crnti_any (payload_view s)) as (r & Er); [by apply Hsize|]. unfold bind, decoded. rewrite Er, E5. cbn. by destruct (r =? _). }
  destruct (Z.eqb_spec lcid SE_PHR) as [E6|]; [|done]. destruct (is_du_ue_index_valid _); [|done]. cbn [negb].
  rewrite E6 in Hsize. destruct (decode_se_phr_any (payload_view s)) as (r & Er); [by apply Hsize|]. unfold bind, decoded. by rewrite Er.
Qed.

(** ** All subPDUs *)

Fixpoint handled (ctx : decoded_mac_rx_pdu) (ue : option mac_ul_ue_context) (l : list mac_ul_sch_subpdu) : list mac_ul_sch_subpdu :=
  match l with [] => [] | s :: l => if rejected ctx ue s then [] else s :: handled ctx ue l end.
Definition all_handled (ctx : decoded_mac_rx_pdu) (ue : option mac_ul_ue_context) (l : list mac_ul_sch_subpdu) : bool := forallb (fun s => negb (rejected ctx ue s)) l.

Lemma handle_subpdus_spec ctx ue m l : Forall subpdu_ok l -> Forall long_bsr_ok l ->
  handle_subpdus ctx ue l m = Ok (all_handled ctx ue l, m, handled ctx ue l ≫= effect ctx ue).
Proof.
  intros Hok Hlong. induction Hok as [|s l Hs _ IH]; [done|]. apply Forall_cons in Hlong as [Hl Hlong]. cbn [handle_subpdus handled all_handled forallb]. unfold bind.
  match goal with |- match ?x m with _ => _ end = _ => change x with (handle_one ctx ue s) end. rewrite handle_one_spec by done.
  destruct (rejected ctx ue s) eqn:E; [done|]. cbn [negb andb]. rewrite IH by done. done.
Qed.

Lemma handle_rx_subpdus_spec ctx m : Forall subpdu_ok (decoded_subpdus ctx) -> Forall long_bsr_ok (decoded_subpdus ctx) -> let ue := ue_db m !! ctx_ue_index ctx in
  handle_rx_subpdus ctx m = Ok (all_handled ctx ue (decoded_subpdus ctx), m, handled ctx ue (decoded_subpdus ctx) ≫= effect ctx ue).
Proof. intros Hok Hlong ue. unfold handle_rx_subpdus, find_ue, bind, get, ret. rewrite handle_subpdus_spec by done. done. Qed.

(** ** Positive reports *)

Definition positive (s : mac_ul_sch_subpdu) : bool :=
  if is_short_bsr (lcid_val s) then match UlBsr.decode_sbsr (payload_view s) with Ok r => 0 <? UlBsr.buffer_size r | _ => false end
  else if is_long_bsr (lcid_val s) then
    match UlBsr.decode_lbsr (bsr_format_of (lcid_val s)) (payload_view s) with Ok (Some l) => existsb (fun r => 0 <? UlBsr.buffer_size r) l | _ => false end
  else false.

Lemma short_not_long l : is_short_bsr l = true -> is_long_bsr l = false.
Proof. unfold is_short_bsr. intros [->%Z.eqb_eq| ->%Z.eqb_eq]%orb_true_iff; done. Qed.

Lemma contains_positive_spec m l : Forall subpdu_ok l -> Forall long_bsr_ok l -> contains_positive_bsr l m = Ok (existsb positive l, m, []).
Proof.
  intros Hok Hlong. induction Hok as [|s l Hs _ IH]; [done|]. apply Forall_cons in Hlong as [Hl Hlong]. specialize (IH Hlong). cbn [contains_positive_bsr existsb]. unfold positive at 1.
  pose proof (so_bytes s Hs) as Hb. pose proof (fixed_size s Hs) as Hsize. unfold long_bsr_ok in Hl. unfold bind, decoded. destruct (is_short_bsr (lcid_val s)) eqn:E3.
  - destruct (decode_sbsr_any (payload_view s) Hb) as (r & Er & _).
    { intros E. rewrite E in Hsize. unfold is_short_bsr in E3. apply orb_true_iff in E3 as [E3%Z.eqb_eq|E3%Z.eqb_eq]; rewrite E3 in Hsize; by specialize (Hsize eq_refl ltac:(done)). }
    rewrite Er. cbn. destruct (0 <? UlBsr.buffer_size r); [done|]. rewrite (short_not_long _ E3). cbn. by rewrite IH.
  - cbn. destruct (is_long_bsr (lcid_val s)); cbn; [|by rewrite IH]. destruct (decode_lbsr_any (bsr_format_of (lcid_val s)) (payload_view s) Hb (Hl eq_refl)) as (o & Eo & _). rewrite Eo. cbn.
    destruct o as [o|]; cbn; [destruct (existsb _ o); [done|]|]; cbn; by rewrite IH.
Qed.

(** ** C-RNTI control elements *)

Definition as_ue (ctx : decoded_mac_rx_pdu) (i r : Z) : decoded_mac_rx_pdu := mk_decoded (slot_rx ctx) (cell_index_rx ctx) i r (pdu ctx) (decoded_subpdus ctx).

Lemma handle_crnti_spec dispatched ctx s r m : decode_crnti_ce (payload_view s) = Ok r -> let i := default INVALID_DU_UE_INDEX (rnti_table m !! r) in
  let found := is_crnti r && negb (i =? INVALID_DU_UE_INDEX) in
  handle_crnti_ce dispatched ctx s m = Ok (found, m, if found && dispatched then [execute_crnti_task (as_ue ctx i r)] else []).
Proof.
  intros E i found. unfold handle_crnti_ce, found, i. unfold bind at 1, decoded. rewrite E. destruct (is_crnti r) eqn:Er; [|done]. cbn [negb andb].
  unfold bind, lookup_rnti. rewrite Er. cbn. destruct (default INVALID_DU_UE_INDEX (rnti_table m !! r) =? INVALID_DU_UE_INDEX); [done|]. by destruct dispatched.
Qed.

Lemma crnti_task_spec ctx ue m : ue_db m !! ctx_ue_index ctx = Some ue -> Forall subpdu_ok (decoded_subpdus ctx) -> Forall long_bsr_ok (decoded_subpdus ctx) ->
  crnti_task ctx m = Ok (tt, m, (handled ctx (Some ue) (decoded_subpdus ctx) ≫= effect ctx (Some ue)) ++
    if all_handled ctx (Some ue) (decoded_subpdus ctx) then
      handle_crnti_ce_indication (ctx_ue_index ctx) (cell_index_rx ctx) ::
      if existsb positive (decoded_subpdus ctx) then [] else [handle_ul_sched_command (cell_index_rx ctx) (slot_rx ctx) (ctx_ue_index ctx) (pdu_rnti ctx)]
    else []).
Proof.
  intros Hue Hok Hlong. unfold crnti_task, find_ue. unfold bind at 1. cbn. rewrite Hue. unfold bind. pose proof (handle_rx_subpdus_spec ctx m Hok Hlong) as E. cbv zeta in E. rewrite E, Hue.
  destruct (all_handled ctx (Some ue) (decoded_subpdus ctx)); cbn [negb]; [|done].
  cbn. rewrite contains_positive_spec by done. destruct (existsb positive (decoded_subpdus ctx)); reflexivity.
Qed.

(** ** Received PDUs *)

(** C18: A PDU of a UE that is known, in terms of the subPDUs its octets consist of: the SDUs go to the bearers of this UE and the reports to the
    scheduler, in their order and unchanged, up to the first subPDU that is rejected; nothing is delivered twice or to another UE, and
    the answer tells whether all were handled. *)
Theorem mac_rx_delivers m appended dispatched sl cell r i rs : is_crnti r = true -> rnti_table m !! r = Some i -> is_du_ue_index_valid i = true ->
  Forall subpdu_ok (map snd rs) -> Forall long_bsr_ok (map snd rs) -> padding_last (map snd rs) -> zlen rs <= MAX_SUBPDUS_PER_PDU -> zlen (pdu_octets rs) < 2 ^ 31 ->
  let ctx := mk_decoded sl cell i r (pdu_octets rs) (map snd rs) in let ue := ue_db m !! i in
  handle_rx_pdu appended dispatched sl cell r (pdu_octets rs) m = Ok (all_handled ctx ue (map snd rs), m, handled ctx ue (map snd rs) ≫= effect ctx ue).
Proof.
  intros Hr Hi Hv Hok Hlong Hpad Hmax Hl ctx ue. unfold handle_rx_pdu, lookup_rnti, bind, assert_, get, ret, decoded. rewrite Hr, Hi. change (default INVALID_DU_UE_INDEX (Some i)) with i.
  rewrite unpack_written by done. cbn [fst snd negb]. rewrite Hv. fold ctx. pose proof (handle_rx_subpdus_spec ctx m Hok Hlong) as E. cbv zeta in E. by rewrite E.
Qed.

(** *** Any octets *)

Lemma effect_no_task ctx ue s c : execute_crnti_task c ∉ effect ctx ue s.
Proof.
  unfold effect. repeat match goal with |- context [if ?b then _ else _] => destruct b | |- context [match ?x with _ => _ end] => destruct x end;
    rewrite ?list_elem_of_singleton, ?elem_of_nil; congruence.
Qed.
Lemma effects_no_task ctx ue l c : execute_crnti_task c ∉ l ≫= effect ctx ue.
Proof. intros (s & Hs & _)%list_elem_of_bind. by apply effect_no_task in Hs. Qed.

(** The tasks handed to an executor, run at any later moment, come to their end too and hand over no further task. *)
Definition tasks_total (es : list mac_event) : Prop :=
  forall c, execute_crnti_task c ∈ es -> forall m, exists es', crnti_task c m = Ok (tt, m, es') /\ forall c', execute_crnti_task c' ∉ es'.

Lemma tasks_total_none es : (forall c, execute_crnti_task c ∉ es) -> tasks_total es.
Proof. intros H c Hc. by destruct (H c). Qed.

Lemma crnti_task_total ctx m : Forall subpdu_ok (decoded_subpdus ctx) -> Forall long_bsr_ok (decoded_subpdus ctx) ->
  exists es, crnti_task ctx m = Ok (tt, m, es) /\ forall c, execute_crnti_task c ∉ es.
Proof.
  intros Hok Hlong. destruct (ue_db m !! ctx_ue_index ctx) as [ue|] eqn:Hue.
  - eexists. split; [by apply crnti_task_spec|]. intros c [Hc|Hc]%elem_of_app; [by apply effects_no_task in Hc|].
    destruct (all_handled _ _ _); [|by apply elem_of_nil in Hc]. destruct (existsb _ _); set_solver.
  - exists []. split; [|by intros c Hc%elem_of_nil]. unfold crnti_task, find_ue, bind. cbn. by rewrite Hue.
Qed.

Lemma find_msg3_some l s : find_msg3 l = Some s -> s ∈ l /\ ((lcid_val s =? CRNTI) || is_ccch (lcid_val s)) = true.
Proof.
  induction l as [|x l IH]; [done|]. cbn [find_msg3]. destruct ((lcid_val x =? CRNTI) || is_ccch (lcid_val x)) eqn:Ex; [intros [= ->]; split; [left|done]|].
  intros Hx. destruct (IH Hx). split; [by right|done].
Qed.

Lemma long_bsr_dec subpdus : Decision (Forall long_bsr_ok subpdus).
Proof.
  apply Forall_dec. intros s. unfold long_bsr_ok. destruct (is_long_bsr (lcid_val s)); [|left; done]. destruct (payload_view s); [right; intros G; by apply G|left; done].
Qed.

Lemma unpacked_total m appended dispatched sl cell r octets subpdus : (forall r i, rnti_table m !! r = Some i -> is_du_ue_index_valid i = true) -> is_crnti r = true ->
  unpack [] octets = Ok (true, subpdus) -> Forall subpdu_ok subpdus -> Forall long_bsr_ok subpdus ->
  exists b es, handle_rx_pdu appended dispatched sl cell r octets m = Ok (b, m, es) /\ tasks_total es.
Proof.
  intros Htab Hr E Hok Hlong. unfold handle_rx_pdu, lookup_rnti, bind, assert_, get, ret, decoded. rewrite Hr, E. cbn [fst snd negb].
  set (i := default _ _). set (ctx := mk_decoded _ _ _ _ _ _). pose proof (handle_rx_subpdus_spec ctx m Hok Hlong) as Esub. cbv zeta in Esub.
  destruct (if is_du_ue_index_valid i then None else find_msg3 (rev subpdus)) as [s|] eqn:Es.
  2: { rewrite Esub. eexists _, _. split; [done|]. apply tasks_total_none. intros c. apply effects_no_task. }
  destruct (is_du_ue_index_valid i) eqn:Ei; [done|]. apply find_msg3_some in Es as [Hin Hk].
  assert (s ∈ subpdus) as Hs by (apply list_elem_of_In, in_rev; by apply list_elem_of_In). apply (proj1 (Forall_forall _ _) Hok) in Hs. destruct (Z.eqb_spec (lcid_val s) CRNTI) as [Ec|].
  - destruct (decode_crnti_any (payload_view s)) as (r' & Er'); [rewrite (fixed_size s Hs) by (by rewrite Ec); by rewrite Ec|].
    pose proof (handle_crnti_spec dispatched ctx s r' m Er') as Ecr. cbv zeta in Ecr. rewrite Ecr. eexists _, _. split; [done|].
    intros c Hc m1. destruct (_ && dispatched); [|by apply elem_of_nil in Hc]. apply list_elem_of_singleton in Hc. injection Hc as ->. by apply crnti_task_total.
  - unfold handle_ccch_msg. assert ((ctx_ue_index ctx =? INVALID_DU_UE_INDEX) = true) as Einv.
    { cbn. unfold i in *. destruct (rnti_table m !! r) as [j|] eqn:Ej; [|done]. specialize (Htab r j Ej). cbn in Ei. congruence. }
    rewrite Einv. destruct appended; (eexists _, _; split; [done|]); apply tasks_total_none; intros c; set_solver.
Qed.

(** C19: Whatever octets arrive for a C-RNTI, nothing outside the PDU is looked at and no assertion fails, in the handling of the PDU and in the task of
    a UE's executor that it dispatches for a C-RNTI CE, whenever that task is run; the UE contexts stay as they are.  The only exception is a PDU
    with a long BSR without octets among its subPDUs. *)
Theorem mac_rx_total m appended dispatched sl cell r octets : (forall r i, rnti_table m !! r = Some i -> is_du_ue_index_valid i = true) -> is_crnti r = true -> Forall is_byte octets -> zlen octets < 2 ^ 31 ->
  (exists b es, handle_rx_pdu appended dispatched sl cell r octets m = Ok (b, m, es) /\
    forall c, execute_crnti_task c ∈ es -> forall m1, exists es1, crnti_task c m1 = Ok (tt, m1, es1) /\ forall c', execute_crnti_task c' ∉ es1) \/
  (exists subpdus, unpack [] octets = Ok (true, subpdus) /\ ~ Forall long_bsr_ok subpdus).
Proof.
  intros Htab Hr Hb Hl. destruct (run_reader_wp _ _ _ (wp_unpack_loop octets Hb Hl)) as ([acc subpdus] & E & H). cbn [fst snd] in H.
  change (unpack [] octets = Ok (acc, subpdus)) in E. destruct acc.
  - destruct (long_bsr_dec subpdus) as [Hlong|Hlong]; [left|right; by exists subpdus]. destruct H as (rs & left_ & _ & _ & Hok & _). by apply (unpacked_total m appended dispatched sl cell r octets subpdus).
  - left. unfold handle_rx_pdu, lookup_rnti, bind, assert_, get, ret, decoded. rewrite Hr, E. eexists _, _. split; [done|]. by intros c Hc%elem_of_nil.
Qed.

Definition mac_example : mac_ul := mk_mac {[17 := 3; 18 := 4]} {[3 := mk_ue 3 17 false {[1 := 10%nat; 4 := 11%nat]}; 4 := mk_ue 4 18 false ∅]}.

Lemma ul_sch_example_long : Forall long_bsr_ok (map snd ul_sch_example).
Proof. repeat (apply Forall_cons; split; [intros E; vm_compute in E; discriminate E|]). apply Forall_nil. exact I. Defined.

Lemma ul_sch_example_padding : padding_last (map snd ul_sch_example).
Proof. repeat (split; [intros E; vm_compute in E; try discriminate E; reflexivity|]). exact I. Defined.

Lemma mac_rx_delivers_witness : handle_rx_pdu true true 0 0 17 (pdu_octets ul_sch_example) mac_example =
  Ok (true, mac_example, [handle_ul_bsr_indication 0 3 17 UlBsr.SHORT_BSR [UlBsr.mk_bsr 2 5]; on_new_sdu 11 [1; 2; 3]; on_new_sdu 10 [9]]).
Proof.
  exact (mac_rx_delivers mac_example true true 0 0 17 3 ul_sch_example eq_refl eq_refl eq_refl ul_sch_example_ok ul_sch_example_long ul_sch_example_padding
    ltac:(vm_compute; congruence) ltac:(vm_compute; reflexivity)).
Defined.

Lemma mac_example_table : forall r i, rnti_table mac_example !! r = Some i -> is_du_ue_index_valid i = true.
Proof.
  intros r i H. unfold mac_example in H. cbn [rnti_table] in H. apply lookup_insert_Some in H as [[_ <-]|[_ H]]; [reflexivity|]. apply lookup_singleton_Some in H as [_ <-]. reflexivity.
Defined.

Lemma mac_rx_total_witness : (exists b es, handle_rx_pdu true true 0 0 99 [0x3a; 0; 17; 1; 2; 7; 8; 0x3f] mac_example = Ok (b, mac_example, es) /\
    forall c, execute_crnti_task c ∈ es -> forall m1, exists es1, crnti_task c m1 = Ok (tt, m1, es1) /\ forall c', execute_crnti_task c' ∉ es1) \/
  (exists subpdus, unpack [] [0x3a; 0; 17; 1; 2; 7; 8; 0x3f] = Ok (true, subpdus) /\ ~ Forall long_bsr_ok subpdus).
Proof.
  apply (mac_rx_total mac_example true true 0 0 99 [0x3a; 0; 17; 1; 2; 7; 8; 0x3f]); [exact mac_example_table|reflexivity| |reflexivity].
  repeat (apply Forall_cons; split; [by split|]). apply Forall_nil. exact I.
Defined.

(** A Msg3 with a C-RNTI CE that names a known UE: the PDU goes on as a task of that UE, whose bearers get the SDUs; when all subPDUs were
    handled the scheduler is told of the C-RNTI CE and, unless a report with data is among them, ordered to grant resources. *)
Theorem mac_msg3_crnti m m' appended sl cell r r' i ue rs s :
  is_crnti r = true -> rnti_table m !! r = None -> Forall subpdu_ok (map snd rs) -> Forall long_bsr_ok (map snd rs) -> padding_last (map snd rs) ->
  zlen rs <= MAX_SUBPDUS_PER_PDU -> zlen (pdu_octets rs) < 2 ^ 31 -> find_msg3 (rev (map snd rs)) = Some s -> lcid_val s = CRNTI ->
  decode_crnti_ce (payload_view s) = Ok r' -> is_crnti r' = true -> rnti_table m !! r' = Some i -> is_du_ue_index_valid i = true -> ue_db m' !! i = Some ue ->
  let subpdus := map snd rs in let ctx := mk_decoded sl cell i r' (pdu_octets rs) subpdus in
  handle_rx_pdu appended true sl cell r (pdu_octets rs) m = Ok (true, m, [execute_crnti_task ctx]) /\
  crnti_task ctx m' = Ok (tt, m', (handled ctx (Some ue) subpdus ≫= effect ctx (Some ue)) ++
    if all_handled ctx (Some ue) subpdus then
      handle_crnti_ce_indication i cell :: if existsb positive subpdus then [] else [handle_ul_sched_command cell sl i r']
    else []).
Proof.
  intros Hr Hnone Hok Hlong Hpad Hmax Hl Hfind Hlcid Hdec Hr' Hi Hv Hue subpdus ctx. split; [|by apply crnti_task_spec].
  unfold handle_rx_pdu, lookup_rnti, bind, assert_, get, ret, decoded. rewrite Hr, Hnone. change (default INVALID_DU_UE_INDEX None) with INVALID_DU_UE_INDEX.
  rewrite unpack_written by done. cbn [fst snd negb]. change (is_du_ue_index_valid INVALID_DU_UE_INDEX) with false. cbv iota. rewrite Hfind, Hlcid, Z.eqb_refl.
  pose proof (handle_crnti_spec true (mk_decoded sl cell INVALID_DU_UE_INDEX r (pdu_octets rs) (map snd rs)) s r' m Hdec) as E. cbv zeta in E. rewrite E, Hr', Hi.
  change (default INVALID_DU_UE_INDEX (Some i)) with i. assert ((i =? INVALID_DU_UE_INDEX) = false) as -> by (unfold is_du_ue_index_valid, MAX_NOF_DU_UES in Hv; unfold INVALID_DU_UE_INDEX; bool_prop; apply Z.eqb_neq; lia).
  done.
Qed.

Definition msg3_example : list (bool * mac_ul_sch_subpdu) := [(false, mk_subpdu CRNTI 1 false [0; 17]); (false, mk_subpdu 1 2 false [7; 8]); (false, mk_subpdu PADDING 1 false [])].

Lemma mac_msg3_crnti_witness : let ctx := mk_decoded 5 0 3 17 (pdu_octets msg3_example) (map snd msg3_example) in
  handle_rx_pdu true true 5 0 99 (pdu_octets msg3_example) mac_example = Ok (true, mac_example, [execute_crnti_task ctx]) /\
  crnti_task ctx mac_example = Ok (tt, mac_example, [on_new_sdu 10 [7; 8]; handle_crnti_ce_indication 3 0; handle_ul_sched_command 0 5 3 17]).
Proof.
  destruct (mac_msg3_crnti mac_example mac_example true 5 0 99 17 3 (mk_ue 3 17 false {[1 := 10%nat; 4 := 11%nat]}) msg3_example (mk_subpdu CRNTI 1 false [0; 17])) as [H1 H2]; try reflexivity.
  - repeat (apply Forall_cons; split; [constructor; [by split|done|done|repeat (apply Forall_cons; split; [by split|]); apply Forall_nil; exact I|first [right; vm_compute; reflexivity|left; reflexivity|vm_compute; reflexivity]]|]). apply Forall_nil. exact I.
  - repeat (apply Forall_cons; split; [intros E; vm_compute in E; discriminate E|]). apply Forall_nil. exact I.
  - repeat (split; [intros E; vm_compute in E; try discriminate E; reflexivity|]). exact I.
  - vm_compute. congruence.
  - split; [exact H1|]. rewrite H2. vm_compute. reflexivity.
Defined.

(** C38: A long BSR whose length field is zero makes the handler read behind the end of its payload: two octets from a UE. *)
Theorem mac_rx_empty_long_bsr m appended dispatched sl cell r i : is_crnti r = true -> rnti_table m !! r = Some i -> is_du_ue_index_valid i = true ->
  handle_rx_pdu appended dispatched sl cell r [0x3e; 0x00] m = Fault FaultAssert.
Proof.
  intros Hr Hi Hv. unfold handle_rx_pdu, lookup_rnti, bind, assert_, get, ret, decoded. rewrite Hr, Hi. change (default INVALID_DU_UE_INDEX (Some i)) with i.
  assert (unpack [] [0x3e; 0x00] = Ok (true, [mk_subpdu LONG_BSR 2 false []])) as -> by reflexivity. cbn [fst snd negb]. rewrite Hv.
  unfold handle_rx_subpdus, find_ue, bind, get, ret. cbn. unfold handle_mac_ce, bind, decoded. cbn. by rewrite Hv.
Qed.

Lemma mac_rx_empty_long_bsr_witness : handle_rx_pdu true true 0 0 17 [0x3e; 0x00] mac_example = Fault FaultAssert.
Proof. apply (mac_rx_empty_long_bsr mac_example true true 0 0 17 3); reflexivity. Defined.

(** The recommended bit rate query has two octets, its size counts as zero: they are read as the subheader of a next subPDU, and the whole PDU is dropped. *)
Lemma bit_rate_query_misread : unpack [] [0x01; 0x02; 0xaa; 0xbb; 0x35; 0x04; 0x80] = Ok (false, []).
Proof. vm_compute. reflexivity. Qed.

(** A bearer that is configured again keeps its old notifier. *)
Lemma modified_bearer_kept : exists m, addmod_bearers 3 [(4, 99%nat)] mac_example = Ok (true, m, []) /\ (ue_db m !! 3 ≫= fun u => ul_bearers u !! 4) = Some 11%nat.
Proof. eexists. split; vm_compute; reflexivity. Qed.
