(* ===== verification/MacDlSch.v ===== *)
(** * MAC DL: assembly of DL-SCH PDUs

    Models [lib/mac/mac_dl/dl_sch_pdu_assembler.{h,cpp}], [mac_dl_ue_repository.{h,cpp}], the allocation of HARQ buffers in
    [cell_dl_harq_buffer_pool.h] and the sizes of [include/srsran/mac/mac_pdu_format.h].  A PDU is written in place into the HARQ
    buffer of the UE; the MAC SDUs come from the RLC bearers through the class [MacSduTxBuilder].  Logging is left out. *)

From S2P Require Import Prelude Effects.
Open Scope Z_scope.
Open Scope entity_scope.

(** ** The RLC bearers *)

(** [mac_sdu_tx_builder]: what a bearer writes into a buffer of the given size ([on_new_tx_sdu]).  A bearer that is in order writes no more than fits. *)
Class MacSduTxBuilder (B : Type) := {
  on_new_tx_sdu : Z -> B -> res (list Z * B);
  builder_ok : B -> Prop;
  on_new_tx_sdu_ok : forall n b, builder_ok b -> 0 <= n < 2 ^ 32 -> exists sdu b', on_new_tx_sdu n b = Ok (sdu, b') /\ builder_ok b' /\ zlen sdu <= n
}.

Module MacDlSch.

(** ** Sizes *)

Definition FIXED_SIZED_MAC_CE_SUBHEADER_SIZE : Z := 1.
Definition MAC_SDU_SUBHEADER_LENGTH_THRES : Z := 256.
Definition MIN_MAC_SDU_SUBHEADER_SIZE : Z := 2.
Definition MAX_MAC_SDU_SUBHEADER_SIZE : Z := 3.

Definition get_mac_sdu_subheader_size (payload : Z) : Z :=
  if payload =? 0 then 0 else if MAC_SDU_SUBHEADER_LENGTH_THRES <=? payload then MAX_MAC_SDU_SUBHEADER_SIZE else MIN_MAC_SDU_SUBHEADER_SIZE.
Definition get_mac_sdu_required_bytes (payload : Z) : Z := u32 (payload + get_mac_sdu_subheader_size payload).
Definition get_mac_sdu_payload_size (mac_sdu_size : Z) : Z :=
  if mac_sdu_size <=? MAC_SDU_SUBHEADER_LENGTH_THRES + MIN_MAC_SDU_SUBHEADER_SIZE - 1 then u32 (mac_sdu_size - MIN_MAC_SDU_SUBHEADER_SIZE)
  else u32 (mac_sdu_size - MAX_MAC_SDU_SUBHEADER_SIZE).

Definition LCID_SRB0 : Z := 0.
Definition LCID32 : Z := 32.
Definition TA_CMD : Z := 61.
Definition UE_CON_RES_ID : Z := 62.
Definition PADDING : Z := 63.
Definition UE_CON_RES_ID_LEN : Z := 6.
Definition is_sdu (lcid : Z) : bool := (lcid <=? LCID32) && (0 <=? lcid).
Definition sizeof_ce (lcid : Z) : Z := if lcid =? 57 then 4 else if (lcid =? 58) || (lcid =? TA_CMD) then 1 else if lcid =? UE_CON_RES_ID then 6 else 0.

Definition min_mac_subhdr_and_sdu_space_required (lcid : Z) : Z := MIN_MAC_SDU_SUBHEADER_SIZE + 1 + (if negb (lcid =? LCID_SRB0) then 2 else 0).

(** ** The PDU *)

(** The span of the transport block is the first [size] octets of the HARQ buffer [pdu]. *)
Record dl_sch_pdu := mk_pdu { pdu : list Z; size : Z; byte_offset : Z }.

Definition P (A : Type) : Type := M dl_sch_pdu Empty_set A.

Definition nof_bytes (p : dl_sch_pdu) : Z := byte_offset p.
Definition nof_empty_bytes (p : dl_sch_pdu) : Z := u32 (size p - byte_offset p).

(** Octets copied to [o]; outside the buffer this is a fault. *)
Definition write_at (o : Z) (octets : list Z) : P unit :=
  let! p := get in
  if zlen (pdu p) <? o + zlen octets then abort else
  modify (fun p => mk_pdu (take (Z.to_nat o) (pdu p) ++ octets ++ drop (Z.to_nat (o + zlen octets)) (pdu p)) (size p) (byte_offset p)).

Definition advance_offset (n : Z) : P unit := modify (fun p => mk_pdu (pdu p) (size p) (u32 (byte_offset p + n))).

(** [pdu[byte_offset++] = b]; the index is asserted to lie in the span. *)
Definition put (b : Z) : P unit :=
  let! p := get in
  assert_ (byte_offset p <? size p) ;;;
  write_at (byte_offset p) [u8 b] ;;;
  advance_offset 1.

Definition encode_subheader (F_bit : bool) (lcid header_len payload_len : Z) : P unit :=
  put (Z.lor (Z.shiftl (if F_bit then 1 else 0) 6) (Z.land lcid 0x3f)) ;;;
  if header_len =? 3 then put (Z.shiftr (Z.land payload_len 0xff00) 8) ;;; put (Z.land payload_len 0xff)
  else if header_len =? 2 then put (Z.land payload_len 0xff)
  else if header_len =? 1 then ret tt
  else abort.

(** *** The encoder of an SDU *)

Record mac_sdu_encoder := mk_enc { enc_lcid : Z; subhr_len : Z; max_sdu_size : Z }.

(** [None]: not valid. *)
Definition get_sdu_encoder (lcid sdu_payload_len_estimate : Z) : P (option mac_sdu_encoder) :=
  if sdu_payload_len_estimate =? 0 then ret None else
  let! p := get in
  let rem_grant_space := nof_empty_bytes p in
  if rem_grant_space <? min_mac_subhdr_and_sdu_space_required lcid then ret None else
  let space_estim := rem_grant_space `min` get_mac_sdu_required_bytes sdu_payload_len_estimate in
  let sdu_space_estim := get_mac_sdu_payload_size space_estim in
  ret (Some (mk_enc lcid (get_mac_sdu_subheader_size sdu_space_estim) sdu_space_estim)).

(** [sdu_buffer]: where it starts; offset and size are asserted to lie in the span. *)
Definition sdu_buffer (enc : mac_sdu_encoder) : P Z :=
  let! p := get in
  let sdu_offset := u32 (byte_offset p + subhr_len enc) in
  assert_ (sdu_offset <=? size p) ;;;
  assert_ (max_sdu_size enc <=? size p - sdu_offset) ;;;
  ret sdu_offset.

Definition encode_sdu (enc : mac_sdu_encoder) (sdu_bytes_written : Z) : P Z :=
  if (sdu_bytes_written =? 0) || (max_sdu_size enc <? sdu_bytes_written) then ret 0 else
  let! subhr_len :=
    (if negb (get_mac_sdu_subheader_size sdu_bytes_written =? subhr_len enc) then
       let! p := get in
       let new_start := byte_offset p + MIN_MAC_SDU_SUBHEADER_SIZE in
       write_at new_start (sub (new_start + 1) sdu_bytes_written (pdu p)) ;;;
       ret MIN_MAC_SDU_SUBHEADER_SIZE
     else ret (subhr_len enc)) in
  encode_subheader (MIN_MAC_SDU_SUBHEADER_SIZE <? subhr_len) (enc_lcid enc) subhr_len sdu_bytes_written ;;;
  advance_offset sdu_bytes_written ;;;
  ret (u32 (subhr_len + sdu_bytes_written)).

(** An SDU that is at hand: it is copied before its size is looked at. *)
Definition add_sdu (lcid : Z) (sdu : list Z) : P Z :=
  assert_ (negb (zlen sdu =? 0)) ;;;
  let! enc := get_sdu_encoder lcid (zlen sdu) in
  match enc with
  | None => ret 0
  | Some enc =>
      let! o := sdu_buffer enc in
      write_at o sdu ;;;
      encode_sdu enc (zlen sdu)
  end.

(** *** Control elements and padding *)

Definition add_ue_con_res_id (con_res_payload : list Z) : P unit :=
  encode_subheader false UE_CON_RES_ID 1 (sizeof_ce UE_CON_RES_ID) ;;;
  let! p := get in
  write_at (byte_offset p) con_res_payload ;;;
  advance_offset (zlen con_res_payload).

Record ta_cmd_ce_payload := mk_ta { tag_id : Z; ta_cmd : Z }.

Definition add_tag_cmd (ce_payload : ta_cmd_ce_payload) : P unit :=
  encode_subheader false TA_CMD 1 (sizeof_ce TA_CMD) ;;;
  put (Z.lor (Z.land (tag_id ce_payload) 0xc0) (Z.land (ta_cmd ce_payload) 0x3f)).

Definition add_padding (len : Z) : P unit :=
  let sdu_len := u32 (len - 1) in
  encode_subheader false PADDING 1 sdu_len ;;;
  let! p := get in
  write_at (byte_offset p) (repeat 0 (Z.to_nat sdu_len)) ;;;
  advance_offset sdu_len.

(** ** UEs and their bearers *)

Inductive ce_payload := ta_cmd_payload (ta : ta_cmd_ce_payload) | dummy_ce_payload (v : Z).
Record dl_msg_lc_info := mk_lc { lcid : Z; sched_bytes : Z; payload : ce_payload }.

(** The context of a UE refers to its bearers. *)
Record mac_dl_ue_context := mk_ue { dl_bearers : gmap Z nat; msg3_subpdu : list Z }.

Section assembler.
Context {B : Type} `{MacSduTxBuilder B}.

(** [harq]: the buffers of a UE by HARQ process, with a flag while a transport block refers to them. *)
Record mac_dl := mk_mac { rnti_table : gmap Z Z; ue_db : gmap Z mac_dl_ue_context; bearers : gmap nat B; harq : gmap (Z * Z) (bool * list Z) }.

Definition D (A : Type) : Type := M (mac_dl * dl_sch_pdu) Empty_set A.

Definition set_bearers (b : gmap nat B) (m : mac_dl) : mac_dl := mk_mac (rnti_table m) (ue_db m) b (harq m).
Definition set_harq (h : gmap (Z * Z) (bool * list Z)) (m : mac_dl) : mac_dl := mk_mac (rnti_table m) (ue_db m) (bearers m) h.
Definition set_ue_db (d : gmap Z mac_dl_ue_context) (m : mac_dl) : mac_dl := mk_mac (rnti_table m) d (bearers m) (harq m).

(** An operation on the PDU. *)
Definition on_pdu {A} (m : P A) : D A := lift snd (fun p s => (fst s, p)) id m.

Definition INVALID_DU_UE_INDEX : Z := 1024.
Definition get_ue_index (m : mac_dl) (rnti : Z) : Z :=
  let i := default INVALID_DU_UE_INDEX (rnti_table m !! rnti) in if i <? 1024 then i else INVALID_DU_UE_INDEX.

Definition get_lc_sdu_builder (m : mac_dl) (rnti lcid : Z) : option nat :=
  ue_db m !! default INVALID_DU_UE_INDEX (rnti_table m !! rnti) ≫= fun u => dl_bearers u !! lcid.

Definition get_con_res_id (m : mac_dl) (rnti : Z) : list Z :=
  match ue_db m !! default INVALID_DU_UE_INDEX (rnti_table m !! rnti) with None => repeat 0 (Z.to_nat UE_CON_RES_ID_LEN) | Some u => msg3_subpdu u end.

(** *** The repository *)

(** The id of an LCID that exists is kept. *)
Definition addmod_logical_channels (lcs : list (Z * nat)) (u : mac_dl_ue_context) : mac_dl_ue_context :=
  mk_ue (fold_left (fun b lc => match b !! fst lc with Some _ => b | None => <[fst lc := snd lc]> b end) lcs (dl_bearers u)) (msg3_subpdu u).
Definition remove_logical_channels (lcids : list Z) (u : mac_dl_ue_context) : mac_dl_ue_context :=
  mk_ue (fold_left (fun b l => delete l b) lcids (dl_bearers u)) (msg3_subpdu u).

(** A CCCH message shorter than the contention resolution identity fails an assertion ([None]). *)
Definition create_ue (lcs : list (Z * nat)) (ul_ccch_msg : option (list Z)) : option mac_dl_ue_context :=
  let u := addmod_logical_channels lcs (mk_ue ∅ (repeat 0 (Z.to_nat UE_CON_RES_ID_LEN))) in
  match ul_ccch_msg with
  | None => Some u
  | Some msg => if zlen msg <? UE_CON_RES_ID_LEN then None else Some (mk_ue (dl_bearers u) (take (Z.to_nat UE_CON_RES_ID_LEN) msg))
  end.
Definition add_ue (i : Z) (u : mac_dl_ue_context) (m : mac_dl) : bool * mac_dl :=
  match ue_db m !! i with Some _ => (false, m) | None => (true, set_ue_db (<[i := u]> (ue_db m)) m) end.
Definition remove_ue (i : Z) (m : mac_dl) : bool * mac_dl :=
  match ue_db m !! i with Some _ => (true, set_ue_db (delete i (ue_db m)) m) | None => (false, m) end.
Definition addmod_bearers (i : Z) (lcs : list (Z * nat)) (m : mac_dl) : bool * mac_dl :=
  match ue_db m !! i with None => (false, m) | Some u => (true, set_ue_db (<[i := addmod_logical_channels lcs u]> (ue_db m)) m) end.
Definition remove_bearers (i : Z) (lcids : list Z) (m : mac_dl) : bool * mac_dl :=
  match ue_db m !! i with None => (false, m) | Some u => (true, set_ue_db (<[i := remove_logical_channels lcids u]> (ue_db m)) m) end.

(** *** SDUs of a logical channel *)

(** One round of the loop; [inr]: it is left. *)
Definition assemble_sdu (bearer : nat) (lcid rem_bytes : Z) : D (Z + Z) :=
  if rem_bytes <? min_mac_subhdr_and_sdu_space_required lcid then ret (inr rem_bytes) else
  let mac_opportunity_size := get_mac_sdu_payload_size rem_bytes in
  let! enc := on_pdu (get_sdu_encoder lcid mac_opportunity_size) in
  match enc with
  | None => ret (inr rem_bytes)
  | Some enc =>
      let! o := on_pdu (sdu_buffer enc) in
      let! s := get in
      let! b := need (bearers (fst s) !! bearer) in
      match on_new_tx_sdu (max_sdu_size enc) b with
      | Fault f => fun _ => Fault f
      | Ok (sdu, b) =>
          modify (fun s => (set_bearers (<[bearer := b]> (bearers (fst s))) (fst s), snd s)) ;;;
          on_pdu (write_at o sdu) ;;;
          if zlen sdu =? 0 then ret (inr rem_bytes) else
          let! subh_and_sdu_size := on_pdu (encode_sdu enc (zlen sdu)) in
          if subh_and_sdu_size =? 0 then ret (inr rem_bytes) else
          assert_ (subh_and_sdu_size <=? rem_bytes) ;;;
          ret (inl (u32 (rem_bytes - subh_and_sdu_size)))
      end
  end.

(** Each round takes three octets at least. *)
Definition assemble_sdus (rnti : Z) (lc : dl_msg_lc_info) : D unit :=
  let! s := get in
  let! bearer := need (get_lc_sdu_builder (fst s) rnti (lcid lc)) in
  let total_space := get_mac_sdu_required_bytes (sched_bytes lc) `min` nof_empty_bytes (snd s) in
  let! _ := while_loop (S (Z.to_nat total_space)) (assemble_sdu bearer (lcid lc)) total_space in
  ret tt.

Definition assemble_ce (rnti : Z) (lc : dl_msg_lc_info) : D unit :=
  if lcid lc =? UE_CON_RES_ID then let! s := get in on_pdu (add_ue_con_res_id (get_con_res_id (fst s) rnti))
  else if lcid lc =? TA_CMD then match payload lc with ta_cmd_payload ta => on_pdu (add_tag_cmd ta) | dummy_ce_payload _ => abort end
  else abort.

Definition assemble_lc (rnti : Z) (lc : dl_msg_lc_info) : D unit := if is_sdu (lcid lc) then assemble_sdus rnti lc else assemble_ce rnti lc.

(** [false]: the subPDUs exceed the transport block. *)
Definition assemble_pdu (rnti : Z) (lcs : list dl_msg_lc_info) (tb_size_bytes : Z) : D bool :=
  for_each lcs (assemble_lc rnti) ;;;
  let! s := get in
  let current_size := nof_bytes (snd s) in
  if current_size <? tb_size_bytes then on_pdu (add_padding (u32 (tb_size_bytes - current_size))) ;;; ret true else
  ret (negb (tb_size_bytes <? current_size)).

(** *** Transport blocks *)

Definition zero_buffer (n : Z) : list Z := repeat 0 (Z.to_nat n).

(** A HARQ process that the UE does not have is asserted against; a buffer in use is not allocated. *)
Definition allocate_dl_harq_buffer (m : mac_dl) (i h_id : Z) : res (option (list Z)) :=
  match harq m !! (i, h_id) with None => Fault FaultAssert | Some (in_use, buffer) => Ok (if in_use : bool then None else Some buffer) end.

(** The transport block, and the MAC with the buffer as it was left. *)
Definition assemble_newtx_pdu (rnti h_id : Z) (lcs : list dl_msg_lc_info) (tb_size_bytes : Z) (m : mac_dl) : res (list Z * mac_dl) :=
  let i := get_ue_index m rnti in
  if i =? INVALID_DU_UE_INDEX then Ok (zero_buffer tb_size_bytes, m) else
  match allocate_dl_harq_buffer m i h_id with
  | Fault f => Fault f
  | Ok None => Ok (zero_buffer tb_size_bytes, m)
  | Ok (Some buffer) =>
      if zlen buffer <? tb_size_bytes then Ok (zero_buffer tb_size_bytes, m) else
      match assemble_pdu rnti lcs tb_size_bytes (m, mk_pdu buffer tb_size_bytes 0) with
      | Fault f => Fault f
      | Ok (fits, (m, p), _) =>
          if fits then Ok (take (Z.to_nat (nof_bytes p)) (pdu p), set_harq (<[(i, h_id) := (true, pdu p)]> (harq m)) m)
          else Ok (zero_buffer tb_size_bytes, set_harq (<[(i, h_id) := (false, pdu p)]> (harq m)) m)
      end
  end.

Definition assemble_retx_pdu (rnti h_id tbs_bytes : Z) (m : mac_dl) : res (list Z * mac_dl) :=
  let i := get_ue_index m rnti in
  if i =? INVALID_DU_UE_INDEX then Ok (zero_buffer tbs_bytes, m) else
  match allocate_dl_harq_buffer m i h_id with
  | Fault f => Fault f
  | Ok None => Ok (zero_buffer tbs_bytes, m)
  | Ok (Some buffer) =>
      if zlen buffer <? tbs_bytes then Ok (zero_buffer tbs_bytes, m) else
      Ok (take (Z.to_nat tbs_bytes) buffer, set_harq (<[(i, h_id) := (true, buffer)]> (harq m)) m)
  end.

(** The lower layers drop the transport block. *)
Definition release_harq_buffer (i h_id : Z) (m : mac_dl) : mac_dl :=
  match harq m !! (i, h_id) with Some (_, buffer) => set_harq (<[(i, h_id) := (false, buffer)]> (harq m)) m | None => m end.

End assembler.

End MacDlSch.
