(* ===== verification/MacDlTheorems.v ===== *)
(** * MAC DL: what a transport block consists of

    A UE that is scheduled within its transport block gets a PDU that consists of the SDUs its bearers hand out and of the control
    elements asked for, in the order of the scheduler, and of padding; no assertion fails and nothing is written outside the
    block.  A receiver that follows TS 38.321 reads the same subPDUs. *)

From S2P Require Import Prelude Effects BitEncoding MacDlSch.
Open Scope Z_scope.
Open Scope entity_scope.

Import MacDlSch.

(** ** Octets *)

Definition dl_sdu_octets (lcid : Z) (sdu : list Z) : list Z :=
  (if zlen sdu <? 256 then [lcid; zlen sdu] else [64 + lcid; zlen sdu / 256; zlen sdu mod 256]) ++ sdu.

(** A timing advance command names the timing advance group in the two highest bits of its octet, TS 38.321 Section 6.1.3.4. *)
Inductive dl_part := part_sdu (lcid : Z) (sdu : list Z) | part_con_res (id : list Z) | part_ta (tag cmd : Z).
Definition ta_octet (tag cmd : Z) : Z := 64 * tag + cmd.

Definition part_octets (p : dl_part) : list Z :=
  match p with part_sdu lcid sdu => dl_sdu_octets lcid sdu | part_con_res id => UE_CON_RES_ID :: id | part_ta tag cmd => [TA_CMD; ta_octet tag cmd] end.
Definition parts_octets (ps : list dl_part) : list Z := ps ≫= part_octets.
Definition pad_octets (n : Z) : list Z := if n =? 0 then [] else PADDING :: repeat 0 (Z.to_nat (n - 1)).

(** ** The PDU as it is written *)

(** [l] is written, [rest] is what the buffer still holds behind it. *)
Record at_ (tb : Z) (l rest : list Z) (p : dl_sch_pdu) : Prop := {
  at_pdu : pdu p = l ++ rest;
  at_offset : byte_offset p = zlen l;
  at_size : size p = tb;
  at_fits : zlen l <= tb;
  at_buffer : tb <= zlen (l ++ rest) < 2 ^ 31
}.

Lemma at_empty tb l rest p : at_ tb l rest p -> nof_empty_bytes p = tb - zlen l.
Proof.
  intros [H1 H2 H3 H4 H5]. unfold nof_empty_bytes. rewrite H2, H3. pose proof (zlen_nonneg l). rewrite u32_small by lia. done.
Qed.

Lemma wp_put tb l x rest b p (Q : unit -> dl_sch_pdu -> list Empty_set -> Prop) : at_ tb l (x :: rest) p -> zlen l < tb -> 0 <= b < 256 ->
  (forall p' es, at_ tb (l ++ [b]) rest p' -> Q tt p' es) -> wp (put b) Q p.
Proof.
  intros [H1 H2 H3 H4 H5] Hl Hb HQ. unfold put. do 2 wp_step. wp_step. apply wp_assert; [apply Z.ltb_lt; lia|]. wp_step. unfold write_at. do 2 wp_step.
  pose proof (zlen_nonneg l). rewrite zlen_app, zlen_cons in H5. pose proof (zlen_nonneg rest).
  rewrite H1, H2, zlen_app, zlen_cons. change (zlen [u8 b]) with 1. rewrite (proj2 (Z.ltb_ge _ _)) by lia. wp_step. unfold advance_offset. wp_step. cbn [pdu size byte_offset app]. apply HQ.
  rewrite H1, take_app_zlen by done. rewrite H2. assert (drop (Z.to_nat (zlen l + 1)) (l ++ x :: rest) = rest) as ->.
  { replace (l ++ x :: rest) with ((l ++ [x]) ++ rest) by (by rewrite <- app_assoc). apply drop_app_zlen. rewrite zlen_app. done. }
  rewrite u8_small by lia. constructor; cbn [pdu size byte_offset]; [by rewrite <- app_assoc| |done| |].
  - rewrite zlen_app. change (zlen [b]) with 1. apply u32_small. lia.
  - rewrite zlen_app. change (zlen [b]) with 1. lia.
  - rewrite !zlen_app. change (zlen [b]) with 1. lia.
Qed.

Lemma wp_write_behind tb l mid old rest octets p (Q : unit -> dl_sch_pdu -> list Empty_set -> Prop) : at_ tb l (mid ++ old ++ rest) p -> zlen old = zlen octets ->
  (forall p' es, at_ tb l (mid ++ octets ++ rest) p' -> Q tt p' es) -> wp (write_at (zlen l + zlen mid) octets) Q p.
Proof.
  intros [H1 H2 H3 H4 H5] Ho HQ. unfold write_at. do 2 wp_step. rewrite H1. rewrite !zlen_app in *. pose proof (zlen_nonneg rest).
  rewrite (proj2 (Z.ltb_ge _ _)) by lia. cbv iota. wp_step. apply HQ. cbn [app]. rewrite H1.
  assert (take (Z.to_nat (zlen l + zlen mid)) (l ++ mid ++ old ++ rest) = l ++ mid) as -> by (rewrite app_assoc; apply take_app_zlen; by rewrite zlen_app).
  assert (drop (Z.to_nat (zlen l + zlen mid + zlen octets)) (l ++ mid ++ old ++ rest) = rest) as ->.
  { rewrite !app_assoc. apply drop_app_zlen. rewrite !zlen_app. lia. }
  constructor; cbn [pdu size byte_offset]; [by rewrite <- !app_assoc|done|done|done|]. rewrite !zlen_app. lia.
Qed.

Lemma wp_advance_offset tb l octets rest p n (Q : unit -> dl_sch_pdu -> list Empty_set -> Prop) : at_ tb l (octets ++ rest) p -> zlen octets = n -> zlen l + n <= tb ->
  (forall p' es, at_ tb (l ++ octets) rest p' -> Q tt p' es) -> wp (advance_offset n) Q p.
Proof.
  intros [H1 H2 H3 H4 H5] <- Hn HQ. unfold advance_offset. wp_step. apply HQ. pose proof (zlen_nonneg l). pose proof (zlen_nonneg octets). rewrite !zlen_app in H5.
  constructor; cbn [pdu size byte_offset]; [by rewrite <- app_assoc| |done| |].
  - rewrite zlen_app, H2. pose proof (zlen_nonneg rest). apply u32_small. lia.
  - rewrite zlen_app. lia.
  - rewrite !zlen_app. lia.
Qed.

Lemma no_events (es : list Empty_set) : es = [].
Proof. by destruct es as [|[]]. Qed.

(** Splitting what is left behind the offset. *)
Lemma split_rest {A} n (rest : list A) : 0 <= n <= zlen rest -> exists a b, rest = a ++ b /\ zlen a = n.
Proof. intros Hn. exists (take (Z.to_nat n) rest), (drop (Z.to_nat n) rest). split; [by rewrite take_drop|]. rewrite zlen_take by lia. lia. Qed.

Lemma zlen_one {A} (l : list A) : zlen l = 1 -> exists a, l = [a].
Proof. destruct l as [|a [|b l]]; intros H; [done|eauto|]. rewrite !zlen_cons in H. pose proof (zlen_nonneg l). lia. Qed.
Lemma zlen_more {A} (l : list A) n : zlen l = n + 1 -> 0 <= n -> exists a l', l = a :: l' /\ zlen l' = n.
Proof. intros H Hn. destruct l as [|a l]; [change (zlen (@nil A)) with 0 in H; lia|]. rewrite zlen_cons in H. exists a, l. split; [done|lia]. Qed.

(** ** Subheaders *)

Definition subheader (lcid h n : Z) : list Z :=
  if h =? 3 then [64 + lcid; n / 256; n mod 256] else if h =? 2 then [lcid; n mod 256] else [lcid].

Lemma land_ff00 n : 0 <= n < 65536 -> Z.shiftr (Z.land n 0xff00) 8 = n / 256.
Proof.
  intros Hn. rewrite Z.shiftr_land. change (Z.shiftr 0xff00 8) with 255. rewrite land_255, shiftr_8. apply Z.mod_small. zmod.
Qed.

Lemma subheader_first (F : bool) lcid : 0 <= lcid < 64 -> Z.lor (Z.shiftl (if F then 1 else 0) 6) (Z.land lcid 63) = (if F then 64 else 0) + lcid.
Proof. intros Hl. rewrite land_63, Z.mod_small, lor_shiftl_add by lia. by destruct F. Qed.

Lemma wp_encode_subheader tb l old rest p lcid h n (Q : unit -> dl_sch_pdu -> list Empty_set -> Prop) : at_ tb l (old ++ rest) p -> zlen old = h -> 1 <= h <= 3 -> zlen l + h <= tb ->
  0 <= lcid < 64 -> 0 <= n < 65536 \/ h = 1 -> (forall p' es, at_ tb (l ++ subheader lcid h n) rest p' -> Q tt p' es) -> wp (encode_subheader (2 <? h) lcid h n) Q p.
Proof.
  intros Hat Hold Hh Hfit Hl Hn HQ. unfold encode_subheader. assert (zlen old = (h - 1) + 1) as Ho by lia. destruct (zlen_more old _ Ho ltac:(lia)) as (o1 & old1 & -> & Ho1).
  wp_step. eapply wp_put; [exact Hat|lia|rewrite subheader_first by lia; destruct (2 <? h); lia|]. intros p1 es1 Hat1. rewrite subheader_first in Hat1 by lia. unfold subheader in HQ.
  destruct (Z.eqb_spec h 3) as [->|H3]; [|destruct (Z.eqb_spec h 2) as [->|H2]].
  - destruct Hn as [Hn|]; [|done]. destruct (zlen_more old1 1 Ho1 ltac:(lia)) as (o2 & old2 & -> & Ho2). destruct (zlen_one old2 Ho2) as [o3 ->].
    wp_step. eapply wp_put; [exact Hat1|rewrite zlen_app; change (zlen [_]) with 1; lia|rewrite land_ff00 by lia; zmod|]. intros p2 es2 Hat2.
    eapply wp_put; [exact Hat2|rewrite !zlen_app; change (zlen [_]) with 1; lia|rewrite land_255; zmod|]. intros p3 es3 Hat3. apply HQ. rewrite land_ff00, land_255 in Hat3 by lia.
    rewrite <- !app_assoc in Hat3. exact Hat3.
  - destruct Hn as [Hn|]; [|done]. destruct (zlen_one old1 Ho1) as [o2 ->].
    eapply wp_put; [exact Hat1|rewrite zlen_app; change (zlen [_]) with 1; lia|rewrite land_255; zmod|]. intros p2 es2 Hat2. apply HQ. rewrite land_255 in Hat2. rewrite <- app_assoc in Hat2. exact Hat2.
  - assert (h = 1) as -> by lia. apply zlen_zero_nil in Ho1 as ->. rewrite Z.eqb_refl. wp_step. by apply HQ.
Qed.

(** ** SDUs *)

Lemma zlen_dl_sdu lcid sdu : sdu <> [] -> zlen (dl_sdu_octets lcid sdu) = get_mac_sdu_subheader_size (zlen sdu) + zlen sdu.
Proof.
  intros Hne. unfold dl_sdu_octets, get_mac_sdu_subheader_size, MAC_SDU_SUBHEADER_LENGTH_THRES, MAX_MAC_SDU_SUBHEADER_SIZE, MIN_MAC_SDU_SUBHEADER_SIZE.
  rewrite (proj2 (Z.eqb_neq _ 0)) by (intros E; by apply Hne, zlen_zero_nil). rewrite zlen_app. destruct (Z.ltb_spec (zlen sdu) 256), (Z.leb_spec 256 (zlen sdu)); try lia; reflexivity.
Qed.

Lemma dl_sdu_subheader lcid sdu : sdu <> [] -> zlen sdu < 65536 -> dl_sdu_octets lcid sdu = subheader lcid (get_mac_sdu_subheader_size (zlen sdu)) (zlen sdu) ++ sdu.
Proof.
  intros Hne Hl. unfold dl_sdu_octets, get_mac_sdu_subheader_size, MAC_SDU_SUBHEADER_LENGTH_THRES, MAX_MAC_SDU_SUBHEADER_SIZE, MIN_MAC_SDU_SUBHEADER_SIZE. pose proof (zlen_nonneg sdu).
  rewrite (proj2 (Z.eqb_neq _ 0)) by (intros E; by apply Hne, zlen_zero_nil). destruct (Z.ltb_spec (zlen sdu) 256), (Z.leb_spec 256 (zlen sdu)); try lia; unfold subheader; cbn [Z.eqb Pos.eqb]; [|done].
  by rewrite Z.mod_small by lia.
Qed.

Lemma subheader_size_cases n : 1 <= n -> get_mac_sdu_subheader_size n = if 256 <=? n then 3 else 2.
Proof. intros Hn. unfold get_mac_sdu_subheader_size. rewrite (proj2 (Z.eqb_neq _ 0)) by lia. done. Qed.

(** The encoder is made for at most [max] octets; the SDU lies in the buffer behind the subheader that was foreseen. *)
Lemma wp_encode_sdu tb l mid sdu old p lcid max (Q : Z -> dl_sch_pdu -> list Empty_set -> Prop) :
  at_ tb l (mid ++ sdu ++ old) p -> zlen mid = get_mac_sdu_subheader_size max -> sdu <> [] -> zlen sdu <= max -> max < 65536 -> zlen l + zlen mid + max <= tb -> 0 <= lcid < 64 ->
  (forall rest p' es, at_ tb (l ++ dl_sdu_octets lcid sdu) rest p' -> Q (zlen (dl_sdu_octets lcid sdu)) p' es) ->
  wp (encode_sdu (mk_enc lcid (get_mac_sdu_subheader_size max) max) (zlen sdu)) Q p.
Proof.
  intros Hat Hmid Hne Hle Hmax Hfit Hl HQ. pose proof (zlen_nonneg sdu). pose proof (zlen_nonneg l). assert (1 <= zlen sdu) as H1 by (destruct (decide (zlen sdu = 0)) as [E|]; [by apply zlen_zero_nil in E|lia]).
  pose proof Hat as [A1 A2 A3 A4 A5]. unfold encode_sdu. cbn [max_sdu_size enc_lcid subhr_len]. rewrite (proj2 (Z.eqb_neq _ 0)), (proj2 (Z.ltb_ge _ _)) by lia. cbn [orb]. cbv iota. wp_step.
  set (h := get_mac_sdu_subheader_size (zlen sdu)). assert (2 <= h <= 3) as Hh by (unfold h; rewrite subheader_size_cases by lia; destruct (256 <=? _); lia).
  assert (h <= zlen mid) as Hhm by (rewrite Hmid; unfold h; rewrite !subheader_size_cases by lia; destruct (Z.leb_spec 256 (zlen sdu)), (Z.leb_spec 256 max); lia).
  assert (forall rest' p', at_ tb l ((take (Z.to_nat h) mid) ++ sdu ++ rest') p' -> wp (encode_subheader (MIN_MAC_SDU_SUBHEADER_SIZE <? h) lcid h (zlen sdu) ;;; advance_offset (zlen sdu) ;;; ret (u32 (h + zlen sdu))) Q p') as Hgo.
  { intros rest' p' Hp'. wp_step. eapply wp_encode_subheader; [exact Hp'|rewrite zlen_take by lia; lia|lia|lia|lia|lia|]. intros p2 es2 Hp2. wp_step. eapply wp_advance_offset; [exact Hp2|done| |].
    { rewrite zlen_app. assert (zlen (subheader lcid h (zlen sdu)) = h) as ->; [|lia]. unfold subheader. destruct (Z.eqb_spec h 3) as [->|]; [done|]. destruct (Z.eqb_spec h 2) as [->|]; [done|lia]. }
    intros p3 es3 Hp3. wp_step. pose proof (zlen_dl_sdu lcid sdu Hne) as Ez. fold h in Ez. rewrite u32_small by lia. rewrite <- Ez. apply (HQ rest').
    rewrite dl_sdu_subheader by (done || lia). fold h. by rewrite app_assoc. }
  destruct (Z.eqb_spec h (get_mac_sdu_subheader_size max)) as [E|Hne']; cbn [negb]; cbv iota.
  - wp_step. rewrite <- E. apply (Hgo old). rewrite E, <- Hmid. unfold zlen. rewrite Nat2Z.id, firstn_all. exact Hat.
  - assert (h = 2 /\ zlen mid = 3) as [E2 E3] by (rewrite <- Hmid in Hne'; unfold h in *; rewrite !subheader_size_cases in * by lia; destruct (Z.leb_spec 256 (zlen sdu)), (Z.leb_spec 256 max); lia).
    do 3 wp_step. rewrite A2. destruct (split_rest 2 mid ltac:(lia)) as (m2 & m1 & -> & Hm2). rewrite zlen_app in E3. assert (zlen m1 = 1) as Hm1 by lia. destruct (zlen_one m1 Hm1) as [x ->].
    assert (take (Z.to_nat h) (m2 ++ [x]) = m2) as Et by (rewrite E2; by apply take_app_zlen).
    assert (sub (zlen l + MIN_MAC_SDU_SUBHEADER_SIZE + 1) (zlen sdu) (pdu p) = sdu) as ->.
    { unfold sub. rewrite A1, !app_assoc, <- (app_assoc _ sdu old), drop_app_zlen, take_app_zlen; [done|done|]. rewrite !zlen_app, Hm2. change (zlen [x]) with 1. unfold MIN_MAC_SDU_SUBHEADER_SIZE. lia. }
    assert (exists y, ((m2 ++ [x]) ++ sdu ++ old) = m2 ++ (x :: removelast sdu) ++ (y ++ old) /\ zlen y = 1) as (y & Ey & Hy).
    { exists [List.last sdu 0]. split; [|done]. rewrite <- !app_assoc. cbn [app]. do 2 f_equal. rewrite (app_removelast_last 0 Hne) at 1. by rewrite <- app_assoc. }
    rewrite Ey in Hat. replace (zlen l + MIN_MAC_SDU_SUBHEADER_SIZE) with (zlen l + zlen m2) by (rewrite Hm2; done).
    eapply wp_write_behind; [exact Hat| |].
    { rewrite zlen_cons. assert (zlen sdu = zlen (removelast sdu) + 1); [|lia]. rewrite (app_removelast_last 0 Hne) at 1. rewrite zlen_app. done. }
    intros p' es' Hp'. rewrite (no_events es'). wp_step. rewrite E2 in Hgo, Et. apply (Hgo (y ++ old)). rewrite Et. exact Hp'.
Qed.

(** ** The rounds of a logical channel *)

Section assembler.
Context {B : Type} `{MacSduTxBuilder B}.

Lemma wp_on_pdu {A} (m : P A) (Q : A -> mac_dl (B := B) * dl_sch_pdu -> list Empty_set -> Prop) s :
  wp m (fun a p es => forall es', Q a (fst s, p) es') (snd s) -> wp (on_pdu m) Q s.
Proof. unfold wp, on_pdu, lift. destruct (m (snd s)) as [[[a p] es]|]; [|done]. intros HQ. apply HQ. Qed.

(** What a bearer hands out, one SDU after the other. *)
Inductive pulls : B -> list (list Z) -> B -> Prop :=
| pulls_done b : pulls b [] b
| pulls_next n b sdu b1 sdus b' : 0 <= n < 2 ^ 32 -> on_new_tx_sdu n b = Ok (sdu, b1) -> sdu <> [] -> pulls b1 sdus b' -> pulls b (sdu :: sdus) b'
| pulls_empty n b b1 : 0 <= n < 2 ^ 32 -> on_new_tx_sdu n b = Ok ([], b1) -> pulls b [] b1.

Inductive pulls_some : B -> list (list Z) -> B -> Prop :=
| ps_start b : pulls_some b [] b
| ps_step n b sdus b1 sdu b2 : pulls_some b sdus b1 -> 0 <= n < 2 ^ 32 -> on_new_tx_sdu n b1 = Ok (sdu, b2) -> sdu <> [] -> pulls_some b (sdus ++ [sdu]) b2.

Lemma pulls_some_app b sdus b1 : pulls_some b sdus b1 -> forall more b', pulls b1 more b' -> pulls b (sdus ++ more) b'.
Proof.
  induction 1 as [b|n b sdus b1 sdu b2 _ IH Hn E Hne]; intros more b' Hm; [done|]. rewrite <- app_assoc. apply IH. by apply pulls_next with n b2.
Qed.

Definition sdus_octets (lcid : Z) (sdus : list (list Z)) : list Z := parts_octets (map (part_sdu lcid) sdus).

Lemma sdus_octets_snoc lcid sdus sdu : sdus_octets lcid (sdus ++ [sdu]) = sdus_octets lcid sdus ++ dl_sdu_octets lcid sdu.
Proof. unfold sdus_octets, parts_octets. rewrite map_app, bind_app. cbn. by rewrite app_nil_r. Qed.

Lemma payload_size_spec rem : 3 <= rem < 2 ^ 31 -> let n := get_mac_sdu_payload_size rem in
  1 <= n /\ n + get_mac_sdu_subheader_size n <= rem /\ rem <= n + 3 /\
  forall space, rem <= space -> get_mac_sdu_payload_size (space `min` get_mac_sdu_required_bytes n) = n.
Proof.
  intros Hr n. unfold n, get_mac_sdu_payload_size, get_mac_sdu_required_bytes, MAC_SDU_SUBHEADER_LENGTH_THRES, MIN_MAC_SDU_SUBHEADER_SIZE, MAX_MAC_SDU_SUBHEADER_SIZE.
  destruct (Z.leb_spec rem (256 + 2 - 1)); rewrite u32_small by lia; rewrite subheader_size_cases by lia.
  - rewrite (proj2 (Z.leb_gt 256 _)) by lia. split; [lia|]. split; [lia|]. split; [lia|]. intros space Hs. rewrite u32_small by lia. rewrite Z.min_r by lia.
    rewrite (proj2 (Z.leb_le _ _)) by lia. rewrite u32_small by lia. lia.
  - destruct (Z.leb_spec 256 (rem - 3)).
    + split; [lia|]. split; [lia|]. split; [lia|]. intros space Hs. rewrite u32_small by lia. rewrite Z.min_r by lia. rewrite (proj2 (Z.leb_gt _ _)) by lia. rewrite u32_small by lia. lia.
    + split; [lia|]. split; [lia|]. split; [lia|]. intros space Hs. rewrite u32_small by lia. rewrite Z.min_r by lia. rewrite (proj2 (Z.leb_le _ _)) by lia. rewrite u32_small by lia. lia.
Qed.

Lemma wp_get_sdu_encoder tb l rest p lcid rem (Q : option mac_sdu_encoder -> dl_sch_pdu -> list Empty_set -> Prop) : at_ tb l rest p ->
  min_mac_subhdr_and_sdu_space_required lcid <= rem -> rem <= tb - zlen l -> let n := get_mac_sdu_payload_size rem in
  Q (Some (mk_enc lcid (get_mac_sdu_subheader_size n) n)) p [] -> wp (get_sdu_encoder lcid n) Q p.
Proof.
  intros Hat Hmin Hrem n HQ. pose proof Hat as [A1 A2 A3 A4 A5]. pose proof (zlen_nonneg l). assert (3 <= rem) as H3.
  { unfold min_mac_subhdr_and_sdu_space_required, MIN_MAC_SDU_SUBHEADER_SIZE in Hmin. destruct (negb _); lia. }
  destruct (payload_size_spec rem ltac:(lia)) as (N1 & N2 & _ & N3). unfold get_sdu_encoder. rewrite (proj2 (Z.eqb_neq _ 0)) by (fold n in N1; lia). cbv iota. do 2 wp_step. cbv zeta.
  rewrite (at_empty tb l rest p Hat), (proj2 (Z.ltb_ge _ _)) by lia. cbv iota. wp_step. fold n in N3. rewrite N3 by lia. exact HQ.
Qed.

(** One round: the loop is left, or one more SDU follows what is written. *)
Lemma wp_assemble_sdu tb l rest m p k b lcid rem (Q : Z + Z -> mac_dl (B := B) * dl_sch_pdu -> list Empty_set -> Prop) :
  at_ tb l rest p -> rem <= tb - zlen l -> 0 <= rem <= 65538 -> 0 <= lcid < 64 -> bearers m !! k = Some b -> builder_ok b ->
  (forall r, (r = inr rem) -> forall es, Q r (m, p) es) ->
  (forall n b' p' es, 0 <= n < 2 ^ 32 -> on_new_tx_sdu n b = Ok ([], b') -> builder_ok b' -> at_ tb l rest p' -> Q (inr rem) (set_bearers (<[k := b']> (bearers m)) m, p') es) ->
  (forall n sdu b' rest' p' es, 0 <= n < 2 ^ 32 -> on_new_tx_sdu n b = Ok (sdu, b') -> sdu <> [] -> builder_ok b' -> at_ tb (l ++ dl_sdu_octets lcid sdu) rest' p' ->
    3 <= zlen (dl_sdu_octets lcid sdu) <= rem -> Q (inl (rem - zlen (dl_sdu_octets lcid sdu))) (set_bearers (<[k := b']> (bearers m)) m, p') es) ->
  wp (assemble_sdu k lcid rem) Q (m, p).
Proof.
  intros Hat Hrem Hrb Hl Hk Hb HQ1 HQ2 HQ3. pose proof Hat as [A1 A2 A3 A4 A5]. pose proof (zlen_nonneg l). unfold assemble_sdu.
  destruct (Z.ltb_spec rem (min_mac_subhdr_and_sdu_space_required lcid)) as [|Hmin]; [wp_step; by apply HQ1|]. cbv zeta. assert (3 <= rem) as H3.
  { unfold min_mac_subhdr_and_sdu_space_required, MIN_MAC_SDU_SUBHEADER_SIZE in Hmin. destruct (negb _); lia. }
  destruct (payload_size_spec rem ltac:(lia)) as (N1 & N2 & N3 & _). set (n := get_mac_sdu_payload_size rem) in *.
  rewrite subheader_size_cases in N2 by lia. assert (n < 65536) as Hn by (destruct (Z.leb_spec 256 n); lia).
  set (h := if 256 <=? n then 3 else 2) in N2. assert (2 <= h <= 3) as Hh by (unfold h; destruct (256 <=? n); lia).
  wp_step. apply wp_on_pdu. cbn [fst snd]. eapply wp_get_sdu_encoder; [exact Hat|done|done|]. intros es1. cbv iota.
  wp_step. apply wp_on_pdu. cbn [fst snd]. unfold sdu_buffer. do 2 wp_step. cbn [subhr_len max_sdu_size]. rewrite A2, A3, subheader_size_cases by (fold n; lia). fold n. fold h.
  rewrite u32_small by lia. wp_step. apply wp_assert; [apply Z.leb_le; lia|]. wp_step. apply wp_assert; [apply Z.leb_le; lia|]. wp_step. intros es2. cbn [app].
  do 3 wp_step. apply wp_need with b; [done|]. cbn [app]. destruct (on_new_tx_sdu_ok n b Hb ltac:(lia)) as (sdu & b' & E & Hb' & Hlen). rewrite E.
  wp_step. wp_step. cbn [fst snd]. wp_step. apply wp_on_pdu. cbn [fst snd].
  assert (zlen l + h + zlen sdu <= zlen (l ++ rest)) as Hroom by lia. rewrite zlen_app in Hroom. pose proof (zlen_nonneg sdu).
  destruct (split_rest h rest ltac:(lia)) as (mid & r1 & -> & Hmid). rewrite zlen_app in Hroom. destruct (split_rest (zlen sdu) r1 ltac:(lia)) as (old & r2 & -> & Hold). rewrite <- Hmid.
  eapply wp_write_behind; [exact Hat|done|]. intros p2 es3 Hp2 es4. cbn [app]. destruct (Z.eqb_spec (zlen sdu) 0) as [E0|Hne].
  - apply zlen_zero_nil in E0 as ->. apply zlen_zero_nil in Hold as ->. wp_step. apply (HQ2 n); try done; lia.
  - assert (sdu <> []) as Hsne by (intros ->; done). wp_step. apply wp_on_pdu. cbn [fst snd]. assert (h = get_mac_sdu_subheader_size n) as Ehn by (rewrite subheader_size_cases by lia; done).
    rewrite Hmid, Ehn. eapply (wp_encode_sdu tb l mid sdu r2); [exact Hp2|by rewrite Hmid|done|done|lia|lia|done|]. intros rest' p3 es5 Hp3 es6.
    pose proof (zlen_dl_sdu lcid sdu Hsne) as Ez. rewrite subheader_size_cases in Ez by lia. assert (3 <= zlen (dl_sdu_octets lcid sdu) <= rem) as Hzr.
    { rewrite Ez. unfold h in *. destruct (Z.leb_spec 256 (zlen sdu)), (Z.leb_spec 256 n); lia. }
    rewrite (proj2 (Z.eqb_neq _ 0)) by lia. cbv iota. wp_step. apply wp_assert; [apply Z.leb_le; lia|]. wp_step. rewrite u32_small by lia. eapply (HQ3 n); try done; lia.
Qed.

(** All rounds of a logical channel. *)
Lemma set_bearers_twice k b b1 (m : mac_dl (B := B)) : set_bearers (<[k := b1]> (bearers (set_bearers (<[k := b]> (bearers m)) m))) (set_bearers (<[k := b]> (bearers m)) m) = set_bearers (<[k := b1]> (bearers m)) m.
Proof. unfold set_bearers. cbn. by rewrite insert_insert_eq. Qed.
Lemma set_bearers_same k b (m : mac_dl (B := B)) : bearers m !! k = Some b -> set_bearers (<[k := b]> (bearers m)) m = m.
Proof. intros Hk. unfold set_bearers. rewrite insert_id by done. by destruct m. Qed.

Lemma zlen_sdus_octets_nonneg lcid sdus : 0 <= zlen (sdus_octets lcid sdus).
Proof. apply zlen_nonneg. Qed.

Lemma wp_assemble_sdus tb l rest m p rnti lc k b (Q : unit -> mac_dl (B := B) * dl_sch_pdu -> list Empty_set -> Prop) :
  at_ tb l rest p -> 0 <= lcid lc < 64 -> 0 <= sched_bytes lc < 65536 -> get_lc_sdu_builder m rnti (lcid lc) = Some k -> bearers m !! k = Some b -> builder_ok b ->
  (forall sdus b' rest' p' es, pulls b sdus b' -> builder_ok b' -> Forall (fun s => s <> []) sdus -> at_ tb (l ++ sdus_octets (lcid lc) sdus) rest' p' ->
    zlen (sdus_octets (lcid lc) sdus) <= get_mac_sdu_required_bytes (sched_bytes lc) -> Q tt (set_bearers (<[k := b']> (bearers m)) m, p') es) ->
  wp (assemble_sdus rnti lc) Q (m, p).
Proof.
  intros Hat Hl Hs Hk Hb Hok HQ. pose proof Hat as [A1 A2 A3 A4 A5]. unfold assemble_sdus. do 3 wp_step. cbn [fst snd]. apply wp_need with k; [done|]. cbv zeta. wp_step. cbn [app].
  rewrite (at_empty tb l rest p Hat). set (req := get_mac_sdu_required_bytes (sched_bytes lc)) in *. set (total := req `min` (tb - zlen l)).
  assert (0 <= req <= 65538) as Hreq.
  { unfold req, get_mac_sdu_required_bytes, get_mac_sdu_subheader_size, MAC_SDU_SUBHEADER_LENGTH_THRES, MAX_MAC_SDU_SUBHEADER_SIZE, MIN_MAC_SDU_SUBHEADER_SIZE.
    destruct (sched_bytes lc =? 0), (256 <=? sched_bytes lc); rewrite u32_small by lia; lia. }
  apply (wp_while_loop (fun n rem s _ => rem < Z.of_nat n /\ exists sdus b1 rest1 p1, pulls_some b sdus b1 /\ builder_ok b1 /\ Forall (fun s => s <> []) sdus /\
      s = (set_bearers (<[k := b1]> (bearers m)) m, p1) /\ at_ tb (l ++ sdus_octets (lcid lc) sdus) rest1 p1 /\ rem = total - zlen (sdus_octets (lcid lc) sdus) /\ 0 <= rem)).
  - split; [unfold total; lia|]. exists [], b, rest, p. split; [constructor|]. split; [done|]. split; [constructor|]. split; [by rewrite set_bearers_same|].
    split; [by rewrite app_nil_r|]. change (zlen (sdus_octets (lcid lc) [])) with 0. unfold total. lia.
  - intros i s es (Hi & sdus & b1 & rest1 & p1 & _ & _ & _ & _ & _ & _ & H0). lia.
  - intros n rem s es (Hn & sdus & b1 & rest1 & p1 & P1 & P2 & P4 & -> & P5 & P6 & P7). pose proof (zlen_sdus_octets_nonneg (lcid lc) sdus).
    assert (forall es', Q tt (set_bearers (<[k := b1]> (bearers m)) m, p1) es') as Hleave.
    { intros es'. apply (HQ sdus b1 rest1); [|done|done|done|lia]. rewrite <- (app_nil_r sdus). eapply pulls_some_app; [exact P1|constructor]. }
    eapply (wp_assemble_sdu tb _ rest1 _ p1 k b1); [exact P5|rewrite zlen_app; lia|lia|done|cbn; apply lookup_insert_eq|done| | |].
    + intros r -> es'. wp_step. apply Hleave.
    + intros g b2 p2 es' Hg E Hb2 Hp2. wp_step. rewrite set_bearers_twice. apply (HQ sdus b2 rest1); [|done|done|done|lia]. rewrite <- (app_nil_r sdus). eapply pulls_some_app; [exact P1|]. by eapply pulls_empty.
    + intros g sdu b2 rest2 p2 es' Hg E Hne Hb2 Hp2 Hz. split; [lia|]. exists (sdus ++ [sdu]), b2, rest2, p2. split; [by eapply ps_step|]. split; [done|].
      split; [by apply Forall_app; split; [|apply Forall_singleton]|]. split; [by rewrite set_bearers_twice|]. rewrite sdus_octets_snoc, app_assoc. split; [done|]. rewrite zlen_app. lia.
Qed.

(** ** Control elements *)

Lemma wp_add_con_res tb l rest p id (Q : unit -> dl_sch_pdu -> list Empty_set -> Prop) : at_ tb l rest p -> zlen id = 6 -> zlen l + 7 <= tb ->
  (forall rest' p' es, at_ tb (l ++ UE_CON_RES_ID :: id) rest' p' -> Q tt p' es) -> wp (add_ue_con_res_id id) Q p.
Proof.
  intros Hat Hid Hfit HQ. pose proof Hat as [A1 A2 A3 A4 A5]. rewrite zlen_app in A5. destruct (split_rest 7 rest ltac:(lia)) as (old & r & -> & Hold). destruct (split_rest 1 old ltac:(lia)) as (o1 & o2 & -> & Ho1).
  rewrite zlen_app in Hold. rewrite <- app_assoc in Hat. unfold add_ue_con_res_id. wp_step. eapply (wp_encode_subheader tb l o1 (o2 ++ r) p UE_CON_RES_ID 1); [exact Hat|done|lia|lia|unfold UE_CON_RES_ID; lia|by right|].
  intros p1 es1 Hp1. pose proof Hp1 as [C1 C2 C3 C4 C5]. do 3 wp_step. rewrite C2. replace (zlen (l ++ subheader UE_CON_RES_ID 1 (sizeof_ce UE_CON_RES_ID))) with (zlen (l ++ subheader UE_CON_RES_ID 1 (sizeof_ce UE_CON_RES_ID)) + zlen (@nil Z)) by (rewrite zlen_nil; lia).
  eapply (wp_write_behind tb _ [] o2 r id); [exact Hp1|lia|]. intros p2 es2 Hp2. eapply (wp_advance_offset tb _ id r); [exact Hp2|done|rewrite zlen_app; change (zlen (subheader UE_CON_RES_ID 1 (sizeof_ce UE_CON_RES_ID))) with 1; lia|].
  intros p3 es3 Hp3. apply (HQ r). rewrite <- app_assoc in Hp3. exact Hp3.
Qed.

(** The group and the command that are written: the mask for the group keeps the wrong bits of its identity. *)
Definition ta_written (ta : ta_cmd_ce_payload) : Z * Z := (Z.land (tag_id ta) 0xc0 / 64, Z.land (ta_cmd ta) 0x3f).
Definition octet_written (ta : ta_cmd_ce_payload) : Z := ta_octet (fst (ta_written ta)) (snd (ta_written ta)).

Lemma land_high x : Z.land x 0xc0 = Z.shiftl ((x / 64) mod 4) 6.
Proof.
  change 4 with (2 ^ 2). change 64 with (2 ^ 6). rewrite <- land_mask, <- Z.shiftr_div_pow2 by lia. apply Z.bits_inj'. intros i Hi. change 0xc0 with (Z.shiftl (2 ^ 2 - 1) 6).
  rewrite Z.land_spec, !Z.shiftl_spec by lia. destruct (Z.lt_ge_cases i 6); [by rewrite !(Z.testbit_neg_r _ (i - 6)), andb_false_r by lia|].
  rewrite Z.land_spec, Z.shiftr_spec by lia. by replace (i - 6 + 6) with i by lia.
Qed.

Lemma ta_written_eq ta : ta_written ta = ((tag_id ta / 64) mod 4, ta_cmd ta mod 64).
Proof.
  unfold ta_written. rewrite land_high, Z.shiftl_mul_pow2 by lia. change (2 ^ 6) with 64. rewrite Z.div_mul by lia. change 0x3f with (2 ^ 6 - 1). by rewrite land_mask by lia.
Qed.

Lemma ta_written_range ta : 0 <= fst (ta_written ta) < 4 /\ 0 <= snd (ta_written ta) < 64.
Proof. rewrite ta_written_eq. cbn [fst snd]. zmod. Qed.

Lemma put_ta ta : Z.lor (Z.land (tag_id ta) 0xc0) (Z.land (ta_cmd ta) 0x3f) = octet_written ta.
Proof.
  unfold octet_written, ta_octet. rewrite ta_written_eq, land_high. cbn [fst snd]. change 0x3f with (2 ^ 6 - 1). rewrite land_mask by lia. rewrite lor_shiftl_add; [change (2 ^ 6) with 64; lia|lia|change (2 ^ 6) with 64; zmod].
Qed.

Lemma wp_add_tag_cmd tb l rest p ta (Q : unit -> dl_sch_pdu -> list Empty_set -> Prop) : at_ tb l rest p -> zlen l + 2 <= tb ->
  (forall rest' p' es, at_ tb (l ++ [TA_CMD; octet_written ta]) rest' p' -> Q tt p' es) -> wp (add_tag_cmd ta) Q p.
Proof.
  intros Hat Hfit HQ. pose proof Hat as [A1 A2 A3 A4 A5]. rewrite zlen_app in A5. destruct (split_rest 2 rest ltac:(lia)) as (old & r & -> & Hold). destruct (zlen_more old 1 Hold ltac:(lia)) as (x & o2 & -> & Ho2). destruct (zlen_one o2 Ho2) as [y ->].
  unfold add_tag_cmd. wp_step. eapply (wp_encode_subheader tb l [x] ([y] ++ r) p TA_CMD 1); [exact Hat|done|lia|lia|unfold TA_CMD; lia|by right|]. intros p1 es1 Hp1.
  rewrite put_ta. eapply wp_put; [exact Hp1|rewrite zlen_app; change (zlen (subheader TA_CMD 1 (sizeof_ce TA_CMD))) with 1; lia|pose proof (ta_written_range ta); unfold octet_written, ta_octet; lia|]. intros p2 es2 Hp2. apply (HQ r). rewrite <- app_assoc in Hp2. exact Hp2.
Qed.

Lemma wp_add_padding tb l rest p (Q : unit -> dl_sch_pdu -> list Empty_set -> Prop) : at_ tb l rest p -> zlen l < tb ->
  (forall rest' p' es, at_ tb (l ++ pad_octets (tb - zlen l)) rest' p' -> Q tt p' es) -> wp (add_padding (tb - zlen l)) Q p.
Proof.
  intros Hat Hfit HQ. pose proof Hat as [A1 A2 A3 A4 A5]. pose proof (zlen_nonneg l). rewrite zlen_app in A5. destruct (split_rest (tb - zlen l) rest ltac:(lia)) as (old & r & -> & Hold).
  destruct (zlen_more old (tb - zlen l - 1) ltac:(lia) ltac:(lia)) as (x & o2 & -> & Ho2). unfold add_padding. rewrite u32_small by lia. cbv zeta. wp_step.
  eapply (wp_encode_subheader tb l [x] (o2 ++ r) p PADDING 1); [exact Hat|done|lia|lia|unfold PADDING; lia|by right|]. intros p1 es1 Hp1. pose proof Hp1 as [C1 C2 C3 C4 C5]. do 3 wp_step. rewrite C2.
  change (subheader PADDING 1 (tb - zlen l - 1)) with [PADDING] in *. assert (zlen (repeat 0 (Z.to_nat (tb - zlen l - 1))) = tb - zlen l - 1) as Ez by (unfold zlen; rewrite repeat_length; unfold zlen in *; lia).
  replace (zlen (l ++ [PADDING])) with (zlen (l ++ [PADDING]) + zlen (@nil Z)) by (rewrite zlen_nil; lia).
  eapply (wp_write_behind tb _ [] o2 r); [exact Hp1|lia|]. intros p2 es2 Hp2. eapply (wp_advance_offset tb _ (repeat 0 (Z.to_nat (tb - zlen l - 1))) r); [exact Hp2|exact Ez|rewrite zlen_app; change (zlen [PADDING]) with 1; lia|].
  intros p3 es3 Hp3. apply (HQ r). unfold pad_octets. rewrite (proj2 (Z.eqb_neq _ _)) by lia. rewrite <- app_assoc in Hp3. exact Hp3.
Qed.

End assembler.

(** * MAC DL: transport blocks

    A scheduled UE gets a transport block of the size asked for that holds what its bearers handed out and the control elements, in
    the order of the scheduler, then padding; a receiver that follows TS 38.321 reads it back; a retransmission repeats it.  Then what the
    assembly does against its documentation: the identity of the timing advance group is lost, an SDU is copied before its size is looked at. *)

Open Scope Z_scope.
Open Scope entity_scope.

Import MacDlSch.

(** ** A receiver of DL-SCH PDUs, TS 38.321 Section 6.1.2 *)

Fixpoint dl_parse (fuel : nat) (octets : list Z) : option (list dl_part) :=
  match fuel, octets with
  | O, _ => None
  | _, [] => Some []
  | S fuel, b :: r =>
      let lcid := b mod 64 in
      let take_sdu n r := if zlen r <? n then None else option_map (cons (part_sdu lcid (take (Z.to_nat n) r))) (dl_parse fuel (drop (Z.to_nat n) r)) in
      if lcid =? PADDING then Some []
      else if lcid <=? LCID32 then
        match b / 64 mod 2, r with 0, n :: r => take_sdu n r | _, h :: n :: r => take_sdu (256 * h + n) r | _, _ => None end
      else if lcid =? UE_CON_RES_ID then
        if zlen r <? 6 then None else option_map (cons (part_con_res (take 6 r))) (dl_parse fuel (drop 6 r))
      else if lcid =? TA_CMD then match r with t :: r => option_map (cons (part_ta (t / 64) (t mod 64))) (dl_parse fuel r) | [] => None end
      else None
  end.

Definition part_ok (p : dl_part) : Prop :=
  match p with part_sdu lcid sdu => 0 <= lcid <= 32 /\ sdu <> [] /\ zlen sdu < 65536 | part_con_res id => zlen id = 6 | part_ta tag cmd => 0 <= tag < 4 /\ 0 <= cmd < 64 end.

Lemma dl_parse_part fuel p rest : part_ok p -> dl_parse (S fuel) (part_octets p ++ rest) = option_map (cons p) (dl_parse fuel rest).
Proof.
  intros Hp. destruct p as [lcid sdu|id|tag cmd]; cbn -[ta_octet Z.div Z.modulo] in Hp |- *.
  - destruct Hp as (Hl & Hne & Hz). pose proof (zlen_nonneg sdu). unfold dl_sdu_octets. destruct (Z.ltb_spec (zlen sdu) 256).
    + cbn [app]. rewrite (Z.mod_small lcid), (proj2 (Z.eqb_neq lcid PADDING)), (proj2 (Z.leb_le lcid LCID32)), (Z.div_small lcid) by (unfold PADDING, LCID32; lia). change (0 mod 2) with 0. cbv iota.
      rewrite zlen_app, (proj2 (Z.ltb_ge _ _)) by (pose proof (zlen_nonneg rest); lia). by rewrite take_app_zlen, drop_app_zlen by done.
    + cbn [app]. assert ((64 + lcid) mod 64 = lcid) as -> by zmod. assert ((64 + lcid) / 64 = 1) as -> by zmod.
      rewrite (proj2 (Z.eqb_neq lcid PADDING)), (proj2 (Z.leb_le lcid LCID32)) by (unfold PADDING, LCID32; lia). change (1 mod 2) with 1. cbv iota.
      assert (256 * (zlen sdu / 256) + zlen sdu mod 256 = zlen sdu) as -> by zmod.
      rewrite zlen_app, (proj2 (Z.ltb_ge _ _)) by (pose proof (zlen_nonneg rest); lia). by rewrite take_app_zlen, drop_app_zlen by done.
  - rewrite zlen_app, (proj2 (Z.ltb_ge _ _)) by (pose proof (zlen_nonneg rest); lia). change 6%nat with (Z.to_nat 6). by rewrite take_app_zlen, drop_app_zlen by done.
  - assert (ta_octet tag cmd / 64 = tag /\ ta_octet tag cmd mod 64 = cmd) as [-> ->]; [unfold ta_octet; zmod|done].
Qed.

Lemma dl_parse_parts ps pad : Forall part_ok ps -> forall fuel, (length ps < fuel)%nat -> dl_parse fuel (parts_octets ps ++ pad_octets pad) = Some ps.
Proof.
  induction 1 as [|p ps Hp _ IH]; intros fuel Hf; (destruct fuel as [|fuel]; [cbn in Hf; lia|]).
  - unfold parts_octets, pad_octets. cbn [mbind list_bind app]. by destruct (pad =? 0).
  - change (parts_octets (p :: ps)) with (part_octets p ++ parts_octets ps). rewrite <- app_assoc, dl_parse_part, IH by (done || (cbn in Hf; lia)). done.
Qed.

Lemma parts_length ps : Forall part_ok ps -> Z.of_nat (length ps) <= zlen (parts_octets ps).
Proof.
  induction 1 as [|p ps Hp _ IH]; [done|]. change (parts_octets (p :: ps)) with (part_octets p ++ parts_octets ps). rewrite zlen_app. cbn [length].
  enough (1 <= zlen (part_octets p)) by lia. destruct p as [lcid sdu|id|tag cmd]; cbn; [|rewrite zlen_cons; pose proof (zlen_nonneg id); lia|unfold zlen; cbn; lia].
  unfold dl_sdu_octets. rewrite zlen_app. pose proof (zlen_nonneg sdu). destruct (_ <? _); unfold zlen in *; cbn [length]; lia.
Qed.

Lemma zlen_pad n : 0 <= n -> zlen (pad_octets n) = n.
Proof. intros Hn. unfold pad_octets. destruct (Z.eqb_spec n 0) as [->|]; [done|]. unfold zlen. cbn [length]. rewrite repeat_length. lia. Qed.

Lemma parts_octets_app ps qs : parts_octets (ps ++ qs) = parts_octets ps ++ parts_octets qs.
Proof. apply bind_app. Qed.

(** ** What a transport block is asked to hold *)

Section transport_block.
Context {B : Type} `{MacSduTxBuilder B}.

(** The octets that the scheduler plans for. *)
Definition lc_need (lc : dl_msg_lc_info) : Z :=
  if is_sdu (lcid lc) then get_mac_sdu_required_bytes (sched_bytes lc) else FIXED_SIZED_MAC_CE_SUBHEADER_SIZE + sizeof_ce (lcid lc).
Definition lcs_need (lcs : list dl_msg_lc_info) : Z := fold_right (fun lc n => lc_need lc + n) 0 lcs.

Definition lc_ok (rnti : Z) (m : mac_dl (B := B)) (lc : dl_msg_lc_info) : Prop :=
  if is_sdu (lcid lc) then 0 <= sched_bytes lc < 65536 /\ exists k b, get_lc_sdu_builder m rnti (lcid lc) = Some k /\ bearers m !! k = Some b
  else lcid lc = UE_CON_RES_ID \/ lcid lc = TA_CMD /\ exists ta, payload lc = ta_cmd_payload ta.

(** The bearers are in order, and every UE has a contention resolution identity. *)
Record mac_ok (m : mac_dl (B := B)) : Prop := {
  mo_bearers : forall k b, bearers m !! k = Some b -> builder_ok b;
  mo_con_res : forall i u, ue_db m !! i = Some u -> zlen (msg3_subpdu u) = UE_CON_RES_ID_LEN
}.

(** What a logical channel contributes, and the bearers afterwards; [view]: the group and the command of a timing advance command. *)
Inductive lc_sends (view : ta_cmd_ce_payload -> Z * Z) (m : mac_dl (B := B)) (rnti : Z) (lc : dl_msg_lc_info) : gmap nat B -> list dl_part -> gmap nat B -> Prop :=
| sends_sdus bs k b sdus b' : is_sdu (lcid lc) = true -> get_lc_sdu_builder m rnti (lcid lc) = Some k -> bs !! k = Some b -> pulls b sdus b' ->
    lc_sends view m rnti lc bs (map (part_sdu (lcid lc)) sdus) (<[k := b']> bs)
| sends_con_res bs : lcid lc = UE_CON_RES_ID -> lc_sends view m rnti lc bs [part_con_res (get_con_res_id m rnti)] bs
| sends_ta bs ta : lcid lc = TA_CMD -> payload lc = ta_cmd_payload ta -> lc_sends view m rnti lc bs [part_ta (fst (view ta)) (snd (view ta))] bs.

Inductive lcs_send (view : ta_cmd_ce_payload -> Z * Z) (m : mac_dl (B := B)) (rnti : Z) : list dl_msg_lc_info -> gmap nat B -> list dl_part -> gmap nat B -> Prop :=
| send_none bs : lcs_send view m rnti [] bs [] bs
| send_more lc lcs bs ps bs1 qs bs2 : lc_sends view m rnti lc bs ps bs1 -> lcs_send view m rnti lcs bs1 qs bs2 -> lcs_send view m rnti (lc :: lcs) bs (ps ++ qs) bs2.

Lemma lc_need_nonneg lc : 0 <= lc_need lc.
Proof.
  unfold lc_need. destruct (is_sdu _); [unfold get_mac_sdu_required_bytes, u32; apply Z.mod_pos_bound; lia|]. unfold sizeof_ce, FIXED_SIZED_MAC_CE_SUBHEADER_SIZE. repeat case_match; lia.
Qed.
Lemma lcs_need_nonneg lcs : 0 <= lcs_need lcs.
Proof. induction lcs as [|lc lcs IH]; [done|]. change (lcs_need (lc :: lcs)) with (lc_need lc + lcs_need lcs). pose proof (lc_need_nonneg lc). lia. Qed.

Lemma con_res_id_len m rnti : mac_ok m -> zlen (get_con_res_id m rnti) = 6.
Proof. intros [_ Hc]. unfold get_con_res_id. destruct (ue_db m !! _) eqn:E; [by apply Hc in E|done]. Qed.

Lemma mac_ok_bearer m k b : mac_ok m -> builder_ok b -> mac_ok (set_bearers (<[k := b]> (bearers m)) m).
Proof. intros [M1 M2] Hb. split; [|done]. cbn. intros k' b'. rewrite lookup_insert_Some. intros [[_ <-]|[_ ?]]; [done|by eapply M1]. Qed.

Lemma lc_ok_bearer rnti m k b lc : lc_ok rnti m lc -> lc_ok rnti (set_bearers (<[k := b]> (bearers m)) m) lc.
Proof.
  unfold lc_ok. destruct (is_sdu _); [|done]. intros (Hs & k' & b' & Hk & Hb'). split; [done|]. exists k'.
  destruct (decide (k = k')) as [->|Hne]; [exists b|exists b']; (split; [done|]); cbn; [apply lookup_insert_eq|by rewrite lookup_insert_ne].
Qed.

(** ** The assembly *)

Lemma required_bytes_bound n : 0 <= n < 65536 -> get_mac_sdu_required_bytes n <= 65538.
Proof.
  intros Hn. unfold get_mac_sdu_required_bytes, get_mac_sdu_subheader_size, MAC_SDU_SUBHEADER_LENGTH_THRES, MAX_MAC_SDU_SUBHEADER_SIZE, MIN_MAC_SDU_SUBHEADER_SIZE.
  destruct (n =? 0), (256 <=? n); rewrite u32_small by lia; lia.
Qed.

Lemma sdus_bounded l sdus : Forall (fun s => s <> []) sdus -> zlen (sdus_octets l sdus) <= 65538 -> Forall (fun s => zlen s < 65536) sdus.
Proof.
  induction 1 as [|s sdus Hne _ IH]; intros Hz; [constructor|]. change (sdus_octets l (s :: sdus)) with (dl_sdu_octets l s ++ sdus_octets l sdus) in Hz.
  rewrite zlen_app, zlen_dl_sdu in Hz by done. pose proof (zlen_nonneg s). pose proof (zlen_nonneg (sdus_octets l sdus)).
  assert (1 <= zlen s) by (destruct (decide (zlen s = 0)) as [E|]; [by apply zlen_zero_nil in E|lia]). rewrite subheader_size_cases in Hz by lia.
  constructor; [destruct (Z.leb_spec 256 (zlen s)); lia|]. apply IH. destruct (256 <=? zlen s); lia.
Qed.

Lemma wp_assemble_lc tb l rest m p rnti lc (Q : unit -> mac_dl (B := B) * dl_sch_pdu -> list Empty_set -> Prop) :
  mac_ok m -> lc_ok rnti m lc -> at_ tb l rest p -> zlen l + lc_need lc <= tb ->
  (forall ps bs rest' p' es, lc_sends ta_written m rnti lc (bearers m) ps bs -> mac_ok (set_bearers bs m) -> Forall part_ok ps -> at_ tb (l ++ parts_octets ps) rest' p' -> zlen (parts_octets ps) <= lc_need lc ->
     (forall lc', lc_ok rnti m lc' -> lc_ok rnti (set_bearers bs m) lc') -> Q tt (set_bearers bs m, p') es) ->
  wp (assemble_lc rnti lc) Q (m, p).
Proof.
  intros Hm Hlc Hat Hfit HQ. unfold assemble_lc, lc_ok, lc_need in *. destruct (is_sdu (lcid lc)) eqn:Es.
  - destruct Hlc as (Hs & k & b & Hk & Hb). pose proof Es as Es2. unfold is_sdu, LCID32 in Es2. apply andb_prop in Es2 as [E1%Z.leb_le E2%Z.leb_le].
    eapply wp_assemble_sdus; [exact Hat|lia|done|exact Hk|exact Hb|by eapply mo_bearers|]. intros sdus b' rest' p' es Hp Hb' Hne Hat' Hz.
    eapply HQ; [by eapply sends_sdus|by apply mac_ok_bearer| |exact Hat'|exact Hz|intros lc'; apply lc_ok_bearer].
    apply Forall_map. eapply Forall_impl; [apply Forall_and; split; [exact Hne|by eapply sdus_bounded; [exact Hne|etransitivity; [exact Hz|apply required_bytes_bound]]]|]. cbn. intros sdu [? ?]. split; [lia|by split].
  - assert (set_bearers (bearers m) m = m) as Em by by destruct m. unfold assemble_ce. destruct Hlc as [E|(E & ta & Ep)]; rewrite E in Hfit |- *.
    + rewrite Z.eqb_refl. do 2 wp_step. cbn [app]. apply wp_on_pdu. cbn [fst snd]. eapply wp_add_con_res; [exact Hat|by apply con_res_id_len|exact Hfit|]. intros rest' p' es Hat' es'.
      rewrite <- Em. eapply HQ; [by apply sends_con_res|by rewrite Em|apply Forall_singleton; by apply con_res_id_len|by unfold parts_octets; cbn; rewrite app_nil_r; exact Hat'| |by rewrite Em].
      unfold parts_octets. cbn. rewrite app_nil_r, zlen_cons, con_res_id_len by done. by rewrite E.
    + cbn [Z.eqb Pos.eqb TA_CMD UE_CON_RES_ID]. rewrite Ep. apply wp_on_pdu. cbn [fst snd]. eapply wp_add_tag_cmd; [exact Hat|exact Hfit|]. intros rest' p' es Hat' es'.
      rewrite <- Em. eapply HQ; [by apply sends_ta|by rewrite Em|apply Forall_singleton, ta_written_range|exact Hat'|by rewrite E|by rewrite Em].
Qed.

Lemma lc_sends_set view m bs0 rnti lc bs ps bs' : lc_sends view (set_bearers bs0 m) rnti lc bs ps bs' -> lc_sends view m rnti lc bs ps bs'.
Proof. destruct 1; [by eapply sends_sdus|by apply (sends_con_res view m)|by eapply sends_ta]. Qed.

(** Commands for the primary timing advance group are written as they are asked for. *)
Definition ta_asked (ta : ta_cmd_ce_payload) : Z * Z := (tag_id ta, ta_cmd ta).
Definition primary_tag (lc : dl_msg_lc_info) : Prop := forall ta, payload lc = ta_cmd_payload ta -> tag_id ta = 0 /\ 0 <= ta_cmd ta < 64.

Lemma ta_written_primary ta : tag_id ta = 0 -> 0 <= ta_cmd ta < 64 -> ta_written ta = ta_asked ta.
Proof.
  intros E Hc. unfold ta_written, ta_asked. rewrite E. change 0x3f with (2 ^ 6 - 1). rewrite land_mask, Z.mod_small by lia. done.
Qed.

Lemma lcs_send_asked m rnti lcs bs ps bs' : Forall primary_tag lcs -> lcs_send ta_written m rnti lcs bs ps bs' -> lcs_send ta_asked m rnti lcs bs ps bs'.
Proof.
  intros Hp. induction 1 as [bs|lc lcs bs ps bs1 qs bs2 Hs _ IH]; [constructor|]. apply Forall_cons in Hp as [Hlc Hp]. apply send_more with bs1; [|by apply IH].
  destruct Hs as [bs k b sdus b' H1 H2 H3 H4|bs E|bs ta E Ep]; [by eapply sends_sdus|by apply sends_con_res|]. destruct (Hlc ta Ep) as [Ht Hc]. rewrite (ta_written_primary ta Ht Hc). by apply sends_ta.
Qed.

Lemma wp_assemble_pdu tb buffer m p rnti lcs (Q : bool -> mac_dl (B := B) * dl_sch_pdu -> list Empty_set -> Prop) :
  mac_ok m -> Forall (lc_ok rnti m) lcs -> lcs_need lcs <= tb -> at_ tb [] buffer p ->
  (forall ps bs rest p' es, lcs_send ta_written m rnti lcs (bearers m) ps bs -> mac_ok (set_bearers bs m) -> Forall part_ok ps -> zlen (parts_octets ps) <= tb ->
     at_ tb (parts_octets ps ++ pad_octets (tb - zlen (parts_octets ps))) rest p' -> Q true (set_bearers bs m, p') es) ->
  wp (assemble_pdu rnti lcs tb) Q (m, p).
Proof.
  intros Hm Hlcs Hneed Hat HQ. unfold assemble_pdu. wp_step.
  apply (wp_for_each (fun todo s _ => exists ps bs rest p', s = (set_bearers bs m, p') /\ mac_ok (set_bearers bs m) /\ Forall (lc_ok rnti (set_bearers bs m)) todo /\ Forall part_ok ps /\
      at_ tb (parts_octets ps) rest p' /\ zlen (parts_octets ps) + lcs_need todo <= tb /\ (forall qs bs2, lcs_send ta_written m rnti todo bs qs bs2 -> lcs_send ta_written m rnti lcs (bearers m) (ps ++ qs) bs2))).
  - exists [], (bearers m), buffer, p. assert (set_bearers (bearers m) m = m) as -> by by destruct m. by repeat (split; [done|]).
  - intros s es (ps & bs & rest & p' & -> & Hm' & _ & Hps & Hp' & Hz & Hsend). pose proof Hp' as [A1 A2 A3 A4 A5]. pose proof (zlen_nonneg (parts_octets ps)). rewrite zlen_app in A5.
    specialize (Hsend [] bs (send_none _ _ _ _)). rewrite app_nil_r in Hsend. do 2 wp_step. unfold nof_bytes. cbn [snd]. rewrite A2. destruct (Z.ltb_spec (zlen (parts_octets ps)) tb).
    + wp_step. apply wp_on_pdu. cbn [fst snd]. pose proof (zlen_nonneg rest). rewrite u32_small by lia. eapply wp_add_padding; [exact Hp'|done|]. intros rest' p2 es' Hp2 es2. wp_step. by eapply HQ.
    + cbn in Hz. assert (zlen (parts_octets ps) = tb) as Ez by lia. rewrite Ez, Z.ltb_irrefl. wp_step. eapply HQ; [exact Hsend|done|done|lia|]. rewrite Ez, Z.sub_diag. cbn. rewrite app_nil_r. exact Hp'.
  - intros lc todo s es (ps & bs & rest & p' & -> & Hm' & [Hlc Htodo]%Forall_cons & Hps & Hp' & Hz & Hsend). change (lcs_need (lc :: todo)) with (lc_need lc + lcs_need todo) in Hz. pose proof (lcs_need_nonneg todo).
    eapply wp_assemble_lc; [done|done|exact Hp'|lia|]. intros qs bs2 rest2 p2 es2 Hs Hm2 Hqs Hp2 Hz2 Hkeep. exists (ps ++ qs), bs2, rest2, p2. split; [done|]. split; [done|].
    split; [eapply Forall_impl; [exact Htodo|intros lc'; apply Hkeep]|]. split; [by apply Forall_app|]. rewrite parts_octets_app. split; [done|]. split; [rewrite zlen_app; lia|].
    intros rs bs3 Hr. rewrite <- app_assoc. apply Hsend. apply send_more with bs2; [by eapply lc_sends_set|done].
Qed.

Definition transport_block (tb : Z) (ps : list dl_part) : list Z := parts_octets ps ++ pad_octets (tb - zlen (parts_octets ps)).

Lemma newtx_pdu rnti h_id lcs tb (m : mac_dl (B := B)) buffer :
  mac_ok m -> get_ue_index m rnti <> INVALID_DU_UE_INDEX -> harq m !! (get_ue_index m rnti, h_id) = Some (false, buffer) -> 0 <= tb <= zlen buffer -> zlen buffer < 2 ^ 31 ->
  Forall (lc_ok rnti m) lcs -> lcs_need lcs <= tb ->
  exists ps bs rest, lcs_send ta_written m rnti lcs (bearers m) ps bs /\ Forall part_ok ps /\ zlen (transport_block tb ps) = tb /\
    assemble_newtx_pdu rnti h_id lcs tb m = Ok (transport_block tb ps, set_harq (<[(get_ue_index m rnti, h_id) := (true, transport_block tb ps ++ rest)]> (harq m)) (set_bearers bs m)) /\
    mac_ok (set_bearers bs m).
Proof.
  intros Hm Hi Hh Htb Hbig Hlcs Hneed. unfold assemble_newtx_pdu, allocate_dl_harq_buffer. rewrite (proj2 (Z.eqb_neq _ _) Hi), Hh, (proj2 (Z.ltb_ge _ _)) by lia.
  assert (at_ tb [] buffer (mk_pdu buffer tb 0)) as Hat by (split; [done|done|done|change (zlen (@nil Z)) with 0; lia|cbn [app]; lia]).
  assert (wp (assemble_pdu rnti lcs tb) (fun fits s es => exists ps bs rest p', fits = true /\ s = (set_bearers bs m, p') /\ lcs_send ta_written m rnti lcs (bearers m) ps bs /\ Forall part_ok ps /\ zlen (parts_octets ps) <= tb /\
    at_ tb (transport_block tb ps) rest p' /\ mac_ok (set_bearers bs m)) (m, mk_pdu buffer tb 0)) as Hrun.
  { eapply wp_assemble_pdu; [done|done|done|exact Hat|]. intros ps bs rest p' es ? ? ? ? ?. by exists ps, bs, rest, p'. }
  apply wp_run in Hrun as (fits & s & es & -> & ps & bs & rest & p' & -> & -> & Hs & Hps & Hz & Hp' & Hm'). pose proof Hp' as [A1 A2 A3 A4 A5].
  exists ps, bs, rest. split; [done|]. split; [done|]. split; [unfold transport_block; rewrite zlen_app, zlen_pad by lia; lia|]. split; [|done]. unfold nof_bytes. rewrite A1, A2, take_app_zlen by done. done.
Qed.
End transport_block.

Lemma transport_block_parsed tb ps : Forall part_ok ps -> zlen (transport_block tb ps) = tb -> dl_parse (S (Z.to_nat tb)) (transport_block tb ps) = Some ps.
Proof.
  intros Hps Hz. apply dl_parse_parts; [done|]. pose proof (parts_length ps Hps). unfold transport_block in Hz. rewrite zlen_app in Hz. pose proof (zlen_nonneg (pad_octets (tb - zlen (parts_octets ps)))). lia.
Qed.

(** ** The properties *)

(** C17: A UE that is known, with a HARQ buffer that nothing refers to and that is large enough, gets a transport block of exactly
    the size asked for, provided that the subPDUs planned by the scheduler fit and that timing advance commands are for the primary group.  It consists
    of the SDUs that the bearers hand out and of
    the control elements, in the order of the scheduler, then of padding; a receiver that follows TS 38.321 reads the same subPDUs, the group
    and the command of a timing advance command among them.  Only the bearers
    and the HARQ buffer change, no assertion fails, and nothing is written outside the block. *)
Theorem dl_transport_block {B} `{MacSduTxBuilder B} rnti h_id lcs tb (m : mac_dl (B := B)) buffer
    (Hm : mac_ok m) (Hi : get_ue_index m rnti <> INVALID_DU_UE_INDEX) (Hh : harq m !! (get_ue_index m rnti, h_id) = Some (false, buffer))
    (Htb : 0 <= tb <= zlen buffer) (Hbig : zlen buffer < 2 ^ 31) (Hlcs : Forall (lc_ok rnti m) lcs) (Hneed : lcs_need lcs <= tb) (Htag : Forall primary_tag lcs) :
  exists ps bs pdu buffer', assemble_newtx_pdu rnti h_id lcs tb m = Ok (pdu, set_harq (<[(get_ue_index m rnti, h_id) := (true, buffer')]> (harq m)) (set_bearers bs m)) /\
    lcs_send ta_asked m rnti lcs (bearers m) ps bs /\ zlen pdu = tb /\ pdu = transport_block tb ps /\ dl_parse (S (Z.to_nat tb)) pdu = Some ps /\ take (Z.to_nat tb) buffer' = pdu /\ mac_ok (set_bearers bs m).
Proof.
  destruct (newtx_pdu rnti h_id lcs tb m buffer Hm Hi Hh Htb Hbig Hlcs Hneed) as (ps & bs & rest & Hs & Hps & Hz & E & Hm').
  exists ps, bs, (transport_block tb ps), (transport_block tb ps ++ rest). split; [done|]. split; [by apply lcs_send_asked|]. do 2 (split; [done|]). split; [by apply transport_block_parsed|]. split; [by apply take_app_zlen|done].
Qed.

(** A bearer that hands out its SDUs whole. *)
Definition next_sdu (n : Z) (q : list (list Z)) : res (list Z * list (list Z)) :=
  match q with sdu :: r => if zlen sdu <=? n then Ok (sdu, r) else Ok ([], q) | [] => Ok ([], q) end.

Lemma next_sdu_fits n q : True -> 0 <= n < 2 ^ 32 -> exists sdu q', next_sdu n q = Ok (sdu, q') /\ True /\ zlen sdu <= n.
Proof.
  intros _ Hn. unfold next_sdu. assert (zlen (@nil Z) <= n) by (rewrite zlen_nil; lia). destruct q as [|sdu r]; [by exists [], []|]. destruct (Z.leb_spec (zlen sdu) n); [by exists sdu, r|by exists [], (sdu :: r)].
Qed.

#[local] Instance sdu_list : MacSduTxBuilder (list (list Z)) := { on_new_tx_sdu := next_sdu; builder_ok _ := True; on_new_tx_sdu_ok := next_sdu_fits }.

Definition ex_mac : mac_dl (B := list (list Z)) :=
  mk_mac {[ 0x4601 := 3 ]} {[ 3 := mk_ue {[ 4 := 0%nat ]} [1; 2; 3; 4; 5; 6] ]} {[ 0%nat := [[7; 8; 9]; repeat 5 300; [10]] ]} {[ (3, 0) := (false, repeat 0xff 400) ]}.
Definition ex_lcs : list dl_msg_lc_info := [mk_lc UE_CON_RES_ID 0 (dummy_ce_payload 0); mk_lc TA_CMD 0 (ta_cmd_payload (mk_ta 0 31)); mk_lc 4 330 (dummy_ce_payload 0)].

Lemma ex_mac_ok : mac_ok ex_mac.
Proof. split; [done|]. intros i u. cbn. intros [_ <-]%lookup_singleton_Some. reflexivity. Qed.

Definition ex_parts : list dl_part := [part_con_res [1; 2; 3; 4; 5; 6]; part_ta 0 31; part_sdu 4 [7; 8; 9]; part_sdu 4 (repeat 5 300); part_sdu 4 [10]].
Definition octets_of {A} (r : res (list Z * A)) : list Z := match r with Ok (octets, _) => octets | Fault _ => [] end.

Lemma ex_lcs_ok : Forall (lc_ok 0x4601 ex_mac) ex_lcs.
Proof.
  unfold ex_lcs. rewrite !Forall_cons. split; [by left|]. split; [right; split; [done|by eexists]|]. split; [|constructor].
  split; [cbn; lia|]. eexists 0%nat, _. split; reflexivity.
Qed.

Lemma ex_lcs_primary : Forall primary_tag ex_lcs.
Proof. unfold ex_lcs. rewrite !Forall_cons. do 3 (split; [intros ta [= <-]; cbn; lia|]). constructor. Qed.

Lemma dl_transport_block_witness : exists bs pdu buffer',
  assemble_newtx_pdu 0x4601 0 ex_lcs 350 ex_mac = Ok (pdu, set_harq (<[(3, 0) := (true, buffer')]> (harq ex_mac)) (set_bearers bs ex_mac)) /\ dl_parse 351 pdu = Some ex_parts.
Proof.
  destruct (dl_transport_block 0x4601 0 ex_lcs 350 ex_mac (repeat 0xff 400) ex_mac_ok) as (ps & bs & pdu & buffer' & E & _ & _ & _ & Hp & _ & _);
    [discriminate|reflexivity|split; discriminate|reflexivity|exact ex_lcs_ok|discriminate|exact ex_lcs_primary|].
  exists bs, pdu, buffer'. split; [exact E|]. apply (f_equal octets_of) in E. cbn [octets_of] in E. rewrite <- E. vm_compute. reflexivity.
Defined.

(** Once the lower layers have dropped the transport block, its retransmission hands out the same octets; while they still hold it, the
    retransmission hands out zeros instead, and no buffer changes. *)
Theorem dl_retransmission {B} `{MacSduTxBuilder B} rnti h_id lcs tb (m : mac_dl (B := B)) pdu m' buffer
    (Hm : mac_ok m) (Hi : get_ue_index m rnti <> INVALID_DU_UE_INDEX) (Hh : harq m !! (get_ue_index m rnti, h_id) = Some (false, buffer))
    (Htb : 0 <= tb <= zlen buffer) (Hbig : zlen buffer < 2 ^ 31) (Hlcs : Forall (lc_ok rnti m) lcs) (Hneed : lcs_need lcs <= tb)
    (Hrun : assemble_newtx_pdu rnti h_id lcs tb m = Ok (pdu, m')) :
  assemble_retx_pdu rnti h_id tb m' = Ok (zero_buffer tb, m') /\
  assemble_retx_pdu rnti h_id tb (release_harq_buffer (get_ue_index m rnti) h_id m') = Ok (pdu, m').
Proof.
  destruct (newtx_pdu rnti h_id lcs tb m buffer Hm Hi Hh Htb Hbig Hlcs Hneed) as (ps & bs & rest & _ & _ & Hz & E & _). rewrite Hrun in E. injection E as -> ->.
  set (i := get_ue_index m rnti) in *. split.
  - unfold assemble_retx_pdu, allocate_dl_harq_buffer. change (get_ue_index (set_harq _ _) rnti) with i. rewrite (proj2 (Z.eqb_neq _ _) Hi). cbn [harq set_harq set_bearers]. by rewrite lookup_insert_eq.
  - unfold release_harq_buffer. cbn [harq set_harq set_bearers]. rewrite lookup_insert_eq. unfold assemble_retx_pdu, allocate_dl_harq_buffer. change (get_ue_index (set_harq _ _) rnti) with i.
    rewrite (proj2 (Z.eqb_neq _ _) Hi). cbn [harq set_harq set_bearers]. rewrite lookup_insert_eq, zlen_app, Hz, (proj2 (Z.ltb_ge _ _)) by (pose proof (zlen_nonneg rest); lia).
    rewrite take_app_zlen by done. unfold set_harq, set_bearers. cbn. by rewrite !insert_insert_eq.
Qed.

Lemma dl_retransmission_witness : exists pdu m', assemble_newtx_pdu 0x4601 0 ex_lcs 350 ex_mac = Ok (pdu, m') /\
  assemble_retx_pdu 0x4601 0 350 m' = Ok (zero_buffer 350, m') /\ assemble_retx_pdu 0x4601 0 350 (release_harq_buffer 3 0 m') = Ok (pdu, m').
Proof.
  destruct (assemble_newtx_pdu 0x4601 0 ex_lcs 350 ex_mac) as [[pdu m']|] eqn:E; [|vm_compute in E; discriminate E].
  exists pdu, m'. split; [reflexivity|]. apply (dl_retransmission 0x4601 0 ex_lcs 350 ex_mac pdu m' (repeat 0xff 400) ex_mac_ok);
    [discriminate|reflexivity|split; discriminate|reflexivity|exact ex_lcs_ok|discriminate|exact E].
Defined.

(** ** Against the documentation *)

(** The identity of the timing advance group is two bits; the mask keeps others, so that groups 0 to 3 cannot be told apart. *)
Lemma dl_tag_id_lost t : ta_written (mk_ta 1 t) = ta_written (mk_ta 0 t) /\ ta_written (mk_ta 2 t) = ta_written (mk_ta 0 t) /\ ta_written (mk_ta 3 t) = ta_written (mk_ta 0 t).
Proof. done. Qed.

(** An SDU of 20 octets in a transport block of 10: nothing is added, but the SDU is copied over what lies behind the block. *)
Lemma dl_add_sdu_overruns : exists p', add_sdu 1 (repeat 9 20) (mk_pdu (repeat 0 40) 10 0) = Ok (0, p', []) /\ byte_offset p' = 0 /\ pdu p' = repeat 0 2 ++ repeat 9 20 ++ repeat 0 18.
Proof. eexists. split; [vm_compute; reflexivity|]. by split. Qed.
