(* ===== verification/MacDlRlc.v ===== *)
(** * MAC DL over RLC

    Models [mac_sdu_tx_adapter] of [lib/du/du_high/du_manager/du_ue/du_ue_adapters.h], which joins a logical channel of the MAC to the transmitting
    entity of its RLC bearer, and shows that the entities keep what the MAC asks of its bearers: MAC and RLC compose, and the SDUs of a
    transport block are the next PDUs of the bearer. *)

From S2P Require Import Prelude Effects RlcConfig RlcTxUm RlcTxUmInv RlcTxUmSteps RlcTm RlcUmTheorems RlcTxAm RlcTxAmInv RlcTxAmSend MacDlSch MacDlTheorems.
Open Scope Z_scope.
Open Scope entity_scope.

(** ** The adapter *)

Module MacSduTxAdapter.

(** The interface [rlc_tx_lower_layer_interface] and its implementations; an AM entity asks its receiving side for the status report. *)
Inductive rlc_tx :=
| tx_tm (e : RlcTxTm.rlc_tx_tm_entity)
| tx_um (e : RlcTxUm.rlc_tx_um_entity)
| tx_am (provider : rlc_rx_am_status_provider) (e : RlcTxAm.rlc_tx_am_entity).

Inductive rlc_call := tm_calls (ev : RlcTxTm.tx_event) | um_calls (ev : RlcTxUm.tx_event) | am_calls (ev : RlcTxAm.tx_event).

(** What the entity calls at its neighbours is collected in [calls]. *)
Record mac_sdu_tx_adapter := mk_adapter { connected : bool; rlc_handler : option rlc_tx; calls : list rlc_call }.

Definition create : mac_sdu_tx_adapter := mk_adapter true None [].
Definition connect (rlc : rlc_tx) (a : mac_sdu_tx_adapter) : mac_sdu_tx_adapter := mk_adapter (connected a) (Some rlc) (calls a).
Definition disconnect (a : mac_sdu_tx_adapter) : mac_sdu_tx_adapter := mk_adapter false (rlc_handler a) (calls a).

(** A call to the entity behind the interface. *)
Definition on_entity {A} (tm : M RlcTxTm.rlc_tx_tm_entity RlcTxTm.tx_event A) (um : M RlcTxUm.rlc_tx_um_entity RlcTxUm.tx_event A)
    (am : rlc_rx_am_status_provider -> M RlcTxAm.rlc_tx_am_entity RlcTxAm.tx_event A) (r : rlc_tx) : res (A * rlc_tx * list rlc_call) :=
  match r with
  | tx_tm e => match tm e with Ok (a, e, es) => Ok (a, tx_tm e, map tm_calls es) | Fault f => Fault f end
  | tx_um e => match um e with Ok (a, e, es) => Ok (a, tx_um e, map um_calls es) | Fault f => Fault f end
  | tx_am p e => match am p e with Ok (a, e, es) => Ok (a, tx_am p e, map am_calls es) | Fault f => Fault f end
  end.

Definition call_entity {A} (without : A) tm um am (a : mac_sdu_tx_adapter) : res (A * mac_sdu_tx_adapter) :=
  match rlc_handler a with
  | None => Fault FaultAssert
  | Some r =>
      if connected a then match on_entity tm um am r with Ok (x, r, es) => Ok (x, mk_adapter (connected a) (Some r) (calls a ++ es)) | Fault f => Fault f end
      else Ok (without, a)
  end.

Definition on_new_tx_sdu (n : Z) : mac_sdu_tx_adapter -> res (list Z * mac_sdu_tx_adapter) :=
  call_entity [] (RlcTxTm.pull_pdu n) (RlcTxUm.pull_pdu n) (fun p => RlcTxAm.pull_pdu p n).
Definition on_buffer_state_update : mac_sdu_tx_adapter -> res (rlc_buffer_state * mac_sdu_tx_adapter) :=
  call_entity buffer_state_default RlcTxTm.get_buffer_state RlcTxUm.get_buffer_state RlcTxAm.get_buffer_state.

End MacSduTxAdapter.

Import MacDlSch MacSduTxAdapter.

(** ** The adapter keeps the contract *)

(** The entity is one that its operations lead to. *)
Definition rlc_tx_ok (r : rlc_tx) : Prop :=
  match r with
  | tx_tm e => tm_inv e
  | tx_um e => exists config os pdus sdus, RlcTxUmSteps.config_ok config /\ RlcTxUmSteps.tx_run config e os pdus sdus
  | tx_am p e => (exists A sent, RlcTxAmInv.tx_inv A sent e) /\ RlcTxAmInv.poll_config_ok (RlcTxAm.cfg e) /\ RlcTxAmSend.provider_ok p
  end.
Definition adapter_ok (a : mac_sdu_tx_adapter) : Prop := exists r, rlc_handler a = Some r /\ rlc_tx_ok r.

Lemma um_pull config e os pdus sdus n : RlcTxUmSteps.config_ok config -> RlcTxUmSteps.tx_run config e os pdus sdus -> 0 <= n < 2 ^ 32 ->
  exists pdu e' es, RlcTxUm.pull_pdu n e = Ok (pdu, e', es) /\ zlen pdu <= n /\ RlcTxUmSteps.tx_run config e' (os ++ [op_pull n]) (pdus ++ pdus_of pdu) sdus.
Proof.
  intros Hc Hr Hn. destruct (tx_run_state _ _ _ _ _ Hc Hr) as (_ & ts & partial & Hi & _).
  assert (wp (RlcTxUm.pull_pdu n) (fun pdu e' _ => RlcTxUmInv.pulled ts partial e n pdu e') e) as Hw by (eapply wp_umtx_pull_pdu; [done|done|]; auto).
  apply wp_run in Hw as (pdu & e' & es & E & Hp). exists pdu, e', es. split; [done|]. split; [by apply Hp|].
  rewrite <- (app_nil_r sdus). by apply (run_op config e os pdus sdus (op_pull n) pdu e' es).
Qed.

Lemma am_pull p e n : rlc_tx_ok (tx_am p e) -> 0 <= n < 2 ^ 32 -> exists pdu e' es, RlcTxAm.pull_pdu p n e = Ok (pdu, e', es) /\ zlen pdu <= n /\ rlc_tx_ok (tx_am p e').
Proof.
  intros ((A & sent & Hi) & Hc & Hp) Hn. pose proof (wp_pull_pdu A sent p n e Hi Hc ltac:(lia) Hp) as Hw. apply wp_run in Hw as (pdu & e' & es & E & sent' & Hr).
  exists pdu, e', es. split; [done|]. unfold pull_result in Hr. destruct (_ && _).
  - destruct Hr as (-> & -> & ->). split; [apply status_sent_fits; [done|lia]|]. by split; [exists A, sent|].
  - destruct Hr as [R1 R2 R3 R4 R5 R6 R7 R8]. split; [|split; [by exists A, sent'|by rewrite R2]]. destruct R8 as [->|(k & h & m & _ & Hz & _)]; [rewrite zlen_nil; lia|done].
Qed.

Lemma tm_pull_sdu e n : tm_inv e -> 0 <= n -> exists pdu e' es, RlcTxTm.pull_pdu n e = Ok (pdu, e', es) /\ zlen pdu <= n /\ tm_inv e'.
Proof.
  intros Hi Hn. assert (wp (RlcTxTm.pull_pdu n) (fun pdu e' _ => tm_inv e' /\ zlen pdu <= Z.max 0 n) e) as Hw by (by eapply wp_tm_pull).
  apply wp_run in Hw as (pdu & e' & es & E & Hi' & Hz). exists pdu, e', es. split; [done|]. split; [lia|done].
Qed.

Lemma adapter_keeps n a : adapter_ok a -> 0 <= n < 2 ^ 32 -> exists sdu a', on_new_tx_sdu n a = Ok (sdu, a') /\ adapter_ok a' /\ zlen sdu <= n.
Proof.
  intros (r & Er & Hr) Hn. unfold on_new_tx_sdu, call_entity. rewrite Er. destruct (connected a); [|exists [], a; split; [done|split; [by exists r|rewrite zlen_nil; lia]]].
  destruct r as [e|e|p e]; cbn [on_entity rlc_tx_ok] in *.
  - destruct (tm_pull_sdu e n Hr ltac:(lia)) as (pdu & e' & es & -> & Hz & Hi). eexists _, _. split; [done|]. split; [by eexists|done].
  - destruct Hr as (config & os & pdus & sdus & Hc & Hr). destruct (um_pull config e os pdus sdus n Hc Hr Hn) as (pdu & e' & es & -> & Hz & Hr').
    eexists _, _. split; [done|]. split; [|done]. eexists. split; [done|]. cbn. by exists config, (os ++ [op_pull n]), (pdus ++ pdus_of pdu), sdus.
  - destruct (am_pull p e n Hr Hn) as (pdu & e' & es & -> & Hz & Hi). eexists _, _. split; [done|]. split; [by eexists|done].
Qed.

#[export] Instance adapter_builder : MacSduTxBuilder mac_sdu_tx_adapter :=
  { on_new_tx_sdu := MacSduTxAdapter.on_new_tx_sdu; builder_ok := adapter_ok; on_new_tx_sdu_ok := adapter_keeps }.

(** ** What a UM bearer sends in a transport block *)

Lemma pdus_of_sdu (sdu : list Z) : sdu <> [] -> pdus_of sdu = [sdu].
Proof. by destruct sdu. Qed.

(** The bearer is connected to a UM entity after the run [os]. *)
Definition um_bearer (config : rlc_tx_um_config) (os : list tx_op) (pdus sdus : list (list Z)) (a : mac_sdu_tx_adapter) : Prop :=
  exists e, connected a = true /\ rlc_handler a = Some (tx_um e) /\ RlcTxUmSteps.tx_run config e os pdus sdus.

Lemma um_next config os pdus sdus n a sdu a' : RlcTxUmSteps.config_ok config -> um_bearer config os pdus sdus a -> on_new_tx_sdu n a = Ok (sdu, a') ->
  0 <= n < 2 ^ 32 -> um_bearer config (os ++ [op_pull n]) (pdus ++ pdus_of sdu) sdus a'.
Proof.
  intros Hc (e & Hcon & Hh & Hr) E Hn. unfold on_new_tx_sdu, call_entity in E. rewrite Hh, Hcon in E. cbn [on_entity] in E.
  destruct (um_pull config e os pdus sdus n Hc Hr Hn) as (pdu & e' & es & E' & _ & Hr'). rewrite E' in E. injection E as <- <-. by exists e'.
Qed.

Lemma um_pulls config a sent a' : RlcTxUmSteps.config_ok config -> pulls a sent a' -> forall os pdus sdus, um_bearer config os pdus sdus a ->
  exists grants, um_bearer config (os ++ map op_pull grants) (pdus ++ sent) sdus a'.
Proof.
  intros Hc. induction 1 as [a|n a sdu a1 sent a' Hn E Hne _ IH|n a a1 Hn E]; intros os pdus sdus Ha.
  - exists []. by rewrite !app_nil_r.
  - pose proof (um_next _ _ _ _ n a sdu a1 Hc Ha E Hn) as H1. rewrite pdus_of_sdu in H1 by done. destruct (IH _ _ _ H1) as [grants H2]. exists (n :: grants). cbn [map]. by rewrite <- !app_assoc in H2.
  - exists [n]. pose proof (um_next _ _ _ _ n a [] a1 Hc Ha E Hn) as H1. exact H1.
Qed.

(** The SDUs of a logical channel among the parts of a transport block. *)
Definition sdus_of (l : Z) (ps : list dl_part) : list (list Z) := omap (fun p => match p with part_sdu l' sdu => if l' =? l then Some sdu else None | _ => None end) ps.

Lemma sdus_of_app l ps qs : sdus_of l (ps ++ qs) = sdus_of l ps ++ sdus_of l qs.
Proof. apply omap_app. Qed.
Lemma sdus_of_same l sdus : sdus_of l (map (part_sdu l) sdus) = sdus.
Proof. induction sdus as [|s sdus IH]; [done|]. unfold sdus_of in *. cbn. rewrite Z.eqb_refl. cbn. by rewrite IH. Qed.
Lemma sdus_of_other l l' sdus : l' <> l -> sdus_of l (map (part_sdu l') sdus) = [].
Proof. intros Hl. induction sdus as [|s sdus IH]; [done|]. unfold sdus_of in *. cbn. by rewrite (proj2 (Z.eqb_neq _ _) Hl). Qed.

(** No other logical channel of the UE is joined to bearer [k]. *)
Definition own_bearer (m : mac_dl (B := mac_sdu_tx_adapter)) (rnti l : Z) (k : nat) : Prop :=
  forall l', get_lc_sdu_builder m rnti l' = Some k <-> l' = l.

Lemma um_lc_sends view m rnti lc l k config bs ps bs' a : RlcTxUmSteps.config_ok config -> own_bearer m rnti l k -> lc_sends view m rnti lc bs ps bs' -> bs !! k = Some a ->
  forall os pdus sdus, um_bearer config os pdus sdus a ->
  exists grants a', bs' !! k = Some a' /\ um_bearer config (os ++ map op_pull grants) (pdus ++ sdus_of l ps) sdus a'.
Proof.
  intros Hc Hown Hs Hk os pdus sdus Ha. destruct Hs as [bs k' a1 sent a2 Hsdu Hk' Hb Hp|bs _|bs ta _ _].
  - destruct (decide (k' = k)) as [->|Hne].
    + apply Hown in Hk' as ->. assert (a1 = a) as -> by congruence. destruct (um_pulls config a sent a2 Hc Hp _ _ _ Ha) as [grants Hg]. exists grants, a2. by rewrite lookup_insert_eq, sdus_of_same.
    + exists [], a. rewrite lookup_insert_ne by done. split; [done|]. rewrite sdus_of_other, !app_nil_r; [done|]. intros E. apply Hown in E. congruence.
  - exists [], a. by rewrite !app_nil_r.
  - exists [], a. by rewrite !app_nil_r.
Qed.

Lemma um_lcs_send view m rnti lcs l k config bs ps bs' : RlcTxUmSteps.config_ok config -> own_bearer m rnti l k -> lcs_send view m rnti lcs bs ps bs' -> forall a os pdus sdus, bs !! k = Some a ->
  um_bearer config os pdus sdus a -> exists grants a', bs' !! k = Some a' /\ um_bearer config (os ++ map op_pull grants) (pdus ++ sdus_of l ps) sdus a'.
Proof.
  intros Hc Hown. induction 1 as [bs|lc lcs bs ps bs1 qs bs2 Hs _ IH]; intros a os pdus sdus Hk Ha.
  - exists [], a. by rewrite !app_nil_r.
  - destruct (um_lc_sends view m rnti lc l k config bs ps bs1 a Hc Hown Hs Hk _ _ _ Ha) as (g1 & a1 & Hk1 & Ha1). destruct (IH _ _ _ _ Hk1 Ha1) as (g2 & a2 & Hk2 & Ha2).
    exists (g1 ++ g2), a2. split; [done|]. by rewrite sdus_of_app, map_app, !app_assoc.
Qed.

(** C16: MAC and RLC compose: the SDUs of a logical channel that a receiver reads from a transport block are the PDUs that its UM bearer sends
    next.  The entity behind the bearer has gone through the run it went through before, followed by pulls only, with exactly these PDUs
    sent, so that what holds of every run of the entity (its segments, their order, what arrives at the peer) holds of the transport blocks. *)
Theorem dl_block_continues_um_bearer rnti h_id lcs tb (m : mac_dl (B := mac_sdu_tx_adapter)) buffer config k l a os pdus sdus
    (Hm : mac_ok m) (Hi : get_ue_index m rnti <> INVALID_DU_UE_INDEX) (Hh : harq m !! (get_ue_index m rnti, h_id) = Some (false, buffer))
    (Htb : 0 <= tb <= zlen buffer) (Hbig : zlen buffer < 2 ^ 31) (Hlcs : Forall (lc_ok rnti m) lcs) (Hneed : lcs_need lcs <= tb)
    (Hc : RlcTxUmSteps.config_ok config) (Hown : own_bearer m rnti l k) (Hk : bearers m !! k = Some a) (Ha : um_bearer config os pdus sdus a) :
  exists pdu m' ps grants a', assemble_newtx_pdu rnti h_id lcs tb m = Ok (pdu, m') /\ dl_parse (S (Z.to_nat tb)) pdu = Some ps /\
    bearers m' !! k = Some a' /\ um_bearer config (os ++ map op_pull grants) (pdus ++ sdus_of l ps) sdus a'.
Proof.
  destruct (newtx_pdu rnti h_id lcs tb m buffer Hm Hi Hh Htb Hbig Hlcs Hneed) as (ps & bs & rest & Hs & Hps & Hz & E & _).
  destruct (um_lcs_send _ m rnti lcs l k config _ ps bs Hc Hown Hs a os pdus sdus Hk Ha) as (grants & a' & Hk' & Ha').
  exists (transport_block tb ps), (set_harq (<[(get_ue_index m rnti, h_id) := (true, transport_block tb ps ++ rest)]> (harq m)) (set_bearers bs m)), ps, grants, a'.
  split; [exact E|]. split; [by apply transport_block_parsed|]. by split.
Qed.

Definition ex_um_ops : list tx_op := take 2 ex_ops.
Definition ex_um_entity : RlcTxUm.rlc_tx_um_entity := Eval vm_compute in match tx_exec ex_um_ops (ex_tx0, [], []) with Some (e, _, _) => e | None => ex_tx0 end.
Definition ex_um_mac : mac_dl (B := mac_sdu_tx_adapter) :=
  mk_mac {[ 0x4601 := 3 ]} {[ 3 := mk_ue {[ 4 := 0%nat ]} [1; 2; 3; 4; 5; 6] ]} {[ 0%nat := connect (tx_um ex_um_entity) create ]} {[ (3, 0) := (false, repeat 0xff 40) ]}.

Lemma ex_um_run : RlcTxUmSteps.tx_run ex_tx ex_um_entity ex_um_ops [] [ex_sdu1; ex_sdu2].
Proof. apply (tx_exec_run ex_tx ex_um_ops [] ex_tx0 [] []); [by constructor|apply Forall_take, ex_ops_ok|vm_compute; reflexivity]. Qed.

Lemma ex_um_mac_ok : mac_ok ex_um_mac.
Proof.
  split.
  - intros k b. cbn. intros [_ <-]%lookup_singleton_Some. eexists. split; [done|]. exists ex_tx, ex_um_ops, [], [ex_sdu1; ex_sdu2]. split; [apply ex_config_ok|apply ex_um_run].
  - intros i u. cbn. intros [_ <-]%lookup_singleton_Some. reflexivity.
Qed.

(** Both SDUs go into one block. *)
Lemma dl_block_continues_um_bearer_witness : exists pdu m' ps grants a', assemble_newtx_pdu 0x4601 0 [mk_lc 4 14 (dummy_ce_payload 0)] 20 ex_um_mac = Ok (pdu, m') /\ dl_parse 21 pdu = Some ps /\
  bearers m' !! 0%nat = Some a' /\ um_bearer ex_tx (ex_um_ops ++ map op_pull grants) (sdus_of 4 ps) [ex_sdu1; ex_sdu2] a'.
Proof.
  apply (dl_block_continues_um_bearer 0x4601 0 [mk_lc 4 14 (dummy_ce_payload 0)] 20 ex_um_mac (repeat 0xff 40) ex_tx 0%nat 4 (connect (tx_um ex_um_entity) create) ex_um_ops [] [ex_sdu1; ex_sdu2] ex_um_mac_ok);
    [discriminate|reflexivity|split; discriminate|reflexivity| |discriminate|apply ex_config_ok| |reflexivity|].
  - apply Forall_singleton. split; [cbn; lia|]. eexists 0%nat, _. split; reflexivity.
  - intros l'. change (dl_bearers (mk_ue {[ 4 := 0%nat ]} [1; 2; 3; 4; 5; 6]) !! l' = Some 0%nat <-> l' = 4). cbn [dl_bearers]. rewrite lookup_singleton_Some. split; [by intros [-> _]|by intros ->].
  - exists ex_um_entity. split; [reflexivity|]. split; [reflexivity|apply ex_um_run].
Defined.
