(* ===== verification/SchedHarq.v ===== *)
(** * Scheduler: slots and HARQ processes

    Models [include/srsran/ran/slot_point.h] and [lib/scheduler/cell/cell_harq_manager.{h,cpp}]: the HARQ processes of the UEs of a cell in
    one direction, with the wheel of their timeouts and the list of those that wait for a retransmission.  A handle is the index of the UE
    and of the process; an intrusive list is the list of its handles, and taking out a handle that is not in it
    is a fault.  The history of NTN HARQ mode B is not modelled.  Signal-to-noise ratios are a type with an order test. *)

From S2P Require Import Prelude Effects.
Open Scope Z_scope.
Open Scope entity_scope.

(** ** Slots *)

Module SlotPoint.

Record slot_point := mk_slot { numerology_val : Z; count_val : Z }.
#[export] Instance slot_point_eq_dec : EqDecision slot_point.
Proof. solve_decision. Defined.

Definition NOF_NUMEROLOGIES : Z := 5.
Definition NOF_SFNS : Z := 1024.
Definition NOF_SUBFRAMES_PER_FRAME : Z := 10.

(** The default is not valid. *)
Definition slot_default : slot_point := mk_slot NOF_NUMEROLOGIES 0.
Definition valid (s : slot_point) : bool := numerology_val s <? NOF_NUMEROLOGIES.

Definition nof_slots_per_subframe (s : slot_point) : Z := u32 (Z.shiftl 1 (numerology_val s)).
Definition nof_slots_per_frame (s : slot_point) : Z := u32 (nof_slots_per_subframe s * NOF_SUBFRAMES_PER_FRAME).
Definition nof_slots_per_hyper_system_frame (s : slot_point) : Z := u32 (nof_slots_per_frame s * NOF_SFNS).

Definition slot_index (s : slot_point) : Z := count_val s mod nof_slots_per_frame s.
Definition sfn (s : slot_point) : Z := (count_val s / nof_slots_per_frame s) mod NOF_SFNS.

(** Operands of different numerologies fail an assertion. *)
Definition slot_lt (a b : slot_point) : bool :=
  let half := nof_slots_per_hyper_system_frame a / 2 in
  let v := count_val b - count_val a in
  if 0 <? v then v <? half else v <? - half.
Definition slot_le (a b : slot_point) : bool := bool_decide (a = b) || slot_lt a b.
Definition slot_ge (a b : slot_point) : bool := negb (slot_lt a b).
Definition slot_gt (a b : slot_point) : bool := negb (bool_decide (a = b)) && slot_ge a b.

Definition slot_diff (a b : slot_point) : Z :=
  let n := nof_slots_per_hyper_system_frame a in
  let d := count_val a - count_val b in
  if n / 2 <=? d then d - n else if d <? - (n / 2) then d + n else d.

Definition slot_incr (s : slot_point) : slot_point :=
  let c := count_val s + 1 in mk_slot (numerology_val s) (if c =? nof_slots_per_hyper_system_frame s then 0 else c).

(** An unsigned jump, and one that may be negative. *)
Definition slot_add (s : slot_point) (jump : Z) : slot_point := mk_slot (numerology_val s) (u32 (count_val s + jump) mod nof_slots_per_hyper_system_frame s).
Definition slot_add_int (s : slot_point) (jump : Z) : slot_point :=
  let tmp := Z.rem (count_val s + jump) (nof_slots_per_hyper_system_frame s) in
  mk_slot (numerology_val s) (tmp + if tmp <? 0 then nof_slots_per_hyper_system_frame s else 0).
Definition slot_sub (s : slot_point) (jump : Z) : slot_point := slot_add_int s (- jump).

End SlotPoint.

Import SlotPoint.

(** ** HARQ processes *)

Module SchedHarq.

Definition SCHEDULER_MAX_K0 : Z := 15.
Definition SCHEDULER_MAX_K1 : Z := 15.
Definition SCHEDULER_MAX_K2 : Z := 11.
Definition MAX_MSG3_DELTA : Z := 6.

(** The loop doubles [power] while bits of [x] are left. *)
Fixpoint power2_ceil_loop (fuel : nat) (x power : Z) : Z :=
  match fuel with
  | O => power
  | S fuel => let x := Z.shiftr x 1 in if x =? 0 then power else power2_ceil_loop fuel x (u32 (Z.shiftl power 1))
  end.
Definition power2_ceil (x : Z) : Z := if x <=? 1 then 1 else power2_ceil_loop 32 (x - 1) 2.
(** For 15 kHz. *)
Definition get_allocator_ring_size_gt_min (minimum_value : Z) : Z := u32 (power2_ceil ((minimum_value + 10 - 1) / 10) * 10).
Definition get_max_slot_ul_alloc_delay (ntn_cs_koffset : Z) : Z := u32 (SCHEDULER_MAX_K0 + SCHEDULER_MAX_K1 `max` (SCHEDULER_MAX_K2 + MAX_MSG3_DELTA) + ntn_cs_koffset).

Inductive harq_state_t := empty | pending_retx | waiting_ack.
Inductive ack_status := nack | ack | dtx.
#[export] Instance harq_state_eq_dec : EqDecision harq_state_t.
Proof. solve_decision. Defined.
#[export] Instance ack_status_eq_dec : EqDecision ack_status.
Proof. solve_decision. Defined.

(** Parameters of a grant that only pass through are numbers. *)
Record alloc_params := mk_params {
  dci_cfg_type : Z; rbs : Z; nof_symbols : Z; nof_layers : Z; is_fallback : bool; cqi : Z; mcs_table : Z; mcs : Z; tbs_bytes : Z;
  lc_sched_info : list (Z * Z); slice_id : option Z; olla_mcs : option Z
}.
Definition params_default : alloc_params := mk_params 0 0 0 1 false 0 0 0 0 [] None None.

Section harq.
Context {Snr : Type} (snr_lt : Snr -> Snr -> bool).

(** The last four fields are used in the downlink. *)
Record harq := mk_harq {
  ue_idx : nat; rnti : Z; h_id : nat; status : harq_state_t; slot_tx : slot_point; slot_ack : slot_point; slot_timeout : slot_point;
  ndi : bool; nof_retxs : Z; max_nof_harq_retxs : Z; ack_on_timeout : bool; retxs_cancelled : bool; prev_tx_params : alloc_params;
  harq_bit_idx : Z; pucch_ack_to_receive : Z; chosen_ack : ack_status; last_pucch_snr : option Snr
}.
Definition harq_default : harq := mk_harq 1024 0 32 empty slot_default slot_default slot_default false 0 0 false false params_default 0 0 dtx None.

Definition href : Type := nat * nat.

Record ue_harq_entity := mk_ue { harqs : list harq; free_harq_ids : list nat; last_slot_tx : slot_point; last_slot_ack : slot_point }.

Record harq_repo := mk_repo {
  is_dl : bool; max_ack_wait_in_slots : Z; harq_retx_timeout : Z; max_harqs_per_ue : Z; ntn_cs_koffset : Z;
  last_sl_ind : slot_point; ues : list ue_harq_entity; harq_pending_retx_list : list href; harq_timeout_wheel : list (list href)
}.

Inductive harq_event := on_harq_timeout (ue_idx : nat) (is_dl ack : bool).

Definition R (A : Type) : Type := M harq_repo harq_event A.

Definition create (dl : bool) (max_ues : nat) (max_ack_wait_timeout retx_timeout max_harqs koffset : Z) : harq_repo :=
  mk_repo dl (u32 (max_ack_wait_timeout + koffset)) retx_timeout max_harqs koffset slot_default (repeat (mk_ue [] [] slot_default slot_default) max_ues) []
    (repeat [] (Z.to_nat (get_allocator_ring_size_gt_min (u32 (max_ack_wait_timeout + get_max_slot_ul_alloc_delay koffset))))).

(** *** Updates *)

Definition set_status (x : harq_state_t) (h : harq) : harq :=
  mk_harq (ue_idx h) (rnti h) (h_id h) x (slot_tx h) (slot_ack h) (slot_timeout h) (ndi h) (nof_retxs h) (max_nof_harq_retxs h) (ack_on_timeout h) (retxs_cancelled h) (prev_tx_params h) (harq_bit_idx h) (pucch_ack_to_receive h) (chosen_ack h) (last_pucch_snr h).
Definition set_slot_timeout (x : slot_point) (h : harq) : harq :=
  mk_harq (ue_idx h) (rnti h) (h_id h) (status h) (slot_tx h) (slot_ack h) x (ndi h) (nof_retxs h) (max_nof_harq_retxs h) (ack_on_timeout h) (retxs_cancelled h) (prev_tx_params h) (harq_bit_idx h) (pucch_ack_to_receive h) (chosen_ack h) (last_pucch_snr h).
(** A transmission: its slots and the state it leaves the process in. *)
Definition set_tx (sl_tx sl_ack : slot_point) (d : bool) (retxs max : Z) (cancelled : bool) (h : harq) : harq :=
  mk_harq (ue_idx h) (rnti h) (h_id h) waiting_ack sl_tx sl_ack (slot_timeout h) d retxs max false cancelled (prev_tx_params h) (harq_bit_idx h) (pucch_ack_to_receive h) (chosen_ack h) (last_pucch_snr h).
Definition set_max_nof_harq_retxs (max : Z) (cancelled : bool) (h : harq) : harq :=
  mk_harq (ue_idx h) (rnti h) (h_id h) (status h) (slot_tx h) (slot_ack h) (slot_timeout h) (ndi h) (nof_retxs h) max (ack_on_timeout h) cancelled (prev_tx_params h) (harq_bit_idx h) (pucch_ack_to_receive h) (chosen_ack h) (last_pucch_snr h).
Definition set_prev_tx_params (x : alloc_params) (h : harq) : harq :=
  mk_harq (ue_idx h) (rnti h) (h_id h) (status h) (slot_tx h) (slot_ack h) (slot_timeout h) (ndi h) (nof_retxs h) (max_nof_harq_retxs h) (ack_on_timeout h) (retxs_cancelled h) x (harq_bit_idx h) (pucch_ack_to_receive h) (chosen_ack h) (last_pucch_snr h).
Definition set_dl (on_timeout : bool) (bit_idx to_receive : Z) (chosen : ack_status) (snr : option Snr) (h : harq) : harq :=
  mk_harq (ue_idx h) (rnti h) (h_id h) (status h) (slot_tx h) (slot_ack h) (slot_timeout h) (ndi h) (nof_retxs h) (max_nof_harq_retxs h) on_timeout (retxs_cancelled h) (prev_tx_params h) bit_idx to_receive chosen snr.

Definition set_ues (x : list ue_harq_entity) (r : harq_repo) : harq_repo :=
  mk_repo (is_dl r) (max_ack_wait_in_slots r) (harq_retx_timeout r) (max_harqs_per_ue r) (ntn_cs_koffset r) (last_sl_ind r) x (harq_pending_retx_list r) (harq_timeout_wheel r).
Definition set_last_sl_ind (x : slot_point) (r : harq_repo) : harq_repo :=
  mk_repo (is_dl r) (max_ack_wait_in_slots r) (harq_retx_timeout r) (max_harqs_per_ue r) (ntn_cs_koffset r) x (ues r) (harq_pending_retx_list r) (harq_timeout_wheel r).
Definition set_pending_list (x : list href) (r : harq_repo) : harq_repo :=
  mk_repo (is_dl r) (max_ack_wait_in_slots r) (harq_retx_timeout r) (max_harqs_per_ue r) (ntn_cs_koffset r) (last_sl_ind r) (ues r) x (harq_timeout_wheel r).
Definition set_wheel (x : list (list href)) (r : harq_repo) : harq_repo :=
  mk_repo (is_dl r) (max_ack_wait_in_slots r) (harq_retx_timeout r) (max_harqs_per_ue r) (ntn_cs_koffset r) (last_sl_ind r) (ues r) (harq_pending_retx_list r) x.

(** A UE or a process outside its vector is a fault. *)
Definition get_ue (u : nat) : R ue_harq_entity := let! r := get in need (ues r !! u).
Definition set_ue (u : nat) (e : ue_harq_entity) : R unit := modify (fun r => set_ues (<[u := e]> (ues r)) r).
Definition get_harq (x : href) : R harq := let! e := get_ue (fst x) in need (harqs e !! snd x).
Definition update_harq (x : href) (f : harq -> harq) : R unit :=
  let! e := get_ue (fst x) in
  let! h := need (harqs e !! snd x) in
  set_ue (fst x) (mk_ue (<[snd x := f h]> (harqs e)) (free_harq_ids e) (last_slot_tx e) (last_slot_ack e)).

(** The comparison asserts that the numerologies agree. *)
Definition same_numerology (a b : slot_point) : R unit := assert_ (numerology_val a =? numerology_val b).

(** *** The intrusive lists *)

Definition list_pop (x : href) (l : list href) : R (list href) := assert_ (bool_decide (x ∈ l)) ;;; ret (List.filter (fun y => negb (bool_decide (y = x))) l).
Definition pending_pop (x : href) : R unit := let! r := get in let! l := list_pop x (harq_pending_retx_list r) in modify (set_pending_list l).
Definition pending_push_back (x : href) : R unit := modify (fun r => set_pending_list (harq_pending_retx_list r ++ [x]) r).
Definition wheel_index (r : harq_repo) (s : slot_point) : nat := Z.to_nat (count_val s mod zlen (harq_timeout_wheel r)).
Definition wheel_pop (s : slot_point) (x : href) : R unit :=
  let! r := get in
  let! bucket := need (harq_timeout_wheel r !! wheel_index r s) in
  let! l := list_pop x bucket in
  modify (set_wheel (<[wheel_index r s := l]> (harq_timeout_wheel r))).
Definition wheel_push_front (s : slot_point) (x : href) : R unit :=
  let! r := get in
  let! bucket := need (harq_timeout_wheel r !! wheel_index r s) in
  modify (set_wheel (<[wheel_index r s := x :: bucket]> (harq_timeout_wheel r))).

(** [slot_timeout = s], and the process goes into that bucket of the wheel. *)
Definition set_timeout (x : href) (s : slot_point) : R unit := update_harq x (set_slot_timeout s) ;;; wheel_push_front s x.

(** *** Processes *)

Definition latest (last sl : slot_point) : R slot_point :=
  if valid last then same_numerology last sl ;;; ret (if slot_lt last sl then sl else last) else ret sl.
Definition is_latest (last sl : slot_point) : R bool :=
  if valid last then same_numerology sl last ;;; ret (slot_ge sl last) else ret false.

Definition update_last_slots (u : nat) (sl_tx sl_ack : slot_point) : R unit :=
  let! e := get_ue u in
  let! tx := latest (last_slot_tx e) sl_tx in
  let! tack := latest (last_slot_ack e) sl_ack in
  set_ue u (mk_ue (harqs e) (free_harq_ids e) tx tack).

Definition alloc_harq (u : nat) (sl_tx sl_ack : slot_point) (max_retxs : Z) : R (option href) :=
  let! e := get_ue u in
  match list.last (free_harq_ids e) with
  | None => ret None
  | Some id =>
      set_ue u (mk_ue (harqs e) (removelast (free_harq_ids e)) (last_slot_tx e) (last_slot_ack e)) ;;;
      let x := (u, id) in
      update_harq x (fun h => set_tx sl_tx sl_ack (negb (ndi h)) 0 max_retxs false h) ;;;
      update_last_slots u sl_tx sl_ack ;;;
      let! r := get in
      set_timeout x (slot_sub (slot_add sl_ack (max_ack_wait_in_slots r)) (ntn_cs_koffset r)) ;;;
      ret (Some x)
  end.

Definition dealloc_harq (x : href) : R unit :=
  let! h := get_harq x in
  if bool_decide (status h = empty) then ret tt else
  when (bool_decide (status h = pending_retx)) (pending_pop x) ;;;
  wheel_pop (slot_timeout h) x ;;;
  update_harq x (fun h => set_status empty (set_slot_timeout slot_default h)) ;;;
  let! e := get_ue (fst x) in
  let! tx := is_latest (last_slot_tx e) (slot_tx h) in
  let! tack := is_latest (last_slot_ack e) (slot_ack h) in
  set_ue (fst x) (mk_ue (harqs e) (free_harq_ids e ++ [snd x]) (if tx : bool then slot_default else last_slot_tx e) (if tack : bool then slot_default else last_slot_ack e)).

Definition set_pending_retx (x : href) : R unit :=
  let! h := get_harq x in
  if bool_decide (status h = pending_retx) then ret tt else
  wheel_pop (slot_timeout h) x ;;;
  let! r := get in
  set_timeout x (slot_add (last_sl_ind r) (harq_retx_timeout r)) ;;;
  pending_push_back x ;;;
  update_harq x (set_status pending_retx).

Definition handle_ack (x : href) (is_ack : bool) : R unit :=
  let! h := get_harq x in
  if is_ack || (max_nof_harq_retxs h <=? nof_retxs h) then dealloc_harq x else set_pending_retx x.

Definition handle_new_retx (x : href) (sl_tx sl_ack : slot_point) : R bool :=
  let! h := get_harq x in
  if negb (bool_decide (status h = pending_retx)) then ret false else
  pending_pop x ;;;
  wheel_pop (slot_timeout h) x ;;;
  update_harq x (fun h => set_slot_timeout slot_default (set_tx sl_tx sl_ack (ndi h) (u32 (nof_retxs h + 1)) (max_nof_harq_retxs h) (retxs_cancelled h) h)) ;;;
  update_last_slots (ue_idx h) sl_tx sl_ack ;;;
  let! r := get in
  set_timeout x (slot_add sl_ack (max_ack_wait_in_slots r)) ;;;
  ret true.

Definition cancel_retxs (x : href) : R unit :=
  let! h := get_harq x in
  if bool_decide (status h = empty) then ret tt else
  if bool_decide (status h = pending_retx) then dealloc_harq x else
  update_harq x (fun h => set_max_nof_harq_retxs (nof_retxs h) true h).

(** *** The slot *)

Definition handle_harq_ack_timeout (x : href) : R unit :=
  let! h := get_harq x in
  dealloc_harq x ;;;
  let! r := get in
  emit (on_harq_timeout (ue_idx h) (is_dl r) (ack_on_timeout h)).

(** One round for the bucket of the slot. *)
Definition timing_out (i : nat) (_ : unit) : R (unit + unit) :=
  let! r := get in
  let! bucket := need (harq_timeout_wheel r !! i) in
  match bucket with
  | [] => ret (inr tt)
  | x :: _ => handle_harq_ack_timeout x ;;; ret (inl tt)
  end.

(** One round for the processes that were not retransmitted for long. *)
Definition trapped (_ : unit) : R (unit + unit) :=
  let! r := get in
  match harq_pending_retx_list r with
  | [] => ret (inr tt)
  | x :: _ =>
      let! h := get_harq x in
      let limit := slot_add (slot_ack h) (nof_slots_per_hyper_system_frame (last_sl_ind r) / 4) in
      same_numerology (last_sl_ind r) limit ;;;
      if slot_lt (last_sl_ind r) limit then ret (inr tt) else
      dealloc_harq x ;;;
      emit (on_harq_timeout (ue_idx h) (is_dl r) false) ;;;
      ret (inl tt)
  end.

(** Each round takes a process out of the bucket, or out of the list. *)
Definition slot_indication (sl_tx : slot_point) : R unit :=
  modify (set_last_sl_ind sl_tx) ;;;
  let! r := get in
  let i := wheel_index r sl_tx in
  let! bucket := need (harq_timeout_wheel r !! i) in
  let! _ := while_loop (S (length bucket)) (timing_out i) tt in
  let! r := get in
  let! _ := while_loop (S (length (harq_pending_retx_list r))) trapped tt in
  ret tt.

(** *** UEs *)

Definition all_refs (r : harq_repo) : list href := flat_map (fun u => match ues r !! u with Some e => map (fun i => (u, i)) (seq 0 (length (harqs e))) | None => [] end) (seq 0 (length (ues r))).

Definition stop : R unit :=
  let! r := get in
  for_each (all_refs r) (fun x => let! h := get_harq x in when (negb (bool_decide (status h = empty))) (dealloc_harq x)) ;;;
  modify (set_last_sl_ind slot_default).

Definition new_harq (u : nat) (r : Z) (id : nat) : harq :=
  mk_harq u r id empty slot_default slot_default slot_default false 0 0 false false params_default 0 0 dtx None.

(** The vectors are empty before. *)
Definition reserve_ue_harqs (u : nat) (r : Z) (nof : nat) : R unit :=
  let! e := get_ue u in
  set_ue u (mk_ue (map (new_harq u r) (seq 0 nof)) (rev (seq 0 nof)) (last_slot_tx e) (last_slot_ack e)).

Definition contains (u : nat) (r : harq_repo) : bool := match ues r !! u with Some e => negb (bool_decide (harqs e = [])) | None => false end.

(** One direction of [cell_harq_manager::add_ue]. *)
Definition add_ue (u : nat) (rnti : Z) (nof : nat) : R unit :=
  let! r := get in
  assert_ ((Z.of_nat nof <=? max_harqs_per_ue r) && (0 <? Z.of_nat nof)) ;;;
  assert_ (Z.of_nat u <? zlen (ues r)) ;;;
  assert_ (negb (contains u r)) ;;;
  reserve_ue_harqs u rnti nof.

Definition destroy_ue (u : nat) : R unit :=
  let! e := get_ue u in
  for_each (map (fun i => (u, i)) (seq 0 (length (harqs e)))) dealloc_harq ;;;
  let! e := get_ue u in
  set_ue u (mk_ue [] [] (last_slot_tx e) (last_slot_ack e)).

(** *** Downlink *)

Definition SHORT_ACK_TIMEOUT_DTX : Z := 8.

Definition new_dl_tx (u : nat) (pdsch_slot : slot_point) (ack_delay max_retxs bit_idx : Z) : R (option href) :=
  let! x := alloc_harq u pdsch_slot (slot_add pdsch_slot ack_delay) max_retxs in
  match x with
  | None => ret None
  | Some x => update_harq x (fun h => set_dl (ack_on_timeout h) bit_idx 0 dtx None (set_prev_tx_params params_default h)) ;;; ret (Some x)
  end.

Definition dl_new_retx (x : href) (pdsch_slot : slot_point) (ack_delay bit_idx : Z) : R bool :=
  let! ok := handle_new_retx x pdsch_slot (slot_add pdsch_slot ack_delay) in
  if negb ok then ret false else update_harq x (fun h => set_dl (ack_on_timeout h) bit_idx 0 dtx None h) ;;; ret true.

Inductive status_update := acked | nacked | no_update | error.

(** A decoded HARQ-ACK is chosen when it is the first or has a higher SNR. *)
Definition choose_ack (a : ack_status) (pucch_snr : option Snr) (h : harq) : ack_status * option Snr :=
  if negb (bool_decide (a = dtx)) &&
     match last_pucch_snr h with None => true | Some last => match pucch_snr with Some snr => snr_lt last snr | None => false end end
  then (a, pucch_snr) else (chosen_ack h, last_pucch_snr h).

Definition dl_ack_info (x : href) (a : ack_status) (pucch_snr : option Snr) : R status_update :=
  let! h := get_harq x in
  if negb (bool_decide (status h = waiting_ack)) then ret error else
  let '(chosen, snr) := choose_ack a pucch_snr h in
  update_harq x (fun h => set_dl (ack_on_timeout h) (harq_bit_idx h) (pucch_ack_to_receive h) chosen snr h) ;;;
  if pucch_ack_to_receive h <=? 1 then
    let final_ack := bool_decide (chosen = ack) in
    handle_ack x final_ack ;;;
    ret (if final_ack then acked else nacked)
  else
    update_harq x (fun h => set_dl (bool_decide (chosen = ack)) (harq_bit_idx h) (u32 (pucch_ack_to_receive h - 1)) chosen snr h) ;;;
    wheel_pop (slot_timeout h) x ;;;
    let! r := get in
    set_timeout x (slot_add (last_sl_ind r) SHORT_ACK_TIMEOUT_DTX) ;;;
    ret no_update.

Definition increment_pucch_counter (x : href) : R unit :=
  update_harq x (fun h => set_dl (ack_on_timeout h) (harq_bit_idx h) (u32 (pucch_ack_to_receive h + 1)) (chosen_ack h) (last_pucch_snr h) h).

(** The PDSCH, with what the scheduler decided; it has one codeword. *)
Definition dl_save_grant_params (x : href) (p : alloc_params) : R unit :=
  let! h := get_harq x in
  assert_ (bool_decide (status h = waiting_ack)) ;;;
  let prev := prev_tx_params h in
  (if nof_retxs h =? 0 then ret tt else
     assert_ (dci_cfg_type p =? dci_cfg_type prev) ;;; assert_ (tbs_bytes prev =? tbs_bytes p) ;;;
     assert_ (nof_layers prev =? nof_layers p) ;;; assert_ (Bool.eqb (is_fallback prev) (is_fallback p))) ;;;
  update_harq x (set_prev_tx_params
    (if nof_retxs h =? 0 then p
     else mk_params (dci_cfg_type prev) (rbs p) (nof_symbols p) (nof_layers prev) (is_fallback prev) (cqi prev) (mcs_table p) (mcs p) (tbs_bytes prev) (lc_sched_info prev) (slice_id prev) (olla_mcs prev))).

Definition find_dl_harq_waiting_ack (u : nat) (uci_slot : slot_point) (bit_idx : Z) : R (option href) :=
  let! e := get_ue u in
  ret ((fun p => (u, fst p)) <$> list_find (fun h => status h = waiting_ack /\ slot_ack h = uci_slot /\ harq_bit_idx h = bit_idx) (harqs e)).

(** The UCI of the slot was not scheduled: missing HARQ-ACKs for the processes that expect one. *)
Definition uci_sched_failed (u : nat) (uci_slot : slot_point) : R unit :=
  let! e := get_ue u in
  for_each (map (fun i => (u, i)) (seq 0 (length (harqs e)))) (fun x =>
    let! h := get_harq x in
    if bool_decide (status h = waiting_ack) && bool_decide (slot_ack h = uci_slot) then
      for_each (seq 0 (Z.to_nat (pucch_ack_to_receive h `max` 1))) (fun _ => let! _ := dl_ack_info x dtx None in ret tt)
    else ret tt).

(** *** Uplink *)

Definition new_ul_tx (u : nat) (pusch_slot : slot_point) (max_retxs : Z) : R (option href) :=
  let! x := alloc_harq u pusch_slot pusch_slot max_retxs in
  match x with None => ret None | Some x => update_harq x (set_prev_tx_params params_default) ;;; ret (Some x) end.

Definition ul_new_retx (x : href) (pusch_slot : slot_point) : R bool := handle_new_retx x pusch_slot pusch_slot.

Definition ul_crc_info (x : href) (is_ack : bool) : R Z :=
  let! h := get_harq x in
  if negb (bool_decide (status h = waiting_ack)) then ret (-1) else
  handle_ack x is_ack ;;;
  ret (if is_ack then tbs_bytes (prev_tx_params h) else 0).

Definition ul_save_grant_params (x : href) (p : alloc_params) : R unit :=
  let! h := get_harq x in
  assert_ (bool_decide (status h = waiting_ack)) ;;;
  let prev := prev_tx_params h in
  (if nof_retxs h =? 0 then ret tt else assert_ (dci_cfg_type p =? dci_cfg_type prev) ;;; assert_ (tbs_bytes prev =? tbs_bytes p)) ;;;
  update_harq x (set_prev_tx_params
    (mk_params (if nof_retxs h =? 0 then dci_cfg_type p else dci_cfg_type prev) (rbs p) (nof_symbols p) (nof_layers p) (is_fallback prev) (cqi prev) (mcs_table p) (mcs p)
      (if nof_retxs h =? 0 then tbs_bytes p else tbs_bytes prev) (lc_sched_info prev) (if nof_retxs h =? 0 then slice_id p else slice_id prev) (if nof_retxs h =? 0 then olla_mcs p else olla_mcs prev))).

Definition find_ul_harq_waiting_ack (u : nat) (pusch_slot : slot_point) : R (option href) :=
  let! e := get_ue u in
  ret ((fun p => (u, fst p)) <$> list_find (fun h => status h = waiting_ack /\ slot_tx h = pusch_slot) (harqs e)).

Definition total_ul_bytes_waiting_ack (u : nat) : R Z :=
  let! e := get_ue u in
  ret (fold_left (fun n h => if bool_decide (status h = empty) then n else u32 (n + tbs_bytes (prev_tx_params h))) (harqs e) 0).

(** *** Both *)

Definition find_ue_harq_in_state (u : nat) (s : harq_state_t) : R (option href) :=
  let! e := get_ue u in
  ret ((fun p => (u, fst p)) <$> list_find (fun h => status h = s) (harqs e)).

Definition cancel_all_retxs (u : nat) : R unit :=
  let! e := get_ue u in
  for_each (map (fun i => (u, i)) (seq 0 (length (harqs e)))) (fun x => let! h := get_harq x in when (negb (bool_decide (status h = empty))) (cancel_retxs x)).

End harq.
End SchedHarq.
