(* ===== verification/SchedHarqTheorems.v ===== *)
(** * Scheduler: the HARQ processes of a cell

    On every run each HARQ process is where its state says: the free ones in the list of free identities of their UE, the busy ones in
    the bucket of the wheel of their timeout, and those that wait for a retransmission in the list of these.  Hence no operation
    faults, a process is released exactly in the slot of its timeout, and none is busy for longer than the wheel has slots. *)

From S2P Require Import Prelude Effects SchedHarq.
Open Scope Z_scope.
Open Scope entity_scope.

Import SlotPoint SchedHarq.

(** ** Slots of one numerology *)

Section slots.
Context (mu : Z) (Hmu : 0 <= mu < 5).

Definition hyper : Z := 10240 * 2 ^ mu.
Definition on_grid (s : slot_point) : Prop := numerology_val s = mu /\ 0 <= count_val s < hyper.

Lemma hyper_range : 10240 <= hyper <= 163840 /\ (10240 | hyper).
Proof. unfold hyper. assert (mu = 0 \/ mu = 1 \/ mu = 2 \/ mu = 3 \/ mu = 4) as Hc by lia. destruct Hc as [->|[->|[->|[->| ->]]]]; (split; [simpl; lia|]); [exists 1|exists 2|exists 4|exists 8|exists 16]; reflexivity. Qed.

Lemma hyper_slots s : numerology_val s = mu -> nof_slots_per_hyper_system_frame s = hyper.
Proof.
  intros E. unfold nof_slots_per_hyper_system_frame, nof_slots_per_frame, nof_slots_per_subframe, hyper, NOF_SUBFRAMES_PER_FRAME, NOF_SFNS. rewrite E.
  assert (mu = 0 \/ mu = 1 \/ mu = 2 \/ mu = 3 \/ mu = 4) as Hc by lia. by destruct Hc as [->|[->|[->|[->| ->]]]].
Qed.

Lemma slot_add_grid s d : on_grid s -> 0 <= d < 2 ^ 31 -> slot_add s d = mk_slot mu ((count_val s + d) mod hyper).
Proof. intros [E Hc] Hd. pose proof hyper_range as [Hh _]. unfold slot_add. rewrite hyper_slots, E by done. by rewrite u32_small by lia. Qed.

Lemma slot_sub_grid s d : on_grid s -> slot_sub s d = mk_slot mu ((count_val s - d) mod hyper).
Proof.
  intros [E Hc]. pose proof hyper_range as [Hh _]. unfold slot_sub, slot_add_int. rewrite hyper_slots, E by done. f_equal.
  change (count_val s + - d) with (count_val s - d). set (x := count_val s - d). pose proof (Z.quot_rem' x hyper) as Eq. pose proof (Z.rem_bound_abs x hyper ltac:(lia)) as Hb.
  destruct (Z.ltb_spec (Z.rem x hyper) 0); [apply Z.mod_unique_pos with (Z.quot x hyper - 1)|apply Z.mod_unique_pos with (Z.quot x hyper)]; lia.
Qed.

Lemma on_grid_mod c : on_grid (mk_slot mu (c mod hyper)).
Proof. pose proof hyper_range as [Hh _]. split; [done|]. cbn. apply Z.mod_pos_bound. lia. Qed.

Lemma on_grid_add s d : on_grid s -> 0 <= d < 2 ^ 31 -> on_grid (slot_add s d).
Proof. intros Hs Hd. rewrite slot_add_grid by done. apply on_grid_mod. Qed.

Lemma slot_add_0 s : on_grid s -> slot_add s 0 = s.
Proof. intros Hs. rewrite slot_add_grid by (done || lia). destruct s as [n c], Hs as [E Hc]. cbn in *. subst n. f_equal. rewrite Z.add_0_r. by apply Z.mod_small. Qed.

Lemma slot_add_add s a b : on_grid s -> 0 <= a < 2 ^ 31 -> 0 <= b < 2 ^ 31 -> a + b < 2 ^ 31 -> slot_add (slot_add s a) b = slot_add s (a + b).
Proof.
  intros Hs Ha Hb Hab. pose proof hyper_range as [Hh _]. rewrite (slot_add_grid (slot_add s a)) by (try done; by apply on_grid_add). rewrite !slot_add_grid by (done || lia). cbn [count_val]. f_equal.
  rewrite Zplus_mod_idemp_l. f_equal. lia.
Qed.

Lemma slot_add_sub s a k : on_grid s -> 0 <= k <= a -> a < 2 ^ 31 -> slot_sub (slot_add s a) k = slot_add s (a - k).
Proof.
  intros Hs Hk Ha. pose proof hyper_range as [Hh _]. rewrite slot_sub_grid by (apply on_grid_add; [done|lia]). rewrite !slot_add_grid by (done || lia). cbn [count_val]. f_equal.
  rewrite Zminus_mod_idemp_l. f_equal. lia.
Qed.

Lemma slot_incr_add s : on_grid s -> slot_incr s = slot_add s 1.
Proof.
  intros Hs. pose proof hyper_range as [Hh _]. rewrite slot_add_grid by (done || lia). destruct Hs as [E Hc]. unfold slot_incr. rewrite hyper_slots, E by done. f_equal.
  destruct (Z.eqb_spec (count_val s + 1) hyper) as [->|]; [by rewrite Z_mod_same_full|]. by rewrite Z.mod_small by lia.
Qed.

(** The bucket of a slot [d] ahead, in a wheel whose size divides the hyperframe. *)
Lemma bucket_of n s d : 0 < n -> (n | hyper) -> on_grid s -> 0 <= d < 2 ^ 31 -> count_val (slot_add s d) mod n = (count_val s + d) mod n.
Proof. intros Hn Hdiv Hs Hd. rewrite slot_add_grid by done. cbn. symmetry. apply Znumtheory.Zmod_div_mod; [done|pose proof hyper_range; lia|done]. Qed.

Lemma slot_lt_add s d : on_grid s -> 0 <= d < hyper -> slot_lt s (slot_add s d) = (0 <? d) && (d <? hyper / 2).
Proof.
  intros Hs Hd. pose proof hyper_range as [Hh Hdiv]. rewrite slot_add_grid by (done || lia). destruct Hs as [E Hc]. unfold slot_lt. rewrite hyper_slots by done. cbn [count_val].
  assert (hyper mod 2 = 0) as He by (destruct Hdiv as [k ->]; zmod). destruct (Z.le_gt_cases hyper (count_val s + d)).
  - assert ((count_val s + d) mod hyper = count_val s + d - hyper) as -> by (symmetry; apply Z.mod_unique_pos with 1; lia).
    destruct (Z.ltb_spec 0 (count_val s + d - hyper - count_val s)); [lia|]. destruct (Z.ltb_spec 0 d); [|lia]. cbn [andb].
    destruct (Z.ltb_spec (count_val s + d - hyper - count_val s) (- (hyper / 2))), (Z.ltb_spec d (hyper / 2)); Z.to_euclidean_division_equations; (done || lia).
  - rewrite Z.mod_small by lia. replace (count_val s + d - count_val s) with d by lia. destruct (Z.ltb_spec 0 d); cbn [andb]; [done|]. apply Z.ltb_ge. zmod.
Qed.
End slots.

(** ** Processes, buckets and lists *)

Section harq.
Context {Snr : Type} (snr_lt : Snr -> Snr -> bool).
Notation repo := (harq_repo (Snr := Snr)).
Notation process := (harq (Snr := Snr)).
Notation entity := (ue_harq_entity (Snr := Snr)).

Definition harq_at (r : repo) (x : href) : option process := e ← ues r !! fst x; harqs e !! snd x.
Definition free_ids (r : repo) (u : nat) : list nat := default [] (free_harq_ids <$> ues r !! u).
Definition in_bucket (r : repo) (i : nat) (x : href) : Prop := exists b, harq_timeout_wheel r !! i = Some b /\ x ∈ b.

Definition with_entity (u : nat) (f : entity -> entity) (r : repo) : repo := set_ues (alter f u (ues r)) r.
Definition with_harqs (f : list process -> list process) (e : entity) : entity := mk_ue (f (harqs e)) (free_harq_ids e) (last_slot_tx e) (last_slot_ack e).
Definition with_harq (x : href) (f : process -> process) : repo -> repo := with_entity (fst x) (with_harqs (alter f (snd x))).
Definition without (x : href) (l : list href) : list href := List.filter (fun y => negb (bool_decide (y = x))) l.
Definition with_bucket (i : nat) (f : list href -> list href) (r : repo) : repo := set_wheel (alter f i (harq_timeout_wheel r)) r.

Lemma insert_alter {A} (f : A -> A) i (l : list A) a : l !! i = Some a -> <[i := f a]> l = alter f i l.
Proof.
  intros Ha. apply list_eq. intros j. destruct (decide (j = i)) as [->|Hne].
  - rewrite list_lookup_alter_eq, Ha, list_lookup_insert_eq by (by eapply lookup_lt_Some). done.
  - by rewrite list_lookup_alter_ne, list_lookup_insert_ne.
Qed.

Lemma elem_without x y l : y ∈ without x l <-> y ∈ l /\ y <> x.
Proof.
  unfold without. rewrite list_elem_of_In, filter_In, <- list_elem_of_In, negb_true_iff, bool_decide_eq_false. done.
Qed.
Lemma without_nodup x l : NoDup l -> NoDup (without x l).
Proof. intros Hl. apply NoDup_ListNoDup, List.NoDup_filter, NoDup_ListNoDup, Hl. Qed.

Lemma at_with_harq x f r y : harq_at (with_harq x f r) y = if decide (y = x) then f <$> harq_at r y else harq_at r y.
Proof.
  unfold harq_at, with_harq, with_entity. cbn [ues set_ues]. destruct x as [u i], y as [v j]. cbn [fst snd]. destruct (decide (u = v)) as [->|Hne].
  - rewrite list_lookup_alter_eq. destruct (ues r !! v) as [e|]; cbn; [|by destruct (decide _)]. destruct (decide (i = j)) as [->|Hij].
    + rewrite list_lookup_alter_eq, decide_True by done. done.
    + rewrite list_lookup_alter_ne, decide_False by congruence. done.
  - rewrite list_lookup_alter_ne, decide_False by congruence. done.
Qed.

Lemma in_with_bucket i f r j y : in_bucket (with_bucket i f r) j y <-> exists b, harq_timeout_wheel r !! j = Some b /\ y ∈ (if decide (i = j) then f b else b).
Proof.
  unfold in_bucket, with_bucket. cbn [harq_timeout_wheel set_wheel]. destruct (decide (i = j)) as [->|Hne].
  - rewrite list_lookup_alter_eq. destruct (harq_timeout_wheel r !! j); cbn; naive_solver.
  - by rewrite list_lookup_alter_ne.
Qed.

Lemma in_bucket_del i x r j y : in_bucket (with_bucket i (without x) r) j y <-> in_bucket r j y /\ ~ (j = i /\ y = x).
Proof.
  rewrite in_with_bucket. unfold in_bucket. destruct (decide (i = j)) as [->|Hne]; [|naive_solver].
  split; [intros (b & Hb & [H1 H2]%elem_without); naive_solver|]. intros ((b & Hb & H1) & H2). exists b. rewrite elem_without. naive_solver.
Qed.

Lemma in_bucket_add i x r j y : (i < length (harq_timeout_wheel r))%nat -> in_bucket (with_bucket i (cons x) r) j y <-> in_bucket r j y \/ (j = i /\ y = x).
Proof.
  intros Hi. rewrite in_with_bucket. unfold in_bucket. destruct (decide (i = j)) as [->|Hne]; [|naive_solver].
  apply lookup_lt_is_Some in Hi as [b0 Hb0]. split.
  - intros (b & Hb & H1). apply elem_of_cons in H1 as [->|H1]; naive_solver.
  - intros [(b & Hb & H1)|[_ ->]]; [exists b|exists b0]; (split; [done|]); rewrite elem_of_cons; auto.
Qed.

(** ** The primitives *)

Lemma wp_get_harq x h r (Q : process -> repo -> list harq_event -> Prop) : harq_at r x = Some h -> Q h r [] -> wp (get_harq x) Q r.
Proof.
  intros Hx HQ. unfold harq_at in Hx. apply bind_Some in Hx as (e & He & Hh). unfold get_harq, get_ue. do 3 wp_step. apply wp_need with e; [done|]. cbn [app]. by apply wp_need with h.
Qed.

Lemma wp_update_harq x f r h (Q : unit -> repo -> list harq_event -> Prop) : harq_at r x = Some h -> Q tt (with_harq x f r) [] -> wp (update_harq x f) Q r.
Proof.
  intros Hx HQ. unfold harq_at in Hx. apply bind_Some in Hx as (e & He & Hh). unfold update_harq, get_ue, set_ue. do 3 wp_step. apply wp_need with e; [done|]. cbn [app]. wp_step. apply wp_need with h; [done|]. cbn [app].
  wp_step. rewrite (insert_alter f (snd x) (harqs e) h Hh). change (mk_ue (alter f (snd x) (harqs e)) _ _ _) with (with_harqs (alter f (snd x)) e).
  by rewrite (insert_alter _ (fst x) (ues r) e He).
Qed.

Lemma free_with_harq x f r u : free_ids (with_harq x f r) u = free_ids r u.
Proof.
  unfold free_ids, with_harq, with_entity. cbn [ues set_ues]. destruct (decide (fst x = u)) as [<-|Hne]; [|by rewrite list_lookup_alter_ne].
  rewrite list_lookup_alter_eq. by destruct (ues r !! fst x).
Qed.

Definition put_ue (u : nat) (e : entity) (r : repo) : repo := set_ues (<[u := e]> (ues r)) r.

Lemma wp_get_ue u e r (Q : entity -> repo -> list harq_event -> Prop) : ues r !! u = Some e -> Q e r [] -> wp (get_ue u) Q r.
Proof. intros He HQ. unfold get_ue. do 2 wp_step. by apply wp_need with e. Qed.

Lemma at_put u e e' r y : ues r !! u = Some e -> harqs e' = harqs e -> harq_at (put_ue u e' r) y = harq_at r y.
Proof.
  intros He Hh. unfold harq_at, put_ue. cbn [ues set_ues]. destruct y as [v j]. cbn [fst snd]. destruct (decide (u = v)) as [<-|Hne]; [|by rewrite list_lookup_insert_ne].
  rewrite list_lookup_insert_eq by (by eapply lookup_lt_Some). rewrite He. cbn. by rewrite Hh.
Qed.

Lemma free_put u e e' r v : ues r !! u = Some e -> free_ids (put_ue u e' r) v = if decide (v = u) then free_harq_ids e' else free_ids r v.
Proof.
  intros He. unfold free_ids, put_ue. cbn [ues set_ues]. destruct (decide (v = u)) as [->|Hne]; [|by rewrite list_lookup_insert_ne].
  by rewrite list_lookup_insert_eq by (by eapply lookup_lt_Some).
Qed.

Lemma ue_with_harq x f r u e : ues r !! u = Some e -> exists e', ues (with_harq x f r) !! u = Some e' /\ free_harq_ids e' = free_harq_ids e /\ last_slot_tx e' = last_slot_tx e /\ last_slot_ack e' = last_slot_ack e.
Proof.
  intros He. unfold with_harq, with_entity. cbn [ues set_ues]. destruct (decide (fst x = u)) as [<-|Hne]; [|rewrite list_lookup_alter_ne by done; eauto].
  rewrite list_lookup_alter_eq, He. cbn. eauto.
Qed.

Lemma at_ue r x h : harq_at r x = Some h -> exists e, ues r !! fst x = Some e /\ harqs e !! snd x = Some h.
Proof. by intros (e & He & Hh)%bind_Some; exists e. Qed.

(** ** The invariant *)

Context (mu : Z) (Hmu : 0 <= mu < 5) (n : Z) (Hn : 0 < n) (Hdiv : (n | hyper mu)).

Definition bucket (s : slot_point) : nat := Z.to_nat (count_val s mod n).
Definition slot_ok (s : slot_point) : Prop := valid s = true -> numerology_val s = mu.

Record harq_ok (x : href) (h : process) : Prop := {
  ho_ue : ue_idx h = fst x;
  ho_id : h_id h = snd x;
  ho_slots : status h <> empty -> numerology_val (slot_tx h) = mu /\ numerology_val (slot_ack h) = mu;
  ho_retxs : status h <> empty -> 0 <= nof_retxs h <= max_nof_harq_retxs h /\ max_nof_harq_retxs h < 2 ^ 32;
  ho_pending : status h = pending_retx -> nof_retxs h < max_nof_harq_retxs h
}.

Definition last_ok (r : repo) : Prop := forall u e, ues r !! u = Some e -> slot_ok (last_slot_tx e) /\ slot_ok (last_slot_ack e).
Definition buckets_nodup (r : repo) : Prop := forall i b, harq_timeout_wheel r !! i = Some b -> NoDup b.

(** Every process is where its state says. *)
Record placed (r : repo) : Prop := {
  pl_ok : forall x h, harq_at r x = Some h -> harq_ok x h;
  pl_free_nodup : forall u, NoDup (free_ids r u);
  pl_free : forall u i, i ∈ free_ids r u <-> exists h, harq_at r (u, i) = Some h /\ status h = empty;
  pl_last : last_ok r;
  pl_wheel : zlen (harq_timeout_wheel r) = n;
  pl_bucket_nodup : buckets_nodup r;
  pl_bucket : forall i x, in_bucket r i x <-> exists h, harq_at r x = Some h /\ status h <> empty /\ bucket (slot_timeout h) = i;
  pl_pending_nodup : NoDup (harq_pending_retx_list r);
  pl_pending : forall x, x ∈ harq_pending_retx_list r <-> exists h, harq_at r x = Some h /\ status h = pending_retx
}.

(** What no operation on a process changes. *)
Record framed (r r' : repo) : Prop := {
  fr_dl : is_dl r' = is_dl r;
  fr_wait : max_ack_wait_in_slots r' = max_ack_wait_in_slots r;
  fr_retx : harq_retx_timeout r' = harq_retx_timeout r;
  fr_max : max_harqs_per_ue r' = max_harqs_per_ue r;
  fr_koffset : ntn_cs_koffset r' = ntn_cs_koffset r;
  fr_last : last_sl_ind r' = last_sl_ind r;
  fr_ues : length (ues r') = length (ues r)
}.

#[local] Instance framed_trans : PreOrder framed.
Proof. split; [by intros r|]. intros r1 r2 r3 [] []. split; congruence. Qed.

Lemma moved (P : process -> Prop) (x y : href) (o : option process) h' :
  ((exists h, o = Some h /\ P h) /\ y <> x) \/ (y = x /\ P h') <-> exists h, (if decide (y = x) then Some h' else o) = Some h /\ P h.
Proof. destruct (decide (y = x)) as [->|Hne]; naive_solver. Qed.

Lemma placed_change r r' x h h' : placed r -> harq_at r x = Some h -> harq_ok x h' -> (forall y, harq_at r' y = if decide (y = x) then Some h' else harq_at r y) ->
  (forall u, NoDup (free_ids r' u)) -> (forall u i, i ∈ free_ids r' u <-> (i ∈ free_ids r u /\ (u, i) <> x) \/ ((u, i) = x /\ status h' = empty)) ->
  last_ok r' -> zlen (harq_timeout_wheel r') = n ->
  buckets_nodup r' ->
  (forall i y, in_bucket r' i y <-> (in_bucket r i y /\ y <> x) \/ (y = x /\ status h' <> empty /\ bucket (slot_timeout h') = i)) ->
  NoDup (harq_pending_retx_list r') -> (forall y, y ∈ harq_pending_retx_list r' <-> (y ∈ harq_pending_retx_list r /\ y <> x) \/ (y = x /\ status h' = pending_retx)) -> placed r'.
Proof.
  intros [P1 P2 P3 P4 P5 P6 P7 P8 P9] Hx Hok Hat Hfn Hf Hl Hw Hbn Hb Hpn Hp. split; try done.
  - intros y k. rewrite Hat. destruct (decide (y = x)) as [->|]; [by intros [= <-]|apply P1].
  - intros u i. rewrite Hf, P3, Hat. apply (moved (fun k => status k = empty)).
  - intros i y. rewrite Hb, P7, Hat. apply (moved (fun k => status k <> empty /\ bucket (slot_timeout k) = i)).
  - intros y. rewrite Hp, P9, Hat. apply (moved (fun k => status k = pending_retx)).
Qed.

(** ** The lists *)

Lemma wp_pending_pop x r (Q : unit -> repo -> list harq_event -> Prop) : x ∈ harq_pending_retx_list r -> Q tt (set_pending_list (without x (harq_pending_retx_list r)) r) [] -> wp (pending_pop x) Q r.
Proof. intros Hx HQ. unfold pending_pop, list_pop. do 4 wp_step. apply wp_assert; [by apply bool_decide_eq_true|]. by do 2 wp_step. Qed.

Lemma wheel_index_bucket (r : repo) s : zlen (harq_timeout_wheel r) = n -> wheel_index r s = bucket s.
Proof. unfold wheel_index, bucket. by intros ->. Qed.

Lemma wp_wheel_pop s x r (Q : unit -> repo -> list harq_event -> Prop) : zlen (harq_timeout_wheel r) = n -> in_bucket r (bucket s) x -> Q tt (with_bucket (bucket s) (without x) r) [] -> wp (wheel_pop s x) Q r.
Proof.
  intros Hw (b & Hb & Hx) HQ. unfold wheel_pop, list_pop. do 3 wp_step. rewrite wheel_index_bucket by done. apply wp_need with b; [done|]. cbn [app]. do 2 wp_step. apply wp_assert; [by apply bool_decide_eq_true|].
  wp_step. wp_step. change (List.filter _ b) with (without x b). rewrite (insert_alter (without x) _ _ b Hb). exact HQ.
Qed.

Lemma wp_wheel_push s x r (Q : unit -> repo -> list harq_event -> Prop) : zlen (harq_timeout_wheel r) = n -> Q tt (with_bucket (bucket s) (cons x) r) [] -> wp (wheel_push_front s x) Q r.
Proof.
  intros Hw HQ. unfold wheel_push_front. do 3 wp_step. rewrite wheel_index_bucket by done.
  assert (is_Some (harq_timeout_wheel r !! bucket s)) as [b Hb].
  { apply lookup_lt_is_Some, Nat2Z.inj_lt. unfold bucket. rewrite Z2Nat.id by (by apply Z.mod_pos_bound). unfold zlen in Hw. rewrite Hw. by apply Z.mod_pos_bound. }
  apply wp_need with b; [done|]. cbn [app]. wp_step. rewrite (insert_alter (cons x) _ _ b Hb). exact HQ.
Qed.

Lemma last_with_harq x f r : last_ok r -> last_ok (with_harq x f r).
Proof.
  intros Hl u e. unfold with_harq, with_entity. cbn [ues set_ues]. destruct (decide (fst x = u)) as [<-|Hne]; [|rewrite list_lookup_alter_ne by done; apply Hl].
  rewrite list_lookup_alter_eq. intros (e0 & He & ->)%fmap_Some. cbn. by apply (Hl (fst x)).
Qed.

Lemma last_put u e r : last_ok r -> slot_ok (last_slot_tx e) -> slot_ok (last_slot_ack e) -> last_ok (put_ue u e r).
Proof.
  intros Hl Ht Ha v e'. unfold put_ue. cbn [ues set_ues]. intros [(<- & <- & _)|[_ He]]%list_lookup_insert_Some; [done|by apply (Hl v)].
Qed.

Lemma pl_only r x h i : placed r -> harq_at r x = Some h -> status h <> empty -> in_bucket r i x <-> i = bucket (slot_timeout h).
Proof. intros P Hx Hs. rewrite (pl_bucket _ P). naive_solver. Qed.

Lemma wheel_del r x h i y : placed r -> harq_at r x = Some h -> status h <> empty -> in_bucket (with_bucket (bucket (slot_timeout h)) (without x) r) i y <-> in_bucket r i y /\ y <> x.
Proof.
  intros P Hx Hs. rewrite in_bucket_del. split; [|tauto]. intros [Hi Hn0]. split; [done|]. intros ->. apply Hn0. split; [|done]. by apply (pl_only r x h i P Hx Hs).
Qed.

Lemma nodup_del i x r : buckets_nodup r -> buckets_nodup (with_bucket i (without x) r).
Proof.
  intros Hb j b. unfold with_bucket. cbn [harq_timeout_wheel set_wheel]. destruct (decide (i = j)) as [<-|Hne]; [|rewrite list_lookup_alter_ne by done; apply Hb].
  rewrite list_lookup_alter_eq. intros (b0 & Hb0 & ->)%fmap_Some. by apply without_nodup, (Hb i).
Qed.

Lemma nodup_add i x r : buckets_nodup r -> ~ in_bucket r i x -> buckets_nodup (with_bucket i (cons x) r).
Proof.
  intros Hb Hx j b. unfold with_bucket. cbn [harq_timeout_wheel set_wheel]. destruct (decide (i = j)) as [<-|Hne]; [|rewrite list_lookup_alter_ne by done; apply Hb].
  rewrite list_lookup_alter_eq. intros (b0 & Hb0 & ->)%fmap_Some. constructor; [|by apply (Hb i)]. intros Hin. apply Hx. by exists b0.
Qed.

Lemma wheel_with_bucket i f r : zlen (harq_timeout_wheel (with_bucket i f r)) = zlen (harq_timeout_wheel r).
Proof. unfold zlen, with_bucket. cbn [harq_timeout_wheel set_wheel]. by rewrite length_alter. Qed.

(** An operation on the process of [x] that leaves [h'] there. *)
Record stepped (x : href) (h' : process) (r r' : repo) : Prop := {
  st_placed : placed r';
  st_framed : framed r r';
  st_at : forall y, harq_at r' y = if decide (y = x) then Some h' else harq_at r y
}.

Lemma wp_is_latest last sl (r : repo) (Q : bool -> repo -> list harq_event -> Prop) : slot_ok last -> numerology_val sl = mu -> (forall b, Q b r []) -> wp (is_latest last sl) Q r.
Proof.
  intros Hl Hs HQ. unfold is_latest. wp_step; [|by wp_step]. unfold same_numerology. wp_step. apply wp_assert; [apply Z.eqb_eq; by rewrite Hl|]. cbn [app]. by wp_step.
Qed.

Lemma wp_latest last sl (r : repo) (Q : slot_point -> repo -> list harq_event -> Prop) : slot_ok last -> numerology_val sl = mu -> (forall s, slot_ok s -> Q s r []) -> wp (latest last sl) Q r.
Proof.
  intros Hl Hs HQ. assert (slot_ok sl) as Hok by by intros _. unfold latest. wp_step; [|wp_step; by apply HQ]. unfold same_numerology. wp_step. apply wp_assert; [apply Z.eqb_eq; by rewrite Hl|].
  cbn [app]. wp_step. apply HQ. by destruct (slot_lt _ _).
Qed.

Definition released (h : process) : process := set_status empty (set_slot_timeout slot_default h).

Lemma harq_ok_released x h : harq_ok x h -> harq_ok x (released h).
Proof. intros []. by split. Qed.

Lemma without_absent x l : x ∉ l -> without x l = l.
Proof.
  intros Hx. unfold without. induction l as [|y l IH]; [done|]. apply not_elem_of_cons in Hx as [Hne Hx]. cbn. rewrite bool_decide_eq_false_2 by congruence. cbn. by rewrite IH.
Qed.

Lemma wp_when_pending x h r (Q : unit -> repo -> list harq_event -> Prop) : placed r -> harq_at r x = Some h -> Q tt (set_pending_list (without x (harq_pending_retx_list r)) r) [] -> wp (when (bool_decide (status h = pending_retx)) (pending_pop x)) Q r.
Proof.
  intros P Hx HQ. wp_step.
  - apply wp_pending_pop; [|done]. apply (pl_pending _ P). exists h. split; [done|]. by apply bool_decide_eq_true in H.
  - rewrite without_absent in HQ; [by destruct r|]. rewrite (pl_pending _ P). intros (k & Hk & Hp). simplify_eq. by rewrite bool_decide_eq_true_2 in H.
Qed.

Definition unlinked (x : href) (h : process) (r : repo) : repo := with_bucket (bucket (slot_timeout h)) (without x) (set_pending_list (without x (harq_pending_retx_list r)) r).

Lemma placed_unlinked x h r : placed r -> harq_at r x = Some h -> status h <> empty ->
  (forall i y, in_bucket (unlinked x h r) i y <-> in_bucket r i y /\ y <> x) /\ buckets_nodup (unlinked x h r) /\ zlen (harq_timeout_wheel (unlinked x h r)) = n.
Proof.
  intros P Hx Hs. split; [|split].
  - intros i y. exact (wheel_del r x h i y P Hx Hs).
  - apply nodup_del, (pl_bucket_nodup _ P).
  - unfold unlinked. rewrite wheel_with_bucket. apply (pl_wheel _ P).
Qed.

Lemma stepped_released x h r e e' : placed r -> harq_at r x = Some h -> status h <> empty -> ues (with_harq x released (unlinked x h r)) !! fst x = Some e ->
  harqs e' = harqs e -> free_harq_ids e' = free_harq_ids e ++ [snd x] -> slot_ok (last_slot_tx e') -> slot_ok (last_slot_ack e') -> stepped x (released h) r (put_ue (fst x) e' (with_harq x released (unlinked x h r))).
Proof.
  intros P Hx Hs He Hh Hf Ht Ha. pose proof (pl_ok _ P _ _ Hx) as Hok. destruct (placed_unlinked x h r P Hx Hs) as (Hin & Hnd & Hlen). set (r1 := unlinked x h r) in *.
  assert (forall y, harq_at (put_ue (fst x) e' (with_harq x released r1)) y = if decide (y = x) then Some (released h) else harq_at r y) as Hat.
  { intros y. rewrite (at_put _ e) by done. rewrite at_with_harq. change (harq_at r1 y) with (harq_at r y). destruct (decide (y = x)) as [->|]; [|done]. by rewrite Hx. }
  assert (free_harq_ids e = free_ids r (fst x)) as Hfe. { change (free_ids r (fst x)) with (free_ids r1 (fst x)). rewrite <- (free_with_harq x released). unfold free_ids. by rewrite He. }
  assert (forall v, free_ids (put_ue (fst x) e' (with_harq x released r1)) v = if decide (v = fst x) then free_ids r (fst x) ++ [snd x] else free_ids r v) as Hfr.
  { intros v. rewrite (free_put _ e) by done. rewrite Hf, Hfe, free_with_harq. done. }
  assert (snd x ∉ free_ids r (fst x)) as Hnf. { rewrite (pl_free _ P). rewrite <- surjective_pairing. intros (k & Hk & Hke). congruence. }
  split; [|split; try done; unfold put_ue, with_harq, with_entity; cbn; by rewrite length_insert, length_alter|done].
  apply (placed_change r _ x h (released h) P Hx); [by apply harq_ok_released|exact Hat|..].
  - intros v. rewrite Hfr. destruct (decide (v = fst x)) as [->|]; [|apply (pl_free_nodup _ P)]. apply NoDup_app. split; [apply (pl_free_nodup _ P)|]. split; [|apply NoDup_singleton].
    by intros i Hi ->%list_elem_of_singleton.
  - intros v i. rewrite Hfr. destruct x as [u j]. cbn [fst snd] in *. destruct (decide (v = u)) as [->|]; [rewrite elem_of_app, list_elem_of_singleton|]; destruct (decide (i = j)) as [->|]; naive_solver.
  - apply last_put; [|done..]. apply last_with_harq. exact (pl_last _ P).
  - exact Hlen.
  - exact Hnd.
  - intros i y. change (in_bucket (put_ue _ _ _) i y) with (in_bucket r1 i y). rewrite Hin. cbn. tauto.
  - apply without_nodup, (pl_pending_nodup _ P).
  - intros y. cbn. rewrite elem_without. naive_solver.
Qed.

Lemma wp_dealloc x h r (Q : unit -> repo -> list harq_event -> Prop) : placed r -> harq_at r x = Some h -> status h <> empty ->
  (forall r', stepped x (released h) r r' -> harq_timeout_wheel r' = harq_timeout_wheel (unlinked x h r) -> harq_pending_retx_list r' = without x (harq_pending_retx_list r) -> Q tt r' []) -> wp (dealloc_harq x) Q r.
Proof.
  intros P Hx Hs HQ. unfold dealloc_harq. wp_step. apply (wp_get_harq x h); [done|]. cbn [app]. rewrite bool_decide_eq_false_2 by done. wp_step. apply (wp_when_pending x h); [done..|]. cbn [app]. wp_step.
  apply wp_wheel_pop; [apply (pl_wheel _ P)|by apply (pl_only r x h _ P Hx Hs)|]. cbn [app]. fold (unlinked x h r). wp_step. apply (wp_update_harq x _ _ h); [done|]. cbn [app]. fold released.
  destruct (at_ue _ _ _ Hx) as (e & He & Hh). pose proof (pl_last _ P _ _ He) as [Ht Ha]. destruct (ho_slots _ _ (pl_ok _ P _ _ Hx) Hs) as [Hst Hsa].
  destruct (ue_with_harq x released (unlinked x h r) (fst x) e He) as (e1 & He1 & Ef & Et & Ea). wp_step. apply (wp_get_ue _ e1); [done|]. cbn [app].
  wp_step. apply wp_is_latest; [by rewrite Et|done|]. intros b1. cbn [app]. wp_step. apply wp_is_latest; [by rewrite Ea|done|]. intros b2. cbn [app]. unfold set_ue. wp_step.
  eapply HQ; [|done|done]. apply (stepped_released x h r e1); try done; cbn [last_slot_tx last_slot_ack]; [rewrite Et; by destruct b1|rewrite Ea; by destruct b2].
Qed.

Lemma in_bucket_eq (r r' : repo) : harq_timeout_wheel r' = harq_timeout_wheel r -> buckets_nodup r -> (forall i y, in_bucket r' i y <-> in_bucket r i y) /\ buckets_nodup r' /\ zlen (harq_timeout_wheel r') = zlen (harq_timeout_wheel r).
Proof. intros E Hb. unfold in_bucket, buckets_nodup. by rewrite E. Qed.

Lemma bucket_range s : (bucket s < Z.to_nat n)%nat.
Proof. unfold bucket. pose proof (Z.mod_pos_bound (count_val s) n Hn). apply Z2Nat.inj_lt; lia. Qed.

Lemma stepped_moved x h h' r r' : placed r -> harq_at r x = Some h -> status h <> empty -> status h' <> empty -> harq_ok x h' ->
  (forall y, harq_at r' y = if decide (y = x) then Some h' else harq_at r y) -> (forall u, free_ids r' u = free_ids r u) -> last_ok r' -> framed r r' ->
  harq_timeout_wheel r' = harq_timeout_wheel (with_bucket (bucket (slot_timeout h')) (cons x) (unlinked x h r)) ->
  NoDup (harq_pending_retx_list r') -> (forall y, y ∈ harq_pending_retx_list r' <-> (y ∈ harq_pending_retx_list r /\ y <> x) \/ (y = x /\ status h' = pending_retx)) -> stepped x h' r r'.
Proof.
  intros P Hx Hs Hs' Hok Hat Hfr Hl Hframe Hw Hpn Hp. destruct (placed_unlinked x h r P Hx Hs) as (Hin & Hnd & Hlen).
  destruct (in_bucket_eq _ _ Hw) as (Hin' & Hnd' & Hlen'). { apply nodup_add; [exact Hnd|]. rewrite Hin. tauto. }
  split; [|done|done]. apply (placed_change r _ x h h' P Hx Hok Hat).
  - intros u. rewrite Hfr. apply (pl_free_nodup _ P).
  - intros u i. rewrite Hfr. split; [|intros [[H _]|[_ H]]; [done|congruence]]. intros Hi. left. split; [done|]. intros <-. apply (pl_free _ P) in Hi as (k & Hk & Hke). congruence.
  - exact Hl.
  - by rewrite Hlen', wheel_with_bucket.
  - exact Hnd'.
  - intros i y. rewrite Hin', in_bucket_add, Hin by (unfold zlen in Hlen; pose proof (bucket_range (slot_timeout h')); lia). naive_solver.
  - exact Hpn.
  - exact Hp.
Qed.

Lemma stepped_kept x f h r : placed r -> harq_at r x = Some h -> harq_ok x (f h) -> status (f h) = status h -> slot_timeout (f h) = slot_timeout h -> stepped x (f h) r (with_harq x f r).
Proof.
  intros P Hx Hok Es Et. assert (forall y, harq_at (with_harq x f r) y = if decide (y = x) then Some (f h) else harq_at r y) as Hat.
  { intros y. rewrite at_with_harq. destruct (decide (y = x)) as [->|]; [by rewrite Hx|done]. }
  split; [|split; try done; unfold with_harq, with_entity; cbn; by rewrite length_alter|done]. apply (placed_change r _ x h (f h) P Hx Hok Hat).
  - intros u. rewrite free_with_harq. apply (pl_free_nodup _ P).
  - intros u i. rewrite free_with_harq, Es. destruct (decide ((u, i) = x)) as [<-|]; [|naive_solver]. rewrite (pl_free _ P). naive_solver.
  - apply last_with_harq, (pl_last _ P).
  - apply (pl_wheel _ P).
  - apply (pl_bucket_nodup _ P).
  - intros i y. change (in_bucket (with_harq x f r) i y) with (in_bucket r i y). rewrite Es, Et. destruct (decide (y = x)) as [->|]; [|naive_solver]. rewrite (pl_bucket _ P). naive_solver.
  - apply (pl_pending_nodup _ P).
  - intros y. cbn. rewrite Es. destruct (decide (y = x)) as [->|]; [|naive_solver]. rewrite (pl_pending _ P). naive_solver.
Qed.

Lemma stepped_trans x h1 h2 r r1 r2 : stepped x h1 r r1 -> stepped x h2 r1 r2 -> stepped x h2 r r2.
Proof.
  intros [_ F1 A1] [P2 F2 A2]. split; [done|by etrans|]. intros y. rewrite A2, A1. by destruct (decide (y = x)).
Qed.

Lemma st_this x h r r' : stepped x h r r' -> harq_at r' x = Some h.
Proof. intros [_ _ A]. by rewrite A, decide_True. Qed.

Lemma wp_kept x f h r (Q : unit -> repo -> list harq_event -> Prop) : placed r -> harq_at r x = Some h -> harq_ok x (f h) -> status (f h) = status h -> slot_timeout (f h) = slot_timeout h ->
  (forall r', stepped x (f h) r r' -> Q tt r' []) -> wp (update_harq x f) Q r.
Proof. intros P Hx Hok Es Et HQ. apply (wp_update_harq x f r h); [done|]. by apply HQ, stepped_kept. Qed.

Lemma wp_set_timeout x s h r (Q : unit -> repo -> list harq_event -> Prop) : zlen (harq_timeout_wheel r) = n -> harq_at r x = Some h -> Q tt (with_bucket (bucket s) (cons x) (with_harq x (set_slot_timeout s) r)) [] -> wp (set_timeout x s) Q r.
Proof. intros Hw Hx HQ. unfold set_timeout. wp_step. apply (wp_update_harq x _ r h); [done|]. cbn [app]. by apply wp_wheel_push. Qed.

Lemma framed_with_harq x f r : framed r (with_harq x f r).
Proof. split; try done. unfold with_harq, with_entity. cbn. by rewrite length_alter. Qed.

Lemma wp_set_pending_retx x h r (Q : unit -> repo -> list harq_event -> Prop) : placed r -> harq_at r x = Some h -> status h = waiting_ack -> nof_retxs h < max_nof_harq_retxs h ->
  (forall r', stepped x (set_status pending_retx (set_slot_timeout (slot_add (last_sl_ind r) (harq_retx_timeout r)) h)) r r' -> harq_pending_retx_list r' = harq_pending_retx_list r ++ [x] -> Q tt r' []) -> wp (set_pending_retx x) Q r.
Proof.
  intros P Hx Hs Hlt HQ. assert (status h <> empty) as Hne by congruence. assert (x ∉ harq_pending_retx_list r) as Hnp. { rewrite (pl_pending _ P). intros (k & Hk & Hkp). congruence. }
  destruct (placed_unlinked x h r P Hx Hne) as (_ & _ & Hlen). unfold set_pending_retx. wp_step. apply (wp_get_harq x h); [done|]. cbn [app]. rewrite bool_decide_eq_false_2 by congruence.
  wp_step. apply wp_wheel_pop; [apply (pl_wheel _ P)|by apply (pl_only r x h _ P Hx Hne)|]. cbn [app]. do 3 wp_step. apply (wp_set_timeout x _ h); [by rewrite wheel_with_bucket; apply (pl_wheel _ P)|done|]. cbn [app].
  unfold pending_push_back. do 2 wp_step. set (s := slot_add _ _). change (slot_add (last_sl_ind r) (harq_retx_timeout r)) with s in HQ. set (r1 := set_pending_list _ _).
  assert (forall y, harq_at r1 y = if decide (y = x) then set_slot_timeout s <$> harq_at r y else harq_at r y) as Hat. { intros y. exact (at_with_harq x (set_slot_timeout s) r y). }
  apply (wp_update_harq x _ _ (set_slot_timeout s h)); [by rewrite Hat, decide_True, Hx|]. cbn [app]. apply HQ; [|done].
  apply (stepped_moved x h _ r _ P Hx Hne); try done.
  - destruct (pl_ok _ P _ _ Hx) as [H1 H2 H3 H4 H5]. split; cbn; auto.
  - intros y. rewrite at_with_harq, Hat. destruct (decide (y = x)) as [->|]; [by rewrite Hx|done].
  - intros u. rewrite free_with_harq. exact (free_with_harq x (set_slot_timeout s) r u).
  - apply last_with_harq. exact (last_with_harq x (set_slot_timeout s) r (pl_last _ P)).
  - etrans; [|apply framed_with_harq]. destruct (framed_with_harq x (set_slot_timeout s) r). by split.
  - cbn. apply NoDup_app. split; [apply (pl_pending_nodup _ P)|]. split; [|apply NoDup_singleton]. by intros y Hy ->%list_elem_of_singleton.
  - intros y. cbn. rewrite elem_of_app, list_elem_of_singleton. destruct (decide (y = x)) as [->|]; naive_solver.
Qed.

(** Only the last slots of the UEs differ. *)
Record relast (r r' : repo) : Prop := {
  rl_at : forall y, harq_at r' y = harq_at r y;
  rl_free : forall u, free_ids r' u = free_ids r u;
  rl_last : last_ok r';
  rl_wheel : harq_timeout_wheel r' = harq_timeout_wheel r;
  rl_pending : harq_pending_retx_list r' = harq_pending_retx_list r;
  rl_framed : framed r r'
}.

Lemma wp_update_last_slots u e sl_tx sl_ack r (Q : unit -> repo -> list harq_event -> Prop) : ues r !! u = Some e -> last_ok r -> numerology_val sl_tx = mu -> numerology_val sl_ack = mu ->
  (forall r', relast r r' -> Q tt r' []) -> wp (update_last_slots u sl_tx sl_ack) Q r.
Proof.
  intros He Hl Ht Ha HQ. destruct (Hl _ _ He) as [Hlt Hla]. unfold update_last_slots, set_ue. wp_step. apply (wp_get_ue _ e); [done|]. cbn [app].
  wp_step. apply wp_latest; [done..|]. intros s1 Hs1. cbn [app]. wp_step. apply wp_latest; [done..|]. intros s2 Hs2. cbn [app]. wp_step. apply HQ. split; try done.
  - intros y. by apply (at_put _ e).
  - intros v. change (free_ids (put_ue u (mk_ue (harqs e) (free_harq_ids e) s1 s2) r) v = free_ids r v). rewrite (free_put _ e) by done. destruct (decide (v = u)) as [->|]; [|done]. unfold free_ids. by rewrite He.
  - by apply last_put.
  - split; try done. unfold put_ue. cbn. by rewrite length_insert.
Qed.

Definition retransmitted (sl_tx sl_ack sl_to : slot_point) (h : process) : process :=
  set_slot_timeout sl_to (set_slot_timeout slot_default (set_tx sl_tx sl_ack (ndi h) (u32 (nof_retxs h + 1)) (max_nof_harq_retxs h) (retxs_cancelled h) h)).

Lemma wp_handle_new_retx x h sl_tx sl_ack r (Q : bool -> repo -> list harq_event -> Prop) : placed r -> harq_at r x = Some h -> status h = pending_retx -> numerology_val sl_tx = mu -> numerology_val sl_ack = mu ->
  (forall r', stepped x (retransmitted sl_tx sl_ack (slot_add sl_ack (max_ack_wait_in_slots r)) h) r r' -> Q true r' []) -> wp (handle_new_retx x sl_tx sl_ack) Q r.
Proof.
  intros P Hx Hs Ht Ha HQ. assert (status h <> empty) as Hne by congruence. destruct (pl_ok _ P _ _ Hx) as [H1 H2 H3 H4 H5]. specialize (H4 Hne). specialize (H5 Hs).
  unfold handle_new_retx. wp_step. apply (wp_get_harq x h); [done|]. cbn [app]. rewrite bool_decide_eq_true_2 by done. cbn [negb]. wp_step.
  apply wp_pending_pop; [apply (pl_pending _ P); eauto|]. cbn [app]. wp_step. apply wp_wheel_pop; [apply (pl_wheel _ P)|by apply (pl_only r x h _ P Hx Hne)|]. cbn [app].
  fold (unlinked x h r). destruct (placed_unlinked x h r P Hx Hne) as (_ & _ & Hlen). wp_step. set (g := fun k : process => set_slot_timeout slot_default _). apply (wp_update_harq x g _ h); [done|]. cbn [app].
  destruct (at_ue _ _ _ Hx) as (e & He & _). destruct (ue_with_harq x g (unlinked x h r) (fst x) e He) as (e1 & He1 & _). wp_step. rewrite H1.
  apply (wp_update_last_slots _ e1); [done|apply last_with_harq; exact (pl_last _ P)|done..|]. intros r1 R1. cbn [app]. do 3 wp_step. rewrite (fr_wait _ _ (rl_framed _ _ R1)).
  assert (forall y, harq_at r1 y = if decide (y = x) then g <$> harq_at r y else harq_at r y) as Hat. { intros y. rewrite (rl_at _ _ R1). exact (at_with_harq x g (unlinked x h r) y). }
  apply (wp_set_timeout x _ (g h)); [by rewrite (rl_wheel _ _ R1)|by rewrite Hat, decide_True, Hx|]. cbn [app]. wp_step. set (s := slot_add _ _). apply HQ.
  apply (stepped_moved x h _ r _ P Hx Hne); try done.
  - split; [done|done|done|intros _|by intros [=]]. cbn [nof_retxs max_nof_harq_retxs retransmitted set_slot_timeout set_tx]. rewrite u32_small by lia. lia.
  - intros y. change (harq_at (with_harq x (set_slot_timeout s) r1) y = if decide (y = x) then Some (set_slot_timeout s (g h)) else harq_at r y). rewrite at_with_harq, Hat. destruct (decide (y = x)) as [->|]; [by rewrite Hx|done].
  - intros u. change (free_ids (with_harq x (set_slot_timeout s) r1) u = free_ids r u). rewrite free_with_harq, (rl_free _ _ R1), free_with_harq. done.
  - apply (last_with_harq x (set_slot_timeout s) r1), (rl_last _ _ R1).
  - trans r1; [trans (with_harq x g (unlinked x h r)); [|apply (rl_framed _ _ R1)]|destruct (framed_with_harq x (set_slot_timeout s) r1); by split]. destruct (framed_with_harq x g (unlinked x h r)). by split.
  - change (alter (cons x) (bucket s) (harq_timeout_wheel r1) = alter (cons x) (bucket s) (harq_timeout_wheel (unlinked x h r))). by rewrite (rl_wheel _ _ R1).
  - cbn. rewrite (rl_pending _ _ R1). apply without_nodup, (pl_pending_nodup _ P).
  - intros y. cbn. rewrite (rl_pending _ _ R1). cbn. rewrite elem_without. naive_solver.
Qed.

Definition allocated (sl_tx sl_ack sl_to : slot_point) (max_retxs : Z) (h : process) : process := set_slot_timeout sl_to (set_tx sl_tx sl_ack (negb (ndi h)) 0 max_retxs false h).

Lemma stepped_alloc x h h' l r r' : placed r -> harq_at r x = Some h -> status h = empty -> free_ids r (fst x) = l ++ [snd x] -> status h' = waiting_ack -> harq_ok x h' ->
  (forall y, harq_at r' y = if decide (y = x) then Some h' else harq_at r y) -> (forall u, free_ids r' u = if decide (u = fst x) then l else free_ids r u) -> last_ok r' -> framed r r' ->
  harq_timeout_wheel r' = harq_timeout_wheel (with_bucket (bucket (slot_timeout h')) (cons x) r) -> harq_pending_retx_list r' = harq_pending_retx_list r -> stepped x h' r r'.
Proof.
  intros P Hx Hs Hf Hs' Hok Hat Hfr Hl Hframe Hw Hp. assert (forall i, ~ in_bucket r i x) as Hnb. { intros i (k & Hk & Hne & _)%(pl_bucket _ P). congruence. }
  destruct (in_bucket_eq _ _ Hw) as (Hin' & Hnd' & Hlen'). { apply nodup_add; [apply (pl_bucket_nodup _ P)|apply Hnb]. }
  pose proof (pl_free_nodup _ P (fst x)) as Hnl. rewrite Hf in Hnl. apply NoDup_app in Hnl as (Hnl & Hdis & _).
  split; [|done|done]. apply (placed_change r _ x h h' P Hx Hok Hat).
  - intros u. rewrite Hfr. destruct (decide (u = fst x)); [done|apply (pl_free_nodup _ P)].
  - intros u i. rewrite Hfr, Hs'. destruct x as [v j]. cbn [fst snd] in *. destruct (decide (u = v)) as [->|]; [rewrite Hf, elem_of_app, list_elem_of_singleton|naive_solver].
    split; [|intros [[[Hi|Hj] Hne]|[_ Hd]]; [done|congruence|done]]. intros Hi. left. split; [by left|]. intros [= ->]. by apply (Hdis j Hi), list_elem_of_singleton.
  - exact Hl.
  - rewrite Hlen', wheel_with_bucket. apply (pl_wheel _ P).
  - exact Hnd'.
  - intros i y. rewrite Hin', in_bucket_add, Hs' by (pose proof (pl_wheel _ P) as Hlen; unfold zlen in Hlen; pose proof (bucket_range (slot_timeout h')); lia). split; [|naive_solver].
    intros [Hi|[-> ->]]; [left|by right]. split; [done|]. intros ->. by apply (Hnb i).
  - rewrite Hp. apply (pl_pending_nodup _ P).
  - intros y. rewrite Hp, Hs'. split; [|naive_solver]. intros Hy. left. split; [done|]. intros ->. apply (pl_pending _ P) in Hy as (k & Hk & Hkp). congruence.
Qed.

Lemma wp_alloc_harq u e sl_tx sl_ack max r (Q : option href -> repo -> list harq_event -> Prop) : placed r -> ues r !! u = Some e -> numerology_val sl_tx = mu -> numerology_val sl_ack = mu -> 0 <= max < 2 ^ 32 ->
  (free_harq_ids e = [] -> Q None r []) ->
  (forall l i h r', free_harq_ids e = l ++ [i] -> harq_at r (u, i) = Some h -> status h = empty ->
    stepped (u, i) (allocated sl_tx sl_ack (slot_sub (slot_add sl_ack (max_ack_wait_in_slots r)) (ntn_cs_koffset r)) max h) r r' -> Q (Some (u, i)) r' []) -> wp (alloc_harq u sl_tx sl_ack max) Q r.
Proof.
  intros P He Ht Ha Hm HQ0 HQ. unfold alloc_harq. wp_step. apply (wp_get_ue _ e); [done|]. cbn [app]. assert (free_ids r u = free_harq_ids e) as Hf by (unfold free_ids; by rewrite He).
  destruct (free_harq_ids e) as [|i l _] eqn:El using rev_ind; [apply wp_ret; by apply HQ0|]. rewrite last_snoc, removelast_last. unfold set_ue. do 2 wp_step.
  set (e1 := mk_ue _ l _ _). change (set_ues _ r) with (put_ue u e1 r).
  assert (exists h, harq_at r (u, i) = Some h /\ status h = empty) as (h & Hx & Hs). { apply (pl_free _ P). rewrite Hf. apply elem_of_app. right. by apply list_elem_of_singleton. }
  assert (forall y, harq_at (put_ue u e1 r) y = harq_at r y) as Hat1 by (intros y; by apply (at_put _ e)). set (g := fun k : process => set_tx _ _ _ 0 _ _ k).
  wp_step. apply (wp_update_harq (u, i) g _ h); [by rewrite Hat1|]. cbn [app].
  destruct (ue_with_harq (u, i) g (put_ue u e1 r) u e1) as (e2 & He2 & _). { unfold put_ue. cbn. apply list_lookup_insert_eq. by eapply lookup_lt_Some. }
  destruct (pl_last _ P _ _ He) as [Hlt Hla]. wp_step. apply (wp_update_last_slots _ e2); [done|apply last_with_harq, last_put; [apply (pl_last _ P)|done..]|done..|]. intros r2 R2. cbn [app].
  do 3 wp_step. pose proof (rl_framed _ _ R2) as F2. rewrite (fr_wait _ _ F2), (fr_koffset _ _ F2). cbn [max_ack_wait_in_slots ntn_cs_koffset with_harq with_entity set_ues put_ue].
  assert (forall y, harq_at r2 y = if decide (y = (u, i)) then g <$> harq_at r y else harq_at r y) as Hat. { intros y. rewrite (rl_at _ _ R2), at_with_harq, !Hat1. done. }
  apply (wp_set_timeout (u, i) _ (g h)); [rewrite (rl_wheel _ _ R2); apply (pl_wheel _ P)|by rewrite Hat, decide_True, Hx|]. cbn [app]. wp_step. set (s := slot_sub _ _). apply (HQ l i h); [done..|].
  apply (stepped_alloc (u, i) h _ l r); try done.
  - destruct (pl_ok _ P _ _ Hx) as [H1 H2 H3 H4 H5]. split; [done|done|done|intros _; cbn; lia|by intros [=]].
  - intros y. change (harq_at (with_harq (u, i) (set_slot_timeout s) r2) y = if decide (y = (u, i)) then Some (set_slot_timeout s (g h)) else harq_at r y). rewrite at_with_harq, Hat. destruct (decide (y = (u, i))) as [->|]; [by rewrite Hx|done].
  - intros v. change (free_ids (with_harq (u, i) (set_slot_timeout s) r2) v = if decide (v = u) then l else free_ids r v). rewrite free_with_harq, (rl_free _ _ R2), free_with_harq. by apply (free_put _ e).
  - apply (last_with_harq (u, i) (set_slot_timeout s) r2), (rl_last _ _ R2).
  - trans (put_ue u e1 r); [split; try done; unfold put_ue; cbn; by rewrite length_insert|]. trans (with_harq (u, i) g (put_ue u e1 r)); [apply framed_with_harq|]. trans r2; [done|]. destruct (framed_with_harq (u, i) (set_slot_timeout s) r2). by split.
  - change (alter (cons (u, i)) (bucket s) (harq_timeout_wheel r2) = alter (cons (u, i)) (bucket s) (harq_timeout_wheel r)). by rewrite (rl_wheel _ _ R2).
  - exact (rl_pending _ _ R2).
Qed.

(** ** What an ACK leaves *)

Definition after_ack (r : repo) (is_ack : bool) (h : process) : process :=
  if is_ack || (max_nof_harq_retxs h <=? nof_retxs h) then released h else set_status pending_retx (set_slot_timeout (slot_add (last_sl_ind r) (harq_retx_timeout r)) h).

Lemma wp_handle_ack x h is_ack r (Q : unit -> repo -> list harq_event -> Prop) : placed r -> harq_at r x = Some h -> status h = waiting_ack -> (forall r', stepped x (after_ack r is_ack h) r r' -> Q tt r' []) -> wp (handle_ack x is_ack) Q r.
Proof.
  intros P Hx Hs HQ. unfold handle_ack. wp_step. apply (wp_get_harq x h); [done|]. cbn [app]. unfold after_ack in HQ. destruct (is_ack || _) eqn:E.
  - apply (wp_dealloc x h); [done|done|congruence|]. intros r' S _ _. by apply HQ.
  - apply orb_false_iff in E as [_ E%Z.leb_gt]. apply (wp_set_pending_retx x h); [done..|]. intros r' S _. by apply HQ.
Qed.

Definition after_cancel (h : process) : process := match status h with empty => h | pending_retx => released h | waiting_ack => set_max_nof_harq_retxs (nof_retxs h) true h end.

Lemma stepped_refl x h r : placed r -> harq_at r x = Some h -> stepped x h r r.
Proof. intros P Hx. split; [done|done|]. intros y. by destruct (decide (y = x)) as [->|]. Qed.

Lemma wp_reset x h r (Q : unit -> repo -> list harq_event -> Prop) : placed r -> harq_at r x = Some h -> (forall r', stepped x (if decide (status h = empty) then h else released h) r r' -> Q tt r' []) -> wp (dealloc_harq x) Q r.
Proof.
  intros P Hx HQ. destruct (decide (status h = empty)) as [E|E].
  - unfold dealloc_harq. wp_step. apply (wp_get_harq x h); [done|]. cbn [app]. rewrite bool_decide_eq_true_2 by done. wp_step. by apply HQ, stepped_refl.
  - apply (wp_dealloc x h); [done..|]. intros r' S _ _. by apply HQ.
Qed.

Lemma wp_cancel_retxs x h r (Q : unit -> repo -> list harq_event -> Prop) : placed r -> harq_at r x = Some h -> (forall r', stepped x (after_cancel h) r r' -> Q tt r' []) -> wp (cancel_retxs x) Q r.
Proof.
  intros P Hx HQ. unfold cancel_retxs. wp_step. apply (wp_get_harq x h); [done|]. cbn [app]. unfold after_cancel in HQ. destruct (status h) eqn:E.
  - rewrite bool_decide_eq_true_2 by done. wp_step. by apply HQ, stepped_refl.
  - rewrite bool_decide_eq_false_2, bool_decide_eq_true_2 by done. apply (wp_dealloc x h); [done|done|congruence|]. intros r' S _ _. by apply HQ.
  - rewrite !bool_decide_eq_false_2 by done. apply (wp_kept x _ h); [done|done| |by cbn; rewrite E|done|done]. destruct (pl_ok _ P _ _ Hx) as [H1 H2 H3 H4 H5]. split; [done|done|done| |]; cbn.
    + intros Hn0. specialize (H4 Hn0). lia.
    + congruence.
Qed.

Definition heard (a : ack_status) (pucch_snr : option Snr) (h : process) : process :=
  let '(chosen, snr) := choose_ack snr_lt a pucch_snr h in set_dl (ack_on_timeout h) (harq_bit_idx h) (pucch_ack_to_receive h) chosen snr h.

Definition after_dl_ack (r : repo) (a : ack_status) (pucch_snr : option Snr) (h : process) : status_update * process :=
  let k := heard a pucch_snr h in
  let final := bool_decide (chosen_ack k = ack) in
  if pucch_ack_to_receive h <=? 1 then (if final then acked else nacked, after_ack r final k)
  else (no_update, set_slot_timeout (slot_add (last_sl_ind r) SHORT_ACK_TIMEOUT_DTX) (set_dl final (harq_bit_idx h) (u32 (pucch_ack_to_receive h - 1)) (chosen_ack k) (last_pucch_snr k) k)).

Lemma heard_eq a snr h : heard a snr h = set_dl (ack_on_timeout h) (harq_bit_idx h) (pucch_ack_to_receive h) (fst (choose_ack snr_lt a snr h)) (snd (choose_ack snr_lt a snr h)) h.
Proof. unfold heard. by destruct (choose_ack snr_lt a snr h). Qed.

Lemma harq_ok_dl x h b i k c s : harq_ok x h -> harq_ok x (set_dl b i k c s h).
Proof. intros []. by split. Qed.

Lemma stepped_rearmed x h s r : placed r -> harq_at r x = Some h -> status h = waiting_ack -> stepped x (set_slot_timeout s h) r (with_bucket (bucket s) (cons x) (with_harq x (set_slot_timeout s) (with_bucket (bucket (slot_timeout h)) (without x) r))).
Proof.
  intros P Hx Hs. assert (status h <> empty) as Hne by congruence. assert (forall y, y ∈ harq_pending_retx_list r -> y <> x) as Hnp by (intros y (k & Hk & Hkp)%(pl_pending _ P) ->; congruence).
  apply (stepped_moved x h _ r _ P Hx Hne); try done.
  - destruct (pl_ok _ P _ _ Hx) as [H1 H2 H3 H4 H5]. split; cbn; auto.
  - intros y. etrans; [exact (at_with_harq x (set_slot_timeout s) r y)|]. destruct (decide (y = x)) as [->|]; [by rewrite Hx|done].
  - intros u. exact (free_with_harq x (set_slot_timeout s) r u).
  - exact (last_with_harq x (set_slot_timeout s) r (pl_last _ P)).
  - destruct (framed_with_harq x (set_slot_timeout s) r). by split.
  - apply (pl_pending_nodup _ P).
  - intros y. cbn. rewrite Hs. split; [|naive_solver]. intros Hy. left. split; [done|by apply Hnp].
Qed.

Lemma wp_dl_ack_info x h a snr r (Q : status_update -> repo -> list harq_event -> Prop) : placed r -> harq_at r x = Some h -> status h = waiting_ack ->
  (forall r', stepped x (snd (after_dl_ack r a snr h)) r r' -> Q (fst (after_dl_ack r a snr h)) r' []) -> wp (dl_ack_info snr_lt x a snr) Q r.
Proof.
  intros P Hx Hs HQ. pose proof (pl_ok _ P _ _ Hx) as Hok. unfold dl_ack_info. wp_step. apply (wp_get_harq x h); [done|]. cbn [app]. rewrite bool_decide_eq_true_2 by done. cbn [negb]. unfold after_dl_ack in HQ. rewrite heard_eq in HQ. destruct (choose_ack snr_lt a snr h) as [chosen s'].
  cbn [fst snd] in HQ. cbn [chosen_ack last_pucch_snr set_dl] in HQ. set (f1 := fun k : process => set_dl (ack_on_timeout k) (harq_bit_idx k) (pucch_ack_to_receive k) chosen s' k).
  wp_step. apply (wp_kept x f1 h); [done|done|by apply harq_ok_dl|done|done|]. intros r1 S1. cbn [app]. pose proof (st_this _ _ _ _ S1) as Hx1. pose proof (st_framed _ _ _ _ S1) as F1. pose proof (st_placed _ _ _ _ S1) as P1.
  wp_step; [|apply Z.leb_gt in H]; bool_prop.
  - wp_step. apply (wp_handle_ack x (f1 h)); [done..|]. intros r2 S2. cbn [app]. wp_step. rewrite (proj2 (Z.leb_le _ _) H) in HQ. apply HQ.
    apply (stepped_trans _ _ _ _ _ _ S1). cbn [snd]. change (set_dl (ack_on_timeout h) (harq_bit_idx h) (pucch_ack_to_receive h) chosen s' h) with (f1 h). unfold after_ack in *. by rewrite <- (fr_last _ _ F1), <- (fr_retx _ _ F1).
  - rewrite (proj2 (Z.leb_gt _ _) H) in HQ. cbn [fst snd] in HQ. wp_step. set (f2 := fun k : process => set_dl (bool_decide _) _ (u32 _) chosen s' k).
    apply (wp_kept x f2 (f1 h)); [done|done|by apply harq_ok_dl, harq_ok_dl|done|done|]. intros r2 S2. cbn [app]. pose proof (st_framed _ _ _ _ S2) as F2.
    wp_step. change (slot_timeout h) with (slot_timeout (f2 (f1 h))). assert (status (f2 (f1 h)) <> empty) as Hne by (cbn; congruence).
    pose proof (st_placed _ _ _ _ S2) as P2. pose proof (st_this _ _ _ _ S2) as Hx2. apply wp_wheel_pop; [apply (pl_wheel _ P2)|by apply (pl_only r2 x _ _ P2 Hx2 Hne)|]. cbn [app]. do 3 wp_step.
    apply (wp_set_timeout x _ (f2 (f1 h))); [rewrite wheel_with_bucket; apply (pl_wheel _ P2)|exact Hx2|]. cbn [app]. wp_step. apply HQ. apply (stepped_trans _ _ _ _ _ _ S1). apply (stepped_trans _ _ _ _ _ _ S2).
    change (last_sl_ind (with_bucket _ _ r2)) with (last_sl_ind r2). rewrite (fr_last _ _ F2), (fr_last _ _ F1). set (s := slot_add _ _). by apply (stepped_rearmed x (f2 (f1 h)) s).
Qed.

(** ** Releasing processes *)

Record releases (l : list href) (r0 r : repo) : Prop := {
  rs_placed : placed r;
  rs_framed : framed r0 r;
  rs_at : forall y, harq_at r y = if decide (y ∈ l) then released <$> harq_at r0 y else harq_at r0 y;
  rs_busy : forall y, y ∈ l -> exists h, harq_at r0 y = Some h /\ status h <> empty;
  rs_nodup : NoDup l
}.

Lemma releases_nil r : placed r -> releases [] r r.
Proof. intros P. split; [done|done|done|by intros y Hy%elem_of_nil|constructor]. Qed.

Lemma releases_snoc l r0 r r' x h : releases l r0 r -> harq_at r x = Some h -> status h <> empty -> stepped x (released h) r r' -> x ∉ l /\ harq_at r0 x = Some h /\ releases (l ++ [x]) r0 r'.
Proof.
  intros [P F A B N] Hx Hs [P' F' A']. assert (x ∉ l) as Hnx. { intros Hin. rewrite A, decide_True in Hx by done. destruct (harq_at r0 x); [|done]. by injection Hx as <-. }
  assert (harq_at r0 x = Some h) as H0 by (by rewrite A, decide_False in Hx). split; [done|]. split; [done|]. split; [done|by etrans|..].
  - intros y. rewrite A'. destruct (decide (y = x)) as [->|Hne]; [rewrite decide_True, H0 by (apply elem_of_app; right; by apply list_elem_of_singleton); done|]. rewrite A.
    destruct (decide (y ∈ l)); [rewrite decide_True by (apply elem_of_app; by left); done|]. rewrite decide_False; [done|]. by intros [?|?%list_elem_of_singleton]%elem_of_app.
  - intros y [Hy| ->%list_elem_of_singleton]%elem_of_app; eauto.
  - apply NoDup_app. split; [done|]. split; [|apply NoDup_singleton]. by intros y Hy ->%list_elem_of_singleton.
Qed.

Lemma without_head x l : (length (without x (x :: l)) <= length l)%nat.
Proof. unfold without. cbn. rewrite bool_decide_eq_true_2 by done. cbn. apply List.filter_length_le. Qed.

Definition timeout_event (r : repo) (x : href) : harq_event := on_harq_timeout (fst x) (is_dl r) (default false (ack_on_timeout <$> harq_at r x)).
Definition trapped_event (r : repo) (x : href) : harq_event := on_harq_timeout (fst x) (is_dl r) false.

Lemma wp_handle_timeout x h r (Q : unit -> repo -> list harq_event -> Prop) : placed r -> harq_at r x = Some h -> status h <> empty ->
  (forall r', stepped x (released h) r r' -> harq_timeout_wheel r' = harq_timeout_wheel (unlinked x h r) -> Q tt r' [timeout_event r x]) -> wp (handle_harq_ack_timeout x) Q r.
Proof.
  intros P Hx Hs HQ. unfold handle_harq_ack_timeout. wp_step. apply (wp_get_harq x h); [done|]. cbn [app]. wp_step. apply (wp_dealloc x h); [done..|]. intros r' S Hw _. cbn [app]. do 3 wp_step.
  rewrite (fr_dl _ _ (st_framed _ _ _ _ S)), (ho_ue _ _ (pl_ok _ P _ _ Hx)). specialize (HQ r' S Hw). unfold timeout_event in HQ. by rewrite Hx in HQ.
Qed.

Lemma wp_timing_loop i r0 k (Q : unit -> repo -> list harq_event -> Prop) : placed r0 -> (exists b, harq_timeout_wheel r0 !! i = Some b /\ (length b < k)%nat) ->
  (forall l r, releases l r0 r -> (forall y, y ∈ l <-> in_bucket r0 i y) -> Q tt r (map (timeout_event r0) l)) -> wp (while_loop k (timing_out i) tt) Q r0.
Proof.
  intros P0 (b0 & Hb0 & Hk) HQ.
  apply (wp_while_loop (fun k _ r es => exists l b, releases l r0 r /\ harq_timeout_wheel r !! i = Some b /\ (length b < k)%nat /\ es = map (timeout_event r0) l /\ forall y, y ∈ l -> in_bucket r0 i y)).
  - exists [], b0. split; [by apply releases_nil|]. split; [done|]. split; [done|]. split; [done|]. by intros y Hy%elem_of_nil.
  - intros _ r es (l & b & _ & _ & Hc & _). lia.
  - intros m [] r es (l & b & Rl & Hb & Hlen & -> & Hl). pose proof (rs_placed _ _ _ Rl) as P. unfold timing_out. do 3 wp_step. apply wp_need with b; [done|]. cbn [app]. destruct b as [|x b].
    + wp_step. rewrite app_nil_r. apply HQ; [done|]. intros y. split; [apply Hl|]. intros Hy. apply (pl_bucket _ P0) in Hy as (h & Hy & Hs & Hbk). destruct (decide (y ∈ l)) as [|Hn0]; [done|].
      assert (in_bucket r i y) as (b & Hb' & Hin). { apply (pl_bucket _ P). exists h. rewrite (rs_at _ _ _ Rl), decide_False by done. done. } rewrite Hb in Hb'. injection Hb' as <-. by apply elem_of_nil in Hin.
    + assert (in_bucket r i x) as Hbx by (exists (x :: b); rewrite elem_of_cons; auto). pose proof Hbx as (h & Hx & Hs & Hbk)%(pl_bucket _ P). wp_step. apply (wp_handle_timeout x h); [done..|]. intros r' S Hw. wp_step.
      destruct (releases_snoc _ _ _ _ _ _ Rl Hx Hs S) as (Hnx & Hx0 & Rl'). exists (l ++ [x]), (without x (x :: b)). split; [done|]. split; [|split; [|split]].
      * rewrite Hw. unfold unlinked, with_bucket. cbn [harq_timeout_wheel set_wheel set_pending_list]. by rewrite Hbk, list_lookup_alter_eq, Hb.
      * pose proof (without_head x b). cbn in Hlen. lia.
      * rewrite map_app. f_equal. unfold timeout_event. cbn. by rewrite Hx, Hx0, (fr_dl _ _ (rs_framed _ _ _ Rl)).
      * intros y [Hy| ->%list_elem_of_singleton]%elem_of_app; [by apply Hl|]. apply (pl_bucket _ P0). eauto.
Qed.

(** A process that waits for its retransmission for a quarter of the hyperframe. *)
Definition starved (last : slot_point) (h : process) : Prop := status h = pending_retx /\ slot_lt last (slot_add (slot_ack h) (nof_slots_per_hyper_system_frame last / 4)) = false.

Lemma wp_trapped_loop r0 k (Q : unit -> repo -> list harq_event -> Prop) : placed r0 -> numerology_val (last_sl_ind r0) = mu -> (length (harq_pending_retx_list r0) < k)%nat ->
  (forall l r, releases l r0 r -> (forall y, y ∈ l -> exists h, harq_at r0 y = Some h /\ starved (last_sl_ind r0) h) -> Q tt r (map (trapped_event r0) l)) -> wp (while_loop k trapped tt) Q r0.
Proof.
  intros P0 Hl0 Hk HQ.
  apply (wp_while_loop (fun k _ r es => exists l, releases l r0 r /\ (length (harq_pending_retx_list r) < k)%nat /\ es = map (trapped_event r0) l /\ forall y, y ∈ l -> exists h, harq_at r0 y = Some h /\ starved (last_sl_ind r0) h)).
  - exists []. split; [by apply releases_nil|]. split; [done|]. split; [done|]. by intros y Hy%elem_of_nil.
  - intros _ r es (l & _ & Hc & _). lia.
  - intros m [] r es (l & Rl & Hlen & -> & Hl). pose proof (rs_placed _ _ _ Rl) as P. pose proof (rs_framed _ _ _ Rl) as F. unfold trapped. do 2 wp_step. destruct (harq_pending_retx_list r) as [|x b] eqn:Eb.
    + wp_step. rewrite app_nil_r. by apply HQ.
    + assert (exists h, harq_at r x = Some h /\ status h = pending_retx) as (h & Hx & Hs) by (apply (pl_pending _ P); rewrite Eb, elem_of_cons; auto). assert (status h <> empty) as Hne by congruence.
      destruct (ho_slots _ _ (pl_ok _ P _ _ Hx) Hne) as [_ Ha]. wp_step. apply (wp_get_harq x h); [done|]. unfold same_numerology. rewrite (fr_last _ _ F). cbn [app]. wp_step. apply wp_assert; [apply Z.eqb_eq; cbn; congruence|]. cbn [app]. wp_step.
      * wp_step. rewrite app_nil_r. by apply HQ.
      * wp_step. apply (wp_dealloc x h); [done..|]. intros r' S _ Hp. cbn [app]. do 3 wp_step. destruct (releases_snoc _ _ _ _ _ _ Rl Hx Hne S) as (Hnx & Hx0 & Rl'). exists (l ++ [x]). split; [done|]. split; [|split].
        -- rewrite Hp, Eb. pose proof (without_head x b). cbn in Hlen. lia.
        -- rewrite map_app, (ho_ue _ _ (pl_ok _ P _ _ Hx)), (fr_dl _ _ F). done.
        -- intros y [Hy| ->%list_elem_of_singleton]%elem_of_app; [by apply Hl|]. by exists h.
Qed.

Lemma placed_last s r : placed r -> placed (set_last_sl_ind s r).
Proof. intros []. by split. Qed.

Lemma wp_slot_indication sl r (Q : unit -> repo -> list harq_event -> Prop) : placed r -> numerology_val sl = mu ->
  (forall l1 l2 r1 r', releases l1 (set_last_sl_ind sl r) r1 -> (forall y, y ∈ l1 <-> in_bucket r (bucket sl) y) -> releases l2 r1 r' -> (forall y, y ∈ l2 -> exists h, harq_at r1 y = Some h /\ starved sl h) ->
    Q tt r' (map (timeout_event r) l1 ++ map (trapped_event r) l2)) -> wp (slot_indication sl) Q r.
Proof.
  intros P Hsl HQ. unfold slot_indication. pose proof (placed_last sl r P) as P0. do 4 wp_step. rewrite wheel_index_bucket by apply (pl_wheel _ P).
  assert (is_Some (harq_timeout_wheel r !! bucket sl)) as [b Hb]. { apply lookup_lt_is_Some. pose proof (pl_wheel _ P) as Hw. unfold zlen in Hw. pose proof (bucket_range sl). lia. }
  cbv zeta. wp_step. apply wp_need with b; [done|]. cbn [app]. wp_step. apply wp_timing_loop; [done|exists b; split; [done|lia]|]. intros l1 r1 R1 Hl1. do 3 wp_step.
  pose proof (fr_last _ _ (rs_framed _ _ _ R1)) as El. cbn in El. pose proof (fr_dl _ _ (rs_framed _ _ _ R1)) as Ed. cbn in Ed. apply wp_trapped_loop; [apply (rs_placed _ _ _ R1)|by rewrite El|lia|]. intros l2 r2 R2 Hl2. wp_step. rewrite app_nil_r. rewrite El in Hl2.
  specialize (HQ l1 l2 r1 r2 R1 Hl1 R2 Hl2). unfold trapped_event in *. by rewrite Ed.
Qed.

(** ** UEs *)

Lemma at_put_any u e' r y : (u < length (ues r))%nat -> harq_at (put_ue u e' r) y = if decide (fst y = u) then harqs e' !! snd y else harq_at r y.
Proof.
  intros Hu. unfold harq_at, put_ue. cbn [ues set_ues]. destruct (decide (fst y = u)) as [->|Hne]; [|by rewrite list_lookup_insert_ne]. by rewrite list_lookup_insert_eq.
Qed.

Definition all_empty (l : list process) : Prop := forall i h, l !! i = Some h -> status h = empty.

(** The processes of a UE come or go when none of them is busy. *)
Lemma placed_put_ue u e e' r : placed r -> ues r !! u = Some e -> all_empty (harqs e) -> all_empty (harqs e') -> (forall i h, harqs e' !! i = Some h -> harq_ok (u, i) h) ->
  NoDup (free_harq_ids e') -> (forall i, i ∈ free_harq_ids e' <-> (i < length (harqs e'))%nat) -> slot_ok (last_slot_tx e') -> slot_ok (last_slot_ack e') -> placed (put_ue u e' r).
Proof.
  intros P He Hem Hem' Hok Hnd Hfr Ht Ha. pose proof (lookup_lt_Some _ _ _ He) as Hu.
  assert (forall y, fst y = u -> harq_at r y = harqs e !! snd y) as Hold by (intros y <-; unfold harq_at; by rewrite He).
  assert (forall y (T : process -> Prop), (forall h, T h -> status h <> empty) -> (exists h, harq_at r y = Some h /\ T h) <-> (exists h, harq_at (put_ue u e' r) y = Some h /\ T h)) as Hbusy.
  { intros y T HT. rewrite at_put_any by done. destruct (decide (fst y = u)) as [Ey|]; [|done]. rewrite Hold by done. split; intros (h & Hh & Hth); destruct (HT h Hth). { apply (Hem _ _ Hh). } apply (Hem' _ _ Hh). }
  split; try (by destruct P).
  - intros [v i] h. rewrite at_put_any by done. cbn [fst snd]. destruct (decide (v = u)) as [->|]; [apply Hok|apply (pl_ok _ P)].
  - intros v. rewrite (free_put _ e) by done. destruct (decide (v = u)); [done|apply (pl_free_nodup _ P)].
  - intros v i. rewrite (free_put _ e) by done. rewrite at_put_any by done. cbn [fst snd]. destruct (decide (v = u)) as [->|]; [|apply (pl_free _ P)]. rewrite Hfr. split; [intros [h Hh]%lookup_lt_is_Some; eauto|intros (h & Hh & _); by eapply lookup_lt_Some].
  - apply last_put; [apply (pl_last _ P)|done|done].
  - intros i y. change (in_bucket (put_ue u e' r) i y) with (in_bucket r i y). rewrite (pl_bucket _ P). apply (Hbusy y (fun h => status h <> empty /\ bucket (slot_timeout h) = i)). tauto.
  - intros y. change (harq_pending_retx_list (put_ue u e' r)) with (harq_pending_retx_list r). rewrite (pl_pending _ P). apply (Hbusy y (fun h => status h = pending_retx)). congruence.
Qed.

Definition refs_of (u : nat) (e : entity) : list href := map (fun i => (u, i)) (seq 0 (length (harqs e))).

Lemma elem_refs u e r y : ues r !! u = Some e -> y ∈ refs_of u e <-> fst y = u /\ is_Some (harq_at r y).
Proof.
  intros He. unfold refs_of, harq_at. rewrite list_elem_of_In, in_map_iff. destruct y as [v i]. cbn [fst snd]. split.
  - intros (j & [= <- <-] & [_ Hj]%in_seq). split; [done|]. rewrite He. by apply lookup_lt_is_Some.
  - intros [-> Hi]. rewrite He in Hi. exists i. split; [done|]. apply in_seq. cbn in Hi. apply lookup_lt_is_Some in Hi. lia.
Qed.

(** Releasing every busy process of some handles. *)
Lemma wp_release_all (body : href -> R unit) refs r0 (Q : unit -> repo -> list harq_event -> Prop) : placed r0 -> (forall x, x ∈ refs -> is_Some (harq_at r0 x)) ->
  (forall x h r Q', placed r -> harq_at r x = Some h -> (forall r', stepped x (if decide (status h = empty) then h else released h) r r' -> Q' tt r' []) -> wp (body x) Q' r) ->
  (forall l r, releases l r0 r -> (forall x, x ∈ l -> x ∈ refs) -> (forall x, x ∈ refs -> forall h, harq_at r x = Some h -> status h = empty) -> Q tt r []) -> wp (for_each refs body) Q r0.
Proof.
  intros P0 Href Hbody HQ.
  apply (wp_for_each (fun rest r es => es = [] /\ exists l, releases l r0 r /\ (forall x, x ∈ l -> x ∈ refs) /\ (forall x, x ∈ rest -> x ∈ refs) /\ forall x, x ∈ refs -> x ∈ rest \/ forall h, harq_at r x = Some h -> status h = empty)).
  - split; [done|]. exists []. split; [by apply releases_nil|]. split; [by intros x Hx%elem_of_nil|]. split; [done|]. by left.
  - intros r es (-> & l & Rl & Hlr & _ & Hd). apply (HQ l); [done|done|]. intros x Hx. destruct (Hd x Hx) as [Hc%elem_of_nil|]; done.
  - intros x rest r es (-> & l & Rl & Hlr & Hsub & Hd). assert (is_Some (harq_at r x)) as [h Hx].
    { rewrite (rs_at _ _ _ Rl). destruct (Href x) as [h Hh]; [apply Hsub, elem_of_cons; auto|]. rewrite Hh. by destruct (decide (x ∈ l)). }
    apply (Hbody x h r _ (rs_placed _ _ _ Rl) Hx). intros r' S. split; [done|].
    assert (x ∈ refs) as Hxr by (apply Hsub, elem_of_cons; auto). assert (exists l', releases l' r0 r' /\ (forall y, y ∈ l' -> y ∈ refs) /\ status (if decide (status h = empty) then h else released h) = empty) as (l' & Rl' & Hlr' & Hemp).
    { destruct (decide (status h = empty)) as [E|E].
      2: { destruct (releases_snoc _ _ _ _ _ _ Rl Hx E S) as (_ & _ & Rl'). exists (l ++ [x]). split; [done|]. split; [|done]. intros y [Hy| ->%list_elem_of_singleton]%elem_of_app; auto. }
      exists l. split; [|done].
      destruct S as [P' F' A'], Rl as [P F A B N]. split; try done; [by etrans|]. intros y. rewrite A', A. destruct (decide (y = x)) as [->|]; [|done]. by rewrite <- A. }
    exists l'. split; [done|]. split; [done|]. split; [intros y Hy; apply Hsub, elem_of_cons; auto|]. intros y Hy. destruct (decide (y = x)) as [->|Hne].
    + right. intros k. rewrite (st_this _ _ _ _ S). by intros [= <-].
    + destruct (Hd y Hy) as [[->|Hr]%elem_of_cons|Hr]; [done|by left|right]. intros k. rewrite (st_at _ _ _ _ S), decide_False by done. apply Hr.
Qed.

Lemma elem_all_refs r x : x ∈ all_refs r <-> is_Some (harq_at r x).
Proof.
  unfold all_refs. rewrite list_elem_of_In, in_flat_map. split.
  - intros (u & _ & Hx). destruct (ues r !! u) as [e|] eqn:He; [|done]. apply list_elem_of_In, (elem_refs u e r x He) in Hx. apply Hx.
  - intros Hx. destruct Hx as [h Hx]. destruct (at_ue _ _ _ Hx) as (e & He & Hh). exists (fst x). split; [apply in_seq; pose proof (lookup_lt_Some _ _ _ He); lia|]. rewrite He. apply list_elem_of_In, (elem_refs (fst x) e r x He). eauto.
Qed.

Lemma wp_harq_stop r (Q : unit -> repo -> list harq_event -> Prop) : placed r ->
  (forall l r', releases l r r' -> (forall x h, harq_at r' x = Some h -> status h = empty) -> Q tt (set_last_sl_ind slot_default r') []) -> wp stop Q r.
Proof.
  intros P HQ. unfold stop. do 3 wp_step. apply (wp_release_all _ _ r); [done|by intros x Hx%elem_all_refs|..].
  - intros x h r1 Q' P1 Hx HQ'. wp_step. apply (wp_get_harq x h); [done|]. cbn [app]. wp_step.
    + apply negb_true_iff, bool_decide_eq_false in H. rewrite decide_False in HQ' by done. apply (wp_dealloc x h); [done..|]. intros r' S _ _. by apply HQ'.
    + apply negb_false_iff, bool_decide_eq_true in H. rewrite decide_True in HQ' by done. by apply HQ', stepped_refl.
  - intros l r' Rl _ Hd. cbn [app]. wp_step. apply (HQ l); [done|]. intros x h Hx. apply (Hd x); [|done]. apply elem_all_refs. rewrite (rs_at _ _ _ Rl) in Hx. destruct (harq_at r x); [done|]. by destruct (decide (x ∈ l)).
Qed.

Lemma wp_destroy_ue u e r (Q : unit -> repo -> list harq_event -> Prop) : placed r -> ues r !! u = Some e ->
  (forall l r1 r', releases l r r1 -> (forall x, x ∈ l -> fst x = u) -> placed r' -> framed r r' -> (forall y, harq_at r' y = if decide (fst y = u) then None else harq_at r1 y) -> Q tt r' []) -> wp (destroy_ue u) Q r.
Proof.
  intros P He HQ. unfold destroy_ue, set_ue. wp_step. apply (wp_get_ue _ e); [done|]. cbn [app]. wp_step. fold (refs_of u e).
  apply (wp_release_all (fun x => dealloc_harq x) _ r); [done|by intros x [_ Hx]%(elem_refs u e r x He)|by intros; eapply wp_reset|]. intros l r1 Rl Hlr Hd. cbn [app].
  pose proof (rs_placed _ _ _ Rl) as P1. pose proof (rs_framed _ _ _ Rl) as F1. assert (is_Some (ues r1 !! u)) as [e1 He1] by (apply lookup_lt_is_Some; rewrite (fr_ues _ _ F1); by eapply lookup_lt_Some).
  wp_step. apply (wp_get_ue _ e1); [done|]. cbn [app]. wp_step. pose proof (lookup_lt_Some _ _ _ He1) as Hu. destruct (pl_last _ P1 _ _ He1) as [Ht Ha].
  assert (forall x, is_Some (harq_at r1 x) <-> is_Some (harq_at r x)) as Hsame. { intros x. rewrite (rs_at _ _ _ Rl). destruct (decide (x ∈ l)); [by rewrite fmap_is_Some|done]. }
  assert (forall i h, harqs e1 !! i = Some h -> status h = empty) as Hem.
  { intros i h Hh. assert (harq_at r1 (u, i) = Some h) as Hx by (unfold harq_at; cbn; by rewrite He1). apply (Hd (u, i)); [|done]. apply (elem_refs u e r (u, i) He). split; [done|]. apply Hsame. eauto. }
  set (e' := mk_ue [] [] _ _). apply (HQ l r1 (put_ue u e' r1)); [done| |..].
  - intros x Hx. by apply (elem_refs u e r x He), Hlr.
  - apply (placed_put_ue u e1 e'); try done; [constructor|]. intros i. cbn. rewrite elem_of_nil. lia.
  - etrans; [exact F1|]. split; try done. unfold put_ue. cbn. by rewrite length_insert.
  - intros y. by rewrite at_put_any by done.
Qed.

Lemma wp_add_ue u rn k r (Q : unit -> repo -> list harq_event -> Prop) : placed r -> 0 < Z.of_nat k <= max_harqs_per_ue r -> (u < length (ues r))%nat -> contains u r = false ->
  (forall r', placed r' -> framed r r' -> (forall y, harq_at r' y = if decide (fst y = u /\ (snd y < k)%nat) then Some (new_harq u rn (snd y)) else harq_at r y) -> Q tt r' []) -> wp (add_ue u rn k) Q r.
Proof.
  intros P Hk Hu Hc HQ. assert (is_Some (ues r !! u)) as [e He] by by apply lookup_lt_is_Some. assert (harqs e = []) as Hnil. { unfold contains in Hc. rewrite He in Hc. by apply negb_false_iff, bool_decide_eq_true in Hc. }
  destruct (pl_last _ P _ _ He) as [Ht Ha]. unfold add_ue, reserve_ue_harqs, set_ue. do 3 wp_step. apply wp_assert; [apply andb_true_iff; split; lia|]. cbn [app]. wp_step. apply wp_assert; [unfold zlen; lia|]. cbn [app].
  wp_step. apply wp_assert; [by rewrite Hc|]. cbn [app]. wp_step. apply (wp_get_ue _ e); [done|]. cbn [app]. wp_step. set (e' := mk_ue _ _ _ _).
  assert (forall i, harqs e' !! i = if decide (i < k)%nat then Some (new_harq u rn i) else None) as Hat.
  { intros i. cbn. rewrite list_lookup_fmap. destruct (decide (i < k)%nat); [rewrite lookup_seq_lt by done; done|by rewrite lookup_seq_ge by lia]. }
  apply (HQ (put_ue u e' r)).
  - apply (placed_put_ue u e e'); [done|done|by rewrite Hnil|..|done|done].
    + intros i h. rewrite Hat. by destruct (decide _); [intros [= <-]|].
    + intros i h. rewrite Hat. destruct (decide _); [intros [= <-]|done]. by split.
    + cbn. rewrite <- (Permutation_rev (seq 0 k)). apply NoDup_ListNoDup, seq_NoDup.
    + intros i. cbn. rewrite <- (Permutation_rev (seq 0 k)), list_elem_of_In, in_seq, length_map, length_seq. lia.
  - split; try done. unfold put_ue. cbn. by rewrite length_insert.
  - intros y. rewrite at_put_any by done. destruct (decide (fst y = u)) as [Ey|]; [|by rewrite decide_False by tauto]. rewrite Hat. destruct (decide (snd y < k)%nat); [by rewrite decide_True|rewrite decide_False by tauto].
    unfold harq_at. rewrite Ey, He. cbn. by rewrite Hnil.
Qed.

(** ** The clock and the timeouts *)

(** [far]: no timeout is set farther ahead. *)
Context (W koff T far : Z) (HW : 1 <= W) (Hkoff : 0 <= koff < 2 ^ 16) (HT : 1 <= T <= far) (Hring : W + get_max_slot_ul_alloc_delay koff <= n) (Hfar : W + 32 + 2 * koff <= far < 2 ^ 30).

Definition started (r : repo) : Prop := on_grid mu (last_sl_ind r).
Definition due (r : repo) (h : process) : Prop := started r /\ exists d, 1 <= d <= far /\ slot_timeout h = slot_add (last_sl_ind r) d.
Definition configured (r : repo) : Prop := max_ack_wait_in_slots r = W + koff /\ ntn_cs_koffset r = koff /\ harq_retx_timeout r = T.

Record harq_inv (r : repo) : Prop := {
  hi_placed : placed r;
  hi_clock : last_sl_ind r = slot_default \/ started r;
  hi_due : forall x h, harq_at r x = Some h -> status h <> empty -> due r h;
  hi_cfg : configured r
}.

(** The processes are the same ones. *)
Definition evolves (r r' : repo) : Prop := harq_inv r' /\ framed r r' /\ forall y, is_Some (harq_at r' y) <-> is_Some (harq_at r y).

Lemma delay_of : get_max_slot_ul_alloc_delay koff = 32 + koff.
Proof. clear - Hkoff. unfold get_max_slot_ul_alloc_delay, SCHEDULER_MAX_K0, SCHEDULER_MAX_K1, SCHEDULER_MAX_K2, MAX_MSG3_DELTA. rewrite u32_small by lia. lia. Qed.

Lemma ring_in_hyper : 33 + koff <= n <= 163840 /\ n <= hyper mu.
Proof. pose proof (hyper_range mu Hmu) as [Hh _]. pose proof (Z.divide_pos_le n (hyper mu) ltac:(lia) Hdiv). rewrite delay_of in Hring. lia. Qed.

Lemma framed_cfg r r' : framed r r' -> (configured r' <-> configured r) /\ (started r' <-> started r) /\ forall h, due r' h <-> due r h.
Proof. intros [E1 E2 E3 E4 E5 E6 E7]. unfold configured, due, started. by rewrite E2, E3, E5, E6. Qed.

Lemma inv_at r r' : harq_inv r -> placed r' -> framed r r' -> (forall y h, harq_at r' y = Some h -> status h <> empty -> due r h \/ exists h0, harq_at r y = Some h0 /\ status h0 <> empty /\ slot_timeout h = slot_timeout h0) -> harq_inv r'.
Proof.
  intros [P C D G] P' F Hd. destruct (framed_cfg r r' F) as (Ec & Es & Ed). split; [done| | |by apply Ec].
  - rewrite (fr_last _ _ F). rewrite Es. done.
  - intros y h Hy Hs. apply Ed. destruct (Hd y h Hy Hs) as [|(h0 & H0 & Hs0 & Et)]; [done|]. destruct (D y h0 H0 Hs0) as [H1 H2]. split; [done|]. by rewrite Et.
Qed.

Lemma inv_stepped x h h' r r' : harq_inv r -> harq_at r x = Some h -> stepped x h' r r' -> (status h' <> empty -> due r h' \/ (status h <> empty /\ slot_timeout h' = slot_timeout h)) -> evolves r r'.
Proof.
  intros I Hx [P' F A] Hd. split; [|split; [done|]].
  - apply (inv_at r); [done..|]. intros y k. rewrite A. destruct (decide (y = x)) as [->|]; [intros [= <-] Hs; destruct (Hd Hs) as [|[H1 H2]]; [by left|right; eauto]|]. intros Hy Hs. left. by apply (hi_due _ I y).
  - intros y. rewrite A. destruct (decide (y = x)) as [->|]; [rewrite Hx; split; eauto|done].
Qed.

Lemma inv_releases l r r' : harq_inv r -> releases l r r' -> evolves r r'.
Proof.
  intros I [P' F A B N]. split; [|split; [done|]].
  - apply (inv_at r); [done..|]. intros y h. rewrite A. destruct (decide (y ∈ l)); [intros (k & _ & ->)%fmap_Some; done|]. intros Hy Hs. left. by apply (hi_due _ I y).
  - intros y. rewrite A. destruct (decide (y ∈ l)); [by rewrite fmap_is_Some|done].
Qed.

Lemma evolves_refl r : harq_inv r -> evolves r r.
Proof. by split. Qed.
Lemma evolves_trans r1 r2 r3 : evolves r1 r2 -> evolves r2 r3 -> evolves r1 r3.
Proof. intros (_ & F1 & A1) (I & F2 & A2). split; [done|]. split; [by etrans|]. intros y. by rewrite A2, A1. Qed.

Lemma due_in r h d : started r -> 1 <= d <= far -> slot_timeout h = slot_add (last_sl_ind r) d -> due r h.
Proof. intros. split; eauto. Qed.

Lemma due_after_ack r b h : configured r -> started r -> status (after_ack r b h) <> empty -> due r (after_ack r b h).
Proof. intros (_ & _ & E) Hs. unfold after_ack. rewrite E. destruct (_ || _); [done|]. intros _. apply (due_in _ _ T); done. Qed.

(** When no timeout is farther ahead than the wheel reaches: in the slot of its timeout, and in no other, a process is in the bucket. *)
Lemma due_now r h : far <= n -> due r h -> bucket (slot_timeout h) = bucket (slot_add (last_sl_ind r) 1) <-> slot_timeout h = slot_add (last_sl_ind r) 1.
Proof.
  intros Hfit (Hg & d & Hd & ->). split; [|by intros ->]. pose proof ring_in_hyper as [Hn1 Hn2]. unfold bucket. intros E%Z2Nat.inj; [|by apply Z.mod_pos_bound..]. f_equal. rewrite !(bucket_of mu Hmu) in E by (done || lia).
  pose proof (Z.div_mod (count_val (last_sl_ind r) + d) n ltac:(lia)) as E1. pose proof (Z.div_mod (count_val (last_sl_ind r) + 1) n ltac:(lia)) as E2. rewrite E in E1.
  assert (d - 1 = n * ((count_val (last_sl_ind r) + d) / n - (count_val (last_sl_ind r) + 1) / n)) as Ed by lia. destruct (Z.eq_dec ((count_val (last_sl_ind r) + d) / n - (count_val (last_sl_ind r) + 1) / n) 0) as [Ez|Ez]; nia.
Qed.

Definition next_slot (r : repo) (sl : slot_point) : Prop := on_grid mu sl /\ (started r -> sl = slot_incr (last_sl_ind r)).

(** The processes that the indication of the slot takes out of the wheel. *)
Definition lapses (sl : slot_point) (h : process) : Prop := status h <> empty /\ bucket (slot_timeout h) = bucket sl.

Lemma lapses_exactly r sl y h : far <= n -> harq_inv r -> next_slot r sl -> harq_at r y = Some h -> lapses sl h <-> status h <> empty /\ slot_timeout h = sl.
Proof.
  intros Hfit I [_ Hn0] Hy. split; intros [Hs Hb]; (split; [done|]); [|by rewrite Hb].
  pose proof (hi_due _ I y h Hy Hs) as Hd. destruct Hd as [Hg Hd0]. rewrite (Hn0 Hg) in Hb |- *. rewrite (slot_incr_add mu Hmu) in Hb |- * by done. apply due_now; [done|by split|done].
Qed.

(** What is not due in the next slot is due one slot earlier. *)
Lemma due_next r sl h : next_slot r sl -> due r h -> slot_timeout h <> sl -> forall r', last_sl_ind r' = sl -> due r' h.
Proof.
  intros [Hg Hn0] (Hs & d & Hd & Et) Hne r' El. pose proof ring_in_hyper as [Hn1 _]. rewrite (slot_incr_add mu Hmu) in Hn0 by done. split; [unfold started; by rewrite El|]. rewrite El. exists (d - 1).
  assert (d <> 1) by (intros ->; apply Hne; rewrite Et; symmetry; auto). split; [lia|]. rewrite Et, (Hn0 Hs), (slot_add_add mu Hmu) by (done || lia). f_equal. lia.
Qed.

Lemma wp_slot sl r (Q : unit -> repo -> list harq_event -> Prop) : harq_inv r -> next_slot r sl ->
  (forall l1 l2 r1 r', harq_inv r' -> last_sl_ind r' = sl -> length (ues r') = length (ues r) -> max_harqs_per_ue r' = max_harqs_per_ue r -> releases l1 (set_last_sl_ind sl r) r1 -> (forall y, y ∈ l1 <-> exists h, harq_at r y = Some h /\ lapses sl h) ->
    releases l2 r1 r' -> (forall y, y ∈ l2 -> exists h, harq_at r1 y = Some h /\ starved sl h) -> Q tt r' (map (timeout_event r) l1 ++ map (trapped_event r) l2)) -> wp (slot_indication sl) Q r.
Proof.
  intros I Hsl HQ. pose proof Hsl as [Hg _]. apply wp_slot_indication; [apply (hi_placed _ I)|apply Hg|]. intros l1 l2 r1 r' R1 H1 R2 H2.
  assert (forall y, y ∈ l1 <-> exists h, harq_at r y = Some h /\ lapses sl h) as H1' by (intros y; rewrite H1; apply (pl_bucket _ (hi_placed _ I))).
  pose proof (rs_framed _ _ _ R1) as F1. pose proof (rs_framed _ _ _ R2) as F2.
  assert (harq_inv r1) as I1.
  { pose proof (hi_cfg _ I) as G. split; [apply (rs_placed _ _ _ R1)|right; unfold started; by rewrite (fr_last _ _ F1)| |unfold configured in *; by rewrite (fr_wait _ _ F1), (fr_koffset _ _ F1), (fr_retx _ _ F1)].
    intros y h. rewrite (rs_at _ _ _ R1). change (harq_at (set_last_sl_ind sl r) y) with (harq_at r y). destruct (decide (y ∈ l1)) as [|Hny]; [by intros (k & _ & ->)%fmap_Some|]. intros Hy Hs.
    apply (due_next r sl); [done|by apply (hi_due _ I y)| |by rewrite (fr_last _ _ F1)]. intros Et. apply Hny, H1'. exists h. split; [done|]. split; [done|by rewrite Et]. }
  destruct (inv_releases _ _ _ I1 R2) as (I2 & _ & _). apply (HQ l1 l2 r1); try done.
  - by rewrite (fr_last _ _ F2), (fr_last _ _ F1).
  - by rewrite (fr_ues _ _ F2), (fr_ues _ _ F1).
  - by rewrite (fr_max _ _ F2), (fr_max _ _ F1).
Qed.

(** ** The operations keep the invariant *)

Lemma wp_each {A} (body : A -> R unit) (ok : A -> repo -> Prop) refs r0 (Q : unit -> repo -> list harq_event -> Prop) : harq_inv r0 -> (forall x, x ∈ refs -> ok x r0) ->
  (forall x r r', ok x r -> evolves r r' -> ok x r') ->
  (forall x r Q', harq_inv r -> ok x r -> (forall r', evolves r r' -> Q' tt r' []) -> wp (body x) Q' r) -> (forall r, evolves r0 r -> Q tt r []) -> wp (for_each refs body) Q r0.
Proof.
  intros I0 Href Hmono Hbody HQ. apply (wp_for_each (fun rest r es => es = [] /\ evolves r0 r /\ forall x, x ∈ rest -> ok x r)).
  - split; [done|]. split; [by apply evolves_refl|done].
  - intros r es (-> & Ev & _). by apply HQ.
  - intros x rest r es (-> & Ev & Hok). apply Hbody; [apply Ev|apply Hok, elem_of_cons; auto|]. intros r' Ev'. split; [done|]. split; [by eapply evolves_trans|].
    intros y Hy. eapply Hmono; [|done]. apply Hok, elem_of_cons. auto.
Qed.

Definition here (x : href) (r : repo) : Prop := is_Some (harq_at r x).
Lemma here_mono x r r' : here x r -> evolves r r' -> here x r'.
Proof. intros Hx (_ & _ & A). by apply A. Qed.

Lemma inv_harq_update x f h r (Q : unit -> repo -> list harq_event -> Prop) : harq_inv r -> harq_at r x = Some h -> harq_ok x (f h) -> status (f h) = status h -> slot_timeout (f h) = slot_timeout h -> (forall r', evolves r r' -> Q tt r' []) -> wp (update_harq x f) Q r.
Proof. intros I Hx Hok Es Et HQ. apply (wp_kept x f h); [apply (hi_placed _ I)|done..|]. intros r' S. apply HQ. apply (inv_stepped x h _ _ _ I Hx S). rewrite Es. auto. Qed.

Lemma inv_dl_ack x a snr r (Q : status_update -> repo -> list harq_event -> Prop) : harq_inv r -> here x r -> (forall v r', evolves r r' -> Q v r' []) -> wp (dl_ack_info snr_lt x a snr) Q r.
Proof.
  intros I [h Hx] HQ. destruct (decide (status h = waiting_ack)) as [E|E].
  - assert (status h <> empty) as Hne by congruence. destruct (hi_due _ I x h Hx Hne) as [Hst _]. apply (wp_dl_ack_info x h); [apply (hi_placed _ I)|done..|]. intros r' S. apply HQ. apply (inv_stepped x h _ _ _ I Hx S). unfold after_dl_ack. destruct (_ <=? 1); cbn [snd].
    + intros Hs. left. apply due_after_ack; [apply (hi_cfg _ I)|done|done].
    + intros _. left. apply (due_in _ _ SHORT_ACK_TIMEOUT_DTX); [done| |done]. pose proof ring_in_hyper. unfold SHORT_ACK_TIMEOUT_DTX. lia.
  - unfold dl_ack_info. wp_step. apply (wp_get_harq x h); [done|]. cbn [app]. rewrite bool_decide_eq_false_2 by done. cbn [negb]. wp_step. by apply HQ, evolves_refl.
Qed.

Lemma inv_ul_crc x b r (Q : Z -> repo -> list harq_event -> Prop) : harq_inv r -> here x r -> (forall v r', evolves r r' -> Q v r' []) -> wp (ul_crc_info x b) Q r.
Proof.
  intros I [h Hx] HQ. unfold ul_crc_info. wp_step. apply (wp_get_harq x h); [done|]. cbn [app]. destruct (decide (status h = waiting_ack)) as [E|E].
  - assert (status h <> empty) as Hne by congruence. destruct (hi_due _ I x h Hx Hne) as [Hst _]. rewrite bool_decide_eq_true_2 by done. cbn [negb]. wp_step. apply (wp_handle_ack x h); [apply (hi_placed _ I)|done..|]. intros r' S. cbn [app]. wp_step. apply HQ.
    apply (inv_stepped x h _ _ _ I Hx S). intros Hs. left. apply due_after_ack; [apply (hi_cfg _ I)|done|done].
  - rewrite bool_decide_eq_false_2 by done. cbn [negb]. wp_step. by apply HQ, evolves_refl.
Qed.

Lemma inv_cancel x r (Q : unit -> repo -> list harq_event -> Prop) : harq_inv r -> here x r -> (forall r', evolves r r' -> Q tt r' []) -> wp (cancel_retxs x) Q r.
Proof.
  intros I [h Hx] HQ. apply (wp_cancel_retxs x h); [apply (hi_placed _ I)|done|]. intros r' S. apply HQ. apply (inv_stepped x h _ _ _ I Hx S). unfold after_cancel. destruct (status h) eqn:E; [by rewrite E|done|]. intros _. by right.
Qed.

Lemma inv_reset x r (Q : unit -> repo -> list harq_event -> Prop) : harq_inv r -> here x r -> (forall r', evolves r r' -> Q tt r' []) -> wp (dealloc_harq x) Q r.
Proof.
  intros I [h Hx] HQ. apply (wp_reset x h); [apply (hi_placed _ I)|done|]. intros r' S. apply HQ. apply (inv_stepped x h _ _ _ I Hx S). destruct (decide (status h = empty)) as [E|E]; [by rewrite E|done].
Qed.

(** A transmission at most [get_max_slot_ul_alloc_delay] ahead, with its ACK. *)
Definition tx_ok (r : repo) (sl : slot_point) (delay : Z) : Prop :=
  started r /\ 0 <= delay /\ exists k, 0 <= k /\ k + delay <= get_max_slot_ul_alloc_delay koff /\ sl = slot_add (last_sl_ind r) k.

Lemma tx_slots r sl delay : tx_ok r sl delay -> exists k, 0 <= k <= 32 + koff /\ numerology_val sl = mu /\ slot_add sl delay = slot_add (last_sl_ind r) k.
Proof.
  intros (Hs & Hd & k & Hk & Hle & ->). rewrite delay_of in Hle. exists (k + delay). split; [lia|]. split; [by apply (on_grid_add mu Hmu); [|lia]|]. by rewrite (slot_add_add mu Hmu) by (done || lia).
Qed.

Lemma tx_here r sl delay : tx_ok r sl delay -> slot_add sl 0 = sl.
Proof. intros (Hs & Hd & k & Hk & Hle & ->). rewrite delay_of in Hle. apply (slot_add_0 mu Hmu), (on_grid_add mu Hmu); [done|lia]. Qed.

Lemma inv_alloc u sl delay max r (Q : option href -> repo -> list harq_event -> Prop) : harq_inv r -> (u < length (ues r))%nat -> 0 <= max < 2 ^ 32 -> tx_ok r sl delay ->
  Q None r [] -> (forall x h r', fst x = u -> harq_at r x = Some h -> status h = empty -> evolves r r' -> (exists to, harq_at r' x = Some (allocated sl (slot_add sl delay) to max h)) -> (forall y, y <> x -> harq_at r' y = harq_at r y) -> Q (Some x) r' []) -> wp (alloc_harq u sl (slot_add sl delay) max) Q r.
Proof.
  intros I [e He]%lookup_lt_is_Some Hm Htx HQ0 HQ. destruct (tx_slots _ _ _ Htx) as (k & Hk & Hsl & Ea). pose proof Htx as (Hs & _). destruct (hi_cfg _ I) as (Ew & Eo & _). pose proof ring_in_hyper as [Hn1 _]. pose proof Hring as Hr. rewrite delay_of in Hr.
  assert (numerology_val (slot_add sl delay) = mu) as Hack by (rewrite Ea; by apply (on_grid_add mu Hmu); [|lia]).
  apply (wp_alloc_harq u e); [apply (hi_placed _ I)|done..|]. intros l i h r' _ Hx Hem S. apply (HQ (u, i) h r'); [done|done|done| |exists (slot_sub (slot_add (slot_add sl delay) (max_ack_wait_in_slots r)) (ntn_cs_koffset r)); apply (st_this _ _ _ _ S)|].
  - apply (inv_stepped _ h _ _ _ I Hx S). intros _. left. apply (due_in _ _ (k + W)); [done|lia|]. cbn. rewrite Ew, Eo, Ea, (slot_add_add mu Hmu), (slot_add_sub mu Hmu) by (done || lia). f_equal. lia.
  - intros y Hne. by rewrite (st_at _ _ _ _ S), decide_False.
Qed.

Lemma inv_retx x sl delay r (Q : bool -> repo -> list harq_event -> Prop) : harq_inv r -> here x r -> tx_ok r sl delay -> Q false r [] -> (forall r', evolves r r' -> Q true r' []) -> wp (handle_new_retx x sl (slot_add sl delay)) Q r.
Proof.
  intros I [h Hx] Htx HQ0 HQ. destruct (tx_slots _ _ _ Htx) as (k & Hk & Hsl & Ea). pose proof Htx as (Hs & _). destruct (hi_cfg _ I) as (Ew & Eo & _). pose proof ring_in_hyper as [Hn1 _]. pose proof Hring as Hr. rewrite delay_of in Hr.
  assert (numerology_val (slot_add sl delay) = mu) as Hack by (rewrite Ea; by apply (on_grid_add mu Hmu); [|lia]).
  destruct (decide (status h = pending_retx)) as [E|E].
  - apply (wp_handle_new_retx x h); [apply (hi_placed _ I)|done..|]. intros r' S. apply HQ. apply (inv_stepped _ h _ _ _ I Hx S). intros _. left. apply (due_in _ _ (k + W + koff)); [done|lia|].
    cbn. rewrite Ew, Ea, (slot_add_add mu Hmu) by (done || lia). f_equal. lia.
  - unfold handle_new_retx. wp_step. apply (wp_get_harq x h); [done|]. cbn [app]. rewrite bool_decide_eq_false_2 by done. cbn [negb]. by wp_step.
Qed.

Inductive harq_op :=
  | op_slot (sl : slot_point) | op_stop | op_add (u : nat) (rnti : Z) (nof : nat) | op_destroy (u : nat)
  | op_dl_tx (u : nat) (sl : slot_point) (delay max bit : Z) | op_dl_retx (x : href) (sl : slot_point) (delay bit : Z) | op_dl_ack (x : href) (a : ack_status) (snr : option Snr)
  | op_pucch (x : href) | op_uci_failed (u : nat) (uci_slot : slot_point) | op_dl_save (x : href) (p : alloc_params)
  | op_ul_tx (u : nat) (sl : slot_point) (max : Z) | op_ul_retx (x : href) (sl : slot_point) | op_ul_crc (x : href) (crc : bool) | op_ul_save (x : href) (p : alloc_params)
  | op_cancel (x : href) | op_cancel_all (u : nat) | op_reset (x : href).

Definition run_op (o : harq_op) : R unit :=
  match o with
  | op_slot sl => slot_indication sl
  | op_stop => stop
  | op_add u rnti nof => add_ue u rnti nof
  | op_destroy u => destroy_ue u
  | op_dl_tx u sl delay max bit => let! _ := new_dl_tx u sl delay max bit in ret tt
  | op_dl_retx x sl delay bit => let! _ := dl_new_retx x sl delay bit in ret tt
  | op_dl_ack x a snr => let! _ := dl_ack_info snr_lt x a snr in ret tt
  | op_pucch x => increment_pucch_counter x
  | op_uci_failed u sl => uci_sched_failed snr_lt u sl
  | op_dl_save x p => dl_save_grant_params x p
  | op_ul_tx u sl max => let! _ := new_ul_tx u sl max in ret tt
  | op_ul_retx x sl => let! _ := ul_new_retx x sl in ret tt
  | op_ul_crc x crc => let! _ := ul_crc_info x crc in ret tt
  | op_ul_save x p => ul_save_grant_params x p
  | op_cancel x => cancel_retxs x
  | op_cancel_all u => cancel_all_retxs u
  | op_reset x => dealloc_harq x
  end.

Definition dl_grant_ok (p prev : alloc_params) : Prop := dci_cfg_type p = dci_cfg_type prev /\ tbs_bytes prev = tbs_bytes p /\ nof_layers prev = nof_layers p /\ is_fallback prev = is_fallback p.
Definition ul_grant_ok (p prev : alloc_params) : Prop := dci_cfg_type p = dci_cfg_type prev /\ tbs_bytes prev = tbs_bytes p.
Definition saves (ok : alloc_params -> alloc_params -> Prop) (x : href) (p : alloc_params) (r : repo) : Prop :=
  exists h, harq_at r x = Some h /\ status h = waiting_ack /\ (nof_retxs h <> 0 -> ok p (prev_tx_params h)).

(** The slots come one by one; a handle names a process; transmissions are at most the scheduler's delay ahead. *)
Definition op_ok (r : repo) (o : harq_op) : Prop :=
  match o with
  | op_slot sl => next_slot r sl
  | op_stop => True
  | op_add u _ nof => 0 < Z.of_nat nof <= max_harqs_per_ue r /\ (u < length (ues r))%nat /\ contains u r = false
  | op_destroy u | op_cancel_all u | op_uci_failed u _ => (u < length (ues r))%nat
  | op_dl_tx u sl delay max _ => (u < length (ues r))%nat /\ 0 <= max < 2 ^ 32 /\ tx_ok r sl delay
  | op_ul_tx u sl max => (u < length (ues r))%nat /\ 0 <= max < 2 ^ 32 /\ tx_ok r sl 0
  | op_dl_retx x sl delay _ => here x r /\ tx_ok r sl delay
  | op_ul_retx x sl => here x r /\ tx_ok r sl 0
  | op_dl_ack x _ _ | op_pucch x | op_ul_crc x _ | op_cancel x | op_reset x => here x r
  | op_dl_save x p => saves dl_grant_ok x p r
  | op_ul_save x p => saves ul_grant_ok x p r
  end.

Lemma inv_retx_dl x sl delay bit r (Q : bool -> repo -> list harq_event -> Prop) : harq_inv r -> here x r -> tx_ok r sl delay -> (forall v r', evolves r r' -> Q v r' []) -> wp (dl_new_retx x sl delay bit) Q r.
Proof.
  intros I Hx Htx HQ. unfold dl_new_retx. wp_step. apply inv_retx; [done..| |]; cbn [app negb].
  - wp_step. by apply HQ, evolves_refl.
  - intros r1 Ev. wp_step. destruct (here_mono x _ _ Hx Ev) as [k Hk]. destruct Ev as (I1 & F1 & A1). apply (inv_harq_update x _ k); [done|done|by apply harq_ok_dl, (pl_ok _ (hi_placed _ I1))|done|done|]. intros r2 Ev. cbn [app]. wp_step. apply HQ. by eapply evolves_trans; [|exact Ev].
Qed.

Lemma inv_after_alloc x f r (Q : unit -> repo -> list harq_event -> Prop) : harq_inv r -> here x r -> (forall h, harq_ok x h -> harq_ok x (f h)) -> (forall h, status (f h) = status h) -> (forall h, slot_timeout (f h) = slot_timeout h) -> (forall r', evolves r r' -> Q tt r' []) -> wp (update_harq x f) Q r.
Proof. intros I [h Hx] Hok Es Et HQ. apply (inv_harq_update x f h); [done|done|apply Hok, (pl_ok _ (hi_placed _ I) _ _ Hx)|done..]. Qed.

Lemma inv_saves ok x p f r (m : process -> R unit) (Q : unit -> repo -> list harq_event -> Prop) : harq_inv r -> saves ok x p r ->
  (forall h r0 Q', (nof_retxs h <> 0 -> ok p (prev_tx_params h)) -> Q' tt r0 [] -> wp (m h) Q' r0) -> (forall r', evolves r r' -> Q tt r' []) ->
  wp (let! h := get_harq x in assert_ (bool_decide (status h = waiting_ack)) ;;; m h ;;; update_harq x (set_prev_tx_params (f h))) Q r.
Proof.
  intros I (h & Hx & Hs & Hok) Hm HQ. wp_step. apply (wp_get_harq x h); [done|]. cbn [app]. wp_step. apply wp_assert; [by apply bool_decide_eq_true|]. cbn [app]. wp_step. apply Hm; [done|]. cbn [app].
  apply inv_after_alloc; [done|by exists h|by intros k []|done|done|done].
Qed.

Lemma inv_dl_save x p r (Q : unit -> repo -> list harq_event -> Prop) : harq_inv r -> saves dl_grant_ok x p r -> (forall r', evolves r r' -> Q tt r' []) -> wp (dl_save_grant_params x p) Q r.
Proof.
  intros I Hs HQ. unfold dl_save_grant_params. cbv zeta. eapply (inv_saves dl_grant_ok x p _ r _ Q I Hs); [|done]. intros h r0 Q' Hok HQ'. cbv beta. destruct (Z.eqb_spec (nof_retxs h) 0) as [|E]; [by wp_step|]. destruct (Hok E) as (E1 & E2 & E3 & E4).
  wp_step. apply wp_assert; [by apply Z.eqb_eq|]. cbn [app]. wp_step. apply wp_assert; [by apply Z.eqb_eq|]. cbn [app]. wp_step. apply wp_assert; [by apply Z.eqb_eq|]. cbn [app]. apply wp_assert; [by apply Bool.eqb_true_iff|done].
Qed.

Lemma inv_ul_save x p r (Q : unit -> repo -> list harq_event -> Prop) : harq_inv r -> saves ul_grant_ok x p r -> (forall r', evolves r r' -> Q tt r' []) -> wp (ul_save_grant_params x p) Q r.
Proof.
  intros I Hs HQ. unfold ul_save_grant_params. cbv zeta. eapply (inv_saves ul_grant_ok x p _ r _ Q I Hs); [|done]. intros h r0 Q' Hok HQ'. cbv beta. destruct (Z.eqb_spec (nof_retxs h) 0) as [|E]; [by wp_step|]. destruct (Hok E) as (E1 & E2).
  wp_step. apply wp_assert; [by apply Z.eqb_eq|]. cbn [app]. apply wp_assert; [by apply Z.eqb_eq|done].
Qed.

Lemma inv_cancel_all u r (Q : unit -> repo -> list harq_event -> Prop) : harq_inv r -> (u < length (ues r))%nat -> (forall r', evolves r r' -> Q tt r' []) -> wp (cancel_all_retxs u) Q r.
Proof.
  intros I [e He]%lookup_lt_is_Some HQ. unfold cancel_all_retxs. wp_step. apply (wp_get_ue _ e); [done|]. cbn [app]. fold (refs_of u e). apply (wp_each _ here); [done|by intros x [_ Hx]%(elem_refs u e r x He)|by intros; eapply here_mono| |done].
  intros x r1 Q' I1 [h Hx] HQ'. wp_step. apply (wp_get_harq x h); [done|]. cbn [app]. wp_step; [apply inv_cancel; [done|by exists h|done]|by apply HQ', evolves_refl].
Qed.

Lemma inv_uci_failed u sl r (Q : unit -> repo -> list harq_event -> Prop) : harq_inv r -> (u < length (ues r))%nat -> (forall r', evolves r r' -> Q tt r' []) -> wp (uci_sched_failed snr_lt u sl) Q r.
Proof.
  intros I [e He]%lookup_lt_is_Some HQ. unfold uci_sched_failed. wp_step. apply (wp_get_ue _ e); [done|]. cbn [app]. fold (refs_of u e). apply (wp_each _ here); [done|by intros x [_ Hx]%(elem_refs u e r x He)|by intros; eapply here_mono| |done].
  intros x r1 Q' I1 [h Hx] HQ'. wp_step. apply (wp_get_harq x h); [done|]. cbn [app]. wp_step; [|by wp_step; apply HQ', evolves_refl].
  apply (wp_each _ (fun _ => here x)); [done|by exists h|intros; by eapply here_mono| |done]. intros i r2 Q2 I2 Hx2 HQ2. wp_step. apply inv_dl_ack; [done..|]. intros v r3 Ev. cbn [app]. wp_step. by apply HQ2.
Qed.

Lemma wp_op o r : harq_inv r -> op_ok r o -> wp (run_op o) (fun _ r' _ => harq_inv r') r.
Proof.
  intros I Hok. destruct o; cbn [run_op op_ok] in *.
  - by apply wp_slot.
  - apply wp_harq_stop; [apply (hi_placed _ I)|]. intros l r' Rl Hem. pose proof (inv_releases _ _ _ I Rl) as (I' & _). split; [apply placed_last, I'|by left| |apply (hi_cfg _ I')]. intros x h Hx Hs. by destruct Hs, (Hem x h Hx).
  - destruct Hok as (Hk & Hu & Hc). apply wp_add_ue; [apply (hi_placed _ I)|done..|]. intros r' P' F' A'. apply (inv_at r); [done..|]. intros y h. rewrite A'. destruct (decide _); [by intros [= <-]|]. intros Hy Hs. left. by apply (hi_due _ I y).
  - apply lookup_lt_is_Some in Hok as [e He]. apply (wp_destroy_ue _ e); [apply (hi_placed _ I)|done|]. intros l r1 r' Rl Hl P' F' A'. destruct (inv_releases _ _ _ I Rl) as (I1 & F1 & _). apply (inv_at r); [done..|].
    intros y h. rewrite A'. destruct (decide _); [done|]. intros Hy Hs. left. rewrite <- (proj2 (proj2 (framed_cfg _ _ F1))). by apply (hi_due _ I1 y).
  - destruct Hok as (Hu & Hm & Htx). wp_step. unfold new_dl_tx. wp_step. apply inv_alloc; [done..|cbn [app]; by do 2 wp_step|]. intros y h r1 _ Hy _ Ev _ _. cbn [app]. wp_step. apply inv_after_alloc; [apply Ev|apply (here_mono y r); [by exists h|done]|by intros k []|done|done|]. intros r2 Ev2. cbn [app]. do 2 wp_step. apply Ev2.
  - destruct Hok as (Hx & Htx). wp_step. apply inv_retx_dl; [done..|]. intros v r' Ev. cbn [app]. wp_step. apply Ev.
  - wp_step. apply inv_dl_ack; [done..|]. intros v r' Ev. cbn [app]. wp_step. apply Ev.
  - apply inv_after_alloc; [done|done|intros h; by apply harq_ok_dl|done|done|]. intros r' Ev. apply Ev.
  - apply inv_uci_failed; [done..|]. intros r' Ev. apply Ev.
  - apply inv_dl_save; [done..|]. intros r' Ev. apply Ev.
  - destruct Hok as (Hu & Hm & Htx). wp_step. unfold new_ul_tx. wp_step. rewrite <- (tx_here r sl 0) at 2 by done.
    apply inv_alloc; [done..|cbn [app]; by do 2 wp_step|]. intros y h r1 _ Hy _ Ev _ _. cbn [app]. wp_step. apply inv_after_alloc; [apply Ev|apply (here_mono y r); [by exists h|done]|by intros k0 []|done|done|]. intros r2 Ev2. cbn [app]. do 2 wp_step. apply Ev2.
  - destruct Hok as (Hx & Htx). wp_step. unfold ul_new_retx. rewrite <- (tx_here r sl 0) at 2 by done. apply inv_retx; [done..|cbn [app]; by wp_step|]. intros r' Ev. cbn [app]. wp_step. apply Ev.
  - wp_step. apply inv_ul_crc; [done..|]. intros v r' Ev. cbn [app]. wp_step. apply Ev.
  - apply inv_ul_save; [done..|]. intros r' Ev. apply Ev.
  - apply inv_cancel; [done..|]. intros r' Ev. apply Ev.
  - apply inv_cancel_all; [done..|]. intros r' Ev. apply Ev.
  - apply inv_reset; [done..|]. intros r' Ev. apply Ev.
Qed.

Definition slot_done (r : repo) (sl : slot_point) (timed late : list href) (r' : repo) : Prop :=
  NoDup (timed ++ late) /\ (forall y, y ∈ timed <-> exists h, harq_at r y = Some h /\ lapses sl h) /\
  (forall y, y ∈ late -> exists h, harq_at r y = Some h /\ starved sl h) /\
  (forall y, harq_at r' y = if decide (y ∈ timed ++ late) then released <$> harq_at r y else harq_at r y).

Lemma wp_slot_done sl r : harq_inv r -> next_slot r sl -> wp (slot_indication sl) (fun _ r' es => exists timed late, es = map (timeout_event r) timed ++ map (trapped_event r) late /\ slot_done r sl timed late r') r.
Proof.
  intros I Hsl. apply wp_slot; [done|done|]. intros l1 l2 r1 r' _ _ _ _ R1 H1 R2 H2. exists l1, l2. split; [done|].
  assert (forall y, y ∈ l2 -> y ∉ l1) as Hdis. { intros y Hy2 Hy1. destruct (H2 y Hy2) as (h & Hh & Hst & _). rewrite (rs_at _ _ _ R1), decide_True in Hh by done. apply fmap_Some in Hh as (k & _ & ->). done. }
  assert (forall y, y ∉ l1 -> harq_at r1 y = harq_at r y) as Hr1. { intros y Hy. rewrite (rs_at _ _ _ R1), decide_False by done. done. }
  split; [|split; [done|split]].
  - apply NoDup_app. split; [apply (rs_nodup _ _ _ R1)|]. split; [|apply (rs_nodup _ _ _ R2)]. intros y H1' H2'. by apply (Hdis y).
  - intros y Hy. destruct (H2 y Hy) as (h & Hh & Hst). exists h. by rewrite Hr1 in Hh by auto.
  - intros y. rewrite (rs_at _ _ _ R2). destruct (decide (y ∈ l2)) as [Hy|Hy].
    + rewrite decide_True by (apply elem_of_app; auto). by rewrite Hr1 by auto.
    + destruct (decide (y ∈ l1)) as [Hy1|Hy1]; [rewrite decide_True by (apply elem_of_app; auto)|rewrite decide_False by (rewrite elem_of_app; tauto); by apply Hr1]. rewrite (rs_at _ _ _ R1), decide_True by done. done.
Qed.

(** ** Slots without anything else *)

Fixpoint slots (k : nat) : R (Snr := Snr) unit := match k with O => ret tt | Datatypes.S k => let! r := get in slot_indication (slot_incr (last_sl_ind r)) ;;; slots k end.

(** Taken out of the wheel within [m] slots. *)
Definition due_within (m : Z) (r : repo) : Prop := forall x h, harq_at r x = Some h -> status h <> empty -> exists d, 1 <= d <= m /\ bucket (slot_timeout h) = bucket (slot_add (last_sl_ind r) d).

Lemma next_incr r : started r -> next_slot r (slot_incr (last_sl_ind r)).
Proof. intros Hs. split; [|done]. rewrite (slot_incr_add mu Hmu) by done. by apply (on_grid_add mu Hmu). Qed.

Lemma wp_slots k m r : harq_inv r -> started r -> m <= n -> due_within m r -> wp (slots k) (fun _ r' _ => harq_inv r' /\ due_within (m - Z.of_nat k) r') r.
Proof.
  pose proof ring_in_hyper as [Hn1 Hn2]. revert m r. induction k as [|k IH]; intros m r I Hs Hm Hd; cbn [slots].
  - wp_step. by rewrite Z.sub_0_r.
  - do 3 wp_step. apply wp_slot; [done|by apply next_incr|]. intros l1 l2 r1 r' I' El _ _ R1 H1 R2 _. pose proof (next_incr r Hs) as [Hg _]. eapply wp_mono; [apply (IH (m - 1)); [done|unfold started; by rewrite El|lia|]|].
    + intros y h. rewrite (rs_at _ _ _ R2). destruct (decide (y ∈ l2)); [by intros (k0 & _ & ->)%fmap_Some|]. rewrite (rs_at _ _ _ R1). change (harq_at (set_last_sl_ind _ r) y) with (harq_at r y). destruct (decide (y ∈ l1)) as [|Hny]; [by intros (k0 & _ & ->)%fmap_Some|].
      intros Hy Hb. destruct (Hd y h Hy Hb) as (d & Hdm & Et). rewrite El, (slot_incr_add mu Hmu) by done. exists (d - 1). rewrite (slot_add_add mu Hmu) by (done || lia). replace (1 + (d - 1)) with d by lia. split; [|done].
      assert (d <> 1); [intros ->|lia]. apply Hny, H1. exists h. split; [done|]. split; [done|]. by rewrite (slot_incr_add mu Hmu) by done.
    + intros [] r2 es [I2 H2]. split; [done|]. by replace (m - Z.of_nat (Datatypes.S k)) with (m - 1 - Z.of_nat k) by lia.
Qed.

(** Whatever its timeout, a process is taken out of the wheel within one round. *)
Lemma due_round r h : due r h -> exists d, 1 <= d <= n /\ bucket (slot_timeout h) = bucket (slot_add (last_sl_ind r) d).
Proof.
  intros (Hg & d & Hd & ->). pose proof ring_in_hyper as [Hn1 Hn2]. pose proof (Z.mod_pos_bound (d - 1) n Hn) as Hm. exists ((d - 1) mod n + 1). split; [lia|].
  unfold bucket. f_equal. rewrite !(bucket_of mu Hmu) by (done || lia). replace (count_val (last_sl_ind r) + ((d - 1) mod n + 1)) with ((d - 1) mod n + (count_val (last_sl_ind r) + 1)) by lia.
  rewrite Zplus_mod_idemp_l. f_equal. lia.
Qed.

Lemma wp_all_slots r : harq_inv r -> started r -> wp (slots (Z.to_nat n)) (fun _ r' _ => forall x h, harq_at r' x = Some h -> status h = empty) r.
Proof.
  intros I Hs. eapply wp_mono; [apply (wp_slots _ n); [done|done|lia|]|].
  - intros x h Hx Hb. apply due_round. by apply (hi_due _ I x h).
  - intros [] r' es [_ Hd] x h Hx. destruct (status h) eqn:E; [done|..]; (destruct (Hd x h Hx) as (d & Hd1 & _); [congruence|lia]).
Qed.

(** ** The report of the best signal *)

Context (lt_asym : forall a b, snr_lt a b = true -> snr_lt b a = false) (lt_cotrans : forall a b c, snr_lt a b = true -> snr_lt a c = true \/ snr_lt c b = true).

(** The first decoded report that no other one surpasses. *)
Definition best_report (reports : list (ack_status * Snr)) (a : ack_status) : Prop :=
  (a = dtx /\ forall b t, (b, t) ∈ reports -> b = dtx) \/
  exists l1 s l2, reports = l1 ++ (a, s) :: l2 /\ a <> dtx /\ (forall b t, (b, t) ∈ l1 -> b <> dtx -> snr_lt t s = true) /\ (forall b t, (b, t) ∈ l2 -> b <> dtx -> snr_lt s t = false).

Definition hears (reports : list (ack_status * Snr)) (h : process) : process := fold_left (fun h r => heard (fst r) (Some (snd r)) h) reports h.

(** [last_pucch_snr] is the one of the report that is ahead. *)
Lemma hears_best reports h : last_pucch_snr h = None -> chosen_ack h = dtx ->
  let k := hears reports h in
  (last_pucch_snr k = None /\ chosen_ack k = dtx /\ forall b t, (b, t) ∈ reports -> b = dtx) \/
  exists l1 s l2, reports = l1 ++ (chosen_ack k, s) :: l2 /\ last_pucch_snr k = Some s /\ chosen_ack k <> dtx /\ (forall b t, (b, t) ∈ l1 -> b <> dtx -> snr_lt t s = true) /\ (forall b t, (b, t) ∈ l2 -> b <> dtx -> snr_lt s t = false).
Proof.
  intros Hn0 Hc. induction reports as [|[a t] reports IH] using rev_ind; [left; split; [done|]; split; [done|]; by intros b t Hb%elem_of_nil|]. unfold hears. rewrite fold_left_app. cbn [fold_left fst snd]. fold (hears reports h). cbv zeta in IH |- *. set (k := hears reports h) in *.
  assert (forall b' t', (b', t') ∈ [(a, t)] -> b' = a /\ t' = t) as Hone by (intros b' t' [= -> ->]%list_elem_of_singleton; done).
  rewrite heard_eq. cbn [last_pucch_snr chosen_ack set_dl]. unfold choose_ack. destruct (decide (a = dtx)) as [Ea|Ea].
  - rewrite bool_decide_eq_true_2 by done. cbn [negb andb fst snd]. destruct IH as [(H1 & H2 & H3)|(l1 & s & l2 & E & H1 & H2 & H3 & H4)]; [left|right].
    + split; [done|]. split; [done|]. intros b t' [Hb|Hb]%elem_of_app; [by apply (H3 b t')|]. by destruct (Hone _ _ Hb) as [-> _].
    + exists l1, s, (l2 ++ [(a, t)]). split; [by rewrite E at 1; rewrite <- app_assoc|]. do 3 (split; [done|]). intros b t' [Hb|Hb]%elem_of_app; [by apply (H4 b t')|]. by destruct (Hone _ _ Hb) as [-> _].
  - rewrite bool_decide_eq_false_2 by done. cbn [negb andb]. destruct IH as [(H1 & H2 & H3)|(l1 & s & l2 & E & H1 & H2 & H3 & H4)]; rewrite H1.
    + right. exists reports, t, []. cbn [fst snd]. split; [done|]. split; [done|]. split; [done|]. split; [|by intros b t' Hb%elem_of_nil]. intros b t' Hb Hd. by destruct Hd, (H3 b t').
    + right. destruct (snr_lt s t) eqn:El; cbn [fst snd].
      * exists reports, t, []. split; [done|]. split; [done|]. split; [done|]. split; [|by intros b t' Hb%elem_of_nil]. intros b t' Hb Hd. destruct (lt_cotrans s t t' El) as [Hst|]; [|done]. exfalso.
        rewrite E in Hb. apply elem_of_app in Hb as [Hb|[Hb|Hb]%elem_of_cons]; [|injection Hb as -> ->|]; [by rewrite (lt_asym _ _ (H3 b t' Hb Hd)) in Hst|by pose proof (lt_asym _ _ Hst); congruence|by rewrite (H4 b t' Hb Hd) in Hst].
      * exists l1, s, (l2 ++ [(a, t)]). split; [by rewrite E at 1; rewrite <- app_assoc|]. do 3 (split; [done|]). intros b t' [Hb|Hb]%elem_of_app Hd; [by apply (H4 b t')|]. by destruct (Hone _ _ Hb) as [_ ->].
Qed.

Fixpoint ack_all (x : href) (reports : list (ack_status * Snr)) : R (Snr := Snr) (list status_update) :=
  match reports with
  | [] => ret []
  | (a, s) :: reports => let! v := dl_ack_info snr_lt x a (Some s) in let! vs := ack_all x reports in ret (v :: vs)
  end.

Definition sig (h : process) : ack_status * option Snr := (chosen_ack h, last_pucch_snr h).
Lemma hears_sig reports h k : sig h = sig k -> sig (hears reports h) = sig (hears reports k).
Proof.
  revert h k. induction reports as [|[a s] reports IH]; intros h k E; [done|]. cbn [hears fold_left fst snd]. apply IH. rewrite !heard_eq. unfold sig in *. cbn [chosen_ack last_pucch_snr set_dl]. injection E as E1 E2. unfold choose_ack. by rewrite E1, E2.
Qed.

Definition verdict (a : ack_status) : status_update := if bool_decide (a = ack) then acked else nacked.
Definition outcome (a : ack_status) (h : process) : harq_state_t := if bool_decide (a = ack) || (max_nof_harq_retxs h <=? nof_retxs h) then empty else pending_retx.

Lemma wp_ack_all x reports h r : reports <> [] -> placed r -> harq_at r x = Some h -> status h = waiting_ack -> pucch_ack_to_receive h = zlen reports -> zlen reports < 2 ^ 32 ->
  wp (ack_all x reports) (fun vs r' es => let a := chosen_ack (hears reports h) in
    es = [] /\ vs = repeat no_update (length reports - 1) ++ [verdict a] /\ (exists h', harq_at r' x = Some h' /\ status h' = outcome a h) /\ forall y, y <> x -> harq_at r' y = harq_at r y) r.
Proof.
  revert h r. induction reports as [|[a s] reports IH]; intros h r Hne P Hx Hs Hp Hlen; [done|]. clear Hne. cbn [ack_all]. wp_step. apply (wp_dl_ack_info x h); [done..|]. intros r1 S. cbn [app]. wp_step.
  unfold after_dl_ack in *. assert (chosen_ack (heard a (Some s) h) = chosen_ack (hears [(a, s)] h)) as Ec by done. destruct reports as [|b reports].
  - rewrite Hp in *. cbn [zlen length Z.of_nat] in *. change (Z.pos (Pos.of_succ_nat 0) <=? 1) with true in *. cbn [ack_all]. do 2 wp_step. cbv zeta. split; [done|]. split; [done|]. split; [|intros y Hy; by rewrite (st_at _ _ _ _ S), decide_False].
    eexists. split; [apply (st_this _ _ _ _ S)|]. cbn [snd]. unfold after_ack, outcome. rewrite Ec, heard_eq. cbn [max_nof_harq_retxs nof_retxs set_dl]. by destruct (_ || _).
  - assert (zlen ((a, s) :: b :: reports) = 1 + zlen (b :: reports) /\ 1 <= zlen (b :: reports)) as [El Hl1] by (unfold zlen; cbn [length]; lia). assert ((pucch_ack_to_receive h <=? 1) = false) as E1 by (apply Z.leb_gt; lia). rewrite E1 in *. cbn [fst snd] in *.
    set (k := set_slot_timeout _ _) in S. assert (sig k = sig (heard a (Some s) h)) as Hsig by done.
    eapply wp_mono; [apply (IH k); [done|apply (st_placed _ _ _ _ S)|apply (st_this _ _ _ _ S)|unfold k; rewrite heard_eq; done| |lia]|].
    { unfold k. cbn [pucch_ack_to_receive set_slot_timeout set_dl]. rewrite Hp, El, u32_small by lia. lia. }
    intros vs r' es (-> & -> & (h' & Hx' & Hs') & Hy'). cbn [app]. wp_step. cbv zeta. pose proof (hears_sig (b :: reports) _ _ Hsig) as Hh. apply (f_equal fst) in Hh. cbn [fst sig] in Hh. change (hears ((a, s) :: b :: reports) h) with (hears (b :: reports) (heard a (Some s) h)).
    split; [done|]. split; [cbn [length Nat.sub]; rewrite Hh; cbn [repeat app]; by rewrite Nat.sub_0_r|]. split.
    + exists h'. split; [done|]. rewrite Hs', Hh. unfold outcome, k. by rewrite heard_eq.
    + intros y Hy. by rewrite Hy', (st_at _ _ _ _ S), decide_False.
Qed.
End harq.

(** ** Cells *)

Record harq_config := mk_harq_config { cf_numerology : Z; cf_dl : bool; cf_max_ues : nat; cf_ack_wait : Z; cf_retx_timeout : Z; cf_max_harqs : Z; cf_koffset : Z }.

Definition wheel_size (c : harq_config) : Z := get_allocator_ring_size_gt_min (u32 (cf_ack_wait c + get_max_slot_ul_alloc_delay (cf_koffset c))).

(** What waits for the ACK of a first transmission fits in the wheel; other timeouts need not. *)
Record harq_config_ok (c : harq_config) : Prop := {
  co_numerology : 0 <= cf_numerology c < 5;
  co_wait : 1 <= cf_ack_wait c;
  co_koffset : 0 <= cf_koffset c < 2 ^ 16;
  co_fits : cf_ack_wait c + 32 + cf_koffset c <= 10240;
  co_retx : 1 <= cf_retx_timeout c < 2 ^ 29
}.

(** The farthest timeout: of a process that waits for its retransmission, or for the ACK of one, where the offset of an NTN cell counts twice. *)
Definition farthest (c : harq_config) : Z := cf_retx_timeout c `max` (cf_ack_wait c + 32 + 2 * cf_koffset c).

Lemma power2_ceil_small x : 0 <= x <= 1024 -> exists k, 0 <= k <= 10 /\ power2_ceil x = 2 ^ k /\ x <= 2 ^ k.
Proof.
  intros Hx. assert (forallb (fun i => existsb (fun j => let k := Z.of_nat j in (power2_ceil (Z.of_nat i) =? 2 ^ k) && (Z.of_nat i <=? 2 ^ k)) (seq 0 11)) (seq 0 1025) = true) as Hall by by vm_compute.
  rewrite forallb_forall in Hall. specialize (Hall (Z.to_nat x) ltac:(apply in_seq; lia)). apply existsb_exists in Hall as (j & [_ Hj]%in_seq & Hk). rewrite Z2Nat.id in Hk by lia. cbv zeta in Hk. bool_prop. exists (Z.of_nat j). split; [lia|done].
Qed.

Lemma ring_size x : 0 <= x <= 10240 -> x <= get_allocator_ring_size_gt_min x /\ 0 < get_allocator_ring_size_gt_min x /\ (get_allocator_ring_size_gt_min x | 10240).
Proof.
  intros Hx. unfold get_allocator_ring_size_gt_min. destruct (power2_ceil_small ((x + 10 - 1) / 10)) as (k & Hk & -> & Hle); [zmod|].
  assert (2 ^ k * 2 ^ (10 - k) = 1024) as Hp by (rewrite <- Z.pow_add_r by lia; by replace (k + (10 - k)) with 10 by lia). assert (0 < 2 ^ k) by (apply Z.pow_pos_nonneg; lia). assert (0 < 2 ^ (10 - k)) by (apply Z.pow_pos_nonneg; lia).
  rewrite u32_small by nia. split; [zmod|]. split; [lia|]. exists (2 ^ (10 - k)). nia.
Qed.

Lemma config_ring c : harq_config_ok c -> 0 < wheel_size c /\ (wheel_size c | hyper (cf_numerology c)) /\ cf_ack_wait c + get_max_slot_ul_alloc_delay (cf_koffset c) <= wheel_size c.
Proof.
  intros [Hm Hw Hk Hf Ht]. unfold wheel_size. rewrite delay_of by done. rewrite u32_small by lia. destruct (ring_size (cf_ack_wait c + (32 + cf_koffset c)) ltac:(lia)) as (H1 & H2 & H3). split; [done|]. split; [|done].
  etrans; [exact H3|]. apply hyper_range. done.
Qed.

Lemma config_far c : harq_config_ok c -> 1 <= cf_retx_timeout c <= farthest c /\ cf_ack_wait c + 32 + 2 * cf_koffset c <= farthest c < 2 ^ 30.
Proof. intros [Hm Hw Hk Hf Ht]. unfold farthest. lia. Qed.

Section cell.
Context {Snr : Type} (snr_lt : Snr -> Snr -> bool) (c : harq_config).
Notation repo := (harq_repo (Snr := Snr)).
Notation mu := (cf_numerology c).
Notation n := (wheel_size c).

Definition cell_inv : repo -> Prop := harq_inv mu n (cf_ack_wait c) (cf_koffset c) (cf_retx_timeout c) (farthest c).
Definition cell_op_ok : repo -> harq_op -> Prop := op_ok mu (cf_koffset c).
Definition cell_create : repo := create (cf_dl c) (cf_max_ues c) (cf_ack_wait c) (cf_retx_timeout c) (cf_max_harqs c) (cf_koffset c).

Inductive cell_reachable : repo -> Prop :=
  | cell_init : cell_reachable cell_create
  | cell_step r o r' es : cell_reachable r -> cell_op_ok r o -> run_op snr_lt o r = Ok (tt, r', es) -> cell_reachable r'.

Context (Hc : harq_config_ok c).

Lemma cell_create_inv : cell_inv cell_create.
Proof.
  destruct (config_ring c Hc) as (Hn & _ & _). destruct Hc as [Hm Hw Hk Hf Ht].
  assert (forall {A} (a : A) k i b, repeat a k !! i = Some b -> b = a) as Hrep by (intros A a k i b Hb; by apply list_elem_of_lookup_2, list_elem_of_In, repeat_spec in Hb).
  assert (forall u e, ues cell_create !! u = Some e -> e = mk_ue [] [] slot_default slot_default) as Hue by (intros u e; apply Hrep).
  assert (forall x, harq_at cell_create x = None) as Hat. { intros x. unfold harq_at. destruct (ues cell_create !! fst x) as [e|] eqn:E; [|done]. by rewrite (Hue _ _ E). }
  assert (forall u, free_ids cell_create u = []) as Hfr. { intros u. unfold free_ids. destruct (ues cell_create !! u) as [e|] eqn:E; [|done]. by rewrite (Hue _ _ E). }
  assert (forall i b, harq_timeout_wheel cell_create !! i = Some b -> b = []) as Hwh by (intros i b; apply Hrep).
  split; [split|by left|intros x h; by rewrite Hat|split; [cbn; apply u32_small; lia|done]].
  - intros x h. by rewrite Hat.
  - intros u. rewrite Hfr. constructor.
  - intros u i. rewrite Hfr, Hat, elem_of_nil. naive_solver.
  - intros u e He. by rewrite (Hue _ _ He).
  - unfold zlen. cbn. rewrite repeat_length. fold (wheel_size c). lia.
  - intros i b Hb. rewrite (Hwh _ _ Hb). constructor.
  - intros i x. rewrite Hat. split; [intros (b & Hb & Hx); rewrite (Hwh _ _ Hb) in Hx; by apply elem_of_nil in Hx|naive_solver].
  - constructor.
  - intros x. rewrite Hat. cbn. rewrite elem_of_nil. naive_solver.
Qed.

Lemma cell_op r o : cell_inv r -> cell_op_ok r o -> exists r' es, run_op snr_lt o r = Ok (tt, r', es) /\ cell_inv r'.
Proof.
  intros I Hok. destruct (config_ring c Hc) as (Hn & Hd & Hr), (config_far c Hc) as [Ht Hf]. pose proof Hc as [Hm Hw Hk _ _]. destruct (proj1 (wp_run _ _ _) (wp_op snr_lt mu Hm n Hn Hd _ _ _ _ Hw Hk Ht Hr Hf o r I Hok)) as ([] & r' & es & E & I'). eauto.
Qed.

Lemma cell_reachable_inv r : cell_reachable r -> cell_inv r.
Proof.
  induction 1 as [|r o r' es _ I Hok E]; [apply cell_create_inv|]. destruct (cell_op r o I Hok) as (r2 & es2 & E2 & I2). rewrite E in E2. by injection E2 as -> _.
Qed.
End cell.

Definition after {Snr} (snr_lt : Snr -> Snr -> bool) (o : harq_op) (r : harq_repo) : harq_repo := match run_op snr_lt o r with Ok (_, r', _) => r' | Fault _ => r end.

Lemma reachable_after {Snr} (snr_lt : Snr -> Snr -> bool) c r o : harq_config_ok c -> cell_reachable snr_lt c r -> cell_op_ok c r o -> cell_reachable snr_lt c (after snr_lt o r).
Proof.
  intros Hc Hr Hok. destruct (cell_op snr_lt c Hc r o (cell_reachable_inv snr_lt c Hc r Hr) Hok) as (r' & es & E & _). unfold after. rewrite E. by eapply cell_step.
Qed.

(** ** Properties *)

(** C12: In every reachable state of the HARQ processes of a cell, every call that the scheduler may make there ends without a failing
    assertion and without taking a process out of a list it is not in, and every process is then in exactly the lists that its state asks
    for, with no more retransmissions than its maximum. *)
Theorem harq_never_faults {Snr} (snr_lt : Snr -> Snr -> bool) c r o : harq_config_ok c -> cell_reachable snr_lt c r -> cell_op_ok c r o ->
  exists r' es, run_op snr_lt o r = Ok (tt, r', es) /\ cell_reachable snr_lt c r' /\ placed (cf_numerology c) (wheel_size c) r'.
Proof.
  intros Hc Hr Hok. destruct (cell_op snr_lt c Hc r o (cell_reachable_inv snr_lt c Hc r Hr) Hok) as (r' & es & E & I). exists r', es. split; [done|]. split; [by eapply cell_step|]. apply (hi_placed _ _ _ _ _ _ _ I).
Qed.

(** C13: The indication of a slot releases and reports exactly the processes in its bucket of the wheel - the busy ones whose timeout is this slot modulo the
    size of the wheel - and then processes that wait for a retransmission for a quarter of the hyperframe; nothing else changes.  Where
    no timeout can be farther ahead than the wheel has buckets, the first are exactly those whose timeout is this slot. *)
Theorem harq_timeout_exact {Snr} (snr_lt : Snr -> Snr -> bool) c r sl : harq_config_ok c -> cell_reachable snr_lt c r -> next_slot (cf_numerology c) r sl ->
  exists timed late r', slot_indication sl r = Ok (tt, r', map (timeout_event r) timed ++ map (trapped_event r) late) /\ slot_done (wheel_size c) r sl timed late r' /\
    (farthest c <= wheel_size c -> forall y, y ∈ timed <-> exists h, harq_at r y = Some h /\ status h <> empty /\ slot_timeout h = sl).
Proof.
  intros Hc Hr Hsl. pose proof (cell_reachable_inv snr_lt c Hc r Hr) as I. destruct (config_ring c Hc) as (Hn & Hd & Hg), (config_far c Hc) as [Ht Hf]. pose proof Hc as [Hm Hw Hk _ _].
  destruct (proj1 (wp_run _ _ _) (wp_slot_done (cf_numerology c) Hm (wheel_size c) Hn Hd (cf_ack_wait c) (cf_koffset c) (cf_retx_timeout c) (farthest c) Hw Hk Ht Hg Hf sl r I Hsl)) as ([] & r' & es & E & timed & late & -> & H). exists timed, late, r'.
  split; [done|]. split; [done|]. intros Hfit y. destruct H as (_ & Htimed & _). rewrite Htimed. split; intros (h & Hy & Hl); exists h; (split; [done|]).
  - by apply (lapses_exactly (cf_numerology c) Hm (wheel_size c) Hn Hd (cf_ack_wait c) (cf_koffset c) (cf_retx_timeout c) (farthest c) Hw Hk Ht Hg Hf r sl y h Hfit I Hsl Hy).
  - by apply (lapses_exactly (cf_numerology c) Hm (wheel_size c) Hn Hd (cf_ack_wait c) (cf_koffset c) (cf_retx_timeout c) (farthest c) Hw Hk Ht Hg Hf r sl y h Hfit I Hsl Hy).
Qed.

(** C14: No process stays busy: the timeout of every busy process lies ahead, at most [farthest] slots, and after as many slots as the wheel has buckets in which
    nothing else happens every process is free again, whatever it was waiting for and however far its timeout. *)
Theorem harq_released_in_time {Snr} (snr_lt : Snr -> Snr -> bool) c r : harq_config_ok c -> cell_reachable snr_lt c r -> started (cf_numerology c) r ->
  (forall x h, harq_at r x = Some h -> status h <> empty -> exists d, 1 <= d <= farthest c /\ slot_timeout h = slot_add (last_sl_ind r) d) /\
  exists r' es, slots (Z.to_nat (wheel_size c)) r = Ok (tt, r', es) /\ forall x h, harq_at r' x = Some h -> status h = empty.
Proof.
  intros Hc Hr Hs. pose proof (cell_reachable_inv snr_lt c Hc r Hr) as I. destruct (config_ring c Hc) as (Hn & Hd & Hg), (config_far c Hc) as [Ht Hf]. pose proof Hc as [Hm Hw Hk _ _].
  destruct (proj1 (wp_run _ _ _) (wp_all_slots (cf_numerology c) Hm (wheel_size c) Hn Hd (cf_ack_wait c) (cf_koffset c) (cf_retx_timeout c) (farthest c) Hw Hk Hg Hf r I Hs)) as ([] & r' & es & E & H). split; [|by exists r', es].
  intros x h Hx Hb. apply (hi_due _ _ _ _ _ _ _ I x h Hx Hb).
Qed.

(** C15: When several PUCCHs report the HARQ-ACK of a transmission, the process waits for all of them and then follows the decoded report of the best
    signal: it is free after an ACK or when no retransmissions are left, and asks for a retransmission otherwise; missing reports do not
    count, and no other process changes. *)
Theorem dl_ack_best_report {Snr} (snr_lt : Snr -> Snr -> bool) c r x h reports : harq_config_ok c -> cell_reachable snr_lt c r ->
  (forall a b, snr_lt a b = true -> snr_lt b a = false) -> (forall a b k, snr_lt a b = true -> snr_lt a k = true \/ snr_lt k b = true) ->
  harq_at r x = Some h -> status h = waiting_ack -> last_pucch_snr h = None -> chosen_ack h = dtx -> 1 <= pucch_ack_to_receive h < 2 ^ 32 -> zlen reports = pucch_ack_to_receive h ->
  exists r' a, ack_all snr_lt x reports r = Ok (repeat no_update (length reports - 1) ++ [verdict a], r', []) /\ best_report snr_lt reports a /\
    (exists h', harq_at r' x = Some h' /\ status h' = outcome a h) /\ forall y, y <> x -> harq_at r' y = harq_at r y.
Proof.
  intros Hc Hr Hasym Hco Hx Hs Hl Hch Hp Hlen. pose proof (cell_reachable_inv snr_lt c Hc r Hr) as I. destruct (config_ring c Hc) as (Hn & _ & _).
  destruct (proj1 (wp_run _ _ _) (wp_ack_all snr_lt (cf_numerology c) ltac:(apply Hc) (wheel_size c) Hn x reports h r ltac:(intros ->; unfold zlen in Hlen; cbn in Hlen; lia) (hi_placed _ _ _ _ _ _ _ I) Hx Hs ltac:(done) ltac:(lia))) as (vs & r' & es & E & -> & -> & Hh & Hy).
  exists r', (chosen_ack (hears snr_lt reports h)). split; [done|]. split; [|done]. destruct (hears_best snr_lt Hasym Hco reports h Hl Hch) as [(_ & H1 & H2)|(l1 & s & l2 & E1 & _ & H)]; [by left|right]. by exists l1, s, l2.
Qed.

(** ** A cell *)

Definition example_cell : harq_config := mk_harq_config 0 true 2 1 20 16 0.
(** A transmission in slot 0, whose ACK is expected in slot 4 on two PUCCHs. *)
Definition example_prefix : list (harq_op (Snr := Z)) :=
  [op_slot (mk_slot 0 0); op_add 0 17921 4; op_dl_tx 0 (mk_slot 0 0) 4 4 0; op_pucch (0%nat, 0%nat); op_pucch (0%nat, 0%nat); op_slot (mk_slot 0 1); op_slot (mk_slot 0 2); op_slot (mk_slot 0 3); op_slot (mk_slot 0 4)].
Definition example_cell_at (k : nat) : harq_repo (Snr := Z) := fold_left (fun r o => after Z.ltb o r) (firstn k example_prefix) (cell_create example_cell).

Lemma example_cell_ok : harq_config_ok example_cell.
Proof. split; vm_compute; repeat split; discriminate. Qed.

Lemma example_step k o : example_prefix !! k = Some o -> cell_reachable Z.ltb example_cell (example_cell_at k) -> cell_op_ok example_cell (example_cell_at k) o -> cell_reachable Z.ltb example_cell (example_cell_at (S k)).
Proof.
  intros Ho Hr Hok. unfold example_cell_at. change firstn with (@take (harq_op (Snr := Z))). rewrite (take_S_r _ _ _ Ho), fold_left_app. apply reachable_after; [apply example_cell_ok|done|done].
Qed.

Lemma example_clock k sl : last_sl_ind (example_cell_at k) = mk_slot 0 sl -> 0 <= sl < 10239 -> started 0 (example_cell_at k) /\ next_slot 0 (example_cell_at k) (mk_slot 0 (sl + 1)).
Proof.
  intros E Hsl. assert (started 0 (example_cell_at k)) as Hs by (unfold started; rewrite E; split; [done|cbn; unfold hyper; lia]). split; [done|]. split; [split; [done|cbn; unfold hyper; lia]|]. intros _. rewrite E. unfold slot_incr. cbn [count_val numerology_val].
  rewrite (hyper_slots 0) by (done || lia). unfold hyper. destruct (Z.eqb_spec (sl + 1) (10240 * 2 ^ 0)); [lia|done].
Qed.

Lemma example_tx : cell_op_ok example_cell (example_cell_at 2) (op_dl_tx 0 (mk_slot 0 0) 4 4 0).
Proof.
  assert (last_sl_ind (example_cell_at 2) = mk_slot 0 0) as E by by vm_compute. split; [by apply Nat.ltb_lt; vm_compute|]. split; [lia|]. split; [by apply (example_clock 2 0)|]. split; [lia|]. exists 0. rewrite E. split; [lia|]. split; [vm_compute; congruence|done].
Qed.

Lemma example_cell_reachable k : (k <= 9)%nat -> cell_reachable Z.ltb example_cell (example_cell_at k).
Proof.
  induction k as [|k IH]; intros Hk; [apply cell_init|]. specialize (IH ltac:(lia)). destruct (example_prefix !! k) as [o|] eqn:E; [|apply lookup_ge_None in E; cbn in E; lia]. apply (example_step k o E IH).
  destruct k as [|[|[|[|[|[|[|[|[|k]]]]]]]]]; [injection E as <-..|lia].
  - split; [split; [done|]; cbn; unfold hyper; lia|]. intros [E _]. by vm_compute in E.
  - split; [by vm_compute|]. split; [by apply Nat.ltb_lt; vm_compute|by vm_compute].
  - apply example_tx.
  - by eexists; vm_compute.
  - by eexists; vm_compute.
  - by apply (example_clock 5 0); [vm_compute|].
  - by apply (example_clock 6 1); [vm_compute|].
  - by apply (example_clock 7 2); [vm_compute|].
  - by apply (example_clock 8 3); [vm_compute|].
Qed.

Lemma example_next : started 0 (example_cell_at 9) /\ next_slot 0 (example_cell_at 9) (mk_slot 0 5).
Proof. apply (example_clock 9 4); [by vm_compute|lia]. Qed.

Lemma harq_never_faults_witness : exists r' es, run_op Z.ltb (op_dl_tx 0 (mk_slot 0 0) 4 4 0) (example_cell_at 2) = Ok (tt, r', es) /\ cell_reachable Z.ltb example_cell r' /\ placed 0 (wheel_size example_cell) r'.
Proof. apply (harq_never_faults Z.ltb example_cell); [apply example_cell_ok|apply example_cell_reachable; lia|apply example_tx]. Defined.

Lemma harq_timeout_exact_witness : (slot_timeout <$> harq_at (example_cell_at 9) (0%nat, 0%nat)) = Some (mk_slot 0 5) /\ exists timed late r', slot_indication (mk_slot 0 5) (example_cell_at 9) = Ok (tt, r', map (timeout_event (example_cell_at 9)) timed ++ map (trapped_event (example_cell_at 9)) late) /\ slot_done (wheel_size example_cell) (example_cell_at 9) (mk_slot 0 5) timed late r' /\
  forall y, y ∈ timed <-> exists h, harq_at (example_cell_at 9) y = Some h /\ status h <> empty /\ slot_timeout h = mk_slot 0 5.
Proof.
  split; [by vm_compute|]. destruct (harq_timeout_exact Z.ltb example_cell (example_cell_at 9) (mk_slot 0 5)) as (timed & late & r' & H1 & H2 & H3); [apply example_cell_ok|apply example_cell_reachable; lia|apply example_next|].
  exists timed, late, r'. split; [exact H1|]. split; [exact H2|]. apply H3. vm_compute. discriminate.
Defined.

Lemma harq_released_in_time_witness :
  (forall x h, harq_at (example_cell_at 9) x = Some h -> status h <> empty -> exists d, 1 <= d <= farthest example_cell /\ slot_timeout h = slot_add (last_sl_ind (example_cell_at 9)) d) /\
  exists r' es, slots (Z.to_nat (wheel_size example_cell)) (example_cell_at 9) = Ok (tt, r', es) /\ forall x h, harq_at r' x = Some h -> status h = empty.
Proof. apply (harq_released_in_time Z.ltb example_cell); [apply example_cell_ok|apply example_cell_reachable; lia|apply example_next]. Defined.

Definition example_process : harq (Snr := Z) := default harq_default (harq_at (example_cell_at 5) (0%nat, 0%nat)).

Lemma dl_ack_best_report_witness : exists r' a, ack_all Z.ltb (0%nat, 0%nat) [(nack, 3); (ack, 7)] (example_cell_at 5) = Ok (repeat no_update 1 ++ [verdict a], r', []) /\ best_report Z.ltb [(nack, 3); (ack, 7)] a /\
  (exists h', harq_at r' (0%nat, 0%nat) = Some h' /\ status h' = outcome a example_process) /\ forall y, y <> (0%nat, 0%nat) -> harq_at r' y = harq_at (example_cell_at 5) y.
Proof.
  apply (dl_ack_best_report Z.ltb example_cell); [apply example_cell_ok|apply example_cell_reachable; lia|lia|lia|by vm_compute|by vm_compute|by vm_compute|by vm_compute|split; by vm_compute|by vm_compute].
Defined.

(** ** Timeouts beyond the wheel *)

Definition run_ops (l : list (harq_op (Snr := Z))) : M (harq_repo (Snr := Z)) harq_event unit := for_each l (run_op Z.ltb).

(** What the first process is like after a run, with the reports. *)
Definition observe (m : M (harq_repo (Snr := Z)) harq_event unit) (r : harq_repo (Snr := Z)) : option (harq_state_t * slot_point * slot_point * list harq_event) :=
  match m r with Ok (_, r', es) => (fun h => (status h, slot_ack h, slot_timeout h, es)) <$> harq_at r' (0%nat, 0%nat) | Fault _ => None end.

Definition long_retx_config : harq_config := mk_harq_config 0 true 1 256 500 16 0.
Definition long_retx_prefix : list (harq_op (Snr := Z)) := [op_slot (mk_slot 0 0); op_add 0 17921 1; op_dl_tx 0 (mk_slot 0 0) 4 4 0; op_dl_ack (0%nat, 0%nat) nack None].

(** [harq_retx_timeout] is taken modulo the size of the wheel: with 15 kHz and 500 ms, a process that waits for its retransmission is discarded
    after 180 slots. *)
Lemma harq_retx_timeout_wraps : observe (run_ops long_retx_prefix ;;; slots 179) (cell_create long_retx_config) = Some (pending_retx, mk_slot 0 4, mk_slot 0 500, []) /\
  observe (run_ops long_retx_prefix ;;; slots 180) (cell_create long_retx_config) = Some (empty, mk_slot 0 4, slot_default, [on_harq_timeout 0 true false]).
Proof. split; by vm_compute. Qed.

Definition ntn_config : harq_config := mk_harq_config 0 false 1 256 100 16 512.
Definition ntn_prefix : list (harq_op (Snr := Z)) := [op_slot (mk_slot 0 0); op_add 0 17921 1; op_ul_tx 0 (mk_slot 0 516) 4; op_ul_crc (0%nat, 0%nat) false; op_ul_retx (0%nat, 0%nat) (mk_slot 0 516)].

(** The timeout of a retransmission counts the cell-specific offset of an NTN cell twice: the process is discarded 4 slots after the grant,
    512 slots before its PUSCH. *)
Lemma harq_ntn_retx_timeout_wraps : observe (run_ops ntn_prefix ;;; slots 3) (cell_create ntn_config) = Some (waiting_ack, mk_slot 0 516, mk_slot 0 1284, []) /\
  observe (run_ops ntn_prefix ;;; slots 4) (cell_create ntn_config) = Some (empty, mk_slot 0 516, slot_default, [on_harq_timeout 0 false false]).
Proof. split; by vm_compute. Qed.
